(* ===== verification/_CoqProject ===== *)
-Q . S2P
Prelude.v
Pmm.v
Slab.v
BlockDev.v
PageCache.v
Task.v
Ring.v
Scheduler.v
Ipc.v
SchedMachine.v
Bytes.v
Partition.v
VfsDefs.v
Ext2.v
Ext2Dir.v
Ext2Ops.v
Ext2Vol.v
Ext2Inodes.v
Ext2Demo.v
Ext2Alloc.v
Ext2File.v
Ext2Block.v
Ext2Names.v
Pipe.v
Ramdisk.v
RamdiskStore.v
Disk.v
DiskBatch.v
Tfs.v
TfsFiles.v
Vfs.v
VfsFds.v
VfsMounts.v
Frames.v
Ext2Frames.v
VfsSystem.v
VfsBackends.v
VfsPipes.v
VfsRuns.v
VfsDescriptors.v
Fault.v
Memory.v
Paging.v
Spaces.v
SpaceOps.v
SpaceCalls.v
SpaceClone.v
SpaceCopy.v
UserMemory.v
AddressSpaces.v
Posix.v
PosixSpec.v
Buffers.v
NetState.v
NetSend.v
NetTcp.v
NetRecv.v
NetWf.v
NetSendSafe.v
NetTcpSafe.v
NetRecvSafe.v
NetWire.v
Net.v
NetDatagram.v
NetStream.v
NetTimers.v
Loader.v
LoaderImage.v
LoaderCalls.v
LoaderSpec.v
LoaderInv.v
LoaderRefs.v
LoaderLoad.v
LoaderRuns.v
Socket.v
SocketRuns.v
Usermode.v
UserFrames.v
UserLoad.v
UserRuns.v
