(* ===== verification/Prelude.v ===== *)
(** * NeuroSpark OS: verification development

    NeuroSpark is a 32-bit x86 kernel written in C (src/kernel).  This library
    models the parts of it that carry state and decide what a program sees:
    memory, tasks and messages, the disk with its caches, the file systems,
    address spaces, permissions, the network stack, loadable modules and programs.  Every
    operation of those parts is a function that can be run; the theorems are about
    these functions.

    ** The program's parts and the files that model them

    Memory.
    - [Pmm]: the bitmap of physical pages (kernel/pmm.c, [pmm_alloc_page],
      [pmm_free_page], [pmm_init]).  The state is the list of the bitmap's bytes.
    - [Slab]: the object caches of the same file ([slab_alloc], [slab_free]); the
      free lists go through the words of the freed objects, as in the code.
    - [Fault], [Memory], [Paging]: physical memory as bytes, the walk of the page
      tables by the processor, and the calls of kernel/paging.c, whose loads and
      stores go through those tables.  [UserMemory] adds the loops of mmap, munmap
      and mprotect (kernel/syscall.c).  [Spaces] holds the invariant, [SpaceOps],
      [SpaceCalls], [SpaceClone] and [SpaceCopy] the specification of each call,
      [AddressSpaces] the theorems.

    Tasks and messages.
    - [Task]: task control blocks (kernel/task.c, kernel/task.h).
    - [Scheduler]: selection, sleeping, exit, kill and the timer tick
      (kernel/scheduler.c), with the lock and the interrupt flag.
    - [Ring], [Ipc]: circular queues, wait queues, events and the four channels
      (same file).  A call that blocks is one definition up to the switch and
      another for what it does when its task runs again.
    - [SchedMachine]: all entry points as the steps of one machine.

    Storage.
    - [BlockDev]: the interface [BlockDev] of a sector device, and the laws
      [ReliableDev] of one that does not lose writes.
    - [PageCache] (kernel/page_cache.c) is a client of the interface and an
      instance of it.  [Disk], [DiskBatch] (kernel/disk.c) are the
      driver above the ports and the AHCI driver, which are the class of [Disk].
    - [Partition]: the two partition table scans (kernel/partition.c).
    - [Bytes]: little-endian integers in buffers, for all on-disk formats.

    File systems.
    - [Ext2], [Ext2Dir], [Ext2Ops]: kernel/ext2fs.c over a sector device.
      [Ext2Vol] relates the state of the driver to an abstract volume, a function
      from block numbers to blocks; [Ext2Inodes], [Ext2Alloc], [Ext2File],
      [Ext2Block] and [Ext2Names] are operations on that volume; [Ext2Demo] holds the
      inode table as such an operation, and a small volume.
    - [Tfs], [TfsFiles]; [Ramdisk], [RamdiskStore]; [Pipe]: the three backends
      that live in kernel/vfs.c.
    - [VfsDefs], [Vfs]: the descriptor layer of kernel/vfs.c over the class of the
      backends' tables of calls; [VfsFds] states what it needs of a backend
      ([lawful_ops]) and proves its tables consistent against that.  [Frames],
      [Ext2Frames] and [VfsBackends] show that the four real
      backends keep the promise; [VfsSystem] puts them together over one disk.
      [VfsMounts], [VfsPipes], [VfsRuns] and [VfsDescriptors] hold the theorems.

    Users.
    - [Posix], [PosixSpec]: identities, the table of path
      attributes, descriptor rights and signals (kernel/posix.c).

    Network.
    - [NetState]: packets and the tables of kernel/net.c; [NetSend] with the UDP
      calls, [NetTcp], [NetRecv]: its calls and the handlers of what arrives.
    - [Buffers], [NetWf] and the files [NetSendSafe], [NetTcpSafe], [NetRecvSafe]: every call keeps the types of the tables and stays within its
      buffers, put together in [Net].
    - [NetWire]: what sending leaves alone and what it puts on the
      wire; [NetDatagram], [NetStream], [NetTimers] hold the theorems on UDP, on
      the order of a TCP stream, and on the retransmission timer.

    - [Socket]: the tables of kernel/net_socket.c and the system calls on sockets
      and epoll objects (kernel/syscall.c), above [Net] and [Vfs].  A call that
      sleeps takes what the system does meanwhile as an argument, one function for
      each sleep; [SocketRuns] holds the invariant, runs in which other tasks work
      during the sleeps, and the theorems.

    Module loader.
    - [Loader]: the tables of kernel/module_loader.c and its searches;
      [LoaderImage]: the checks on an ELF image, its sections, relocations and
      exports; [LoaderCalls]: dlopen, dlclose, dlsym, insmod and rmmod.  What the
      file system answers and what the code of a module does are arguments.
    - [LoaderSpec] states what the searches find, [LoaderInv] the invariant of the
      reference counts and of the pool; [LoaderRefs] and [LoaderLoad] show that
      counting and loading keep it, and [LoaderRuns] holds the theorems.

    User programs.
    - [Usermode]: the loader of flat and ELF images and exec (kernel/usermode.c).  It
      reaches user memory through the class [UserMem]; [KernelMem] is the code's
      own, over [Paging] and a temporary mapping (with a guard that faults on stores outside
      of the user range, where exec runs beside task blocks kept apart from that memory).  [UserFrames] holds what its accesses
      to pages do; [UserLoad] gives a second instance on a plain view of memory and
      shows that the first does what the second does; [UserRuns] holds the theorems.

    ** How the code is represented

    An unsigned C integer is its value in [Z]; each store wraps it to the width of
    its type with [u8], [u16] or [u32], and a signed one with [i32].  A struct is a
    record, a static array a list (or a finite map where it is sparse), a pointer
    into a table an index or, in [Slab] and [Paging], an address in a memory that is
    part of the state.  An access the C language gives no meaning to, outside a
    buffer or at an unmapped address, makes the call end in a fault: [None] in the
    option monads, the fault of [Fault] in the state monads.  Result codes are the C
    integers.

    Loops over arrays are recursions over the list or a count the code itself
    bounds.  Where the code loops on data, the fuel is one the theorems show to be
    enough: the walk of a directory block takes at most 128 entries because each has
    eight bytes at least; path resolution takes as many steps as the path has bytes;
    a free list of a cache is followed no further than the objects it holds; the
    receive ring of the network card is read for as many packets as the poll allows.
    [resolve_path_is_walk], [slab_operations_defined], [wait_queue_wake_all_correct],
    [scheduler_run_refines] and [net_stack_safe] contain the statements that the
    calls return.

    ** What the theorems show

    - Nothing is handed out twice and nothing is lost: pages
      ([pmm_alloc_page_exclusive]), objects ([slab_blocks_disjoint]), frames of
      address spaces ([spaces_isolated], [spaces_released]), inodes and blocks
      ([ext2_bitmaps_refine_sets]), descriptors and handles ([vfs_runs_consistent]).
    - A component implements its abstract specification in every run: the page
      cache the disk, the channels bounded queues, pipes bounded byte queues, the RAM
      disk a store of named files, the paths' attributes a finite map.
    - What is written is what is read: inodes, the contents of ext2 and TFS files,
      names of directories, and datagrams sent from one host to another.
    - Selection, ticks, exits, signals, descriptor calls and mounts have exactly the
      effect the comments of the code promise, on every branch.
    - What arrives from outside cannot break the kernel's tables: partition tables
      (a GUID table is read as it is described, [partition_scan_gpt_correct]),
      directory blocks and packets; unprivileged tasks gain no rights
      ([posix_no_escalation]); a TCP stream is handed out in order whatever the wire
      does ([tcp_in_order]), and a peer that falls silent does not hold a connection
      for ever ([tcp_unacked_reclaimed]).
    - A socket call opens and closes what it says it does and nothing of another
      task ([socket_call_refines]), no access leaves a table ([sockets_run_safe]), an
      epoll object is a finite map and a wait on it reports what is ready
      ([epoll_refines_map]), and waits with a timeout end ([socket_wait_ends]).
    - A module that is in use stays loaded, with all it depends on
      ([modules_stay_loaded]), and loading another does not write over it
      ([load_isolated]).
    - The address space of a program is what the same loader builds on a plain view of
      memory ([exec_builds_space]), its segments are where the headers of the file say
      ([exec_segments_loaded]), and an exec that fails leaves tasks, identities and
      address spaces alone ([exec_replaces_user_task]).

    Where the code does not do what it means to do, the definitions follow the code
    and the theorems state the conditions under which it is right: each doc comment of a
    theorem names them, with the line of the code that needs them.  [Ext2Demo],
    [VfsPipes] and some witnesses run such cases.

    ** What is not modelled

    - Code that draws or prints: the shell, the window manager, the dashboard, the
      graphics, text and memory map output, and the programs and assets they use.
    - Drivers whose work is the order of accesses to registers of a device the
      repository does not describe: AHCI, USB, AC97, PCI, serial port, keyboard and
      mouse.  Where a modelled part calls one it is a class or a parameter.
    - Assembly: the boot sector, interrupt stubs, the context switch and the two
      routines that load CR3 and CR0.  A step of the machine ends where the switch
      would take place.
    - The dispatch of kernel/syscall.c, which copies arguments and calls the parts
      above, except for its loops over user memory and its socket calls.
    - The remote control packets of kernel/net.c, which reach the shell, and the
      tables and arithmetic of the AI runtime.
    - User mode: entering ring 3 and the built-in user programs.  Relocations of a
      program that reach outside of the user range, which the code does not refuse, are
      run by the model ([exec_writes_kernel_memory]) but covered by no theorem.
    - Images whose offsets and sizes wrap in the sums of the module loader or of the
      loader of programs: there the code reads and writes outside of its buffers, and the model faults.
    - Profiling and logging, whose counters nothing reads back. *)

From Stdlib Require Export ZArith Lia.
From stdpp Require Export base tactics numbers list gmap option.

#[export] Set Default Goal Selector "!".
#[global] Open Scope Z_scope.

(** ** Machine integers *)

Declare Scope cint_scope.
Delimit Scope cint_scope with cint.

Create HintDb cint.

(** The C integer types of the i386 target: a value of an unsigned type is
    kept as its Z value, and every store into the type goes through the wrap
    function of its width. *)
Definition u8 (x : Z) : Z := x mod 2 ^ 8.
Definition u16 (x : Z) : Z := x mod 2 ^ 16.
Definition u32 (x : Z) : Z := x mod 2 ^ 32.

(** The conversion of a 32-bit pattern to [int] (two's complement). *)
Definition i32 (x : Z) : Z := (x + 2 ^ 31) mod 2 ^ 32 - 2 ^ 31.

Definition is_u8 (x : Z) : Prop := 0 <= x < 2 ^ 8.
Definition is_u16 (x : Z) : Prop := 0 <= x < 2 ^ 16.
Definition is_u32 (x : Z) : Prop := 0 <= x < 2 ^ 32.
Definition is_i32 (x : Z) : Prop := - 2 ^ 31 <= x < 2 ^ 31.

(** Unsigned and signed 32-bit arithmetic as the code writes it. *)
Notation "x +u y" := (u32 (x + y)) (at level 50, left associativity) : cint_scope.
Notation "x -u y" := (u32 (x - y)) (at level 50, left associativity) : cint_scope.
Notation "x *u y" := (u32 (x * y)) (at level 40, left associativity) : cint_scope.
#[global] Open Scope cint_scope.

Lemma u8_range x : 0 <= u8 x < 256.
Proof. apply Z.mod_pos_bound. lia. Qed.
Lemma u16_range x : 0 <= u16 x < 65536.
Proof. apply Z.mod_pos_bound. lia. Qed.
Lemma u32_range x : 0 <= u32 x < 4294967296.
Proof. apply Z.mod_pos_bound. lia. Qed.

Lemma u8_small x : 0 <= x < 256 -> u8 x = x.
Proof. intros. apply Z.mod_small. lia. Qed.
Lemma u16_small x : 0 <= x < 65536 -> u16 x = x.
Proof. intros. apply Z.mod_small. lia. Qed.
Lemma u32_small x : 0 <= x < 4294967296 -> u32 x = x.
Proof. intros. apply Z.mod_small. lia. Qed.

Lemma i32_range x : -2147483648 <= i32 x < 2147483648.
Proof.
  unfold i32. pose proof (Z.mod_pos_bound (x + 2 ^ 31) (2 ^ 32) ltac:(lia)). lia.
Qed.

Lemma i32_small x : -2147483648 <= x < 2147483648 -> i32 x = x.
Proof. intros. unfold i32. rewrite Z.mod_small; lia. Qed.

Lemma u32_i32 x : u32 (i32 x) = u32 x.
Proof.
  unfold u32, i32. rewrite Zminus_mod, Zmod_mod, <- Zminus_mod. f_equal. lia.
Qed.

#[export] Hint Resolve u8_range u16_range u32_range i32_range : cint.

(** [cint_facts] adds the ranges of the wrapped terms in sight to the
    context, so that [lia] can use them. *)
Ltac cint_fact x lem :=
  lazymatch goal with
  | H : _ <= x < _ |- _ => fail
  | _ => pose proof (lem)
  end.
Ltac cint_facts :=
  repeat match goal with
  | |- context [u32 ?x] => cint_fact (u32 x) (u32_range x)
  | |- context [u16 ?x] => cint_fact (u16 x) (u16_range x)
  | |- context [u8 ?x] => cint_fact (u8 x) (u8_range x)
  | |- context [i32 ?x] => cint_fact (i32 x) (i32_range x)
  | _ : context [u32 ?x] |- _ => cint_fact (u32 x) (u32_range x)
  | _ : context [u16 ?x] |- _ => cint_fact (u16 x) (u16_range x)
  | _ : context [u8 ?x] |- _ => cint_fact (u8 x) (u8_range x)
  | _ : context [i32 ?x] |- _ => cint_fact (i32 x) (i32_range x)
  end.

(** [wsimpl] removes every wrap whose argument [lia] shows to be in range. *)
Ltac wsimpl :=
  repeat first
    [ rewrite u32_small by lia | rewrite u16_small by lia
    | rewrite u8_small by lia | rewrite i32_small by lia ].

(** Boolean tests of the code, turned into propositions. *)
Ltac bsimpl :=
  repeat match goal with
  | H : _ && _ = true |- _ => apply andb_true_iff in H; destruct H
  | H : _ || _ = false |- _ => apply orb_false_iff in H; destruct H
  | H : negb _ = true |- _ => apply negb_true_iff in H
  | H : negb _ = false |- _ => apply negb_false_iff in H
  | H : (_ <? _) = true |- _ => apply Z.ltb_lt in H
  | H : (_ <? _) = false |- _ => apply Z.ltb_ge in H
  | H : (_ <=? _) = true |- _ => apply Z.leb_le in H
  | H : (_ <=? _) = false |- _ => apply Z.leb_gt in H
  | H : (_ =? _) = true |- _ => apply Z.eqb_eq in H
  | H : (_ =? _) = false |- _ => apply Z.eqb_neq in H
  end.

(** Case analysis on the test of the first conditional in sight. *)
Ltac case_if :=
  match goal with
  | |- context [if ?b then _ else _] => let E := fresh "E" in destruct b eqn:E
  | H : context [if ?b then _ else _] |- _ => let E := fresh "E" in destruct b eqn:E
  end.

(** ** Bits *)

Lemma u8_testbit x n : 0 <= n -> Z.testbit (u8 x) n = (n <? 8) && Z.testbit x n.
Proof.
  intros Hn. unfold u8. destruct (Z.ltb_spec n 8).
  - rewrite Z.mod_pow2_bits_low by lia. done.
  - rewrite Z.mod_pow2_bits_high by lia. done.
Qed.

Lemma one_bit n m : 0 <= n -> 0 <= m -> Z.testbit (Z.shiftl 1 n) m = (n =? m).
Proof.
  intros. rewrite Z.shiftl_1_l, Z.pow2_bits_eqb by lia. done.
Qed.

(** [x & (1 << n)] is nonzero exactly when bit [n] of [x] is set. *)
Lemma land_one_bit x n : 0 <= n ->
  negb (Z.land x (Z.shiftl 1 n) =? 0) = Z.testbit x n.
Proof.
  intros Hn. destruct (Z.testbit x n) eqn:E.
  - apply negb_true_iff, Z.eqb_neq. intros H.
    assert (Z.testbit (Z.land x (Z.shiftl 1 n)) n = true) as Ht
      by (rewrite Z.land_spec, one_bit, E, Z.eqb_refl by lia; done).
    by rewrite H, Z.bits_0 in Ht.
  - apply negb_false_iff, Z.eqb_eq. apply Z.bits_inj'. intros m Hm.
    rewrite Z.land_spec, one_bit, Z.bits_0 by lia.
    destruct (Z.eqb_spec n m) as [<-|_]; [by rewrite E|by destruct (Z.testbit x m)].
Qed.

(** Setting and clearing one bit of a byte. *)
Definition byte_set (b n : Z) : Z := u8 (Z.lor b (Z.shiftl 1 n)).
Definition byte_clear (b n : Z) : Z := u8 (Z.land b (Z.lnot (Z.shiftl 1 n))).

Lemma byte_set_testbit b n m : 0 <= n < 8 -> 0 <= m < 8 ->
  Z.testbit (byte_set b n) m = (n =? m) || Z.testbit b m.
Proof.
  intros. unfold byte_set. rewrite u8_testbit, Z.lor_spec, one_bit by lia.
  destruct (Z.ltb_spec m 8); [|lia]. by rewrite orb_comm.
Qed.

Lemma byte_clear_testbit b n m : 0 <= n < 8 -> 0 <= m < 8 ->
  Z.testbit (byte_clear b n) m = negb (n =? m) && Z.testbit b m.
Proof.
  intros. unfold byte_clear.
  rewrite u8_testbit, Z.land_spec, Z.lnot_spec, one_bit by lia.
  destruct (Z.ltb_spec m 8); [|lia]. by destruct (n =? m), (Z.testbit b m).
Qed.

(** A bitmap kept as a list of bytes: the test, set and clear the code does
    on [map[i / 8]] and bit [i % 8].  A byte index outside the array yields
    [None]. *)
Definition bm_test (bm : list Z) (i : Z) : option bool :=
  b ← bm !! Z.to_nat (i / 8); Some (negb (Z.land b (Z.shiftl 1 (i mod 8)) =? 0)).
Definition bm_set (bm : list Z) (i : Z) : option (list Z) :=
  b ← bm !! Z.to_nat (i / 8);
  Some (<[Z.to_nat (i / 8) := byte_set b (i mod 8)]> bm).
Definition bm_clear (bm : list Z) (i : Z) : option (list Z) :=
  b ← bm !! Z.to_nat (i / 8);
  Some (<[Z.to_nat (i / 8) := byte_clear b (i mod 8)]> bm).

(** The set of bit numbers a bitmap holds, as a characteristic function. *)
Definition bm_bit (bm : list Z) (i : Z) : bool :=
  match bm !! Z.to_nat (i / 8) with
  | Some b => Z.testbit b (i mod 8)
  | None => false
  end.

Definition bm_upd (f : Z -> bool) (i : Z) (v : bool) : Z -> bool :=
  fun j => if i =? j then v else f j.

Lemma bm_lookup (bm : list Z) i :
  0 <= i < 8 * Z.of_nat (length bm) -> exists b, bm !! Z.to_nat (i / 8) = Some b.
Proof.
  intros. apply lookup_lt_is_Some_2.
  assert (i / 8 < Z.of_nat (length bm)) by (apply Z.div_lt_upper_bound; lia). lia.
Qed.

Lemma bm_test_ok (bm : list Z) i : 0 <= i < 8 * Z.of_nat (length bm) ->
  bm_test bm i = Some (bm_bit bm i).
Proof.
  intros H. destruct (bm_lookup bm i H) as [b Hb].
  unfold bm_test, bm_bit. rewrite Hb. simpl. f_equal. apply land_one_bit.
  apply Z.mod_pos_bound. lia.
Qed.

Section bm_update.
Context (bm : list Z) (i : Z) (Hi : 0 <= i < 8 * Z.of_nat (length bm)).

Lemma bm_store_bit (b b' : Z) (v : bool) :
  bm !! Z.to_nat (i / 8) = Some b ->
  (forall m, 0 <= m < 8 ->
    Z.testbit b' m = if i mod 8 =? m then v else Z.testbit b m) ->
  forall j, 0 <= j ->
    bm_bit (<[Z.to_nat (i / 8) := b']> bm) j = bm_upd (bm_bit bm) i v j.
Proof.
  intros Hb Hb' j Hj. unfold bm_bit, bm_upd.
  assert (0 <= i / 8) by (apply Z.div_pos; lia).
  assert (0 <= j / 8) by (apply Z.div_pos; lia).
  pose proof (Z.mod_pos_bound j 8 ltac:(lia)).
  pose proof (Z_div_mod_eq_full i 8). pose proof (Z_div_mod_eq_full j 8).
  pose proof (lookup_lt_Some _ _ _ Hb).
  destruct (decide (i / 8 = j / 8)) as [He|Hne].
  - rewrite <- He, list_lookup_insert_eq, Hb, Hb' by lia.
    destruct (Z.eqb_spec (i mod 8) (j mod 8)), (Z.eqb_spec i j); done || lia.
  - rewrite list_lookup_insert_ne by lia.
    destruct (Z.eqb_spec i j); [congruence|done].
Qed.

Lemma bm_set_ok : exists bm', bm_set bm i = Some bm' /\ length bm' = length bm /\
  forall j, 0 <= j -> bm_bit bm' j = bm_upd (bm_bit bm) i true j.
Proof.
  destruct (bm_lookup bm i Hi) as [b Hb]. unfold bm_set. rewrite Hb. simpl.
  eexists. split; [done|]. split; [apply length_insert|].
  intros j Hj. apply bm_store_bit with b; [done| |done].
  intros m Hm. rewrite byte_set_testbit by (try apply Z.mod_pos_bound; lia).
  by destruct (i mod 8 =? m).
Qed.

Lemma bm_clear_ok : exists bm', bm_clear bm i = Some bm' /\ length bm' = length bm /\
  forall j, 0 <= j -> bm_bit bm' j = bm_upd (bm_bit bm) i false j.
Proof.
  destruct (bm_lookup bm i Hi) as [b Hb]. unfold bm_clear. rewrite Hb. simpl.
  eexists. split; [done|]. split; [apply length_insert|].
  intros j Hj. apply bm_store_bit with b; [done| |done].
  intros m Hm. rewrite byte_clear_testbit by (try apply Z.mod_pos_bound; lia).
  by destruct (i mod 8 =? m).
Qed.
End bm_update.

(** ** Record fields *)

(** [r <| f := v |>] is the record [r] after the assignment [r.f = v].  The
    updater of a field is computed from an eta-expansion of the record type,
    which each record declares once as an instance of [Fields]. *)
Class Fields (R : Type) := fields_eta : R -> R.
Class Updater {R T : Type} (proj : R -> T) := update_field : (T -> T) -> R -> R.
Arguments update_field {R T} proj {_} f r.

Ltac build_updater R proj :=
  let eta := constr:(fields_eta (R := R)) in
  let inst := match eta with @fields_eta _ ?i => i end in
  let body := eval hnf in inst in
  match eval pattern proj in body with
  | ?k _ =>
      let u := eval cbv beta in (fun f => k (fun r => f (proj r))) in exact u
  end.

#[export] Hint Extern 1 (@Updater ?R _ ?proj) => build_updater R proj : typeclass_instances.

Notation "r <| f := v |>" := (update_field f (fun _ => v) r)
  (at level 1, left associativity, f at level 0, v at level 200) : cint_scope.
Notation "r <| f ::= g |>" := (update_field f g r)
  (at level 1, left associativity, f at level 0, g at level 200) : cint_scope.

(** ** State passing *)

(** A call that reads and changes a state [S] and returns an [A], with the
    sequencing notation [x ← m; k]. *)
Definition ST (S A : Type) : Type := S -> S * A.

#[export] Instance ST_ret S : MRet (ST S) := fun A a s => (s, a).
#[export] Instance ST_bind S : MBind (ST S) := fun A B k m s => let '(s', a) := m s in k a s'.

Definition get {S} : ST S S := fun s => (s, s).
Definition modify {S} (f : S -> S) : ST S unit := fun s => (f s, tt).

(** [wp m Q s]: the call [m] from the state [s] ends in a state and with a result
    that satisfy [Q]. *)
Definition wp {S A} (m : ST S A) (Q : S -> A -> Prop) (s : S) : Prop := Q (fst (m s)) (snd (m s)).

Section Wp.
Context {S : Type}.

Lemma wp_ret {A} (a : A) (Q : S -> A -> Prop) s : Q s a -> wp (mret a) Q s.
Proof. done. Qed.

Lemma wp_bind {A B} (m : ST S A) (k : A -> ST S B) Q s :
  wp m (fun s' a => wp (k a) Q s') s -> wp (m ≫= k) Q s.
Proof. unfold wp, mbind, ST_bind. by destruct (m s). Qed.

Lemma wp_get {B} (k : S -> ST S B) Q s : wp (k s) Q s -> wp (get ≫= k) Q s.
Proof. done. Qed.

Lemma wp_modify (f : S -> S) (Q : S -> unit -> Prop) s : Q (f s) tt -> wp (modify f) Q s.
Proof. done. Qed.

Lemma wp_mono {A} (m : ST S A) (Q Q' : S -> A -> Prop) s :
  wp m Q s -> (forall s' a, Q s' a -> Q' s' a) -> wp m Q' s.
Proof. unfold wp. eauto. Qed.

Lemma wp_ext {A} (m m' : ST S A) Q s : (forall t, m t = m' t) -> wp m' Q s -> wp m Q s.
Proof. unfold wp. intros ->. done. Qed.

Lemma wp_run {A} (m : ST S A) (Q : S -> A -> Prop) s : wp m Q s -> exists s' a, m s = (s', a) /\ Q s' a.
Proof. unfold wp. destruct (m s) as [s' a]. eauto. Qed.

(** A call with known outcome in front of the rest. *)
Lemma wp_seq {A B} (m : ST S A) (k : A -> ST S B) Q R s :
  wp m R s -> (forall s' a, R s' a -> wp (k a) Q s') -> wp (m ≫= k) Q s.
Proof. intros Hm Hk. apply wp_bind. by eapply wp_mono. Qed.
End Wp.

(** [wp_call lem] runs the first call of a sequence by its specification. *)
Ltac wp_call lem := eapply wp_seq; [eapply lem|cbv beta].

(** ** Searches and loops *)

(** The first index whose element satisfies the test: the [for] loops that
    return or break at the first hit. *)
Fixpoint find_idx {A} (p : A -> bool) (l : list A) : option nat :=
  match l with
  | [] => None
  | x :: l' => if p x then Some O else S <$> find_idx p l'
  end.

(** The [int] the code returns for a search: the index, or -1. *)
Definition idx_or_neg (o : option nat) : Z :=
  match o with Some i => Z.of_nat i | None => -1 end.

Lemma find_idx_Some {A} (p : A -> bool) (l : list A) i :
  find_idx p l = Some i <->
  (exists x, l !! i = Some x /\ p x = true) /\
  (forall j y, (j < i)%nat -> l !! j = Some y -> p y = false).
Proof.
  revert i. induction l as [|x l IH]; intros i; simpl.
  - split; [done|]. intros [[x [H _]] _]. by rewrite lookup_nil in H.
  - destruct (p x) eqn:Hp.
    + split.
      * intros [= <-]. split; [by exists x|]. intros; lia.
      * intros [_ Hlt]. destruct i as [|i]; [done|].
        specialize (Hlt O x ltac:(lia) eq_refl). congruence.
    + rewrite fmap_Some. split.
      * intros (k & Hk & ->). apply IH in Hk as [Hx Hlt]. split; [done|].
        intros [|j] y Hj Hy; simpl in Hy; [congruence|].
        apply (Hlt j); [lia|done].
      * intros [[y [Hy Hpy]] Hlt]. destruct i as [|i]; simpl in Hy; [congruence|].
        exists i. split; [|done]. apply IH. split; [by exists y|].
        intros j z Hj Hz. apply (Hlt (S j)); [lia|done].
Qed.

Lemma find_idx_None {A} (p : A -> bool) (l : list A) :
  find_idx p l = None <-> forall j y, l !! j = Some y -> p y = false.
Proof.
  induction l as [|x l IH]; simpl.
  - split; [|done]. intros _ j y H. by rewrite lookup_nil in H.
  - destruct (p x) eqn:Hp.
    + split; [done|]. intros H. specialize (H O x eq_refl). congruence.
    + rewrite fmap_None, IH. split.
      * intros H [|j] y Hy; simpl in Hy; [congruence|eauto].
      * intros H j y Hy. apply (H (S j)). done.
Qed.

Lemma find_idx_lt {A} (p : A -> bool) (l : list A) i :
  find_idx p l = Some i -> (i < length l)%nat.
Proof.
  intros H. apply find_idx_Some in H as [[x [H _]] _]. by eapply lookup_lt_Some.
Qed.

Lemma find_idx_is_Some {A} (p : A -> bool) (l : list A) j y :
  l !! j = Some y -> p y = true -> exists i, find_idx p l = Some i.
Proof.
  intros Hj Hp. destruct (find_idx p l) eqn:E; [eauto|].
  rewrite find_idx_None in E. rewrite (E _ _ Hj) in Hp. done.
Qed.

Lemma find_idx_ext {A B} (p : A -> bool) (q : B -> bool) l l' :
  (forall i, p <$> l !! i = q <$> l' !! i) -> find_idx p l = find_idx q l'.
Proof.
  revert l'. induction l as [|x l IH]; intros [|y l'] He; try done; try by specialize (He O).
  simpl. pose proof (He O) as E. simpl in E. injection E as ->.
  destruct (q y); [done|]. f_equal. apply IH. intros i. apply (He (S i)).
Qed.

(** [for (i = lo; i < lo + n; i++) body], where the body may return early. *)
Fixpoint for_until {S R} (body : nat -> S -> S * option R) (lo n : nat) (s : S)
  : S * option R :=
  match n with
  | O => (s, None)
  | S n' => match body lo s with
            | (s', Some r) => (s', Some r)
            | (s', None) => for_until body (Datatypes.S lo) n' s'
            end
  end.

Lemma for_until_inv {S R} (body : nat -> S -> S * option R) (I : nat -> S -> Prop) :
  forall n lo s, I lo s ->
  (forall j t t', (lo <= j < lo + n)%nat -> I j t -> body j t = (t', None) ->
     I (Datatypes.S j) t') ->
  match for_until body lo n s with
  | (s', None) => I (lo + n)%nat s'
  | (s', Some r) => exists j t, (lo <= j < lo + n)%nat /\ I j t /\
                                body j t = (s', Some r)
  end.
Proof.
  induction n as [|n IH]; intros lo s HI Hstep; simpl.
  - by rewrite Nat.add_0_r.
  - destruct (body lo s) as [s' [r|]] eqn:Hb.
    + exists lo, s. split; [lia|done].
    + specialize (IH (Datatypes.S lo) s').
      rewrite <- Nat.add_succ_comm.
      destruct (for_until body (Datatypes.S lo) n s') as [s'' [r|]].
      * destruct IH as (j & t & Hj & Ht); [eapply Hstep; eauto; lia| |].
        { intros. eapply Hstep; eauto; lia. }
        exists j, t. split; [lia|done].
      * apply IH; [eapply Hstep; eauto; lia|].
        intros. eapply Hstep; eauto; lia.
Qed.

(** [for (i = lo; i < lo + n; i++) body] without early exit. *)
Fixpoint for_each {S} (body : nat -> S -> S) (lo n : nat) (s : S) : S :=
  match n with
  | O => s
  | S n' => for_each body (Datatypes.S lo) n' (body lo s)
  end.

Lemma for_each_inv {S} (body : nat -> S -> S) (I : nat -> S -> Prop) :
  forall n lo s, I lo s ->
  (forall j t, (lo <= j < lo + n)%nat -> I j t -> I (Datatypes.S j) (body j t)) ->
  I (lo + n)%nat (for_each body lo n s).
Proof.
  induction n as [|n IH]; intros lo s HI Hstep; simpl.
  - by rewrite Nat.add_0_r.
  - rewrite <- Nat.add_succ_comm. apply IH; [apply Hstep; [lia|done]|].
    intros. apply Hstep; [lia|done].
Qed.

(** Reading an array at a C index. *)
Notation "l .[ i ]" := (l !!! Z.to_nat i) (at level 1, left associativity,
  format "l .[ i ]") : cint_scope.

Lemma lookup_total_Some {A} `{Inhabited A} (l : list A) i :
  (i < length l)%nat -> l !! i = Some (l !!! i).
Proof. intros. by apply list_lookup_lookup_total_lt. Qed.

(** A property of every number of a range, by computation. *)
Lemma range_check (f : Z -> bool) lo n :
  forallb f (seqZ lo n) = true -> forall x, lo <= x < lo + n -> f x = true.
Proof.
  intros Hf x Hx. rewrite forallb_forall in Hf. apply Hf. apply list_elem_of_In, elem_of_seqZ. done.
Qed.

(** Writing an array at a C index. *)
Section Cells.
Context {A : Type} `{Inhabited A}.
Implicit Types l : list A.

Lemma alter_cell l f i : (i < length l)%nat -> alter f i l = <[i := f (l !!! i)]> l.
Proof.
  intros Hi. apply list_eq. intros j. destruct (decide (i = j)) as [<-|Hne].
  - rewrite list_lookup_alter_eq, list_lookup_insert_eq by done.
    by rewrite (list_lookup_lookup_total_lt l i).
  - by rewrite list_lookup_alter_ne, list_lookup_insert_ne.
Qed.

Lemma cell_insert l i v : 0 <= i < Z.of_nat (length l) -> (<[Z.to_nat i := v]> l).[i] = v.
Proof. intros. apply list_lookup_total_insert_eq. lia. Qed.

Lemma cell_insert_ne l i j v : 0 <= i -> 0 <= j -> i <> j -> (<[Z.to_nat i := v]> l).[j] = l.[j].
Proof. intros. apply list_lookup_total_insert_ne. lia. Qed.
End Cells.

(** ** Runs *)

(** A sequence of operations on a machine, with the result of each. *)
Fixpoint run_ops {O S R} (step : O -> S -> S * R) (ops : list O) (s : S) : S * list R :=
  match ops with
  | [] => (s, [])
  | o :: ops' => let '(s, r) := step o s in let '(s, rs) := run_ops step ops' s in (s, r :: rs)
  end.

(** A simulation between two machines gives equal results of every run. *)
Lemma run_ops_sim {O S T R} (step : O -> S -> S * R) (step' : O -> T -> T * R) (ok : O -> Prop)
    (I : S -> T -> Prop) :
  (forall o s t, ok o -> I s t ->
     I (fst (step o s)) (fst (step' o t)) /\ snd (step o s) = snd (step' o t)) ->
  forall ops s t, Forall ok ops -> I s t -> snd (run_ops step ops s) = snd (run_ops step' ops t).
Proof.
  intros Hsim ops. induction ops as [|o ops IH]; intros s t Hok HI; [done|]. simpl.
  inversion Hok; subst. destruct (Hsim o s t) as [HI' Hr]; [done..|].
  destruct (step o s) as [s' r], (step' o t) as [t' r']. simpl in *. subst r'.
  specialize (IH s' t'). destruct (run_ops step ops s'), (run_ops step' ops t'). simpl in *. f_equal. auto.
Qed.
