(* ===== verification/Pmm.v ===== *)
(** * Physical page allocator (kernel/pmm.c, lines 1-12, 94-150 and 222-294)

    The bitmap of 4 KiB pages: one byte holds eight pages.  A page address
    outside the 32 MiB the bitmap describes makes the C code index
    [memory_bitmap] out of range; the operations return [None] there. *)
From S2P Require Import Prelude.

Definition PAGE_SIZE : Z := 4096.
Definition MEMORY_MAX : Z := 0x2000000.
Definition BITMAP_SIZE : nat := Z.to_nat (MEMORY_MAX / PAGE_SIZE / 8).
(** [BITMAP_SIZE * 8], the number of pages. *)
Definition PAGE_COUNT : nat := BITMAP_SIZE * 8.

Record PmmState := {
  memory_bitmap : list Z;
  pmm_alloc_calls : Z;
  pmm_free_calls : Z
}.

Definition with_bitmap (bm : list Z) (s : PmmState) : PmmState :=
  {| memory_bitmap := bm; pmm_alloc_calls := pmm_alloc_calls s;
     pmm_free_calls := pmm_free_calls s |}.

Definition pmm_set_page (page_addr : Z) (s : PmmState) : option PmmState :=
  let page := page_addr / PAGE_SIZE in
  bm ← bm_set (memory_bitmap s) page; Some (with_bitmap bm s).

Definition pmm_free_page (page_addr : Z) (s : PmmState) : option PmmState :=
  let page := page_addr / PAGE_SIZE in
  if page_addr <? 0x100000 then Some s
  else
    let s := {| memory_bitmap := memory_bitmap s;
                pmm_alloc_calls := pmm_alloc_calls s;
                pmm_free_calls := pmm_free_calls s +u 1 |} in
    bm ← bm_clear (memory_bitmap s) page; Some (with_bitmap bm s).

Definition pmm_is_page_used (page_addr : Z) (s : PmmState) : option bool :=
  bm_test (memory_bitmap s) (page_addr / PAGE_SIZE).

(** The scan of [pmm_alloc_page] from page [i], [n] pages to go. *)
Fixpoint pmm_alloc_scan (n : nat) (i : Z) (s : PmmState) : option (PmmState * Z) :=
  match n with
  | O => Some (s, 0)
  | S n' =>
      let addr := i *u PAGE_SIZE in
      used ← pmm_is_page_used addr s;
      if negb used then s' ← pmm_set_page addr s; Some (s', addr)
      else pmm_alloc_scan n' (i + 1) s
  end.

Definition pmm_alloc_page (s : PmmState) : option (PmmState * Z) :=
  pmm_alloc_scan PAGE_COUNT 0
    {| memory_bitmap := memory_bitmap s;
       pmm_alloc_calls := pmm_alloc_calls s +u 1;
       pmm_free_calls := pmm_free_calls s |}.

(** The reservation loop of [init_pmm]; [fuel] bounds its iterations. *)
Fixpoint pmm_reserve (fuel : nat) (addr kernel_top : Z) (s : PmmState)
  : option PmmState :=
  if addr <? kernel_top then
    match fuel with
    | O => None
    | S f => s' ← pmm_set_page addr s; pmm_reserve f (addr +u PAGE_SIZE) kernel_top s'
    end
  else Some s.

(** [kernel_top] is the linker symbol [_kernel_end]. *)
Definition init_pmm (kernel_top : Z) (s : PmmState) : option PmmState :=
  pmm_reserve (S PAGE_COUNT) 0 kernel_top
    (with_bitmap (replicate BITMAP_SIZE 0) s).

(** The count of [pmm_get_free_pages] over [n] pages from page [i]. *)
Fixpoint count_free (n : nat) (i : Z) (s : PmmState) (free_count : Z) : option Z :=
  match n with
  | O => Some free_count
  | S n' =>
      used ← pmm_is_page_used (i *u PAGE_SIZE) s;
      count_free n' (i + 1) s (if negb used then free_count + 1 else free_count)
  end.

Definition first_user_page : Z := 0x100000 / PAGE_SIZE.

Definition pmm_get_free_pages (s : PmmState) : option Z :=
  count_free (PAGE_COUNT - Z.to_nat first_user_page) first_user_page s 0.

Definition pmm_get_total_pages : Z := Z.of_nat PAGE_COUNT.

Record PmmStats := {
  total_pages : Z; used_pages : Z; free_pages : Z; largest_free_run : Z;
  free_runs : Z; fragmentation_permille : Z; alloc_calls : Z; free_calls : Z
}.

(** The four counters of the scan in [pmm_get_stats]. *)
Record RunScan := { rs_used : Z; rs_largest : Z; rs_cur : Z; rs_runs : Z }.

Definition run_step (used : bool) (r : RunScan) : RunScan :=
  if negb used then
    let cur := rs_cur r +u 1 in
    {| rs_used := rs_used r;
       rs_largest := if rs_largest r <? cur then cur else rs_largest r;
       rs_cur := cur;
       rs_runs := if cur =? 1 then rs_runs r +u 1 else rs_runs r |}
  else
    {| rs_used := rs_used r +u 1; rs_largest := rs_largest r; rs_cur := 0;
       rs_runs := rs_runs r |}.

Fixpoint run_scan (n : nat) (i : Z) (s : PmmState) (r : RunScan) : option RunScan :=
  match n with
  | O => Some r
  | S n' =>
      used ← pmm_is_page_used (i *u PAGE_SIZE) s;
      run_scan n' (i + 1) s (run_step used r)
  end.

(** The fragmentation figure computed from the free count and largest run. *)
Definition fragmentation (free largest : Z) : Z :=
  if (free =? 0) || (largest =? 0) then 0
  else 1000 -u ((largest *u 1000) / free).

Definition pmm_get_stats (s : PmmState) : option PmmStats :=
  let total := Z.of_nat PAGE_COUNT -u first_user_page in
  r ← run_scan (PAGE_COUNT - Z.to_nat first_user_page) first_user_page s
        {| rs_used := 0; rs_largest := 0; rs_cur := 0; rs_runs := 0 |};
  let free := total -u rs_used r in
  Some {| total_pages := total; used_pages := rs_used r; free_pages := free;
          largest_free_run := rs_largest r; free_runs := rs_runs r;
          fragmentation_permille := fragmentation free (rs_largest r);
          alloc_calls := pmm_alloc_calls s; free_calls := pmm_free_calls s |}.

(** ** Well-formedness and the abstract view: the set of used pages *)

Definition pmm_wf (s : PmmState) : Prop := length (memory_bitmap s) = BITMAP_SIZE.
Definition page_used (s : PmmState) (p : Z) : bool := bm_bit (memory_bitmap s) p.
Definition valid_page (p : Z) : Prop := 0 <= p < Z.of_nat PAGE_COUNT.

Lemma PAGE_COUNT_eq : Z.of_nat PAGE_COUNT = 8192.
Proof. reflexivity. Qed.
Lemma BITMAP_SIZE_eq : Z.of_nat BITMAP_SIZE = 1024.
Proof. reflexivity. Qed.

Lemma user_page_count : exists N,
  (PAGE_COUNT - Z.to_nat first_user_page)%nat = N /\ Z.of_nat N = 7936.
Proof. eexists. split; reflexivity. Qed.
#[global] Opaque PAGE_COUNT BITMAP_SIZE.

Lemma valid_page_bits s p : pmm_wf s -> valid_page p ->
  0 <= p < 8 * Z.of_nat (length (memory_bitmap s)).
Proof.
  unfold pmm_wf, valid_page. intros ->. rewrite PAGE_COUNT_eq, BITMAP_SIZE_eq. lia.
Qed.
#[local] Hint Resolve valid_page_bits : core.

Lemma page_of_addr p : 0 <= p < 8192 -> (p *u PAGE_SIZE) / PAGE_SIZE = p.
Proof. intros. unfold PAGE_SIZE. wsimpl. apply Z.div_mul. lia. Qed.

Lemma pmm_is_page_used_ok s a : pmm_wf s -> valid_page (a / PAGE_SIZE) ->
  pmm_is_page_used a s = Some (page_used s (a / PAGE_SIZE)).
Proof. intros. apply bm_test_ok. auto. Qed.

(** What a store of one bit leaves behind. *)
Definition marks (s : PmmState) (p : Z) (v : bool) (s' : PmmState) : Prop :=
  pmm_wf s' /\ forall j, 0 <= j -> page_used s' j = bm_upd (page_used s) p v j.

Lemma pmm_set_page_ok s a : pmm_wf s -> valid_page (a / PAGE_SIZE) ->
  exists s', pmm_set_page a s = Some s' /\ marks s (a / PAGE_SIZE) true s'.
Proof.
  intros Hwf Hp. unfold pmm_set_page.
  destruct (bm_set_ok (memory_bitmap s) (a / PAGE_SIZE)) as (bm & -> & Hl & Hb); [auto|].
  simpl. eexists. split; [done|]. split; [|done]. unfold pmm_wf. simpl. congruence.
Qed.

(** The outcome of the allocation scan over pages [i], ..., [i + n - 1]. *)
Definition alloc_result (n : nat) (i : Z) (s : PmmState) (r : option (PmmState * Z)) : Prop :=
  (exists s' p, r = Some (s', p * PAGE_SIZE) /\ i <= p < i + Z.of_nat n /\
     page_used s p = false /\ (forall q, i <= q < p -> page_used s q = true) /\
     marks s p true s') \/
  (r = Some (s, 0) /\ forall q, i <= q < i + Z.of_nat n -> page_used s q = true).

Lemma pmm_alloc_scan_ok s n i :
  pmm_wf s -> 0 <= i -> i + Z.of_nat n <= 8192 ->
  alloc_result n i s (pmm_alloc_scan n i s).
Proof.
  intros Hwf. revert i. induction n as [|n IH]; intros i Hi Hn; simpl.
  { right. split; [done|]. lia. }
  assert (Hpage : (i *u PAGE_SIZE) / PAGE_SIZE = i) by (apply page_of_addr; lia).
  assert (Hv : valid_page ((i *u PAGE_SIZE) / PAGE_SIZE))
    by (rewrite Hpage; unfold valid_page; rewrite PAGE_COUNT_eq; lia).
  rewrite pmm_is_page_used_ok by done. simpl. rewrite Hpage in *.
  destruct (page_used s i) eqn:Eu; simpl.
  - destruct (IH (i + 1)) as [(s' & p & Hr & Hp & Hf & Hq & Hm)|[Hr Hq]]; [lia..| |].
    + left. exists s', p. split_and!; [done|lia|lia|done| |done].
      intros q ?. destruct (decide (q = i)) as [->|]; [done|]. apply Hq. lia.
    + right. split; [done|]. intros q ?.
      destruct (decide (q = i)) as [->|]; [done|]. apply Hq. lia.
  - left. destruct (pmm_set_page_ok s (i *u PAGE_SIZE)) as (s' & -> & Hm);
      [done|by rewrite Hpage|].
    rewrite Hpage in Hm. simpl. exists s', i. split_and!; try lia; try done.
    do 2 f_equal. unfold PAGE_SIZE. by wsimpl.
Qed.

(** [pmm_alloc_page] never indexes the bitmap out of range; it returns the
    address of the lowest free page, which it marks used while leaving every
    other page as it was, or 0 with the bitmap unchanged when every page is in
    use. *)
Lemma pmm_alloc_page_ok s (Hwf : pmm_wf s) :
  (exists s' p, pmm_alloc_page s = Some (s', p * PAGE_SIZE) /\ valid_page p /\
     page_used s p = false /\ (forall q, 0 <= q < p -> page_used s q = true) /\
     pmm_wf s' /\
     (forall q, 0 <= q -> page_used s' q = if p =? q then true else page_used s q)) \/
  (exists s', pmm_alloc_page s = Some (s', 0) /\ memory_bitmap s' = memory_bitmap s /\
     forall q, valid_page q -> page_used s q = true).
Proof.
  unfold pmm_alloc_page.
  set (s0 := {| memory_bitmap := _ |}).
  destruct (pmm_alloc_scan_ok s0 PAGE_COUNT 0) as [(s' & p & H)|H];
    [done|lia|rewrite PAGE_COUNT_eq; lia| |].
  - left. exists s', p. destruct H as (-> & Hp & Hf & Hq & Hw & Hj).
    split_and!; try done; unfold valid_page; lia.
  - right. exists s0. destruct H as [-> Hq]. done.
Qed.

(** ** Freeing *)

(** [pmm_free_page] on every address: below 1 MiB nothing changes, inside
    the managed range exactly the page of the address becomes free and the
    call is counted, and past the 32 MiB of the bitmap the code indexes out of
    range. *)
Lemma pmm_free_page_ok s a (Hwf : pmm_wf s) (Ha : is_u32 a) :
  (a < 0x100000 /\ pmm_free_page a s = Some s) \/
  (0x100000 <= a < MEMORY_MAX /\ exists s', pmm_free_page a s = Some s' /\ pmm_wf s' /\
     pmm_free_calls s' = pmm_free_calls s +u 1 /\
     pmm_alloc_calls s' = pmm_alloc_calls s /\
     forall q, 0 <= q -> page_used s' q =
       if (a / PAGE_SIZE) =? q then false else page_used s q) \/
  (MEMORY_MAX <= a /\ pmm_free_page a s = None).
Proof.
  unfold is_u32 in Ha. unfold pmm_free_page.
  destruct (Z.ltb_spec a 0x100000); [by left|right].
  destruct (decide (a < MEMORY_MAX)) as [Hm|Hm]; [left|right]; (split; [lia|]).
  - assert (Hv : valid_page (a / PAGE_SIZE)).
    { unfold valid_page. rewrite PAGE_COUNT_eq. unfold PAGE_SIZE, MEMORY_MAX in *.
      split; [apply Z.div_pos; lia|apply Z.div_lt_upper_bound; lia]. }
    destruct (bm_clear_ok (memory_bitmap s) (a / PAGE_SIZE)) as (bm & Hc & Hl & Hb); [auto|].
    simpl. rewrite Hc. simpl. eexists. split_and!; [done| |done|done|done].
    unfold pmm_wf. simpl. by rewrite Hl.
  - simpl. unfold bm_clear. rewrite lookup_ge_None_2; [done|].
    rewrite Hwf. unfold PAGE_SIZE, MEMORY_MAX in *.
    assert (1024 <= a / 4096 / 8)
      by (rewrite Z.div_div by lia; apply Z.div_le_lower_bound; lia).
    pose proof BITMAP_SIZE_eq. lia.
Qed.

(** ** Initialisation *)

Lemma pmm_reserve_ok top fuel addr s :
  pmm_wf s -> 0 <= top <= MEMORY_MAX -> 0 <= addr -> addr mod PAGE_SIZE = 0 ->
  top - addr <= Z.of_nat fuel * PAGE_SIZE ->
  exists s', pmm_reserve fuel addr top s = Some s' /\ pmm_wf s' /\
    forall q, 0 <= q -> page_used s' q =
      page_used s q || ((addr <=? q * PAGE_SIZE) && (q * PAGE_SIZE <? top)).
Proof.
  intros Hwf Htop. revert addr s Hwf.
  induction fuel as [|fuel IH]; intros addr s Hwf Ha Hal Hf; simpl;
    destruct (Z.ltb_spec addr top) as [Hlt|Hge]; try lia.
  1,3: (exists s; split_and!; [done..|]; intros q _; unfold PAGE_SIZE in *;
    destruct (Z.leb_spec addr (q * 4096)), (Z.ltb_spec (q * 4096) top);
    try lia; by rewrite orb_false_r).
  unfold MEMORY_MAX, PAGE_SIZE in *.
  assert (Haq : addr = addr / 4096 * 4096) by (pose proof (Z_div_mod_eq_full addr 4096); lia).
  destruct (pmm_set_page_ok s addr) as (s1 & -> & Hw1 & Hu1); [done| |].
  { unfold valid_page, PAGE_SIZE. rewrite PAGE_COUNT_eq.
    split; [apply Z.div_pos; lia|apply Z.div_lt_upper_bound; lia]. }
  simpl. destruct (IH (addr +u 4096) s1) as (s' & -> & Hw' & Hu'); [done|..].
  { wsimpl. lia. }
  { wsimpl. rewrite <- Zplus_mod_idemp_r. by rewrite Z.add_0_r. }
  { wsimpl. lia. }
  exists s'. split_and!; [done..|]. intros q Hq. rewrite Hu', Hu1 by done.
  unfold bm_upd, PAGE_SIZE. wsimpl. destruct (page_used s q); simpl.
  { by destruct (addr / 4096 =? q). }
  destruct (Z.eqb_spec (addr / 4096) q), (Z.leb_spec (addr + 4096) (q * 4096)),
    (Z.leb_spec addr (q * 4096)), (Z.ltb_spec (q * 4096) top); done || lia.
Qed.

(** [init_pmm] terminates for every kernel end inside the managed memory,
    and afterwards the used pages are exactly those that start below the end of
    the kernel image. *)
Lemma init_pmm_ok s kernel_top (Htop : 0 <= kernel_top <= MEMORY_MAX) :
  exists s', init_pmm kernel_top s = Some s' /\ pmm_wf s' /\
    forall p, valid_page p -> page_used s' p = (p * PAGE_SIZE <? kernel_top).
Proof.
  unfold init_pmm.
  destruct (pmm_reserve_ok kernel_top (S PAGE_COUNT) 0
              (with_bitmap (replicate BITMAP_SIZE 0) s)) as (s' & -> & Hw & Hu).
  - unfold pmm_wf. apply length_replicate.
  - done.
  - lia.
  - done.
  - pose proof PAGE_COUNT_eq. unfold MEMORY_MAX, PAGE_SIZE in *. lia.
  - exists s'. split_and!; [done..|]. intros p [Hp _]. rewrite Hu by done.
    assert (page_used (with_bitmap (replicate BITMAP_SIZE 0) s) p = false) as ->.
    { unfold page_used, bm_bit. cbn [with_bitmap memory_bitmap].
      case_match eqn:E; [|done].
      apply lookup_replicate_1 in E as [-> _]. apply Z.bits_0. }
    unfold PAGE_SIZE. destruct (Z.leb_spec 0 (p * 4096)); [done|lia].
Qed.

(** ** Statistics *)

(** Reference count: the pages [i], ..., [i + n - 1] that satisfy [f]. *)
Fixpoint pages_where (f : Z -> bool) (n : nat) (i : Z) : Z :=
  match n with
  | O => 0
  | S n' => (if f i then 1 else 0) + pages_where f n' (i + 1)
  end.

Lemma pages_where_range f n i : 0 <= pages_where f n i <= Z.of_nat n.
Proof. revert i. induction n as [|n IH]; intros i; simpl; [lia|]. specialize (IH (i + 1)). destruct (f i); lia. Qed.

Lemma pages_where_split f n i :
  pages_where f n i + pages_where (fun p => negb (f p)) n i = Z.of_nat n.
Proof. revert i. induction n as [|n IH]; intros i; simpl; [done|]. specialize (IH (i + 1)). destruct (f i); simpl; lia. Qed.

Lemma pages_where_app f n1 n2 i :
  pages_where f (n1 + n2) i = pages_where f n1 i + pages_where f n2 (i + Z.of_nat n1).
Proof.
  revert i. induction n1 as [|n1 IH]; intros i; simpl; [by rewrite Z.add_0_r|].
  rewrite IH. replace (i + Z.of_nat (S n1)) with (i + 1 + Z.of_nat n1) by lia. lia.
Qed.

Lemma pages_where_all f n i :
  (forall q, i <= q < i + Z.of_nat n -> f q = true) -> pages_where f n i = Z.of_nat n.
Proof.
  revert i. induction n as [|n IH]; intros i H; simpl; [done|].
  rewrite (H i), IH by (intros; apply H; lia) || lia. lia.
Qed.

(** A window of pages that all satisfy [f] is no longer than their count. *)
Lemma pages_where_window f n i a m : 0 <= m -> i <= a -> a + m <= i + Z.of_nat n ->
  (forall q, a <= q < a + m -> f q = true) -> m <= pages_where f n i.
Proof.
  intros Hm Ha Hn Hf.
  replace n with (Z.to_nat (a - i) + (Z.to_nat m + Z.to_nat (i + Z.of_nat n - a - m)))%nat by lia.
  rewrite !pages_where_app. replace (i + Z.of_nat (Z.to_nat (a - i))) with a by lia.
  rewrite (pages_where_all f (Z.to_nat m)) by (intros; apply Hf; lia).
  pose proof (pages_where_range f (Z.to_nat (a - i)) i).
  pose proof (pages_where_range f (Z.to_nat (i + Z.of_nat n - a - m)) (a + Z.of_nat (Z.to_nat m))).
  lia.
Qed.

Section scans.
Context (s : PmmState) (Hwf : pmm_wf s).

Lemma page_test_ok i : 0 <= i < 8192 ->
  pmm_is_page_used (i *u PAGE_SIZE) s = Some (page_used s i).
Proof.
  intros. pose proof (page_of_addr i ltac:(lia)) as Hp.
  rewrite pmm_is_page_used_ok; rewrite ?Hp; [done..|].
  unfold valid_page. rewrite PAGE_COUNT_eq. lia.
Qed.

Lemma count_free_ok n i c : 0 <= i -> i + Z.of_nat n <= 8192 ->
  count_free n i s c = Some (c + pages_where (fun p => negb (page_used s p)) n i).
Proof.
  revert i c. induction n as [|n IH]; intros i c Hi Hn; simpl; [by rewrite Z.add_0_r|].
  rewrite page_test_ok by lia. simpl. rewrite IH by lia. f_equal.
  destruct (page_used s i); simpl; lia.
Qed.

(** All pages of the window of length [k] at [lo] are free. *)
Definition free_window (lo k : Z) : Prop :=
  forall q, lo <= q < lo + k -> page_used s q = false.

(** [m] is the length of the longest free window inside [lo, hi). *)
Definition longest_free (lo hi m : Z) : Prop :=
  (exists a, lo <= a /\ a + m <= hi /\ free_window a m) /\
  (forall a k, lo <= a -> 0 <= k -> a + k <= hi -> free_window a k -> k <= m).

(** The state of the scan after the pages [lo], ..., [i - 1]. *)
Record scan_inv (lo i u : Z) (r : RunScan) : Prop := {
  si_used : rs_used r = u;
  si_cur : 0 <= rs_cur r <= i - lo;
  si_cur_free : free_window (i - rs_cur r) (rs_cur r);
  si_cur_max : forall k, 0 <= k <= i - lo -> free_window (i - k) k -> k <= rs_cur r;
  si_largest : 0 <= rs_largest r <= i - lo;
  si_longest : longest_free lo i (rs_largest r)
}.

Lemma run_step_inv lo i u r : 0 <= lo <= i -> i < 8192 -> 0 <= u <= i - lo ->
  scan_inv lo i u r ->
  scan_inv lo (i + 1) (u + if page_used s i then 1 else 0) (run_step (page_used s i) r).
Proof.
  intros Hlo Hi Hu [Hused Hcur Hfree Hmax Hl [(a & Ha1 & Ha2 & Ha3) Hlm]].
  unfold run_step. destruct (page_used s i) eqn:Ei; simpl.
  - wsimpl. constructor; simpl; try lia.
    + intros q ?. lia.
    + intros k Hk Hw. destruct (decide (k = 0)); [lia|].
      rewrite (Hw i) in Ei by lia. done.
    + split; [exists a; split_and!; (lia || done)|].
      intros b k Hb Hk Hbk Hw. destruct (decide (b + k = i + 1)); [|apply (Hlm b); (lia || done)].
      destruct (decide (k = 0)); [lia|]. rewrite (Hw i) in Ei by lia. done.
  - wsimpl.
    assert (Hw1 : free_window (i - rs_cur r) (rs_cur r + 1)).
    { intros q Hq. destruct (decide (q = i)) as [->|]; [done|]. apply Hfree. lia. }
    assert (Hends : forall k, 0 <= k <= i + 1 - lo -> free_window (i + 1 - k) k -> k <= rs_cur r + 1).
    { intros k Hk Hw. destruct (decide (k = 0)); [lia|].
      enough (k - 1 <= rs_cur r) by lia. apply Hmax; [lia|]. intros q Hq. apply Hw. lia. }
    constructor; simpl; try lia.
    + replace (i + 1 - (rs_cur r + 1)) with (i - rs_cur r) by lia. done.
    + done.
    + destruct (Z.ltb_spec (rs_largest r) (rs_cur r + 1)); lia.
    + destruct (Z.ltb_spec (rs_largest r) (rs_cur r + 1)) as [Hlt|Hge]; split.
      * exists (i - rs_cur r). split_and!; try lia; done.
      * intros b k Hb Hk Hbk Hw. destruct (decide (b + k = i + 1)) as [He|].
        { apply Hends; [lia|]. by replace (i + 1 - k) with b by lia. }
        enough (k <= rs_largest r) by lia. apply (Hlm b); (lia || done).
      * exists a. split_and!; try lia; done.
      * intros b k Hb Hk Hbk Hw. destruct (decide (b + k = i + 1)) as [He|].
        { enough (k <= rs_cur r + 1) by lia. apply Hends; [lia|].
          by replace (i + 1 - k) with b by lia. }
        apply (Hlm b); (lia || done).
Qed.

Lemma run_scan_ok lo n i u r : 0 <= lo <= i -> i + Z.of_nat n <= 8192 -> 0 <= u <= i - lo ->
  scan_inv lo i u r ->
  exists r', run_scan n i s r = Some r' /\
    scan_inv lo (i + Z.of_nat n) (u + pages_where (page_used s) n i) r'.
Proof.
  revert i u r. induction n as [|n IH]; intros i u r Hlo Hn Hu Hr; simpl.
  { exists r. by rewrite !Z.add_0_r. }
  rewrite page_test_ok by lia. simpl.
  destruct (IH (i + 1) (u + if page_used s i then 1 else 0) (run_step (page_used s i) r))
    as (r' & -> & H').
  - lia.
  - lia.
  - destruct (page_used s i); lia.
  - apply run_step_inv; (lia || done).
  - exists r'. split; [done|].
    replace (i + Z.of_nat (S n)) with (i + 1 + Z.of_nat n) by lia.
    by rewrite Z.add_assoc.
Qed.
End scans.

Lemma fragmentation_range free largest :
  0 <= largest <= free -> free <= 8192 -> 0 <= fragmentation free largest <= 1000.
Proof.
  intros Hl Hf. unfold fragmentation. case_if; [lia|]. bsimpl.
  rewrite (u32_small (largest * 1000)) by lia.
  assert (0 <= largest * 1000 / free) by (apply Z.div_pos; lia).
  assert (largest * 1000 / free <= 1000) by (apply Z.div_le_upper_bound; lia).
  wsimpl. lia.
Qed.

(** [pmm_get_stats] always returns: its used and free counts add up to the
    7936 pages above 1 MiB, its free count is the one [pmm_get_free_pages]
    returns, its largest run is the length of the longest window of free pages,
    and the fragmentation lies between 0 and 1000 per mille. *)
Theorem pmm_get_stats_correct s (Hwf : pmm_wf s) :
  exists st, pmm_get_stats s = Some st /\
    total_pages st = 7936 /\ used_pages st + free_pages st = total_pages st /\
    pmm_get_free_pages s = Some (free_pages st) /\
    longest_free s 256 8192 (largest_free_run st) /\
    largest_free_run st <= free_pages st /\
    0 <= fragmentation_permille st <= 1000.
Proof.
  unfold pmm_get_stats, pmm_get_free_pages.
  destruct user_page_count as (N & -> & HN).
  change first_user_page with 256.
  rewrite PAGE_COUNT_eq. change (8192 -u 256) with 7936. set (r0 := {| rs_used := 0 |}).
  destruct (run_scan_ok s Hwf 256 N 256 0 r0) as (r & -> & Hr); [lia..| |].
  { constructor; simpl; try lia.
    - intros q ?; lia.
    - split; [exists 256; split_and!; [lia..|intros q ?; lia]|]. intros; lia. }
  rewrite count_free_ok by (done || lia). simpl.
  pose proof (pages_where_split (page_used s) N 256) as Hsplit.
  pose proof (pages_where_range (page_used s) N 256) as Hrange.
  destruct Hr as [Hused _ _ _ Hl Hlong]. rewrite HN in *. simpl in Hlong.
  set (U := pages_where (page_used s) N 256) in *.
  assert (Hle : rs_largest r <= 7936 - U).
  { destruct Hlong as [(a & Ha1 & Ha2 & Hw) _].
    enough (rs_largest r <= pages_where (fun p => negb (page_used s p)) N 256) by lia.
    apply (pages_where_window _ _ _ a); try lia. intros q Hq. by rewrite Hw. }
  assert (Hfree : 7936 -u rs_used r = 7936 - U) by (rewrite Hused; wsimpl; lia).
  eexists. split; [done|]. simpl. rewrite Hfree.
  split_and!; try lia; try done; try (apply fragmentation_range; lia).
  f_equal. lia.
Qed.

(** ** Runs of the allocator

    A kernel that boots with [init_pmm] and whose clients allocate pages and
    free pages they hold; [held] is the set of addresses handed out and not yet
    freed. *)
Inductive pmm_run (kernel_top : Z) : PmmState -> gset Z -> Prop :=
| pmm_run_init s s' :
    init_pmm kernel_top s = Some s' -> pmm_run kernel_top s' ∅
| pmm_run_alloc s held s' a :
    pmm_run kernel_top s held -> pmm_alloc_page s = Some (s', a) -> a <> 0 ->
    pmm_run kernel_top s' ({[a]} ∪ held)
| pmm_run_alloc_fail s held s' :
    pmm_run kernel_top s held -> pmm_alloc_page s = Some (s', 0) ->
    pmm_run kernel_top s' held
| pmm_run_free s held s' a :
    pmm_run kernel_top s held -> a ∈ held -> pmm_free_page a s = Some s' ->
    pmm_run kernel_top s' (held ∖ {[a]}).

(** A page the allocator may hand out: aligned, above the kernel image. *)
Definition client_page (kernel_top a : Z) : Prop :=
  a mod PAGE_SIZE = 0 /\ kernel_top <= a < MEMORY_MAX.

Record pmm_run_inv (kernel_top : Z) (s : PmmState) (held : gset Z) : Prop := {
  pr_wf : pmm_wf s;
  pr_kernel : forall p, valid_page p -> p * PAGE_SIZE < kernel_top -> page_used s p = true;
  pr_held : forall a, a ∈ held -> client_page kernel_top a /\ page_used s (a / PAGE_SIZE) = true
}.

Lemma client_page_page top a : 0 <= top -> client_page top a ->
  valid_page (a / PAGE_SIZE) /\ a = a / PAGE_SIZE * PAGE_SIZE.
Proof.
  intros Ht [Hal Hr]. unfold valid_page. rewrite PAGE_COUNT_eq.
  unfold PAGE_SIZE, MEMORY_MAX in *. pose proof (Z_div_mod_eq_full a 4096).
  assert (0 <= a / 4096) by (apply Z.div_pos; lia). lia.
Qed.

Lemma pmm_run_inv_ok top s held : 0 <= top <= MEMORY_MAX ->
  pmm_run top s held -> pmm_run_inv top s held.
Proof.
  intros Htop. induction 1 as [s s' Hi|s held s' a _ [Hw Hk Hh] Ha Hnz
    |s held s' _ [Hw Hk Hh] Ha|s held s' a _ [Hw Hk Hh] Hin Hf].
  - destruct (init_pmm_ok s top Htop) as (s1 & Hs & Hw & Hu). simplify_eq.
    constructor; [done| |set_solver]. intros p Hp Hlt. rewrite Hu by done. by apply Z.ltb_lt.
  - destruct (pmm_alloc_page_ok s Hw) as [(s1 & p & Hs & Hv & Hf & _ & Hw1 & Hu)|(s1 & Hs & _)];
      simplify_eq.
    assert (Hdiv : p * PAGE_SIZE / PAGE_SIZE = p) by (apply Z.div_mul; done).
    constructor; [done| |].
    + intros q Hq Hlt. rewrite Hu by (unfold valid_page in *; lia). case_if; [done|by apply Hk].
    + intros b [->%elem_of_singleton|Hb]%elem_of_union.
      * rewrite Hdiv, Hu, Z.eqb_refl by (unfold valid_page in *; lia). split; [|done].
        split; [by apply Z.mod_mul|]. split.
        { destruct (Z.le_gt_cases top (p * PAGE_SIZE)) as [|Hlt]; [done|].
          rewrite (Hk p Hv Hlt) in Hf. done. }
        unfold valid_page in Hv. rewrite PAGE_COUNT_eq in Hv.
        unfold PAGE_SIZE, MEMORY_MAX. lia.
      * destruct (Hh b Hb) as [Hc Hbu]. split; [done|].
        destruct (client_page_page top b) as [Hvb _]; [lia|done|].
        rewrite Hu by (unfold valid_page in *; lia). by case_if.
  - destruct (pmm_alloc_page_ok s Hw) as [(s1 & p & Hs & Hv & Hf & _ & Hw1 & Hu)|(s1 & Hs & Hb & _)];
      simplify_eq.
    + assert (p = 0) as -> by (unfold PAGE_SIZE in *; lia).
      constructor; [done| |].
      * intros q Hq Hlt. rewrite Hu by (unfold valid_page in *; lia). case_if; [done|by apply Hk].
      * intros b Hb. destruct (Hh b Hb) as [Hc Hbu]. split; [done|].
        destruct (client_page_page top b) as [Hvb _]; [lia|done|].
        rewrite Hu by (unfold valid_page in *; lia). by case_if.
    + constructor; unfold pmm_wf, page_used in *; rewrite Hb; done.
  - destruct (Hh a Hin) as [Hc Hau]. destruct (client_page_page top a) as [Hva Hae]; [lia|done|].
    assert (Ha32 : is_u32 a)
      by (destruct Hc as [_ ?]; unfold is_u32, MEMORY_MAX in *; lia).
    destruct (pmm_free_page_ok s a Hw Ha32) as [[_ Hs]|[(_ & s1 & Hs & Hw1 & _ & _ & Hu)|[_ Hs]]];
      simplify_eq.
    + constructor; [done..|]. intros b Hb. apply Hh. set_solver.
    + constructor; [done| |].
      * intros q Hq Hlt. rewrite Hu by (unfold valid_page in *; lia).
        case_if; bsimpl; [|by apply Hk]. subst q. destruct Hc. lia.
      * intros b [Hb Hne]%elem_of_difference. destruct (Hh b Hb) as [Hcb Hbu]. split; [done|].
        destruct (client_page_page top b) as [Hvb Hbe]; [lia|done|].
        rewrite Hu by (unfold valid_page in *; lia). case_if; bsimpl; [|done].
        destruct Hne. apply elem_of_singleton. congruence.
Qed.

(** C27: in every run from boot, [pmm_alloc_page] succeeds without an
    out-of-range access; it either reports exhausted memory, and then every
    page is in use, or hands out the lowest free page, which no client holds,
    which is page-aligned and lies between the end of the kernel image and
    32 MiB. *)
Theorem pmm_alloc_page_exclusive kernel_top s held
  (Htop : 0 < kernel_top <= MEMORY_MAX) (Hrun : pmm_run kernel_top s held) :
  exists s' a, pmm_alloc_page s = Some (s', a) /\
    ((a = 0 /\ forall q, valid_page q -> page_used s q = true) \/
     (a ∉ held /\ a mod PAGE_SIZE = 0 /\ kernel_top <= a < MEMORY_MAX /\
      page_used s (a / PAGE_SIZE) = false /\
      (forall q, 0 <= q < a / PAGE_SIZE -> page_used s q = true) /\
      forall q, 0 <= q -> page_used s' q = if a / PAGE_SIZE =? q then true else page_used s q)).
Proof.
  destruct (pmm_run_inv_ok kernel_top s held) as [Hw Hk Hh]; [lia|done|].
  destruct (pmm_alloc_page_ok s Hw) as [(s1 & p & -> & Hv & Hf & Hlow & Hw1 & Hu)|(s1 & -> & _ & Hall)].
  - exists s1, (p * PAGE_SIZE). split; [done|right].
    assert (Hdiv : p * PAGE_SIZE / PAGE_SIZE = p) by (apply Z.div_mul; done). rewrite Hdiv.
    split_and!; try done.
    + intros Hin. destruct (Hh _ Hin) as [_ Hu']. rewrite Hdiv in Hu'. congruence.
    + by apply Z.mod_mul.
    + destruct (Z.le_gt_cases kernel_top (p * PAGE_SIZE)) as [|Hlt]; [done|].
      rewrite (Hk p Hv Hlt) in Hf. done.
    + unfold valid_page in Hv. rewrite PAGE_COUNT_eq in Hv. unfold PAGE_SIZE, MEMORY_MAX. lia.
  - exists s1, 0. split; [done|]. by left.
Qed.

(** ** Witnesses *)

(** Memory with the first two pages reserved. *)
Definition demo_pmm : PmmState :=
  {| memory_bitmap := 3 :: replicate 1023 0; pmm_alloc_calls := 0; pmm_free_calls := 0 |}.

Definition demo_pmm0 : PmmState := default demo_pmm (init_pmm 0x180000 demo_pmm).
Definition demo_pmm1 : PmmState := fst (default (demo_pmm, 0) (pmm_alloc_page demo_pmm0)).

Lemma demo_pmm_run : pmm_run 0x180000 demo_pmm1 ({[0x180000]} ∪ ∅).
Proof.
  apply (pmm_run_alloc _ demo_pmm0); [|by vm_compute|lia].
  apply (pmm_run_init _ demo_pmm). by vm_compute.
Qed.

Lemma pmm_alloc_page_exclusive_witness :
  0 < 0x180000 <= MEMORY_MAX /\ exists s' a, pmm_alloc_page demo_pmm1 = Some (s', a).
Proof.
  assert (H : 0 < 0x180000 <= MEMORY_MAX) by (unfold MEMORY_MAX; lia). split; [exact H|].
  destruct (pmm_alloc_page_exclusive _ _ _ H demo_pmm_run) as (s' & a & Ha & _).
  exists s', a. exact Ha.
Defined.

Lemma pmm_get_stats_correct_witness :
  pmm_wf demo_pmm /\ exists st, pmm_get_stats demo_pmm = Some st /\ total_pages st = 7936.
Proof.
  assert (Hw : pmm_wf demo_pmm) by (vm_compute; reflexivity). split; [exact Hw|].
  destruct (pmm_get_stats_correct demo_pmm Hw) as (st & H1 & H2 & _). exists st. split; assumption.
Defined.
