(* ===== verification/Slab.v ===== *)
(** * Slab object caches (kernel/pmm.c, lines 14-92 and 296-end)

    Four caches of fixed-size objects carved out of 4 KiB pages.  The free list
    of a cache is intrusive: [node->next] is the first word of the free object
    itself, so the model keeps the memory words ([sl_mem]) and follows the
    pointers through them. *)
From S2P Require Import Prelude Pmm.

Record SlabCache := {
  obj_size : Z; free_list : Z; pages : Z; allocs : Z; frees : Z; in_use : Z
}.

#[export] Instance SlabCache_inhabited : Inhabited SlabCache :=
  populate {| obj_size := 0; free_list := 0; pages := 0; allocs := 0; frees := 0; in_use := 0 |}.

(** The allocator below, the memory words and the table of caches. *)
Record SlabState := {
  sl_pmm : PmmState;
  sl_mem : gmap Z Z;
  slab_caches : list SlabCache
}.

Definition SLAB_CACHE_COUNT : nat := 4.
Definition sizeof_SlabNode : Z := 4.

(** The initial table: objects of 32, 64, 128 and 256 bytes. *)
Definition slab_caches_init : list SlabCache :=
  map (fun sz => {| obj_size := sz; free_list := 0; pages := 0; allocs := 0; frees := 0;
                    in_use := 0 |}) [32; 64; 128; 256].

Definition with_pmm (p : PmmState) (st : SlabState) : SlabState :=
  {| sl_pmm := p; sl_mem := sl_mem st; slab_caches := slab_caches st |}.

Definition slab_pick_cache (size : Z) (cs : list SlabCache) : option nat :=
  find_idx (fun c => size <=? obj_size c) cs.

Definition set_free_list (v : Z) (c : SlabCache) : SlabCache :=
  {| obj_size := obj_size c; free_list := v; pages := pages c; allocs := allocs c;
     frees := frees c; in_use := in_use c |}.

(** The carving loop of [slab_grow_cache]; it runs out of [fuel] only if the
    loop would run longer. *)
Fixpoint slab_carve (fuel : nat) (page offset : Z) (c : SlabCache) (m : gmap Z Z)
  : option (SlabCache * gmap Z Z) :=
  if (offset +u obj_size c) <=? PAGE_SIZE then
    match fuel with
    | O => None
    | S f =>
        let node := page +u offset in
        slab_carve f page (offset +u obj_size c) (set_free_list node c)
          (<[node := free_list c]> m)
    end
  else Some (c, m).

(** Enough fuel for one page: an object has at least one byte. *)
Definition slab_carve_fuel : nat := Z.to_nat PAGE_SIZE.

Definition slab_grow_cache (i : nat) (st : SlabState) : option (SlabState * Z) :=
  c ← slab_caches st !! i;
  if obj_size c <? sizeof_SlabNode then Some (st, 0)
  else
    '(p, page) ← pmm_alloc_page (sl_pmm st);
    if page =? 0 then Some (with_pmm p st, 0)
    else
      let c1 := {| obj_size := obj_size c; free_list := free_list c;
                   pages := pages c +u 1; allocs := allocs c; frees := frees c;
                   in_use := in_use c |} in
      '(c2, m) ← slab_carve slab_carve_fuel page 0 c1 (sl_mem st);
      Some ({| sl_pmm := p; sl_mem := m; slab_caches := <[i := c2]> (slab_caches st) |}, 1).

(** The tail of [slab_alloc]: unlink the first node of the cache. *)
Definition slab_take (i : nat) (st : SlabState) : option (SlabState * Z) :=
  c ← slab_caches st !! i;
  let node := free_list c in
  let c' := {| obj_size := obj_size c; free_list := sl_mem st !!! node;
               pages := pages c; allocs := allocs c +u 1; frees := frees c;
               in_use := in_use c +u 1 |} in
  Some ({| sl_pmm := sl_pmm st; sl_mem := sl_mem st;
           slab_caches := <[i := c']> (slab_caches st) |}, node).

Definition slab_alloc (size : Z) (st : SlabState) : option (SlabState * Z) :=
  match slab_pick_cache size (slab_caches st) with
  | None => '(p, a) ← pmm_alloc_page (sl_pmm st); Some (with_pmm p st, a)
  | Some i =>
      c ← slab_caches st !! i;
      if free_list c =? 0 then
        '(st1, ok) ← slab_grow_cache i st;
        if ok =? 0 then Some (st1, 0) else slab_take i st1
      else slab_take i st
  end.

Definition slab_free (ptr size : Z) (st : SlabState) : option (SlabState * Z) :=
  if ptr =? 0 then Some (st, 0)
  else
    match slab_pick_cache size (slab_caches st) with
    | None => p ← pmm_free_page ptr (sl_pmm st); Some (with_pmm p st, 1)
    | Some i =>
        c ← slab_caches st !! i;
        let c' := {| obj_size := obj_size c; free_list := ptr; pages := pages c;
                     allocs := allocs c; frees := frees c +u 1;
                     in_use := if 0 <? in_use c then in_use c -u 1 else in_use c |} in
        Some ({| sl_pmm := sl_pmm st; sl_mem := <[ptr := free_list c]> (sl_mem st);
                 slab_caches := <[i := c']> (slab_caches st) |}, 1)
    end.

(** The list walk of [slab_get_stats]; [None] when the list is longer than the
    fuel. *)
Fixpoint slab_walk (fuel : nat) (n : Z) (m : gmap Z Z) (free_count : Z) : option Z :=
  if n =? 0 then Some free_count
  else match fuel with
       | O => None
       | S f => slab_walk f (m !!! n) m (free_count +u 1)
       end.

Record SlabClassStats := {
  ss_obj_size : Z; ss_pages : Z; ss_allocs : Z; ss_frees : Z; ss_in_use : Z;
  ss_free_objects : Z
}.

(** [slab_get_stats]: [inl] is the 0 result for a bad class index, [inr] the
    filled structure; the outer [None] is a walk longer than the fuel. *)
Definition slab_get_stats (fuel : nat) (class_index : Z) (st : SlabState)
  : option (unit + SlabClassStats) :=
  if (class_index <? 0) || (Z.of_nat SLAB_CACHE_COUNT <=? class_index) then Some (inl ())
  else
    c ← slab_caches st !! Z.to_nat class_index;
    free_count ← slab_walk fuel (free_list c) (sl_mem st) 0;
    Some (inr {| ss_obj_size := obj_size c; ss_pages := pages c; ss_allocs := allocs c;
                 ss_frees := frees c; ss_in_use := in_use c;
                 ss_free_objects := free_count |}).

(** ** The invariant

    Ghost state per cache: the pages it was given, the objects on its free list
    (in list order) and the objects handed out. *)
Record CacheGhost := { g_pages : list Z; g_free : list Z; g_live : list Z }.

(** [l] is the linked list that starts at address [head]. *)
Fixpoint slist (m : gmap Z Z) (head : Z) (l : list Z) : Prop :=
  match l with
  | [] => head = 0
  | a :: l' => head = a /\ a <> 0 /\ slist m (m !!! a) l'
  end.

(** The objects of size [sz] in the page at [page], from the offset [off]. *)
Definition slab_objs (sz page : Z) : list Z :=
  (fun k => page + Z.of_nat k * sz) <$> seq 0 (Z.to_nat (PAGE_SIZE / sz)).

Definition slab_sizes : list Z := [32; 64; 128; 256].

Record cache_inv (m : gmap Z Z) (c : SlabCache) (g : CacheGhost) : Prop := {
  ci_size : In (obj_size c) slab_sizes;
  ci_list : slist m (free_list c) (g_free g);
  ci_objs : g_free g ++ g_live g ≡ₚ concat (map (slab_objs (obj_size c)) (g_pages g));
  ci_in_use : in_use c = Z.of_nat (length (g_live g));
  ci_pages : pages c = Z.of_nat (length (g_pages g))
}.

(** A page that belongs to the slab: page-aligned, above page 0, used. *)
Definition slab_page (p : PmmState) (a : Z) : Prop :=
  a mod PAGE_SIZE = 0 /\ 0 < a < MEMORY_MAX /\ page_used p (a / PAGE_SIZE) = true.

Record slab_inv (st : SlabState) (gs : list CacheGhost) : Prop := {
  si_pmm : pmm_wf (sl_pmm st);
  si_zero : page_used (sl_pmm st) 0 = true;
  si_sizes : obj_size <$> slab_caches st = slab_sizes;
  si_len : length gs = length (slab_caches st);
  si_cache : forall i c g, slab_caches st !! i = Some c -> gs !! i = Some g ->
               cache_inv (sl_mem st) c g;
  si_nodup : NoDup (concat (map g_pages gs));
  si_pages : forall a, a ∈ concat (map g_pages gs) -> slab_page (sl_pmm st) a
}.

(** ** Linked lists *)

Lemma slist_frame m a v head l : a ∉ l -> slist m head l -> slist (<[a := v]> m) head l.
Proof.
  revert head. induction l as [|b l IH]; intros head Ha Hl; simpl in *; [done|].
  apply not_elem_of_cons in Ha as [Hb Ha]. destruct Hl as (-> & Hnz & Hl).
  split_and!; [done..|]. rewrite lookup_total_insert_ne by done. auto.
Qed.

Lemma slist_push m a head l : a <> 0 -> a ∉ l -> slist m head l ->
  slist (<[a := head]> m) a (a :: l).
Proof.
  intros. simpl. split_and!; [done..|]. rewrite lookup_total_insert_eq.
  by apply slist_frame.
Qed.

Lemma slist_walk m head l fuel n :
  slist m head l -> (length l <= fuel)%nat -> 0 <= n -> n + Z.of_nat (length l) < 2 ^ 32 ->
  slab_walk fuel head m n = Some (n + Z.of_nat (length l)).
Proof.
  revert head fuel n. induction l as [|a l IH]; intros head fuel n Hl Hf Hn Hb; simpl in *.
  - subst. destruct fuel; simpl; f_equal; lia.
  - destruct Hl as (-> & Hnz & Hl). destruct fuel as [|fuel]; [lia|]. simpl.
    destruct (Z.eqb_spec a 0); [done|]. wsimpl. rewrite IH by (done || lia). f_equal. lia.
Qed.

(** ** Carving a page *)

Lemma slab_carve_fuel_eq : Z.of_nat slab_carve_fuel = 4096.
Proof. reflexivity. Qed.
#[global] Opaque slab_carve_fuel.


Lemma slab_size_facts sz : In sz slab_sizes ->
  32 <= sz <= 256 /\ PAGE_SIZE = PAGE_SIZE / sz * sz /\ 0 <= PAGE_SIZE / sz <= 128.
Proof. simpl. intros [<-|[<-|[<-|[<-|[]]]]]; (split_and!; by vm_compute). Qed.

(** The objects carved so far: numbers [0], ..., [k - 1], newest first. *)
Definition carved (sz page : Z) (k : nat) : list Z :=
  rev ((fun j => page + Z.of_nat j * sz) <$> seq 0 k).

Lemma carved_S sz page k : carved sz page (S k) = (page + Z.of_nat k * sz) :: carved sz page k.
Proof. unfold carved. rewrite seq_S, fmap_app, rev_app_distr. done. Qed.

Lemma elem_of_carved sz page k a : a ∈ carved sz page k <->
  exists j, (j < k)%nat /\ a = page + Z.of_nat j * sz.
Proof.
  unfold carved. rewrite list_elem_of_In, <- in_rev, <- list_elem_of_In, list_elem_of_fmap.
  split.
  - intros (j & -> & Hj). apply elem_of_seq in Hj. exists j. split; [lia|done].
  - intros (j & Hj & ->). exists j. split; [done|]. apply elem_of_seq. lia.
Qed.

Section carve.
Context (sz page : Z) (Hsz : In sz slab_sizes).
Context (Hpage : 0 < page < MEMORY_MAX).

Lemma obj_addr_u32 k : Z.of_nat k < PAGE_SIZE / sz ->
  page +u (Z.of_nat k * sz) = page + Z.of_nat k * sz.
Proof.
  intros Hk. destruct (slab_size_facts sz Hsz) as (? & He & ?).
  unfold PAGE_SIZE, MEMORY_MAX in *. apply u32_small.
  assert (Z.of_nat k * sz <= 4096 / sz * sz) by (apply Z.mul_le_mono_nonneg_r; lia). lia.
Qed.

Lemma carved_fresh k : page + Z.of_nat k * sz ∉ carved sz page k.
Proof.
  destruct (slab_size_facts sz Hsz) as (? & _ & _).
  intros Hin. apply elem_of_carved in Hin as (j & Hj & He). nia.
Qed.

(** The loop threads every object of the page onto the free list. *)
Lemma slab_carve_ok l k fuel c m :
  obj_size c = sz -> Z.of_nat k <= PAGE_SIZE / sz ->
  (Z.to_nat (PAGE_SIZE / sz) - k <= fuel)%nat ->
  slist m (free_list c) (carved sz page k ++ l) ->
  (forall a, page <= a < page + PAGE_SIZE -> a ∉ l) ->
  exists c' m', slab_carve fuel page (Z.of_nat k * sz) c m = Some (c', m') /\
    slist m' (free_list c') (carved sz page (Z.to_nat (PAGE_SIZE / sz)) ++ l) /\
    c' = set_free_list (free_list c') c /\
    (forall a, ~ (page <= a < page + PAGE_SIZE) -> m' !!! a = m !!! a).
Proof.
  destruct (slab_size_facts sz Hsz) as (Hr & He & Hq).
  revert k c m. induction fuel as [|fuel IH]; intros k c m Hc Hk Hf Hl Hfresh; simpl;
    rewrite Hc, (u32_small (Z.of_nat k * sz + sz)) by (unfold PAGE_SIZE in *; nia);
    destruct (Z.leb_spec (Z.of_nat k * sz + sz) PAGE_SIZE) as [Hle|Hgt]; try nia.
  1,3: (exists c, m; assert (Z.to_nat (PAGE_SIZE / sz) = k) as -> by nia;
    split_and!; [done|done|by destruct c|done]).
  assert (Hlt : Z.of_nat k < PAGE_SIZE / sz) by nia.
  assert (Hin : page <= page + Z.of_nat k * sz < page + PAGE_SIZE) by nia.
  rewrite obj_addr_u32 by done.
  replace (Z.of_nat k * sz + sz) with (Z.of_nat (S k) * sz) by lia.
  destruct (IH (S k) (set_free_list (page + Z.of_nat k * sz) c)
              (<[page + Z.of_nat k * sz := free_list c]> m))
    as (c' & m' & Heq & Hl' & Hset & Hm); [done|lia|lia| |done|].
  - rewrite carved_S. apply slist_push; [lia| |done].
    apply not_elem_of_app. split; [apply carved_fresh|]. apply Hfresh. lia.
  - exists c', m'. split_and!; [done..|]. intros a Ha.
    rewrite Hm by done. apply lookup_total_insert_ne. intros <-. done.
Qed.
End carve.

Lemma carved_objs sz page :
  carved sz page (Z.to_nat (PAGE_SIZE / sz)) ≡ₚ slab_objs sz page.
Proof. unfold carved, slab_objs. rewrite <- Permutation_rev. done. Qed.

Lemma elem_of_slab_objs sz page a : In sz slab_sizes ->
  a ∈ slab_objs sz page ->
  page <= a /\ a + sz <= page + PAGE_SIZE /\ exists j, 0 <= j /\ a = page + j * sz.
Proof.
  intros Hsz Ha. destruct (slab_size_facts sz Hsz) as (? & ? & ?).
  unfold slab_objs in Ha. apply list_elem_of_fmap in Ha as (j & -> & Hj).
  apply elem_of_seq in Hj. split_and!; [nia|nia|]. exists (Z.of_nat j). lia.
Qed.

(** Two distinct objects of one page do not overlap. *)
Lemma slab_objs_disjoint sz page a b : In sz slab_sizes ->
  a ∈ slab_objs sz page -> b ∈ slab_objs sz page -> a <> b -> a + sz <= b \/ b + sz <= a.
Proof.
  intros Hsz (_ & _ & i & _ & ->)%elem_of_slab_objs (_ & _ & j & _ & ->)%elem_of_slab_objs Hne;
    try done.
  destruct (slab_size_facts sz Hsz) as (? & ? & ?).
  assert (i <> j) by (by intros ->).
  destruct (decide (i < j)); [left|right].
  - pose proof (Z.mul_le_mono_nonneg_r (i + 1) j sz). lia.
  - pose proof (Z.mul_le_mono_nonneg_r (j + 1) i sz). lia.
Qed.

Lemma NoDup_slab_objs sz page : In sz slab_sizes -> NoDup (slab_objs sz page).
Proof.
  intros Hsz. destruct (slab_size_facts sz Hsz) as (? & ? & ?).
  apply NoDup_fmap_2_strong; [|apply NoDup_seq]. intros i j _ _ ?. nia.
Qed.

(** ** Disjointness of the objects *)

Lemma elem_of_concat_map {A B} (f : A -> list B) (l : list A) b :
  b ∈ concat (map f l) <-> exists a, a ∈ l /\ b ∈ f a.
Proof.
  induction l as [|a l IH]; simpl.
  - split; [by intros ?%not_elem_of_nil|]. by intros (? & ?%not_elem_of_nil & _).
  - rewrite elem_of_app, IH. split.
    + intros [H|(a' & ? & ?)]; [exists a|exists a']; rewrite elem_of_cons; auto.
    + intros (a' & Ha & ?). apply elem_of_cons in Ha as [->|?]; eauto.
Qed.

(** Two lists of a duplicate-free concatenation share no element. *)
Lemma NoDup_concat_index {A B} (f : A -> list B) (l : list A) i j x y b :
  NoDup (concat (map f l)) -> l !! i = Some x -> l !! j = Some y ->
  b ∈ f x -> b ∈ f y -> i = j.
Proof.
  revert i j. induction l as [|a l IH]; intros i j Hnd Hi Hj Hx Hy; [by rewrite lookup_nil in Hi|].
  simpl in Hnd. apply list.NoDup_app in Hnd as (_ & Hdis & Hnd).
  destruct i as [|i], j as [|j]; simpl in *; simplify_eq; [done|..].
  - destruct (Hdis b Hx). apply elem_of_concat_map. exists y. split; [|done].
    by eapply list_elem_of_lookup_2.
  - destruct (Hdis b Hy). apply elem_of_concat_map. exists x. split; [|done].
    by eapply list_elem_of_lookup_2.
  - f_equal. by eapply IH.
Qed.

Lemma map_insert {A B} (f : A -> B) i x (l : list A) : map f (<[i:=x]> l) = <[i := f x]> (map f l).
Proof. apply list_fmap_insert. Qed.

Lemma concat_insert_same {A B} (f : A -> list B) (l : list A) i x y :
  l !! i = Some x -> f y = f x -> concat (map f (<[i := y]> l)) = concat (map f l).
Proof.
  intros Hi Hf. rewrite map_insert, list_insert_id; [done|].
  rewrite list_lookup_fmap, Hi. simpl. by rewrite Hf.
Qed.

Lemma concat_insert_cons {A B} (f : A -> list B) (l : list A) i x y b :
  l !! i = Some x -> f y = b :: f x -> concat (map f (<[i := y]> l)) ≡ₚ b :: concat (map f l).
Proof.
  intros Hi Hf. rewrite insert_take_drop by by eapply lookup_lt_Some.
  pose proof (take_drop_middle l i x Hi) as El.
  transitivity (b :: concat (map f (take i l ++ x :: drop (S i) l))); [|by rewrite El].
  rewrite !map_app, !concat_app. simpl. rewrite Hf. simpl. symmetry. apply Permutation_middle.
Qed.

(** The object at [a] belongs to cache [i], free or handed out. *)
Definition slab_object (st : SlabState) (gs : list CacheGhost) (i : nat) (a sz : Z) : Prop :=
  exists c g, slab_caches st !! i = Some c /\ gs !! i = Some g /\ sz = obj_size c /\
    a ∈ g_free g ++ g_live g.

Lemma slab_object_page st gs i a sz : slab_inv st gs -> slab_object st gs i a sz ->
  In sz slab_sizes /\ exists g p, gs !! i = Some g /\ p ∈ g_pages g /\ a ∈ slab_objs sz p /\
    slab_page (sl_pmm st) p.
Proof.
  intros HI (c & g & Hc & Hg & -> & Ha).
  destruct (si_cache _ _ HI i c g Hc Hg) as [Hsz _ Hobjs _ _]. split; [done|].
  rewrite Hobjs in Ha. apply elem_of_concat_map in Ha as (p & Hp & Ha).
  exists g, p. split_and!; [done..|]. apply (si_pages _ _ HI).
  apply elem_of_concat_map. exists g. split; [|done]. by eapply list_elem_of_lookup_2.
Qed.

Lemma slab_objects_disjoint st gs i j a b sa sb : slab_inv st gs ->
  slab_object st gs i a sa -> slab_object st gs j b sb -> (i, a) <> (j, b) ->
  a + sa <= b \/ b + sb <= a.
Proof.
  intros HI Ha Hb Hne.
  destruct (slab_object_page _ _ _ _ _ HI Ha) as (Hsa & ga & pa & Hga & Hpa & Hoa & Ala & _).
  destruct (slab_object_page _ _ _ _ _ HI Hb) as (Hsb & gb & pb & Hgb & Hpb & Hob & Alb & _).
  destruct (elem_of_slab_objs _ _ _ Hsa Hoa) as (? & ? & _).
  destruct (elem_of_slab_objs _ _ _ Hsb Hob) as (? & ? & _).
  destruct (decide (pa = pb)) as [<-|Hp].
  - assert (i = j) as <- by (eapply NoDup_concat_index; [apply (si_nodup _ _ HI)|..]; done).
    destruct Ha as (c & _ & Hc & _ & -> & _), Hb as (c' & _ & Hc' & _ & -> & _).
    simplify_eq. apply (slab_objs_disjoint _ pa); [done..|]. by intros ->.
  - unfold PAGE_SIZE in *.
    pose proof (Z_div_mod_eq_full pa 4096). pose proof (Z_div_mod_eq_full pb 4096).
    destruct (decide (pa < pb)); [left|right]; lia.
Qed.

Lemma cache_NoDup st gs i c g : slab_inv st gs ->
  slab_caches st !! i = Some c -> gs !! i = Some g -> NoDup (g_free g ++ g_live g).
Proof.
  intros HI Hc Hg. destruct (si_cache _ _ HI i c g Hc Hg) as [Hsz _ -> _ _].
  pose proof (si_pages _ _ HI) as Hp. pose proof (si_nodup _ _ HI) as Hnd.
  assert (Hps : forall p, p ∈ g_pages g -> slab_page (sl_pmm st) p).
  { intros p Hin. apply Hp, elem_of_concat_map. exists g. split; [|done].
    by eapply list_elem_of_lookup_2. }
  assert (Hnp : NoDup (g_pages g)).
  { rewrite <- (take_drop_middle _ _ _ Hg), map_app, concat_app in Hnd. simpl in Hnd.
    apply list.NoDup_app in Hnd as (_ & _ & Hnd). by apply list.NoDup_app in Hnd as (? & _ & _). }
  clear - Hsz Hps Hnp. induction (g_pages g) as [|p l IH]; simpl; [constructor|].
  apply list.NoDup_cons in Hnp as [Hpl Hnp]. apply list.NoDup_app. split_and!.
  - by apply NoDup_slab_objs.
  - intros a Ha Hin. apply elem_of_concat_map in Hin as (q & Hq & Ha').
    destruct (elem_of_slab_objs _ _ _ Hsz Ha) as (? & ? & _).
    destruct (elem_of_slab_objs _ _ _ Hsz Ha') as (? & ? & _).
    destruct (slab_size_facts _ Hsz) as (? & _).
    destruct (Hps p) as [Alp _]; [by left|]. destruct (Hps q) as [Alq _]; [by right|].
    assert (p <> q) by (by intros ->). unfold PAGE_SIZE in *.
    pose proof (Z_div_mod_eq_full p 4096). pose proof (Z_div_mod_eq_full q 4096). lia.
  - apply IH; [|done]. intros q Hq. apply Hps. by right.
Qed.

(** ** Building the invariant after one cache changed *)

Lemma slist_agree m m' head l :
  (forall a, a ∈ l -> m' !!! a = m !!! a) -> slist m head l -> slist m' head l.
Proof.
  revert head. induction l as [|b l IH]; intros head Ha Hl; simpl in *; [done|].
  destruct Hl as (-> & Hnz & Hl). split_and!; [done..|].
  rewrite Ha by (by left). apply IH; [|done]. intros a ?. apply Ha. by right.
Qed.

Lemma slab_inv_set st gs i c g c' g' p' m' :
  slab_inv st gs -> slab_caches st !! i = Some c -> gs !! i = Some g ->
  pmm_wf p' -> page_used p' 0 = true -> obj_size c' = obj_size c -> cache_inv m' c' g' ->
  (forall j cj gj, j <> i -> slab_caches st !! j = Some cj -> gs !! j = Some gj ->
     slist m' (free_list cj) (g_free gj)) ->
  NoDup (concat (map g_pages (<[i := g']> gs))) ->
  (forall a, a ∈ concat (map g_pages (<[i := g']> gs)) -> slab_page p' a) ->
  slab_inv {| sl_pmm := p'; sl_mem := m'; slab_caches := <[i := c']> (slab_caches st) |}
    (<[i := g']> gs).
Proof.
  intros [Hw Hz Hs Hl Hc Hnd Hp] Hci Hgi Hw' Hz' Hsz Hci' Hoth Hnd' Hp'.
  constructor; simpl; try done.
  - rewrite list_fmap_insert, list_insert_id; [done|].
    rewrite list_lookup_fmap, Hci. simpl. by rewrite Hsz.
  - by rewrite !length_insert.
  - intros j cj gj Hcj Hgj. destruct (decide (i = j)) as [<-|Hne].
    + rewrite list_lookup_insert_eq in Hcj by by eapply lookup_lt_Some.
      rewrite list_lookup_insert_eq in Hgj by by eapply lookup_lt_Some. by simplify_eq.
    + rewrite list_lookup_insert_ne in Hcj by done. rewrite list_lookup_insert_ne in Hgj by done.
      destruct (Hc j cj gj Hcj Hgj) as [? _ ? ? ?]. constructor; try done. eauto.
Qed.

Lemma slab_inv_set_same_pages st gs i c g c' g' m' :
  slab_inv st gs -> slab_caches st !! i = Some c -> gs !! i = Some g ->
  obj_size c' = obj_size c -> g_pages g' = g_pages g -> cache_inv m' c' g' ->
  (forall j cj gj, j <> i -> slab_caches st !! j = Some cj -> gs !! j = Some gj ->
     slist m' (free_list cj) (g_free gj)) ->
  slab_inv {| sl_pmm := sl_pmm st; sl_mem := m'; slab_caches := <[i := c']> (slab_caches st) |}
    (<[i := g']> gs).
Proof.
  intros HI Hc Hg Hsz Hpg Hci Hoth.
  eapply slab_inv_set; try done; try apply HI;
    rewrite (concat_insert_same g_pages gs i g g') by done; apply HI.
Qed.

(** A cache has at most 8192 pages, its objects fill them, and it never holds
    more than [2^20] objects. *)
Lemma slab_page_bound st gs i g : slab_inv st gs -> gs !! i = Some g ->
  Z.of_nat (length (g_pages g)) <= 8192.
Proof.
  intros HI Hg.
  assert (Hg' : forall p, p ∈ g_pages g -> p ∈ concat (map g_pages gs)).
  { intros p Hp. apply elem_of_concat_map. exists g. split; [|done].
    by eapply list_elem_of_lookup_2. }
  assert (Hnd : NoDup (g_pages g)).
  { pose proof (si_nodup _ _ HI) as Hnd.
    rewrite <- (take_drop_middle _ _ _ Hg), map_app, concat_app in Hnd. simpl in Hnd.
    apply list.NoDup_app in Hnd as (_ & _ & Hnd). by apply list.NoDup_app in Hnd as (? & _ & _). }
  assert (Hsub : g_pages g ⊆+ ((fun k => Z.of_nat k * PAGE_SIZE) <$> seq 0 PAGE_COUNT)).
  { apply NoDup_submseteq; [done|]. intros p Hp. apply Hg', (si_pages _ _ HI) in Hp as (Hal & Hr & _).
    apply list_elem_of_fmap. exists (Z.to_nat (p / PAGE_SIZE)).
    pose proof PAGE_COUNT_eq. unfold PAGE_SIZE, MEMORY_MAX in *.
    pose proof (Z_div_mod_eq_full p 4096).
    assert (0 <= p / 4096) by (apply Z.div_pos; lia). split; [lia|]. apply elem_of_seq. lia. }
  apply submseteq_length in Hsub. rewrite length_fmap, length_seq in Hsub.
  pose proof PAGE_COUNT_eq. lia.
Qed.

Lemma slab_object_count st gs i c g : slab_inv st gs ->
  slab_caches st !! i = Some c -> gs !! i = Some g ->
  Z.of_nat (length (g_free g ++ g_live g)) =
    PAGE_SIZE / obj_size c * Z.of_nat (length (g_pages g)).
Proof.
  intros HI Hc Hg. destruct (si_cache _ _ HI i c g Hc Hg) as [Hsz _ -> _ _].
  destruct (slab_size_facts _ Hsz) as (_ & _ & Hq).
  induction (g_pages g) as [|p l IH]; simpl; [lia|]. rewrite length_app.
  unfold slab_objs at 1. rewrite length_fmap, length_seq. lia.
Qed.

Lemma slab_count_bound st gs i c g : slab_inv st gs ->
  slab_caches st !! i = Some c -> gs !! i = Some g ->
  Z.of_nat (length (g_free g ++ g_live g)) <= 128 * 8192.
Proof.
  intros HI Hc Hg. rewrite (slab_object_count _ _ _ _ _ HI Hc Hg).
  destruct (slab_size_facts _ (ci_size _ _ _ (si_cache _ _ HI i c g Hc Hg))) as (_ & _ & Hq).
  pose proof (slab_page_bound _ _ _ _ HI Hg). nia.
Qed.

(** ** Taking and returning an object *)

Lemma slab_take_ok st gs i c g : slab_inv st gs ->
  slab_caches st !! i = Some c -> gs !! i = Some g -> free_list c <> 0 ->
  exists st' r g', slab_take i st = Some (st', r) /\ g_live g' = r :: g_live g /\
    sl_pmm st' = sl_pmm st /\ g_pages g' = g_pages g /\ slab_inv st' (<[i := g']> gs).
Proof.
  intros HI Hc Hg Hnz. pose proof (slab_count_bound _ _ _ _ _ HI Hc Hg) as Hb.
  destruct (si_cache _ _ HI i c g Hc Hg) as [Hsz Hl Hobjs Hu Hpg].
  destruct g as [gp gf gl]; simpl in *. destruct gf as [|a gf]; simpl in *; [done|].
  destruct Hl as (Ha & Hanz & Hl). unfold slab_take. rewrite Hc. simpl.
  exists {| sl_pmm := sl_pmm st; sl_mem := sl_mem st;
      slab_caches := <[i := {| obj_size := obj_size c; free_list := sl_mem st !!! free_list c;
        pages := pages c; allocs := allocs c +u 1; frees := frees c;
        in_use := in_use c +u 1 |}]> (slab_caches st) |},
    (free_list c), {| g_pages := gp; g_free := gf; g_live := free_list c :: gl |}.
  split_and!; [done..|]. eapply slab_inv_set_same_pages; try done.
  - constructor; simpl; [done|by rewrite Ha| | |done].
    + rewrite <- Hobjs, Ha. symmetry. apply Permutation_middle.
    + rewrite Hu. rewrite length_app in Hb. simpl in Hb. wsimpl. lia.
  - intros j cj gj _ Hcj Hgj. apply (si_cache _ _ HI j cj gj Hcj Hgj).
Qed.

Lemma elem_of_middle {A} (l1 l2 : list A) x : x ∈ l1 ++ x :: l2.
Proof. apply elem_of_app. right. by left. Qed.

Lemma slab_put_ok st gs i c g r l1 l2 : slab_inv st gs ->
  slab_caches st !! i = Some c -> gs !! i = Some g -> g_live g = l1 ++ r :: l2 ->
  slab_inv {| sl_pmm := sl_pmm st; sl_mem := <[r := free_list c]> (sl_mem st);
      slab_caches := <[i := {| obj_size := obj_size c; free_list := r; pages := pages c;
        allocs := allocs c; frees := frees c +u 1;
        in_use := if 0 <? in_use c then in_use c -u 1 else in_use c |}]> (slab_caches st) |}
    (<[i := {| g_pages := g_pages g; g_free := r :: g_free g; g_live := l1 ++ l2 |}]> gs).
Proof.
  intros HI Hc Hg Hr. pose proof (slab_count_bound _ _ _ _ _ HI Hc Hg) as Hb.
  pose proof (cache_NoDup _ _ _ _ _ HI Hc Hg) as Hnd.
  assert (Hobj : slab_object st gs i r (obj_size c)).
  { exists c, g. split_and!; [done..|]. apply elem_of_app. right. rewrite Hr. apply elem_of_middle. }
  assert (Hrnz : r <> 0).
  { destruct (slab_object_page _ _ _ _ _ HI Hobj) as (Hsz & ? & p & _ & _ & Hin & _ & ? & _).
    destruct (elem_of_slab_objs _ _ _ Hsz Hin). lia. }
  destruct (si_cache _ _ HI i c g Hc Hg) as [Hsz Hl Hobjs Hu Hpg].
  rewrite Hr in *. rewrite !length_app in Hb. rewrite length_app in Hu. simpl in Hb, Hu.
  eapply slab_inv_set_same_pages; try done.
  - constructor; simpl; [done| | | |done].
    + apply list.NoDup_app in Hnd as (_ & Hdis & _). apply slist_push; try done.
      intros Hin. apply (Hdis _ Hin). apply elem_of_middle.
    + rewrite <- Hobjs. simpl. rewrite !app_assoc. apply Permutation_middle.
    + rewrite Hu, length_app. case_if; bsimpl; [wsimpl|]; lia.
  - intros j cj gj Hne Hcj Hgj. apply slist_frame; [|apply (si_cache _ _ HI j cj gj Hcj Hgj)].
    intros Hin. assert (Hobj' : slab_object st gs j r (obj_size cj)).
    { exists cj, gj. split_and!; [done..|]. apply elem_of_app. by left. }
    destruct (slab_size_facts _ Hsz) as (? & _).
    destruct (slab_object_page _ _ _ _ _ HI Hobj') as (Hszj & _).
    destruct (slab_size_facts _ Hszj) as (? & _).
    destruct (slab_objects_disjoint _ _ _ _ _ _ _ _ HI Hobj Hobj'); [congruence|lia..].
Qed.

(** ** Growing a cache *)

Lemma slab_page_mono p p' a :
  (forall q, 0 <= q -> page_used p q = true -> page_used p' q = true) ->
  slab_page p a -> slab_page p' a.
Proof.
  intros Hm (? & ? & ?). split; [done|]. split; [done|]. apply Hm; [|done].
  apply Z.div_pos; unfold PAGE_SIZE; lia.
Qed.

(** What an allocation may do to the pages: a used page stays used, and a page
    that is new to a cache was free. *)
Definition used_kept (p p' : PmmState) : Prop :=
  forall q, 0 <= q -> page_used p q = true -> page_used p' q = true.
Definition grown (st : SlabState) (gs : list CacheGhost) (st' : SlabState)
    (gs' : list CacheGhost) : Prop :=
  used_kept (sl_pmm st) (sl_pmm st') /\
  forall a, a ∈ concat (map g_pages gs') ->
    a ∈ concat (map g_pages gs) \/ page_used (sl_pmm st) (a / PAGE_SIZE) = false.

Lemma grown_same st gs st' : used_kept (sl_pmm st) (sl_pmm st') -> grown st gs st' gs.
Proof. intros H. split; [done|]. intros a ?. by left. Qed.

Lemma grown_then st gs st1 gs1 st2 gs2 : grown st gs st1 gs1 -> sl_pmm st2 = sl_pmm st1 ->
  concat (map g_pages gs2) = concat (map g_pages gs1) -> grown st gs st2 gs2.
Proof. intros [H1 H2] Hp Hg. split; [by rewrite Hp|by rewrite Hg]. Qed.

(** Marking pages as used in the allocator below keeps the slab invariant. *)
Lemma slab_inv_pmm st gs p' : slab_inv st gs -> pmm_wf p' ->
  (forall q, 0 <= q -> page_used (sl_pmm st) q = true -> page_used p' q = true) ->
  slab_inv (with_pmm p' st) gs.
Proof.
  intros [Hw Hz Hs Hl Hc Hnd Hp] Hw' Hm. constructor; simpl; try done.
  - apply Hm; [lia|done].
  - intros a Ha. eapply slab_page_mono; [exact Hm|auto].
Qed.

(** The outcome of an allocation from the page allocator, as the slab sees it. *)
Lemma slab_page_alloc st gs : slab_inv st gs ->
  (exists p', pmm_alloc_page (sl_pmm st) = Some (p', 0) /\ slab_inv (with_pmm p' st) gs /\
     used_kept (sl_pmm st) p' /\ forall q, valid_page q -> page_used (sl_pmm st) q = true) \/
  (exists p' a, pmm_alloc_page (sl_pmm st) = Some (p', a) /\ slab_page p' a /\
     page_used (sl_pmm st) (a / PAGE_SIZE) = false /\ slab_inv (with_pmm p' st) gs /\
     used_kept (sl_pmm st) p').
Proof.
  intros HI. destruct (pmm_alloc_page_ok (sl_pmm st) (si_pmm _ _ HI))
    as [(p' & n & Hr & Hv & Hf & _ & Hw & Hu)|(p' & Hr & Hb & Hall)].
  - right. exists p', (n * PAGE_SIZE). unfold valid_page in Hv. rewrite PAGE_COUNT_eq in Hv.
    assert (n <> 0) by (intros ->; by rewrite (si_zero _ _ HI) in Hf).
    assert (Hdiv : n * PAGE_SIZE / PAGE_SIZE = n) by (apply Z.div_mul; done).
    assert (Hk : used_kept (sl_pmm st) p').
    { intros q Hq Hqu. rewrite Hu by done. by case_if. }
    split_and!; [done| |by rewrite Hdiv|by apply slab_inv_pmm|done].
    + split_and!;
        [apply Z.mod_mul; done|unfold PAGE_SIZE; lia|unfold PAGE_SIZE, MEMORY_MAX; lia|].
      rewrite Hdiv, Hu, Z.eqb_refl by lia. done.
  - assert (Hk : used_kept (sl_pmm st) p') by (intros q _ Hq; unfold page_used; by rewrite Hb).
    left. exists p'. split_and!; [done| |done..]. apply slab_inv_pmm; [done| |done].
    unfold pmm_wf. rewrite Hb. apply HI.
Qed.

Lemma slab_grow_ok st gs i c g : slab_inv st gs ->
  slab_caches st !! i = Some c -> gs !! i = Some g -> free_list c = 0 ->
  (exists st', slab_grow_cache i st = Some (st', 0) /\ slab_inv st' gs /\
     grown st gs st' gs /\ forall q, valid_page q -> page_used (sl_pmm st) q = true) \/
  (exists st' c' g', slab_grow_cache i st = Some (st', 1) /\ slab_inv st' (<[i := g']> gs) /\
     slab_caches st' !! i = Some c' /\ free_list c' <> 0 /\ g_live g' = g_live g /\
     grown st gs st' (<[i := g']> gs)).
Proof.
  intros HI Hc Hg Hz. destruct (si_cache _ _ HI i c g Hc Hg) as [Hsz Hl Hobjs Hu Hpg].
  destruct (slab_size_facts _ Hsz) as (Hr & He & Hq).
  unfold slab_grow_cache. rewrite Hc. simpl. unfold sizeof_SlabNode.
  destruct (Z.ltb_spec (obj_size c) 4); [lia|].
  destruct (slab_page_alloc st gs HI)
    as [(p' & -> & HI' & Hk & Hall)|(p' & a & -> & Ha & Hfree & HI' & Hk)]; simpl;
    [left; exists (with_pmm p' st); split_and!;
      [reflexivity|exact HI'|by apply grown_same|exact Hall]|right].
  destruct Ha as (Hal & Har & Hau). destruct (Z.eqb_spec a 0); [lia|].
  set (c1 := {| obj_size := _ |}).
  assert (Hnew : forall j b sb, slab_object st gs j b sb -> ~ (a <= b < a + PAGE_SIZE)).
  { intros j b sb Hb. destruct (slab_object_page _ _ _ _ _ HI Hb)
      as (Hsb & ? & p & _ & _ & Hin & Hpal & _ & Hpu).
    destruct (elem_of_slab_objs _ _ _ Hsb Hin) as (? & ? & _).
    assert (p <> a) by (intros ->; by rewrite Hpu in Hfree).
    destruct (slab_size_facts _ Hsb) as (? & _). unfold PAGE_SIZE in *.
    pose proof (Z_div_mod_eq_full p 4096). pose proof (Z_div_mod_eq_full a 4096). lia. }
  destruct (g_free g) as [|b gf] eqn:Egf; [|by destruct Hl as (? & ? & _); congruence].
  destruct (slab_carve_ok (obj_size c) a Hsz Har [] 0 slab_carve_fuel c1 (sl_mem st))
    as (c' & m' & Heq & Hl' & Hset & Hm); [done|simpl; lia|pose proof slab_carve_fuel_eq; lia|done| |].
  { intros ? _. apply not_elem_of_nil. }
  change (Z.of_nat 0 * obj_size c) with 0 in Heq. rewrite Heq. simpl.
  set (sz := obj_size c) in *. rewrite app_nil_r in Hl'.
  eexists _, c', {| g_pages := a :: g_pages g; g_free := carved sz a (Z.to_nat (PAGE_SIZE / sz));
                    g_live := g_live g |}.
  split; [reflexivity|].
  assert (Hcc : concat (map g_pages (<[i := {| g_pages := a :: g_pages g;
        g_free := carved sz a (Z.to_nat (PAGE_SIZE / sz)); g_live := g_live g |}]> gs))
        ≡ₚ a :: concat (map g_pages gs)) by by eapply concat_insert_cons.
  split_and!.
  - assert (Hna : a ∉ concat (map g_pages gs)).
    { intros (_ & _ & Hpu)%(si_pages _ _ HI). by rewrite Hpu in Hfree. }
    eapply slab_inv_set; [exact HI|done..| | | | | | |].
    + apply HI'.
    + apply HI'.
    + by rewrite Hset.
    + rewrite Hset. pose proof (slab_page_bound _ _ _ _ HI Hg).
      constructor; simpl; [done|done| |done|rewrite Hpg; wsimpl; lia].
      rewrite carved_objs. fold sz. by rewrite <- Hobjs.
    + intros j cj gj _ Hcj Hgj. apply (slist_agree (sl_mem st)); [|apply (si_cache _ _ HI j cj gj Hcj Hgj)].
      intros b Hb. apply Hm. apply (Hnew j b (obj_size cj)).
      exists cj, gj. split_and!; [done..|]. apply elem_of_app. by left.
    + rewrite Hcc. apply list.NoDup_cons. split; [done|apply HI].
    + intros b Hb. rewrite Hcc in Hb. apply elem_of_cons in Hb as [->|Hb].
      * split_and!; (done || lia).
      * apply (si_pages _ _ HI' b Hb).
  - simpl. apply list_lookup_insert_eq. by eapply lookup_lt_Some.
  - destruct (Z.to_nat (PAGE_SIZE / sz)) as [|k] eqn:Ek; [unfold PAGE_SIZE in *; lia|].
    rewrite carved_S in Hl'. simpl in Hl'. destruct Hl' as (-> & ? & _). done.
  - done.
  - split; [exact Hk|]. intros b Hb. rewrite Hcc in Hb.
    apply elem_of_cons in Hb as [->|Hb]; [by right|by left].
Qed.

(** ** The operations *)

(** The size class of a request; it depends on the fixed sizes only. *)
Definition size_class (size : Z) : option nat := find_idx (fun sz => size <=? sz) slab_sizes.

Lemma find_idx_map {A B} (f : A -> B) (p : B -> bool) (l : list A) :
  find_idx p (map f l) = find_idx (fun x => p (f x)) l.
Proof. induction l as [|x l IH]; simpl; [done|]. by rewrite IH. Qed.

Lemma slab_pick_class st gs size : slab_inv st gs ->
  slab_pick_cache size (slab_caches st) = size_class size.
Proof.
  intros HI. unfold size_class. rewrite <- (si_sizes _ _ HI).
  symmetry. apply (find_idx_map obj_size (fun sz => size <=? sz)).
Qed.

Lemma size_class_Some st gs size : slab_inv st gs -> size <= 256 ->
  exists i c g, size_class size = Some i /\ slab_caches st !! i = Some c /\
    gs !! i = Some g /\ size <= obj_size c.
Proof.
  intros HI Hs. destruct (find_idx_is_Some (fun sz => size <=? sz) slab_sizes 3 256)
    as [i Hi]; [done|by apply Z.leb_le|].
  pose proof (find_idx_lt _ _ _ Hi) as Hlt.
  apply find_idx_Some in Hi as Hi'. destruct Hi' as [(sz & Hsz & Hle) _].
  rewrite <- (si_sizes _ _ HI), list_lookup_fmap in Hsz.
  destruct (slab_caches st !! i) as [c|] eqn:Hc; simplify_eq/=.
  assert (Hl : (i < length gs)%nat)
    by (rewrite (si_len _ _ HI); by eapply lookup_lt_Some).
  destruct (lookup_lt_is_Some_2 _ _ Hl) as [g Hg].
  exists i, c, g. split_and!; [done..|]. by apply Z.leb_le.
Qed.

(** A live object of the slab. *)
Definition slab_live (st : SlabState) (gs : list CacheGhost) (i : nat) (a sz : Z) : Prop :=
  exists c g, slab_caches st !! i = Some c /\ gs !! i = Some g /\ sz = obj_size c /\
    a ∈ g_live g.

Lemma slab_live_object st gs i a sz : slab_live st gs i a sz -> slab_object st gs i a sz.
Proof. intros (c & g & ? & ? & ? & ?). exists c, g. split_and!; [done..|]. set_solver. Qed.

Lemma slab_live_nonzero st gs i a sz : slab_inv st gs -> slab_live st gs i a sz -> a <> 0.
Proof.
  intros HI Hl%slab_live_object.
  destruct (slab_object_page _ _ _ _ _ HI Hl) as (Hsz & ? & p & _ & _ & Hin & _ & ? & _).
  destruct (elem_of_slab_objs _ _ _ Hsz Hin). lia.
Qed.

(** A small allocation on a well-formed slab never fails for another reason
    than memory: it returns 0 only when every page is in use, and otherwise an
    object of the class of the request, at least as large as the request, which
    is now live while every other ghost list is unchanged. *)
Lemma slab_alloc_ok st gs size (HI : slab_inv st gs) (Hsize : size <= 256) :
  exists st' r, slab_alloc size st = Some (st', r) /\
    ((r = 0 /\ slab_inv st' gs /\ grown st gs st' gs /\
      forall q, valid_page q -> page_used (sl_pmm st) q = true) \/
     (r <> 0 /\ exists i c g g', size_class size = Some i /\
        slab_caches st !! i = Some c /\ size <= obj_size c /\ gs !! i = Some g /\
        g_live g' = r :: g_live g /\ slab_inv st' (<[i := g']> gs) /\
        grown st gs st' (<[i := g']> gs))).
Proof.
  destruct (size_class_Some st gs size HI Hsize) as (i & c & g & Hcl & Hc & Hg & Hle).
  assert (Htake : forall st1 gs1 c1 g1, slab_inv st1 gs1 -> slab_caches st1 !! i = Some c1 ->
    gs1 !! i = Some g1 -> free_list c1 <> 0 -> g_live g1 = g_live g ->
    <[i := g1]> gs = gs1 -> grown st gs st1 gs1 ->
    exists st' r, slab_take i st1 = Some (st', r) /\ r <> 0 /\ exists g',
      g_live g' = r :: g_live g /\ slab_inv st' (<[i := g']> gs) /\
      grown st gs st' (<[i := g']> gs)).
  { intros st1 gs1 c1 g1 HI1 Hc1 Hg1 Hnz Hlv <- Hgr.
    destruct (slab_take_ok _ _ _ _ _ HI1 Hc1 Hg1 Hnz) as (st' & r & g' & Ht & Hl & Hp & Hpg & HI').
    assert (Hgr' : grown st gs st' (<[i := g']> gs)).
    { eapply grown_then; [exact Hgr|done|]. rewrite <- (list_insert_insert_eq gs i g' g1).
      by apply (concat_insert_same g_pages _ i g1). }
    rewrite list_insert_insert_eq in HI'. rewrite Hlv in Hl.
    exists st', r. split_and!; [done| |by exists g'].
    assert (Hl' : (i < length (slab_caches st'))%nat).
    { rewrite <- (si_len _ _ HI'), length_insert. by eapply lookup_lt_Some. }
    destruct (lookup_lt_is_Some_2 _ _ Hl') as [c' Hc'].
    apply (slab_live_nonzero st' (<[i := g']> gs) i r (obj_size c')); [done|].
    exists c', g'. split_and!; [done| |done|rewrite Hl; by left].
    apply list_lookup_insert_eq. by eapply lookup_lt_Some. }
  unfold slab_alloc. rewrite (slab_pick_class _ _ _ HI), Hcl, Hc. simpl.
  destruct (Z.eqb_spec (free_list c) 0) as [Hz|Hnz].
  - destruct (slab_grow_ok _ _ _ _ _ HI Hc Hg Hz)
      as [(st' & -> & HI' & Hgr & Hall)|(st1 & c1 & g1 & -> & HI1 & Hc1 & Hnz1 & Hl1 & Hgr)]; simpl.
    + exists st', 0. split; [done|]. by left.
    + destruct (Htake st1 (<[i := g1]> gs) c1 g1) as (st' & r & Hst & Hr & g' & Hg' & HI');
        [done|done|apply list_lookup_insert_eq; by eapply lookup_lt_Some|done..|].
      exists st', r. split; [exact Hst|right]. split; [done|].
      exists i, c, g, g'. done.
  - destruct (Htake st gs c g) as (st' & r & Hst & Hr & g' & Hg' & HI');
      [done..|by apply list_insert_id|by apply grown_same; intros q|].
    exists st', r. split; [exact Hst|right]. split; [done|]. exists i, c, g, g'. done.
Qed.

(** Returning a live object with a size of its class. *)
Lemma slab_free_ok st gs i c g r size l1 l2 : slab_inv st gs ->
  size_class size = Some i -> slab_caches st !! i = Some c -> gs !! i = Some g ->
  g_live g = l1 ++ r :: l2 ->
  exists st', slab_free r size st = Some (st', 1) /\ sl_pmm st' = sl_pmm st /\
    slab_inv st' (<[i := {| g_pages := g_pages g; g_free := r :: g_free g;
                            g_live := l1 ++ l2 |}]> gs).
Proof.
  intros HI Hcl Hc Hg Hl.
  assert (Hr : r <> 0).
  { apply (slab_live_nonzero st gs i r (obj_size c) HI). exists c, g.
    split_and!; [done..|]. rewrite Hl. apply elem_of_middle. }
  unfold slab_free. destruct (Z.eqb_spec r 0); [done|].
  rewrite (slab_pick_class _ _ _ HI), Hcl, Hc. simpl.
  eexists. split_and!; [done|done|]. by apply slab_put_ok.
Qed.

(** A client may write anywhere inside the objects it holds. *)
Lemma slab_write_ok st gs i r sz a v : slab_inv st gs -> slab_live st gs i r sz ->
  r <= a < r + sz ->
  slab_inv {| sl_pmm := sl_pmm st; sl_mem := <[a := v]> (sl_mem st);
              slab_caches := slab_caches st |} gs.
Proof.
  intros HI Hlv Ha. constructor; simpl; try apply HI.
  intros j c g Hc Hg. destruct (si_cache _ _ HI j c g Hc Hg) as [Hsz Hl Hobjs Hu Hpg].
  constructor; try done. apply slist_frame; [|done]. intros Hin.
  assert (Hobj : slab_object st gs j a (obj_size c)).
  { exists c, g. split_and!; [done..|]. apply elem_of_app. by left. }
  destruct (decide ((i, r) = (j, a))) as [[= <- <-]|Hne].
  - destruct Hlv as (c' & g' & Hc' & Hg' & -> & Hr).
    rewrite Hc in Hc'. rewrite Hg in Hg'. injection Hc' as <-. injection Hg' as <-.
    pose proof (cache_NoDup _ _ _ _ _ HI Hc Hg) as Hnd.
    apply list.NoDup_app in Hnd as (_ & Hdis & _). by apply (Hdis r).
  - destruct (slab_size_facts _ Hsz) as (? & _).
    destruct (slab_objects_disjoint _ _ _ _ _ _ _ _ HI (slab_live_object _ _ _ _ _ Hlv) Hobj Hne); lia.
Qed.

(** ** Clients of the slab

    The runs of a kernel whose clients allocate up to a page at a time, free what
    they hold with the size they asked for, and write inside what they hold; a
    request of 257 to 4096 bytes is served with a page of its own.  (Larger
    requests are served with one page as well, pmm.c:274, so their blocks do not
    have the size that was asked for: the runs have none.)  Other users of the
    page allocator only take pages.  [live] lists the blocks held: address and
    requested size. *)
Definition slab_empty : list CacheGhost :=
  replicate 4 {| g_pages := []; g_free := []; g_live := [] |}.

Inductive slab_run : SlabState -> list (Z * Z) -> Prop :=
| run_init p m :
    pmm_wf p -> page_used p 0 = true ->
    slab_run {| sl_pmm := p; sl_mem := m; slab_caches := slab_caches_init |} []
| run_alloc st live size st' r :
    slab_run st live -> 0 <= size <= PAGE_SIZE -> slab_alloc size st = Some (st', r) -> r <> 0 ->
    slab_run st' ((r, size) :: live)
| run_alloc_fail st live size st' :
    slab_run st live -> 0 <= size <= PAGE_SIZE -> slab_alloc size st = Some (st', 0) ->
    slab_run st' live
| run_free st live p size st' r :
    slab_run st ((p, size) :: live) -> slab_free p size st = Some (st', r) ->
    slab_run st' live
| run_write st live p size a v :
    slab_run st live -> (p, size) ∈ live -> p <= a < p + size ->
    slab_run {| sl_pmm := sl_pmm st; sl_mem := <[a := v]> (sl_mem st);
                slab_caches := slab_caches st |} live
| run_page st live p' a :
    slab_run st live -> pmm_alloc_page (sl_pmm st) = Some (p', a) ->
    slab_run (with_pmm p' st) live
| run_perm st live live' :
    slab_run st live -> live ≡ₚ live' -> slab_run st live'.

(** The blocks of one class; [None] stands for the whole pages. *)
Definition class_blocks (k : option nat) (live : list (Z * Z)) : list Z :=
  map fst (List.filter (fun b => bool_decide (size_class (snd b) = k)) live).

(** The client's view agrees with the ghost lists; the whole pages it holds are
    used, different, and no pages of the caches. *)
Record slab_view (st : SlabState) (gs : list CacheGhost) (live : list (Z * Z)) : Prop := {
  sv_sizes : forall b, b ∈ live -> 0 <= snd b <= PAGE_SIZE;
  sv_live : forall i g, gs !! i = Some g -> g_live g ≡ₚ class_blocks (Some i) live;
  sv_nodup : NoDup (class_blocks None live ++ concat (map g_pages gs));
  sv_pages : forall a, a ∈ class_blocks None live -> slab_page (sl_pmm st) a
}.

Lemma class_blocks_perm k l l' : l ≡ₚ l' -> class_blocks k l ≡ₚ class_blocks k l'.
Proof.
  intros HP. unfold class_blocks. apply Permutation_map.
  induction HP as [|x l1 l2 _ IH|x y l1|l1 l2 l3 _ IH1 _ IH2]; simpl.
  - done.
  - case_bool_decide; simpl; by rewrite IH.
  - case_bool_decide; simpl; case_bool_decide; simpl; try done. apply Permutation_swap.
  - by rewrite IH1.
Qed.

Lemma class_blocks_cons k b l : class_blocks k (b :: l) =
  if decide (size_class (snd b) = k) then fst b :: class_blocks k l else class_blocks k l.
Proof. unfold class_blocks. simpl. case_bool_decide; case_decide; done. Qed.

Lemma elem_of_class_blocks b live : b ∈ live -> fst b ∈ class_blocks (size_class (snd b)) live.
Proof.
  intros Hb. unfold class_blocks. rewrite list_elem_of_In, in_map_iff. exists b. split; [done|].
  apply filter_In. rewrite <- list_elem_of_In. split; [done|]. by case_bool_decide.
Qed.

Lemma slab_view_perm st gs live live' : live ≡ₚ live' -> slab_view st gs live ->
  slab_view st gs live'.
Proof.
  intros HP [Hs Hl Hn Hp]. pose proof (class_blocks_perm None _ _ HP) as HPn. constructor.
  - intros b Hb. apply Hs. by rewrite HP.
  - intros i g Hg. rewrite (Hl i g Hg). by apply class_blocks_perm.
  - by rewrite <- HPn.
  - intros a Ha. apply Hp. by rewrite HPn.
Qed.

(** Growing caches take no page that a client holds. *)
Lemma slab_view_grown st gs live st' gs' : slab_view st gs live -> grown st gs st' gs' ->
  slab_inv st' gs' ->
  NoDup (class_blocks None live ++ concat (map g_pages gs')) /\
  forall a, a ∈ class_blocks None live -> slab_page (sl_pmm st') a.
Proof.
  intros [Hs Hl Hn Hp] [Hk Hg] HI'. split.
  - apply list.NoDup_app in Hn as (HnW & Hdis & _). apply list.NoDup_app. split_and!;
      [done| |apply HI'].
    intros a Ha Hin. destruct (Hg a Hin) as [?|Hf]; [by apply (Hdis a)|].
    destruct (Hp a Ha) as (_ & _ & Hu). congruence.
  - intros a Ha. eapply slab_page_mono; [exact Hk|auto].
Qed.

(** Operations that give out and take back nothing. *)
Lemma slab_view_kept st gs live st' : slab_view st gs live ->
  used_kept (sl_pmm st) (sl_pmm st') -> slab_inv st' gs -> slab_view st' gs live.
Proof.
  intros HV Hk HI'. destruct (slab_view_grown _ _ _ _ _ HV (grown_same _ _ _ Hk) HI').
  constructor; [apply HV..|done|done].
Qed.

Lemma slab_view_insert st st' gs live i g g' b : gs !! i = Some g -> slab_view st gs live ->
  size_class (snd b) = Some i -> 0 <= snd b <= PAGE_SIZE -> g_live g' = fst b :: g_live g ->
  slab_inv st' (<[i := g']> gs) -> grown st gs st' (<[i := g']> gs) ->
  slab_view st' (<[i := g']> gs) (b :: live).
Proof.
  intros Hg HV Hcl Hb Hl HI' Hgr. destruct (slab_view_grown _ _ _ _ _ HV Hgr HI') as [Hn Hp].
  assert (Hnone : class_blocks None (b :: live) = class_blocks None live).
  { rewrite class_blocks_cons, Hcl. by case_decide. }
  constructor; [intros b' [->|?]%elem_of_cons; [done|by apply HV]| |by rewrite Hnone..].
  intros j gj Hj. rewrite class_blocks_cons, Hcl. destruct (decide (Some i = Some j)) as [[= <-]|Hne].
  - rewrite list_lookup_insert_eq in Hj by by eapply lookup_lt_Some. simplify_eq.
    rewrite Hl. by rewrite (sv_live _ _ _ HV i g Hg).
  - rewrite list_lookup_insert_ne in Hj by congruence. by apply HV.
Qed.

Lemma slab_init_inv p m : pmm_wf p -> page_used p 0 = true ->
  slab_inv {| sl_pmm := p; sl_mem := m; slab_caches := slab_caches_init |} slab_empty.
Proof.
  intros Hw Hz. constructor; simpl; try done.
  - intros i c g Hc Hg. unfold slab_empty in Hg. apply lookup_replicate_1 in Hg as [-> _].
    apply list_elem_of_lookup_2 in Hc. unfold slab_caches_init in Hc. simpl in Hc.
    rewrite !elem_of_cons in Hc. destruct Hc as [->|[->|[->|[->|Hc]]]];
      [..|by apply not_elem_of_nil in Hc]; (constructor; simpl; (done || tauto)).
  - constructor.
  - by intros a ?%not_elem_of_nil.
Qed.

Lemma size_class_small size i : size_class size = Some i -> size <= 256.
Proof.
  intros ((sz & Hsz & Hle%Z.leb_le) & _)%find_idx_Some.
  assert (Hin : In sz slab_sizes) by (apply list_elem_of_In; by eapply list_elem_of_lookup_2).
  destruct (slab_size_facts _ Hin). lia.
Qed.

Lemma size_class_large size : size_class size = None -> 256 < size.
Proof.
  intros H. unfold size_class in H. rewrite find_idx_None in H. apply Z.leb_gt. by apply (H 3%nat 256).
Qed.

(** *** Whole pages *)

Lemma slab_alloc_large st gs live size : slab_inv st gs -> slab_view st gs live ->
  size_class size = None ->
  exists st' r, slab_alloc size st = Some (st', r) /\ slab_inv st' gs /\ slab_view st' gs live /\
    ((r = 0 /\ forall q, valid_page q -> page_used (sl_pmm st) q = true) \/
     (r <> 0 /\ (0 <= size <= PAGE_SIZE -> slab_view st' gs ((r, size) :: live)))).
Proof.
  intros HI HV Hcl. unfold slab_alloc. rewrite (slab_pick_class _ _ _ HI), Hcl.
  destruct (slab_page_alloc st gs HI)
    as [(p' & -> & HI' & Hk & Hall)|(p' & a & -> & Ha & Hfree & HI' & Hk)]; simpl;
    (eexists _, _; split_and!; [done|done|by eapply slab_view_kept|]); [by left|right].
  split; [destruct Ha as (_ & ? & _); lia|]. intros Hsz.
  destruct (slab_view_kept _ _ _ (with_pmm p' st) HV Hk HI') as [Hs Hl Hn Hp].
  assert (HC : class_blocks None ((a, size) :: live) = a :: class_blocks None live).
  { rewrite class_blocks_cons. simpl. rewrite Hcl. by case_decide. }
  constructor.
  - intros b [->|?]%elem_of_cons; [done|by apply Hs].
  - intros i g Hg. rewrite class_blocks_cons. simpl. rewrite Hcl. case_decide; [done|by apply Hl].
  - rewrite HC. simpl. apply list.NoDup_cons. split; [|done]. intros [Hin|Hin]%elem_of_app.
    + destruct (sv_pages _ _ _ HV a Hin) as (_ & _ & Hu). congruence.
    + destruct (si_pages _ _ HI a Hin) as (_ & _ & Hu). congruence.
  - rewrite HC. intros b [->|?]%elem_of_cons; [done|by apply Hp].
Qed.

Lemma page_div_inj a b : a mod PAGE_SIZE = 0 -> b mod PAGE_SIZE = 0 ->
  a / PAGE_SIZE = b / PAGE_SIZE -> a = b.
Proof.
  intros. rewrite (Z_div_mod_eq_full a PAGE_SIZE), (Z_div_mod_eq_full b PAGE_SIZE). congruence.
Qed.

Lemma slab_free_large st gs live p size : slab_inv st gs -> slab_view st gs ((p, size) :: live) ->
  size_class size = None ->
  exists st', slab_free p size st = Some (st', 1) /\ slab_inv st' gs /\ slab_view st' gs live.
Proof.
  intros HI [Hs Hl Hn Hp] Hcl.
  assert (HC : class_blocks None ((p, size) :: live) = p :: class_blocks None live).
  { rewrite class_blocks_cons. simpl. rewrite Hcl. by case_decide. }
  rewrite HC in Hn, Hp. simpl in Hn. apply list.NoDup_cons in Hn as [Hnin Hn].
  rewrite not_elem_of_app in Hnin. destruct Hnin as [HninW HninC].
  destruct (Hp p) as (Hal & Hr & Hu); [by left|]. unfold slab_free.
  destruct (Z.eqb_spec p 0); [lia|]. rewrite (slab_pick_class _ _ _ HI), Hcl.
  assert (Hfree : exists p', pmm_free_page p (sl_pmm st) = Some p' /\ pmm_wf p' /\
    forall q, 0 <= q -> q <> p / PAGE_SIZE -> page_used (sl_pmm st) q = true -> page_used p' q = true).
  { destruct (pmm_free_page_ok (sl_pmm st) p (si_pmm _ _ HI))
      as [(_ & ->)|[(_ & p' & -> & Hw & _ & _ & Hq)|[? _]]];
      [unfold is_u32, MEMORY_MAX in *; lia|exists (sl_pmm st)|exists p'|lia].
    - split_and!; [done|apply HI|done].
    - split_and!; [done|done|]. intros q Hq0 Hne Hqu. rewrite Hq by done.
      destruct (Z.eqb_spec (p / PAGE_SIZE) q); [by subst|done]. }
  destruct Hfree as (p' & -> & Hw & Hq). simpl. eexists. split; [done|].
  assert (Hsp : forall a, a <> p -> slab_page (sl_pmm st) a -> slab_page p' a).
  { intros a Hne (Ha1 & Ha2 & Ha3). split_and!; [done|lia..|]. apply Hq; [|by intros ?%page_div_inj|done].
    apply Z.div_pos; unfold PAGE_SIZE; lia. }
  assert (Hp0 : 0 <> p / PAGE_SIZE).
  { intros H0. pose proof (Z_div_mod_eq_full p PAGE_SIZE). lia. }
  split.
  - constructor; simpl; try apply HI; [done|by apply Hq, HI|].
    intros a Ha. apply Hsp; [by intros ->|by apply (si_pages _ _ HI)].
  - constructor; simpl.
    + intros b ?. apply Hs. by right.
    + intros i g Hg. rewrite (Hl i g Hg), class_blocks_cons. simpl. rewrite Hcl. by case_decide.
    + done.
    + intros a Ha. apply Hsp; [by intros ->|apply Hp; by right].
Qed.

(** A page a client holds is no page of a cache, so a write in it reaches no free
    list. *)
Lemma slab_write_page st gs live p a v : slab_inv st gs -> slab_view st gs live ->
  p ∈ class_blocks None live -> p <= a < p + PAGE_SIZE ->
  slab_inv {| sl_pmm := sl_pmm st; sl_mem := <[a := v]> (sl_mem st);
              slab_caches := slab_caches st |} gs.
Proof.
  intros HI HV Hp Ha. constructor; simpl; try apply HI.
  intros j c g Hc Hg. destruct (si_cache _ _ HI j c g Hc Hg) as [Hsz Hl Hobjs Hu Hpg].
  constructor; try done. apply slist_frame; [|done]. intros Hin.
  assert (Hobj : slab_object st gs j a (obj_size c)).
  { exists c, g. split_and!; [done..|]. apply elem_of_app. by left. }
  destruct (slab_object_page _ _ _ _ _ HI Hobj) as (_ & g' & q & Hg' & Hq & Hin' & Hal & _).
  destruct (elem_of_slab_objs _ _ _ Hsz Hin') as (Hq1 & Hq2 & _).
  destruct (sv_pages _ _ _ HV p Hp) as (Hal' & _ & _).
  assert (p = q) as ->.
  { destruct (slab_size_facts _ Hsz) as (? & _). apply page_div_inj; [done..|]. unfold PAGE_SIZE in *.
    pose proof (Z_div_mod_eq_full p 4096). pose proof (Z_div_mod_eq_full q 4096). lia. }
  pose proof (sv_nodup _ _ _ HV) as Hn. apply list.NoDup_app in Hn as (_ & Hdis & _).
  apply (Hdis q Hp). apply elem_of_concat_map. exists g'. split; [|done].
  by eapply list_elem_of_lookup_2.
Qed.

(** *** The operations on the client's view *)

Definition slab_good (st : SlabState) (live : list (Z * Z)) : Prop :=
  exists gs, slab_inv st gs /\ slab_view st gs live.

Lemma slab_alloc_good st live size : slab_good st live ->
  exists st' r, slab_alloc size st = Some (st', r) /\
    ((r = 0 /\ slab_good st' live /\ forall q, valid_page q -> page_used (sl_pmm st) q = true) \/
     (r <> 0 /\ (0 <= size <= PAGE_SIZE -> slab_good st' ((r, size) :: live)))).
Proof.
  intros (gs & HI & HV). destruct (size_class size) as [k|] eqn:Hk.
  - apply size_class_small in Hk.
    destruct (slab_alloc_ok st gs size HI Hk) as (st' & r & Hr & H). exists st', r.
    split; [done|]. destruct H as [(-> & HI' & Hgr & Hall)|(Hnz & i & c & g & g' & Hcl & _ & _ & Hg & Hl & HI' & Hgr)].
    + left. split_and!; [done|exists gs; split; [done|]|done].
      eapply slab_view_kept; [done|apply Hgr|done].
    + right. split; [done|]. intros Hs. exists (<[i := g']> gs). split; [done|].
      by eapply slab_view_insert.
  - destruct (slab_alloc_large st gs live size HI HV Hk) as (st' & r & Hr & HI' & HV' & H).
    exists st', r. split; [done|]. destruct H as [[-> Hall]|[Hnz HVn]]; [left|right].
    + split_and!; [done|by exists gs|done].
    + split; [done|]. intros Hs. exists gs. auto.
Qed.

Lemma slab_free_good st live p size : slab_good st ((p, size) :: live) ->
  exists st', slab_free p size st = Some (st', 1) /\ slab_good st' live.
Proof.
  intros (gs & HI & HV). destruct (size_class size) as [k|] eqn:Hk;
    [|destruct (slab_free_large _ _ _ _ _ HI HV Hk) as (st' & ? & ? & ?); exists st';
      split; [done|by exists gs]].
  destruct (size_class_Some st gs size HI) as (i & c & g & Hcl & Hc & Hg & _);
    [by eapply size_class_small|].
  pose proof (sv_live _ _ _ HV i g Hg) as HP. rewrite class_blocks_cons in HP. simpl in HP.
  case_decide; [|done]. assert (Hin : p ∈ g_live g) by (rewrite HP; by left).
  apply list_elem_of_split in Hin as (l1 & l2 & Hl).
  destruct (slab_free_ok _ _ _ _ _ _ _ _ _ HI Hcl Hc Hg Hl) as (st' & Hst & Hpm & HI').
  exists st'. split; [done|]. eexists. split; [exact HI'|]. constructor.
  - intros b ?. apply HV. by right.
  - intros j gj Hj. destruct (decide (i = j)) as [<-|Hne].
    + rewrite list_lookup_insert_eq in Hj by by eapply lookup_lt_Some. simplify_eq. simpl.
      rewrite Hl in HP. rewrite <- Permutation_middle in HP. by apply (inj (cons p)) in HP.
    + rewrite list_lookup_insert_ne in Hj by done.
      rewrite (sv_live _ _ _ HV j gj Hj), class_blocks_cons. simpl. case_decide; [congruence|done].
  - rewrite (concat_insert_same g_pages gs i g) by done.
    pose proof (sv_nodup _ _ _ HV) as Hn. rewrite class_blocks_cons in Hn. simpl in Hn.
    case_decide; [congruence|done].
  - intros a Ha. rewrite Hpm. apply HV. rewrite class_blocks_cons. simpl. case_decide; [by right|done].
Qed.

Lemma slab_write_good st live p size a v : slab_good st live -> (p, size) ∈ live ->
  p <= a < p + size ->
  slab_good {| sl_pmm := sl_pmm st; sl_mem := <[a := v]> (sl_mem st);
               slab_caches := slab_caches st |} live.
Proof.
  intros (gs & HI & HV) Hin Ha. exists gs.
  pose proof (sv_sizes _ _ _ HV _ Hin) as Hs. simpl in Hs.
  pose proof (elem_of_class_blocks _ _ Hin) as Hb. simpl in Hb.
  match goal with |- slab_inv ?st' _ /\ _ => assert (HI' : slab_inv st' gs) end.
  { destruct (size_class size) as [k|] eqn:Hk; [|eapply slab_write_page; [done..|lia]].
    destruct (size_class_Some st gs size HI) as (i & c & g & Hcl & Hc & Hg & Hle);
      [by eapply size_class_small|].
    apply (slab_write_ok _ _ i p (obj_size c)); [done| |lia].
    exists c, g. split_and!; [done..|]. rewrite (sv_live _ _ _ HV i g Hg). by simplify_eq. }
  split; [done|]. eapply slab_view_kept; [done|by intros q|done].
Qed.

Lemma slab_run_inv st live : slab_run st live -> slab_good st live.
Proof.
  induction 1 as [p m Hw Hz|st live size st' r _ HG Hs Ha Hr|st live size st' _ HG Hs Ha
    |st live p size st' r _ HG Hf|st live p size a v _ HG Hin Hrange|st live p' a _ HG Ha
    |st live live' _ HG HP].
  - exists slab_empty. split; [by apply slab_init_inv|].
    constructor; [by intros b ?%not_elem_of_nil| |constructor|by intros b ?%not_elem_of_nil].
    intros i g Hg. by apply lookup_replicate_1 in Hg as [-> _].
  - destruct (slab_alloc_good st live size HG) as (st1 & r1 & Hr1 & [[-> _]|[_ H]]);
      simplify_eq; auto.
  - destruct (slab_alloc_good st live size HG) as (st1 & r1 & Hr1 & [(_ & H & _)|[? _]]);
      by simplify_eq.
  - destruct (slab_free_good _ _ _ _ HG) as (st1 & Hst & H). by simplify_eq.
  - by eapply slab_write_good.
  - destruct HG as (gs & HI & HV). exists gs.
    destruct (slab_page_alloc st gs HI) as [(p1 & Hp & HI' & Hk & _)|(p1 & a1 & Hp & _ & _ & HI' & Hk)];
      simplify_eq; (split; [done|]); by eapply slab_view_kept.
  - destruct HG as (gs & HI & HV). exists gs. split; [done|]. by eapply slab_view_perm.
Qed.

(** Where the block in front lies: an object of a cache, or a page of its own. *)
Lemma slab_view_head st gs p size rest : slab_inv st gs -> slab_view st gs ((p, size) :: rest) ->
  (exists i sz, size_class size = Some i /\ size <= sz /\ slab_live st gs i p sz) \/
  (size_class size = None /\ p ∈ class_blocks None ((p, size) :: rest)).
Proof.
  intros HI HV. assert (Hin : (p, size) ∈ (p, size) :: rest) by by left.
  pose proof (elem_of_class_blocks _ _ Hin) as Hb. simpl in Hb.
  destruct (size_class size) as [k|] eqn:Hk; [left|by right].
  destruct (size_class_Some st gs size HI) as (i & c & g & Hcl & Hc & Hg & Hle);
    [by eapply size_class_small|].
  exists i, (obj_size c). split_and!; [congruence|done|]. exists c, g. split_and!; [done..|].
  rewrite (sv_live _ _ _ HV i g Hg). by simplify_eq.
Qed.

Lemma pages_apart p q : p mod PAGE_SIZE = 0 -> q mod PAGE_SIZE = 0 -> p <> q ->
  p + PAGE_SIZE <= q \/ q + PAGE_SIZE <= p.
Proof.
  intros. unfold PAGE_SIZE in *. pose proof (Z_div_mod_eq_full p 4096).
  pose proof (Z_div_mod_eq_full q 4096). lia.
Qed.

(** An object of a cache and a page a client holds. *)
Lemma slab_live_page_apart st gs live i p sz q : slab_inv st gs -> slab_view st gs live ->
  slab_live st gs i p sz -> q ∈ class_blocks None live -> p + sz <= q \/ q + PAGE_SIZE <= p.
Proof.
  intros HI HV Hp%slab_live_object Hq.
  destruct (slab_object_page _ _ _ _ _ HI Hp) as (Hsz & g & r & Hg & Hr & Hin & Hal & _).
  destruct (elem_of_slab_objs _ _ _ Hsz Hin) as (? & ? & _).
  destruct (sv_pages _ _ _ HV q Hq) as (Hal' & _ & _).
  destruct (pages_apart r q) as [?|?]; [done|done| |lia..].
  intros ->. pose proof (sv_nodup _ _ _ HV) as Hn. apply list.NoDup_app in Hn as (_ & Hdis & _).
  apply (Hdis q Hq). apply elem_of_concat_map. exists g. split; [|done].
  by eapply list_elem_of_lookup_2.
Qed.

(** Two objects of the caches. *)
Lemma slab_lives_apart st gs p s q t rest i j si sj : slab_inv st gs ->
  slab_view st gs ((p, s) :: (q, t) :: rest) -> size_class s = Some i -> size_class t = Some j ->
  slab_live st gs i p si -> slab_live st gs j q sj -> p + si <= q \/ q + sj <= p.
Proof.
  intros HI HV Hi Hj Hlp Hlq.
  eapply slab_objects_disjoint; [exact HI|by apply slab_live_object..|].
  intros [= <- <-]. destruct Hlp as (c & g & Hc & Hg & _ & _).
  pose proof (cache_NoDup _ _ _ _ _ HI Hc Hg) as Hnd.
  rewrite (sv_live _ _ _ HV i g Hg), !class_blocks_cons in Hnd. simpl in Hnd. rewrite Hi, Hj in Hnd.
  case_decide; [|done].
  apply list.NoDup_app in Hnd as (_ & _ & Hnd). apply list.NoDup_cons in Hnd as [Hnin _].
  apply Hnin. by left.
Qed.

(** C14: however a run allocates blocks of up to a page, frees and writes them,
    two blocks that are held at the same time never overlap. *)
Theorem slab_blocks_disjoint st p s q t rest
  (Hrun : slab_run st ((p, s) :: (q, t) :: rest)) : p + s <= q \/ q + t <= p.
Proof.
  destruct (slab_run_inv _ _ Hrun) as (gs & HI & HV).
  pose proof (slab_view_perm _ _ _ _ (perm_swap _ _ _) HV) as HV'.
  assert (Hs : s <= PAGE_SIZE) by (apply (sv_sizes _ _ _ HV (p, s)); by left).
  assert (Ht : t <= PAGE_SIZE) by (apply (sv_sizes _ _ _ HV' (q, t)); by left).
  destruct (slab_view_head _ _ _ _ _ HI HV) as [(i & si & Hi & Hsi & Hlp)|[Hi Hlp]];
    destruct (slab_view_head _ _ _ _ _ HI HV') as [(j & sj & Hj & Hsj & Hlq)|[Hj Hlq]].
  - destruct (slab_lives_apart _ _ _ _ _ _ _ _ _ _ _ HI HV Hi Hj Hlp Hlq); lia.
  - destruct (slab_live_page_apart _ _ _ _ _ _ _ HI HV' Hlp Hlq); lia.
  - destruct (slab_live_page_apart _ _ _ _ _ _ _ HI HV Hlq Hlp); lia.
  - pose proof (sv_nodup _ _ _ HV) as Hn. rewrite !class_blocks_cons in Hn. simpl in Hn.
    rewrite Hi, Hj in Hn. case_decide; [|done]. simpl in Hn.
    apply list.NoDup_cons in Hn as [Hnin _].
    destruct (pages_apart p q); [apply (sv_pages _ _ _ HV p Hlp)|apply (sv_pages _ _ _ HV' q Hlq)| |lia..].
    intros ->. apply Hnin. by left.
Qed.

(** C37: in every run of blocks of up to a page the next operation succeeds: an
    allocation returns a block, or 0 when every page is used, freeing a held block
    returns 1, and [slab_get_stats] terminates and reports, for each class, as many
    objects in use as blocks of that class are held and a free list that holds
    all the other objects of the pages of the class: none is lost. *)
Theorem slab_operations_defined st live (Hrun : slab_run st live) :
  (forall size, exists st' r, slab_alloc size st = Some (st', r) /\
     (r = 0 -> forall q, valid_page q -> page_used (sl_pmm st) q = true)) /\
  (forall p size, In (p, size) live -> exists st', slab_free p size st = Some (st', 1)) /\
  (forall k fuel, (k < 4)%nat -> 128 * 8192 <= Z.of_nat fuel ->
     exists s, slab_get_stats fuel (Z.of_nat k) st = Some (inr s) /\
     ss_in_use s = Z.of_nat (length (class_blocks (Some k) live)) /\
     ss_free_objects s + ss_in_use s = PAGE_SIZE / ss_obj_size s * ss_pages s).
Proof.
  pose proof (slab_run_inv _ _ Hrun) as HG. split_and!.
  - intros size. destruct (slab_alloc_good _ _ size HG) as (st' & r & Hr & H).
    exists st', r. split; [done|]. intros ->. by destruct H as [(_ & _ & H)|[H _]].
  - intros p size Hin%list_elem_of_In. apply list_elem_of_split in Hin as (l1 & l2 & ->).
    assert (HP : l1 ++ (p, size) :: l2 ≡ₚ (p, size) :: l1 ++ l2)
      by (symmetry; apply Permutation_middle).
    destruct (slab_free_good _ _ _ _ (slab_run_inv _ _ (run_perm _ _ _ Hrun HP))) as (st' & ? & _).
    eauto.
  - destruct HG as (gs & HI & HV). intros k fuel Hk Hfuel. assert (Hlen : length (slab_caches st) = 4%nat).
    { pose proof (si_sizes _ _ HI) as Hs. apply (f_equal length) in Hs.
      by rewrite length_fmap in Hs. }
    destruct (lookup_lt_is_Some_2 (slab_caches st) k) as [c Hc]; [lia|].
    destruct (lookup_lt_is_Some_2 gs k) as [g Hg]; [rewrite (si_len _ _ HI); lia|].
    destruct (si_cache _ _ HI k c g Hc Hg) as [Hsz Hl Hobjs Hu Hpg].
    pose proof (slab_count_bound _ _ _ _ _ HI Hc Hg) as Hb. rewrite length_app in Hb.
    unfold slab_get_stats. change (Z.of_nat SLAB_CACHE_COUNT) with 4.
    destruct (Z.ltb_spec (Z.of_nat k) 0); [lia|]. destruct (Z.leb_spec 4 (Z.of_nat k)); [lia|].
    rewrite Nat2Z.id, Hc. cbn [orb mbind option_bind].
    rewrite (slist_walk _ _ _ _ 0 Hl) by lia. eexists. split; [reflexivity|]. simpl.
    rewrite Hu, Hpg, <- (slab_object_count _ _ _ _ _ HI Hc Hg), length_app.
    split; [by rewrite (sv_live _ _ _ HV k g Hg)|lia].
Qed.

(** ** Witnesses: a run that holds two blocks *)

Definition demo_slab : SlabState :=
  {| sl_pmm := demo_pmm; sl_mem := ∅; slab_caches := slab_caches_init |}.
Definition demo_slab1 : SlabState := fst (default (demo_slab, 0) (slab_alloc 100 demo_slab)).
Definition demo_slab2 : SlabState := fst (default (demo_slab, 0) (slab_alloc 1000 demo_slab1)).

Lemma demo_slab_inv : slab_inv demo_slab slab_empty.
Proof. apply slab_init_inv; by vm_compute. Qed.

Lemma demo_slab_run : slab_run demo_slab2 [(12288, 1000); (12160, 100)].
Proof.
  apply (run_alloc demo_slab1 [(12160, 100)] 1000); [|unfold PAGE_SIZE; lia|by vm_compute|lia].
  apply (run_alloc demo_slab [] 100); [|unfold PAGE_SIZE; lia|by vm_compute|lia].
  apply run_init; by vm_compute.
Qed.

Lemma slab_blocks_disjoint_witness :
  slab_run demo_slab2 [(12288, 1000); (12160, 100)] /\ (12288 + 1000 <= 12160 \/ 12160 + 100 <= 12288).
Proof.
  split; [exact demo_slab_run|]. apply (slab_blocks_disjoint demo_slab2 12288 1000 12160 100 []).
  exact demo_slab_run.
Defined.

Lemma slab_operations_defined_witness :
  slab_run demo_slab2 [(12288, 1000); (12160, 100)] /\
  exists st', slab_free 12160 100 demo_slab2 = Some (st', 1).
Proof.
  split; [exact demo_slab_run|].
  destruct (slab_operations_defined demo_slab2 _ demo_slab_run) as (_ & Hf & _).
  apply (Hf 12160 100). right. left. reflexivity.
Defined.
