(* ===== verification/BlockDev.v ===== *)
(** * Sector devices: the interface of the storage layer

    The file systems and the page cache reach the disk through two calls of
    kernel/disk.c, [disk_read_sector_uncached] and [disk_write_sector_uncached].
    [BlockDev] is that interface, [ReliableDev] states what a client may rely on
    when the device does not lose writes, and [MemDisk] is a concrete device
    with unreadable sectors. *)
From S2P Require Import Prelude.

(** Result codes (kernel/disk.h, [DiskIoResult]). *)
Definition DISK_IO_OK : Z := 0.
Definition DISK_IO_ERR_NO_DEVICE : Z := -1.
Definition DISK_IO_ERR_NO_READY_PORT : Z := -2.
Definition DISK_IO_ERR_TIMEOUT : Z := -3.
Definition DISK_IO_ERR_TFES : Z := -4.
Definition DISK_IO_ERR_UNSUPPORTED : Z := -5.

(** A sector buffer: 256 words of 16 bits. *)
Definition sector_words : nat := 256.
Definition is_sector (b : list Z) : Prop := length b = sector_words.

(** A read returns the new device state, the result code and the buffer as the
    call leaves it; a write has no result. *)
Class BlockDev (D : Type) := {
  dev_read : Z -> list Z -> D -> D * Z * list Z;
  dev_write : Z -> list Z -> D -> D
}.

Class ReliableDev (D : Type) `{BlockDev D} := {
  dev_inv : D -> Prop;
  dev_content : D -> Z -> list Z;
  dev_content_sector d lba : dev_inv d -> is_sector (dev_content d lba);
  (** A successful read fills the buffer with the sector, a failed one leaves
      something of the same size; neither changes the device's data. *)
  dev_read_ok d lba buf d' rc buf' :
    dev_inv d -> is_sector buf -> dev_read lba buf d = (d', rc, buf') ->
    dev_inv d' /\ is_sector buf' /\ (forall q, dev_content d' q = dev_content d q) /\
    (rc = DISK_IO_OK -> buf' = dev_content d lba);
  (** A write replaces one sector. *)
  dev_write_ok d lba buf : dev_inv d -> is_sector buf ->
    dev_inv (dev_write lba buf d) /\
    forall q, dev_content (dev_write lba buf d) q =
              if lba =? q then buf else dev_content d q
}.

(** ** A device in memory *)

(** Sectors that were never written hold zeros; the sectors in [md_bad] cannot
    be read. *)
Record MemDisk := { md_data : gmap Z (list Z); md_bad : gset Z }.

Definition zero_sector : list Z := replicate sector_words 0.

Lemma zero_sector_ok : is_sector zero_sector.
Proof. apply length_replicate. Qed.

Definition md_content (d : MemDisk) (lba : Z) : list Z :=
  default zero_sector (md_data d !! lba).

#[export] Instance MemDisk_BlockDev : BlockDev MemDisk := {
  dev_read lba buf d :=
    if decide (lba ∈ md_bad d) then (d, DISK_IO_ERR_NO_DEVICE, buf)
    else (d, DISK_IO_OK, md_content d lba);
  dev_write lba buf d := {| md_data := <[lba := buf]> (md_data d); md_bad := md_bad d |}
}.

Definition md_wf (d : MemDisk) : Prop := map_Forall (fun _ b => is_sector b) (md_data d).

Lemma md_content_ok d lba : md_wf d -> is_sector (md_content d lba).
Proof.
  intros Hd. unfold md_content. destruct (md_data d !! lba) eqn:E; [by apply (Hd lba)|].
  apply zero_sector_ok.
Qed.

#[export] Program Instance MemDisk_ReliableDev : ReliableDev MemDisk := {
  dev_inv := md_wf;
  dev_content := md_content
}.
Next Obligation.
  apply md_content_ok.
Qed.
Next Obligation.
  intros d lba buf d' rc buf' Hd Hb Hr. simpl in Hr. case_decide; simplify_eq.
  - split_and!; [done..|]. unfold DISK_IO_ERR_NO_DEVICE, DISK_IO_OK. lia.
  - split_and!; try done. by apply md_content_ok.
Qed.
Next Obligation.
  intros d lba buf Hd Hb. split.
  - by apply map_Forall_insert_2.
  - intros q. unfold md_content. simpl. destruct (Z.eqb_spec lba q) as [<-|Hne].
    + by rewrite lookup_insert_eq.
    + by rewrite lookup_insert_ne.
Qed.

(** ** Devices that can read every sector *)

Class WorkingDev (D : Type) `{ReliableDev D} := {
  dev_works : D -> Prop;
  dev_works_read d lba buf : dev_inv d -> dev_works d -> is_sector buf ->
    snd (fst (dev_read lba buf d)) = DISK_IO_OK /\ dev_works (fst (fst (dev_read lba buf d)));
  dev_works_write d lba buf : dev_works d -> dev_works (dev_write lba buf d)
}.

#[export] Program Instance MemDisk_WorkingDev : WorkingDev MemDisk := {
  dev_works d := md_bad d = ∅
}.
Next Obligation.
  intros d lba buf _ Hd _. simpl in *. rewrite decide_False; [done|]. rewrite Hd. set_solver.
Qed.
Next Obligation. done. Qed.
