(* ===== verification/PageCache.v ===== *)
(** * Sector cache (kernel/page_cache.c)

    A write-back cache of 32 sectors with a clock replacement.  The state is
    parameterised by the device below ([BlockDev]); its theorems need the device
    to be a [ReliableDev].  The cache is itself a [ReliableDev] whose content is
    the coherent view of lines over disk. *)
From S2P Require Import Prelude BlockDev.

Definition CACHE_LINES : nat := 32.

Record CacheLine := {
  valid : bool; dirty : bool; ref : bool; lba : Z; data : list Z
}.

#[export] Instance CacheLine_inhabited : Inhabited CacheLine :=
  populate {| valid := false; dirty := false; ref := false; lba := 0; data := zero_sector |}.

Record PageCacheStats := {
  read_hits : Z; read_misses : Z; write_hits : Z; write_misses : Z;
  evictions : Z; buffered_writes : Z; flush_writes : Z; dirty_lines : Z
}.

(** Copying a sector word by word. *)
Definition copy_sector (dst src : list Z) : list Z :=
  for_each (fun i d => <[i := src !!! i]> d) 0 sector_words dst.

Section page_cache.
Context {D : Type} `{!BlockDev D}.

(** The static variables of the file and the device below. *)
Record CacheState := {
cache_lines : list CacheLine;
clock_hand : nat;
cache_initialized : bool;
cache_stats : PageCacheStats;
cache_disk : D
}.

Definition with_line (i : nat) (l : CacheLine) (st : CacheState) : CacheState :=
{| cache_lines := <[i := l]> (cache_lines st); clock_hand := clock_hand st;
   cache_initialized := cache_initialized st; cache_stats := cache_stats st;
   cache_disk := cache_disk st |}.
Definition with_hand (h : nat) (st : CacheState) : CacheState :=
{| cache_lines := cache_lines st; clock_hand := h;
   cache_initialized := cache_initialized st; cache_stats := cache_stats st;
   cache_disk := cache_disk st |}.
Definition with_stats (s : PageCacheStats) (st : CacheState) : CacheState :=
{| cache_lines := cache_lines st; clock_hand := clock_hand st;
   cache_initialized := cache_initialized st; cache_stats := s;
   cache_disk := cache_disk st |}.
Definition with_disk (d : D) (st : CacheState) : CacheState :=
{| cache_lines := cache_lines st; clock_hand := clock_hand st;
   cache_initialized := cache_initialized st; cache_stats := cache_stats st;
   cache_disk := d |}.

Definition find_line (q : Z) (st : CacheState) : option nat :=
find_idx (fun l => valid l && (lba l =? q)) (cache_lines st).

(** One counter of the statistics goes up. *)
Inductive stat_field :=
| SReadHits | SReadMisses | SWriteHits | SWriteMisses | SEvictions | SBuffered | SFlush.

Definition bump_stat (f : stat_field) (s : PageCacheStats) : PageCacheStats :=
{| read_hits := if f is SReadHits then read_hits s +u 1 else read_hits s;
   read_misses := if f is SReadMisses then read_misses s +u 1 else read_misses s;
   write_hits := if f is SWriteHits then write_hits s +u 1 else write_hits s;
   write_misses := if f is SWriteMisses then write_misses s +u 1 else write_misses s;
   evictions := if f is SEvictions then evictions s +u 1 else evictions s;
   buffered_writes := if f is SBuffered then buffered_writes s +u 1 else buffered_writes s;
   flush_writes := if f is SFlush then flush_writes s +u 1 else flush_writes s;
   dirty_lines := dirty_lines s |}.
Definition bump (f : stat_field) (st : CacheState) : CacheState :=
with_stats (bump_stat f (cache_stats st)) st.

Definition set_flags (v d r : bool) (l : CacheLine) : CacheLine :=
{| valid := v; dirty := d; ref := r; lba := lba l; data := data l |}.

Definition flush_line (idx : nat) (st : CacheState) : CacheState :=
if (CACHE_LINES <=? idx)%nat then st
else
  let l := cache_lines st !!! idx in
  if valid l && dirty l then
    let st := with_disk (dev_write (lba l) (data l) (cache_disk st)) st in
    let st := with_line idx (set_flags (valid l) false (ref l) l) st in
    bump SFlush st
  else st.

(** [flush_line(idx); valid = 0; evictions++]. *)
Definition evict_line (idx : nat) (st : CacheState) : CacheState :=
let st := flush_line idx st in
let l := cache_lines st !!! idx in
bump SEvictions (with_line idx (set_flags false (dirty l) (ref l) l) st).

(** [(clock_hand + 1) % CACHE_LINES]. *)
Definition next_hand (h : nat) : nat := Nat.modulo (h + 1) CACHE_LINES.
Arguments next_hand : simpl never.

(** One turn of the clock; [Some idx] is the [return idx]. *)
Definition pick_step (i : nat) (st : CacheState) : CacheState * option nat :=
let idx := clock_hand st in
let st := with_hand (next_hand (clock_hand st)) st in
let l := cache_lines st !!! idx in
if negb (valid l) then (st, Some idx)
else if ref l then (with_line idx (set_flags (valid l) (dirty l) false l) st, None)
else (evict_line idx st, Some idx).

Definition pick_victim_line (st : CacheState) : CacheState * nat :=
match for_until pick_step 0 (CACHE_LINES * 2) st with
| (st, Some idx) => (st, idx)
| (st, None) => (evict_line (clock_hand st) st, clock_hand st)
end.

Definition page_cache_init (st : CacheState) : CacheState :=
if cache_initialized st then st
else {| cache_lines :=
          map (fun l => {| valid := false; dirty := false; ref := false; lba := 0;
                           data := data l |}) (cache_lines st);
        clock_hand := 0; cache_initialized := true; cache_stats := cache_stats st;
        cache_disk := cache_disk st |}.

(** [page_cache_read_sector]: the new state, the result and the buffer after
  the call; a null buffer is [None]. *)
Definition page_cache_read_sector (q : Z) (buffer : option (list Z)) (st : CacheState)
: CacheState * Z * option (list Z) :=
match buffer with
| None => (st, DISK_IO_ERR_NO_DEVICE, None)
| Some buf =>
    let st := page_cache_init st in
    match find_line q st with
    | Some idx =>
        let l := cache_lines st !!! idx in
        let buf := copy_sector buf (data l) in
        let st := with_line idx (set_flags (valid l) (dirty l) true l) st in
        (bump SReadHits st, DISK_IO_OK, Some buf)
    | None =>
        let st := bump SReadMisses st in
        let '(st, idx) := pick_victim_line st in
        let l := cache_lines st !!! idx in
        let '(d, rc, dat) := dev_read q (data l) (cache_disk st) in
        let st := with_disk d st in
        if negb (rc =? DISK_IO_OK) then
          (with_line idx {| valid := false; dirty := false; ref := false; lba := lba l;
                            data := dat |} st, DISK_IO_ERR_NO_DEVICE, Some buf)
        else
          let l := {| valid := true; dirty := false; ref := true; lba := q; data := dat |} in
          (with_line idx l st, DISK_IO_OK, Some (copy_sector buf dat))
    end
end.

Definition page_cache_write_sector (q : Z) (buffer : option (list Z)) (st : CacheState)
: CacheState * Z :=
match buffer with
| None => (st, DISK_IO_ERR_NO_DEVICE)
| Some buf =>
    let st := page_cache_init st in
    let '(st, idx) :=
      match find_line q st with
      | None =>
          let '(st, idx) := pick_victim_line (bump SWriteMisses st) in
          let l := cache_lines st !!! idx in
          (with_line idx {| valid := true; dirty := dirty l; ref := ref l; lba := q;
                            data := data l |} st, idx)
      | Some idx => (bump SWriteHits st, idx)
      end in
    let l := cache_lines st !!! idx in
    let st := with_line idx {| valid := valid l; dirty := true; ref := true; lba := lba l;
                               data := copy_sector (data l) buf |} st in
    (bump SBuffered st, DISK_IO_OK)
end.

Definition page_cache_flush_all (st : CacheState) : CacheState :=
for_each flush_line 0 CACHE_LINES (page_cache_init st).

Definition page_cache_get_stats (st : CacheState) : CacheState * PageCacheStats :=
let n := length (List.filter (fun l => valid l && dirty l) (cache_lines st)) in
let s := cache_stats st in
let s := {| read_hits := read_hits s; read_misses := read_misses s;
            write_hits := write_hits s; write_misses := write_misses s;
            evictions := evictions s; buffered_writes := buffered_writes s;
            flush_writes := flush_writes s; dirty_lines := Z.of_nat n |} in
(with_stats s st, s).

Definition page_cache_reset_stats (st : CacheState) : CacheState :=
with_stats {| read_hits := 0; read_misses := 0; write_hits := 0; write_misses := 0;
              evictions := 0; buffered_writes := 0; flush_writes := 0; dirty_lines := 0 |} st.

End page_cache.
Arguments CacheState : clear implicits.
#[global] Arguments page_cache_read_sector : simpl never.
#[global] Arguments page_cache_write_sector : simpl never.
#[global] Arguments page_cache_flush_all : simpl never.

(** ** The coherent view

    [coh st v]: the cache and the disk together hold the sectors [v].  A line
    that is valid holds the data of its sector; a sector without a line is the
    one on the disk; a clean line agrees with the disk. *)
Lemma copy_sector_ok dst src : is_sector dst -> is_sector src -> copy_sector dst src = src.
Proof.
  intros Hd Hs. unfold copy_sector.
  pose proof (for_each_inv (fun i d => <[i := src !!! i]> d)
    (fun n d => is_sector d /\ forall j, (j < n)%nat -> d !! j = src !! j) sector_words 0 dst) as H.
  destruct H as [Hl Hj].
  - split; [done|]. lia.
  - intros j t Hj [Ht Hlt]. split; [unfold is_sector; by rewrite length_insert|].
    intros k Hk. destruct (decide (k = j)) as [->|].
    + rewrite list_lookup_insert_eq by (rewrite Ht; lia).
      symmetry. apply list_lookup_lookup_total_lt. rewrite Hs. lia.
    + rewrite list_lookup_insert_ne by done. apply Hlt. lia.
  - apply list_eq. intros i. destruct (decide (i < sector_words)%nat); [apply Hj; lia|].
    rewrite !lookup_ge_None_2; [done|rewrite Hs; lia|]. rewrite Hl. lia.
Qed.

Section coherence.
Context {D : Type} `{BD : BlockDev D} `{RD : !ReliableDev D}.
Implicit Types (st : CacheState D) (v : Z -> list Z).

Record coh (st : CacheState D) (v : Z -> list Z) : Prop := {
co_len : length (cache_lines st) = CACHE_LINES;
co_hand : (clock_hand st < CACHE_LINES)%nat;
co_dev : dev_inv (cache_disk st);
co_sector : forall i l, cache_lines st !! i = Some l -> is_sector (data l);
co_uniq : forall i j li lj, cache_lines st !! i = Some li -> cache_lines st !! j = Some lj ->
  valid li = true -> valid lj = true -> lba li = lba lj -> i = j;
co_hit : forall i l, cache_lines st !! i = Some l -> valid l = true -> v (lba l) = data l;
co_miss : forall q, (forall i l, cache_lines st !! i = Some l -> valid l = true -> lba l <> q) ->
  v q = dev_content (cache_disk st) q;
co_clean : forall i l, cache_lines st !! i = Some l -> valid l = true -> dirty l = false ->
  data l = dev_content (cache_disk st) (lba l);
co_init : cache_initialized st = false -> forall i l, cache_lines st !! i = Some l -> valid l = false
}.

(** No line of the cache holds sector [q]. *)
Definition uncached (st : CacheState D) (q : Z) : Prop :=
forall i l, cache_lines st !! i = Some l -> valid l = true -> lba l <> q.

Lemma line_lookup st v i : coh st v -> (i < CACHE_LINES)%nat ->
cache_lines st !! i = Some (cache_lines st !!! i).
Proof. intros Hc Hi. apply list_lookup_lookup_total_lt. by rewrite (co_len _ _ Hc). Qed.

Lemma find_line_Some st q i : find_line q st = Some i ->
exists l, cache_lines st !! i = Some l /\ valid l = true /\ lba l = q.
Proof.
intros [(l & Hl & Hp) _]%find_idx_Some. exists l. bsimpl. done.
Qed.

Lemma find_line_None st q : find_line q st = None -> uncached st q.
Proof.
intros Hn i l Hl Hv <-. unfold find_line in Hn. rewrite find_idx_None in Hn.
specialize (Hn i l Hl). by rewrite Hv, Z.eqb_refl in Hn.
Qed.

(** The view as a function. *)
Definition cache_view (st : CacheState D) (q : Z) : list Z :=
match find_line q st with
| Some i => data (cache_lines st !!! i)
| None => dev_content (cache_disk st) q
end.

Lemma coh_view st v q : coh st v -> cache_view st q = v q.
Proof.
intros Hc. unfold cache_view. destruct (find_line q st) as [i|] eqn:Ef.
- apply find_line_Some in Ef as (l & Hl & Hv & <-).
  rewrite (list_lookup_total_correct _ _ _ Hl). by rewrite (co_hit _ _ Hc i l Hl Hv).
- symmetry. apply (co_miss _ _ Hc). by apply find_line_None.
Qed.

Lemma coh_ext st v v' : (forall q, v q = v' q) -> coh st v -> coh st v'.
Proof.
intros Hv [? ? ? ? ? Hh Hm ? ?]. constructor; try done.
- intros. rewrite <- Hv. eauto.
- intros. rewrite <- Hv. eauto.
Qed.

(** States that differ only in the statistics or the hand. *)
Lemma coh_stats st v s : coh st v -> coh (with_stats s st) v.
Proof. by intros []; constructor. Qed.
Lemma coh_hand st v h : (h < CACHE_LINES)%nat -> coh st v -> coh (with_hand h st) v.
Proof. by intros ? []; constructor. Qed.

(** Line [i] becomes [l'] and the device [d']: what it takes for the cache to
  hold [v'] afterwards. *)
Lemma coh_update st v v' i l l' d' :
coh st v -> cache_lines st !! i = Some l -> dev_inv d' -> is_sector (data l') ->
(valid l' = true -> v' (lba l') = data l' /\
   (dirty l' = false -> data l' = dev_content d' (lba l'))) ->
(forall j lj, j <> i -> cache_lines st !! j = Some lj -> valid lj = true ->
   (valid l' = true -> lba lj <> lba l') /\ v' (lba lj) = v (lba lj) /\
   dev_content d' (lba lj) = dev_content (cache_disk st) (lba lj)) ->
(forall q, (forall j lj, j <> i -> cache_lines st !! j = Some lj -> valid lj = true -> lba lj <> q) ->
   (valid l' = true -> lba l' <> q) -> v' q = dev_content d' q) ->
(cache_initialized st = false -> valid l' = false) ->
coh (with_line i l' (with_disk d' st)) v'.
Proof.
intros [Hlen Hh Hd Hs Hu Hhit Hm Hcl Hin] Hl Hd' Hs' Hv' Hoth Hmiss Hini.
assert (Hi : (i < length (cache_lines st))%nat) by by eapply lookup_lt_Some.
assert (Hlk : forall j lj, <[i := l']> (cache_lines st) !! j = Some lj ->
  (j = i /\ lj = l') \/ (j <> i /\ cache_lines st !! j = Some lj)).
{ intros j lj [(<- & <- & _)|[? Hj]]%list_lookup_insert_Some; auto. }
constructor; simpl; try done.
- by rewrite length_insert.
- intros j lj [[-> ->]|[_ Hj]]%Hlk; eauto.
- intros j k lj lk [[-> ->]|[Hji Hj]]%Hlk [[-> ->]|[Hki Hk]]%Hlk Hvj Hvk He; [done|..|eauto].
  + destruct (Hoth k lk Hki Hk Hvk) as [Hne _]. by destruct (Hne Hvj).
  + destruct (Hoth j lj Hji Hj Hvj) as [Hne _]. by destruct (Hne Hvk).
- intros j lj [[-> ->]|[Hji Hj]]%Hlk Hv; [by apply Hv'|].
  destruct (Hoth j lj Hji Hj Hv) as (_ & -> & _). eauto.
- intros q Hq. apply Hmiss.
  + intros j lj Hji Hj Hv. apply (Hq j lj); [|done]. by rewrite list_lookup_insert_ne.
  + intros Hv. apply (Hq i l'); [|done]. by apply list_lookup_insert_eq.
- intros j lj [[-> ->]|[Hji Hj]]%Hlk Hv Hdt; [by apply Hv'|].
  destruct (Hoth j lj Hji Hj Hv) as (_ & _ & ->). eauto.
- intros Hci j lj [[-> ->]|[_ Hj]]%Hlk; eauto.
Qed.

(** A line is replaced by one with the same validity, sector and data. *)
Lemma coh_flags st v i l r : coh st v -> cache_lines st !! i = Some l ->
coh (with_line i (set_flags (valid l) (dirty l) r l) st) v.
Proof.
intros Hc Hl. apply (coh_update st v v i l _ (cache_disk st)); simpl; try done.
- apply Hc.
- by apply (co_sector _ _ Hc i l).
- intros Hv. split; [by apply (co_hit _ _ Hc i)|by apply (co_clean _ _ Hc i)].
- intros j lj Hne Hj Hvj. split_and!; [|done..]. intros Hv He. apply Hne.
  by apply (co_uniq _ _ Hc j i lj l).
- intros q Hq Hql. apply (co_miss _ _ Hc). intros j lj Hj Hv.
  destruct (decide (j = i)) as [->|]; [|by apply (Hq j)].
  rewrite Hl in Hj. injection Hj as <-. by apply Hql.
- intros Hci. by apply (co_init _ _ Hc Hci i).
Qed.

(** ** Flushing and evicting *)

Lemma flush_line_ok st v i : coh st v -> (i < CACHE_LINES)%nat ->
coh (flush_line i st) v /\ clock_hand (flush_line i st) = clock_hand st /\
cache_initialized (flush_line i st) = cache_initialized st /\
(forall j, j <> i -> cache_lines (flush_line i st) !! j = cache_lines st !! j) /\
exists l, cache_lines (flush_line i st) !! i = Some l /\ valid l && dirty l = false /\
  valid l = valid (cache_lines st !!! i) /\ lba l = lba (cache_lines st !!! i).
Proof.
intros Hc Hi. pose proof (line_lookup st v i Hc Hi) as Hl.
unfold flush_line. destruct (Nat.leb_spec CACHE_LINES i); [lia|].
set (l := cache_lines st !!! i) in *.
destruct (valid l && dirty l) eqn:E.
- bsimpl. pose proof (co_sector _ _ Hc i l Hl) as Hsec.
  destruct (dev_write_ok (cache_disk st) (lba l) (data l)) as [Hd' Hw]; [apply Hc|done|].
  split_and!; simpl; try done.
  + apply coh_stats. apply (coh_update st v v i l); simpl; try done.
    * intros Hv. split; [by apply (co_hit _ _ Hc i)|]. intros _. rewrite Hw, Z.eqb_refl. done.
    * intros j lj Hne Hj Hvj.
      assert (lba lj <> lba l) by (intros He; apply Hne; by apply (co_uniq _ _ Hc j i lj l)).
      split_and!; [done..|]. rewrite Hw. case_if; bsimpl; congruence.
    * intros q Hq Hql. rewrite Hw. case_if; bsimpl; [by destruct (Hql H0)|].
      apply (co_miss _ _ Hc). intros j lj Hj Hv. destruct (decide (j = i)) as [->|]; [|by apply (Hq j)].
      rewrite Hl in Hj. injection Hj as <-. done.
    * intros Hci. by rewrite (co_init _ _ Hc Hci i l Hl) in H0.
  + intros j Hne. by rewrite list_lookup_insert_ne.
  + eexists. split; [by apply list_lookup_insert_eq; rewrite (co_len _ _ Hc)|]. simpl.
    by rewrite andb_false_r.
- split_and!; try done. by exists l.
Qed.

Lemma evict_line_ok st v i : coh st v -> (i < CACHE_LINES)%nat ->
coh (evict_line i st) v /\ valid (cache_lines (evict_line i st) !!! i) = false /\
cache_initialized (evict_line i st) = cache_initialized st.
Proof.
intros Hc Hi. destruct (flush_line_ok st v i Hc Hi) as (Hc' & _ & Hini & _ & l & Hl & Hvd & _ & _).
unfold evict_line. set (st1 := flush_line i st) in *.
rewrite (list_lookup_total_correct _ _ _ Hl). split_and!; [|..].
- apply coh_stats. apply (coh_update st1 v v i l _ (cache_disk st1)); simpl; try done.
  + apply Hc'.
  + by apply (co_sector _ _ Hc' i l).
  + intros q Hq _. destruct (decide (valid l = true /\ lba l = q)) as [[Hv <-]|Hn].
    * rewrite (co_hit _ _ Hc' i l Hl Hv). rewrite Hv in Hvd. by apply (co_clean _ _ Hc' i l Hl Hv).
    * apply (co_miss _ _ Hc'). intros j lj Hj Hv Hb. destruct (decide (j = i)) as [->|]; [|by apply (Hq j lj)].
      rewrite Hl in Hj. injection Hj as <-. by apply Hn.
- simpl. rewrite list_lookup_total_insert_eq; [done|]. rewrite (co_len _ _ Hc'). done.
- done.
Qed.
(** The valid lines of [st'] were valid lines of [st] for the same sectors. *)
Definition shrinks (st st' : CacheState D) : Prop :=
forall j l', cache_lines st' !! j = Some l' -> valid l' = true ->
  exists l, cache_lines st !! j = Some l /\ valid l = true /\ lba l = lba l'.

Lemma shrinks_refl st : shrinks st st.
Proof. intros j l Hj Hv. by exists l. Qed.

Lemma shrinks_trans st1 st2 st3 : shrinks st1 st2 -> shrinks st2 st3 -> shrinks st1 st3.
Proof.
intros H12 H23 j l3 Hj Hv. destruct (H23 j l3 Hj Hv) as (l2 & Hj2 & Hv2 & <-).
by apply H12.
Qed.

Lemma shrinks_uncached st st' q : shrinks st st' -> uncached st q -> uncached st' q.
Proof. intros Hs Hu j l' Hj Hv. destruct (Hs j l' Hj Hv) as (l & Hl & Hvl & <-). eauto. Qed.

Lemma shrinks_line st i l l' s h d b : cache_lines st !! i = Some l ->
(valid l' = true -> valid l = true /\ lba l = lba l') ->
shrinks st {| cache_lines := <[i := l']> (cache_lines st); clock_hand := h;
              cache_initialized := b; cache_stats := s; cache_disk := d |}.
Proof.
intros Hl Hv j lj Hj Hvj. simpl in Hj.
apply list_lookup_insert_Some in Hj as [(<- & <- & _)|[_ Hj]]; [|by exists lj].
exists l. destruct (Hv Hvj). done.
Qed.

Lemma evict_line_shrinks st v i : coh st v -> (i < CACHE_LINES)%nat -> shrinks st (evict_line i st).
Proof.
intros Hc Hi. pose proof (line_lookup st v i Hc Hi) as Hl.
destruct (flush_line_ok st v i Hc Hi) as (Hc' & _ & _ & _ & l & Hl1 & _).
apply (shrinks_trans _ (flush_line i st)).
- unfold flush_line. destruct (CACHE_LINES <=? i)%nat; [apply shrinks_refl|].
  destruct (valid _ && dirty _) eqn:E; [|apply shrinks_refl]. bsimpl.
  unfold bump, with_line, with_disk, with_stats. simpl.
  by apply (shrinks_line st _ (cache_lines st !!! i)).
- unfold evict_line, bump, with_line, with_stats. simpl. apply (shrinks_line _ _ l); done.
Qed.

(** ** The clock

  After [n] turns without a victim the hand has passed [n] lines and cleared
  their reference bits; so the turn number 32 finds a victim. *)
Definition clock_inv (st0 : CacheState D) v (n : nat) (st : CacheState D) : Prop :=
coh st v /\ shrinks st0 st /\ cache_initialized st = cache_initialized st0 /\
(n <= CACHE_LINES)%nat /\
clock_hand st = Nat.modulo (clock_hand st0 + n) CACHE_LINES /\
forall k, (k < n)%nat -> ref (cache_lines st !!! Nat.modulo (clock_hand st0 + k) CACHE_LINES) = false.

Lemma hand_lt n : (Nat.modulo n CACHE_LINES < CACHE_LINES)%nat.
Proof. apply Nat.mod_upper_bound. done. Qed.

Lemma pick_step_next st0 v n st st' : clock_inv st0 v n st -> pick_step n st = (st', None) ->
clock_inv st0 v (S n) st'.
Proof.
intros (Hc & Hsh & Hini & Hn & Hh & Hr). unfold pick_step.
pose proof (co_hand _ _ Hc) as Hhl. pose proof (line_lookup st v _ Hc Hhl) as Hl.
cbn [with_hand cache_lines]. set (l := cache_lines st !!! clock_hand st) in *.
destruct (valid l) eqn:Hv; simpl; [|done]. destruct (ref l) eqn:Href; [|done].
intros [= <-].
assert (Hlt : (n < CACHE_LINES)%nat).
{ destruct (decide (n = CACHE_LINES)) as [->|]; [|lia].
  specialize (Hr 0%nat ltac:(unfold CACHE_LINES; lia)).
  rewrite Nat.add_0_r in Hr. rewrite Nat.Div0.add_mod, Nat.Div0.mod_same, Nat.add_0_r in Hh.
  rewrite Nat.Div0.mod_mod in Hh. unfold l in Href. rewrite Hh in Href. congruence. }
split_and!.
- pose proof (coh_flags _ v (clock_hand st) l false Hc Hl) as Hc'. rewrite Hv in Hc'.
  apply (coh_hand _ v (next_hand (clock_hand st))) in Hc'; [done|apply hand_lt].
- apply (shrinks_trans _ st); [done|]. unfold with_line, with_hand. simpl. by apply (shrinks_line _ _ l).
- done.
- done.
- cbn [with_line with_hand clock_hand]. unfold next_hand. rewrite Hh, Nat.Div0.add_mod_idemp_l. f_equal. lia.
- intros k Hk. cbn [with_line with_hand cache_lines].
  set (p := Nat.modulo (clock_hand st0 + k) CACHE_LINES) in *.
  destruct (decide (clock_hand st = p)) as [->|Hne].
  + rewrite list_lookup_total_insert_eq; [done|]. rewrite (co_len _ _ Hc). apply hand_lt.
  + rewrite list_lookup_total_insert_ne by done. apply Hr.
    destruct (decide (k = n)) as [->|]; [|lia]. by rewrite Hh in Hne.
Qed.

(** The scan always stops at a line: the code after the loop of
  [pick_victim_line] is never reached. *)
Lemma pick_scan_stops st v : coh st v ->
exists j t st' idx, for_until pick_step 0 (CACHE_LINES * 2) st = (st', Some idx) /\
  clock_inv st v j t /\ pick_step j t = (st', Some idx).
Proof.
intros Hc.
pose proof (for_until_inv pick_step (clock_inv st v) (CACHE_LINES * 2) 0 st) as H.
destruct (for_until _ _ _ _) as [st' [idx|]].
- destruct H as (j & t & _ & Hi & Hp).
  + split_and!; try done; [apply shrinks_refl|lia| |lia].
    rewrite Nat.add_0_r, Nat.mod_small; [done|apply Hc].
  + intros. by eapply pick_step_next.
  + by exists j, t, st', idx.
- exfalso. destruct H as (_ & _ & _ & Hn & _); [..|unfold CACHE_LINES in Hn; lia].
  + split_and!; try done; [apply shrinks_refl|lia| |lia].
    rewrite Nat.add_0_r, Nat.mod_small; [done|apply Hc].
  + intros. by eapply pick_step_next.
Qed.

Lemma pick_victim_line_ok st v : coh st v ->
exists st' idx l, pick_victim_line st = (st', idx) /\ coh st' v /\ shrinks st st' /\
  cache_initialized st' = cache_initialized st /\ (idx < CACHE_LINES)%nat /\
  cache_lines st' !! idx = Some l /\ valid l = false.
Proof.
intros Hc. destruct (pick_scan_stops st v Hc) as (j & t & st' & idx & Hf & HI & Hp).
destruct HI as (Ht & Hsh & Hini & _). unfold pick_victim_line. rewrite Hf.
pose proof (co_hand _ _ Ht) as Hhl. unfold pick_step in Hp. cbn [with_hand cache_lines] in Hp.
set (st1 := with_hand (next_hand (clock_hand t)) t) in *.
assert (Hc1 : coh st1 v) by (apply coh_hand; [apply hand_lt|done]).
pose proof (line_lookup st1 v (clock_hand t) Hc1 Hhl) as Hl.
change (cache_lines t) with (cache_lines st1) in Hp.
set (l := cache_lines st1 !!! clock_hand t) in *.
destruct (valid l) eqn:Hv; simpl in Hp.
- destruct (ref l); [done|]. injection Hp as <- <-.
  destruct (evict_line_ok st1 v (clock_hand t) Hc1 Hhl) as (Hc2 & Hv2 & Hi2).
  eexists _, _, _. split_and!; [done|done| |by rewrite Hi2|done|by eapply line_lookup|done].
  apply (shrinks_trans _ t); [done|]. by apply (evict_line_shrinks st1 v).
- injection Hp as <- <-. by exists st1, (clock_hand t), l.
Qed.
(** ** The operations *)

Lemma page_cache_init_ok st v : coh st v ->
coh (page_cache_init st) v /\ cache_initialized (page_cache_init st) = true.
Proof.
intros Hc. unfold page_cache_init. destruct (cache_initialized st) eqn:Ei; [done|].
split; [|done]. pose proof (co_init _ _ Hc Ei) as Hinv.
set (f := fun l => {| valid := false; dirty := false; ref := false; lba := 0; data := data l |}).
assert (Hlk : forall i l, map f (cache_lines st) !! i = Some l ->
  valid l = false /\ exists l', cache_lines st !! i = Some l' /\ data l = data l').
{ intros i l Hl. rewrite list_lookup_fmap in Hl.
  destruct (cache_lines st !! i) as [l'|]; [|done]. injection Hl as <-. split; [done|]. by exists l'. }
destruct Hc as [Hlen Hh Hd Hs Hu Hhit Hm Hcl _]. constructor; simpl; try done.
- by rewrite length_map.
- unfold CACHE_LINES. lia.
- intros i l (_ & l' & Hl' & ->)%Hlk. eauto.
- intros i j li lj (Hv & _)%Hlk _ ?. congruence.
- intros i l (Hv & _)%Hlk ?. congruence.
- intros q _. apply Hm. intros i l Hl Hv. by rewrite (Hinv i l Hl) in Hv.
- intros i l (Hv & _)%Hlk ?. congruence.
Qed.

Definition view_upd v (q : Z) (b : list Z) : Z -> list Z := fun q' => if q =? q' then b else v q'.

Lemma page_cache_read_ok st v q buf : coh st v -> is_sector buf ->
exists st' rc buf', page_cache_read_sector q (Some buf) st = (st', rc, Some buf') /\
  coh st' v /\ is_sector buf' /\
  ((rc = DISK_IO_OK /\ buf' = v q) \/ (rc = DISK_IO_ERR_NO_DEVICE /\ buf' = buf)).
Proof.
intros Hc0 Hb. destruct (page_cache_init_ok st v Hc0) as [Hc Hi].
unfold page_cache_read_sector. set (st0 := page_cache_init st) in *.
destruct (find_line q st0) as [i|] eqn:Ef.
- apply find_line_Some in Ef as (l & Hl & Hv & Hq).
  rewrite (list_lookup_total_correct _ _ _ Hl).
  pose proof (co_sector _ _ Hc i l Hl). rewrite copy_sector_ok by done.
  eexists _, _, _. split; [done|]. split_and!; [|done|].
  + apply coh_stats. by apply coh_flags.
  + left. split; [done|]. rewrite <- Hq. symmetry. by apply (co_hit _ _ Hc i).
- apply find_line_None in Ef as Hun.
  destruct (pick_victim_line_ok (bump SReadMisses st0) v) as
    (st1 & i & l & -> & Hc1 & Hsh & Hi1 & Hil & Hl & Hv); [by apply coh_stats|].
  rewrite (list_lookup_total_correct _ _ _ Hl).
  assert (Hun1 : uncached st1 q) by by eapply shrinks_uncached.
  destruct (dev_read q (data l) (cache_disk st1)) as [[d rc] dat] eqn:Er.
  apply dev_read_ok in Er as (Hd & Hdat & Hcont & Hok);
    [|apply Hc1|by apply (co_sector _ _ Hc1 i)].
  assert (Hoth : forall q', (forall j lj, j <> i -> cache_lines st1 !! j = Some lj ->
    valid lj = true -> lba lj <> q') -> v q' = dev_content d q').
  { intros q' Hq'. rewrite Hcont. apply (co_miss _ _ Hc1). intros j lj Hj Hvj.
    destruct (decide (j = i)) as [->|]; [|by apply (Hq' j)].
    rewrite Hl in Hj. injection Hj as <-. congruence. }
  destruct (Z.eqb_spec rc DISK_IO_OK) as [->|Hrc]; simpl.
  + rewrite copy_sector_ok by done. specialize (Hok eq_refl). subst dat.
    assert (Hvq : v q = dev_content (cache_disk st1) q) by (by apply (co_miss _ _ Hc1)).
    eexists _, _, _. split; [done|]. split_and!; [|done|left; by rewrite Hvq].
    apply (coh_update st1 v v i l _ d); simpl; try done.
    * intros j lj Hne Hj Hvj. split_and!; [|done|by rewrite Hcont]. intros _. by apply (Hun1 j).
    * eauto.
    * rewrite Hi1. simpl. congruence.
  + eexists _, _, _. split; [done|]. split_and!; [|done|by right].
    apply (coh_update st1 v v i l _ d); simpl; try done. eauto.
Qed.

Lemma page_cache_write_ok st v q buf : coh st v -> is_sector buf ->
exists st', page_cache_write_sector q (Some buf) st = (st', DISK_IO_OK) /\
  coh st' (view_upd v q buf).
Proof.
intros Hc0 Hb. destruct (page_cache_init_ok st v Hc0) as [Hc Hi].
unfold page_cache_write_sector. set (st0 := page_cache_init st) in *.
destruct (find_line q st0) as [i|] eqn:Ef.
- apply find_line_Some in Ef as (l & Hl & Hv & Hq). simpl.
  rewrite (list_lookup_total_correct _ _ _ Hl).
  rewrite copy_sector_ok by (done || by apply (co_sector _ _ Hc i l Hl)).
  eexists. split; [done|]. apply coh_stats.
  apply (coh_update (bump SWriteHits st0) v _ i l _ (cache_disk st0)); simpl; try done.
  + by apply coh_stats.
  + apply Hc.
  + intros _. unfold view_upd. rewrite Hq, Z.eqb_refl. done.
  + intros j lj Hne Hj Hvj.
    assert (lba lj <> lba l) by (intros He; apply Hne; by apply (co_uniq _ _ Hc j i lj l)).
    split_and!; [done| |done]. unfold view_upd. rewrite <- Hq. case_if; bsimpl; congruence.
  + intros q' Hq' Hql. specialize (Hql Hv). unfold view_upd. rewrite <- Hq.
    case_if; bsimpl; [done|]. apply (co_miss _ _ Hc). intros j lj Hj Hvj.
    destruct (decide (j = i)) as [->|]; [|by apply (Hq' j)].
    rewrite Hl in Hj. injection Hj as <-. done.
  + congruence.
- apply find_line_None in Ef as Hun.
  destruct (pick_victim_line_ok (bump SWriteMisses st0) v) as
    (st1 & i & l & -> & Hc1 & Hsh & Hi1 & Hil & Hl & Hv); [by apply coh_stats|].
  rewrite (list_lookup_total_correct _ _ _ Hl).
  assert (Hun1 : uncached st1 q) by by eapply shrinks_uncached.
  assert (Hlen : (i < length (cache_lines st1))%nat) by by eapply lookup_lt_Some.
  cbn [with_line cache_lines]. rewrite list_lookup_total_insert_eq by done. simpl.
  rewrite copy_sector_ok by (done || by apply (co_sector _ _ Hc1 i l Hl)).
  eexists. split; [done|]. apply coh_stats. unfold with_line. simpl.
  rewrite list_insert_insert_eq.
  apply (coh_update st1 v _ i l _ (cache_disk st1)); simpl; try done.
  + apply Hc1.
  + intros _. unfold view_upd. by rewrite Z.eqb_refl.
  + intros j lj Hne Hj Hvj. pose proof (Hun1 j lj Hj Hvj). split_and!; [done| |done].
    unfold view_upd. case_if; bsimpl; congruence.
  + intros q' Hq' Hql. specialize (Hql eq_refl). unfold view_upd. case_if; bsimpl; [done|].
    apply (co_miss _ _ Hc1). intros j lj Hj Hvj.
    destruct (decide (j = i)) as [->|]; [|by apply (Hq' j)].
    rewrite Hl in Hj. injection Hj as <-. congruence.
  + rewrite Hi1. simpl. congruence.
Qed.

Lemma page_cache_flush_all_ok st v : coh st v ->
coh (page_cache_flush_all st) v /\
(forall i l, cache_lines (page_cache_flush_all st) !! i = Some l -> valid l && dirty l = false) /\
forall q, dev_content (cache_disk (page_cache_flush_all st)) q = v q.
Proof.
intros Hc0. destruct (page_cache_init_ok st v Hc0) as [Hc Hi].
assert (H : coh (page_cache_flush_all st) v /\
  forall i l, (i < 0 + CACHE_LINES)%nat -> cache_lines (page_cache_flush_all st) !! i = Some l ->
    valid l && dirty l = false).
{ unfold page_cache_flush_all.
  apply (for_each_inv flush_line (fun n t => coh t v /\ forall i l, (i < n)%nat ->
    cache_lines t !! i = Some l -> valid l && dirty l = false)).
  - split; [done|]. lia.
  - intros j t Hj [Ht Hcl].
    destruct (flush_line_ok t v j Ht) as (Hct & _ & _ & Hoth & l' & Hl' & Hvd & _); [lia|].
    split; [done|]. intros i l Hlt Hl. destruct (decide (i = j)) as [->|Hne]; [congruence|].
    rewrite Hoth in Hl by done. apply (Hcl i l); [lia|done]. }
destruct H as [Hf Hcl]. assert (Hcl' : forall i l, cache_lines (page_cache_flush_all st) !! i = Some l ->
  valid l && dirty l = false).
{ intros i l Hl. apply (Hcl i l); [|done]. rewrite <- (co_len _ _ Hf). by eapply lookup_lt_Some. }
split_and!; [done..|]. intros q. rewrite <- (coh_view _ v q Hf). unfold cache_view.
destruct (find_line q _) as [i|] eqn:Ef; [|done].
apply find_line_Some in Ef as (l & Hl & Hv & <-).
rewrite (list_lookup_total_correct _ _ _ Hl). symmetry. apply (co_clean _ _ Hf i l Hl Hv).
specialize (Hcl' i l Hl). by rewrite Hv in Hcl'.
Qed.
(** ** The cache against a plain disk *)

(** The calls of the clients of the cache, and what they observe. *)
Inductive cache_op := CRead (q : Z) (buf : list Z) | CWrite (q : Z) (buf : list Z) | CFlush.
Inductive cache_obs := ObsData (b : list Z) | ObsError (rc : Z) | ObsDone.

Definition op_ok (o : cache_op) : Prop :=
match o with CRead _ b => is_sector b | CWrite _ b => is_sector b | CFlush => True end.

Definition cache_exec (o : cache_op) (st : CacheState D) : CacheState D * cache_obs :=
match o with
| CRead q buf =>
    match page_cache_read_sector q (Some buf) st with
    | (st', rc, Some b) => (st', if rc =? DISK_IO_OK then ObsData b else ObsError rc)
    | (st', rc, None) => (st', ObsError rc)
    end
| CWrite q buf =>
    let '(st', rc) := page_cache_write_sector q (Some buf) st in
    (st', if rc =? DISK_IO_OK then ObsDone else ObsError rc)
| CFlush => (page_cache_flush_all st, ObsDone)
end.

Fixpoint cache_execs (ops : list cache_op) (st : CacheState D) : CacheState D * list cache_obs :=
match ops with
| [] => (st, [])
| o :: ops => let '(st1, r) := cache_exec o st in
              let '(st2, rs) := cache_execs ops st1 in (st2, r :: rs)
end.

(** A disk without a cache: a read returns the last sector written, unless the
  device fails to read it; a write always succeeds. *)
Inductive disk_run : (Z -> list Z) -> list cache_op -> list cache_obs -> (Z -> list Z) -> Prop :=
| disk_nil v : disk_run v [] [] v
| disk_read v q buf ops rs v' :
  disk_run v ops rs v' -> disk_run v (CRead q buf :: ops) (ObsData (v q) :: rs) v'
| disk_read_error v q buf ops rs v' :
  disk_run v ops rs v' ->
  disk_run v (CRead q buf :: ops) (ObsError DISK_IO_ERR_NO_DEVICE :: rs) v'
| disk_write v q buf ops rs v' :
  disk_run (view_upd v q buf) ops rs v' -> disk_run v (CWrite q buf :: ops) (ObsDone :: rs) v'
| disk_flush v ops rs v' :
  disk_run v ops rs v' -> disk_run v (CFlush :: ops) (ObsDone :: rs) v'.

Lemma cache_execs_ok ops st v : coh st v -> Forall op_ok ops ->
exists v', disk_run v ops (snd (cache_execs ops st)) v' /\ coh (fst (cache_execs ops st)) v'.
Proof.
revert st v. induction ops as [|o ops IH]; intros st v Hc Hok; simpl.
{ exists v. split; [constructor|done]. }
apply Forall_cons_1 in Hok as [Ho Hops].
destruct o as [q buf|q buf|]; simpl in *.
- destruct (page_cache_read_ok st v q buf Hc Ho) as
    (st1 & rc & b & -> & Hc1 & _ & [[-> ->]|[-> ->]]); simpl;
    destruct (IH st1 v Hc1 Hops) as (v' & Hr & Hc'); destruct (cache_execs ops st1);
    exists v'; (split; [by constructor|done]).
- destruct (page_cache_write_ok st v q buf Hc Ho) as (st1 & -> & Hc1). simpl.
  destruct (IH st1 _ Hc1 Hops) as (v' & Hr & Hc'). destruct (cache_execs ops st1).
  exists v'. split; [by constructor|done].
- destruct (page_cache_flush_all_ok st v Hc) as (Hc1 & _).
  destruct (IH _ _ Hc1 Hops) as (v' & Hr & Hc'). destruct (cache_execs ops _).
  exists v'. split; [by constructor|done].
Qed.

(** C16: on a device that does not lose writes, every sequence of reads, writes
  and flushes through the cache is one of a plain disk: a read that succeeds
  returns the sector last written, a read that fails changes nothing, and
  after a final flush the device holds exactly the sectors of the plain disk;
  evictions lose nothing. *)
Theorem page_cache_refines_disk (ops : list cache_op) (st : CacheState D) (v : Z -> list Z)
(Hc : coh st v) (Hok : Forall op_ok ops) :
exists v', disk_run v ops (snd (cache_execs ops st)) v' /\
  forall q, dev_content (cache_disk (page_cache_flush_all (fst (cache_execs ops st)))) q = v' q.
Proof.
destruct (cache_execs_ok ops st v Hc Hok) as (v' & Hr & Hc').
exists v'. split; [done|]. apply (page_cache_flush_all_ok _ _ Hc').
Qed.

(** The state of the file at boot, above any device. *)
Definition cache_boot (d : D) : CacheState D :=
{| cache_lines := replicate CACHE_LINES inhabitant; clock_hand := 0;
   cache_initialized := false;
   cache_stats := {| read_hits := 0; read_misses := 0; write_hits := 0; write_misses := 0;
                     evictions := 0; buffered_writes := 0; flush_writes := 0;
                     dirty_lines := 0 |};
   cache_disk := d |}.

Lemma cache_boot_coh d : dev_inv d -> coh (cache_boot d) (dev_content d).
Proof.
intros Hd. unfold cache_boot.
assert (Hlk : forall i l, replicate CACHE_LINES (inhabitant : CacheLine) !! i = Some l ->
  valid l = false /\ is_sector (data l)).
{ intros i l Hl. apply lookup_replicate_1 in Hl as [-> _]. split; [done|apply zero_sector_ok]. }
constructor; cbn [cache_lines clock_hand cache_disk cache_initialized]; try done.
- unfold CACHE_LINES. lia.
- intros i l (_ & ?)%Hlk. done.
- intros i j li lj (Hv & _)%Hlk _ ?. congruence.
- intros i l (Hv & _)%Hlk ?. congruence.
- intros i l (Hv & _)%Hlk ?. congruence.
- intros _ i l (? & _)%Hlk. done.
Qed.

(** ** Second chance

  The line the clock should take: the first one from the hand that is invalid
  or not referenced, and the line at the hand itself when all are valid and
  referenced. *)
Definition clock_pos (st : CacheState D) (k : nat) : nat :=
Nat.modulo (clock_hand st + k) CACHE_LINES.

Definition replaceable (st : CacheState D) (k : nat) : bool :=
  negb (valid (cache_lines st !!! clock_pos st k) && ref (cache_lines st !!! clock_pos st k)).

Definition second_chance (st : CacheState D) : nat :=
match find_idx (replaceable st) (seq 0 CACHE_LINES) with
| Some k => clock_pos st k
| None => clock_hand st
end.

(** After [n] turns the first [n] lines from the hand were all valid and
  referenced; their reference bits are cleared, the other lines untouched. *)
Record sweep (st0 : CacheState D) (n : nat) (st : CacheState D) : Prop := {
sw_n : (n <= CACHE_LINES)%nat;
sw_hand : clock_hand st = clock_pos st0 n;
sw_busy : forall k, (k < n)%nat -> let l := cache_lines st0 !!! clock_pos st0 k in
            valid l && ref l = true;
sw_seen : forall k, (k < n)%nat -> ref (cache_lines st !!! clock_pos st0 k) = false;
sw_rest : forall k, (n <= k < CACHE_LINES)%nat ->
            cache_lines st !!! clock_pos st0 k = cache_lines st0 !!! clock_pos st0 k;
sw_valid : forall i, valid (cache_lines st !!! i) = valid (cache_lines st0 !!! i);
sw_len : length (cache_lines st) = CACHE_LINES
}.

Lemma clock_pos_inj st j k : (j < CACHE_LINES)%nat -> (k < CACHE_LINES)%nat ->
clock_pos st j = clock_pos st k -> j = k.
Proof.
unfold clock_pos, CACHE_LINES. intros Hj Hk He.
pose proof (Nat.div_mod_eq (clock_hand st + j) 32).
pose proof (Nat.div_mod_eq (clock_hand st + k) 32). lia.
Qed.

Lemma clock_pos_next st n : next_hand (clock_pos st n) = clock_pos st (S n).
Proof. unfold next_hand, clock_pos. rewrite Nat.Div0.add_mod_idemp_l. f_equal. lia. Qed.

Lemma sweep_step st0 v n st : coh st0 v -> sweep st0 n st ->
let l := cache_lines st !!! clock_hand st in
(valid l && ref l = true ->
   sweep st0 (S n) (with_line (clock_hand st) (set_flags (valid l) (dirty l) false l)
                      (with_hand (next_hand (clock_hand st)) st))) /\
(valid l && ref l = false -> clock_hand st = second_chance st0).
Proof.
intros Hc0 [Hn Hh Hb Hs Hr Hv Hl]. cbn zeta. split.
- intros Hvr. assert (Hlt : (n < CACHE_LINES)%nat).
  { destruct (decide (n = CACHE_LINES)) as [->|]; [|lia]. exfalso.
    rewrite Hh in Hvr. assert (He : clock_pos st0 CACHE_LINES = clock_pos st0 0).
    { unfold clock_pos, CACHE_LINES. rewrite Nat.Div0.add_mod, Nat.Div0.mod_same, !Nat.add_0_r.
      apply Nat.Div0.mod_mod. }
    rewrite He, (Hs 0%nat), andb_false_r in Hvr by (unfold CACHE_LINES; lia). done. }
  assert (Hil : (clock_hand st < length (cache_lines st))%nat)
    by (rewrite Hl, Hh; apply hand_lt).
  constructor; cbn [with_line with_hand cache_lines clock_hand].
  + done.
  + rewrite Hh. apply clock_pos_next.
  + intros k Hk. destruct (decide (k = n)) as [->|]; [|apply Hb; lia].
    cbn zeta. by rewrite <- Hr, <- Hh by lia.
  + intros k Hk. destruct (decide (k = n)) as [->|].
    * rewrite <- Hh. by rewrite list_lookup_total_insert_eq.
    * rewrite list_lookup_total_insert_ne; [apply Hs; lia|]. rewrite Hh.
      intros He%clock_pos_inj; lia.
  + intros k Hk. rewrite list_lookup_total_insert_ne; [apply Hr; lia|]. rewrite Hh.
    intros He%clock_pos_inj; lia.
  + intros i. destruct (decide (i = clock_hand st)) as [->|].
    * rewrite list_lookup_total_insert_eq by done. apply Hv.
    * by rewrite list_lookup_total_insert_ne.
  + by rewrite length_insert.
- intros Hvr. unfold second_chance.
  destruct (decide (n = CACHE_LINES)) as [->|Hne].
  + assert (find_idx (replaceable st0) (seq 0 CACHE_LINES) = None) as ->.
    { apply find_idx_None. intros j y Hj. apply lookup_seq in Hj as [-> Hj].
      apply negb_false_iff, Hb. simpl. lia. }
    rewrite Hh. unfold clock_pos, CACHE_LINES.
    rewrite Nat.Div0.add_mod, Nat.Div0.mod_same, Nat.add_0_r, Nat.Div0.mod_mod.
    apply Nat.mod_small, (co_hand _ _ Hc0).
  + assert (find_idx (replaceable st0) (seq 0 CACHE_LINES) = Some n) as ->; [|done].
    apply find_idx_Some. split.
    * exists n. split; [apply lookup_seq; lia|]. unfold replaceable.
      rewrite <- Hr, <- Hh by lia. by apply negb_true_iff.
    * intros j y Hj Hy. apply lookup_seq in Hy as [-> _]. apply negb_false_iff, Hb. simpl. lia.
Qed.

(** the clock gives every referenced line a second chance: the victim is
  the first line from the hand that is invalid or unreferenced, and the line
  under the hand when every line is valid and referenced; the fallback after
  the loop of [pick_victim_line] is never taken. *)
Theorem pick_victim_line_second_chance (st : CacheState D) (v : Z -> list Z) (Hc : coh st v) :
snd (pick_victim_line st) = second_chance st.
Proof.
unfold pick_victim_line.
assert (Hstep : forall j t t', sweep st j t -> pick_step j t = (t', None) -> sweep st (S j) t').
{ intros j t t' Ht. destruct (sweep_step st v j t Hc Ht) as [Hnext _]. unfold pick_step.
  cbn [with_hand cache_lines]. cbn zeta in Hnext.
  destruct (valid _); [|done]. destruct (ref _); [|done]. intros [= <-]. by apply Hnext. }
assert (H0 : sweep st 0 st).
{ constructor; try lia; try done.
  - unfold clock_pos. rewrite Nat.add_0_r, Nat.mod_small; [done|apply Hc].
  - apply (co_len _ _ Hc). }
pose proof (for_until_inv pick_step (sweep st) (CACHE_LINES * 2) 0 st H0) as H.
destruct (for_until _ _ _ _) as [st' [idx|]].
- destruct H as (j & t & _ & Ht & Hp); [intros; by eapply Hstep|].
  destruct (sweep_step st v j t Hc Ht) as [_ Hstop]. cbn zeta in Hstop. simpl.
  unfold pick_step in Hp. cbn [with_hand cache_lines] in Hp.
  destruct (valid _); [destruct (ref _)|]; simpl in *; simplify_eq; by apply Hstop.
- destruct H as [Hn _ _ _ _ _ _]; [intros; by eapply Hstep|]. unfold CACHE_LINES in Hn. lia.
Qed.

(** ** The cached disk as a device (kernel/disk.c, [disk_read_sector] and
  [disk_write_sector]) *)

#[export] Instance cached_BlockDev : BlockDev (CacheState D) := {
dev_read q buf st :=
  match page_cache_read_sector q (Some buf) st with
  | (st', rc, Some b) => (st', rc, b)
  | (st', rc, None) => (st', rc, buf)
  end;
dev_write q buf st := fst (page_cache_write_sector q (Some buf) st)
}.

#[export] Program Instance cached_ReliableDev : ReliableDev (CacheState D) := {
dev_inv st := coh st (cache_view st);
dev_content := cache_view
}.
Next Obligation.
intros st q Hc. simpl in *. unfold cache_view. destruct (find_line q st) as [i|] eqn:Ef.
- apply find_line_Some in Ef as (l & Hl & _). rewrite (list_lookup_total_correct _ _ _ Hl).
  by apply (co_sector _ _ Hc i).
- apply dev_content_sector, Hc.
Qed.
Next Obligation.
intros st q buf st' rc buf' Hc Hb. simpl.
destruct (page_cache_read_ok st (cache_view st) q buf Hc Hb)
  as (st1 & rc1 & b1 & -> & Hc1 & Hs & Hrc). intros [= <- <- <-].
assert (Hv : forall q', cache_view st1 q' = cache_view st q') by (intros; by apply coh_view).
split_and!; [|done|done|].
- eapply coh_ext; [|exact Hc1]. done.
- intros ->. destruct Hrc as [[_ ->]|[Hrc _]]; done.
Qed.
Next Obligation.
intros st q buf Hc Hb. simpl.
destruct (page_cache_write_ok st (cache_view st) q buf Hc Hb) as (st1 & -> & Hc1). simpl.
assert (Hv : forall q', cache_view st1 q' = view_upd (cache_view st) q buf q')
  by (intros; by apply coh_view).
split; [|done]. eapply coh_ext; [|exact Hc1]. done.
Qed.
End coherence.

(** ** Witnesses: a cache over a disk with one unreadable sector *)

Definition demo_disk : MemDisk := {| md_data := {[7 := replicate 256 11]}; md_bad := {[9]} |}.

Lemma demo_disk_ok : dev_inv demo_disk.
Proof. apply map_Forall_singleton. by vm_compute. Qed.

Definition demo_ops : list cache_op :=
  [CRead 7 zero_sector; CWrite 8 (replicate 256 5); CRead 9 zero_sector; CRead 8 zero_sector].

Lemma demo_ops_ok : Forall op_ok demo_ops.
Proof. repeat constructor; by vm_compute. Qed.

Lemma page_cache_refines_disk_witness :
  coh (cache_boot demo_disk) (dev_content demo_disk) /\ Forall op_ok demo_ops /\
  exists v', disk_run (dev_content demo_disk) demo_ops
               (snd (cache_execs demo_ops (cache_boot demo_disk))) v'.
Proof.
  split; [exact (cache_boot_coh demo_disk demo_disk_ok)|]. split; [exact demo_ops_ok|].
  destruct (page_cache_refines_disk demo_ops (cache_boot demo_disk) (dev_content demo_disk)
    (cache_boot_coh demo_disk demo_disk_ok) demo_ops_ok) as (v' & Hv & _).
  exists v'. exact Hv.
Defined.

Lemma pick_victim_line_second_chance_witness :
  coh (cache_boot demo_disk) (dev_content demo_disk) /\
  snd (pick_victim_line (cache_boot demo_disk)) = 0%nat.
Proof.
  split; [exact (cache_boot_coh demo_disk demo_disk_ok)|].
  rewrite (pick_victim_line_second_chance (cache_boot demo_disk) (dev_content demo_disk)
    (cache_boot_coh demo_disk demo_disk_ok)). vm_compute. reflexivity.
Defined.
