(* ===== verification/Task.v ===== *)
(** * Task control blocks (kernel/task.h, kernel/task.c)

    The task table, the trace log each task keeps, and the creation of a kernel
    task with its stack. *)
From S2P Require Import Prelude Pmm.

Definition MAX_TASKS : Z := 8.
Definition TASK_MAX_FDS : nat := 256.
Definition TASK_SIGNAL_MAX : nat := 32.
Definition SCHED_TIME_SLICE_TICKS : Z := 5.

Definition TASK_STATE_READY : Z := 0.
Definition TASK_STATE_RUNNING : Z := 1.
Definition TASK_STATE_BLOCKED : Z := 2.
Definition TASK_STATE_SLEEPING : Z := 3.
Definition TASK_STATE_TERMINATED : Z := 4.

Definition TASK_WAIT_NONE : Z := 0.
Definition TASK_WAIT_CHILD : Z := 1.

Definition WORKLOAD_CLASS_SIM : Z := 0.
Definition WORKLOAD_CLASS_LOG : Z := 1.
Definition WORKLOAD_CLASS_EXPORT : Z := 2.

Definition TASK_TRACE_EVT_SWITCH_IN : Z := 1.
Definition TASK_TRACE_EVT_SWITCH_OUT : Z := 2.
Definition TASK_TRACE_EVT_SYSCALL : Z := 3.
Definition TASK_TRACE_EVT_SLEEP : Z := 4.
Definition TASK_TRACE_EVT_WAKE : Z := 5.
Definition TASK_TRACE_EVT_TERMINATE : Z := 6.

Record TCB := {
  esp : Z;
  ebp : Z;
  eip : Z;
  page_dir : Z;
  state : Z;
  wake_tick : Z;
  time_slice : Z;
  runtime_ticks : Z;
  context_switches : Z;
  priority : Z;
  workload_class : Z;
  trace_enabled : Z;
  trace_last_event : Z;
  trace_last_arg : Z;
  trace_last_syscall : Z;
  trace_last_arg0 : Z;
  trace_last_arg1 : Z;
  trace_last_arg2 : Z;
  trace_last_result : Z;
  trace_event_count : Z;
  fault_code : Z;
  fault_addr : Z;
  fault_eip : Z;
  user_entry : Z;
  user_stack : Z;
  user_retval : Z;
  signal_pending : Z;
  signal_mask : Z;
  signal_handler : list Z;
  parent_pid : Z;
  exit_status : Z;
  exited : Z;
  waited : Z;
  wait_target : Z;
  fd_table : list Z;
  wait_reason : Z;
  task_id : Z;
  sched_wait_ticks : Z;
  sched_wake_boost : Z;
  sched_last_run_tick : Z
}.

#[export] Instance TCB_fields : Fields TCB := fun t =>
  Build_TCB (esp t) (ebp t) (eip t) (page_dir t) (state t) (wake_tick t) (time_slice t)
    (runtime_ticks t) (context_switches t) (priority t) (workload_class t)
    (trace_enabled t) (trace_last_event t) (trace_last_arg t) (trace_last_syscall t)
    (trace_last_arg0 t) (trace_last_arg1 t) (trace_last_arg2 t) (trace_last_result t)
    (trace_event_count t) (fault_code t) (fault_addr t) (fault_eip t) (user_entry t)
    (user_stack t) (user_retval t) (signal_pending t) (signal_mask t) (signal_handler t)
    (parent_pid t) (exit_status t) (exited t) (waited t) (wait_target t) (fd_table t)
    (wait_reason t) (task_id t) (sched_wait_ticks t) (sched_wake_boost t)
    (sched_last_run_tick t).

(** Static storage is zeroed: the state of a block the initialiser of [os_tasks]
    does not name reads [TASK_STATE_READY]. *)
Definition tcb_zero : TCB :=
  {| esp := 0; ebp := 0; eip := 0; page_dir := 0; state := 0; wake_tick := 0; time_slice := 0;
     runtime_ticks := 0; context_switches := 0; priority := 0; workload_class := 0;
     trace_enabled := 0; trace_last_event := 0; trace_last_arg := 0; trace_last_syscall := 0;
     trace_last_arg0 := 0; trace_last_arg1 := 0; trace_last_arg2 := 0; trace_last_result := 0;
     trace_event_count := 0; fault_code := 0; fault_addr := 0; fault_eip := 0;
     user_entry := 0; user_stack := 0; user_retval := 0; signal_pending := 0;
     signal_mask := 0; signal_handler := replicate TASK_SIGNAL_MAX 0; parent_pid := 0;
     exit_status := 0; exited := 0; waited := 0; wait_target := 0;
     fd_table := replicate TASK_MAX_FDS 0; wait_reason := 0; task_id := 0;
     sched_wait_ticks := 0; sched_wake_boost := 0; sched_last_run_tick := 0 |}.

#[export] Instance TCB_inhabited : Inhabited TCB := populate tcb_zero.

(** One entry of the initialiser of [os_tasks].  Its values are positional: they
    were laid out for an earlier [TCB], so after [fault_eip] the braced zero is
    [user_entry], the first -1 is [user_stack], and the values from the second
    -1 on fill the first cells of [signal_handler]; what the initialiser does not
    reach, [parent_pid] and [fd_table] included, is zero. *)
Definition tcb_init (st wl id : Z) : TCB :=
  tcb_zero <| state := st |> <| time_slice := SCHED_TIME_SLICE_TICKS |> <| priority := 1 |>
    <| workload_class := wl |> <| user_stack := u32 (-1) |>
    <| signal_handler := u32 (-1) :: 0 :: TASK_WAIT_NONE :: id :: replicate (TASK_SIGNAL_MAX - 4) 0 |>.

(** [os_tasks] as the program starts. *)
Definition os_tasks_init : list TCB :=
  [tcb_init TASK_STATE_RUNNING WORKLOAD_CLASS_SIM 0;
   tcb_init TASK_STATE_TERMINATED WORKLOAD_CLASS_LOG 1;
   tcb_init TASK_STATE_TERMINATED WORKLOAD_CLASS_EXPORT 2;
   tcb_zero; tcb_zero; tcb_zero; tcb_zero; tcb_zero].

Definition task_is_valid (task_id : Z) : bool := (0 <=? task_id) && (task_id <? MAX_TASKS).

(** The search starts at slot 1. *)
Definition task_alloc_slot (os_tasks : list TCB) : Z :=
  match find_idx (fun t => state t =? TASK_STATE_TERMINATED) (tail os_tasks) with
  | Some i => Z.of_nat (S i)
  | None => -1
  end.

(** [os_tasks[i].f = v] for an index the caller has checked. *)
Definition upd_task (i : Z) (f : TCB -> TCB) (ts : list TCB) : list TCB := alter f (Z.to_nat i) ts.

Definition traced (event arg : Z) (t : TCB) : TCB :=
  t <| trace_last_event := event |> <| trace_last_arg := arg |>
    <| trace_event_count ::= fun n => n +u 1 |>.

Definition task_trace_event (task_id event arg : Z) (ts : list TCB) : list TCB :=
  if negb (task_is_valid task_id) then ts
  else if trace_enabled ts.[task_id] =? 0 then ts
  else upd_task task_id (traced event arg) ts.

Definition task_trace_syscall_ex (task_id syscall_num result arg0 arg1 arg2 : Z) (ts : list TCB)
  : list TCB :=
  let packed := Z.lor (u32 (Z.shiftl (Z.land syscall_num 0xFF) 24)) (Z.land result 0x00FFFFFF) in
  if negb (task_is_valid task_id) then ts
  else if trace_enabled ts.[task_id] =? 0 then ts
  else upd_task task_id (fun t => t <| trace_last_event := TASK_TRACE_EVT_SYSCALL |>
    <| trace_last_arg := packed |> <| trace_last_syscall := syscall_num |>
    <| trace_last_arg0 := arg0 |> <| trace_last_arg1 := arg1 |> <| trace_last_arg2 := arg2 |>
    <| trace_last_result := result |> <| trace_event_count ::= fun n => n +u 1 |>) ts.

Definition task_trace_syscall (task_id syscall_num result : Z) (ts : list TCB) : list TCB :=
  task_trace_syscall_ex task_id syscall_num result 0 0 0 ts.

(** ** Creating a kernel task *)

(** The block [create_task] leaves in the table. *)
Definition tcb_created (index func page_dir0 stack : Z) : TCB :=
  {| esp := stack; ebp := 0; eip := func; page_dir := page_dir0; state := TASK_STATE_READY;
     wake_tick := 0; time_slice := SCHED_TIME_SLICE_TICKS; runtime_ticks := 0;
     context_switches := 0; priority := 1;
     workload_class := if index =? 1 then WORKLOAD_CLASS_LOG
                       else if index =? 2 then WORKLOAD_CLASS_EXPORT else WORKLOAD_CLASS_SIM;
     trace_enabled := 0; trace_last_event := 0; trace_last_arg := 0; trace_last_syscall := 0;
     trace_last_arg0 := 0; trace_last_arg1 := 0; trace_last_arg2 := 0; trace_last_result := 0;
     trace_event_count := 0; fault_code := 0; fault_addr := 0; fault_eip := 0;
     user_entry := 0; user_stack := 0; user_retval := 0; signal_pending := 0;
     signal_mask := 0; signal_handler := replicate TASK_SIGNAL_MAX 0; parent_pid := -1;
     exit_status := 0; exited := 0; waited := 0; wait_target := -1;
     fd_table := replicate TASK_MAX_FDS (-1); wait_reason := 0; task_id := index;
     sched_wait_ticks := 0; sched_wake_boost := 0; sched_last_run_tick := 0 |}.

(** The words [switch_task] pops: the entry point below four zeros for the saved
    registers.  The second component is the stack pointer after the pushes. *)
Definition push_frame (top func : Z) (mem : gmap Z Z) : gmap Z Z * Z :=
  let push v '(m, sp) := (<[sp -u 4 := v]> m, sp -u 4) in
  push 0 (push 0 (push 0 (push 0 (push func (mem, top))))).

Record TaskState := { os_tasks : list TCB; os_current_task : Z; os_task_count : Z }.

#[export] Instance TaskState_fields : Fields TaskState := fun s =>
  Build_TaskState (os_tasks s) (os_current_task s) (os_task_count s).

(** The task state as the program starts. *)
Definition task_state_init : TaskState :=
  {| os_tasks := os_tasks_init; os_current_task := 0; os_task_count := 1 |}.

(** The stack is four page frames the code takes to be consecutive. *)
Definition create_task (index func page_dir0 : Z) (s : TaskState) (pmm : PmmState) (mem : gmap Z Z)
  : option (TaskState * PmmState * gmap Z Z) :=
  if (index <=? 0) || (MAX_TASKS <=? index) || (func =? 0) then Some (s, pmm, mem)
  else
    '(p1, stack_phys) ← pmm_alloc_page pmm;
    if stack_phys =? 0 then Some (s, p1, mem)
    else
      '(p2, _) ← pmm_alloc_page p1;
      '(p3, _) ← pmm_alloc_page p2;
      '(p4, _) ← pmm_alloc_page p3;
      let '(m, stack) := push_frame (stack_phys +u 16384) func mem in
      let s1 := s <| os_tasks ::= upd_task index (fun _ => tcb_created index func page_dir0 stack) |> in
      let s2 := if os_task_count s1 <=? index then s1 <| os_task_count := index + 1 |> else s1 in
      Some (s2, p4, m).
