(* ===== verification/Ring.v ===== *)
(** * Ring buffers

    The kernel keeps several fixed arrays as circular queues (IPC channels, wait
    queues, pipes): a head index, a tail index and a count.  [ring_list] is the
    queue such an array holds, and the lemmas relate the stores the code does to
    queue operations. *)
From S2P Require Import Prelude.

Section Ring.
Context {A : Type} `{Inhabited A}.
Implicit Types l : list A.

Definition ring_list l (head count : Z) : list A :=
  map (fun k => l.[(head + Z.of_nat k) mod Z.of_nat (length l)]) (seq 0 (Z.to_nat count)).

Lemma ring_list_length l head count : length (ring_list l head count) = Z.to_nat count.
Proof. unfold ring_list. by rewrite length_map, length_seq. Qed.

Lemma ring_list_nil l head : ring_list l head 0 = [].
Proof. done. Qed.

Context (l : list A) (n : Z) (Hn : n = Z.of_nat (length l)).
Context (head count : Z) (Hhead : 0 <= head < n).

Lemma ring_pos k : (Z.to_nat ((head + k) mod n) < length l)%nat.
Proof. pose proof (Z.mod_pos_bound (head + k) n ltac:(lia)). lia. Qed.

Lemma ring_neq j k : 0 <= j < n -> 0 <= k < n -> j <> k ->
  Z.to_nat ((head + j) mod n) <> Z.to_nat ((head + k) mod n).
Proof.
  intros Hj Hk Hjk Heq.
  pose proof (Z.mod_pos_bound (head + j) n ltac:(lia)).
  pose proof (Z.mod_pos_bound (head + k) n ltac:(lia)).
  assert ((head + j) mod n = (head + k) mod n) as He by lia.
  pose proof (Z_div_mod_eq_full (head + j) n). pose proof (Z_div_mod_eq_full (head + k) n).
  assert (n * ((head + j) / n - (head + k) / n) = j - k) as Hd by lia.
  destruct (Z.eq_dec ((head + j) / n - (head + k) / n) 0); nia.
Qed.

(** Storing at the tail appends. *)
Lemma ring_push v : 0 <= count < n ->
  ring_list (<[Z.to_nat ((head + count) mod n) := v]> l) head (count + 1) =
  ring_list l head count ++ [v].
Proof.
  intros Hc. unfold ring_list. rewrite length_insert, <- Hn.
  replace (Z.to_nat (count + 1)) with (Z.to_nat count + 1)%nat by lia.
  rewrite seq_app, map_app. f_equal.
  - apply map_ext_in. intros k Hk. apply in_seq in Hk.
    rewrite list_lookup_total_insert_ne; [done|]. apply ring_neq; lia.
  - simpl. rewrite Z2Nat.id by lia. rewrite list_lookup_total_insert_eq; [done|].
    by apply ring_pos.
Qed.

(** The cell at the head is the first element; the rest starts after it. *)
Lemma ring_pop : 0 < count ->
  ring_list l head count = l.[head] :: ring_list l ((head + 1) mod n) (count - 1).
Proof.
  intros Hc. unfold ring_list. rewrite <- Hn.
  replace (Z.to_nat count) with (S (Z.to_nat (count - 1))) by lia. simpl.
  rewrite Z.add_0_r, Z.mod_small by lia. f_equal.
  rewrite <- seq_shift, map_map. apply map_ext. intros k.
  rewrite Zplus_mod_idemp_l. by replace (head + 1 + Z.of_nat k) with (head + Z.of_nat (S k)) by lia.
Qed.

(** Overwriting the cell that was taken out changes nothing. *)
Lemma ring_overwrite v : 0 < count <= n ->
  ring_list (<[Z.to_nat head := v]> l) ((head + 1) mod n) (count - 1) =
  ring_list l ((head + 1) mod n) (count - 1).
Proof.
  intros Hc. unfold ring_list. rewrite length_insert, <- Hn.
  apply map_ext_in. intros k Hk. apply in_seq in Hk.
  rewrite list_lookup_total_insert_ne; [done|].
  rewrite Zplus_mod_idemp_l. pose proof (ring_neq 0 (1 + Z.of_nat k)) as Hne.
  rewrite Z.add_0_r, Z.mod_small in Hne by lia.
  replace (head + 1 + Z.of_nat k) with (head + (1 + Z.of_nat k)) by lia.
  apply Hne; lia.
Qed.
End Ring.
