(* ===== verification/Scheduler.v ===== *)
(** * The scheduler (kernel/scheduler.c)

    Task selection, sleeping, exit, the timer tick, wait queues, events and the
    IPC channels.  Everything a call does up to [switch_task] is one definition;
    what a blocking call does once its task runs again is another. *)
From S2P Require Import Prelude Pmm Task.

(** ** State *)

Definition SCHED_PRIO_MAX : Z := 7.
Definition SCHED_WAIT_BOOST_SHIFT : Z := 4.
Definition SCHED_WAIT_BOOST_MAX : Z := 3.
Definition SCHED_WAKE_BOOST_MAX : Z := 2.
Definition SCHED_STARVATION_WAIT_TICKS : Z := 120.
Definition IPC_CHANNELS : Z := 4.
Definition IPC_QUEUE_CAPACITY : Z := 16.
Definition SCHED_PRIO_BANDS : nat := 4.

Record SchedulerMetrics := {
  ticks : Z; io_wake_boosts : Z; starvation_mitigations : Z; inversion_hints : Z;
  band_runtime : list Z; band_switches : list Z; max_wait_ticks : list Z
}.

Record wait_queue_t := { task_ids : list Z; wq_head : Z; wq_tail : Z; wq_count : Z }.

Record ipc_channel_t := { queue : list Z; ch_head : Z; ch_tail : Z; ch_count : Z }.

Record sched_event_t := { waiters : wait_queue_t; signaled : Z }.

(** [locked] is the word of [scheduler_lock], [irq_enabled] the interrupt flag
    that [irq_save] reads and clears. *)
Record Sched := {
  sys : TaskState;
  irq_enabled : bool;
  locked : bool;
  scheduler_ticks : Z;
  sched_metrics : SchedulerMetrics;
  ipc_channels : list ipc_channel_t;
  ipc_send_waiters : list wait_queue_t;
  ipc_recv_waiters : list wait_queue_t;
  ipc_initialized : Z
}.

Coercion sys : Sched >-> TaskState.

#[export] Instance SchedulerMetrics_fields : Fields SchedulerMetrics := fun m =>
  Build_SchedulerMetrics (ticks m) (io_wake_boosts m) (starvation_mitigations m)
    (inversion_hints m) (band_runtime m) (band_switches m) (max_wait_ticks m).
#[export] Instance wait_queue_fields : Fields wait_queue_t := fun q =>
  Build_wait_queue_t (task_ids q) (wq_head q) (wq_tail q) (wq_count q).
#[export] Instance ipc_channel_fields : Fields ipc_channel_t := fun c =>
  Build_ipc_channel_t (queue c) (ch_head c) (ch_tail c) (ch_count c).
#[export] Instance sched_event_fields : Fields sched_event_t := fun e =>
  Build_sched_event_t (waiters e) (signaled e).
#[export] Instance Sched_fields : Fields Sched := fun s =>
  Build_Sched (sys s) (irq_enabled s) (locked s) (scheduler_ticks s) (sched_metrics s)
    (ipc_channels s) (ipc_send_waiters s) (ipc_recv_waiters s) (ipc_initialized s).

(** [os_tasks[i]] and [os_tasks[i].f = v]. *)
Definition task (s : Sched) (i : Z) : TCB := (os_tasks s).[i].
Definition upd (i : Z) (f : TCB -> TCB) (s : Sched) : Sched :=
  s <| sys ::= fun t => t <| os_tasks ::= upd_task i f |> |>.
Definition trace (i event arg : Z) (s : Sched) : Sched :=
  s <| sys ::= fun t => t <| os_tasks ::= task_trace_event i event arg |> |>.
Definition upd_metrics (f : SchedulerMetrics -> SchedulerMetrics) (s : Sched) : Sched :=
  s <| sched_metrics ::= f |>.

(** [a[i]++] on an array of unsigned words. *)
Definition incr_at (i : Z) (l : list Z) : list Z := alter (fun n => n +u 1) (Z.to_nat i) l.

(** ** Priorities *)

Definition scheduler_prio_band (prio : Z) : Z :=
  if prio <=? 1 then 0 else if prio <=? 3 then 1 else if prio <=? 5 then 2 else 3.

Definition time_slice_for_priority (prio : Z) : Z :=
  if prio =? 0 then 3 else if 3 <=? prio then 8 else 5 +u prio.

(** [if (x > cap) x = cap;] *)
Definition cap (limit x : Z) : Z := if limit <? x then limit else x.

Definition scheduler_effective_priority_locked (task_id : Z) (s : Sched) : Z :=
  if (task_id <? 0) || (os_task_count s <=? task_id) then 0
  else
    let base := cap SCHED_PRIO_MAX (priority (task s task_id)) in
    let wait_boost := cap SCHED_WAIT_BOOST_MAX
      (Z.shiftr (sched_wait_ticks (task s task_id)) SCHED_WAIT_BOOST_SHIFT) in
    let wake_boost := cap SCHED_WAKE_BOOST_MAX (sched_wake_boost (task s task_id)) in
    cap (SCHED_PRIO_MAX + SCHED_WAIT_BOOST_MAX + SCHED_WAKE_BOOST_MAX)
      (base +u wait_boost +u wake_boost).

(** ** The lock *)

Definition irq_save (s : Sched) : Sched * bool := (s <| irq_enabled := false |>, irq_enabled s).
Definition irq_restore (flags : bool) (s : Sched) : Sched := s <| irq_enabled := flags |>.

(** With interrupts off on one processor nobody can clear a lock that is held:
    the wait loop then never ends, and the result is [None]. *)
Definition irq_lock_acquire (s : Sched) : option (Sched * bool) :=
  let '(s1, flags) := irq_save s in
  if locked s1 then None else Some (s1 <| locked := true |>, flags).

Definition irq_lock_release (flags : bool) (s : Sched) : Sched :=
  irq_restore flags (s <| locked := false |>).

(** A critical section: acquire, the body, release on every way out of it. *)
Definition with_lock {A} (body : Sched -> Sched * A) (s : Sched) : option (Sched * A) :=
  '(s1, flags) ← irq_lock_acquire s;
  let '(s2, a) := body s1 in Some (irq_lock_release flags s2, a).

(** ** Selection *)

Definition wake_sleeper (n : nat) (s : Sched) : Sched :=
  let i := Z.of_nat n in
  let t := task s i in
  if ((state t =? TASK_STATE_SLEEPING) || (state t =? TASK_STATE_BLOCKED))
     && negb (wake_tick t =? 0) && (wake_tick t <=? scheduler_ticks s)
  then
    trace i TASK_TRACE_EVT_WAKE (scheduler_ticks s)
      (upd_metrics (fun m => m <| io_wake_boosts ::= fun n => n +u 1 |>)
        (upd i (fun t => t <| state := TASK_STATE_READY |> <| wake_tick := 0 |>
                           <| sched_wake_boost := SCHED_WAKE_BOOST_MAX |>) s))
  else s.

Definition scheduler_wake_sleepers_locked (s : Sched) : Sched :=
  for_each wake_sleeper 0 (Z.to_nat (os_task_count s)) s.

(** One turn of the selection loop on [(best_idx, best_prio)]. *)
Definition pick_step (s : Sched) (old_task : Z) (step : nat) (best : Z * Z) : Z * Z :=
  let idx := (old_task + Z.of_nat step) mod os_task_count s in
  if state (task s idx) =? TASK_STATE_READY then
    let prio := scheduler_effective_priority_locked idx s in
    if (fst best <? 0) || (snd best <? prio) then (idx, prio) else best
  else best.

Definition runnable_or_running (t : TCB) : bool :=
  negb (state t =? TASK_STATE_BLOCKED) && negb (state t =? TASK_STATE_SLEEPING)
  && negb (state t =? TASK_STATE_TERMINATED).

Definition scheduler_pick_next_locked (old_task : Z) (s : Sched) : Sched * Z :=
  let '(best_idx, _) := for_each (pick_step s old_task) 1 (Z.to_nat (os_task_count s)) (-1, 0) in
  if 0 <=? best_idx then
    (if SCHED_STARVATION_WAIT_TICKS <=? sched_wait_ticks (task s best_idx)
     then upd_metrics (fun m => m <| starvation_mitigations ::= fun n => n +u 1 |>) s else s,
     best_idx)
  else if (state (task s old_task) =? TASK_STATE_RUNNING)
          || (state (task s old_task) =? TASK_STATE_READY) then (s, old_task)
  else match find_idx runnable_or_running (take (Z.to_nat (os_task_count s)) (os_tasks s)) with
       | Some i => (s, Z.of_nat i)
       | None => (s, old_task)
       end.

Definition make_running (new_task : Z) (s : Sched) : Sched :=
  upd new_task (fun t => t
    <| state := TASK_STATE_RUNNING |>
    <| time_slice := time_slice_for_priority (priority t) |>
    <| sched_last_run_tick := scheduler_ticks s |>
    <| sched_wait_ticks := 0 |> <| sched_wake_boost := 0 |>) s.

Definition note_switch (old_task new_task : Z) (s : Sched) : Sched :=
  if negb (new_task =? old_task) then
    upd new_task (fun t => t <| context_switches ::= fun n => n +u 1 |>)
      (trace new_task TASK_TRACE_EVT_SWITCH_IN old_task
        (trace old_task TASK_TRACE_EVT_SWITCH_OUT new_task s))
  else s.

(** The part under the lock; the result is [(old_task, new_task)]. *)
Definition select_locked (force_current_ready : bool) (s : Sched) : Sched * (Z * Z) :=
  let old_task := os_current_task s in
  let s1 := if force_current_ready && (state (task s old_task) =? TASK_STATE_RUNNING)
            then upd old_task (fun t => t <| state := TASK_STATE_READY |> <| sched_wait_ticks := 0 |>) s
            else s in
  let s2 := scheduler_wake_sleepers_locked s1 in
  let '(s3, new_task) := scheduler_pick_next_locked old_task s2 in
  let s4 := s3 <| sys ::= fun t => t <| os_current_task := new_task |> |> in
  let s5 := make_running new_task s4 in
  let s6 := upd_metrics (fun m => m
    <| band_switches ::= incr_at (scheduler_prio_band (priority (task s5 new_task))) |>) s5 in
  (note_switch old_task new_task s6, (old_task, new_task)).

(** The state as [switch_task] is called, with its arguments; [None] for them
    when the caller goes on running. *)
Definition scheduler_select_and_switch (force : bool) (s : Sched)
  : option (Sched * option (Z * Z)) :=
  '(s1, (old_task, new_task)) ← with_lock (select_locked force) s;
  Some (s1, if negb (new_task =? old_task) then Some (old_task, new_task) else None).

Definition schedule (s : Sched) := scheduler_select_and_switch true s.
Definition task_yield (s : Sched) := schedule s.

(** ** Sleeping *)

(** The call up to the switch; [task_sleep] returns when its task runs again. *)
Definition task_sleep (n : Z) (s : Sched) : option (Sched * option (Z * Z)) :=
  if n =? 0 then task_yield s
  else
    '(s1, _) ← with_lock (fun s =>
      let current := os_current_task s in
      (trace current TASK_TRACE_EVT_SLEEP n
        (upd current (fun t => t <| state := TASK_STATE_SLEEPING |>
                                 <| wake_tick := scheduler_ticks s +u n |>) s), tt)) s;
    scheduler_select_and_switch false s1.

(** What a call that may block does first: it returns a value, or it waits with
    its deadline in a local variable. *)
Inductive Blocking :=
| Returned (r : Z)
| Waiting (deadline : Z) (switch : option (Z * Z)).

Definition cap_wake_tick (current deadline : Z) (s : Sched) : Sched :=
  if deadline <? wake_tick (task s current)
  then upd current (fun t => t <| wake_tick := deadline |>) s else s.

Definition task_sleep_timeout (n max_ticks : Z) (s : Sched) : option (Sched * Blocking) :=
  if n =? 0 then '(s1, _) ← task_yield s; Some (s1, Returned 1)
  else if max_ticks =? 0 then Some (s, Returned 0)
  else
    '(s1, deadline) ← with_lock (fun s =>
      let current := os_current_task s in
      let deadline := scheduler_ticks s +u max_ticks in
      let s1 := upd current (fun t => t <| state := TASK_STATE_SLEEPING |>
                                        <| wake_tick := scheduler_ticks s +u n |>) s in
      (trace current TASK_TRACE_EVT_SLEEP n (cap_wake_tick current deadline s1), deadline)) s;
    '(s2, sw) ← scheduler_select_and_switch false s1;
    Some (s2, Waiting deadline sw).

(** The rest of the call once the task runs again: 1 unless the deadline has
    passed. *)
Definition timeout_result (deadline : Z) (s : Sched) : option (Sched * Z) :=
  with_lock (fun s => (s, if deadline <=? scheduler_ticks s then 0 else 1)) s.

(** ** Ending a task *)

(** What the scheduler asks of the file layer and of the memory layer when a
    task ends; [X] is their state. *)
Class TaskResources (X : Type) := {
  vfs_close_all_for_task : Z -> X -> X;
  destroy_user_address_space : Z -> X -> X;
  page_directory : Z
}.

(** The block of an ended task, and its parent woken if it waits for it. *)
Definition terminated_block (code : Z) (t : TCB) : TCB :=
  t <| state := TASK_STATE_TERMINATED |> <| wake_tick := 0 |>
    <| exit_status := code |> <| exited := 1 |>.
Definition mark_terminated (id code : Z) (s : Sched) : Sched := upd id (terminated_block code) s.

Definition wake_parent (parent id : Z) (s : Sched) : Sched :=
  if (0 <=? parent) && (parent <? os_task_count s)
     && (state (task s parent) =? TASK_STATE_BLOCKED)
     && (wait_reason (task s parent) =? TASK_WAIT_CHILD)
  then
    let target := wait_target (task s parent) in
    if (target <? 0) || (target =? id)
    then upd parent (fun t => t <| state := TASK_STATE_READY |> <| wake_tick := 0 |>
                                <| wait_reason := TASK_WAIT_NONE |> <| wait_target := -1 |>) s
    else s
  else s.

Section Ending.
Context {X : Type} `{TR : TaskResources X}.

Definition release_resources (id task_pd : Z) (x : X) (s : Sched) : X * Sched :=
  let x1 := vfs_close_all_for_task id x in
  if negb (task_pd =? 0) && negb (task_pd =? page_directory)
  then (destroy_user_address_space task_pd x1, upd id (fun t => t <| page_dir := 0 |>) s)
  else (x1, s).

(** The call never returns to its task: after the switch it halts for ever. *)
Definition task_exit_with_code (code : Z) (x : X) (s : Sched)
  : option (X * Sched * option (Z * Z)) :=
  '(s1, (current, task_pd)) ← with_lock (fun s =>
    let current := os_current_task s in
    let t := task s current in
    let parent := parent_pid t in
    let task_pd := page_dir t in
    let has_fault := negb (fault_code t =? 0) || negb (fault_addr t =? 0)
                     || negb (fault_eip t =? 0) in
    let s1 := if negb has_fault then trace current TASK_TRACE_EVT_TERMINATE 0 s else s in
    (wake_parent parent current (mark_terminated current code s1), (current, task_pd))) s;
  let '(x2, s2) := release_resources current task_pd x s1 in
  '(s3, sw) ← scheduler_select_and_switch false s2;
  Some (x2, s3, sw).

Definition task_terminate_current (x : X) (s : Sched) := task_exit_with_code 0 x s.

(** Killing oneself is an exit: the switch is reported and 1 never returned. *)
Definition task_kill (task_id code : Z) (x : X) (s : Sched)
  : option (X * Sched * Z * option (Z * Z)) :=
  if (task_id <? 0) || (os_task_count s <=? task_id) then Some (x, s, 0, None)
  else if task_id =? os_current_task s then
    '(x1, s1, sw) ← task_exit_with_code code x s; Some (x1, s1, 1, sw)
  else
    '(s1, killed) ← with_lock (fun s =>
      if state (task s task_id) =? TASK_STATE_TERMINATED then (s, None)
      else
        let parent := parent_pid (task s task_id) in
        let task_pd := page_dir (task s task_id) in
        (wake_parent parent task_id (mark_terminated task_id code s), Some task_pd)) s;
    match killed with
    | None => Some (x, s1, 0, None)
    | Some task_pd =>
        let '(x2, s2) := release_resources task_id task_pd x s1 in Some (x2, s2, 1, None)
    end.
End Ending.

(** ** The timer tick *)

Definition tick_wait (current : Z) (n : nat) (s : Sched) : Sched :=
  let i := Z.of_nat n in
  if i =? current then s
  else if state (task s i) =? TASK_STATE_READY then
    let band := scheduler_prio_band (priority (task s i)) in
    let s1 := if sched_wait_ticks (task s i) <? 0xFFFFFFFF
              then upd i (fun t => t <| sched_wait_ticks ::= fun n => n +u 1 |>) s else s in
    if (max_wait_ticks (sched_metrics s1)).[band] <? sched_wait_ticks (task s1 i)
    then upd_metrics (fun m => m <| max_wait_ticks ::=
           <[Z.to_nat band := sched_wait_ticks (task s1 i)]> |>) s1
    else s1
  else s.

(** Some READY task other than the current one outranks it. *)
Definition inversion (current : Z) (s : Sched) : bool :=
  existsb (fun n => let i := Z.of_nat n in
             negb (i =? current) && (state (task s i) =? TASK_STATE_READY)
             && (scheduler_effective_priority_locked current s
                 <? scheduler_effective_priority_locked i s))
          (seq 0 (Z.to_nat (os_task_count s))).

(** The accounting of the running task; it yields [current], [should_preempt] and
    [preempt_due_to_slice]. *)
Definition tick_running (current : Z) (s : Sched) : Sched * (Z * bool * bool) :=
  let s1 := upd_metrics (fun m => m
    <| band_runtime ::= incr_at (scheduler_prio_band (priority (task s current))) |>) s in
  let s2 := upd current (fun t => t <| runtime_ticks ::= fun n => n +u 1 |>) s1 in
  let s3 := if 0 <? time_slice (task s2 current)
            then upd current (fun t => t <| time_slice ::= fun n => n -u 1 |>) s2 else s2 in
  let preempt_due_to_slice := time_slice (task s3 current) =? 0 in
  let inversion_hint := inversion current s3 in
  let s4 := if inversion_hint
            then upd_metrics (fun m => m <| inversion_hints ::= fun n => n +u 1 |>) s3 else s3 in
  (s4, (current, preempt_due_to_slice || inversion_hint, preempt_due_to_slice)).

(** The first critical section. *)
Definition tick_account (s : Sched) : Sched * (Z * bool * bool) :=
  let s1 := s <| scheduler_ticks ::= fun n => n +u 1 |> in
  let s2 := upd_metrics (fun m => m <| ticks := scheduler_ticks s1 |>) s1 in
  let s3 := scheduler_wake_sleepers_locked s2 in
  let current := os_current_task s3 in
  let s4 := for_each (tick_wait current) 0 (Z.to_nat (os_task_count s3)) s3 in
  if state (task s4 current) =? TASK_STATE_RUNNING then tick_running current s4
  else (s4, (current, false, false)).

(** The second one: no switch from interrupt context, only the slice is set. *)
Definition tick_slice (current : Z) (preempt_due_to_slice : bool) (s : Sched) : Sched * unit :=
  (if state (task s current) =? TASK_STATE_RUNNING then
     if preempt_due_to_slice
     then upd current (fun t => t <| time_slice := time_slice_for_priority (priority t) |>) s
     else if 1 <? time_slice (task s current)
     then upd current (fun t => t <| time_slice := 1 |>) s else s
   else s, tt).

Definition tick_finish (current : Z) (should_preempt preempt_due_to_slice : bool) (s : Sched)
  : option Sched :=
  if should_preempt then fst <$> with_lock (tick_slice current preempt_due_to_slice) s else Some s.

Definition scheduler_timer_tick (s : Sched) : option Sched :=
  '(s1, (current, should_preempt, preempt_due_to_slice)) ← with_lock tick_account s;
  tick_finish current should_preempt preempt_due_to_slice s1.

Definition scheduler_now_ticks (s : Sched) : Z := scheduler_ticks s.

(** ** Initial values *)

Definition wait_queue_init : wait_queue_t :=
  {| task_ids := replicate (Z.to_nat MAX_TASKS) (-1); wq_head := 0; wq_tail := 0; wq_count := 0 |}.

(** The queue the static storage of the kernel starts with. *)
Definition wait_queue_zero : wait_queue_t :=
  {| task_ids := replicate (Z.to_nat MAX_TASKS) 0; wq_head := 0; wq_tail := 0; wq_count := 0 |}.

#[export] Instance wait_queue_inhabited : Inhabited wait_queue_t := populate wait_queue_zero.

Definition ipc_channel_init : ipc_channel_t :=
  {| queue := replicate (Z.to_nat IPC_QUEUE_CAPACITY) 0; ch_head := 0; ch_tail := 0; ch_count := 0 |}.

#[export] Instance ipc_channel_inhabited : Inhabited ipc_channel_t := populate ipc_channel_init.

(** ** Metrics *)

Definition scheduler_get_metrics (s : Sched) : option (Sched * SchedulerMetrics) :=
  with_lock (fun s => (s, sched_metrics s)) s.

Definition scheduler_reset_metrics (s : Sched) : option (Sched * unit) :=
  with_lock (fun s =>
    (s <| sched_metrics := {| ticks := scheduler_ticks s; io_wake_boosts := 0;
       starvation_mitigations := 0; inversion_hints := 0;
       band_runtime := replicate SCHED_PRIO_BANDS 0;
       band_switches := replicate SCHED_PRIO_BANDS 0;
       max_wait_ticks := replicate SCHED_PRIO_BANDS 0 |} |>, tt)) s.

(** The scheduler as the program starts: interrupts off, static storage zeroed. *)
Definition sched_init : Sched :=
  {| sys := task_state_init; irq_enabled := false; locked := false; scheduler_ticks := 0;
     sched_metrics := {| ticks := 0; io_wake_boosts := 0; starvation_mitigations := 0;
       inversion_hints := 0; band_runtime := replicate SCHED_PRIO_BANDS 0;
       band_switches := replicate SCHED_PRIO_BANDS 0;
       max_wait_ticks := replicate SCHED_PRIO_BANDS 0 |};
     ipc_channels := replicate (Z.to_nat IPC_CHANNELS) ipc_channel_init;
     ipc_send_waiters := replicate (Z.to_nat IPC_CHANNELS) wait_queue_zero;
     ipc_recv_waiters := replicate (Z.to_nat IPC_CHANNELS) wait_queue_zero;
     ipc_initialized := 0 |}.

(** ** The invariant *)

(** The shape of the task table. *)
Record sched_wf (s : Sched) : Prop := {
  wf_len : length (os_tasks s) = Z.to_nat MAX_TASKS;
  wf_count : 1 <= os_task_count s <= MAX_TASKS;
  wf_cur : 0 <= os_current_task s < os_task_count s
}.

(** [RUNNING] tasks are among those [p] allows. *)
Definition running_only (p : Z -> Prop) (s : Sched) : Prop :=
  forall i, 0 <= i < MAX_TASKS -> state (task s i) = TASK_STATE_RUNNING -> p i.

(** Between operations: the lock is free, the current task is [RUNNING] and no
    other one is. *)
Record sched_ok (s : Sched) : Prop := {
  ok_wf : sched_wf s;
  ok_unlocked : locked s = false;
  ok_current : state (task s (os_current_task s)) = TASK_STATE_RUNNING;
  ok_single : running_only (fun i => i = os_current_task s) s
}.

(** Two states that differ outside the task table only. *)
Definition same_sys (s s' : Sched) : Prop := sys s' = sys s.

Lemma upd_length i f (s : Sched) : length (os_tasks (upd i f s)) = length (os_tasks s).
Proof. apply length_alter. Qed.

Lemma task_upd i f (s : Sched) j : 0 <= i -> 0 <= j -> (Z.to_nat i < length (os_tasks s))%nat ->
  task (upd i f s) j = if i =? j then f (task s i) else task s j.
Proof.
  intros Hi Hj Hl. unfold task, upd, upd_task. simpl.
  destruct (Z.eqb_spec i j) as [<-|Hne].
  - by apply list_lookup_total_alter_eq.
  - apply list_lookup_total_alter_ne. lia.
Qed.

Lemma trace_cases i e a (s : Sched) :
  trace i e a s = s \/
  (0 <= i < MAX_TASKS /\ exists f, (forall t, state (f t) = state t /\ wake_tick (f t) = wake_tick t) /\
     trace i e a s = upd i f s).
Proof.
  unfold trace, upd, task_trace_event, update_field. destruct (task_is_valid i) eqn:Hv; simpl.
  - case_if.
    + left. destruct s as [[? ? ?]]; done.
    + right. unfold task_is_valid in Hv. bsimpl. split; [lia|].
      by exists (traced e a).
  - left. destruct s as [[? ? ?]]; done.
Qed.

(** What the task-table primitives leave alone. *)
Record frame (s s' : Sched) : Prop := {
  fr_len : length (os_tasks s') = length (os_tasks s);
  fr_count : os_task_count s' = os_task_count s;
  fr_cur : os_current_task s' = os_current_task s;
  fr_irq : irq_enabled s' = irq_enabled s;
  fr_lock : locked s' = locked s;
  fr_ticks : scheduler_ticks s' = scheduler_ticks s;
  fr_chan : ipc_channels s' = ipc_channels s;
  fr_sendw : ipc_send_waiters s' = ipc_send_waiters s;
  fr_recvw : ipc_recv_waiters s' = ipc_recv_waiters s;
  fr_init : ipc_initialized s' = ipc_initialized s
}.

#[export] Instance frame_preorder : PreOrder frame.
Proof.
  split.
  - intros s. by split.
  - intros s1 s2 s3 [] []. split; by etrans.
Qed.

Lemma frame_upd i f (s : Sched) : frame s (upd i f s).
Proof. split; try done. apply upd_length. Qed.
Lemma frame_metrics f (s : Sched) : frame s (upd_metrics f s).
Proof. by split. Qed.
Lemma frame_trace i e a (s : Sched) : frame s (trace i e a s).
Proof.
  destruct (trace_cases i e a s) as [->|(_ & f & _ & ->)]; [done|apply frame_upd].
Qed.

Create HintDb sched.
#[export] Hint Resolve frame_upd frame_metrics frame_trace : sched.

Lemma frame_wf (s s' : Sched) : frame s s' -> sched_wf s -> sched_wf s'.
Proof. intros F [L C K]. split; destruct F; congruence. Qed.

(** The block without its trace log. *)
Definition core (t : TCB) : TCB :=
  t <| trace_last_event := 0 |> <| trace_last_arg := 0 |> <| trace_event_count := 0 |>.

Lemma core_state t t' : core t = core t' -> state t = state t'.
Proof. intros H. by apply (f_equal state) in H. Qed.

Lemma core_wake_tick t t' : core t = core t' -> wake_tick t = wake_tick t'.
Proof. intros H. by apply (f_equal wake_tick) in H. Qed.

Lemma core_traced e a t : core (traced e a t) = core t.
Proof. done. Qed.

Lemma task_trace_core i e a (s : Sched) j : core (task (trace i e a s) j) = core (task s j).
Proof.
  change (core (task_trace_event i e a (os_tasks s)).[j] = core (os_tasks s).[j]).
  unfold task_trace_event. case_if; [done|]. case_if; [done|]. unfold upd_task.
  rewrite list_lookup_total_alter. case_decide as Hd; [|done].
  destruct Hd as [<- _]. apply core_traced.
Qed.

Lemma task_metrics f (s : Sched) j : task (upd_metrics f s) j = task s j.
Proof. done. Qed.

(** [task s j] after a store to block [i], for indices in the table. *)
Lemma task_upd_wf i f (s : Sched) j : sched_wf s -> 0 <= i < MAX_TASKS -> 0 <= j ->
  task (upd i f s) j = if i =? j then f (task s i) else task s j.
Proof. intros [L _ _] Hi Hj. apply task_upd; [lia|lia|]. rewrite L. lia. Qed.

(** ** Waking sleepers *)

(** The deadline of a sleeping or blocked task has come. *)
Definition due (now : Z) (t : TCB) : bool :=
  ((state t =? TASK_STATE_SLEEPING) || (state t =? TASK_STATE_BLOCKED))
  && negb (wake_tick t =? 0) && (wake_tick t <=? now).

Definition woken (t : TCB) : TCB :=
  t <| state := TASK_STATE_READY |> <| wake_tick := 0 |>
    <| sched_wake_boost := SCHED_WAKE_BOOST_MAX |>.

Lemma wake_sleeper_ok n (s : Sched) : sched_wf s -> (n < Z.to_nat MAX_TASKS)%nat ->
  frame s (wake_sleeper n s) /\
  (forall j, 0 <= j -> j <> Z.of_nat n -> core (task (wake_sleeper n s) j) = core (task s j)) /\
  let t := task s (Z.of_nat n) in
  core (task (wake_sleeper n s) (Z.of_nat n)) =
    core (if due (scheduler_ticks s) t then woken t else t).
Proof.
  intros W Hn. unfold wake_sleeper. fold (due (scheduler_ticks s) (task s (Z.of_nat n))).
  case_if.
  - split_and!.
    + do 2 (etrans; [|by eauto with sched]). apply frame_upd.
    + intros j Hj Hne. rewrite task_trace_core, task_metrics, task_upd_wf by (done || lia).
      by destruct (Z.eqb_spec (Z.of_nat n) j); [lia|].
    + rewrite task_trace_core, task_metrics, task_upd_wf by (done || lia).
      by rewrite Z.eqb_refl.
  - split_and!; done.
Qed.

Lemma wake_sleepers_ok (s : Sched) : sched_wf s ->
  frame s (scheduler_wake_sleepers_locked s) /\
  forall j, 0 <= j < MAX_TASKS ->
    core (task (scheduler_wake_sleepers_locked s) j) =
    core (if (j <? os_task_count s) && due (scheduler_ticks s) (task s j)
          then woken (task s j) else task s j).
Proof.
  intros W.
  pose (I := fun (n : nat) (t : Sched) => frame s t /\
    forall j, 0 <= j < MAX_TASKS -> core (task t j) =
      core (if (j <? Z.of_nat n) && due (scheduler_ticks s) (task s j)
            then woken (task s j) else task s j)).
  assert (I (0 + Z.to_nat (os_task_count s))%nat (scheduler_wake_sleepers_locked s)) as [F H].
  { unfold scheduler_wake_sleepers_locked. apply (for_each_inv wake_sleeper I).
    - split; [done|]. intros j Hj. destruct (Z.ltb_spec j (Z.of_nat 0)); [lia|done].
    - intros n t Hn [F Ht]. pose proof (wf_count s W).
      destruct (wake_sleeper_ok n t) as (F' & Hne & Heq); [by eapply frame_wf|lia|].
      split; [by etrans|]. intros j Hj.
      destruct (decide (j = Z.of_nat n)) as [->|Hjn].
      + rewrite Heq. specialize (Ht (Z.of_nat n) ltac:(lia)).
        destruct (Z.ltb_spec (Z.of_nat n) (Z.of_nat n)); [lia|].
        destruct (Z.ltb_spec (Z.of_nat n) (Z.of_nat (S n))); [|lia]. simpl in Ht |- *.
        assert (due (scheduler_ticks t) (task t (Z.of_nat n))
                = due (scheduler_ticks s) (task s (Z.of_nat n))) as ->.
        { rewrite (fr_ticks _ _ F). unfold due.
          rewrite (core_state _ _ Ht). by rewrite (core_wake_tick _ _ Ht). }
        case_if; [|done].
        transitivity (woken (core (task t (Z.of_nat n)))); [done|]. by rewrite Ht.
      + assert (core (task (wake_sleeper n t) j) = core (task t j)) as ->.
        { by apply Hne; [lia|]. }
        rewrite Ht by done. by destruct (Z.ltb_spec j (Z.of_nat n)), (Z.ltb_spec j (Z.of_nat (S n)));
          try lia. }
  split; [done|]. intros j Hj. rewrite H by done. pose proof (wf_count s W).
  by rewrite Nat.add_0_l, Z2Nat.id by lia.
Qed.

(** ** Selection *)

(** How many turns the round robin from [old] takes to reach [j]. *)
Definition turn (s : Sched) (old j : Z) : Z := (j - old - 1) mod os_task_count s.

Definition ready (s : Sched) (j : Z) : Prop :=
  0 <= j < os_task_count s /\ state (task s j) = TASK_STATE_READY.

#[export] Instance ready_dec s j : Decision (ready s j).
Proof. unfold ready. apply _. Defined.

Abbreviation eff s j := (scheduler_effective_priority_locked j s).

(** The index a step of the loop looks at, and the step that looks at an index. *)
Definition at_step (s : Sched) (old : Z) (k : nat) : Z := (old + Z.of_nat k) mod os_task_count s.

Lemma turn_step (s : Sched) old j : sched_wf s -> 0 <= j < os_task_count s ->
  at_step s old (Z.to_nat (turn s old j + 1)) = j.
Proof.
  intros W Hj. unfold at_step, turn. pose proof (wf_count s W).
  pose proof (Z.mod_pos_bound (j - old - 1) (os_task_count s) ltac:(lia)).
  rewrite Z2Nat.id by lia.
  replace (old + ((j - old - 1) mod os_task_count s + 1))
    with (old + 1 + (j - old - 1) mod os_task_count s) by lia.
  rewrite Zplus_mod_idemp_r. replace (old + 1 + (j - old - 1)) with j by lia.
  apply Z.mod_small. lia.
Qed.

Lemma step_turn (s : Sched) old k : sched_wf s -> (1 <= k <= Z.to_nat (os_task_count s))%nat ->
  turn s old (at_step s old k) = Z.of_nat k - 1.
Proof.
  intros W Hk. unfold at_step, turn. pose proof (wf_count s W).
  replace ((old + Z.of_nat k) mod os_task_count s - old - 1)
    with ((old + Z.of_nat k) mod os_task_count s - (old + 1)) by lia.
  rewrite Zminus_mod_idemp_l. replace (old + Z.of_nat k - (old + 1)) with (Z.of_nat k - 1) by lia.
  apply Z.mod_small. lia.
Qed.

(** The best READY task among the first [n - 1] steps. *)
Definition best_upto (s : Sched) (old : Z) (n : nat) (best : Z * Z) : Prop :=
  (best = (-1, 0) /\ forall k, (1 <= k < n)%nat -> ~ ready s (at_step s old k)) \/
  exists k, (1 <= k < n)%nat /\ ready s (at_step s old k) /\
    best = (at_step s old k, eff s (at_step s old k)) /\
    forall i, (1 <= i < n)%nat -> ready s (at_step s old i) ->
      eff s (at_step s old i) < eff s (at_step s old k) \/
      (eff s (at_step s old i) = eff s (at_step s old k) /\ (k <= i)%nat).

Lemma at_step_range (s : Sched) old k : sched_wf s -> 0 <= at_step s old k < os_task_count s.
Proof. intros W. pose proof (wf_count s W). apply Z.mod_pos_bound. lia. Qed.

Lemma pick_step_best (s : Sched) old n best : sched_wf s -> (1 <= n)%nat ->
  best_upto s old n best -> best_upto s old (S n) (pick_step s old n best).
Proof.
  intros W Hn Hb. pose proof (at_step_range s old n W) as Hr.
  unfold pick_step. fold (at_step s old n).
  assert (ready s (at_step s old n) <-> (state (task s (at_step s old n)) =? TASK_STATE_READY) = true)
    as Hready by (unfold ready; rewrite Z.eqb_eq; tauto).
  destruct (state (task s (at_step s old n)) =? TASK_STATE_READY) eqn:E.
  - assert (ready s (at_step s old n)) as HR by by apply Hready.
    destruct Hb as [[-> Hno]|(k & Hk & Hrk & -> & Hall)]; simpl.
    + right. exists n. split_and!; [lia|lia|done|done|]. intros i Hi Hri.
      destruct (decide (i = n)) as [->|]; [right; lia|]. destruct (Hno i ltac:(lia) Hri).
    + pose proof (at_step_range s old k W).
      destruct (Z.ltb_spec (at_step s old k) 0); [lia|]. simpl.
      destruct (Z.ltb_spec (eff s (at_step s old k)) (eff s (at_step s old n))); right.
      * exists n. split_and!; [lia|lia|done|done|]. intros i Hi Hri.
        destruct (decide (i = n)) as [->|]; [right; lia|].
        destruct (Hall i ltac:(lia) Hri); left; lia.
      * exists k. split_and!; [lia|lia|done|done|]. intros i Hi Hri.
        destruct (decide (i = n)) as [->|]; [lia|]. apply Hall; [lia|done].
  - assert (~ ready s (at_step s old n)) as HR by (rewrite Hready; done).
    destruct Hb as [[-> Hno]|(k & Hk & Hrk & -> & Hall)].
    + left. split; [done|]. intros k Hk. destruct (decide (k = n)) as [->|]; [done|].
      apply Hno. lia.
    + right. exists k. split_and!; [lia|lia|done|done|]. intros i Hi Hri.
      destruct (decide (i = n)) as [->|]; [done|]. apply Hall; [lia|done].
Qed.

Lemma pick_loop_best (s : Sched) old : sched_wf s ->
  best_upto s old (S (Z.to_nat (os_task_count s)))
    (for_each (pick_step s old) 1 (Z.to_nat (os_task_count s)) (-1, 0)).
Proof.
  intros W. apply (for_each_inv (pick_step s old) (best_upto s old)).
  - left. split; [done|]. lia.
  - intros n best Hn. apply pick_step_best; [done|lia].
Qed.

(** What selection from [old] means: the READY task of greatest effective
    priority that comes first in the round robin; failing that [old] itself, or
    the first task that is not waiting. *)
Record picked (s : Sched) (old new : Z) : Prop := {
  pk_range : 0 <= new < os_task_count s;
  pk_ready : (exists i, ready s i) -> ready s new;
  pk_best j : ready s j -> eff s j < eff s new \/
                (eff s j = eff s new /\ turn s old new <= turn s old j);
  pk_idle : (forall i, ~ ready s i) ->
    new = old \/ (state (task s old) <> TASK_STATE_RUNNING /\
                  runnable_or_running (task s new) = true)
}.

Lemma pick_next_ok (s : Sched) old : sched_wf s -> 0 <= old < os_task_count s ->
  let '(s', new) := scheduler_pick_next_locked old s in
  frame s s' /\ sys s' = sys s /\ picked s old new.
Proof.
  intros W Hold. unfold scheduler_pick_next_locked.
  pose proof (pick_loop_best s old W) as Hb.
  destruct (for_each _ _ _ _) as [best_idx best_prio].
  destruct Hb as [[[= -> ->] Hno]|(k & Hk & Hrk & [= -> ->] & Hall)].
  - assert (forall i, ~ ready s i) as Hnone.
    { intros i Hi. destruct (Hi) as [Hr _]. apply (Hno (Z.to_nat (turn s old i + 1))).
      - unfold turn. pose proof (Z.mod_pos_bound (i - old - 1) (os_task_count s)). lia.
      - by rewrite turn_step. }
    simpl. case_if.
    { split_and!; [done|done|]. split; [done| | |intros _; by left].
      - intros [i Hi]. by destruct (Hnone i).
      - intros j Hj. by destruct (Hnone j). }
    bsimpl. destruct (find_idx _ _) as [n|] eqn:F; simpl; (split_and!; [done|done|]).
    + pose proof (find_idx_lt _ _ _ F) as Hlt. rewrite length_take in Hlt.
      apply find_idx_Some in F as [(t & Ht & Hp) _].
      assert (0 <= Z.of_nat n < os_task_count s) by lia.
      apply lookup_take_Some in Ht as [Ht _].
      split; [done| | |].
      * intros [i Hi]. by destruct (Hnone i).
      * intros j Hj. by destruct (Hnone j).
      * intros _. right. split; [done|]. unfold task. rewrite Nat2Z.id.
        by rewrite (list_lookup_total_correct _ _ _ Ht).
    + split; [done| | |intros _; by left].
      * intros [i Hi]. by destruct (Hnone i).
      * intros j Hj. by destruct (Hnone j).
  - pose proof (at_step_range s old k W). destruct (Z.leb_spec 0 (at_step s old k)); [|lia].
    split_and!.
    + case_if; [apply frame_metrics|done].
    + by case_if.
    + split; [done|done| |].
      * intros j Hj. destruct (Hj) as [Hr _].
        pose proof (Z.mod_pos_bound (j - old - 1) (os_task_count s) ltac:(lia)) as Hm.
        fold (turn s old j) in Hm.
        specialize (Hall (Z.to_nat (turn s old j + 1))).
        rewrite turn_step in Hall by done. rewrite step_turn by (done || lia).
        destruct Hall as [?|[? ?]]; [lia|done|by left|right; split; lia].
      * intros Hnone. by destruct (Hnone (at_step s old k)).
Qed.

(** ** Critical sections *)

Definition enter (s : Sched) : Sched := s <| irq_enabled := false |> <| locked := true |>.

Lemma wf_sys (s s' : Sched) : sys s' = sys s -> sched_wf s -> sched_wf s'.
Proof. intros H [? ? ?]. split; by rewrite H. Qed.

Lemma wf_enter (s : Sched) : sched_wf s -> sched_wf (enter s).
Proof. by apply wf_sys. Qed.

Lemma with_lock_ok {A} (body : Sched -> Sched * A) (s : Sched) : locked s = false ->
  with_lock body s = Some (irq_lock_release (irq_enabled s) (fst (body (enter s))), snd (body (enter s))).
Proof.
  intros Hl. unfold with_lock, irq_lock_acquire, irq_save, enter, update_field. simpl. rewrite Hl.
  simpl. by destruct (body _).
Qed.

Lemma with_lock_bind {A B} (body : Sched -> Sched * A) (k : Sched * A -> option B) (s s1 : Sched) a :
  locked s = false -> body (enter s) = (s1, a) ->
  (with_lock body s ≫= k) = k (irq_lock_release (irq_enabled s) s1, a).
Proof. intros Hl Hb. by rewrite with_lock_ok, Hb. Qed.

(** ** The switch *)

Definition force_ready (force : bool) (s : Sched) : Sched :=
  if force && (state (task s (os_current_task s)) =? TASK_STATE_RUNNING)
  then upd (os_current_task s)
         (fun t => t <| state := TASK_STATE_READY |> <| sched_wait_ticks := 0 |>) s
  else s.

(** The table the selection looks at. *)
Definition before_pick (force : bool) (s : Sched) : Sched :=
  scheduler_wake_sleepers_locked (force_ready force s).

Lemma force_ready_ok force (s : Sched) : sched_wf s ->
  running_only (fun i => i = os_current_task s) s ->
  force = true \/ state (task s (os_current_task s)) <> TASK_STATE_RUNNING ->
  frame s (force_ready force s) /\ running_only (fun _ => False) (force_ready force s).
Proof.
  intros W Hr Hf. pose proof (wf_cur s W). pose proof (wf_count s W). unfold force_ready. case_if.
  - split; [apply frame_upd|]. intros i Hi. rewrite task_upd_wf by (done || lia).
    destruct (Z.eqb_spec (os_current_task s) i) as [|Hne]; [done|].
    intros Hs. by apply Hne, eq_sym, Hr.
  - split; [done|]. intros i Hi Hs. pose proof (Hr i Hi Hs) as ->.
    destruct Hf as [->|Hf]; [|done]. simpl in E. by apply Z.eqb_neq in E.
Qed.

Lemma wake_sleepers_running (s : Sched) (p : Z -> Prop) : sched_wf s ->
  running_only p s -> running_only p (scheduler_wake_sleepers_locked s).
Proof.
  intros W Hr i Hi Hs. apply Hr; [done|]. destruct (wake_sleepers_ok s W) as [_ Hc].
  specialize (Hc i Hi). apply core_state in Hc. rewrite Hs in Hc. by case_if.
Qed.

Lemma before_pick_ok force (s : Sched) : sched_wf s ->
  running_only (fun i => i = os_current_task s) s ->
  force = true \/ state (task s (os_current_task s)) <> TASK_STATE_RUNNING ->
  frame s (before_pick force s) /\ running_only (fun _ => False) (before_pick force s).
Proof.
  intros W Hr Hf. destruct (force_ready_ok force s W Hr Hf) as [F Hn].
  pose proof (frame_wf _ _ F W) as W1. split.
  - etrans; [done|]. by apply wake_sleepers_ok.
  - by apply wake_sleepers_running.
Qed.

(** [core] of two tables agrees outside block [new], where the switch count may
    differ. *)
Lemma note_switch_ok old new (s : Sched) : sched_wf s -> 0 <= new < MAX_TASKS ->
  frame s (note_switch old new s) /\
  (forall j, 0 <= j < MAX_TASKS -> j <> new -> core (task (note_switch old new s) j) = core (task s j)) /\
  exists n, core (task (note_switch old new s) new) = (core (task s new)) <| context_switches := n |>.
Proof.
  intros W Hn. unfold note_switch. case_if.
  - set (s1 := trace old _ _ s). set (s2 := trace new _ _ s1).
    assert (frame s s2) as F by (etrans; apply frame_trace).
    assert (forall j, core (task s2 j) = core (task s j)) as Hc
      by (intros j; unfold s2, s1; by rewrite !task_trace_core).
    pose proof (frame_wf _ _ F W) as W2. split_and!.
    + etrans; [exact F|apply frame_upd].
    + intros j Hj Hne. rewrite task_upd_wf by (done || lia).
      by destruct (Z.eqb_spec new j); [lia|].
    + rewrite task_upd_wf, Z.eqb_refl by (done || lia). eexists. rewrite <- Hc. done.
  - split_and!; [done|done|]. by exists (context_switches (task s new)).
Qed.

Lemma make_running_ok new (s : Sched) : sched_wf s -> 0 <= new < MAX_TASKS ->
  frame s (make_running new s) /\
  (forall j, 0 <= j < MAX_TASKS -> j <> new -> task (make_running new s) j = task s j) /\
  let t := task (make_running new s) new in
  state t = TASK_STATE_RUNNING /\ sched_wait_ticks t = 0 /\
  time_slice t = time_slice_for_priority (priority (task s new)).
Proof.
  intros W Hn. unfold make_running. split; [apply frame_upd|split].
  - intros j Hj Hne. rewrite task_upd_wf by (done || lia). by destruct (Z.eqb_spec new j); [lia|].
  - cbv zeta. by rewrite task_upd_wf, Z.eqb_refl by (done || lia).
Qed.

(** What a switch leaves in the state, apart from the chosen task. *)
Record switched (b s' : Sched) (new : Z) : Prop := {
  sw_frame : frame (b <| sys ::= fun t => t <| os_current_task := new |> |>) s';
  sw_state : state (task s' new) = TASK_STATE_RUNNING;
  sw_wait : sched_wait_ticks (task s' new) = 0;
  sw_slice : time_slice (task s' new) = time_slice_for_priority (priority (task b new));
  sw_others j : 0 <= j < MAX_TASKS -> j <> new -> core (task s' j) = core (task b j)
}.

Lemma select_locked_ok force (s : Sched) : sched_wf s -> frame s (before_pick force s) ->
  exists new s', select_locked force s = (s', (os_current_task s, new)) /\
    picked (before_pick force s) (os_current_task s) new /\
    switched (before_pick force s) s' new.
Proof.
  intros W. unfold select_locked. fold (force_ready force s). fold (before_pick force s).
  set (b := before_pick force s). intros F.
  pose proof (frame_wf _ _ F W) as Wb. pose proof (wf_count s W).
  assert (0 <= os_current_task s < os_task_count b) as Hold.
  { rewrite (fr_count _ _ F). apply W. }
  pose proof (pick_next_ok b (os_current_task s) Wb Hold) as Hp.
  destruct (scheduler_pick_next_locked _ b) as [s3 new]. destruct Hp as (F3 & Hsys & Hpick).
  pose proof (pk_range _ _ _ Hpick) as Hnew. rewrite (fr_count _ _ F) in Hnew.
  set (s4 := update_field sys _ s3).
  assert (frame (b <| sys ::= fun t => t <| os_current_task := new |> |>) s4) as F4.
  { destruct F3. split; try done; unfold s4, update_field; simpl; by rewrite Hsys. }
  assert (sched_wf s4) as W4.
  { eapply frame_wf; [exact F4|]. destruct Wb. split; simpl; [done|done|].
    by rewrite (fr_count _ _ F). }
  assert (forall j, task s4 j = task b j) as Ht4.
  { intros j. unfold task, s4, update_field. simpl. by rewrite Hsys. }
  destruct (make_running_ok new s4) as (F5 & Ho5 & Hst & Hw & Hsl); [done|lia|].
  set (s6 := upd_metrics _ _).
  assert (frame s4 s6) as F6 by (etrans; [exact F5|apply frame_metrics]).
  destruct (note_switch_ok (os_current_task s) new s6) as (F7 & Ho7 & n & Hn);
    [by eapply frame_wf|lia|].
  exists new, (note_switch (os_current_task s) new s6). split; [done|]. split; [done|]. split.
  - etrans; [exact F4|]. by etrans.
  - apply (f_equal state) in Hn. etrans; [exact Hn|exact Hst].
  - apply (f_equal sched_wait_ticks) in Hn. etrans; [exact Hn|exact Hw].
  - apply (f_equal time_slice) in Hn. rewrite <- Ht4. etrans; [exact Hn|exact Hsl].
  - intros j Hj Hne. rewrite Ho7 by done. unfold s6. by rewrite task_metrics, Ho5, Ht4.
Qed.

(** ** Operations keep the invariant *)

(** The interrupt flag and the IPC state are those of before. *)
Record outside (s s' : Sched) : Prop := {
  out_irq : irq_enabled s' = irq_enabled s;
  out_chan : ipc_channels s' = ipc_channels s;
  out_sendw : ipc_send_waiters s' = ipc_send_waiters s;
  out_recvw : ipc_recv_waiters s' = ipc_recv_waiters s;
  out_init : ipc_initialized s' = ipc_initialized s
}.

#[export] Instance outside_preorder : PreOrder outside.
Proof.
  split.
  - intros s. by split.
  - intros s1 s2 s3 [] []. split; by etrans.
Qed.

Lemma frame_outside (s s' : Sched) : frame s s' -> outside s s'.
Proof. intros []. by split. Qed.

(** A critical section whose body is a [frame] step stays outside the rest. *)
Lemma release_outside (s s1 : Sched) : frame (enter s) s1 ->
  outside s (irq_lock_release (irq_enabled s) s1) /\
  locked (irq_lock_release (irq_enabled s) s1) = false /\
  sys (irq_lock_release (irq_enabled s) s1) = sys s1 /\
  scheduler_ticks (irq_lock_release (irq_enabled s) s1) = scheduler_ticks s.
Proof. intros []. split_and!; done. Qed.

(** The condition on which a task gives up the processor: it is the only
    [RUNNING] one, if it still is. *)
Record leaving (s : Sched) : Prop := {
  lv_wf : sched_wf s;
  lv_unlocked : locked s = false;
  lv_single : running_only (fun i => i = os_current_task s) s
}.

Lemma ok_leaving (s : Sched) : sched_ok s -> leaving s.
Proof. by intros []. Qed.

Lemma switched_ok b (s s1 : Sched) new : sched_wf b -> running_only (fun _ => False) b ->
  0 <= new < os_task_count b -> switched b s1 new ->
  sched_wf s1 /\ running_only (fun i => i = new) s1 /\ os_current_task s1 = new.
Proof.
  intros [L C _] Hr Hn [F Hst _ _ Ho]. split_and!.
  - eapply frame_wf; [exact F|]. by split.
  - intros i Hi Hs. destruct (decide (i = new)) as [|Hne]; [done|].
    exfalso. apply (Hr i Hi). specialize (Ho i Hi Hne). apply core_state in Ho. congruence.
  - by destruct F.
Qed.

Lemma select_and_switch_ok force (s : Sched) : leaving s ->
  force = true \/ state (task s (os_current_task s)) <> TASK_STATE_RUNNING ->
  exists s1, let s' := irq_lock_release (irq_enabled s) s1 in
    let b := before_pick force (enter s) in
    let new := os_current_task s' in
    scheduler_select_and_switch force s =
      Some (s', if negb (new =? os_current_task s) then Some (os_current_task s, new) else None) /\
    picked b (os_current_task s) new /\ switched b s1 new /\
    sched_ok s' /\ outside s s' /\ scheduler_ticks s' = scheduler_ticks s /\
    os_task_count s' = os_task_count s.
Proof.
  intros [W U R] Hf.
  pose proof (wf_enter s W) as We.
  destruct (before_pick_ok force (enter s) We R Hf) as [F Hno].
  destruct (select_locked_ok force (enter s) We F) as (new & s1 & Hsel & Hp & Hsw).
  change (os_current_task (enter s)) with (os_current_task s) in *.
  destruct (switched_ok _ (enter s) s1 new (frame_wf _ _ F We) Hno (pk_range _ _ _ Hp) Hsw)
    as (W1 & R1 & Hc).
  assert (frame (enter s) (s1 <| sys ::= fun t => t <| os_current_task := os_current_task s |> |>)) as F1.
  { destruct Hsw as [[] _ _ _ _], F. split; simpl in *; congruence. }
  destruct F1. exists s1. cbv zeta.
  assert (os_current_task (irq_lock_release (irq_enabled s) s1) = new) as Hcur by done.
  rewrite Hcur. split; [|split_and!; try done].
  - unfold scheduler_select_and_switch. by rewrite with_lock_ok, Hsel by done.
  - split; [by apply (wf_sys s1)|done|rewrite Hcur; apply Hsw|].
    intros i Hi Hs. rewrite Hcur. by apply R1.
Qed.

(** What an operation guarantees when it returns or switches away. *)
Record kept (s s' : Sched) : Prop := {
  kp_ok : sched_ok s';
  kp_outside : outside s s';
  kp_ticks : scheduler_ticks s' = scheduler_ticks s;
  kp_count : os_task_count s' = os_task_count s
}.

Lemma kept_refl (s : Sched) : sched_ok s -> kept s s.
Proof. by split. Qed.

Lemma kept_trans (s1 s2 s3 : Sched) : kept s1 s2 -> kept s2 s3 -> kept s1 s3.
Proof. intros [] []. split; [done|by etrans|congruence|congruence]. Qed.

Lemma task_yield_ok (s : Sched) : sched_ok s ->
  exists s' sw, task_yield s = Some (s', sw) /\ kept s s'.
Proof.
  intros O. destruct (select_and_switch_ok true s (ok_leaving s O) (or_introl eq_refl))
    as (s1 & Heq & _ & _ & ? & ? & ? & ?). eexists _, _. split; [exact Heq|]. by split.
Qed.

(** A critical section that leaves no task [RUNNING], then a switch: the task
    that gets the processor is chosen from the table [s1] of the section, with
    the sleepers whose time has come. *)
Record gave_way (s s1 s' : Sched) : Prop := {
  gw_kept : kept s s';
  gw_picked : picked (scheduler_wake_sleepers_locked s1) (os_current_task s) (os_current_task s');
  gw_others j : 0 <= j < MAX_TASKS -> j <> os_current_task s' ->
    core (task s' j) = core (task (scheduler_wake_sleepers_locked s1) j)
}.

Lemma wake_sleepers_unlock flags (s : Sched) : frame (enter s) s ->
  scheduler_wake_sleepers_locked (enter (irq_lock_release flags s)) = scheduler_wake_sleepers_locked s.
Proof.
  intros []. f_equal. destruct s; simpl in *. unfold enter, irq_lock_release, irq_restore, update_field.
  simpl. congruence.
Qed.

Lemma switch_away_full (s s1 : Sched) : sched_wf s ->
  frame (enter s) s1 -> running_only (fun _ => False) s1 ->
  exists s' sw, scheduler_select_and_switch false (irq_lock_release (irq_enabled s) s1) = Some (s', sw) /\
    gave_way s s1 s'.
Proof.
  intros W F Hno. pose proof (frame_wf _ _ F (wf_enter s W)) as W1.
  destruct (release_outside s s1 F) as (O & U & Hsys & Ht).
  set (r := irq_lock_release _ s1) in *.
  assert (leaving r) as L.
  { split; [by apply (wf_sys s1)|done|]. intros i Hi Hs. by destruct (Hno i Hi). }
  pose proof (wf_cur s W). pose proof (wf_count s W).
  assert (os_current_task r = os_current_task s) as Hc by (destruct F; by rewrite Hsys).
  destruct (select_and_switch_ok false r L) as (s2 & Heq & Hp & Hsw & Hok & Ho & Ht2 & Hcnt).
  { right. intros Hs. apply (Hno (os_current_task r)); [rewrite Hc; lia|done]. }
  assert (before_pick false (enter r) = scheduler_wake_sleepers_locked s1) as Hb.
  { unfold before_pick. simpl. apply wake_sleepers_unlock. destruct F. split; try done; simpl; congruence. }
  rewrite Hb, Hc in Hp. rewrite Hb in Hsw.
  eexists _, _. split; [exact Heq|]. split; [split| |].
  - done.
  - by etrans.
  - congruence.
  - etrans; [exact Hcnt|]. rewrite Hsys. apply F.
  - done.
  - apply Hsw.
Qed.

Lemma switch_away_ok (s s1 : Sched) : sched_wf s ->
  frame (enter s) s1 -> running_only (fun _ => False) s1 ->
  exists s' sw, scheduler_select_and_switch false (irq_lock_release (irq_enabled s) s1) = Some (s', sw) /\
    kept s s'.
Proof.
  intros W F Hno. destruct (switch_away_full s s1 W F Hno) as (s' & sw & H & [K _ _]). eauto.
Qed.

(** Storing a state that is not [RUNNING] in the current block. *)
Lemma leave_current f (s : Sched) : sched_ok s ->
  (forall t, state (f t) <> TASK_STATE_RUNNING) ->
  running_only (fun _ => False) (upd (os_current_task (enter s)) f (enter s)).
Proof.
  intros [W U C R] Hf. change (os_current_task (enter s)) with (os_current_task s). pose proof (wf_enter s W) as We.
  pose proof (wf_cur s W). pose proof (wf_count s W).
  intros i Hi. rewrite task_upd_wf by (done || lia).
  destruct (Z.eqb_spec (os_current_task s) i) as [|Hne]; [intros Hs; by apply Hf in Hs|].
  intros Hs. by apply Hne, eq_sym, R.
Qed.

(** A store that does not make a block [RUNNING], and a trace entry. *)
Lemma running_upd p i f (s : Sched) : sched_wf s -> 0 <= i < MAX_TASKS ->
  (forall t, state (f t) = TASK_STATE_RUNNING -> state t = TASK_STATE_RUNNING) ->
  running_only p s -> running_only p (upd i f s).
Proof.
  intros W Hi Hf Hp j Hj. rewrite task_upd_wf by (done || lia).
  destruct (Z.eqb_spec i j) as [->|]; [intros Hs; by apply Hp, Hf|by apply Hp].
Qed.

Lemma running_trace p i e a (s : Sched) : running_only p s -> running_only p (trace i e a s).
Proof. intros Hp j Hj. rewrite (core_state _ _ (task_trace_core _ _ _ _ j)). by apply Hp. Qed.

#[export] Hint Resolve running_upd running_trace : sched.

Lemma task_sleep_ok n (s : Sched) : sched_ok s ->
  exists s' sw, task_sleep n s = Some (s', sw) /\ kept s s'.
Proof.
  intros O. unfold task_sleep. case_if; [by apply task_yield_ok|].
  erewrite with_lock_bind; [|apply O|reflexivity]. cbv beta iota.
  apply switch_away_ok; [apply O|..].
  - etrans; [apply frame_upd|apply frame_trace].
  - by apply running_trace, leave_current.
Qed.

Lemma task_sleep_timeout_ok n m (s : Sched) : sched_ok s ->
  exists s' b, task_sleep_timeout n m s = Some (s', b) /\ kept s s'.
Proof.
  intros O. unfold task_sleep_timeout. case_if.
  { destruct (task_yield_ok s O) as (s' & sw & -> & K). by eexists _, _. }
  case_if; [by eexists _, _; split; [|apply kept_refl]|].
  erewrite with_lock_bind; [|apply O|reflexivity]. cbv beta iota.
  set (s1 := upd (os_current_task (enter s)) _ _).
  set (s2 := cap_wake_tick _ _ s1).
  assert (running_only (fun _ => False) s1) as R1 by by apply leave_current.
  assert (frame (enter s) s1) as F1 by apply frame_upd.
  pose proof (frame_wf _ _ F1 (wf_enter s (ok_wf s O))) as W1.
  assert (frame s1 s2 /\ running_only (fun _ => False) s2) as [F2 R2].
  { unfold s2, cap_wake_tick. case_if; [|done]. split; [apply frame_upd|].
    apply running_upd; [done| |done|done].
    pose proof (wf_cur s (ok_wf s O)). pose proof (wf_count s (ok_wf s O)).
    change (os_current_task (enter s)) with (os_current_task s). lia. }
  set (s3 := trace _ _ _ s2).
  destruct (switch_away_ok s s3) as (s' & sw & Hs & K); [apply O| |by apply running_trace|].
  { etrans; [exact F1|]. etrans; [exact F2|apply frame_trace]. }
  rewrite Hs. by eexists _, _.
Qed.

(** ** Ending a task *)

Lemma mark_terminated_ok id code (s : Sched) : sched_wf s -> 0 <= id < MAX_TASKS ->
  frame s (mark_terminated id code s) /\
  forall j, 0 <= j -> task (mark_terminated id code s) j =
    if id =? j then terminated_block code (task s id) else task s j.
Proof.
  intros W Hi. split; [apply frame_upd|]. intros j Hj.
  unfold mark_terminated. by rewrite task_upd_wf.
Qed.

(** The parent waits for this child, or for any. *)
Definition waits_for (s : Sched) (parent id : Z) : bool :=
  (0 <=? parent) && (parent <? os_task_count s)
  && (state (task s parent) =? TASK_STATE_BLOCKED)
  && (wait_reason (task s parent) =? TASK_WAIT_CHILD)
  && ((wait_target (task s parent) <? 0) || (wait_target (task s parent) =? id)).

Lemma waits_for_blocked (s : Sched) parent id :
  waits_for s parent id = true -> state (task s parent) = TASK_STATE_BLOCKED.
Proof. unfold waits_for. intros. by bsimpl. Qed.

Definition child_done (t : TCB) : TCB :=
  t <| state := TASK_STATE_READY |> <| wake_tick := 0 |>
    <| wait_reason := TASK_WAIT_NONE |> <| wait_target := -1 |>.

Lemma wake_parent_ok parent id (s : Sched) : sched_wf s ->
  frame s (wake_parent parent id s) /\
  forall j, 0 <= j -> task (wake_parent parent id s) j =
    if waits_for s parent id && (parent =? j) then child_done (task s j) else task s j.
Proof.
  intros W. unfold wake_parent, waits_for. case_if; simpl; [|done].
  case_if; simpl; [|done]. bsimpl. pose proof (wf_count s W).
  apply Z.leb_le in H. split; [apply frame_upd|]. intros j Hj.
  rewrite task_upd_wf by (done || lia). by destruct (Z.eqb_spec parent j) as [->|].
Qed.

Lemma running_terminated id code (s : Sched) : sched_wf s -> 0 <= id < MAX_TASKS ->
  running_only (fun i => i = id) s -> running_only (fun _ => False) (mark_terminated id code s).
Proof.
  intros W Hid Hr i Hi. destruct (mark_terminated_ok id code s W Hid) as [_ ->]; [|lia].
  destruct (Z.eqb_spec id i) as [|Hne]; [done|]. intros Hs. by apply Hne, eq_sym, Hr.
Qed.

Lemma running_wake_parent p parent id (s : Sched) : sched_wf s ->
  running_only p s -> running_only p (wake_parent parent id s).
Proof.
  intros W Hr i Hi. destruct (wake_parent_ok parent id s W) as [_ ->]; [|lia].
  case_if; [done|]. by apply Hr.
Qed.

Section EndingLemmas.
Context {X : Type} `{TR : TaskResources X}.

Lemma release_resources_frame id pd x (s : Sched) : frame s (snd (release_resources id pd x s)).
Proof. unfold release_resources. case_if; [apply frame_upd|done]. Qed.

Lemma running_release p id pd x (s : Sched) : sched_wf s -> 0 <= id < MAX_TASKS ->
  running_only p s -> running_only p (snd (release_resources id pd x s)).
Proof. intros. unfold release_resources. case_if; [by apply running_upd|done]. Qed.

(** Resources are released between the critical section and the switch. *)
Lemma release_resources_unlock id pd x flags (s : Sched) :
  release_resources id pd x (irq_lock_release flags s) =
  let '(x', s') := release_resources id pd x s in (x', irq_lock_release flags s').
Proof. unfold release_resources. by case_if. Qed.

(** The task has an address space of its own. *)
Definition owns_space (t : TCB) : bool :=
  negb (page_dir t =? 0) && negb (page_dir t =? page_directory (X := X)).

(** The block of an ended task, and what its end does to the rest of the
    kernel. *)
Definition ended (code : Z) (t : TCB) : TCB :=
  if owns_space t then (terminated_block code t) <| page_dir := 0 |> else terminated_block code t.

Definition ended_resources (id : Z) (t : TCB) (x : X) : X :=
  let x1 := vfs_close_all_for_task id x in
  if owns_space t then destroy_user_address_space (page_dir t) x1 else x1.

(** The table after the end of task [id]: its block, the parent if it was
    waiting, and nothing else. *)
Definition after_end (s : Sched) (id code j : Z) : TCB :=
  let parent := parent_pid (task s id) in
  if id =? j then ended code (task s j)
  else if waits_for s parent id && (parent =? j) then child_done (task s j)
  else task s j.

Definition end_steps (id code : Z) (x : X) (s s1 : Sched) : X * Sched :=
  release_resources id (page_dir (task s id)) x
    (wake_parent (parent_pid (task s id)) id (mark_terminated id code s1)).

Lemma core_waits_for (s s1 : Sched) parent id : sched_wf s -> frame s s1 ->
  (forall j, 0 <= j -> core (task s1 j) = core (task s j)) ->
  waits_for s1 parent id = waits_for s parent id.
Proof.
  intros W F Hc. unfold waits_for. rewrite (fr_count _ _ F).
  destruct (Z.leb_spec 0 parent) as [Hp|]; [|done].
  pose proof (Hc parent Hp) as H.
  rewrite (core_state _ _ H). pose proof (f_equal wait_reason H) as H1.
  pose proof (f_equal wait_target H) as H2. change (wait_reason (task s1 parent) = wait_reason (task s parent)) in H1.
  change (wait_target (task s1 parent) = wait_target (task s parent)) in H2. by rewrite H1, H2.
Qed.

Lemma waits_for_terminated (s : Sched) parent id code : sched_wf s -> 0 <= id < MAX_TASKS ->
  waits_for (mark_terminated id code s) parent id = negb (parent =? id) && waits_for s parent id.
Proof.
  intros W Hid. destruct (mark_terminated_ok id code s W Hid) as [F Ht]. unfold waits_for.
  rewrite (fr_count _ _ F). destruct (Z.leb_spec 0 parent) as [Hp|]; [|by destruct (negb _)].
  rewrite Ht, (Z.eqb_sym id parent) by done. destruct (Z.eqb_spec parent id) as [->|]; [|done].
  simpl. by rewrite andb_false_r.
Qed.

Lemma core_page_dir t t' pd : core t = core t' ->
  core (t <| page_dir := pd |>) = core (t' <| page_dir := pd |>).
Proof.
  intros Hc. transitivity ((core t) <| page_dir := pd |>); [done|]. by rewrite Hc.
Qed.
Lemma core_terminated code t t' : core t = core t' ->
  core (terminated_block code t) = core (terminated_block code t').
Proof.
  intros Hc. transitivity (terminated_block code (core t)); [done|]. by rewrite Hc.
Qed.
Lemma core_child_done t t' : core t = core t' -> core (child_done t) = core (child_done t').
Proof. intros Hc. transitivity (child_done (core t)); [done|]. by rewrite Hc. Qed.

Lemma end_steps_ok id code x (s s1 : Sched) : sched_wf s -> frame s s1 ->
  (forall j, 0 <= j -> core (task s1 j) = core (task s j)) ->
  0 <= id < MAX_TASKS ->
  fst (end_steps id code x s s1) = ended_resources id (task s id) x /\
  frame s1 (snd (end_steps id code x s s1)) /\
  forall j, 0 <= j -> core (task (snd (end_steps id code x s s1)) j) = core (after_end s id code j).
Proof.
  intros W F Hc Hid. pose proof (frame_wf _ _ F W) as W1.
  destruct (mark_terminated_ok id code s1 W1 Hid) as [F2 T2].
  pose proof (frame_wf _ _ F2 W1) as W2. unfold end_steps.
  destruct (wake_parent_ok (parent_pid (task s id)) id _ W2) as [F3 T3].
  rewrite waits_for_terminated, (core_waits_for s s1) in T3 by done.
  set (s3 := wake_parent _ _ _) in *. pose proof (frame_wf _ _ F3 W2) as W3.
  split; [unfold release_resources, ended_resources, owns_space; by case_if|].
  split; [etrans; [exact F2|]; etrans; [exact F3|]; apply release_resources_frame|].
  intros j Hj.
  assert (core (task s3 j) =
      core (if id =? j then terminated_block code (task s j) else after_end s id code j)) as H3.
  { rewrite T3, T2 by done. unfold after_end.
    destruct (Z.eqb_spec id j) as [<-|Hne].
    - assert (negb (parent_pid (task s id) =? id) && waits_for s (parent_pid (task s id)) id
              && (parent_pid (task s id) =? id) = false) as ->
        by (destruct (parent_pid (task s id) =? id), (waits_for s (parent_pid (task s id)) id); done).
      by apply core_terminated, Hc.
    - destruct (Z.eqb_spec (parent_pid (task s id)) id) as [Hpi|Hpi].
      + destruct (Z.eqb_spec (parent_pid (task s id)) j); [lia|].
        rewrite !andb_false_r. by apply Hc.
      + simpl. case_if; [|by apply Hc]. by apply core_child_done, Hc. }
  unfold release_resources. fold (owns_space (task s id)).
  unfold after_end, ended in *. case_if; simpl; [rewrite task_upd_wf by done|].
  - destruct (Z.eqb_spec id j) as [<-|Hne]; [|done].
    rewrite E. by apply core_page_dir.
  - rewrite H3. destruct (Z.eqb_spec id j) as [<-|Hne]; [by rewrite E|done].
Qed.

Lemma end_steps_running id code x (s s1 : Sched) : sched_wf s1 -> 0 <= id < MAX_TASKS ->
  running_only (fun i => i = id) s1 ->
  running_only (fun _ => False) (snd (end_steps id code x s s1)).
Proof.
  intros W Hid R. destruct (mark_terminated_ok id code s1 W Hid) as [F _].
  pose proof (frame_wf _ _ F W) as W2.
  destruct (wake_parent_ok (parent_pid (task s id)) id _ W2) as [F3 _].
  apply running_release; [by eapply frame_wf|done|]. apply running_wake_parent; [done|].
  by apply running_terminated.
Qed.

(** The current task ends and gives way; [s4] is the table it leaves. *)
Lemma task_exit_full code x (s : Sched) : sched_ok s ->
  let cur := os_current_task s in
  exists s4 s' sw,
    task_exit_with_code code x s = Some (ended_resources cur (task s cur) x, s', sw) /\
    gave_way s s4 s' /\ frame (enter s) s4 /\
    forall j, 0 <= j -> core (task s4 j) = core (after_end s cur code j).
Proof.
  intros O. pose proof (ok_wf s O) as W. pose proof (wf_enter s W) as We. intros cur.
  unfold task_exit_with_code. erewrite with_lock_bind; [|apply O|reflexivity]. cbv beta iota zeta.
  change (os_current_task (enter s)) with cur.
  match goal with |- context [mark_terminated cur code ?t] => set (s1 := t) end.
  rewrite release_resources_unlock.
  change (release_resources _ _ _ _) with (end_steps cur code x (enter s) s1).
  assert (0 <= cur < MAX_TASKS) as Hcur by (destruct W; unfold cur; lia).
  assert (frame (enter s) s1 /\ (forall j, 0 <= j -> core (task s1 j) = core (task (enter s) j)) /\
          running_only (fun i => i = cur) s1) as (F1 & C1 & R1).
  { unfold s1. case_if; [|split_and!; [done|done|apply O]].
    split_and!; [apply frame_trace| |apply running_trace, O].
    intros j _. apply task_trace_core. }
  destruct (end_steps_ok cur code x (enter s) s1 We F1 C1 Hcur) as (Hx & F4 & T4).
  pose proof (end_steps_running cur code x (enter s) s1 (frame_wf _ _ F1 We) Hcur R1) as R4.
  destruct (end_steps cur code x (enter s) s1) as [x2 s4]. simpl in Hx, F4, T4, R4.
  assert (frame (enter s) s4) as F by by etrans.
  destruct (switch_away_full s s4 W F R4) as (s' & sw & Hs & G).
  exists s4, s', sw. rewrite Hs, Hx. by split_and!.
Qed.

(** Another task is killed: no switch, and the current task goes on. *)
Lemma task_kill_other id code x (s : Sched) : sched_ok s ->
  0 <= id < os_task_count s -> id <> os_current_task s ->
  state (task s id) <> TASK_STATE_TERMINATED ->
  exists s', task_kill id code x s = Some (ended_resources id (task s id) x, s', 1, None) /\
    kept s s' /\ os_current_task s' = os_current_task s /\
    forall j, 0 <= j -> core (task s' j) = core (after_end s id code j).
Proof.
  intros O Hid Hne Hst. pose proof (ok_wf s O) as W. pose proof (wf_enter s W) as We.
  pose proof (wf_count s W).
  unfold task_kill. destruct (Z.ltb_spec id 0); [lia|].
  destruct (Z.leb_spec (os_task_count s) id); [lia|]. simpl.
  destruct (Z.eqb_spec id (os_current_task s)); [done|].
  erewrite with_lock_bind; [|apply O|].
  2: { cbv beta. change (task (enter s) id) with (task s id).
       rewrite (proj2 (Z.eqb_neq _ _) Hst). reflexivity. }
  cbv beta iota zeta. rewrite release_resources_unlock.
  change (release_resources _ _ _ _) with (end_steps id code x (enter s) (enter s)).
  destruct (end_steps_ok id code x (enter s) (enter s) We ltac:(done) ltac:(done) ltac:(lia))
    as (Hx & F & T).
  assert (running_only (fun i => i = os_current_task s) (snd (end_steps id code x (enter s) (enter s)))) as R.
  { apply running_release; [|lia|].
    - eapply frame_wf; [|exact We]. etrans; [apply (mark_terminated_ok id code (enter s) We); lia|].
      apply wake_parent_ok. eapply frame_wf; [apply frame_upd|done].
    - apply running_wake_parent; [eapply frame_wf; [apply frame_upd|done]|].
      apply running_upd; [done|lia|done|apply O]. }
  destruct (end_steps id code x (enter s) (enter s)) as [x2 s4]. simpl in Hx, F, T, R.
  destruct (release_outside s s4 F) as (Out & U & Hsys & Ht). rewrite Hx.
  set (r := irq_lock_release (irq_enabled s) s4) in *.
  assert (os_current_task r = os_current_task s) as Hc by (rewrite Hsys; apply F).
  assert (forall j, task r j = task s4 j) as Htask by (intros; unfold task; by rewrite Hsys).
  exists r. split; [done|]. split; [split|split].
  - split; [apply (wf_sys s4); [done|by eapply frame_wf]|done| |].
    + rewrite Hc, Htask. rewrite (core_state _ _ (T (os_current_task s) ltac:(destruct W; lia))). unfold after_end.
      destruct (Z.eqb_spec id (os_current_task s)); [done|].
      case_if; [|apply O]. apply andb_true_iff in E as [Ew Ep%Z.eqb_eq].
      apply waits_for_blocked in Ew. rewrite Ep in Ew.
      pose proof (eq_trans (eq_sym (ok_current s O)) Ew). done.
    + intros i Hi. rewrite Htask, Hc. by apply R.
  - done.
  - done.
  - rewrite Hsys. apply F.
  - done.
  - intros j Hj. rewrite Htask. by apply T.
Qed.
End EndingLemmas.

(** ** The timer tick *)

(** A READY task's wait counter, which stops at its greatest value. *)
Definition waited_tick (t : TCB) : TCB :=
  if sched_wait_ticks t <? 0xFFFFFFFF then t <| sched_wait_ticks ::= fun n => n +u 1 |> else t.

Lemma tick_wait_ok current n (s : Sched) : sched_wf s -> (n < Z.to_nat MAX_TASKS)%nat ->
  frame s (tick_wait current n s) /\
  forall j, 0 <= j -> task (tick_wait current n s) j =
    if (Z.of_nat n =? j) && negb (j =? current) && (state (task s j) =? TASK_STATE_READY)
    then waited_tick (task s j) else task s j.
Proof.
  intros W Hn. unfold tick_wait.
  destruct (Z.eqb_spec (Z.of_nat n) current) as [Hc|Hc].
  { split; [done|]. intros j Hj. destruct (Z.eqb_spec (Z.of_nat n) j) as [Hj'|]; [|done].
    destruct (Z.eqb_spec j current); [done|lia]. }
  destruct (state (task s (Z.of_nat n)) =? TASK_STATE_READY) eqn:Hst.
  2: { split; [done|]. intros j Hj. destruct (Z.eqb_spec (Z.of_nat n) j) as [Hj'|]; [|done].
       rewrite <- Hj', Hst. by rewrite andb_false_r. }
  set (s1 := if _ <? _ then upd _ _ s else s).
  assert (frame s s1 /\ forall j, 0 <= j ->
    task s1 j = if Z.of_nat n =? j then waited_tick (task s j) else task s j) as [F T].
  { unfold s1, waited_tick. case_if.
    - split; [apply frame_upd|]. intros j Hj. rewrite task_upd_wf by (done || lia).
      destruct (Z.eqb_spec (Z.of_nat n) j) as [<-|]; [by rewrite E|done].
    - split; [done|]. intros j Hj.
      destruct (Z.eqb_spec (Z.of_nat n) j) as [<-|]; [by rewrite E|done]. }
  split; [case_if; [by etrans; [|apply frame_metrics]|done]|].
  intros j Hj.
  assert (task (if (max_wait_ticks (sched_metrics s1)).[scheduler_prio_band (priority (task s (Z.of_nat n)))]
                   <? sched_wait_ticks (task s1 (Z.of_nat n))
                then upd_metrics (fun m => m <| max_wait_ticks ::=
                   <[Z.to_nat (scheduler_prio_band (priority (task s (Z.of_nat n)))) :=
                       sched_wait_ticks (task s1 (Z.of_nat n))]> |>) s1
                else s1) j = task s1 j) as -> by by case_if.
  rewrite T by done. destruct (Z.eqb_spec (Z.of_nat n) j) as [Hj'|]; [|done].
  rewrite <- Hj', Hst. by destruct (Z.eqb_spec (Z.of_nat n) current).
Qed.

Lemma tick_waits_ok current (s : Sched) : sched_wf s ->
  let s' := for_each (tick_wait current) 0 (Z.to_nat (os_task_count s)) s in
  frame s s' /\
  forall j, 0 <= j -> task s' j =
    if (j <? os_task_count s) && negb (j =? current) && (state (task s j) =? TASK_STATE_READY)
    then waited_tick (task s j) else task s j.
Proof.
  intros W. pose proof (wf_count s W).
  pose (I := fun (n : nat) (t : Sched) => frame s t /\ forall j, 0 <= j -> task t j =
    if (j <? Z.of_nat n) && negb (j =? current) && (state (task s j) =? TASK_STATE_READY)
    then waited_tick (task s j) else task s j).
  assert (I (0 + Z.to_nat (os_task_count s))%nat
            (for_each (tick_wait current) 0 (Z.to_nat (os_task_count s)) s)) as [F T].
  { apply (for_each_inv (tick_wait current) I).
    - split; [done|]. intros j Hj. by destruct (Z.ltb_spec j (Z.of_nat 0)); [lia|].
    - intros n t Hn [F T].
      destruct (tick_wait_ok current n t) as [F' T']; [by eapply frame_wf|lia|].
      split; [by etrans|]. intros j Hj. rewrite T', T by done.
      destruct (Z.eqb_spec (Z.of_nat n) j) as [<-|Hne]; simpl.
      + destruct (Z.ltb_spec (Z.of_nat n) (Z.of_nat n)); [lia|].
        by destruct (Z.ltb_spec (Z.of_nat n) (Z.of_nat (S n))); [|lia].
      + by destruct (Z.ltb_spec j (Z.of_nat n)), (Z.ltb_spec j (Z.of_nat (S n))); try lia. }
  split; [done|]. intros j Hj. rewrite T by done. by rewrite Nat.add_0_l, Z2Nat.id by lia.
Qed.

(** What the rank of a task depends on. *)
Definition rank_eq (t t' : TCB) : Prop :=
  state t = state t' /\ priority t = priority t' /\
  sched_wait_ticks t = sched_wait_ticks t' /\ sched_wake_boost t = sched_wake_boost t'.

Lemma eff_rank (s s' : Sched) j : os_task_count s' = os_task_count s ->
  rank_eq (task s' j) (task s j) -> eff s' j = eff s j.
Proof.
  intros Hc (_ & Hp & Hw & Hb). unfold scheduler_effective_priority_locked.
  by rewrite Hc, Hp, Hw, Hb.
Qed.

Lemma inversion_rank current (s s' : Sched) : os_task_count s' = os_task_count s ->
  0 <= current -> (forall j, 0 <= j -> rank_eq (task s' j) (task s j)) ->
  inversion current s' = inversion current s.
Proof.
  intros Hc Hcur H. unfold inversion. rewrite Hc.
  generalize (seq 0 (Z.to_nat (os_task_count s))). intros l.
  induction l as [|n l IH]; simpl; [done|]. rewrite IH. f_equal.
  rewrite !(eff_rank s s') by (done || apply H; lia).
  destruct (H (Z.of_nat n)) as [-> _]; [lia|done].
Qed.

(** The slice after one tick, before a new one is granted. *)
Definition less_one (slice : Z) : Z := if 0 <? slice then slice -u 1 else slice.

(** The running task's block before and after the second section. *)
Definition ran (t : TCB) : TCB :=
  t <| runtime_ticks ::= fun n => n +u 1 |> <| time_slice := less_one (time_slice t) |>.
Definition resliced (outranked : bool) (t : TCB) : TCB :=
  t <| time_slice := if time_slice t =? 0 then time_slice_for_priority (priority t)
                     else if outranked && (1 <? time_slice t) then 1 else time_slice t |>.

Lemma tick_running_ok current (s : Sched) : sched_wf s -> 0 <= current < MAX_TASKS ->
  let slice_over := less_one (time_slice (task s current)) =? 0 in
  exists s', tick_running current s = (s', (current, slice_over || inversion current s, slice_over)) /\
    frame s s' /\
    forall j, 0 <= j -> task s' j = if current =? j then ran (task s j) else task s j.
Proof.
  intros W Hc. unfold tick_running.
  set (s1 := upd_metrics _ s). assert (sched_wf s1) as W1 by by apply (wf_sys s).
  set (s2 := upd current _ s1). assert (frame s1 s2) as F2 by apply frame_upd.
  pose proof (frame_wf _ _ F2 W1) as W2.
  assert (task s2 current = (task s current) <| runtime_ticks ::= fun n => n +u 1 |>) as T2c.
  { unfold s2. by rewrite task_upd_wf, Z.eqb_refl by (done || lia). }
  set (s3 := if _ <? _ then upd _ _ s2 else s2).
  assert (frame s2 s3 /\ forall j, 0 <= j ->
    task s3 j = if current =? j then ran (task s j) else task s j) as [F3 T3].
  { assert (forall j, 0 <= j -> current <> j -> task s2 j = task s j) as T2.
    { intros j Hj Hne. unfold s2. rewrite task_upd_wf by (done || lia).
      by destruct (Z.eqb_spec current j). }
    unfold s3. rewrite T2c. simpl. case_if.
    - split; [apply frame_upd|]. intros j Hj. rewrite task_upd_wf by (done || lia).
      destruct (Z.eqb_spec current j) as [<-|Hne]; [|by apply T2].
      rewrite T2c. unfold ran, less_one. by rewrite E.
    - split; [done|]. intros j Hj. destruct (Z.eqb_spec current j) as [<-|Hne]; [|by apply T2].
      rewrite T2c. unfold ran, less_one. by rewrite E. }
  assert (inversion current s3 = inversion current s) as Hinv.
  { apply inversion_rank; [by rewrite (fr_count _ _ F3)|lia|]. intros j Hj. rewrite T3 by done.
    by destruct (current =? j). }
  rewrite Hinv, T3, Z.eqb_refl by lia.
  eexists. split; [reflexivity|]. split.
  - case_if; [etrans; [|apply frame_metrics]|]; (etrans; [|exact F3]; etrans; [apply frame_metrics|exact F2]).
  - intros j Hj. rewrite <- T3 by done. by case_if.
Qed.

Lemma tick_slice_ok current over inv (s : Sched) : sched_wf s -> 0 <= current < MAX_TASKS ->
  state (task s current) = TASK_STATE_RUNNING ->
  over = (time_slice (task s current) =? 0) -> over || inv = true ->
  frame s (fst (tick_slice current over s)) /\
  forall j, 0 <= j -> task (fst (tick_slice current over s)) j =
    if current =? j then resliced inv (task s j) else task s j.
Proof.
  intros W Hc Hst Ho Hi. unfold tick_slice. rewrite Hst, Z.eqb_refl. simpl. rewrite Ho.
  destruct (time_slice (task s current) =? 0) eqn:E.
  { split; [apply frame_upd|]. intros j Hj. rewrite task_upd_wf by (done || lia).
    destruct (Z.eqb_spec current j) as [<-|]; [|done]. unfold resliced. by rewrite E. }
  subst over. simpl in Hi. subst inv. case_if.
  - split; [apply frame_upd|]. intros j Hj. rewrite task_upd_wf by (done || lia).
    destruct (Z.eqb_spec current j) as [<-|]; [|done]. unfold resliced. by rewrite E, E0.
  - split; [done|]. intros j Hj. destruct (Z.eqb_spec current j) as [<-|]; [|done].
    unfold resliced. rewrite E, E0. by destruct (task s current).
Qed.

Lemma resliced_rank b t : rank_eq (resliced b t) t.
Proof. done. Qed.

Lemma tick_finish_ok current over inv (r : Sched) : sched_wf r -> 0 <= current < MAX_TASKS ->
  locked r = false -> state (task r current) = TASK_STATE_RUNNING ->
  over = (time_slice (task r current) =? 0) ->
  exists s', tick_finish current (over || inv) over r = Some s' /\ frame r s' /\
    forall j, 0 <= j -> core (task s' j) =
      core (if current =? j then resliced inv (task r j) else task r j).
Proof.
  intros W Hc Hl Hst Ho. unfold tick_finish. destruct (over || inv) eqn:Hpre.
  - destruct (tick_slice_ok current over inv (enter r)) as [F T]; [by apply wf_enter|done..|].
    rewrite with_lock_ok by done. eexists. split; [reflexivity|].
    split; [destruct F; by split|]. intros j Hj. specialize (T j Hj).
    change (task (enter r) j) with (task r j) in T. rewrite <- T. done.
  - exists r. split; [done|]. split; [done|]. intros j Hj.
    apply orb_false_iff in Hpre as [Hover ->].
    destruct (Z.eqb_spec current j) as [<-|]; [|done]. unfold resliced.
    by rewrite <- Ho, Hover.
Qed.

(** The block of a task that is not running after one tick at time [now]. *)
Definition ticked (now : Z) (t : TCB) : TCB :=
  let t1 := if due now t then woken t else t in
  if state t1 =? TASK_STATE_READY then waited_tick t1 else t1.

Lemma ticked_state now t : state (ticked now t) = TASK_STATE_RUNNING -> state t = TASK_STATE_RUNNING.
Proof.
  unfold ticked, waited_tick. destruct (due now t); simpl; [by case_if|].
  case_if; [by case_if|done].
Qed.

Lemma core_rank t t' : core t = core t' -> rank_eq t t'.
Proof.
  intros H. split_and!.
  - exact (f_equal state H).
  - exact (f_equal priority H).
  - exact (f_equal sched_wait_ticks H).
  - exact (f_equal sched_wake_boost H).
Qed.

Lemma core_waited t t' : core t = core t' -> core (waited_tick t) = core (waited_tick t').
Proof.
  intros H. unfold waited_tick. destruct (core_rank _ _ H) as (_ & _ & -> & _).
  case_if; [|done].
  transitivity ((core t) <| sched_wait_ticks ::= fun n => n +u 1 |>); [done|]. by rewrite H.
Qed.
Lemma core_ran t t' : core t = core t' -> core (ran t) = core (ran t').
Proof. intros H. transitivity (ran (core t)); [done|]. by rewrite H. Qed.
Lemma core_resliced b t t' : core t = core t' -> core (resliced b t) = core (resliced b t').
Proof. intros H. transitivity (resliced b (core t)); [done|]. by rewrite H. Qed.

(** What the first section leaves before the running task is accounted for. *)
Lemma tick_waking (s : Sched) : sched_ok s ->
  let cur := os_current_task s in let now := scheduler_ticks s +u 1 in
  exists s4, tick_account (enter s) = tick_running cur s4 /\ sched_wf s4 /\
    frame ((enter s) <| scheduler_ticks := now |>) s4 /\
    core (task s4 cur) = core (task s cur) /\
    forall j, 0 <= j < MAX_TASKS -> j <> cur ->
      core (task s4 j) = core (if j <? os_task_count s then ticked now (task s j) else task s j).
Proof.
  intros O cur now. pose proof (ok_wf s O) as W. unfold tick_account.
  set (s2 := upd_metrics _ _).
  assert (frame ((enter s) <| scheduler_ticks := now |>) s2) as F2 by done.
  assert (sched_wf s2) as W2 by by apply (wf_sys s).
  destruct (wake_sleepers_ok s2 W2) as [F3 T3]. pose proof (frame_wf _ _ F3 W2) as W3.
  set (s3 := scheduler_wake_sleepers_locked s2) in *. rewrite (fr_cur _ _ F3).
  change (os_current_task s2) with cur.
  destruct (tick_waits_ok cur s3 W3) as [F4 T4]. set (s4 := for_each _ _ _ s3) in *.
  pose proof (wf_cur s W). pose proof (wf_count s W).
  change (os_task_count s2) with (os_task_count s) in T3.
  assert (core (task s4 cur) = core (task s cur)) as Hcur.
  { rewrite T4, Z.eqb_refl, andb_false_r by (unfold cur; lia). simpl. rewrite T3 by (unfold cur; lia).
    change (task s2 cur) with (task s cur). unfold due, cur. rewrite (ok_current s O). simpl.
    by rewrite andb_false_r. }
  exists s4. split.
  { rewrite (core_state _ _ Hcur).
    by rewrite (ok_current s O : state (task s cur) = TASK_STATE_RUNNING), Z.eqb_refl. }
  split; [by eapply frame_wf|]. split; [etrans; [exact F2|]; by etrans|]. split; [done|].
  intros j Hj Hne. rewrite T4, (fr_count _ _ F3) by lia. change (os_task_count s2) with (os_task_count s).
  destruct (Z.eqb_spec j cur); [done|]. specialize (T3 j Hj).
  change (task s2 j) with (task s j) in T3. change (scheduler_ticks s2) with now in T3.
  destruct (j <? os_task_count s); simpl in T3 |- *; [|done].
  rewrite (core_state _ _ T3). unfold ticked. case_if; [by apply core_waited|done].
Qed.

Lemma timer_tick_full (s : Sched) : sched_ok s ->
  let cur := os_current_task s in let now := scheduler_ticks s +u 1 in
  exists s', scheduler_timer_tick s = Some s' /\ sched_ok s' /\ outside s s' /\
    scheduler_ticks s' = now /\ os_current_task s' = cur /\ os_task_count s' = os_task_count s /\
    core (task s' cur) = core (resliced (inversion cur s') (ran (task s cur))) /\
    forall j, 0 <= j < MAX_TASKS -> j <> cur ->
      core (task s' j) = core (if j <? os_task_count s then ticked now (task s j) else task s j).
Proof.
  intros O cur now. pose proof (ok_wf s O) as W.
  assert (0 <= cur < MAX_TASKS) as Hcur by (destruct W; unfold cur; lia).
  destruct (tick_waking s O) as (s4 & Hacc & W4 & F4 & Hc4 & Ho4). fold cur now in Hacc, F4, Hc4, Ho4.
  destruct (tick_running_ok cur s4 W4 Hcur) as (s8 & Htr & F8 & T8).
  set (over := less_one _ =? 0) in *. pose proof (frame_wf _ _ F8 W4) as W8.
  set (r := irq_lock_release (irq_enabled s) s8).
  assert (sched_wf r) as Wr by by apply (wf_sys s8).
  assert (task r cur = ran (task s4 cur)) as Hrc.
  { change (task s8 cur = ran (task s4 cur)). by rewrite T8, Z.eqb_refl by lia. }
  destruct (tick_finish_ok cur over (inversion cur s4) r) as (s' & Hfin & Fr & Tr); try done.
  { rewrite Hrc. etrans; [exact (core_state _ _ Hc4)|]. apply O. }
  { by rewrite Hrc. }
  assert (forall j, 0 <= j -> core (task s' j) =
    core (if cur =? j then resliced (inversion cur s4) (ran (task s4 j)) else task s4 j)) as T.
  { intros j Hj. rewrite Tr by done. change (task r j) with (task s8 j). rewrite T8 by done.
    by destruct (cur =? j). }
  assert (frame ((enter s) <| scheduler_ticks := now |>) s8) as F by by etrans.
  assert (os_task_count s' = os_task_count s) as Hcount
    by (rewrite (fr_count _ _ Fr); exact (fr_count _ _ F)).
  assert (os_current_task s' = cur) as Hcur' by (rewrite (fr_cur _ _ Fr); exact (fr_cur _ _ F)).
  assert (inversion cur s' = inversion cur s4) as Hinv.
  { apply inversion_rank; [by rewrite Hcount, (fr_count _ _ F4)|lia|].
    intros j Hj. specialize (T j Hj). apply core_rank in T. by destruct (cur =? j). }
  exists s'. split_and!; try done.
  - unfold scheduler_timer_tick. rewrite with_lock_ok, Hacc, Htr by apply O. exact Hfin.
  - split; [by apply (frame_wf r)|rewrite (fr_lock _ _ Fr); done| |].
    + rewrite Hcur'. specialize (T cur ltac:(lia)). rewrite Z.eqb_refl in T.
      rewrite (core_state _ _ T). etrans; [exact (core_state _ _ Hc4)|]. apply O.
    + intros j Hj Hs. rewrite Hcur'. destruct (decide (j = cur)) as [|Hne]; [done|].
      specialize (T j ltac:(lia)). destruct (Z.eqb_spec cur j); [done|].
      rewrite (core_state _ _ (eq_trans T (Ho4 j Hj Hne))) in Hs. apply (ok_single s O j Hj).
      case_if; [by apply ticked_state in Hs|done].
  - destruct F, Fr. split; done || simpl in *; congruence.
  - rewrite (fr_ticks _ _ Fr). exact (fr_ticks _ _ F).
  - rewrite T, Z.eqb_refl, Hinv by lia. by apply core_resliced, core_ran.
  - intros j Hj Hne. rewrite T by lia. destruct (Z.eqb_spec cur j); [done|]. by apply Ho4.
Qed.

(** ** Creating tasks, metrics *)

Lemma create_task_ok index func pd pmm mem t' pmm' mem' (s : Sched) : sched_ok s ->
  index <> os_current_task s ->
  create_task index func pd (sys s) pmm mem = Some (t', pmm', mem') ->
  sched_ok (s <| sys := t' |>) /\ outside s (s <| sys := t' |>).
Proof.
  intros O Hne Hc. split; [|by split].
  destruct O as [[L C K] U Hcur R]. unfold create_task in Hc.
  case_if; [by simplify_eq; destruct s|]. bsimpl.
  destruct (pmm_alloc_page pmm) as [[p1 a]|]; [|done]. simpl in Hc.
  case_if; [by simplify_eq; destruct s|].
  destruct (pmm_alloc_page p1) as [[p2 a2]|]; [|done]. simpl in Hc.
  destruct (pmm_alloc_page p2) as [[p3 a3]|]; [|done]. simpl in Hc.
  destruct (pmm_alloc_page p3) as [[p4 a4]|]; [|done]. simpl in Hc.
  set (blk := tcb_created _ _ _ _) in Hc.
  set (t1 := upd index (fun _ => blk) s).
  assert (sys (s <| sys := t' |>) = (if os_task_count s <=? index
            then (sys t1) <| os_task_count := index + 1 |> else sys t1)) as Hsys.
  { simpl. injection Hc as <- _ _. done. }
  clear Hc.
  assert (sched_wf t1) as W1 by (eapply frame_wf; [apply frame_upd|by split]).
  assert (forall j, 0 <= j -> task (s <| sys := t' |>) j = task t1 j) as Ht.
  { intros j Hj. unfold task. rewrite Hsys. by case_if. }
  assert (os_current_task (s <| sys := t' |>) = os_current_task s) as Hc.
  { rewrite Hsys. by case_if. }
  assert (sched_wf s) as W by done.
  split.
  - destruct W1 as [L1 C1 K1]. change (os_current_task t1) with (os_current_task s) in K1.
    change (os_task_count t1) with (os_task_count s) in C1, K1.
    split; rewrite ?Hc, Hsys; destruct (Z.leb_spec (os_task_count s) index); simpl;
      try done; try exact L1; lia.
  - done.
  - rewrite Hc, Ht by lia. unfold t1. rewrite task_upd_wf by (done || lia).
    by destruct (Z.eqb_spec index (os_current_task s)).
  - intros i Hi. rewrite Ht, Hc by lia. unfold t1. rewrite task_upd_wf by (done || lia).
    destruct (Z.eqb_spec index i); [done|]. by apply R.
Qed.

Lemma scheduler_reset_metrics_ok (s : Sched) : sched_ok s ->
  exists s', scheduler_reset_metrics s = Some (s', tt) /\ kept s s'.
Proof.
  intros O. unfold scheduler_reset_metrics. rewrite with_lock_ok by apply O.
  eexists. split; [reflexivity|]. destruct O as [W U C R]. split; try done.
  split; try done. by apply (wf_sys s).
Qed.

(** ** Concrete states *)

Lemma running_only_slots p (s : Sched) :
  Forall (fun i => state (task s i) = TASK_STATE_RUNNING -> p i) [0; 1; 2; 3; 4; 5; 6; 7] ->
  running_only p s.
Proof.
  intros H i Hi. unfold MAX_TASKS in Hi. apply (proj1 (Forall_forall _ _) H).
  simpl. lia.
Qed.

(** Decides [sched_ok] of a closed state. *)
Ltac sched_ok_tac :=
  split; [split; vm_compute; try split; congruence|reflexivity|vm_compute; reflexivity|];
  apply running_only_slots; repeat (constructor; [vm_compute; congruence|]); constructor.

Lemma sched_init_ok : sched_ok sched_init.
Proof. sched_ok_tac. Qed.

(** Task 0 runs, task 1 is READY with priority 1, task 2 with priority 3, and
    task 3 sleeps until tick 1. *)
Definition demo_sched : Sched :=
  sched_init <| sys := {|
    os_tasks := [tcb_init TASK_STATE_RUNNING WORKLOAD_CLASS_SIM 0; tcb_created 1 4096 0 0;
                 (tcb_created 2 4096 0 0) <| priority := 3 |>;
                 (tcb_created 3 4096 0 0) <| state := TASK_STATE_SLEEPING |> <| wake_tick := 1 |>;
                 tcb_zero; tcb_zero; tcb_zero; tcb_zero];
    os_current_task := 0; os_task_count := 4 |} |>.

Lemma demo_sched_ok : sched_ok demo_sched.
Proof. sched_ok_tac. Qed.

(** ** Properties *)

(** C38: the selection returns a READY task of the greatest effective priority,
    and among those the first one in the round robin after the old task; when no
    task is READY it keeps the old one if that can run, and otherwise takes a task
    that is not waiting, or the old one; it changes the metrics only. *)
Theorem scheduler_pick_next_correct (s : Sched) old : sched_wf s -> 0 <= old < os_task_count s ->
  let '(s', new) := scheduler_pick_next_locked old s in frame s s' /\ sys s' = sys s /\ picked s old new.
Proof. apply pick_next_ok. Qed.
Lemma scheduler_pick_next_correct_witness :
  snd (scheduler_pick_next_locked 0 demo_sched) = 2 /\
  let '(s', new) := scheduler_pick_next_locked 0 demo_sched in
  frame demo_sched s' /\ sys s' = sys demo_sched /\ picked demo_sched 0 new.
Proof.
  split; [vm_compute; reflexivity|].
  apply (scheduler_pick_next_correct demo_sched 0); [apply demo_sched_ok|vm_compute; split; congruence].
Defined.

(** a yield puts the current task among the READY ones, wakes the sleepers
    whose time has come and hands the processor to the task the selection picks
    from that table, with a full slice and its wait counter reset; no other block
    changes, and the lock and the interrupt flag are as before. *)
Theorem task_yield_correct (s : Sched) : sched_ok s ->
  exists s' sw, task_yield s = Some (s', sw) /\ sched_ok s' /\ outside s s' /\
    let b := before_pick true (enter s) in let new := os_current_task s' in
    picked b (os_current_task s) new /\
    sw = (if negb (new =? os_current_task s) then Some (os_current_task s, new) else None) /\
    time_slice (task s' new) = time_slice_for_priority (priority (task b new)) /\
    sched_wait_ticks (task s' new) = 0 /\
    forall j, 0 <= j < MAX_TASKS -> j <> new -> core (task s' j) = core (task b j).
Proof.
  intros O. destruct (select_and_switch_ok true s (ok_leaving s O) (or_introl eq_refl))
    as (s1 & Heq & Hp & Hsw & Hok & Hout & _).
  eexists _, _. split; [exact Heq|]. split; [done|]. split; [done|]. cbv zeta.
  split; [exact Hp|]. split; [done|]. split; [apply Hsw|]. split; [apply Hsw|]. apply Hsw.
Qed.
Lemma task_yield_correct_witness :
  exists s' sw, task_yield demo_sched = Some (s', sw) /\ sched_ok s' /\ outside demo_sched s' /\
    let b := before_pick true (enter demo_sched) in let new := os_current_task s' in
    picked b (os_current_task demo_sched) new /\
    sw = (if negb (new =? os_current_task demo_sched) then Some (os_current_task demo_sched, new) else None) /\
    time_slice (task s' new) = time_slice_for_priority (priority (task b new)) /\
    sched_wait_ticks (task s' new) = 0 /\
    forall j, 0 <= j < MAX_TASKS -> j <> new -> core (task s' j) = core (task b j).
Proof. apply (task_yield_correct demo_sched), demo_sched_ok. Defined.

(** C39: a timer tick advances the clock and wakes exactly the sleeping or blocked
    tasks whose deadline has come; every other READY task waits one tick more;
    the running task is charged one tick, gets a new slice when the old one is
    used up, and its slice is cut to one tick when a READY task outranks it; the
    tick never switches tasks, and it leaves the lock free and the interrupt flag
    as it was. *)
Theorem scheduler_timer_tick_correct (s : Sched) : sched_ok s ->
  let cur := os_current_task s in let now := scheduler_ticks s +u 1 in
  exists s', scheduler_timer_tick s = Some s' /\ sched_ok s' /\ outside s s' /\
    scheduler_ticks s' = now /\ os_current_task s' = cur /\ os_task_count s' = os_task_count s /\
    core (task s' cur) = core (resliced (inversion cur s') (ran (task s cur))) /\
    forall j, 0 <= j < MAX_TASKS -> j <> cur ->
      core (task s' j) = core (if j <? os_task_count s then ticked now (task s j) else task s j).
Proof. apply timer_tick_full. Qed.
Lemma scheduler_timer_tick_correct_witness :
  let cur := os_current_task demo_sched in let now := scheduler_ticks demo_sched +u 1 in
  exists s', scheduler_timer_tick demo_sched = Some s' /\ sched_ok s' /\ outside demo_sched s' /\
    scheduler_ticks s' = now /\ os_current_task s' = cur /\
    os_task_count s' = os_task_count demo_sched /\
    core (task s' cur) = core (resliced (inversion cur s') (ran (task demo_sched cur))) /\
    forall j, 0 <= j < MAX_TASKS -> j <> cur ->
      core (task s' j) = core (if j <? os_task_count demo_sched
                               then ticked now (task demo_sched j) else task demo_sched j).
Proof. apply (scheduler_timer_tick_correct demo_sched), demo_sched_ok. Defined.

(** *** Giving way *)

Lemma ready_wake (s : Sched) j : sched_wf s -> ready s j -> ready (scheduler_wake_sleepers_locked s) j.
Proof.
  intros W [Hr Hs]. destruct (wake_sleepers_ok s W) as [F T]. pose proof (wf_count s W).
  split; [by rewrite (fr_count _ _ F)|]. specialize (T j ltac:(lia)).
  rewrite (core_state _ _ T). by case_if.
Qed.

(** If some task is READY the processor goes to a READY one. *)
Lemma gave_way_ready (s s1 s' : Sched) j : sched_wf s1 -> gave_way s s1 s' -> ready s1 j ->
  ready (scheduler_wake_sleepers_locked s1) (os_current_task s').
Proof. intros W [_ Hp _] Hj. apply (pk_ready _ _ _ Hp). exists j. by apply ready_wake. Qed.

(** The current task is not chosen while another one is READY. *)
Lemma gave_way_leaves (s s1 s' : Sched) j : sched_wf s1 -> gave_way s s1 s' ->
  due (scheduler_ticks s1) (task s1 (os_current_task s)) = false ->
  state (task s1 (os_current_task s)) <> TASK_STATE_READY -> 0 <= os_current_task s < MAX_TASKS ->
  ready s1 j -> os_current_task s' <> os_current_task s.
Proof.
  intros W G Hd Hn Hc Hj Heq. pose proof (gave_way_ready s s1 s' j W G Hj) as [_ Hst].
  destruct (wake_sleepers_ok s1 W) as [_ T]. specialize (T _ Hc).
  rewrite Heq, (core_state _ _ T), Hd, andb_false_r in Hst. done.
Qed.

(** an exit releases the resources of the current task, marks its block ended
    with the code, readies the parent that waits for it and changes no other
    block before the switch; while another task is READY the processor goes to a
    READY task and the exited block stays TERMINATED. *)
Theorem task_exit_correct {X} `{TaskResources X} code (x : X) (s : Sched) : sched_ok s ->
  let cur := os_current_task s in
  exists s4 s' sw,
    task_exit_with_code code x s = Some (ended_resources cur (task s cur) x, s', sw) /\
    sched_ok s' /\ outside s s' /\
    frame (enter s) s4 /\
    (forall j, 0 <= j -> core (task s4 j) = core (after_end s cur code j)) /\
    (forall j, 0 <= j < MAX_TASKS -> j <> os_current_task s' ->
       core (task s' j) = core (task (scheduler_wake_sleepers_locked s4) j)) /\
    ((exists j, ready s4 j) ->
       os_current_task s' <> cur /\ ready (scheduler_wake_sleepers_locked s4) (os_current_task s') /\
       state (task s' cur) = TASK_STATE_TERMINATED).
Proof.
  intros O cur. destruct (task_exit_full code x s O) as (s4 & s' & sw & Heq & G & F & T).
  fold cur in Heq, T. exists s4, s', sw. pose proof (frame_wf _ _ F (wf_enter s (ok_wf s O))) as W4.
  assert (0 <= cur < MAX_TASKS) as Hc by (destruct (ok_wf s O); unfold cur; lia).
  assert (state (task s4 cur) = TASK_STATE_TERMINATED) as Hst.
  { rewrite (core_state _ _ (T cur ltac:(lia))). unfold after_end, ended. rewrite Z.eqb_refl. by case_if. }
  assert (due (scheduler_ticks s4) (task s4 cur) = false) as Hd by (unfold due; by rewrite Hst).
  split; [done|]. split; [apply G|]. split; [apply G|]. split; [done|]. split; [done|]. split; [apply G|].
  intros [j Hj]. assert (os_current_task s' <> cur) as Hne.
  { apply (gave_way_leaves s s4 s' j); try done. fold cur. by rewrite Hst. }
  split; [done|]. split; [by eapply gave_way_ready|].
  rewrite (core_state _ _ (gw_others _ _ _ G cur Hc (not_eq_sym Hne))).
  destruct (wake_sleepers_ok s4 W4) as [_ Tw].
  by rewrite (core_state _ _ (Tw cur Hc)), Hd, andb_false_r.
Qed.

(** Files and address spaces as logs of the tasks they were released for. *)
Record DemoResources := { closed : list Z; destroyed : list Z }.
#[export] Instance demo_resources : TaskResources DemoResources := {
  vfs_close_all_for_task id x := {| closed := id :: closed x; destroyed := destroyed x |};
  destroy_user_address_space pd x := {| closed := closed x; destroyed := pd :: destroyed x |};
  page_directory := 1
}.
Definition no_resources : DemoResources := {| closed := []; destroyed := [] |}.

Lemma task_exit_correct_witness :
  let cur := os_current_task demo_sched in
  exists s4 s' sw,
    task_exit_with_code 7 no_resources demo_sched
      = Some (ended_resources cur (task demo_sched cur) no_resources, s', sw) /\
    sched_ok s' /\ outside demo_sched s' /\
    frame (enter demo_sched) s4 /\
    (forall j, 0 <= j -> core (task s4 j) = core (after_end demo_sched cur 7 j)) /\
    (forall j, 0 <= j < MAX_TASKS -> j <> os_current_task s' ->
       core (task s' j) = core (task (scheduler_wake_sleepers_locked s4) j)) /\
    ((exists j, ready s4 j) ->
       os_current_task s' <> cur /\ ready (scheduler_wake_sleepers_locked s4) (os_current_task s') /\
       state (task s' cur) = TASK_STATE_TERMINATED).
Proof. apply (task_exit_correct 7 no_resources demo_sched), demo_sched_ok. Defined.

Lemma task_kill_cases {X} `{TaskResources X} id code (x : X) (s : Sched) : sched_ok s ->
  id <> os_current_task s ->
  if (id <? 0) || (os_task_count s <=? id) || (state (task s id) =? TASK_STATE_TERMINATED)
  then task_kill id code x s = Some (x, s, 0, None)
  else exists s', task_kill id code x s = Some (ended_resources id (task s id) x, s', 1, None) /\
         kept s s' /\ os_current_task s' = os_current_task s /\
         forall j, 0 <= j -> core (task s' j) = core (after_end s id code j).
Proof.
  intros O Hne. case_if.
  - unfold task_kill. destruct ((id <? 0) || (os_task_count s <=? id)) eqn:Hr; [done|].
    simpl in E. destruct (Z.eqb_spec id (os_current_task s)); [done|].
    erewrite with_lock_bind; [|apply O|].
    2: { cbv beta. change (task (enter s) id) with (task s id). rewrite E. reflexivity. }
    pose proof (ok_unlocked s O) as U. do 4 f_equal. destruct s. simpl in U. by rewrite U.
  - bsimpl. apply task_kill_other; [done|lia|done|done].
Qed.

Lemma task_kill_ok {X} `{TaskResources X} id code (x : X) (s : Sched) : sched_ok s ->
  exists x' s' r sw, task_kill id code x s = Some (x', s', r, sw) /\ kept s s'.
Proof.
  intros O. destruct (Z.eq_dec id (os_current_task s)) as [->|Hne].
  - destruct (task_exit_full code x s O) as (s4 & s' & sw & Heq & [K _ _] & _).
    unfold task_kill. pose proof (wf_cur s (ok_wf s O)).
    destruct (Z.ltb_spec (os_current_task s) 0); [lia|].
    destruct (Z.leb_spec (os_task_count s) (os_current_task s)); [lia|]. simpl.
    rewrite Z.eqb_refl, Heq. by eexists _, _, _, _.
  - pose proof (task_kill_cases id code x s O Hne) as Hk. case_if.
    + eexists _, _, _, _. split; [exact Hk|by apply kept_refl].
    + destruct Hk as (s' & Hk & K & _). by eexists _, _, _, _.
Qed.

(** [task_kill] refuses an id outside the table and a task that has already
    ended, with no effect; any other task is ended in place, its resources
    released and its waiting parent readied, without a switch. *)
Theorem task_kill_correct {X} `{TaskResources X} id code (x : X) (s : Sched) : sched_ok s ->
  id <> os_current_task s ->
  if (id <? 0) || (os_task_count s <=? id) || (state (task s id) =? TASK_STATE_TERMINATED)
  then task_kill id code x s = Some (x, s, 0, None)
  else exists s', task_kill id code x s = Some (ended_resources id (task s id) x, s', 1, None) /\
         kept s s' /\ os_current_task s' = os_current_task s /\
         forall j, 0 <= j -> core (task s' j) = core (after_end s id code j).
Proof. apply task_kill_cases. Qed.
Lemma task_kill_correct_witness :
  (if (2 <? 0) || (os_task_count demo_sched <=? 2) || (state (task demo_sched 2) =? TASK_STATE_TERMINATED)
  then task_kill 2 9 no_resources demo_sched = Some (no_resources, demo_sched, 0, None)
  else exists s', task_kill 2 9 no_resources demo_sched
           = Some (ended_resources 2 (task demo_sched 2) no_resources, s', 1, None) /\
         kept demo_sched s' /\ os_current_task s' = os_current_task demo_sched /\
         forall j, 0 <= j -> core (task s' j) = core (after_end demo_sched 2 9 j)).
Proof. apply (task_kill_correct 2 9 no_resources demo_sched); [apply demo_sched_ok|vm_compute; congruence]. Defined.

(** a sleep of [n > 0] ticks leaves the current task SLEEPING with the deadline
    [now + n] and changes no other block before the switch; while another task is
    READY it goes to a READY task, and the sleeper keeps that block. *)
Theorem task_sleep_correct n (s : Sched) : sched_ok s -> 0 < n < 2 ^ 32 ->
  scheduler_ticks s + n < 2 ^ 32 -> 0 <= scheduler_ticks s ->
  let cur := os_current_task s in
  exists s1 s' sw, task_sleep n s = Some (s', sw) /\ sched_ok s' /\ outside s s' /\
    frame (enter s) s1 /\
    (forall j, 0 <= j -> core (task s1 j) = core (if cur =? j
       then (task s j) <| state := TASK_STATE_SLEEPING |> <| wake_tick := scheduler_ticks s + n |>
       else task s j)) /\
    (forall j, 0 <= j < MAX_TASKS -> j <> os_current_task s' ->
       core (task s' j) = core (task (scheduler_wake_sleepers_locked s1) j)) /\
    ((exists j, ready s1 j) -> os_current_task s' <> cur /\
       ready (scheduler_wake_sleepers_locked s1) (os_current_task s') /\
       core (task s' cur) = core (task s1 cur)).
Proof.
  intros O Hn Hb Ht cur. unfold task_sleep. destruct (Z.eqb_spec n 0); [lia|].
  erewrite with_lock_bind; [|apply O|reflexivity]. cbv beta iota.
  change (os_current_task (enter s)) with cur. change (scheduler_ticks (enter s)) with (scheduler_ticks s).
  rewrite u32_small by lia.
  set (f := fun t : TCB => _). set (s1 := trace cur _ n (upd cur f (enter s))).
  assert (frame (enter s) s1) as F by (etrans; [apply frame_upd|apply frame_trace]).
  pose proof (wf_enter s (ok_wf s O)) as We. pose proof (frame_wf _ _ F We) as W1.
  assert (0 <= cur < MAX_TASKS) as Hc by (destruct (ok_wf s O); unfold cur; lia).
  assert (forall j, 0 <= j -> core (task s1 j) = core (if cur =? j then f (task s j) else task s j)) as T.
  { intros j Hj. unfold s1. rewrite task_trace_core, task_upd_wf by done. change (task (enter s)) with (task s).
    by destruct (Z.eqb_spec cur j) as [<-|]. }
  destruct (switch_away_full s s1 (ok_wf s O) F) as (s' & sw & Heq & G).
  { by apply running_trace, leave_current. }
  exists s1, s', sw. split; [exact Heq|]. split; [apply G|]. split; [apply G|].
  split; [done|]. split; [exact T|].
  split; [apply G|]. intros [j Hj].
  pose proof (T cur ltac:(lia)) as Tc. rewrite Z.eqb_refl in Tc.
  assert (due (scheduler_ticks s1) (task s1 cur) = false) as Hd.
  { unfold due. rewrite (core_wake_tick _ _ Tc), (fr_ticks _ _ F). simpl.
    destruct (Z.leb_spec (scheduler_ticks s + n) (scheduler_ticks s)); [lia|]. by rewrite andb_false_r. }
  assert (os_current_task s' <> cur) as Hne.
  { apply (gave_way_leaves s s1 s' j); try done. fold cur. by rewrite (core_state _ _ Tc). }
  split; [done|]. split; [by eapply gave_way_ready|].
  rewrite (gw_others _ _ _ G cur Hc (not_eq_sym Hne)).
  destruct (wake_sleepers_ok s1 W1) as [_ Tw]. by rewrite Tw, Hd, andb_false_r.
Qed.
Lemma task_sleep_correct_witness :
  let cur := os_current_task demo_sched in
  exists s1 s' sw, task_sleep 5 demo_sched = Some (s', sw) /\ sched_ok s' /\ outside demo_sched s' /\
    frame (enter demo_sched) s1 /\
    (forall j, 0 <= j -> core (task s1 j) = core (if cur =? j
       then (task demo_sched j) <| state := TASK_STATE_SLEEPING |>
              <| wake_tick := scheduler_ticks demo_sched + 5 |>
       else task demo_sched j)) /\
    (forall j, 0 <= j < MAX_TASKS -> j <> os_current_task s' ->
       core (task s' j) = core (task (scheduler_wake_sleepers_locked s1) j)) /\
    ((exists j, ready s1 j) -> os_current_task s' <> cur /\
       ready (scheduler_wake_sleepers_locked s1) (os_current_task s') /\
       core (task s' cur) = core (task s1 cur)).
Proof.
  apply (task_sleep_correct 5 demo_sched demo_sched_ok); vm_compute; try split; congruence.
Defined.

(** A task that sleeps while no other can run gets the processor back at once,
    with its deadline still in its block. *)
Lemma task_sleep_alone :
  exists s', task_sleep 5 sched_init = Some (s', None) /\ scheduler_ticks s' = 0 /\
    state (task s' 0) = TASK_STATE_RUNNING /\ wake_tick (task s' 0) = 5.
Proof. eexists. split; [vm_compute; reflexivity|]. vm_compute. done. Qed.

(** A task that exits while the only other one sleeps is [RUNNING] again. *)
Lemma task_exit_resurrected :
  exists x s', task_exit_with_code 0 no_resources (sched_init <| sys := {|
      os_tasks := [tcb_init TASK_STATE_RUNNING WORKLOAD_CLASS_SIM 0;
                   (tcb_created 1 4096 0 0) <| state := TASK_STATE_SLEEPING |> <| wake_tick := 9 |>;
                   tcb_zero; tcb_zero; tcb_zero; tcb_zero; tcb_zero; tcb_zero];
      os_current_task := 0; os_task_count := 2 |} |>) = Some (x, s', None) /\
    os_current_task s' = 0 /\ state (task s' 0) = TASK_STATE_RUNNING /\ exited (task s' 0) = 1.
Proof. eexists _, _. split; [vm_compute; reflexivity|]. vm_compute. done. Qed.
