(* ===== verification/Ipc.v ===== *)
(** * Wait queues, events and IPC channels (kernel/scheduler.c)

    The waiting side of the scheduler: bounded queues of blocked tasks, events on
    top of them, and the four IPC channels with their blocking and timed calls. *)
From S2P Require Import Prelude Pmm Task Ring Scheduler.

(** ** Wait queues *)

Definition wq_push (id : Z) (q : wait_queue_t) : wait_queue_t :=
  q <| task_ids ::= <[Z.to_nat (wq_tail q) := id]> |>
    <| wq_tail := Z.rem (wq_tail q + 1) MAX_TASKS |>
    <| wq_count ::= fun n => n + 1 |>.

Definition wq_pop (q : wait_queue_t) : wait_queue_t :=
  q <| task_ids ::= <[Z.to_nat (wq_head q) := -1]> |>
    <| wq_head := Z.rem (wq_head q + 1) MAX_TASKS |>
    <| wq_count ::= fun n => n - 1 |>.

(** The critical section of the two waiting calls: a full queue blocks nobody. *)
Definition enqueue_current (deadline : option Z) (q : wait_queue_t) (s : Sched)
  : Sched * wait_queue_t :=
  let current := os_current_task s in
  if wq_count q <? MAX_TASKS then
    let s1 := upd current (fun t => t <| state := TASK_STATE_BLOCKED |>) s in
    (match deadline with
     | Some d => upd current (fun t => t <| wake_tick := d |>) s1
     | None => s1
     end, wq_push current q)
  else (s, q).

Definition wait_queue_wait (q : wait_queue_t) (s : Sched)
  : option (Sched * wait_queue_t * option (Z * Z)) :=
  '(s1, q1) ← with_lock (enqueue_current None q) s;
  '(s2, sw) ← scheduler_select_and_switch false s1;
  Some (s2, q1, sw).

(** After the switch the call ends with [timeout_result]. *)
Definition wait_queue_wait_timeout (q : wait_queue_t) (max_ticks : Z) (s : Sched)
  : option (Sched * wait_queue_t * Blocking) :=
  if max_ticks =? 0 then Some (s, q, Returned 0)
  else
    '(s1, (q1, deadline)) ← with_lock (fun s =>
      let deadline := scheduler_ticks s +u max_ticks in
      let '(s1, q1) := enqueue_current (Some deadline) q s in (s1, (q1, deadline))) s;
    '(s2, sw) ← scheduler_select_and_switch false s1;
    Some (s2, q1, Waiting deadline sw).

Definition wake_task (id : Z) (s : Sched) : Sched :=
  upd_metrics (fun m => m <| io_wake_boosts ::= fun n => n +u 1 |>)
    (upd id (fun t => t <| state := TASK_STATE_READY |> <| wake_tick := 0 |>
                        <| sched_wake_boost := SCHED_WAKE_BOOST_MAX |>) s).

(** The loop drops entries until it finds a blocked task; [fuel] is the number
    of entries. *)
Fixpoint wake_loop (fuel : nat) (q : wait_queue_t) (s : Sched) : Sched * (wait_queue_t * Z) :=
  match fuel with
  | O => (s, (q, 0))
  | S fuel' =>
      if 0 <? wq_count q then
        let task_id := (task_ids q).[wq_head q] in
        let q1 := wq_pop q in
        if (0 <=? task_id) && (task_id <? os_task_count s)
           && (state (task s task_id) =? TASK_STATE_BLOCKED)
        then (wake_task task_id s, (q1, 1))
        else wake_loop fuel' q1 s
      else (s, (q, 0))
  end.

Definition wait_queue_wake_one (q : wait_queue_t) (s : Sched) : option (Sched * wait_queue_t * Z) :=
  '(s1, (q1, woken)) ← with_lock (wake_loop (Z.to_nat (wq_count q)) q) s;
  Some (s1, q1, woken).

(** Each success removes an entry, so one more round than entries is enough. *)
Fixpoint wake_all_loop (fuel : nat) (q : wait_queue_t) (total : Z) (s : Sched)
  : option (Sched * wait_queue_t * Z) :=
  match fuel with
  | O => None
  | S fuel' =>
      '(s1, q1, woken) ← wait_queue_wake_one q s;
      if woken =? 0 then Some (s1, q1, total) else wake_all_loop fuel' q1 (total + 1) s1
  end.

Definition wait_queue_wake_all (q : wait_queue_t) (s : Sched) : option (Sched * wait_queue_t * Z) :=
  wake_all_loop (S (Z.to_nat (wq_count q))) q 0 s.

(** ** Events *)

Definition sched_event_init : sched_event_t := {| waiters := wait_queue_init; signaled := 0 |}.

(** Test and clear; the result tells whether the event was signaled. *)
Definition event_take (e : sched_event_t) (s : Sched) : Sched * (sched_event_t * bool) :=
  if negb (signaled e =? 0) then (s, (e <| signaled := 0 |>, true)) else (s, (e, false)).

(** The last component is [None] when the call returned without waiting. *)
Definition sched_event_wait (e : sched_event_t) (s : Sched)
  : option (Sched * sched_event_t * option (option (Z * Z))) :=
  '(s1, (e1, taken)) ← with_lock (event_take e) s;
  if (taken : bool) then Some (s1, e1, None)
  else
    '(s2, q, sw) ← wait_queue_wait (waiters e1) s1;
    Some (s2, e1 <| waiters := q |>, Some sw).

Definition sched_event_wait_timeout (e : sched_event_t) (max_ticks : Z) (s : Sched)
  : option (Sched * sched_event_t * Blocking) :=
  if max_ticks =? 0 then Some (s, e, Returned 0)
  else
    '(s1, (e1, taken)) ← with_lock (event_take e) s;
    if (taken : bool) then Some (s1, e1, Returned 1)
    else
      '(s2, q, b) ← wait_queue_wait_timeout (waiters e1) max_ticks s1;
      Some (s2, e1 <| waiters := q |>, b).

Definition set_signaled (e : sched_event_t) (s : Sched) : Sched * sched_event_t :=
  (s, e <| signaled := 1 |>).

Definition sched_event_signal (e : sched_event_t) (s : Sched) : option (Sched * sched_event_t) :=
  '(s1, q, woken) ← wait_queue_wake_one (waiters e) s;
  let e1 := e <| waiters := q |> in
  if woken =? 0 then with_lock (set_signaled e1) s1 else Some (s1, e1).

Definition sched_event_broadcast (e : sched_event_t) (s : Sched) : option (Sched * sched_event_t) :=
  '(s1, q, _) ← wait_queue_wake_all (waiters e) s;
  with_lock (set_signaled (e <| waiters := q |>)) s1.

(** ** IPC channels *)

Definition ipc_init_once (s : Sched) : Sched :=
  if negb (ipc_initialized s =? 0) then s
  else s <| ipc_channels := replicate (Z.to_nat IPC_CHANNELS) ipc_channel_init |>
         <| ipc_send_waiters := replicate (Z.to_nat IPC_CHANNELS) wait_queue_init |>
         <| ipc_recv_waiters := replicate (Z.to_nat IPC_CHANNELS) wait_queue_init |>
         <| ipc_initialized := 1 |>.

Definition upd_channel (channel : Z) (ch : ipc_channel_t) (s : Sched) : Sched :=
  s <| ipc_channels ::= <[Z.to_nat channel := ch]> |>.

Definition valid_channel (channel : Z) : bool := (0 <=? channel) && (channel <? IPC_CHANNELS).

(** Under the lock: [None] on a full channel, else [wake_recv]. *)
Definition ipc_put (channel value : Z) (s : Sched) : Sched * option bool :=
  let ch := (ipc_channels s).[channel] in
  if IPC_QUEUE_CAPACITY <=? ch_count ch then (s, None)
  else
    let ch1 := ch <| queue ::= <[Z.to_nat (ch_tail ch) := value]> |>
                  <| ch_tail := Z.rem (ch_tail ch + 1) IPC_QUEUE_CAPACITY |>
                  <| ch_count ::= fun n => n + 1 |> in
    (upd_channel channel ch1 s, Some (0 <? ch_count ch1)).

Definition ipc_get (channel : Z) (s : Sched) : Sched * option (Z * bool) :=
  let ch := (ipc_channels s).[channel] in
  if ch_count ch <=? 0 then (s, None)
  else
    let ch1 := ch <| ch_head := Z.rem (ch_head ch + 1) IPC_QUEUE_CAPACITY |>
                  <| ch_count ::= fun n => n - 1 |> in
    (upd_channel channel ch1 s, Some ((queue ch).[ch_head ch], ch_count ch1 <? IPC_QUEUE_CAPACITY)).

Definition ipc_send (channel value : Z) (s : Sched) : option (Sched * Z) :=
  if negb (valid_channel channel) then Some (s, 0)
  else
    '(s1, put) ← with_lock (ipc_put channel value) (ipc_init_once s);
    match put with
    | None => Some (s1, 0)
    | Some true =>
        '(s2, q, _) ← wait_queue_wake_one (ipc_recv_waiters s1).[channel] s1;
        Some (s2 <| ipc_recv_waiters ::= <[Z.to_nat channel := q]> |>, 1)
    | Some false => Some (s1, 1)
    end.

(** The received value is the third component. *)
Definition ipc_recv (channel : Z) (s : Sched) : option (Sched * Z * option Z) :=
  if negb (valid_channel channel) then Some (s, 0, None)
  else
    '(s1, got) ← with_lock (ipc_get channel) (ipc_init_once s);
    match got with
    | None => Some (s1, 0, None)
    | Some (v, true) =>
        '(s2, q, _) ← wait_queue_wake_one (ipc_send_waiters s1).[channel] s1;
        Some (s2 <| ipc_send_waiters ::= <[Z.to_nat channel := q]> |>, 1, Some v)
    | Some (v, false) => Some (s1, 1, Some v)
    end.

Definition ipc_queue_depth (channel : Z) (s : Sched) : option (Sched * Z) :=
  if negb (valid_channel channel) then Some (s, -1)
  else with_lock (fun s => (s, ch_count (ipc_channels s).[channel])) (ipc_init_once s).

(** One round of the loop of a blocking call: it returns, or it queues its task
    on the channel's waiters and switches; the next round starts when the task
    runs again. *)
Definition ipc_send_wait_round (channel value : Z) (s : Sched)
  : option (Sched * option Z * option (Z * Z)) :=
  '(s1, sent) ← ipc_send channel value s;
  if negb (sent =? 0) then Some (s1, Some 1, None)
  else
    '(s2, q, sw) ← wait_queue_wait (ipc_send_waiters s1).[channel] s1;
    Some (s2 <| ipc_send_waiters ::= <[Z.to_nat channel := q]> |>, None, sw).

Definition ipc_send_wait (channel value : Z) (s : Sched)
  : option (Sched * option Z * option (Z * Z)) :=
  if negb (valid_channel channel) then Some (s, Some 0, None)
  else ipc_send_wait_round channel value (ipc_init_once s).

Definition ipc_recv_wait_round (channel : Z) (s : Sched)
  : option (Sched * option (Z * option Z) * option (Z * Z)) :=
  '(s1, got, v) ← ipc_recv channel s;
  if negb (got =? 0) then Some (s1, Some (1, v), None)
  else
    '(s2, q, sw) ← wait_queue_wait (ipc_recv_waiters s1).[channel] s1;
    Some (s2 <| ipc_recv_waiters ::= <[Z.to_nat channel := q]> |>, None, sw).

Definition ipc_recv_wait (channel : Z) (s : Sched)
  : option (Sched * option (Z * option Z) * option (Z * Z)) :=
  if negb (valid_channel channel) then Some (s, Some (0, None), None)
  else ipc_recv_wait_round channel (ipc_init_once s).

(** The timed calls keep [start] in a local variable; a wait that ends with
    result 0 ends the call with 0. *)
Definition ipc_send_timeout_round (channel value max_ticks start : Z) (s : Sched)
  : option (Sched * Blocking) :=
  '(s1, sent) ← ipc_send channel value s;
  if negb (sent =? 0) then Some (s1, Returned 1)
  else
    let elapsed := scheduler_now_ticks s1 -u start in
    if max_ticks <=? elapsed then Some (s1, Returned 0)
    else
      '(s2, q, b) ← wait_queue_wait_timeout (ipc_send_waiters s1).[channel] (max_ticks -u elapsed) s1;
      Some (s2 <| ipc_send_waiters ::= <[Z.to_nat channel := q]> |>, b).

Definition ipc_send_timeout (channel value max_ticks : Z) (s : Sched) : option (Sched * Blocking) :=
  if negb (valid_channel channel) || (max_ticks =? 0) then Some (s, Returned 0)
  else let s1 := ipc_init_once s in
       ipc_send_timeout_round channel value max_ticks (scheduler_now_ticks s1) s1.

(** The rest of a round after the switch: the wait's result, then the next
    round. *)
Definition ipc_send_timeout_resume (channel value max_ticks start deadline : Z) (s : Sched)
  : option (Sched * Blocking) :=
  '(s1, waited) ← timeout_result deadline s;
  if waited =? 0 then Some (s1, Returned 0)
  else ipc_send_timeout_round channel value max_ticks start s1.

Definition ipc_recv_timeout_round (channel max_ticks start : Z) (s : Sched)
  : option (Sched * Blocking * option Z) :=
  '(s1, got, v) ← ipc_recv channel s;
  if negb (got =? 0) then Some (s1, Returned 1, v)
  else
    let elapsed := scheduler_now_ticks s1 -u start in
    if max_ticks <=? elapsed then Some (s1, Returned 0, None)
    else
      '(s2, q, b) ← wait_queue_wait_timeout (ipc_recv_waiters s1).[channel] (max_ticks -u elapsed) s1;
      Some (s2 <| ipc_recv_waiters ::= <[Z.to_nat channel := q]> |>, b, None).

Definition ipc_recv_timeout (channel max_ticks : Z) (s : Sched)
  : option (Sched * Blocking * option Z) :=
  if negb (valid_channel channel) || (max_ticks =? 0) then Some (s, Returned 0, None)
  else let s1 := ipc_init_once s in
       ipc_recv_timeout_round channel max_ticks (scheduler_now_ticks s1) s1.

Definition ipc_recv_timeout_resume (channel max_ticks start deadline : Z) (s : Sched)
  : option (Sched * Blocking * option Z) :=
  '(s1, waited) ← timeout_result deadline s;
  if waited =? 0 then Some (s1, Returned 0, None)
  else ipc_recv_timeout_round channel max_ticks start s1.


(** ** The queue a wait queue holds *)

Record wq_wf (q : wait_queue_t) : Prop := {
  wq_len : length (task_ids q) = Z.to_nat MAX_TASKS;
  wq_head_range : 0 <= wq_head q < MAX_TASKS;
  wq_count_range : 0 <= wq_count q <= MAX_TASKS;
  wq_tail_eq : wq_tail q = (wq_head q + wq_count q) mod MAX_TASKS
}.

Definition wq_list (q : wait_queue_t) : list Z := ring_list (task_ids q) (wq_head q) (wq_count q).

Lemma wq_list_length q : wq_wf q -> Z.of_nat (length (wq_list q)) = wq_count q.
Proof. intros [_ _ ? _]. unfold wq_list. rewrite ring_list_length. lia. Qed.

Lemma wq_push_ok id q : wq_wf q -> wq_count q < MAX_TASKS ->
  wq_wf (wq_push id q) /\ wq_list (wq_push id q) = wq_list q ++ [id].
Proof.
  intros [L H C T] Hc.
  pose proof (Z.mod_pos_bound (wq_head q + wq_count q) MAX_TASKS ltac:(unfold MAX_TASKS; lia)).
  split.
  - split; simpl.
    + by rewrite length_insert.
    + done.
    + lia.
    + rewrite T, Z.rem_mod_nonneg by (unfold MAX_TASKS in *; lia).
      rewrite Zplus_mod_idemp_l. f_equal. lia.
  - unfold wq_list. simpl. rewrite T. apply ring_push; [by rewrite L|done|lia].
Qed.

Lemma wq_pop_ok q : wq_wf q -> 0 < wq_count q ->
  wq_wf (wq_pop q) /\ wq_list q = (task_ids q).[wq_head q] :: wq_list (wq_pop q).
Proof.
  intros [L H C T] Hc. assert (MAX_TASKS = Z.of_nat (length (task_ids q))) as Hn by by rewrite L.
  assert (Z.rem (wq_head q + 1) MAX_TASKS = (wq_head q + 1) mod MAX_TASKS) as Hm
    by (apply Z.rem_mod_nonneg; unfold MAX_TASKS in *; lia).
  split.
  - split; simpl.
    + by rewrite length_insert.
    + rewrite Hm. apply Z.mod_pos_bound. unfold MAX_TASKS. lia.
    + lia.
    + rewrite T, Hm, Zplus_mod_idemp_l. f_equal. lia.
  - unfold wq_list. simpl. rewrite Hm, (ring_overwrite _ MAX_TASKS) by (done || lia).
    by apply ring_pop.
Qed.

Lemma wq_list_empty q : wq_wf q -> wq_count q <= 0 -> wq_list q = [].
Proof. intros W Hc. apply nil_length_inv. pose proof (wq_list_length q W). lia. Qed.

Lemma wait_queue_init_ok : wq_wf wait_queue_init /\ wq_list wait_queue_init = [].
Proof. split; [|done]. split; vm_compute; try split; congruence. Qed.
Lemma wait_queue_zero_ok : wq_wf wait_queue_zero /\ wq_list wait_queue_zero = [].
Proof. split; [|done]. split; vm_compute; try split; congruence. Qed.

(** ** Waking *)

Definition wakeable (s : Sched) (id : Z) : bool :=
  (0 <=? id) && (id <? os_task_count s) && (state (task s id) =? TASK_STATE_BLOCKED).

(** The abstract operation: the first blocked task of the queue, and what is
    left behind it. *)
Fixpoint first_wakeable (s : Sched) (l : list Z) : option (Z * list Z) :=
  match l with
  | [] => None
  | id :: l' => if wakeable s id then Some (id, l') else first_wakeable s l'
  end.

Lemma first_wakeable_enter (s : Sched) l : first_wakeable (enter s) l = first_wakeable s l.
Proof. induction l as [|id l IH]; simpl; [done|]. by rewrite IH. Qed.

Lemma wake_loop_ok fuel : forall q (s : Sched), wq_wf q -> Z.to_nat (wq_count q) = fuel ->
  exists q', wq_wf q' /\
    match first_wakeable s (wq_list q) with
    | None => wake_loop fuel q s = (s, (q', 0)) /\ wq_list q' = []
    | Some (id, l) => wakeable s id = true /\
        wake_loop fuel q s = (wake_task id s, (q', 1)) /\ wq_list q' = l
    end.
Proof.
  induction fuel as [|fuel IH]; intros q s W Hf; simpl.
  - exists q. split; [done|]. rewrite wq_list_empty by (done || lia). done.
  - destruct (Z.ltb_spec 0 (wq_count q)); [|lia].
    destruct (wq_pop_ok q W) as [W' ->]; [done|]. simpl.
    fold (wakeable s (task_ids q).[wq_head q]). case_if.
    + exists (wq_pop q). done.
    + apply IH; [done|]. simpl. lia.
Qed.

Lemma wake_task_ok id (s : Sched) : sched_wf s -> wakeable s id = true ->
  frame s (wake_task id s) /\
  forall j, 0 <= j -> task (wake_task id s) j = if id =? j then woken (task s j) else task s j.
Proof.
  intros W Hw. unfold wakeable in Hw. bsimpl. pose proof (wf_count s W).
  split; [etrans; [apply frame_upd|apply frame_metrics]|]. intros j Hj.
  unfold wake_task. rewrite task_metrics, task_upd_wf by (done || lia).
  by destruct (Z.eqb_spec id j) as [<-|].
Qed.

(** A critical section that neither starts nor ends a task's run. *)
Lemma section_kept (s s1 : Sched) : sched_ok s -> frame (enter s) s1 ->
  running_only (fun i => i = os_current_task s) s1 ->
  state (task s1 (os_current_task s)) = TASK_STATE_RUNNING ->
  let s' := irq_lock_release (irq_enabled s) s1 in kept s s' /\ os_current_task s' = os_current_task s.
Proof.
  intros O F R Hst s'. destruct (release_outside s s1 F) as (Out & U & Hsys & Ht).
  fold s' in Out, U, Hsys, Ht.
  assert (os_current_task s' = os_current_task s) as Hc by (rewrite Hsys; apply F).
  split; [|done]. split; [|done|done|rewrite Hsys; apply F]. split.
  - apply (wf_sys s1); [done|]. eapply frame_wf; [done|]. by apply wf_enter, O.
  - done.
  - by rewrite Hc.
  - rewrite Hc. exact R.
Qed.

Lemma wake_task_kept id (s : Sched) : sched_ok s -> wakeable (enter s) id = true ->
  let s' := irq_lock_release (irq_enabled s) (wake_task id (enter s)) in
  kept s s' /\ os_current_task s' = os_current_task s.
Proof.
  intros O Hw. pose proof (wf_enter s (ok_wf s O)) as We.
  destruct (wake_task_ok id _ We Hw) as [F T].
  pose proof (wf_cur s (ok_wf s O)). apply section_kept; [done|done| |].
  - intros j Hj. rewrite T by lia. case_if; [done|]. by apply O.
  - rewrite T by lia. destruct (Z.eqb_spec id (os_current_task s)) as [->|]; [|apply O].
    apply andb_true_iff in Hw as [_ Hb%Z.eqb_eq].
    by pose proof (eq_trans (eq_sym (ok_current s O)) Hb).
Qed.

Lemma section_same (s : Sched) : sched_ok s ->
  irq_lock_release (irq_enabled s) (enter s) = s.
Proof. intros O. pose proof (ok_unlocked s O) as U. destruct s. simpl in U. by rewrite U. Qed.

(** The effect of a wake on the table. *)
Definition woke (s s' : Sched) (id : Z) : Prop :=
  forall j, 0 <= j -> task s' j = if id =? j then woken (task s j) else task s j.

Lemma wake_one_ok q (s : Sched) : sched_ok s -> wq_wf q ->
  exists s' q' w, wait_queue_wake_one q s = Some (s', q', w) /\ kept s s' /\
    os_current_task s' = os_current_task s /\ wq_wf q' /\
    match first_wakeable s (wq_list q) with
    | None => w = 0 /\ s' = s /\ wq_list q' = []
    | Some (id, l) => w = 1 /\ wakeable s id = true /\ woke s s' id /\ wq_list q' = l
    end.
Proof.
  intros O W. unfold wait_queue_wake_one.
  destruct (wake_loop_ok _ q (enter s) W eq_refl) as (q' & W' & Hm).
  rewrite first_wakeable_enter in Hm.
  destruct (first_wakeable s (wq_list q)) as [[id l]|].
  - destruct Hm as (Hw & Hl & Hq). erewrite with_lock_bind; [|apply O|exact Hl].
    destruct (wake_task_kept id s O Hw) as [K Hc].
    eexists _, _, _. split; [reflexivity|]. split; [exact K|]. split; [exact Hc|].
    split; [done|]. split; [done|]. split; [done|]. split; [|done].
    destruct (wake_task_ok id (enter s) (wf_enter s (ok_wf s O)) Hw) as [_ T]. exact T.
  - destruct Hm as [Hl Hq]. erewrite with_lock_bind; [|apply O|exact Hl].
    rewrite section_same by done. exists s, q', 0. by split_and!.
Qed.

(** ** Waking everybody *)

Lemma first_wakeable_spec (s : Sched) l :
  match first_wakeable s l with
  | None => forall id, id ∈ l -> wakeable s id = false
  | Some (id, l') => exists dropped, l = dropped ++ id :: l' /\ wakeable s id = true /\
                       forall i, i ∈ dropped -> wakeable s i = false
  end.
Proof.
  induction l as [|id l IH]; simpl; [by intros ? ?%elem_of_nil|].
  destruct (wakeable s id) eqn:E.
  - exists []. split_and!; [done|done|]. by intros ? ?%elem_of_nil.
  - destruct (first_wakeable s l) as [[i l']|].
    + destruct IH as (d & -> & Hw & Hd). exists (id :: d). split_and!; [done|done|].
      intros j [->|Hj]%elem_of_cons; [done|by apply Hd].
    + intros j [->|Hj]%elem_of_cons; [done|by apply IH].
Qed.

(** The tasks a broadcast wakes. *)
Definition sleepers (s : Sched) (l : list Z) : gset Z :=
  filter (fun id => wakeable s id = true) (list_to_set l).

Lemma wakeable_woke (s s' : Sched) id j : sched_wf s -> os_task_count s' = os_task_count s ->
  woke s s' id -> wakeable s' j = negb (id =? j) && wakeable s j.
Proof.
  intros W Hc Hw. unfold wakeable. rewrite Hc. destruct (Z.leb_spec 0 j); simpl; [|by rewrite andb_false_r].
  rewrite Hw by done. destruct (id =? j); simpl; [by rewrite andb_false_r|done].
Qed.

Lemma sleepers_step (s s' : Sched) id dropped l : sched_wf s -> os_task_count s' = os_task_count s ->
  woke s s' id -> wakeable s id = true -> (forall i, i ∈ dropped -> wakeable s i = false) ->
  sleepers s (dropped ++ id :: l) = {[id]} ∪ sleepers s' l /\ id ∉ sleepers s' l.
Proof.
  intros W Hc Hw Hid Hd. unfold sleepers. split.
  - apply set_eq. intros j. rewrite elem_of_union, !elem_of_filter, elem_of_singleton, !elem_of_list_to_set.
    rewrite (wakeable_woke s s' id j) by done. rewrite elem_of_app, elem_of_cons.
    destruct (Z.eqb_spec id j) as [<-|Hne]; simpl; [naive_solver|].
    split; [intros [Hj [Hin|[->|Hin]]]|naive_solver]; [|done|by right].
    rewrite (Hd j Hin) in Hj. done.
  - rewrite elem_of_filter, (wakeable_woke s s' id id), Z.eqb_refl by done. by intros [? _].
Qed.

Lemma wake_all_ok fuel : forall q total (s : Sched), sched_ok s -> wq_wf q ->
  (length (wq_list q) < fuel)%nat ->
  exists s' q', wake_all_loop fuel q total s
      = Some (s', q', total + Z.of_nat (size (sleepers s (wq_list q)))) /\
    kept s s' /\ os_current_task s' = os_current_task s /\ wq_wf q' /\ wq_list q' = [] /\
    forall j, 0 <= j -> task s' j = if decide (j ∈ sleepers s (wq_list q))
                                    then woken (task s j) else task s j.
Proof.
  induction fuel as [|fuel IH]; intros q total s O W Hf; [lia|]. simpl.
  destruct (wake_one_ok q s O W) as (s1 & q1 & w & -> & K1 & Hc1 & W1 & Hm). simpl.
  pose proof (first_wakeable_spec s (wq_list q)) as Hs.
  destruct (first_wakeable s (wq_list q)) as [[id l]|].
  - destruct Hm as (-> & Hid & Hw & Hl). destruct Hs as (d & Heq & _ & Hd). simpl.
    destruct (IH q1 (total + 1) s1) as (s' & q' & Hr & K & Hc & W' & Hn & T);
      [apply K1|done|rewrite Hl; rewrite Heq, length_app in Hf; simpl in Hf; lia|].
    pose proof (wf_count s (ok_wf s O)).
    destruct (sleepers_step s s1 id d l (ok_wf s O) (kp_count _ _ K1) Hw Hid Hd) as [Hset Hnin].
    rewrite <- Hl in Hset, Hnin. rewrite Heq, <- Hl, Hset.
    exists s', q'. rewrite size_union by set_solver. rewrite size_singleton.
    split; [rewrite Hr; do 2 f_equal; lia|]. split; [by eapply kept_trans|].
    split; [congruence|]. split; [done|]. split; [done|]. intros j Hj. rewrite T, Hw by done.
    assert (0 <= id) by (unfold wakeable in Hid; bsimpl; lia).
    destruct (Z.eqb_spec id j) as [<-|Hne].
    + destruct (decide (id ∈ sleepers s1 (wq_list q1))); [done|].
      destruct (decide (id ∈ _)); [done|set_solver].
    + destruct (decide (j ∈ sleepers s1 (wq_list q1))), (decide (j ∈ _)); set_solver.
  - destruct Hm as (-> & -> & Hl). simpl.
    assert (sleepers s (wq_list q) = ∅) as ->.
    { apply set_eq. intros j. unfold sleepers. rewrite elem_of_filter, elem_of_list_to_set.
      split; [|set_solver]. intros [Hw Hin]. by rewrite (Hs j Hin) in Hw. }
    rewrite size_empty. exists s, q1. split; [do 2 f_equal; lia|]. split_and!; try done.
Qed.

(** ** Waiting *)

Definition blocked (deadline : option Z) (t : TCB) : TCB :=
  match deadline with
  | Some d => t <| state := TASK_STATE_BLOCKED |> <| wake_tick := d |>
  | None => t <| state := TASK_STATE_BLOCKED |>
  end.

Lemma enqueue_ok dl q (s : Sched) : sched_ok s -> wq_wf q -> wq_count q < MAX_TASKS ->
  let s1 := fst (enqueue_current dl q (enter s)) in
  snd (enqueue_current dl q (enter s)) = wq_push (os_current_task s) q /\
  frame (enter s) s1 /\ running_only (fun _ => False) s1 /\
  forall j, 0 <= j -> task s1 j = if os_current_task s =? j then blocked dl (task s j) else task s j.
Proof.
  intros O W Hc. unfold enqueue_current. rewrite (proj2 (Z.ltb_lt _ _) Hc).
  set (cur := os_current_task (enter s)). change (os_current_task s) with cur.
  pose proof (wf_enter s (ok_wf s O)) as We.
  assert (0 <= cur < MAX_TASKS) as Hcur by (destruct (ok_wf s O); unfold cur; simpl; lia).
  set (s1 := upd cur _ (enter s)).
  assert (frame (enter s) s1) as F1 by apply frame_upd.
  assert (running_only (fun _ => False) s1) as R1 by by apply leave_current.
  assert (forall j, 0 <= j -> task s1 j = if cur =? j then blocked None (task s j) else task s j) as T1.
  { intros j Hj. unfold s1. rewrite task_upd_wf by done.
    by destruct (Z.eqb_spec cur j) as [<-|]. }
  pose proof (frame_wf _ _ F1 We) as W1. destruct dl as [d|]; [|done]. cbn [fst snd].
  split; [done|]. split; [etrans; [exact F1|apply frame_upd]|]. split.
  - by apply running_upd.
  - intros j Hj. rewrite task_upd_wf, !T1 by (done || lia). rewrite Z.eqb_refl.
    by destruct (Z.eqb_spec cur j) as [<-|].
Qed.

(** A wait on a queue with room blocks the current task behind the others and
    switches. *)
Lemma wait_ok q (s : Sched) : sched_ok s -> wq_wf q -> wq_count q < MAX_TASKS ->
  exists s1 s' q' sw, wait_queue_wait q s = Some (s', q', sw) /\ gave_way s s1 s' /\
    frame (enter s) s1 /\ wq_wf q' /\ wq_list q' = wq_list q ++ [os_current_task s] /\
    forall j, 0 <= j -> task s1 j = if os_current_task s =? j then blocked None (task s j) else task s j.
Proof.
  intros O W Hc. destruct (enqueue_ok None q s O W Hc) as (Hq & F & R & T).
  destruct (wq_push_ok (os_current_task s) q W Hc) as [W' Hl].
  destruct (switch_away_full s _ (ok_wf s O) F R) as (s' & sw & Hs & G).
  exists (fst (enqueue_current None q (enter s))), s', (wq_push (os_current_task s) q), sw.
  split; [|done]. unfold wait_queue_wait. erewrite with_lock_bind; [|apply O|].
  - cbv beta iota. rewrite Hs. reflexivity.
  - by rewrite (surjective_pairing (enqueue_current None q (enter s))), Hq.
Qed.

Lemma wait_timeout_ok q m (s : Sched) : sched_ok s -> wq_wf q -> wq_count q < MAX_TASKS -> m <> 0 ->
  exists s1 s' q' sw, wait_queue_wait_timeout q m s
      = Some (s', q', Waiting (scheduler_ticks s +u m) sw) /\ gave_way s s1 s' /\
    frame (enter s) s1 /\ wq_wf q' /\ wq_list q' = wq_list q ++ [os_current_task s] /\
    forall j, 0 <= j -> task s1 j = if os_current_task s =? j
      then blocked (Some (scheduler_ticks s +u m)) (task s j) else task s j.
Proof.
  intros O W Hc Hm. set (d := scheduler_ticks s +u m).
  destruct (enqueue_ok (Some d) q s O W Hc) as (Hq & F & R & T).
  destruct (wq_push_ok (os_current_task s) q W Hc) as [W' Hl].
  destruct (switch_away_full s _ (ok_wf s O) F R) as (s' & sw & Hs & G).
  exists (fst (enqueue_current (Some d) q (enter s))), s', (wq_push (os_current_task s) q), sw.
  split; [|done]. unfold wait_queue_wait_timeout. destruct (Z.eqb_spec m 0); [done|].
  rewrite (with_lock_bind _ _ s (fst (enqueue_current (Some d) q (enter s)))
             (wq_push (os_current_task s) q, d)).
  - cbv beta iota. by rewrite Hs.
  - apply O.
  - cbv beta zeta. change (scheduler_ticks (enter s) +u m) with d.
    by rewrite (surjective_pairing (enqueue_current (Some d) q (enter s))), Hq.
Qed.

Lemma timeout_result_ok deadline (s : Sched) : sched_ok s ->
  timeout_result deadline s = Some (s, if deadline <=? scheduler_ticks s then 0 else 1).
Proof.
  intros O. unfold timeout_result. rewrite with_lock_ok by apply O. cbn [fst snd].
  by rewrite section_same.
Qed.

(** ** Channels *)

Record ch_wf (c : ipc_channel_t) : Prop := {
  ch_len : length (queue c) = Z.to_nat IPC_QUEUE_CAPACITY;
  ch_head_range : 0 <= ch_head c < IPC_QUEUE_CAPACITY;
  ch_count_range : 0 <= ch_count c <= IPC_QUEUE_CAPACITY;
  ch_tail_eq : ch_tail c = (ch_head c + ch_count c) mod IPC_QUEUE_CAPACITY
}.

Definition ch_list (c : ipc_channel_t) : list Z := ring_list (queue c) (ch_head c) (ch_count c).

Lemma ch_list_length c : ch_wf c -> Z.of_nat (length (ch_list c)) = ch_count c.
Proof. intros [_ _ ? _]. unfold ch_list. rewrite ring_list_length. lia. Qed.

(** The messages each channel holds, oldest first. *)
Definition ipc_view (s : Sched) : list (list Z) := ch_list <$> ipc_channels s.

Record ipc_wf (s : Sched) : Prop := {
  iw_chan_len : length (ipc_channels s) = Z.to_nat IPC_CHANNELS;
  iw_send_len : length (ipc_send_waiters s) = Z.to_nat IPC_CHANNELS;
  iw_recv_len : length (ipc_recv_waiters s) = Z.to_nat IPC_CHANNELS;
  iw_chan : Forall ch_wf (ipc_channels s);
  iw_send : Forall wq_wf (ipc_send_waiters s);
  iw_recv : Forall wq_wf (ipc_recv_waiters s);
  iw_uninit : ipc_initialized s = 0 -> Forall (fun c => ch_list c = []) (ipc_channels s)
}.

Lemma outside_ipc (s s' : Sched) : outside s s' -> ipc_wf s -> ipc_wf s'.
Proof.
  intros O [L1 L2 L3 C1 C2 C3 U].
  split; rewrite ?(out_chan _ _ O), ?(out_sendw _ _ O), ?(out_recvw _ _ O), ?(out_init _ _ O); done.
Qed.

Lemma outside_view (s s' : Sched) : outside s s' -> ipc_view s' = ipc_view s.
Proof. intros O. unfold ipc_view. by rewrite (out_chan _ _ O). Qed.

Lemma ipc_channel_init_ok : ch_wf ipc_channel_init /\ ch_list ipc_channel_init = [].
Proof. split; [|done]. split; vm_compute; try split; congruence. Qed.

Lemma empty_view l : length l = Z.to_nat IPC_CHANNELS -> Forall (fun c => ch_list c = []) l ->
  ch_list <$> l = replicate (Z.to_nat IPC_CHANNELS) [].
Proof.
  intros <-. induction 1 as [|c l Hc _ IH]; [done|].
  rewrite fmap_cons, Hc. cbn [length replicate]. by rewrite IH.
Qed.

(** The one-time initialisation leaves the contents as they are. *)
Lemma ipc_init_once_ok (s : Sched) : sched_ok s -> ipc_wf s ->
  let s' := ipc_init_once s in
  sched_ok s' /\ ipc_wf s' /\ ipc_view s' = ipc_view s /\ sys s' = sys s /\
  irq_enabled s' = irq_enabled s /\ scheduler_ticks s' = scheduler_ticks s.
Proof.
  intros O I s'. unfold s', ipc_init_once. case_if; [done|].
  apply negb_false_iff, Z.eqb_eq in E. destruct ipc_channel_init_ok as [Cw Cl].
  destruct wait_queue_init_ok as [Qw _].
  split; [destruct O as [W U C R]; split; [by apply (wf_sys s)|done..]|].
  split.
  - split; simpl; try done; intros; repeat (constructor; [done|]); constructor.
  - split; [|done]. unfold ipc_view. simpl ipc_channels. symmetry.
    apply empty_view; [apply I|]. by apply I.
Qed.

Lemma upd_channel_kept c ch (s : Sched) : sched_ok s ->
  sched_ok (upd_channel c ch s).
Proof. intros [W U C R]. split; [by apply (wf_sys s)|done..]. Qed.

Lemma chan_lookup (s : Sched) c : ipc_wf s -> valid_channel c = true ->
  exists ch, ipc_channels s !! Z.to_nat c = Some ch /\ ch_wf ch /\ (ipc_channels s).[c] = ch.
Proof.
  intros I Hv. unfold valid_channel in Hv. bsimpl.
  destruct (lookup_lt_is_Some_2 (ipc_channels s) (Z.to_nat c)) as [ch Hch].
  { rewrite (iw_chan_len s I). lia. }
  exists ch. split; [done|]. split; [by eapply Forall_lookup_1; [apply I|]|].
  by apply list_lookup_total_correct.
Qed.

Lemma waiter_wf l c : length l = Z.to_nat IPC_CHANNELS -> Forall wq_wf l -> valid_channel c = true ->
  wq_wf l.[c].
Proof.
  intros Hl Hf Hv. unfold valid_channel in Hv. bsimpl.
  apply (Forall_lookup_1 _ l (Z.to_nat c)); [done|]. apply lookup_total_Some. lia.
Qed.

(** ** Sending and receiving *)

(** The abstract channels: four bounded queues. *)
Definition chan_send (c v : Z) (st : list (list Z)) : list (list Z) * Z :=
  if negb (valid_channel c) then (st, 0)
  else if Z.of_nat (length st.[c]) <? IPC_QUEUE_CAPACITY
  then (<[Z.to_nat c := st.[c] ++ [v]]> st, 1) else (st, 0).

Definition chan_recv (c : Z) (st : list (list Z)) : list (list Z) * Z * option Z :=
  if negb (valid_channel c) then (st, 0, None)
  else match st.[c] with
       | [] => (st, 0, None)
       | v :: l => (<[Z.to_nat c := l]> st, 1, Some v)
       end.

Definition chan_depth (c : Z) (st : list (list Z)) : Z :=
  if negb (valid_channel c) then -1 else Z.of_nat (length st.[c]).

(** What every call guarantees. *)
Record ipc_kept (s s' : Sched) : Prop := {
  ik_ok : sched_ok s';
  ik_ipc : ipc_wf s';
  ik_irq : irq_enabled s' = irq_enabled s
}.

Lemma ipc_kept_trans (s1 s2 s3 : Sched) : ipc_kept s1 s2 -> ipc_kept s2 s3 -> ipc_kept s1 s3.
Proof. intros [] []. split; [done..|congruence]. Qed.

Lemma kept_ipc (s s' : Sched) : ipc_wf s -> kept s s' -> ipc_kept s s' /\ ipc_view s' = ipc_view s.
Proof.
  intros I K. split; [split; [apply K|by eapply outside_ipc; [apply K|]|apply K]|].
  by apply outside_view, K.
Qed.

Lemma init_kept (s : Sched) : sched_ok s -> ipc_wf s ->
  ipc_kept s (ipc_init_once s) /\ ipc_view (ipc_init_once s) = ipc_view s.
Proof.
  intros O I. destruct (ipc_init_once_ok s O I) as (O' & I' & V & _ & H & _).
  split; [by split|done].
Qed.

Lemma view_total (s : Sched) c ch : ipc_channels s !! Z.to_nat c = Some ch ->
  (ipc_view s).[c] = ch_list ch.
Proof.
  intros H. apply list_lookup_total_correct. unfold ipc_view. by rewrite list_lookup_fmap, H.
Qed.

(** Storing a well-formed channel. *)
Lemma upd_channel_ok c ch (s : Sched) : sched_ok s -> ipc_wf s -> valid_channel c = true ->
  ipc_initialized s <> 0 -> ch_wf ch ->
  ipc_kept s (upd_channel c ch s) /\ ipc_view (upd_channel c ch s) = <[Z.to_nat c := ch_list ch]> (ipc_view s).
Proof.
  intros O [L1 L2 L3 C1 C2 C3 U] Hv Hi Hch. split.
  - split; [by apply upd_channel_kept| |done]. split; simpl; try done.
    + by rewrite length_insert.
    + by apply Forall_insert.
  - unfold ipc_view, upd_channel. simpl ipc_channels. by rewrite list_fmap_insert.
Qed.

(** Storing a well-formed wait queue. *)
Lemma set_waiters_ok (send : bool) c q (s : Sched) : sched_ok s -> ipc_wf s -> wq_wf q ->
  let s' := if send then s <| ipc_send_waiters ::= <[Z.to_nat c := q]> |>
            else s <| ipc_recv_waiters ::= <[Z.to_nat c := q]> |> in
  ipc_kept s s' /\ ipc_view s' = ipc_view s /\ sys s' = sys s /\ scheduler_ticks s' = scheduler_ticks s.
Proof.
  intros O [L1 L2 L3 C1 C2 C3 U] Hq. destruct O as [W Ul Cu R].
  destruct send; (split; [|done]); split; try done.
  1,3: split; try done; by apply (wf_sys s).
  all: split; simpl; try done; by rewrite ?length_insert || by apply Forall_insert.
Qed.

Lemma put_section_ok c ch (s : Sched) : ipc_channels s !! Z.to_nat c = Some ch ->
  ch_wf ch -> forall v,
  if Z.of_nat (length (ch_list ch)) <? IPC_QUEUE_CAPACITY
  then exists ch', ch_wf ch' /\ ch_list ch' = ch_list ch ++ [v] /\
         ipc_put c v s = (upd_channel c ch' s, Some true)
  else ipc_put c v s = (s, None).
Proof.
  intros Hch W v. unfold ipc_put. rewrite (list_lookup_total_correct _ _ _ Hch).
  rewrite ch_list_length by done. rewrite Z.ltb_antisym. destruct W as [L H C T].
  destruct (Z.leb_spec IPC_QUEUE_CAPACITY (ch_count ch)); simpl; [done|].
  eexists. split; [|split; [|simpl; by rewrite (proj2 (Z.ltb_lt 0 (ch_count ch + 1))) by lia]].
  - split; simpl.
    + by rewrite length_insert.
    + done.
    + lia.
    + rewrite T, Z.rem_mod_nonneg.
      * rewrite Zplus_mod_idemp_l. f_equal. lia.
      * pose proof (Z.mod_pos_bound (ch_head ch + ch_count ch) IPC_QUEUE_CAPACITY). 
        unfold IPC_QUEUE_CAPACITY in *. lia.
      * unfold IPC_QUEUE_CAPACITY. lia.
  - unfold ch_list. simpl. rewrite T. apply ring_push; [by rewrite L|done|lia].
Qed.

Lemma get_section_ok c ch (s : Sched) : ipc_channels s !! Z.to_nat c = Some ch ->
  ch_wf ch ->
  match ch_list ch with
  | [] => ipc_get c s = (s, None)
  | v :: l => exists ch', ch_wf ch' /\ ch_list ch' = l /\
                ipc_get c s = (upd_channel c ch' s, Some (v, true))
  end.
Proof.
  intros Hch W. unfold ipc_get. rewrite (list_lookup_total_correct _ _ _ Hch).
  pose proof (ch_list_length ch W) as Hl. destruct W as [L H C T].
  destruct (Z.leb_spec (ch_count ch) 0).
  - by rewrite (nil_length_inv (ch_list ch)) by lia.
  - assert (IPC_QUEUE_CAPACITY = Z.of_nat (length (queue ch))) as Hn by by rewrite L.
    assert (Z.rem (ch_head ch + 1) IPC_QUEUE_CAPACITY = (ch_head ch + 1) mod IPC_QUEUE_CAPACITY) as Hm
      by (apply Z.rem_mod_nonneg; unfold IPC_QUEUE_CAPACITY in *; lia).
    unfold ch_list. rewrite (ring_pop _ IPC_QUEUE_CAPACITY) by (done || lia). rewrite Hm.
    eexists. split; [|split; [|simpl;
      by rewrite (proj2 (Z.ltb_lt (ch_count ch - 1) IPC_QUEUE_CAPACITY)) by lia]].
    + split; simpl; [done| |lia|].
      * apply Z.mod_pos_bound. unfold IPC_QUEUE_CAPACITY. lia.
      * rewrite T, Zplus_mod_idemp_l. f_equal. lia.
    + done.
Qed.

(** The critical section of a channel call around the initialised state. *)
Lemma channel_section c ch (s : Sched) : sched_ok s -> ipc_wf s -> ipc_initialized s <> 0 ->
  valid_channel c = true -> ch_wf ch ->
  let s' := irq_lock_release (irq_enabled s) (upd_channel c ch (enter s)) in
  ipc_kept s s' /\ ipc_view s' = <[Z.to_nat c := ch_list ch]> (ipc_view s).
Proof.
  intros O I Hi Hv Hch s'. assert (s' = upd_channel c ch s) as ->.
  { pose proof (ok_unlocked s O) as U. unfold s'. destruct s. simpl in U. subst. done. }
  by apply upd_channel_ok.
Qed.

Lemma ipc_initialized_init (s : Sched) : ipc_initialized (ipc_init_once s) <> 0.
Proof. unfold ipc_init_once. case_if; [|done]. apply negb_true_iff, Z.eqb_neq in E. done. Qed.

(** The wake that follows a successful call. *)
Lemma wake_waiter_ok (send : bool) c (s : Sched) : sched_ok s -> ipc_wf s -> valid_channel c = true ->
  let l := if send then ipc_send_waiters s else ipc_recv_waiters s in
  exists s1 q w, wait_queue_wake_one l.[c] s = Some (s1, q, w) /\
    let s' := if send then s1 <| ipc_send_waiters ::= <[Z.to_nat c := q]> |>
              else s1 <| ipc_recv_waiters ::= <[Z.to_nat c := q]> |> in
    ipc_kept s s' /\ ipc_view s' = ipc_view s.
Proof.
  intros O I Hv l. assert (wq_wf l.[c]) as Wl.
  { unfold l. destruct send; apply waiter_wf; try done; apply I. }
  destruct (wake_one_ok l.[c] s O Wl) as (s1 & q & w & Hw & K & _ & Wq & _).
  destruct (kept_ipc s s1 I K) as [K1 V1].
  destruct (set_waiters_ok send c q s1 (ik_ok _ _ K1) (ik_ipc _ _ K1) Wq) as (K2 & V2 & _).
  exists s1, q, w. split; [done|]. split; [by eapply ipc_kept_trans|congruence].
Qed.

Lemma ipc_send_ok c v (s : Sched) : sched_ok s -> ipc_wf s ->
  exists s' r, ipc_send c v s = Some (s', r) /\ ipc_kept s s' /\
    (ipc_view s', r) = chan_send c v (ipc_view s) /\
    (r = 0 -> s' = if valid_channel c then ipc_init_once s else s).
Proof.
  intros O I. unfold ipc_send, chan_send. destruct (valid_channel c) eqn:Hv; simpl; [|by exists s, 0].
  destruct (ipc_init_once_ok s O I) as (O1 & I1 & V1 & _). destruct (init_kept s O I) as [K1 _].
  set (s1 := ipc_init_once s) in *.
  destruct (chan_lookup s1 c I1 Hv) as (ch & Hch & Wch & _).
  rewrite <- V1, (view_total s1 c ch Hch).
  pose proof (put_section_ok c ch (enter s1) Hch Wch v) as Hput.
  destruct (Z.ltb_spec (Z.of_nat (length (ch_list ch))) IPC_QUEUE_CAPACITY).
  - destruct Hput as (ch' & Wch' & Hl & Hput).
    erewrite with_lock_bind; [|apply O1|exact Hput]. cbv beta iota.
    destruct (channel_section c ch' s1 O1 I1 (ipc_initialized_init s) Hv Wch') as [K2 V2].
    set (s2 := irq_lock_release _ _) in *.
    destruct (wake_waiter_ok false c s2 (ik_ok _ _ K2) (ik_ipc _ _ K2) Hv)
      as (s3 & q & w & Hw & K3 & V3).
    rewrite Hw. eexists _, _. split; [reflexivity|]. split_and!.
    + eapply ipc_kept_trans; [exact K1|]. by eapply ipc_kept_trans.
    + by rewrite V3, V2, Hl.
    + done.
  - erewrite with_lock_bind; [|apply O1|exact Hput]. cbv beta iota. rewrite section_same by done.
    by eexists _, _.
Qed.

Lemma ipc_recv_ok c (s : Sched) : sched_ok s -> ipc_wf s ->
  exists s' r v, ipc_recv c s = Some (s', r, v) /\ ipc_kept s s' /\
    (ipc_view s', r, v) = chan_recv c (ipc_view s) /\
    (r = 0 -> s' = if valid_channel c then ipc_init_once s else s).
Proof.
  intros O I. unfold ipc_recv, chan_recv. destruct (valid_channel c) eqn:Hv; simpl; [|by exists s, 0, None].
  destruct (ipc_init_once_ok s O I) as (O1 & I1 & V1 & _). destruct (init_kept s O I) as [K1 _].
  set (s1 := ipc_init_once s) in *.
  destruct (chan_lookup s1 c I1 Hv) as (ch & Hch & Wch & _).
  rewrite <- V1, (view_total s1 c ch Hch).
  pose proof (get_section_ok c ch (enter s1) Hch Wch) as Hget.
  destruct (ch_list ch) as [|v l].
  - erewrite with_lock_bind; [|apply O1|exact Hget]. cbv beta iota. rewrite section_same by done.
    by eexists _, _, _.
  - destruct Hget as (ch' & Wch' & Hl & Hget).
    erewrite with_lock_bind; [|apply O1|exact Hget]. cbv beta iota.
    destruct (channel_section c ch' s1 O1 I1 (ipc_initialized_init s) Hv Wch') as [K2 V2].
    set (s2 := irq_lock_release _ _) in *.
    destruct (wake_waiter_ok true c s2 (ik_ok _ _ K2) (ik_ipc _ _ K2) Hv)
      as (s3 & q & w & Hw & K3 & V3).
    rewrite Hw. eexists _, _, _. split; [reflexivity|]. split_and!.
    + eapply ipc_kept_trans; [exact K1|]. by eapply ipc_kept_trans.
    + by rewrite V3, V2, Hl.
    + done.
Qed.

Lemma ipc_queue_depth_ok c (s : Sched) : sched_ok s -> ipc_wf s ->
  exists s', ipc_queue_depth c s = Some (s', chan_depth c (ipc_view s)) /\ ipc_kept s s' /\
    ipc_view s' = ipc_view s.
Proof.
  intros O I. unfold ipc_queue_depth, chan_depth. destruct (valid_channel c) eqn:Hv; simpl; [|by exists s].
  destruct (ipc_init_once_ok s O I) as (O1 & I1 & V1 & _). destruct (init_kept s O I) as [K1 _].
  set (s1 := ipc_init_once s) in *. rewrite with_lock_ok by apply O1. cbn [fst snd].
  destruct (chan_lookup s1 c I1 Hv) as (ch & Hch & Wch & Ht). change (ipc_channels (enter s1)) with (ipc_channels s1).
  rewrite section_same, Ht, <- V1, (view_total s1 c ch Hch), ch_list_length by done. by exists s1.
Qed.

(** ** Blocking calls *)

(** The wait queue of a channel has room for one more task. *)
Definition room (send : bool) (c : Z) (s : Sched) : Prop :=
  valid_channel c = true ->
  wq_count (if send then ipc_send_waiters (ipc_init_once s) else ipc_recv_waiters (ipc_init_once s)).[c]
    < MAX_TASKS.

Lemma wait_waiter_ok (send : bool) c (s : Sched) : sched_ok s -> ipc_wf s -> valid_channel c = true ->
  wq_count (if send then ipc_send_waiters s else ipc_recv_waiters s).[c] < MAX_TASKS ->
  exists s1 q sw, wait_queue_wait (if send then ipc_send_waiters s else ipc_recv_waiters s).[c] s
      = Some (s1, q, sw) /\
    let s' := if send then s1 <| ipc_send_waiters ::= <[Z.to_nat c := q]> |>
              else s1 <| ipc_recv_waiters ::= <[Z.to_nat c := q]> |> in
    ipc_kept s s' /\ ipc_view s' = ipc_view s.
Proof.
  intros O I Hv Hc. set (l := if send then _ else _) in *. assert (wq_wf l.[c]) as Wl.
  { unfold l. destruct send; apply waiter_wf; try done; apply I. }
  destruct (wait_ok l.[c] s O Wl Hc) as (s0 & s1 & q & sw & Hw & [K _ _] & _ & Wq & _).
  destruct (kept_ipc s s1 I K) as [K1 V1].
  destruct (set_waiters_ok send c q s1 (ik_ok _ _ K1) (ik_ipc _ _ K1) Wq) as (K2 & V2 & _).
  exists s1, q, sw. split; [done|]. split; [by eapply ipc_kept_trans|congruence].
Qed.

Lemma wait_waiter_timeout_ok (send : bool) c m (s : Sched) :
  sched_ok s -> ipc_wf s -> valid_channel c = true ->
  wq_count (if send then ipc_send_waiters s else ipc_recv_waiters s).[c] < MAX_TASKS ->
  exists s1 q b, wait_queue_wait_timeout (if send then ipc_send_waiters s else ipc_recv_waiters s).[c] m s
      = Some (s1, q, b) /\ (forall r, b = Returned r -> m = 0 /\ r = 0) /\
    let s' := if send then s1 <| ipc_send_waiters ::= <[Z.to_nat c := q]> |>
              else s1 <| ipc_recv_waiters ::= <[Z.to_nat c := q]> |> in
    ipc_kept s s' /\ ipc_view s' = ipc_view s.
Proof.
  intros O I Hv Hc. set (l := if send then _ else _) in *. assert (wq_wf l.[c]) as Wl.
  { unfold l. destruct send; apply waiter_wf; try done; apply I. }
  destruct (Z.eq_dec m 0) as [->|Hm].
  - exists s, l.[c], (Returned 0). split; [done|]. split; [intros r; by injection 1 as <-|].
    destruct (set_waiters_ok send c l.[c] s O I Wl) as (K2 & V2 & _). done.
  - destruct (wait_timeout_ok l.[c] m s O Wl Hc Hm) as (s0 & s1 & q & sw & Hw & [K _ _] & _ & Wq & _).
    destruct (kept_ipc s s1 I K) as [K1 V1].
    destruct (set_waiters_ok send c q s1 (ik_ok _ _ K1) (ik_ipc _ _ K1) Wq) as (K2 & V2 & _).
    eexists s1, q, _. split; [exact Hw|]. split; [done|].
    split; [by eapply ipc_kept_trans|congruence].
Qed.

Lemma send_wait_round_ok c v (s : Sched) : sched_ok s -> ipc_wf s -> valid_channel c = true ->
  room true c s ->
  exists s' r sw, ipc_send_wait_round c v s = Some (s', r, sw) /\ ipc_kept s s' /\
    let '(st, sent) := chan_send c v (ipc_view s) in
    ipc_view s' = st /\ r = if sent =? 0 then None else Some 1.
Proof.
  intros O I Hv Hr. destruct (ipc_send_ok c v s O I) as (s1 & r & Hs & K & V & H0).
  unfold ipc_send_wait_round. rewrite Hs. rewrite <- V. cbn [mbind option_bind].
  destruct (Z.eqb_spec r 0) as [->|Hne]; simpl.
  - rewrite Hv in H0. specialize (H0 eq_refl). subst s1.
    destruct (wait_waiter_ok true c (ipc_init_once s) (ik_ok _ _ K) (ik_ipc _ _ K) Hv (Hr Hv))
      as (s2 & q & sw & Hw & K2 & V2).
    rewrite Hw. eexists _, _, _. split; [reflexivity|]. split; [by eapply ipc_kept_trans|done].
  - by eexists _, _, _.
Qed.

Lemma recv_wait_round_ok c (s : Sched) : sched_ok s -> ipc_wf s -> valid_channel c = true ->
  room false c s ->
  exists s' r sw, ipc_recv_wait_round c s = Some (s', r, sw) /\ ipc_kept s s' /\
    let '(st, got, v) := chan_recv c (ipc_view s) in
    ipc_view s' = st /\ r = if got =? 0 then None else Some (1, v).
Proof.
  intros O I Hv Hr. destruct (ipc_recv_ok c s O I) as (s1 & r & v & Hs & K & V & H0).
  unfold ipc_recv_wait_round. rewrite Hs. rewrite <- V. cbn [mbind option_bind].
  destruct (Z.eqb_spec r 0) as [->|Hne]; simpl.
  - rewrite Hv in H0. specialize (H0 eq_refl). subst s1.
    destruct (wait_waiter_ok false c (ipc_init_once s) (ik_ok _ _ K) (ik_ipc _ _ K) Hv (Hr Hv))
      as (s2 & q & sw & Hw & K2 & V2).
    rewrite Hw. eexists _, _, _. split; [reflexivity|]. split; [by eapply ipc_kept_trans|done].
  - by eexists _, _, _.
Qed.

(** A timed round either succeeds like the plain call, or leaves the channels as
    they are and returns 0 or waits. *)
Definition timed (sent : Z) (b : Blocking) : Prop :=
  if sent =? 0 then match b with Returned r => r = 0 | Waiting _ _ => True end else b = Returned 1.

Lemma send_timeout_round_ok c v m start (s : Sched) : sched_ok s -> ipc_wf s -> valid_channel c = true ->
  room true c s ->
  exists s' b, ipc_send_timeout_round c v m start s = Some (s', b) /\ ipc_kept s s' /\
    let '(st, sent) := chan_send c v (ipc_view s) in ipc_view s' = st /\ timed sent b.
Proof.
  intros O I Hv Hr. destruct (ipc_send_ok c v s O I) as (s1 & r & Hs & K & V & H0).
  unfold ipc_send_timeout_round, timed. rewrite Hs. rewrite <- V. cbn [mbind option_bind].
  destruct (Z.eqb_spec r 0) as [->|Hne]; simpl.
  - rewrite Hv in H0. specialize (H0 eq_refl). subst s1. case_if; [by eexists _, _|].
    set (el := _ -u start).
    destruct (wait_waiter_timeout_ok true c (m -u el) (ipc_init_once s) (ik_ok _ _ K) (ik_ipc _ _ K) Hv (Hr Hv))
      as (s2 & q & b & Hw & Hb & K2 & V2).
    rewrite Hw. eexists _, _. split; [reflexivity|]. split; [by eapply ipc_kept_trans|].
    split; [done|]. destruct b as [r|]; [|done]. by destruct (Hb r eq_refl).
  - by eexists _, _.
Qed.

Lemma recv_timeout_round_ok c m start (s : Sched) : sched_ok s -> ipc_wf s -> valid_channel c = true ->
  room false c s ->
  exists s' b w, ipc_recv_timeout_round c m start s = Some (s', b, w) /\ ipc_kept s s' /\
    let '(st, got, v) := chan_recv c (ipc_view s) in
    ipc_view s' = st /\ timed got b /\ w = if got =? 0 then None else v.
Proof.
  intros O I Hv Hr. destruct (ipc_recv_ok c s O I) as (s1 & r & v & Hs & K & V & H0).
  unfold ipc_recv_timeout_round, timed. rewrite Hs. rewrite <- V. cbn [mbind option_bind].
  destruct (Z.eqb_spec r 0) as [->|Hne]; simpl.
  - rewrite Hv in H0. specialize (H0 eq_refl). subst s1. case_if; [by eexists _, _, _|].
    set (el := _ -u start).
    destruct (wait_waiter_timeout_ok false c (m -u el) (ipc_init_once s) (ik_ok _ _ K) (ik_ipc _ _ K) Hv (Hr Hv))
      as (s2 & q & b & Hw & Hb & K2 & V2).
    rewrite Hw. eexists _, _, _. split; [reflexivity|]. split; [by eapply ipc_kept_trans|].
    split; [done|]. split; [|done]. destruct b as [r|]; [|done]. by destruct (Hb r eq_refl).
  - by eexists _, _, _.
Qed.

(** ** The calls on any queue *)

Lemma wait_timeout_any q m (s : Sched) : sched_ok s -> wq_wf q -> wq_count q < MAX_TASKS ->
  exists s' q' b, wait_queue_wait_timeout q m s = Some (s', q', b) /\ kept s s'.
Proof.
  intros O W Hc. destruct (Z.eq_dec m 0) as [->|Hm].
  - exists s, q, (Returned 0). split; [done|by apply kept_refl].
  - destruct (wait_timeout_ok q m s O W Hc Hm) as (s1 & s' & q' & sw & H & [K _ _] & _). eauto.
Qed.

Lemma wake_all_full q (s : Sched) : sched_ok s -> wq_wf q ->
  exists s' q', wait_queue_wake_all q s
      = Some (s', q', Z.of_nat (size (sleepers s (wq_list q)))) /\
    kept s s' /\ os_current_task s' = os_current_task s /\ wq_wf q' /\ wq_list q' = [] /\
    forall j, 0 <= j -> task s' j = if decide (j ∈ sleepers s (wq_list q))
                                    then woken (task s j) else task s j.
Proof.
  intros O W. apply (wake_all_ok (S (Z.to_nat (wq_count q))) q 0 s O W).
  pose proof (wq_list_length q W). lia.
Qed.

(** ** Properties *)

(** Two tasks blocked on a queue, with a stale entry before them. *)
Definition demo_blocked : Sched :=
  upd 1 (blocked None) (upd 2 (blocked None) demo_sched).
Definition demo_queue : wait_queue_t := wq_push 2 (wq_push 1 (wq_push 3 wait_queue_init)).

Lemma demo_blocked_ok : sched_ok demo_blocked.
Proof. sched_ok_tac. Qed.
Lemma demo_queue_ok : wq_wf demo_queue.
Proof. split; vm_compute; try split; congruence. Qed.

(** A wait puts the current task at the end of the queue, BLOCKED, and
    switches; waking one readies the first task of the queue that is still
    BLOCKED, with its deadline cleared and its boost set, drops the entries before
    it and keeps the ones behind it in order; it returns 0, with nothing changed
    and the queue emptied, exactly when no entry is BLOCKED. *)
Theorem wait_queue_fifo q (s : Sched) : sched_ok s -> wq_wf q ->
  (wq_count q < MAX_TASKS -> exists s1 s' q' sw, wait_queue_wait q s = Some (s', q', sw) /\
     gave_way s s1 s' /\ frame (enter s) s1 /\
     wq_list q' = wq_list q ++ [os_current_task s] /\
     forall j, 0 <= j -> task s1 j = if os_current_task s =? j then blocked None (task s j) else task s j) /\
  exists s' q' w, wait_queue_wake_one q s = Some (s', q', w) /\ kept s s' /\ wq_wf q' /\
    ((w = 0 /\ s' = s /\ wq_list q' = [] /\ forall id, id ∈ wq_list q -> wakeable s id = false) \/
     (w = 1 /\ exists dropped id, wq_list q = dropped ++ id :: wq_list q' /\ wakeable s id = true /\
        (forall i, i ∈ dropped -> wakeable s i = false) /\ woke s s' id)).
Proof.
  intros O W. split.
  - intros Hc. destruct (wait_ok q s O W Hc) as (s1 & s' & q' & sw & ? & ? & ? & ? & ? & ?). eauto 10.
  - destruct (wake_one_ok q s O W) as (s' & q' & w & H & K & _ & W' & Hm).
    pose proof (first_wakeable_spec s (wq_list q)) as Hs. exists s', q', w.
    split; [done|]. split; [done|]. split; [done|].
    destruct (first_wakeable s (wq_list q)) as [[id l]|].
    + destruct Hm as (-> & Hid & Hw & <-). destruct Hs as (d & Heq & _ & Hd). right. eauto 10.
    + destruct Hm as (-> & -> & Hl). left. done.
Qed.
Lemma wait_queue_fifo_witness :
  (wq_count demo_queue < MAX_TASKS -> exists s1 s' q' sw,
     wait_queue_wait demo_queue demo_blocked = Some (s', q', sw) /\
     gave_way demo_blocked s1 s' /\ frame (enter demo_blocked) s1 /\
     wq_list q' = wq_list demo_queue ++ [os_current_task demo_blocked] /\
     forall j, 0 <= j -> task s1 j = if os_current_task demo_blocked =? j
                                     then blocked None (task demo_blocked j) else task demo_blocked j) /\
  exists s' q' w, wait_queue_wake_one demo_queue demo_blocked = Some (s', q', w) /\
    kept demo_blocked s' /\ wq_wf q' /\
    ((w = 0 /\ s' = demo_blocked /\ wq_list q' = [] /\
      forall id, id ∈ wq_list demo_queue -> wakeable demo_blocked id = false) \/
     (w = 1 /\ exists dropped id, wq_list demo_queue = dropped ++ id :: wq_list q' /\
        wakeable demo_blocked id = true /\
        (forall i, i ∈ dropped -> wakeable demo_blocked i = false) /\ woke demo_blocked s' id)).
Proof. apply (wait_queue_fifo demo_queue demo_blocked demo_blocked_ok demo_queue_ok). Defined.

(** waking all ends, empties the queue, readies exactly the BLOCKED tasks that
    were on it and returns how many they are. *)
Theorem wait_queue_wake_all_correct q (s : Sched) : sched_ok s -> wq_wf q ->
  exists s' q', wait_queue_wake_all q s = Some (s', q', Z.of_nat (size (sleepers s (wq_list q)))) /\
    kept s s' /\ wq_wf q' /\ wq_list q' = [] /\
    forall j, 0 <= j -> task s' j = if decide (j ∈ sleepers s (wq_list q))
                                    then woken (task s j) else task s j.
Proof.
  intros O W. destruct (wake_all_full q s O W) as (s' & q' & ? & ? & _ & ? & ? & ?). eauto 10.
Qed.
Lemma wait_queue_wake_all_correct_witness :
  exists s' q', wait_queue_wake_all demo_queue demo_blocked
      = Some (s', q', Z.of_nat (size (sleepers demo_blocked (wq_list demo_queue)))) /\
    kept demo_blocked s' /\ wq_wf q' /\ wq_list q' = [] /\
    forall j, 0 <= j -> task s' j = if decide (j ∈ sleepers demo_blocked (wq_list demo_queue))
                                    then woken (task demo_blocked j) else task demo_blocked j.
Proof. apply (wait_queue_wake_all_correct demo_queue demo_blocked demo_blocked_ok demo_queue_ok). Defined.
