(* ===== verification/SchedMachine.v ===== *)
(** * Runs of the scheduler

    Every entry point of kernel/scheduler.c as one operation of a machine, and the
    machine against an abstract one with four bounded message queues: whatever the
    order of calls, no call ever spins on the lock, one task is [RUNNING], and the
    channels are queues of capacity sixteen. *)
From S2P Require Import Prelude Pmm Task Ring Scheduler Ipc.

Section Machine.
Context {X : Type} `{TR : TaskResources X}.

(** The calls.  A wait queue or event that belongs to the caller comes with the
    call, as its value at that moment; [OpResume] and the two channel resumes are
    what a timed call does when its task runs again. *)
Inductive Op :=
| OpYield | OpSleep (n : Z) | OpSleepTimeout (n max_ticks : Z) | OpResume (deadline : Z)
| OpExit (code : Z) | OpKill (id code : Z) | OpTick
| OpCreate (index func pd : Z) (pmm : PmmState) (mem : gmap Z Z)
| OpMetrics | OpResetMetrics
| OpWait (q : wait_queue_t) | OpWaitTimeout (q : wait_queue_t) (max_ticks : Z)
| OpWakeOne (q : wait_queue_t) | OpWakeAll (q : wait_queue_t)
| OpEventWait (e : sched_event_t) | OpEventWaitTimeout (e : sched_event_t) (max_ticks : Z)
| OpEventSignal (e : sched_event_t) | OpEventBroadcast (e : sched_event_t)
| OpSend (c v : Z) | OpRecv (c : Z) | OpDepth (c : Z)
| OpSendWait (c v : Z) | OpRecvWait (c : Z)
| OpSendTimeout (c v max_ticks : Z) | OpRecvTimeout (c max_ticks : Z)
| OpSendResume (c v max_ticks start deadline : Z) | OpRecvResume (c max_ticks start deadline : Z).

(** What a call gives its caller: nothing, a value, a value and a message, or
    nothing yet. *)
Inductive Res := RNone | RVal (r : Z) | RRecv (r : Z) (v : option Z) | RBlocked.

Definition res_blocking (b : Blocking) : Res :=
  match b with Returned r => RVal r | Waiting _ _ => RBlocked end.
Definition res_recv (b : Blocking) (v : option Z) : Res :=
  match b with Returned r => RRecv r v | Waiting _ _ => RBlocked end.

Definition exec (op : Op) (x : X) (s : Sched) : option (X * Sched * Res) :=
  match op with
  | OpYield => '(s1, _) ← task_yield s; Some (x, s1, RNone)
  | OpSleep n => '(s1, _) ← task_sleep n s; Some (x, s1, RNone)
  | OpSleepTimeout n m => '(s1, b) ← task_sleep_timeout n m s; Some (x, s1, res_blocking b)
  | OpResume d => '(s1, r) ← timeout_result d s; Some (x, s1, RVal r)
  | OpExit code => '(x1, s1, _) ← task_exit_with_code code x s; Some (x1, s1, RBlocked)
  | OpKill id code => '(x1, s1, r, _) ← task_kill id code x s; Some (x1, s1, RVal r)
  | OpTick => s1 ← scheduler_timer_tick s; Some (x, s1, RNone)
  | OpCreate index func pd pmm mem =>
      '(t, _, _) ← create_task index func pd (sys s) pmm mem; Some (x, s <| sys := t |>, RNone)
  | OpMetrics => '(s1, _) ← scheduler_get_metrics s; Some (x, s1, RNone)
  | OpResetMetrics => '(s1, _) ← scheduler_reset_metrics s; Some (x, s1, RNone)
  | OpWait q => '(s1, _, _) ← wait_queue_wait q s; Some (x, s1, RBlocked)
  | OpWaitTimeout q m => '(s1, _, b) ← wait_queue_wait_timeout q m s; Some (x, s1, res_blocking b)
  | OpWakeOne q => '(s1, _, r) ← wait_queue_wake_one q s; Some (x, s1, RVal r)
  | OpWakeAll q => '(s1, _, r) ← wait_queue_wake_all q s; Some (x, s1, RVal r)
  | OpEventWait e => '(s1, _, sw) ← sched_event_wait e s;
      Some (x, s1, match sw with None => RNone | Some _ => RBlocked end)
  | OpEventWaitTimeout e m => '(s1, _, b) ← sched_event_wait_timeout e m s; Some (x, s1, res_blocking b)
  | OpEventSignal e => '(s1, _) ← sched_event_signal e s; Some (x, s1, RNone)
  | OpEventBroadcast e => '(s1, _) ← sched_event_broadcast e s; Some (x, s1, RNone)
  | OpSend c v => '(s1, r) ← ipc_send c v s; Some (x, s1, RVal r)
  | OpRecv c => '(s1, r, v) ← ipc_recv c s; Some (x, s1, RRecv r v)
  | OpDepth c => '(s1, r) ← ipc_queue_depth c s; Some (x, s1, RVal r)
  | OpSendWait c v => '(s1, r, _) ← ipc_send_wait c v s;
      Some (x, s1, match r with Some r => RVal r | None => RBlocked end)
  | OpRecvWait c => '(s1, r, _) ← ipc_recv_wait c s;
      Some (x, s1, match r with Some (r, v) => RRecv r v | None => RBlocked end)
  | OpSendTimeout c v m => '(s1, b) ← ipc_send_timeout c v m s; Some (x, s1, res_blocking b)
  | OpRecvTimeout c m => '(s1, b, v) ← ipc_recv_timeout c m s; Some (x, s1, res_recv b v)
  | OpSendResume c v m start d =>
      '(s1, b) ← ipc_send_timeout_resume c v m start d s; Some (x, s1, res_blocking b)
  | OpRecvResume c m start d =>
      '(s1, b, v) ← ipc_recv_timeout_resume c m start d s; Some (x, s1, res_recv b v)
  end.

(** What the callers must see to: a queue is well formed and has room when its
    task waits, a new task does not replace the running one (its stack comes from
    a page allocator in order), and a timed channel call is resumed on its
    channel. *)
Definition allowed (op : Op) (s : Sched) : Prop :=
  match op with
  | OpCreate index func pd pmm mem =>
      index <> os_current_task s /\ is_Some (create_task index func pd (sys s) pmm mem)
  | OpWait q => wq_wf q /\ wq_count q < MAX_TASKS
  | OpWaitTimeout q m => wq_wf q /\ wq_count q < MAX_TASKS
  | OpWakeOne q | OpWakeAll q => wq_wf q
  | OpEventWait e | OpEventWaitTimeout e _ => wq_wf (waiters e) /\ wq_count (waiters e) < MAX_TASKS
  | OpEventSignal e | OpEventBroadcast e => wq_wf (waiters e)
  | OpSendWait c _ | OpSendTimeout c _ _ => room true c s
  | OpRecvWait c | OpRecvTimeout c _ => room false c s
  | OpSendResume c _ _ _ _ => valid_channel c = true /\ room true c s
  | OpRecvResume c _ _ _ => valid_channel c = true /\ room false c s
  | _ => True
  end.

(** ** The abstract machine *)

(** A step on the four queues: a send appends or finds the queue full, a receive
    takes the oldest message or finds none; a blocking call that fails waits, a
    timed one may also give up; nothing else touches the queues. *)
Definition spec_send (c v : Z) (fails : Res -> Prop) (st : list (list Z)) (r : Res)
  (st' : list (list Z)) : Prop :=
  st' = fst (chan_send c v st) /\
  if snd (chan_send c v st) =? 0 then fails r else r = RVal 1.
Definition spec_recv (c : Z) (fails : Res -> Prop) (st : list (list Z)) (r : Res)
  (st' : list (list Z)) : Prop :=
  let '(st1, got, v) := chan_recv c st in
  st' = st1 /\ if got =? 0 then fails r else r = RRecv 1 v.

Definition gives_up (r : Res) : Prop := r = RVal 0 \/ r = RRecv 0 None \/ r = RBlocked.

Definition spec_step (op : Op) (st : list (list Z)) (r : Res) (st' : list (list Z)) : Prop :=
  match op with
  | OpSend c v => spec_send c v (fun r => r = RVal 0) st r st'
  | OpRecv c => spec_recv c (fun r => r = RRecv 0 None) st r st'
  | OpDepth c => st' = st /\ r = RVal (chan_depth c st)
  | OpSendWait c v => spec_send c v (fun r => r = if valid_channel c then RBlocked else RVal 0) st r st'
  | OpRecvWait c => spec_recv c (fun r => r = if valid_channel c then RBlocked else RRecv 0 None) st r st'
  | OpSendTimeout c v _ | OpSendResume c v _ _ _ =>
      spec_send c v gives_up st r st' \/ (gives_up r /\ st' = st)
  | OpRecvTimeout c _ | OpRecvResume c _ _ _ =>
      spec_recv c gives_up st r st' \/ (gives_up r /\ st' = st)
  | _ => st' = st
  end.

(** ** One step *)

Lemma event_take_ok e (s : Sched) : sched_ok s ->
  exists e1 taken, with_lock (event_take e) s = Some (s, (e1, taken)) /\ waiters e1 = waiters e.
Proof.
  intros O. rewrite with_lock_ok by apply O. unfold event_take.
  case_if; cbn [fst snd]; rewrite section_same by done; by eexists _, _.
Qed.

Lemma set_signaled_ok e (s : Sched) : sched_ok s ->
  with_lock (set_signaled e) s = Some (s, e <| signaled := 1 |>).
Proof. intros O. rewrite with_lock_ok by apply O. unfold set_signaled. cbn [fst snd]. by rewrite section_same. Qed.

Definition step_ok (op : Op) (x : X) (s : Sched) : Prop :=
  exists x' s' r, exec op x s = Some (x', s', r) /\ ipc_kept s s' /\
    spec_step op (ipc_view s) r (ipc_view s').

(** Calls that do not touch the channels. *)
Lemma step_kept op x x' s s' r : ipc_wf s -> exec op x s = Some (x', s', r) -> kept s s' ->
  (ipc_view s' = ipc_view s -> spec_step op (ipc_view s) r (ipc_view s')) -> step_ok op x s.
Proof.
  intros I He K Hs. destruct (kept_ipc s s' I K) as [K' V]. exists x', s', r. auto.
Qed.

Lemma step_sched op x s : sched_ok s -> ipc_wf s -> allowed op s ->
  match op with
  | OpYield | OpSleep _ | OpSleepTimeout _ _ | OpResume _ | OpExit _ | OpKill _ _
  | OpMetrics | OpResetMetrics => step_ok op x s
  | _ => True
  end.
Proof.
  intros O I A. destruct op; try done.
  - destruct (task_yield_ok s O) as (s' & sw & H & K).
    eapply step_kept; [done|simpl; by rewrite H|done|done].
  - destruct (task_sleep_ok n s O) as (s' & sw & H & K).
    eapply step_kept; [done|simpl; by rewrite H|done|done].
  - destruct (task_sleep_timeout_ok n max_ticks s O) as (s' & b & H & K).
    eapply step_kept; [done|simpl; by rewrite H|done|done].
  - eapply step_kept; [done|simpl; by rewrite timeout_result_ok|by apply kept_refl|done].
  - destruct (task_exit_full code x s O) as (s4 & s' & sw & H & [K _ _] & _).
    eapply step_kept; [done|simpl; by rewrite H|done|done].
  - destruct (task_kill_ok id code x s O) as (x' & s' & r & sw & H & K).
    eapply step_kept; [done|simpl; by rewrite H|done|done].
  - eapply step_kept; [done| |by apply kept_refl|done]. simpl. unfold scheduler_get_metrics.
    rewrite with_lock_ok by apply O. cbn [fst snd]. by rewrite section_same.
  - destruct (scheduler_reset_metrics_ok s O) as (s' & H & K).
    eapply step_kept; [done|simpl; by rewrite H|done|done].
Qed.

Lemma step_tick x s : sched_ok s -> ipc_wf s -> step_ok OpTick x s.
Proof.
  intros O I. destruct (timer_tick_full s O) as (s' & H & O' & Out & _).
  exists x, s', RNone. simpl. rewrite H. split; [done|].
  split; [split; [done|by eapply outside_ipc|apply Out]|by apply outside_view].
Qed.

Lemma step_create index func pd pmm mem x s : sched_ok s -> ipc_wf s ->
  allowed (OpCreate index func pd pmm mem) s -> step_ok (OpCreate index func pd pmm mem) x s.
Proof.
  intros O I [Hne [[[t p] m] Hc]]. destruct (create_task_ok _ _ _ _ _ _ _ _ s O Hne Hc) as [O' Out].
  eexists _, _, _. simpl. rewrite Hc. split; [reflexivity|].
  split; [split; [done|by eapply outside_ipc|apply Out]|by apply outside_view].
Qed.

Lemma step_queues op x s : sched_ok s -> ipc_wf s -> allowed op s ->
  match op with
  | OpWait _ | OpWaitTimeout _ _ | OpWakeOne _ | OpWakeAll _ => step_ok op x s
  | _ => True
  end.
Proof.
  intros O I A. destruct op; try done; simpl in A.
  - destruct A as [W Hc]. destruct (wait_ok q s O W Hc) as (s1 & s' & q' & sw & H & [K _ _] & _).
    eapply step_kept; [done|simpl; by rewrite H|done|done].
  - destruct A as [W Hc]. destruct (wait_timeout_any q max_ticks s O W Hc) as (s' & q' & b & H & K).
    eapply step_kept; [done|simpl; by rewrite H|done|done].
  - destruct (wake_one_ok q s O A) as (s' & q' & w & H & K & _).
    eapply step_kept; [done|simpl; by rewrite H|done|done].
  - destruct (wake_all_full q s O A) as (s' & q' & H & K & _).
    eapply step_kept; [done|simpl; by rewrite H|done|done].
Qed.

Lemma step_events op x s : sched_ok s -> ipc_wf s -> allowed op s ->
  match op with
  | OpEventWait _ | OpEventWaitTimeout _ _ | OpEventSignal _ | OpEventBroadcast _ => step_ok op x s
  | _ => True
  end.
Proof.
  intros O I A. destruct op; try done; simpl in A.
  - destruct A as [W Hc]. destruct (event_take_ok e s O) as (e1 & taken & He & Hw).
    destruct taken.
    + eapply step_kept; [done|simpl; unfold sched_event_wait; by rewrite He|by apply kept_refl|done].
    + rewrite <- Hw in W, Hc. destruct (wait_ok _ s O W Hc) as (s1 & s' & q' & sw & H & [K _ _] & _).
      eapply step_kept; [done|simpl; unfold sched_event_wait; rewrite He; simpl; by rewrite H|done|done].
  - destruct A as [W Hc]. destruct (event_take_ok e s O) as (e1 & taken & He & Hw).
    destruct (Z.eq_dec max_ticks 0) as [->|Hm].
    { eapply step_kept; [done|reflexivity|by apply kept_refl|done]. }
    apply Z.eqb_neq in Hm. destruct taken.
    + eapply step_kept; [done|simpl; unfold sched_event_wait_timeout; by rewrite Hm, He|by apply kept_refl|done].
    + rewrite <- Hw in W, Hc. destruct (wait_timeout_any _ max_ticks s O W Hc) as (s' & q' & b & H & K).
      eapply step_kept; [done|simpl; unfold sched_event_wait_timeout; rewrite Hm, He; simpl; by rewrite H|done|done].
  - destruct (wake_one_ok _ s O A) as (s' & q' & w & H & K & _).
    assert (exists e', sched_event_signal e s = Some (s', e')) as [e' He].
    { unfold sched_event_signal. rewrite H. cbn [mbind option_bind].
      case_if; [rewrite set_signaled_ok by apply K|]; eauto. }
    eapply step_kept; [done|simpl; by rewrite He|done|done].
  - destruct (wake_all_full _ s O A) as (s' & q' & H & K & _).
    assert (exists e', sched_event_broadcast e s = Some (s', e')) as [e' He].
    { unfold sched_event_broadcast. rewrite H. cbn [mbind option_bind].
      rewrite set_signaled_ok by apply K. eauto. }
    eapply step_kept; [done|simpl; by rewrite He|done|done].
Qed.

(** ** Channel steps *)

Lemma step_ipc_plain op x s : sched_ok s -> ipc_wf s ->
  match op with OpSend _ _ | OpRecv _ | OpDepth _ => step_ok op x s | _ => True end.
Proof.
  intros O I. destruct op; try done.
  - destruct (ipc_send_ok c v s O I) as (s' & r & H & K & V & _).
    exists x, s', (RVal r). simpl. rewrite H. split; [done|]. split; [done|].
    unfold spec_send. rewrite <- V. simpl. split; [done|].
    case_if; [by apply Z.eqb_eq in E; subst|]. apply (f_equal snd) in V. simpl in V.
    unfold chan_send in V. destruct (negb _); [by subst|]. destruct (_ <? _); subst; done.
  - destruct (ipc_recv_ok c s O I) as (s' & r & v & H & K & V & _).
    exists x, s', (RRecv r v). simpl. rewrite H. split; [done|]. split; [done|].
    unfold spec_recv. rewrite <- V. split; [done|].
    unfold chan_recv in V. destruct (negb _); [by simplify_eq|].
    destruct ((ipc_view s).[c]); by simplify_eq.
  - destruct (ipc_queue_depth_ok c s O I) as (s' & H & K & V).
    eexists x, s', _. simpl. rewrite H. by split_and!.
Qed.

Lemma chan_send_invalid c v st : valid_channel c = false -> chan_send c v st = (st, 0).
Proof. intros H. unfold chan_send. by rewrite H. Qed.
Lemma chan_recv_invalid c st : valid_channel c = false -> chan_recv c st = (st, 0, None).
Proof. intros H. unfold chan_recv. by rewrite H. Qed.

Lemma chan_recv_got c st st' got v : chan_recv c st = (st', got, v) ->
  (got = 0 /\ v = None /\ st' = st) \/ (got = 1 /\ is_Some v).
Proof.
  unfold chan_recv. case_if; [intros; simplify_eq; by left|].
  destruct (st.[c]); intros; simplify_eq; [by left|right; eauto].
Qed.

Lemma room_init (b : bool) c (s : Sched) : room b c s -> room b c (ipc_init_once s).
Proof.
  unfold room. intros H Hv. specialize (H Hv).
  assert (ipc_init_once (ipc_init_once s) = ipc_init_once s) as ->; [|done].
  unfold ipc_init_once at 1. by rewrite (proj2 (Z.eqb_neq _ _) (ipc_initialized_init s)).
Qed.

Lemma step_ipc_wait op x s : sched_ok s -> ipc_wf s -> allowed op s ->
  match op with OpSendWait _ _ | OpRecvWait _ => step_ok op x s | _ => True end.
Proof.
  intros O I A. destruct (ipc_init_once_ok s O I) as (O1 & I1 & V1 & _).
  destruct (init_kept s O I) as [K1 _].
  destruct op; try done; simpl in A; unfold step_ok; simpl; unfold ipc_send_wait, ipc_recv_wait;
    destruct (valid_channel c) eqn:Hv; simpl.
  - destruct (send_wait_round_ok c v _ O1 I1 Hv (room_init true c s A)) as (s' & r & sw & H & K & V).
    rewrite H. eexists _, _, _. split; [reflexivity|]. split; [by eapply ipc_kept_trans|].
    unfold spec_send. rewrite V1 in V. destruct (chan_send c v (ipc_view s)) as [st sent].
    destruct V as [-> ->]. split; [done|]. simpl. by case_if.
  - eexists _, _, _. split; [reflexivity|]. split; [by split|].
    unfold spec_send. by rewrite chan_send_invalid by done.
  - destruct (recv_wait_round_ok c _ O1 I1 Hv (room_init false c s A)) as (s' & r & sw & H & K & V).
    rewrite H. eexists _, _, _. split; [reflexivity|]. split; [by eapply ipc_kept_trans|].
    unfold spec_recv. rewrite V1 in V. destruct (chan_recv c (ipc_view s)) as [[st got] w].
    destruct V as [-> ->]. split; [done|]. by case_if.
  - eexists _, _, _. split; [reflexivity|]. split; [by split|].
    unfold spec_recv. by rewrite chan_recv_invalid by done.
Qed.

Lemma timed_send_spec c v st st' b : 
  (let '(st1, sent) := chan_send c v st in st' = st1 /\ timed sent b) ->
  spec_send c v gives_up st (res_blocking b) st'.
Proof.
  unfold spec_send, timed, gives_up. destruct (chan_send c v st) as [st1 sent]. intros [-> Ht].
  split; [done|]. simpl. case_if.
  - destruct b; simpl; [left; by subst|auto].
  - by subst.
Qed.

Lemma timed_recv_spec c st st' b w :
  (let '(st1, got, v) := chan_recv c st in
   st' = st1 /\ timed got b /\ w = if got =? 0 then None else v) ->
  spec_recv c gives_up st (res_recv b w) st'.
Proof.
  unfold spec_recv, timed, gives_up. destruct (chan_recv c st) as [[st1 got] v]. intros (-> & Ht & ->).
  split; [done|]. case_if.
  - destruct b; simpl; [right; left; by subst|auto].
  - by subst.
Qed.

Lemma step_ipc_send_timed op x s : sched_ok s -> ipc_wf s -> allowed op s ->
  match op with OpSendTimeout _ _ _ | OpSendResume _ _ _ _ _ => step_ok op x s | _ => True end.
Proof.
  intros O I A. destruct (ipc_init_once_ok s O I) as (O1 & I1 & V1 & _).
  destruct (init_kept s O I) as [K1 _].
  destruct op; try done; simpl in A; unfold step_ok; simpl.
  - unfold ipc_send_timeout. destruct (valid_channel c) eqn:Hv; simpl.
    2: { eexists _, _, _. split; [reflexivity|]. split; [by split|]. right. split; [by left|done]. }
    case_if.
    { eexists _, _, _. split; [reflexivity|]. split; [by split|]. right. split; [by left|done]. }
    destruct (send_timeout_round_ok c v max_ticks (scheduler_now_ticks (ipc_init_once s)) _ O1 I1 Hv
                (room_init true c s A)) as (s' & b & H & K & V).
    rewrite H. eexists _, _, _. split; [reflexivity|]. split; [by eapply ipc_kept_trans|].
    left. apply timed_send_spec. by rewrite V1 in V.
  - destruct A as [Hv A]. unfold ipc_send_timeout_resume. rewrite timeout_result_ok by done.
    cbn [mbind option_bind]. case_if; simpl.
    { destruct (deadline <=? scheduler_ticks s); [|done].
      eexists _, _, _. split; [reflexivity|]. split; [by split|]. right. split; [by left|done]. }
    destruct (send_timeout_round_ok c v max_ticks start s O I Hv A) as (s' & b & H & K & V).
    rewrite H. eexists _, _, _. split; [reflexivity|]. split; [done|]. left. by apply timed_send_spec.
Qed.

Lemma step_ipc_recv_timed op x s : sched_ok s -> ipc_wf s -> allowed op s ->
  match op with OpRecvTimeout _ _ | OpRecvResume _ _ _ _ => step_ok op x s | _ => True end.
Proof.
  intros O I A. destruct (ipc_init_once_ok s O I) as (O1 & I1 & V1 & _).
  destruct (init_kept s O I) as [K1 _].
  destruct op; try done; simpl in A; unfold step_ok; simpl.
  - unfold ipc_recv_timeout. destruct (valid_channel c) eqn:Hv; simpl.
    2: { eexists _, _, _. split; [reflexivity|]. split; [by split|]. right. split; [right; by left|done]. }
    case_if.
    { eexists _, _, _. split; [reflexivity|]. split; [by split|]. right. split; [right; by left|done]. }
    destruct (recv_timeout_round_ok c max_ticks (scheduler_now_ticks (ipc_init_once s)) _ O1 I1 Hv
                (room_init false c s A)) as (s' & b & w & H & K & V).
    rewrite H. eexists _, _, _. split; [reflexivity|]. split; [by eapply ipc_kept_trans|].
    left. apply timed_recv_spec. by rewrite V1 in V.
  - destruct A as [Hv A]. unfold ipc_recv_timeout_resume. rewrite timeout_result_ok by done.
    cbn [mbind option_bind]. case_if; simpl.
    { destruct (deadline <=? scheduler_ticks s); [|done].
      eexists _, _, _. split; [reflexivity|]. split; [by split|]. right. split; [right; by left|done]. }
    destruct (recv_timeout_round_ok c max_ticks start s O I Hv A) as (s' & b & w & H & K & V).
    rewrite H. eexists _, _, _. split; [reflexivity|]. split; [done|]. left. by apply timed_recv_spec.
Qed.

Lemma every_step op x s : sched_ok s -> ipc_wf s -> allowed op s -> step_ok op x s.
Proof.
  intros O I A.
  pose proof (step_sched op x s O I A). pose proof (step_queues op x s O I A).
  pose proof (step_events op x s O I A). pose proof (step_ipc_plain op x s O I).
  pose proof (step_ipc_wait op x s O I A). pose proof (step_ipc_send_timed op x s O I A).
  pose proof (step_ipc_recv_timed op x s O I A).
  destruct op; try done; [by apply step_tick|by apply step_create].
Qed.

(** ** Runs *)

Fixpoint run (ops : list Op) (x : X) (s : Sched) : option (X * Sched * list Res) :=
  match ops with
  | [] => Some (x, s, [])
  | op :: ops' =>
      '(x1, s1, r) ← exec op x s;
      '(x2, s2, rs) ← run ops' x1 s1; Some (x2, s2, r :: rs)
  end.

(** Every call of the run is made where it is [allowed]. *)
Fixpoint safe_run (ops : list Op) (x : X) (s : Sched) : Prop :=
  match ops with
  | [] => True
  | op :: ops' => allowed op s /\
      match exec op x s with Some (x1, s1, _) => safe_run ops' x1 s1 | None => True end
  end.

Inductive spec_run : list Op -> list (list Z) -> list Res -> list (list Z) -> Prop :=
| spec_run_nil st : spec_run [] st [] st
| spec_run_cons op ops st r st1 rs st2 :
    spec_step op st r st1 -> spec_run ops st1 rs st2 -> spec_run (op :: ops) st (r :: rs) st2.

Lemma run_ok ops : forall x s, sched_ok s -> ipc_wf s -> safe_run ops x s ->
  exists x' s' rs, run ops x s = Some (x', s', rs) /\ ipc_kept s s' /\
    spec_run ops (ipc_view s) rs (ipc_view s').
Proof.
  induction ops as [|op ops IH]; intros x s O I A; simpl.
  - exists x, s, []. split; [done|]. split; [by split|constructor].
  - destruct A as [A Hr]. destruct (every_step op x s O I A) as (x1 & s1 & r & He & K & Hs).
    rewrite He in Hr |- *. simpl.
    destruct (IH x1 s1 (ik_ok _ _ K) (ik_ipc _ _ K) Hr) as (x2 & s2 & rs & -> & K2 & Hs2).
    simpl. eexists _, _, _. split; [reflexivity|]. split; [by eapply ipc_kept_trans|].
    by econstructor.
Qed.

(** ** Nothing is lost *)

(** The messages a call put on channel [c], or took from it. *)
Definition put_on (c : Z) (op : Op) (r : Res) : list Z :=
  match op, r with
  | (OpSend d v | OpSendWait d v | OpSendTimeout d v _ | OpSendResume d v _ _ _), RVal 1 =>
      if c =? d then [v] else []
  | _, _ => []
  end.
Definition taken_from (c : Z) (op : Op) (r : Res) : list Z :=
  match op, r with
  | (OpRecv d | OpRecvWait d | OpRecvTimeout d _ | OpRecvResume d _ _ _), RRecv 1 (Some v) =>
      if c =? d then [v] else []
  | _, _ => []
  end.

Fixpoint history (f : Op -> Res -> list Z) (ops : list Op) (rs : list Res) : list Z :=
  match ops, rs with
  | op :: ops', r :: rs' => f op r ++ history f ops' rs'
  | _, _ => []
  end.

(** One step moves messages from the caller to the queue, or from the queue to
    the caller. *)
Definition conserves (c : Z) (op : Op) (st : list (list Z)) (r : Res) (st' : list (list Z)) : Prop :=
  length st' = length st /\ st.[c] ++ put_on c op r = taken_from c op r ++ st'.[c].

Lemma conserves_same c op st r : put_on c op r = [] -> taken_from c op r = [] -> conserves c op st r st.
Proof. intros H1 H2. split; [done|]. by rewrite H1, H2, app_nil_r. Qed.

Lemma lookup_insert_channel c d (st : list (list Z)) l : valid_channel c = true ->
  valid_channel d = true -> length st = Z.to_nat IPC_CHANNELS ->
  (<[Z.to_nat d := l]> st).[c] = if c =? d then l else st.[c].
Proof.
  intros Hc Hd Hl. unfold valid_channel in Hc, Hd. bsimpl.
  destruct (Z.eqb_spec c d) as [->|Hne].
  - apply list_lookup_total_insert_eq. lia.
  - apply list_lookup_total_insert_ne. lia.
Qed.

Lemma send_conserves c d v (fails : Res -> Prop) op st r st' :
  (forall r, put_on c op r = match r with RVal 1 => if c =? d then [v] else [] | _ => [] end) ->
  (forall r, taken_from c op r = []) -> (forall r, fails r -> r <> RVal 1) ->
  valid_channel c = true -> length st = Z.to_nat IPC_CHANNELS ->
  spec_send d v fails st r st' -> conserves c op st r st'.
Proof.
  intros Hput Htk Hf Hc Hl [-> Hr]. unfold conserves. rewrite Hput, Htk. unfold chan_send in *.
  destruct (valid_channel d) eqn:Hd; simpl in *.
  - destruct (_ <? _); simpl in *.
    + subst r. split; [by rewrite length_insert|]. rewrite lookup_insert_channel by done.
      destruct (Z.eqb_spec c d) as [->|]; [done|by rewrite app_nil_r].
    + split; [done|]. destruct r as [|[]| |]; try by rewrite app_nil_r.
      destruct p; try by rewrite app_nil_r. by destruct (Hf _ Hr).
  - split; [done|]. destruct r as [|[]| |]; try by rewrite app_nil_r.
    destruct p; try by rewrite app_nil_r. by destruct (Hf _ Hr).
Qed.

Lemma recv_conserves c d (fails : Res -> Prop) op st r st' :
  (forall r, taken_from c op r = match r with RRecv 1 (Some v) => if c =? d then [v] else [] | _ => [] end) ->
  (forall r, put_on c op r = []) -> (forall r v, fails r -> r <> RRecv 1 (Some v)) ->
  valid_channel c = true -> length st = Z.to_nat IPC_CHANNELS ->
  spec_recv d fails st r st' -> conserves c op st r st'.
Proof.
  intros Htk Hput Hf Hc Hl Hs. unfold conserves. rewrite Hput, Htk, app_nil_r.
  assert (forall r, fails r -> match r with RRecv 1 (Some v) => if c =? d then [v] else [] | _ => [] end = []) as Hno.
  { intros r0 Hr0. destruct r0 as [| |g [v|]|]; [done|done| |by destruct g as [|[]|]|done].
    destruct g as [|p|]; [done| |done]. destruct p; [done|done|]. by destruct (Hf _ v Hr0). }
  unfold spec_recv, chan_recv in Hs. destruct (valid_channel d) eqn:Hd; simpl in Hs.
  - destruct (st.[d]) as [|v l] eqn:Hst; simpl in Hs; destruct Hs as [-> Hr].
    + by rewrite Hno.
    + subst r. split; [by rewrite length_insert|]. rewrite lookup_insert_channel by done.
      by destruct (Z.eqb_spec c d) as [->|].
  - destruct Hs as [-> Hr]. by rewrite Hno.
Qed.

Lemma step_conserves c op st r st' : valid_channel c = true -> length st = Z.to_nat IPC_CHANNELS ->
  spec_step op st r st' -> conserves c op st r st'.
Proof.
  intros Hc Hl Hs. unfold gives_up in *.
  destruct op; simpl in Hs; try (subst st'; by apply conserves_same).
  - eapply send_conserves; [..|exact Hs]; try done. by intros ? ->.
  - eapply recv_conserves; [..|exact Hs]; try done. by intros ? ? ->.
  - destruct Hs as [-> _]. by apply conserves_same.
  - eapply send_conserves; [..|exact Hs]; try done. intros r0 ->. by case_if.
  - eapply recv_conserves; [..|exact Hs]; try done. intros r0 v ->. by case_if.
  - destruct Hs as [Hs|[Hg ->]].
    + eapply send_conserves; [..|exact Hs]; try done. by intros r0 [->|[->| ->]].
    + by apply conserves_same; destruct Hg as [->|[->| ->]].
  - destruct Hs as [Hs|[Hg ->]].
    + eapply recv_conserves; [..|exact Hs]; try done. by intros r0 v [->|[->| ->]].
    + by apply conserves_same; destruct Hg as [->|[->| ->]].
  - destruct Hs as [Hs|[Hg ->]].
    + eapply send_conserves; [..|exact Hs]; try done. by intros r0 [->|[->| ->]].
    + by apply conserves_same; destruct Hg as [->|[->| ->]].
  - destruct Hs as [Hs|[Hg ->]].
    + eapply recv_conserves; [..|exact Hs]; try done. by intros r0 v [->|[->| ->]].
    + by apply conserves_same; destruct Hg as [->|[->| ->]].
Qed.

Lemma run_conserves c ops st rs st' : valid_channel c = true -> spec_run ops st rs st' ->
  length st = Z.to_nat IPC_CHANNELS ->
  st.[c] ++ history (put_on c) ops rs = history (taken_from c) ops rs ++ st'.[c].
Proof.
  intros Hc Hr. induction Hr as [st|op ops st r st1 rs st2 Hs _ IH]; intros Hl; simpl.
  - by rewrite app_nil_r.
  - destruct (step_conserves c op st r st1 Hc Hl Hs) as [Hl1 He].
    rewrite app_assoc, He, <- !app_assoc. f_equal. apply IH. congruence.
Qed.
End Machine.

Lemma sched_init_ipc : ipc_wf sched_init.
Proof.
  pose proof ipc_channel_init_ok as [Cw Cl]. pose proof wait_queue_zero_ok as [Qw _].
  split; simpl; try done; intros; repeat (constructor; [done|]); constructor.
Qed.

(** ** Properties *)

(** C5: from any good state, every sequence of allowed calls of the scheduler runs
    to its end without a call ever spinning on the lock; at the end exactly the
    current task is [RUNNING], the lock is free and the interrupt flag is as at the
    start; and the results are those of four bounded message queues. *)
Theorem scheduler_run_refines {X} `{TaskResources X} ops (x : X) (s : Sched) :
  sched_ok s -> ipc_wf s -> safe_run ops x s ->
  exists x' s' rs, run ops x s = Some (x', s', rs) /\ ipc_kept s s' /\
    spec_run ops (ipc_view s) rs (ipc_view s').
Proof. apply run_ok. Qed.

(** A test that a run of calls on the kernel's own queues is safe. *)
Definition roomb (send : bool) (c : Z) (s : Sched) : bool :=
  wq_count (if send then ipc_send_waiters (ipc_init_once s) else ipc_recv_waiters (ipc_init_once s)).[c]
    <? MAX_TASKS.

Definition allowedb (op : Op) (s : Sched) : bool :=
  match op with
  | OpYield | OpSleep _ | OpSleepTimeout _ _ | OpResume _ | OpExit _ | OpKill _ _ | OpTick
  | OpMetrics | OpResetMetrics | OpSend _ _ | OpRecv _ | OpDepth _ => true
  | OpSendWait c _ | OpSendTimeout c _ _ => roomb true c s
  | OpRecvWait c | OpRecvTimeout c _ => roomb false c s
  | _ => false
  end.

Fixpoint safe_runb {X} `{TaskResources X} (ops : list Op) (x : X) (s : Sched) : bool :=
  match ops with
  | [] => true
  | op :: ops' => allowedb op s &&
      match exec op x s with Some (x1, s1, _) => safe_runb ops' x1 s1 | None => true end
  end.

Lemma allowedb_sound op (s : Sched) : allowedb op s = true -> allowed op s.
Proof. destruct op; simpl; try done; intros H Hv; by apply Z.ltb_lt in H. Qed.

Lemma safe_runb_sound {X} `{TaskResources X} ops : forall (x : X) s,
  safe_runb ops x s = true -> safe_run ops x s.
Proof.
  induction ops as [|op ops IH]; intros x s Hb; simpl in *; [done|].
  apply andb_true_iff in Hb as [Ha Hr]. split; [by apply allowedb_sound|].
  destruct (exec op x s) as [[[x1 s1] r]|]; [by apply IH|done].
Qed.

Definition demo_calls : list Op :=
  [OpSend 1 10; OpTick; OpSend 1 20; OpRecv 1; OpYield; OpSendTimeout 1 30 5; OpRecv 1].
Lemma demo_calls_safe : safe_run demo_calls no_resources sched_init.
Proof. apply safe_runb_sound. vm_compute. reflexivity. Qed.

(** A run with a blocked receiver, a kill and a timer tick. *)
Definition demo_ops : list Op :=
  [OpSend 1 10; OpSend 1 20; OpRecv 1; OpSleep 3; OpTick; OpRecvWait 2; OpSend 2 30; OpYield;
   OpSendTimeout 1 40 5; OpKill 2 9; OpRecv 1; OpDepth 1].

Lemma demo_ops_safe : safe_run demo_ops no_resources (sched_init <| sys := sys demo_sched |>).
Proof. apply safe_runb_sound. vm_compute. reflexivity. Qed.

Lemma demo_start_ok : sched_ok (sched_init <| sys := sys demo_sched |>).
Proof. sched_ok_tac. Qed.
Lemma demo_start_ipc : ipc_wf (sched_init <| sys := sys demo_sched |>).
Proof. by destruct sched_init_ipc. Qed.

Lemma scheduler_run_refines_witness :
  exists x' s' rs, run demo_ops no_resources (sched_init <| sys := sys demo_sched |>) = Some (x', s', rs) /\
    ipc_kept (sched_init <| sys := sys demo_sched |>) s' /\
    spec_run demo_ops (ipc_view (sched_init <| sys := sys demo_sched |>)) rs (ipc_view s').
Proof.
  apply (scheduler_run_refines demo_ops no_resources _ demo_start_ok demo_start_ipc demo_ops_safe).
Defined.

(** C20: in every run of allowed calls from boot, with any other scheduler calls
    between them, the messages sent on a channel are the messages received from it
    followed by those still queued, in the same order: none is lost, duplicated or
    reordered; and a channel never holds more than sixteen. *)
Theorem ipc_channels_fifo {X} `{TaskResources X} ops (x : X) c :
  valid_channel c = true -> safe_run ops x sched_init ->
  exists x' s' rs, run ops x sched_init = Some (x', s', rs) /\
    history (put_on c) ops rs = history (taken_from c) ops rs ++ (ipc_view s').[c] /\
    (length (ipc_view s').[c] <= 16)%nat.
Proof.
  intros Hc Hr. destruct (run_ok ops x sched_init sched_init_ok sched_init_ipc Hr)
    as (x' & s' & rs & He & K & Hs).
  exists x', s', rs. split; [done|].
  pose proof (run_conserves c ops _ rs _ Hc Hs eq_refl) as Hh.
  assert ((ipc_view sched_init).[c] = []) as H0.
  { destruct (chan_lookup sched_init c sched_init_ipc Hc) as (ch & Hch & _).
    rewrite (view_total _ _ _ Hch).
    apply (Forall_lookup_1 _ _ _ _ (iw_uninit _ sched_init_ipc eq_refl) Hch). }
  rewrite H0 in Hh. split; [done|].
  destruct (chan_lookup s' c (ik_ipc _ _ K) Hc) as (ch & Hch & Wch & _).
  rewrite (view_total _ _ _ Hch). pose proof (ch_list_length ch Wch).
  pose proof (ch_count_range ch Wch). unfold IPC_QUEUE_CAPACITY in *. lia.
Qed.
Lemma ipc_channels_fifo_witness :
  exists x' s' rs, run demo_calls no_resources sched_init = Some (x', s', rs) /\
    history (put_on 1) demo_calls rs = history (taken_from 1) demo_calls rs ++ (ipc_view s').[1] /\
    (length (ipc_view s').[1] <= 16)%nat.
Proof. apply (ipc_channels_fifo demo_calls no_resources 1 eq_refl demo_calls_safe). Defined.

(** A wait on a queue that is already full blocks nobody but switches all the
    same: two tasks are [RUNNING], and the one that lost the processor is never
    READY again. *)
Lemma wait_queue_full_two_running :
  let full := {| task_ids := [5; 5; 5; 5; 5; 5; 5; 5]; wq_head := 0; wq_tail := 0; wq_count := 8 |} in
  exists s' q, wait_queue_wait full demo_sched = Some (s', q, Some (0, 2)) /\ os_current_task s' = 2 /\
    state (task s' 0) = TASK_STATE_RUNNING /\ state (task s' 2) = TASK_STATE_RUNNING.
Proof. eexists _, _. split; [vm_compute; reflexivity|]. vm_compute. done. Qed.
