(* ===== verification/Bytes.v ===== *)
(** * Bytes, words and little-endian integers

    The on-disk formats of the kernel are byte arrays: the readers and writers of
    little-endian integers, the view of a sector of 16-bit words as bytes, and
    slices of byte arrays with the stores the code does on them. *)
From S2P Require Import Prelude BlockDev.

Definition is_byte (b : Z) : Prop := 0 <= b < 256.

(** ** Little-endian integers *)

Fixpoint le_val (bs : list Z) : Z :=
  match bs with [] => 0 | b :: bs' => b + 256 * le_val bs' end.

Fixpoint le_bytes (n : nat) (v : Z) : list Z :=
  match n with O => [] | S n' => v mod 256 :: le_bytes n' (v / 256) end.

Lemma le_bytes_length n v : length (le_bytes n v) = n.
Proof. revert v. induction n as [|n IH]; intros v; simpl; [done|]. by rewrite IH. Qed.

Lemma le_bytes_byte n v : Forall is_byte (le_bytes n v).
Proof.
  revert v. induction n as [|n IH]; intros v; simpl; constructor; [|done].
  apply Z.mod_pos_bound. lia.
Qed.

Lemma le_val_bytes n v : le_val (le_bytes n v) = v mod 256 ^ Z.of_nat n.
Proof.
  revert v. induction n as [|n IH]; intros v; cbn [le_val le_bytes].
  - by rewrite Z.mod_1_r.
  - rewrite IH, Nat2Z.inj_succ, Z.pow_succ_r by lia.
    rewrite Z.rem_mul_r by lia. lia.
Qed.

Lemma le_val_range bs : Forall is_byte bs -> 0 <= le_val bs < 256 ^ Z.of_nat (length bs).
Proof.
  induction 1 as [|b bs Hb _ IH]; [simpl; lia|]. unfold is_byte in Hb.
  cbn [le_val length]. rewrite Nat2Z.inj_succ, Z.pow_succ_r by lia. lia.
Qed.

Lemma le_bytes_val bs : Forall is_byte bs -> le_bytes (length bs) (le_val bs) = bs.
Proof.
  induction 1 as [|b bs Hb _ IH]; cbn [le_val le_bytes length]; [done|].
  unfold is_byte in Hb. rewrite (Z.mul_comm 256), Z.mod_add, Z.mod_small by lia.
  by rewrite Z.div_add, Z.div_small, Z.add_0_l, IH by lia.
Qed.

(** ** Slices *)

(** [n] bytes from offset [o]. *)
Definition slice (o n : Z) (l : list Z) : list Z := take (Z.to_nat n) (drop (Z.to_nat o) l).

(** [memcpy(l + o, b, length b)] for a range inside the array. *)
Definition splice (o : Z) (b l : list Z) : list Z :=
  take (Z.to_nat o) l ++ b ++ drop (Z.to_nat o + length b) l.

Definition fits (o : Z) (b l : list Z) : Prop :=
  0 <= o /\ o + Z.of_nat (length b) <= Z.of_nat (length l).

Lemma splice_length o b l : fits o b l -> length (splice o b l) = length l.
Proof.
  intros [H1 H2]. unfold splice. rewrite !length_app, length_take, length_drop. lia.
Qed.

Lemma slice_length o n l : 0 <= o -> 0 <= n -> o + n <= Z.of_nat (length l) ->
  Z.of_nat (length (slice o n l)) = n.
Proof. intros. unfold slice. rewrite length_take, length_drop. lia. Qed.

(** Reading what was written. *)
Lemma slice_splice_same o b l : fits o b l -> slice o (Z.of_nat (length b)) (splice o b l) = b.
Proof.
  intros [H1 H2]. unfold slice, splice. rewrite Nat2Z.id.
  rewrite drop_app_length' by (rewrite length_take; lia).
  by rewrite take_app_length.
Qed.

Lemma splice_lookup o b l i : fits o b l ->
  splice o b l !! i = if decide (Z.to_nat o <= i < Z.to_nat o + length b)%nat
                      then b !! (i - Z.to_nat o)%nat else l !! i.
Proof.
  intros [H1 H2]. unfold splice. case_decide as Hi.
  - rewrite lookup_app_r by (rewrite length_take; lia). rewrite length_take.
    rewrite lookup_app_l by lia. f_equal. lia.
  - destruct (decide (i < Z.to_nat o)%nat).
    + rewrite lookup_app_l by (rewrite length_take; lia). by apply lookup_take_lt.
    + rewrite lookup_app_r by (rewrite length_take; lia). rewrite length_take.
      rewrite lookup_app_r by lia. rewrite lookup_drop. f_equal. lia.
Qed.

Lemma slice_lookup o n l i : (i < Z.to_nat n)%nat -> slice o n l !! i = l !! (Z.to_nat o + i)%nat.
Proof. intros. unfold slice. rewrite lookup_take_lt by done. by rewrite lookup_drop. Qed.

(** A slice away from the bytes written. *)
Lemma slice_splice_other o b l o' n' : fits o b l -> 0 <= o' -> 0 <= n' ->
  o' + n' <= o \/ o + Z.of_nat (length b) <= o' ->
  slice o' n' (splice o b l) = slice o' n' l.
Proof.
  intros Hf Ho Hn Hd. apply list_eq. intros i.
  destruct (decide (i < Z.to_nat n')%nat) as [Hi|Hi].
  - rewrite !slice_lookup, splice_lookup by done. case_decide; [|done]. destruct Hf. lia.
  - rewrite !lookup_ge_None_2; [done| |]; unfold slice; rewrite length_take; lia.
Qed.

Lemma slice_slice o n o' n' l : 0 <= o -> 0 <= o' -> 0 <= n' -> o' + n' <= n ->
  slice o' n' (slice o n l) = slice (o + o') n' l.
Proof.
  intros. unfold slice. rewrite skipn_firstn_comm, take_take, drop_drop.
  f_equal; [lia|]. f_equal. lia.
Qed.

Lemma slice_join o n k b : 0 <= o -> 0 <= n -> 0 <= k ->
  slice o n b ++ slice (o + n) k b = slice o (n + k) b.
Proof.
  intros. unfold slice. rewrite !Z2Nat.inj_add by lia. rewrite <- drop_drop.
  rewrite <- (take_drop (Z.to_nat n) (take (Z.to_nat n + Z.to_nat k) (drop (Z.to_nat o) b))).
  rewrite take_take, skipn_firstn_comm. f_equal; f_equal; lia.
Qed.

Lemma Forall_splice (P : Z -> Prop) o b l : Forall P b -> Forall P l -> Forall P (splice o b l).
Proof.
  intros Hb Hl. unfold splice. apply Forall_app. split; [by apply Forall_take|].
  apply Forall_app. split; [done|by apply Forall_drop].
Qed.

Lemma Forall_slice (P : Z -> Prop) o n l : Forall P l -> Forall P (slice o n l).
Proof. intros. by apply Forall_take, Forall_drop. Qed.

(** ** The readers and writers of the code *)

Definition read_le16 (p : list Z) (o : Z) : Z := u16 (Z.lor p.[o] (Z.shiftl p.[o + 1] 8)).

Definition read_le32 (p : list Z) (o : Z) : Z :=
  Z.lor (Z.lor (Z.lor p.[o] (u32 (Z.shiftl p.[o + 1] 8))) (u32 (Z.shiftl p.[o + 2] 16)))
    (u32 (Z.shiftl p.[o + 3] 24)).

Definition write_le32 (o value : Z) (p : list Z) : list Z :=
  <[Z.to_nat (o + 3) := u8 (Z.land (Z.shiftr value 24) 0xFF)]>
    (<[Z.to_nat (o + 2) := u8 (Z.land (Z.shiftr value 16) 0xFF)]>
      (<[Z.to_nat (o + 1) := u8 (Z.land (Z.shiftr value 8) 0xFF)]>
        (<[Z.to_nat o := u8 (Z.land value 0xFF)]> p))).

(** A byte above the bits in use: or is plus. *)
Lemma lor_shift a b k : 0 <= k -> 0 <= a < 2 ^ k -> 0 <= b -> Z.lor a (Z.shiftl b k) = a + b * 2 ^ k.
Proof.
  intros Hk Ha Hb. rewrite Z.shiftl_mul_pow2 by done. symmetry. apply Z.add_nocarry_lor.
  apply Z.bits_inj'. intros n Hn. rewrite Z.land_spec, Z.bits_0.
  destruct (Z.ltb_spec n k).
  - rewrite Z.mul_pow2_bits_low by lia. by rewrite andb_false_r.
  - destruct (Z.eq_dec a 0) as [->|]; [by rewrite Z.bits_0|].
    rewrite (Z.bits_above_log2 a n); [done|lia|]. apply Z.log2_lt_pow2; [lia|].
    eapply Z.lt_le_trans; [apply Ha|]. apply Z.pow_le_mono_r; lia.
Qed.

Lemma lookup_byte l o : Forall is_byte l -> 0 <= o < Z.of_nat (length l) -> is_byte l.[o].
Proof.
  intros Hl Ho. apply (Forall_lookup_1 _ l (Z.to_nat o)); [done|]. apply lookup_total_Some. lia.
Qed.

Lemma slice_cons o n l : 0 <= o -> 0 < n -> o < Z.of_nat (length l) ->
  slice o n l = l.[o] :: slice (o + 1) (n - 1) l.
Proof.
  intros Ho Hn Hl. unfold slice. replace (Z.to_nat n) with (S (Z.to_nat (n - 1))) by lia.
  rewrite (drop_S l l.[o] (Z.to_nat o)) by (apply lookup_total_Some; lia). simpl.
  by replace (S (Z.to_nat o)) with (Z.to_nat (o + 1)) by lia.
Qed.

Lemma slice_nil o l : slice o 0 l = [].
Proof. done. Qed.

Section Readers.
Context (l : list Z) (Hl : Forall is_byte l).

Lemma read_le16_ok o : 0 <= o -> o + 2 <= Z.of_nat (length l) -> read_le16 l o = le_val (slice o 2 l).
Proof.
  intros Ho Hlen. unfold read_le16.
  pose proof (lookup_byte l o Hl ltac:(lia)). pose proof (lookup_byte l (o + 1) Hl ltac:(lia)).
  unfold is_byte in *. rewrite lor_shift by lia. rewrite u16_small by lia.
  rewrite !slice_cons by lia. cbn [le_val]. change (slice (o + 1 + 1) (2 - 1 - 1) l) with (@nil Z).
  cbn [le_val]. lia.
Qed.

Lemma read_le32_ok o : 0 <= o -> o + 4 <= Z.of_nat (length l) -> read_le32 l o = le_val (slice o 4 l).
Proof.
  intros Ho Hlen. unfold read_le32.
  pose proof (lookup_byte l o Hl ltac:(lia)). pose proof (lookup_byte l (o + 1) Hl ltac:(lia)).
  pose proof (lookup_byte l (o + 2) Hl ltac:(lia)). pose proof (lookup_byte l (o + 3) Hl ltac:(lia)).
  unfold is_byte in *.
  rewrite !(u32_small (Z.shiftl _ _)) by (rewrite Z.shiftl_mul_pow2 by lia; lia).
  rewrite (lor_shift l.[o]) by lia. rewrite (lor_shift (l.[o] + _)) by lia.
  rewrite (lor_shift (l.[o] + _ + _)) by lia. rewrite !slice_cons by lia.
  replace (o + 1 + 1) with (o + 2) by lia. replace (o + 2 + 1) with (o + 3) by lia.
  cbn [le_val]. change (slice (o + 3 + 1) (4 - 1 - 1 - 1 - 1) l) with (@nil Z). cbn [le_val]. lia.
Qed.

(** Writing four bytes is a splice of the little-endian form. *)
Lemma write_le32_ok o v : 0 <= o -> o + 4 <= Z.of_nat (length l) ->
  write_le32 o v l = splice o (le_bytes 4 v) l.
Proof.
  intros Ho Hlen. assert (fits o (le_bytes 4 v) l) as Hf.
  { split; [done|]. rewrite le_bytes_length. lia. }
  assert (forall k, 0 <= k -> u8 (Z.land (Z.shiftr v k) 0xFF) = Z.shiftr v k mod 256) as Hb.
  { intros k Hk. change 0xFF with (Z.ones 8). rewrite Z.land_ones by lia. unfold u8.
    by rewrite Z.mod_mod. }
  unfold write_le32. rewrite !Hb by lia. replace (u8 (Z.land v 255)) with (v mod 256).
  2: { specialize (Hb 0 ltac:(lia)). by rewrite Z.shiftr_0_r in Hb. }
  rewrite !Z.shiftr_div_pow2 by lia. change (2 ^ 8) with 256.
  replace (v / 2 ^ 16) with (v / 256 / 256) by (rewrite Z.div_div by lia; done).
  replace (v / 2 ^ 24) with (v / 256 / 256 / 256) by (rewrite !Z.div_div by lia; done).
  apply list_eq. intros i. rewrite splice_lookup by done. rewrite le_bytes_length.
  rewrite !list_lookup_insert, !length_insert.
  repeat (case_decide; [|]); try lia; try done;
    match goal with |- _ = le_bytes _ _ !! ?k => idtac | _ => idtac end.
  all: try (replace (i - Z.to_nat o)%nat with 0%nat by lia; done).
  all: try (replace (i - Z.to_nat o)%nat with 1%nat by lia; done).
  all: try (replace (i - Z.to_nat o)%nat with 2%nat by lia; done).
  all: try (replace (i - Z.to_nat o)%nat with 3%nat by lia; done).
Qed.
End Readers.

(** ** Sectors as bytes *)

Definition bytes_of_words (w : list Z) : list Z := flat_map (le_bytes 2) w.

Fixpoint words_of_bytes (b : list Z) : list Z :=
  match b with
  | lo :: hi :: b' => lo + 256 * hi :: words_of_bytes b'
  | _ => []
  end.

Lemma bytes_of_words_length w : length (bytes_of_words w) = (2 * length w)%nat.
Proof. induction w as [|x w IH]; simpl; [done|]. rewrite IH. lia. Qed.

Lemma bytes_of_words_byte w : Forall is_byte (bytes_of_words w).
Proof.
  induction w as [|x w IH]; [constructor|].
  change (bytes_of_words (x :: w)) with (le_bytes 2 x ++ bytes_of_words w).
  apply Forall_app. split; [apply le_bytes_byte|done].
Qed.

Lemma pair_ind (P : list Z -> Prop) :
  P [] -> (forall x, P [x]) -> (forall x y l, P l -> P (x :: y :: l)) -> forall l, P l.
Proof.
  intros H0 H1 H2 l. assert (P l /\ forall x, P (x :: l)) as [H _]; [|done].
  induction l as [|y l [IH1 IH2]]; [done|]. split; [done|]. intros x. by apply H2.
Qed.

Lemma words_of_bytes_length n b : length b = (2 * n)%nat -> length (words_of_bytes b) = n.
Proof.
  revert n. induction b as [|x|x y b IH] using pair_ind; intros n Hn; simpl in *; [lia|lia|].
  destruct n as [|n]; [lia|]. rewrite (IH n) by lia. done.
Qed.

Lemma bytes_words_bytes n b : length b = (2 * n)%nat -> Forall is_byte b ->
  bytes_of_words (words_of_bytes b) = b.
Proof.
  revert n. induction b as [|x|x y b IH] using pair_ind; intros n Hn Hb; [done|simpl in Hn; lia|].
  destruct n as [|n]; [simpl in Hn; lia|]. inversion Hb as [|? ? Hx Hb1]; subst.
  inversion Hb1 as [|? ? Hy Hb2]; subst. unfold is_byte in *.
  cbn [words_of_bytes]. change (bytes_of_words (?w :: ?l)) with (le_bytes 2 w ++ bytes_of_words l).
  rewrite (IH n) by (done || simpl in Hn; lia).
  assert ((x + 256 * y) mod 256 = x) as Hm
    by (rewrite (Z.mul_comm 256), Z.mod_add, Z.mod_small; lia).
  assert ((x + 256 * y) / 256 mod 256 = y) as Hd
    by (rewrite (Z.mul_comm 256), Z.div_add, Z.div_small, Z.add_0_l, Z.mod_small; lia).
  cbn -[Z.mul Z.add Z.div Z.modulo] in *. by rewrite Hm, Hd.
Qed.

Definition read_le64 (p : list Z) (o : Z) : Z :=
  Z.lor (Z.lor (Z.lor (Z.lor (Z.lor (Z.lor (Z.lor p.[o] (Z.shiftl p.[o + 1] 8))
    (Z.shiftl p.[o + 2] 16)) (Z.shiftl p.[o + 3] 24)) (Z.shiftl p.[o + 4] 32))
    (Z.shiftl p.[o + 5] 40)) (Z.shiftl p.[o + 6] 48)) (Z.shiftl p.[o + 7] 56).

Lemma read_le64_ok l o : Forall is_byte l -> 0 <= o -> o + 8 <= Z.of_nat (length l) ->
  read_le64 l o = le_val (slice o 8 l).
Proof.
  intros Hl Ho Hlen. unfold read_le64.
  pose proof (lookup_byte l o Hl ltac:(lia)). pose proof (lookup_byte l (o + 1) Hl ltac:(lia)).
  pose proof (lookup_byte l (o + 2) Hl ltac:(lia)). pose proof (lookup_byte l (o + 3) Hl ltac:(lia)).
  pose proof (lookup_byte l (o + 4) Hl ltac:(lia)). pose proof (lookup_byte l (o + 5) Hl ltac:(lia)).
  pose proof (lookup_byte l (o + 6) Hl ltac:(lia)). pose proof (lookup_byte l (o + 7) Hl ltac:(lia)).
  unfold is_byte in *.
  rewrite (lor_shift l.[o]) by lia. do 6 (rewrite (lor_shift (_ + _)) by lia).
  rewrite !slice_cons by lia. cbn [le_val].
  replace (o + 1 + 1) with (o + 2) by lia. replace (o + 2 + 1) with (o + 3) by lia.
  replace (o + 3 + 1) with (o + 4) by lia. replace (o + 4 + 1) with (o + 5) by lia.
  replace (o + 5 + 1) with (o + 6) by lia. replace (o + 6 + 1) with (o + 7) by lia.
  replace (slice (o + 7 + 1) (8 - 1 - 1 - 1 - 1 - 1 - 1 - 1 - 1) l) with (@nil Z) by done.
  cbn [le_val]. lia.
Qed.
