(* ===== verification/Partition.v ===== *)
(** * Partition tables (kernel/partition.c)

    The scans of a master boot record and of a GUID partition table over a sector
    device. *)
From S2P Require Import Prelude BlockDev Bytes.

Definition PARTITION_MAX_ENTRIES : Z := 4.

Record PartitionEntry := { valid : Z; type : Z; lba_start : Z; sector_count : Z }.

Definition no_entry : PartitionEntry := {| valid := 0; type := 0; lba_start := 0; sector_count := 0 |}.

Definition guid_is_zero (guid : list Z) : bool := forallb (fun b => b =? 0) (take 16 guid).

Section Scan.
Context {D : Type} `{BlockDev D}.

(** What a local sector buffer holds before it is read into. *)
Context (stack : list Z).

(** Clearing the first [max_entries] cells of the result. *)
Definition clear_entries (max_entries : Z) (out : list PartitionEntry) : list PartitionEntry :=
  for_each (fun i out => <[i := no_entry]> out) 0 (Z.to_nat max_entries) out.

Definition has_signature (bytes : list Z) : bool :=
  negb (negb (bytes.[510] =? 0x55) || negb (bytes.[511] =? 0xAA)).

(** One turn of the loop on the result and [count]. *)
Definition mbr_step (bytes : list Z) (i : nat) (st : list PartitionEntry * Z)
  : list PartitionEntry * Z :=
  let '(out, count) := st in
  let off := 446 + Z.of_nat i * 16 in
  let type := bytes.[off + 4] in
  let lba_start := read_le32 bytes (off + 8) in
  let sectors := read_le32 bytes (off + 12) in
  if (type =? 0) || (sectors =? 0) then (out, count)
  else (<[Z.to_nat count := {| valid := 1; type := type; lba_start := lba_start;
                               sector_count := sectors |}]> out, count + 1).

Definition partition_scan_mbr (out : option (list PartitionEntry)) (max_entries : Z) (d : D)
  : D * option (list PartitionEntry) * Z :=
  match out with
  | None => (d, None, -1)
  | Some out =>
      if max_entries <=? 0 then (d, Some out, -1)
      else
        let out := clear_entries max_entries out in
        let '(d1, rc, sector) := dev_read 0 stack d in
        if negb (rc =? DISK_IO_OK) then (d1, Some out, -1)
        else
          let bytes := bytes_of_words sector in
          if negb (has_signature bytes) then (d1, Some out, 0)
          else
            let '(out, count) := for_each (mbr_step bytes) 0
              (Z.to_nat (Z.min PARTITION_MAX_ENTRIES max_entries)) (out, 0) in
            (d1, Some out, count)
  end.

(** One turn of the loop over the entries of a GUID table; a read past the end
    of the local sector makes the call undefined, which is the result [None]. *)
Definition gpt_step (max_entries entry_lba entry_size entries_per_sector : Z) (n : nat)
  (st : D * list PartitionEntry * Z) : (D * list PartitionEntry * Z) * option (option Z) :=
  let '(d, out, count) := st in
  let i := Z.of_nat n in
  if max_entries <=? count then (st, Some (Some count))
  else
    let sector_index := i / entries_per_sector in
    let entry_offset := (i mod entries_per_sector) * entry_size in
    let '(d1, rc, entry_sector) := dev_read (entry_lba +u sector_index) stack d in
    if negb (rc =? DISK_IO_OK) then ((d1, out, count), Some (Some (-1)))
    else if 512 <? entry_offset + 48 then ((d1, out, count), Some None)
    else
      let entry_bytes := bytes_of_words entry_sector in
      if guid_is_zero (drop (Z.to_nat (entry_offset + 16)) entry_bytes) then ((d1, out, count), None)
      else
        let first_lba := read_le64 entry_bytes (entry_offset + 32) in
        let last_lba := read_le64 entry_bytes (entry_offset + 40) in
        if last_lba <? first_lba then ((d1, out, count), None)
        else ((d1, <[Z.to_nat count := {| valid := 1; type := 0xEE; lba_start := u32 first_lba;
                 sector_count := u32 ((last_lba - first_lba + 1) mod 2 ^ 64) |}]> out, count + 1), None).

Definition efi_part : list Z := [0x45; 0x46; 0x49; 0x20; 0x50; 0x41; 0x52; 0x54].

Definition partition_scan_gpt (out : option (list PartitionEntry)) (max_entries : Z) (d : D)
  : D * option (list PartitionEntry) * option Z :=
  match out with
  | None => (d, None, Some (-1))
  | Some out =>
      if max_entries <=? 0 then (d, Some out, Some (-1))
      else
        let out := clear_entries max_entries out in
        let '(d1, rc, sector) := dev_read 0 stack d in
        if negb (rc =? DISK_IO_OK) then (d1, Some out, Some (-1))
        else if negb (has_signature (bytes_of_words sector)) then (d1, Some out, Some 0)
        else
          let '(d2, rc, sector) := dev_read 1 sector d1 in
          if negb (rc =? DISK_IO_OK) then (d2, Some out, Some (-1))
          else
            let bytes := bytes_of_words sector in
            if negb (bool_decide (take 8 bytes = efi_part)) then (d2, Some out, Some 0)
            else
              let entry_lba := read_le32 bytes 72 in
              let entry_count := read_le32 bytes 80 in
              let entry_size := read_le32 bytes 84 in
              if entry_size =? 0 then (d2, Some out, Some 0)
              else
                let entries_per_sector := 512 / entry_size in
                if entries_per_sector =? 0 then (d2, Some out, Some 0)
                else
                  match for_until (gpt_step max_entries entry_lba entry_size entries_per_sector)
                          0 (Z.to_nat entry_count) (d2, out, 0) with
                  | ((d3, out, count), None) => (d3, Some out, Some count)
                  | ((d3, out, _), Some r) => (d3, Some out, r)
                  end
  end.

(** ** The MBR scan *)

Definition mbr_entry (bytes : list Z) (i : nat) : PartitionEntry :=
  let off := 446 + Z.of_nat i * 16 in
  {| valid := 1; type := bytes.[off + 4]; lba_start := le_val (slice (off + 8) 4 bytes);
     sector_count := le_val (slice (off + 12) 4 bytes) |}.

Definition in_use (e : PartitionEntry) : bool := negb (type e =? 0) && negb (sector_count e =? 0).

(** The used slots among the first [n], in table order. *)
Definition mbr_entries (bytes : list Z) (n : nat) : list PartitionEntry :=
  List.filter in_use (map (mbr_entry bytes) (seq 0 n)).

Lemma clear_entries_ok n : forall (out : list PartitionEntry), (n <= length out)%nat ->
  for_each (fun i out => <[i := no_entry]> out) 0 n out = replicate n no_entry ++ drop n out.
Proof.
  intros out Hn.
  pose (I := fun (k : nat) (o : list PartitionEntry) => length o = length out /\
    forall j, o !! j = if (j <? k)%nat then if (j <? length out)%nat then Some no_entry else None else out !! j).
  assert (I (0 + n)%nat (for_each (fun i out => <[i := no_entry]> out) 0 n out)) as [Hl Hj].
  { apply (for_each_inv _ I).
    - split; [done|]. intros j. by destruct (Nat.ltb_spec j 0); [lia|].
    - intros k o Hk [Hlen Ho]. split; [by rewrite length_insert|]. intros j.
      rewrite list_lookup_insert, Ho, Hlen.
      destruct (Nat.ltb_spec j k), (Nat.ltb_spec j (S k)), (Nat.ltb_spec j (length out));
        case_decide; try done; lia. }
  apply list_eq. intros j. rewrite Hj. destruct (Nat.ltb_spec j (0 + n)).
  - rewrite lookup_app_l by (rewrite length_replicate; lia). rewrite lookup_replicate_2 by lia.
    by destruct (Nat.ltb_spec j (length out)); [|lia].
  - rewrite lookup_app_r by (rewrite length_replicate; lia). rewrite length_replicate, lookup_drop.
    f_equal. lia.
Qed.

Lemma mbr_step_ok bytes i found rest : length bytes = 512%nat -> Forall is_byte bytes -> (i < 4)%nat ->
  rest <> [] ->
  mbr_step bytes i (found ++ rest, Z.of_nat (length found)) =
  if in_use (mbr_entry bytes i)
  then ((found ++ [mbr_entry bytes i]) ++ tail rest, Z.of_nat (length (found ++ [mbr_entry bytes i])))
  else (found ++ rest, Z.of_nat (length found)).
Proof.
  intros Hl Hb Hi Hr. unfold mbr_step, in_use, mbr_entry. cbn [type sector_count lba_start].
  rewrite !read_le32_ok by (done || lia). cbv zeta.
  destruct (bytes.[446 + Z.of_nat i * 16 + 4] =? 0); simpl; [done|].
  destruct (le_val _ =? 0); simpl; [done|].
  rewrite Nat2Z.id, length_app. destruct rest as [|r rest]; [done|]. simpl.
  rewrite insert_app_r_alt by lia. rewrite Nat.sub_diag. simpl. rewrite <- app_assoc. f_equal. lia.
Qed.

Lemma tail_of_drop {A} n (l : list A) : tail (drop n l) = drop (S n) l.
Proof. revert l. induction n as [|n IH]; intros [|x l]; simpl; done. Qed.

Lemma mbr_loop_ok bytes n rest : length bytes = 512%nat -> Forall is_byte bytes -> (n <= 4)%nat ->
  (n <= length rest)%nat ->
  for_each (mbr_step bytes) 0 n (rest, 0) =
  (mbr_entries bytes n ++ drop (length (mbr_entries bytes n)) rest, Z.of_nat (length (mbr_entries bytes n))).
Proof.
  intros Hl Hb Hn Hr.
  apply (for_each_inv (mbr_step bytes) (fun k st =>
    st = (mbr_entries bytes k ++ drop (length (mbr_entries bytes k)) rest,
          Z.of_nat (length (mbr_entries bytes k))))).
  - done.
  - intros k st Hk ->. assert (length (mbr_entries bytes k) <= k)%nat as Hle.
    { unfold mbr_entries. etrans; [apply filter_length_le|]. by rewrite length_map, length_seq. }
    assert (mbr_entries bytes (S k) = mbr_entries bytes k ++
      if in_use (mbr_entry bytes k) then [mbr_entry bytes k] else []) as ->.
    { unfold mbr_entries. rewrite seq_S, map_app, List.filter_app. simpl. by case_if. }
    rewrite mbr_step_ok; [|done|done|lia|].
    + case_if; [|by rewrite app_nil_r]. rewrite tail_of_drop, length_app. simpl. by rewrite Nat.add_1_r.
    + intros Hnil. apply (f_equal length) in Hnil. rewrite length_drop in Hnil. simpl in Hnil. lia.
Qed.

(** ** The GPT scan *)

(** Entry [i] of the table that starts at [entry_lba], as the sectors [v] hold it. *)
Definition gpt_bytes (v : Z -> list Z) (entry_lba entry_size i : Z) : list Z :=
  let per := 512 / entry_size in
  slice ((i mod per) * entry_size) 48 (bytes_of_words (v (entry_lba +u i / per))).

Definition gpt_used (e : list Z) : bool :=
  negb (guid_is_zero (slice 16 16 e)) && (le_val (slice 32 8 e) <=? le_val (slice 40 8 e)).

Definition gpt_entry (e : list Z) : PartitionEntry :=
  {| valid := 1; type := 0xEE; lba_start := u32 (le_val (slice 32 8 e));
     sector_count := u32 ((le_val (slice 40 8 e) - le_val (slice 32 8 e) + 1) mod 2 ^ 64) |}.

(** The used entries among the first [n], in table order. *)
Definition gpt_entries (v : Z -> list Z) (entry_lba entry_size : Z) (n : nat) : list PartitionEntry :=
  map gpt_entry (List.filter gpt_used
    (map (fun i => gpt_bytes v entry_lba entry_size (Z.of_nat i)) (seq 0 n))).

Lemma gpt_entries_S v lba sz n : gpt_entries v lba sz (S n) = gpt_entries v lba sz n ++
  let e := gpt_bytes v lba sz (Z.of_nat n) in if gpt_used e then [gpt_entry e] else [].
Proof.
  unfold gpt_entries. rewrite seq_S, map_app, List.filter_app, map_app. simpl. by case_if.
Qed.

End Scan.

Section Gpt.
Context {D : Type} `{WorkingDev D} (stack : list Z) (Hstack : is_sector stack).

Lemma works_read (d d1 : D) q b rc b' : dev_inv d -> is_sector b -> dev_read q b d = (d1, rc, b') ->
  dev_works d -> rc = DISK_IO_OK /\ dev_works d1.
Proof. intros Hd Hb Hr Hw. pose proof (dev_works_read d q b Hd Hw Hb) as Hx. by rewrite Hr in Hx. Qed.

(** What the loop has done after the entries before [n]. *)
Definition gpt_inv (d0 : D) (lba sz : Z) (out0 : list PartitionEntry) (n : nat)
  (st : D * list PartitionEntry * Z) : Prop :=
  let '(d, out, count) := st in
  let found := gpt_entries (dev_content d0) lba sz n in
  dev_inv d /\ (dev_works d0 -> dev_works d) /\ (forall q, dev_content d q = dev_content d0 q) /\
  count = Z.of_nat (length found) /\ out = found ++ drop (length found) out0 /\
  (length found <= length out0)%nat.

Lemma gpt_step_ok d0 lba sz max out0 n st : dev_inv d0 -> 48 <= sz <= 512 ->
  Z.of_nat (length out0) = max -> gpt_inv d0 lba sz out0 n st ->
  match gpt_step stack max lba sz (512 / sz) n st with
  | (st', None) => gpt_inv d0 lba sz out0 (S n) st'
  | ((d', out', _), Some r) => gpt_inv d0 lba sz out0 n (d', out', snd st) /\
      (r = Some (-1) /\ ~ dev_works d0 \/ r = Some (snd st) /\ max <= snd st)
  end.
Proof.
  destruct st as [[d out] count]. intros Hd0 Hsz Hmax (Hd & Hw & Hc & Hcount & Hout & Hle). unfold gpt_step.
  destruct (Z.leb_spec max count); [by split_and!; [..|right]|].
  destruct (dev_read _ stack d) as [[d1 rc] sector] eqn:Hr.
  pose proof (dev_read_ok d _ stack d1 rc sector Hd Hstack Hr) as (Hd1 & Hsec & Hc1 & Hok).
  pose proof (works_read d d1 _ stack rc sector Hd Hstack Hr) as Hw1.
  assert (gpt_inv d0 lba sz out0 n (d1, out, count)) as Hinv.
  { split_and!; [done|naive_solver| |done..]. intros q. by rewrite Hc1. }
  case_if.
  { split; [done|]. left. split; [done|]. intros Hw0. apply negb_true_iff, Z.eqb_neq in E. naive_solver. } apply negb_false_iff, Z.eqb_eq in E. specialize (Hok E). subst sector.
  assert (1 <= 512 / sz /\ 512 / sz * sz <= 512) as [Hper1 Hper2].
  { split; [apply Z.div_le_lower_bound; lia|]. rewrite Z.mul_comm. apply Z.mul_div_le. lia. }
  pose proof (Z.mod_pos_bound (Z.of_nat n) (512 / sz) ltac:(lia)) as Hm.
  assert (Z.of_nat n mod (512 / sz) * sz + 48 <= 512) as Hoff by nia.
  destruct (Z.ltb_spec 512 (Z.of_nat n mod (512 / sz) * sz + 48)); [lia|].
  set (off := Z.of_nat n mod (512 / sz) * sz) in *.
  set (bytes := bytes_of_words _).
  assert (Z.of_nat (length bytes) = 512) as Hlen.
  { unfold bytes. rewrite bytes_of_words_length, dev_content_sector by done. done. }
  pose proof (bytes_of_words_byte (dev_content d (lba +u Z.of_nat n / (512 / sz)))) as Hb. fold bytes in Hb.
  assert (gpt_bytes (dev_content d0) lba sz (Z.of_nat n) = slice off 48 bytes) as He.
  { unfold gpt_bytes. fold off. by rewrite <- Hc. }
  assert (0 <= off) as Hoff0 by (unfold off; nia).
  rewrite !read_le64_ok by (done || lia).
  assert (guid_is_zero (drop (Z.to_nat (off + 16)) bytes) = guid_is_zero (slice 16 16 (slice off 48 bytes))) as ->.
  { unfold guid_is_zero. rewrite slice_slice by lia. unfold slice. by rewrite take_take. }
  unfold gpt_inv. rewrite gpt_entries_S. cbv zeta. rewrite He. unfold gpt_used.
  rewrite !(slice_slice off 48 _ 8) by lia.
  destruct (guid_is_zero _); simpl; [rewrite app_nil_r; by split_and!; [|naive_solver|intros q; rewrite Hc1|..]|].
  rewrite (Z.leb_antisym (le_val (slice (off + 40) 8 bytes))).
  destruct (Z.ltb_spec (le_val (slice (off + 40) 8 bytes)) (le_val (slice (off + 32) 8 bytes))); simpl.
  { rewrite app_nil_r. by split_and!; [|naive_solver|intros q; rewrite Hc1|..]. }
  split_and!; [done|naive_solver|intros q; by rewrite Hc1|rewrite length_app; simpl; lia| |rewrite length_app; simpl; lia].
  unfold gpt_entry. rewrite !(slice_slice off 48 _ 8) by lia.
  rewrite Hcount, Nat2Z.id, Hout. rewrite insert_app_r_alt by lia. rewrite Nat.sub_diag.
  rewrite length_app. simpl. rewrite Nat.add_1_r, <- tail_of_drop.
  destruct (drop _ out0) as [|r rest] eqn:Hdr.
  - apply (f_equal length) in Hdr. rewrite length_drop in Hdr. simpl in Hdr. lia.
  - simpl. by rewrite <- app_assoc.
Qed.

Lemma gpt_entries_ext v v' lba sz n : (forall q, v q = v' q) -> gpt_entries v lba sz n = gpt_entries v' lba sz n.
Proof.
  intros Hv. unfold gpt_entries. do 2 f_equal. apply map_ext. intros i. unfold gpt_bytes. by rewrite Hv.
Qed.

Lemma gpt_entries_prefix v lba sz n m : (n <= m)%nat ->
  gpt_entries v lba sz n `prefix_of` gpt_entries v lba sz m.
Proof.
  induction 1 as [|m _ IH]; [done|]. etrans; [apply IH|]. rewrite gpt_entries_S. by eexists.
Qed.

(** The loop, from an all-clear result: unless a sector cannot be read, the
    entries of the whole table, as many as there is room for. *)
Lemma gpt_loop_ok d0 lba sz max out0 cnt : dev_inv d0 -> 48 <= sz <= 512 -> 0 < max ->
  Z.of_nat (length out0) = max ->
  let found := take (Z.to_nat max) (gpt_entries (dev_content d0) lba sz cnt) in
  match for_until (gpt_step stack max lba sz (512 / sz)) 0 cnt (d0, out0, 0) with
  | ((d', out', count), r) =>
      dev_inv d' /\ (forall q, dev_content d' q = dev_content d0 q) /\ length out' = length out0 /\
      (r = Some (Some (-1)) /\ ~ dev_works d0 \/
       (r = None \/ r = Some (Some count)) /\ count = Z.of_nat (length found) /\
       out' = found ++ drop (length found) out0)
  end.
Proof.
  intros Hd Hsz Hmax Hl found.
  pose proof (for_until_inv (gpt_step stack max lba sz (512 / sz)) (gpt_inv d0 lba sz out0)
    cnt 0 (d0, out0, 0)) as Hloop.
  assert (gpt_inv d0 lba sz out0 0 (d0, out0, 0)) as Hi.
  { split_and!; try done. simpl. lia. }
  assert (forall n st, (n <= cnt)%nat -> gpt_inv d0 lba sz out0 n st -> (n = cnt \/ max <= snd st) ->
    snd st = Z.of_nat (length found) /\ snd (fst st) = found ++ drop (length found) out0) as Hfound.
  { intros n [[d out] count] Hn (_ & _ & _ & Hcount & Hout & Hle) Hend. simpl in *.
    assert (found = gpt_entries (dev_content d0) lba sz n) as ->; [|done]. unfold found.
    destruct (gpt_entries_prefix (dev_content d0) lba sz n cnt Hn) as [k Hk].
    destruct Hend as [->|Hend]; [by rewrite take_ge by lia|]. rewrite Hk. apply take_app_length'. lia. }
  specialize (Hloop Hi). destruct (for_until _ _ _ _) as [[[d' out'] count'] [r|]].
  - destruct Hloop as (n & t & Hn & Ht & Hs).
    { intros j t t' Hj Ht Hs. pose proof (gpt_step_ok d0 lba sz max out0 j t Hd Hsz Hl Ht) as Hok.
      destruct t' as [[? ?] ?]. by rewrite Hs in Hok. }
    pose proof (gpt_step_ok d0 lba sz max out0 n t Hd Hsz Hl Ht) as Hok.
    rewrite Hs in Hok. destruct Hok as [Hg Hr]. pose proof Hg as (G1 & _ & G2 & _ & G3 & G4).
    split_and!; [done..| |]; [rewrite G3, length_app, length_drop; lia|].
    destruct Hr as [[-> Hr]|[-> Hr]]; [by left|]. right.
    destruct (Hfound n (d', out', snd t) ltac:(lia) Hg ltac:(by right)) as [F1 F2]. simpl in F1, F2.
    enough (snd t = count') as Hsc by (rewrite <- Hsc; split_and!; [by right|done..]).
    destruct t as [[td tout] tc]. unfold gpt_step in Hs. cbn [snd] in *.
    by destruct (Z.leb_spec max tc); [simplify_eq|lia].
  - specialize (Hloop ltac:(intros j t t' Hj Ht Hs;
      pose proof (gpt_step_ok d0 lba sz max out0 j t Hd Hsz Hl Ht) as Hok;
      destruct t' as [[? ?] ?]; by rewrite Hs in Hok)).
    pose proof Hloop as (G1 & _ & G2 & _ & G3 & G4).
    split_and!; [done..| |]; [rewrite G3, length_app, length_drop; lia|]. right.
    destruct (Hfound cnt _ ltac:(lia) Hloop ltac:(by left)) as [F1 F2]. split_and!; [by left|done..].
Qed.
End Gpt.

(** ** Properties *)

(** the MBR scan of a readable first sector returns 0 and an all-clear result
    without the boot signature; with it, the used slots of the table (type and
    sector count nonzero) in table order, at most [min 4 max_entries], each with
    the little-endian fields of its slot, the other cells cleared, and their
    number. *)
Theorem partition_scan_mbr_correct {D} `{BlockDev D} (stack : list Z) out max (d d1 : D) w :
  0 < max -> Z.of_nat (length out) = max -> is_sector w -> dev_read 0 stack d = (d1, DISK_IO_OK, w) ->
  let bytes := bytes_of_words w in
  let found := if has_signature bytes then mbr_entries bytes (Z.to_nat (Z.min 4 max)) else [] in
  partition_scan_mbr stack (Some out) max d =
    (d1, Some (found ++ replicate (Z.to_nat max - length found) no_entry), Z.of_nat (length found)).
Proof.
  intros Hmax Hl Hw Hr bytes found. unfold partition_scan_mbr, clear_entries.
  destruct (Z.leb_spec max 0); [lia|]. rewrite Hr. simpl. fold bytes.
  rewrite clear_entries_ok, drop_ge, app_nil_r by lia. unfold found.
  destruct (has_signature bytes); simpl; [|by rewrite Nat.sub_0_r].
  assert (length bytes = 512%nat) as Hlen by (unfold bytes; by rewrite bytes_of_words_length, Hw).
  change PARTITION_MAX_ENTRIES with 4.
  rewrite mbr_loop_ok; [|done|apply bytes_of_words_byte|lia|rewrite length_replicate; lia].
  by rewrite drop_replicate.
Qed.

(** A disk with one Linux partition in the second slot. *)
Definition demo_mbr : MemDisk := {| md_data := {[0 :=
  words_of_bytes (replicate 462 0 ++ [0; 0; 0; 0; 0x83; 0; 0; 0; 0; 8; 0; 0; 0; 0; 1; 0] ++
                  replicate 32 0 ++ [0x55; 0xAA])]}; md_bad := ∅ |}.

Lemma partition_scan_mbr_correct_witness :
  let w := md_content demo_mbr 0 in
  let found := mbr_entries (bytes_of_words w) 4 in
  found = [{| valid := 1; type := 0x83; lba_start := 2048; sector_count := 65536 |}] /\
  partition_scan_mbr zero_sector (Some (replicate 4 no_entry)) 4 demo_mbr =
    (demo_mbr, Some (found ++ replicate (4 - length found) no_entry), Z.of_nat (length found)).
Proof.
  split; [vm_compute; reflexivity|].
  apply (partition_scan_mbr_correct zero_sector (replicate 4 no_entry) 4 demo_mbr demo_mbr
    (md_content demo_mbr 0)); vm_compute; reflexivity.
Defined.

(** What the scan of a disk with sectors [v] is to find: nothing unless the first
    sector ends in the boot signature, the second starts with "EFI PART" and the
    size of an entry is between 1 and 512; else the used entries of the whole
    table the header describes. *)
Definition gpt_table (v : Z -> list Z) : list PartitionEntry :=
  let header := bytes_of_words (v 1) in
  let sz := read_le32 header 84 in
  if has_signature (bytes_of_words (v 0)) && bool_decide (take 8 header = efi_part) &&
     (1 <=? sz) && (sz <=? 512)
  then gpt_entries v (read_le32 header 72) sz (Z.to_nat (read_le32 header 80)) else [].

(** C36: on a device that keeps its data, when the header's entry size is zero or
    at least 48 bytes, the GPT scan never reads past its sector buffer or writes
    past the result. It returns -1 only when a sector could not be read (never on
    a device that can read every sector); otherwise it finds exactly what
    [gpt_table] describes, as far as there is room: nothing without the boot
    signature or the "EFI PART" signature, and with them the used entries of the
    whole table in table order (unique id nonzero, first not above last sector).
    It returns their number and leaves the other cells of the result cleared. *)
Theorem partition_scan_gpt_correct {D} `{WorkingDev D} (stack : list Z) out max (d : D) :
  dev_inv d -> is_sector stack -> 0 < max -> Z.of_nat (length out) = max ->
  let sz := read_le32 (bytes_of_words (dev_content d 1)) 84 in
  sz = 0 \/ 48 <= sz ->
  let found := take (Z.to_nat max) (gpt_table (dev_content d)) in
  exists d' out' r, partition_scan_gpt stack (Some out) max d = (d', Some out', Some r) /\
    dev_inv d' /\ (forall q, dev_content d' q = dev_content d q) /\ length out' = length out /\
    (r = -1 /\ ~ dev_works d \/
     r = Z.of_nat (length found) /\ out' = found ++ replicate (length out - length found) no_entry).
Proof.
  intros Hd Hs Hmax Hl sz Hsz found. unfold partition_scan_gpt, clear_entries.
  destruct (Z.leb_spec max 0); [lia|].
  rewrite clear_entries_ok, drop_ge, app_nil_r by lia.
  set (blank := replicate (Z.to_nat max) no_entry).
  assert (Z.of_nat (length blank) = max) as Hbl by (unfold blank; rewrite length_replicate; lia).
  assert (forall d1 : D, dev_inv d1 -> (forall q, dev_content d1 q = dev_content d q) -> forall r,
    (r = -1 /\ ~ dev_works d \/ r = 0 /\ gpt_table (dev_content d) = []) ->
    exists d' out' r', (d1, Some blank, Some r) = (d', Some out', Some r') /\
    dev_inv d' /\ (forall q, dev_content d' q = dev_content d q) /\ length out' = length out /\
    (r' = -1 /\ ~ dev_works d \/
     r' = Z.of_nat (length found) /\ out' = found ++ replicate (length out - length found) no_entry)) as Hret.
  { intros d1 Hd1 Hc1 r Hr. exists d1, blank, r. split_and!; [done..|lia|].
    destruct Hr as [Hr|[-> Ht]]; [by left|right]. unfold found. rewrite Ht, take_nil. simpl.
    split; [done|]. unfold blank. f_equal. lia. }
  destruct (dev_read 0 stack d) as [[d1 rc] sec] eqn:Hr1.
  pose proof (dev_read_ok _ _ _ _ _ _ Hd Hs Hr1) as (Hd1 & Hs1 & Hc1 & Hok1).
  pose proof (works_read _ _ _ _ _ _ Hd Hs Hr1) as Hw1.
  destruct (negb (rc =? DISK_IO_OK)) eqn:E; [apply Hret; [done..|left]; apply negb_true_iff, Z.eqb_neq in E; naive_solver|].
  apply negb_false_iff, Z.eqb_eq in E. rewrite (Hok1 E). unfold gpt_table in Hret.
  unfold found, gpt_table in *. fold sz in Hret |- *.
  destruct (has_signature (bytes_of_words (dev_content d 0))) eqn:Esig; cbn [negb andb] in *;
    [|apply Hret; auto].
  destruct (dev_read 1 (dev_content d 0) d1) as [[d2 rc2] sec2] eqn:Hr2.
  assert (is_sector (dev_content d 0)) as Hs0 by by apply dev_content_sector.
  pose proof (dev_read_ok _ _ _ _ _ _ Hd1 Hs0 Hr2) as (Hd2 & Hs2 & Hc2 & Hok).
  pose proof (works_read _ _ _ _ _ _ Hd1 Hs0 Hr2) as Hw2.
  assert (forall q, dev_content d2 q = dev_content d q) as Hcd by (intros q; by rewrite Hc2, Hc1).
  destruct (negb (rc2 =? DISK_IO_OK)) eqn:E1; [apply Hret; [done..|left]; apply negb_true_iff, Z.eqb_neq in E1; naive_solver|].
  apply negb_false_iff, Z.eqb_eq in E1. rewrite (Hok E1), Hc1. fold sz.
  destruct (bool_decide _) eqn:Eefi; cbn [negb andb] in *; [|apply Hret; auto].
  destruct (sz =? 0) eqn:E3; [apply Hret; [done..|right]; split; [done|]; rewrite (proj2 (Z.leb_gt 1 sz)); [done|bsimpl; lia]|].
  apply Z.eqb_neq in E3. destruct (Z.leb_spec 1 sz); [|lia]. cbn [andb] in *.
  destruct (512 / sz =? 0) eqn:E4.
  { apply Hret; [done..|right]. split; [done|]. destruct (Z.leb_spec sz 512); [|done].
    apply Z.eqb_eq in E4. pose proof (Z.div_le_lower_bound 512 sz 1). lia. }
  assert (sz <= 512).
  { destruct (Z.le_gt_cases sz 512); [done|]. rewrite Z.div_small in E4 by lia. done. }
  destruct (Z.leb_spec sz 512); [|lia]. clear Hret.
  pose proof (gpt_loop_ok stack Hs d2 (read_le32 (bytes_of_words (dev_content d 1)) 72) sz max blank
    (Z.to_nat (read_le32 (bytes_of_words (dev_content d 1)) 80)) Hd2 ltac:(lia) Hmax Hbl) as Hloop.
  cbv zeta in Hloop. rewrite (gpt_entries_ext (dev_content d2) (dev_content d)) in Hloop by done.
  destruct (for_until _ _ _ _) as [[[d' out'] count] r].
  destruct Hloop as (L1 & L2 & L3 & L4).
  exists d', out'. unfold blank in L4. rewrite drop_replicate in L4.
  replace (Z.to_nat max) with (length out) in * by lia.
  destruct L4 as [[-> L4]|([->| ->] & -> & L4)]; eexists; (split; [reflexivity|]);
    (split_and!; [done|intros q; by rewrite L2|lia|]).
  - left. split; [done|]. naive_solver.
  - by right.
  - by right.
Qed.

(** A disk with a GUID table of [sz]-byte entries at sector 2 whose first entry
    is used. *)
Definition demo_gpt (sz : Z) : MemDisk := {| md_data :=
  <[0 := words_of_bytes (replicate 510 0 ++ [0x55; 0xAA])]>
  (<[1 := words_of_bytes (efi_part ++ replicate 64 0 ++ le_bytes 8 2 ++ le_bytes 4 4 ++ le_bytes 4 sz
                          ++ replicate 424 0)]>
  {[2 := words_of_bytes (replicate 16 7 ++ replicate 16 9 ++ le_bytes 8 2048 ++ le_bytes 8 4095
                         ++ replicate 464 0)]}); md_bad := ∅ |}.

Lemma demo_gpt_wf : dev_inv (demo_gpt 128).
Proof.
  change (md_wf (demo_gpt 128)).
  unfold demo_gpt. repeat apply map_Forall_insert_2; try (vm_compute; reflexivity).
  apply map_Forall_empty.
Qed.

Lemma partition_scan_gpt_correct_witness :
  let found := take 4 (gpt_table (dev_content (demo_gpt 128))) in
  found = [{| valid := 1; type := 0xEE; lba_start := 2048; sector_count := 2048 |}] /\
  dev_works (demo_gpt 128) /\
  exists d' out' r, partition_scan_gpt zero_sector (Some (replicate 4 no_entry)) 4 (demo_gpt 128) =
      (d', Some out', Some r) /\
    dev_inv d' /\ (forall q, dev_content d' q = dev_content (demo_gpt 128) q) /\ length out' = 4%nat /\
    (r = -1 /\ ~ dev_works (demo_gpt 128) \/
     r = Z.of_nat (length found) /\ out' = found ++ replicate (4 - length found) no_entry).
Proof.
  split; [vm_compute; reflexivity|]. split; [done|].
  apply (partition_scan_gpt_correct zero_sector (replicate 4 no_entry) 4 (demo_gpt 128) demo_gpt_wf);
    [vm_compute; try split; congruence..|]. right. vm_compute. congruence.
Defined.

(** With entries of 20 bytes the scan reads past its sector buffer. *)
Lemma partition_scan_gpt_small_entries :
  snd (partition_scan_gpt zero_sector (Some (replicate 4 no_entry)) 4
    {| md_data := <[1 := words_of_bytes (efi_part ++ replicate 64 0 ++ le_bytes 8 2 ++ le_bytes 4 100
         ++ le_bytes 4 20 ++ replicate 424 0)]> (md_data (demo_gpt 128)); md_bad := ∅ |}) = None.
Proof. vm_compute. reflexivity. Qed.
