(* ===== verification/VfsDefs.v ===== *)
(** * The VFS vocabulary (kernel/vfs.h)

    Result codes, open flags and seek origins, shared by the VFS and the file
    systems behind it. *)
From S2P Require Import Prelude.

Definition VFS_OK : Z := 0.
Definition VFS_ERR_INVALID_FD : Z := -1.
Definition VFS_ERR_NOT_FOUND : Z := -2.
Definition VFS_ERR_NO_SPACE : Z := -3.
Definition VFS_ERR_INVALID_ARG : Z := -4.
Definition VFS_ERR_IO : Z := -5.
Definition VFS_ERR_PERM : Z := -6.
Definition VFS_ERR_WOULD_BLOCK : Z := -7.

Definition VFS_O_RDONLY : Z := 1.
Definition VFS_O_WRONLY : Z := 2.
Definition VFS_O_RDWR : Z := Z.lor VFS_O_RDONLY VFS_O_WRONLY.
Definition VFS_O_CREAT : Z := 4.
Definition VFS_O_TRUNC : Z := 8.

Definition VFS_SEEK_SET : Z := 0.
Definition VFS_SEEK_CUR : Z := 1.
Definition VFS_SEEK_END : Z := 2.

Record VfsFileStat := { st_size : Z; st_flags : Z }.

(** A C test of a masked flag word: [flags & mask]. *)
Definition has_flag (flags mask : Z) : bool := negb (Z.land flags mask =? 0).
