(* ===== verification/Ext2.v ===== *)
(** * The ext2 driver: volume, bitmaps, inodes, block map (kernel/ext2fs.c)

    The mounted volume, its blocks over a sector device, group descriptors,
    inodes with their byte image, the two allocation bitmaps, and the map from the
    blocks of a file to the blocks of the volume. *)
From S2P Require Import Prelude BlockDev Bytes.

Definition EXT2_SUPERBLOCK_OFFSET_LBA : Z := 2.
Definition EXT2_SUPERBLOCK_MAGIC : Z := 0xEF53.
Definition EXT2_BLOCK_SIZE : Z := 1024.
Definition EXT2_INODE_SIZE : Z := 128.
Definition EXT2_ROOT_INODE : Z := 2.
Definition EXT2_MAX_HANDLES : Z := 256.
Definition EXT2_NAME_MAX : Z := 255.
Definition EXT2_S_IFREG : Z := 0x8000.
Definition EXT2_S_IFDIR : Z := 0x4000.
Definition EXT2_FT_UNKNOWN : Z := 0.
Definition EXT2_FT_REG_FILE : Z := 1.
Definition EXT2_FT_DIR : Z := 2.
Definition EXT2_O_CREAT : Z := 4.
Definition EXT2_O_TRUNC : Z := 8.

(** ** Data *)

(** The superblock fields [read_superblock] fills; the others stay zero and are
    never read. *)
Record Ext2Superblock := {
  sb_inode_count : Z; sb_block_count : Z; sb_first_data_block : Z; sb_log_block_size : Z;
  sb_blocks_per_group : Z; sb_inodes_per_group : Z; sb_magic : Z; sb_rev_level : Z;
  sb_first_ino : Z; sb_inode_size : Z
}.

Record Ext2GroupDesc := {
  gd_block_bitmap : Z; gd_inode_bitmap : Z; gd_inode_table : Z;
  gd_free_blocks_count : Z; gd_free_inodes_count : Z; gd_used_dirs_count : Z
}.

Record Ext2Inode := {
  i_mode : Z; i_uid : Z; i_size : Z; i_atime : Z; i_ctime : Z; i_mtime : Z; i_dtime : Z;
  i_gid : Z; i_links_count : Z; i_blocks : Z; i_flags : Z; i_osd1 : Z; i_block : list Z;
  i_generation : Z; i_file_acl : Z; i_dir_acl : Z; i_faddr : Z; i_osd2 : list Z
}.

Record Ext2Handle := { h_used : Z; h_ref_count : Z; h_inode_num : Z; h_pos : Z; h_flags : Z }.

Record Ext2MountState := {
  mounted : Z; partition_lba : Z; block_size : Z; sectors_per_block : Z;
  inodes_per_group : Z; blocks_per_group : Z; inode_size : Z; inode_table_block : Z;
  block_bitmap_block : Z; inode_bitmap_block : Z; group_desc_block : Z; group_desc_count : Z;
  total_inodes : Z; total_blocks : Z; sb : Ext2Superblock
}.

#[export] Instance Ext2Inode_fields : Fields Ext2Inode := fun i =>
  Build_Ext2Inode (i_mode i) (i_uid i) (i_size i) (i_atime i) (i_ctime i) (i_mtime i) (i_dtime i)
    (i_gid i) (i_links_count i) (i_blocks i) (i_flags i) (i_osd1 i) (i_block i) (i_generation i)
    (i_file_acl i) (i_dir_acl i) (i_faddr i) (i_osd2 i).
#[export] Instance Ext2Handle_fields : Fields Ext2Handle := fun h =>
  Build_Ext2Handle (h_used h) (h_ref_count h) (h_inode_num h) (h_pos h) (h_flags h).
#[export] Instance Ext2MountState_fields : Fields Ext2MountState := fun m =>
  Build_Ext2MountState (mounted m) (partition_lba m) (block_size m) (sectors_per_block m)
    (inodes_per_group m) (blocks_per_group m) (inode_size m) (inode_table_block m)
    (block_bitmap_block m) (inode_bitmap_block m) (group_desc_block m) (group_desc_count m)
    (total_inodes m) (total_blocks m) (sb m).

Definition no_superblock : Ext2Superblock := Build_Ext2Superblock 0 0 0 0 0 0 0 0 0 0.
Definition no_mount : Ext2MountState := Build_Ext2MountState 0 0 0 0 0 0 0 0 0 0 0 0 0 0 no_superblock.
Definition no_handle : Ext2Handle := Build_Ext2Handle 0 0 0 0 0.
#[export] Instance Ext2Handle_inhabited : Inhabited Ext2Handle := populate no_handle.

(** The 128 bytes of a packed [Ext2Inode] and back. *)
Definition inode_bytes (i : Ext2Inode) : list Z :=
  le_bytes 2 (i_mode i) ++ le_bytes 2 (i_uid i) ++ le_bytes 4 (i_size i) ++ le_bytes 4 (i_atime i)
  ++ le_bytes 4 (i_ctime i) ++ le_bytes 4 (i_mtime i) ++ le_bytes 4 (i_dtime i)
  ++ le_bytes 2 (i_gid i) ++ le_bytes 2 (i_links_count i) ++ le_bytes 4 (i_blocks i)
  ++ le_bytes 4 (i_flags i) ++ le_bytes 4 (i_osd1 i) ++ flat_map (le_bytes 4) (i_block i)
  ++ le_bytes 4 (i_generation i) ++ le_bytes 4 (i_file_acl i) ++ le_bytes 4 (i_dir_acl i)
  ++ le_bytes 4 (i_faddr i) ++ i_osd2 i.

Definition inode_of_bytes (b : list Z) : Ext2Inode :=
  let f o n := le_val (slice o n b) in
  {| i_mode := f 0 2; i_uid := f 2 2; i_size := f 4 4; i_atime := f 8 4; i_ctime := f 12 4;
     i_mtime := f 16 4; i_dtime := f 20 4; i_gid := f 24 2; i_links_count := f 26 2;
     i_blocks := f 28 4; i_flags := f 32 4; i_osd1 := f 36 4;
     i_block := map (fun k => f (40 + 4 * Z.of_nat k) 4) (seq 0 15);
     i_generation := f 100 4; i_file_acl := f 104 4; i_dir_acl := f 108 4; i_faddr := f 112 4;
     i_osd2 := slice 116 12 b |}.

(** A fresh inode as the creating calls fill it in. *)
Definition new_inode (mode size links_count blocks : Z) : Ext2Inode :=
  {| i_mode := mode; i_uid := 0; i_size := size; i_atime := 0; i_ctime := 0; i_mtime := 0;
     i_dtime := 0; i_gid := 0; i_links_count := links_count; i_blocks := blocks; i_flags := 0;
     i_osd1 := 0; i_block := replicate 15 0; i_generation := 0; i_file_acl := 0; i_dir_acl := 0;
     i_faddr := 0; i_osd2 := replicate 12 0 |}.

Section Volume.
Context {D : Type} `{BlockDev D}.

(** The driver's state and the device under it. *)
Record Ext2 := { ext2_state : Ext2MountState; ext2_handles : list Ext2Handle; ext2_dev : D }.

#[export] Instance Ext2_fields : Fields Ext2 := fun s =>
  Build_Ext2 (ext2_state s) (ext2_handles s) (ext2_dev s).

(** What a sector buffer and the rest of a 4096-byte block buffer on the stack
    hold before they are written. *)
Context (stack : list Z) (junk : list Z).

(** ** Blocks *)

Definition block_to_lba (m : Ext2MountState) (block_num : Z) : Z :=
  partition_lba m +u (block_num *u sectors_per_block m).

(** [sectors] sectors from [lba]; the read stops at the first failure. *)
Fixpoint read_sectors (lba : Z) (sectors : nat) (d : D) : D * option (list Z) :=
  match sectors with
  | O => (d, Some [])
  | S n =>
      let '(d1, rc, w) := dev_read lba stack d in
      if negb (rc =? DISK_IO_OK) then (d1, None)
      else let '(d2, rest) := read_sectors (lba +u 1) n d1 in
           (d2, (bytes_of_words w ++.) <$> rest)
  end.

Fixpoint write_sectors (lba : Z) (sectors : nat) (buffer : list Z) (d : D) : D :=
  match sectors with
  | O => d
  | S n => write_sectors (lba +u 1) n (drop 512 buffer)
             (dev_write lba (words_of_bytes (take 512 buffer)) d)
  end.

(** [None] is the result 0. *)
Definition read_block (block_num : Z) : ST Ext2 (option (list Z)) := fun s =>
  let m := ext2_state s in
  let '(d, r) := read_sectors (block_to_lba m block_num) (Z.to_nat (sectors_per_block m)) (ext2_dev s) in
  (s <| ext2_dev := d |>, r).

(** The result is always 1: writes report no errors. *)
Definition write_block (block_num : Z) (buffer : list Z) : ST Ext2 bool := fun s =>
  let m := ext2_state s in
  (s <| ext2_dev := write_sectors (block_to_lba m block_num) (Z.to_nat (sectors_per_block m)) buffer
                      (ext2_dev s) |>, true).

Definition read_superblock : ST Ext2 bool := fun s =>
  let lba := partition_lba (ext2_state s) +u EXT2_SUPERBLOCK_OFFSET_LBA in
  let '(d, r) := read_sectors lba 2 (ext2_dev s) in
  match r with
  | None => (s <| ext2_dev := d |>, false)
  | Some raw =>
      let b := {| sb_inode_count := read_le32 raw 0; sb_block_count := read_le32 raw 4;
                  sb_first_data_block := read_le32 raw 20; sb_log_block_size := read_le32 raw 24;
                  sb_blocks_per_group := read_le32 raw 32; sb_inodes_per_group := read_le32 raw 40;
                  sb_magic := read_le16 raw 56; sb_rev_level := read_le32 raw 76;
                  sb_first_ino := read_le32 raw 84; sb_inode_size := read_le16 raw 88 |} in
      (s <| ext2_dev := d |> <| ext2_state ::= fun m => m <| sb := b |> |>,
       sb_magic b =? EXT2_SUPERBLOCK_MAGIC)
  end.

(** ** Group descriptors and inodes *)

Definition read_group_desc (group : Z) : ST Ext2 (option Ext2GroupDesc) :=
  s ← get;
  let m := ext2_state s in
  let per_block := block_size m / 32 in
  let block_index := group_desc_block m +u group / per_block in
  let offset := (group mod per_block) *u 32 in
  r ← read_block block_index;
  match r with
  | None => mret None
  | Some raw => mret (Some
      {| gd_block_bitmap := read_le32 raw offset; gd_inode_bitmap := read_le32 raw (offset + 4);
         gd_inode_table := read_le32 raw (offset + 8); gd_free_blocks_count := read_le16 raw (offset + 12);
         gd_free_inodes_count := read_le16 raw (offset + 14); gd_used_dirs_count := read_le16 raw (offset + 16) |})
  end.

Definition inode_group_and_offset (m : Ext2MountState) (inode_num : Z) : option (Z * Z) :=
  if (inode_num =? 0) || (total_inodes m <? inode_num) then None
  else Some ((inode_num -u 1) / inodes_per_group m, (inode_num -u 1) mod inodes_per_group m).

(** Block number and offset of inode [index] of a group. *)
Definition inode_place (m : Ext2MountState) (gd : Ext2GroupDesc) (index : Z) : Z * Z :=
  let inode_offset := index *u inode_size m in
  (gd_inode_table gd +u inode_offset / block_size m, inode_offset mod block_size m).

Definition read_inode (inode_num : Z) : ST Ext2 (option Ext2Inode) :=
  s ← get;
  let m := ext2_state s in
  match inode_group_and_offset m inode_num with
  | None => mret None
  | Some (group, index) =>
      r ← read_group_desc group;
      match r with
      | None => mret None
      | Some gd =>
          let '(block_index, block_offset) := inode_place m gd index in
          r ← read_block block_index;
          match r with
          | None => mret None
          | Some raw =>
              if block_size m <? block_offset + 128 then
                if 4096 <? block_size m then mret None
                else
                  r ← read_block block_index;
                  match r with
                  | None => mret None
                  | Some temp => mret (Some (inode_of_bytes (slice block_offset 128 (temp ++ junk))))
                  end
              else mret (Some (inode_of_bytes (slice block_offset 128 raw)))
          end
      end
  end.

Definition write_inode (inode_num : Z) (inode : Ext2Inode) : ST Ext2 bool :=
  s ← get;
  let m := ext2_state s in
  match inode_group_and_offset m inode_num with
  | None => mret false
  | Some (group, index) =>
      r ← read_group_desc group;
      match r with
      | None => mret false
      | Some gd =>
          if 4096 <? block_size m then mret false
          else
            let '(block_index, block_offset) := inode_place m gd index in
            r ← read_block block_index;
            match r with
            | None => mret false
            | Some raw => write_block block_index (splice block_offset (inode_bytes inode) (raw ++ junk))
            end
      end
  end.

(** ** Bitmaps *)

Definition bit_test (bitmap : list Z) (bit : Z) : bool :=
  negb (Z.land bitmap.[bit / 8] (u8 (Z.shiftl 1 (bit mod 8))) =? 0).

Definition bit_set (bitmap : list Z) (bit : Z) (value : bool) : list Z :=
  let mask := u8 (Z.shiftl 1 (bit mod 8)) in
  <[Z.to_nat (bit / 8) := if value then u8 (Z.lor bitmap.[bit / 8] mask)
                          else u8 (Z.land bitmap.[bit / 8] (u8 (Z.lnot mask)))]> bitmap.

(** The scan of one bitmap: bit [i] stands for number [base + i], and the scan
    stops at the number [limit]. *)
Fixpoint first_free (bitmap : list Z) (base limit : Z) (bit n : nat) : option nat :=
  match n with
  | O => None
  | S n' => if limit <=? base +u Z.of_nat bit then None
            else if bit_test bitmap (Z.of_nat bit) then first_free bitmap base limit (S bit) n'
            else Some bit
  end.

(** The group loop of the two allocators: [which] picks the bitmap of a group,
    [base] numbers its bits. *)
Fixpoint alloc_groups (which : Ext2GroupDesc -> Z) (base : Z -> Z) (limit per_group : Z)
  (group n : nat) : ST Ext2 Z :=
  match n with
  | O => mret (-1)
  | S n' =>
      r ← read_group_desc (Z.of_nat group);
      match r with
      | None => mret (-1)
      | Some gd =>
          r ← read_block (which gd);
          match r with
          | None => mret (-1)
          | Some bitmap =>
              match first_free bitmap (base (Z.of_nat group)) limit 0 (Z.to_nat per_group) with
              | None => alloc_groups which base limit per_group (S group) n'
              | Some bit =>
                  ok ← write_block (which gd) (bit_set bitmap (Z.of_nat bit) true);
                  if (ok : bool) then mret (i32 (base (Z.of_nat group) +u Z.of_nat bit)) else mret (-1)
              end
          end
      end
  end.

Definition alloc_inode : ST Ext2 Z :=
  s ← get;
  let m := ext2_state s in
  alloc_groups gd_inode_bitmap (fun group => group *u inodes_per_group m +u 1)
    (total_inodes m + 1) (inodes_per_group m) 0 (Z.to_nat (group_desc_count m)).

Definition alloc_block : ST Ext2 Z :=
  s ← get;
  let m := ext2_state s in
  alloc_groups gd_block_bitmap (fun group => group *u blocks_per_group m +u sb_first_data_block (sb m))
    (total_blocks m) (blocks_per_group m) 0 (Z.to_nat (group_desc_count m)).

Definition free_inode (inode_num : Z) : ST Ext2 unit :=
  s ← get;
  match inode_group_and_offset (ext2_state s) inode_num with
  | None => mret tt
  | Some (group, index) =>
      r ← read_group_desc group;
      match r with
      | None => mret tt
      | Some gd =>
          r ← read_block (gd_inode_bitmap gd);
          match r with
          | None => mret tt
          | Some bitmap => _ ← write_block (gd_inode_bitmap gd) (bit_set bitmap index false); mret tt
          end
      end
  end.

Definition free_block (block_num : Z) : ST Ext2 unit :=
  s ← get;
  let m := ext2_state s in
  let group := (block_num -u sb_first_data_block (sb m)) / blocks_per_group m in
  let index := (block_num -u sb_first_data_block (sb m)) mod blocks_per_group m in
  if group_desc_count m <=? group then mret tt
  else
    r ← read_group_desc group;
    match r with
    | None => mret tt
    | Some gd =>
        r ← read_block (gd_block_bitmap gd);
        match r with
        | None => mret tt
        | Some bitmap => _ ← write_block (gd_block_bitmap gd) (bit_set bitmap index false); mret tt
        end
    end.

(** ** The blocks of a file *)

Definition inode_ptrs_per_block (m : Ext2MountState) : Z := block_size m / 4.

(** A failed allocation: no block, or a number that reads negative. *)
Definition bad_block (block_num : Z) : bool := (block_num =? 0) || (i32 block_num <? 0).

(** The part of [inode_get_block] behind the indirect block. *)
Definition get_indirect (inode : Ext2Inode) (index : Z) (create : bool) : ST Ext2 (Ext2Inode * Z) :=
  let single := (i_block inode).[12] in
  r ← read_block single;
  match r with
  | None => mret (inode, 0)
  | Some indirect =>
      let block_num := read_le32 indirect (index * 4) in
      if (block_num =? 0) && create then
        b ← alloc_block;
        if bad_block (u32 b) then mret (inode, 0)
        else
          let indirect := write_le32 (index * 4) (u32 b) indirect in
          ok ← write_block single indirect;
          if (ok : bool) then mret (inode, i32 (read_le32 indirect (index * 4))) else mret (inode, 0)
      else mret (inode, i32 block_num)
  end.

Definition inode_get_block (inode : Ext2Inode) (index : Z) (create : bool) : ST Ext2 (Ext2Inode * Z) :=
  s ← get;
  let m := ext2_state s in
  if index <? 12 then
    let block_num := (i_block inode).[index] in
    if (block_num =? 0) && create then
      b ← alloc_block;
      if bad_block (u32 b) then mret (inode, 0)
      else
        let inode := inode <| i_block ::= <[Z.to_nat index := u32 b]> |> in
        mret (inode, i32 (i_block inode).[index])
    else mret (inode, i32 block_num)
  else
    let index := index - 12 in
    if inode_ptrs_per_block m <=? index then mret (inode, 0)
    else if (i_block inode).[12] =? 0 then
      if negb create then mret (inode, 0)
      else
        b ← alloc_block;
        if bad_block (u32 b) then mret (inode <| i_block ::= <[12%nat := 0]> |>, 0)
        else
          let inode := inode <| i_block ::= <[12%nat := u32 b]> |> in
          ok ← write_block (u32 b) (replicate (Z.to_nat (block_size m)) 0);
          if (ok : bool) then get_indirect inode index create else mret (inode, 0)
    else get_indirect inode index create.

Definition free_if_used (block_num : Z) : ST Ext2 unit :=
  if block_num =? 0 then mret tt else free_block block_num.

Fixpoint free_all (l : list Z) : ST Ext2 unit :=
  match l with
  | [] => mret tt
  | b :: l' => _ ← free_if_used b; free_all l'
  end.

(** The direct blocks are freed in order and the words cleared, then what the
    indirect block lists, then that block. *)
Definition inode_clear_blocks (inode : Ext2Inode) : ST Ext2 Ext2Inode :=
  s ← get;
  let ptrs := inode_ptrs_per_block (ext2_state s) in
  _ ← free_all (take 12 (i_block inode));
  let inode := inode <| i_block ::= fun b => replicate 12 0 ++ drop 12 b |> in
  let single := (i_block inode).[12] in
  inode ← (if single =? 0 then mret inode
           else
             r ← read_block single;
             _ ← (match r with
                  | None => mret tt
                  | Some indirect =>
                      free_all (map (fun i => read_le32 indirect (Z.of_nat i * 4)) (seq 0 (Z.to_nat ptrs)))
                  end);
             _ ← free_block single;
             mret (inode <| i_block ::= <[12%nat := 0]> |>));
  mret (inode <| i_size := 0 |> <| i_blocks := 0 |>).
End Volume.
