(* ===== verification/Ext2Dir.v ===== *)
(** * The ext2 driver: directories and paths (kernel/ext2fs.c)

    Directory entries inside a block buffer, lookup, insertion and removal of a
    name, and the resolution of paths.  Names and paths are the bytes of a C
    string before its terminator. *)
From S2P Require Import Prelude BlockDev Bytes Ext2.

(** ** Entries *)

Definition e_inode (block : list Z) (off : Z) : Z := read_le32 block off.
Definition e_rec_len (block : list Z) (off : Z) : Z := read_le16 block (off + 4).
Definition e_name_len (block : list Z) (off : Z) : Z := block.[off + 6].

(** The string an array of characters holds. *)
Fixpoint c_string (l : list Z) : list Z :=
  match l with
  | [] => []
  | c :: l' => if c =? 0 then [] else c :: c_string l'
  end.

(** The copy of the entry's name, terminated after [name_len] characters. *)
Definition e_name (block : list Z) (off : Z) : list Z :=
  c_string (slice (off + 8) (e_name_len block off) block).

Definition str_eq (a b : list Z) : bool := bool_decide (a = b).

(** The walk over the entries of a block: the first entry [p] accepts, with the
    offset of the entry before it.  Every entry that is stepped over has a nonzero
    length, so [block_size] steps are enough. *)
Fixpoint dir_walk (bsize : Z) (block : list Z) (p : Z -> bool) (fuel : nat) (prev : option Z) (off : Z)
  : option (option Z * Z) :=
  match fuel with
  | O => None
  | S fuel' =>
      if bsize <? off + 8 then None
      else if e_rec_len block off =? 0 then None
      else if p off then Some (prev, off)
      else dir_walk bsize block p fuel' (Some off) (off + e_rec_len block off)
  end.

Definition dir_find (bsize : Z) (block : list Z) (p : Z -> bool) : option (option Z * Z) :=
  dir_walk bsize block p (Z.to_nat bsize) None 0.

(** The length an entry needs for its name, rounded up to four bytes. *)
Definition needed_len (name_len : Z) : Z := u16 (Z.land (8 + name_len + 3) (Z.lnot 3)).

Definition put16 (o v : Z) (p : list Z) : list Z := splice o (le_bytes 2 v) p.

(** Writing an entry: inode, record length, name length, type, name and the
    terminator behind it. *)
Definition put_entry (off inode rec_len file_type : Z) (name : list Z) (block : list Z) : list Z :=
  splice off (le_bytes 4 inode ++ le_bytes 2 rec_len ++ [u8 (Z.of_nat (length name)); file_type]
              ++ name ++ [0]) block.

(** The entry at [off] is in use and has [needed] bytes to spare. *)
Definition has_room (bsize : Z) (block : list Z) (name_len : Z) (off : Z) : bool :=
  let actual_len := needed_len (e_name_len block off) in
  negb (e_inode block off =? 0) && (off + e_rec_len block off <=? bsize)
  && (needed_len name_len <=? u16 (e_rec_len block off - actual_len)).

(** The split of that entry. *)
Definition split_entry (block : list Z) (off inode_num file_type : Z) (name : list Z) : list Z :=
  let actual_len := needed_len (e_name_len block off) in
  let space_left := u16 (e_rec_len block off - actual_len) in
  put_entry (off + actual_len) inode_num space_left file_type name (put16 (off + 4) actual_len block).

Section Dir.
Context {D : Type} `{BlockDev D} (stack junk : list Z).

#[local] Abbreviation get_block := (inode_get_block stack).

Definition is_dir (inode : Ext2Inode) : bool := negb (Z.land (i_mode inode) EXT2_S_IFDIR =? 0).

Definition dir_blocks (m : Ext2MountState) (inode : Ext2Inode) : Z :=
  (i_size inode +u block_size m -u 1) / block_size m.

(** ** Lookup *)

(** Blocks that are missing or cannot be read are skipped. *)
Fixpoint lookup_blocks (name : list Z) (dir_inode : Ext2Inode) (b n : nat) : ST Ext2 (option Z) :=
  match n with
  | O => mret None
  | S n' =>
      '(dir_inode, block_num) ← get_block dir_inode (Z.of_nat b) false;
      if block_num <=? 0 then lookup_blocks name dir_inode (S b) n'
      else
        r ← read_block stack (u32 block_num);
        match r with
        | None => lookup_blocks name dir_inode (S b) n'
        | Some raw =>
            s ← get;
            let block := raw ++ junk in
            match dir_find (block_size (ext2_state s)) block (fun off =>
                    negb (e_inode block off =? 0) && (0 <? e_name_len block off)
                    && str_eq (e_name block off) name) with
            | Some (_, off) => mret (Some (e_inode block off))
            | None => lookup_blocks name dir_inode (S b) n'
            end
        end
  end.

(** The inode a name stands for in a directory. *)
Definition dir_lookup (dir_inode_num : Z) (name : list Z) : ST Ext2 (option Z) :=
  r ← read_inode stack junk dir_inode_num;
  match r with
  | None => mret None
  | Some dir_inode =>
      if negb (is_dir dir_inode) then mret None
      else s ← get; lookup_blocks name dir_inode 0 (Z.to_nat (dir_blocks (ext2_state s) dir_inode))
  end.

(** ** Insertion and removal *)

Fixpoint add_blocks (dir_inode_num : Z) (name : list Z) (inode_num file_type block_count : Z)
  (dir_inode : Ext2Inode) (b n : nat) : ST Ext2 bool :=
  match n with
  | O => mret false
  | S n' =>
      '(dir_inode, block_num) ← get_block dir_inode (Z.of_nat b) true;
      if block_num <=? 0 then mret false
      else
        r ← read_block stack (u32 block_num);
        match r with
        | None => mret false
        | Some raw =>
            s ← get;
            let bsize := block_size (ext2_state s) in
            let block := raw ++ junk in
            match dir_find bsize block (has_room bsize block (Z.of_nat (length name))) with
            | Some (_, off) =>
                ok ← write_block (u32 block_num) (split_entry block off inode_num file_type name);
                if negb ok then mret false
                else if i_size dir_inode <? (Z.of_nat b + 1) *u bsize then
                  _ ← write_inode stack junk dir_inode_num
                        (dir_inode <| i_size := (Z.of_nat b + 1) *u bsize |>);
                  mret true
                else mret true
            | None =>
                if block_count <=? Z.of_nat b then
                  ok ← write_block (u32 block_num)
                         (put_entry 0 inode_num (u16 bsize) file_type name
                            (replicate (Z.to_nat bsize) 0 ++ drop (Z.to_nat bsize) block));
                  if negb ok then mret false
                  else write_inode stack junk dir_inode_num (dir_inode <| i_size ::= fun n => n +u bsize |>)
                else add_blocks dir_inode_num name inode_num file_type block_count dir_inode (S b) n'
            end
        end
  end.

Definition dir_add_entry (dir_inode_num : Z) (name : list Z) (inode_num file_type : Z) : ST Ext2 bool :=
  r ← read_inode stack junk dir_inode_num;
  match r with
  | None => mret false
  | Some dir_inode =>
      if negb (is_dir dir_inode) then mret false
      else
        s ← get;
        let block_count := dir_blocks (ext2_state s) dir_inode in
        add_blocks dir_inode_num (take (Z.to_nat EXT2_NAME_MAX) name) inode_num file_type block_count
          dir_inode 0 (Z.to_nat (block_count +u 1))
  end.

(** The entry is joined to the one before it; the first entry of a block only
    loses its inode. *)
Definition unlink_entry (block : list Z) (prev : option Z) (off : Z) : list Z :=
  match prev with
  | Some p => put16 (p + 4) (u16 (e_rec_len block p + e_rec_len block off)) block
  | None => splice off (le_bytes 4 0) block
  end.

Fixpoint remove_blocks (name : list Z) (dir_inode : Ext2Inode) (b n : nat) : ST Ext2 bool :=
  match n with
  | O => mret false
  | S n' =>
      '(dir_inode, block_num) ← get_block dir_inode (Z.of_nat b) false;
      if block_num <=? 0 then remove_blocks name dir_inode (S b) n'
      else
        r ← read_block stack (u32 block_num);
        match r with
        | None => remove_blocks name dir_inode (S b) n'
        | Some raw =>
            s ← get;
            let block := raw ++ junk in
            match dir_find (block_size (ext2_state s)) block (fun off =>
                    negb (e_inode block off =? 0) && str_eq (e_name block off) name) with
            | Some (prev, off) => write_block (u32 block_num) (unlink_entry block prev off)
            | None => remove_blocks name dir_inode (S b) n'
            end
        end
  end.

Definition dir_remove_entry (dir_inode_num : Z) (name : list Z) : ST Ext2 bool :=
  r ← read_inode stack junk dir_inode_num;
  match r with
  | None => mret false
  | Some dir_inode =>
      if negb (is_dir dir_inode) then mret false
      else s ← get; remove_blocks name dir_inode 0 (Z.to_nat (dir_blocks (ext2_state s) dir_inode))
  end.

(** The directory holds nothing but the entries for itself and its parent. *)
Definition is_dot_name (name : list Z) : bool := bool_decide (name = [46]) || bool_decide (name = [46; 46]).

Fixpoint empty_blocks (dir_inode : Ext2Inode) (b n : nat) : ST Ext2 bool :=
  match n with
  | O => mret true
  | S n' =>
      '(dir_inode, block_num) ← get_block dir_inode (Z.of_nat b) false;
      if block_num <=? 0 then empty_blocks dir_inode (S b) n'
      else
        r ← read_block stack (u32 block_num);
        match r with
        | None => empty_blocks dir_inode (S b) n'
        | Some raw =>
            s ← get;
            let block := raw ++ junk in
            match dir_find (block_size (ext2_state s)) block (fun off =>
                    negb (e_inode block off =? 0) && (0 <? e_name_len block off)
                    && negb (is_dot_name (e_name block off))) with
            | Some _ => mret false
            | None => empty_blocks dir_inode (S b) n'
            end
        end
  end.

Definition ext2_is_dir_effectively_empty (inode_num : Z) : ST Ext2 bool :=
  r ← read_inode stack junk inode_num;
  match r with
  | None => mret false
  | Some dir_inode =>
      if negb (is_dir dir_inode) then mret false
      else s ← get; empty_blocks dir_inode 0 (Z.to_nat (dir_blocks (ext2_state s) dir_inode))
  end.
End Dir.

(** ** Paths *)

Definition slash : Z := 47.

Fixpoint skip_slashes (s : list Z) : list Z :=
  match s with
  | c :: s' => if c =? slash then skip_slashes s' else s
  | [] => []
  end.

(** The characters copied, and the cursor behind them: at most [room]. *)
Fixpoint take_component (room : nat) (s : list Z) : list Z * list Z :=
  match room, s with
  | S room', c :: s' =>
      if c =? slash then ([], s)
      else let '(comp, rest) := take_component room' s' in (c :: comp, rest)
  | _, _ => ([], s)
  end.

(** [None] is the result 0, at the end of the path; else the component and the
    new cursor. *)
Definition parse_component (path : list Z) (component_size : Z) : option (list Z * list Z) :=
  match skip_slashes path with
  | [] => None
  | s =>
      let '(component, rest) := take_component (Z.to_nat (component_size - 1)) s in
      if (0 <? Z.of_nat (length component)) then Some (component, skip_slashes rest) else None
  end.

Section Resolve.
Context {D : Type} `{BlockDev D} (stack junk : list Z).

(** The result of a resolution: the inode of the path or 0, the inode of the
    directory the last step looked in, and the name it looked for. *)
Fixpoint resolve_from (want_inode : bool) (fuel : nat) (current : Z) (cursor : list Z) : ST Ext2 (option (Z * Z * list Z)) :=
  match fuel with
  | O => mret None
  | S fuel' =>
      match parse_component cursor (EXT2_NAME_MAX + 1) with
      | None => mret None
      | Some (component, rest) =>
          match rest with
          | [] =>
              found ← (if want_inode then dir_lookup stack junk current component else mret None);
              mret (Some (default 0 found, current, component))
          | _ =>
              found ← dir_lookup stack junk current component;
              match found with
              | None => mret (Some (0, current, component))
              | Some next => resolve_from want_inode fuel' next rest
              end
          end
      end
  end.

(** Each round consumes a character, so one round per character is enough.  A
    caller that passes no [inode_out] skips the lookup of the last component. *)
Definition resolve_path_opt (want_inode : bool) (path : list Z) : ST Ext2 (option (Z * Z * list Z)) :=
  match path with
  | c :: rest =>
      if negb (c =? slash) then mret None
      else match rest with
           | [] => mret (Some (EXT2_ROOT_INODE, 0, []))
           | _ => resolve_from want_inode (S (length path)) EXT2_ROOT_INODE path
           end
  | [] => mret None
  end.

Definition resolve_path : list Z -> ST Ext2 (option (Z * Z * list Z)) := resolve_path_opt true.
End Resolve.
