(* ===== verification/Ext2Ops.v ===== *)
(** * The ext2 driver: the file system calls (kernel/ext2fs.c)

    The handle table and the calls behind [VfsBackendOps]: open, read, write,
    close, delete, lseek, stat, rename, mkdir, rmdir, truncate, chmod, chown, link,
    symlink, readlink, and mounting a volume.  Each call returns the C result code. *)
From S2P Require Import Prelude BlockDev Bytes Partition VfsDefs Ext2 Ext2Dir.

Section Ops.
Context {D : Type} `{BlockDev D} (stack junk : list Z).

#[local] Abbreviation read_block := (read_block stack).
#[local] Abbreviation read_inode := (read_inode stack junk).
#[local] Abbreviation write_inode := (write_inode stack junk).
#[local] Abbreviation alloc_inode := (alloc_inode stack).
#[local] Abbreviation free_inode := (free_inode stack).
#[local] Abbreviation free_block := (free_block stack).
#[local] Abbreviation get_block := (inode_get_block stack).
#[local] Abbreviation clear_blocks := (inode_clear_blocks stack).
#[local] Abbreviation resolve_path := (resolve_path stack junk).
#[local] Abbreviation dir_add_entry := (dir_add_entry stack junk).
#[local] Abbreviation dir_remove_entry := (dir_remove_entry stack junk).

(** ** Handles *)

Definition set_handle (h : Z) (f : Ext2Handle -> Ext2Handle) : ST (Ext2 (D := D)) unit :=
  modify (fun s => s <| ext2_handles ::= alter f (Z.to_nat h) |>).

Definition handle_ok (hs : list Ext2Handle) (handle : Z) : bool :=
  negb ((handle <? 0) || (EXT2_MAX_HANDLES <=? handle) || (h_used hs.[handle] =? 0)).

Definition ext2_handle_alloc : ST (Ext2 (D := D)) Z := fun s =>
  match find_idx (fun h => h_used h =? 0) (ext2_handles s) with
  | Some i => (s <| ext2_handles ::= <[i := Build_Ext2Handle 1 1 0 0 0]> |>, Z.of_nat i)
  | None => (s, -1)
  end.

Definition ext2_handle_close (handle : Z) : ST (Ext2 (D := D)) Z := fun s =>
  if negb (handle_ok (ext2_handles s) handle) then (s, VFS_ERR_INVALID_FD)
  else if 1 <? h_ref_count (ext2_handles s).[handle] then
    (s <| ext2_handles ::= alter (fun h => h <| h_ref_count ::= Z.pred |>) (Z.to_nat handle) |>, VFS_OK)
  else
    (s <| ext2_handles ::= alter (fun h => h <| h_used := 0 |> <| h_ref_count := 0 |>) (Z.to_nat handle) |>,
     VFS_OK).

(** ** Truncation *)

Definition blocks_of (m : Ext2MountState) (size : Z) : Z := (size +u block_size m -u 1) / block_size m.

(** The loop that frees the blocks from [i] on. *)
Fixpoint free_from (inode : Ext2Inode) (i n : nat) : ST Ext2 Ext2Inode :=
  match n with
  | O => mret inode
  | S n' =>
      '(inode, block_num) ← get_block inode (Z.of_nat i) false;
      _ ← (if 0 <? block_num then free_block (u32 block_num) else mret tt);
      free_from inode (S i) n'
  end.

Definition ext2_truncate_inode (inode_num new_size : Z) : ST Ext2 bool :=
  r ← read_inode inode_num;
  match r with
  | None => mret false
  | Some inode =>
      s ← get;
      let old_blocks := blocks_of (ext2_state s) (i_size inode) in
      let new_blocks := blocks_of (ext2_state s) new_size in
      inode ← (if new_blocks <? old_blocks then
                 inode ← free_from inode (Z.to_nat new_blocks) (Z.to_nat (old_blocks - new_blocks));
                 if new_blocks <=? 12 then clear_blocks inode else mret inode
               else mret inode);
      inode ← (if new_size =? 0 then clear_blocks inode else mret inode);
      write_inode inode_num (inode <| i_size := new_size |>)
  end.

(** ** Open and close *)

(** The number of an inode the allocator did not give. *)
Definition bad_inode (inode_num : Z) : bool := (inode_num =? 0) || (i32 inode_num <? 0).

(** The creation of a regular file under a name that is free; [inl] is an error. *)
Definition create_file (parent_inode : Z) (leaf : list Z) : ST Ext2 (Z + Z) :=
  n ← alloc_inode;
  let inode_num := u32 n in
  if bad_inode inode_num then mret (inl VFS_ERR_NO_SPACE)
  else
    ok ← write_inode inode_num (new_inode (Z.lor EXT2_S_IFREG 0x1A4) 0 1 0);
    if negb ok then _ ← free_inode inode_num; mret (inl VFS_ERR_IO)
    else
      ok ← dir_add_entry parent_inode leaf inode_num EXT2_FT_REG_FILE;
      if negb ok then _ ← free_inode inode_num; mret (inl VFS_ERR_IO)
      else mret (inr inode_num).

(** The end of an open: truncation when asked for, and a handle. *)
Definition open_inode (inode_num flags : Z) : ST Ext2 Z :=
  r ← read_inode inode_num;
  match r with
  | None => mret VFS_ERR_IO
  | Some _ =>
      ok ← (if has_flag flags EXT2_O_TRUNC then
              ok ← ext2_truncate_inode inode_num 0;
              if negb ok then mret false
              else r ← read_inode inode_num; mret (bool_decide (is_Some r))
            else mret true);
      if negb ok then mret VFS_ERR_IO
      else
        handle ← ext2_handle_alloc;
        if handle <? 0 then mret VFS_ERR_NO_SPACE
        else
          _ ← set_handle handle (fun h => h <| h_inode_num := inode_num |> <| h_pos := 0 |> <| h_flags := flags |>);
          mret handle
  end.

Definition ext2_open (path : list Z) (flags : Z) : ST Ext2 Z :=
  s ← get;
  if mounted (ext2_state s) =? 0 then mret VFS_ERR_IO
  else
    r ← resolve_path path;
    match r with
    | None => mret VFS_ERR_INVALID_ARG
    | Some (inode_num, parent_inode, leaf) =>
        if inode_num =? 0 then
          if negb (has_flag flags EXT2_O_CREAT) then mret VFS_ERR_NOT_FOUND
          else
            r ← create_file parent_inode leaf;
            match r with
            | inl err => mret err
            | inr inode_num => open_inode inode_num flags
            end
        else open_inode inode_num flags
    end.

Definition ext2_close (handle : Z) : ST Ext2 Z := ext2_handle_close handle.

(** ** Reading and writing *)

(** The copy loop of a read: the bytes go to the caller's buffer in order.  The
    result is the error the loop returns with, if it does, and the bytes stored. *)
Fixpoint read_loop (inode : Ext2Inode) (pos size : Z) (fuel : nat) (total : Z)
  : ST Ext2 (option Z * list Z) :=
  match fuel with
  | O => mret (None, [])
  | S fuel' =>
      if size <=? total then mret (None, [])
      else
        s ← get;
        let bsize := block_size (ext2_state s) in
        let abs_pos := pos +u total in
        let block_index := abs_pos / bsize in
        let block_off := abs_pos mod bsize in
        '(inode, block_num) ← get_block inode block_index false;
        if block_num <=? 0 then mret (None, [])
        else
          let chunk := Z.min (bsize - block_off) (size - total) in
          r ← read_block (u32 block_num);
          match r with
          | None => mret (Some VFS_ERR_IO, [])
          | Some raw =>
              '(err, out) ← read_loop inode pos size fuel' (total + chunk);
              mret (err, slice block_off chunk (raw ++ junk) ++ out)
          end
  end.

(** The result code and the bytes stored from the start of [buf]. *)
Definition ext2_read (handle : Z) (buf_null : bool) (size : Z) : ST Ext2 (Z * list Z) :=
  s ← get;
  if negb (handle_ok (ext2_handles s) handle) || buf_null then mret (VFS_ERR_INVALID_FD, [])
  else
    let h := (ext2_handles s).[handle] in
    if negb (has_flag (h_flags h) VFS_O_RDONLY) && negb (Z.land (h_flags h) VFS_O_RDWR =? VFS_O_RDWR)
    then mret (VFS_ERR_PERM, [])
    else
      r ← read_inode (h_inode_num h);
      match r with
      | None => mret (VFS_ERR_IO, [])
      | Some inode =>
          if i_size inode <=? h_pos h then mret (0, [])
          else
            let size := Z.min size (i_size inode -u h_pos h) in
            '(err, out) ← read_loop inode (h_pos h) size (S (Z.to_nat size)) 0;
            match err with
            | Some e => mret (e, out)
            | None =>
                let total := Z.of_nat (length out) in
                _ ← set_handle handle (fun h => h <| h_pos := h_pos h +u total |>);
                mret (i32 total, out)
            end
      end.

(** The copy loop of a write; [None] is the end of the loop, [Some] an error it
    returns with. *)
Fixpoint write_loop (inode : Ext2Inode) (src : list Z) (pos size : Z) (fuel : nat) (total : Z)
  : ST Ext2 (Ext2Inode * option Z) :=
  match fuel with
  | O => mret (inode, None)
  | S fuel' =>
      if size <=? total then mret (inode, None)
      else
        s ← get;
        let bsize := block_size (ext2_state s) in
        let abs_pos := pos +u total in
        let block_index := abs_pos / bsize in
        let block_off := abs_pos mod bsize in
        '(inode, block_num) ← get_block inode block_index true;
        if block_num <=? 0 then mret (inode, Some VFS_ERR_NO_SPACE)
        else
          let chunk := Z.min (bsize - block_off) (size - total) in
          r ← read_block (u32 block_num);
          let block := default (replicate (Z.to_nat bsize) 0) r ++ junk in
          ok ← write_block (u32 block_num) (splice block_off (slice total chunk src) block);
          if negb ok then mret (inode, Some VFS_ERR_IO)
          else write_loop inode src pos size fuel' (total + chunk)
  end.

(** [None] is a null buffer. *)
Definition ext2_write (handle : Z) (buf : option (list Z)) (size : Z) : ST Ext2 Z :=
  s ← get;
  match buf with
  | None => mret VFS_ERR_INVALID_FD
  | Some src =>
      if negb (handle_ok (ext2_handles s) handle) then mret VFS_ERR_INVALID_FD
      else
        let h := (ext2_handles s).[handle] in
        if negb (has_flag (h_flags h) VFS_O_WRONLY) && negb (Z.land (h_flags h) VFS_O_RDWR =? VFS_O_RDWR)
        then mret VFS_ERR_PERM
        else
          r ← read_inode (h_inode_num h);
          match r with
          | None => mret VFS_ERR_IO
          | Some inode =>
              '(inode, err) ← write_loop inode src (h_pos h) size (S (Z.to_nat size)) 0;
              match err with
              | Some e => mret e
              | None =>
                  let pos := h_pos h +u size in
                  _ ← set_handle handle (fun h => h <| h_pos := pos |>);
                  let new_size := if i_size inode <? pos then pos else i_size inode in
                  ok ← write_inode (h_inode_num h)
                         (inode <| i_size := new_size |> <| i_blocks := (new_size +u 511) / 512 |>);
                  if negb ok then mret VFS_ERR_IO else mret (i32 size)
              end
          end
  end.

(** ** Names and attributes *)

Definition ext2_delete (path : list Z) : ST Ext2 Z :=
  r ← resolve_path path;
  match r with
  | None => mret VFS_ERR_INVALID_ARG
  | Some (inode_num, parent_inode, leaf) =>
      if (inode_num =? 0) || (parent_inode =? 0) then mret VFS_ERR_NOT_FOUND
      else
        r ← read_inode inode_num;
        match r with
        | None => mret VFS_ERR_IO
        | Some inode =>
            _ ← clear_blocks inode;
            _ ← free_inode inode_num;
            ok ← dir_remove_entry parent_inode leaf;
            mret (if (ok : bool) then VFS_OK else VFS_ERR_IO)
        end
  end.

(** The new position of a seek, or the error; signed overflow of [base + offset]
    wraps. *)
Definition seek_target (pos size offset whence : Z) : option Z :=
  base ← (if whence =? VFS_SEEK_SET then Some 0
          else if whence =? VFS_SEEK_CUR then Some (i32 pos)
          else if whence =? VFS_SEEK_END then Some (i32 size) else None);
  let target := i32 (base + offset) in
  if target <? 0 then None else Some target.

Definition ext2_lseek (handle offset whence : Z) : ST Ext2 Z :=
  s ← get;
  if negb (handle_ok (ext2_handles s) handle) then mret VFS_ERR_INVALID_FD
  else
    let h := (ext2_handles s).[handle] in
    r ← read_inode (h_inode_num h);
    match r with
    | None => mret VFS_ERR_IO
    | Some inode =>
        match seek_target (h_pos h) (i_size inode) offset whence with
        | None => mret VFS_ERR_INVALID_ARG
        | Some target => _ ← set_handle handle (fun h => h <| h_pos := target |>); mret target
        end
    end.

(** The inode an existing path stands for, or the error of the calls that take
    only existing paths. *)
Definition existing (path : list Z) : ST Ext2 (Z + Z * Ext2Inode) :=
  r ← resolve_path path;
  match r with
  | None => mret (inl VFS_ERR_NOT_FOUND)
  | Some (inode_num, _, _) =>
      if inode_num =? 0 then mret (inl VFS_ERR_NOT_FOUND)
      else
        r ← read_inode inode_num;
        match r with
        | None => mret (inl VFS_ERR_IO)
        | Some inode => mret (inr (inode_num, inode))
        end
  end.

(** The result and what is stored through [stat_out]. *)
Definition ext2_stat (path : list Z) (stat_null : bool) : ST Ext2 (Z * option VfsFileStat) :=
  if stat_null then mret (VFS_ERR_INVALID_ARG, None)
  else
    r ← existing path;
    match r with
    | inl err => mret (err, None)
    | inr (_, inode) => mret (VFS_OK, Some {| st_size := i_size inode; st_flags := 1 |})
    end.

Definition update_inode (inode_num : Z) (inode : Ext2Inode) : ST Ext2 Z :=
  ok ← write_inode inode_num inode; mret (if (ok : bool) then VFS_OK else VFS_ERR_IO).

Definition ext2_chmod (path : list Z) (mode : Z) : ST Ext2 Z :=
  r ← existing path;
  match r with
  | inl err => mret err
  | inr (inode_num, inode) =>
      update_inode inode_num
        (inode <| i_mode := u16 (Z.lor (Z.land (i_mode inode) 0xF000) (Z.land mode 0x1FF)) |>)
  end.

Definition ext2_chown (path : list Z) (uid gid : Z) : ST Ext2 Z :=
  r ← existing path;
  match r with
  | inl err => mret err
  | inr (inode_num, inode) =>
      update_inode inode_num (inode <| i_uid := u16 uid |> <| i_gid := u16 gid |>)
  end.

Definition ext2_truncate_path (path : list Z) (size : Z) : ST Ext2 Z :=
  r ← resolve_path path;
  match r with
  | None => mret VFS_ERR_INVALID_ARG
  | Some (inode_num, _, _) =>
      if inode_num =? 0 then mret VFS_ERR_NOT_FOUND
      else ok ← ext2_truncate_inode inode_num size; mret (if (ok : bool) then VFS_OK else VFS_ERR_IO)
  end.

Definition ext2_ftruncate (handle size : Z) : ST Ext2 Z :=
  s ← get;
  if negb (handle_ok (ext2_handles s) handle) then mret VFS_ERR_INVALID_FD
  else
    ok ← ext2_truncate_inode (h_inode_num (ext2_handles s).[handle]) size;
    if negb ok then mret VFS_ERR_IO
    else
      _ ← (if size <? h_pos (ext2_handles s).[handle]
           then set_handle handle (fun h => h <| h_pos := size |>) else mret tt);
      mret VFS_OK.

Definition inode_is_dir (inode : Ext2Inode) : bool := negb (Z.land (i_mode inode) EXT2_S_IFDIR =? 0).

Definition ext2_rename (old_path new_path : list Z) : ST Ext2 Z :=
  o ← resolve_path old_path;
  match o with
  | None => mret VFS_ERR_INVALID_ARG
  | Some (old_inode, old_parent, old_leaf) =>
      n ← resolve_path new_path;
      match n with
      | None => mret VFS_ERR_INVALID_ARG
      | Some (new_inode, new_parent, new_leaf) =>
          if (old_inode =? 0) || (old_parent =? 0) || (new_parent =? 0) then mret VFS_ERR_NOT_FOUND
          else if negb (new_inode =? 0) then mret VFS_ERR_PERM
          else
            r ← read_inode old_inode;
            match r with
            | None => mret VFS_ERR_IO
            | Some inode =>
                let file_type := if inode_is_dir inode then EXT2_FT_DIR else EXT2_FT_REG_FILE in
                ok ← dir_add_entry new_parent new_leaf old_inode file_type;
                if negb ok then mret VFS_ERR_IO
                else
                  ok ← dir_remove_entry old_parent old_leaf;
                  if negb ok then
                    _ ← dir_remove_entry new_parent new_leaf;
                    _ ← dir_add_entry old_parent old_leaf old_inode file_type;
                    mret VFS_ERR_IO
                  else mret VFS_OK
            end
      end
  end.

(** The first block of a directory: the entries for itself and its parent, on a
    block buffer whose first [block_size] bytes are cleared. *)
Definition dot_block (m : Ext2MountState) (inode_num parent_inode : Z) : list Z :=
  let block := replicate (Z.to_nat (block_size m)) 0 ++ junk in
  let dot := le_bytes 4 inode_num ++ le_bytes 2 12 ++ [1; EXT2_FT_DIR; 46] in
  let dotdot := le_bytes 4 parent_inode ++ le_bytes 2 (u16 (block_size m - 12)) ++ [2; EXT2_FT_DIR; 46; 46] in
  splice 12 dotdot (splice 0 dot block).

(** The part of [ext2_mkdir] behind the allocation of the inode.  [parent] is
    the parent's inode as it was read before the new entry was added to it. *)
Definition make_dir (inode_num parent_inode : Z) (leaf : list Z) (mode : Z) (parent : Ext2Inode) : ST Ext2 Z :=
  s ← get;
  let m := ext2_state s in
  let inode := new_inode (u16 (Z.lor EXT2_S_IFDIR (Z.land mode 0x1FF))) (block_size m) 2 (block_size m / 512) in
  '(inode, block_num) ← get_block inode 0 true;
  if block_num <=? 0 then _ ← free_inode inode_num; mret VFS_ERR_NO_SPACE
  else
    let undo := (_ ← free_block (u32 block_num); _ ← free_inode inode_num; mret VFS_ERR_IO) in
    ok ← write_block (u32 block_num) (dot_block m inode_num parent_inode);
    if negb ok then undo
    else
      ok ← write_inode inode_num inode;
      if negb ok then undo
      else
        ok ← dir_add_entry parent_inode leaf inode_num EXT2_FT_DIR;
        if negb ok then undo
        else
          _ ← write_inode parent_inode (parent <| i_links_count ::= fun n => u16 (n + 1) |>);
          mret VFS_OK.

Definition ext2_mkdir (path : list Z) (mode : Z) : ST Ext2 Z :=
  r ← resolve_path path;
  match r with
  | None => mret VFS_ERR_INVALID_ARG
  | Some (inode_num, parent_inode, leaf) =>
      if negb (inode_num =? 0) then mret VFS_ERR_PERM
      else if (parent_inode =? 0) || bool_decide (leaf = []) then mret VFS_ERR_INVALID_ARG
      else
        p ← read_inode parent_inode;
        match p with
        | None => mret VFS_ERR_INVALID_ARG
        | Some parent =>
            if negb (inode_is_dir parent) then mret VFS_ERR_INVALID_ARG
            else
              n ← alloc_inode;
              if bad_inode (u32 n) then mret VFS_ERR_NO_SPACE
              else make_dir (u32 n) parent_inode leaf mode parent
        end
  end.

Definition ext2_rmdir (path : list Z) : ST Ext2 Z :=
  r ← resolve_path path;
  match r with
  | None => mret VFS_ERR_INVALID_ARG
  | Some (inode_num, parent_inode, leaf) =>
      if (inode_num =? 0) || (parent_inode =? 0) then mret VFS_ERR_NOT_FOUND
      else
        r ← read_inode inode_num;
        match r with
        | None => mret VFS_ERR_INVALID_ARG
        | Some inode =>
            if negb (inode_is_dir inode) then mret VFS_ERR_INVALID_ARG
            else
              empty ← ext2_is_dir_effectively_empty stack junk inode_num;
              if negb empty then mret VFS_ERR_PERM
              else
                ok ← dir_remove_entry parent_inode leaf;
                if negb ok then mret VFS_ERR_IO
                else
                  _ ← clear_blocks inode;
                  _ ← free_inode inode_num;
                  p ← read_inode parent_inode;
                  _ ← (match p with
                       | Some parent =>
                           if 0 <? i_links_count parent then
                             write_inode parent_inode (parent <| i_links_count ::= Z.pred |>)
                           else mret true
                       | None => mret true
                       end);
                  mret VFS_OK
        end
  end.

(** ** Links *)

Definition ext2_link (old_path new_path : list Z) : ST Ext2 Z :=
  o ← resolve_path old_path;
  match o with
  | None => mret VFS_ERR_NOT_FOUND
  | Some (old_inode, _, _) =>
      if old_inode =? 0 then mret VFS_ERR_NOT_FOUND
      else
        n ← resolve_path_opt stack junk false new_path;
        match n with
        | None => mret VFS_ERR_INVALID_ARG
        | Some (_, new_parent, new_leaf) =>
            if (new_parent =? 0) || bool_decide (new_leaf = []) then mret VFS_ERR_INVALID_ARG
            else
              r ← read_inode old_inode;
              match r with
              | None => mret VFS_ERR_IO
              | Some inode =>
                  if inode_is_dir inode then mret VFS_ERR_PERM
                  else
                    ok ← dir_add_entry new_parent new_leaf old_inode EXT2_FT_REG_FILE;
                    if negb ok then mret VFS_ERR_IO
                    else
                      ok ← write_inode old_inode (inode <| i_links_count ::= fun n => u16 (n + 1) |>);
                      if negb ok then _ ← dir_remove_entry new_parent new_leaf; mret VFS_ERR_IO
                      else mret VFS_OK
              end
        end
  end.

(** The block words that hold a short target as their bytes. *)
Definition inline_target (target : list Z) : list Z :=
  let bytes := target ++ replicate (60 - length target) 0 in
  map (fun k => le_val (slice (4 * Z.of_nat k) 4 bytes)) (seq 0 15).

(** The inode of the link, or the error: a long target goes to a block of its
    own, whose buffer is only written as far as the target goes. *)
Definition symlink_inode (link_inode : Z) (target : list Z) : ST Ext2 (Z + Ext2Inode) :=
  s ← get;
  let m := ext2_state s in
  let len := Z.of_nat (length target) in
  let inode := new_inode 0xA1ED len 1 0 in
  if len <=? 60 then mret (inr (inode <| i_block := inline_target target |>))
  else
    '(inode, block_num) ← get_block inode 0 true;
    if block_num <=? 0 then _ ← free_inode link_inode; mret (inl VFS_ERR_NO_SPACE)
    else
      ok ← write_block (u32 block_num) (splice 0 target junk);
      if negb ok then _ ← free_inode link_inode; mret (inl VFS_ERR_IO)
      else mret (inr (inode <| i_blocks := block_size m / 512 |>)).

Definition ext2_symlink (target link_path : list Z) : ST Ext2 Z :=
  if bool_decide (target = []) then mret VFS_ERR_INVALID_ARG
  else
    r ← resolve_path link_path;
    match r with
    | None => mret VFS_ERR_INVALID_ARG
    | Some (link_inode, parent_inode, leaf) =>
        if negb (link_inode =? 0) then mret VFS_ERR_PERM
        else if (parent_inode =? 0) || bool_decide (leaf = []) then mret VFS_ERR_INVALID_ARG
        else if 256 <=? Z.of_nat (length target) then mret VFS_ERR_INVALID_ARG
        else
          n ← alloc_inode;
          let link_inode := u32 n in
          if bad_inode link_inode then mret VFS_ERR_NO_SPACE
          else
            r ← symlink_inode link_inode target;
            match r with
            | inl err => mret err
            | inr inode =>
                ok ← write_inode link_inode inode;
                if negb ok then _ ← free_inode link_inode; mret VFS_ERR_IO
                else
                  ok ← dir_add_entry parent_inode leaf link_inode EXT2_FT_UNKNOWN;
                  if negb ok then
                    _ ← clear_blocks inode; _ ← free_inode link_inode; mret VFS_ERR_IO
                  else mret VFS_OK
            end
    end.

(** The result and the bytes stored from the start of [target_buf]. *)
Definition ext2_readlink (link_path : list Z) (max_len : Z) : ST Ext2 (Z * list Z) :=
  r ← existing link_path;
  match r with
  | inl err => mret (err, [])
  | inr (_, inode) =>
      if negb (has_flag (i_mode inode) 0xA000) then mret (VFS_ERR_INVALID_ARG, [])
      else
        let link_len := i32 (i_size inode) in
        if link_len <=? 0 then mret (0, [])
        else
          let link_len := Z.min link_len (i32 max_len) in
          if i_size inode <=? 60 then
            mret (link_len, take (Z.to_nat link_len) (flat_map (le_bytes 4) (i_block inode)))
          else
            '(_, block_num) ← get_block inode 0 false;
            if block_num <=? 0 then mret (VFS_ERR_IO, [])
            else
              r ← read_block (u32 block_num);
              match r with
              | None => mret (VFS_ERR_IO, [])
              | Some raw => mret (link_len, take (Z.to_nat link_len) (raw ++ junk))
              end
  end.

(** ** Mounting *)

(** A superblock with no blocks per group makes the call divide by zero; here
    the quotient is 0, as everywhere in the development. *)
Definition ext2_init_state_from_partition (lba : Z) : ST Ext2 bool :=
  _ ← modify (fun s => s <| ext2_state := no_mount <| partition_lba := lba |> |>);
  ok ← read_superblock stack;
  if negb ok then mret false
  else
    s ← get;
    let b := sb (ext2_state s) in
    _ ← modify (fun s => s <| ext2_state ::= fun m => m <| block_size := EXT2_BLOCK_SIZE |> |>);
    if negb (u32 (Z.shiftl 1024 (sb_log_block_size b)) =? EXT2_BLOCK_SIZE) then mret false
    else
      _ ← modify (fun s => s <| ext2_state ::= fun m =>
            m <| sectors_per_block := EXT2_BLOCK_SIZE / 512 |>
              <| inodes_per_group := sb_inodes_per_group b |>
              <| blocks_per_group := sb_blocks_per_group b |>
              <| inode_size := if sb_inode_size b =? 0 then EXT2_INODE_SIZE else sb_inode_size b |>
              <| total_inodes := sb_inode_count b |>
              <| total_blocks := sb_block_count b |>
              <| group_desc_count := (sb_block_count b +u sb_blocks_per_group b -u 1) / sb_blocks_per_group b |>
              <| group_desc_block := 2 |>
              <| block_bitmap_block := 0 |> <| inode_bitmap_block := 0 |> <| inode_table_block := 0 |>
              <| mounted := 1 |> |>);
      r ← read_group_desc stack 0;
      match r with
      | None => _ ← modify (fun s => s <| ext2_state ::= fun m => m <| mounted := 0 |> |>); mret false
      | Some gd =>
          _ ← modify (fun s => s <| ext2_state ::= fun m =>
                m <| block_bitmap_block := gd_block_bitmap gd |>
                  <| inode_bitmap_block := gd_inode_bitmap gd |>
                  <| inode_table_block := gd_inode_table gd |> |>);
          mret true
      end.

Definition ext2_mount_from_lba (lba : Z) : ST Ext2 bool :=
  ok ← ext2_init_state_from_partition lba;
  if negb ok then mret false
  else
    _ ← modify (fun s => s <| ext2_handles := replicate (Z.to_nat EXT2_MAX_HANDLES) no_handle |>);
    mret true.

Definition parse_u32_dec (s : list Z) : option Z :=
  match s with
  | [] => None
  | _ => foldl (fun acc c => value ← acc;
                  if (c <? 48) || (57 <? c) then None else Some (value *u 10 +u (c - 48))) (Some 0) s
  end.

(** Mounting the first partition that holds a volume. *)
Fixpoint mount_first (parts : list PartitionEntry) : ST Ext2 bool :=
  match parts with
  | [] => mret false
  | p :: parts' =>
      ok ← ext2_mount_from_lba (lba_start p);
      if (ok : bool) then mret true else mount_first parts'
  end.

(** The partitions of the disk: the GUID table, or else the master boot record;
    [None] when the scan reads outside its sector. *)
Definition scan_partitions (parts : list PartitionEntry) : ST Ext2 (option (list PartitionEntry)) := fun s =>
  let '(d1, out, count) := partition_scan_gpt stack (Some parts) PARTITION_MAX_ENTRIES (ext2_dev s) in
  match count with
  | None => (s <| ext2_dev := d1 |>, None)
  | Some count =>
      let '(d2, out, count) :=
        if count <=? 0 then partition_scan_mbr stack (Some (default [] out)) PARTITION_MAX_ENTRIES d1
        else (d1, out, count) in
      (s <| ext2_dev := d2 |>, Some (take (Z.to_nat count) (default [] out)))
  end.

Definition ext2_spec : list Z := [101; 120; 116; 50].

(** [true] when the call returns the operations of a mounted volume; [parts] is
    what the local array holds before the scan. *)
Definition ext2_backend_from_spec (spec : list Z) (parts : list PartitionEntry) : ST Ext2 (option bool) :=
  if str_eq spec ext2_spec then
    r ← scan_partitions parts;
    match r with
    | None => mret None
    | Some found => ok ← mount_first found; mret (Some ok)
    end
  else if str_eq (take 4 spec) ext2_spec && bool_decide (spec !! 4%nat = Some 58 \/ spec !! 4%nat = Some 64) then
    match parse_u32_dec (drop 5 spec) with
    | None => mret (Some false)
    | Some lba => ok ← ext2_mount_from_lba lba; mret (Some ok)
    end
  else mret (Some false).

(** ** Listing the root *)

Record Ext2LsEntry := { ls_inode : Z; ls_size : Z; ls_mtime : Z; ls_name : list Z }.

(** The entries of one block from [off], as long as there is room for more. *)
Fixpoint list_entries (block : list Z) (max_entries : Z) (fuel : nat) (off : Z) (out : list Ext2LsEntry)
  : ST Ext2 (list Ext2LsEntry) :=
  match fuel with
  | O => mret out
  | S fuel' =>
      s ← get;
      if (block_size (ext2_state s) <? off + 8) || (max_entries <=? Z.of_nat (length out)) then mret out
      else if e_rec_len block off =? 0 then mret out
      else
        out ← (if negb (e_inode block off =? 0) && (0 <? e_name_len block off) then
                 let copy_len := if e_name_len block off <? 63 then e_name_len block off else 63 in
                 r ← read_inode (e_inode block off);
                 match r with
                 | None => mret out
                 | Some inode => mret (out ++ [{| ls_inode := e_inode block off; ls_size := i_size inode;
                     ls_mtime := i_mtime inode; ls_name := slice (off + 8) copy_len block |}])
                 end
               else mret out);
        list_entries block max_entries fuel' (off + e_rec_len block off) out
  end.

Fixpoint list_blocks (root : Ext2Inode) (max_entries : Z) (b n : nat) (out : list Ext2LsEntry)
  : ST Ext2 (list Ext2LsEntry) :=
  match n with
  | O => mret out
  | S n' =>
      if max_entries <=? Z.of_nat (length out) then mret out
      else
        '(root, block_num) ← get_block root (Z.of_nat b) false;
        if block_num <=? 0 then list_blocks root max_entries (S b) n' out
        else
          r ← read_block (u32 block_num);
          match r with
          | None => list_blocks root max_entries (S b) n' out
          | Some raw =>
              s ← get;
              out ← list_entries (raw ++ junk) max_entries (Z.to_nat (block_size (ext2_state s))) 0 out;
              list_blocks root max_entries (S b) n' out
          end
  end.

(** [None] is the result -1. *)
Definition ext2_list_root_long (out_null : bool) (max_entries : Z) : ST Ext2 (option (list Ext2LsEntry)) :=
  s ← get;
  if (mounted (ext2_state s) =? 0) || out_null || (max_entries <=? 0) then mret None
  else
    r ← read_inode EXT2_ROOT_INODE;
    match r with
    | None => mret None
    | Some root =>
        if negb (inode_is_dir root) then mret None
        else
          out ← list_blocks root max_entries 0 (Z.to_nat (blocks_of (ext2_state s) (i_size root))) [];
          mret (Some out)
    end.
End Ops.
