(* ===== verification/Ext2Vol.v ===== *)
(** * The ext2 driver over an abstract volume

    On a working device a mounted volume is a function from block numbers to
    blocks of 1024 bytes.  [Rep] relates the driver's state to it; the lemmas give
    every block, inode and bitmap operation as an operation on that function. *)
From S2P Require Import Prelude BlockDev Bytes Ext2.

Definition volume : Type := Z -> list Z.

Definition set_block (c : volume) (b : Z) (v : list Z) : volume := fun q => if q =? b then v else c q.

(** The geometry every mount sets, and the blocks whose sectors have numbers. *)
Record geometry (m : Ext2MountState) : Prop := {
  geo_bs : block_size m = 1024;
  geo_spb : sectors_per_block m = 2;
  geo_lba : 0 <= partition_lba m
}.

Definition block_ok (m : Ext2MountState) (b : Z) : Prop := 0 <= b /\ partition_lba m + 2 * b + 1 < 2 ^ 32.

Definition is_block (v : list Z) : Prop := length v = 1024%nat /\ Forall is_byte v.

Section Volume.
Context {D : Type} `{WD : WorkingDev D} (stack junk : list Z) (Hstack : is_sector stack).

Definition sector_bytes (d : D) (lba : Z) : list Z := bytes_of_words (dev_content d lba).

Definition block_content (m : Ext2MountState) (d : D) (b : Z) : list Z :=
  sector_bytes d (block_to_lba m b) ++ sector_bytes d (block_to_lba m b +u 1).

Record Rep (m : Ext2MountState) (hs : list Ext2Handle) (c : volume) (s : Ext2) : Prop := {
  rep_m : ext2_state s = m;
  rep_hs : ext2_handles s = hs;
  rep_geo : geometry m;
  rep_inv : dev_inv (ext2_dev s);
  rep_works : dev_works (ext2_dev s);
  rep_block : forall b, block_ok m b -> block_content m (ext2_dev s) b = c b
}.

Lemma sector_bytes_ok d lba : dev_inv d ->
  length (sector_bytes d lba) = 512%nat /\ Forall is_byte (sector_bytes d lba).
Proof.
  intros Hd. unfold sector_bytes. rewrite bytes_of_words_length, (dev_content_sector d lba Hd).
  split; [done|apply bytes_of_words_byte].
Qed.

Lemma rep_is_block m hs c s b : Rep m hs c s -> block_ok m b -> is_block (c b).
Proof.
  intros HR Hb. rewrite <- (rep_block _ _ _ _ HR b Hb).
  destruct (sector_bytes_ok (ext2_dev s) (block_to_lba m b) (rep_inv _ _ _ _ HR)).
  destruct (sector_bytes_ok (ext2_dev s) (block_to_lba m b +u 1) (rep_inv _ _ _ _ HR)).
  split; [|by apply Forall_app]. unfold block_content. rewrite length_app. lia.
Qed.

Lemma block_lba m b : geometry m -> block_ok m b ->
  block_to_lba m b = partition_lba m + 2 * b /\ block_to_lba m b +u 1 = partition_lba m + 2 * b + 1.
Proof.
  intros [_ Hs Hl] [Hb Hb']. unfold block_to_lba. rewrite Hs, (u32_small (b * 2)) by lia. wsimpl. split; lia.
Qed.

(** ** Reading and writing blocks *)

Lemma read_one lba d : dev_inv d -> dev_works d ->
  exists d', dev_read lba stack d = (d', DISK_IO_OK, dev_content d lba) /\
    dev_inv d' /\ dev_works d' /\ (forall q, dev_content d' q = dev_content d q).
Proof.
  intros Hi Hw. destruct (dev_read lba stack d) as [[d' rc] w] eqn:E.
  pose proof (dev_works_read d lba stack Hi Hw Hstack) as [Hrc Hw']. rewrite E in Hrc, Hw'. simpl in *.
  destruct (dev_read_ok d lba stack d' rc w Hi Hstack E) as (Hi' & _ & Hq & Hc). subst rc.
  exists d'. by rewrite Hc.
Qed.

Lemma read_block_ok m hs c s b : Rep m hs c s -> block_ok m b ->
  wp (read_block stack b) (fun s' r => r = Some (c b) /\ Rep m hs c s') s.
Proof.
  intros HR Hb. unfold wp, read_block. rewrite (rep_m _ _ _ _ HR). destruct (rep_geo _ _ _ _ HR) as [_ Hspb _].
  rewrite Hspb. change (Z.to_nat 2) with 2%nat. cbn [read_sectors].
  destruct (read_one (block_to_lba m b) _ (rep_inv _ _ _ _ HR) (rep_works _ _ _ _ HR)) as (d1 & E1 & Hi1 & Hw1 & Hq1).
  rewrite E1. rewrite Z.eqb_refl. cbn [negb].
  destruct (read_one (block_to_lba m b +u 1) d1 Hi1 Hw1) as (d2 & E2 & Hi2 & Hw2 & Hq2).
  rewrite E2. rewrite Z.eqb_refl. cbn [negb fmap option_fmap option_map fst snd].
  split.
  - f_equal. rewrite app_nil_r, Hq1. apply (rep_block _ _ _ _ HR b Hb).
  - destruct HR as [Hm Hh Hg _ _ Hc]. split; try done. intros q Hq. unfold update_field; simpl.
    rewrite <- (Hc q Hq). unfold block_content, sector_bytes. by rewrite !Hq2, !Hq1.
Qed.

Lemma sector_write lba buf d q : dev_inv d -> length buf = 512%nat -> Forall is_byte buf ->
  let d' := dev_write lba (words_of_bytes buf) d in
  dev_inv d' /\ sector_bytes d' q = if lba =? q then buf else sector_bytes d q.
Proof.
  intros Hd Hl Hb d'. assert (is_sector (words_of_bytes buf)) as Hs.
  { unfold is_sector. by apply words_of_bytes_length. }
  destruct (dev_write_ok d lba _ Hd Hs) as [Hi Hq]. split; [done|].
  unfold d', sector_bytes. rewrite Hq. case_if; [|done]. by rewrite (bytes_words_bytes 256).
Qed.

Lemma write_block_ok m hs c s b buf : Rep m hs c s -> block_ok m b ->
  (1024 <= length buf)%nat -> Forall is_byte buf ->
  wp (write_block b buf) (fun s' r => r = true /\ Rep m hs (set_block c b (take 1024 buf)) s') s.
Proof.
  intros HR Hb Hl Hbuf. unfold wp, write_block. rewrite (rep_m _ _ _ _ HR).
  pose proof (rep_geo _ _ _ _ HR) as Hg. rewrite (geo_spb _ Hg). change (Z.to_nat 2) with 2%nat.
  cbn [write_sectors fst snd]. split; [done|].
  destruct (block_lba m b Hg Hb) as [L1 L2]. rewrite L2, L1.
  set (d1 := dev_write (partition_lba m + 2 * b) _ _).
  assert (length (take 512 buf) = 512%nat) as Hl1 by (rewrite length_take; lia).
  assert (length (take 512 (drop 512 buf)) = 512%nat) as Hl2 by (rewrite length_take, length_drop; lia).
  pose proof (fun q => sector_write (partition_lba m + 2 * b) (take 512 buf) (ext2_dev s) q
    (rep_inv _ _ _ _ HR) Hl1 (Forall_take _ _ _ Hbuf)) as W1.
  pose proof (fun q => sector_write (partition_lba m + 2 * b + 1) (take 512 (drop 512 buf)) d1 q
    (proj1 (W1 0)) Hl2 (Forall_take _ _ _ (Forall_drop _ _ _ Hbuf))) as W2.
  destruct HR as [Hm Hh _ _ Hw Hc]. split; unfold update_field; simpl; try done.
  - apply (W2 0).
  - apply dev_works_write, dev_works_write, Hw.
  - intros q Hq. destruct (block_lba m q Hg Hq) as [Q1 Q2].
    specialize (Hc q Hq). unfold set_block, block_content in *. rewrite Q1, Q2 in *.
    rewrite !(proj2 (W2 _)), !(proj2 (W1 _)). destruct (Z.eqb_spec q b) as [->|Hne].
    + rewrite Z.eqb_refl. destruct (Z.eqb_spec (partition_lba m + 2 * b + 1) (partition_lba m + 2 * b)); [lia|].
      rewrite Z.eqb_refl, take_take_drop. done.
    + repeat match goal with |- context [?x =? ?y] => destruct (Z.eqb_spec x y); [lia|] end. done.
Qed.
End Volume.
