(* ===== verification/Ext2Inodes.v ===== *)
(** * The ext2 driver: inodes on the volume

    The byte image of an inode, the layout of the metadata of a volume, and the
    inode table as an operation on the abstract volume of [Ext2Vol]. *)
From S2P Require Import Prelude BlockDev Bytes Ext2 Ext2Vol.

(** ** The byte image *)

Record inode_wf (i : Ext2Inode) : Prop := {
  iw_mode : is_u16 (i_mode i); iw_uid : is_u16 (i_uid i); iw_size : is_u32 (i_size i);
  iw_atime : is_u32 (i_atime i); iw_ctime : is_u32 (i_ctime i); iw_mtime : is_u32 (i_mtime i);
  iw_dtime : is_u32 (i_dtime i); iw_gid : is_u16 (i_gid i); iw_links : is_u16 (i_links_count i);
  iw_blocks : is_u32 (i_blocks i); iw_flags : is_u32 (i_flags i); iw_osd1 : is_u32 (i_osd1 i);
  iw_block : length (i_block i) = 15%nat /\ Forall is_u32 (i_block i);
  iw_generation : is_u32 (i_generation i); iw_file_acl : is_u32 (i_file_acl i);
  iw_dir_acl : is_u32 (i_dir_acl i); iw_faddr : is_u32 (i_faddr i);
  iw_osd2 : length (i_osd2 i) = 12%nat /\ Forall is_byte (i_osd2 i)
}.

Lemma length_flat_map_le4 l : length (flat_map (le_bytes 4) l) = (4 * length l)%nat.
Proof. induction l as [|x l IH]; [done|]. cbn [flat_map length]. rewrite length_app, le_bytes_length. lia. Qed.

Lemma inode_bytes_length i : inode_wf i -> length (inode_bytes i) = 128%nat.
Proof.
  intros Hi. unfold inode_bytes. rewrite !length_app, !le_bytes_length, length_flat_map_le4.
  destruct Hi as [? ? ? ? ? ? ? ? ? ? ? ? [Hb _] ? ? ? ? [Ho _]]. rewrite Hb, Ho. done.
Qed.

Lemma flat_map_le4_byte l : Forall is_byte (flat_map (le_bytes 4) l).
Proof.
  induction l as [|x l IH]; [constructor|]. cbn [flat_map].
  apply Forall_app. split; [apply le_bytes_byte|done].
Qed.

Lemma inode_bytes_byte i : inode_wf i -> Forall is_byte (inode_bytes i).
Proof.
  intros Hi. unfold inode_bytes. rewrite !Forall_app.
  repeat match goal with |- _ /\ _ => split end;
    first [apply le_bytes_byte | apply flat_map_le4_byte | apply (iw_osd2 _ Hi)].
Qed.

Lemma le_val_u16 v : is_u16 v -> le_val (le_bytes 2 v) = v.
Proof. intros. rewrite le_val_bytes. apply Z.mod_small. done. Qed.
Lemma le_val_u32 v : is_u32 v -> le_val (le_bytes 4 v) = v.
Proof. intros. rewrite le_val_bytes. apply Z.mod_small. done. Qed.

Lemma inode_of_bytes_bytes i : inode_wf i -> inode_of_bytes (inode_bytes i) = i.
Proof.
  intros [H1 H2 H3 H4 H5 H6 H7 H8 H9 H10 H11 H12 [HB1 HB2] H13 H14 H15 H16 [HO1 HO2]].
  destruct i as [mode uid size atime ctime mtime dtime gid links blocks flags osd1 blk gen fa da fad osd2].
  cbn [i_mode i_uid i_size i_atime i_ctime i_mtime i_dtime i_gid i_links_count i_blocks i_flags
       i_osd1 i_block i_generation i_file_acl i_dir_acl i_faddr i_osd2] in *.
  do 15 (destruct blk as [|? blk]; [done|]). destruct blk; [|done].
  do 12 (destruct osd2 as [|? osd2]; [done|]). destruct osd2; [|done].
  repeat match goal with H : Forall _ (_ :: _) |- _ => inversion_clear H end.
  unfold inode_of_bytes. cbv zeta beta.
  f_equal; cbn [map seq];
    repeat match goal with |- @eq (list Z) (_ :: _) (_ :: _) => apply (f_equal2 cons) end;
    try (refine (eq_trans _ (le_val_u16 _ _)); [|eassumption]; reflexivity);
    try (refine (eq_trans _ (le_val_u32 _ _)); [|eassumption]; reflexivity).
  reflexivity.
Qed.

(** The slices of the given sizes, one behind the other. *)
Fixpoint chunks (o : Z) (sizes : list Z) (b : list Z) : list Z :=
  match sizes with
  | [] => []
  | n :: sizes' => slice o n b ++ chunks (o + n) sizes' b
  end.

Lemma chunks_join sizes b : forall o, 0 <= o -> Forall (fun n => 0 <= n) sizes ->
  chunks o sizes b = slice o (foldr Z.add 0 sizes) b.
Proof.
  induction sizes as [|n sizes IH]; intros o Ho Hs; [done|]. inversion Hs; subst.
  assert (0 <= foldr Z.add 0 sizes).
  { clear -H2. induction H2; simpl; lia. }
  cbn [chunks foldr]. rewrite IH by (done || lia). by apply slice_join.
Qed.

Definition inode_sizes : list Z := [2; 2; 4; 4; 4; 4; 4; 2; 2; 4; 4; 4] ++ replicate 15 4 ++ [4; 4; 4; 4; 12].

Lemma inode_bytes_of_bytes b : length b = 128%nat -> Forall is_byte b ->
  inode_bytes (inode_of_bytes b) = b.
Proof.
  intros Hl Hb.
  assert (forall n o, 0 <= o -> o + Z.of_nat n <= 128 ->
    le_bytes n (le_val (slice o (Z.of_nat n) b)) = slice o (Z.of_nat n) b) as Hf.
  { intros n o Ho Hn. rewrite <- (le_bytes_val (slice o (Z.of_nat n) b)) at 2 by (by apply Forall_slice).
    f_equal. apply Nat2Z.inj. rewrite slice_length by lia. done. }
  pose proof (Hf 2%nat : forall o, 0 <= o -> o + 2 <= 128 -> _ = slice o 2 b) as H2.
  pose proof (Hf 4%nat : forall o, 0 <= o -> o + 4 <= 128 -> _ = slice o 4 b) as H4.
  change (Z.of_nat 2) with 2 in H2. change (Z.of_nat 4) with 4 in H4.
  transitivity (chunks 0 inode_sizes b).
  2: { rewrite chunks_join; [|lia|repeat constructor; lia]. unfold slice. simpl. rewrite take_ge; [done|].
       by rewrite drop_0, Hl. }
  unfold inode_bytes, inode_of_bytes. cbv zeta.
  cbn [i_mode i_uid i_size i_atime i_ctime i_mtime i_dtime i_gid i_links_count i_blocks i_flags
       i_osd1 i_block i_generation i_file_acl i_dir_acl i_faddr i_osd2 map seq flat_map].
  rewrite !H2, !H4 by lia. rewrite <- !app_assoc. cbn [app]. 
  unfold inode_sizes. cbn [chunks app replicate]. rewrite app_nil_r. reflexivity.
Qed.

Lemma inode_of_bytes_wf b : length b = 128%nat -> Forall is_byte b -> inode_wf (inode_of_bytes b).
Proof.
  intros Hl Hb.
  assert (forall o n, 0 <= o -> 0 <= n -> o + n <= 128 -> 0 <= le_val (slice o n b) < 256 ^ n) as Hf.
  { intros o n Ho Hn Hs. rewrite <- (slice_length o n b Ho Hn) at 3 by lia.
    apply le_val_range. by apply Forall_slice. }
  pose proof (fun o (H : 0 <= o /\ o + 2 <= 128) => Hf o 2 (proj1 H) ltac:(lia) (proj2 H)) as H2.
  pose proof (fun o (H : 0 <= o /\ o + 4 <= 128) => Hf o 4 (proj1 H) ltac:(lia) (proj2 H)) as H4.
  change (256 ^ 2) with (2 ^ 16) in H2. change (256 ^ 4) with (2 ^ 32) in H4.
  split; cbn -[Z.pow slice le_val]; unfold is_u16, is_u32; try (apply H2; lia); try (apply H4; lia).
  - split; [done|]. repeat constructor; try (apply H4; lia).
  - split; [|by apply Forall_slice]. apply Nat2Z.inj. by rewrite slice_length by lia.
Qed.

(** ** The layout of the metadata *)

(** The blocks the driver uses for itself: a block of group descriptors, the
    two bitmaps of a group, a block of a group's inode table. *)
Inductive meta := MDesc (k : Z) | MInodeBitmap (g : Z) | MBlockBitmap (g : Z) | MTable (g k : Z).

Section Layout.
Context (m : Ext2MountState) (L : Z -> Ext2GroupDesc).

Definition table_blocks : Z := (inodes_per_group m * inode_size m + 1023) / 1024.

Definition meta_valid (x : meta) : Prop :=
  match x with
  | MDesc k => exists g, 0 <= g < group_desc_count m /\ k = g / 32
  | MInodeBitmap g | MBlockBitmap g => 0 <= g < group_desc_count m
  | MTable g k => 0 <= g < group_desc_count m /\ 0 <= k < table_blocks
  end.

Definition meta_place (x : meta) : Z :=
  match x with
  | MDesc k => group_desc_block m + k
  | MInodeBitmap g => gd_inode_bitmap (L g)
  | MBlockBitmap g => gd_block_bitmap (L g)
  | MTable g k => gd_inode_table (L g) + k
  end.

(** The metadata blocks of a well-formed volume are pairwise distinct blocks of
    the device, a bitmap fits its block, and an inode does not cross a block. *)
Record layout : Prop := {
  lay_ipg : 0 < inodes_per_group m <= 8192;
  lay_bpg : 0 < blocks_per_group m <= 8192;
  lay_isz : 128 <= inode_size m /\ (inode_size m | 1024);
  lay_inodes : 0 <= total_inodes m <= inodes_per_group m * group_desc_count m;
  lay_inode_max : inodes_per_group m * group_desc_count m + 1 < 2 ^ 31;
  lay_groups : 0 <= group_desc_count m;
  lay_first : 0 <= sb_first_data_block (sb m);
  lay_block_max : sb_first_data_block (sb m) + blocks_per_group m * group_desc_count m < 2 ^ 31;
  lay_place x : meta_valid x -> block_ok m (meta_place x);
  lay_inj x y : meta_valid x -> meta_valid y -> meta_place x = meta_place y -> x = y
}.

(** Blocks that hold data. *)
Definition data_block (b : Z) : Prop := block_ok m b /\ forall x, meta_valid x -> meta_place x <> b.

Definition inode_valid (n : Z) : Prop := 1 <= n <= total_inodes m.
Definition inode_group (n : Z) : Z := (n - 1) / inodes_per_group m.
Definition inode_index (n : Z) : Z := (n - 1) mod inodes_per_group m.
Definition inode_block_of (n : Z) : Z :=
  gd_inode_table (L (inode_group n)) + inode_index n * inode_size m / 1024.
Definition inode_offset_of (n : Z) : Z := inode_index n * inode_size m mod 1024.

(** The descriptor a volume holds for a group, and the inode it holds for a
    number. *)
Definition desc_at (c : volume) (g : Z) : Ext2GroupDesc :=
  let raw := c (group_desc_block m + g / 32) in
  let offset := g mod 32 * 32 in
  {| gd_block_bitmap := read_le32 raw offset; gd_inode_bitmap := read_le32 raw (offset + 4);
     gd_inode_table := read_le32 raw (offset + 8); gd_free_blocks_count := read_le16 raw (offset + 12);
     gd_free_inodes_count := read_le16 raw (offset + 14); gd_used_dirs_count := read_le16 raw (offset + 16) |}.

Definition has_descs (c : volume) : Prop := forall g, 0 <= g < group_desc_count m -> desc_at c g = L g.

Definition inode_at (c : volume) (n : Z) : Ext2Inode :=
  inode_of_bytes (slice (inode_offset_of n) 128 (c (inode_block_of n))).

Lemma inode_group_range n : layout -> inode_valid n -> 0 <= inode_group n < group_desc_count m.
Proof.
  intros HL Hn. pose proof (lay_ipg HL). pose proof (lay_inodes HL). unfold inode_valid, inode_group in *. split; [apply Z.div_pos; lia|].
  apply Z.div_lt_upper_bound; lia.
Qed.

Lemma inode_index_range n : layout -> 0 <= inode_index n < inodes_per_group m.
Proof. intros HL. pose proof (lay_ipg HL). apply Z.mod_pos_bound. lia. Qed.

Lemma inode_offset_range n : layout -> 0 <= inode_offset_of n /\ inode_offset_of n + 128 <= 1024.
Proof.
  intros HL. pose proof (inode_index_range n HL) as Hi. destruct (lay_isz HL) as [Hs [q Hq]].
  unfold inode_offset_of. split; [apply Z.mod_pos_bound; lia|]. rewrite Hq.
  assert (0 < q) by nia. rewrite (Z.mul_comm q), (Z.mul_comm _ (inode_size m)), Z.mul_mod_distr_l by lia.
  pose proof (Z.mod_pos_bound (inode_index n) q ltac:(lia)). nia.
Qed.

Lemma inode_table_valid n : layout -> inode_valid n ->
  meta_valid (MTable (inode_group n) (inode_index n * inode_size m / 1024)).
Proof.
  intros HL Hn. pose proof (inode_group_range n HL Hn). pose proof (inode_index_range n HL).
  destruct (lay_isz HL) as [Hs Hdiv]. simpl. split; [done|]. split; [apply Z.div_pos; nia|].
  unfold table_blocks. destruct Hdiv as [q Hq].
  apply Z.div_lt_upper_bound; [lia|].
  set (ipg := inodes_per_group m) in *. set (sz := inode_size m) in *.
  pose proof (Z_div_mod_eq_full (ipg * sz + 1023) 1024).
  pose proof (Z.mod_pos_bound (ipg * sz + 1023) 1024 ltac:(lia)). nia.
Qed.

Lemma inode_block_ok n : layout -> inode_valid n -> block_ok m (inode_block_of n).
Proof. intros HL Hn. apply (lay_place HL (MTable _ _)). by apply inode_table_valid. Qed.

(** Distinct inodes do not overlap. *)
Lemma inode_places_disjoint n n' : layout -> inode_valid n -> inode_valid n' -> n <> n' ->
  inode_block_of n = inode_block_of n' ->
  inode_offset_of n + 128 <= inode_offset_of n' \/ inode_offset_of n' + 128 <= inode_offset_of n.
Proof.
  intros HL Hn Hn' Hne He.
  pose proof (lay_inj HL _ _ (inode_table_valid n HL Hn) (inode_table_valid n' HL Hn') He) as Hx.
  inversion Hx as [[Hg Hk]]. pose proof (lay_isz HL) as [Hs [q Hq]]. pose proof (lay_ipg HL).
  unfold inode_offset_of, inode_index, inode_group in *.
  set (i := (n - 1) mod _) in *. set (i' := (n' - 1) mod _) in *.
  assert (i <> i').
  { subst i i'. intros Hi. apply Hne.
    pose proof (Z_div_mod_eq_full (n - 1) (inodes_per_group m)).
    pose proof (Z_div_mod_eq_full (n' - 1) (inodes_per_group m)). lia. }
  pose proof (Z_div_mod_eq_full (i * inode_size m) 1024).
  pose proof (Z_div_mod_eq_full (i' * inode_size m) 1024). nia.
Qed.

End Layout.

(** ** Reading and writing *)

Section Inodes.
Context {D : Type} `{WD : WorkingDev D} (stack junk : list Z) (Hstack : is_sector stack).
Context (m : Ext2MountState) (L : Z -> Ext2GroupDesc) (HL : layout m L).

(** The state stands for the volume [c] under the layout. *)
Record Vol (hs : list Ext2Handle) (c : volume) (s : Ext2) : Prop := {
  vol_rep : Rep m hs c s;
  vol_descs : has_descs m L c
}.

Lemma vol_m hs c s : Vol hs c s -> ext2_state s = m.
Proof. intros [HR _]. apply (rep_m _ _ _ _ HR). Qed.

Lemma vol_geo hs c s : Vol hs c s -> geometry m.
Proof. intros [HR _]. apply (rep_geo _ _ _ _ HR). Qed.

Lemma vol_is_block hs c s b : Vol hs c s -> block_ok m b -> is_block (c b).
Proof. intros [HR _]. by apply (rep_is_block _ _ _ _ _ HR). Qed.

Lemma vol_read hs c s b : Vol hs c s -> block_ok m b ->
  wp (read_block stack b) (fun s' r => r = Some (c b) /\ Vol hs c s') s.
Proof.
  intros [HR Hd] Hb. eapply wp_mono; [by eapply read_block_ok|]. intros s' r [-> HR'].
  done.
Qed.

(** Writes outside the descriptor blocks keep the descriptors. *)
Lemma descs_set c b v : has_descs m L c -> (forall g, 0 <= g < group_desc_count m -> group_desc_block m + g / 32 <> b) ->
  has_descs m L (set_block c b v).
Proof.
  intros Hd Hb g Hg. unfold desc_at, set_block. destruct (Z.eqb_spec (group_desc_block m + g / 32) b).
  - by apply Hb in e.
  - by apply Hd.
Qed.

Lemma vol_write hs c s b buf : Vol hs c s -> block_ok m b ->
  (forall g, 0 <= g < group_desc_count m -> group_desc_block m + g / 32 <> b) ->
  (1024 <= length buf)%nat -> Forall is_byte buf ->
  wp (write_block b buf) (fun s' r => r = true /\ Vol hs (set_block c b (take 1024 buf)) s') s.
Proof.
  intros [HR Hd] Hb Hg Hl Hbuf. eapply wp_mono; [by eapply write_block_ok|]. intros s' r [-> HR'].
  split; [done|]. split; [done|]. by apply descs_set.
Qed.

Lemma desc_block_of x g : meta_valid m x -> 0 <= g < group_desc_count m ->
  (forall k, x <> MDesc k) -> group_desc_block m + g / 32 <> meta_place m L x.
Proof.
  intros Hx Hg Hne He. apply (Hne (g / 32)). symmetry. apply (lay_inj _ _ HL (MDesc (g / 32))); [|done|done].
  simpl. eauto.
Qed.

(** A write to a block of metadata other than descriptors, or of data. *)
Lemma vol_write_meta hs c s x buf : Vol hs c s -> meta_valid m x -> (forall k, x <> MDesc k) ->
  (1024 <= length buf)%nat -> Forall is_byte buf ->
  wp (write_block (meta_place m L x) buf)
     (fun s' r => r = true /\ Vol hs (set_block c (meta_place m L x) (take 1024 buf)) s') s.
Proof.
  intros HV Hx Hne Hl Hb. apply vol_write; try done; [by apply (lay_place _ _ HL)|].
  intros g Hg. by apply desc_block_of.
Qed.

Lemma vol_write_data hs c s b buf : Vol hs c s -> data_block m L b ->
  (1024 <= length buf)%nat -> Forall is_byte buf ->
  wp (write_block b buf) (fun s' r => r = true /\ Vol hs (set_block c b (take 1024 buf)) s') s.
Proof.
  intros HV [Hb Hm] Hl Hbuf. apply vol_write; try done. intros g Hg. apply (Hm (MDesc (g / 32))). simpl. eauto.
Qed.

Lemma block_ok_u32 b : geometry m -> block_ok m b -> is_u32 b.
Proof. intros [_ _ ?] [? ?]. unfold is_u32. lia. Qed.

Lemma read_group_desc_ok hs c s g : Vol hs c s -> 0 <= g < group_desc_count m ->
  wp (read_group_desc stack g) (fun s' r => r = Some (L g) /\ Vol hs c s') s.
Proof.
  intros HV Hg. unfold read_group_desc. apply wp_get. rewrite (vol_m _ _ _ HV), (geo_bs _ (vol_geo _ _ _ HV)).
  change (1024 / 32) with 32.
  assert (block_ok m (group_desc_block m + g / 32)) as Hb.
  { apply (lay_place _ _ HL (MDesc (g / 32))). simpl. eauto. }
  pose proof (block_ok_u32 _ (vol_geo _ _ _ HV) Hb) as Hu. unfold is_u32 in Hu.
  rewrite (u32_small (group_desc_block m + _)) by lia.
  pose proof (Z.mod_pos_bound g 32 ltac:(lia)). rewrite (u32_small (g mod 32 * 32)) by lia.
  wp_call vol_read; [done|done|]. intros s' r [-> HV']. apply wp_ret. split; [|done].
  f_equal. apply (vol_descs _ _ _ HV g Hg).
Qed.

Lemma inode_place_ok hs c s n : Vol hs c s -> inode_valid m n ->
  inode_place m (L (inode_group m n)) (inode_index m n) = (inode_block_of m L n, inode_offset_of m n).
Proof.
  intros HV Hn. unfold inode_place. rewrite (geo_bs _ (vol_geo _ _ _ HV)).
  pose proof (inode_index_range _ _ n HL). destruct (lay_isz _ _ HL) as [Hs Hd]. pose proof (lay_ipg _ _ HL).
  assert (inode_size m <= 1024) by (by apply Z.divide_pos_le).
  assert (0 <= inode_index m n * inode_size m <= 8192 * 1024) by (split; [|apply Z.mul_le_mono_nonneg]; lia).
  rewrite (u32_small (inode_index m n * inode_size m)) by lia.
  pose proof (block_ok_u32 _ (vol_geo _ _ _ HV) (inode_block_ok _ _ n HL Hn)) as Hu. unfold is_u32 in Hu.
  unfold inode_block_of in *. rewrite u32_small by lia. done.
Qed.

Lemma inode_group_and_offset_ok n : inode_valid m n ->
  inode_group_and_offset m n = Some (inode_group m n, inode_index m n).
Proof.
  intros Hn. unfold inode_valid in Hn. pose proof (lay_inodes _ _ HL).
  pose proof (lay_inode_max _ _ HL). unfold inode_group_and_offset.
  destruct (Z.eqb_spec n 0); [lia|]. destruct (Z.ltb_spec (total_inodes m) n); [lia|]. simpl.
  by rewrite u32_small by lia.
Qed.

Lemma read_inode_ok hs c s n : Vol hs c s -> inode_valid m n ->
  wp (read_inode stack junk n) (fun s' r => r = Some (inode_at m L c n) /\ Vol hs c s') s.
Proof.
  intros HV Hn. unfold read_inode. apply wp_get. rewrite (vol_m _ _ _ HV), inode_group_and_offset_ok by done.
  wp_call read_group_desc_ok; [done|by apply (inode_group_range _ L)|].
  intros s1 r [-> HV1]. rewrite (inode_place_ok _ _ _ n HV Hn).
  wp_call vol_read; [done|by apply (inode_block_ok _ _ _ HL)|].
  intros s2 r [-> HV2]. rewrite (geo_bs _ (vol_geo _ _ _ HV)).
  pose proof (inode_offset_range _ _ n HL). destruct (Z.ltb_spec 1024 (inode_offset_of m n + 128)); [lia|].
  by apply wp_ret.
Qed.

Lemma take_splice o v b rest : length b = 1024%nat -> 0 <= o -> o + Z.of_nat (length v) <= 1024 ->
  take 1024 (splice o v (b ++ rest)) = splice o v b.
Proof.
  intros Hb Ho Hv. unfold splice. rewrite (take_app_le b) by lia.
  rewrite (drop_app_le b) by lia. rewrite !app_assoc.
  rewrite take_app_length'; [done|]. rewrite !length_app, length_take, length_drop. lia.
Qed.

(** Writing an inode replaces its 128 bytes. *)
Lemma write_inode_ok hs c s n i : Vol hs c s -> inode_valid m n -> inode_wf i -> Forall is_byte junk ->
  wp (write_inode stack junk n i)
     (fun s' r => r = true /\
        Vol hs (set_block c (inode_block_of m L n)
                  (splice (inode_offset_of m n) (inode_bytes i) (c (inode_block_of m L n)))) s') s.
Proof.
  intros HV Hn Hi Hjunk. unfold write_inode. apply wp_get.
  rewrite (vol_m _ _ _ HV), inode_group_and_offset_ok by done.
  wp_call read_group_desc_ok; [done|by apply (inode_group_range _ L)|].
  intros s1 r [-> HV1]. rewrite (geo_bs _ (vol_geo _ _ _ HV)). change (4096 <? 1024) with false. cbv iota.
  rewrite (inode_place_ok _ _ _ n HV Hn).
  wp_call vol_read; [done|by apply (inode_block_ok _ _ _ HL)|].
  intros s2 r [-> HV2].
  destruct (vol_is_block _ _ _ _ HV (inode_block_ok _ _ n HL Hn)) as [Hbl Hbb].
  pose proof (inode_offset_range _ _ n HL) as [Ho1 Ho2]. pose proof (inode_bytes_length i Hi) as Hil.
  rewrite <- (take_splice (inode_offset_of m n) (inode_bytes i) (c (inode_block_of m L n)) junk Hbl Ho1)
    by (rewrite Hil; lia).
  assert (fits (inode_offset_of m n) (inode_bytes i) (c (inode_block_of m L n) ++ junk)) as Hfit.
  { split; [done|]. rewrite length_app, Hbl, Hil. lia. }
  apply (vol_write_meta _ _ _ (MTable _ _)); [done|by apply (inode_table_valid _ L)|done| |].
  - rewrite splice_length by done. rewrite length_app. lia.
  - apply Forall_splice; [by apply inode_bytes_byte|by apply Forall_app].
Qed.

(** The inode table after the write. *)
Lemma inode_at_write c n i n' : inode_valid m n -> inode_valid m n' -> inode_wf i ->
  is_block (c (inode_block_of m L n)) ->
  inode_at m L (set_block c (inode_block_of m L n)
                  (splice (inode_offset_of m n) (inode_bytes i) (c (inode_block_of m L n)))) n' =
  if n =? n' then i else inode_at m L c n'.
Proof.
  intros Hn Hn' Hi [Hbl Hbb]. pose proof (inode_offset_range _ _ n HL) as [Ho1 Ho2].
  pose proof (inode_offset_range _ _ n' HL) as [Ho1' Ho2']. pose proof (inode_bytes_length i Hi) as Hil.
  assert (fits (inode_offset_of m n) (inode_bytes i) (c (inode_block_of m L n))) as Hfit.
  { split; [done|]. rewrite Hbl, Hil. lia. }
  unfold inode_at, set_block. destruct (Z.eqb_spec n n') as [<-|Hne].
  - rewrite Z.eqb_refl. replace 128 with (Z.of_nat (length (inode_bytes i))) by (rewrite Hil; done).
    rewrite slice_splice_same by done. by apply inode_of_bytes_bytes.
  - destruct (Z.eqb_spec (inode_block_of m L n') (inode_block_of m L n)) as [He|]; [|done].
    rewrite slice_splice_other; [by rewrite He|done|lia|lia|].
    rewrite Hil. destruct (inode_places_disjoint _ _ n n' HL Hn Hn' Hne (eq_sym He)); lia.
Qed.
End Inodes.
