(* ===== verification/Ext2Demo.v ===== *)
(** * A small ext2 volume

    A disk in memory with one block group, a root directory and one file, used to
    run the driver on concrete data: blocks 1 to 6 are the superblock, the
    descriptors, the two bitmaps, the inode table and the root directory, blocks 7
    and 8 belong to the file. *)
From S2P Require Import Prelude BlockDev Bytes VfsDefs Ext2 Ext2Dir Ext2Ops Ext2Vol Ext2Inodes.

Definition pad (b : list Z) : list Z := b ++ replicate (1024 - length b) 0.

Definition demo_super : list Z :=
  le_bytes 4 8 ++ le_bytes 4 32 ++ replicate 12 0 ++ le_bytes 4 1 ++ le_bytes 4 0 ++ replicate 4 0
  ++ le_bytes 4 64 ++ replicate 4 0 ++ le_bytes 4 8 ++ replicate 12 0 ++ le_bytes 2 EXT2_SUPERBLOCK_MAGIC
  ++ replicate 18 0 ++ le_bytes 4 1 ++ replicate 4 0 ++ le_bytes 4 11 ++ le_bytes 2 128.

Definition demo_root : Ext2Inode :=
  (new_inode 0x41ED 1024 2 2) <| i_block := 6 :: replicate 14 0 |>.
Definition demo_file : Ext2Inode :=
  (new_inode 0x81A4 1500 1 3) <| i_block := [7; 8] ++ replicate 13 0 |>.

Definition demo_text : list Z := map (fun i => u8 (Z.of_nat i * 7)) (seq 0 1500).

Definition demo_blocks : list (list Z) :=
  [ [];
    demo_super;
    le_bytes 4 3 ++ le_bytes 4 4 ++ le_bytes 4 5;
    [0xFF];
    [0x07];
    replicate 128 0 ++ inode_bytes demo_root ++ inode_bytes demo_file;
    put_entry 24 3 1000 EXT2_FT_REG_FILE [97]
      (put_entry 12 2 12 EXT2_FT_DIR [46; 46] (put_entry 0 2 12 EXT2_FT_DIR [46] (replicate 1024 0)));
    take 1024 demo_text;
    drop 1024 demo_text ].

Definition disk_of_blocks (blocks : list (list Z)) : MemDisk :=
  {| md_data := list_to_map (concat (imap (fun i b =>
       [(2 * Z.of_nat i, words_of_bytes (take 512 (pad b)));
        (2 * Z.of_nat i + 1, words_of_bytes (drop 512 (pad b)))]) blocks));
     md_bad := ∅ |}.

Definition demo_disk : MemDisk := Eval vm_compute in disk_of_blocks demo_blocks.

Definition demo_m : Ext2MountState :=
  {| mounted := 1; partition_lba := 0; block_size := 1024; sectors_per_block := 2; inodes_per_group := 8;
     blocks_per_group := 64; inode_size := 128; inode_table_block := 5; block_bitmap_block := 3;
     inode_bitmap_block := 4; group_desc_block := 2; group_desc_count := 1; total_inodes := 8;
     total_blocks := 32; sb := {| sb_inode_count := 8; sb_block_count := 32; sb_first_data_block := 1;
       sb_log_block_size := 0; sb_blocks_per_group := 64; sb_inodes_per_group := 8;
       sb_magic := EXT2_SUPERBLOCK_MAGIC; sb_rev_level := 1; sb_first_ino := 11; sb_inode_size := 128 |} |}.

Definition demo_handles : list Ext2Handle := replicate 256 no_handle.

Definition demo_state : Ext2 (D := MemDisk) :=
  {| ext2_state := demo_m; ext2_handles := demo_handles; ext2_dev := demo_disk |}.

Definition demo_junk : list Z := replicate 3072 0xCC.

(** Mounting the disk gives this state. *)
Lemma demo_mount :
  ext2_mount_from_lba zero_sector 0
    {| ext2_state := no_mount; ext2_handles := []; ext2_dev := demo_disk |} = (demo_state, true).
Proof. vm_compute. reflexivity. Qed.

Definition demo_L : Z -> Ext2GroupDesc := fun _ =>
  {| gd_block_bitmap := 3; gd_inode_bitmap := 4; gd_inode_table := 5; gd_free_blocks_count := 0;
     gd_free_inodes_count := 0; gd_used_dirs_count := 0 |}.

Definition demo_vol : volume := block_content demo_m demo_disk.

Lemma demo_disk_wf : md_wf demo_disk.
Proof. apply map_Forall_to_list, Forall_forall. vm_compute. intuition (subst; done). Qed.

(** The metadata of the volume: one block of each kind. *)
Lemma demo_meta x : meta_valid demo_m x ->
  match x with
  | MDesc k => k = 0 | MInodeBitmap g | MBlockBitmap g => g = 0 | MTable g k => g = 0 /\ k = 0
  end.
Proof.
  destruct x as [k|g|g|g k]; unfold meta_valid, table_blocks; cbn [group_desc_count inodes_per_group inode_size demo_m].
  - intros (g & Hg & ->). assert (g = 0) as -> by lia. done.
  - lia.
  - lia.
  - change ((8 * 128 + 1023) / 1024) with 1. lia.
Qed.

Lemma demo_layout : layout demo_m demo_L.
Proof.
  split; cbn -[Z.pow Z.divide]; try lia.
  - split; [lia|]. exists 8. done.
  - intros x Hx. apply demo_meta in Hx. unfold block_ok. destruct x; simpl in *; destruct_and?; subst; simpl; lia.
  - intros x y Hx Hy. apply demo_meta in Hx. apply demo_meta in Hy.
    destruct x, y; simpl in *; destruct_and?; subst; simpl; try done; lia.
Qed.

(** The volume with any handle table. *)
Definition demo_with (hs : list Ext2Handle) : Ext2 (D := MemDisk) :=
  {| ext2_state := demo_m; ext2_handles := hs; ext2_dev := demo_disk |}.

Lemma demo_Vol_with hs : Vol demo_m demo_L hs demo_vol (demo_with hs).
Proof.
  split; [split; try done|].
  - apply demo_disk_wf.
  - intros g Hg. simpl in Hg. assert (g = 0) as -> by lia. vm_compute. reflexivity.
Qed.

Lemma demo_Vol : Vol demo_m demo_L demo_handles demo_vol demo_state.
Proof. apply (demo_Vol_with demo_handles). Qed.

Lemma demo_data_block b : b = 1 \/ 6 <= b < 1000 -> data_block demo_m demo_L b.
Proof.
  intros Hb. split; [unfold block_ok; simpl; lia|]. intros x Hx. apply demo_meta in Hx.
  destruct x; simpl in *; destruct_and?; subst; lia.
Qed.

(** ** Runs of the driver *)

Definition inode_of (n : Z) (s : Ext2 (D := MemDisk)) : option Ext2Inode :=
  snd (read_inode zero_sector demo_junk n s).

(** Truncating the file of 1500 bytes to 1000 keeps the size but drops every
    block, the one that holds the first 1000 bytes too. *)
Lemma truncate_drops_kept_blocks :
  let s1 := fst (ext2_truncate_inode zero_sector demo_junk 3 1000 demo_state) in
  inode_of 3 s1 = Some (new_inode 0x81A4 1000 1 0).
Proof. vm_compute. reflexivity. Qed.

(** A root directory without room: four names of 248 characters. *)
Definition full_root : list Z :=
  let e (off c : Z) := put_entry off 3 256 EXT2_FT_REG_FILE (replicate 248 c) in
  e 768 100 (e 512 99 (e 256 98 (e 0 97 (replicate 1024 0)))).

Definition full_state : Ext2 (D := MemDisk) :=
  {| ext2_state := demo_m; ext2_handles := demo_handles;
     ext2_dev := disk_of_blocks (<[6%nat := full_root]> demo_blocks) |}.

(** A directory made in it goes to a new block of the root; the write of the
    parent's link count then puts back the inode from before, and the new block is
    lost: the call succeeds and the directory cannot be found. *)
Lemma mkdir_loses_entry :
  let '(s1, rc) := ext2_mkdir zero_sector demo_junk [47; 100] 0 full_state in
  rc = VFS_OK /\ (i_size <$> inode_of 2 s1) = Some 1024 /\
  snd (dir_lookup zero_sector demo_junk 2 [100] s1) = None.
Proof. vm_compute. auto. Qed.

(** A link to a name that exists makes a second entry of the name. *)
Lemma link_duplicates_name :
  let s1 := fst (ext2_mkdir zero_sector demo_junk [47; 98] 0 demo_state) in
  snd (ext2_link zero_sector demo_junk [47; 97] [47; 98] s1) = VFS_OK.
Proof. vm_compute. reflexivity. Qed.

(** Deleting one of two names of a file frees the inode the other still names. *)
Lemma delete_ignores_links :
  let s1 := fst (ext2_link zero_sector demo_junk [47; 97] [47; 98] demo_state) in
  let '(s2, rc) := ext2_delete zero_sector demo_junk [47; 97] s1 in
  rc = VFS_OK /\ snd (dir_lookup zero_sector demo_junk 2 [98] s2) = Some 3 /\
  snd (alloc_inode zero_sector s2) = 3.
Proof. vm_compute. auto. Qed.

(** [readlink] of a regular file is not refused: it returns bytes of the file. *)
Lemma readlink_regular_file :
  snd (ext2_readlink zero_sector demo_junk [47; 97] 4 demo_state) = (4, take 4 demo_text).
Proof. vm_compute. reflexivity. Qed.

(** ** The inode table *)

Section Table.
Context {D : Type} `{WD : WorkingDev D} (stack junk : list Z) (Hstack : is_sector stack).
Context (Hjunk : Forall is_byte junk).
Context (m : Ext2MountState) (L : Z -> Ext2GroupDesc) (HL : layout m L).

(** C35: On a well-formed volume over a working device, [write_inode] succeeds for
    every valid inode number; afterwards [read_inode] returns for that number
    exactly the inode written and for every other number the inode it returned
    before, and no block outside the inode tables has changed. *)
Theorem write_read_inode hs c (s : Ext2) n i :
  Vol m L hs c s -> inode_valid m n -> inode_wf i ->
  exists s1 c1, write_inode stack junk n i s = (s1, true) /\ Vol m L hs c1 s1 /\
    (forall b, (forall n', inode_valid m n' -> inode_block_of m L n' <> b) -> c1 b = c b) /\
    forall n', inode_valid m n' -> exists s0 s2 old,
      read_inode stack junk n' s = (s0, Some old) /\
      read_inode stack junk n' s1 = (s2, Some (if n =? n' then i else old)).
Proof.
  intros HV Hn Hi.
  destruct (wp_run _ _ _ (write_inode_ok stack junk Hstack m L HL hs c s n i HV Hn Hi Hjunk))
    as (s1 & r & Hw & -> & HV1).
  eexists s1, _. split; [exact Hw|]. split; [exact HV1|]. split.
  - intros b Hb. unfold set_block. destruct (Z.eqb_spec b (inode_block_of m L n)) as [->|]; [|done].
    by destruct (Hb n Hn).
  - intros n' Hn'.
    destruct (wp_run _ _ _ (read_inode_ok stack junk Hstack m L HL hs c s n' HV Hn')) as (s0 & r0 & Hr0 & -> & _).
    destruct (wp_run _ _ _ (read_inode_ok stack junk Hstack m L HL _ _ s1 n' HV1 Hn')) as (s2 & r2 & Hr2 & -> & _).
    exists s0, s2, (inode_at m L c n'). split; [done|]. rewrite Hr2.
    rewrite inode_at_write; try done. by apply (vol_is_block _ _ _ _ _ _ HV), inode_block_ok.
Qed.
End Table.

Lemma demo_file_wf : inode_wf demo_file.
Proof. split; simpl; unfold is_u16, is_u32, is_byte; try lia; split; try done; repeat constructor; lia. Qed.

Lemma write_read_inode_witness :
  inode_at demo_m demo_L demo_vol 2 = demo_root /\
  exists s1 c1, write_inode zero_sector demo_junk 5 demo_file demo_state = (s1, true) /\
    Vol demo_m demo_L demo_handles c1 s1 /\
    (forall b, (forall n', inode_valid demo_m n' -> inode_block_of demo_m demo_L n' <> b) -> c1 b = demo_vol b) /\
    forall n', inode_valid demo_m n' -> exists s0 s2 old,
      read_inode zero_sector demo_junk n' demo_state = (s0, Some old) /\
      read_inode zero_sector demo_junk n' s1 = (s2, Some (if 5 =? n' then demo_file else old)).
Proof.
  split; [vm_compute; reflexivity|].
  apply (write_read_inode zero_sector demo_junk zero_sector_ok ltac:(by apply Forall_replicate)
    demo_m demo_L demo_layout demo_handles demo_vol demo_state 5 demo_file demo_Vol
    ltac:(unfold inode_valid; simpl; lia) demo_file_wf).
Defined.
