(* ===== verification/Ext2Alloc.v ===== *)
(** * The ext2 driver: the allocation bitmaps

    The two allocators hand out the lowest free number and mark it used, and the
    two releases clear one mark. *)
From S2P Require Import Prelude BlockDev Bytes Ext2 Ext2Vol Ext2Inodes Ext2Demo.

(** ** Bits *)

Lemma bit_test_ok bm i : 0 <= i < 8 * Z.of_nat (length bm) -> bit_test bm i = bm_bit bm i.
Proof.
  intros Hi. destruct (bm_lookup bm i Hi) as [b Hb]. unfold bit_test, bm_bit.
  rewrite (list_lookup_total_correct _ _ _ Hb), Hb.
  pose proof (Z.mod_pos_bound i 8 ltac:(lia)). rewrite u8_small; [apply land_one_bit; lia|].
  rewrite Z.shiftl_1_l. split; [lia|]. apply (Z.pow_lt_mono_r 2 (i mod 8) 8); lia.
Qed.

Lemma u8_idem_land b x : u8 (Z.land b (u8 x)) = u8 (Z.land b x).
Proof.
  apply Z.bits_inj'. intros n Hn. rewrite !u8_testbit, !Z.land_spec, u8_testbit by done.
  by destruct (n <? 8), (Z.testbit b n).
Qed.

Lemma bit_set_ok bm i v : 0 <= i < 8 * Z.of_nat (length bm) ->
  length (bit_set bm i v) = length bm /\
  forall j, 0 <= j -> bm_bit (bit_set bm i v) j = bm_upd (bm_bit bm) i v j.
Proof.
  intros Hi. destruct (bm_lookup bm i Hi) as [b Hb]. pose proof (Z.mod_pos_bound i 8 ltac:(lia)).
  assert (u8 (Z.shiftl 1 (i mod 8)) = Z.shiftl 1 (i mod 8)) as Hm.
  { apply u8_small. rewrite Z.shiftl_1_l. split; [lia|]. apply (Z.pow_lt_mono_r 2 (i mod 8) 8); lia. }
  unfold bit_set. rewrite (list_lookup_total_correct _ _ _ Hb), Hm. split; [apply length_insert|].
  intros j Hj. apply bm_store_bit with b; [done|done| |done].
  intros k Hk. destruct v.
  - change (u8 (Z.lor b (Z.shiftl 1 (i mod 8)))) with (byte_set b (i mod 8)).
    rewrite byte_set_testbit by lia. by destruct (i mod 8 =? k).
  - rewrite u8_idem_land. change (u8 (Z.land b (Z.lnot (Z.shiftl 1 (i mod 8))))) with (byte_clear b (i mod 8)).
    rewrite byte_clear_testbit by lia. by destruct (i mod 8 =? k).
Qed.

Lemma bit_set_byte bm i v : Forall is_byte bm -> Forall is_byte (bit_set bm i v).
Proof.
  intros Hb. unfold bit_set. apply Forall_insert; [done|]. destruct v; apply u8_range.
Qed.

(** The scan of one bitmap. *)
Lemma first_free_ok bm base limit : length bm = 1024%nat -> 0 <= base ->
  forall n bit, (bit + n <= 8 * 1024)%nat -> base + Z.of_nat (bit + n) < 2 ^ 32 ->
  match first_free bm base limit bit n with
  | Some k => (bit <= k < bit + n)%nat /\ base + Z.of_nat k < limit /\ bm_bit bm (Z.of_nat k) = false /\
              forall j, (bit <= j < k)%nat -> bm_bit bm (Z.of_nat j) = true
  | None => forall j, (bit <= j < bit + n)%nat -> base + Z.of_nat j < limit -> bm_bit bm (Z.of_nat j) = true
  end.
Proof.
  intros Hl Hb. induction n as [|n IH]; intros bit Hn Hw; cbn [first_free].
  - intros j Hj. lia.
  - rewrite u32_small by lia. destruct (Z.leb_spec limit (base + Z.of_nat bit)) as [Hlim|Hlim].
    + intros j Hj Hj'. lia.
    + rewrite bit_test_ok by lia. destruct (bm_bit bm (Z.of_nat bit)) eqn:E.
      * specialize (IH (S bit) ltac:(lia) ltac:(lia)).
        destruct (first_free bm base limit (S bit) n) as [k|].
        -- destruct IH as (Hk & H1 & H2 & H3). split_and!; [lia|lia|done|done|].
           intros j Hj. destruct (decide (j = bit)) as [->|]; [done|]. apply H3. lia.
        -- intros j Hj Hlim'. destruct (decide (j = bit)) as [->|]; [done|]. apply IH; [lia|done].
      * split_and!; [lia|lia|done|done|]. intros j Hj. lia.
Qed.

(** ** The two bitmaps *)

Section Bitmaps.
Context (m : Ext2MountState) (L : Z -> Ext2GroupDesc).

(** A family of bitmaps: the bitmap of a group, the numbers per group and the
    first number. *)
Record bitmaps := { bm_meta : Z -> meta; bm_per : Z; bm_first : Z }.

Definition inode_bitmaps : bitmaps :=
  {| bm_meta := MInodeBitmap; bm_per := inodes_per_group m; bm_first := 1 |}.
Definition block_bitmaps : bitmaps :=
  {| bm_meta := MBlockBitmap; bm_per := blocks_per_group m; bm_first := sb_first_data_block (sb m) |}.

Context (k : bitmaps).

Definition bm_group (x : Z) : Z := (x - bm_first k) / bm_per k.
Definition bm_index (x : Z) : Z := (x - bm_first k) mod bm_per k.
Definition bm_place (x : Z) : Z := meta_place m L (bm_meta k (bm_group x)).

(** Number [x] is marked used; the volume with its mark changed. *)
Definition used (c : volume) (x : Z) : bool := bm_bit (c (bm_place x)) (bm_index x).
Definition mark (c : volume) (x : Z) (v : bool) : volume :=
  set_block c (bm_place x) (bit_set (c (bm_place x)) (bm_index x) v).

(** The numbers the bitmaps have bits for. *)
Definition in_range (x : Z) : Prop :=
  bm_first k <= x < bm_first k + bm_per k * group_desc_count m.

Record bitmaps_ok : Prop := {
  bk_per : 0 < bm_per k <= 8192;
  bk_first : 0 <= bm_first k;
  bk_max : bm_first k + bm_per k * group_desc_count m < 2 ^ 31;
  bk_valid g : 0 <= g < group_desc_count m -> meta_valid m (bm_meta k g);
  bk_inj g g' : bm_meta k g = bm_meta k g' -> g = g';
  bk_desc g j : bm_meta k g <> MDesc j
}.

Lemma bm_split g i : 0 < bm_per k -> 0 <= i < bm_per k ->
  bm_group (bm_first k + bm_per k * g + i) = g /\ bm_index (bm_first k + bm_per k * g + i) = i.
Proof.
  intros Hp Hi. unfold bm_group, bm_index.
  replace (bm_first k + bm_per k * g + i - bm_first k) with (i + g * bm_per k) by lia.
  rewrite Z.div_add, Z.mod_add, Z.div_small, Z.mod_small by lia. lia.
Qed.

Lemma bm_in_range x : bitmaps_ok -> in_range x ->
  0 <= bm_group x < group_desc_count m /\ 0 <= bm_index x < bm_per k.
Proof.
  intros Hk Hx. pose proof (bk_per Hk) as Hp. unfold in_range in Hx. unfold bm_group, bm_index. split.
  - split; [apply Z.div_pos; lia|]. apply Z.div_lt_upper_bound; lia.
  - apply Z.mod_pos_bound. lia.
Qed.

Lemma bm_join x : 0 < bm_per k -> x = bm_first k + bm_per k * bm_group x + bm_index x.
Proof.
  intros. unfold bm_group, bm_index. pose proof (Z_div_mod_eq_full (x - bm_first k) (bm_per k)). lia.
Qed.

(** Marks of other numbers do not change. *)
Lemma used_mark c x y v : layout m L -> bitmaps_ok -> in_range x -> in_range y -> is_block (c (bm_place x)) ->
  used (mark c x v) y = if x =? y then v else used c y.
Proof.
  intros HL Hk Hx Hy [Hbl _].
  destruct (bm_in_range x Hk Hx) as [Hgx Hix]. destruct (bm_in_range y Hk Hy) as [Hgy Hiy].
  pose proof (bk_per Hk). unfold used, mark, set_block.
  destruct (Z.eqb_spec (bm_place y) (bm_place x)) as [He|Hne].
  - assert (bm_group y = bm_group x) as Hg.
    { apply (bk_inj Hk). apply (lay_inj _ _ HL); [by apply (bk_valid Hk)..|done]. }
    destruct (bit_set_ok (c (bm_place x)) (bm_index x) v) as [_ Hbit]; [lia|].
    rewrite Hbit by lia. unfold bm_upd. rewrite He.
    pose proof (bm_join x ltac:(lia)) as Jx. pose proof (bm_join y ltac:(lia)) as Jy. rewrite Hg in Jy.
    destruct (Z.eqb_spec x y) as [<-|Hxy]; [by rewrite Z.eqb_refl|].
    destruct (Z.eqb_spec (bm_index x) (bm_index y)) as [Hi|]; [lia|done].
  - destruct (Z.eqb_spec x y) as [<-|Hxy]; [done|done].
Qed.

End Bitmaps.

Arguments used : simpl never.
Arguments mark : simpl never.

Lemma inode_bitmaps_ok m L : layout m L -> bitmaps_ok m (inode_bitmaps m).
Proof.
  intros HL. pose proof (lay_ipg _ _ HL). pose proof (lay_inode_max _ _ HL).
  split; simpl; try done; try lia. intros g g' [=]. done.
Qed.

Lemma block_bitmaps_ok m L : layout m L -> bitmaps_ok m (block_bitmaps m).
Proof.
  intros HL. pose proof (lay_bpg _ _ HL). pose proof (lay_block_max _ _ HL). pose proof (lay_first _ _ HL).
  split; simpl; try done; try lia. intros g g' [=]. done.
Qed.

(** ** Allocation *)

Section Alloc.
Context {D : Type} `{WD : WorkingDev D} (stack : list Z) (Hstack : is_sector stack).
Context (m : Ext2MountState) (L : Z -> Ext2GroupDesc) (HL : layout m L).
Context (k : bitmaps) (Hk : bitmaps_ok m k) (limit : Z) (Hlim : limit < 2 ^ 32).
Context (which : Ext2GroupDesc -> Z) (base : Z -> Z).
Context (Hwhich : forall g, which (L g) = meta_place m L (bm_meta k g)).
Context (Hbase : forall g, 0 <= g < group_desc_count m -> base g = bm_first k + bm_per k * g).

Abbreviation Vol := (Vol m L).
Abbreviation used := (used m L k).
Abbreviation mark := (mark m L k).

(** The outcome of an allocation from the numbers from [lo] on: the lowest free
    number, now marked, or -1 when every number below the limit is used. *)
Definition alloc_post (lo : Z) hs c (s' : Ext2) (r : Z) : Prop :=
  (lo <= r < limit /\ in_range m k r /\ used c r = false /\
   (forall x, lo <= x < r -> used c x = true) /\ Vol hs (mark c r true) s') \/
  (r = -1 /\ Vol hs c s' /\ forall x, lo <= x < limit -> in_range m k x -> used c x = true).

Lemma used_in_group c g i : 0 <= i < bm_per k ->
  used c (bm_first k + bm_per k * g + i) = bm_bit (c (meta_place m L (bm_meta k g))) i.
Proof.
  intros Hi. pose proof (bk_per _ _ Hk). destruct (bm_split k g i ltac:(lia) Hi) as [Hg Hi'].
  unfold Ext2Alloc.used, bm_place. by rewrite Hg, Hi'.
Qed.

Lemma alloc_groups_ok : forall n g hs c s, Vol hs c s -> Z.of_nat (g + n) = group_desc_count m ->
  wp (alloc_groups stack which base limit (bm_per k) g n)
     (alloc_post (bm_first k + bm_per k * Z.of_nat g) hs c) s.
Proof.
  pose proof (bk_per _ _ Hk). pose proof (bk_first _ _ Hk). pose proof (bk_max _ _ Hk).
  induction n as [|n IH]; intros g hs c s HV Hn; cbn [alloc_groups].
  - apply wp_ret. right. split_and!; [done|done|]. intros x Hx [_ Hx']. nia.
  - assert (0 <= Z.of_nat g < group_desc_count m) as Hg by lia.
    wp_call read_group_desc_ok; [done..|]. intros s1 r [-> HV1].
    rewrite Hwhich. pose proof (bk_valid _ _ Hk _ Hg) as Hmv.
    wp_call vol_read; [done|done|by apply (lay_place _ _ HL)|]. intros s2 r [-> HV2].
    destruct (vol_is_block _ _ _ _ _ _ HV (lay_place _ _ HL _ Hmv)) as [Hbl Hbb].
    rewrite Hbase by done.
    pose proof (first_free_ok (c (meta_place m L (bm_meta k (Z.of_nat g)))) (bm_first k + bm_per k * Z.of_nat g)
      limit Hbl ltac:(nia) (Z.to_nat (bm_per k)) 0 ltac:(lia) ltac:(nia)) as Hff.
    destruct (first_free _ _ _ _ _) as [bit|].
    + destruct Hff as (Hb1 & Hb2 & Hb3 & Hb4).
      destruct (bm_split k (Z.of_nat g) (Z.of_nat bit) ltac:(lia) ltac:(lia)) as [Sg Si].
      destruct (bit_set_ok (c (meta_place m L (bm_meta k (Z.of_nat g)))) (Z.of_nat bit) true) as [Hbsl _]; [lia|].
      wp_call vol_write_meta; [done..|by apply (bk_desc _ _ Hk)|by rewrite Hbsl, Hbl|by apply bit_set_byte|].
      intros s3 r [-> HV3]. apply wp_ret. left. cbv beta iota.
      rewrite u32_small, i32_small by nia.
      split_and!; [lia|lia|unfold in_range; nia|by rewrite used_in_group by lia| |].
      * intros x Hx. replace x with (bm_first k + bm_per k * Z.of_nat g + Z.of_nat (Z.to_nat (x - (bm_first k + bm_per k * Z.of_nat g)))) by lia.
        rewrite used_in_group by lia. apply Hb4. lia.
      * unfold Ext2Alloc.mark, bm_place. rewrite Sg, Si. rewrite take_ge in HV3 by (rewrite Hbsl, Hbl; lia). done.
    + eapply wp_mono; [apply (IH (S g) hs c s2 HV2); lia|]. intros s3 r.
      assert (forall x, bm_first k + bm_per k * Z.of_nat g <= x < bm_first k + bm_per k * Z.of_nat (S g) ->
        x < limit -> used c x = true) as Hhere.
      { intros x Hx Hxl. replace x with (bm_first k + bm_per k * Z.of_nat g + Z.of_nat (Z.to_nat (x - (bm_first k + bm_per k * Z.of_nat g)))) by lia.
        rewrite used_in_group by lia. apply Hff; lia. }
      assert (bm_per k * Z.of_nat (S g) = bm_per k * Z.of_nat g + bm_per k) as Hsg by lia.
      intros [(H1' & H2' & H3' & H4' & H5')|(H1' & H2' & H3')].
      * left. split_and!; [lia|lia|done|done| |done].
        intros x Hx. destruct (decide (x < bm_first k + bm_per k * Z.of_nat (S g))); [apply Hhere; lia|].
        apply H4'. lia.
      * right. split_and!; [done|done|]. intros x Hx Hr.
        destruct (decide (x < bm_first k + bm_per k * Z.of_nat (S g))); [apply Hhere; lia|].
        apply H3'; [lia|done].
Qed.
End Alloc.

Section Calls.
Context {D : Type} `{WD : WorkingDev D} (stack : list Z) (Hstack : is_sector stack).
Context (m : Ext2MountState) (L : Z -> Ext2GroupDesc) (HL : layout m L).

Abbreviation Vol := (Vol m L).
Abbreviation inodes := (inode_bitmaps m).
Abbreviation blocks := (block_bitmaps m).

Lemma group_base k g : bitmaps_ok m k -> 0 <= g < group_desc_count m ->
  0 <= g * bm_per k /\ g * bm_per k < 2 ^ 31 /\ bm_first k + g * bm_per k < 2 ^ 31.
Proof.
  intros Hk Hg. pose proof (bk_per _ _ Hk). pose proof (bk_max _ _ Hk). pose proof (bk_first _ _ Hk).
  assert (g * bm_per k <= bm_per k * group_desc_count m) by (rewrite Z.mul_comm; apply Z.mul_le_mono_nonneg_l; lia).
  lia.
Qed.

Lemma alloc_inode_ok hs c s : Vol hs c s ->
  wp (alloc_inode stack) (alloc_post m L inodes (total_inodes m + 1) 1 hs c) s.
Proof.
  intros HV. unfold alloc_inode. apply wp_get. rewrite (vol_m _ _ _ _ _ HV).
  pose proof (lay_inode_max _ _ HL). pose proof (lay_inodes _ _ HL). pose proof (lay_ipg _ _ HL).
  eapply wp_mono.
  - apply (alloc_groups_ok stack Hstack m L HL inodes (inode_bitmaps_ok _ _ HL) (total_inodes m + 1));
      [lia|done| |done|lia].
    intros g Hg. destruct (group_base inodes g (inode_bitmaps_ok _ _ HL) Hg) as [? [? ?]]. simpl in *.
    rewrite (u32_small (g * _)) by lia. rewrite u32_small by lia. lia.
  - simpl. intros s' r. by rewrite Z.mul_0_r, Z.add_0_r.
Qed.

Lemma alloc_block_ok hs c s : Vol hs c s -> total_blocks m < 2 ^ 32 ->
  wp (alloc_block stack) (alloc_post m L blocks (total_blocks m) (sb_first_data_block (sb m)) hs c) s.
Proof.
  intros HV Ht. unfold alloc_block. apply wp_get. rewrite (vol_m _ _ _ _ _ HV).
  pose proof (lay_block_max _ _ HL). pose proof (lay_first _ _ HL). pose proof (lay_bpg _ _ HL).
  pose proof (lay_groups _ _ HL).
  eapply wp_mono.
  - apply (alloc_groups_ok stack Hstack m L HL blocks (block_bitmaps_ok _ _ HL) (total_blocks m));
      [done|done| |done|lia].
    intros g Hg. destruct (group_base blocks g (block_bitmaps_ok _ _ HL) Hg) as [? [? ?]]. simpl in *.
    rewrite (u32_small (g * _)) by lia. rewrite u32_small by lia. lia.
  - simpl. intros s' r. by rewrite Z.mul_0_r, Z.add_0_r.
Qed.

(** Clearing one mark: the shared end of the two releases. *)
Lemma clear_mark_ok k hs c s x : bitmaps_ok m k -> Vol hs c s -> in_range m k x ->
  wp (_ ← write_block (bm_place m L k x) (bit_set (c (bm_place m L k x)) (bm_index k x) false); mret tt)
     (fun s' _ => Vol hs (mark m L k c x false) s') s.
Proof.
  intros Hk HV Hx. destruct (bm_in_range m k x Hk Hx) as [Hg Hi]. pose proof (bk_per _ _ Hk).
  pose proof (bk_valid _ _ Hk _ Hg) as Hmv.
  destruct (vol_is_block _ _ _ _ _ _ HV (lay_place _ _ HL _ Hmv)) as [Hbl Hbb].
  change (meta_place m L (bm_meta k (bm_group k x))) with (bm_place m L k x) in *.
  destruct (bit_set_ok (c (bm_place m L k x)) (bm_index k x) false) as [Hbsl _]; [lia|].
  wp_call (vol_write_meta m L HL); [done|done|by apply (bk_desc _ _ Hk)|by rewrite Hbsl, Hbl|by apply bit_set_byte|].
  intros s' r [-> HV']. apply wp_ret. rewrite take_ge in HV' by (rewrite Hbsl, Hbl; lia). done.
Qed.

Lemma free_inode_ok hs c s n : Vol hs c s -> inode_valid m n ->
  wp (free_inode stack n) (fun s' _ => Vol hs (mark m L inodes c n false) s') s.
Proof.
  intros HV Hn. unfold free_inode. apply wp_get.
  rewrite (vol_m _ _ _ _ _ HV), (inode_group_and_offset_ok _ _ HL) by done.
  pose proof (inode_group_range _ _ n HL Hn) as Hg.
  wp_call read_group_desc_ok; [done..|]. intros s1 r [-> HV1].
  wp_call vol_read; [done|done|by apply (lay_place _ _ HL (MInodeBitmap (inode_group m n)))|]. intros s2 r [-> HV2].
  apply (clear_mark_ok inodes); [by apply (inode_bitmaps_ok _ L)|done|].
  pose proof (lay_inodes _ _ HL). unfold inode_valid, in_range in *. simpl. lia.
Qed.

Lemma free_block_ok hs c s b : Vol hs c s -> is_u32 b ->
  wp (free_block stack b)
     (fun s' _ => Vol hs (if bool_decide (in_range m blocks b) then mark m L blocks c b false else c) s') s.
Proof.
  intros HV Hb. unfold free_block. apply wp_get. rewrite (vol_m _ _ _ _ _ HV).
  pose proof (block_bitmaps_ok _ _ HL) as Hk. pose proof (lay_block_max _ _ HL) as Hmax.
  pose proof (lay_first _ _ HL) as Hf. pose proof (lay_bpg _ _ HL) as Hp. unfold is_u32 in Hb.
  pose proof (lay_groups _ _ HL) as Hgr.
  assert (0 <= blocks_per_group m * group_desc_count m) by (apply Z.mul_nonneg_nonneg; lia).
  case_bool_decide as Hr.
  - destruct (bm_in_range m blocks b Hk Hr) as [Hg Hi]. unfold in_range in Hr. unfold bm_group, bm_index in *.
    simpl in *. rewrite (u32_small (b - _)) by lia.
    destruct (Z.leb_spec (group_desc_count m) ((b - sb_first_data_block (sb m)) / blocks_per_group m)); [lia|].
    wp_call read_group_desc_ok; [done..|]. intros s1 r [-> HV1].
    wp_call vol_read; [done|done|by apply (lay_place _ _ HL (MBlockBitmap _))|]. intros s2 r [-> HV2].
    by apply (clear_mark_ok blocks).
  - unfold in_range in Hr. simpl in Hr.
    assert (group_desc_count m <= (b -u sb_first_data_block (sb m)) / blocks_per_group m) as Hle.
    { apply Z.div_le_lower_bound; [lia|]. unfold u32.
      destruct (decide (sb_first_data_block (sb m) <= b)).
      - rewrite Z.mod_small by lia. lia.
      - rewrite <- (Z.mod_add _ 1) by lia. rewrite Z.mod_small by lia. lia. }
    destruct (Z.leb_spec (group_desc_count m) ((b -u sb_first_data_block (sb m)) / blocks_per_group m)); [|lia].
    by apply wp_ret.
Qed.
End Calls.

(** ** The allocators as sets of numbers *)

Inductive bitmap_op := AllocInode | FreeInode (n : Z) | AllocBlock | FreeBlock (b : Z).

(** The lowest number of [lo, hi) outside a set, or -1. *)
Definition lowest_free (u : Z -> bool) (lo hi : Z) : Z :=
  default (-1) (head (List.filter (fun x => negb (u x)) (seqZ lo (hi - lo)))).

Definition set_add (u : Z -> bool) (x : Z) : Z -> bool := if x <? 0 then u else bm_upd u x true.

Record marks := { m_inodes : Z -> bool; m_blocks : Z -> bool }.

Section Refinement.
Context (m : Ext2MountState) (L : Z -> Ext2GroupDesc).

Definition spec_op (o : bitmap_op) (u : marks) : marks * Z :=
  match o with
  | AllocInode => let r := lowest_free (m_inodes u) 1 (total_inodes m + 1) in
                  ({| m_inodes := set_add (m_inodes u) r; m_blocks := m_blocks u |}, r)
  | AllocBlock => let r := lowest_free (m_blocks u) (sb_first_data_block (sb m)) (total_blocks m) in
                  ({| m_inodes := m_inodes u; m_blocks := set_add (m_blocks u) r |}, r)
  | FreeInode n => ({| m_inodes := bm_upd (m_inodes u) n false; m_blocks := m_blocks u |}, 0)
  | FreeBlock b => ({| m_inodes := m_inodes u; m_blocks := bm_upd (m_blocks u) b false |}, 0)
  end.

Definition marks_of (c : volume) (u : marks) : Prop :=
  (forall n, in_range m (inode_bitmaps m) n -> m_inodes u n = used m L (inode_bitmaps m) c n) /\
  (forall b, in_range m (block_bitmaps m) b -> m_blocks u b = used m L (block_bitmaps m) c b).

Definition op_ok (o : bitmap_op) : Prop :=
  match o with
  | FreeInode n => inode_valid m n
  | FreeBlock b => in_range m (block_bitmaps m) b
  | _ => True
  end.

Lemma no_free u lo n : (forall x, lo <= x < lo + n -> u x = true) ->
  List.filter (fun x => negb (u x)) (seqZ lo n) = [].
Proof.
  intros Hb. assert (Forall (fun x => u x = true) (seqZ lo n)) as Hf.
  { apply Forall_forall. intros x Hx. apply list_elem_of_In, elem_of_seqZ in Hx. apply Hb. lia. }
  induction Hf as [|x l Hx _ IH]; [done|]. simpl. by rewrite Hx.
Qed.

Lemma lowest_free_found u lo hi r : lo <= r < hi -> u r = false -> (forall x, lo <= x < r -> u x = true) ->
  lowest_free u lo hi = r.
Proof.
  intros Hr Hu Hb. unfold lowest_free.
  replace (hi - lo) with ((r - lo) + (hi - r)) by lia. rewrite seqZ_app by lia. rewrite List.filter_app.
  rewrite no_free by (intros; apply Hb; lia).
  rewrite seqZ_cons by lia. simpl. replace (lo + (r - lo)) with r by lia. by rewrite Hu.
Qed.

Lemma lowest_free_none u lo hi : (forall x, lo <= x < hi -> u x = true) -> lowest_free u lo hi = -1.
Proof. intros Hb. unfold lowest_free. by rewrite no_free by (intros; apply Hb; lia). Qed.

(** Marking a number in a bitmap and in the set. *)
Lemma marked_set k c x v (u : Z -> bool) : layout m L -> bitmaps_ok m k -> in_range m k x ->
  is_block (c (bm_place m L k x)) -> (forall y, in_range m k y -> u y = used m L k c y) ->
  forall y, in_range m k y -> bm_upd u x v y = used m L k (mark m L k c x v) y.
Proof.
  intros HL Hk Hx Hb Hu y Hy. rewrite used_mark by done. unfold bm_upd. destruct (x =? y); [done|by apply Hu].
Qed.

(** Marks of the other family do not change. *)
Lemma used_mark_other k k' c x v y : layout m L -> bitmaps_ok m k -> bitmaps_ok m k' ->
  (forall g g', bm_meta k g <> bm_meta k' g') -> in_range m k x -> in_range m k' y ->
  used m L k' (mark m L k c x v) y = used m L k' c y.
Proof.
  intros HL Hk Hk' Hne Hx Hy. unfold used, mark, set_block.
  destruct (Z.eqb_spec (bm_place m L k' y) (bm_place m L k x)) as [He|]; [|done].
  exfalso. apply (Hne (bm_group k x) (bm_group k' y)). symmetry.
  apply (lay_inj _ _ HL); [apply (bk_valid _ _ Hk')|apply (bk_valid _ _ Hk)|done];
    by apply (bm_in_range m).
Qed.
End Refinement.

Section Run.
Context {D : Type} `{WD : WorkingDev D} (stack : list Z) (Hstack : is_sector stack).
Context (m : Ext2MountState) (L : Z -> Ext2GroupDesc) (HL : layout m L).
Context (Htotal : total_blocks m <= sb_first_data_block (sb m) + blocks_per_group m * group_desc_count m).

Definition run_op (o : bitmap_op) : ST (Ext2 (D := D)) Z :=
  match o with
  | AllocInode => alloc_inode stack
  | FreeInode n => _ ← free_inode stack n; mret 0
  | AllocBlock => alloc_block stack
  | FreeBlock b => _ ← free_block stack b; mret 0
  end.

(** Blocks that hold neither bitmap. *)
Definition no_bitmap (b : Z) : Prop :=
  forall g, 0 <= g < group_desc_count m ->
    b <> meta_place m L (MInodeBitmap g) /\ b <> meta_place m L (MBlockBitmap g).

(** The state stands for the two sets, and its other blocks are those of [c]. *)
Definition stands_for hs (c : volume) (u : marks) (s : Ext2) : Prop :=
  exists c', Vol m L hs c' s /\ marks_of m L c' u /\ forall b, no_bitmap b -> c' b = c b.

Lemma mark_no_bitmap k c x v b : bitmaps_ok m k -> in_range m k x ->
  (forall g, bm_meta k g = MInodeBitmap g \/ bm_meta k g = MBlockBitmap g) ->
  no_bitmap b -> mark m L k c x v b = c b.
Proof.
  intros Hk Hx Hkind Hb. unfold mark, set_block. destruct (Z.eqb_spec b (bm_place m L k x)) as [->|]; [|done].
  destruct (bm_in_range m k x Hk Hx) as [Hg _]. destruct (Hb _ Hg) as [H1 H2].
  unfold bm_place in H1, H2. by destruct (Hkind (bm_group k x)) as [E|E]; rewrite E in *.
Qed.

Lemma vol_bitmap_block k hs c s x : bitmaps_ok m k -> in_range m k x -> Vol m L hs c s ->
  is_block (c (bm_place m L k x)).
Proof.
  intros Hk Hx HV. destruct (bm_in_range m k x Hk Hx) as [Hg _]. apply (vol_is_block _ _ _ _ _ _ HV).
  by apply (lay_place _ _ HL), (bk_valid _ _ Hk).
Qed.

(** One change of a mark, in the state and in the sets. *)
Lemma mark_inode_stands hs c c' s u n v : in_range m (inode_bitmaps m) n ->
  is_block (c' (bm_place m L (inode_bitmaps m) n)) -> marks_of m L c' u -> (forall b, no_bitmap b -> c' b = c b) ->
  Vol m L hs (mark m L (inode_bitmaps m) c' n v) s ->
  stands_for hs c {| m_inodes := bm_upd (m_inodes u) n v; m_blocks := m_blocks u |} s.
Proof.
  intros Hn Hb [Hi Hbl] Hc HV. pose proof (inode_bitmaps_ok m L HL) as Hki. pose proof (block_bitmaps_ok m L HL) as Hkb.
  eexists. split; [exact HV|]. split; [split; simpl|].
  - by apply marked_set.
  - intros y Hy. rewrite used_mark_other by done. by apply Hbl.
  - intros b Hnb. rewrite mark_no_bitmap; [by apply Hc|done|done|by left|done].
Qed.

Lemma mark_block_stands hs c c' s u n v : in_range m (block_bitmaps m) n ->
  is_block (c' (bm_place m L (block_bitmaps m) n)) -> marks_of m L c' u -> (forall b, no_bitmap b -> c' b = c b) ->
  Vol m L hs (mark m L (block_bitmaps m) c' n v) s ->
  stands_for hs c {| m_inodes := m_inodes u; m_blocks := bm_upd (m_blocks u) n v |} s.
Proof.
  intros Hn Hb [Hi Hbl] Hc HV. pose proof (inode_bitmaps_ok m L HL) as Hki. pose proof (block_bitmaps_ok m L HL) as Hkb.
  eexists. split; [exact HV|]. split; [split; simpl|].
  - intros y Hy. rewrite used_mark_other by done. by apply Hi.
  - by apply marked_set.
  - intros b Hnb. rewrite mark_no_bitmap; [by apply Hc|done|done|by right|done].
Qed.

Lemma run_op_ok hs c o u s : stands_for hs c u s -> op_ok m o ->
  wp (run_op o) (fun s' r => r = snd (spec_op m o u) /\ stands_for hs c (fst (spec_op m o u)) s') s.
Proof.
  intros (c' & HV & Hu & Hc) Ho. pose proof (inode_bitmaps_ok m L HL) as Hki. pose proof (block_bitmaps_ok m L HL) as Hkb.
  pose proof (lay_inodes _ _ HL) as Hin. pose proof (lay_block_max _ _ HL) as Hbm. pose proof (lay_first _ _ HL) as Hf.
  destruct o as [|n| |b]; simpl in Ho |- *.
  - eapply wp_mono; [by eapply alloc_inode_ok|]. intros s' r [(H1 & Hr & H3 & H4 & HV')|(-> & HV' & H3)].
    + rewrite (lowest_free_found _ 1 _ r); [|done|by rewrite (proj1 Hu)|].
      2: { intros x Hx. rewrite (proj1 Hu); [by apply H4|]. unfold in_range in *. simpl in *. lia. }
      split; [done|]. unfold set_add. destruct (Z.ltb_spec r 0); [lia|].
      apply (mark_inode_stands hs c c'); try done. by apply (vol_bitmap_block _ hs c' s).
    + rewrite lowest_free_none. { split; [done|]. exists c'. by destruct u. }
      intros x Hx. assert (in_range m (inode_bitmaps m) x) by (unfold in_range; simpl; lia).
      rewrite (proj1 Hu) by done. by apply H3.
  - assert (in_range m (inode_bitmaps m) n) by (unfold in_range, inode_valid in *; simpl; lia).
    wp_call free_inode_ok; [done..|]. intros s' _ HV'. apply wp_ret. split; [done|].
    apply (mark_inode_stands hs c c'); try done. by apply (vol_bitmap_block _ hs c' s).
  - eapply wp_mono; [eapply alloc_block_ok; [done..|lia]|].
    intros s' r [(H1 & Hr & H3 & H4 & HV')|(-> & HV' & H3)].
    + rewrite (lowest_free_found _ (sb_first_data_block (sb m)) _ r); [|done|by rewrite (proj2 Hu)|].
      2: { intros x Hx. rewrite (proj2 Hu); [by apply H4|]. unfold in_range in *. simpl in *. lia. }
      split; [done|]. unfold set_add. destruct (Z.ltb_spec r 0); [lia|].
      apply (mark_block_stands hs c c'); try done. by apply (vol_bitmap_block _ hs c' s).
    + rewrite lowest_free_none. { split; [done|]. exists c'. by destruct u. }
      intros x Hx. assert (in_range m (block_bitmaps m) x) by (unfold in_range; simpl; lia).
      rewrite (proj2 Hu) by done. by apply H3.
  - assert (is_u32 b) by (unfold in_range, is_u32 in *; simpl in *; lia).
    wp_call free_block_ok; [done..|]. intros s' _ HV'. apply wp_ret. split; [done|].
    rewrite bool_decide_true in HV' by done.
    apply (mark_block_stands hs c c'); try done. by apply (vol_bitmap_block _ hs c' s).
Qed.

Fixpoint run_ops (l : list bitmap_op) : ST (Ext2 (D := D)) (list Z) :=
  match l with
  | [] => mret []
  | o :: l' => r ← run_op o; rs ← run_ops l'; mret (r :: rs)
  end.

Fixpoint spec_ops (l : list bitmap_op) (u : marks) : marks * list Z :=
  match l with
  | [] => (u, [])
  | o :: l' => let '(u1, r) := spec_op m o u in let '(u2, rs) := spec_ops l' u1 in (u2, r :: rs)
  end.

(** C21: The bitmaps of a well-formed volume are sets of numbers: every sequence of
    [alloc_inode], [alloc_block], [free_inode] and [free_block] calls returns what
    the two sets return, where an allocation hands out and adds the lowest number
    below its limit that is not in its set, or reports -1 when there is none, and a
    release takes its number out.  So no number is handed out twice without a
    release in between.  No block but the bitmaps changes. *)
Theorem ext2_bitmaps_refine_sets l : forall hs c u (s : Ext2),
  stands_for hs c u s -> Forall (op_ok m) l ->
  exists s', run_ops l s = (s', snd (spec_ops l u)) /\ stands_for hs c (fst (spec_ops l u)) s'.
Proof.
  induction l as [|o l IH]; intros hs c u s Hs Hl; [by exists s|]. inversion Hl as [|? ? Ho Hl']; subst.
  destruct (wp_run _ _ _ (run_op_ok hs c o u s Hs Ho)) as (s1 & r & Hr & -> & Hs1).
  cbn [run_ops spec_ops]. destruct (spec_op m o u) as [u1 r]. simpl in *.
  destruct (IH hs c u1 s1 Hs1 Hl') as (s2 & Hr2 & Hs2). exists s2.
  unfold mbind, ST_bind, mret, ST_ret. rewrite Hr, Hr2. by destruct (spec_ops l u1).
Qed.
End Run.

(** The demonstration volume: blocks 1 to 8 and inodes 1 to 3 are in use. *)
Definition demo_marks : marks :=
  {| m_inodes := fun n => (1 <=? n) && (n <=? 3); m_blocks := fun b => (1 <=? b) && (b <=? 8) |}.

Lemma demo_stands_for : stands_for demo_m demo_L demo_handles demo_vol demo_marks demo_state.
Proof.
  exists demo_vol. split; [apply demo_Vol|]. split; [|done]. split.
  - intros n Hn. unfold in_range in Hn. simpl in Hn.
    apply eqb_prop. revert n Hn. apply (range_check (fun n => eqb _ _) 1 8). vm_compute. reflexivity.
  - intros n Hn. unfold in_range in Hn. simpl in Hn.
    apply eqb_prop. revert n Hn. apply (range_check (fun n => eqb _ _) 1 64). vm_compute. reflexivity.
Qed.

Lemma ext2_bitmaps_refine_sets_witness :
  let l := [AllocBlock; AllocInode; AllocBlock; FreeBlock 7; AllocBlock; AllocBlock] in
  snd (spec_ops demo_m l demo_marks) = [9; 4; 10; 0; 7; 11] /\
  exists s', run_ops zero_sector l demo_state = (s', snd (spec_ops demo_m l demo_marks)) /\
    stands_for demo_m demo_L demo_handles demo_vol (fst (spec_ops demo_m l demo_marks)) s'.
Proof.
  split; [vm_compute; reflexivity|].
  apply (ext2_bitmaps_refine_sets zero_sector zero_sector_ok demo_m demo_L demo_layout ltac:(simpl; lia)).
  - apply demo_stands_for.
  - repeat constructor; unfold in_range; simpl; lia.
Defined.
