(* ===== verification/Ext2File.v ===== *)
(** * The ext2 driver: the contents of a file

    The block map of an inode as a function, the bytes of a file, and the read and
    write calls as operations on them. *)
From S2P Require Import Prelude BlockDev Bytes VfsDefs Ext2 Ext2Dir Ext2Ops Ext2Vol Ext2Inodes Ext2Demo Ext2Alloc.

(** The block of the volume that holds block [idx] of the file, 0 for none. *)
Definition block_map (c : volume) (i : Ext2Inode) (idx : Z) : Z :=
  if idx <? 12 then (i_block i).[idx]
  else if 256 <=? idx - 12 then 0
  else if (i_block i).[12] =? 0 then 0
  else read_le32 (c (i_block i).[12]) ((idx - 12) * 4).

(** The byte of a file at a position. *)
Definition file_byte (c : volume) (i : Ext2Inode) (p : Z) : Z := (c (block_map c i (p / 1024))).[p mod 1024].

Definition mapped (c : volume) (i : Ext2Inode) (idx : Z) : Prop := block_map c i idx <> 0.

Section File.
Context {D : Type} `{WD : WorkingDev D} (stack junk : list Z) (Hstack : is_sector stack).
Context (Hjunk : Forall is_byte junk).
Context (m : Ext2MountState) (L : Z -> Ext2GroupDesc) (HL : layout m L).
Context (Htotal : total_blocks m <= sb_first_data_block (sb m) + blocks_per_group m * group_desc_count m).

Abbreviation Vol := (Vol m L).
Abbreviation blocks := (block_bitmaps m).

(** The blocks of a file are data blocks marked used, no two of them the same,
    and what the bitmap calls free holds no metadata. *)
Record file_ok (c : volume) (i : Ext2Inode) : Prop := {
  fo_block : length (i_block i) = 15%nat;
  fo_u32 : Forall is_u32 (i_block i);
  fo_single : (i_block i).[12] <> 0 ->
    data_block m L (i_block i).[12] /\ in_range m blocks (i_block i).[12] /\
    used m L blocks c (i_block i).[12] = true;
  fo_data idx : 0 <= idx -> mapped c i idx ->
    data_block m L (block_map c i idx) /\ in_range m blocks (block_map c i idx) /\
    used m L blocks c (block_map c i idx) = true;
  fo_inj idx idx' : 0 <= idx -> 0 <= idx' -> mapped c i idx ->
    block_map c i idx = block_map c i idx' -> idx = idx';
  fo_not_single idx : 0 <= idx -> mapped c i idx -> block_map c i idx <> (i_block i).[12];
  fo_free b : in_range m blocks b -> used m L blocks c b = false -> data_block m L b
}.

Lemma data_block_i32 b : geometry m -> data_block m L b -> i32 b = b /\ u32 b = b.
Proof.
  intros [_ _ Hg] [[H1 H2] _]. split; [apply i32_small; lia|apply u32_small; lia].
Qed.

Lemma block_map_high c i idx : 268 <= idx -> block_map c i idx = 0.
Proof.
  intros. unfold block_map. destruct (Z.ltb_spec idx 12); [lia|].
  destruct (Z.leb_spec 256 (idx - 12)); [done|lia].
Qed.

(** Without [create], or for a block that is there, the call is the block map and
    changes nothing. *)
Lemma get_block_ok hs c s i idx create : Vol hs c s -> 0 <= idx -> file_ok c i ->
  (create = true -> mapped c i idx) ->
  wp (inode_get_block stack i idx create)
     (fun s' r => r = (i, block_map c i idx) /\ Vol hs c s') s.
Proof.
  intros HV Hidx Hf Hcr. pose proof (vol_geo _ _ _ _ _ HV) as Hg. unfold inode_get_block. apply wp_get.
  rewrite (vol_m _ _ _ _ _ HV). unfold inode_ptrs_per_block. rewrite (geo_bs _ Hg).
  change (1024 / 4) with 256.
  assert ((block_map c i idx =? 0) && create = false) as Hno.
  { destruct create; [|apply andb_false_r]. specialize (Hcr eq_refl). unfold mapped in Hcr.
    rewrite andb_true_r. by apply Z.eqb_neq. }
  assert (i32 (block_map c i idx) = block_map c i idx) as H32.
  { destruct (decide (mapped c i idx)) as [Hm|Hm].
    - by apply data_block_i32, (fo_data _ _ Hf).
    - unfold mapped in Hm. assert (block_map c i idx = 0) as -> by lia. done. }
  unfold mapped, block_map in *. destruct (Z.ltb_spec idx 12); [rewrite Hno; apply wp_ret; by rewrite H32|].
  destruct (Z.leb_spec 256 (idx - 12)); [by apply wp_ret|].
  destruct (Z.eqb_spec (i_block i).[12] 0) as [E|E].
  { destruct create; [by destruct (Hcr eq_refl)|by apply wp_ret]. }
  unfold get_indirect. wp_call vol_read; [done|done|by apply (fo_single _ _ Hf E)|]. intros s1 r [-> HV1].
  rewrite Hno. apply wp_ret. by rewrite H32.
Qed.

(** ** Growing a file *)

Context (Hfirst : 0 < sb_first_data_block (sb m)).

Lemma mark_data c x v b : in_range m blocks x -> data_block m L b -> mark m L blocks c x v b = c b.
Proof.
  intros Hx [_ Hb]. unfold mark, set_block. destruct (Z.eqb_spec b (bm_place m L blocks x)) as [E|]; [|done].
  destruct (bm_in_range m blocks x (block_bitmaps_ok _ _ HL) Hx) as [Hg _].
  by destruct (Hb (MBlockBitmap (bm_group blocks x)) Hg).
Qed.

Lemma used_set_data c b v x : data_block m L b -> in_range m blocks x ->
  used m L blocks (set_block c b v) x = used m L blocks c x.
Proof.
  intros [_ Hb] Hx. destruct (bm_in_range m blocks x (block_bitmaps_ok _ _ HL) Hx) as [Hg _].
  unfold used, set_block. destruct (Z.eqb_spec (bm_place m L blocks x) b) as [E|]; [|done].
  by destruct (Hb (MBlockBitmap (bm_group blocks x)) Hg).
Qed.

(** The map depends on the direct words and the indirect block only. *)
Lemma block_map_ext c c' i k : ((i_block i).[12] <> 0 -> c' (i_block i).[12] = c (i_block i).[12]) ->
  block_map c' i k = block_map c i k.
Proof.
  intros Hc. unfold block_map. destruct (k <? 12); [done|]. destruct (256 <=? k - 12); [done|].
  destruct (Z.eqb_spec (i_block i).[12] 0); [done|]. by rewrite Hc.
Qed.

(** A file after one block is added to its map, or none. *)
Lemma file_ok_change c i c' i' idx r : file_ok c i -> length (i_block i') = 15%nat -> Forall is_u32 (i_block i') ->
  ((i_block i').[12] <> 0 -> data_block m L (i_block i').[12] /\ in_range m blocks (i_block i').[12] /\
     used m L blocks c' (i_block i').[12] = true) ->
  (forall k, 0 <= k -> block_map c' i' k = if k =? idx then r else block_map c i k) ->
  (0 <= idx -> data_block m L r /\ in_range m blocks r /\ used m L blocks c' r = true /\ r <> (i_block i').[12] /\
     forall k, 0 <= k -> mapped c i k -> block_map c i k <> r) ->
  (forall k, 0 <= k -> mapped c i k -> block_map c i k <> (i_block i').[12]) ->
  (forall b, in_range m blocks b -> used m L blocks c b = true -> used m L blocks c' b = true) ->
  file_ok c' i'.
Proof.
  intros Hf Hl Hl32 Hs Hmap Hr Hns Hu. split; [done|done|done| | | |].
  - intros k Hk Hm. unfold mapped in Hm. rewrite Hmap in * by done.
    destruct (Z.eqb_spec k idx) as [->|]; [by destruct (Hr Hk) as (? & ? & ? & _)|].
    destruct (fo_data _ _ Hf k Hk Hm) as (? & ? & ?). split_and!; [done|done|by apply Hu].
  - intros k k' Hk Hk' Hm He. unfold mapped in Hm. rewrite !Hmap in * by done.
    destruct (Z.eqb_spec k idx) as [->|]; destruct (Z.eqb_spec k' idx) as [->|]; [done| | |].
    + destruct (Hr Hk) as (_ & _ & _ & _ & Hne). exfalso. apply (Hne k' Hk'); [|done]. unfold mapped. by rewrite <- He.
    + destruct (Hr Hk') as (_ & _ & _ & _ & Hne). by destruct (Hne k Hk Hm).
    + by apply (fo_inj _ _ Hf).
  - intros k Hk Hm. unfold mapped in Hm. rewrite Hmap in * by done.
    destruct (Z.eqb_spec k idx) as [->|]; [by destruct (Hr Hk) as (_ & _ & _ & ? & _)|by apply Hns].
  - intros b Hb Hub. apply (fo_free _ _ Hf); [done|]. destruct (used m L blocks c b) eqn:E; [|done].
    rewrite Hu in Hub by done. done.
Qed.

(** The fresh block of an allocation is in no file. *)
Lemma fresh_not_mapped c i r k : file_ok c i -> used m L blocks c r = false -> 0 <= k -> mapped c i k ->
  block_map c i k <> r.
Proof. intros Hf Hr Hk Hm <-. destruct (fo_data _ _ Hf k Hk Hm) as (_ & _ & E). congruence. Qed.

Lemma fresh_not_single c i r : file_ok c i -> used m L blocks c r = false -> 0 < r -> r <> (i_block i).[12].
Proof.
  intros Hf Hr Hp ->. destruct (fo_single _ _ Hf) as (_ & _ & E); [lia|]. congruence.
Qed.

Lemma used_mark_mono c r b : in_range m blocks r -> in_range m blocks b -> (forall x, in_range m blocks x -> is_block (c (bm_place m L blocks x))) ->
  used m L blocks c b = true -> used m L blocks (mark m L blocks c r true) b = true.
Proof.
  intros Hr Hb Hc Hu. rewrite used_mark; [by destruct (r =? b)|done|by apply (block_bitmaps_ok _ L)|done|done|by apply Hc].
Qed.

Lemma used_mark_self c r : in_range m blocks r -> (forall x, in_range m blocks x -> is_block (c (bm_place m L blocks x))) ->
  used m L blocks (mark m L blocks c r true) r = true.
Proof.
  intros Hr Hc. rewrite used_mark; [by rewrite Z.eqb_refl|done|by apply (block_bitmaps_ok _ L)|done|done|by apply Hc].
Qed.

(** What a call that maps block [idx] of a file leaves. *)
Definition grown hs c i idx (s' : Ext2 (D := D)) (i' : Ext2Inode) (r : Z) : Prop :=
  exists c', Vol hs c' s' /\ file_ok c' i' /\ 0 < r /\ r = block_map c' i' idx /\
    (forall k, 0 <= k -> k <> idx -> block_map c' i' k = block_map c i k) /\
    (mapped c i idx -> r = block_map c i idx) /\
    (forall b, data_block m L b -> in_range m blocks b -> used m L blocks c b = true -> b <> (i_block i).[12] -> c' b = c b) /\
    i' = i <| i_block := i_block i' |>.

(** The failure: no block can be had. *)
Definition no_space hs idx (s' : Ext2 (D := D)) : Prop :=
  exists c', Vol hs c' s' /\
    (268 <= idx \/ forall x, sb_first_data_block (sb m) <= x < total_blocks m -> used m L blocks c' x = true).

Definition block_outcome hs c i idx (s' : Ext2 (D := D)) (ir : Ext2Inode * Z) : Prop :=
  (snd ir = 0 /\ no_space hs idx s') \/ grown hs c i idx s' (fst ir) (snd ir).

Lemma alloc_fail_bad : bad_block (u32 (-1)) = true.
Proof. done. Qed.

Lemma alloc_ok_good r : 0 < r < 2 ^ 31 -> bad_block (u32 r) = false /\ u32 r = r /\ i32 r = r.
Proof.
  intros. unfold bad_block. rewrite u32_small, i32_small by lia.
  destruct (Z.eqb_spec r 0); [lia|]. by destruct (Z.ltb_spec r 0); [lia|].
Qed.

(** The allocation in front of a change of the file. *)
Lemma alloc_block_cases hs c s : Vol hs c s ->
  wp (alloc_block stack) (fun s' r =>
    (bad_block (u32 r) = true /\ no_space hs 0 s') \/
    (bad_block (u32 r) = false /\ u32 r = r /\ i32 r = r /\ 0 < r /\ in_range m blocks r /\
     used m L blocks c r = false /\ Vol hs (mark m L blocks c r true) s')) s.
Proof.
  intros HV. pose proof (lay_block_max _ _ HL). eapply wp_mono; [eapply alloc_block_ok; [done..|lia]|].
  intros s' r [(Hlo & Hr & Hu & Hall & HV')|(-> & HV' & Hall)].
  - right. destruct (alloc_ok_good r) as (? & ? & ?); [lia|]. by split_and!; [..|lia|done|done|done].
  - left. split; [done|]. exists c. split; [done|]. right. intros x Hx. apply Hall; [done|].
    unfold in_range. simpl. lia.
Qed.

Lemma vol_bm_blocks hs c s x : Vol hs c s -> in_range m blocks x -> is_block (c (bm_place m L blocks x)).
Proof. intros HV Hx. apply (vol_bitmap_block m L HL blocks hs c s x); [by apply (block_bitmaps_ok _ L)|done..]. Qed.

(** An entry of an indirect block. *)
Lemma entry_write blk j r : is_block blk -> 0 <= j < 256 -> is_u32 r ->
  let blk' := write_le32 (j * 4) r blk in
  is_block blk' /\ read_le32 blk' (j * 4) = r /\
  forall k, 0 <= k < 256 -> k <> j -> read_le32 blk' (k * 4) = read_le32 blk (k * 4).
Proof.
  intros [Hl Hb] Hj Hr blk'. unfold blk'. rewrite write_le32_ok by lia.
  assert (fits (j * 4) (le_bytes 4 r) blk) as Hfit by (split; [lia|]; rewrite le_bytes_length; lia).
  assert (Forall is_byte (splice (j * 4) (le_bytes 4 r) blk)) as Hb' by (apply Forall_splice; [apply le_bytes_byte|done]).
  pose proof (splice_length _ _ _ Hfit) as Hl'. split; [split; [lia|done]|]. split.
  - rewrite read_le32_ok by (done || lia). change 4 with (Z.of_nat (length (le_bytes 4 r))) at 2.
    rewrite slice_splice_same by done. by apply le_val_u32.
  - intros k Hk Hne. rewrite !read_le32_ok by (done || lia). rewrite slice_splice_other; [done|done|lia|lia|].
    rewrite le_bytes_length. lia.
Qed.

Lemma get_indirect_ok hs c s i idx : Vol hs c s -> 12 <= idx < 268 -> file_ok c i -> (i_block i).[12] <> 0 ->
  wp (get_indirect stack i (idx - 12) true) (block_outcome hs c i idx) s.
Proof.
  intros HV Hidx Hf Hs. pose proof (vol_geo _ _ _ _ _ HV) as Hg.
  destruct (fo_single _ _ Hf Hs) as (Hsd & Hsr & Hsu).
  destruct (vol_is_block _ _ _ _ _ _ HV (proj1 Hsd)) as [Hsl Hsb].
  assert (block_map c i idx = read_le32 (c (i_block i).[12]) ((idx - 12) * 4)) as Hmap.
  { unfold block_map. destruct (Z.ltb_spec idx 12); [lia|]. destruct (Z.leb_spec 256 (idx - 12)); [lia|].
    by destruct (Z.eqb_spec (i_block i).[12] 0). }
  unfold get_indirect. wp_call vol_read; [done|done|apply Hsd|]. intros s1 r [-> HV1].
  rewrite <- Hmap, andb_true_r. destruct (Z.eqb_spec (block_map c i idx) 0) as [E|E].
  - wp_call alloc_block_cases; [done|]. intros s2 b [[-> Hno]|(-> & Hu32 & Hi32 & Hpos & Hr & Hfree & HV2)].
    + apply wp_ret. left. split; [done|]. destruct Hno as (c' & ? & [?|?]); [lia|]. exists c'. split; [done|by right].
    + rewrite Hu32. set (c1 := mark m L blocks c b true) in *.
      pose proof (fo_free _ _ Hf b Hr Hfree) as Hbd.
      pose proof (block_ok_u32 m b Hg (proj1 Hbd)) as Hbu.
      destruct (entry_write (c (i_block i).[12]) (idx - 12) b ltac:(done) ltac:(lia) Hbu) as (Hblk & Hself & Hother).
      wp_call vol_write_data; [exact HV2|done|by rewrite (proj1 Hblk)|apply Hblk|].
      intros s3 r [-> HV3]. apply wp_ret. right. cbn [fst snd]. rewrite Hself, Hi32.
      rewrite take_ge in HV3 by (rewrite (proj1 Hblk); lia).
      set (c2 := set_block c1 _ _) in *.
      assert (forall k, 0 <= k -> block_map c2 i k = if k =? idx then b else block_map c i k) as Hm2.
      { intros k Hk. unfold block_map. destruct (Z.ltb_spec k 12); [destruct (Z.eqb_spec k idx); [lia|done]|].
        destruct (Z.leb_spec 256 (k - 12)); [destruct (Z.eqb_spec k idx); [lia|done]|].
        destruct (Z.eqb_spec (i_block i).[12] 0); [done|]. unfold c2, set_block. rewrite Z.eqb_refl.
        destruct (Z.eqb_spec k idx) as [->|]; [done|]. apply Hother; lia. }
      assert (forall x, in_range m blocks x -> used m L blocks c2 x = used m L blocks c1 x) as Hu2
        by (intros; by apply used_set_data).
      exists c2. split_and!; [done| |done|by rewrite Hm2, Z.eqb_refl by lia| | | |by destruct i].
      * apply (file_ok_change c i c2 i idx b); [done|by apply (fo_block _ _ Hf)|by apply (fo_u32 _ _ Hf)| |done| | |].
        -- intros _. split_and!; [done|done|]. rewrite Hu2 by done. apply used_mark_mono; [done|done| |done].
           intros x Hx. by eapply vol_bm_blocks.
        -- intros _. split_and!; [done|done| |by eapply fresh_not_single|intros; by eapply fresh_not_mapped].
           rewrite Hu2 by done. apply used_mark_self; [done|]. intros x Hx. by eapply vol_bm_blocks.
        -- intros k Hk Hmk. by apply (fo_not_single _ _ Hf).
        -- intros x Hx Hux. rewrite Hu2 by done. apply used_mark_mono; [done|done| |done].
           intros y Hy. by eapply vol_bm_blocks.
      * intros k Hk Hne. rewrite Hm2 by done. by destruct (Z.eqb_spec k idx).
      * intros Hmk. unfold mapped in Hmk. by rewrite E in Hmk.
      * intros x Hx Hxr Hxu Hxs. unfold c2, set_block. destruct (Z.eqb_spec x (i_block i).[12]); [done|].
        unfold c1. by apply mark_data.
  - apply wp_ret. right. cbn [fst snd]. destruct (fo_data _ _ Hf idx ltac:(lia) E) as (Hbd & _ & _).
    destruct (data_block_i32 _ Hg Hbd) as [-> _]. exists c. destruct Hbd as [[? ?] ?].
    split_and!; try done; [|by destruct i]. unfold mapped in *. lia.
Qed.

Lemma no_space_any hs idx s : no_space hs 0 s -> no_space hs idx s.
Proof. intros (c' & HV & [?|Hx]); [lia|]. exists c'. split; [done|by right]. Qed.

(** An inode whose direct word [idx] becomes [b]. *)
Lemma direct_map c i idx b k : length (i_block i) = 15%nat -> 0 <= idx < 12 -> 0 <= k ->
  block_map c (i <| i_block ::= <[Z.to_nat idx := b]> |>) k = if k =? idx then b else block_map c i k.
Proof.
  intros Hl Hidx Hk. unfold block_map, update_field; cbn [i_block].
  destruct (Z.ltb_spec k 12) as [H12|H12].
  - destruct (Z.eqb_spec k idx) as [->|Hne].
    + apply list_lookup_total_insert_eq. lia.
    + apply list_lookup_total_insert_ne. lia.
  - rewrite list_lookup_total_insert_ne by lia. destruct (Z.eqb_spec k idx); [lia|done].
Qed.

Lemma get_direct_ok hs c s i idx : Vol hs c s -> 0 <= idx < 12 -> file_ok c i -> block_map c i idx = 0 ->
  wp (b ← alloc_block stack;
      if bad_block (u32 b) then mret (i, 0)
      else
        let inode := i <| i_block ::= <[Z.to_nat idx := u32 b]> |> in
        mret (inode, i32 (i_block inode).[idx])) (block_outcome hs c i idx) s.
Proof.
  intros HV Hidx Hf E. pose proof (fo_block _ _ Hf) as Hl.
  wp_call alloc_block_cases; [done|]. intros s2 b [[-> Hno]|(-> & Hu32 & Hi32 & Hpos & Hr & Hfree & HV2)].
  { apply wp_ret. left. split; [done|by apply no_space_any]. }
  cbv zeta. rewrite Hu32. apply wp_ret. right. cbn [fst snd].
  set (i' := i <| i_block ::= <[Z.to_nat idx := b]> |>).
  set (c1 := mark m L blocks c b true) in *. pose proof (fo_free _ _ Hf b Hr Hfree) as Hbd.
  assert ((i_block i').[12] = (i_block i).[12]) as Hs.
  { unfold i', update_field; cbn [i_block]. apply list_lookup_total_insert_ne. lia. }
  assert ((i_block i').[idx] = b) as ->.
  { unfold i', update_field; cbn [i_block]. apply list_lookup_total_insert_eq. lia. }
  assert (forall x, in_range m blocks x -> is_block (c (bm_place m L blocks x))) as Hbm
    by (intros; by eapply vol_bm_blocks).
  assert (forall k, 0 <= k -> block_map c1 i' k = if k =? idx then b else block_map c i k) as Hm.
  { intros k Hk. rewrite (block_map_ext c c1 i') by (intros ?; apply mark_data; [done|]; rewrite Hs in *; by apply (fo_single _ _ Hf)).
    by apply direct_map. }
  exists c1. rewrite Hi32. split_and!; [done| |done|by rewrite Hm, Z.eqb_refl by lia| | | |by destruct i].
  - apply (file_ok_change c i c1 i' idx b); [done| | | |done| | |].
    + unfold i', update_field; cbn [i_block]. by rewrite length_insert.
    + unfold i', update_field; cbn [i_block]. apply Forall_insert; [apply (fo_u32 _ _ Hf)|].
      apply (block_ok_u32 m); [by apply (vol_geo m L hs c s)|apply Hbd].
    + rewrite Hs. intros Hne. destruct (fo_single _ _ Hf Hne) as (? & ? & ?). split_and!; [done..|].
      by apply used_mark_mono.
    + intros _. rewrite Hs. split_and!; [done|done|by apply used_mark_self|by eapply fresh_not_single|intros; by eapply fresh_not_mapped].
    + intros k Hk Hmk. rewrite Hs. by apply (fo_not_single _ _ Hf).
    + intros x Hx Hux. by apply used_mark_mono.
  - intros k Hk Hne. rewrite Hm by done. by destruct (Z.eqb_spec k idx).
  - intros Hmk. by destruct Hmk.
  - intros x Hx Hxr Hxu Hxs. by apply mark_data.
Qed.

(** A fresh, cleared indirect block. *)
Lemma add_single_ok hs c s i : Vol hs c s -> file_ok c i -> (i_block i).[12] = 0 ->
  wp (b ← alloc_block stack;
      if bad_block (u32 b) then mret None
      else
        ok ← write_block (u32 b) (replicate 1024 0);
        mret (Some (u32 b, ok)))
     (fun s' r => (r = None /\ no_space hs 0 s') \/
        exists b c', r = Some (b, true) /\ Vol hs c' s' /\ file_ok c' (i <| i_block ::= <[12%nat := b]> |>) /\
          0 < b /\ used m L blocks c b = false /\ in_range m blocks b /\
          (forall k, 0 <= k -> block_map c' (i <| i_block ::= <[12%nat := b]> |>) k = block_map c i k) /\
          (forall x, in_range m blocks x -> used m L blocks c x = true -> used m L blocks c' x = true) /\
          (forall x, data_block m L x -> x <> b -> c' x = c x)) s.
Proof.
  intros HV Hf E. pose proof (fo_block _ _ Hf) as Hl.
  assert (forall x, in_range m blocks x -> is_block (c (bm_place m L blocks x))) as Hbm
    by (intros; by eapply vol_bm_blocks).
  wp_call alloc_block_cases; [done|]. intros s2 b [[-> Hno]|(-> & Hu32 & Hi32 & Hpos & Hr & Hfree & HV2)].
  { apply wp_ret. by left. }
  rewrite Hu32. pose proof (fo_free _ _ Hf b Hr Hfree) as Hbd.
  wp_call vol_write_data; [exact HV2|done|by rewrite length_replicate|by apply Forall_replicate|].
  intros s3 r [-> HV3]. apply wp_ret. right. rewrite take_ge in HV3 by (rewrite length_replicate; lia).
  set (c1 := mark m L blocks c b true) in *. set (c2 := set_block c1 b _) in *.
  set (i' := i <| i_block ::= <[12%nat := b]> |>).
  assert ((i_block i').[12] = b) as Hs.
  { unfold i', update_field; cbn [i_block]. apply list_lookup_total_insert_eq. lia. }
  assert (forall x, in_range m blocks x -> used m L blocks c x = true -> used m L blocks c2 x = true) as Hum.
  { intros x Hx Hux. unfold c2. rewrite used_set_data by done. by apply used_mark_mono. }
  assert (forall k, 0 <= k -> block_map c2 i' k = block_map c i k) as Hm.
  { intros k Hk. unfold block_map. destruct (Z.ltb_spec k 12).
    - unfold i', update_field; cbn [i_block]. apply list_lookup_total_insert_ne. lia.
    - destruct (Z.leb_spec 256 (k - 12)); [done|]. rewrite Hs, E. destruct (Z.eqb_spec b 0); [done|].
      rewrite Z.eqb_refl. unfold c2, set_block. rewrite Z.eqb_refl.
      rewrite read_le32_ok; [|by apply Forall_replicate|lia|rewrite length_replicate; lia].
      unfold slice. rewrite drop_replicate, take_replicate.
      by replace (Z.to_nat 4 `min` (1024 - Z.to_nat ((k - 12) * 4)))%nat with 4%nat by lia. }
  exists b, c2. split_and!; try done.
  - apply (file_ok_change c i c2 i' (-1) 0); [done| | | | |lia| |done].
    + unfold i', update_field; cbn [i_block]. by rewrite length_insert.
    + unfold i', update_field; cbn [i_block]. apply Forall_insert; [apply (fo_u32 _ _ Hf)|].
      apply (block_ok_u32 m); [by apply (vol_geo m L hs c s)|apply Hbd].
    + rewrite Hs. intros _. split_and!; [done|done|]. unfold c2. rewrite used_set_data by done. by apply used_mark_self.
    + intros k Hk. rewrite Hm by done. destruct (Z.eqb_spec k (-1)); [lia|done].
    + intros k Hk Hmk. rewrite Hs. by eapply fresh_not_mapped.
  - intros x Hx Hne. unfold c2, set_block. destruct (Z.eqb_spec x b); [done|]. by apply mark_data.
Qed.

(** What two steps leave, the first of which only added the indirect block. *)
Lemma grown_single hs c c' i b idx s' i' r :
  file_ok c i -> (i_block i).[12] = 0 -> 0 < b -> used m L blocks c b = false -> in_range m blocks b ->
  (forall k, 0 <= k -> block_map c' (i <| i_block ::= <[12%nat := b]> |>) k = block_map c i k) ->
  (forall x, in_range m blocks x -> used m L blocks c x = true -> used m L blocks c' x = true) ->
  (forall x, data_block m L x -> x <> b -> c' x = c x) -> 0 <= idx ->
  grown hs c' (i <| i_block ::= <[12%nat := b]> |>) idx s' i' r -> grown hs c i idx s' i' r.
Proof.
  intros Hf E Hb Hfree Hbr Hmap Hu Hc Hidx (c2 & HV & Hf2 & Hr & Hrm & Hk & Hmm & Hd & Hi).
  assert (((i <| i_block ::= <[12%nat := b]> |>).(i_block)).[12] = b) as Hs.
  { unfold update_field; cbn [i_block]. apply list_lookup_total_insert_eq. rewrite (fo_block _ _ Hf). lia. }
  exists c2. split_and!; try done.
  - intros k Hk0 Hne. rewrite Hk by done. by apply Hmap.
  - intros Hm. rewrite Hmm; [by apply Hmap|]. unfold mapped. by rewrite Hmap.
  - intros x Hx Hxr Hxu _. assert (x <> b) by (intros ->; congruence).
    rewrite Hd; [by apply Hc|done|done|by apply Hu|by rewrite Hs].
Qed.

Lemma get_block_create_ok hs c s i idx : Vol hs c s -> 0 <= idx -> file_ok c i ->
  wp (inode_get_block stack i idx true) (block_outcome hs c i idx) s.
Proof.
  intros HV Hidx Hf. pose proof (vol_geo _ _ _ _ _ HV) as Hg. unfold inode_get_block. apply wp_get.
  rewrite (vol_m _ _ _ _ _ HV). unfold inode_ptrs_per_block. rewrite (geo_bs _ Hg).
  change (1024 / 4) with 256. change (Z.to_nat 1024) with 1024%nat.
  destruct (Z.ltb_spec idx 12) as [H12|H12].
  { assert (block_map c i idx = (i_block i).[idx]) as Hm by (unfold block_map; by destruct (Z.ltb_spec idx 12); [|lia]).
    rewrite <- Hm, andb_true_r. destruct (Z.eqb_spec (block_map c i idx) 0) as [E|E]; [by apply get_direct_ok|].
    apply wp_ret. right. cbn [fst snd]. destruct (fo_data _ _ Hf idx ltac:(lia) E) as (Hbd & _ & _).
    destruct (data_block_i32 _ Hg Hbd) as [-> _]. exists c. destruct Hbd as [[? ?] ?].
    split_and!; try done; [|by destruct i]. unfold mapped in *. lia. }
  destruct (Z.leb_spec 256 (idx - 12)) as [Hbig|Hbig].
  { apply wp_ret. left. split; [done|]. exists c. split; [done|]. left. lia. }
  cbn [negb]. destruct (Z.eqb_spec (i_block i).[12] 0) as [E|E]; [|apply get_indirect_ok; [done|lia|done..]].
  eapply (wp_ext _ (
    o ← (b ← alloc_block stack;
         if bad_block (u32 b) then mret None
         else ok ← write_block (u32 b) (replicate 1024 0); mret (Some (u32 b, ok)));
    match o with
    | None => mret (i <| i_block ::= <[12%nat := 0]> |>, 0)
    | Some (b, ok) => if (ok : bool) then get_indirect stack (i <| i_block ::= <[12%nat := b]> |>) (idx - 12) true
                      else mret (i <| i_block ::= <[12%nat := b]> |>, 0)
    end)).
  { intros t. unfold mbind, ST_bind. destruct (alloc_block stack t) as [t1 b].
    destruct (bad_block (u32 b)); [done|]. by destruct (write_block _ _ t1). }
  wp_call add_single_ok; [done..|].
  intros s1 o [[-> Hno]|(b & c' & -> & HV1 & Hf1 & Hb & Hfree & Hbr & Hmap & Hu & Hc)].
  { apply wp_ret. left. split; [done|]. by apply no_space_any. }
  assert (((i <| i_block ::= <[12%nat := b]> |>).(i_block)).[12] = b) as Hs.
  { unfold update_field; cbn [i_block]. apply list_lookup_total_insert_eq. rewrite (fo_block _ _ Hf). lia. }
  eapply wp_mono; [apply (get_indirect_ok hs c'); [done|lia|done|by rewrite Hs; lia]|].
  intros s2 [i2 r] [[Hr Hno]|Hgr]; [by left|right]. by eapply grown_single.
Qed.

(** ** The loops *)

Lemma chunk_bytes blk rest a n : length blk = 1024%nat -> 0 <= a -> 0 <= n -> a mod 1024 + n <= 1024 ->
  slice (a mod 1024) n (blk ++ rest) = map (fun p => blk.[p mod 1024]) (seqZ a n).
Proof.
  intros Hl Ha Hn Hs. pose proof (Z.mod_pos_bound a 1024 ltac:(lia)).
  apply list_eq. intros j. destruct (decide (j < Z.to_nat n)%nat) as [Hj|Hj].
  - rewrite slice_lookup, lookup_app_l by lia. rewrite list_lookup_fmap, lookup_seqZ_lt by lia. simpl.
    rewrite lookup_total_Some by lia. do 2 f_equal.
    rewrite <- (Z.mod_unique_pos (a + Z.of_nat j) 1024 (a / 1024) (a mod 1024 + Z.of_nat j)); [lia|lia|].
    pose proof (Z_div_mod_eq_full a 1024). lia.
  - rewrite !lookup_ge_None_2; [done| |].
    + rewrite length_map, length_seqZ. lia.
    + unfold slice. rewrite length_take. lia.
Qed.

Lemma seqZ_split a n k : 0 <= k <= n -> seqZ a n = seqZ a k ++ seqZ (a + k) (n - k).
Proof. intros. replace n with (k + (n - k)) at 1 by lia. by rewrite seqZ_app by lia. Qed.

Lemma read_loop_ok c i pos size : file_ok c i -> 0 <= pos -> pos + size < 2 ^ 32 ->
  (forall p, pos <= p < pos + size -> mapped c i (p / 1024)) ->
  forall fuel hs s total, Vol hs c s -> 0 <= total <= size -> (Z.to_nat (size - total) < fuel)%nat ->
  wp (read_loop stack junk i pos size fuel total)
     (fun s' r => r = (None, map (file_byte c i) (seqZ (pos + total) (size - total))) /\ Vol hs c s') s.
Proof.
  intros Hf Hp Hw Hmap. induction fuel as [|fuel IH]; intros hs s total HV Ht Hfuel; [lia|].
  cbn [read_loop]. destruct (Z.leb_spec size total).
  { apply wp_ret. replace (size - total) with 0 by lia. done. }
  apply wp_get. rewrite (vol_m _ _ _ _ _ HV), (geo_bs _ (vol_geo _ _ _ _ _ HV)).
  rewrite (u32_small (pos + total)) by lia. pose proof (Z.mod_pos_bound (pos + total) 1024 ltac:(lia)) as Hmod.
  set (chunk := Z.min (1024 - (pos + total) mod 1024) (size - total)). assert (0 < chunk) by lia.
  assert (0 <= (pos + total) / 1024) by (apply Z.div_pos; lia).
  wp_call get_block_ok; [done|done|done|done|]. intros s1 r [-> HV1]. cbv beta iota.
  assert (mapped c i ((pos + total) / 1024)) as Hm by (apply Hmap; lia).
  destruct (fo_data _ _ Hf _ ltac:(done) Hm) as (Hbd & _ & _). unfold mapped in Hm.
  destruct (Z.leb_spec (block_map c i ((pos + total) / 1024)) 0); [destruct Hbd as [[? ?] _]; lia|].
  destruct (data_block_i32 _ (vol_geo _ _ _ _ _ HV) Hbd) as [_ ->].
  wp_call vol_read; [done|done|apply Hbd|]. intros s2 r [-> HV2].
  wp_call (IH hs s2 (total + chunk)); [done|lia|lia|]. intros s3 r [-> HV3]. cbv beta iota. apply wp_ret.
  split; [|done]. f_equal. rewrite (seqZ_split _ (size - total) chunk) by lia. rewrite map_app. f_equal.
  - rewrite chunk_bytes; [|apply (vol_is_block _ _ _ _ _ _ HV), Hbd|lia|lia|lia].
    apply map_ext_in. intros p Hin. apply list_elem_of_In, elem_of_seqZ in Hin. unfold file_byte.
    replace (p / 1024) with ((pos + total) / 1024); [done|].
    apply (Z.div_unique p 1024 _ ((pos + total) mod 1024 + (p - (pos + total)))); [lia|].
    pose proof (Z_div_mod_eq_full (pos + total) 1024). lia.
  - do 2 f_equal; lia.
Qed.

(** Rewriting part of one mapped block. *)
Lemma set_file_block c i idx v : file_ok c i -> 0 <= idx -> mapped c i idx ->
  let c' := set_block c (block_map c i idx) v in
  file_ok c' i /\ (forall k, 0 <= k -> block_map c' i k = block_map c i k) /\
  (forall p, 0 <= p -> mapped c i (p / 1024) ->
     file_byte c' i p = if p / 1024 =? idx then v.[p mod 1024] else file_byte c i p).
Proof.
  intros Hf Hidx Hm c'. destruct (fo_data _ _ Hf idx Hidx Hm) as (Hbd & Hbr & Hbu).
  assert (forall k, 0 <= k -> block_map c' i k = block_map c i k) as Hmap.
  { intros k Hk. apply block_map_ext. intros _. unfold c', set_block.
    destruct (Z.eqb_spec (i_block i).[12] (block_map c i idx)) as [E|]; [|done].
    by destruct (fo_not_single _ _ Hf idx Hidx Hm). }
  split_and!; [|done|].
  - apply (file_ok_change c i c' i (-1) 0); [done|apply (fo_block _ _ Hf)|apply (fo_u32 _ _ Hf)| | |lia| |].
    + intros Hs. destruct (fo_single _ _ Hf Hs) as (? & ? & ?). split_and!; [done|done|].
      unfold c'. by rewrite used_set_data.
    + intros k Hk. rewrite Hmap by done. destruct (Z.eqb_spec k (-1)); [lia|done].
    + apply (fo_not_single _ _ Hf).
    + intros b Hb Hub. unfold c'. by rewrite used_set_data.
  - intros p Hp Hmp. assert (0 <= p / 1024) by (apply Z.div_pos; lia). unfold file_byte. rewrite Hmap by done.
    unfold c', set_block. destruct (Z.eqb_spec (p / 1024) idx) as [->|Hne]; [by rewrite Z.eqb_refl|].
    destruct (Z.eqb_spec (block_map c i (p / 1024)) (block_map c i idx)) as [E|]; [|done].
    by destruct Hne; apply (fo_inj _ _ Hf).
Qed.

(** Growing a file keeps the bytes it has. *)
Lemma grown_bytes hs c i idx s' i' r c' : file_ok c i -> 0 <= idx ->
  (forall k, 0 <= k -> k <> idx -> block_map c' i' k = block_map c i k) -> r = block_map c' i' idx ->
  (mapped c i idx -> r = block_map c i idx) -> grown hs c i idx s' i' r ->
  (forall b, data_block m L b -> in_range m blocks b -> used m L blocks c b = true -> b <> (i_block i).[12] -> c' b = c b) ->
  forall p, 0 <= p -> mapped c i (p / 1024) -> mapped c' i' (p / 1024) /\ file_byte c' i' p = file_byte c i p.
Proof.
  intros Hf Hidx Hk Hr Hm _ Hd p Hp Hmp. assert (0 <= p / 1024) as Hq by (apply Z.div_pos; lia).
  assert (block_map c' i' (p / 1024) = block_map c i (p / 1024)) as E.
  { destruct (decide (p / 1024 = idx)) as [<-|Hne]; [congruence || (rewrite <- Hr; auto)|auto]. }
  destruct (fo_data _ _ Hf _ Hq Hmp) as (H1 & H2 & H3). unfold mapped, file_byte in *. rewrite E. split; [done|].
  rewrite Hd; [done|done|done|done|]. by apply (fo_not_single _ _ Hf).
Qed.

Lemma splice_byte o v b j : fits o v b -> 0 <= j ->
  (splice o v b).[j] = if (o <=? j) && (j <? o + Z.of_nat (length v)) then v.[j - o] else b.[j].
Proof.
  intros Hf Hj. rewrite !list_lookup_total_alt, splice_lookup by done. destruct Hf.
  destruct (Z.leb_spec o j), (Z.ltb_spec j (o + Z.of_nat (length v))); case_decide; simpl; try lia; try done.
  do 2 f_equal. lia.
Qed.

(** The file after a write of [src] at [pos], from byte [total] on. *)
Definition written (src : list Z) (pos size total : Z) c i c' i' : Prop :=
  file_ok c' i' /\ i' = i <| i_block := i_block i' |> /\
  (forall p, pos + total <= p < pos + size -> mapped c' i' (p / 1024) /\ file_byte c' i' p = src.[p - pos]) /\
  (forall p, 0 <= p -> mapped c i (p / 1024) -> mapped c' i' (p / 1024) /\
     (p < pos + total \/ pos + size <= p -> file_byte c' i' p = file_byte c i p)).

Lemma write_loop_ok src pos size : 0 <= pos -> pos + size < 2 ^ 32 -> size <= Z.of_nat (length src) ->
  Forall is_byte src ->
  forall fuel hs c s i total, Vol hs c s -> file_ok c i -> 0 <= total <= size ->
  (Z.to_nat (size - total) < fuel)%nat ->
  wp (write_loop stack junk i src pos size fuel total)
     (fun s' r => (snd r = Some VFS_ERR_NO_SPACE /\ exists p, pos + total <= p < pos + size /\ no_space hs (p / 1024) s') \/
        (snd r = None /\ exists c', Vol hs c' s' /\ written src pos size total c i c' (fst r))) s.
Proof.
  intros Hp Hw Hlen Hsrc. induction fuel as [|fuel IH]; intros hs c s i total HV Hf Ht Hfuel; [lia|].
  cbn [write_loop]. destruct (Z.leb_spec size total).
  { apply wp_ret. right. split; [done|]. exists c. split; [done|]. unfold written.
    split_and!; [done|by destruct i|intros; lia|done]. }
  apply wp_get. rewrite (vol_m _ _ _ _ _ HV), (geo_bs _ (vol_geo _ _ _ _ _ HV)).
  rewrite (u32_small (pos + total)) by lia. set (a := pos + total) in *.
  pose proof (Z.mod_pos_bound a 1024 ltac:(lia)) as Hmod. pose proof (Z_div_mod_eq_full a 1024) as Hdm.
  set (chunk := Z.min (1024 - a mod 1024) (size - total)). assert (0 < chunk) by lia.
  assert (0 <= a / 1024) as Hidx by (apply Z.div_pos; lia).
  wp_call get_block_create_ok; [done..|]. intros s1 [i1 r] [[Hr Hno]|Hgr]; cbn [fst snd] in *; cbv beta iota.
  { subst r. cbn. apply wp_ret. left. split; [done|]. exists a. split; [lia|done]. }
  pose proof Hgr as (c1 & HV1 & Hf1 & Hrp & Hrm & Hk & Hmm & Hd & Hi1).
  destruct (Z.leb_spec r 0); [lia|].
  assert (mapped c1 i1 (a / 1024)) as Hmap1 by (unfold mapped; lia).
  destruct (fo_data _ _ Hf1 _ Hidx Hmap1) as (Hbd & _ & _). rewrite <- Hrm in Hbd.
  destruct (data_block_i32 _ (vol_geo _ _ _ _ _ HV) Hbd) as [_ Hru]. rewrite Hru.
  wp_call vol_read; [done|exact HV1|apply Hbd|]. intros s2 ? [-> HV2]. cbn [from_option id].
  destruct (vol_is_block _ _ _ _ _ _ HV1 (proj1 Hbd)) as [Hbl Hbb].
  pose proof (slice_length total chunk src ltac:(lia) ltac:(lia) ltac:(lia)) as Hsl.
  assert (fits (a mod 1024) (slice total chunk src) (c1 r)) as Hfit by (split; lia).
  wp_call vol_write_data; [exact HV2|done| | |].
  { rewrite splice_length; [rewrite length_app; lia|]. split; [lia|]. rewrite length_app. lia. }
  { apply Forall_splice; [by apply Forall_slice|by apply Forall_app]. }
  intros s3 ? [-> HV3]. cbn [negb]. rewrite take_splice in HV3 by (done || lia).
  destruct (set_file_block c1 i1 (a / 1024) (splice (a mod 1024) (slice total chunk src) (c1 r)) Hf1 Hidx Hmap1)
    as (Hf3 & Hmap3 & Hb3). rewrite <- Hrm in *. set (c3 := set_block c1 r _) in *.
  pose proof (grown_bytes _ _ _ _ _ _ _ c1 Hf Hidx Hk Hrm Hmm Hgr Hd) as Hold.
  eapply wp_mono; [apply (IH hs c3 s3 i1 (total + chunk)); [done|done|lia|lia]|].
  intros s4 [i4 err]. cbn [fst snd]. intros [[He (p & Hpr & Hno)]|(He & c4 & HV4 & Hf4 & Hi4 & Hnew & Hkeep)].
  { left. split; [done|]. exists p. split; [lia|done]. }
  right. split; [done|]. exists c4. split; [done|]. unfold written. split_and!; [done| | |].
  - rewrite Hi4, Hi1. by destruct i.
  - intros p Hpr. destruct (decide (a + chunk <= p)); [apply Hnew; lia|].
    assert (p / 1024 = a / 1024) as Hpa.
    { symmetry. apply (Z.div_unique p 1024 _ (a mod 1024 + (p - a))); lia. }
    assert (p mod 1024 = a mod 1024 + (p - a)) as Hpm by (pose proof (Z_div_mod_eq_full p 1024); lia).
    destruct (Hkeep p ltac:(lia)) as [Hm4 Hb4].
    { unfold mapped. rewrite Hmap3 by lia. rewrite Hpa. lia. }
    split; [done|]. rewrite Hb4 by lia. rewrite Hb3; [|lia|by rewrite Hpa]. rewrite Hpa, Z.eqb_refl.
    rewrite splice_byte, Hsl by (done || lia). rewrite Hpm.
    destruct (Z.leb_spec (a mod 1024) (a mod 1024 + (p - a))); [|lia].
    destruct (Z.ltb_spec (a mod 1024 + (p - a)) (a mod 1024 + chunk)); [|lia]. simpl.
    rewrite !list_lookup_total_alt, slice_lookup by lia. do 2 f_equal. lia.
  - intros p Hp0 Hmp. destruct (Hold p Hp0 Hmp) as [Hm1 Hb1].
    assert (0 <= p / 1024) by (apply Z.div_pos; lia).
    destruct (Hkeep p Hp0) as [Hm4 Hb4]; [unfold mapped; by rewrite Hmap3|]. split; [done|]. intros Hout.
    rewrite Hb4 by lia. rewrite Hb3 by done. rewrite <- Hb1.
    destruct (Z.eqb_spec (p / 1024) (a / 1024)) as [E|]; [|done].
    rewrite splice_byte, Hsl by (done || (apply Z.mod_pos_bound; lia)).
    unfold file_byte. rewrite E, <- Hrm. destruct (Z.leb_spec (a mod 1024) (p mod 1024)); [|done].
    destruct (Z.ltb_spec (p mod 1024) (a mod 1024 + chunk)); [|done].
    pose proof (Z_div_mod_eq_full p 1024). lia.
Qed.

(** ** The calls *)

Lemma vol_handles hs c (s : Ext2 (D := D)) f : Vol hs c s -> Vol (f hs) c (s <| ext2_handles ::= f |>).
Proof.
  intros [[H1 H2 H3 H4 H5 H6] Hd]. split; [|done]. split; unfold update_field; simpl; try done. by rewrite H2.
Qed.

Lemma set_handle_ok hs c (s : Ext2 (D := D)) h f : Vol hs c s ->
  wp (set_handle h f) (fun s' _ => Vol (alter f (Z.to_nat h) hs) c s') s.
Proof. intros HV. apply wp_modify. by apply vol_handles. Qed.

Lemma inode_at_wf hs c s n : Vol hs c s -> inode_valid m n -> inode_wf (inode_at m L c n).
Proof.
  intros HV Hn. pose proof (inode_offset_range m L n HL).
  destruct (vol_is_block _ _ _ _ _ _ HV (inode_block_ok m L n HL Hn)) as [Hbl Hbb].
  apply inode_of_bytes_wf; [|by apply Forall_slice].
  apply Nat2Z.inj. rewrite slice_length by lia. done.
Qed.

Definition can_read (h : Ext2Handle) : bool :=
  has_flag (h_flags h) VFS_O_RDONLY || (Z.land (h_flags h) VFS_O_RDWR =? VFS_O_RDWR).
Definition can_write (h : Ext2Handle) : bool :=
  has_flag (h_flags h) VFS_O_WRONLY || (Z.land (h_flags h) VFS_O_RDWR =? VFS_O_RDWR).

(** An open handle on a file all of whose bytes have a block. *)
Record handle_file hs c handle : Prop := {
  hf_open : handle_ok hs handle = true;
  hf_inode : inode_valid m (h_inode_num hs.[handle]);
  hf_pos : is_u32 (h_pos hs.[handle]);
  hf_file : file_ok c (inode_at m L c (h_inode_num hs.[handle]));
  hf_mapped : forall p, 0 <= p < i_size (inode_at m L c (h_inode_num hs.[handle])) ->
    mapped c (inode_at m L c (h_inode_num hs.[handle])) (p / 1024)
}.

(** What a read returns. *)
Definition read_count (fsize pos size : Z) : Z := Z.max 0 (Z.min size (fsize - pos)).
Definition file_slice c i pos n : list Z := map (file_byte c i) (seqZ pos n).

Lemma handle_lookup hs handle : handle_ok hs handle = true -> 0 <= handle /\ hs !! Z.to_nat handle = Some hs.[handle].
Proof.
  unfold handle_ok. intros Hh. bsimpl. split; [done|].
  destruct (decide (Z.to_nat handle < length hs)%nat); [by apply lookup_total_Some|].
  exfalso. rewrite list_lookup_total_alt, lookup_ge_None_2 in * by lia. done.
Qed.

Lemma alter_insert (hs : list Ext2Handle) k f h : hs !! k = Some h -> alter f k hs = <[k := f h]> hs.
Proof.
  revert k. induction hs as [|x hs IH]; intros [|k] Hk; simpl in *; [done|done|congruence|].
  f_equal. by apply IH.
Qed.

(** The handle table after a call that moved the position. *)
Definition at_pos hs handle p : list Ext2Handle :=
  <[Z.to_nat handle := hs.[handle] <| h_pos := p |>]> hs.

Lemma set_pos_ok hs c (s : Ext2 (D := D)) handle p f : Vol hs c s -> handle_ok hs handle = true ->
  f hs.[handle] = (hs.[handle]) <| h_pos := p |> ->
  wp (set_handle handle f) (fun s' _ => Vol (at_pos hs handle p) c s') s.
Proof.
  intros HV Hh Hf. eapply wp_mono; [by apply (set_handle_ok hs c)|]. intros s' u HV'. cbv beta in HV'.
  destruct (handle_lookup _ _ Hh) as [_ Hl]. rewrite (alter_insert _ _ _ _ Hl), Hf in HV'. done.
Qed.

Lemma at_pos_id hs handle : handle_ok hs handle = true -> at_pos hs handle (h_pos hs.[handle]) = hs.
Proof.
  intros Hh. destruct (handle_lookup _ _ Hh) as [_ Hl]. apply list_insert_id. rewrite Hl. by destruct (hs.[handle]).
Qed.

Lemma ext2_read_ok hs c s handle size : Vol hs c s -> handle_file hs c handle -> can_read hs.[handle] = true ->
  0 <= size < 2 ^ 31 ->
  let h := hs.[handle] in let i := inode_at m L c (h_inode_num h) in
  let n := read_count (i_size i) (h_pos h) size in
  wp (ext2_read stack junk handle false size)
     (fun s' r => r = (n, file_slice c i (h_pos h) n) /\ Vol (at_pos hs handle (h_pos h + n)) c s') s.
Proof.
  intros HV [Ho Hin Hp Hf Hm] Hr Hs h i n. unfold is_u32 in Hp. fold h i in Hin, Hp, Hf, Hm, Hr.
  pose proof (iw_size _ (inode_at_wf _ _ _ _ HV Hin)) as Hsz. fold i in Hsz. unfold is_u32 in Hsz.
  unfold ext2_read. apply wp_get. rewrite (rep_hs _ _ _ _ (vol_rep _ _ _ _ _ HV)), Ho. cbn [negb orb]. fold h.
  unfold can_read in Hr. rewrite <- negb_orb, Hr. cbn [negb].
  wp_call read_inode_ok; [done|exact HL|done|done|]. intros s1 ? [-> HV1]. fold i.
  destruct (Z.leb_spec (i_size i) (h_pos h)) as [Hle|Hlt].
  { apply wp_ret. assert (n = 0) as -> by (unfold n, read_count; lia).
    rewrite Z.add_0_r. unfold h. by rewrite at_pos_id. }
  rewrite (u32_small (i_size i - h_pos h)) by lia.
  assert (Z.min size (i_size i - h_pos h) = n) as -> by (unfold n, read_count; lia).
  assert (0 <= n <= size /\ n <= i_size i - h_pos h) as Hn by (unfold n, read_count; lia).
  wp_call (read_loop_ok c i (h_pos h) n Hf); [lia|lia|intros p Hpr; apply Hm; lia|done|lia|lia|].
  intros s2 ? [-> HV2]. cbv beta iota. rewrite Z.sub_0_r, Z.add_0_r, length_map, length_seqZ.
  rewrite Z2Nat.id by lia.
  wp_call (set_pos_ok hs c s2 handle (h_pos h + n)); [done|done| |].
  { fold h. by rewrite u32_small by lia. }
  intros s3 u HV3. apply wp_ret. rewrite i32_small by lia. done.
Qed.

(** Writing the inode table changes no file. *)
Lemma set_table_data c n v b : inode_valid m n -> data_block m L b ->
  set_block c (inode_block_of m L n) v b = c b.
Proof.
  intros Hn [_ Hb]. unfold set_block. destruct (Z.eqb_spec b (inode_block_of m L n)) as [->|]; [|done].
  by destruct (Hb _ (inode_table_valid m L n HL Hn)).
Qed.

Lemma set_table_used c n v x : inode_valid m n -> in_range m blocks x ->
  used m L blocks (set_block c (inode_block_of m L n) v) x = used m L blocks c x.
Proof.
  intros Hn Hx. destruct (bm_in_range m blocks x (block_bitmaps_ok _ _ HL) Hx) as [Hg _].
  unfold used, set_block. destruct (Z.eqb_spec (bm_place m L blocks x) (inode_block_of m L n)) as [E|]; [|done].
  pose proof (lay_inj _ _ HL (MBlockBitmap (bm_group blocks x)) (MTable _ _) Hg (inode_table_valid m L n HL Hn) E) as Hx'.
  discriminate.
Qed.

Lemma file_ok_table c i i' n v : file_ok c i -> inode_valid m n -> i_block i' = i_block i ->
  let c' := set_block c (inode_block_of m L n) v in
  file_ok c' i' /\ (forall k, 0 <= k -> block_map c' i' k = block_map c i k) /\
  (forall p, 0 <= p -> mapped c i (p / 1024) -> file_byte c' i' p = file_byte c i p).
Proof.
  intros Hf Hn Hi c'.
  assert (forall k, 0 <= k -> block_map c' i' k = block_map c i k) as Hmap.
  { intros k Hk. unfold block_map. rewrite Hi. destruct (k <? 12); [done|]. destruct (256 <=? k - 12); [done|].
    destruct (Z.eqb_spec (i_block i).[12] 0) as [|Hs]; [done|].
    unfold c'. rewrite set_table_data; [done|done|]. by apply (fo_single _ _ Hf). }
  split_and!; [|done|].
  - apply (file_ok_change c i c' i' (-1) 0); [done|by rewrite Hi; apply (fo_block _ _ Hf)|
      by rewrite Hi; apply (fo_u32 _ _ Hf)| | |lia| |].
    + rewrite Hi. intros Hs. destruct (fo_single _ _ Hf Hs) as (? & ? & ?). split_and!; [done|done|].
      unfold c'. by rewrite set_table_used.
    + intros k Hk. rewrite Hmap by done. destruct (Z.eqb_spec k (-1)); [lia|done].
    + rewrite Hi. apply (fo_not_single _ _ Hf).
    + intros b Hb Hu. unfold c'. by rewrite set_table_used.
  - intros p Hp Hmp. assert (0 <= p / 1024) by (apply Z.div_pos; lia).
    unfold file_byte. rewrite Hmap by done. unfold c'. rewrite set_table_data; [done|done|].
    by apply (fo_data _ _ Hf).
Qed.

(** The file after a successful write of [src] at [pos]. *)
Definition file_written hs (c : volume) n (src : list Z) pos size (s' : Ext2 (D := D)) : Prop :=
  let i := inode_at m L c n in
  exists c', Vol hs c' s' /\
    let i' := inode_at m L c' n in
    file_ok c' i' /\ i_size i' = Z.max (i_size i) (pos + size) /\
    (forall p, pos <= p < pos + size -> mapped c' i' (p / 1024) /\ file_byte c' i' p = src.[p - pos]) /\
    (forall p, 0 <= p -> mapped c i (p / 1024) -> mapped c' i' (p / 1024) /\
       (p < pos \/ pos + size <= p -> file_byte c' i' p = file_byte c i p)).

Lemma ext2_write_ok hs c s handle src size : Vol hs c s -> handle_ok hs handle = true ->
  let h := hs.[handle] in let i := inode_at m L c (h_inode_num h) in
  can_write h = true -> inode_valid m (h_inode_num h) -> file_ok c i -> 0 <= h_pos h ->
  0 <= size < 2 ^ 31 -> h_pos h + size < 2 ^ 32 -> size <= Z.of_nat (length src) -> Forall is_byte src ->
  wp (ext2_write stack junk handle (Some src) size)
     (fun s' r => (r = VFS_ERR_NO_SPACE /\ exists p, h_pos h <= p < h_pos h + size /\ no_space hs (p / 1024) s') \/
        (r = size /\ file_written (at_pos hs handle (h_pos h + size)) c (h_inode_num h) src (h_pos h) size s')) s.
Proof.
  intros HV Ho h i Hw Hin Hf Hp Hs Hps Hlen Hsrc.
  pose proof (inode_at_wf _ _ _ _ HV Hin) as Hwf. fold i in Hwf.
  unfold ext2_write. apply wp_get. rewrite (rep_hs _ _ _ _ (vol_rep _ _ _ _ _ HV)), Ho. cbn [negb]. fold h.
  unfold can_write in Hw. rewrite <- negb_orb, Hw. cbn [negb].
  wp_call read_inode_ok; [done|exact HL|done|done|]. intros s1 ? [-> HV1]. fold i.
  wp_call (write_loop_ok src (h_pos h) size Hp Hps Hlen Hsrc); [done|done|lia|lia|].
  intros s2 [i1 err]. cbn [fst snd]. intros [[-> (p & Hpr & Hno)]|(-> & c1 & HV2 & Hf1 & Hi1 & Hnew & Hkeep)]; cbv beta iota.
  { apply wp_ret. left. split; [done|]. exists p. split; [lia|done]. }
  wp_call (set_pos_ok hs c1 s2 handle (h_pos h +u size)); [done|done|done|]. intros s3 u HV3.
  rewrite (u32_small (h_pos h + size)) in * by lia.
  assert (i_size i1 = i_size i) as Hsz1 by (by rewrite Hi1). rewrite Hsz1.
  set (new_size := if i_size i <? h_pos h + size then h_pos h + size else i_size i).
  assert (new_size = Z.max (i_size i) (h_pos h + size)) as Hns.
  { unfold new_size. destruct (Z.ltb_spec (i_size i) (h_pos h + size)); lia. }
  set (i2 := i1 <| i_size := new_size |> <| i_blocks := (new_size +u 511) / 512 |>).
  assert (inode_wf i2) as Hwf2.
  { pose proof (iw_size _ Hwf) as Hsz. unfold is_u32 in Hsz.
    assert (is_u32 ((new_size +u 511) / 512)).
    { pose proof (u32_range (new_size + 511)). unfold is_u32. split; [apply Z.div_pos; lia|apply Z.div_lt_upper_bound; lia]. }
    unfold i2, update_field. rewrite Hi1. destruct Hwf. split; simpl; try done.
    - unfold is_u32 in *. lia.
    - split; [apply (fo_block _ _ Hf1)|apply (fo_u32 _ _ Hf1)]. }
  wp_call write_inode_ok; [done|exact HL|exact HV3|done|done|done|]. intros s4 ? [-> HV4].
  apply wp_ret. right. rewrite i32_small by lia. split; [done|].
  destruct (file_ok_table c1 i1 i2 (h_inode_num h) (splice (inode_offset_of m (h_inode_num h)) (inode_bytes i2)
    (c1 (inode_block_of m L (h_inode_num h)))) Hf1 Hin ltac:(done)) as (Hf2 & Hm2 & Hb2).
  eexists. split; [exact HV4|]. cbv zeta.
  rewrite inode_at_write; [|done|done|done|done|by apply (vol_is_block _ _ _ _ _ _ HV2), inode_block_ok].
  rewrite Z.eqb_refl. split_and!; [done|exact Hns| |].
  - intros p Hpr. assert (0 <= p / 1024) by (apply Z.div_pos; lia). destruct (Hnew p ltac:(lia)) as [Hmp Hbp].
    unfold mapped in *. rewrite Hm2, Hb2 by (done || lia). done.
  - intros p Hp0 Hmp. assert (0 <= p / 1024) by (apply Z.div_pos; lia).
    destruct (Hkeep p Hp0 Hmp) as [Hmp1 Hbp]. unfold mapped in *. rewrite Hm2 by done. split; [done|].
    intros Hout. rewrite Hb2 by done. apply Hbp. lia.
Qed.

Lemma ext2_lseek_ok hs c s handle offset whence : Vol hs c s -> handle_ok hs handle = true ->
  inode_valid m (h_inode_num hs.[handle]) ->
  let h := hs.[handle] in let i := inode_at m L c (h_inode_num h) in
  wp (ext2_lseek stack junk handle offset whence)
     (fun s' r => match seek_target (h_pos h) (i_size i) offset whence with
                  | None => r = VFS_ERR_INVALID_ARG /\ Vol hs c s'
                  | Some t => r = t /\ Vol (at_pos hs handle t) c s'
                  end) s.
Proof.
  intros HV Ho Hin h i. unfold ext2_lseek. apply wp_get.
  rewrite (rep_hs _ _ _ _ (vol_rep _ _ _ _ _ HV)), Ho. cbn [negb]. fold h.
  wp_call read_inode_ok; [done|exact HL|done|done|]. intros s1 ? [-> HV1]. fold i.
  destruct (seek_target (h_pos h) (i_size i) offset whence) as [t|]; [|by apply wp_ret].
  wp_call (set_pos_ok hs c s1 handle t); [done|done|done|]. intros s2 u HV2. by apply wp_ret.
Qed.

Lemma at_pos_ok hs handle p : handle_ok hs handle = true ->
  handle_ok (at_pos hs handle p) handle = true /\ (at_pos hs handle p).[handle] = hs.[handle] <| h_pos := p |> /\
  forall q, at_pos (at_pos hs handle p) handle q = at_pos hs handle q.
Proof.
  intros Hh. destruct (handle_lookup _ _ Hh) as [Hpos Hl]. pose proof (lookup_lt_Some _ _ _ Hl) as Hlt.
  assert ((at_pos hs handle p).[handle] = hs.[handle] <| h_pos := p |>) as Hat.
  { unfold at_pos. by rewrite list_lookup_total_insert_eq. }
  split_and!; [|done|].
  - unfold handle_ok in *. rewrite Hat. done.
  - intros q. unfold at_pos at 1. rewrite Hat. unfold at_pos. rewrite list_insert_insert_eq. done.
Qed.

(** Reading from an open handle on a file whose bytes all have a block returns
    exactly the bytes of the file from the handle's position on, as many as asked
    for but none past the end of the file; the position moves by that number and
    nothing on the volume changes. *)
Theorem ext2_read_returns_file hs c (s : Ext2 (D := D)) handle size :
  Vol hs c s -> handle_file hs c handle -> can_read hs.[handle] = true -> 0 <= size < 2 ^ 31 ->
  let h := hs.[handle] in let i := inode_at m L c (h_inode_num h) in
  let n := read_count (i_size i) (h_pos h) size in
  exists s', ext2_read stack junk handle false size s = (s', (n, file_slice c i (h_pos h) n)) /\
    Vol (at_pos hs handle (h_pos h + n)) c s'.
Proof.
  intros HV Hh Hr Hs h i n.
  pose proof (ext2_read_ok hs c s handle size HV Hh Hr Hs) as Hok.
  apply wp_run in Hok as (s' & r & Hrun & -> & HV'). eauto.
Qed.

(** C15: What is written through a handle is what is read back through it.  A write
    of [size] bytes within or at the end of a file either reports that there is no
    block to be had (the file is at its maximal length, or every block of the
    volume is in use) or returns [size]; in that case, after a seek to the old
    position, a read of [size] bytes returns exactly the bytes written, the file is
    as long as it has to be, and its other bytes are unchanged. *)
Theorem ext2_write_read_roundtrip hs c (s : Ext2 (D := D)) handle src :
  Vol hs c s -> handle_file hs c handle -> can_read hs.[handle] = true -> can_write hs.[handle] = true ->
  let h := hs.[handle] in let i := inode_at m L c (h_inode_num h) in
  let pos := h_pos h in let size := Z.of_nat (length src) in
  pos <= i_size i -> pos + size < 2 ^ 31 -> Forall is_byte src ->
  exists s1 r, ext2_write stack junk handle (Some src) size s = (s1, r) /\
    ((r = VFS_ERR_NO_SPACE /\ exists p, pos <= p < pos + size /\ no_space hs (p / 1024) s1) \/
     (r = size /\ file_written (at_pos hs handle (pos + size)) c (h_inode_num h) src pos size s1 /\
      exists s2 s3, ext2_lseek stack junk handle pos VFS_SEEK_SET s1 = (s2, pos) /\
        ext2_read stack junk handle false size s2 = (s3, (size, src)))).
Proof.
  intros HV [Ho Hin Hp Hf Hm] Hr Hw h i pos size Hpi Hps Hsrc. fold h i in Hin, Hp, Hf, Hm, Hr, Hw.
  assert (0 <= pos) as Hpos by apply Hp. assert (0 <= size < 2 ^ 31) as Hsize by lia.
  assert (pos + size < 2 ^ 32) as Hend by lia. assert (size <= Z.of_nat (length src)) as Hlen by done.
  pose proof (ext2_write_ok hs c s handle src size HV Ho Hw Hin Hf Hpos Hsize Hend Hlen Hsrc) as Hok. apply wp_run in Hok as (s1 & r & Hrun & Hout).
  exists s1, r. split; [done|]. destruct Hout as [?|[-> Hwr]]; [by left|right]. split; [done|]. split; [done|].
  destruct Hwr as (c' & HV1 & Hf' & Hsz' & Hnew & Hkeep). fold h pos in HV1, Hnew, Hkeep, Hsz'. fold i in Hsz', Hkeep.
  destruct (at_pos_ok hs handle (pos + size) Ho) as (Ho1 & Hat1 & Hap1).
  pose proof (ext2_lseek_ok _ c' s1 handle pos VFS_SEEK_SET HV1 Ho1 ltac:(by rewrite Hat1)) as Hok.
  apply wp_run in Hok as (s2 & r & Hseek & Hres).
  unfold seek_target in Hres. simpl in Hres. rewrite Z.add_0_l, i32_small in Hres by lia.
  destruct (Z.ltb_spec pos 0); [lia|]. destruct Hres as [-> HV2]. rewrite Hap1 in HV2.
  destruct (at_pos_ok hs handle pos Ho) as (Ho2 & Hat2 & Hap2).
  assert (handle_file (at_pos hs handle pos) c' handle) as Hhf.
  { split; [done|by rewrite Hat2|by rewrite Hat2|by rewrite Hat2|]. rewrite Hat2. unfold update_field; cbn [h_inode_num].
    fold h. intros p Hpr. destruct (decide (p < i_size i)); [apply Hkeep; [lia|apply Hm; lia]|apply Hnew; lia]. }
  pose proof (ext2_read_ok _ c' s2 handle size HV2 Hhf ltac:(by rewrite Hat2) ltac:(lia)) as Hok.
  apply wp_run in Hok as (s3 & r & Hread & -> & _).
  exists s2, s3. split; [done|]. rewrite Hread, Hat2. unfold update_field; cbn [h_inode_num h_pos]. fold h pos.
  assert (read_count (i_size (inode_at m L c' (h_inode_num h))) pos size = size) as ->
    by (unfold read_count; lia).
  do 2 f_equal. unfold file_slice. apply list_eq. intros j. rewrite list_lookup_fmap.
  destruct (decide (j < length src)%nat) as [Hj|Hj].
  - rewrite lookup_seqZ_lt by lia. simpl. rewrite (proj2 (Hnew (pos + Z.of_nat j) ltac:(lia))).
    rewrite lookup_total_Some by lia. do 2 f_equal. lia.
  - rewrite lookup_seqZ_ge by lia. by rewrite lookup_ge_None_2 by lia.
Qed.
End File.

(** ** The file of the demonstration volume *)

Definition demo_open : list Ext2Handle := <[0%nat := Build_Ext2Handle 1 1 3 1400 VFS_O_RDWR]> demo_handles.

Lemma demo_used b : 1 <= b < 65 -> used demo_m demo_L (block_bitmaps demo_m) demo_vol b = (b <=? 8).
Proof.
  intros Hb. apply eqb_prop. revert b Hb. apply (range_check (fun b => eqb _ _) 1 64). vm_compute. reflexivity.
Qed.

Lemma demo_map k : 0 <= k -> block_map demo_vol demo_file k = if k =? 0 then 7 else if k =? 1 then 8 else 0.
Proof.
  intros Hk. destruct (decide (12 <= k)) as [H12|H12].
  - unfold block_map. destruct (Z.ltb_spec k 12); [lia|].
    destruct (Z.eqb_spec k 0), (Z.eqb_spec k 1); try lia. by destruct (256 <=? k - 12).
  - apply Z.eqb_eq. assert (0 <= k < 0 + 12) as Hb by lia. clear Hk H12. revert k Hb.
    apply (range_check (fun k => _ =? _) 0 12). vm_compute. reflexivity.
Qed.

(** A file whose direct words name blocks 6 to 8, each once. *)
Lemma demo_file_ok_of i : length (i_block i) = 15%nat -> Forall is_u32 (i_block i) -> (i_block i).[12] = 0 ->
  (forall k, 0 <= k -> mapped demo_vol i k -> 6 <= block_map demo_vol i k <= 8) ->
  (forall k k', 0 <= k -> 0 <= k' -> mapped demo_vol i k -> block_map demo_vol i k = block_map demo_vol i k' -> k = k') ->
  file_ok demo_m demo_L demo_vol i.
Proof.
  intros Hl Hu Hs Hm Hinj. split; [done|done|done| |done| |].
  - intros k Hk Hmk. pose proof (Hm k Hk Hmk).
    split_and!; [apply demo_data_block; lia|unfold in_range; simpl; lia|].
    rewrite demo_used by lia. apply Z.leb_le. lia.
  - intros k Hk Hmk. rewrite Hs. pose proof (Hm k Hk Hmk). lia.
  - intros b Hb Hub. unfold in_range in Hb. simpl in Hb. rewrite demo_used in Hub by lia. apply Z.leb_gt in Hub.
    apply demo_data_block. lia.
Qed.

Lemma demo_file_ok : file_ok demo_m demo_L demo_vol demo_file.
Proof.
  apply demo_file_ok_of; [done|repeat constructor; lia|done| |].
  - intros k Hk Hmk. unfold mapped in Hmk. rewrite demo_map in * by done. repeat case_if; lia.
  - intros k k' Hk Hk' Hmk He. unfold mapped in Hmk. rewrite !demo_map in * by done.
    repeat case_if; bsimpl; lia.
Qed.

Lemma demo_inode : inode_at demo_m demo_L demo_vol 3 = demo_file.
Proof. vm_compute. reflexivity. Qed.

Lemma demo_handle_file : handle_file demo_m demo_L demo_open demo_vol 0.
Proof.
  split; [done| | | |]; change (demo_open.[0]) with (Build_Ext2Handle 1 1 3 1400 VFS_O_RDWR); cbn [h_inode_num h_pos].
  - unfold inode_valid. simpl. lia.
  - unfold is_u32. lia.
  - rewrite demo_inode. apply demo_file_ok.
  - rewrite demo_inode. intros p Hp. change (i_size demo_file) with 1500 in Hp. unfold mapped.
    rewrite demo_map by (apply Z.div_pos; lia).
    assert (p / 1024 < 2) by (apply Z.div_lt_upper_bound; lia).
    assert (0 <= p / 1024) by (apply Z.div_pos; lia).
    destruct (Z.eqb_spec (p / 1024) 0), (Z.eqb_spec (p / 1024) 1); lia.
Qed.

Lemma ext2_read_returns_file_witness :
  let h := Build_Ext2Handle 1 1 3 1400 VFS_O_RDWR in
  read_count 1500 1400 200 = 100 /\
  file_slice demo_vol demo_file 1400 100 = drop 1400 demo_text /\
  exists s', ext2_read zero_sector demo_junk 0 false 200 (demo_with demo_open) =
      (s', (100, file_slice demo_vol demo_file 1400 100)) /\
    Vol demo_m demo_L (at_pos demo_open 0 1500) demo_vol s'.
Proof.
  split; [done|]. split; [vm_compute; reflexivity|]. rewrite <- demo_inode.
  apply (ext2_read_returns_file zero_sector demo_junk zero_sector_ok
    demo_m demo_L demo_layout demo_open demo_vol (demo_with demo_open) 0 200
    (demo_Vol_with _) demo_handle_file); [done|lia].
Defined.

(** A write across the end of the file: one block is rewritten, one is added. *)
Definition demo_src : list Z := replicate 1000 55.

Lemma ext2_write_read_roundtrip_witness :
  snd (ext2_write zero_sector demo_junk 0 (Some demo_src) 1000 (demo_with demo_open)) = 1000 /\
  exists s1 r, ext2_write zero_sector demo_junk 0 (Some demo_src) 1000 (demo_with demo_open) = (s1, r) /\
    ((r = VFS_ERR_NO_SPACE /\ exists p, 1400 <= p < 1400 + 1000 /\ no_space demo_m demo_L demo_open (p / 1024) s1) \/
     (r = 1000 /\ file_written demo_m demo_L (at_pos demo_open 0 (1400 + 1000)) demo_vol 3 demo_src 1400 1000 s1 /\
      exists s2 s3, ext2_lseek zero_sector demo_junk 0 1400 VFS_SEEK_SET s1 = (s2, 1400) /\
        ext2_read zero_sector demo_junk 0 false 1000 s2 = (s3, (1000, demo_src)))).
Proof.
  split; [vm_compute; reflexivity|].
  apply (ext2_write_read_roundtrip zero_sector demo_junk zero_sector_ok ltac:(by apply Forall_replicate)
    demo_m demo_L demo_layout ltac:(simpl; lia) ltac:(simpl; lia) demo_open demo_vol (demo_with demo_open) 0 demo_src
    (demo_Vol_with _) demo_handle_file); [done|done| | |by apply Forall_replicate].
  - change (h_inode_num demo_open.[0]) with 3. rewrite demo_inode. vm_compute. done.
  - vm_compute. done.
Defined.
