(* ===== verification/Ext2Block.v ===== *)
(** * The ext2 driver: a directory block as a list of entries

    A well-formed directory block is a chain of entries that fills the block.  The
    walk, the split of an entry and the removal of an entry are operations on the
    list of entries. *)
From S2P Require Import Prelude BlockDev Bytes Ext2 Ext2Dir.

Record dentry := { d_ino : Z; d_len : Z; d_type : Z; d_name : list Z }.

#[export] Instance dentry_fields : Fields dentry := fun e =>
  Build_dentry (d_ino e) (d_len e) (d_type e) (d_name e).

Definition name_len (e : dentry) : Z := Z.of_nat (length (d_name e)).

Definition dentry_bytes (e : dentry) : list Z :=
  le_bytes 4 (d_ino e) ++ le_bytes 2 (d_len e) ++ [name_len e; d_type e] ++ d_name e.

Record dentry_wf (e : dentry) : Prop := {
  dw_ino : is_u32 (d_ino e);
  dw_len : needed_len (name_len e) <= d_len e < 2 ^ 16;
  dw_type : is_byte (d_type e);
  dw_name : Forall is_byte (d_name e) /\ name_len e <= 255
}.

(** The entry lies at the offset. *)
Definition entry_at (block : list Z) (off : Z) (e : dentry) : Prop :=
  dentry_wf e /\ slice off (8 + name_len e) block = dentry_bytes e.

(** The entries of the block between two offsets. *)
Fixpoint dir_seg (block : list Z) (off : Z) (l : list dentry) (fin : Z) : Prop :=
  match l with
  | [] => off = fin
  | e :: l' => entry_at block off e /\ dir_seg block (off + d_len e) l' fin
  end.

Definition total_len (l : list dentry) : Z := foldr (fun e n => d_len e + n) 0 l.

(** [needed_len] rounds [8 + n] up to a multiple of four. *)
Lemma needed_len_ok n : 0 <= n <= 255 ->
  needed_len n = (8 + n + 3) / 4 * 4 /\ 8 + n <= needed_len n < 8 + n + 4.
Proof.
  intros Hn. pose proof (Z_div_mod_eq_full (8 + n + 3) 4). pose proof (Z.mod_pos_bound (8 + n + 3) 4 ltac:(lia)).
  assert (needed_len n = (8 + n + 3) / 4 * 4) as Hd; [|rewrite Hd; lia].
  unfold needed_len. rewrite <- Z.ldiff_land. change (Z.ldiff (8 + n + 3) 3) with (Z.ldiff (8 + n + 3) (Z.ones 2)).
  rewrite Z.ldiff_ones_r, Z.shiftl_mul_pow2, Z.shiftr_div_pow2 by lia. change (2 ^ 2) with 4.
  apply u16_small. lia.
Qed.

Lemma name_len_range e : dentry_wf e -> 0 <= name_len e <= 255.
Proof. intros He. destruct (dw_name _ He). unfold name_len in *. lia. Qed.

Lemma dentry_len_pos e : dentry_wf e -> 8 + name_len e <= d_len e < 2 ^ 16.
Proof.
  intros He. pose proof (name_len_range _ He) as Hn. destruct (needed_len_ok _ Hn). pose proof (dw_len _ He). lia.
Qed.

Lemma dentry_bytes_length e : Z.of_nat (length (dentry_bytes e)) = 8 + name_len e.
Proof.
  unfold dentry_bytes, name_len. rewrite !length_app, !le_bytes_length. simpl. lia.
Qed.

Lemma dentry_bytes_byte e : dentry_wf e -> Forall is_byte (dentry_bytes e).
Proof.
  intros He. pose proof (name_len_range _ He). unfold dentry_bytes. repeat apply Forall_app_2.
  - apply le_bytes_byte.
  - apply le_bytes_byte.
  - repeat constructor; [lia|lia|apply He|apply He].
  - apply He.
Qed.

(** The fields the code reads of an entry. *)
Section Fields.
Context (block : list Z) (Hb : Forall is_byte block) (off : Z) (e : dentry).
Context (Hoff : 0 <= off) (Hlen : off + d_len e <= Z.of_nat (length block)) (He : entry_at block off e).

Lemma entry_sub o n : 0 <= o -> 0 <= n -> o + n <= 8 + name_len e ->
  slice (off + o) n block = slice o n (dentry_bytes e).
Proof.
  intros Ho Hn Hs. destruct He as [_ <-]. symmetry. by apply slice_slice.
Qed.

Lemma e_inode_at : e_inode block off = d_ino e.
Proof.
  pose proof (dentry_len_pos _ (proj1 He)). pose proof (name_len_range _ (proj1 He)).
  unfold e_inode. rewrite read_le32_ok by (done || lia).
  rewrite <- (Z.add_0_r off) at 1. rewrite entry_sub by lia.
  change (slice 0 4 (dentry_bytes e)) with (le_bytes 4 (d_ino e)).
  rewrite le_val_bytes. apply Z.mod_small, He.
Qed.

Lemma e_rec_len_at : e_rec_len block off = d_len e.
Proof.
  pose proof (dentry_len_pos _ (proj1 He)). pose proof (name_len_range _ (proj1 He)).
  unfold e_rec_len. rewrite read_le16_ok by (done || lia). rewrite entry_sub by lia.
  change (slice 4 2 (dentry_bytes e)) with (le_bytes 2 (d_len e)).
  rewrite le_val_bytes. apply Z.mod_small. lia.
Qed.

Lemma e_name_len_at : e_name_len block off = name_len e.
Proof.
  pose proof (dentry_len_pos _ (proj1 He)). pose proof (name_len_range _ (proj1 He)).
  pose proof (entry_sub 6 1 ltac:(lia) ltac:(lia) ltac:(lia)) as Hs. unfold e_name_len.
  rewrite slice_cons in Hs by lia. change (slice 6 1 (dentry_bytes e)) with [name_len e] in Hs. congruence.
Qed.

Lemma e_name_at : e_name block off = c_string (d_name e).
Proof.
  pose proof (name_len_range _ (proj1 He)). unfold e_name. rewrite e_name_len_at, entry_sub by lia. f_equal.
  unfold slice, dentry_bytes. change (Z.to_nat 8) with 8%nat. cbn [le_bytes app drop].
  unfold name_len. rewrite Nat2Z.id. by apply take_ge.
Qed.
End Fields.

Lemma dir_seg_app block l1 l2 : forall off fin,
  dir_seg block off (l1 ++ l2) fin <-> dir_seg block off l1 (off + total_len l1) /\ dir_seg block (off + total_len l1) l2 fin.
Proof.
  induction l1 as [|e l1 IH]; intros off fin; cbn [app dir_seg total_len foldr].
  - rewrite Z.add_0_r. naive_solver.
  - fold (total_len l1). rewrite IH. rewrite Z.add_assoc. naive_solver.
Qed.

Lemma dir_seg_total block l : forall off fin, dir_seg block off l fin -> fin = off + total_len l /\
  0 <= 8 * Z.of_nat (length l) <= total_len l.
Proof.
  induction l as [|e l IH]; intros off fin Hs; cbn [dir_seg total_len foldr length] in *; [lia|].
  destruct Hs as [He Hs]. destruct (IH _ _ Hs) as [-> ?]. fold (total_len l) in *.
  pose proof (dentry_len_pos _ (proj1 He)). pose proof (name_len_range _ (proj1 He)). lia.
Qed.

(** Writes outside the segment. *)
Lemma dir_seg_frame block block' l : forall off fin, 0 <= off -> dir_seg block off l fin ->
  (forall o n, off <= o -> 0 <= n -> o + n <= fin -> slice o n block' = slice o n block) ->
  dir_seg block' off l fin.
Proof.
  induction l as [|e l IH]; intros off fin Ho Hs Hf; [done|]. destruct Hs as [[He Hsl] Hs].
  pose proof (dentry_len_pos _ He). pose proof (name_len_range _ He).
  destruct (dir_seg_total _ _ _ _ Hs) as [-> ?]. cbn [dir_seg]. split.
  - split; [done|]. rewrite Hf by lia. done.
  - apply IH; [lia|done|]. intros o n Ho' Hn Hon. apply Hf; lia.
Qed.

(** ** The walk *)

(** The first entry a test accepts, with the entries around it. *)
Fixpoint find_split (q : dentry -> bool) (l : list dentry) : option (list dentry * dentry * list dentry) :=
  match l with
  | [] => None
  | e :: l' => if q e then Some ([], e, l')
               else '(l1, x, l2) ← find_split q l'; Some (e :: l1, x, l2)
  end.

Lemma find_split_Some q l l1 e l2 : find_split q l = Some (l1, e, l2) ->
  l = l1 ++ e :: l2 /\ q e = true /\ Forall (fun x => q x = false) l1.
Proof.
  revert l1. induction l as [|x l IH]; intros l1 Hf; simpl in Hf; [done|]. destruct (q x) eqn:E.
  - by simplify_eq.
  - apply bind_Some in Hf as ([[l1' e'] l2'] & Hf & [= <- <- <-]).
    destruct (IH _ Hf) as (-> & ? & ?). split_and!; [done|done|by constructor].
Qed.

Lemma find_split_None q l : find_split q l = None <-> Forall (fun x => q x = false) l.
Proof.
  induction l as [|x l IH]; simpl; [by split; [constructor|]|]. destruct (q x) eqn:E.
  - split; [done|]. intros Hf. inversion Hf. congruence.
  - rewrite bind_None. split.
    + intros [Hf|(y & _ & Hy)]; [constructor; [done|by apply IH]|by destruct y as [[??]?]].
    + intros Hf. inversion Hf. left. by apply IH.
Qed.

(** The offset of the last entry of [l], which starts at [off]. *)
Fixpoint last_off (off : Z) (prev : option Z) (l : list dentry) : option Z :=
  match l with
  | [] => prev
  | e :: l' => last_off (off + d_len e) (Some off) l'
  end.

Definition is_dir_block (block : list Z) : Prop := Forall is_byte block /\ (1024 <= length block)%nat.

Lemma dir_walk_ok block p q : is_dir_block block ->
  (forall off e, 0 <= off -> off + d_len e <= 1024 -> entry_at block off e -> p off = q e) ->
  forall l off prev fuel, 0 <= off -> dir_seg block off l 1024 -> (length l < fuel)%nat ->
  dir_walk 1024 block p fuel prev off =
  '(l1, e, l2) ← find_split q l; Some (last_off off prev l1, off + total_len l1).
Proof.
  intros [Hb Hl] Hpq. induction l as [|e l IH]; intros off prev fuel Ho Hs Hf;
    (destruct fuel as [|fuel]; [simpl in Hf; lia|]); cbn [dir_walk find_split].
  - simpl in Hs. subst off. by destruct (Z.ltb_spec 1024 (1024 + 8)); [|lia].
  - pose proof (dir_seg_total _ _ _ _ Hs) as [Hfin Hlen]. destruct Hs as [He Hs].
    pose proof (dir_seg_total _ _ _ _ Hs) as [_ Htail].
    pose proof (dentry_len_pos _ (proj1 He)). pose proof (name_len_range _ (proj1 He)).
    cbn [total_len foldr] in *. fold (total_len l) in *.
    destruct (Z.ltb_spec 1024 (off + 8)); [lia|].
    rewrite (e_rec_len_at block Hb off e) by (done || lia).
    destruct (Z.eqb_spec (d_len e) 0); [lia|]. rewrite (Hpq off e) by (done || lia).
    destruct (q e); [simpl; do 2 f_equal; lia|].
    rewrite (IH (off + d_len e)) by (done || simpl in Hf; lia).
    destruct (find_split q l) as [[[l1 x] l2]|]; [|done]. simpl. do 2 f_equal. lia.
Qed.

(** Enough fuel: a block holds at most 128 entries. *)
Lemma dir_find_ok block p q l : is_dir_block block -> dir_seg block 0 l 1024 ->
  (forall off e, 0 <= off -> off + d_len e <= 1024 -> entry_at block off e -> p off = q e) ->
  dir_find 1024 block p = '(l1, e, l2) ← find_split q l; Some (last_off 0 None l1, total_len l1).
Proof.
  intros Hb Hs Hpq. unfold dir_find. rewrite (dir_walk_ok block p q Hb Hpq l) by
    (done || (pose proof (dir_seg_total _ _ _ _ Hs); lia)).
  destruct (find_split q l) as [[[l1 x] l2]|]; done.
Qed.

(** ** The tests of the callers *)

Definition live_match (name : list Z) (e : dentry) : bool :=
  negb (d_ino e =? 0) && (0 <? name_len e) && str_eq (c_string (d_name e)) name.
Definition remove_match (name : list Z) (e : dentry) : bool :=
  negb (d_ino e =? 0) && str_eq (c_string (d_name e)) name.
Definition room_for (nlen : Z) (e : dentry) : bool :=
  negb (d_ino e =? 0) && (needed_len nlen <=? d_len e - needed_len (name_len e)).

Section Tests.
Context (block : list Z) (Hb : is_dir_block block) (off : Z) (e : dentry).
Context (Ho : 0 <= off) (Hl : off + d_len e <= 1024) (He : entry_at block off e).

Let Hb1 : Forall is_byte block := proj1 Hb.
Let Hl' : off + d_len e <= Z.of_nat (length block).
Proof. destruct Hb. lia. Qed.

Lemma live_match_at name :
  negb (e_inode block off =? 0) && (0 <? e_name_len block off) && str_eq (e_name block off) name = live_match name e.
Proof.
  unfold live_match.
  by rewrite (e_inode_at block Hb1 off e), (e_name_len_at block off e), (e_name_at block off e).
Qed.

Lemma remove_match_at name :
  negb (e_inode block off =? 0) && str_eq (e_name block off) name = remove_match name e.
Proof. unfold remove_match. by rewrite (e_inode_at block Hb1 off e), (e_name_at block off e). Qed.

Lemma has_room_at nlen : has_room 1024 block nlen off = room_for nlen e.
Proof.
  unfold has_room, room_for.
  rewrite (e_inode_at block Hb1 off e), (e_name_len_at block off e), (e_rec_len_at block Hb1 off e) by done.
  pose proof (dentry_len_pos _ (proj1 He)). pose proof (dw_len _ (proj1 He)).
  pose proof (needed_len_ok _ (name_len_range _ (proj1 He))). pose proof (name_len_range _ (proj1 He)).
  destruct (Z.leb_spec (off + d_len e) 1024); [|lia]. rewrite andb_true_r. rewrite u16_small by lia. done.
Qed.
End Tests.

(** ** Writing entries *)

(** A buffer in which a range was rewritten. *)
Definition rewritten (block block' : list Z) (lo hi : Z) : Prop :=
  is_dir_block block' /\ length block' = length block /\
  forall o n, 0 <= o -> 0 <= n -> o + n <= lo \/ hi <= o -> slice o n block' = slice o n block.

Lemma splice_rewritten block o v : is_dir_block block -> Forall is_byte v -> 0 <= o ->
  o + Z.of_nat (length v) <= Z.of_nat (length block) ->
  rewritten block (splice o v block) o (o + Z.of_nat (length v)).
Proof.
  intros [Hb Hl] Hv Ho Hf. assert (fits o v block) as Hfit by (by split).
  pose proof (splice_length _ _ _ Hfit) as Hsl. split_and!; [split; [by apply Forall_splice|lia]|done|].
  intros o' n' Ho' Hn' Hd. by apply slice_splice_other.
Qed.

Lemma rewritten_seg block block' lo hi l off fin : rewritten block block' lo hi -> 0 <= off ->
  fin <= lo \/ hi <= off -> dir_seg block off l fin -> dir_seg block' off l fin.
Proof.
  intros (_ & _ & Hr) Ho Hd Hs. eapply dir_seg_frame; [done|done|]. intros o n Hoo Hn Hon. apply Hr; lia.
Qed.

Lemma rewritten_widen block block' lo hi lo' hi' : rewritten block block' lo hi -> lo' <= lo -> hi <= hi' ->
  rewritten block block' lo' hi'.
Proof. intros (H1 & H2 & Hr) ? ?. split_and!; [done|done|]. intros. apply Hr; lia. Qed.

Lemma rewritten_trans b1 b2 b3 lo hi : rewritten b1 b2 lo hi -> rewritten b2 b3 lo hi -> rewritten b1 b3 lo hi.
Proof.
  intros (_ & H2 & Hr) (H1' & H2' & Hr'). split_and!; [done|congruence|]. intros. rewrite Hr', Hr; done.
Qed.

Lemma put_entry_ok block off e : is_dir_block block -> dentry_wf e -> 0 <= off ->
  off + 9 + name_len e <= Z.of_nat (length block) ->
  let block' := put_entry off (d_ino e) (d_len e) (d_type e) (d_name e) block in
  rewritten block block' off (off + 9 + name_len e) /\ entry_at block' off e.
Proof.
  intros Hb He Ho Hf. cbv zeta. pose proof (name_len_range _ He) as Hn.
  assert (put_entry off (d_ino e) (d_len e) (d_type e) (d_name e) block = splice off (dentry_bytes e ++ [0]) block) as ->.
  { unfold put_entry, dentry_bytes. fold (name_len e). rewrite u8_small by lia. by rewrite <- !app_assoc. }
  assert (Z.of_nat (length (dentry_bytes e ++ [0])) = 9 + name_len e) as Hl.
  { rewrite length_app, Nat2Z.inj_add, dentry_bytes_length. simpl. lia. }
  pose proof (splice_rewritten block off (dentry_bytes e ++ [0]) Hb) as Hr. rewrite Hl in Hr.
  replace (off + (9 + name_len e)) with (off + 9 + name_len e) in Hr by lia. split.
  - apply Hr; [|done|done]. apply Forall_app_2; [by apply dentry_bytes_byte|]. repeat constructor; lia.
  - split; [done|]. rewrite <- (Z.add_0_r off) at 1.
    rewrite <- (slice_slice off (Z.of_nat (length (dentry_bytes e ++ [0]))) 0 (8 + name_len e)) by lia.
    rewrite slice_splice_same by (split; lia). unfold slice.
    change (Z.to_nat 0) with 0%nat. rewrite drop_0.
    rewrite take_app_length'; [done|]. pose proof (dentry_bytes_length e). lia.
Qed.

(** Three parts of the bytes of an entry. *)
Lemma entry_parts block off n : 0 <= off -> 0 <= n ->
  slice off (8 + n) block = slice off 4 block ++ slice (off + 4) 2 block ++ slice (off + 6) (2 + n) block.
Proof.
  intros Ho Hn. replace (off + 6) with (off + 4 + 2) by lia. rewrite slice_join by lia.
  rewrite slice_join by lia. f_equal. lia.
Qed.

Lemma dentry_parts e : dentry_bytes e =
  le_bytes 4 (d_ino e) ++ le_bytes 2 (d_len e) ++ slice 6 (2 + name_len e) (dentry_bytes e).
Proof.
  unfold dentry_bytes at 1. do 2 f_equal. unfold slice, dentry_bytes. change (Z.to_nat 6) with 6%nat.
  cbn [le_bytes app drop]. rewrite take_ge; [done|]. simpl. unfold name_len. lia.
Qed.

Lemma set_len_ok block off e v : is_dir_block block -> 0 <= off -> off + d_len e <= 1024 ->
  entry_at block off e -> dentry_wf (e <| d_len := v |>) ->
  rewritten block (put16 (off + 4) v block) off (off + 8) /\
  entry_at (put16 (off + 4) v block) off (e <| d_len := v |>).
Proof.
  intros Hb Ho Hl He Hwf. pose proof (dentry_len_pos _ (proj1 He)). pose proof (name_len_range _ (proj1 He)).
  unfold put16. destruct (splice_rewritten block (off + 4) (le_bytes 2 v) Hb (le_bytes_byte _ _)) as (R1 & R2 & R3).
  { lia. } { rewrite le_bytes_length. destruct Hb. lia. }
  rewrite le_bytes_length in R3. change (Z.of_nat 2) with 2 in R3. split.
  - split_and!; [done|done|]. intros. apply R3; lia.
  - split; [done|]. change (name_len (e <| d_len := v |>)) with (name_len e).
    rewrite entry_parts by lia. rewrite (R3 off 4), (R3 (off + 6)) by lia.
    change 2 with (Z.of_nat (length (le_bytes 2 v))) at 1.
    rewrite slice_splice_same by (split; [lia|]; rewrite le_bytes_length; destruct Hb; lia).
    rewrite <- (Z.add_0_r off) at 1. rewrite !(entry_sub block off e) by (done || lia).
    rewrite (dentry_parts (e <| d_len := v |>)). done.
Qed.

Lemma clear_ino_ok block off e : is_dir_block block -> 0 <= off -> off + d_len e <= 1024 ->
  entry_at block off e ->
  rewritten block (splice off (le_bytes 4 0) block) off (off + 8) /\
  entry_at (splice off (le_bytes 4 0) block) off (e <| d_ino := 0 |>).
Proof.
  intros Hb Ho Hl He. pose proof (dentry_len_pos _ (proj1 He)). pose proof (name_len_range _ (proj1 He)).
  destruct (splice_rewritten block off (le_bytes 4 0) Hb (le_bytes_byte _ _)) as (R1 & R2 & R3).
  { lia. } { rewrite le_bytes_length. destruct Hb. lia. }
  rewrite le_bytes_length in R3. change (Z.of_nat 4) with 4 in R3. split.
  - split_and!; [done|done|]. intros. apply R3; lia.
  - split; [destruct He as [[? ? ? ?] _]; split; try done; unfold is_u32; simpl; lia|].
    change (name_len (e <| d_ino := 0 |>)) with (name_len e).
    rewrite entry_parts by lia. rewrite (R3 (off + 4)), (R3 (off + 6)) by lia.
    change 4 with (Z.of_nat (length (le_bytes 4 0))) at 1.
    rewrite slice_splice_same by (split; [lia|]; rewrite le_bytes_length; destruct Hb; lia).
    rewrite !(entry_sub block off e) by (done || lia).
    rewrite (dentry_parts (e <| d_ino := 0 |>)). done.
Qed.

(** ** Insertion and removal *)

Definition split_left (e : dentry) : dentry := e <| d_len := needed_len (name_len e) |>.
Definition split_right (e : dentry) (ino type : Z) (name : list Z) : dentry :=
  {| d_ino := ino; d_len := d_len e - needed_len (name_len e); d_type := type; d_name := name |}.

Definition valid_new (ino type : Z) (name : list Z) : Prop :=
  is_u32 ino /\ is_byte type /\ Forall is_byte name /\ Z.of_nat (length name) <= 255.

(** The terminator behind the new name does not reach the next entry. *)
Definition no_spill (nlen : Z) (e : dentry) (l2 : list dentry) : Prop :=
  8 + nlen < d_len e - needed_len (name_len e) \/ l2 = [].

Lemma split_entry_ok block l1 e l2 ino type name : is_dir_block block -> (1025 <= length block)%nat ->
  dir_seg block 0 (l1 ++ e :: l2) 1024 -> room_for (Z.of_nat (length name)) e = true ->
  valid_new ino type name -> no_spill (Z.of_nat (length name)) e l2 ->
  let block' := split_entry block (total_len l1) ino type name in
  is_dir_block block' /\ length block' = length block /\
  dir_seg block' 0 (l1 ++ split_left e :: split_right e ino type name :: l2) 1024.
Proof.
  intros Hb Hbl Hs Hroom (Hino & Htype & Hname & Hnl) Hsp. cbv zeta. unfold room_for in Hroom. bsimpl.
  apply dir_seg_app in Hs as [Hs1 [He Hs2]]. rewrite Z.add_0_l in *. set (off := total_len l1) in *.
  destruct (dir_seg_total _ _ _ _ Hs1) as [_ Ho]. destruct (dir_seg_total _ _ _ _ Hs2) as [Hfin Htl].
  fold off in Ho. pose proof (dentry_len_pos _ (proj1 He)) as Hel. pose proof (name_len_range _ (proj1 He)) as Hen.
  destruct (needed_len_ok _ Hen) as [_ Hnd]. destruct (needed_len_ok (Z.of_nat (length name)) ltac:(lia)) as [_ Hnn].
  pose proof (dw_len _ (proj1 He)) as Hwl. destruct Hb as [Hbb Hb2].
  assert (dentry_wf (split_left e)) as Hwe.
  { destruct He as [[? ? ? ?] _]. split; try done. change (name_len (split_left e)) with (name_len e).
    change (d_len (split_left e)) with (needed_len (name_len e)). lia. }
  assert (dentry_wf (split_right e ino type name)) as Hwn.
  { split; try done. change (name_len (split_right e ino type name)) with (Z.of_nat (length name)). simpl. lia. }
  unfold split_entry. rewrite (e_name_len_at block off e), (e_rec_len_at block Hbb off e) by (done || lia).
  rewrite u16_small by lia.
  destruct (set_len_ok block off e (needed_len (name_len e)) ltac:(done) ltac:(lia) ltac:(lia) He Hwe) as [R1 E1].
  set (b1 := put16 _ _ _) in *.
  destruct (put_entry_ok b1 (off + needed_len (name_len e)) (split_right e ino type name) (proj1 R1) Hwn
    ltac:(lia)) as [R2 E2].
  { rewrite (proj1 (proj2 R1)). change (name_len (split_right e ino type name)) with (Z.of_nat (length name)). lia. }
  change (name_len (split_right e ino type name)) with (Z.of_nat (length name)) in R2.
  cbn [split_right d_ino d_len d_type d_name] in R2, E2.
  set (b2 := put_entry _ _ _ _ _ _) in *.
  split; [apply R2|]. split; [by rewrite (proj1 (proj2 R2)), (proj1 (proj2 R1))|].
  apply dir_seg_app. fold off. rewrite Z.add_0_l. split; [|split; [|split]].
  - eapply rewritten_seg; [exact R2|lia|lia|]. eapply rewritten_seg; [exact R1|lia|lia|done].
  - destruct E1 as [_ E1]. split; [done|]. refine (eq_trans _ E1).
    change (name_len (split_left e)) with (name_len e).
    change (name_len (e <| d_len := needed_len (name_len e) |>)) with (name_len e). apply R2; lia.
  - done.
  - change (d_len (split_left e)) with (needed_len (name_len e)). cbn [split_right d_len].
    replace (off + needed_len (name_len e) + (d_len e - needed_len (name_len e))) with (off + d_len e) by lia.
    destruct Hsp as [Hsp| ->]; [|done].
    eapply rewritten_seg; [exact R2|lia|lia|]. eapply rewritten_seg; [exact R1|lia|lia|done].
Qed.

(** Joining an entry to the one before it. *)
Definition joined (p e : dentry) : dentry := p <| d_len := d_len p + d_len e |>.

Lemma last_off_app l p : forall off prev, last_off off prev (l ++ [p]) = Some (off + total_len l).
Proof.
  induction l as [|x l IH]; intros off prev; cbn [app last_off total_len foldr]; [by rewrite Z.add_0_r|].
  rewrite IH. f_equal. fold (total_len l). lia.
Qed.

Lemma total_len_app l1 l2 : total_len (l1 ++ l2) = total_len l1 + total_len l2.
Proof. induction l1 as [|e l1 IH]; simpl; [done|]. fold (total_len l1). unfold total_len in *. lia. Qed.

Lemma unlink_join_ok block l1 p e l2 : is_dir_block block -> dir_seg block 0 (l1 ++ p :: e :: l2) 1024 ->
  let block' := unlink_entry block (Some (total_len l1)) (total_len l1 + d_len p) in
  is_dir_block block' /\ length block' = length block /\ dir_seg block' 0 (l1 ++ joined p e :: l2) 1024.
Proof.
  intros Hb Hs. cbv zeta. apply dir_seg_app in Hs as [Hs1 [Hp [He Hs2]]]. rewrite Z.add_0_l in *.
  set (off := total_len l1) in *. destruct (dir_seg_total _ _ _ _ Hs1) as [_ Ho]. fold off in Ho.
  destruct (dir_seg_total _ _ _ _ Hs2) as [Hfin Htl].
  pose proof (dentry_len_pos _ (proj1 He)). pose proof (name_len_range _ (proj1 He)).
  pose proof (dentry_len_pos _ (proj1 Hp)). pose proof (name_len_range _ (proj1 Hp)).
  pose proof (dw_len _ (proj1 Hp)). pose proof (proj1 Hb) as Hbb. pose proof (proj2 Hb) as Hbl.
  unfold unlink_entry. rewrite (e_rec_len_at block Hbb off p), (e_rec_len_at block Hbb (off + d_len p) e) by (done || lia).
  rewrite u16_small by lia.
  assert (dentry_wf (joined p e)) as Hw.
  { destruct Hp as [[? ? ? ?] _]. split; try done. change (name_len (joined p e)) with (name_len p).
    change (d_len (joined p e)) with (d_len p + d_len e). lia. }
  destruct (set_len_ok block off p (d_len p + d_len e) Hb ltac:(lia) ltac:(lia) Hp Hw) as [R1 E1].
  split; [apply R1|]. split; [apply R1|]. apply dir_seg_app. fold off. rewrite Z.add_0_l. split; [|split].
  - eapply rewritten_seg; [exact R1|lia|lia|done].
  - done.
  - change (d_len (joined p e)) with (d_len p + d_len e). rewrite Z.add_assoc.
    eapply rewritten_seg; [exact R1|lia|lia|done].
Qed.

Lemma unlink_first_ok block e l2 : is_dir_block block -> dir_seg block 0 (e :: l2) 1024 ->
  let block' := unlink_entry block None 0 in
  is_dir_block block' /\ length block' = length block /\ dir_seg block' 0 (e <| d_ino := 0 |> :: l2) 1024.
Proof.
  intros Hb [He Hs2]. cbv zeta. destruct (dir_seg_total _ _ _ _ Hs2) as [Hfin Htl].
  pose proof (dentry_len_pos _ (proj1 He)). pose proof (name_len_range _ (proj1 He)).
  unfold unlink_entry. destruct (clear_ino_ok block 0 e Hb ltac:(lia) ltac:(lia) He) as [R1 E1].
  split; [apply R1|]. split; [apply R1|]. split; [done|].
  eapply rewritten_seg; [exact R1|simpl; lia|simpl; lia|done].
Qed.
