(* ===== verification/Ext2Names.v ===== *)
(** * The ext2 driver: directories as lists of names, and paths

    Lookup, insertion and removal of a name in a directory whose blocks are chains
    of entries, as operations on the lists of entries.  A path is a list of names between
    slashes, and resolving it walks the directories along that list. *)
From S2P Require Import Prelude BlockDev Bytes Ext2 Ext2Dir Ext2Ops Ext2Vol Ext2Inodes Ext2Demo Ext2Alloc Ext2File Ext2Block.

(** The first live entry of a name in the blocks of a directory. *)
Definition find_name (name : list Z) (ls : list (list dentry)) : option dentry :=
  List.find (live_match name) (concat ls).

Lemma find_split_find q l : List.find q l = '(_, e, _) ← find_split q l; Some e.
Proof.
  induction l as [|x l IH]; simpl; [done|]. destruct (q x); [done|]. rewrite IH.
  by destruct (find_split q l) as [[[? ?] ?]|].
Qed.

Lemma find_app {A} (q : A -> bool) (l1 l2 : list A) : List.find q (l1 ++ l2) =
  match List.find q l1 with Some x => Some x | None => List.find q l2 end.
Proof. induction l1 as [|x l1 IH]; simpl; [done|]. by destruct (q x). Qed.

(** Removal: the entry found is joined to the one before it, or loses its inode. *)
Definition unlink (l1 : list dentry) (e : dentry) (l2 : list dentry) : list dentry :=
  match l1 with
  | [] => e <| d_ino := 0 |> :: l2
  | _ => removelast l1 ++ joined (List.last l1 e) e :: l2
  end.

Fixpoint remove_name (name : list Z) (ls : list (list dentry)) : option (list (list dentry)) :=
  match ls with
  | [] => None
  | l :: ls' => match find_split (remove_match name) l with
                | Some (l1, e, l2) => Some (unlink l1 e l2 :: ls')
                | None => cons l <$> remove_name name ls'
                end
  end.

(** Insertion: the first entry with room is split. *)
Fixpoint insert_name (ino type : Z) (name : list Z) (ls : list (list dentry)) : option (list (list dentry)) :=
  match ls with
  | [] => None
  | l :: ls' => match find_split (room_for (Z.of_nat (length name))) l with
                | Some (l1, e, l2) => Some ((l1 ++ split_left e :: split_right e ino type name :: l2) :: ls')
                | None => cons l <$> insert_name ino type name ls'
                end
  end.

(** The split does not write into the entry behind it. *)
Definition spill_free (nlen : Z) (ls : list (list dentry)) : Prop :=
  forall l l1 e l2, l ∈ ls -> find_split (room_for nlen) l = Some (l1, e, l2) -> no_spill nlen e l2.

(** The inode numbers a directory gives for a name, in order. *)
Definition inos (name : list Z) (l : list dentry) : list Z := map d_ino (List.filter (live_match name) l).

Lemma find_name_inos name ls : d_ino <$> find_name name ls = head (inos name (concat ls)).
Proof.
  unfold find_name, inos. induction (concat ls) as [|e l IH]; simpl; [done|]. by destruct (live_match name e).
Qed.

Lemma inos_app name l1 l2 : inos name (l1 ++ l2) = inos name l1 ++ inos name l2.
Proof. unfold inos. by rewrite List.filter_app, map_app. Qed.

(** Neither the length of an entry nor an entry without inode is seen. *)
Lemma inos_len name e v l : inos name (e <| d_len := v |> :: l) = inos name (e :: l).
Proof. unfold inos. simpl. unfold live_match, name_len, update_field. simpl. by case_if. Qed.

Lemma inos_cleared name e l : inos name (e <| d_ino := 0 |> :: l) = inos name l.
Proof. done. Qed.

Lemma inos_other name e l : live_match name e = false -> inos name (e :: l) = inos name l.
Proof. intros He. unfold inos. simpl. by rewrite He. Qed.

(** A name a directory can hold. *)
Definition valid_name (name : list Z) : Prop :=
  name <> [] /\ c_string name = name /\ Forall is_byte name /\ Z.of_nat (length name) <= 255.

Lemma inos_split name e ino type n l : valid_name n -> ino <> 0 ->
  inos name (split_left e :: split_right e ino type n :: l) =
  inos name [e] ++ (if decide (name = n) then [ino] else []) ++ inos name l.
Proof.
  intros (Hne & Hc & _) Hino. unfold split_left. rewrite inos_len.
  change (e :: split_right e ino type n :: l) with ([e] ++ ([split_right e ino type n] ++ l)).
  rewrite !inos_app. do 2 f_equal. unfold inos. simpl. unfold live_match. simpl.
  destruct (Z.eqb_spec ino 0); [done|]. unfold name_len. simpl. destruct (Z.ltb_spec 0 (Z.of_nat (length n))).
  - rewrite Hc. unfold str_eq. simpl. case_bool_decide; case_decide; try done; congruence.
  - destruct n; simpl in *; [done|lia].
Qed.

Lemma remove_is_live name e : name <> [] -> remove_match name e = live_match name e.
Proof.
  intros Hn. unfold remove_match, live_match. destruct (Z.ltb_spec 0 (name_len e)); [by rewrite andb_true_r|].
  unfold name_len in *. destruct (d_name e) eqn:E; [|simpl in *; lia]. simpl. unfold str_eq.
  rewrite bool_decide_false by done. by rewrite !andb_false_r.
Qed.

Lemma inos_insert name ino type n ls ls2 : valid_name n -> ino <> 0 -> insert_name ino type n ls = Some ls2 ->
  exists A B, concat ls = A ++ B /\
    inos name (concat ls2) = inos name A ++ (if decide (name = n) then [ino] else []) ++ inos name B.
Proof.
  intros Hn Hino. revert ls2. induction ls as [|l ls IH]; intros ls2 Hins; simpl in Hins; [done|].
  destruct (find_split _ l) as [[[l1 e] l2]|] eqn:E.
  - injection Hins as <-. apply find_split_Some in E as (-> & _ & _).
    exists (l1 ++ [e]), (l2 ++ concat ls). cbn [concat]. rewrite <- !app_assoc. split; [done|].
    cbn [app]. rewrite inos_app, inos_split, (inos_app name l1 [e]), <- app_assoc by done. done.
  - apply fmap_Some in Hins as (ls3 & Hins & ->). destruct (IH _ Hins) as (A & B & HAB & Hi).
    exists (l ++ A), B. cbn [concat]. rewrite HAB, app_assoc. split; [done|].
    by rewrite !inos_app, Hi, <- app_assoc.
Qed.

Lemma inos_unlink name l1 e l2 : inos name (unlink l1 e l2) = inos name l1 ++ inos name l2.
Proof.
  unfold unlink. destruct l1 as [|x l1]; [done|].
  destruct (exists_last (l := x :: l1) ltac:(done)) as (l0 & p & E). rewrite E.
  rewrite removelast_last, last_last, !inos_app, <- app_assoc. f_equal.
  unfold joined. rewrite inos_len. change (p :: l2) with ([p] ++ l2). by rewrite inos_app.
Qed.

Lemma inos_remove name n ls : valid_name n ->
  match remove_name n ls with
  | None => inos n (concat ls) = []
  | Some ls2 => inos name (concat ls2) = if decide (name = n) then tail (inos n (concat ls)) else inos name (concat ls)
  end.
Proof.
  intros Hn. induction ls as [|l ls IH]; cbn [remove_name]; [done|].
  destruct (find_split _ l) as [[[l1 e] l2]|] eqn:E.
  - apply find_split_Some in E as (-> & He & Hl1). cbn [concat]. rewrite inos_app, inos_unlink.
    rewrite remove_is_live in He by apply Hn. case_decide as Hd.
    + subst name. assert (inos n l1 = []) as Hno.
      { unfold inos. clear -Hl1 Hn. induction Hl1 as [|x l Hx _ IH]; [done|]. simpl.
        rewrite remove_is_live in Hx by apply Hn. by rewrite Hx. }
      rewrite !inos_app, Hno. unfold inos. simpl. by rewrite He.
    + change (e :: l2) with ([e] ++ l2). rewrite !inos_app. f_equal. f_equal.
      unfold inos. simpl. assert (live_match name e = false) as ->; [|done].
      unfold live_match, str_eq in He |- *. apply andb_true_iff in He as [_ He].
      apply bool_decide_eq_true in He. rewrite bool_decide_false; [apply andb_false_r|congruence].
  - apply find_split_None in E. assert (inos n l = []) as Hno.
    { unfold inos. clear -E Hn. induction E as [|x l Hx _ IH]; [done|]. simpl.
      rewrite remove_is_live in Hx by apply Hn. by rewrite Hx. }
    destruct (remove_name n ls) as [ls2|]; simpl; rewrite !inos_app.
    + rewrite IH, Hno. by case_decide; [subst; rewrite Hno|].
    + by rewrite Hno.
Qed.

(** What is removed was there. *)
Lemma remove_found n ls ls2 : valid_name n -> remove_name n ls = Some ls2 ->
  exists i l, inos n (concat ls) = i :: l.
Proof.
  intros Hn. revert ls2. induction ls as [|l ls IH]; intros ls2; cbn [remove_name]; [done|].
  destruct (find_split _ l) as [[[l1 e] l2]|] eqn:E.
  - intros _. apply find_split_Some in E as (-> & He & _). rewrite remove_is_live in He by apply Hn.
    cbn [concat]. rewrite <- app_assoc, inos_app. cbn [app]. unfold inos at 2. cbn [List.filter]. rewrite He. cbn [map].
    destruct (inos n l1) as [|i0 l0]; eauto.
  - destruct (remove_name n ls) as [ls3|]; [|done]. intros _. destruct (IH ls3 eq_refl) as (i & l0 & El).
    cbn [concat]. rewrite inos_app, El. destruct (inos n l) as [|i1 l3]; eauto.
Qed.

Section Names.
Context {D : Type} `{WD : WorkingDev D} (stack junk : list Z) (Hstack : is_sector stack).
Context (Hjunk : Forall is_byte junk) (Hjl : length junk <> 0%nat).
Context (m : Ext2MountState) (L : Z -> Ext2GroupDesc) (HL : layout m L).

Abbreviation Vol := (Vol m L).

(** A directory: every block of it is mapped and holds the entries given. *)
Record dir_ok (c : volume) (i : Ext2Inode) (ls : list (list dentry)) : Prop := {
  do_file : file_ok m L c i;
  do_dir : is_dir i = true;
  do_size : i_size i = 1024 * Z.of_nat (length ls);
  do_block k l : ls !! k = Some l ->
    mapped c i (Z.of_nat k) /\ dir_seg (c (block_map c i (Z.of_nat k))) 0 l 1024
}.

Lemma dir_size_small c i ls : dir_ok c i ls -> Z.of_nat (length ls) <= 268.
Proof.
  intros Hd. destruct (decide (length ls = 0)%nat) as [|Hne]; [lia|].
  destruct (lookup_lt_is_Some_2 ls (length ls - 1) ltac:(lia)) as [l Hl].
  destruct (do_block _ _ _ Hd _ _ Hl) as [Hm _]. unfold mapped in Hm.
  destruct (decide (268 <= Z.of_nat (length ls - 1))); [|lia]. by rewrite block_map_high in Hm.
Qed.

Lemma dir_blocks_ok c i ls : geometry m -> dir_ok c i ls -> dir_blocks m i = Z.of_nat (length ls).
Proof.
  intros Hg Hd. pose proof (dir_size_small _ _ _ Hd). unfold dir_blocks. rewrite (geo_bs _ Hg), (do_size _ _ _ Hd).
  rewrite (u32_small (1024 * _ + 1024)) by lia. rewrite u32_small by lia.
  symmetry. apply (Z.div_unique _ 1024 _ 1023); lia.
Qed.

(** The block buffer of a directory block. *)
Lemma dir_buffer hs c (s : Ext2 (D := D)) i ls k l : Vol hs c s -> dir_ok c i ls -> ls !! k = Some l ->
  let b := block_map c i (Z.of_nat k) in
  data_block m L b /\ 0 < b /\ u32 b = b /\
  is_dir_block (c b ++ junk) /\ dir_seg (c b ++ junk) 0 l 1024 /\ (1025 <= length (c b ++ junk))%nat.
Proof.
  intros HV Hd Hl b. destruct (do_block _ _ _ Hd _ _ Hl) as [Hm Hs].
  destruct (fo_data _ _ _ _ (do_file _ _ _ Hd) (Z.of_nat k) ltac:(lia) Hm) as (Hbd & _ & _). fold b in Hbd, Hs.
  destruct (vol_is_block _ _ _ _ _ _ HV (proj1 Hbd)) as [Hbl Hbb].
  split; [done|]. split; [destruct Hbd as [[? ?] _]; unfold mapped in Hm; fold b in Hm; lia|].
  split; [by eapply data_block_i32; [eapply vol_geo|]|]. split; [|split].
  - split; [by apply Forall_app|]. rewrite length_app. lia.
  - eapply dir_seg_frame; [lia|exact Hs|]. intros o n Ho Hn Hon. unfold slice.
    rewrite drop_app_le by lia. rewrite take_app_le; [done|]. rewrite length_drop. lia.
  - rewrite length_app. lia.
Qed.

(** ** Lookup *)

Lemma lookup_blocks_ok c i ls name : dir_ok c i ls -> forall n b hs s, Vol hs c s -> (b + n = length ls)%nat ->
  wp (lookup_blocks stack junk name i b n)
     (fun s' r => r = (d_ino <$> find_name name (drop b ls)) /\ Vol hs c s') s.
Proof.
  intros Hd. induction n as [|n IH]; intros b hs s HV Hn; cbn [lookup_blocks].
  - apply wp_ret. rewrite drop_ge by lia. done.
  - destruct (lookup_lt_is_Some_2 ls b ltac:(lia)) as [l Hl]. pose proof (do_file _ _ _ Hd) as Hf.
    destruct (dir_buffer hs c s i ls b l HV Hd Hl) as (Hbd & Hbp & Hbu & Hbuf & Hseg & _).
    wp_call get_block_ok; [exact Hstack|exact HV|lia|exact Hf|done|]. intros s1 r [-> HV1]. cbv beta iota.
    destruct (Z.leb_spec (block_map c i (Z.of_nat b)) 0); [lia|]. rewrite Hbu.
    wp_call vol_read; [exact Hstack|exact HV1|apply Hbd|]. intros s2 r [-> HV2]. cbv beta iota. apply wp_get.
    rewrite (vol_m _ _ _ _ _ HV2), (geo_bs _ (vol_geo _ _ _ _ _ HV)). cbv zeta.
    rewrite (dir_find_ok _ _ (live_match name) l Hbuf Hseg) by (intros; by apply live_match_at).
    unfold find_name. rewrite (drop_S ls l b Hl). cbn [concat]. rewrite find_app, find_split_find.
    destruct (find_split (live_match name) l) as [[[l1 e] l2]|] eqn:E; cbn [mbind option_bind].
    + apply wp_ret. split; [|done]. simpl. f_equal. apply find_split_Some in E as (-> & _ & _).
      apply dir_seg_app in Hseg as [Hs1 [He Hs2]]. rewrite Z.add_0_l in *.
      destruct (dir_seg_total _ _ _ _ Hs1) as [_ ?]. destruct (dir_seg_total _ _ _ _ Hs2) as [? ?].
      apply (e_inode_at _ (proj1 Hbuf)); [lia| |done]. destruct Hbuf. lia.
    + apply IH; [done|lia].
Qed.

Lemma dir_lookup_ok hs c s n ls name : Vol hs c s -> inode_valid m n -> dir_ok c (inode_at m L c n) ls ->
  wp (dir_lookup stack junk n name) (fun s' r => r = (d_ino <$> find_name name ls) /\ Vol hs c s') s.
Proof.
  intros HV Hn Hd. unfold dir_lookup. wp_call read_inode_ok; [done|exact HL|done|done|]. intros s1 r [-> HV1].
  cbv beta iota. rewrite (do_dir _ _ _ Hd). cbn [negb]. apply wp_get. rewrite (vol_m _ _ _ _ _ HV1).
  rewrite (dir_blocks_ok _ _ _ (vol_geo _ _ _ _ _ HV) Hd), Nat2Z.id.
  by apply (lookup_blocks_ok c (inode_at m L c n) ls name Hd _ 0).
Qed.

(** ** Changing one block *)

Lemma seg_take b l : (1024 <= length b)%nat -> dir_seg b 0 l 1024 -> dir_seg (take 1024 b) 0 l 1024.
Proof.
  intros Hl Hs. eapply dir_seg_frame; [lia|exact Hs|]. intros o n Ho Hn Hon. unfold slice.
  rewrite skipn_firstn_comm, take_take. f_equal. lia.
Qed.

Lemma inode_at_data c b v n : inode_valid m n -> data_block m L b ->
  inode_at m L (set_block c b v) n = inode_at m L c n.
Proof.
  intros Hn [_ Hb]. unfold inode_at, set_block. destruct (Z.eqb_spec (inode_block_of m L n) b) as [E|]; [|done].
  by destruct (Hb _ (inode_table_valid m L n HL Hn)).
Qed.

(** The volume after a change of the directory [i] to the entries [ls]. *)
Definition dir_changed hs (c : volume) i ls (s' : Ext2 (D := D)) : Prop :=
  exists c', Vol hs c' s' /\ dir_ok c' i ls /\ (forall n, inode_valid m n -> inode_at m L c' n = inode_at m L c n) /\
    forall b, data_block m L b -> (forall k, 0 <= k -> mapped c i k -> b <> block_map c i k) -> c' b = c b.

Lemma write_dir_block hs c (s : Ext2 (D := D)) i ls k l l' blk : Vol hs c s -> dir_ok c i ls -> ls !! k = Some l ->
  is_dir_block blk -> dir_seg blk 0 l' 1024 ->
  wp (write_block (block_map c i (Z.of_nat k)) blk)
     (fun s' r => r = true /\ dir_changed hs c i (<[k := l']> ls) s') s.
Proof.
  intros HV Hd Hl [Hbb Hbl] Hs. destruct (dir_buffer hs c s i ls k l HV Hd Hl) as (Hbd & Hbp & Hbu & Hbuf & Hseg & _).
  destruct (do_block _ _ _ Hd _ _ Hl) as [Hm _]. pose proof (do_file _ _ _ Hd) as Hf.
  eapply wp_mono; [by eapply vol_write_data|]. intros s1 r [-> HV1]. split; [done|].
  destruct (set_file_block m L HL c i (Z.of_nat k) (take 1024 blk) Hf ltac:(lia) Hm) as (Hf1 & Hmap & _).
  set (c1 := set_block c _ _) in *. exists c1. split; [done|]. split; [|split].
  - split; [done|apply (do_dir _ _ _ Hd)|by rewrite length_insert; apply (do_size _ _ _ Hd)|].
    intros k' l0 Hk'. unfold mapped. rewrite Hmap by lia. apply list_lookup_insert_Some in Hk' as [(<- & <- & _)|[Hne Hk']].
    + split; [done|]. unfold c1, set_block. rewrite Z.eqb_refl. by apply seg_take.
    + destruct (do_block _ _ _ Hd _ _ Hk') as [Hm' Hs']. split; [done|]. unfold c1, set_block.
      destruct (Z.eqb_spec (block_map c i (Z.of_nat k')) (block_map c i (Z.of_nat k))) as [E|]; [|done].
      apply (fo_inj _ _ _ _ Hf) in E; [lia|lia|lia|done].
  - intros n Hn. by apply inode_at_data.
  - intros b Hb Hne. unfold c1, set_block. destruct (Z.eqb_spec b (block_map c i (Z.of_nat k))) as [E|]; [|done].
    by destruct (Hne (Z.of_nat k) ltac:(lia) Hm).
Qed.

Lemma insert_middle {A} (ls : list A) b l l' : ls !! b = Some l -> <[b := l']> ls = take b ls ++ l' :: drop (S b) ls.
Proof. intros Hl. apply insert_take_drop. by eapply lookup_lt_Some. Qed.

Lemma take_snoc_app {A} (ls : list A) b l t : ls !! b = Some l -> take b ls ++ l :: t = take (S b) ls ++ t.
Proof. intros Hl. rewrite (take_S_r ls b l Hl), <- app_assoc. done. Qed.

Lemma unlink_ok block l1 e l2 : is_dir_block block -> dir_seg block 0 (l1 ++ e :: l2) 1024 ->
  let block' := unlink_entry block (last_off 0 None l1) (total_len l1) in
  is_dir_block block' /\ length block' = length block /\ dir_seg block' 0 (unlink l1 e l2) 1024.
Proof.
  intros Hb Hs. destruct (decide (l1 = [])) as [->|Hne]; [by apply unlink_first_ok|].
  destruct (exists_last Hne) as (l0 & p & ->). unfold unlink. rewrite last_off_app, Z.add_0_l, total_len_app.
  replace (total_len [p]) with (d_len p) by (simpl; lia).
  rewrite removelast_last, last_last. destruct l0 as [|x l0]; cbn [app].
  - apply (unlink_join_ok block [] p e l2 Hb). done.
  - apply (unlink_join_ok block (x :: l0) p e l2 Hb). by rewrite <- app_assoc in Hs.
Qed.

Lemma remove_blocks_ok c i ls name : dir_ok c i ls -> forall n b hs s, Vol hs c s -> (b + n = length ls)%nat ->
  wp (remove_blocks stack junk name i b n)
     (fun s' r => match remove_name name (drop b ls) with
                  | None => r = false /\ Vol hs c s'
                  | Some ls2 => r = true /\ dir_changed hs c i (take b ls ++ ls2) s'
                  end) s.
Proof.
  intros Hd. induction n as [|n IH]; intros b hs s HV Hn; cbn [remove_blocks].
  - apply wp_ret. rewrite drop_ge by lia. done.
  - destruct (lookup_lt_is_Some_2 ls b ltac:(lia)) as [l Hl]. pose proof (do_file _ _ _ Hd) as Hf.
    destruct (dir_buffer hs c s i ls b l HV Hd Hl) as (Hbd & Hbp & Hbu & Hbuf & Hseg & _).
    wp_call get_block_ok; [exact Hstack|exact HV|lia|exact Hf|done|]. intros s1 r [-> HV1]. cbv beta iota.
    destruct (Z.leb_spec (block_map c i (Z.of_nat b)) 0); [lia|]. rewrite Hbu.
    wp_call vol_read; [exact Hstack|exact HV1|apply Hbd|]. intros s2 r [-> HV2]. cbv beta iota. apply wp_get.
    rewrite (vol_m _ _ _ _ _ HV2), (geo_bs _ (vol_geo _ _ _ _ _ HV)). cbv zeta.
    rewrite (dir_find_ok _ _ (remove_match name) l Hbuf Hseg) by (intros; by apply remove_match_at).
    rewrite (drop_S ls l b Hl). cbn [remove_name].
    destruct (find_split (remove_match name) l) as [[[l1 e] l2]|] eqn:E; cbn [mbind option_bind].
    + apply find_split_Some in E as (-> & _ & _). destruct (unlink_ok _ _ _ _ Hbuf Hseg) as (U1 & U2 & U3).
      eapply wp_mono; [by eapply write_dir_block|]. intros s3 r [-> Hc]. split; [done|].
      by rewrite (insert_middle _ _ _ _ Hl) in Hc.
    + eapply wp_mono; [apply (IH (S b)); [done|lia]|]. intros s3 r.
      destruct (remove_name name (drop (S b) ls)) as [ls2|]; simpl; [|done]. by rewrite (take_snoc_app _ _ _ _ Hl).
Qed.

Lemma add_blocks_ok c i ls d name ino type : dir_ok c i ls -> valid_new ino type name ->
  spill_free (Z.of_nat (length name)) ls ->
  forall n b hs s ls2, Vol hs c s -> (b + n = length ls + 1)%nat -> insert_name ino type name (drop b ls) = Some ls2 ->
  wp (add_blocks stack junk d name ino type (Z.of_nat (length ls)) i b n)
     (fun s' r => r = true /\ dir_changed hs c i (take b ls ++ ls2) s') s.
Proof.
  intros Hd Hv Hsp. induction n as [|n IH]; intros b hs s ls2 HV Hn Hins; cbn [add_blocks].
  - rewrite drop_ge in Hins by lia. done.
  - destruct (decide (b < length ls)%nat) as [Hb|Hb]; [|rewrite drop_ge in Hins by lia; done].
    destruct (lookup_lt_is_Some_2 ls b Hb) as [l Hl]. pose proof (do_file _ _ _ Hd) as Hf.
    destruct (dir_buffer hs c s i ls b l HV Hd Hl) as (Hbd & Hbp & Hbu & Hbuf & Hseg & Hlen).
    destruct (do_block _ _ _ Hd _ _ Hl) as [Hm _].
    wp_call get_block_ok; [exact Hstack|exact HV|lia|exact Hf|done|]. intros s1 r [-> HV1]. cbv beta iota.
    destruct (Z.leb_spec (block_map c i (Z.of_nat b)) 0); [lia|]. rewrite Hbu.
    wp_call vol_read; [exact Hstack|exact HV1|apply Hbd|]. intros s2 r [-> HV2]. cbv beta iota. apply wp_get.
    rewrite (vol_m _ _ _ _ _ HV2), (geo_bs _ (vol_geo _ _ _ _ _ HV)). cbv zeta.
    rewrite (dir_find_ok _ _ (room_for (Z.of_nat (length name))) l Hbuf Hseg) by (intros; by apply has_room_at).
    rewrite (drop_S ls l b Hl) in Hins. cbn [insert_name] in Hins.
    destruct (find_split (room_for _) l) as [[[l1 e] l2]|] eqn:E; cbn [mbind option_bind].
    + injection Hins as <-. pose proof (Hsp l l1 e l2 ltac:(by eapply list_elem_of_lookup_2) E) as Hns.
      apply find_split_Some in E as (-> & Hroom & _).
      destruct (split_entry_ok _ _ _ _ ino type name Hbuf Hlen Hseg Hroom Hv Hns) as (U1 & U2 & U3).
      wp_call write_dir_block; [exact HV2|exact Hd|exact Hl|exact U1|exact U3|]. intros s3 r [-> Hc]. cbn [negb].
      pose proof (dir_size_small _ _ _ Hd). rewrite (do_size _ _ _ Hd), u32_small by lia.
      destruct (Z.ltb_spec (1024 * Z.of_nat (length ls)) ((Z.of_nat b + 1) * 1024)); [lia|].
      apply wp_ret. split; [done|]. by rewrite (insert_middle _ _ _ _ Hl) in Hc.
    + destruct (Z.leb_spec (Z.of_nat (length ls)) (Z.of_nat b)); [lia|].
      apply fmap_Some in Hins as (ls3 & Hins & ->).
      eapply wp_mono; [apply (IH (S b) hs s2 ls3); [done|lia|done]|]. intros s3 r [-> Hc].
      split; [done|]. by rewrite (take_snoc_app _ _ _ _ Hl).
Qed.

(** ** The calls *)

Lemma dir_changed_ok hs c n ls (s' : Ext2 (D := D)) : inode_valid m n -> dir_changed hs c (inode_at m L c n) ls s' ->
  exists c', Vol hs c' s' /\ dir_ok c' (inode_at m L c' n) ls /\
    (forall n', inode_valid m n' -> inode_at m L c' n' = inode_at m L c n').
Proof. intros Hn (c' & HV & Hd & Hi & _). exists c'. by rewrite Hi. Qed.

Lemma dir_add_entry_ok hs c s n ls name ino type ls2 : Vol hs c s -> inode_valid m n ->
  dir_ok c (inode_at m L c n) ls -> valid_new ino type name -> spill_free (Z.of_nat (length name)) ls ->
  insert_name ino type name ls = Some ls2 ->
  wp (dir_add_entry stack junk n name ino type)
     (fun s' r => r = true /\ dir_changed hs c (inode_at m L c n) ls2 s') s.
Proof.
  intros HV Hn Hd Hv Hsp Hins. unfold dir_add_entry.
  wp_call read_inode_ok; [done|exact HL|done|done|]. intros s1 r [-> HV1].
  cbv beta iota. rewrite (do_dir _ _ _ Hd). cbn [negb]. apply wp_get. rewrite (vol_m _ _ _ _ _ HV1).
  rewrite (dir_blocks_ok _ _ _ (vol_geo _ _ _ _ _ HV) Hd). pose proof (dir_size_small _ _ _ Hd).
  rewrite u32_small by lia. rewrite take_ge by (destruct Hv as (_ & _ & _ & Hl); unfold EXT2_NAME_MAX; lia).
  apply (add_blocks_ok c (inode_at m L c n) ls n name ino type Hd Hv Hsp _ 0 hs s1 ls2); [done|lia|done].
Qed.

Lemma dir_remove_entry_ok hs c s n ls name : Vol hs c s -> inode_valid m n -> dir_ok c (inode_at m L c n) ls ->
  wp (dir_remove_entry stack junk n name)
     (fun s' r => match remove_name name ls with
                  | None => r = false /\ Vol hs c s'
                  | Some ls2 => r = true /\ dir_changed hs c (inode_at m L c n) ls2 s'
                  end) s.
Proof.
  intros HV Hn Hd. unfold dir_remove_entry. wp_call read_inode_ok; [done|exact HL|done|done|]. intros s1 r [-> HV1].
  cbv beta iota. rewrite (do_dir _ _ _ Hd). cbn [negb]. apply wp_get. rewrite (vol_m _ _ _ _ _ HV1).
  rewrite (dir_blocks_ok _ _ _ (vol_geo _ _ _ _ _ HV) Hd), Nat2Z.id.
  by apply (remove_blocks_ok c (inode_at m L c n) ls name Hd _ 0).
Qed.

(** What a lookup gives in a state. *)
Definition looks_up n name r (s : Ext2 (D := D)) : Prop := snd (dir_lookup stack junk n name s) = r.

Lemma looks_up_ok hs c s n ls name : Vol hs c s -> inode_valid m n -> dir_ok c (inode_at m L c n) ls ->
  looks_up n name (head (inos name (concat ls))) s.
Proof.
  intros HV Hn Hd. pose proof (dir_lookup_ok hs c s n ls name HV Hn Hd) as Hok.
  apply wp_run in Hok as (s' & r & Hr & -> & _). unfold looks_up. by rewrite Hr, <- find_name_inos.
Qed.

(** Removing a name from a directory that had [name] added to [ls]. *)
Lemma removed_ok c1 hs s1 ls2 n ls gone name ino : Vol hs c1 s1 -> inode_valid m n ->
  dir_ok c1 (inode_at m L c1 n) ls2 -> inos name (concat ls) = [] ->
  (forall other, inos other (concat ls2) = if decide (other = name) then [ino] else inos other (concat ls)) ->
  valid_name gone -> exists s2 found,
    dir_remove_entry stack junk n gone s1 = (s2, found) /\
    (found = false <-> looks_up n gone None s1) /\
    ((length (inos gone (concat ls)) <= 1)%nat -> looks_up n gone None s2) /\
    forall other, other <> gone -> exists r, looks_up n other r s1 /\ looks_up n other r s2.
Proof.
  intros HV1 Hn Hd1 Hempty Hi Hg.
  pose proof (fun other => looks_up_ok _ _ _ n ls2 other HV1 Hn Hd1) as Hl1.
  pose proof (dir_remove_entry_ok hs c1 s1 n ls2 gone HV1 Hn Hd1) as Hok.
  apply wp_run in Hok as (s2 & found & Hrem & Hres). exists s2, found. split; [done|].
  pose proof (fun other => inos_remove other gone ls2 Hg) as Hri.
  destruct (remove_name gone ls2) as [ls3|] eqn:E.
  - destruct Hres as [-> Hc2]. destruct (dir_changed_ok _ _ _ _ _ Hn Hc2) as (c2 & HV2 & Hd2 & _).
    pose proof (fun other => looks_up_ok _ _ _ n ls3 other HV2 Hn Hd2) as Hl2. split; [|split].
    + split; [done|]. intros Hnone. pose proof (Hl1 gone) as Hl. unfold looks_up in Hnone, Hl. rewrite Hnone in Hl.
      by destruct (remove_found gone ls2 ls3 Hg E) as (i & l & El); rewrite El in Hl.
    + intros Hlen. specialize (Hl2 gone). rewrite Hri, decide_True in Hl2 by done.
      rewrite Hi in Hl2. case_decide; [done|]. by destruct (inos gone (concat ls)) as [|i [|j l]]; simpl in Hlen; [..|lia].
    + intros other Hne. exists (head (inos other (concat ls2))). split; [by apply Hl1|].
      specialize (Hl2 other). by rewrite Hri, decide_False in Hl2.
  - destruct Hres as [-> HV2]. pose proof (fun other => looks_up_ok _ _ _ n ls2 other HV2 Hn Hd1) as Hl2.
    split; [|split].
    + split; [|done]. intros _. specialize (Hl1 gone). by rewrite (Hri gone) in Hl1.
    + intros _. specialize (Hl2 gone). by rewrite (Hri gone) in Hl2.
    + intros other _. exists (head (inos other (concat ls2))). by split; [apply Hl1|apply Hl2].
Qed.

(** C19: A directory on a well-formed volume is a table of names.  [dir_add_entry]
    of a name the directory does not have, when an entry has room for it and the
    terminator written behind it does not reach the next entry (which it would corrupt,
    ext2fs.c:724), succeeds: [dir_lookup] then gives the new inode for the name and for
    every other name what it gave before.  [dir_remove_entry] of any name then takes it
    out when it is there - unless a second entry of the name stood behind it - and
    reports when it is not, and no lookup of another name changes. *)
Theorem dir_add_lookup_remove hs c (s : Ext2 (D := D)) n ls name ino type ls2 :
  Vol hs c s -> inode_valid m n -> dir_ok c (inode_at m L c n) ls ->
  valid_name name -> is_u32 ino -> ino <> 0 -> is_byte type ->
  looks_up n name None s -> spill_free (Z.of_nat (length name)) ls -> insert_name ino type name ls = Some ls2 ->
  exists s1, dir_add_entry stack junk n name ino type s = (s1, true) /\
    looks_up n name (Some ino) s1 /\
    (forall other, other <> name -> exists r, looks_up n other r s /\ looks_up n other r s1) /\
    forall gone, valid_name gone -> exists s2 found,
      dir_remove_entry stack junk n gone s1 = (s2, found) /\
      (found = false <-> looks_up n gone None s1) /\
      ((length (inos gone (concat ls)) <= 1)%nat -> looks_up n gone None s2) /\
      forall other, other <> gone -> exists r, looks_up n other r s1 /\ looks_up n other r s2.
Proof.
  intros HV Hn Hd Hname Hino Hnz Htype Hnone Hsp Hins.
  pose proof (looks_up_ok hs c s n ls name HV Hn Hd) as Hl0. unfold looks_up in Hnone, Hl0. rewrite Hnone in Hl0.
  assert (inos name (concat ls) = []) as Hempty by (by destruct (inos name (concat ls))).
  assert (valid_new ino type name) as Hv by (destruct Hname as (_ & _ & ? & ?); done).
  pose proof (dir_add_entry_ok hs c s n ls name ino type ls2 HV Hn Hd Hv Hsp Hins) as Hok.
  apply wp_run in Hok as (s1 & r & Hadd & -> & Hc1).
  destruct (dir_changed_ok _ _ _ _ _ Hn Hc1) as (c1 & HV1 & Hd1 & _).
  assert (forall other, inos other (concat ls2) = if decide (other = name) then [ino] else inos other (concat ls)) as Hi.
  { intros other. destruct (inos_insert other _ _ _ _ _ Hname Hnz Hins) as (A & B & HAB & ->).
    rewrite HAB, inos_app. case_decide as Ho; [|done]. subst other. rewrite HAB, inos_app in Hempty.
    by apply app_eq_nil in Hempty as [-> ->]. }
  pose proof (fun other => looks_up_ok _ _ _ n ls2 other HV1 Hn Hd1) as Hl1.
  exists s1. split; [done|]. split; [|split].
  - specialize (Hl1 name). by rewrite Hi, decide_True in Hl1.
  - intros other Hne. exists (head (inos other (concat ls))). split; [by apply (looks_up_ok hs c)|].
    specialize (Hl1 other). by rewrite Hi, decide_False in Hl1.
  - intros gone Hg. by apply (removed_ok c1 hs s1 ls2 n ls gone name ino).
Qed.
End Names.

(** ** The root of the demonstration volume *)

Definition demo_entries : list dentry :=
  [ {| d_ino := 2; d_len := 12; d_type := EXT2_FT_DIR; d_name := [46] |};
    {| d_ino := 2; d_len := 12; d_type := EXT2_FT_DIR; d_name := [46; 46] |};
    {| d_ino := 3; d_len := 1000; d_type := EXT2_FT_REG_FILE; d_name := [97] |} ].

Lemma demo_root_at : inode_at demo_m demo_L demo_vol 2 = demo_root.
Proof. vm_compute. reflexivity. Qed.

Lemma demo_root_map k : 0 <= k -> block_map demo_vol demo_root k = if k =? 0 then 6 else 0.
Proof.
  intros Hk. destruct (decide (12 <= k)) as [H12|H12].
  - unfold block_map. destruct (Z.ltb_spec k 12); [lia|]. destruct (Z.eqb_spec k 0); [lia|].
    by destruct (256 <=? k - 12).
  - apply Z.eqb_eq. assert (0 <= k < 0 + 12) as Hb by lia. clear Hk H12. revert k Hb.
    apply (range_check (fun k => _ =? _) 0 12). vm_compute. reflexivity.
Qed.

Lemma demo_dir_ok : dir_ok demo_m demo_L demo_vol (inode_at demo_m demo_L demo_vol 2) [demo_entries].
Proof.
  rewrite demo_root_at. split; [|done|done|].
  - apply demo_file_ok_of; [done|repeat constructor; lia|done| |].
    + intros k Hk Hmk. unfold mapped in Hmk. rewrite demo_root_map in * by done. case_if; lia.
    + intros k k' Hk Hk' Hmk He. unfold mapped in Hmk. rewrite !demo_root_map in * by done.
      repeat case_if; bsimpl; lia.
  - intros [|k] l Hl; [|done]. injection Hl as <-. rewrite demo_root_map by lia. split; [unfold mapped; by rewrite demo_root_map|].
    simpl. unfold entry_at.
    split_and!; try (vm_compute; reflexivity); split; simpl; unfold is_u32, is_byte;
      try (vm_compute; split; congruence); try lia; split; try (vm_compute; congruence); repeat constructor; lia.
Qed.

Lemma dir_add_lookup_remove_witness :
  let name := [110; 101; 119] in
  exists s1, dir_add_entry zero_sector demo_junk 2 name 4 EXT2_FT_REG_FILE demo_state = (s1, true) /\
    looks_up zero_sector demo_junk 2 name (Some 4) s1 /\
    (forall other, other <> name -> exists r, looks_up zero_sector demo_junk 2 other r demo_state /\
      looks_up zero_sector demo_junk 2 other r s1) /\
    forall gone, valid_name gone -> exists s2 found,
      dir_remove_entry zero_sector demo_junk 2 gone s1 = (s2, found) /\
      (found = false <-> looks_up zero_sector demo_junk 2 gone None s1) /\
      ((length (inos gone (concat [demo_entries])) <= 1)%nat -> looks_up zero_sector demo_junk 2 gone None s2) /\
      forall other, other <> gone -> exists r, looks_up zero_sector demo_junk 2 other r s1 /\
        looks_up zero_sector demo_junk 2 other r s2.
Proof.
  apply (dir_add_lookup_remove zero_sector demo_junk zero_sector_ok ltac:(by apply Forall_replicate) ltac:(done)
    demo_m demo_L demo_layout demo_handles demo_vol demo_state 2 [demo_entries] [110; 101; 119] 4 EXT2_FT_REG_FILE
    (default [] (insert_name 4 EXT2_FT_REG_FILE [110; 101; 119] [demo_entries])) demo_Vol).
  - unfold inode_valid. simpl. lia.
  - apply demo_dir_ok.
  - split_and!; [done|done|repeat constructor; lia|simpl; lia].
  - unfold is_u32. lia.
  - lia.
  - unfold is_byte, EXT2_FT_REG_FILE. lia.
  - vm_compute. reflexivity.
  - intros l l1 e l2 Hl Hf. apply list_elem_of_singleton in Hl as ->. vm_compute in Hf. injection Hf as <- <- <-. by right.
  - vm_compute. reflexivity.
Defined.

(** ** Paths *)

(** The maximal runs of characters other than the slash. *)
Fixpoint split_path (s : list Z) : list (list Z) :=
  match s with
  | [] => []
  | c :: s' =>
      if c =? slash then split_path s'
      else match s' with
           | [] => [[c]]
           | d :: _ => if d =? slash then [c] :: split_path s'
                       else match split_path s' with
                            | [] => [[c]]
                            | w :: ws => (c :: w) :: ws
                            end
           end
  end.

Lemma split_slashes s : split_path (skip_slashes s) = split_path s.
Proof. induction s as [|c s IH]; simpl; [done|]. destruct (c =? slash) eqn:E; [done|]. simpl. by rewrite E. Qed.

(** A run at the head: its characters and what follows. *)
Lemma take_component_ok room s c s' : s = c :: s' -> (c =? slash) = false ->
  (Z.of_nat (length (default [] (head (split_path s)))) <= Z.of_nat room) ->
  exists w rest, take_component room s = (w, rest) /\ w <> [] /\ s = w ++ rest /\
    split_path s = w :: split_path rest /\ (rest = [] \/ exists t, rest = slash :: t).
Proof.
  revert room c s'. induction s as [|c0 s IH]; intros room c s' Hs Hc Hlen; [done|]. injection Hs as -> ->.
  destruct s' as [|d s'].
  - destruct room as [|room]; [simpl in Hlen; rewrite Hc in Hlen; simpl in Hlen; lia|].
    exists [c], []. simpl. rewrite Hc. destruct room; split_and!; auto.
  - destruct (d =? slash) eqn:Hd.
    + destruct room as [|room]; [simpl in Hlen; rewrite Hc, Hd in Hlen; simpl in Hlen; lia|].
      exists [c], (d :: s'). cbn [take_component]. rewrite Hc.
      assert (take_component room (d :: s') = ([], d :: s')) as -> by (destruct room; simpl; [done|by rewrite Hd]).
      split_and!; try done; [simpl; rewrite Hc, Hd; done|]. right. exists s'. f_equal. by apply Z.eqb_eq.
    + assert (exists w ws, split_path (d :: s') = w :: ws) as (w & ws & Hw).
      { clear -Hd. simpl. rewrite Hd. destruct s' as [|e s']; [eauto|]. destruct (e =? slash); [eauto|].
        destruct (split_path (e :: s')); eauto. }
      assert (split_path (c :: d :: s') = (c :: w) :: ws) as Hcw by (cbn [split_path] in *; rewrite Hc, Hd in *; by rewrite Hw).
      rewrite Hcw in Hlen. simpl in Hlen. destruct room as [|room]; [lia|].
      destruct (IH room d s' eq_refl Hd) as (w' & rest & Ht & Hne & Happ & Hsp & Hr).
      { rewrite Hw. simpl. lia. }
      exists (c :: w'), rest. cbn [take_component]. rewrite Hc, Ht. rewrite Hw in Hsp. injection Hsp as <- ->.
      split_and!; try done. by rewrite Happ.
Qed.

Lemma skip_length s : (length (skip_slashes s) <= length s)%nat.
Proof. induction s as [|c s IH]; simpl; [lia|]. destruct (c =? slash); simpl; lia. Qed.

Lemma skip_head s c t : skip_slashes s = c :: t -> (c =? slash) = false.
Proof. induction s as [|d s IH]; simpl; [done|]. destruct (d =? slash) eqn:E; [done|]. by intros [= <- <-]. Qed.

Lemma split_nil s : split_path s = [] <-> skip_slashes s = [].
Proof.
  split.
  - intros Hs. rewrite <- split_slashes in Hs. destruct (skip_slashes s) as [|c t] eqn:E; [done|].
    pose proof (skip_head _ _ _ E) as Hc. simpl in Hs. rewrite Hc in Hs. destruct t as [|d t]; [done|].
    destruct (d =? slash); [done|]. by destruct (split_path (d :: t)).
  - intros Hs. by rewrite <- split_slashes, Hs.
Qed.

(** One call of [parse_component] takes one name off the path. *)
Lemma parse_component_ok s : Forall (fun w => Z.of_nat (length w) <= EXT2_NAME_MAX) (split_path s) ->
  match parse_component s (EXT2_NAME_MAX + 1) with
  | None => split_path s = []
  | Some (w, rest) => split_path s = w :: split_path rest /\ (length rest < length s)%nat /\
                      (rest = [] <-> split_path rest = [])
  end.
Proof.
  intros Hlen. unfold parse_component. pose proof (skip_length s) as Hsl.
  destruct (skip_slashes s) as [|c t] eqn:E; [by apply split_nil|].
  rewrite <- split_slashes, E in Hlen |- *.
  destruct (take_component_ok (Z.to_nat (EXT2_NAME_MAX + 1 - 1)) (c :: t) c t eq_refl (skip_head _ _ _ E))
    as (w & rest & Ht & Hne & Happ & Hsp & Hr).
  { destruct (split_path (c :: t)) as [|w ws]; [simpl; lia|]. inversion Hlen. simpl. lia. }
  rewrite Ht. destruct (Z.ltb_spec 0 (Z.of_nat (length w))); [|destruct w; simpl in *; [done|lia]].
  rewrite split_slashes. split; [done|]. split.
  - pose proof (skip_length rest). assert (length (c :: t) = length w + length rest)%nat by (rewrite Happ; apply length_app).
    destruct w; simpl in *; [done|lia].
  - by rewrite split_nil.
Qed.

Section Walk.
Context {D : Type} `{BlockDev D} (stack junk : list Z).

(** The walk along a list of names from a directory. *)
Fixpoint walk (want_inode : bool) (current : Z) (names : list (list Z)) : ST Ext2 (option (Z * Z * list Z)) :=
  match names with
  | [] => mret None
  | [name] =>
      found ← (if want_inode then dir_lookup stack junk current name else mret None);
      mret (Some (default 0 found, current, name))
  | name :: names' =>
      found ← dir_lookup stack junk current name;
      match found with
      | None => mret (Some (0, current, name))
      | Some next => walk want_inode next names'
      end
  end.

Lemma resolve_from_ok want : forall fuel current s st, (length s < fuel)%nat ->
  Forall (fun w => Z.of_nat (length w) <= EXT2_NAME_MAX) (split_path s) ->
  resolve_from stack junk want fuel current s st = walk want current (split_path s) st.
Proof.
  induction fuel as [|fuel IH]; intros current s st Hf Hlen; [lia|]. cbn [resolve_from].
  pose proof (parse_component_ok s Hlen) as Hp. destruct (parse_component s _) as [[w rest]|]; [|by rewrite Hp].
  destruct Hp as (Hsp & Hl & Hr). rewrite Hsp in Hlen |- *. inversion Hlen as [|? ? _ Hlen']; subst.
  destruct rest as [|c rest]; [done|]. destruct (split_path (c :: rest)) as [|w' ws] eqn:E; [by destruct Hr as [_ Hr]; specialize (Hr eq_refl)|].
  cbn [walk]. unfold mbind, ST_bind. destruct (dir_lookup stack junk current w st) as [st' [next|]]; [|done].
  rewrite IH; [by rewrite E|simpl in *; lia|by rewrite E].
Qed.

(** C34: [resolve_path] is the walk along the names of the path from the root
    directory, and always ends: a path of the root alone is the root itself without
    a parent; a path that does not start with a slash, or holds nothing but two or
    more slashes, is refused; any other path, whose names have at most 255
    characters, is looked up name by name, repeated and trailing slashes counting
    for nothing. *)
Theorem resolve_path_is_walk path st :
  Forall (fun w => Z.of_nat (length w) <= EXT2_NAME_MAX) (split_path path) ->
  resolve_path stack junk path st =
    match path with
    | [] => (st, None)
    | c :: rest =>
        if negb (c =? slash) then (st, None)
        else if bool_decide (rest = []) then (st, Some (EXT2_ROOT_INODE, 0, []))
        else walk true EXT2_ROOT_INODE (split_path path) st
    end.
Proof.
  intros Hlen. unfold resolve_path, resolve_path_opt. destruct path as [|c rest]; [done|].
  destruct (c =? slash) eqn:Hc; [|done]. cbn [negb]. destruct rest as [|d rest]; [done|].
  rewrite bool_decide_false by done. apply resolve_from_ok; [lia|done].
Qed.
End Walk.

Lemma resolve_path_is_walk_witness :
  let path := [47; 47; 97; 47] in
  snd (resolve_path zero_sector demo_junk path demo_state) = Some (3, 2, [97]) /\
  resolve_path zero_sector demo_junk path demo_state =
    walk zero_sector demo_junk true EXT2_ROOT_INODE [[97]] demo_state.
Proof.
  split; [vm_compute; reflexivity|].
  apply (resolve_path_is_walk zero_sector demo_junk [47; 47; 97; 47] demo_state).
  repeat constructor; simpl; unfold EXT2_NAME_MAX; lia.
Defined.
