(* ===== verification/Pipe.v ===== *)
(** * Pipes (the pipe backend of kernel/vfs.c)

    A pipe is a ring of 1024 bytes with a count of open read ends and of open write
    ends; a pipe handle names a pipe and one of the two ends.  The file models slot
    and handle allocation, read, write and close, and shows that a pipe is a bounded
    queue of bytes. *)
From S2P Require Import Prelude Ring VfsDefs.

Definition VFS_PIPE_MAX : Z := 64.
Definition VFS_PIPE_BUFFER_SIZE : Z := 1024.

Record VfsPipe := {
  p_used : Z; p_data : list Z; p_head : Z; p_tail : Z; p_count : Z; p_read_refs : Z; p_write_refs : Z
}.
#[export] Instance VfsPipe_fields : Fields VfsPipe := fun r =>
  {| p_used := p_used r; p_data := p_data r; p_head := p_head r; p_tail := p_tail r; p_count := p_count r;
     p_read_refs := p_read_refs r; p_write_refs := p_write_refs r |}.

Record VfsPipeHandle := { ph_used : Z; ph_pipe_idx : Z; ph_writable : Z }.
#[export] Instance VfsPipeHandle_fields : Fields VfsPipeHandle := fun r =>
  {| ph_used := ph_used r; ph_pipe_idx := ph_pipe_idx r; ph_writable := ph_writable r |}.

(** [vfs_pipes] and [vfs_pipe_handles]. *)
Record Pipes := { vfs_pipes : list VfsPipe; vfs_pipe_handles : list VfsPipeHandle }.
#[export] Instance Pipes_fields : Fields Pipes := fun r =>
  {| vfs_pipes := vfs_pipes r; vfs_pipe_handles := vfs_pipe_handles r |}.

#[export] Instance VfsPipe_inh : Inhabited VfsPipe := populate (Build_VfsPipe 0 [] 0 0 0 0 0).
#[export] Instance VfsPipeHandle_inh : Inhabited VfsPipeHandle := populate (Build_VfsPipeHandle 0 0 0).

Definition set_pipe (i : Z) (f : VfsPipe -> VfsPipe) : ST Pipes unit :=
  modify (fun s => s <| vfs_pipes ::= alter f (Z.to_nat i) |>).

Definition vfs_pipe_alloc_slot : ST Pipes Z := fun s =>
  match find_idx (fun p => p_used p =? 0) (vfs_pipes s) with
  | Some i =>
      (s <| vfs_pipes ::= alter (fun p => p <| p_used := 1 |> <| p_head := 0 |> <| p_tail := 0 |>
                                    <| p_count := 0 |> <| p_read_refs := 0 |> <| p_write_refs := 0 |>) i |>,
       Z.of_nat i)
  | None => (s, -1)
  end.

Definition vfs_pipe_handle_alloc (pipe_idx writable : Z) : ST Pipes Z := fun s =>
  match find_idx (fun h => ph_used h =? 0) (vfs_pipe_handles s) with
  | Some i =>
      (s <| vfs_pipe_handles ::= <[i := Build_VfsPipeHandle 1 pipe_idx writable]> |>
         <| vfs_pipes ::= alter (fun p => if negb (writable =? 0) then p <| p_write_refs ::= Z.succ |>
                                          else p <| p_read_refs ::= Z.succ |>) (Z.to_nat pipe_idx) |>,
       Z.of_nat i)
  | None => (s, -1)
  end.

Definition pipe_handle_ok (s : Pipes) (handle : Z) : bool :=
  negb ((handle <? 0) || (VFS_PIPE_MAX * 2 <=? handle) || (ph_used (vfs_pipe_handles s).[handle] =? 0)).

(** The copy loops: at most [n] bytes are left to move. *)
Fixpoint pipe_take (n : nat) (pipe : VfsPipe) : VfsPipe * list Z :=
  match n with
  | O => (pipe, [])
  | S n' =>
      if 0 <? p_count pipe then
        let b := (p_data pipe).[p_head pipe] in
        let '(pipe, out) := pipe_take n' (pipe <| p_head := (p_head pipe +u 1) mod VFS_PIPE_BUFFER_SIZE |>
                                               <| p_count ::= Z.pred |>) in
        (pipe, b :: out)
      else (pipe, [])
  end.

Fixpoint pipe_put (bytes : list Z) (pipe : VfsPipe) (done : Z) : VfsPipe * Z :=
  match bytes with
  | [] => (pipe, done)
  | b :: bytes' =>
      if p_count pipe <? VFS_PIPE_BUFFER_SIZE then
        pipe_put bytes' (pipe <| p_data ::= <[Z.to_nat (p_tail pipe) := b]> |>
                              <| p_tail := (p_tail pipe +u 1) mod VFS_PIPE_BUFFER_SIZE |>
                              <| p_count ::= Z.succ |>) (done + 1)
      else (pipe, done)
  end.

(** The result code and the bytes stored at the start of the buffer. *)
Definition pipe_read_backend (handle : Z) (buf_null : bool) (size : Z) : ST Pipes (Z * list Z) := fun s =>
  if negb (pipe_handle_ok s handle) || buf_null then (s, (VFS_ERR_INVALID_FD, []))
  else
    let h := (vfs_pipe_handles s).[handle] in
    if negb (ph_writable h =? 0) then (s, (VFS_ERR_PERM, []))
    else
      let '(pipe, out) := pipe_take (Z.to_nat size) (vfs_pipes s).[ph_pipe_idx h] in
      let s := s <| vfs_pipes ::= <[Z.to_nat (ph_pipe_idx h) := pipe]> |> in
      let done := Z.of_nat (length out) in
      if (done =? 0) && (0 <? p_write_refs pipe) then (s, (VFS_ERR_WOULD_BLOCK, []))
      else (s, (i32 done, out)).

Definition pipe_write_backend (handle : Z) (buf : option (list Z)) (size : Z) : ST Pipes Z := fun s =>
  match buf with
  | Some src =>
      if negb (pipe_handle_ok s handle) then (s, VFS_ERR_INVALID_FD)
      else
        let h := (vfs_pipe_handles s).[handle] in
        if ph_writable h =? 0 then (s, VFS_ERR_PERM)
        else
          let pipe := (vfs_pipes s).[ph_pipe_idx h] in
          if p_read_refs pipe <=? 0 then (s, VFS_ERR_IO)
          else
            let '(pipe, done) := pipe_put (take (Z.to_nat size) src) pipe 0 in
            let s := s <| vfs_pipes ::= <[Z.to_nat (ph_pipe_idx h) := pipe]> |> in
            if done =? 0 then (s, VFS_ERR_WOULD_BLOCK) else (s, i32 done)
  | None => (s, VFS_ERR_INVALID_FD)
  end.

Definition drop_end (writable : Z) (p : VfsPipe) : VfsPipe :=
  if negb (writable =? 0) then (if 0 <? p_write_refs p then p <| p_write_refs ::= Z.pred |> else p)
  else (if 0 <? p_read_refs p then p <| p_read_refs ::= Z.pred |> else p).

Definition free_unreferenced (p : VfsPipe) : VfsPipe :=
  if (p_read_refs p =? 0) && (p_write_refs p =? 0)
  then p <| p_used := 0 |> <| p_head := 0 |> <| p_tail := 0 |> <| p_count := 0 |> else p.

Definition pipe_close_backend (handle : Z) : ST Pipes Z := fun s =>
  if negb (pipe_handle_ok s handle) then (s, VFS_ERR_INVALID_FD)
  else
    let h := (vfs_pipe_handles s).[handle] in
    (s <| vfs_pipes ::= alter (fun p => free_unreferenced (drop_end (ph_writable h) p)) (Z.to_nat (ph_pipe_idx h)) |>
       <| vfs_pipe_handles ::= <[Z.to_nat handle := Build_VfsPipeHandle 0 (-1) 0]> |>, VFS_OK).

Definition pipe_lseek_backend (handle offset whence : Z) : ST Pipes Z := mret VFS_ERR_INVALID_ARG.
Definition pipe_stat_backend (path : list Z) : ST Pipes (Z * option VfsFileStat) := mret (VFS_ERR_INVALID_ARG, None).
Definition pipe_delete_backend (path : list Z) : ST Pipes Z := mret VFS_ERR_PERM.
Definition pipe_unsupported_rename (old_path new_path : list Z) : ST Pipes Z := mret VFS_ERR_PERM.
Definition pipe_unsupported_mkdir (path : list Z) (mode : Z) : ST Pipes Z := mret VFS_ERR_PERM.
Definition pipe_unsupported_rmdir (path : list Z) : ST Pipes Z := mret VFS_ERR_PERM.
Definition pipe_unsupported_truncate (path : list Z) (size : Z) : ST Pipes Z := mret VFS_ERR_PERM.
Definition pipe_unsupported_ftruncate (handle size : Z) : ST Pipes Z := mret VFS_ERR_PERM.
Definition pipe_unsupported_chmod (path : list Z) (mode : Z) : ST Pipes Z := mret VFS_ERR_PERM.
Definition pipe_unsupported_chown (path : list Z) (uid gid : Z) : ST Pipes Z := mret VFS_ERR_PERM.
Definition pipe_unsupported_link (old_path new_path : list Z) : ST Pipes Z := mret VFS_ERR_PERM.
Definition pipe_unsupported_symlink (target link_path : list Z) : ST Pipes Z := mret VFS_ERR_PERM.
Definition pipe_unsupported_readlink (link_path : list Z) (max_len : Z) : ST Pipes (Z * list Z) := mret (VFS_ERR_PERM, []).

(** ** A pipe holds a queue of bytes *)

Record pipe_holds (p : VfsPipe) (q : list Z) : Prop := {
  pi_len : length (p_data p) = Z.to_nat VFS_PIPE_BUFFER_SIZE;
  pi_head : 0 <= p_head p < VFS_PIPE_BUFFER_SIZE;
  pi_tail : p_tail p = (p_head p + p_count p) mod VFS_PIPE_BUFFER_SIZE;
  pi_count : 0 <= p_count p <= VFS_PIPE_BUFFER_SIZE;
  pi_queue : ring_list (p_data p) (p_head p) (p_count p) = q
}.

Lemma pipe_holds_count p q : pipe_holds p q -> p_count p = Z.of_nat (length q).
Proof. intros [? ? ? ? <-]. rewrite ring_list_length. lia. Qed.

Definition same_refs (p p' : VfsPipe) : Prop :=
  p_read_refs p' = p_read_refs p /\ p_write_refs p' = p_write_refs p.

Lemma pipe_step_head p b q : pipe_holds p (b :: q) ->
  (p_data p).[p_head p] = b /\
  pipe_holds (p <| p_head := (p_head p +u 1) mod VFS_PIPE_BUFFER_SIZE |> <| p_count ::= Z.pred |>) q.
Proof.
  intros Hp. pose proof (pipe_holds_count _ _ Hp) as Hc. destruct Hp as [Hl Hh Ht Hn Hq].
  simpl in Hc. unfold VFS_PIPE_BUFFER_SIZE in *.
  rewrite (ring_pop _ 1024) in Hq by (rewrite ?Hl; lia). injection Hq as Hb Hq.
  split; [done|]. wsimpl. split; cbn -[ring_list Z.pred]; unfold VFS_PIPE_BUFFER_SIZE;
    [done|apply Z.mod_pos_bound; lia| |lia|done].
  rewrite Ht, Zplus_mod_idemp_l. f_equal. lia.
Qed.

Lemma pipe_take_ok n : forall p q, pipe_holds p q -> exists p',
  pipe_take n p = (p', take n q) /\ pipe_holds p' (drop n q) /\ same_refs p p'.
Proof.
  induction n as [|n IH]; intros p q Hp; simpl; [by exists p|].
  pose proof (pipe_holds_count _ _ Hp) as Hc. destruct q as [|b q]; simpl in Hc.
  - rewrite Hc. by exists p.
  - destruct (Z.ltb_spec 0 (p_count p)); [|lia].
    apply pipe_step_head in Hp as [Hb Hp]. destruct (IH _ _ Hp) as (p' & Hr & Hp' & Hs).
    rewrite Hr, Hb. by exists p'.
Qed.

Lemma pipe_put_ok bytes : forall p q done, pipe_holds p q -> exists p',
  let out := take (Z.to_nat VFS_PIPE_BUFFER_SIZE - length q) bytes in
  pipe_put bytes p done = (p', done + Z.of_nat (length out)) /\ pipe_holds p' (q ++ out) /\ same_refs p p'.
Proof.
  induction bytes as [|b bytes IH]; intros p q dn Hp; simpl.
  - exists p. rewrite take_nil, app_nil_r, Z.add_0_r. done.
  - pose proof (pipe_holds_count _ _ Hp) as Hc. pose proof Hp as [Hl Hh Ht Hn Hq].
    unfold VFS_PIPE_BUFFER_SIZE in *. destruct (Z.ltb_spec (p_count p) 1024).
    + pose proof (Z.mod_pos_bound (p_head p + p_count p) 1024 ltac:(lia)). wsimpl.
      match goal with |- context [pipe_put bytes ?x _] => set (p1 := x) end.
      assert (pipe_holds p1 (q ++ [b])) as Hp1.
      { subst p1. split; cbn -[ring_list Z.succ]; unfold VFS_PIPE_BUFFER_SIZE; [by rewrite length_insert|done| |lia|].
        - rewrite Ht, Zplus_mod_idemp_l. f_equal. lia.
        - rewrite Ht. rewrite <- Hq. apply (ring_push _ 1024); rewrite ?Hl; lia. }
      destruct (IH p1 _ (dn + 1) Hp1) as (p' & Hr & Hp' & Hs). rewrite Hr, length_app in *. simpl in *.
      destruct (Z.to_nat 1024 - length q)%nat as [|m] eqn:Em; [lia|].
      replace (Z.to_nat 1024 - (length q + 1))%nat with m in * by lia.
      exists p'. split; [simpl; f_equal; lia|]. rewrite <- app_assoc in Hp'. done.
    + replace (Z.to_nat 1024 - length q)%nat with O by lia. simpl. exists p.
      rewrite app_nil_r, Z.add_0_r. done.
Qed.

(** ** The queue a pipe implements *)

(** The specification: the queue, and which ends are still open. *)
Record PipeSpec := { q_bytes : list Z; q_reader : bool; q_writer : bool }.

Inductive pipe_op := PRead (size : Z) | PWrite (bytes : list Z) | PCloseRead | PCloseWrite.

Definition pipe_op_ok (o : pipe_op) : Prop :=
  match o with PRead size => is_u32 size | PWrite bytes => is_u32 (Z.of_nat (length bytes)) | _ => True end.

Definition spec_step (o : pipe_op) (t : PipeSpec) : PipeSpec * (Z * list Z) :=
  let '(Build_PipeSpec q r w) := t in
  match o with
  | PRead size =>
      let out := take (Z.to_nat size) q in
      if negb r then (t, (VFS_ERR_INVALID_FD, []))
      else if bool_decide (out = []) && w then (t, (VFS_ERR_WOULD_BLOCK, []))
      else (Build_PipeSpec (drop (Z.to_nat size) q) r w, (Z.of_nat (length out), out))
  | PWrite bytes =>
      let out := take (Z.to_nat VFS_PIPE_BUFFER_SIZE - length q) bytes in
      if negb w then (t, (VFS_ERR_INVALID_FD, []))
      else if negb r then (t, (VFS_ERR_IO, []))
      else if bool_decide (out = []) then (t, (VFS_ERR_WOULD_BLOCK, []))
      else (Build_PipeSpec (q ++ out) r w, (Z.of_nat (length out), []))
  | PCloseRead => if negb r then (t, (VFS_ERR_INVALID_FD, []))
                  else (Build_PipeSpec (if w then q else []) false w, (VFS_OK, []))
  | PCloseWrite => if negb w then (t, (VFS_ERR_INVALID_FD, []))
                   else (Build_PipeSpec (if r then q else []) r false, (VFS_OK, []))
  end.

(** The calls on the two handles of one pipe. *)
Definition pipe_step (rh wh : Z) (o : pipe_op) (s : Pipes) : Pipes * (Z * list Z) :=
  match o with
  | PRead size => pipe_read_backend rh false size s
  | PWrite bytes => let '(s, rc) := pipe_write_backend wh (Some bytes) (Z.of_nat (length bytes)) s in (s, (rc, []))
  | PCloseRead => let '(s, rc) := pipe_close_backend rh s in (s, (rc, []))
  | PCloseWrite => let '(s, rc) := pipe_close_backend wh s in (s, (rc, []))
  end.

Record pipe_sim (rh wh i : Z) (s : Pipes) (t : PipeSpec) : Prop := {
  ps_handles : length (vfs_pipe_handles s) = Z.to_nat (VFS_PIPE_MAX * 2);
  ps_pipes : length (vfs_pipes s) = Z.to_nat VFS_PIPE_MAX;
  ps_rh : 0 <= rh < VFS_PIPE_MAX * 2; ps_wh : 0 <= wh < VFS_PIPE_MAX * 2; ps_ne : rh <> wh;
  ps_i : 0 <= i < VFS_PIPE_MAX;
  ps_holds : pipe_holds (vfs_pipes s).[i] (q_bytes t);
  ps_read_refs : p_read_refs (vfs_pipes s).[i] = Z.b2z (q_reader t);
  ps_write_refs : p_write_refs (vfs_pipes s).[i] = Z.b2z (q_writer t);
  ps_r : if q_reader t then (vfs_pipe_handles s).[rh] = Build_VfsPipeHandle 1 i 0
         else ph_used (vfs_pipe_handles s).[rh] = 0;
  ps_w : if q_writer t then (vfs_pipe_handles s).[wh] = Build_VfsPipeHandle 1 i 1
         else ph_used (vfs_pipe_handles s).[wh] = 0
}.

(** One end is closed: the pipe is freed once neither is open. *)
Lemma close_end_holds p q (w : bool) r' w' :
  pipe_holds p q -> p_read_refs p = Z.b2z r' -> p_write_refs p = Z.b2z w' ->
  (if w then w' else r') = true ->
  let p' := free_unreferenced (drop_end (Z.b2z w) p) in
  pipe_holds p' (if (if w then r' else w') then q else []) /\
  p_read_refs p' = Z.b2z (r' && w) /\ p_write_refs p' = Z.b2z (w' && negb w).
Proof.
  destruct p as [u data head tail count rr wr]. cbn. intros [] -> -> Ho. simpl in *.
  unfold VFS_PIPE_BUFFER_SIZE in *.
  destruct w, r', w'; try done; cbn; (split; [|done]); split; cbn; unfold VFS_PIPE_BUFFER_SIZE; done || lia.
Qed.

Lemma pipe_handle_used s rh wh i t (h : Z) : pipe_sim rh wh i s t -> h = rh \/ h = wh ->
  pipe_handle_ok s h = negb (ph_used (vfs_pipe_handles s).[h] =? 0).
Proof.
  intros Hs Hh. pose proof (ps_rh _ _ _ _ _ Hs). pose proof (ps_wh _ _ _ _ _ Hs). unfold pipe_handle_ok.
  destruct (Z.ltb_spec h 0), (Z.leb_spec (VFS_PIPE_MAX * 2) h); (destruct Hh; subst; lia) || done.
Qed.

(** The pipe's cell after a call that moved bytes. *)
Lemma pipe_sim_store rh wh i s q q' r w p' : pipe_sim rh wh i s (Build_PipeSpec q r w) ->
  pipe_holds p' q' -> same_refs (vfs_pipes s).[i] p' ->
  pipe_sim rh wh i (s <| vfs_pipes ::= <[Z.to_nat i := p']> |>) (Build_PipeSpec q' r w).
Proof.
  intros [] Hp' [Hr Hw]. simpl in *. unfold VFS_PIPE_MAX in *.
  split; cbn -[Z.mul]; rewrite ?length_insert; try done; rewrite cell_insert by lia; congruence || done.
Qed.

Lemma pipe_sim_close rh wh i s q (r w e : bool) h : pipe_sim rh wh i s (Build_PipeSpec q r w) ->
  (if e then w else r) = true -> h = (if e then wh else rh) ->
  pipe_sim rh wh i
    (s <| vfs_pipes ::= alter (fun p => free_unreferenced (drop_end (Z.b2z e) p)) (Z.to_nat i) |>
       <| vfs_pipe_handles ::= <[Z.to_nat h := Build_VfsPipeHandle 0 (-1) 0]> |>)
    (Build_PipeSpec (if (if e then r else w) then q else []) (r && e) (w && negb e)).
Proof.
  intros [] Ho ->. simpl in *. unfold VFS_PIPE_MAX in *.
  destruct (close_end_holds (vfs_pipes s).[i] q e r w) as (Hh & Hr & Hw); try done.
  split; cbn -[Z.mul]; rewrite ?alter_cell, ?length_insert by lia; try done; rewrite ?cell_insert by lia; try done.
  - destruct e; rewrite ?andb_true_r, ?andb_false_r; [|by rewrite cell_insert by lia].
    rewrite cell_insert_ne by lia. done.
  - destruct e; rewrite ?andb_true_r, ?andb_false_r; [by rewrite cell_insert by lia|].
    rewrite cell_insert_ne by lia. done.
Qed.

Lemma read_sim rh wh i s t size : pipe_sim rh wh i s t -> is_u32 size ->
  let r := pipe_read_backend rh false size s in
  pipe_sim rh wh i (fst r) (fst (spec_step (PRead size) t)) /\ snd r = snd (spec_step (PRead size) t).
Proof.
  intros Hs Hsz. pose proof Hs as [Hlh Hlp Hrh Hwh Hne Hi Hp Hrr Hwr Hr Hw].
  unfold pipe_read_backend. rewrite (pipe_handle_used _ _ _ _ _ _ Hs) by auto.
  destruct t as [q [] w]; simpl in *; [|by rewrite Hr]. rewrite Hr. simpl.
  destruct (pipe_take_ok (Z.to_nat size) _ _ Hp) as (p' & -> & Hp' & Hsame).
  assert (p_write_refs p' = Z.b2z w) as Hw' by (rewrite <- Hwr; apply Hsame). rewrite Hw'.
  assert (Z.of_nat (length (take (Z.to_nat size) q)) <= 1024).
  { pose proof (pipe_holds_count _ _ Hp) as Hc. pose proof (pi_count _ _ Hp) as Hn.
    unfold VFS_PIPE_BUFFER_SIZE in Hn. rewrite length_take. lia. }
  assert ((Z.of_nat (length (take (Z.to_nat size) q)) =? 0) = bool_decide (take (Z.to_nat size) q = [])) as ->.
  { destruct (take (Z.to_nat size) q); [done|]. by rewrite bool_decide_eq_false_2. }
  destruct (bool_decide (take (Z.to_nat size) q = [])) eqn:Eb; simpl.
  - apply bool_decide_eq_true in Eb. assert (drop (Z.to_nat size) q = q) as Hd.
    { rewrite <- (take_drop (Z.to_nat size) q) at 2. by rewrite Eb. }
    rewrite Hd in *. destruct w; simpl; (split; [by eapply pipe_sim_store|]); [done|].
    by rewrite Eb.
  - split; [by eapply pipe_sim_store|]. by rewrite i32_small by lia.
Qed.

Lemma pipe_write_sim rh wh i s t bytes : pipe_sim rh wh i s t -> is_u32 (Z.of_nat (length bytes)) ->
  let r := pipe_step rh wh (PWrite bytes) s in
  pipe_sim rh wh i (fst r) (fst (spec_step (PWrite bytes) t)) /\ snd r = snd (spec_step (PWrite bytes) t).
Proof.
  intros Hs Hsz. pose proof Hs as [Hlh Hlp Hrh Hwh Hne Hi Hp Hrr Hwr Hr Hw].
  unfold pipe_step, pipe_write_backend. rewrite (pipe_handle_used _ _ _ _ _ _ Hs) by auto.
  destruct t as [q r []]; simpl in *; [|by rewrite Hw]. rewrite Hw. cbn -[Z.leb take]. rewrite Hrr.
  destruct r; simpl; [|done]. rewrite Nat2Z.id, (take_ge bytes (length bytes)) by done.
  destruct (pipe_put_ok bytes _ _ 0 Hp) as (p' & -> & Hp' & Hsame). rewrite Z.add_0_l.
  set (out := take (Z.to_nat VFS_PIPE_BUFFER_SIZE - length q) bytes) in *.
  assert (Z.of_nat (length out) <= 1024) by (subst out; unfold VFS_PIPE_BUFFER_SIZE; rewrite length_take; lia).
  assert ((Z.of_nat (length out) =? 0) = bool_decide (out = [])) as ->.
  { destruct out; [done|]. by rewrite bool_decide_eq_false_2. }
  destruct (bool_decide (out = [])) eqn:Eb; simpl; (split; [|rewrite ?i32_small by lia; done]).
  - apply bool_decide_eq_true in Eb. rewrite Eb, app_nil_r in Hp'. by eapply pipe_sim_store.
  - by eapply pipe_sim_store.
Qed.

Lemma close_sim rh wh i s t (e : bool) : pipe_sim rh wh i s t ->
  let o := if e then PCloseWrite else PCloseRead in
  let r := pipe_step rh wh o s in
  pipe_sim rh wh i (fst r) (fst (spec_step o t)) /\ snd r = snd (spec_step o t).
Proof.
  intros Hs o r. destruct t as [q rd w].
  pose proof (pipe_handle_used _ _ _ _ _ (if e then wh else rh) Hs ltac:(destruct e; auto)) as Hu.
  pose proof (pipe_sim_close rh wh i s q rd w e (if e then wh else rh) Hs) as Hc.
  pose proof (ps_r _ _ _ _ _ Hs) as Hr. pose proof (ps_w _ _ _ _ _ Hs) as Hw. simpl in Hr, Hw.
  subst o r. unfold pipe_step, pipe_close_backend.
  destruct e; rewrite Hu; [destruct w|destruct rd]; rewrite ?Hr, ?Hw; simpl; try done; (split; [|done]).
  - rewrite andb_true_r in Hc. by apply Hc.
  - rewrite andb_true_r in Hc. by apply Hc.
Qed.

(** A pipe made by the allocation calls is empty, with both ends open. *)
Definition pipes_ok (s : Pipes) : Prop :=
  length (vfs_pipes s) = Z.to_nat VFS_PIPE_MAX /\
  length (vfs_pipe_handles s) = Z.to_nat (VFS_PIPE_MAX * 2) /\
  Forall (fun p => length (p_data p) = Z.to_nat VFS_PIPE_BUFFER_SIZE) (vfs_pipes s).

Definition make_pipe : ST Pipes (Z * Z * Z) :=
  i ← vfs_pipe_alloc_slot;
  rh ← vfs_pipe_handle_alloc i 0;
  wh ← vfs_pipe_handle_alloc i 1;
  mret (i, rh, wh).

Lemma make_pipe_sim s s' i rh wh : pipes_ok s -> make_pipe s = (s', (i, rh, wh)) ->
  0 <= i -> 0 <= rh -> 0 <= wh -> pipe_sim rh wh i s' (Build_PipeSpec [] true true).
Proof.
  intros (Hlp & Hlh & Hd) Hm Hi Hr Hw. unfold make_pipe, mbind, ST_bind, mret, ST_ret in Hm.
  unfold vfs_pipe_alloc_slot in Hm.
  destruct (find_idx _ (vfs_pipes s)) as [ni|] eqn:Ei; [|repeat case_match; simplify_eq; lia].
  unfold vfs_pipe_handle_alloc in Hm. cbn -[Z.mul] in Hm.
  destruct (find_idx _ (vfs_pipe_handles s)) as [nr|] eqn:Er; [|repeat case_match; simplify_eq; lia].
  cbn -[Z.mul] in Hm.
  destruct (find_idx _ (<[nr:=_]> _)) as [nw|] eqn:Ew; [|repeat case_match; simplify_eq; lia].
  simplify_eq. pose proof (find_idx_lt _ _ _ Ei). pose proof (find_idx_lt _ _ _ Er).
  pose proof (find_idx_lt _ _ _ Ew) as Hnw. rewrite length_insert in Hnw.
  unfold VFS_PIPE_MAX in *.
  assert (nw <> nr) as Hne.
  { intros ->. apply find_idx_Some in Ew as [(h & Hh & Hu) _].
    rewrite list_lookup_insert_eq in Hh by lia. by simplify_eq. }
  assert (length (p_data (vfs_pipes s !!! ni)) = Z.to_nat VFS_PIPE_BUFFER_SIZE) as Hdl.
  { rewrite list.Forall_forall in Hd. apply Hd. by apply list_elem_of_lookup_total_2. }
  split; cbn -[Z.mul]; rewrite ?length_alter, ?length_insert by done; try (unfold VFS_PIPE_MAX; lia || done).
  all: rewrite ?Nat2Z.id, ?(alter_cell (vfs_pipes s)), ?alter_cell by (rewrite ?length_alter, ?length_insert; done).
  all: rewrite ?list_lookup_total_insert_eq by (rewrite ?length_alter, ?length_insert; done); try done.
  by rewrite list_lookup_total_insert_ne, list_lookup_total_insert_eq by done.
Qed.

(** C29: a pipe is a bounded queue of bytes with two ends.  Every sequence of reads,
    writes and closes on the two handles of a fresh pipe gives the results of the
    queue [spec_step]: a read takes bytes from the front in the order they were
    written, a write appends as many as fit into 1024 bytes, an empty queue makes the
    reader wait while a write end is open and is the end of the data afterwards,
    a full queue makes the writer wait, a write without a reader is an error, and a
    closed end is an invalid handle. *)
Theorem pipe_refines_queue s s' i rh wh ops :
  pipes_ok s -> make_pipe s = (s', (i, rh, wh)) -> 0 <= i -> 0 <= rh -> 0 <= wh ->
  Forall pipe_op_ok ops ->
  snd (run_ops (pipe_step rh wh) ops s') =
  snd (run_ops spec_step ops (Build_PipeSpec [] true true)).
Proof.
  intros Hs Hm Hi Hr Hw Hops.
  apply run_ops_sim with (ok := pipe_op_ok) (I := pipe_sim rh wh i); [|done|by apply make_pipe_sim with s].
  intros o t q Ho Ht. destruct o as [size|bytes| |].
  - by apply read_sim.
  - by apply pipe_write_sim.
  - by apply (close_sim _ _ _ _ _ false).
  - by apply (close_sim _ _ _ _ _ true).
Qed.

Definition boot_pipes : Pipes :=
  {| vfs_pipes := replicate 64 (Build_VfsPipe 0 (replicate 1024 0) 0 0 0 0 0);
     vfs_pipe_handles := replicate 128 (Build_VfsPipeHandle 0 (-1) 0) |}.

Definition demo_pipe_ops : list pipe_op :=
  [PRead 4; PWrite [1; 2; 3]; PRead 2; PWrite (replicate 1030 7); PWrite [9]; PCloseWrite; PRead 2; PCloseRead; PRead 1].

Lemma pipe_refines_queue_witness :
  snd (run_ops (pipe_step 0 1) demo_pipe_ops (fst (make_pipe boot_pipes))) =
  [(VFS_ERR_WOULD_BLOCK, []); (3, []); (2, [1; 2]); (1023, []); (VFS_ERR_WOULD_BLOCK, []); (0, []);
   (2, [3; 7]); (0, []); (VFS_ERR_INVALID_FD, [])].
Proof.
  rewrite (pipe_refines_queue boot_pipes (fst (make_pipe boot_pipes)) 0 0 1 demo_pipe_ops).
  - vm_compute. reflexivity.
  - split_and!; [vm_compute; reflexivity..|]. apply Forall_replicate. vm_compute. reflexivity.
  - vm_compute. reflexivity.
  - lia.
  - lia.
  - lia.
  - repeat constructor; unfold pipe_op_ok, is_u32; simpl; rewrite ?length_replicate; lia.
Defined.
