(* ===== verification/Ramdisk.v ===== *)
(** * The RAM disk (the ramdisk backend of kernel/vfs.c)

    Sixty-four files of at most 8192 bytes in one flat directory, and 128 handles.
    The operations are those the backend's [VfsBackendOps] table lists. *)
From S2P Require Import Prelude Bytes VfsDefs Ext2Dir.

Definition RAMDISK_MAX_FILES : Z := 64.
Definition RAMDISK_MAX_HANDLES : Z := 128.
Definition RAMDISK_NAME_MAX : Z := 23.
Definition RAMDISK_FILE_CAPACITY : Z := 8192.

Record RamdiskFile := { rf_used : Z; rf_name : list Z; rf_size : Z; rf_inode : Z; rf_mtime : Z; rf_data : list Z }.
#[export] Instance RamdiskFile_fields : Fields RamdiskFile := fun r =>
  {| rf_used := rf_used r; rf_name := rf_name r; rf_size := rf_size r; rf_inode := rf_inode r;
     rf_mtime := rf_mtime r; rf_data := rf_data r |}.

Record RamdiskHandle := { rh_used : Z; rh_entry_idx : Z; rh_pos : Z; rh_flags : Z }.
#[export] Instance RamdiskHandle_fields : Fields RamdiskHandle := fun r =>
  {| rh_used := rh_used r; rh_entry_idx := rh_entry_idx r; rh_pos := rh_pos r; rh_flags := rh_flags r |}.

Record Ramdisk := {
  ramdisk_files : list RamdiskFile; ramdisk_handles : list RamdiskHandle;
  ramdisk_next_inode : Z; ramdisk_mtime_tick : Z
}.
#[export] Instance Ramdisk_fields : Fields Ramdisk := fun r =>
  {| ramdisk_files := ramdisk_files r; ramdisk_handles := ramdisk_handles r;
     ramdisk_next_inode := ramdisk_next_inode r; ramdisk_mtime_tick := ramdisk_mtime_tick r |}.

#[export] Instance RamdiskFile_inh : Inhabited RamdiskFile := populate (Build_RamdiskFile 0 [] 0 0 0 []).
#[export] Instance RamdiskHandle_inh : Inhabited RamdiskHandle := populate (Build_RamdiskHandle 0 0 0 0).

(** The stores [ramdisk_files[i].f = v] and [ramdisk_handles[h].f = v]. *)
Definition set_file (i : Z) (f : RamdiskFile -> RamdiskFile) : ST Ramdisk unit :=
  modify (fun s => s <| ramdisk_files ::= alter f (Z.to_nat i) |>).
Definition set_rhandle (h : Z) (f : RamdiskHandle -> RamdiskHandle) : ST Ramdisk unit :=
  modify (fun s => s <| ramdisk_handles ::= alter f (Z.to_nat h) |>).

(** [ramdisk_files[i].mtime = ramdisk_mtime_tick++]. *)
Definition touch (i : Z) : ST Ramdisk unit :=
  s ← get;
  _ ← set_file i (fun f => f <| rf_mtime := ramdisk_mtime_tick s |>);
  modify (fun s => s <| ramdisk_mtime_tick := ramdisk_mtime_tick s +u 1 |>).

(** The characters up to the end of the string, a slash or [room] of them, and
    what follows them. *)
Definition ramdisk_extract_name (path : list Z) : option (list Z) :=
  let p := match path with c :: p' => if c =? slash then p' else path | [] => [] end in
  let '(name, rest) := take_component (Z.to_nat RAMDISK_NAME_MAX) p in
  if bool_decide (name = []) || negb (bool_decide (rest = [])) then None else Some name.

Definition ramdisk_find_entry (s : Ramdisk) (name : list Z) : Z :=
  idx_or_neg (find_idx (fun f => negb (rf_used f =? 0) && str_eq (rf_name f) name) (ramdisk_files s)).
Definition ramdisk_alloc_entry (s : Ramdisk) : Z :=
  idx_or_neg (find_idx (fun f => rf_used f =? 0) (ramdisk_files s)).
Definition ramdisk_alloc_handle (s : Ramdisk) : Z :=
  idx_or_neg (find_idx (fun h => rh_used h =? 0) (ramdisk_handles s)).

Definition rhandle_ok (s : Ramdisk) (handle : Z) : bool :=
  negb ((handle <? 0) || (RAMDISK_MAX_HANDLES <=? handle) || (rh_used (ramdisk_handles s).[handle] =? 0)).

(** The entry an open reaches: the file of that name, created or cut to nothing as the
    flags ask. *)
Definition open_entry (name : list Z) (flags : Z) : ST Ramdisk Z :=
  s ← get;
  let entry_idx := ramdisk_find_entry s name in
  if entry_idx <? 0 then
    if Z.land flags VFS_O_CREAT =? 0 then mret VFS_ERR_NOT_FOUND
    else
      let entry_idx := ramdisk_alloc_entry s in
      if entry_idx <? 0 then mret VFS_ERR_NO_SPACE
      else
        _ ← set_file entry_idx (fun f => f <| rf_used := 1 |> <| rf_name := name |> <| rf_size := 0 |>
                                            <| rf_inode := ramdisk_next_inode s |>);
        _ ← modify (fun s => s <| ramdisk_next_inode := ramdisk_next_inode s +u 1 |>);
        _ ← touch entry_idx;
        mret entry_idx
  else if has_flag flags VFS_O_TRUNC then
    _ ← set_file entry_idx (fun f => f <| rf_size := 0 |>);
    _ ← touch entry_idx;
    mret entry_idx
  else mret entry_idx.

Definition ramdisk_open (path : list Z) (flags : Z) : ST Ramdisk Z :=
  match ramdisk_extract_name path with
  | None => mret VFS_ERR_INVALID_ARG
  | Some name =>
      entry_idx ← open_entry name flags;
      if entry_idx <? 0 then mret entry_idx
      else
        s ← get;
        let handle := ramdisk_alloc_handle s in
        if handle <? 0 then mret VFS_ERR_NO_SPACE
        else
          _ ← set_rhandle handle (fun _ => Build_RamdiskHandle 1 entry_idx 0 flags);
          mret handle
  end.

Definition may_read (flags : Z) : bool :=
  negb ((Z.land flags VFS_O_RDONLY =? 0) && negb (Z.land flags VFS_O_RDWR =? VFS_O_RDWR)).
Definition may_write (flags : Z) : bool :=
  negb ((Z.land flags VFS_O_WRONLY =? 0) && negb (Z.land flags VFS_O_RDWR =? VFS_O_RDWR)).

Definition ramdisk_read (handle : Z) (buf_null : bool) (size : Z) : ST Ramdisk (Z * list Z) :=
  s ← get;
  if negb (rhandle_ok s handle) || buf_null then mret (VFS_ERR_INVALID_ARG, [])
  else
    let h := (ramdisk_handles s).[handle] in
    if negb (may_read (rh_flags h)) then mret (VFS_ERR_PERM, [])
    else
      let file := (ramdisk_files s).[rh_entry_idx h] in
      if rf_size file <=? rh_pos h then mret (0, [])
      else
        let remaining := rf_size file -u rh_pos h in
        let size := if remaining <? size then remaining else size in
        _ ← set_rhandle handle (fun h => h <| rh_pos := rh_pos h +u size |>);
        mret (i32 size, slice (rh_pos h) size (rf_data file)).

Definition ramdisk_write (handle : Z) (buf : option (list Z)) (size : Z) : ST Ramdisk Z :=
  s ← get;
  match buf with
  | Some src =>
      if negb (rhandle_ok s handle) then mret VFS_ERR_INVALID_ARG
      else
        let h := (ramdisk_handles s).[handle] in
        if negb (may_write (rh_flags h)) then mret VFS_ERR_PERM
        else if RAMDISK_FILE_CAPACITY <=? rh_pos h then mret VFS_ERR_NO_SPACE
        else
          let free_bytes := RAMDISK_FILE_CAPACITY -u rh_pos h in
          let size := if free_bytes <? size then free_bytes else size in
          let pos := rh_pos h +u size in
          let i := rh_entry_idx h in
          _ ← set_file i (fun f => f <| rf_data ::= splice (rh_pos h) (take (Z.to_nat size) src) |>);
          _ ← set_rhandle handle (fun h => h <| rh_pos := pos |>);
          _ ← set_file i (fun f => if rf_size f <? pos then f <| rf_size := pos |> else f);
          _ ← touch i;
          mret (i32 size)
  | None => mret VFS_ERR_INVALID_ARG
  end.

Definition ramdisk_close (handle : Z) : ST Ramdisk Z :=
  s ← get;
  if negb (rhandle_ok s handle) then mret VFS_ERR_INVALID_ARG
  else
    _ ← set_rhandle handle (fun _ => Build_RamdiskHandle 0 (-1) 0 0);
    mret VFS_OK.

(** Path calls on an existing file. *)
Definition with_entry {A} (path : list Z) (err : Z -> A) (k : Z -> ST Ramdisk A) : ST Ramdisk A :=
  match ramdisk_extract_name path with
  | None => mret (err VFS_ERR_INVALID_ARG)
  | Some name =>
      s ← get;
      let entry_idx := ramdisk_find_entry s name in
      if entry_idx <? 0 then mret (err VFS_ERR_NOT_FOUND) else k entry_idx
  end.

Definition handle_on (entry_idx : Z) (h : RamdiskHandle) : bool :=
  negb (rh_used h =? 0) && (rh_entry_idx h =? entry_idx).

Definition ramdisk_delete (path : list Z) : ST Ramdisk Z :=
  with_entry path id (fun entry_idx =>
    s ← get;
    if existsb (handle_on entry_idx) (ramdisk_handles s) then mret VFS_ERR_PERM
    else
      _ ← set_file entry_idx (fun f => Build_RamdiskFile 0 [] 0 0 0 (rf_data f));
      mret VFS_OK).

(** The new position of a seek: clamped to the file. *)
Definition ramdisk_lseek (handle offset whence : Z) : ST Ramdisk Z :=
  s ← get;
  if negb (rhandle_ok s handle) then mret VFS_ERR_INVALID_ARG
  else
    let h := (ramdisk_handles s).[handle] in
    let size := i32 (rf_size (ramdisk_files s).[rh_entry_idx h]) in
    let target :=
      if whence =? VFS_SEEK_SET then Some offset
      else if whence =? VFS_SEEK_CUR then Some (i32 (i32 (rh_pos h) + offset))
      else if whence =? VFS_SEEK_END then Some (i32 (size + offset))
      else None in
    match target with
    | None => mret VFS_ERR_INVALID_ARG
    | Some new_pos =>
        let new_pos := if new_pos <? 0 then 0 else new_pos in
        let new_pos := if size <? new_pos then size else new_pos in
        _ ← set_rhandle handle (fun h => h <| rh_pos := u32 new_pos |>);
        mret new_pos
    end.

Definition ramdisk_stat (path : list Z) (stat_null : bool) : ST Ramdisk (Z * option VfsFileStat) :=
  if stat_null then mret (VFS_ERR_INVALID_ARG, None)
  else with_entry path (fun e => (e, None)) (fun entry_idx =>
    s ← get;
    mret (VFS_OK, Some {| st_size := rf_size (ramdisk_files s).[entry_idx]; st_flags := 1 |})).

Definition ramdisk_rename (old_path new_path : list Z) : ST Ramdisk Z :=
  match ramdisk_extract_name old_path, ramdisk_extract_name new_path with
  | Some old_name, Some new_name =>
      s ← get;
      let old_idx := ramdisk_find_entry s old_name in
      if old_idx <? 0 then mret VFS_ERR_NOT_FOUND
      else
        let new_idx := ramdisk_find_entry s new_name in
        if (0 <=? new_idx) && negb (new_idx =? old_idx) then mret VFS_ERR_PERM
        else
          _ ← set_file old_idx (fun f => f <| rf_name := new_name |>);
          _ ← touch old_idx;
          mret VFS_OK
  | _, _ => mret VFS_ERR_INVALID_ARG
  end.

Definition ramdisk_mkdir (path : list Z) (mode : Z) : ST Ramdisk Z := mret VFS_ERR_INVALID_ARG.
Definition ramdisk_rmdir (path : list Z) : ST Ramdisk Z := mret VFS_ERR_INVALID_ARG.

Definition clamp_handle (entry_idx size : Z) (h : RamdiskHandle) : RamdiskHandle :=
  if handle_on entry_idx h && (size <? rh_pos h) then h <| rh_pos := size |> else h.

Definition ramdisk_truncate (path : list Z) (size : Z) : ST Ramdisk Z :=
  with_entry path id (fun entry_idx =>
    let size := if RAMDISK_FILE_CAPACITY <? size then RAMDISK_FILE_CAPACITY else size in
    _ ← set_file entry_idx (fun f => f <| rf_size := size |>);
    _ ← touch entry_idx;
    _ ← modify (fun s => s <| ramdisk_handles ::= map (clamp_handle entry_idx size) |>);
    mret VFS_OK).

Definition ramdisk_ftruncate (handle size : Z) : ST Ramdisk Z :=
  s ← get;
  if negb (rhandle_ok s handle) then mret VFS_ERR_INVALID_FD
  else
    let size := if RAMDISK_FILE_CAPACITY <? size then RAMDISK_FILE_CAPACITY else size in
    let i := rh_entry_idx (ramdisk_handles s).[handle] in
    _ ← set_file i (fun f => f <| rf_size := size |>);
    _ ← set_rhandle handle (fun h => if size <? rh_pos h then h <| rh_pos := size |> else h);
    _ ← touch i;
    mret VFS_OK.

Definition ramdisk_chmod (path : list Z) (mode : Z) : ST Ramdisk Z := mret VFS_OK.
Definition ramdisk_chown (path : list Z) (uid gid : Z) : ST Ramdisk Z := mret VFS_OK.
Definition ramdisk_link (old_path new_path : list Z) : ST Ramdisk Z := mret VFS_ERR_INVALID_ARG.
Definition ramdisk_symlink (target link_path : list Z) : ST Ramdisk Z := mret VFS_ERR_INVALID_ARG.
Definition ramdisk_readlink (link_path : list Z) (max_len : Z) : ST Ramdisk (Z * list Z) :=
  mret (VFS_ERR_INVALID_ARG, []).
