(* ===== verification/RamdiskStore.v ===== *)
(** * The RAM disk is a store of named files

    [FileStore] is the abstract store: the contents of each name and the position of
    each open handle.  Every call of the backend gives the result of the store. *)
From S2P Require Import Prelude Bytes VfsDefs Ext2Dir Ramdisk.
Local Open Scope Z_scope.

(** ** The store *)

(** An open handle has a name, a position and flags. *)
Record FileStore := { dir : gmap (list Z) (list Z); open_files : gmap Z (list Z * Z * Z) }.

Inductive store_op :=
| ROpen (path : list Z) (flags : Z) | RRead (h size : Z) | RWrite (h : Z) (bytes : list Z)
| RClose (h : Z) | RDelete (path : list Z) | RSeek (h offset whence : Z) | RStat (path : list Z)
| RRename (old_path new_path : list Z) | RTruncate (path : list Z) (size : Z) | RFtruncate (h size : Z).

Definition store_op_ok (o : store_op) : Prop :=
  match o with
  | RRead _ size | RTruncate _ size | RFtruncate _ size => is_u32 size
  | RWrite _ bytes => is_u32 (Z.of_nat (length bytes))
  | RSeek _ offset _ => - 2 ^ 31 <= offset < 2 ^ 31 - RAMDISK_FILE_CAPACITY
  | _ => True
  end.

(** A new handle is the lowest free one. *)
Definition store_open (d : gmap (list Z) (list Z)) (name : list Z) (flags : Z) (t : FileStore) : FileStore * (Z * list Z) :=
  match find_idx (fun h => bool_decide (open_files t !! h = None)) (seqZ 0 RAMDISK_MAX_HANDLES) with
  | Some h => (Build_FileStore d (<[Z.of_nat h := (name, 0, flags)]> (open_files t)), (Z.of_nat h, []))
  | None => (Build_FileStore d (open_files t), (VFS_ERR_NO_SPACE, []))
  end.

Definition store_path (path : list Z) (t : FileStore) (k : list Z -> list Z -> option (FileStore * (Z * list Z)))
  : option (FileStore * (Z * list Z)) :=
  match ramdisk_extract_name path with
  | None => Some (t, (VFS_ERR_INVALID_ARG, []))
  | Some name => match dir t !! name with
                 | None => Some (t, (VFS_ERR_NOT_FOUND, []))
                 | Some c => k name c
                 end
  end.

Definition store_handle (h err : Z) (t : FileStore)
    (k : list Z -> Z -> Z -> list Z -> option (FileStore * (Z * list Z))) : option (FileStore * (Z * list Z)) :=
  match open_files t !! h with
  | None => Some (t, (err, []))
  | Some (name, pos, flags) => c ← dir t !! name; k name pos flags c
  end.

Definition moved (h : Z) (name : list Z) (pos flags : Z) (t : FileStore) : gmap Z (list Z * Z * Z) :=
  <[h := (name, pos, flags)]> (open_files t).

Definition clamp_open (name : list Z) (size : Z) (e : list Z * Z * Z) : list Z * Z * Z :=
  let '(n, pos, flags) := e in if bool_decide (n = name) then (n, Z.min pos size, flags) else e.

Definition renamed (old new : list Z) (e : list Z * Z * Z) : list Z * Z * Z :=
  let '(n, pos, flags) := e in if bool_decide (n = old) then (new, pos, flags) else e.

(** A file made longer: the bytes [gap] that appear are those an earlier use left in its
    place. *)
Definition grown (gap : list Z) (size : Z) (c : list Z) : option (list Z) :=
  if Z.of_nat (length c) <? size then
    if Z.of_nat (length c + length gap) =? size then Some (c ++ gap) else None
  else Some c.

(** The result of a call.  A write beyond the end of a file and a truncation that makes
    a file longer expose the bytes [gap]; other calls do not use them, and [None] means
    that the gap has another length. *)
Definition store_step (gap : list Z) (o : store_op) (t : FileStore) : option (FileStore * (Z * list Z)) :=
  match o with
  | ROpen path flags =>
      match ramdisk_extract_name path with
      | None => Some (t, (VFS_ERR_INVALID_ARG, []))
      | Some name =>
          match dir t !! name with
          | None =>
              if Z.land flags VFS_O_CREAT =? 0 then Some (t, (VFS_ERR_NOT_FOUND, []))
              else if RAMDISK_MAX_FILES <=? Z.of_nat (size (dir t)) then Some (t, (VFS_ERR_NO_SPACE, []))
              else Some (store_open (<[name := []]> (dir t)) name flags t)
          | Some _ =>
              Some (store_open (if has_flag flags VFS_O_TRUNC then <[name := []]> (dir t) else dir t) name flags t)
          end
      end
  | RRead h size => store_handle h VFS_ERR_INVALID_ARG t (fun name pos flags c =>
      if negb (may_read flags) then Some (t, (VFS_ERR_PERM, []))
      else
        let out := slice pos size c in
        Some (Build_FileStore (dir t) (moved h name (pos + Z.of_nat (length out)) flags t),
              (Z.of_nat (length out), out)))
  | RWrite h bytes => store_handle h VFS_ERR_INVALID_ARG t (fun name pos flags c =>
      if negb (may_write flags) then Some (t, (VFS_ERR_PERM, []))
      else if RAMDISK_FILE_CAPACITY <=? pos then Some (t, (VFS_ERR_NO_SPACE, []))
      else
        c ← grown gap pos c;
        let out := take (Z.to_nat (RAMDISK_FILE_CAPACITY - pos)) bytes in
        Some (Build_FileStore (<[name := splice pos out c]> (dir t))
                              (moved h name (pos + Z.of_nat (length out)) flags t),
              (Z.of_nat (length out), [])))
  | RClose h => store_handle h VFS_ERR_INVALID_ARG t (fun _ _ _ _ =>
      Some (Build_FileStore (dir t) (delete h (open_files t)), (VFS_OK, [])))
  | RDelete path => store_path path t (fun name _ =>
      if bool_decide (map_Exists (fun _ e => e.1.1 = name) (open_files t)) then Some (t, (VFS_ERR_PERM, []))
      else Some (Build_FileStore (delete name (dir t)) (open_files t), (VFS_OK, [])))
  | RSeek h offset whence => store_handle h VFS_ERR_INVALID_ARG t (fun name pos flags c =>
      let size := Z.of_nat (length c) in
      let target := if whence =? VFS_SEEK_SET then Some offset
                    else if whence =? VFS_SEEK_CUR then Some (pos + offset)
                    else if whence =? VFS_SEEK_END then Some (size + offset) else None in
      match target with
      | None => Some (t, (VFS_ERR_INVALID_ARG, []))
      | Some p => let p := Z.min size (Z.max 0 p) in
                  Some (Build_FileStore (dir t) (moved h name p flags t), (p, []))
      end)
  | RStat path => store_path path t (fun _ c => Some (t, (VFS_OK, [Z.of_nat (length c)])))
  | RRename old_path new_path =>
      match ramdisk_extract_name old_path, ramdisk_extract_name new_path with
      | Some old, Some new =>
          match dir t !! old with
          | None => Some (t, (VFS_ERR_NOT_FOUND, []))
          | Some c =>
              if bool_decide (is_Some (dir t !! new) /\ new <> old) then Some (t, (VFS_ERR_PERM, []))
              else Some (Build_FileStore (<[new := c]> (delete old (dir t))) (renamed old new <$> open_files t),
                         (VFS_OK, []))
          end
      | _, _ => Some (t, (VFS_ERR_INVALID_ARG, []))
      end
  | RTruncate path size => store_path path t (fun name c =>
      let size := Z.min RAMDISK_FILE_CAPACITY size in
      c ← grown gap size c;
      Some (Build_FileStore (<[name := take (Z.to_nat size) c]> (dir t))
                            (clamp_open name size <$> open_files t), (VFS_OK, [])))
  | RFtruncate h size => store_handle h VFS_ERR_INVALID_FD t (fun name pos flags c =>
      let size := Z.min RAMDISK_FILE_CAPACITY size in
      c ← grown gap size c;
      Some (Build_FileStore (<[name := take (Z.to_nat size) c]> (dir t))
                            (moved h name (Z.min pos size) flags t), (VFS_OK, [])))
  end.

(** The same call of the code. *)
Definition rc_only (m : ST Ramdisk Z) : ST Ramdisk (Z * list Z) := rc ← m; mret (rc, []).

Definition ramdisk_step (o : store_op) : ST Ramdisk (Z * list Z) :=
  match o with
  | ROpen path flags => rc_only (ramdisk_open path flags)
  | RRead h size => ramdisk_read h false size
  | RWrite h bytes => rc_only (ramdisk_write h (Some bytes) (Z.of_nat (length bytes)))
  | RClose h => rc_only (ramdisk_close h)
  | RDelete path => rc_only (ramdisk_delete path)
  | RSeek h offset whence => rc_only (ramdisk_lseek h offset whence)
  | RStat path => '(rc, st) ← ramdisk_stat path false;
                  mret (rc, match st with Some st => [st_size st] | None => [] end)
  | RRename p q => rc_only (ramdisk_rename p q)
  | RTruncate path size => rc_only (ramdisk_truncate path size)
  | RFtruncate h size => rc_only (ramdisk_ftruncate h size)
  end.

(** ** What the arrays stand for *)

Definition live (f : RamdiskFile) : Prop := rf_used f <> 0.
Definition content (f : RamdiskFile) : list Z := take (Z.to_nat (rf_size f)) (rf_data f).
Definition file_wf (f : RamdiskFile) : Prop :=
  length (rf_data f) = Z.to_nat RAMDISK_FILE_CAPACITY /\ 0 <= rf_size f <= RAMDISK_FILE_CAPACITY.
Definition count_live (fs : list RamdiskFile) : nat := length (filter live fs).

(** The entry of the store a handle of the array stands for. *)
Definition handle_entry (fs : list RamdiskFile) (hd : RamdiskHandle) : option (list Z * Z * Z) :=
  if rh_used hd =? 0 then None else Some (rf_name fs.[rh_entry_idx hd], rh_pos hd, rh_flags hd).
Definition handle_wf (fs : list RamdiskFile) (hd : RamdiskHandle) : Prop :=
  rh_used hd <> 0 -> 0 <= rh_entry_idx hd < RAMDISK_MAX_FILES /\ live fs.[rh_entry_idx hd] /\
                     0 <= rh_pos hd <= RAMDISK_FILE_CAPACITY.

Record files_sim (fs : list RamdiskFile) (d : gmap (list Z) (list Z)) : Prop := {
  fm_len : length fs = Z.to_nat RAMDISK_MAX_FILES;
  fm_wf : forall i f, fs !! i = Some f -> file_wf f;
  fm_live : forall i f, fs !! i = Some f -> live f -> d !! rf_name f = Some (content f);
  fm_dir : forall name c, d !! name = Some c -> exists i f, fs !! i = Some f /\ live f /\ rf_name f = name;
  fm_uniq : forall i j f g, fs !! i = Some f -> fs !! j = Some g -> live f -> live g ->
    rf_name f = rf_name g -> i = j;
  fm_size : size d = count_live fs
}.

Record handles_sim (fs : list RamdiskFile) (hs : list RamdiskHandle) (o : gmap Z (list Z * Z * Z)) : Prop := {
  hm_len : length hs = Z.to_nat RAMDISK_MAX_HANDLES;
  hm_wf : forall h hd, hs !! h = Some hd -> handle_wf fs hd;
  hm_open : forall h hd, hs !! h = Some hd -> o !! Z.of_nat h = handle_entry fs hd;
  hm_range : forall h, is_Some (o !! h) -> 0 <= h < RAMDISK_MAX_HANDLES
}.

Definition store_sim (s : Ramdisk) (t : FileStore) : Prop :=
  files_sim (ramdisk_files s) (dir t) /\ handles_sim (ramdisk_files s) (ramdisk_handles s) (open_files t).

(** ** Counting files *)

Lemma count_live_insert fs i f f' : fs !! i = Some f ->
  (count_live (<[i := f']> fs) + (if decide (live f) then 1 else 0) =
   count_live fs + (if decide (live f') then 1 else 0))%nat.
Proof.
  intros Hi. pose proof (lookup_lt_Some _ _ _ Hi). unfold count_live.
  rewrite insert_take_drop by done. rewrite <- (take_drop_middle _ _ _ Hi) at 3.
  rewrite !list.filter_app, !filter_cons, !length_app. repeat case_decide; simpl; lia.
Qed.

Lemma count_live_full fs :
  find_idx (fun f => rf_used f =? 0) fs = None -> count_live fs = length fs.
Proof.
  unfold count_live. rewrite find_idx_None. intros Hall.
  assert (Forall live fs) as Hf.
  { apply list.Forall_forall. intros f (j & Hj)%list_elem_of_lookup. specialize (Hall j f Hj). unfold live. lia. }
  clear Hall. induction Hf; rewrite ?filter_cons, ?decide_True by done; simpl; congruence.
Qed.

Lemma count_live_room fs i f : fs !! i = Some f -> ~ live f -> (count_live fs < length fs)%nat.
Proof. intros Hi Hf. apply length_filter_lt with f; [by eapply list_elem_of_lookup_2|done]. Qed.

(** ** Files *)

Section Files.
Context (fs : list RamdiskFile) (d : gmap (list Z) (list Z)) (HF : files_sim fs d).

Lemma find_entry_ok s name : ramdisk_files s = fs ->
  match d !! name with
  | Some c => exists i f, ramdisk_find_entry s name = Z.of_nat i /\ fs !! i = Some f /\ live f /\
                          rf_name f = name /\ c = content f
  | None => ramdisk_find_entry s name = -1
  end.
Proof.
  intros Hs. unfold ramdisk_find_entry. rewrite Hs. destruct (d !! name) as [c|] eqn:Ed.
  - destruct (fm_dir _ _ HF _ _ Ed) as (j & g & Hj & Hl & Hn).
    destruct (find_idx_is_Some (fun f => negb (rf_used f =? 0) && str_eq (rf_name f) name) fs j g Hj) as [i Hi].
    { unfold str_eq, live in *. rewrite Hn, bool_decide_eq_true_2 by done.
      destruct (Z.eqb_spec (rf_used g) 0); [lia|done]. }
    rewrite Hi. apply find_idx_Some in Hi as [(f & Hf & Hp) _]. bsimpl.
    apply bool_decide_eq_true in H0. exists i, f. split_and!; try done.
    pose proof (fm_live _ _ HF i f Hf H). congruence.
  - destruct (find_idx _ fs) as [i|] eqn:Ei; [|done].
    apply find_idx_Some in Ei as [(f & Hf & Hp) _]. bsimpl. apply bool_decide_eq_true in H0.
    pose proof (fm_live _ _ HF i f Hf H). congruence.
Qed.

Lemma files_replace i f f' : fs !! i = Some f -> live f -> live f' -> file_wf f' ->
  rf_name f' = rf_name f \/ d !! rf_name f' = None ->
  files_sim (<[i := f']> fs) (<[rf_name f' := content f']> (delete (rf_name f) d)).
Proof.
  intros Hi Hl Hl' Hw Hn. pose proof (lookup_lt_Some _ _ _ Hi).
  assert (forall j g, i <> j -> fs !! j = Some g -> live g -> rf_name g <> rf_name f') as Hne.
  { intros j g Hij Hj Hlg He. destruct Hn as [Hn|Hn].
    - apply Hij. apply (fm_uniq _ _ HF _ _ f g); congruence.
    - pose proof (fm_live _ _ HF _ _ Hj Hlg). congruence. }
  assert (forall j g, i <> j -> fs !! j = Some g -> live g -> rf_name g <> rf_name f) as Hne2.
  { intros j g Hij Hj Hlg He. apply Hij. by apply (fm_uniq _ _ HF _ _ f g). }
  split.
  - rewrite length_insert. apply (fm_len _ _ HF).
  - intros j g Hj. apply list_lookup_insert_Some in Hj as [(<- & <- & _)|[Hij Hj]]; [done|].
    by apply (fm_wf _ _ HF j).
  - intros j g Hj Hg. apply list_lookup_insert_Some in Hj as [(<- & <- & _)|[Hij Hj]].
    + by rewrite lookup_insert_eq.
    + rewrite lookup_insert_ne, lookup_delete_ne by (apply not_eq_sym; eauto).
      by apply (fm_live _ _ HF j).
  - intros name c Hc. apply lookup_insert_Some in Hc as [[<- <-]|[Hnn Hc]].
    + exists i, f'. by rewrite list_lookup_insert_eq.
    + apply lookup_delete_Some in Hc as [Hnn2 Hc].
      destruct (fm_dir _ _ HF _ _ Hc) as (j & g & Hj & Hg & Hgn).
      exists j, g. rewrite list_lookup_insert_ne by congruence. done.
  - intros j k g g' Hj Hk Hg Hg' He.
    apply list_lookup_insert_Some in Hj as [(<- & <- & _)|[Hij Hj]];
      apply list_lookup_insert_Some in Hk as [(<- & <- & _)|[Hik Hk]]; try done.
    + exfalso. by apply (Hne k g').
    + exfalso. by apply (Hne j g).
    + by apply (fm_uniq _ _ HF _ _ g g').
  - pose proof (count_live_insert fs i f f' Hi) as Hc. rewrite !decide_True in Hc by done.
    rewrite map_size_insert_None, map_size_delete.
    + rewrite (fm_live _ _ HF i f) by done. rewrite (fm_size _ _ HF).
      assert (0 < count_live fs)%nat; [|lia]. rewrite <- (fm_size _ _ HF).
      apply Nat.neq_0_lt_0. intros He. apply map_size_empty_inv in He.
      pose proof (fm_live _ _ HF i f Hi Hl) as Hd. by rewrite He, lookup_empty in Hd.
    + destruct Hn as [->|Hn]; [by rewrite lookup_delete_eq|].
      destruct (decide (rf_name f = rf_name f')) as [->|]; [by rewrite lookup_delete_eq|].
      by rewrite lookup_delete_ne.
Qed.

Lemma files_update i f f' : fs !! i = Some f -> live f -> live f' -> file_wf f' -> rf_name f' = rf_name f ->
  files_sim (<[i := f']> fs) (<[rf_name f := content f']> d).
Proof.
  intros Hi Hl Hl' Hw Hn. pose proof (files_replace i f f' Hi Hl Hl' Hw (or_introl Hn)) as Hs.
  by rewrite Hn, insert_delete_eq in Hs.
Qed.

Lemma files_create i f f' : fs !! i = Some f -> ~ live f -> live f' -> file_wf f' -> d !! rf_name f' = None ->
  files_sim (<[i := f']> fs) (<[rf_name f' := content f']> d).
Proof.
  intros Hi Hl Hl' Hw Hn. pose proof (lookup_lt_Some _ _ _ Hi).
  assert (forall j g, i <> j -> fs !! j = Some g -> live g -> rf_name g <> rf_name f') as Hne.
  { intros j g Hij Hj Hlg He. pose proof (fm_live _ _ HF _ _ Hj Hlg). congruence. }
  split.
  - rewrite length_insert. apply (fm_len _ _ HF).
  - intros j g Hj. apply list_lookup_insert_Some in Hj as [(<- & <- & _)|[Hij Hj]]; [done|].
    by apply (fm_wf _ _ HF j).
  - intros j g Hj Hg. apply list_lookup_insert_Some in Hj as [(<- & <- & _)|[Hij Hj]].
    + by rewrite lookup_insert_eq.
    + rewrite lookup_insert_ne by (apply not_eq_sym; eauto). by apply (fm_live _ _ HF j).
  - intros name c Hc. apply lookup_insert_Some in Hc as [[<- <-]|[Hnn Hc]].
    + exists i, f'. by rewrite list_lookup_insert_eq.
    + destruct (fm_dir _ _ HF _ _ Hc) as (j & g & Hj & Hg & Hgn).
      exists j, g. rewrite list_lookup_insert_ne by (intros ->; simplify_eq; done). done.
  - intros j k g g' Hj Hk Hg Hg' He.
    apply list_lookup_insert_Some in Hj as [(<- & <- & _)|[Hij Hj]];
      apply list_lookup_insert_Some in Hk as [(<- & <- & _)|[Hik Hk]]; try done.
    + exfalso. by apply (Hne k g').
    + exfalso. by apply (Hne j g).
    + by apply (fm_uniq _ _ HF _ _ g g').
  - pose proof (count_live_insert fs i f f' Hi) as Hc. rewrite decide_False in Hc by done.
    rewrite decide_True in Hc by done. rewrite map_size_insert_None by done. rewrite (fm_size _ _ HF). lia.
Qed.

Lemma files_delete i f f' : fs !! i = Some f -> live f -> ~ live f' -> file_wf f' ->
  files_sim (<[i := f']> fs) (delete (rf_name f) d).
Proof.
  intros Hi Hl Hl' Hw. pose proof (lookup_lt_Some _ _ _ Hi). split.
  - rewrite length_insert. apply (fm_len _ _ HF).
  - intros j g Hj. apply list_lookup_insert_Some in Hj as [(<- & <- & _)|[Hij Hj]]; [done|].
    by apply (fm_wf _ _ HF j).
  - intros j g Hj Hg. apply list_lookup_insert_Some in Hj as [(<- & <- & _)|[Hij Hj]]; [done|].
    rewrite lookup_delete_ne; [by apply (fm_live _ _ HF j)|].
    intros He. apply Hij. by apply (fm_uniq _ _ HF _ _ f g).
  - intros name c Hc. apply lookup_delete_Some in Hc as [Hnn Hc].
    destruct (fm_dir _ _ HF _ _ Hc) as (j & g & Hj & Hg & Hgn).
    exists j, g. rewrite list_lookup_insert_ne by congruence. done.
  - intros j k g g' Hj Hk Hg Hg' He.
    apply list_lookup_insert_Some in Hj as [(<- & <- & _)|[Hij Hj]]; [done|].
    apply list_lookup_insert_Some in Hk as [(<- & <- & _)|[Hik Hk]]; [done|].
    by apply (fm_uniq _ _ HF _ _ g g').
  - pose proof (count_live_insert fs i f f' Hi) as Hc. rewrite decide_True in Hc by done.
    rewrite decide_False in Hc by done. rewrite map_size_delete, (fm_live _ _ HF i f) by done.
    rewrite (fm_size _ _ HF). lia.
Qed.
End Files.

(** ** Handles *)

Section Handles.
Context (fs : list RamdiskFile) (hs : list RamdiskHandle) (o : gmap Z (list Z * Z * Z)).
Context (HH : handles_sim fs hs o).

Lemma rhandle_lookup h : 0 <= h < RAMDISK_MAX_HANDLES -> hs !! Z.to_nat h = Some hs.[h].
Proof. intros. apply list_lookup_lookup_total_lt. rewrite (hm_len _ _ _ HH). lia. Qed.

Lemma rhandle_sim s h : ramdisk_handles s = hs ->
  match o !! h with
  | Some (name, pos, flags) =>
      rhandle_ok s h = true /\ 0 <= h < RAMDISK_MAX_HANDLES /\ rh_used hs.[h] <> 0 /\
      rf_name fs.[rh_entry_idx hs.[h]] = name /\ rh_pos hs.[h] = pos /\ rh_flags hs.[h] = flags
  | None => rhandle_ok s h = false
  end.
Proof.
  intros Hs. unfold rhandle_ok. rewrite Hs.
  destruct (decide (0 <= h < RAMDISK_MAX_HANDLES)) as [Hr|Hr].
  - pose proof (hm_open _ _ _ HH _ _ (rhandle_lookup h Hr)) as Ho. rewrite Z2Nat.id in Ho by lia.
    rewrite Ho. unfold handle_entry. unfold RAMDISK_MAX_HANDLES in *.
    destruct (Z.ltb_spec h 0), (Z.leb_spec 128 h); try lia.
    destruct (Z.eqb_spec (rh_used hs.[h]) 0); done.
  - destruct (o !! h) eqn:E.
    + exfalso. apply Hr, (hm_range _ _ _ HH). by rewrite E.
    + unfold RAMDISK_MAX_HANDLES in *. destruct (Z.ltb_spec h 0), (Z.leb_spec 128 h); done || lia.
Qed.

Lemma handles_set h hd : 0 <= h < RAMDISK_MAX_HANDLES -> handle_wf fs hd ->
  handles_sim fs (<[Z.to_nat h := hd]> hs) (partial_alter (fun _ => handle_entry fs hd) h o).
Proof.
  intros Hh Hw. split.
  - rewrite length_insert. apply (hm_len _ _ _ HH).
  - intros k g Hk. apply list_lookup_insert_Some in Hk as [(<- & <- & _)|[_ Hk]]; [done|].
    by apply (hm_wf _ _ _ HH k).
  - intros k g Hk. apply list_lookup_insert_Some in Hk as [(<- & <- & _)|[Hne Hk]].
    + by rewrite Z2Nat.id, lookup_partial_alter_eq by lia.
    + rewrite lookup_partial_alter_ne by lia. by apply (hm_open _ _ _ HH).
  - intros k Hk. destruct (decide (h = k)) as [<-|]; [done|].
    rewrite lookup_partial_alter_ne in Hk by done. by apply (hm_range _ _ _ HH).
Qed.

(** A change of the files and of the open handles, entry by entry. *)
Lemma handles_map fs' (phi : RamdiskHandle -> RamdiskHandle) (F : list Z * Z * Z -> list Z * Z * Z) :
  (forall hd, hd ∈ hs -> handle_wf fs hd -> handle_wf fs' (phi hd) /\
     handle_entry fs' (phi hd) = F <$> handle_entry fs hd) ->
  handles_sim fs' (map phi hs) (F <$> o).
Proof.
  intros Hg.
  assert (forall h hd', map phi hs !! h = Some hd' -> exists hd, hd' = phi hd /\ hs !! h = Some hd /\
    handle_wf fs' (phi hd) /\ handle_entry fs' (phi hd) = F <$> handle_entry fs hd) as Hmap.
  { intros h hd' Hh. rewrite list_lookup_fmap in Hh. apply fmap_Some in Hh as (hd & Hh & ->).
    exists hd. split_and!; try done; apply Hg; eauto using list_elem_of_lookup_2, hm_wf. }
  split.
  - rewrite length_map. apply (hm_len _ _ _ HH).
  - intros h hd' Hh. by destruct (Hmap h hd' Hh) as (hd & -> & _ & Hw & _).
  - intros h hd' Hh. destruct (Hmap h hd' Hh) as (hd & -> & Hh' & _ & ->).
    by rewrite lookup_fmap, (hm_open _ _ _ HH h hd Hh').
  - intros h. rewrite lookup_fmap, fmap_is_Some. apply (hm_range _ _ _ HH).
Qed.

(** A change of the files that keeps the names of the open ones. *)
Lemma handles_same fs' :
  (forall hd, hd ∈ hs -> rh_used hd <> 0 -> handle_wf fs hd -> live fs'.[rh_entry_idx hd] /\
     rf_name fs'.[rh_entry_idx hd] = rf_name fs.[rh_entry_idx hd]) ->
  handles_sim fs' hs o.
Proof.
  intros Hg. rewrite <- (map_id hs), <- (map_fmap_id o). apply handles_map.
  intros hd Hin Hw. rewrite option_fmap_id. unfold handle_wf, handle_entry in *.
  destruct (Z.eqb_spec (rh_used hd) 0) as [He|Hne]; [done|].
  destruct (Hg hd Hin Hne Hw) as [Hl Hn]. rewrite Hn. destruct (Hw Hne) as (? & _ & ?). done.
Qed.

Lemma handles_keep i f f' : fs !! i = Some f -> live f' -> rf_name f' = rf_name f ->
  handles_sim (<[i := f']> fs) hs o.
Proof.
  intros Hi Hl Hn. apply handles_same. intros hd _ Hu Hw. destruct (Hw Hu) as (_ & Hl2 & _).
  destruct (decide (Z.to_nat (rh_entry_idx hd) = i)) as [->|Hne].
  - rewrite list_lookup_total_insert_eq by (by eapply lookup_lt_Some).
    by rewrite (list_lookup_total_correct _ _ _ Hi).
  - by rewrite list_lookup_total_insert_ne by done.
Qed.

(** A file that no handle is on may become anything. *)
Lemma handles_unused i f' : (forall hd, hd ∈ hs -> rh_used hd <> 0 -> handle_wf fs hd -> Z.to_nat (rh_entry_idx hd) <> i) ->
  handles_sim (<[i := f']> fs) hs o.
Proof.
  intros Hn. apply handles_same. intros hd Hin Hu Hw. destruct (Hw Hu) as (_ & Hl2 & _).
  rewrite list_lookup_total_insert_ne by (apply not_eq_sym; auto). done.
Qed.
End Handles.

(** ** The calls *)

Definition touched (i : Z) (s : Ramdisk) : Ramdisk :=
  s <| ramdisk_files ::= alter (fun f => f <| rf_mtime := ramdisk_mtime_tick s |>) (Z.to_nat i) |>
    <| ramdisk_mtime_tick := ramdisk_mtime_tick s +u 1 |>.

Lemma wp_touch {A} i (k : unit -> ST Ramdisk A) Q s : wp (k tt) Q (touched i s) -> wp (touch i ≫= k) Q s.
Proof. done. Qed.

Lemma wp_set_file {A} i g (k : unit -> ST Ramdisk A) Q s :
  wp (k tt) Q (s <| ramdisk_files ::= alter g (Z.to_nat i) |>) -> wp (set_file i g ≫= k) Q s.
Proof. done. Qed.

Lemma wp_set_rhandle {A} i g (k : unit -> ST Ramdisk A) Q s :
  wp (k tt) Q (s <| ramdisk_handles ::= alter g (Z.to_nat i) |>) -> wp (set_rhandle i g ≫= k) Q s.
Proof. done. Qed.

Ltac wp_steps :=
  repeat lazymatch goal with
  | |- wp (get ≫= _) _ _ => apply wp_get
  | |- wp (set_file _ _ ≫= _) _ _ => apply wp_set_file
  | |- wp (set_rhandle _ _ ≫= _) _ _ => apply wp_set_rhandle
  | |- wp (touch _ ≫= _) _ _ => apply wp_touch
  | |- wp (modify _ ≫= _) _ _ => apply wp_bind, wp_modify; cbn beta
  end.

Lemma alter_lookup {A} (l : list A) f i x : l !! i = Some x -> alter f i l = <[i := f x]> l.
Proof.
  intros Hi. apply list_eq. intros j. destruct (decide (i = j)) as [<-|Hne].
  - pose proof (lookup_lt_Some _ _ _ Hi). by rewrite list_lookup_alter_eq, list_lookup_insert_eq, Hi.
  - by rewrite list_lookup_alter_ne, list_lookup_insert_ne.
Qed.

Lemma alter_alter {A} (l : list A) f g i : alter f i (alter g i l) = alter (fun x => f (g x)) i l.
Proof.
  apply list_eq. intros j. destruct (decide (i = j)) as [<-|Hne].
  - rewrite !list_lookup_alter_eq. by destruct (l !! i).
  - by rewrite !list_lookup_alter_ne.
Qed.

(** The outcome of a call that does what the store does. *)
Definition meets (t : FileStore) (r : Z * list Z) : Ramdisk -> Z * list Z -> Prop :=
  fun s r' => store_sim s t /\ r' = r.

Lemma meets_rc_only m Q s : wp m (fun s' rc => Q s' (rc, [])) s -> wp (rc_only m) Q s.
Proof. intros Hm. unfold rc_only. by apply wp_bind. Qed.

Section Calls.
Context (s : Ramdisk) (t : FileStore) (HS : store_sim s t).

(** A call on an open handle starts at its file. *)
Lemma handle_file h name pos flags : open_files t !! h = Some (name, pos, flags) ->
  let hd := (ramdisk_handles s).[h] in
  exists f c, rhandle_ok s h = true /\ 0 <= h < RAMDISK_MAX_HANDLES /\ rh_used hd <> 0 /\
    rh_pos hd = pos /\ rh_flags hd = flags /\ 0 <= pos <= RAMDISK_FILE_CAPACITY /\
    0 <= rh_entry_idx hd < RAMDISK_MAX_FILES /\
    ramdisk_files s !! Z.to_nat (rh_entry_idx hd) = Some f /\ (ramdisk_files s).[rh_entry_idx hd] = f /\
    live f /\ file_wf f /\ rf_name f = name /\ dir t !! name = Some c /\ c = content f.
Proof.
  intros Ho hd. destruct HS as [HF HH]. pose proof (rhandle_sim _ _ _ HH s h eq_refl) as Hr.
  rewrite Ho in Hr. destruct Hr as (Hok & Hh & Hu & Hn & Hp & Hfl). fold hd in Hu, Hn, Hp, Hfl.
  pose proof (hm_wf _ _ _ HH _ _ (rhandle_lookup _ _ _ HH h Hh) Hu) as (Hi & Hl & Hpos). fold hd in Hi, Hl, Hpos.
  assert (ramdisk_files s !! Z.to_nat (rh_entry_idx hd) = Some (ramdisk_files s).[rh_entry_idx hd]) as Hf.
  { apply list_lookup_lookup_total_lt. rewrite (fm_len _ _ HF). unfold RAMDISK_MAX_FILES in *. lia. }
  exists (ramdisk_files s).[rh_entry_idx hd], (content (ramdisk_files s).[rh_entry_idx hd]).
  pose proof (fm_wf _ _ HF _ _ Hf) as [Hw1 Hw2]. rewrite <- Hn. split_and!; try done; try lia.
  by apply (fm_live _ _ HF _ _ Hf).
Qed.

Lemma handle_bad h : open_files t !! h = None -> rhandle_ok s h = false.
Proof. intros Ho. pose proof (rhandle_sim _ _ _ (proj2 HS) s h eq_refl) as Hr. by rewrite Ho in Hr. Qed.
End Calls.

Ltac open_handle s t HS h :=
  let Ho := fresh "Ho" in
  destruct (open_files t !! h) as [[[name pos] flags]|] eqn:Ho;
    [destruct (handle_file s t HS h name pos flags Ho)
       as (f & c & Hok & Hh & Hu & Hp & Hfl & Hpos & Hidx & Hf & Hft & Hl & Hw & Hn & Hd & Hc)
    |pose proof (handle_bad s t HS h Ho) as Hok].


(** ** The contents of a file *)

Lemma content_length f : file_wf f -> Z.of_nat (length (content f)) = rf_size f.
Proof. intros [Hl Hs]. unfold content. unfold RAMDISK_FILE_CAPACITY in *. rewrite length_take. lia. Qed.

Lemma slice_content_end f pos n : rf_size f <= pos -> slice pos n (content f) = [].
Proof.
  intros H. unfold slice, content. rewrite drop_ge, take_nil; [done|]. rewrite length_take. lia.
Qed.

Lemma slice_content f pos n : file_wf f -> 0 <= pos < rf_size f -> 0 <= n ->
  let k := Z.min n (rf_size f - pos) in
  slice pos n (content f) = slice pos k (rf_data f) /\ Z.of_nat (length (slice pos k (rf_data f))) = k.
Proof.
  intros [Hl Hs] Hp Hn k. split.
  - unfold slice, content. rewrite skipn_firstn_comm, take_take. f_equal. lia.
  - apply slice_length; unfold RAMDISK_FILE_CAPACITY in *; lia.
Qed.

(** A write within the file or at its end. *)
Lemma content_write f pos b : file_wf f -> 0 <= pos <= rf_size f -> pos + Z.of_nat (length b) <= RAMDISK_FILE_CAPACITY ->
  let f' := f <| rf_data ::= splice pos b |> in
  let n := pos + Z.of_nat (length b) in
  file_wf f' /\ content (if rf_size f <? n then f' <| rf_size := n |> else f') = splice pos b (content f).
Proof.
  intros [Hl Hs] Hp Hn f' n. assert (fits pos b (rf_data f)) as Hfit.
  { split; unfold RAMDISK_FILE_CAPACITY in *; lia. }
  split; [split; [subst f'; cbn; by rewrite splice_length|done]|].
  assert (content (if rf_size f <? n then f' <| rf_size := n |> else f') =
          take (Z.to_nat (Z.max (rf_size f) n)) (splice pos b (rf_data f))) as ->.
  { unfold content, f'. destruct (Z.ltb_spec (rf_size f) n); cbn; do 2 f_equal; lia. }
  unfold content, splice. subst n.
  unfold RAMDISK_FILE_CAPACITY in *. rewrite take_app, take_ge by (rewrite length_take; lia). f_equal.
  - rewrite take_take. f_equal. lia.
  - rewrite length_take, take_app, take_ge by lia. f_equal. rewrite skipn_firstn_comm. f_equal. lia.
Qed.

Lemma content_cut f n : file_wf f -> 0 <= n <= rf_size f ->
  let f' := f <| rf_size := n |> in file_wf f' /\ content f' = take (Z.to_nat n) (content f).
Proof.
  intros [Hl Hs] Hn. split; [split; cbn; [done|lia]|]. unfold content. cbn. rewrite take_take. f_equal. lia.
Qed.

(** The bytes of a file behind its end, up to [size]. *)
Definition file_gap (f : RamdiskFile) (size : Z) : list Z := slice (rf_size f) (size - rf_size f) (rf_data f).

Lemma grown_content f n : file_wf f -> 0 <= n <= RAMDISK_FILE_CAPACITY ->
  grown (file_gap f n) n (content f) = Some (content (f <| rf_size := Z.max (rf_size f) n |>)).
Proof.
  intros Hw Hn. unfold grown. rewrite content_length by done. destruct Hw as [Hl Hs]. unfold RAMDISK_FILE_CAPACITY in *.
  destruct (Z.ltb_spec (rf_size f) n) as [Hlt|Hge].
  - assert (Z.of_nat (length (file_gap f n)) = n - rf_size f) as Hg by (apply slice_length; lia).
    rewrite Nat2Z.inj_add, Hg, content_length by (split; [done|unfold RAMDISK_FILE_CAPACITY; lia]).
    replace (rf_size f + (n - rf_size f)) with n by lia. rewrite Z.eqb_refl. f_equal.
    unfold content, file_gap, slice. cbn. rewrite Z.max_r by lia.
    replace (Z.to_nat n) with (Z.to_nat (rf_size f) + Z.to_nat (n - rf_size f))%nat by lia. by rewrite take_take_drop.
  - unfold content. cbn. by rewrite Z.max_l by lia.
Qed.

Lemma extended_wf f n : file_wf f -> 0 <= n <= RAMDISK_FILE_CAPACITY -> file_wf (f <| rf_size := Z.max (rf_size f) n |>).
Proof. intros [Hl Hs] Hn. split; cbn; [done|lia]. Qed.

(** A write anywhere, over the bytes that come to light before it. *)
Lemma content_write_at f pos b : file_wf f -> 0 <= pos -> pos + Z.of_nat (length b) <= RAMDISK_FILE_CAPACITY ->
  let f' := f <| rf_data ::= splice pos b |> in
  let n := pos + Z.of_nat (length b) in
  file_wf f' /\ content (if rf_size f <? n then f' <| rf_size := n |> else f') =
    splice pos b (content (f <| rf_size := Z.max (rf_size f) pos |>)).
Proof.
  intros Hw Hp Hn f' n.
  destruct (content_write (f <| rf_size := Z.max (rf_size f) pos |>) pos b) as [[Hl _] Hc];
    [apply extended_wf; [done|lia]|cbn; lia|lia|].
  split; [split; [exact Hl|apply Hw]|]. rewrite <- Hc. unfold content, f'. cbn. fold n.
  destruct (Z.ltb_spec (rf_size f) n), (Z.ltb_spec (Z.max (rf_size f) pos) n); cbn; do 2 f_equal; lia.
Qed.

Lemma content_resize f n : file_wf f -> 0 <= n <= RAMDISK_FILE_CAPACITY ->
  let f' := f <| rf_size := n |> in
  file_wf f' /\ content f' = take (Z.to_nat n) (content (f <| rf_size := Z.max (rf_size f) n |>)).
Proof.
  intros Hw Hn f'. destruct (content_cut (f <| rf_size := Z.max (rf_size f) n |>) n) as [[Hl _] Hc];
    [by apply extended_wf|cbn; lia|]. split; [split; [exact Hl|cbn; lia]|exact Hc].
Qed.

(** What a call exposes. *)
Definition handle_file_of (s : Ramdisk) (h : Z) : RamdiskFile := (ramdisk_files s).[rh_entry_idx (ramdisk_handles s).[h]].
Definition gap_of (s : Ramdisk) (o : store_op) : list Z :=
  match o with
  | RWrite h _ => file_gap (handle_file_of s h) (rh_pos (ramdisk_handles s).[h])
  | RFtruncate h size => file_gap (handle_file_of s h) (Z.min RAMDISK_FILE_CAPACITY size)
  | RTruncate path size =>
      match ramdisk_extract_name path with
      | Some name => file_gap (ramdisk_files s).[ramdisk_find_entry s name] (Z.min RAMDISK_FILE_CAPACITY size)
      | None => []
      end
  | _ => []
  end.

Section Steps.
Context (s : Ramdisk) (t : FileStore) (HS : store_sim s t).

(** A handle moves. *)
Lemma move_sim h name pos flags (g : RamdiskHandle -> RamdiskHandle) pos' :
  open_files t !! h = Some (name, pos, flags) -> 0 <= pos' <= RAMDISK_FILE_CAPACITY ->
  g (ramdisk_handles s).[h] = (ramdisk_handles s).[h] <| rh_pos := pos' |> ->
  store_sim (s <| ramdisk_handles ::= alter g (Z.to_nat h) |>)
            (Build_FileStore (dir t) (moved h name pos' flags t)).
Proof.
  intros Ho Hpos' Hg.
  destruct (handle_file s t HS h name pos flags Ho) as (f & c & _ & Hh & Hu & Hp & Hfl & Hpos & Hidx & Hf & Hft & Hl & Hw & Hn & _).
  destruct HS as [HF HH]. split; [done|]. cbn.
  rewrite (alter_lookup _ _ _ _ (rhandle_lookup _ _ _ HH h Hh)), Hg.
  pose proof (handles_set _ _ _ HH h ((ramdisk_handles s).[h] <| rh_pos := pos' |>) Hh) as Hs.
  unfold moved. unfold handle_entry in Hs. cbn in Hs. rewrite Hft, Hfl, Hn in Hs.
  destruct (Z.eqb_spec (rh_used (ramdisk_handles s).[h]) 0); [done|]. apply Hs.
  intros _. cbn. by rewrite Hft.
Qed.

Lemma read_step gap h size t' r : is_u32 size -> store_step gap (RRead h size) t = Some (t', r) ->
  wp (ramdisk_read h false size) (meets t' r) s.
Proof.
  intros Hsz Hstep. simpl in Hstep. unfold store_handle in Hstep. unfold ramdisk_read. apply wp_get.
  open_handle s t HS h; rewrite Hok; simpl; [|simplify_eq; by apply wp_ret].
  rewrite Hd in Hstep. simpl in Hstep. rewrite Hfl, Hp, Hft.
  destruct (may_read flags); simpl in *; [|simplify_eq; by apply wp_ret].
  destruct Hw as [Hlen Hsize]. unfold RAMDISK_FILE_CAPACITY in *. unfold is_u32 in Hsz. subst c.
  destruct (Z.leb_spec (rf_size f) pos) as [Hend|Hin].
  - rewrite slice_content_end in Hstep by done. simpl in Hstep. simplify_eq. apply wp_ret. split; [|done].
    destruct HS as [HF HH]. split; [done|]. cbn. unfold moved.
    replace (rh_pos (ramdisk_handles s).[h] + 0) with (rh_pos (ramdisk_handles s).[h]) by lia.
    by rewrite insert_id.
  - destruct (slice_content f pos size) as [Hs Hk]; [done|lia..|].
    replace (if rf_size f -u pos <? size then rf_size f -u pos else size)
      with (Z.min size (rf_size f - pos)) by (wsimpl; destruct (Z.ltb_spec (rf_size f - pos) size); lia).
    rewrite Hs, Hk in Hstep. simplify_eq. wp_steps. apply wp_ret. split; [|by rewrite i32_small by lia].
    eapply move_sim; [done|unfold RAMDISK_FILE_CAPACITY; lia|]. by rewrite u32_small by lia.
Qed.

(** The file of an open handle gets new contents. *)
Lemma ramdisk_write_sim h name pos flags f f' : open_files t !! h = Some (name, pos, flags) ->
  (ramdisk_files s).[rh_entry_idx (ramdisk_handles s).[h]] = f ->
  file_wf f' -> rf_used f' = rf_used f -> rf_name f' = rf_name f ->
  store_sim (s <| ramdisk_files ::= <[Z.to_nat (rh_entry_idx (ramdisk_handles s).[h]) := f']> |>)
            (Build_FileStore (<[name := content f']> (dir t)) (open_files t)).
Proof.
  intros Ho Hf' Hw Hu Hn.
  destruct (handle_file s t HS h name pos flags Ho) as (g & c & _ & Hh & _ & _ & _ & _ & Hidx & Hg & Hgt & Hl & _ & Hname & _).
  assert (f = g) as -> by congruence. destruct HS as [HF HH]. split; cbn.
  - rewrite <- Hname. apply files_update; try done. unfold live in *. congruence.
  - eapply handles_keep; [done..|unfold live in *; congruence|done].
Qed.

End Steps.

Lemma sim_ext s1 s2 t : store_sim s2 t -> ramdisk_files s1 = ramdisk_files s2 ->
  ramdisk_handles s1 = ramdisk_handles s2 -> store_sim s1 t.
Proof. unfold store_sim. by intros H -> ->. Qed.

(** Several stores into one cell are one. *)
Ltac collapse Hf := cbn; rewrite ?alter_alter; by rewrite (alter_lookup _ _ _ _ Hf).

Section Steps2.
Context (s : Ramdisk) (t : FileStore) (HS : store_sim s t).

Lemma write_step h bytes t' r : is_u32 (Z.of_nat (length bytes)) -> store_step (gap_of s (RWrite h bytes)) (RWrite h bytes) t = Some (t', r) ->
  wp (rc_only (ramdisk_write h (Some bytes) (Z.of_nat (length bytes)))) (meets t' r) s.
Proof.
  intros Hsz Hstep. simpl in Hstep. unfold store_handle in Hstep. apply meets_rc_only.
  unfold ramdisk_write. apply wp_get.
  open_handle s t HS h; rewrite Hok; simpl; [|simplify_eq; by apply wp_ret].
  rewrite Hd in Hstep. simpl in Hstep. rewrite Hfl, Hp.
  destruct (may_write flags); simpl in *; [|simplify_eq; by apply wp_ret].
  destruct (Z.leb_spec RAMDISK_FILE_CAPACITY pos); [simplify_eq; by apply wp_ret|].
  subst c. unfold handle_file_of in Hstep. rewrite Hft, Hp, grown_content in Hstep by (done || lia).
  cbn [mbind option_bind] in Hstep.
  set (size := if RAMDISK_FILE_CAPACITY -u pos <? Z.of_nat (length bytes) then _ else _).
  set (out := take (Z.to_nat (RAMDISK_FILE_CAPACITY - pos)) bytes) in *.
  unfold RAMDISK_FILE_CAPACITY, is_u32 in *.
  assert (size = Z.of_nat (length out)) as Hsize.
  { subst size out. wsimpl. rewrite length_take. destruct (Z.ltb_spec (8192 - pos) (Z.of_nat (length bytes))); lia. }
  assert (Z.of_nat (length out) <= 8192 - pos) by (subst out; rewrite length_take; lia).
  assert (take (Z.to_nat size) bytes = out) as ->.
  { rewrite Hsize, Nat2Z.id. subst out. rewrite length_take, <- take_take, firstn_all. done. }
  clearbody size. subst size. rewrite u32_small by lia. wp_steps.
  apply wp_ret.
  destruct (content_write_at f pos out Hw) as [Hw' Hc']; [lia|unfold RAMDISK_FILE_CAPACITY; lia|].
  injection Hstep as <- <-. split; [|by rewrite i32_small by lia]. rewrite <- Hc'.
  match goal with |- context [if rf_size f <? _ then ?a else ?b] => set (f' := if rf_size f <? pos + Z.of_nat (length out) then a else b) in * end.
  assert (rf_used f' = rf_used f /\ rf_name f' = rf_name f /\ rf_data f' = splice pos out (rf_data f)) as (Hu' & Hn' & Hd').
  { subst f'. by destruct (rf_size f <? _). }
  assert (file_wf (f' <| rf_mtime := ramdisk_mtime_tick s |>)) as Hwf.
  { destruct Hw' as [Hl1 Hl2]. cbn in Hl1, Hl2. split; [cbn; by rewrite Hd'|]. cbn. subst f'. unfold RAMDISK_FILE_CAPACITY in *.
    destruct (Z.ltb_spec (rf_size f) (pos + Z.of_nat (length out))); cbn; lia. }
  pose proof (ramdisk_write_sim s t HS h _ _ _ f (f' <| rf_mtime := ramdisk_mtime_tick s |>) Ho Hft Hwf Hu' Hn') as Hws.
  change (content (f' <| rf_mtime := ramdisk_mtime_tick s |>)) with (content f') in Hws.
  eapply sim_ext; [eapply (move_sim _ _ Hws h name pos flags
    (fun hd => hd <| rh_pos := pos + Z.of_nat (length out) |>))| |]; try done.
  - unfold RAMDISK_FILE_CAPACITY. lia.
  - cbn. unfold touched. cbn. rewrite !alter_alter. by rewrite (alter_lookup _ _ _ _ Hf).
Qed.

Lemma close_step gap h t' r : store_step gap (RClose h) t = Some (t', r) ->
  wp (rc_only (ramdisk_close h)) (meets t' r) s.
Proof.
  intros Hstep. simpl in Hstep. unfold store_handle in Hstep. apply meets_rc_only.
  unfold ramdisk_close. apply wp_get.
  open_handle s t HS h; rewrite Hok; simpl; [|simplify_eq; by apply wp_ret].
  rewrite Hd in Hstep. injection Hstep as <- <-. wp_steps. apply wp_ret. split; [|done].
  destruct HS as [HF HH]. split; [done|]. cbn.
  rewrite (alter_lookup _ _ _ _ (rhandle_lookup _ _ _ HH h Hh)).
  by apply (handles_set _ _ _ HH h (Build_RamdiskHandle 0 (-1) 0 0)).
Qed.

Lemma seek_step gap h offset whence t' r : store_op_ok (RSeek h offset whence) ->
  store_step gap (RSeek h offset whence) t = Some (t', r) ->
  wp (rc_only (ramdisk_lseek h offset whence)) (meets t' r) s.
Proof.
  intros Hoff Hstep. simpl in Hoff, Hstep. unfold store_handle in Hstep. apply meets_rc_only.
  unfold ramdisk_lseek. apply wp_get.
  open_handle s t HS h; rewrite Hok; simpl; [|simplify_eq; by apply wp_ret].
  rewrite Hd in Hstep. simpl in Hstep. subst c. rewrite content_length in Hstep by done. rewrite Hft, Hp.
  destruct Hw as [Hlen Hsize]. unfold RAMDISK_FILE_CAPACITY in *.
  rewrite (i32_small (rf_size f)), (i32_small pos), (i32_small (pos + offset)), (i32_small (rf_size f + offset)) by lia.
  destruct (if whence =? VFS_SEEK_SET then _ else _) as [p|] eqn:Ep; [|simplify_eq; by apply wp_ret].
  injection Hstep as <- <-. wp_steps. apply wp_ret.
  assert ((if rf_size f <? (if p <? 0 then 0 else p) then rf_size f else (if p <? 0 then 0 else p)) =
          Z.min (rf_size f) (Z.max 0 p)) as ->.
  { destruct (Z.ltb_spec p 0); [destruct (Z.ltb_spec (rf_size f) 0)|destruct (Z.ltb_spec (rf_size f) p)]; lia. }
  split; [|done]. rewrite u32_small by lia.
  eapply move_sim; [done..|unfold RAMDISK_FILE_CAPACITY; lia|done].
Qed.

Lemma ftruncate_step h size t' r : is_u32 size -> store_step (gap_of s (RFtruncate h size)) (RFtruncate h size) t = Some (t', r) ->
  wp (rc_only (ramdisk_ftruncate h size)) (meets t' r) s.
Proof.
  intros Hsz Hstep. simpl in Hstep. unfold store_handle in Hstep. apply meets_rc_only.
  unfold ramdisk_ftruncate. apply wp_get.
  open_handle s t HS h; rewrite Hok; simpl; [|simplify_eq; by apply wp_ret].
  rewrite Hd in Hstep. simpl in Hstep. subst c.
  replace (if RAMDISK_FILE_CAPACITY <? size then RAMDISK_FILE_CAPACITY else size)
    with (Z.min RAMDISK_FILE_CAPACITY size) by (destruct (Z.ltb_spec RAMDISK_FILE_CAPACITY size); lia).
  set (n := Z.min RAMDISK_FILE_CAPACITY size) in *.
  assert (0 <= n <= RAMDISK_FILE_CAPACITY) by (subst n; unfold is_u32, RAMDISK_FILE_CAPACITY in *; lia).
  unfold handle_file_of in Hstep. rewrite Hft, grown_content in Hstep by done. cbn [mbind option_bind] in Hstep.
  injection Hstep as <- <-. wp_steps. apply wp_ret. split; [|done].
  destruct (content_resize f n Hw) as [Hw' Hc']; [done|]. rewrite <- Hc'.
  pose (f' := (f <| rf_size := n |>) <| rf_mtime := ramdisk_mtime_tick s |>).
  pose proof (ramdisk_write_sim s t HS h _ _ _ f f' Ho Hft Hw' eq_refl eq_refl) as Hws.
  change (content f') with (content (f <| rf_size := n |>)) in Hws.
  eapply sim_ext; [eapply (move_sim _ _ Hws h name pos flags
    (fun hd => if n <? rh_pos hd then hd <| rh_pos := n |> else hd))| |]; try done; [lia| |].
  - cbn. rewrite Hp. destruct (Z.ltb_spec n pos).
    + by rewrite Z.min_r by lia.
    + rewrite Z.min_l, <- Hp by lia. by destruct (ramdisk_handles s).[h].
  - unfold touched. cbn. rewrite alter_alter. by rewrite (alter_lookup _ _ _ _ Hf).
Qed.

(** Calls on a path start at the file of the name. *)
Lemma path_entry {A} path (err : Z -> A) (k : Z -> ST Ramdisk A) Q name :
  ramdisk_extract_name path = Some name ->
  match dir t !! name with
  | Some c => forall i f, ramdisk_files s !! i = Some f -> live f -> rf_name f = name -> c = content f -> file_wf f ->
                wp (k (Z.of_nat i)) Q s
  | None => Q s (err VFS_ERR_NOT_FOUND)
  end -> wp (with_entry path err k) Q s.
Proof.
  intros He Hk. unfold with_entry. rewrite He. apply wp_get.
  pose proof (find_entry_ok _ _ (proj1 HS) s name eq_refl) as Hf. destruct (dir t !! name).
  - destruct Hf as (i & f & -> & Hi & Hl & Hn & Hc). destruct (Z.ltb_spec (Z.of_nat i) 0); [lia|].
    eapply Hk; eauto. by apply (fm_wf _ _ (proj1 HS) i).
  - rewrite Hf. by apply wp_ret.
Qed.

Lemma stat_step gap path t' r : store_step gap (RStat path) t = Some (t', r) ->
  wp (ramdisk_step (RStat path)) (meets t' r) s.
Proof.
  intros Hstep. simpl in Hstep. unfold store_path in Hstep. apply wp_bind. unfold ramdisk_stat.
  destruct (ramdisk_extract_name path) as [name|] eqn:En.
  - apply path_entry with name; [done|]. destruct (dir t !! name) as [c|]; [|by simplify_eq].
    intros i f Hi Hl Hn -> Hw. simplify_eq. apply wp_get, wp_ret. rewrite content_length by done.
    unfold wp. cbn. rewrite Nat2Z.id. by rewrite (list_lookup_total_correct _ _ _ Hi).
  - simplify_eq. unfold with_entry. rewrite En. by apply wp_ret.
Qed.
End Steps2.

(** ** Opening *)

Lemma alloc_handle_sim s o : handles_sim (ramdisk_files s) (ramdisk_handles s) o ->
  find_idx (fun h => rh_used h =? 0) (ramdisk_handles s) =
  find_idx (fun h => bool_decide (o !! h = None)) (seqZ 0 RAMDISK_MAX_HANDLES).
Proof.
  intros HH. apply find_idx_ext. intros i. destruct (ramdisk_handles s !! i) as [hd|] eqn:E.
  - pose proof (lookup_lt_Some _ _ _ E) as Hi. rewrite (hm_len _ _ _ HH) in Hi.
    rewrite lookup_seqZ_lt, Z.add_0_l by lia. cbn [fmap option_fmap option_map]. f_equal. rewrite (hm_open _ _ _ HH i hd E). unfold handle_entry.
    destruct (rh_used hd =? 0); [by rewrite bool_decide_eq_true_2|by rewrite bool_decide_eq_false_2].
  - apply lookup_ge_None_1 in E. rewrite (hm_len _ _ _ HH) in E. by rewrite lookup_seqZ_ge by lia.
Qed.

Definition open_handle_on (entry_idx flags : Z) : ST Ramdisk Z :=
  s ← get;
  let handle := ramdisk_alloc_handle s in
  if handle <? 0 then mret VFS_ERR_NO_SPACE
  else
    _ ← set_rhandle handle (fun _ => Build_RamdiskHandle 1 entry_idx 0 flags);
    mret handle.

Lemma store_open_step s d t i f name flags : store_sim s (Build_FileStore d (open_files t)) ->
  ramdisk_files s !! i = Some f -> live f -> rf_name f = name ->
  let r := store_open d name flags t in
  wp (open_handle_on (Z.of_nat i) flags) (fun s' rc => meets (fst r) (snd r) s' (rc, [])) s.
Proof.
  intros [HF HH] Hi Hl Hn r. subst r. cbn in HF, HH. unfold open_handle_on, store_open, ramdisk_alloc_handle.
  apply wp_get. rewrite (alloc_handle_sim _ _ HH).
  destruct (find_idx _ (seqZ 0 RAMDISK_MAX_HANDLES)) as [h|] eqn:E; cbn -[Z.ltb]; [|by apply wp_ret].
  destruct (Z.ltb_spec (Z.of_nat h) 0); [lia|]. apply find_idx_lt in E. rewrite length_seqZ in E.
  wp_steps. apply wp_ret. split; [|done]. split; [done|]. cbn. rewrite Nat2Z.id.
  assert (0 <= Z.of_nat h < RAMDISK_MAX_HANDLES) as Hh by lia.
  pose proof (rhandle_lookup _ _ _ HH _ Hh) as Hlk. rewrite Nat2Z.id in Hlk.
  pose proof (lookup_lt_Some _ _ _ Hi) as Hlt. rewrite (fm_len _ _ HF) in Hlt.
  pose proof (list_lookup_total_correct _ _ _ Hi) as Hit.
  rewrite (alter_lookup _ _ _ _ Hlk).
  pose proof (handles_set _ _ _ HH (Z.of_nat h) (Build_RamdiskHandle 1 (Z.of_nat i) 0 flags) Hh) as Hs.
  unfold handle_entry in Hs. simpl in Hs. rewrite !Nat2Z.id, Hit, Hn in Hs. apply Hs.
  intros _. cbn. rewrite Nat2Z.id, Hit. unfold RAMDISK_MAX_FILES, RAMDISK_FILE_CAPACITY in *. split_and!; done || lia.
Qed.

Section Steps3.
Context (s : Ramdisk) (t : FileStore) (HS : store_sim s t).

(** The free entry a creation takes. *)
Lemma alloc_entry_sim : match find_idx (fun f => rf_used f =? 0) (ramdisk_files s) with
  | Some i => exists f, ramdisk_files s !! i = Some f /\ ~ live f /\ Z.of_nat (size (dir t)) < RAMDISK_MAX_FILES
  | None => Z.of_nat (size (dir t)) = RAMDISK_MAX_FILES
  end.
Proof.
  destruct HS as [HF _]. rewrite (fm_size _ _ HF). pose proof (fm_len _ _ HF) as Hlen.
  unfold RAMDISK_MAX_FILES in *.
  destruct (find_idx _ (ramdisk_files s)) as [i|] eqn:E.
  - apply find_idx_Some in E as [(f & Hi & Hu) _]. bsimpl. exists f.
    assert (~ live f) as Hn by (unfold live; lia). pose proof (count_live_room _ _ _ Hi Hn). split_and!; [done..|lia].
  - rewrite (count_live_full _ E). lia.
Qed.

(** A file no handle reaches. *)
Lemma free_entry_unused i f : ramdisk_files s !! i = Some f -> ~ live f ->
  forall hd, hd ∈ ramdisk_handles s -> rh_used hd <> 0 -> handle_wf (ramdisk_files s) hd ->
  Z.to_nat (rh_entry_idx hd) <> i.
Proof.
  intros Hi Hl hd _ Hu Hw He. destruct (Hw Hu) as (_ & Hl2 & _).
  rewrite He, (list_lookup_total_correct _ _ _ Hi) in Hl2. done.
Qed.

Lemma create_sim i f name : ramdisk_files s !! i = Some f -> ~ live f -> dir t !! name = None ->
  let f' := f <| rf_used := 1 |> <| rf_name := name |> <| rf_size := 0 |> <| rf_inode := ramdisk_next_inode s |>
              <| rf_mtime := ramdisk_mtime_tick s |> in
  forall s', ramdisk_files s' = <[i := f']> (ramdisk_files s) -> ramdisk_handles s' = ramdisk_handles s ->
  store_sim s' (Build_FileStore (<[name := []]> (dir t)) (open_files t)).
Proof.
  intros Hi Hl Hd f' s' Hf Hh. destruct HS as [HF HH]. unfold store_sim. rewrite Hf, Hh. split; cbn.
  - apply (files_create _ _ HF i f f'); try done.
    destruct (fm_wf _ _ HF _ _ Hi) as [Hw _]. split; [done|]. cbn. unfold RAMDISK_FILE_CAPACITY. lia.
  - apply handles_unused; [done|]. by eapply free_entry_unused.
Qed.

(** The file of a name gets new contents. *)
Lemma path_write_sim i f f' : ramdisk_files s !! i = Some f -> live f -> file_wf f' ->
  rf_used f' = rf_used f -> rf_name f' = rf_name f ->
  forall s', ramdisk_files s' = <[i := f']> (ramdisk_files s) -> ramdisk_handles s' = ramdisk_handles s ->
  store_sim s' (Build_FileStore (<[rf_name f := content f']> (dir t)) (open_files t)).
Proof.
  intros Hi Hl Hw Hu Hn s' Hf Hh. destruct HS as [HF HH].
  assert (live f') by (unfold live in *; congruence). unfold store_sim. rewrite Hf, Hh. split; cbn.
  - by apply files_update.
  - by eapply handles_keep.
Qed.

Lemma open_step gap path flags t' r : store_step gap (ROpen path flags) t = Some (t', r) ->
  wp (rc_only (ramdisk_open path flags)) (meets t' r) s.
Proof.
  intros Hstep. simpl in Hstep. apply meets_rc_only. unfold ramdisk_open.
  destruct (ramdisk_extract_name path) as [name|]; [|simplify_eq; by apply wp_ret].
  unfold open_entry. apply wp_bind, wp_get. cbv zeta.
  pose proof (find_entry_ok _ _ (proj1 HS) s name eq_refl) as Hfe.
  destruct (dir t !! name) as [c|] eqn:Ed.
  - destruct Hfe as (i & f & -> & Hi & Hl & Hn & Hc).
    pose proof (fm_wf _ _ (proj1 HS) _ _ Hi) as Hw. destruct (Z.ltb_spec (Z.of_nat i) 0) as [|Hnn]; [lia|].
    destruct (has_flag flags VFS_O_TRUNC); injection Hstep as Hstep.
    + wp_steps. apply wp_ret. destruct (Z.ltb_spec (Z.of_nat i) 0); [lia|].
      set (s2 := touched _ _).
      pose (f' := (f <| rf_size := 0 |>) <| rf_mtime := ramdisk_mtime_tick s |>).
      assert (ramdisk_files s2 = <[i := f']> (ramdisk_files s)) as Hf2.
      { subst s2. unfold touched. cbn. rewrite alter_alter, Nat2Z.id. by rewrite (alter_lookup _ _ _ _ Hi). }
      assert (file_wf f') as Hw' by (destruct Hw; split; cbn; [done|unfold RAMDISK_FILE_CAPACITY; lia]).
      pose proof (path_write_sim i f f' Hi Hl Hw' eq_refl eq_refl s2 Hf2 eq_refl) as Hs2.
      rewrite Hn in Hs2. change (content f') with (@nil Z) in Hs2.
      pose proof (store_open_step s2 _ t i f' name flags Hs2) as Ho. rewrite Hstep in Ho. apply Ho; [|done..].
      rewrite Hf2. by rewrite list_lookup_insert_eq by (by eapply lookup_lt_Some).
    + apply wp_ret. destruct (Z.ltb_spec (Z.of_nat i) 0); [lia|].
      pose proof (store_open_step s (dir t) t i f name flags) as Ho. rewrite Hstep in Ho. apply Ho; try done.
  - rewrite Hfe. simpl. destruct (Z.land flags VFS_O_CREAT =? 0); [simplify_eq; by do 2 apply wp_ret|].
    pose proof alloc_entry_sim as Ha. unfold ramdisk_alloc_entry.
    destruct (find_idx _ (ramdisk_files s)) as [i|]; simpl.
    + destruct Ha as (f & Hi & Hl & Hroom). destruct (Z.leb_spec RAMDISK_MAX_FILES (Z.of_nat (size (dir t)))); [lia|].
      injection Hstep as Hstep. destruct (Z.ltb_spec (Z.of_nat i) 0) as [|Hnn]; [lia|].
      wp_steps. apply wp_ret. destruct (Z.ltb_spec (Z.of_nat i) 0); [lia|]. set (s2 := touched _ _).
      pose (f' := f <| rf_used := 1 |> <| rf_name := name |> <| rf_size := 0 |>
        <| rf_inode := ramdisk_next_inode s |> <| rf_mtime := ramdisk_mtime_tick s |>).
      assert (ramdisk_files s2 = <[i := f']> (ramdisk_files s)) as Hf2.
      { subst s2. unfold touched. cbn. rewrite alter_alter, Nat2Z.id. by rewrite (alter_lookup _ _ _ _ Hi). }
      pose proof (create_sim i f name Hi Hl Ed s2 Hf2 eq_refl) as Hs2.
      pose proof (store_open_step s2 _ t i f' name flags Hs2) as Ho. rewrite Hstep in Ho. apply Ho; [|done..].
      rewrite Hf2. by rewrite list_lookup_insert_eq by (by eapply lookup_lt_Some).
    + rewrite Ha in Hstep. simpl in Hstep. simplify_eq. by do 2 apply wp_ret.
Qed.
End Steps3.

Section Steps4.
Context (s : Ramdisk) (t : FileStore) (HS : store_sim s t).

(** The handles on a file are those the store has under its name. *)
Lemma handle_on_name i f hd : ramdisk_files s !! i = Some f -> live f -> hd ∈ ramdisk_handles s ->
  rh_used hd <> 0 -> (rh_entry_idx hd = Z.of_nat i <-> rf_name (ramdisk_files s).[rh_entry_idx hd] = rf_name f).
Proof.
  intros Hi Hl Hin Hu. destruct HS as [HF HH]. apply list_elem_of_lookup in Hin as [h Hh].
  destruct (hm_wf _ _ _ HH h hd Hh Hu) as (Hr & Hlr & _). split.
  - intros ->. by rewrite Nat2Z.id, (list_lookup_total_correct _ _ _ Hi).
  - intros Hn. assert (Z.to_nat (rh_entry_idx hd) = i); [|lia].
    eapply (fm_uniq _ _ HF); [|exact Hi|exact Hlr|done|done].
    apply list_lookup_lookup_total_lt. rewrite (fm_len _ _ HF). lia.
Qed.

Lemma open_on_name i f : ramdisk_files s !! i = Some f -> live f ->
  existsb (handle_on (Z.of_nat i)) (ramdisk_handles s) =
  bool_decide (map_Exists (fun _ e => e.1.1 = rf_name f) (open_files t)).
Proof.
  intros Hi Hl. pose proof HS as [HF HH]. apply eq_true_iff_eq. rewrite existsb_exists, bool_decide_eq_true. split.
  - intros (hd & Hin & Ho). apply list_elem_of_In in Hin. unfold handle_on in Ho. bsimpl.
    apply (handle_on_name i f hd) in H0; [|done..]. apply list_elem_of_lookup in Hin as [h Hh].
    pose proof (hm_open _ _ _ HH h hd Hh) as Hop. unfold handle_entry in Hop.
    destruct (Z.eqb_spec (rh_used hd) 0); [done|]. eexists _, _. split; [exact Hop|done].
  - intros (h & [[n p] fl] & Hop & Hn). simpl in Hn.
    assert (0 <= h < RAMDISK_MAX_HANDLES) as Hh by (apply (hm_range _ _ _ HH); by rewrite Hop).
    pose proof (rhandle_lookup _ _ _ HH h Hh) as Hlk.
    pose proof (hm_open _ _ _ HH _ _ Hlk) as He. rewrite Z2Nat.id, Hop in He by lia. unfold handle_entry in He.
    destruct (Z.eqb_spec (rh_used (ramdisk_handles s).[h]) 0) as [|Hu]; [done|]. injection He as -> _ _.
    exists (ramdisk_handles s).[h]. split; [by eapply list_elem_of_In, list_elem_of_lookup_2|].
    apply (handle_on_name i f) in Hn; [|done|done|by eapply list_elem_of_lookup_2|done].
    unfold handle_on. rewrite Hn, Z.eqb_refl. destruct (Z.eqb_spec (rh_used (ramdisk_handles s).[h]) 0); done.
Qed.

Lemma delete_step gap path t' r : store_step gap (RDelete path) t = Some (t', r) ->
  wp (rc_only (ramdisk_delete path)) (meets t' r) s.
Proof.
  intros Hstep. simpl in Hstep. unfold store_path in Hstep. apply meets_rc_only. unfold ramdisk_delete.
  destruct (ramdisk_extract_name path) as [name|] eqn:En;
    [|simplify_eq; unfold with_entry; rewrite En; by apply wp_ret].
  eapply path_entry; [done..|]. destruct (dir t !! name) as [c|] eqn:Ed; [|by simplify_eq].
  intros i f Hi Hl Hn -> Hw. wp_steps. rewrite (open_on_name i f Hi Hl), Hn.
  case_bool_decide as Hex; simplify_eq; [by apply wp_ret|]. wp_steps. apply wp_ret. split; [|done].
  pose proof HS as [HF HH]. unfold store_sim. cbn. rewrite Nat2Z.id, (alter_lookup _ _ _ _ Hi).
  split.
  - apply files_delete; try done. { unfold live. simpl. lia. }
    destruct Hw as [Hlen _]. split; simpl; [done|unfold RAMDISK_FILE_CAPACITY; lia].
  - apply handles_unused; [done|]. intros hd Hin Hu Hwf He.
    apply list_elem_of_lookup in Hin as [h Hh]. apply Hex.
    pose proof (hm_open _ _ _ HH h hd Hh) as Hop. unfold handle_entry in Hop.
    destruct (Z.eqb_spec (rh_used hd) 0); [done|]. eexists _, _. split; [exact Hop|]. simpl.
    by rewrite He, (list_lookup_total_correct _ _ _ Hi).
Qed.

Lemma truncate_step path size t' r : is_u32 size -> store_step (gap_of s (RTruncate path size)) (RTruncate path size) t = Some (t', r) ->
  wp (rc_only (ramdisk_truncate path size)) (meets t' r) s.
Proof.
  intros Hsz Hstep. simpl in Hstep. unfold store_path in Hstep. apply meets_rc_only. unfold ramdisk_truncate.
  destruct (ramdisk_extract_name path) as [name|] eqn:En;
    [|simplify_eq; unfold with_entry; rewrite En; by apply wp_ret].
  eapply path_entry; [done..|]. destruct (dir t !! name) as [c|] eqn:Ed; [|by simplify_eq].
  intros i f Hi Hl Hn -> Hw.
  assert ((ramdisk_files s).[ramdisk_find_entry s name] = f) as Hfile.
  { pose proof (find_entry_ok _ _ (proj1 HS) s name eq_refl) as Hfe. rewrite Ed in Hfe.
    destruct Hfe as (j & g & -> & Hj & Hg & Hgn & _). rewrite Nat2Z.id, (list_lookup_total_correct _ _ _ Hj).
    assert (j = i) as -> by (apply (fm_uniq _ _ (proj1 HS) j i g f); congruence). congruence. }
  rewrite Hfile in Hstep.
  replace (if RAMDISK_FILE_CAPACITY <? size then RAMDISK_FILE_CAPACITY else size)
    with (Z.min RAMDISK_FILE_CAPACITY size) by (destruct (Z.ltb_spec RAMDISK_FILE_CAPACITY size); lia).
  set (n := Z.min RAMDISK_FILE_CAPACITY size) in *.
  assert (0 <= n <= RAMDISK_FILE_CAPACITY) by (subst n; unfold is_u32, RAMDISK_FILE_CAPACITY in *; lia).
  rewrite grown_content in Hstep by done. cbn [mbind option_bind] in Hstep. injection Hstep as <- <-.
  wp_steps. apply wp_ret. split; [|done].
  destruct (content_resize f n Hw) as [Hw' Hc']; [done|]. rewrite <- Hc'.
  pose (f' := (f <| rf_size := n |>) <| rf_mtime := ramdisk_mtime_tick s |>).
  pose (s2 := s <| ramdisk_files := <[i := f']> (ramdisk_files s) |>).
  pose proof (path_write_sim s t HS i f f' Hi Hl Hw' eq_refl eq_refl s2 eq_refl eq_refl) as [HF2 HH2].
  change (content f') with (content (f <| rf_size := n |>)) in HF2. rewrite Hn in HF2.
  unfold store_sim, touched. cbn. rewrite alter_alter, Nat2Z.id, (alter_lookup _ _ _ _ Hi).
  split; [exact HF2|]. apply (handles_map _ _ _ HH2). intros hd Hin Hwf. cbn in Hin, HH2, Hwf.
  unfold clamp_handle, handle_on, clamp_open, handle_entry. change (ramdisk_files s2) with (<[i := f']> (ramdisk_files s)) in *.
  destruct (Z.eqb_spec (rh_used hd) 0) as [Hu0|Hu].
  { simpl. rewrite Hu0. split; [|done]. intros Hne. done. }
  destruct (Hwf Hu) as (Hr & Hlr & Hp).
  assert (rh_entry_idx hd = Z.of_nat i <-> rf_name (<[i := f']> (ramdisk_files s)).[rh_entry_idx hd] = name) as Hon.
  { rewrite (handle_on_name i f hd Hi Hl Hin Hu), <- Hn.
    destruct (decide (Z.to_nat (rh_entry_idx hd) = i)) as [He|He].
    - rewrite !He, list_lookup_total_insert_eq by (by eapply lookup_lt_Some).
      by rewrite (list_lookup_total_correct _ _ _ Hi).
    - by rewrite list_lookup_total_insert_ne by done. }
  unfold handle_wf. destruct (Z.eqb_spec (rh_entry_idx hd) (Z.of_nat i)) as [He|He]; simpl.
  - apply Hon in He. destruct (Z.ltb_spec n (rh_pos hd)); cbn; (split; [intros _; split_and!; done || lia|]);
      (destruct (Z.eqb_spec (rh_used hd) 0); [done|]); simpl; rewrite bool_decide_eq_true_2 by done;
      do 3 f_equal; lia.
  - split; [done|]. destruct (Z.eqb_spec (rh_used hd) 0); [done|]. simpl. rewrite bool_decide_eq_false_2; [done|].
    intros Hn'. by apply He, Hon.
Qed.

Lemma rename_sim i f f' new : ramdisk_files s !! i = Some f -> live f -> file_wf f' -> content f' = content f ->
  rf_used f' = rf_used f -> rf_name f' = new -> new = rf_name f \/ dir t !! new = None ->
  forall s', ramdisk_files s' = <[i := f']> (ramdisk_files s) -> ramdisk_handles s' = ramdisk_handles s ->
  store_sim s' (Build_FileStore (<[new := content f]> (delete (rf_name f) (dir t)))
                                (renamed (rf_name f) new <$> open_files t)).
Proof.
  intros Hi Hl Hw' Hc Hu Hn Hnew s' Hf Hh. pose proof HS as [HF HH]. unfold store_sim. rewrite Hf, Hh, <- Hn, <- Hc.
  assert (live f') as Hl' by (unfold live in *; congruence).
  split; cbn; [apply files_replace; try done; by rewrite Hn|].
  rewrite <- (map_id (ramdisk_handles s)). apply (handles_map _ _ _ HH).
  intros hd Hin Hwf. unfold handle_wf, handle_entry, renamed in *.
  destruct (Z.eqb_spec (rh_used hd) 0) as [Hu0|Hu0]; [done|]. simpl.
  pose proof (handle_on_name i f hd Hi Hl Hin Hu0) as Hon. destruct (Hwf Hu0) as (Hr & Hlr & Hp).
  destruct (decide (Z.to_nat (rh_entry_idx hd) = i)) as [He|He].
  - rewrite !He, list_lookup_total_insert_eq by (by eapply lookup_lt_Some).
    rewrite (list_lookup_total_correct _ _ _ Hi), bool_decide_eq_true_2 by done. done.
  - rewrite !list_lookup_total_insert_ne by done. rewrite bool_decide_eq_false_2; [done|].
    rewrite <- Hon. lia.
Qed.

Lemma rename_step gap p q t' r : store_step gap (RRename p q) t = Some (t', r) ->
  wp (rc_only (ramdisk_rename p q)) (meets t' r) s.
Proof.
  intros Hstep. simpl in Hstep. apply meets_rc_only. unfold ramdisk_rename.
  destruct (ramdisk_extract_name p) as [old|], (ramdisk_extract_name q) as [new|];
    try (simplify_eq; by apply wp_ret).
  apply wp_get. cbv zeta. pose proof HS as [HF HH].
  pose proof (find_entry_ok _ _ HF s old eq_refl) as Ho. pose proof (find_entry_ok _ _ HF s new eq_refl) as Hn.
  destruct (dir t !! old) as [c|] eqn:Ed; [|rewrite Ho; simplify_eq; by apply wp_ret].
  destruct Ho as (i & f & -> & Hi & Hl & Hfn & Hc). destruct (Z.ltb_spec (Z.of_nat i) 0) as [|Hnn]; [lia|].
  assert ((0 <=? ramdisk_find_entry s new) && negb (ramdisk_find_entry s new =? Z.of_nat i) =
          bool_decide (is_Some (dir t !! new) /\ new <> old)) as ->.
  { destruct (dir t !! new) as [c'|].
    - destruct Hn as (j & g & -> & Hj & Hlg & Hgn & _). rewrite (proj2 (Z.leb_le _ _)) by lia. simpl.
      destruct (Z.eqb_spec (Z.of_nat j) (Z.of_nat i)) as [He|He]; simpl.
      + rewrite bool_decide_eq_false_2; [done|]. intros [_ Hne]. apply Nat2Z.inj in He. subst j.
        simplify_eq.
      + rewrite bool_decide_eq_true_2; [done|]. split; [by eexists|]. intros ->. apply He. f_equal.
        apply (fm_uniq _ _ HF j i g f); congruence.
    - rewrite Hn. symmetry. apply bool_decide_eq_false_2. by intros [[? ?] _]. }
  case_bool_decide as Hb; injection Hstep as <- <-; [by apply wp_ret|].
  wp_steps. apply wp_ret. split; [|done].
  pose (f' := (f <| rf_name := new |>) <| rf_mtime := ramdisk_mtime_tick s |>). subst old c.
  apply (rename_sim i f f' new); try done.
  - by apply (fm_wf _ _ HF i f).
  - destruct (decide (new = rf_name f)); [by left|right]. destruct (dir t !! new) eqn:E; [|done].
    exfalso. apply Hb. split; [by eexists|done].
  - unfold touched. cbn. rewrite alter_alter, Nat2Z.id. by rewrite (alter_lookup _ _ _ _ Hi).
Qed.
End Steps4.

(** ** Runs *)

(** The store's run; each call comes with the bytes it may expose. *)
Fixpoint store_run (ops : list (store_op * list Z)) (t : FileStore) : option (list (Z * list Z)) :=
  match ops with
  | [] => Some []
  | (o, gap) :: ops' => '(t', r) ← store_step gap o t; rs ← store_run ops' t'; Some (r :: rs)
  end.

Lemma step_ok o s t t' r : store_op_ok o -> store_sim s t -> store_step (gap_of s o) o t = Some (t', r) ->
  wp (ramdisk_step o) (meets t' r) s.
Proof.
  intros Hok HS Hstep. destruct o.
  - by eapply (open_step s t HS).
  - by eapply (read_step s t HS).
  - by apply (write_step s t HS).
  - by eapply (close_step s t HS).
  - by eapply (delete_step s t HS).
  - by eapply (seek_step s t HS).
  - by eapply (stat_step s t HS).
  - by eapply (rename_step s t HS).
  - by apply (truncate_step s t HS).
  - by apply (ftruncate_step s t HS).
Qed.

(** The RAM disk as [vfs_init] leaves it; the data of the files is whatever the
    memory holds. *)
Definition ramdisk_empty (s : Ramdisk) : Prop :=
  length (ramdisk_files s) = Z.to_nat RAMDISK_MAX_FILES /\
  length (ramdisk_handles s) = Z.to_nat RAMDISK_MAX_HANDLES /\
  Forall (fun f => rf_used f = 0 /\ rf_size f = 0 /\ length (rf_data f) = Z.to_nat RAMDISK_FILE_CAPACITY)
    (ramdisk_files s) /\
  Forall (fun h => rh_used h = 0) (ramdisk_handles s).

Lemma empty_sim s : ramdisk_empty s -> store_sim s (Build_FileStore ∅ ∅).
Proof.
  intros (Hlf & Hlh & Hf & Hh).
  assert (forall i f, ramdisk_files s !! i = Some f ->
    rf_used f = 0 /\ rf_size f = 0 /\ length (rf_data f) = Z.to_nat RAMDISK_FILE_CAPACITY) as Hfi.
  { intros i f Hi. by apply (Forall_lookup_1 _ _ _ _ Hf Hi). }
  assert (forall i f, ramdisk_files s !! i = Some f -> ~ live f) as Hnl.
  { intros i f Hi. destruct (Hfi i f Hi) as (Hu & _). unfold live. lia. }
  assert (forall h hd, ramdisk_handles s !! h = Some hd -> rh_used hd = 0) as Hhi.
  { intros h hd Hi. by apply (Forall_lookup_1 _ _ _ _ Hh Hi). }
  split; split; cbn; try done.
  - intros i f Hi. destruct (Hfi i f Hi) as (_ & Hs & Hl). split; [done|]. unfold RAMDISK_FILE_CAPACITY. lia.
  - intros i f Hi Hl. by apply Hnl in Hi.
  - intros i j f g Hi _ Hl. by apply Hnl in Hi.
  - rewrite map_size_empty. unfold count_live. destruct (filter live (ramdisk_files s)) as [|f l] eqn:E; [done|].
    assert (f ∈ filter live (ramdisk_files s)) as Hin by (rewrite E; left).
    apply list_elem_of_filter in Hin as [Hl [i Hi]%list_elem_of_lookup]. by apply Hnl in Hi.
  - intros h hd Hi Hu. by apply Hhi in Hi.
  - intros h hd Hi. apply Hhi in Hi. unfold handle_entry. rewrite Hi. done.
  - intros h [? ?]. done.
Qed.

(** The store has an answer for every call. *)
Lemma step_defined o s t : store_op_ok o -> store_sim s t -> is_Some (store_step (gap_of s o) o t).
Proof.
  intros Hop HS. destruct o as [path flags|h size|h bytes|h|path|h offset whence|path|p q|path size|h size]; simpl in *;
    unfold store_handle, store_path.
  - destruct (ramdisk_extract_name path); [|done]. destruct (dir t !! _); [done|]. by repeat case_if.
  - open_handle s t HS h; [|done]. rewrite Hd. simpl. by case_if.
  - open_handle s t HS h; [|done]. rewrite Hd. simpl. case_if; [done|].
    destruct (Z.leb_spec RAMDISK_FILE_CAPACITY pos); [done|].
    unfold handle_file_of. rewrite Hft, Hp, Hc, grown_content by (done || lia). done.
  - open_handle s t HS h; [|done]. by rewrite Hd.
  - destruct (ramdisk_extract_name path); [|done]. destruct (dir t !! _); [|done]. by case_if.
  - open_handle s t HS h; [|done]. rewrite Hd. simpl. by repeat case_if.
  - destruct (ramdisk_extract_name path); [|done]. by destruct (dir t !! _).
  - destruct (ramdisk_extract_name p), (ramdisk_extract_name q); try done. destruct (dir t !! _); [|done]. by case_if.
  - destruct (ramdisk_extract_name path) as [name|]; [|done].
    pose proof (find_entry_ok _ _ (proj1 HS) s name eq_refl) as Hf. destruct (dir t !! name); [|done].
    destruct Hf as (i & f & -> & Hi & Hl & _ & ->). rewrite Nat2Z.id, (list_lookup_total_correct _ _ _ Hi).
    rewrite grown_content; [done|by apply (fm_wf _ _ (proj1 HS) i)|unfold is_u32, RAMDISK_FILE_CAPACITY in *; lia].
  - open_handle s t HS h; [|done]. rewrite Hd. simpl. unfold handle_file_of.
    rewrite Hft, Hc, grown_content; [done..|unfold is_u32, RAMDISK_FILE_CAPACITY in *; lia].
Qed.

(** C22: the RAM disk is a store of named byte files.  From the empty disk, every
    sequence of opens, reads, writes, closes, deletions, seeks, status calls,
    renames and truncations gives the results of the abstract store [store_step],
    in which a file is a list of at most 8192 bytes found by its name and an open
    handle a name with a position.  Where a call makes a file longer than what was
    written, by a growing truncation or a write behind the end, the new bytes are
    whatever the memory of the file held (the code does not clear them, vfs.c:1168):
    some list [gap] of the right length; other calls do not depend on it.  Sizes are
    unsigned 32-bit numbers, and no seek offset is so close to 2^31 that the sum with
    the size overflows ([store_op_ok]). *)
Theorem ramdisk_refines_store s ops : ramdisk_empty s -> Forall store_op_ok ops ->
  exists gaps, length gaps = length ops /\
    store_run (zip ops gaps) (Build_FileStore ∅ ∅) = Some (snd (run_ops ramdisk_step ops s)).
Proof.
  intros He%empty_sim. generalize dependent (Build_FileStore ∅ ∅).
  generalize dependent s. induction ops as [|o ops IH]; intros s t HS Hok; simpl in *; [by exists []|].
  inversion Hok; subst. destruct (step_defined o s t) as [[t' r] Es]; [done..|].
  pose proof (step_ok o s t t' r) as Hs. apply wp_run in Hs as (s' & r' & Hr & HS' & ->); [|done..].
  destruct (IH s' t' HS' ltac:(done)) as (gaps & Hl & Hrun). exists (gap_of s o :: gaps). simpl. split; [by rewrite Hl|].
  rewrite Es, Hr. simpl. rewrite Hrun. by destruct (run_ops ramdisk_step ops s').
Qed.

Definition boot_ramdisk : Ramdisk :=
  {| ramdisk_files := replicate 64 (Build_RamdiskFile 0 [] 0 0 0 (replicate (8 * 1024) 0));
     ramdisk_handles := replicate 128 (Build_RamdiskHandle 0 (-1) 0 0);
     ramdisk_next_inode := 1; ramdisk_mtime_tick := 1 |}.

(** /a is written through one handle, read through another, renamed while open. *)
Definition demo_store_ops : list store_op :=
  [ROpen [47; 97] 7; RWrite 0 [1; 2; 3; 4]; ROpen [47; 97] 1; RRead 1 3; RDelete [97]; RRename [97] [98];
   RStat [98]; RSeek 0 (-2) VFS_SEEK_END; RWrite 0 [9]; RRead 1 10; RTruncate [98] 2; RRead 1 1; RWrite 1 [5];
   RClose 1; RClose 0; RDelete [98]; ROpen [98] 1].

Lemma ramdisk_refines_store_witness :
  exists gaps, length gaps = length demo_store_ops /\
    store_run (zip demo_store_ops gaps) (Build_FileStore ∅ ∅) = Some (snd (run_ops ramdisk_step demo_store_ops boot_ramdisk)).
Proof.
  apply ramdisk_refines_store.
  - split_and!; [vm_compute; reflexivity..| |]; apply Forall_replicate; vm_compute; done.
  - repeat constructor; unfold store_op_ok, is_u32, RAMDISK_FILE_CAPACITY; simpl; lia.
Defined.

Example demo_store_results :
  snd (run_ops ramdisk_step demo_store_ops boot_ramdisk) =
  [(0, []); (4, []); (1, []); (3, [1; 2; 3]); (VFS_ERR_PERM, []); (0, []); (0, [4]); (2, []); (1, []); (1, [4]);
   (0, []); (0, []); (VFS_ERR_PERM, []); (0, []); (0, []); (0, []); (VFS_ERR_NOT_FOUND, [])].
Proof. vm_compute. reflexivity. Qed.

(** A file cut and made longer again shows what was cut off. *)
Example demo_store_exposed :
  snd (run_ops ramdisk_step [ROpen [97] 7; RWrite 0 [1; 2; 3; 4]; RTruncate [97] 1; RTruncate [97] 3; RSeek 0 0 VFS_SEEK_SET; RRead 0 9]
    boot_ramdisk) = [(0, []); (4, []); (0, []); (0, []); (0, []); (3, [1; 2; 3])].
Proof. vm_compute. reflexivity. Qed.
