(* ===== verification/Disk.v ===== *)
(** * The disk driver (kernel/disk.c)

    Sector input and output over two controllers: AHCI, whose driver (kernel/ahci.c)
    is an interface here, and ATA in programmed input/output through the ports.  The
    file models the choice of the controller, retries, error counts, the batch
    scheduler and the cached calls on top of the page cache. *)
From S2P Require Import Prelude BlockDev PageCache VfsDefs.

Definition DISK_BACKEND_AUTO : Z := 0.
Definition DISK_BACKEND_ATA : Z := 1.
Definition DISK_BACKEND_AHCI : Z := 2.
Definition PORT_DATA : Z := 0x1F0.
Definition PORT_SECCOUNT : Z := 0x1F2.
Definition PORT_LBA_LOW : Z := 0x1F3.
Definition PORT_LBA_MID : Z := 0x1F4.
Definition PORT_LBA_HIGH : Z := 0x1F5.
Definition PORT_DEVICE : Z := 0x1F6.
Definition PORT_COMMAND : Z := 0x1F7.
Definition PORT_CONTROL : Z := 0x3F6.
Definition STATUS_BSY : Z := 0x80.
Definition STATUS_RDY : Z := 0x40.
Definition CMD_READ : Z := 0x20.
Definition CMD_WRITE : Z := 0x30.
Definition AHCI_MAX_PORTS : nat := 32.
Definition AHCI_READ_OK : Z := 0.
Definition AHCI_READ_ERR_NO_READY_PORT : Z := -2.
Definition AHCI_READ_ERR_TIMEOUT : Z := -3.
Definition AHCI_READ_ERR_TFES : Z := -4.
Definition DISK_READ_RETRY_COUNT : nat := 3.

Record AhciPortReport := { ap_implemented : Z; ap_ready : Z; ap_sata : Z }.
#[export] Instance AhciPortReport_inh : Inhabited AhciPortReport := populate (Build_AhciPortReport 0 0 0).
Record AhciProbeReport := {
  ar_controller_found : Z; ar_implemented_ports : Z; ar_ready_ports : Z; ar_ports : list AhciPortReport
}.
Record AhciIdentifyInfo := {
  id_success : Z; id_smart_supported : Z; id_smart_enabled : Z; id_lba48_sectors_low : Z;
  id_lba48_sectors_high : Z; id_model : list Z
}.

(** ** The hardware

    The port instructions and the calls of the AHCI driver, on a state [H]. *)
Class DiskHw (H : Type) := {
  inb : Z -> ST H Z;
  outb : Z -> Z -> ST H unit;
  inw : Z -> ST H Z;
  outw : Z -> Z -> ST H unit;
  ahci_get_runtime_report : ST H (option AhciProbeReport);
  ahci_port_reset_and_start : Z -> ST H bool;
  ahci_read_sector : Z -> Z -> list Z -> ST H (Z * list Z);
  ahci_write_sector : Z -> Z -> list Z -> ST H Z;
  ahci_identify_first_ready : ST H (option AhciIdentifyInfo)
}.

Record DiskIoStats := { uncached_reads : Z; uncached_writes : Z; cached_reads : Z; cached_writes : Z }.
Definition no_io : DiskIoStats := Build_DiskIoStats 0 0 0 0.
#[export] Instance DiskIoStats_fields : Fields DiskIoStats := fun r =>
  {| uncached_reads := uncached_reads r; uncached_writes := uncached_writes r;
     cached_reads := cached_reads r; cached_writes := cached_writes r |}.

Record DiskSchedulerStats := {
  ds_batches : Z; ds_requests : Z; ds_reordered_requests : Z; ds_max_batch_depth : Z; ds_last_lba : Z
}.
Definition no_sched : DiskSchedulerStats := Build_DiskSchedulerStats 0 0 0 0 0.
#[export] Instance DiskSchedulerStats_fields : Fields DiskSchedulerStats := fun r =>
  {| ds_batches := ds_batches r; ds_requests := ds_requests r; ds_reordered_requests := ds_reordered_requests r;
     ds_max_batch_depth := ds_max_batch_depth r; ds_last_lba := ds_last_lba r |}.

(** The static variables of the file and the hardware. *)
Record DiskState (H : Type) := {
  ata_disk_available : Z; disk_preferred_backend : Z; disk_io_stats : DiskIoStats;
  disk_sched_stats : DiskSchedulerStats; disk_read_errors : Z; disk_write_errors : Z; disk_last_error : Z;
  disk_hw : H
}.
Arguments ata_disk_available {H} _.
Arguments disk_preferred_backend {H} _.
Arguments disk_io_stats {H} _.
Arguments disk_sched_stats {H} _.
Arguments disk_read_errors {H} _.
Arguments disk_write_errors {H} _.
Arguments disk_last_error {H} _.
Arguments disk_hw {H} _.
#[export] Instance DiskState_fields H : Fields (DiskState H) := fun r =>
  {| ata_disk_available := ata_disk_available r; disk_preferred_backend := disk_preferred_backend r;
     disk_io_stats := disk_io_stats r; disk_sched_stats := disk_sched_stats r;
     disk_read_errors := disk_read_errors r; disk_write_errors := disk_write_errors r;
     disk_last_error := disk_last_error r; disk_hw := disk_hw r |}.

Section Disk.
Context {H : Type} `{DiskHw H}.

(** A call on the hardware only. *)
Definition hw {A} (m : ST H A) : ST (DiskState H) A := fun s =>
  let '(h, a) := m (disk_hw s) in (s <| disk_hw := h |>, a).

(** ** Counters *)

Definition disk_note_error (rc : Z) (is_write : bool) : ST (DiskState H) unit :=
  if rc =? DISK_IO_OK then mret tt
  else modify (fun s =>
    let s := s <| disk_last_error := rc |> in
    if is_write then s <| disk_write_errors := disk_write_errors s +u 1 |>
    else s <| disk_read_errors := disk_read_errors s +u 1 |>).

Definition disk_get_io_stats : ST (DiskState H) DiskIoStats := s ← get; mret (disk_io_stats s).

Definition disk_reset_io_stats : ST (DiskState H) unit :=
  modify (fun s => s <| disk_io_stats := no_io |> <| disk_read_errors := 0 |>
                     <| disk_write_errors := 0 |> <| disk_last_error := DISK_IO_OK |>).

Definition disk_get_scheduler_stats : ST (DiskState H) DiskSchedulerStats := s ← get; mret (disk_sched_stats s).
Definition disk_reset_scheduler_stats : ST (DiskState H) unit :=
  modify (fun s => s <| disk_sched_stats := no_sched |>).

Definition disk_set_preferred_backend (backend : Z) : ST (DiskState H) unit :=
  let backend := if negb (backend =? DISK_BACKEND_AUTO) && negb (backend =? DISK_BACKEND_ATA) &&
                    negb (backend =? DISK_BACKEND_AHCI) then DISK_BACKEND_AUTO else backend in
  modify (fun s => s <| disk_preferred_backend := backend |>).
Definition disk_get_preferred_backend : ST (DiskState H) Z := s ← get; mret (disk_preferred_backend s).

(** ** ATA in programmed input/output *)

(** Polling that gives up after [n] reads of the status. *)
Fixpoint wait_status (ready : Z -> bool) (n : nat) : ST H unit :=
  match n with
  | O => mret tt
  | S n' =>
      status ← inb PORT_COMMAND;
      match n' with
      | O => mret tt
      | _ => if ready status then mret tt else wait_status ready n'
      end
  end.

Definition ATA_TIMEOUT : Z := 500000.

Definition ata_wait_ready : ST H unit :=
  wait_status (fun status => negb (has_flag status STATUS_BSY || negb (has_flag status STATUS_RDY))) (Z.to_nat ATA_TIMEOUT).
Definition ata_wait_drq : ST H unit := wait_status (fun status => has_flag status 0x08) (Z.to_nat ATA_TIMEOUT).

(** [false] for a status that ends the call, else the polls left; 0 is a timeout. *)
Fixpoint ata_poll (failed ready : Z -> bool) (n : nat) : ST H (option nat) :=
  match n with
  | O => mret (Some O)
  | S n' =>
      status ← inb PORT_COMMAND;
      if failed status then mret None
      else if ready status then mret (Some n)
      else ata_poll failed ready n'
  end.

(** The registers of a one-sector transfer. *)
Definition ata_select (lba : Z) : ST H unit :=
  _ ← outb PORT_DEVICE (Z.lor 0xE0 (Z.land (Z.shiftr lba 24) 0x0F));
  _ ← outb PORT_SECCOUNT 1;
  _ ← outb PORT_LBA_LOW (u8 (Z.land lba 0xFF));
  _ ← outb PORT_LBA_MID (u8 (Z.land (Z.shiftr lba 8) 0xFF));
  outb PORT_LBA_HIGH (u8 (Z.land (Z.shiftr lba 16) 0xFF)).

Fixpoint read_words (n : nat) : ST H (list Z) :=
  match n with
  | O => mret []
  | S n' => w ← inw PORT_DATA; ws ← read_words n'; mret (w :: ws)
  end.

Fixpoint write_words (ws : list Z) : ST H unit :=
  match ws with
  | [] => mret tt
  | w :: ws' => _ ← outw PORT_DATA w; write_words ws'
  end.

Definition ata_read_sector_ex (lba : Z) (buffer : option (list Z)) : ST (DiskState H) (Z * option (list Z)) :=
  s ← get;
  match buffer with
  | None => mret (DISK_IO_ERR_NO_DEVICE, buffer)
  | Some _ =>
      if ata_disk_available s =? 0 then mret (DISK_IO_ERR_NO_DEVICE, buffer)
      else
        r ← hw (ata_poll (fun status => status =? 0xFF) (fun status => negb (has_flag status STATUS_BSY))
                  (Z.to_nat ATA_TIMEOUT));
        match r with
        | None => mret (DISK_IO_ERR_NO_DEVICE, buffer)
        | Some O => mret (DISK_IO_ERR_TIMEOUT, buffer)
        | Some timeout =>
            _ ← hw (ata_select lba);
            _ ← hw (outb PORT_COMMAND CMD_READ);
            r ← hw (ata_poll (fun status => has_flag status 0x01) (fun status => has_flag status 0x08) timeout);
            match r with
            | None => mret (DISK_IO_ERR_NO_DEVICE, buffer)
            | Some O => mret (DISK_IO_ERR_TIMEOUT, buffer)
            | Some _ => ws ← hw (read_words sector_words); mret (DISK_IO_OK, Some ws)
            end
        end
  end.

Definition ata_write (lba : Z) (buffer : list Z) : ST H unit :=
  _ ← ata_wait_ready;
  _ ← ata_select lba;
  _ ← outb PORT_COMMAND CMD_WRITE;
  _ ← ata_wait_drq;
  _ ← write_words buffer;
  _ ← outb PORT_COMMAND 0xE7;
  ata_wait_ready.

(** The detection loop: at most [n] reads of the status. *)
Fixpoint detect_loop (n : nat) : ST H Z :=
  match n with
  | O => mret 0
  | S n' =>
      status ← inb PORT_COMMAND;
      if negb (has_flag status STATUS_BSY) then
        _ ← outb PORT_LBA_LOW 0xAB;
        val ← inb PORT_LBA_LOW;
        if val =? 0xAB then _ ← outb PORT_LBA_LOW 0; mret 1 else mret 0
      else detect_loop n'
  end.

Definition ata_detect_disk : ST H Z :=
  _ ← outb PORT_CONTROL 0x02;
  status ← inb PORT_COMMAND;
  if status =? 0xFF then mret 0 else detect_loop (Z.to_nat 200000).

(** ** AHCI with retries *)

Inductive attempt := ATaken | ANextPort | AFailed.

Fixpoint ahci_attempts {B} (io : Z -> B -> ST H (Z * B)) (port : Z) (n : nat) (b : B) : ST H (attempt * B) :=
  match n with
  | O => mret (ANextPort, b)
  | S n' =>
      '(rc, b) ← io port b;
      if rc =? AHCI_READ_OK then mret (ATaken, b)
      else if (rc =? AHCI_READ_ERR_TIMEOUT) || (rc =? AHCI_READ_ERR_TFES) then
        _ ← ahci_port_reset_and_start port;
        ahci_attempts io port n' b
      else if rc =? AHCI_READ_ERR_NO_READY_PORT then mret (ANextPort, b)
      else mret (AFailed, b)
  end.

Fixpoint ahci_ports {B} (io : Z -> B -> ST H (Z * B)) (ports : list AhciPortReport) (port n : nat) (b : B) : ST H (Z * B) :=
  match n with
  | O => mret (DISK_IO_ERR_NO_READY_PORT, b)
  | S n' =>
      let p := ports !!! port in
      if (ap_implemented p =? 0) || (ap_ready p =? 0) || (ap_sata p =? 0) then ahci_ports io ports (S port) n' b
      else
        '(r, b) ← ahci_attempts io (Z.of_nat port) DISK_READ_RETRY_COUNT b;
        match r with
        | ATaken => mret (DISK_IO_OK, b)
        | AFailed => mret (DISK_IO_ERR_NO_DEVICE, b)
        | ANextPort => ahci_ports io ports (S port) n' b
        end
  end.

Definition ahci_sector_ex {B} (io : Z -> B -> ST H (Z * B)) (b : B) : ST H (Z * B) :=
  report ← ahci_get_runtime_report;
  match report with
  | Some r =>
      if (ar_controller_found r =? 0) || (ar_ready_ports r =? 0) then mret (DISK_IO_ERR_NO_READY_PORT, b)
      else ahci_ports io (ar_ports r) 0 AHCI_MAX_PORTS b
  | None => mret (DISK_IO_ERR_NO_READY_PORT, b)
  end.

Definition ahci_read_sector_ex (lba : Z) (buffer : option (list Z)) : ST H (Z * option (list Z)) :=
  match buffer with
  | None => mret (DISK_IO_ERR_UNSUPPORTED, None)
  | Some buf => '(rc, buf) ← ahci_sector_ex (fun port buf => ahci_read_sector port lba buf) buf; mret (rc, Some buf)
  end.

Definition ahci_write_sector_ex (lba : Z) (buffer : list Z) : ST H Z :=
  '(rc, _) ← ahci_sector_ex (fun port (_ : unit) => rc ← ahci_write_sector port lba buffer; mret (rc, tt)) tt; mret rc.

Fixpoint reset_first (ports : list AhciPortReport) (port n : nat) : ST H bool :=
  match n with
  | O => mret false
  | S n' =>
      if ap_implemented (ports !!! port) =? 0 then reset_first ports (S port) n'
      else
        ok ← ahci_port_reset_and_start (Z.of_nat port);
        if (ok : bool) then mret true else reset_first ports (S port) n'
  end.

Definition ahci_reset_first_available_port : ST H bool :=
  report ← ahci_get_runtime_report;
  match report with
  | Some r =>
      if (ar_controller_found r =? 0) || (ar_implemented_ports r =? 0) then mret false
      else reset_first (ar_ports r) 0 AHCI_MAX_PORTS
  | None => mret false
  end.

(** ** The calls without cache *)

Definition bump_uncached_reads : ST (DiskState H) unit :=
  modify (fun s => s <| disk_io_stats ::= fun st => st <| uncached_reads := uncached_reads st +u 1 |> |>).
Definition bump_uncached_writes : ST (DiskState H) unit :=
  modify (fun s => s <| disk_io_stats ::= fun st => st <| uncached_writes := uncached_writes st +u 1 |> |>).

Definition is_reset_error (rc : Z) : bool := (rc =? DISK_IO_ERR_TIMEOUT) || (rc =? DISK_IO_ERR_TFES).

(** One AHCI transfer, and a second one after a reset if it was stuck. *)
Definition ahci_with_reset {B} (io : B -> ST H (Z * B)) (b : B) : ST H (Z * B) :=
  '(rc, b) ← io b;
  if rc =? DISK_IO_OK then mret (rc, b)
  else if is_reset_error rc then _ ← ahci_reset_first_available_port; io b
  else mret (rc, b).

Definition ahci_write_retry (lba : Z) (buffer : list Z) : ST H Z :=
  '(rc, _) ← ahci_with_reset (fun _ : unit => rc ← ahci_write_sector_ex lba buffer; mret (rc, tt)) tt; mret rc.

Definition disk_write_sector_uncached (lba : Z) (buffer : option (list Z)) : ST (DiskState H) unit :=
  _ ← bump_uncached_writes;
  match buffer with
  | None => disk_note_error DISK_IO_ERR_UNSUPPORTED true
  | Some buf =>
      s ← get;
      let ahci := (disk_preferred_backend s =? DISK_BACKEND_AHCI) || (disk_preferred_backend s =? DISK_BACKEND_AUTO) in
      rc ← (if ahci then hw (ahci_write_retry lba buf) else mret DISK_IO_OK);
      if ahci && (rc =? DISK_IO_OK) then mret tt
      else if ata_disk_available s =? 0
      then disk_note_error (if rc =? DISK_IO_OK then DISK_IO_ERR_NO_DEVICE else rc) true
      else hw (ata_write lba buf)
  end.

Definition disk_read_sector_backend (lba : Z) (buffer : option (list Z)) (backend : Z) : ST (DiskState H) (Z * option (list Z)) :=
  if backend =? DISK_BACKEND_ATA then ata_read_sector_ex lba buffer
  else if backend =? DISK_BACKEND_AHCI then hw (ahci_read_sector_ex lba buffer)
  else mret (DISK_IO_ERR_UNSUPPORTED, buffer).

(** Up to [n] ATA reads; [rc] is the result so far. *)
Fixpoint ata_retries (lba : Z) (n : nat) (rc : Z) (buffer : option (list Z)) : ST (DiskState H) (Z * option (list Z)) :=
  match n with
  | O => mret (rc, buffer)
  | S n' =>
      '(rc, buffer) ← ata_read_sector_ex lba buffer;
      if rc =? DISK_IO_OK then mret (rc, buffer) else ata_retries lba n' rc buffer
  end.

Definition disk_read_sector_uncached (lba : Z) (buffer : option (list Z)) : ST (DiskState H) (Z * option (list Z)) :=
  _ ← bump_uncached_reads;
  s ← get;
  '(rc, buffer) ←
    (if disk_preferred_backend s =? DISK_BACKEND_ATA then ata_read_sector_ex lba buffer
     else if disk_preferred_backend s =? DISK_BACKEND_AHCI then hw (ahci_read_sector_ex lba buffer)
     else
       '(rc, buffer) ← hw (ahci_with_reset (ahci_read_sector_ex lba) buffer);
       if (rc =? DISK_IO_OK) || (ata_disk_available s =? 0) then mret (rc, buffer)
       else ata_retries lba DISK_READ_RETRY_COUNT DISK_IO_ERR_TIMEOUT buffer);
  _ ← disk_note_error rc false;
  mret (rc, buffer).

Definition disk_read_sector_ex : Z -> option (list Z) -> ST (DiskState H) (Z * option (list Z)) := disk_read_sector_uncached.

(** The driver is a sector device for the page cache and the file systems. *)
#[export] Instance DiskState_BlockDev : BlockDev (DiskState H) := {
  dev_read lba buf s := let '(s, (rc, b)) := disk_read_sector_uncached lba (Some buf) s in (s, rc, default buf b);
  dev_write lba buf s := fst (disk_write_sector_uncached lba (Some buf) s)
}.

(** ** Reports *)

(** [copy_text]: at most [cap - 1] characters. *)
Definition copy_text (cap : Z) (src : list Z) : list Z := take (Z.to_nat (cap - 1)) src.

Record DiskGeometryInfo := {
  dg_total_sectors_low : Z; dg_total_sectors_high : Z; dg_sector_size : Z; dg_backend : Z; dg_model : list Z
}.

(** "ATA-LEGACY" and "NO-DISK". *)
Definition ata_legacy : list Z := [65; 84; 65; 45; 76; 69; 71; 65; 67; 89].
Definition no_disk : list Z := [78; 79; 45; 68; 73; 83; 75].

Definition identified : ST (DiskState H) (option AhciIdentifyInfo) :=
  r ← hw ahci_identify_first_ready;
  mret (match r with Some i => if id_success i =? 0 then None else Some i | None => None end).

Definition disk_get_geometry : ST (DiskState H) (Z * DiskGeometryInfo) :=
  s ← get;
  info ← identified;
  mret (match info with
        | Some i => (1, Build_DiskGeometryInfo (id_lba48_sectors_low i) (id_lba48_sectors_high i) 512
                          DISK_BACKEND_AHCI (copy_text 41 (id_model i)))
        | None =>
            if negb (ata_disk_available s =? 0)
            then (1, Build_DiskGeometryInfo 0 0 512 DISK_BACKEND_ATA (copy_text 41 ata_legacy))
            else (0, Build_DiskGeometryInfo 0 0 512 (disk_preferred_backend s) (copy_text 41 no_disk))
        end).

Record DiskHealthInfo := {
  dh_available : Z; dh_backend : Z; dh_preferred_backend : Z; dh_ahci_ready_ports : Z; dh_smart_supported : Z;
  dh_smart_enabled : Z; dh_temperature_c : Z; dh_life_percent : Z; dh_read_error_count : Z;
  dh_write_error_count : Z; dh_last_error_code : Z
}.
#[export] Instance DiskHealthInfo_fields : Fields DiskHealthInfo := fun r =>
  {| dh_available := dh_available r; dh_backend := dh_backend r; dh_preferred_backend := dh_preferred_backend r;
     dh_ahci_ready_ports := dh_ahci_ready_ports r; dh_smart_supported := dh_smart_supported r;
     dh_smart_enabled := dh_smart_enabled r; dh_temperature_c := dh_temperature_c r;
     dh_life_percent := dh_life_percent r; dh_read_error_count := dh_read_error_count r;
     dh_write_error_count := dh_write_error_count r; dh_last_error_code := dh_last_error_code r |}.

Definition disk_get_health : ST (DiskState H) (Z * DiskHealthInfo) :=
  s ← get;
  let out := Build_DiskHealthInfo 0 DISK_BACKEND_AUTO (disk_preferred_backend s) 0 0 0 0 100
               (disk_read_errors s) (disk_write_errors s) (u32 (disk_last_error s)) in
  report ← hw ahci_get_runtime_report;
  let out := match report with
             | Some r =>
                 if ar_controller_found r =? 0 then out
                 else
                   let out := out <| dh_ahci_ready_ports := ar_ready_ports r |> in
                   if 0 <? ar_ready_ports r
                   then out <| dh_available := 1 |> <| dh_backend := DISK_BACKEND_AHCI |> else out
             | None => out
             end in
  info ← identified;
  let out := match info with
             | Some i =>
                 out <| dh_available := 1 |> <| dh_backend := DISK_BACKEND_AHCI |>
                     <| dh_smart_supported := Z.b2z (negb (id_smart_supported i =? 0)) |>
                     <| dh_smart_enabled := Z.b2z (negb (id_smart_enabled i =? 0)) |>
             | None =>
                 if ata_disk_available s =? 0 then out
                 else
                   let out := out <| dh_available := 1 |> in
                   if dh_backend out =? DISK_BACKEND_AUTO then out <| dh_backend := DISK_BACKEND_ATA |> else out
             end in
  mret (Z.b2z (negb (dh_available out =? 0)), out).
End Disk.

(** ** The batch scheduler *)

Record DiskBatchRequest := { br_lba : Z; br_buffer : option (list Z); br_write : Z; br_result : Z }.
#[export] Instance DiskBatchRequest_fields : Fields DiskBatchRequest := fun r =>
  {| br_lba := br_lba r; br_buffer := br_buffer r; br_write := br_write r; br_result := br_result r |}.

Section Batch.
Context {D : Type} `{BlockDev D}.

(** The first loop: results preset, and [order[i] = i] for the requests that have a
    buffer; the other cells of the array keep what the stack held. *)
Fixpoint batch_prepare (i n : nat) (reqs : list DiskBatchRequest) (order : list Z) : option (list DiskBatchRequest * list Z) :=
  match n with
  | O => Some (reqs, order)
  | S n' =>
      r ← reqs !! i;
      let reqs := <[i := r <| br_result := DISK_IO_ERR_UNSUPPORTED |>]> reqs in
      let order := match br_buffer r with None => order | Some _ => <[i := Z.of_nat i]> order end in
      batch_prepare (S i) n' reqs order
  end.

(** The inner loop of the sort, with [j] counting down; an index outside the array of
    requests is undefined behaviour. *)
Fixpoint batch_shift (reqs : list DiskBatchRequest) (key : Z) (j : nat) (order : list Z) : option (list Z * nat) :=
  match j with
  | O => Some (order, O)
  | S j' =>
      o ← order !! j';
      a ← reqs !! Z.to_nat o;
      b ← reqs !! Z.to_nat key;
      if br_lba b <? br_lba a then batch_shift reqs key j' (<[j := o]> order) else Some (order, j)
  end.

Fixpoint batch_sort (reqs : list DiskBatchRequest) (i n : nat) (order : list Z) : option (list Z) :=
  match n with
  | O => Some order
  | S n' =>
      key ← order !! i;
      '(order, j) ← batch_shift reqs key i order;
      batch_sort reqs (S i) n' (<[j := key]> order)
  end.

(** The last loop: the requests in the order of the array. *)
Fixpoint batch_run (order : list Z) (pos n : nat) (reqs : list DiskBatchRequest) (st : DiskSchedulerStats)
    (processed : Z) (d : D) : option (D * list DiskBatchRequest * DiskSchedulerStats * Z) :=
  match n with
  | O => Some (d, reqs, st, processed)
  | S n' =>
      idx ← order !! pos;
      r ← reqs !! Z.to_nat idx;
      match br_buffer r with
      | None => batch_run order (S pos) n' reqs st processed d
      | Some buf =>
          let '(d, rc, buf) := if negb (br_write r =? 0) then (dev_write (br_lba r) buf d, DISK_IO_OK, buf)
                               else dev_read (br_lba r) buf d in
          let reqs := <[Z.to_nat idx := r <| br_buffer := Some buf |> <| br_result := rc |>]> reqs in
          let st := st <| ds_last_lba := br_lba r |> in
          let st := if idx =? Z.of_nat pos then st
                    else st <| ds_reordered_requests := ds_reordered_requests st +u 1 |> in
          batch_run order (S pos) n' reqs st (processed +u 1) d
      end
  end.

(** [stack] is what the uninitialised array of 64 indices holds; [None] is undefined
    behaviour. *)
Definition disk_process_batch (stack : list Z) (reqs : option (list DiskBatchRequest)) (count : Z)
    (st : DiskSchedulerStats) (d : D) : option (D * option (list DiskBatchRequest) * DiskSchedulerStats * Z) :=
  match reqs with
  | None => Some (d, None, st, 0)
  | Some rs =>
      if count =? 0 then Some (d, reqs, st, 0)
      else
        let count := if 64 <? count then 64 else count in
        let n := Z.to_nat count in
        '(rs, order) ← batch_prepare 0 n rs stack;
        order ← batch_sort rs 1 (n - 1) order;
        '(d, rs, st, processed) ← batch_run order 0 n rs st 0 d;
        let st := st <| ds_batches := ds_batches st +u 1 |> <| ds_requests := ds_requests st +u processed |> in
        let st := if ds_max_batch_depth st <? count then st <| ds_max_batch_depth := count |> else st in
        Some (d, Some rs, st, i32 processed)
  end.
End Batch.

(** ** The cached calls *)

(** The page cache over a device, with the counters of the cached calls. *)
Record CachedDisk (D : Type) := { cd_cache : CacheState D; cd_reads : Z; cd_writes : Z }.
Arguments cd_cache {D} _.
Arguments cd_reads {D} _.
Arguments cd_writes {D} _.

Section Cached.
Context {D : Type} `{BlockDev D}.

Definition disk_read_sector (lba : Z) (buffer : list Z) : ST (CachedDisk D) (list Z) := fun s =>
  let '(c, _, buf) := page_cache_read_sector lba (Some buffer) (cd_cache s) in
  ({| cd_cache := c; cd_reads := cd_reads s +u 1; cd_writes := cd_writes s |}, default buffer buf).

Definition disk_write_sector (lba : Z) (buffer : list Z) : ST (CachedDisk D) unit := fun s =>
  let '(c, _) := page_cache_write_sector lba (Some buffer) (cd_cache s) in
  ({| cd_cache := c; cd_reads := cd_reads s; cd_writes := cd_writes s +u 1 |}, tt).
End Cached.

(** ** Error accounting *)

Section Errors.
Context {H : Type} `{DiskHw H}.
Implicit Types s : DiskState H.

(** Nothing but the hardware has changed. *)
Definition hw_only s s' : Prop := exists h, s' = s <| disk_hw := h |>.

Lemma hw_only_refl s : hw_only s s.
Proof. exists (disk_hw s). by destruct s. Qed.

Lemma hw_only_trans s1 s2 s3 : hw_only s1 s2 -> hw_only s2 s3 -> hw_only s1 s3.
Proof. intros [h1 ->] [h2 ->]. by exists h2. Qed.

Lemma wp_hw {A} (m : ST H A) Q s : (forall h a, m (disk_hw s) = (h, a) -> Q (s <| disk_hw := h |>) a) -> wp (hw m) Q s.
Proof. unfold wp, hw. intros HQ. destruct (m (disk_hw s)) as [h a] eqn:E. by apply HQ. Qed.

(** A result code and a buffer that is still there. *)
Definition io_code (rc : Z) : Prop :=
  rc = DISK_IO_OK \/ rc = DISK_IO_ERR_NO_DEVICE \/ rc = DISK_IO_ERR_NO_READY_PORT \/ rc = DISK_IO_ERR_TIMEOUT.
Definition io_result (buffer : option (list Z)) (r : Z * option (list Z)) : Prop :=
  io_code r.1 /\ (is_Some buffer -> is_Some r.2).

Lemma ata_read_result lba buffer s : is_Some buffer ->
  wp (ata_read_sector_ex lba buffer) (fun s' r => hw_only s s' /\ io_result buffer r) s.
Proof.
  intros [buf ->]. unfold ata_read_sector_ex. generalize (Z.to_nat ATA_TIMEOUT) as polls. intros polls. apply wp_get. unfold io_result, io_code. simpl.
  destruct (ata_disk_available s =? 0); [by apply wp_ret; auto 8 using hw_only_refl|].
  apply wp_bind, wp_hw. intros h1 [[|n]|] _; [apply wp_ret; split; [by exists h1|auto 8]| |apply wp_ret; split; [by exists h1|auto 8]].
  do 2 (apply wp_bind, wp_hw; intros ? _ _).
  apply wp_bind, wp_hw. intros h2 [[|m]|] _.
  - apply wp_ret. split; [by eexists|auto 8].
  - apply wp_bind, wp_hw. intros h3 ws _. apply wp_ret. split; [by eexists|]. split; [auto|by eexists].
  - apply wp_ret. split; [by eexists|auto 8].
Qed.

(** The AHCI path never reports a timeout of its own: a stuck port counts as not ready. *)
Lemma ahci_ports_code {B} (io : Z -> B -> ST H (Z * B)) ports n : forall port b h,
  io_code (snd (ahci_ports io ports port n b h)).1.
Proof.
  unfold io_code. induction n as [|n IH]; intros port b h; cbn [ahci_ports]; [simpl; auto|]. destruct (_ || _); [apply IH|].
  unfold mbind, ST_bind. destruct (ahci_attempts io (Z.of_nat port) DISK_READ_RETRY_COUNT b h) as [h' [[] b']]; simpl; auto.
Qed.

Lemma ahci_sector_code {B} (io : Z -> B -> ST H (Z * B)) b h : io_code (snd (ahci_sector_ex io b h)).1.
Proof.
  unfold ahci_sector_ex, mbind, ST_bind, io_code. destruct (ahci_get_runtime_report h) as [h' [r|]]; [|simpl; auto].
  destruct (_ || _); [simpl; auto|]. apply ahci_ports_code.
Qed.

Lemma ahci_read_result lba buf h : io_result (Some buf) (snd (ahci_read_sector_ex lba (Some buf) h)).
Proof.
  unfold ahci_read_sector_ex, mbind, ST_bind, io_result. set (io := fun _ _ => _).
  pose proof (ahci_sector_code io buf h) as Hc. destruct (ahci_sector_ex io buf h) as [h' [rc b]]. simpl in *.
  split; [done|by eexists].
Qed.

Lemma ahci_retry_result lba buf h : io_result (Some buf) (snd (ahci_with_reset (ahci_read_sector_ex lba) (Some buf) h)).
Proof.
  unfold ahci_with_reset, mbind, ST_bind. pose proof (ahci_read_result lba buf h) as Hr.
  destruct (ahci_read_sector_ex lba (Some buf) h) as [h' [rc b]]. simpl in Hr.
  case_match; [done|]. case_match; [|done]. destruct (ahci_reset_first_available_port h') as [h2 ok].
  destruct Hr as [_ Hr]. simpl in Hr. destruct Hr as [b' ->]; [by eexists|].
  destruct (ahci_read_result lba b' h2) as [Hc2 Hb2]. split; [done|]. intros _. apply Hb2. by eexists.
Qed.

Lemma ata_retries_result lba n : forall rc buffer s, io_code rc -> is_Some buffer ->
  wp (ata_retries lba n rc buffer) (fun s' r => hw_only s s' /\ io_result buffer r) s.
Proof.
  induction n as [|n IH]; intros rc buffer s Hrc Hb; cbn [ata_retries].
  - apply wp_ret. split; [apply hw_only_refl|]. by split.
  - eapply wp_seq; [by apply ata_read_result|]. intros s' [rc' b'] [Hs [Hrc' Hb']]. simpl in *.
    case_match; [by apply wp_ret|]. eapply wp_mono; [by apply IH; auto|]. simpl.
    intros s2 r [Hs2 [Hr2 Hb2]]. split; [by eapply hw_only_trans|]. split; auto.
Qed.

(** an uncached read always ends with one of the result codes of the driver and a
    buffer, whatever the controllers answer.  It counts as one read, and as one read
    error, remembered as the last error, exactly when it fails; the other counters, the
    choice of the controller and the batch statistics stay. *)
Theorem disk_read_sector_uncached_accounts lba buf s :
  let '(s', (rc, buf')) := disk_read_sector_uncached lba (Some buf) s in
  io_code rc /\ is_Some buf' /\
  uncached_reads (disk_io_stats s') = u32 (uncached_reads (disk_io_stats s) + 1) /\
  uncached_writes (disk_io_stats s') = uncached_writes (disk_io_stats s) /\
  disk_read_errors s' = (if rc =? DISK_IO_OK then disk_read_errors s else u32 (disk_read_errors s + 1)) /\
  disk_last_error s' = (if rc =? DISK_IO_OK then disk_last_error s else rc) /\
  disk_write_errors s' = disk_write_errors s /\ disk_sched_stats s' = disk_sched_stats s /\
  disk_preferred_backend s' = disk_preferred_backend s /\ ata_disk_available s' = ata_disk_available s.
Proof.
  set (Q := fun (s' : DiskState H) (r : Z * option (list Z)) => io_code r.1 /\ is_Some r.2 /\
    uncached_reads (disk_io_stats s') = u32 (uncached_reads (disk_io_stats s) + 1) /\
    uncached_writes (disk_io_stats s') = uncached_writes (disk_io_stats s) /\
    disk_read_errors s' = (if r.1 =? DISK_IO_OK then disk_read_errors s else u32 (disk_read_errors s + 1)) /\
    disk_last_error s' = (if r.1 =? DISK_IO_OK then disk_last_error s else r.1) /\
    disk_write_errors s' = disk_write_errors s /\ disk_sched_stats s' = disk_sched_stats s /\
    disk_preferred_backend s' = disk_preferred_backend s /\ ata_disk_available s' = ata_disk_available s).
  assert (wp (disk_read_sector_uncached lba (Some buf)) Q s) as Hw.
  { unfold disk_read_sector_uncached. apply wp_bind, wp_modify, wp_get.
    set (s1 := s <| disk_io_stats ::= _ |>).
    eapply wp_seq with (R := fun s' r => hw_only s1 s' /\ io_result (Some buf) r).
    - assert (is_Some (Some buf)) as Hb by by eexists.
      case_match; [by apply ata_read_result|]. case_match.
      { apply wp_hw. intros h r E. split; [by exists h|]. pose proof (ahci_read_result lba buf (disk_hw s1)) as Hr.
        by rewrite E in Hr. }
      apply wp_bind, wp_hw. intros h [rc b] E. pose proof (ahci_retry_result lba buf (disk_hw s1)) as Hr.
      rewrite E in Hr. case_match; [apply wp_ret; split; [by exists h|done]|].
      destruct Hr as [_ Hr]. eapply wp_mono; [apply ata_retries_result; [unfold io_code; auto|by apply Hr]|]. simpl.
      intros s2 r [Hs2 [Hc Hr2]]. split; [eapply hw_only_trans; [by exists h|done]|]. split; auto.
    - intros s' [rc b] [[h ->] [Hc Hb]]. simpl in Hc, Hb. apply wp_bind. unfold disk_note_error.
      subst Q. cbv beta. destruct (rc =? DISK_IO_OK) eqn:E.
      + do 2 apply wp_ret. simpl. rewrite E. split_and!; done || by apply Hb.
      + apply wp_modify, wp_ret. simpl. rewrite E. split_and!; done || by apply Hb. }
  unfold wp in Hw. destruct (disk_read_sector_uncached lba (Some buf) s) as [s' [rc b]]. exact Hw.
Qed.
End Errors.
