(* ===== verification/DiskBatch.v ===== *)
(** * The batch scheduler keeps the order that matters

    [disk_process_batch] sorts its requests by sector before it sends them.  The sort
    is stable, requests for different sectors commute, and so a batch does what the
    requests do one after the other. *)
From Stdlib Require Import Sorted.
From S2P Require Import Prelude BlockDev Disk.

#[export] Instance DiskBatchRequest_inh : Inhabited DiskBatchRequest :=
  populate (Build_DiskBatchRequest 0 None 0 0).

(** ** Serving requests in the order they were made *)

Definition content_upd (v : Z -> list Z) (q : Z) (b : list Z) : Z -> list Z :=
  fun q' => if q =? q' then b else v q'.

(** One request on the sectors [v]. *)
Definition serve1 (r : DiskBatchRequest) (v : Z -> list Z) : (Z -> list Z) * DiskBatchRequest :=
  if negb (br_write r =? 0)
  then (content_upd v (br_lba r) (default [] (br_buffer r)), r <| br_result := DISK_IO_OK |>)
  else (v, r <| br_buffer := Some (v (br_lba r)) |> <| br_result := DISK_IO_OK |>).

Fixpoint serve (rs : list DiskBatchRequest) (v : Z -> list Z) : (Z -> list Z) * list DiskBatchRequest :=
  match rs with
  | [] => (v, [])
  | r :: rs' => let '(v, r) := serve1 r v in let '(v, out) := serve rs' v in (v, r :: out)
  end.

Definition has_sector (r : DiskBatchRequest) : Prop := exists b, br_buffer r = Some b /\ is_sector b.

(** ** The stable sort *)

Section Sort.
Context (reqs : list DiskBatchRequest).
Definition key_of (k : nat) : Z := br_lba (reqs !!! k).

(** Insertion into the reversed order. *)
Fixpoint ins (key : nat) (r : list nat) : list nat :=
  match r with
  | [] => [key]
  | o :: r' => if key_of key <? key_of o then o :: ins key r' else key :: o :: r'
  end.

Definition cells (r : list nat) : list Z := map Z.of_nat (rev r).

Lemma cells_cons o r : cells (o :: r) = cells r ++ [Z.of_nat o].
Proof. unfold cells. simpl. by rewrite map_app. Qed.

Lemma cells_length r : length (cells r) = length r.
Proof. unfold cells. by rewrite length_map, length_rev. Qed.

Lemma shift_ok key r : (key < length reqs)%nat -> Forall (fun k => (k < length reqs)%nat) r ->
  forall x rest, exists order' j,
    batch_shift reqs (Z.of_nat key) (length r) (cells r ++ x :: rest) = Some (order', j) /\
    <[j := Z.of_nat key]> order' = cells (ins key r) ++ rest.
Proof.
  intros Hk Hr. induction Hr as [|o r Ho Hr IH]; intros x rest; [by exists (x :: rest), O|].
  cbn [batch_shift length ins]. rewrite cells_cons, <- app_assoc. simpl.
  rewrite lookup_app_r by (rewrite cells_length; lia). rewrite cells_length, Nat.sub_diag. simpl.
  rewrite !Nat2Z.id, !(lookup_total_Some reqs) by done. simpl. fold (key_of o) (key_of key).
  destruct (key_of key <? key_of o).
  - rewrite insert_app_r_alt by (rewrite cells_length; lia).
    rewrite cells_length. replace (S (length r) - length r)%nat with 1%nat by lia. simpl.
    destruct (IH (Z.of_nat o) (Z.of_nat o :: rest)) as (order' & j & -> & Hj).
    exists order', j. split; [done|]. by rewrite Hj, cells_cons, <- app_assoc.
  - eexists _, _. split; [done|]. rewrite insert_app_r_alt by (rewrite cells_length; lia).
    rewrite cells_length. replace (S (length r) - length r)%nat with 1%nat by lia. simpl.
    by rewrite !cells_cons, <- !app_assoc.
Qed.

Lemma ins_perm key r : Permutation (ins key r) (key :: r).
Proof. induction r as [|o r IH]; simpl; [done|]. case_match; [|done]. rewrite IH. constructor. Qed.

(** Entries of one sector keep their order. *)
Lemma ins_filter q key r :
  filter (fun k => key_of k = q) (ins key r) = filter (fun k => key_of k = q) (key :: r).
Proof.
  induction r as [|o r IH]; [done|]. cbn [ins]. destruct (Z.ltb_spec (key_of key) (key_of o)); [|done].
  rewrite !filter_cons, IH, filter_cons. repeat case_decide; done || lia.
Qed.

(** The reversed order is descending. *)
Lemma ins_sorted key r : StronglySorted (fun a b => key_of b <= key_of a) r ->
  StronglySorted (fun a b => key_of b <= key_of a) (ins key r).
Proof.
  induction 1 as [|o r Hs IH Ho]; cbn [ins]; [by repeat constructor|].
  destruct (Z.ltb_spec (key_of key) (key_of o)).
  - constructor; [done|]. rewrite ins_perm. constructor; [lia|done].
  - constructor; [by constructor|]. constructor; [done|]. eapply Forall_impl; [|exact Ho]. simpl. lia.
Qed.

Definition sorted_rev (l : list nat) : list nat := fold_left (fun r k => ins k r) l [].

Lemma sort_ok n : forall i r rest, Forall (fun k => (k < length reqs)%nat) r -> length r = i ->
  (i + n <= length reqs)%nat ->
  batch_sort reqs i n (cells r ++ map Z.of_nat (seq i n) ++ rest) =
  Some (cells (fold_left (fun r k => ins k r) (seq i n) r) ++ rest).
Proof.
  induction n as [|n IH]; intros i r rest Hr Hi Hn; [done|]. cbn [batch_sort seq fold_left map].
  rewrite lookup_app_r by (rewrite cells_length; lia). rewrite cells_length, Hi, Nat.sub_diag. simpl.
  destruct (shift_ok i r) with (x := Z.of_nat i) (rest := map Z.of_nat (seq (S i) n) ++ rest)
    as (order' & j & Hs & Hj); [lia|done|]. rewrite Hi in Hs. rewrite Hs. simpl. rewrite Hj. apply IH.
  - rewrite ins_perm. constructor; [lia|done].
  - rewrite ins_perm. simpl. lia.
  - lia.
Qed.

Lemma sorted_rev_snoc l k : sorted_rev (l ++ [k]) = ins k (sorted_rev l).
Proof. unfold sorted_rev. by rewrite fold_left_app. Qed.

Lemma sorted_rev_perm l : Permutation (sorted_rev l) l.
Proof.
  induction l as [|k l IH] using rev_ind; [done|]. rewrite sorted_rev_snoc, ins_perm, IH.
  apply Permutation_cons_append.
Qed.

Lemma sorted_rev_sorted l : StronglySorted (fun a b => key_of b <= key_of a) (sorted_rev l).
Proof. induction l as [|k l IH] using rev_ind; [constructor|]. rewrite sorted_rev_snoc. by apply ins_sorted. Qed.

Lemma sorted_rev_filter q l :
  filter (fun k => key_of k = q) (rev (sorted_rev l)) = filter (fun k => key_of k = q) l.
Proof.
  assert (forall l' : list nat, filter (fun k => key_of k = q) (rev l') = rev (filter (fun k => key_of k = q) l')) as Hrev.
  { intros l'. induction l' as [|k l' IH]; [done|]. simpl. rewrite list.filter_app, IH, !filter_cons, filter_nil.
    case_decide; [done|by rewrite app_nil_r]. }
  rewrite Hrev. induction l as [|k l IH] using rev_ind; [done|].
  rewrite sorted_rev_snoc, ins_filter, filter_cons, list.filter_app, filter_cons, filter_nil.
  case_decide; simpl; rewrite IH, ?app_nil_r; done.
Qed.
End Sort.

(** ** Requests for different sectors commute *)

#[local] Abbreviation content_fun := (Z -> list Z).

(** Serving the request at index [k] in place. *)
Definition astep (k : nat) (s : content_fun * list DiskBatchRequest) : content_fun * list DiskBatchRequest :=
  let '(v, r) := serve1 (s.2 !!! k) s.1 in (v, <[k := r]> s.2).
Definition arun (l : list nat) (s : content_fun * list DiskBatchRequest) := fold_left (fun s k => astep k s) l s.
Arguments arun : simpl never.

Section Commute.
Context (L : nat -> Z) (q : Z).

Definition keys (s : content_fun * list DiskBatchRequest) : Prop := forall k, br_lba (s.2 !!! k) = L k.

(** Equal as far as sector [q] goes. *)
Definition agree (s s' : content_fun * list DiskBatchRequest) : Prop :=
  s.1 q = s'.1 q /\ forall k, L k = q -> s.2 !! k = s'.2 !! k.

Lemma serve1_lba r v : br_lba (snd (serve1 r v)) = br_lba r.
Proof. unfold serve1. by case_match. Qed.

Lemma astep_keys k s : keys s -> keys (astep k s).
Proof.
  intros Hs j. unfold astep. pose proof (serve1_lba (s.2 !!! k) s.1) as Hl.
  destruct (serve1 _ _) as [v r]. simpl in *. destruct (decide (k = j)) as [<-|].
  - destruct (decide (k < length s.2)%nat).
    + rewrite list_lookup_total_insert_eq by done. by rewrite Hl.
    + rewrite list_insert_ge by lia. apply Hs.
  - rewrite list_lookup_total_insert_ne by done. apply Hs.
Qed.

Lemma astep_other k s : keys s -> L k <> q -> agree (astep k s) s.
Proof.
  intros Hs Hk. unfold astep, serve1. pose proof (Hs k) as Hl. split.
  - destruct (negb _); simpl; [|done]. unfold content_upd. rewrite Hl. by destruct (Z.eqb_spec (L k) q).
  - intros j Hj. destruct (negb _); simpl; apply list_lookup_insert_ne; congruence.
Qed.

Lemma astep_same k s s' : keys s -> keys s' -> length s.2 = length s'.2 -> L k = q -> agree s s' ->
  agree (astep k s) (astep k s').
Proof.
  intros Hs Hs' Hlen Hk [Hv Hr]. unfold astep.
  assert (s.2 !!! k = s'.2 !!! k) as He by (rewrite !list_lookup_total_alt; by rewrite Hr).
  rewrite <- He. assert (br_lba (s.2 !!! k) = q) as Hq by (by rewrite (Hs k)).
  unfold serve1. rewrite Hq, Hv. destruct (negb (br_write (s.2 !!! k) =? 0)); (split; simpl).
  - unfold content_upd. by rewrite Z.eqb_refl.
  - intros j Hj. destruct (decide (k = j)) as [<-|]; [|rewrite !list_lookup_insert_ne by done; auto].
    destruct (decide (k < length s.2)%nat); [rewrite !list_lookup_insert_eq by lia; done|].
    rewrite !list_insert_ge by lia. auto.
  - done.
  - intros j Hj. destruct (decide (k = j)) as [<-|]; [|rewrite !list_lookup_insert_ne by done; auto].
    destruct (decide (k < length s.2)%nat); [rewrite !list_lookup_insert_eq by lia; done|].
    rewrite !list_insert_ge by lia. auto.
Qed.

Lemma astep_length k s : length (astep k s).2 = length s.2.
Proof. unfold astep. destruct (serve1 _ _). simpl. apply length_insert. Qed.

Lemma agree_trans s1 s2 s3 : agree s1 s2 -> agree s2 s3 -> agree s1 s3.
Proof. intros [Hv Hr] [Hv' Hr']. split; [congruence|]. intros k Hk. rewrite Hr by done. auto. Qed.

(** Only the requests for [q] matter to [q]. *)
Lemma arun_filter l : forall s s', keys s -> keys s' -> length s.2 = length s'.2 -> agree s s' ->
  agree (arun l s) (arun (filter (fun k => L k = q) l) s').
Proof.
  induction l as [|k l IH]; intros s s' Hs Hs' Hlen Ha; [done|].
  unfold arun in *. rewrite filter_cons. simpl. case_decide as Hk; simpl.
  - apply IH; rewrite ?astep_length; auto using astep_keys, astep_same.
  - apply IH; rewrite ?astep_length; auto using astep_keys.
    eapply agree_trans; [by apply astep_other|done].
Qed.
End Commute.

Lemma arun_length l s : length (arun l s).2 = length s.2.
Proof. revert s. induction l as [|k l IH]; intros s; [done|]. unfold arun in *. simpl. rewrite IH. apply astep_length. Qed.

(** Two orders that agree on every sector have the same outcome. *)
Lemma arun_same l l' s : (forall q, filter (fun k => br_lba (s.2 !!! k) = q) l = filter (fun k => br_lba (s.2 !!! k) = q) l') ->
  (forall q, (arun l s).1 q = (arun l' s).1 q) /\ (arun l s).2 = (arun l' s).2.
Proof.
  intros Hf. set (L := fun k => br_lba (s.2 !!! k)) in *.
  assert (forall q, agree L q (arun l s) (arun (filter (fun k => L k = q) l) s)) as H1.
  { intros q. by apply arun_filter. }
  assert (forall q, agree L q (arun l' s) (arun (filter (fun k => L k = q) l') s)) as H2.
  { intros q. by apply arun_filter. }
  split.
  - intros q. destruct (H1 q) as [-> _]. destruct (H2 q) as [-> _]. by rewrite Hf.
  - apply list_eq. intros k. destruct (H1 (L k)) as [_ ->]; [|done]. destruct (H2 (L k)) as [_ ->]; [|done].
    by rewrite Hf.
Qed.

(** Running the indices in order is serving the list. *)
Lemma arun_serve n : forall i v reqs, (i + n <= length reqs)%nat ->
  let s := serve (take n (drop i reqs)) v in
  (arun (seq i n) (v, reqs)).1 = s.1 /\
  (arun (seq i n) (v, reqs)).2 = take i reqs ++ s.2 ++ drop (i + n) reqs.
Proof.
  induction n as [|n IH]; intros i v reqs Hn s.
  - subst s. simpl. by rewrite Nat.add_0_r, take_drop.
  - change (arun (seq i (S n)) (v, reqs)) with (arun (seq (S i) n) (astep i (v, reqs))). subst s.
    rewrite (drop_S reqs (reqs !!! i) i) by (apply list_lookup_lookup_total_lt; lia). simpl take. simpl serve.
    unfold astep. simpl. destruct (serve1 (reqs !!! i) v) as [v1 r1] eqn:E1. simpl.
    destruct (IH (S i) v1 (<[i := r1]> reqs)) as [-> ->]; [rewrite length_insert; lia|].
    rewrite !drop_insert_lt by lia. destruct (serve (take n (drop (S i) reqs)) v1) as [v2 out]. simpl.
    split; [done|]. rewrite (take_S_r _ _ r1) by (apply list_lookup_insert_eq; lia).
    rewrite take_insert_ge by lia. rewrite <- app_assoc. simpl. by rewrite Nat.add_succ_r.
Qed.

(** The result a request came with does not matter. *)
Lemma serve_preset rc rs : forall v, serve (map (fun r => r <| br_result := rc |>) rs) v = serve rs v.
Proof.
  induction rs as [|r rs IH]; intros v; [done|]. simpl.
  assert (serve1 (r <| br_result := rc |>) v = serve1 r v) as -> by done.
  destruct (serve1 r v) as [v1 r1]. by rewrite IH.
Qed.

(** ** The loop on a working device *)

Section Batch.
Context {D : Type} `{WorkingDev D}.

Definition all_sectors (reqs : list DiskBatchRequest) (l : list nat) : Prop :=
  Forall (fun k => exists r, reqs !! k = Some r /\ has_sector r) l.

Lemma device_step r buf (d : D) v : br_buffer r = Some buf -> is_sector buf -> dev_inv d -> dev_works d ->
  (forall q, dev_content d q = v q) ->
  exists d' buf', (if negb (br_write r =? 0) then (dev_write (br_lba r) buf d, DISK_IO_OK, buf)
                   else dev_read (br_lba r) buf d) = (d', DISK_IO_OK, buf') /\
    is_sector buf' /\ dev_inv d' /\ dev_works d' /\
    (forall q, dev_content d' q = (serve1 r v).1 q) /\
    r <| br_buffer := Some buf' |> <| br_result := DISK_IO_OK |> = (serve1 r v).2.
Proof.
  intros Hb Hs Hi Hw Hv. unfold serve1. destruct (negb (br_write r =? 0)).
  - destruct (dev_write_ok d (br_lba r) buf Hi Hs) as [Hi' Hc].
    eexists _, _. split; [done|]. split_and!; try done; [by apply dev_works_write| |].
    + intros q. rewrite Hc, Hb. unfold content_upd. by rewrite Hv.
    + destruct r; simpl in *. by subst.
  - destruct (dev_works_read d (br_lba r) buf Hi Hw Hs) as [Hok Hw'].
    destruct (dev_read (br_lba r) buf d) as [[d' rc] buf'] eqn:E. simpl in Hok, Hw'. subst rc.
    destruct (dev_read_ok d (br_lba r) buf d' DISK_IO_OK buf' Hi Hs E) as (Hi' & Hs' & Hc & Hb').
    eexists _, _. split; [done|]. rewrite <- Hv, <- Hb' by done. split_and!; try done.
    intros q. by rewrite Hc, Hv.
Qed.

Lemma batch_run_ok order l : forall pre rest reqs st processed (d : D) v,
  order = pre ++ map Z.of_nat l ++ rest -> all_sectors reqs l -> NoDup l ->
  dev_inv d -> dev_works d -> (forall q, dev_content d q = v q) ->
  0 <= processed -> processed + Z.of_nat (length l) < 2 ^ 32 ->
  exists d' st', let s' := arun l (v, reqs) in
    batch_run order (length pre) (length l) reqs st processed d =
      Some (d', s'.2, st', processed + Z.of_nat (length l)) /\
    dev_inv d' /\ (forall q, dev_content d' q = s'.1 q) /\
    ds_last_lba st' = fold_left (fun _ k => key_of reqs k) l (ds_last_lba st) /\
    ds_max_batch_depth st' = ds_max_batch_depth st.
Proof.
  induction l as [|k l IH]; intros pre rest reqs st p d v Ho Hall Hnd Hi Hw Hv Hp Hlt.
  { exists d, st. simpl. rewrite Z.add_0_r. done. }
  inversion Hall as [|? ? (r & Hk & buf & Hb & Hs) Hall']; subst.
  inversion Hnd as [|? ? Hnin Hnd']; subst. simpl in Hlt.
  destruct (device_step r buf d v Hb Hs Hi Hw Hv) as (d' & buf' & Hst & Hs' & Hi' & Hw' & Hc & Hr).
  cbn [batch_run length map app].
  rewrite lookup_app_r, Nat.sub_diag by lia. simpl. rewrite Nat2Z.id, Hk. simpl. rewrite Hb, Hst.
  set (reqs' := <[k := _]> reqs). set (st1 := if _ =? _ then _ else _).
  assert (forall j, key_of reqs' j = key_of reqs j) as Hkey.
  { intros j. unfold key_of. subst reqs'. destruct (decide (k = j)) as [<-|].
    - rewrite list_lookup_total_insert_eq by (by eapply lookup_lt_Some).
      by rewrite (list_lookup_total_correct _ _ _ Hk).
    - by rewrite list_lookup_total_insert_ne. }
  destruct (IH (pre ++ [Z.of_nat k]) rest reqs' st1 (p +u 1) d' (serve1 r v).1)
    as (d2 & st2 & Hrun & Hi2 & Hc2 & Hl2 & Hm2); try done; try (wsimpl; lia).
  - by rewrite <- app_assoc.
  - apply Forall_lookup_2. intros j k' Hj. destruct (Forall_lookup_1 _ _ _ _ Hall' Hj) as (r' & Hr' & Hs2).
    exists r'. split; [|done]. subst reqs'. rewrite list_lookup_insert_ne; [done|].
    intros <-. apply Hnin. by eapply list_elem_of_lookup_2.
  - rewrite length_app, Nat.add_1_r in Hrun. simpl in Hrun. rewrite (u32_small (p + 1)) in * by lia.
    assert (arun (k :: l) (v, reqs) = arun l ((serve1 r v).1, reqs')) as ->.
    { unfold arun, reqs'. simpl. unfold astep at 2. simpl. rewrite (list_lookup_total_correct _ _ _ Hk), Hr.
      by destruct (serve1 r v). }
    exists d2, st2. split_and!; try done.
    + rewrite Hrun. do 2 f_equal. lia.
    + rewrite Hl2. simpl.
      assert (ds_last_lba st1 = key_of reqs k) as ->.
      { subst st1. unfold key_of. rewrite (list_lookup_total_correct _ _ _ Hk). by destruct (Z.of_nat k =? _). }
      generalize (key_of reqs k). clear -Hkey. induction l as [|j l IH]; intros x; [done|]. simpl. by rewrite Hkey.
    + rewrite Hm2. subst st1. by destruct (Z.of_nat k =? _).
Qed.

Lemma prepare_ok n : forall i reqs order, (i + n <= length reqs)%nat -> length order = 64%nat -> (i + n <= 64)%nat ->
  Forall has_sector (take n (drop i reqs)) ->
  exists reqs', batch_prepare i n reqs order =
    Some (reqs', take i order ++ map Z.of_nat (seq i n) ++ drop (i + n) order) /\
    reqs' = take i reqs ++ map (fun r => r <| br_result := DISK_IO_ERR_UNSUPPORTED |>) (take n (drop i reqs)) ++
            drop (i + n) reqs.
Proof.
  induction n as [|n IH]; intros i reqs order Hn Ho Hi Hs.
  { exists reqs. simpl. rewrite Nat.add_0_r, !take_drop. done. }
  assert (reqs !! i = Some (reqs !!! i)) as Hk by (apply list_lookup_lookup_total_lt; lia).
  cbn [batch_prepare]. rewrite Hk. simpl.
  rewrite (drop_S reqs (reqs !!! i) i) in Hs |- * by done. simpl in Hs.
  inversion Hs as [|? ? (buf & Hb & _) Hs']; subst. rewrite Hb.
  set (r' := _ <| br_result := _ |>).
  destruct (IH (S i) (<[i := r']> reqs) (<[i := Z.of_nat i]> order)) as (reqs' & Hp & Hr);
    rewrite ?length_insert; try lia.
  { by rewrite drop_insert_lt by lia. }
  exists reqs'. rewrite Hp, Hr. split.
  - do 2 f_equal. rewrite (take_S_r _ _ (Z.of_nat i)) by (apply list_lookup_insert_eq; lia).
    rewrite take_insert_ge, drop_insert_lt by lia. simpl. rewrite <- app_assoc. simpl.
    by rewrite Nat.add_succ_r.
  - rewrite (take_S_r _ _ r') by (apply list_lookup_insert_eq; lia).
    rewrite take_insert_ge, !drop_insert_lt by lia. simpl. rewrite <- app_assoc. simpl.
    by rewrite Nat.add_succ_r.
Qed.
End Batch.

(** ** The call *)

Lemma sorted_last_max reqs l x : Permutation l x -> StronglySorted (fun a b => key_of reqs b <= key_of reqs a) l ->
  forall z k, k ∈ x -> key_of reqs k <= fold_left (fun _ k => key_of reqs k) (rev l) z.
Proof.
  intros Hp Hs z k Hk. rewrite <- Hp in Hk. destruct Hs as [|o r Hs Ho]; [set_solver|]. simpl.
  rewrite fold_left_app. simpl. apply elem_of_cons in Hk as [->|Hk]; [lia|].
  by apply (proj1 (list.Forall_forall _ _) Ho).
Qed.

(** C33: a batch whose requests all have buffers (one without makes the code use a number
    it never set, disk.c:133) does on a working disk what its first 64 requests do one
    after the other in the order they were made, although it sends them sorted by sector:
    the same buffers, the same results, the same disk; the requests after them are left
    alone, those taken are counted, and the last one sent has the highest sector. *)
Theorem disk_process_batch_in_order {D} `{WorkingDev D} (d : D) stack reqs count st :
  dev_inv d -> dev_works d -> length stack = 64%nat -> 0 < count ->
  let n := Z.to_nat (Z.min 64 count) in
  (n <= length reqs)%nat -> Forall has_sector (take n reqs) ->
  let served := serve (take n reqs) (dev_content d) in
  exists d' st',
    disk_process_batch stack (Some reqs) count st d = Some (d', Some (served.2 ++ drop n reqs), st', Z.of_nat n) /\
    dev_inv d' /\ (forall q, dev_content d' q = served.1 q) /\
    Forall (fun r => br_lba r <= ds_last_lba st') (take n reqs).
Proof.
  intros Hi Hw Hst Hc n Hn Hs served. unfold disk_process_batch. destruct (Z.eqb_spec count 0); [lia|].
  assert (Z.to_nat (if 64 <? count then 64 else count) = n) as Hnn.
  { subst n. destruct (Z.ltb_spec 64 count); f_equal; lia. }
  rewrite Hnn. assert (1 <= n <= 64)%nat as Hn64 by lia. clearbody n. clear Hnn.
  destruct (prepare_ok n 0 reqs stack) as (reqs0 & -> & Hr0); try done; [lia|]. simpl in *.
  rewrite drop_0 in Hr0.
  assert (length reqs0 = length reqs) as Hlen.
  { rewrite Hr0, length_app, length_map, length_take, length_drop. lia. }
  pose proof (sort_ok reqs0 (n - 1) 1 [0%nat] (drop n stack)) as Hsort.
  assert (seq 0 n = 0%nat :: seq 1 (n - 1)) as Hseq by (destruct n; [lia|]; simpl; by rewrite Nat.sub_0_r).
  rewrite Hseq. simpl. unfold cells in Hsort at 1. simpl in Hsort. rewrite Hsort by (done || lia || (repeat constructor; lia)).
  change (fold_left _ (seq 1 (n - 1)) [0%nat]) with (sorted_rev reqs0 (0%nat :: seq 1 (n - 1))). rewrite <- Hseq.
  set (r := sorted_rev reqs0 (seq 0 n)). pose proof (sorted_rev_perm reqs0 (seq 0 n)) as Hperm. fold r in Hperm.
  assert (length (rev r) = n) as Hlr by (rewrite length_rev, (Permutation_length Hperm), length_seq; done).
  simpl. destruct (batch_run_ok (cells r ++ drop n stack) (rev r) [] (drop n stack) reqs0 st 0 d (dev_content d))
    as (d' & st' & Hrun & Hi' & Hc' & Hl & _); try done.
  - apply list.Forall_forall. intros k Hk. rewrite list_elem_of_In, <- in_rev, <- list_elem_of_In, Hperm in Hk.
    apply elem_of_seq in Hk. exists (reqs0 !!! k). split; [apply list_lookup_lookup_total_lt; lia|].
    rewrite Hr0, lookup_total_app_l by (rewrite length_map, length_take; lia).
    assert (Forall has_sector (map (fun r => r <| br_result := DISK_IO_ERR_UNSUPPORTED |>) (take n reqs))) as Hs0.
    { apply Forall_map. eapply Forall_impl; [|exact Hs]. done. }
    eapply (Forall_lookup_1 _ _ k); [exact Hs0|]. apply list_lookup_lookup_total_lt.
    rewrite length_map, length_take. lia.
  - apply NoDup_ListNoDup, NoDup_rev. rewrite <- NoDup_ListNoDup, Hperm. apply NoDup_seq.
  - rewrite Hlr. lia.
  - destruct (arun_same (rev r) (seq 0 n) (dev_content d, reqs0)) as [Hv Hq].
    { intros q. apply sorted_rev_filter. }
    destruct (arun_serve n 0 (dev_content d) reqs0) as [Hv2 Hq2]; [lia|].
    assert (take n (drop 0 reqs0) = map (fun r => r <| br_result := DISK_IO_ERR_UNSUPPORTED |>) (take n reqs)) as Htk.
    { rewrite drop_0, Hr0. apply take_app_length'. rewrite length_map, length_take. lia. }
    rewrite Htk, serve_preset in Hv2, Hq2. fold served in Hv2, Hq2.
    assert (drop n reqs0 = drop n reqs) as Hdr.
    { rewrite Hr0. apply drop_app_length'. rewrite length_map, length_take. lia. }
    simpl in Hq2. rewrite Hdr in Hq2.
    rewrite Hlr in Hrun. cbn [length] in Hrun. rewrite Hrun. simpl. rewrite Hq, Hq2.
    eexists _, _. split; [rewrite i32_small by lia; done|]. split_and!; [done| |].
    + intros q. by rewrite Hc', Hv, Hv2.
    + apply Forall_lookup_2. intros k x Hk. pose proof (lookup_lt_Some _ _ _ Hk) as Hkn. rewrite length_take in Hkn.
      assert (br_lba x = key_of reqs0 k) as ->.
      { unfold key_of. rewrite Hr0, lookup_total_app_l by (rewrite length_map, length_take; lia).
        rewrite (list_lookup_total_correct _ _ (x <| br_result := DISK_IO_ERR_UNSUPPORTED |>)); [done|].
        by rewrite list_lookup_fmap, Hk. }
      assert (key_of reqs0 k <= ds_last_lba st') as Hle.
      { rewrite Hl. eapply sorted_last_max; [exact Hperm|apply sorted_rev_sorted|]. apply elem_of_seq. lia. }
      by destruct (ds_max_batch_depth _ <? _).
Qed.

Definition demo_requests : list DiskBatchRequest :=
  [Build_DiskBatchRequest 9 (Some (replicate 256 5)) 1 7; Build_DiskBatchRequest 3 (Some (replicate 256 0)) 0 7;
   Build_DiskBatchRequest 9 (Some (replicate 256 6)) 1 7; Build_DiskBatchRequest 9 (Some (replicate 256 0)) 0 7].
Definition demo_batch_disk : MemDisk := {| md_data := {[3 := replicate 256 11]}; md_bad := ∅ |}.

Lemma disk_process_batch_in_order_witness :
  exists d' st', disk_process_batch (replicate 64 77) (Some demo_requests) 4 no_sched demo_batch_disk =
    Some (d', Some [Build_DiskBatchRequest 9 (Some (replicate 256 5)) 1 0; Build_DiskBatchRequest 3 (Some (replicate 256 11)) 0 0;
                    Build_DiskBatchRequest 9 (Some (replicate 256 6)) 1 0; Build_DiskBatchRequest 9 (Some (replicate 256 6)) 0 0],
          st', 4).
Proof.
  destruct (disk_process_batch_in_order demo_batch_disk (replicate 64 77) demo_requests 4 no_sched)
    as (d' & st' & Hrun & _).
  - apply map_Forall_singleton. vm_compute. reflexivity.
  - reflexivity.
  - reflexivity.
  - lia.
  - simpl. lia.
  - repeat constructor; eexists; (split; [reflexivity|vm_compute; reflexivity]).
  - exists d', st'. rewrite Hrun. vm_compute. reflexivity.
Defined.

(** A request without a buffer leaves a cell of the array as the stack had it, and the
    sort then reads a request outside the array. *)
Example disk_process_batch_null_buffer :
  disk_process_batch (replicate 64 77) (Some [Build_DiskBatchRequest 9 None 0 7; Build_DiskBatchRequest 3 (Some zero_sector) 0 7])
    2 no_sched demo_batch_disk = None.
Proof. vm_compute. reflexivity. Qed.
