(* ===== verification/Tfs.v ===== *)
(** * The tiny file system (the TFS backend of kernel/vfs.c)

    One directory of 25 entries of 24 bytes, kept in memory and mirrored in the sector
    150, and files in the sectors from 200 on, one sector apart.  The array of entries
    is longer than a sector: only its first 512 bytes reach the disk. *)
From S2P Require Import Prelude BlockDev PageCache Bytes VfsDefs Ext2Dir Disk.

Definition TFS_DIR_LBA : Z := 150.
Definition TFS_DATA_START : Z := 200.
Definition TFS_MAX_FILES : Z := 25.
Definition TFS_MAX_HANDLES : Z := 256.
Definition TFS_SECTOR_SIZE : Z := 512.

(** sizeof(FileEntry) and the offsets of its fields: name, lba, size, flags. *)
Definition FileEntry_size : Z := 24.
Definition fe_off (i : Z) : Z := FileEntry_size * i.
Definition fe_name (root : list Z) (i : Z) : list Z := c_string (drop (Z.to_nat (fe_off i)) root).
Definition fe_lba (root : list Z) (i : Z) : Z := read_le32 root (fe_off i + 12).
Definition fe_size (root : list Z) (i : Z) : Z := read_le32 root (fe_off i + 16).
Definition fe_flags (root : list Z) (i : Z) : Z := read_le32 root (fe_off i + 20).
Definition set_fe_lba (i v : Z) (root : list Z) : list Z := write_le32 (fe_off i + 12) v root.
Definition set_fe_size (i v : Z) (root : list Z) : list Z := write_le32 (fe_off i + 16) v root.
Definition set_fe_flags (i v : Z) (root : list Z) : list Z := write_le32 (fe_off i + 20) v root.

(** The loop that copies a name and its terminator. *)
Definition set_fe_name (i : Z) (name : list Z) (root : list Z) : list Z :=
  splice (fe_off i) (take 12 (name ++ [0])) root.

Record TfsHandle := { th_used : Z; th_ref_count : Z; th_entry_idx : Z; th_pos : Z; th_flags : Z }.
#[export] Instance TfsHandle_fields : Fields TfsHandle := fun r =>
  {| th_used := th_used r; th_ref_count := th_ref_count r; th_entry_idx := th_entry_idx r;
     th_pos := th_pos r; th_flags := th_flags r |}.
#[export] Instance TfsHandle_inh : Inhabited TfsHandle := populate (Build_TfsHandle 0 0 0 0 0).

(** The directory in memory, the handles and the cached disk. *)
Record Tfs (D : Type) := { root_directory : list Z; tfs_handles : list TfsHandle; tfs_disk : CachedDisk D }.
Arguments root_directory {D} _.
Arguments tfs_handles {D} _.
Arguments tfs_disk {D} _.
#[export] Instance Tfs_fields D : Fields (Tfs D) := fun r =>
  {| root_directory := root_directory r; tfs_handles := tfs_handles r; tfs_disk := tfs_disk r |}.

(** The flag [ata_disk_available] of the driver below. *)
Class AtaFlag (D : Type) := ata_flag : D -> bool.
#[export] Instance DiskState_AtaFlag H : AtaFlag (DiskState H) := fun s => negb (ata_disk_available s =? 0).
#[export] Instance MemDisk_AtaFlag : AtaFlag MemDisk := fun _ => true.

(** ** Names *)

Definition lower (c : Z) : Z := if (65 <=? c) && (c <=? 90) then c + 32 else c.
Definition str_case_eq (a b : list Z) : bool := bool_decide (map lower a = map lower b).

(** Leading slashes, then at most 11 characters up to a slash; the rest of the path is
    ignored. *)
Definition normalize_tfs_name (path : list Z) : option (list Z) :=
  match skip_slashes path with
  | [] => None
  | p => let name := fst (take_component 11 p) in if bool_decide (name = []) then None else Some name
  end.

(** [for (i = 0; i < TFS_MAX_FILES; i++)] to the first entry that passes a test. *)
Definition fe_find (p : Z -> bool) : Z := idx_or_neg (find_idx p (seqZ 0 TFS_MAX_FILES)).

Definition tfs_find_entry_by_name (root name : list Z) : Z :=
  fe_find (fun i => (fe_flags root i =? 1) && str_case_eq (fe_name root i) name).
Definition find_free_slot (root : list Z) : Z := fe_find (fun i => fe_flags root i =? 0).

Definition clear_file_entry (i : Z) (root : list Z) : list Z :=
  set_fe_flags i 0 (set_fe_size i 0 (set_fe_lba i 0 (splice (fe_off i) (replicate 12 0) root))).

Section Tfs.
Context {D : Type} `{BlockDev D} `{AtaFlag D}.
(** What the sector buffer on the stack holds before the first read into it. *)
Context (stack : list Z).

(** ** The directory sector *)

Definition on_disk {A} (m : ST (CachedDisk D) A) : ST (Tfs D) A := fun s =>
  let '(d, a) := m (tfs_disk s) in (s <| tfs_disk := d |>, a).

Definition read_dir : ST (Tfs D) unit :=
  s ← get;
  w ← on_disk (disk_read_sector TFS_DIR_LBA (words_of_bytes (take 512 (root_directory s))));
  modify (fun s => s <| root_directory ::= splice 0 (bytes_of_words w) |>).

Definition write_dir : ST (Tfs D) unit :=
  s ← get;
  on_disk (disk_write_sector TFS_DIR_LBA (words_of_bytes (take 512 (root_directory s)))).

Definition set_root (f : list Z -> list Z) : ST (Tfs D) unit := modify (fun s => s <| root_directory ::= f |>).
Definition set_thandle (h : Z) (f : TfsHandle -> TfsHandle) : ST (Tfs D) unit :=
  modify (fun s => s <| tfs_handles ::= alter f (Z.to_nat h) |>).

Definition tfs_alloc_handle : ST (Tfs D) Z := fun s =>
  match find_idx (fun h => th_used h =? 0) (tfs_handles s) with
  | Some i => (s <| tfs_handles ::= <[i := Build_TfsHandle 1 1 (-1) 0 0]> |>, Z.of_nat i)
  | None => (s, -1)
  end.

Definition thandle_ok (s : Tfs D) (handle : Z) : bool :=
  negb ((handle <? 0) || (TFS_MAX_HANDLES <=? handle) || (th_used (tfs_handles s).[handle] =? 0)).

(** ** Calls on paths *)

Definition available (s : Tfs D) : bool := ata_flag (cache_disk (cd_cache (tfs_disk s))).

(** The calls that look a name up in a freshly read directory. *)
Definition with_name {A} (path : list Z) (err : Z -> A) (k : list Z -> ST (Tfs D) A) : ST (Tfs D) A :=
  s ← get;
  if negb (available s) then mret (err VFS_ERR_IO)
  else match normalize_tfs_name path with
       | None => mret (err VFS_ERR_INVALID_ARG)
       | Some name => _ ← read_dir; k name
       end.

Definition with_file {A} (path : list Z) (err : Z -> A) (k : Z -> ST (Tfs D) A) : ST (Tfs D) A :=
  with_name path err (fun name =>
    s ← get;
    let entry_idx := tfs_find_entry_by_name (root_directory s) name in
    if entry_idx <? 0 then mret (err VFS_ERR_NOT_FOUND) else k entry_idx).

(** The entry an open reaches, created if the flags ask for it. *)
Definition tfs_open_entry (name : list Z) (flags : Z) : ST (Tfs D) Z :=
  s ← get;
  let entry_idx := tfs_find_entry_by_name (root_directory s) name in
  if negb (entry_idx <? 0) then mret entry_idx
  else if Z.land flags VFS_O_CREAT =? 0 then mret VFS_ERR_NOT_FOUND
  else
    let entry_idx := find_free_slot (root_directory s) in
    if entry_idx <? 0 then mret VFS_ERR_NO_SPACE
    else
      _ ← set_root (fun r => set_fe_flags entry_idx 1 (set_fe_size entry_idx 0
                               (set_fe_lba entry_idx (TFS_DATA_START + entry_idx) (set_fe_name entry_idx name r))));
      _ ← write_dir;
      mret entry_idx.

Definition tfs_open (path : list Z) (flags : Z) : ST (Tfs D) Z :=
  with_name path id (fun name =>
    entry_idx ← tfs_open_entry name flags;
    if entry_idx <? 0 then mret entry_idx
    else
      _ ← (if has_flag flags VFS_O_TRUNC then _ ← set_root (set_fe_size entry_idx 0); write_dir else mret tt);
      handle ← tfs_alloc_handle;
      if handle <? 0 then mret VFS_ERR_NO_SPACE
      else
        _ ← set_thandle handle (fun h => h <| th_entry_idx := entry_idx |> <| th_pos := 0 |> <| th_flags := flags |>);
        mret handle).

Definition tfs_stat (path : list Z) (stat_null : bool) : ST (Tfs D) (Z * option VfsFileStat) :=
  if stat_null then mret (VFS_ERR_INVALID_ARG, None)
  else with_file path (fun e => (e, None)) (fun i =>
    s ← get;
    mret (VFS_OK, Some {| st_size := fe_size (root_directory s) i; st_flags := fe_flags (root_directory s) i |})).

Definition tfs_delete (path : list Z) : ST (Tfs D) Z :=
  with_file path id (fun i => _ ← set_root (clear_file_entry i); _ ← write_dir; mret VFS_OK).

Definition tfs_rename (old_path new_path : list Z) : ST (Tfs D) Z :=
  s ← get;
  if negb (available s) then mret VFS_ERR_IO
  else match normalize_tfs_name old_path, normalize_tfs_name new_path with
       | Some old_name, Some new_name =>
           _ ← read_dir;
           s ← get;
           let old_idx := tfs_find_entry_by_name (root_directory s) old_name in
           if old_idx <? 0 then mret VFS_ERR_NOT_FOUND
           else
             let new_idx := tfs_find_entry_by_name (root_directory s) new_name in
             if (0 <=? new_idx) && negb (new_idx =? old_idx) then mret VFS_ERR_PERM
             else _ ← set_root (set_fe_name old_idx new_name); _ ← write_dir; mret VFS_OK
       | _, _ => mret VFS_ERR_INVALID_ARG
       end.

Definition tfs_truncate (path : list Z) (size : Z) : ST (Tfs D) Z :=
  with_file path id (fun i => _ ← set_root (set_fe_size i size); _ ← write_dir; mret VFS_OK).

(** ** Calls on handles *)

(** The loop of [tfs_read]; [sector] is the buffer as the last read left it. *)
Fixpoint tfs_read_loop (entry_lba pos size : Z) (fuel : nat) (total : Z) (sector : list Z)
  : ST (Tfs D) (Z * list Z) :=
  match fuel with
  | O => mret (total, [])
  | S fuel' =>
      if total <? size then
        let abs_pos := pos +u total in
        let sector_off := abs_pos mod TFS_SECTOR_SIZE in
        let chunk := TFS_SECTOR_SIZE -u sector_off in
        let lba := entry_lba +u (abs_pos / TFS_SECTOR_SIZE) in
        let chunk := if size -u total <? chunk then size -u total else chunk in
        sector ← on_disk (disk_read_sector lba sector);
        let out := slice sector_off chunk (bytes_of_words sector) in
        '(total, rest) ← tfs_read_loop entry_lba pos size fuel' (total +u chunk) sector;
        mret (total, out ++ rest)
      else mret (total, [])
  end.

Definition tfs_read (handle : Z) (buf_null : bool) (size : Z) : ST (Tfs D) (Z * list Z) :=
  s ← get;
  if negb (thandle_ok s handle) then mret (VFS_ERR_INVALID_FD, [])
  else if buf_null || (size =? 0) then mret (VFS_ERR_INVALID_ARG, [])
  else
    let h := (tfs_handles s).[handle] in
    if (Z.land (th_flags h) VFS_O_RDONLY =? 0) && negb (Z.land (th_flags h) VFS_O_RDWR =? VFS_O_RDWR)
    then mret (VFS_ERR_PERM, [])
    else
      let fsize := fe_size (root_directory s) (th_entry_idx h) in
      if fsize <=? th_pos h then mret (0, [])
      else
        let remaining := fsize -u th_pos h in
        let size := if remaining <? size then remaining else size in
        '(total, out) ← tfs_read_loop (fe_lba (root_directory s) (th_entry_idx h)) (th_pos h) size
                          (Z.to_nat size) 0 stack;
        _ ← set_thandle handle (fun h => h <| th_pos := th_pos h +u total |>);
        mret (i32 total, out).

Fixpoint tfs_write_loop (entry_lba : Z) (src : list Z) (pos size : Z) (fuel : nat) (total : Z) (sector : list Z)
  : ST (Tfs D) Z :=
  match fuel with
  | O => mret total
  | S fuel' =>
      if total <? size then
        let abs_pos := pos +u total in
        let sector_off := abs_pos mod TFS_SECTOR_SIZE in
        let chunk := TFS_SECTOR_SIZE -u sector_off in
        let lba := entry_lba +u (abs_pos / TFS_SECTOR_SIZE) in
        if TFS_DATA_START + TFS_MAX_FILES <=? lba then mret total
        else
          let chunk := if size -u total <? chunk then size -u total else chunk in
          sector ← on_disk (disk_read_sector lba sector);
          let sector := words_of_bytes (splice sector_off (slice total chunk src) (bytes_of_words sector)) in
          _ ← on_disk (disk_write_sector lba sector);
          tfs_write_loop entry_lba src pos size fuel' (total +u chunk) sector
      else mret total
  end.

Definition tfs_write (handle : Z) (buf : option (list Z)) (size : Z) : ST (Tfs D) Z :=
  s ← get;
  if negb (thandle_ok s handle) then mret VFS_ERR_INVALID_FD
  else match buf with
       | None => mret VFS_ERR_INVALID_ARG
       | Some src =>
           if size =? 0 then mret VFS_ERR_INVALID_ARG
           else
             let h := (tfs_handles s).[handle] in
             let i := th_entry_idx h in
             if negb (has_flag (th_flags h) VFS_O_WRONLY) && negb (has_flag (th_flags h) VFS_O_RDWR)
             then mret VFS_ERR_PERM
             else
               total ← tfs_write_loop (fe_lba (root_directory s) i) src (th_pos h) size (Z.to_nat size) 0 stack;
               let pos := th_pos h +u total in
               _ ← set_thandle handle (fun h => h <| th_pos := pos |>);
               _ ← (if fe_size (root_directory s) i <? pos
                    then _ ← set_root (set_fe_size i pos); write_dir else mret tt);
               mret (i32 total)
       end.

Definition tfs_close (handle : Z) : ST (Tfs D) Z :=
  s ← get;
  if negb (thandle_ok s handle) then mret VFS_ERR_INVALID_FD
  else if 1 <? th_ref_count (tfs_handles s).[handle] then
    _ ← set_thandle handle (fun h => h <| th_ref_count ::= Z.pred |>); mret VFS_OK
  else
    _ ← set_thandle handle (fun h => h <| th_used := 0 |> <| th_ref_count := 0 |>); mret VFS_OK.

Definition tfs_lseek (handle offset whence : Z) : ST (Tfs D) Z :=
  s ← get;
  if negb (thandle_ok s handle) then mret VFS_ERR_INVALID_FD
  else
    let h := (tfs_handles s).[handle] in
    let base := if whence =? VFS_SEEK_SET then Some 0
                else if whence =? VFS_SEEK_CUR then Some (i32 (th_pos h))
                else if whence =? VFS_SEEK_END then Some (i32 (fe_size (root_directory s) (th_entry_idx h)))
                else None in
    match base with
    | None => mret VFS_ERR_INVALID_ARG
    | Some base =>
        let target := i32 (base + offset) in
        if target <? 0 then mret VFS_ERR_INVALID_ARG
        else _ ← set_thandle handle (fun h => h <| th_pos := u32 target |>); mret target
    end.

Definition tfs_ftruncate (handle size : Z) : ST (Tfs D) Z :=
  s ← get;
  if negb (thandle_ok s handle) then mret VFS_ERR_INVALID_FD
  else
    let i := th_entry_idx (tfs_handles s).[handle] in
    _ ← set_root (set_fe_size i size);
    _ ← set_thandle handle (fun h => if size <? th_pos h then h <| th_pos := size |> else h);
    _ ← write_dir;
    mret VFS_OK.

Definition tfs_mkdir (path : list Z) (mode : Z) : ST (Tfs D) Z := mret VFS_ERR_INVALID_ARG.
Definition tfs_rmdir (path : list Z) : ST (Tfs D) Z := mret VFS_ERR_INVALID_ARG.
Definition tfs_chmod (path : list Z) (mode : Z) : ST (Tfs D) Z := mret VFS_ERR_PERM.
Definition tfs_chown (path : list Z) (uid gid : Z) : ST (Tfs D) Z := mret VFS_ERR_PERM.
Definition tfs_link (old_path new_path : list Z) : ST (Tfs D) Z := mret VFS_ERR_INVALID_ARG.
Definition tfs_symlink (target link_path : list Z) : ST (Tfs D) Z := mret VFS_ERR_INVALID_ARG.
Definition tfs_readlink (link_path : list Z) (max_len : Z) : ST (Tfs D) (Z * list Z) := mret (VFS_ERR_INVALID_ARG, []).
End Tfs.
