(* ===== verification/TfsFiles.v ===== *)
(** * Reading and writing TFS files

    On a disk that works, the sectors behind the page cache are one array of bytes,
    [flat].  The loops of [tfs_read] and [tfs_write] read and replace ranges of it. *)
From S2P Require Import Prelude BlockDev PageCache Bytes VfsDefs Ext2Dir Disk Tfs.

(** ** The page cache on a disk that works *)

Section Works.
Context {D : Type} `{WorkingDev D}.
Implicit Types (st : CacheState D).

#[local] Abbreviation works st := (dev_works (cache_disk st)).

Lemma works_flush i st : works st -> works (flush_line i st).
Proof.
  intros Hw. unfold flush_line. case_match; [done|]. case_match; [|done]. by apply dev_works_write.
Qed.

Lemma works_pick st : works st -> works (fst (pick_victim_line st)).
Proof.
  intros Hw. unfold pick_victim_line.
  assert (forall j t, works t -> works (fst (pick_step j t))) as Hstep.
  { intros j t Ht. unfold pick_step. case_match; [done|]. case_match; [done|]. by apply works_flush. }
  pose proof (for_until_inv pick_step (fun _ t => works t) (CACHE_LINES * 2) 0 st Hw) as Hu.
  assert (forall j t t', (0 <= j < 0 + CACHE_LINES * 2)%nat -> works t -> pick_step j t = (t', None) -> works t') as Hk.
  { intros j t t' _ Ht E. specialize (Hstep j t Ht). by rewrite E in Hstep. }
  specialize (Hu Hk). destruct (for_until pick_step 0 (CACHE_LINES * 2) st) as [st' [i|]].
  - destruct Hu as (j & t & _ & Ht & E). specialize (Hstep j t Ht). by rewrite E in Hstep.
  - by apply works_flush.
Qed.

Lemma works_init st : works st -> works (page_cache_init st).
Proof. unfold page_cache_init. by destruct (cache_initialized st). Qed.

Lemma coh_sector st v q : coh st v -> is_sector (v q).
Proof.
  intros Hc. rewrite <- (coh_view st v q Hc). unfold cache_view. destruct (find_line q st) as [i|] eqn:E.
  - apply find_line_Some in E as (l & Hl & _). rewrite (list_lookup_total_correct _ _ _ Hl).
    by apply (co_sector _ _ Hc i).
  - apply dev_content_sector, Hc.
Qed.

Lemma cache_read_works st v q buf : coh st v -> works st -> is_sector buf ->
  exists st', page_cache_read_sector q (Some buf) st = (st', DISK_IO_OK, Some (v q)) /\ coh st' v /\ works st'.
Proof.
  intros Hc Hw Hb. destruct (page_cache_read_ok st v q buf Hc Hb) as (st' & rc & buf' & Hr & Hc' & _ & Hres).
  assert (rc = DISK_IO_OK /\ works st') as [-> Hw'].
  { destruct (page_cache_init_ok st v Hc) as [Hc0 _]. pose proof (works_init _ Hw) as Hw0.
    unfold page_cache_read_sector in Hr. destruct (find_line q (page_cache_init st)) as [i|]; [by simplify_eq|].
    destruct (pick_victim_line_ok (bump SReadMisses (page_cache_init st)) v) as
      (st1 & i & l & Hp & Hc1 & _ & _ & _ & Hl & _); [by apply coh_stats|].
    pose proof (works_pick (bump SReadMisses (page_cache_init st)) Hw0) as Hw1.
    rewrite Hp in Hr, Hw1. simpl in Hw1. rewrite (list_lookup_total_correct _ _ _ Hl) in Hr.
    destruct (dev_works_read (cache_disk st1) q (data l)) as [Hok Hw2];
      [apply Hc1|done|by apply (co_sector _ _ Hc1 i)|].
    destruct (dev_read q (data l) (cache_disk st1)) as [[d rc'] dat]. simpl in Hok, Hw2. subst rc'.
    simpl in Hr. by simplify_eq. }
  destruct Hres as [[_ ->]|[? _]]; [|done]. by exists st'.
Qed.

Lemma cache_write_works st v q buf : coh st v -> works st -> is_sector buf ->
  exists st' rc, page_cache_write_sector q (Some buf) st = (st', rc) /\ coh st' (view_upd v q buf) /\ works st'.
Proof.
  intros Hc Hw Hb. destruct (page_cache_write_ok st v q buf Hc Hb) as (st' & Hr & Hc').
  exists st', DISK_IO_OK. split_and!; try done. pose proof (works_init _ Hw) as Hw0.
  unfold page_cache_write_sector in Hr. destruct (find_line q (page_cache_init st)) as [i|]; [by simplify_eq|].
  pose proof (works_pick (bump SWriteMisses (page_cache_init st)) Hw0) as Hw1.
  destruct (pick_victim_line _) as [st1 i]. by simplify_eq.
Qed.

(** [cached d v]: the cached disk works and holds the sectors [v]. *)
Definition cached (d : CachedDisk D) (v : Z -> list Z) : Prop := coh (cd_cache d) v /\ works (cd_cache d).

Lemma disk_read_ok d v lba buf : cached d v -> is_sector buf ->
  wp (disk_read_sector lba buf) (fun d' b => cached d' v /\ b = v lba) d.
Proof.
  intros [Hc Hw] Hb. unfold wp, disk_read_sector.
  destruct (cache_read_works _ v lba buf Hc Hw Hb) as (st' & -> & Hc' & Hw'). done.
Qed.

Lemma disk_write_ok d v lba buf : cached d v -> is_sector buf ->
  wp (disk_write_sector lba buf) (fun d' _ => cached d' (view_upd v lba buf)) d.
Proof.
  intros [Hc Hw] Hb. unfold wp, disk_write_sector.
  destruct (cache_write_works _ v lba buf Hc Hw Hb) as (st' & rc & -> & Hc' & Hw'). done.
Qed.
End Works.

(** ** Sectors as one array of bytes *)

Definition sector_bytes (v : Z -> list Z) (q : Z) : list Z := bytes_of_words (v q).
Definition flat (v : Z -> list Z) (a : Z) : Z := (sector_bytes v (a / 512)).[a mod 512].

Lemma sector_bytes_length v q : is_sector (v q) -> length (sector_bytes v q) = Z.to_nat 512.
Proof. intros Hs. unfold sector_bytes. by rewrite bytes_of_words_length, Hs. Qed.

Lemma flat_in v q o : 0 <= o < 512 -> flat v (512 * q + o) = (sector_bytes v q).[o].
Proof.
  intros Ho. unfold flat. rewrite (Z.mul_comm 512), Z.div_add_l, Z.div_small, Z.add_0_r by lia.
  rewrite Z.add_comm, Z.mod_add, Z.mod_small by lia. done.
Qed.

(** A slice of a sector is a range of the array. *)
Lemma slice_flat v q o n : is_sector (v q) -> 0 <= o -> 0 <= n -> o + n <= 512 ->
  slice o n (sector_bytes v q) = map (flat v) (seqZ (512 * q + o) n).
Proof.
  intros Hs Ho Hn Hon. apply list_eq. intros i. destruct (decide (i < Z.to_nat n)%nat) as [Hi|Hi].
  - rewrite slice_lookup by done. rewrite list_lookup_fmap, lookup_seqZ_lt by lia. simpl.
    replace (512 * q + o + Z.of_nat i) with (512 * q + (o + Z.of_nat i)) by lia. rewrite flat_in by lia.
    replace (Z.to_nat o + i)%nat with (Z.to_nat (o + Z.of_nat i)) by lia.
    apply list_lookup_lookup_total_lt. rewrite sector_bytes_length by done. lia.
  - rewrite !lookup_ge_None_2; [done| |].
    + rewrite length_map, length_seqZ. lia.
    + pose proof (slice_length o n (sector_bytes v q) Ho Hn) as Hl.
      rewrite sector_bytes_length in Hl by done. specialize (Hl ltac:(lia)). lia.
Qed.

(** The array after a range is replaced. *)
Definition flat_upd (f : Z -> Z) (a : Z) (b : list Z) : Z -> Z := fun x =>
  if (a <=? x) && (x <? a + Z.of_nat (length b)) then b.[x - a] else f x.

Lemma splice_total o b l x : fits o b l -> 0 <= x < Z.of_nat (length l) ->
  (splice o b l).[x] = if (o <=? x) && (x <? o + Z.of_nat (length b)) then b.[x - o] else l.[x].
Proof.
  intros Hf Hx. pose proof Hf as [Ho Hl]. rewrite !list_lookup_total_alt, splice_lookup by done.
  case_decide as Hd.
  - rewrite (proj2 (Z.leb_le _ _)), (proj2 (Z.ltb_lt _ _)) by lia. simpl.
    by replace (Z.to_nat x - Z.to_nat o)%nat with (Z.to_nat (x - o)) by lia.
  - destruct (Z.leb_spec o x), (Z.ltb_spec x (o + Z.of_nat (length b))); simpl; done || lia.
Qed.

Lemma flat_write v q o b : (forall q, is_sector (v q)) -> 0 <= o -> o + Z.of_nat (length b) <= 512 -> Forall is_byte b ->
  let sector := words_of_bytes (splice o b (sector_bytes v q)) in
  is_sector sector /\
  forall x, flat (view_upd v q sector) x = flat_upd (flat v) (512 * q + o) b x.
Proof.
  intros Hs Ho Hb Hbyte sector. pose proof (sector_bytes_length v q (Hs q)) as Hlen.
  assert (fits o b (sector_bytes v q)) as Hfit by (split; lia).
  assert (length (splice o b (sector_bytes v q)) = (2 * 256)%nat) as Hl by (rewrite splice_length; [lia|done]).
  split; [by apply (words_of_bytes_length 256)|]. intros x. unfold flat at 1, flat_upd, sector_bytes, view_upd.
  pose proof (Z_div_mod_eq_full x 512) as Hx. pose proof (Z.mod_pos_bound x 512 ltac:(lia)) as Hm.
  destruct (Z.eqb_spec q (x / 512)) as [->|Hne].
  - subst sector. rewrite (bytes_words_bytes 256); [|done|].
    2:{ apply Forall_splice; [done|apply bytes_of_words_byte]. }
    rewrite splice_total by (done || lia).
    replace ((512 * (x / 512) + o <=? x) && (x <? 512 * (x / 512) + o + Z.of_nat (length b)))
      with ((o <=? x mod 512) && (x mod 512 <? o + Z.of_nat (length b))).
    + case_match; [f_equal; lia|done].
    + apply eq_true_iff_eq. rewrite !andb_true_iff, !Z.leb_le, !Z.ltb_lt. lia.
  - destruct ((512 * q + o <=? x) && (x <? 512 * q + o + Z.of_nat (length b))) eqn:E; [|done].
    bsimpl. exfalso. apply Hne. apply Z.div_unique with (x - 512 * q); lia.
Qed.

Lemma flat_upd_app f a b1 b2 x :
  flat_upd (flat_upd f a b1) (a + Z.of_nat (length b1)) b2 x = flat_upd f a (b1 ++ b2) x.
Proof.
  unfold flat_upd. rewrite length_app.
  destruct (Z.leb_spec a x), (Z.ltb_spec x (a + Z.of_nat (length b1)));
    destruct (Z.leb_spec (a + Z.of_nat (length b1)) x), (Z.ltb_spec x (a + Z.of_nat (length b1) + Z.of_nat (length b2)));
    destruct (Z.ltb_spec x (a + Z.of_nat (length b1 + length b2))); simpl; try lia; try done.
  - by rewrite lookup_total_app_l by lia.
  - rewrite lookup_total_app_r by lia. f_equal. lia.
Qed.

Lemma flat_upd_ext f g a b x : (forall y, f y = g y) -> flat_upd f a b x = flat_upd g a b x.
Proof. intros Hfg. unfold flat_upd. by rewrite Hfg. Qed.

Lemma flat_upd_nil f a x : flat_upd f a [] x = f x.
Proof.
  unfold flat_upd. case_match eqn:E; [|done]. simpl in E. bsimpl. lia.
Qed.

(** Reading back the range that was replaced. *)
Lemma flat_upd_read f a b : map (flat_upd f a b) (seqZ a (Z.of_nat (length b))) = b.
Proof.
  apply list_eq. intros i. rewrite list_lookup_fmap. destruct (decide (i < length b)%nat) as [Hi|Hi].
  - rewrite lookup_seqZ_lt by lia. simpl. unfold flat_upd.
    rewrite (proj2 (Z.leb_le _ _)), (proj2 (Z.ltb_lt _ _)) by lia. simpl.
    replace (Z.to_nat (a + Z.of_nat i - a)) with i by lia. symmetry. by apply list_lookup_lookup_total_lt.
  - rewrite lookup_seqZ_ge, lookup_ge_None_2 by lia. done.
Qed.

(** ** The loops *)

Section Files.
Context {D : Type} `{WorkingDev D} `{AtaFlag D}.
Implicit Types s : Tfs D.

(** The disk below works and holds the sectors [v]. *)
Definition on (v : Z -> list Z) s : Prop := cached (tfs_disk s) v /\ forall q, is_sector (v q).
Definition same_files s s' : Prop := root_directory s' = root_directory s /\ tfs_handles s' = tfs_handles s.

Lemma wp_on_disk {A} (m : ST (CachedDisk D) A) (Q : Tfs D -> A -> Prop) s :
  wp m (fun d a => Q (s <| tfs_disk := d |>) a) (tfs_disk s) -> wp (on_disk m) Q s.
Proof. unfold wp, on_disk. by destruct (m (tfs_disk s)). Qed.

Lemma read_on v s lba buf : on v s -> is_sector buf ->
  wp (on_disk (disk_read_sector lba buf)) (fun s' b => on v s' /\ same_files s s' /\ b = v lba) s.
Proof.
  intros [Hc Hs] Hb. apply wp_on_disk. eapply wp_mono; [by apply disk_read_ok|].
  intros d b [Hc' ->]. done.
Qed.

Lemma write_on v s lba buf : on v s -> is_sector buf ->
  wp (on_disk (disk_write_sector lba buf)) (fun s' _ => on (view_upd v lba buf) s' /\ same_files s s') s.
Proof.
  intros [Hc Hs] Hb. apply wp_on_disk. eapply wp_mono; [by apply disk_write_ok|].
  intros d b Hc'. split; [split; [done|]|done]. intros q. unfold view_upd. by case_match.
Qed.

Lemma same_files_trans s1 s2 s3 : same_files s1 s2 -> same_files s2 s3 -> same_files s1 s3.
Proof. intros [? ?] [? ?]. split; congruence. Qed.

Section Range.
Context (lba pos size : Z) (Hlba : 0 <= lba) (Hpos : 0 <= pos) (Hend : lba * 512 + pos + size < 2 ^ 32).

(** One turn: the sector, the offset in it and the length of the piece. *)
Lemma turn total : 0 <= total < size ->
  let abs_pos := pos +u total in
  let o := abs_pos mod TFS_SECTOR_SIZE in
  let q := lba +u (abs_pos / TFS_SECTOR_SIZE) in
  let c := TFS_SECTOR_SIZE -u o in
  let chunk := if size -u total <? c then size -u total else c in
  512 * q + o = 512 * lba + pos + total /\ 0 <= o /\ 0 < chunk /\ o + chunk <= 512 /\ total + chunk <= size /\
  total +u chunk = total + chunk /\ q = lba + (pos + total) / 512 /\
  (chunk = size - total \/ o + chunk = 512).
Proof.
  intros Ht abs_pos o q c chunk. unfold TFS_SECTOR_SIZE in *.
  assert (abs_pos = pos + total) as Ha by (subst abs_pos; apply u32_small; lia).
  pose proof (Z.mod_pos_bound abs_pos 512 ltac:(lia)) as Ho. fold o in Ho.
  pose proof (Z_div_mod_eq_full abs_pos 512) as Hd. fold o in Hd.
  assert (0 <= abs_pos / 512) by (apply Z.div_pos; lia).
  assert (q = lba + abs_pos / 512) as Hq by (subst q; apply u32_small; lia).
  assert (c = 512 - o) as Hc by (subst c; apply u32_small; lia).
  assert (size -u total = size - total) as Hst by (apply u32_small; lia).
  assert (chunk = Z.min (size - total) (512 - o)) as Hk.
  { subst chunk. rewrite Hst, Hc. destruct (Z.ltb_spec (size - total) (512 - o)); lia. }
  rewrite (u32_small (total + chunk)) by lia. rewrite Ha in *. lia.
Qed.

Lemma tfs_read_loop_ok v fuel : forall total sector s, on v s -> is_sector sector ->
  0 <= total <= size -> (Z.to_nat (size - total) <= fuel)%nat ->
  wp (tfs_read_loop lba pos size fuel total sector)
    (fun s' r => r = (size, map (flat v) (seqZ (512 * lba + pos + total) (size - total))) /\ on v s' /\ same_files s s') s.
Proof.
  induction fuel as [|fuel IH]; intros total sector s Hon Hsec Ht Hf; cbn [tfs_read_loop].
  { apply wp_ret. replace total with size by lia. rewrite Z.sub_diag. done. }
  destruct (Z.ltb_spec total size) as [Hlt|]; cbv zeta.
  2:{ apply wp_ret. replace total with size by lia. rewrite Z.sub_diag. done. }
  destruct (turn total) as (Hq & Ho & Hc & Hoc & Htc & Hu & _); [lia|].
  set (o := _ mod TFS_SECTOR_SIZE) in *. set (q := lba +u _) in *.
  set (chunk := if _ <? _ then _ else _) in *.
  eapply wp_seq; [by apply read_on|]. intros s1 b (Hon1 & Hsame1 & ->). rewrite Hu.
  eapply wp_seq; [apply IH; [done|apply Hon1|lia|lia]|]. intros s2 r (-> & Hon2 & Hsame2).
  apply wp_ret. split; [|split; [done|by eapply same_files_trans]]. f_equal.
  change (bytes_of_words (v q)) with (sector_bytes v q).
  rewrite (slice_flat v q o chunk), Hq, <- map_app by (apply Hon || lia). f_equal.
  replace (512 * lba + pos + (total + chunk)) with (512 * lba + pos + total + chunk) by lia.
  replace (size - total) with (chunk + (size - (total + chunk))) by lia.
  by rewrite <- seqZ_app by lia.
Qed.

(** The bytes a write can store before the end of the data area. *)
Definition room : Z := Z.min size (Z.max 0 (512 * (TFS_DATA_START + TFS_MAX_FILES - lba) - pos)).

Lemma tfs_write_loop_ok src (Hsrc : Z.of_nat (length src) = size) (Hb : Forall is_byte src) fuel :
  forall total sector s v, on v s -> is_sector sector ->
  0 <= total <= room -> (Z.to_nat (size - total) <= fuel)%nat ->
  wp (tfs_write_loop lba src pos size fuel total sector)
    (fun s' n => n = room /\ same_files s s' /\ exists v', on v' s' /\
       forall x, flat v' x = flat_upd (flat v) (512 * lba + pos + total) (slice total (room - total) src) x) s.
Proof.
  assert (room <= size) as Hroom by (unfold room; lia).
  assert (forall v s total, total = room -> on v s -> total = room /\ same_files s s /\ exists v', on v' s /\
    forall x, flat v' x = flat_upd (flat v) (512 * lba + pos + total) (slice total (room - total) src) x) as Hdone.
  { intros v s total -> Hon. split_and!; try done. exists v. split; [done|]. intros x.
    by rewrite Z.sub_diag, slice_nil, flat_upd_nil. }
  induction fuel as [|fuel IH]; intros total sector s v Hon Hsec Ht Hf; cbn [tfs_write_loop].
  { apply wp_ret, Hdone; [lia|done]. }
  destruct (Z.ltb_spec total size) as [Hlt|]; cbv zeta; [|apply wp_ret, Hdone; [lia|done]].
  destruct (turn total) as (Hq & Ho & Hc & Hoc & Htc & Hu & Hqd & Hfull); [lia|].
  set (o := _ mod TFS_SECTOR_SIZE) in *. set (q := lba +u _) in *.
  set (chunk := if _ <? _ then _ else _) in *.
  destruct (Z.leb_spec (TFS_DATA_START + TFS_MAX_FILES) q) as [Hfar|Hnear].
  { apply wp_ret, Hdone; [|done]. unfold room in *. lia. }
  eapply wp_seq; [by apply read_on|]. intros s1 b (Hon1 & Hsame1 & ->).
  assert (Z.of_nat (length (slice total chunk src)) = chunk) as Hlen by (apply slice_length; lia).
  destruct (flat_write v q o (slice total chunk src)) as [Hsec' Hflat];
    [apply Hon|done|lia|by apply Forall_slice|].
  change (bytes_of_words (v q)) with (sector_bytes v q).
  eapply wp_seq; [by apply write_on|]. intros s2 _ (Hon2 & Hsame2). rewrite Hu.
  assert (total + chunk <= room) as Hnext by (unfold room in *; lia).
  eapply wp_mono; [apply IH; [exact Hon2|done|lia|lia]|].
  intros s3 n (-> & Hsame3 & v' & Hon' & Hflat').
  split; [done|]. split; [eapply same_files_trans; [done|]; by eapply same_files_trans|].
  exists v'. split; [done|]. intros x. rewrite Hflat'.
  rewrite (flat_upd_ext _ _ _ _ _ Hflat), Hq.
  replace (512 * lba + pos + (total + chunk))
    with (512 * lba + pos + total + Z.of_nat (length (slice total chunk src))) by lia.
  rewrite flat_upd_app, slice_join by lia. do 2 f_equal. lia.
Qed.
End Range.
End Files.

(** ** The directory in memory *)

Definition root_ok (root : list Z) : Prop := length root = Z.to_nat (FileEntry_size * TFS_MAX_FILES) /\ Forall is_byte root.

Section Root.
Context (root : list Z) (Hroot : root_ok root) (i : Z) (Hi : 0 <= i < TFS_MAX_FILES).

Lemma fe_field k : 0 <= k -> k + 4 <= FileEntry_size -> read_le32 root (fe_off i + k) = le_val (slice (fe_off i + k) 4 root).
Proof.
  destruct Hroot as [Hl Hb]. unfold fe_off, FileEntry_size, TFS_MAX_FILES in *. intros. apply read_le32_ok; [done|lia|lia].
Qed.

Lemma set_size_splice v : set_fe_size i v root = splice (fe_off i + 16) (le_bytes 4 v) root /\
  fits (fe_off i + 16) (le_bytes 4 v) root.
Proof.
  destruct Hroot as [Hl Hb]. unfold set_fe_size, fits, fe_off, FileEntry_size, TFS_MAX_FILES in *.
  rewrite write_le32_ok, le_bytes_length by (done || lia). split; [done|lia].
Qed.

Lemma set_size_ok v : root_ok (set_fe_size i v root).
Proof.
  destruct (set_size_splice v) as [-> Hf]. destruct Hroot as [Hl Hb].
  split; [by rewrite splice_length|]. apply Forall_splice; [apply le_bytes_byte|done].
Qed.
End Root.

Lemma fe_size_set root i v : root_ok root -> 0 <= i < TFS_MAX_FILES -> 0 <= v < 2 ^ 32 ->
  fe_size (set_fe_size i v root) i = v /\ fe_lba (set_fe_size i v root) i = fe_lba root i.
Proof.
  intros Hr Hi Hv. unfold fe_size, fe_lba.
  rewrite !(fe_field (set_fe_size i v root)), (fe_field root) by (try apply set_size_ok; done || unfold FileEntry_size; lia).
  destruct (set_size_splice root Hr i Hi v) as [-> Hf]. split.
  - pose proof (slice_splice_same _ _ _ Hf) as Hs. rewrite le_bytes_length in Hs.
    change (Z.of_nat 4) with 4 in Hs. rewrite Hs, le_val_bytes. change (256 ^ Z.of_nat 4) with (2 ^ 32).
    by rewrite Z.mod_small.
  - f_equal. unfold fe_off, FileEntry_size in *. apply slice_splice_other; [done|lia|lia|left; lia].
Qed.

(** ** The calls *)

Section Calls.
Context {D : Type} `{WorkingDev D} `{AtaFlag D}.
Context (stack : list Z) (Hstack : is_sector stack).
Implicit Types s : Tfs D.

(** An open handle on entry [i] at position [pos], and the state around it. *)
Record open_on (h i pos flags : Z) s : Prop := {
  oo_ok : thandle_ok s h = true;
  oo_len : length (tfs_handles s) = Z.to_nat TFS_MAX_HANDLES;
  oo_entry : th_entry_idx (tfs_handles s).[h] = i;
  oo_pos : th_pos (tfs_handles s).[h] = pos;
  oo_flags : th_flags (tfs_handles s).[h] = flags;
  oo_i : 0 <= i < TFS_MAX_FILES;
  oo_root : root_ok (root_directory s)
}.

Lemma thandle_range s h : thandle_ok s h = true -> 0 <= h < TFS_MAX_HANDLES.
Proof. unfold thandle_ok. intros Hh. bsimpl. lia. Qed.

(** Moving the handle and changing the directory. *)
Lemma open_on_move h i pos flags pos' (g : TfsHandle -> TfsHandle) s s' : open_on h i pos flags s ->
  (forall hd, g hd = hd <| th_pos := pos' |>) ->
  tfs_handles s' = alter g (Z.to_nat h) (tfs_handles s) -> root_ok (root_directory s') ->
  open_on h i pos' flags s'.
Proof.
  intros Ho Hg Hh Hr. pose proof Ho as [Hok Hl He Hp Hf Hi Hr0]. pose proof (thandle_range _ _ Hok) as Hrange.
  unfold TFS_MAX_HANDLES in *.
  assert ((tfs_handles s').[h] = g (tfs_handles s).[h]) as Hcell.
  { rewrite Hh, alter_cell by lia. apply cell_insert. lia. }
  rewrite Hg in Hcell. split; rewrite ?Hcell; try done.
  - unfold thandle_ok in *. rewrite Hcell. done.
  - unfold TFS_MAX_HANDLES. by rewrite Hh, length_alter.
Qed.

Lemma tfs_lseek_set h i pos flags s target v : open_on h i pos flags s -> on v s -> 0 <= target < 2 ^ 31 ->
  wp (tfs_lseek h target VFS_SEEK_SET) (fun s' rc => rc = target /\ open_on h i target flags s' /\ on v s' /\
    root_directory s' = root_directory s) s.
Proof.
  intros Ho Hon Ht. unfold tfs_lseek. apply wp_get. rewrite (oo_ok _ _ _ _ _ Ho). simpl.
  rewrite Z.add_0_l, i32_small by lia. destruct (Z.ltb_spec target 0); [lia|].
  apply wp_bind, wp_modify, wp_ret. split_and!; try done; try apply Hon.
  eapply open_on_move; [done| |done|apply Ho]. intros hd. by rewrite u32_small by lia.
Qed.

Lemma tfs_read_ok h i pos flags size s v : open_on h i pos flags s -> on v s -> Z.testbit flags 0 = true ->
  let root := root_directory s in let lba := fe_lba root i in
  0 < size -> 0 <= lba -> 0 <= pos -> 0 <= fe_size root i -> lba * 512 + fe_size root i < 2 ^ 31 -> 0 <= size < 2 ^ 32 ->
  let n := Z.max 0 (Z.min size (fe_size root i - pos)) in
  wp (tfs_read stack h false size)
    (fun s' r => r = (n, map (flat v) (seqZ (512 * lba + pos) n)) /\ on v s' /\ root_directory s' = root) s.
Proof.
  intros Ho Hon Hflag root lba Hsize Hlba Hpos Hfs Hend Hsz n. unfold tfs_read. apply wp_get.
  rewrite (oo_ok _ _ _ _ _ Ho), (oo_entry _ _ _ _ _ Ho), (oo_pos _ _ _ _ _ Ho), (oo_flags _ _ _ _ _ Ho). simpl.
  destruct (Z.eqb_spec size 0); [lia|]. simpl.
  assert ((Z.land flags VFS_O_RDONLY =? 0) = false) as ->.
  { pose proof (land_one_bit flags 0 ltac:(lia)) as Hb. rewrite Hflag in Hb. by apply negb_true_iff in Hb. }
  simpl. fold root lba. destruct (Z.leb_spec (fe_size root i) pos) as [Hpast|Hin].
  { apply wp_ret. replace n with 0 by lia. split_and!; try done; apply Hon. }
  rewrite (u32_small (fe_size root i - pos)) by lia.
  replace (if fe_size root i - pos <? size then fe_size root i - pos else size) with n
    by (destruct (Z.ltb_spec (fe_size root i - pos) size); lia).
  eapply wp_seq.
  { eapply (tfs_read_loop_ok lba pos n Hlba Hpos ltac:(lia) v); [exact Hon|exact Hstack|lia|lia]. }
  intros s1 r (-> & Hon1 & Hsame1). apply wp_bind, wp_modify, wp_ret. rewrite i32_small by lia.
  rewrite Z.add_0_r, Z.sub_0_r. split_and!; try done; [apply Hon1..|]. apply Hsame1.
Qed.

Lemma tfs_write_ok h i pos flags src s v : open_on h i pos flags s -> on v s -> Z.testbit flags 1 = true ->
  let root := root_directory s in let lba := fe_lba root i in let len := Z.of_nat (length src) in
  0 < len -> Forall is_byte src -> TFS_DIR_LBA < lba -> 0 <= pos -> 0 <= fe_size root i < 2 ^ 32 ->
  lba * 512 + pos + len < 2 ^ 31 ->
  let n := room lba pos len in
  wp (tfs_write stack h (Some src) len)
    (fun s' rc => rc = n /\ open_on h i (pos + n) flags s' /\
       fe_lba (root_directory s') i = lba /\ fe_size (root_directory s') i = Z.max (fe_size root i) (pos + n) /\
       exists v', on v' s' /\ forall x, x / 512 <> TFS_DIR_LBA ->
         flat v' x = flat_upd (flat v) (512 * lba + pos) (take (Z.to_nat n) src) x) s.
Proof.
  intros Ho Hon Hflag root lba len Hlen Hbytes Hlba Hpos Hfs Hend n. unfold tfs_write. apply wp_get.
  unfold TFS_DIR_LBA in Hlba. assert (0 <= n <= len) as Hn by (subst n; unfold room; lia).
  rewrite (oo_ok _ _ _ _ _ Ho), (oo_entry _ _ _ _ _ Ho), (oo_pos _ _ _ _ _ Ho), (oo_flags _ _ _ _ _ Ho). simpl.
  fold len root lba. destruct (Z.eqb_spec len 0); [lia|].
  assert (has_flag flags VFS_O_WRONLY = true) as ->.
  { unfold has_flag. rewrite <- Hflag. apply (land_one_bit flags 1). lia. }
  simpl. eapply wp_seq.
  { eapply (tfs_write_loop_ok lba pos len ltac:(lia) Hpos ltac:(lia) src eq_refl Hbytes _ 0 stack s v); [done..| |lia].
    fold n. lia. }
  intros s1 k (-> & [Hr1 Hh1] & v1 & Hon1 & Hflat). fold n in Hflat. rewrite Z.add_0_r, Z.sub_0_r in Hflat.
  fold n. rewrite (u32_small (pos + n)) by lia. apply wp_bind, wp_modify. set (s2 := s1 <| tfs_handles ::= _ |>).
  assert (on v1 s2) as Hon2 by done.
  assert (root_directory s2 = root) as Hr2 by done.
  assert (slice 0 n src = take (Z.to_nat n) src) as Hsl by done. rewrite Hsl in Hflat.
  destruct (Z.ltb_spec (fe_size root i) (pos + n)) as [Hgrow|Hkeep].
  - apply wp_bind. apply wp_bind, wp_modify. set (s3 := s2 <| root_directory ::= _ |>).
    pose proof (set_size_ok root (oo_root _ _ _ _ _ Ho) i (oo_i _ _ _ _ _ Ho) (pos + n)) as Hok3.
    assert (root_directory s3 = set_fe_size i (pos + n) root) as Hr3 by (subst s3 s2; cbn; by rewrite Hr1).
    unfold write_dir. apply wp_get. eapply wp_mono.
    { apply (write_on v1 s3); [done|]. rewrite Hr3. apply (words_of_bytes_length 256). rewrite length_take.
      destruct Hok3 as [Hl3 _]. rewrite Hl3. unfold FileEntry_size, TFS_MAX_FILES. lia. }
    intros s4 _ (Hon4 & Hr4 & Hh4). apply wp_ret. rewrite i32_small by lia. rewrite Hr4, Hr3.
    destruct (fe_size_set root i (pos + n)) as [-> ->]; [apply Ho|apply Ho|lia|].
    split; [done|]. split; [|split; [done|]; split; [lia|]].
    + eapply open_on_move with (g := fun h => h <| th_pos := pos + n |>);
        [exact Ho|done|rewrite Hh4; subst s3 s2; cbn; by rewrite Hh1|by rewrite Hr4, Hr3].
    + eexists. split; [exact Hon4|]. intros x Hx. rewrite <- Hflat. unfold flat, sector_bytes, view_upd.
      destruct (Z.eqb_spec TFS_DIR_LBA (x / 512)); [lia|done].
  - apply wp_bind, wp_ret, wp_ret. rewrite i32_small by lia. rewrite Hr2.
    split; [done|]. split; [|split; [done|]; split; [lia|]].
    + eapply open_on_move with (g := fun h => h <| th_pos := pos + n |>);
        [exact Ho|done|subst s2; cbn; by rewrite Hh1|rewrite Hr2; apply Ho].
    + exists v1. split; [done|]. intros x _. apply Hflat.
Qed.

(** C30: on a working disk a write through an open TFS handle stores as many bytes as
    the data area holds from the file's first sector on, keeps them in order, and
    changes no other byte of the disk outside the directory sector; after a seek back
    the same handle reads exactly those bytes, and the file is at least as long as
    the end of the write. *)
Theorem tfs_write_read_roundtrip h i pos flags src s v :
  open_on h i pos flags s -> on v s -> Z.testbit flags 0 = true -> Z.testbit flags 1 = true ->
  let root := root_directory s in let lba := fe_lba root i in let len := Z.of_nat (length src) in
  0 < len -> Forall is_byte src -> TFS_DIR_LBA < lba -> 0 <= pos -> 0 <= fe_size root i ->
  lba * 512 + pos + len < 2 ^ 31 -> lba * 512 + fe_size root i < 2 ^ 31 ->
  let n := Z.min len (Z.max 0 (512 * (TFS_DATA_START + TFS_MAX_FILES - lba) - pos)) in
  exists s1 s2 s3 v',
    tfs_write stack h (Some src) len s = (s1, n) /\
    tfs_lseek h pos VFS_SEEK_SET s1 = (s2, pos) /\
    (0 < n -> tfs_read stack h false n s2 = (s3, (n, take (Z.to_nat n) src))) /\
    fe_size (root_directory s1) i = Z.max (fe_size root i) (pos + n) /\
    on v' s1 /\ forall x, x / 512 <> TFS_DIR_LBA -> x < 512 * lba + pos \/ 512 * lba + pos + n <= x -> flat v' x = flat v x.
Proof.
  intros Ho Hon Hr Hw root lba len Hlen Hb Hlba Hpos Hfs Hend Hend2 n. unfold TFS_DIR_LBA in Hlba.
  pose proof (tfs_write_ok h i pos flags src s v Ho Hon Hw) as Hwr. cbv zeta in Hwr. fold root lba len in Hwr.
  specialize (Hwr Hlen Hb Hlba Hpos ltac:(lia) Hend). fold (room lba pos len) in n.
  change (room lba pos len) with n in Hwr.
  apply wp_run in Hwr as (s1 & rc & Hwr & -> & Ho1 & Hlba1 & Hsz1 & v1 & Hon1 & Hflat).
  assert (0 <= n <= len) as Hn by (subst n; unfold room; lia).
  clearbody n.
  pose proof (tfs_lseek_set h i (pos + n) flags s1 pos v1 Ho1 Hon1 ltac:(lia)) as Hsk.
  apply wp_run in Hsk as (s2 & rc & Hsk & -> & Ho2 & Hon2 & Hroot2).
  pose proof (tfs_read_ok h i pos flags n s2 v1 Ho2 Hon2 Hr) as Hrd. cbv zeta in Hrd.
  rewrite Hroot2, Hlba1, Hsz1 in Hrd.
  replace (Z.max 0 (Z.min n (Z.max (fe_size root i) (pos + n) - pos))) with n in Hrd by lia.
  assert (length (take (Z.to_nat n) src) = Z.to_nat n) as Hln by (rewrite length_take; subst len; lia).
  assert (forall x, x < 512 * lba + pos \/ 512 * lba + pos + n <= x ->
    flat_upd (flat v) (512 * lba + pos) (take (Z.to_nat n) src) x = flat v x) as Hout.
  { intros x Hx. unfold flat_upd. rewrite Hln. case_match eqn:E; [|done]. bsimpl. lia. }
  destruct (decide (0 < n)) as [Hnpos|Hz].
  - specialize (Hrd Hnpos ltac:(lia) Hpos ltac:(lia) ltac:(lia) ltac:(lia)).
    apply wp_run in Hrd as (s3 & r & Hrd & -> & _). exists s1, s2, s3, v1. split_and!; try done; try apply Hon1.
    + intros _. rewrite Hrd. do 2 f_equal.
      pose proof (flat_upd_read (flat v) (512 * lba + pos) (take (Z.to_nat n) src)) as Hback.
      rewrite Hln, Z2Nat.id in Hback by lia.
      transitivity (map (flat_upd (flat v) (512 * lba + pos) (take (Z.to_nat n) src)) (seqZ (512 * lba + pos) n));
        [|done]. apply map_ext_in. intros x Hx%list_elem_of_In%elem_of_seqZ.
      apply Hflat. intros Hd. pose proof (Z_div_mod_eq_full x 512). pose proof (Z.mod_pos_bound x 512 ltac:(lia)).
      unfold TFS_DIR_LBA in Hd. lia.
    + intros x Hx Ho'. rewrite Hflat by done. by apply Hout.
  - exists s1, s2, s2, v1. split_and!; try done; try apply Hon1.
    intros x Hx Ho'. rewrite Hflat by done. by apply Hout.
Qed.
End Calls.

(** ** A concrete disk *)

(** Two files a and b of three bytes each, in the sectors 200 and 201. *)
Definition demo_root : list Z :=
  let entry i c r := set_fe_flags i 1 (set_fe_size i 3 (set_fe_lba i (TFS_DATA_START + i) (set_fe_name i [c] r))) in
  entry 1 98 (entry 0 97 (replicate 600 0)).
Definition demo_tfs_disk : MemDisk := {| md_data := {[201 := replicate 256 0x0707]}; md_bad := ∅ |}.
Definition demo_tfs (flags : Z) : Tfs MemDisk :=
  {| root_directory := demo_root;
     tfs_handles := Build_TfsHandle 1 1 0 1 flags :: replicate 255 (Build_TfsHandle 0 0 (-1) 0 0);
     tfs_disk := {| cd_cache := cache_boot demo_tfs_disk; cd_reads := 0; cd_writes := 0 |} |}.

Lemma demo_tfs_on flags : on (dev_content demo_tfs_disk) (demo_tfs flags).
Proof.
  assert (dev_inv demo_tfs_disk) as Hi by (apply map_Forall_singleton; vm_compute; reflexivity).
  split; [split; [by apply cache_boot_coh|done]|]. intros q. by apply dev_content_sector.
Qed.

Lemma demo_root_ok : root_ok demo_root.
Proof.
  split; [vm_compute; reflexivity|]. apply Forall_lookup_2. intros i x Hx.
  assert (forallb (fun b => (0 <=? b) && (b <? 256)) demo_root = true) as Hf by (vm_compute; reflexivity).
  rewrite forallb_forall in Hf. specialize (Hf x). rewrite <- list_elem_of_In in Hf.
  specialize (Hf (list_elem_of_lookup_2 _ _ _ Hx)). bsimpl. unfold is_byte. lia.
Qed.

Lemma demo_tfs_open flags : open_on 0 0 1 flags (demo_tfs flags).
Proof. split; try (vm_compute; reflexivity); [unfold TFS_MAX_FILES; lia|apply demo_root_ok]. Qed.

Lemma tfs_write_read_roundtrip_witness :
  exists s1 s2 s3,
    tfs_write zero_sector 0 (Some (replicate 600 9)) 600 (demo_tfs VFS_O_RDWR) = (s1, 600) /\
    tfs_lseek 0 1 VFS_SEEK_SET s1 = (s2, 1) /\
    tfs_read zero_sector 0 false 600 s2 = (s3, (600, replicate 600 9)).
Proof.
  destruct (tfs_write_read_roundtrip zero_sector zero_sector_ok 0 0 1 VFS_O_RDWR (replicate 600 9) (demo_tfs VFS_O_RDWR)
    (dev_content demo_tfs_disk)) as (s1 & s2 & s3 & v' & Hw & Hl & Hr & _).
  - apply demo_tfs_open.
  - apply demo_tfs_on.
  - reflexivity.
  - reflexivity.
  - rewrite length_replicate. lia.
  - apply Forall_replicate. unfold is_byte. lia.
  - vm_compute. reflexivity.
  - lia.
  - vm_compute. discriminate.
  - vm_compute. reflexivity.
  - vm_compute. reflexivity.
  - exists s1, s2, s3. split_and!; [exact Hw|exact Hl|]. apply Hr. vm_compute. reflexivity.
Defined.

(** A file longer than a sector runs into the next file: the bytes of b are gone. *)
Example tfs_write_spills :
  let s := fst (tfs_write zero_sector 0 (Some (replicate 600 9)) 600 (demo_tfs VFS_O_RDWR)) in
  fe_lba (root_directory s) 1 = 201 /\
  snd (disk_read_sector 201 zero_sector (tfs_disk (demo_tfs VFS_O_RDWR))) = replicate 256 0x0707 /\
  take 3 (bytes_of_words (snd (disk_read_sector 201 zero_sector (tfs_disk s)))) = [9; 9; 9].
Proof. vm_compute. split_and!; reflexivity. Qed.

(** A handle opened for reading only can be written. *)
Example tfs_read_only_handle_writes :
  snd (tfs_write zero_sector 0 (Some [5]) 1 (demo_tfs VFS_O_RDONLY)) = 1.
Proof. vm_compute. reflexivity. Qed.

(** The last entries of the directory are not in the sector: an entry made in slot 22 is
    not on the disk. *)
Example tfs_directory_longer_than_sector :
  Z.of_nat (length (root_directory (demo_tfs 0))) = 600 /\ fe_off 21 + FileEntry_size > 512.
Proof. vm_compute. split; reflexivity. Qed.
