(* ===== verification/Vfs.v ===== *)
(** * The virtual file system (kernel/vfs.c)

    Mounts, the global descriptor table with its reference counts and the descriptor
    table of each task.  The backends are an interface: a type [B] of backend names, a
    state [X] and for each name the table [VfsBackendOps] of its calls. *)
From S2P Require Import Prelude Bytes VfsDefs Ext2Dir.

Definition VFS_MAX_MOUNTS : Z := 8.
Definition VFS_MAX_GLOBAL_FDS : Z := 512.
Definition TASK_MAX_FDS : Z := 256.
Definition MAX_TASKS : Z := 8.
Definition VFS_F_GETFL : Z := 1.
Definition VFS_F_SETFL : Z := 2.

(** A table of calls; a null pointer is [None]. *)
Record VfsBackendOps (X : Type) := {
  o_open : option (list Z -> Z -> ST X Z);
  o_read : option (Z -> bool -> Z -> ST X (Z * list Z));
  o_write : option (Z -> option (list Z) -> Z -> ST X Z);
  o_close : option (Z -> ST X Z);
  o_delete : option (list Z -> ST X Z);
  o_lseek : option (Z -> Z -> Z -> ST X Z);
  o_stat : option (list Z -> bool -> ST X (Z * option VfsFileStat));
  o_rename : option (list Z -> list Z -> ST X Z);
  o_mkdir : option (list Z -> Z -> ST X Z);
  o_rmdir : option (list Z -> ST X Z);
  o_truncate : option (list Z -> Z -> ST X Z);
  o_ftruncate : option (Z -> Z -> ST X Z);
  o_chmod : option (list Z -> Z -> ST X Z);
  o_chown : option (list Z -> Z -> Z -> ST X Z);
  o_link : option (list Z -> list Z -> ST X Z);
  o_symlink : option (list Z -> list Z -> ST X Z);
  o_readlink : option (list Z -> Z -> ST X (Z * list Z))
}.
Arguments o_open {X} _.
Arguments o_read {X} _.
Arguments o_write {X} _.
Arguments o_close {X} _.
Arguments o_delete {X} _.
Arguments o_lseek {X} _.
Arguments o_stat {X} _.
Arguments o_rename {X} _.
Arguments o_mkdir {X} _.
Arguments o_rmdir {X} _.
Arguments o_truncate {X} _.
Arguments o_ftruncate {X} _.
Arguments o_chmod {X} _.
Arguments o_chown {X} _.
Arguments o_link {X} _.
Arguments o_symlink {X} _.
Arguments o_readlink {X} _.

Class Backends (X B : Type) := { backend_ops : B -> VfsBackendOps X }.

Section Types.
Context (X B : Type).

Record VfsMount := { m_used : Z; m_path : list Z; m_len : Z; m_ops : option B }.
Record VfsFd := { f_used : Z; f_ops : option B; f_backend_handle : Z; f_flags : Z; f_ref_count : Z }.

(** The static tables, [os_current_task] as the scheduler leaves it, and the backends.
    [task_fd_map] is the two-dimensional array, row after row. *)
Record Vfs := {
  mounts : list VfsMount; fd_table : list VfsFd; task_fd_map : list Z; os_current_task : Z; backend : X
}.
End Types.
Arguments Build_VfsMount {B} _ _ _ _.
Arguments m_used {B} _.
Arguments m_path {B} _.
Arguments m_len {B} _.
Arguments m_ops {B} _.
Arguments Build_VfsFd {B} _ _ _ _ _.
Arguments f_used {B} _.
Arguments f_ops {B} _.
Arguments f_backend_handle {B} _.
Arguments f_flags {B} _.
Arguments f_ref_count {B} _.
Arguments Build_Vfs {X B} _ _ _ _ _.
Arguments mounts {X B} _.
Arguments fd_table {X B} _.
Arguments task_fd_map {X B} _.
Arguments os_current_task {X B} _.
Arguments backend {X B} _.

#[export] Instance VfsFd_fields B : Fields (VfsFd B) := fun r =>
  {| f_used := f_used r; f_ops := f_ops r; f_backend_handle := f_backend_handle r; f_flags := f_flags r;
     f_ref_count := f_ref_count r |}.
#[export] Instance Vfs_fields X B : Fields (Vfs X B) := fun r =>
  {| mounts := mounts r; fd_table := fd_table r; task_fd_map := task_fd_map r;
     os_current_task := os_current_task r; backend := backend r |}.
#[export] Instance VfsMount_inh B : Inhabited (VfsMount B) := populate (Build_VfsMount 0 [] 0 None).
#[export] Instance VfsFd_inh B : Inhabited (VfsFd B) := populate (Build_VfsFd 0 None (-1) 0 0).

Definition no_fd {B} : VfsFd B := Build_VfsFd 0 None (-1) 0 0.
Definition no_mount_entry {B} : VfsMount B := Build_VfsMount 0 [] 0 None.

(** ** Mounts *)

Definition root_path : list Z := [slash].

(** At most [size - 1] characters of a string. *)
Definition copy_path (size : Z) (src : list Z) : list Z := take (Z.to_nat (size - 1)) src.

Definition str_prefix (s prefix : list Z) : bool := bool_decide (take (length prefix) s = prefix).

(** [path[ml]] is the end of the string or a slash. *)
Definition at_boundary (path : list Z) (ml : Z) : bool :=
  match path !! Z.to_nat ml with None => true | Some c => c =? slash end.

Section Mounts.
Context {B : Type}.
Implicit Types ms : list (VfsMount B).

Definition better (ms : list (VfsMount B)) (m : VfsMount B) (best : option nat) : bool :=
  match best with None => true | Some b => m_len (ms !!! b) <? m_len m end.

(** The loop of [resolve_mount] from index [i] on. *)
Fixpoint resolve_loop (ms : list (VfsMount B)) (path : list Z) (i n : nat) (best : option nat) : option nat :=
  match n with
  | O => best
  | S n' =>
      let m := ms !!! i in
      let best :=
        if m_used m =? 0 then best
        else if str_eq (m_path m) root_path then (match best with None => Some i | _ => best end)
        else if str_prefix path (m_path m) && at_boundary path (m_len m) && better ms m best then Some i
        else best in
      resolve_loop ms path (S i) n' best
  end.

(** The backend of a path and the path within it. *)
Definition resolve_mount (ms : list (VfsMount B)) (path : list Z) : option (option B * list Z) :=
  best ← resolve_loop ms path 0 (Z.to_nat VFS_MAX_MOUNTS) None;
  let m := ms !!! best in
  Some (m_ops m,
        if str_eq (m_path m) root_path then path
        else match drop (Z.to_nat (m_len m)) path with [] => root_path | rel => rel end).

Definition find_mount (ms : list (VfsMount B)) (path : list Z) : option nat :=
  find_idx (fun m => negb (m_used m =? 0) && str_eq (m_path m) path) ms.

Definition mount_at (path : list Z) (ops : B) (ms : list (VfsMount B)) : list (VfsMount B) * Z :=
  match find_mount ms path with
  | Some i => (alter (fun m => Build_VfsMount (m_used m) (m_path m) (m_len m) (Some ops)) i ms, VFS_OK)
  | None =>
      match find_idx (fun m => m_used m =? 0) ms with
      | Some i =>
          let p := copy_path 24 path in
          (<[i := Build_VfsMount 1 p (Z.of_nat (length p)) (Some ops)]> ms, VFS_OK)
      | None => (ms, VFS_ERR_NO_SPACE)
      end
  end.

Definition starts_with_slash (path : list Z) : bool := match path with c :: _ => c =? slash | [] => false end.
End Mounts.

Section Calls.
Context {X B : Type} `{Backends X B} `{EqDecision B}.

Definition vfs_mount (mount_path : option (list Z)) (ops : option B) : ST (Vfs X B) Z := fun s =>
  match mount_path, ops with
  | Some path, Some b =>
      if negb (starts_with_slash path) then (s, VFS_ERR_INVALID_ARG)
      else let '(ms, rc) := mount_at path b (mounts s) in (s <| mounts := ms |>, rc)
  | _, _ => (s, VFS_ERR_INVALID_ARG)
  end.

Definition vfs_umount (mount_path : option (list Z)) : ST (Vfs X B) Z := fun s =>
  match mount_path with
  | Some path =>
      if negb (starts_with_slash path) then (s, VFS_ERR_INVALID_ARG)
      else if str_eq path root_path then (s, VFS_ERR_PERM)
      else match find_mount (mounts s) path with
           | Some i => (s <| mounts ::= <[i := no_mount_entry]> |>, VFS_OK)
           | None => (s, VFS_ERR_NOT_FOUND)
           end
  | None => (s, VFS_ERR_INVALID_ARG)
  end.

(** The result and the entries stored at the start of the array. *)
Definition vfs_list_mounts (out_null : bool) (max_entries : Z) : ST (Vfs X B) (Z * list (list Z)) := fun s =>
  if out_null || (max_entries <=? 0) then (s, (VFS_ERR_INVALID_ARG, []))
  else
    let used := List.filter (fun m => negb (m_used m =? 0)) (mounts s) in
    let out := map (fun m => copy_path 24 (m_path m)) (take (Z.to_nat max_entries) used) in
    (s, (Z.of_nat (length out), out)).

(** ** Descriptors *)

Definition current_task_id (s : Vfs X B) : Z :=
  if (os_current_task s <? 0) || (MAX_TASKS <=? os_current_task s) then 0 else os_current_task s.

(** The index of [task_fd_map[task_id][i]]. *)
Definition slot (task_id i : Z) : Z := TASK_MAX_FDS * task_id + i.
Definition fd_entry (s : Vfs X B) (task_id i : Z) : Z := (task_fd_map s).[slot task_id i].
Definition set_entry (task_id i gfd : Z) : ST (Vfs X B) unit :=
  modify (fun s => s <| task_fd_map ::= <[Z.to_nat (slot task_id i) := gfd]> |>).

Definition alloc_task_fd (s : Vfs X B) (task_id : Z) : Z :=
  idx_or_neg (find_idx (fun i => fd_entry s task_id i <? 0) (seqZ 0 TASK_MAX_FDS)).
Definition alloc_global_fd (s : Vfs X B) : Z := idx_or_neg (find_idx (fun f => f_used f =? 0) (fd_table s)).

Definition task_fd_to_global (s : Vfs X B) (local_fd : Z) : Z :=
  if (local_fd <? 0) || (TASK_MAX_FDS <=? local_fd) then -1 else fd_entry s (current_task_id s) local_fd.

Definition gfd_bad (s : Vfs X B) (gfd : Z) : bool :=
  (gfd <? 0) || (VFS_MAX_GLOBAL_FDS <=? gfd) || (f_used (fd_table s).[gfd] =? 0).

(** A call of the backend. *)
Definition on_backend {A} (m : ST X A) : ST (Vfs X B) A := fun s =>
  let '(x, a) := m (backend s) in (s <| backend := x |>, a).

Definition set_fd (gfd : Z) (f : VfsFd B -> VfsFd B) : ST (Vfs X B) unit :=
  modify (fun s => s <| fd_table ::= alter f (Z.to_nat gfd) |>).

Definition close_global_fd (gfd : Z) : ST (Vfs X B) Z :=
  s ← get;
  let f := (fd_table s).[gfd] in
  match f_ops f with
  | Some b =>
      if gfd_bad s gfd then mret VFS_ERR_INVALID_FD
      else if 1 <? f_ref_count f then _ ← set_fd gfd (fun f => f <| f_ref_count ::= Z.pred |>); mret VFS_OK
      else
        rc ← (match o_close (backend_ops b) with
              | Some close => on_backend (close (f_backend_handle f))
              | None => mret VFS_OK
              end);
        _ ← set_fd gfd (fun _ => no_fd);
        mret rc
  | None => mret VFS_ERR_INVALID_FD
  end.

(** A call through an open descriptor: the backend and its handle, or the error. *)
Definition with_fd {A F} (fd : Z) (call : VfsBackendOps X -> option F) (err : Z -> A) (k : F -> Z -> ST X A) : ST (Vfs X B) A :=
  s ← get;
  let gfd := task_fd_to_global s fd in
  if gfd_bad s gfd then mret (err VFS_ERR_INVALID_FD)
  else
    let f := (fd_table s).[gfd] in
    match f_ops f with
    | None => mret (err VFS_ERR_INVALID_FD)
    | Some b => match call (backend_ops b) with
                | None => mret (err VFS_ERR_INVALID_FD)
                | Some c => on_backend (k c (f_backend_handle f))
                end
    end.

(** A call on a path: the backend's call on the path within it, or the error. *)
Definition with_path {A F} (path : list Z) (call : VfsBackendOps X -> option F) (err : Z -> A)
    (k : F -> list Z -> ST X A) : ST (Vfs X B) A :=
  s ← get;
  match resolve_mount (mounts s) path with
  | Some (Some b, rel) => match call (backend_ops b) with
                          | Some c => on_backend (k c rel)
                          | None => mret (err VFS_ERR_NOT_FOUND)
                          end
  | _ => mret (err VFS_ERR_NOT_FOUND)
  end.

(** The slots an open descriptor takes. *)
Definition install_fd (b : B) (backend_handle flags : Z) : ST (Vfs X B) Z :=
  s ← get;
  let gfd := alloc_global_fd s in
  let lfd := alloc_task_fd s (current_task_id s) in
  if (gfd <? 0) || (lfd <? 0) then
    _ ← (match o_close (backend_ops b) with
         | Some close => on_backend (close backend_handle)
         | None => mret 0
         end);
    mret VFS_ERR_NO_SPACE
  else
    _ ← set_fd gfd (fun _ => Build_VfsFd 1 (Some b) backend_handle flags 1);
    _ ← set_entry (current_task_id s) lfd gfd;
    mret lfd.

Definition vfs_open (path : option (list Z)) (flags : Z) : ST (Vfs X B) Z :=
  s ← get;
  match path with
  | None | Some [] => mret VFS_ERR_INVALID_ARG
  | Some p =>
      match resolve_mount (mounts s) p with
      | Some (Some b, rel) =>
          match o_open (backend_ops b) with
          | Some open =>
              backend_handle ← on_backend (open rel flags);
              if backend_handle <? 0 then mret backend_handle else install_fd b backend_handle flags
          | None => mret VFS_ERR_NOT_FOUND
          end
      | _ => mret VFS_ERR_NOT_FOUND
      end
  end.

Definition vfs_read (fd : Z) (buf_null : bool) (size : Z) : ST (Vfs X B) (Z * list Z) :=
  with_fd fd o_read (fun e => (e, [])) (fun read h => read h buf_null size).
Definition vfs_write (fd : Z) (buf : option (list Z)) (size : Z) : ST (Vfs X B) Z :=
  with_fd fd o_write id (fun write h => write h buf size).
Definition vfs_lseek (fd offset whence : Z) : ST (Vfs X B) Z :=
  with_fd fd o_lseek id (fun lseek h => lseek h offset whence).
Definition vfs_ftruncate (fd size : Z) : ST (Vfs X B) Z :=
  with_fd fd o_ftruncate id (fun ftruncate h => ftruncate h size).

Definition vfs_close (fd : Z) : ST (Vfs X B) Z :=
  s ← get;
  if (fd <? 0) || (TASK_MAX_FDS <=? fd) then mret VFS_ERR_INVALID_FD
  else
    let gfd := fd_entry s (current_task_id s) fd in
    if gfd <? 0 then mret VFS_ERR_INVALID_FD
    else _ ← set_entry (current_task_id s) fd (-1); close_global_fd gfd.

(** A second reference to a global descriptor. *)
Definition add_ref (gfd : Z) : ST (Vfs X B) unit := set_fd gfd (fun f => f <| f_ref_count ::= Z.succ |>).

Definition fd_unusable (s : Vfs X B) (gfd : Z) : bool :=
  gfd_bad s gfd || bool_decide (f_ops (fd_table s).[gfd] = None).

Definition vfs_dup (fd : Z) : ST (Vfs X B) Z :=
  s ← get;
  let gfd := task_fd_to_global s fd in
  if fd_unusable s gfd then mret VFS_ERR_INVALID_FD
  else
    let newfd := alloc_task_fd s (current_task_id s) in
    if newfd <? 0 then mret VFS_ERR_NO_SPACE
    else
      _ ← set_entry (current_task_id s) newfd gfd;
      _ ← add_ref gfd;
      mret newfd.

Definition vfs_dup2 (fd newfd : Z) : ST (Vfs X B) Z :=
  s ← get;
  let src_gfd := task_fd_to_global s fd in
  if fd_unusable s src_gfd then mret VFS_ERR_INVALID_FD
  else if (newfd <? 0) || (TASK_MAX_FDS <=? newfd) then mret VFS_ERR_INVALID_ARG
  else if fd =? newfd then mret newfd
  else
    _ ← (if 0 <=? fd_entry s (current_task_id s) newfd then vfs_close newfd else mret 0);
    _ ← set_entry (current_task_id s) newfd src_gfd;
    _ ← add_ref src_gfd;
    mret newfd.

Definition vfs_fcntl (fd cmd arg : Z) : ST (Vfs X B) Z :=
  s ← get;
  let gfd := task_fd_to_global s fd in
  if gfd_bad s gfd then mret VFS_ERR_INVALID_FD
  else if cmd =? VFS_F_GETFL then mret (f_flags (fd_table s).[gfd])
  else if cmd =? VFS_F_SETFL then _ ← set_fd gfd (fun f => f <| f_flags := arg |>); mret VFS_OK
  else mret VFS_ERR_INVALID_ARG.

Fixpoint close_entries (task_id : Z) (i n : nat) : ST (Vfs X B) unit :=
  match n with
  | O => mret tt
  | S n' =>
      s ← get;
      let gfd := fd_entry s task_id (Z.of_nat i) in
      _ ← (if 0 <=? gfd then _ ← set_entry task_id (Z.of_nat i) (-1); close_global_fd gfd else mret 0);
      close_entries task_id (S i) n'
  end.

Definition bad_task (task_id : Z) : bool := (task_id <? 0) || (MAX_TASKS <=? task_id).

Definition vfs_close_all (task_id : Z) : ST (Vfs X B) unit :=
  if bad_task task_id then mret tt else close_entries task_id 0 (Z.to_nat TASK_MAX_FDS).

Fixpoint clear_entries (task_id : Z) (i n : nat) : ST (Vfs X B) unit :=
  match n with
  | O => mret tt
  | S n' => _ ← set_entry task_id (Z.of_nat i) (-1); clear_entries task_id (S i) n'
  end.

Fixpoint clone_entries (src dst : Z) (i n : nat) : ST (Vfs X B) unit :=
  match n with
  | O => mret tt
  | S n' =>
      s ← get;
      let gfd := fd_entry s src (Z.of_nat i) in
      _ ← (if gfd_bad s gfd then mret tt
           else _ ← set_entry dst (Z.of_nat i) gfd; add_ref gfd);
      clone_entries src dst (S i) n'
  end.

Definition vfs_clone_task_fds (src_task_id dst_task_id : Z) : ST (Vfs X B) Z :=
  if bad_task src_task_id || bad_task dst_task_id then mret VFS_ERR_INVALID_ARG
  else
    _ ← clear_entries dst_task_id 0 (Z.to_nat TASK_MAX_FDS);
    _ ← clone_entries src_task_id dst_task_id 0 (Z.to_nat TASK_MAX_FDS);
    mret VFS_OK.

(** ** Whole files *)

Fixpoint read_file_loop (fd max_size : Z) (fuel : nat) (total : Z) (out : list Z) : ST (Vfs X B) (Z * list Z) :=
  match fuel with
  | O => mret (total, out)
  | S fuel' =>
      if u32 total <? max_size then
        '(n, bytes) ← vfs_read fd false (max_size -u u32 total);
        if n <? 0 then _ ← vfs_close fd; mret (n, out)
        else if n =? 0 then _ ← vfs_close fd; mret (total, out)
        else read_file_loop fd max_size fuel' (i32 (total + n)) (out ++ bytes)
      else _ ← vfs_close fd; mret (total, out)
  end.

Definition vfs_read_file (path : option (list Z)) (max_size : Z) : ST (Vfs X B) (Z * list Z) :=
  fd ← vfs_open path VFS_O_RDONLY;
  if fd <? 0 then mret (fd, []) else read_file_loop fd max_size (S (Z.to_nat max_size)) 0 [].

Fixpoint write_file_loop (fd : Z) (src : list Z) (size : Z) (fuel : nat) (total : Z) : ST (Vfs X B) Z :=
  match fuel with
  | O => mret total
  | S fuel' =>
      if u32 total <? size then
        n ← vfs_write fd (Some (drop (Z.to_nat total) src)) (size -u u32 total);
        if n <=? 0 then _ ← vfs_close fd; mret VFS_ERR_IO
        else write_file_loop fd src size fuel' (i32 (total + n))
      else _ ← vfs_close fd; mret total
  end.

Definition vfs_write_file (path : option (list Z)) (src : list Z) (size : Z) : ST (Vfs X B) Z :=
  fd ← vfs_open path (Z.lor (Z.lor VFS_O_WRONLY VFS_O_CREAT) VFS_O_TRUNC);
  if fd <? 0 then mret fd else write_file_loop fd src size (S (Z.to_nat size)) 0.

(** ** Calls on paths *)

Definition or_null {A} (path : option (list Z)) (err : Z -> A) (k : list Z -> ST (Vfs X B) A) : ST (Vfs X B) A :=
  match path with Some p => k p | None => mret (err VFS_ERR_INVALID_ARG) end.

Definition vfs_delete (path : option (list Z)) : ST (Vfs X B) Z :=
  match path with
  | None | Some [] => mret VFS_ERR_INVALID_ARG
  | Some p => with_path p o_delete id (fun delete rel => delete rel)
  end.

Definition vfs_stat (path : option (list Z)) (stat_null : bool) : ST (Vfs X B) (Z * option VfsFileStat) :=
  if stat_null then mret (VFS_ERR_INVALID_ARG, None)
  else or_null path (fun e => (e, None)) (fun p => with_path p o_stat (fun e => (e, None)) (fun stat rel => stat rel stat_null)).

Definition vfs_rename (old_path new_path : option (list Z)) : ST (Vfs X B) Z :=
  or_null old_path id (fun old => or_null new_path id (fun new =>
    s ← get;
    match resolve_mount (mounts s) old, resolve_mount (mounts s) new with
    | Some (ops_old, rel_old), Some (ops_new, rel_new) =>
        match ops_old with
        | Some b =>
            if negb (bool_decide (ops_old = ops_new)) then mret VFS_ERR_PERM
            else match o_rename (backend_ops b) with
                 | Some rename => on_backend (rename rel_old rel_new)
                 | None => mret VFS_ERR_PERM
                 end
        | None => mret VFS_ERR_PERM
        end
    | _, _ => mret VFS_ERR_NOT_FOUND
    end)).

Definition vfs_mkdir (path : option (list Z)) (mode : Z) : ST (Vfs X B) Z :=
  or_null path id (fun p => with_path p o_mkdir id (fun mkdir rel => mkdir rel mode)).
Definition vfs_rmdir (path : option (list Z)) : ST (Vfs X B) Z :=
  or_null path id (fun p => with_path p o_rmdir id (fun rmdir rel => rmdir rel)).
Definition vfs_truncate (path : option (list Z)) (size : Z) : ST (Vfs X B) Z :=
  or_null path id (fun p => with_path p o_truncate id (fun truncate rel => truncate rel size)).
Definition vfs_chmod (path : option (list Z)) (mode : Z) : ST (Vfs X B) Z :=
  or_null path id (fun p => with_path p o_chmod id (fun chmod rel => chmod rel mode)).
Definition vfs_chown (path : option (list Z)) (uid gid : Z) : ST (Vfs X B) Z :=
  or_null path id (fun p => with_path p o_chown id (fun chown rel => chown rel uid gid)).

(** These three pass the whole path on, not the path within the mount. *)
Definition vfs_link (old_path new_path : option (list Z)) : ST (Vfs X B) Z :=
  or_null old_path id (fun old => or_null new_path id (fun new =>
    with_path new o_link id (fun link _ => link old new))).
Definition vfs_symlink (target link_path : option (list Z)) : ST (Vfs X B) Z :=
  or_null target id (fun t => or_null link_path id (fun p =>
    with_path p o_symlink id (fun symlink _ => symlink t p))).
Definition vfs_readlink (link_path : option (list Z)) (buf_null : bool) (max_len : Z) : ST (Vfs X B) (Z * list Z) :=
  if buf_null then mret (VFS_ERR_INVALID_ARG, [])
  else or_null link_path (fun e => (e, [])) (fun p =>
    with_path p o_readlink (fun e => (e, [])) (fun readlink _ => readlink p max_len)).
End Calls.
