(* ===== verification/VfsFds.v ===== *)
(** * Descriptors and their reference counts

    [LawfulBackends] is what the descriptor layer needs of the backends: opening makes
    a handle live, closing ends it, and no other call touches it.  Against this
    interface the descriptor tables are shown consistent in every run. *)
From S2P Require Import Prelude Bytes VfsDefs Ext2Dir Vfs.

(** ** The interface *)

Section Laws.
Context {X B : Type} (inv : X -> Prop) (live : X -> B -> Z -> Prop).

Definition keeps (x x' : X) : Prop := inv x' /\ forall b h, live x' b h <-> live x b h.
Definition quiet {A} (m : ST X A) : Prop := forall x, inv x -> keeps x (fst (m x)).

Record lawful_ops (b : B) (o : VfsBackendOps X) : Prop := {
  lo_open f p flags x : o_open o = Some f -> inv x ->
    let '(x', h) := f p flags x in
    if h <? 0 then keeps x x'
    else inv x' /\ ~ live x b h /\ forall b' h', live x' b' h' <-> live x b' h' \/ (b' = b /\ h' = h);
  lo_close : exists f, o_close o = Some f /\ forall h x, inv x -> live x b h ->
    let '(x', _) := f h x in
    inv x' /\ forall b' h', live x' b' h' <-> live x b' h' /\ ~ (b' = b /\ h' = h);
  lo_read f h n size : o_read o = Some f -> quiet (f h n size);
  lo_write f h buf size : o_write o = Some f -> quiet (f h buf size);
  lo_delete f p : o_delete o = Some f -> quiet (f p);
  lo_lseek f h off wh : o_lseek o = Some f -> quiet (f h off wh);
  lo_stat f p n : o_stat o = Some f -> quiet (f p n);
  lo_rename f p q : o_rename o = Some f -> quiet (f p q);
  lo_mkdir f p m : o_mkdir o = Some f -> quiet (f p m);
  lo_rmdir f p : o_rmdir o = Some f -> quiet (f p);
  lo_truncate f p n : o_truncate o = Some f -> quiet (f p n);
  lo_ftruncate f h n : o_ftruncate o = Some f -> quiet (f h n);
  lo_chmod f p m : o_chmod o = Some f -> quiet (f p m);
  lo_chown f p u g : o_chown o = Some f -> quiet (f p u g);
  lo_link f p q : o_link o = Some f -> quiet (f p q);
  lo_symlink f p q : o_symlink o = Some f -> quiet (f p q);
  lo_readlink f p n : o_readlink o = Some f -> quiet (f p n)
}.
End Laws.

Class LawfulBackends (X B : Type) `{Backends X B} := {
  bk_inv : X -> Prop;
  bk_live : X -> B -> Z -> Prop;
  bk_lawful : forall b, lawful_ops bk_inv bk_live b (backend_ops b)
}.

(** ** Counting references *)

Definition refs (l : list Z) (g : Z) : Z := Z.of_nat (length (filter (fun x => x = g) l)).

Lemma refs_insert l k g0 g x : l !! k = Some g0 ->
  refs (<[k := g]> l) x = refs l x - Z.b2z (g0 =? x) + Z.b2z (g =? x).
Proof.
  intros Hk. pose proof (lookup_lt_Some _ _ _ Hk). unfold refs.
  rewrite insert_take_drop by done. rewrite <- (take_drop_middle _ _ _ Hk) at 3.
  rewrite !list.filter_app, !filter_cons, !length_app.
  destruct (Z.eqb_spec g0 x), (Z.eqb_spec g x); repeat case_decide; simpl; lia.
Qed.

Lemma refs_pos l k g : l !! k = Some g -> 0 < refs l g.
Proof.
  intros Hk. unfold refs. destruct (filter (fun x => x = g) l) as [|y l'] eqn:E; [|simpl; lia].
  assert (g ∈ filter (fun x => x = g) l) as Hin by (apply list_elem_of_filter; split; [done|by eapply list_elem_of_lookup_2]).
  rewrite E in Hin. set_solver.
Qed.

Lemma refs_named l g : 0 < refs l g -> exists k, l !! k = Some g.
Proof.
  unfold refs. intros Hp. destruct (filter (fun x => x = g) l) as [|y l'] eqn:E; [simpl in Hp; lia|].
  assert (y ∈ filter (fun x => x = g) l) as (-> & Hin)%list_elem_of_filter by (rewrite E; left).
  by apply list_elem_of_lookup_1.
Qed.

Lemma refs_nonneg l g : 0 <= refs l g.
Proof. unfold refs. lia. Qed.

(** ** The invariant *)

Section Fds.
Context {X B : Type} `{LawfulBackends X B} `{EqDecision B}.
Implicit Types s : Vfs X B.

Definition in_use s (g : Z) : Prop := 0 <= g < VFS_MAX_GLOBAL_FDS /\ f_used (fd_table s).[g] <> 0.

(** [fds_inv e s]: the tables are consistent, but for the descriptors whose count is
    off by [e]. *)
Record fds_inv (e : Z -> Z) s : Prop := {
  fo_fds : length (fd_table s) = Z.to_nat VFS_MAX_GLOBAL_FDS;
  fo_map : length (task_fd_map s) = Z.to_nat (MAX_TASKS * TASK_MAX_FDS);
  fo_bk : bk_inv (backend s);
  fo_used g : in_use s g -> exists b, f_ops (fd_table s).[g] = Some b /\
    bk_live (backend s) b (f_backend_handle (fd_table s).[g]);
  fo_count g : in_use s g -> f_ref_count (fd_table s).[g] = refs (task_fd_map s) g + e g /\
                             0 < f_ref_count (fd_table s).[g];
  fo_entry k g : task_fd_map s !! k = Some g -> g = -1 \/ in_use s g;
  fo_inj g1 g2 : in_use s g1 -> in_use s g2 -> f_ops (fd_table s).[g1] = f_ops (fd_table s).[g2] ->
    f_backend_handle (fd_table s).[g1] = f_backend_handle (fd_table s).[g2] -> g1 = g2;
  fo_live b h : bk_live (backend s) b h -> exists g, in_use s g /\ f_ops (fd_table s).[g] = Some b /\
    f_backend_handle (fd_table s).[g] = h
}.

Definition exact : Z -> Z := fun _ => 0.
Definition off_by (d g : Z) : Z -> Z := fun x => d * Z.b2z (g =? x).
Abbreviation fds_ok := (fds_inv exact).

Lemma fds_inv_ext e e' s : (forall g, in_use s g -> e g = e' g) -> fds_inv e s -> fds_inv e' s.
Proof. intros He []. split; try done. intros g Hg. rewrite <- He by done. auto. Qed.

Lemma in_use_bad s g : gfd_bad s g = false <-> in_use s g.
Proof.
  unfold gfd_bad, in_use. rewrite !orb_false_iff, Z.ltb_ge, Z.leb_gt, Z.eqb_neq. split; lia.
Qed.

Lemma slot_lookup s e t i : fds_inv e s -> 0 <= t < MAX_TASKS -> 0 <= i < TASK_MAX_FDS ->
  task_fd_map s !! Z.to_nat (slot t i) = Some (fd_entry s t i).
Proof.
  intros Hs Ht Hi. apply list_lookup_lookup_total_lt. rewrite (fo_map _ _ Hs).
  unfold slot, TASK_MAX_FDS, MAX_TASKS in *. lia.
Qed.

Lemma current_range s : 0 <= current_task_id s < MAX_TASKS.
Proof. unfold current_task_id, MAX_TASKS. destruct (Z.ltb_spec (os_current_task s) 0), (Z.leb_spec 8 (os_current_task s)); simpl; lia. Qed.

(** Nothing is open. *)
Lemma empty_ok s : fd_table s = replicate (Z.to_nat VFS_MAX_GLOBAL_FDS) no_fd ->
  task_fd_map s = replicate (Z.to_nat (MAX_TASKS * TASK_MAX_FDS)) (-1) ->
  bk_inv (backend s) -> (forall b h, ~ bk_live (backend s) b h) -> fds_ok s.
Proof.
  intros Hf Hm Hi Hl. assert (forall g, ~ in_use s g) as Hnone.
  { intros g [Hg Hu]. rewrite Hf, lookup_total_replicate_2 in Hu by lia. done. }
  split; try (intros; exfalso; by eapply Hnone); rewrite ?Hf, ?Hm; try done.
  - intros k g Hk. apply lookup_replicate in Hk as [-> _]. by left.
  - intros b h Hbh. by destruct (Hl b h).
Qed.

(** ** The stores *)

Definition with_entry (s : Vfs X B) (t i g : Z) : Vfs X B :=
  s <| task_fd_map ::= <[Z.to_nat (slot t i) := g]> |>.

Lemma set_entry_inv e s t i g : fds_inv e s -> 0 <= t < MAX_TASKS -> 0 <= i < TASK_MAX_FDS ->
  g = -1 \/ in_use s g ->
  fds_inv (fun x => e x + Z.b2z (fd_entry s t i =? x) - Z.b2z (g =? x)) (with_entry s t i g).
Proof.
  intros Hs Ht Hi Hg. pose proof (slot_lookup s e t i Hs Ht Hi) as Hk. split; try apply Hs.
  - unfold with_entry. cbn. rewrite length_insert. apply Hs.
  - intros x Hx. destruct (fo_count _ _ Hs x Hx) as [Hc Hp]. split; [|done].
    unfold with_entry. cbn. rewrite (refs_insert _ _ _ _ _ Hk), Hc. lia.
  - intros k x Hx. unfold with_entry in Hx. cbn in Hx.
    apply list_lookup_insert_Some in Hx as [(_ & <- & _)|[_ Hx]]; [done|]. by apply (fo_entry _ _ Hs k).
Qed.

(** A descriptor whose fields the invariant reads are kept, with a new count. *)
Lemma set_fd_inv e e' s g f' : fds_inv e s -> in_use s g ->
  let f := (fd_table s).[g] in
  f_used f' = f_used f -> f_ops f' = f_ops f -> f_backend_handle f' = f_backend_handle f ->
  f_ref_count f' = refs (task_fd_map s) g + e' g -> 0 < f_ref_count f' ->
  (forall x, x <> g -> e x = e' x) ->
  fds_inv e' (s <| fd_table ::= <[Z.to_nat g := f']> |>).
Proof.
  intros Hs Hg f Hu Ho Hh Hc Hp He. subst f. pose proof (fo_fds _ _ Hs) as Hlen. destruct Hg as [Hr Hgu].
  set (s' := s <| fd_table ::= _ |>).
  assert (forall x, 0 <= x -> (fd_table s').[x] = if g =? x then f' else (fd_table s).[x]) as Hcell.
  { intros x Hx. subst s'. cbn. destruct (Z.eqb_spec g x) as [<-|].
    - apply cell_insert. rewrite Hlen. lia.
    - apply cell_insert_ne; lia. }
  assert (forall x, in_use s' x <-> in_use s x) as Huse.
  { intros x. unfold in_use. split; intros [Hx Hux]; rewrite Hcell in * by lia; (split; [done|]);
      (destruct (Z.eqb_spec g x) as [<-|]; [congruence|done]). }
  assert (forall x, 0 <= x -> f_ops (fd_table s').[x] = f_ops (fd_table s).[x] /\
    f_backend_handle (fd_table s').[x] = f_backend_handle (fd_table s).[x]) as Hsame.
  { intros x Hx. rewrite Hcell by done. destruct (Z.eqb_spec g x) as [<-|]; done. }
  split.
  - subst s'. cbn. by rewrite length_insert.
  - apply Hs.
  - apply Hs.
  - intros x Hx%Huse. destruct (Hsame x) as [-> ->]; [destruct Hx; lia|]. by apply (fo_used _ _ Hs).
  - intros x Hx%Huse. rewrite Hcell by (destruct Hx; lia). destruct (Z.eqb_spec g x) as [<-|Hne]; [done|].
    rewrite <- He by done. by apply (fo_count _ _ Hs).
  - intros k x Hx. rewrite Huse. by apply (fo_entry _ _ Hs k).
  - intros x y Hx%Huse Hy%Huse. destruct (Hsame x) as [-> ->]; [destruct Hx; lia|].
    destruct (Hsame y) as [-> ->]; [destruct Hy; lia|]. by apply (fo_inj _ _ Hs).
  - intros b h Hbh. destruct (fo_live _ _ Hs b h Hbh) as (x & Hx & Hxo & Hxh). exists x. rewrite Huse.
    destruct (Hsame x) as [-> ->]; [destruct Hx; lia|]. done.
Qed.

Lemma set_fd_alter e s g (f : VfsFd B -> VfsFd B) : fds_inv e s -> in_use s g ->
  s <| fd_table ::= alter f (Z.to_nat g) |> = s <| fd_table ::= <[Z.to_nat g := f (fd_table s).[g]]> |>.
Proof.
  intros Hs [Hr _]. unfold update_field, Vfs_fields. simpl. f_equal. apply alter_cell. rewrite (fo_fds _ _ Hs). lia.
Qed.

(** The last reference is gone: the backend's handle is closed and the slot is free. *)
Lemma drop_fd_inv e s g b x' : fds_inv e s -> in_use s g -> f_ops (fd_table s).[g] = Some b ->
  refs (task_fd_map s) g = 0 -> (forall x, x <> g -> e x = 0) -> bk_inv x' ->
  (forall b' h', bk_live x' b' h' <-> bk_live (backend s) b' h' /\ ~ (b' = b /\ h' = f_backend_handle (fd_table s).[g])) ->
  fds_ok (s <| backend := x' |> <| fd_table ::= <[Z.to_nat g := no_fd]> |>).
Proof.
  intros Hs Hg Hb Href He Hx' Hlive. pose proof (fo_fds _ _ Hs) as Hlen. pose proof Hg as [Hr Hgu].
  set (s' := s <| backend := x' |> <| fd_table ::= _ |>).
  assert (forall x, 0 <= x -> (fd_table s').[x] = if g =? x then no_fd else (fd_table s).[x]) as Hcell.
  { intros x Hx. subst s'. cbn. destruct (Z.eqb_spec g x) as [<-|].
    - apply cell_insert. rewrite Hlen. lia.
    - apply cell_insert_ne; lia. }
  assert (forall x, in_use s' x <-> in_use s x /\ x <> g) as Huse.
  { intros x. unfold in_use. split.
    - intros [Hx Hux]. rewrite Hcell in Hux by lia. destruct (Z.eqb_spec g x); [done|]. split_and!; done || lia.
    - intros [[Hx Hux] Hne]. split; [done|]. rewrite Hcell by lia. by destruct (Z.eqb_spec g x). }
  assert (forall x, 0 <= x -> x <> g -> (fd_table s').[x] = (fd_table s).[x]) as Hsame.
  { intros x Hx Hne. rewrite Hcell by done. by destruct (Z.eqb_spec g x). }
  split.
  - subst s'. cbn. by rewrite length_insert.
  - apply Hs.
  - done.
  - intros x [Hx Hne]%Huse. rewrite Hsame by (done || destruct Hx; lia).
    destruct (fo_used _ _ Hs x Hx) as (b' & Hb' & Hl'). exists b'. split; [done|]. apply Hlive. split; [done|].
    intros [-> Hh]. apply Hne. apply (fo_inj _ _ Hs x g); congruence.
  - intros x [Hx Hne]%Huse. rewrite Hsame by (done || destruct Hx; lia).
    destruct (fo_count _ _ Hs x Hx) as [Hc Hp]. rewrite He in Hc by done. done.
  - intros k x Hk. change (task_fd_map s !! k = Some x) in Hk.
    destruct (fo_entry _ _ Hs k x Hk) as [->|Hx]; [by left|right]. apply Huse. split; [done|]. intros ->. apply refs_pos in Hk. lia.
  - intros x y [Hx Hnx]%Huse [Hy Hny]%Huse. rewrite !Hsame by (done || destruct Hx, Hy; lia). by apply (fo_inj _ _ Hs).
  - intros b' h' [Hl Hne]%Hlive. destruct (fo_live _ _ Hs b' h' Hl) as (x & Hx & Hxo & Hxh).
    exists x. assert (x <> g) as Hxg by (intros ->; apply Hne; split; congruence).
    rewrite Huse, Hsame by (done || destruct Hx; lia). done.
Qed.

(** ** Closing and sharing *)

(** The descriptors [s'] has are those of [s], except perhaps [g]. *)
Definition same_fds_but (g : Z) s s' : Prop :=
  forall x, 0 <= x -> x <> g -> f_ops (fd_table s').[x] = f_ops (fd_table s).[x] /\
    f_backend_handle (fd_table s').[x] = f_backend_handle (fd_table s).[x] /\
    f_used (fd_table s').[x] = f_used (fd_table s).[x] /\ f_flags (fd_table s').[x] = f_flags (fd_table s).[x].

Lemma same_fds_insert s g f' : 0 <= g -> same_fds_but g s (s <| fd_table ::= <[Z.to_nat g := f']> |>).
Proof. intros Hg x Hx Hne. cbn. by rewrite cell_insert_ne by lia. Qed.

(** [close_global_fd] on a descriptor with one reference less than it counts. *)
Lemma close_global_ok s g : fds_inv (off_by 1 g) s -> in_use s g ->
  wp (close_global_fd g) (fun s' rc => fds_ok s' /\ task_fd_map s' = task_fd_map s /\ os_current_task s' = os_current_task s /\
    mounts s' = mounts s /\ same_fds_but g s s' /\
    (if decide (refs (task_fd_map s) g = 0) then f_used (fd_table s').[g] = 0
     else rc = VFS_OK /\ backend s' = backend s /\ in_use s' g /\
          f_ops (fd_table s').[g] = f_ops (fd_table s).[g] /\
          f_backend_handle (fd_table s').[g] = f_backend_handle (fd_table s).[g])) s.
Proof.
  intros Hs Hg. destruct (fo_used _ _ Hs g Hg) as (b & Hb & Hl). destruct (fo_count _ _ Hs g Hg) as [Hc Hp].
  unfold off_by in Hc. rewrite Z.eqb_refl in Hc. simpl in Hc.
  unfold close_global_fd. apply wp_get. cbv zeta. rewrite Hb, (proj2 (in_use_bad s g) Hg).
  pose proof (refs_nonneg (task_fd_map s) g). pose proof Hg as [Hr Hgu].
  destruct (Z.ltb_spec 1 (f_ref_count (fd_table s).[g])) as [Hmany|Hlast]; destruct (decide (refs (task_fd_map s) g = 0)); try lia.
  - apply wp_bind, wp_modify, wp_ret. rewrite (set_fd_alter _ _ _ _ Hs Hg).
    set (f' := (fd_table s).[g] <| f_ref_count ::= Z.pred |>).
    assert (fds_ok (s <| fd_table ::= <[Z.to_nat g := f']> |>)) as Hok.
    { eapply (set_fd_inv _ exact); [exact Hs|done|done..| | |]; subst f'; cbn; unfold exact; [lia|lia|].
      intros x Hx. unfold off_by. destruct (Z.eqb_spec g x); [congruence|done]. }
    split_and!; try done; [by apply same_fds_insert; lia|..].
    + unfold in_use. cbn. rewrite cell_insert by (rewrite (fo_fds _ _ Hs); lia). done.
    + cbn. by rewrite cell_insert by (rewrite (fo_fds _ _ Hs); lia).
    + cbn. by rewrite cell_insert by (rewrite (fo_fds _ _ Hs); lia).
  - destruct (lo_close _ _ _ _ (bk_lawful b)) as (close & -> & Hclose).
    specialize (Hclose (f_backend_handle (fd_table s).[g]) (backend s) (fo_bk _ _ Hs) Hl).
    apply wp_bind. unfold wp at 1, on_backend. destruct (close _ (backend s)) as [x' rc]. destruct Hclose as [Hx' Hlive].
    simpl. apply wp_bind, wp_modify, wp_ret.
    assert (alter (fun _ => no_fd) (Z.to_nat g) (fd_table s) = <[Z.to_nat g := no_fd]> (fd_table s)) as Ha.
    { apply alter_cell. rewrite (fo_fds _ _ Hs). lia. }
    assert (s <| backend := x' |> <| fd_table ::= alter (fun _ => no_fd) (Z.to_nat g) |> =
            s <| backend := x' |> <| fd_table ::= <[Z.to_nat g := no_fd]> |>) as ->.
    { unfold update_field, Vfs_fields. simpl. by rewrite Ha. }
    split_and!; try done.
    + eapply drop_fd_inv; try done. intros x Hx. unfold off_by. destruct (Z.eqb_spec g x); [congruence|done].
    + intros x Hx Hne. cbn. by rewrite cell_insert_ne by lia.
    + cbn. by rewrite cell_insert by (rewrite (fo_fds _ _ Hs); lia).
Qed.

Lemma add_ref_ok s g : fds_inv (off_by (-1) g) s -> in_use s g ->
  wp (add_ref g) (fun s' _ => fds_ok s' /\ task_fd_map s' = task_fd_map s /\ os_current_task s' = os_current_task s /\
    mounts s' = mounts s /\ same_fds_but (-1) s s') s.
Proof.
  intros Hs Hg. destruct (fo_count _ _ Hs g Hg) as [Hc Hp]. unfold off_by in Hc. rewrite Z.eqb_refl in Hc. simpl in Hc.
  apply wp_modify. rewrite (set_fd_alter _ _ _ _ Hs Hg). set (f' := (fd_table s).[g] <| f_ref_count ::= Z.succ |>).
  split; [|split_and!; try done].
  - eapply (set_fd_inv _ exact); [exact Hs|done|done..| | |]; subst f'; cbn; unfold exact; [lia|lia|].
    intros x Hx. unfold off_by. destruct (Z.eqb_spec g x); [congruence|done].
  - intros x Hx _. cbn. destruct (decide (x = g)) as [->|]; [|by rewrite cell_insert_ne by (destruct Hg; lia)].
    rewrite cell_insert by (rewrite (fo_fds _ _ Hs); destruct Hg; lia). done.
Qed.

(** ** Calls that leave the tables alone *)

Lemma keeps_inv e s x' : fds_inv e s -> keeps bk_inv bk_live (backend s) x' -> fds_inv e (s <| backend := x' |>).
Proof.
  intros Hs [Hx' Hl]. split; try apply Hs; [done|..].
  - intros g Hg. destruct (fo_used _ _ Hs g Hg) as (b & Hb & Hh). exists b. split; [done|]. by apply Hl.
  - intros b h Hbh%Hl. by apply (fo_live _ _ Hs).
Qed.

Definition same_tables s s' : Prop :=
  fd_table s' = fd_table s /\ task_fd_map s' = task_fd_map s /\ os_current_task s' = os_current_task s /\ mounts s' = mounts s.

Lemma on_backend_quiet {A} (m : ST X A) s : quiet bk_inv bk_live m -> fds_ok s ->
  wp (on_backend m) (fun s' _ => fds_ok s' /\ same_tables s s') s.
Proof.
  intros Hm Hs. unfold wp, on_backend. specialize (Hm (backend s) (fo_bk _ _ Hs)).
  destruct (m (backend s)) as [x' a]. split; [by apply keeps_inv|done].
Qed.

Lemma with_fd_quiet {A F} fd (call : VfsBackendOps X -> option F) (err : Z -> A) k s :
  (forall b c h, call (backend_ops b) = Some c -> quiet bk_inv bk_live (k c h)) -> fds_ok s ->
  wp (with_fd fd call err k) (fun s' _ => fds_ok s' /\ same_tables s s') s.
Proof.
  intros Hk Hs. unfold with_fd. apply wp_get. cbv zeta. destruct (gfd_bad _ _); [by apply wp_ret|].
  destruct (f_ops _) as [b|]; [|by apply wp_ret]. destruct (call (backend_ops b)) as [c|] eqn:Hc; [|by apply wp_ret].
  apply on_backend_quiet; [by eapply Hk|done].
Qed.

Lemma with_path_quiet {A F} p (call : VfsBackendOps X -> option F) (err : Z -> A) k s :
  (forall b c rel, call (backend_ops b) = Some c -> quiet bk_inv bk_live (k c rel)) -> fds_ok s ->
  wp (with_path p call err k) (fun s' _ => fds_ok s' /\ same_tables s s') s.
Proof.
  intros Hk Hs. unfold with_path. apply wp_get. destruct (resolve_mount _ _) as [[[b|] rel]|]; [|by apply wp_ret..].
  destruct (call (backend_ops b)) as [c|] eqn:Hc; [|by apply wp_ret].
  apply on_backend_quiet; [by eapply Hk|done].
Qed.

(** ** Entries *)

Lemma fd_entry_with_entry s t i g t' i' : length (task_fd_map s) = Z.to_nat (MAX_TASKS * TASK_MAX_FDS) -> 0 <= t < MAX_TASKS -> 0 <= i < TASK_MAX_FDS ->
  0 <= t' < MAX_TASKS -> 0 <= i' < TASK_MAX_FDS ->
  fd_entry (with_entry s t i g) t' i' = if decide (t' = t /\ i' = i) then g else fd_entry s t' i'.
Proof.
  intros Hs Ht Hi Ht' Hi'. unfold fd_entry, with_entry. cbn.
  assert (0 <= slot t i < Z.of_nat (length (task_fd_map s))) by (rewrite Hs; unfold slot, MAX_TASKS, TASK_MAX_FDS in *; lia).
  destruct (decide _) as [[-> ->]|Hne]; [by apply cell_insert|].
  apply cell_insert_ne; unfold slot, MAX_TASKS, TASK_MAX_FDS in *; lia.
Qed.

Lemma entry_in_use e s t i : fds_inv e s -> 0 <= t < MAX_TASKS -> 0 <= i < TASK_MAX_FDS ->
  0 <= fd_entry s t i -> in_use s (fd_entry s t i).
Proof.
  intros Hs Ht Hi Hp. destruct (fo_entry _ _ Hs _ _ (slot_lookup s e t i Hs Ht Hi)); [lia|done].
Qed.

Lemma entry_free e s t i : fds_inv e s -> 0 <= t < MAX_TASKS -> 0 <= i < TASK_MAX_FDS ->
  fd_entry s t i < 0 -> fd_entry s t i = -1.
Proof.
  intros Hs Ht Hi Hp. destruct (fo_entry _ _ Hs _ _ (slot_lookup s e t i Hs Ht Hi)) as [|[Hr _]]; [done|lia].
Qed.

(** ** Free slots *)

Lemma alloc_global_spec s : fds_ok s ->
  (alloc_global_fd s < 0) \/ (0 <= alloc_global_fd s < VFS_MAX_GLOBAL_FDS /\ f_used (fd_table s).[alloc_global_fd s] = 0).
Proof.
  intros Hs. unfold alloc_global_fd. destruct (find_idx _ _) as [i|] eqn:E; simpl; [right|left; lia].
  pose proof (find_idx_lt _ _ _ E) as Hlt. rewrite (fo_fds _ _ Hs) in Hlt.
  apply find_idx_Some in E as [(f & Hf & Hu) _]. unfold VFS_MAX_GLOBAL_FDS in *. split; [lia|].
  rewrite Nat2Z.id, (list_lookup_total_correct _ _ _ Hf). by apply Z.eqb_eq.
Qed.

Lemma alloc_task_spec s t : 0 <= t < MAX_TASKS ->
  (alloc_task_fd s t < 0) \/ (0 <= alloc_task_fd s t < TASK_MAX_FDS /\ fd_entry s t (alloc_task_fd s t) < 0 /\
    forall i, 0 <= i < alloc_task_fd s t -> 0 <= fd_entry s t i).
Proof.
  intros Ht. unfold alloc_task_fd. destruct (find_idx _ _) as [i|] eqn:E; simpl; [right|left; lia].
  pose proof (find_idx_lt _ _ _ E) as Hlt. rewrite length_seqZ in Hlt. unfold TASK_MAX_FDS in *.
  apply find_idx_Some in E as [(z & Hz & Hu) Hlow]. rewrite lookup_seqZ_lt in Hz by lia. injection Hz as <-.
  bsimpl. split_and!; try lia; [done|]. intros j Hj. specialize (Hlow (Z.to_nat j) j ltac:(lia)).
  rewrite lookup_seqZ_lt in Hlow by lia. specialize (Hlow ltac:(f_equal; lia)). by bsimpl.
Qed.

(** Clearing a used entry leaves its descriptor with one reference too many. *)
Lemma clear_entry_inv s t i : fds_ok s -> 0 <= t < MAX_TASKS -> 0 <= i < TASK_MAX_FDS ->
  fds_inv (off_by 1 (fd_entry s t i)) (with_entry s t i (-1)).
Proof.
  intros Hs Ht Hi. eapply fds_inv_ext; [|by apply (set_entry_inv exact); [done..|left]].
  intros g [Hg _]. unfold exact, off_by. destruct (Z.eqb_spec (-1) g); simpl; lia.
Qed.

(** Filling a free entry leaves its descriptor with one reference too few. *)
Lemma fill_entry_inv s t i g : fds_ok s -> 0 <= t < MAX_TASKS -> 0 <= i < TASK_MAX_FDS ->
  fd_entry s t i < 0 -> in_use s g -> fds_inv (off_by (-1) g) (with_entry s t i g).
Proof.
  intros Hs Ht Hi Hf Hg. eapply fds_inv_ext; [|by apply (set_entry_inv exact); [done..|right]].
  intros x [Hx _]. unfold exact, off_by. destruct (Z.eqb_spec (fd_entry s t i) x); simpl; lia.
Qed.

(** One entry cleared and its reference given up. *)
Lemma drop_entry_ok s t i : fds_ok s -> 0 <= t < MAX_TASKS -> 0 <= i < TASK_MAX_FDS -> 0 <= fd_entry s t i ->
  let g := fd_entry s t i in
  wp (_ ← set_entry t i (-1); close_global_fd g)
    (fun s' rc => fds_ok s' /\ task_fd_map s' = task_fd_map (with_entry s t i (-1)) /\ os_current_task s' = os_current_task s /\
      mounts s' = mounts s /\ same_fds_but g s s' /\
      (if decide (refs (task_fd_map s') g = 0) then f_used (fd_table s').[g] = 0
       else rc = VFS_OK /\ backend s' = backend s /\ in_use s' g /\
            f_ops (fd_table s').[g] = f_ops (fd_table s).[g] /\
            f_backend_handle (fd_table s').[g] = f_backend_handle (fd_table s).[g])) s.
Proof.
  intros Hs Ht Hi Hp g. apply wp_bind, wp_modify. change (s <| task_fd_map ::= _ |>) with (with_entry s t i (-1)).
  eapply wp_mono; [apply close_global_ok; [by apply clear_entry_inv|exact (entry_in_use exact s t i Hs Ht Hi Hp)]|].
  intros s' rc (Hok & Hmap & Hcur & Hms & Hsame & Hlast). rewrite Hmap. done.
Qed.
End Fds.

Abbreviation fds_ok := (fds_inv exact).
