(* ===== verification/VfsMounts.v ===== *)
(** * The mount table

    [resolve_mount] finds the longest mount that covers a path, and [vfs_mount] makes a
    path resolve to the backend it names. *)
From S2P Require Import Prelude Bytes VfsDefs Ext2Dir Vfs.

Section Mounts.
Context {B : Type}.
Implicit Types ms : list (VfsMount B).
Implicit Types m : VfsMount B.

Definition mount_wf m : Prop :=
  m_used m = 0 \/ (m_len m = Z.of_nat (length (m_path m)) /\ starts_with_slash (m_path m) = true).
Definition mounts_ok ms : Prop := length ms = Z.to_nat VFS_MAX_MOUNTS /\ Forall mount_wf ms.

(** The end of a path, or the next component. *)
Definition at_end (rest : list Z) : Prop := rest = [] \/ head rest = Some slash.

Definition covers (path : list Z) m : Prop :=
  m_used m <> 0 /\ (m_path m = root_path \/ exists rest, path = m_path m ++ rest /\ at_end rest).

(** How specific a mount is: the root is below every other. *)
Definition weight m : Z := if decide (m_path m = root_path) then 0 else Z.of_nat (length (m_path m)).

(** The path within a mount. *)
Definition within (path : list Z) m (rel : list Z) : Prop :=
  if decide (m_path m = root_path) then rel = path
  else exists rest, path = m_path m ++ rest /\ rel = match rest with [] => root_path | _ => rest end.

Lemma prefix_iff (s p : list Z) : str_prefix s p = true <-> exists rest, s = p ++ rest.
Proof.
  unfold str_prefix. rewrite bool_decide_eq_true. split.
  - intros Ht. exists (drop (length p) s). rewrite <- Ht at 1. by rewrite take_drop.
  - intros [rest ->]. by rewrite take_app_length.
Qed.

Lemma wf_nonroot m : mount_wf m -> m_used m <> 0 -> m_path m <> root_path ->
  m_len m = Z.of_nat (length (m_path m)) /\ 2 <= m_len m.
Proof.
  intros [|[Hl Hs]] Hu Hne; [done|]. split; [done|]. destruct (m_path m) as [|c [|c' p]]; [done| |simpl in *; lia].
  simpl in Hs. apply Z.eqb_eq in Hs. by subst.
Qed.

Lemma nonroot_test path m : mount_wf m -> m_used m <> 0 -> m_path m <> root_path ->
  str_prefix path (m_path m) && at_boundary path (m_len m) = true <-> covers path m.
Proof.
  intros Hwf Hu Hne. destruct (wf_nonroot m Hwf Hu Hne) as [Hl _]. rewrite andb_true_iff, prefix_iff. unfold covers, at_boundary.
  rewrite Hl, Nat2Z.id. split.
  - intros [[rest ->] Hb]. split; [done|right]. exists rest. split; [done|]. rewrite lookup_app_r, Nat.sub_diag in Hb by lia.
    destruct rest as [|c rest]; [by left|right]. simpl in *. apply Z.eqb_eq in Hb. by subst.
  - intros [_ [|(rest & -> & He)]]; [done|]. split; [by exists rest|]. rewrite lookup_app_r, Nat.sub_diag by lia.
    destruct rest as [|c rest]; [done|]. destruct He as [|[= ->]]; done.
Qed.

(** ** The search *)

(** [best] is the first of the heaviest covering mounts below [i]. *)
Definition best_below ms path (i : nat) (best : option nat) : Prop :=
  match best with
  | None => forall j, (j < i)%nat -> ~ covers path (ms !!! j)
  | Some b => (b < i)%nat /\ covers path (ms !!! b) /\
      forall j, (j < i)%nat -> covers path (ms !!! j) ->
        weight (ms !!! j) < weight (ms !!! b) \/ (weight (ms !!! j) = weight (ms !!! b) /\ (b <= j)%nat)
  end.

Lemma weight_nonneg m : 0 <= weight m.
Proof. unfold weight. case_decide; lia. Qed.

Lemma best_skip ms path i best : best_below ms path i best ->
  (covers path (ms !!! i) -> exists b, best = Some b /\ weight (ms !!! i) <= weight (ms !!! b)) ->
  best_below ms path (S i) best.
Proof.
  intros Hb Hc. destruct best as [b|]; simpl in *.
  - destruct Hb as (Hlt & Hcb & Hj). split_and!; [lia|done|]. intros j Hji Hcj.
    destruct (decide (j = i)) as [->|]; [|apply Hj; [lia|done]].
    destruct (Hc Hcj) as (b' & [= <-] & Hw). destruct (decide (weight (ms !!! i) = weight (ms !!! b))); [right|left]; lia.
  - intros j Hji. destruct (decide (j = i)) as [->|]; [|apply Hb; lia]. intros Hcj. by destruct (Hc Hcj) as (b' & ? & _).
Qed.

Lemma best_take ms path i best : best_below ms path i best -> covers path (ms !!! i) ->
  (forall b, best = Some b -> weight (ms !!! b) < weight (ms !!! i)) -> best_below ms path (S i) (Some i).
Proof.
  intros Hb Hc Hw. simpl. split_and!; [lia|done|]. intros j Hj Hcj. destruct (decide (j = i)) as [->|]; [right; split; [done|lia]|left].
  simpl in Hb. destruct best as [b|]; simpl in Hb; [|by destruct (Hb j ltac:(lia))]. destruct Hb as (_ & _ & Hb). specialize (Hb j ltac:(lia) Hcj).
  specialize (Hw b eq_refl). lia.
Qed.

Lemma better_weight ms m best : Forall mount_wf ms -> mount_wf m -> m_used m <> 0 -> m_path m <> root_path ->
  (forall b, best = Some b -> (b < length ms)%nat /\ m_used (ms !!! b) <> 0) ->
  better ms m best = true <-> forall b, best = Some b -> weight (ms !!! b) < weight m.
Proof.
  intros Hms Hm Hu Hne Hb. unfold better. destruct best as [b|]; [|by split].
  destruct (Hb b eq_refl) as [Hlt Hub]. destruct (wf_nonroot m Hm Hu Hne) as [Hl H2].
  assert (mount_wf (ms !!! b)) as Hwb by (by apply Forall_lookup_total_1).
  assert (weight (ms !!! b) < weight m <-> m_len (ms !!! b) < m_len m) as Hw.
  { unfold weight. rewrite (decide_False (P := m_path m = root_path)) by done. case_decide as Hroot.
    - destruct Hwb as [|[Hlb _]]; [done|]. rewrite Hroot in Hlb. simpl in Hlb. lia.
    - destruct (wf_nonroot _ Hwb Hub Hroot) as [Hlb _]. lia. }
  rewrite Z.ltb_lt, <- Hw. split; [by intros ? ? [= <-]|auto].
Qed.

Lemma resolve_loop_best ms path n : forall i best, mounts_ok ms -> (i + n = length ms)%nat -> best_below ms path i best ->
  best_below ms path (length ms) (resolve_loop ms path i n best).
Proof.
  induction n as [|n IH]; intros i best [Hlen Hms] Hi Hb; simpl; [by replace (length ms) with i by lia|].
  apply IH; [done|lia|]. set (m := ms !!! i). assert (mount_wf m) as Hm by (apply Forall_lookup_total_1; [done|lia]).
  destruct (Z.eqb_spec (m_used m) 0) as [Hu|Hu]; [by apply best_skip; [|intros [? _]]|].
  unfold str_eq. case_bool_decide as Hroot.
  - assert (covers path m) as Hc by (split; [done|by left]). destruct best as [b|].
    + apply best_skip; [done|]. intros _. exists b. split; [done|]. unfold weight at 1. fold m. rewrite decide_True by done. apply weight_nonneg.
    + by eapply best_take.
  - assert (forall b, best = Some b -> (b < length ms)%nat /\ m_used (ms !!! b) <> 0) as Hbest.
    { intros b ->. destruct Hb as (Hlt & [Hub _] & _). split; [lia|done]. }
    pose proof (nonroot_test path m Hm Hu Hroot) as Htest. pose proof (better_weight ms m best Hms Hm Hu Hroot Hbest) as Hbetter.
    destruct (str_prefix path (m_path m) && at_boundary path (m_len m)) eqn:Ht; simpl.
    + destruct (better ms m best) eqn:Hbt.
      * eapply best_take; [done|by apply Htest|by apply Hbetter].
      * apply best_skip; [done|]. intros _. destruct best as [b|]; [|done]. exists b. split; [done|].
        destruct (decide (weight m <= weight (ms !!! b))); [done|]. exfalso.
        assert (false = true) as [=] by (apply Hbetter; intros ? [= <-]; lia).
    + apply best_skip; [done|]. intros Hc. exfalso. assert (false = true) as [=] by (by apply Htest).
Qed.

Lemma within_ok path m : mount_wf m -> covers path m ->
  within path m (if str_eq (m_path m) root_path then path
                 else match drop (Z.to_nat (m_len m)) path with [] => root_path | rel => rel end).
Proof.
  intros Hm [Hu Hc]. unfold within, str_eq. case_decide as Hroot; case_bool_decide; try done.
  destruct (wf_nonroot m Hm Hu Hroot) as [-> _]. destruct Hc as [|(rest & -> & _)]; [done|]. exists rest. split; [done|].
  rewrite Nat2Z.id, drop_app_length. by destruct rest.
Qed.

(** The search on a whole table. *)
Lemma resolve_mount_best ms path : mounts_ok ms ->
  match resolve_mount ms path with
  | None => forall j, (j < length ms)%nat -> ~ covers path (ms !!! j)
  | Some (ops, rel) => exists b, best_below ms path (length ms) (Some b) /\ ops = m_ops (ms !!! b) /\ within path (ms !!! b) rel
  end.
Proof.
  intros Hms. pose proof Hms as [Hlen Hwf]. unfold resolve_mount.
  pose proof (resolve_loop_best ms path (Z.to_nat VFS_MAX_MOUNTS) 0 None Hms ltac:(lia)) as Hb.
  specialize (Hb ltac:(intros j Hj; lia)). destruct (resolve_loop _ _ _ _ _) as [b|]; simpl; [|done].
  exists b. split; [exact Hb|]. split; [done|]. destruct Hb as (Hlt & Hc & _). apply within_ok; [|done]. by apply Forall_lookup_total_1.
Qed.

(** C28: a path resolves to the longest mount point that covers it on component
    boundaries, the root mount being the last resort, and to the rest of the path behind
    that mount point; it does not resolve exactly when no mount covers it. *)
Theorem resolve_mount_longest ms path : mounts_ok ms ->
  match resolve_mount ms path with
  | None => forall m, m ∈ ms -> ~ covers path m
  | Some (ops, rel) => exists m, m ∈ ms /\ covers path m /\ ops = m_ops m /\ within path m rel /\
      forall m', m' ∈ ms -> covers path m' -> weight m' <= weight m
  end.
Proof.
  intros Hms. pose proof (resolve_mount_best ms path Hms) as Hr.
  assert (forall m, m ∈ ms -> exists j, (j < length ms)%nat /\ ms !!! j = m) as Hidx.
  { intros m [j Hj]%list_elem_of_lookup_1. exists j. split; [by eapply lookup_lt_Some|by apply list_lookup_total_correct]. }
  destruct (resolve_mount ms path) as [[ops rel]|].
  - destruct Hr as (b & (Hlt & Hc & Hbest) & Hops & Hrel). exists (ms !!! b). split_and!; try done.
    + by apply list_elem_of_lookup_total_2.
    + intros m' (j & Hj & <-)%Hidx Hc'. destruct (Hbest j Hj Hc'); lia.
  - intros m (j & Hj & <-)%Hidx. by apply Hr.
Qed.

(** ** Mounting *)

Lemma mount_at_ok p b ms : mounts_ok ms -> starts_with_slash p = true ->
  mounts_ok (fst (mount_at p b ms)).
Proof.
  intros [Hlen Hwf] Hp. unfold mount_at. destruct (find_mount ms p) as [i|] eqn:Hf; simpl.
  - split; [by rewrite length_alter|]. apply Forall_alter; [done|]. intros m Hm Hw. done.
  - destruct (find_idx _ ms) as [i|]; simpl; [|done]. split; [by rewrite length_insert|]. apply Forall_insert; [done|].
    right. simpl. split; [done|]. by destruct p.
Qed.

(** Of the mounts that cover [p], the heaviest is the one at [p]. *)
Lemma covers_weight p m : mount_wf m -> starts_with_slash p = true -> covers p m ->
  (m_path m = p -> weight m = weight (Build_VfsMount 1 p 0 None : VfsMount B)) /\
  (m_path m <> p -> weight m < weight (Build_VfsMount 1 p 0 None : VfsMount B)).
Proof.
  intros Hm Hp [Hu Hc]. unfold weight. simpl. split; [by intros ->|]. intros Hne.
  case_decide as Hroot; case_decide as Hpr.
  - congruence.
  - destruct p; [done|simpl; lia].
  - destruct Hc as [|(rest & Heq & _)]; [done|]. destruct (wf_nonroot m Hm Hu Hroot) as [Hl H2].
    rewrite Hpr in Heq. apply (f_equal length) in Heq. rewrite length_app in Heq. simpl in Heq. lia.
  - destruct Hc as [|(rest & -> & _)]; [done|]. rewrite length_app.
    destruct rest; [|simpl; lia]. by rewrite app_nil_r in Hne.
Qed.

(** The first mount at a path is the one it resolves to. *)
Lemma first_mount_resolves p b i ms' : starts_with_slash p = true -> mounts_ok ms' -> (i < length ms')%nat ->
  m_used (ms' !!! i) <> 0 -> m_path (ms' !!! i) = p -> m_ops (ms' !!! i) = Some b ->
  (forall j, (j < i)%nat -> m_used (ms' !!! j) = 0 \/ m_path (ms' !!! j) <> p) ->
  resolve_mount ms' p = Some (Some b, root_path).
Proof.
  intros Hp Hok' Hi Hu Hpi Hops Hfirst. pose proof (resolve_mount_best ms' p Hok') as Hr.
  assert (covers p (ms' !!! i)) as Hci by (split; [done|right]; exists []; rewrite Hpi, app_nil_r; by split; [|left]).
  destruct (resolve_mount ms' p) as [[ops rel]|]; [|by destruct (Hr i Hi)].
  destruct Hr as (k & (Hk & Hck & Hbest) & -> & Hrel). pose proof Hok' as [_ Hwf'].
  pose proof (Forall_lookup_total_1 _ _ _ Hwf' Hk) as Hwk.
  destruct (covers_weight p _ (Forall_lookup_total_1 _ _ _ Hwf' Hi) Hp Hci) as [Hwi _]. specialize (Hwi Hpi).
  destruct (covers_weight p _ Hwk Hp Hck) as [Hke Hkn].
  destruct (decide (m_path (ms' !!! k) = p)) as [Heq|Hne]; [|specialize (Hkn Hne); destruct (Hbest i Hi Hci); lia].
  assert (k = i) as ->.
  { destruct (Hbest i Hi Hci) as [|[_ ?]]; [rewrite Hke in * by done; lia|].
    destruct (decide (k = i)); [done|]. destruct Hck as [Huk _]. destruct (Hfirst k ltac:(lia)); done. }
  rewrite Hops. f_equal. f_equal. unfold within in Hrel. rewrite Hpi in Hrel. case_decide as Hroot; [congruence|].
  destruct Hrel as (rest & Happ & ->). apply (f_equal length) in Happ. rewrite length_app in Happ. destruct rest; [done|simpl in Happ; lia].
Qed.

(** mounting a backend at an absolute path of at most 23 characters makes the path
    resolve to that backend, as its root, whatever was mounted before; a mount at the
    same path is replaced, and the call fails only if all eight mounts are in use. *)
Theorem vfs_mount_resolves ms p b : mounts_ok ms -> starts_with_slash p = true -> Z.of_nat (length p) <= 23 ->
  let '(ms', rc) := mount_at p b ms in
  mounts_ok ms' /\
  if rc =? VFS_OK then resolve_mount ms' p = Some (Some b, root_path)
  else rc = VFS_ERR_NO_SPACE /\ ms' = ms /\ forall m, m ∈ ms -> m_used m <> 0 /\ m_path m <> p.
Proof.
  intros Hms Hp Hlen. pose proof (mount_at_ok p b ms Hms Hp) as Hok.
  assert (copy_path 24 p = p) as Hcopy by (unfold copy_path; apply take_ge; lia).
  pose proof (first_mount_resolves p b) as Hkey. specialize (fun i ms' => Hkey i ms' Hp).
  destruct Hms as [Hl Hwf]. unfold mount_at in *. destruct (find_mount ms p) as [i|] eqn:Hf; simpl in *.
  - split; [done|]. unfold find_mount in Hf. pose proof (find_idx_lt _ _ _ Hf) as Hi.
    apply find_idx_Some in Hf as [(m & Hm & Ht) Hlow]. unfold str_eq in Ht.
    apply andb_true_iff in Ht as [Hu Hpath]. bsimpl. apply bool_decide_eq_true in Hpath.
    assert (ms !!! i = m) as Hmi by (by apply list_lookup_total_correct).
    apply (Hkey i); rewrite ?length_alter; try done; rewrite ?list_lookup_total_alter_eq, ?Hmi by done; try done.
    intros j Hj. rewrite list_lookup_total_alter_ne by lia.
    specialize (Hlow j (ms !!! j) Hj (list_lookup_lookup_total_lt ms j ltac:(lia))).
    apply andb_false_iff in Hlow as [Hz|Hz]; [left|right]; [by bsimpl|].
    by apply bool_decide_eq_false in Hz.
  - unfold find_mount in Hf. rewrite find_idx_None in Hf.
    assert (forall j, (j < length ms)%nat -> m_used (ms !!! j) = 0 \/ m_path (ms !!! j) <> p) as Hnone.
    { intros j Hj. specialize (Hf j _ (list_lookup_lookup_total_lt ms j Hj)). apply andb_false_iff in Hf as [Hz|Hz]; [left|right]; [by bsimpl|].
      by apply bool_decide_eq_false in Hz. }
    destruct (find_idx (fun m => m_used m =? 0) ms) as [i|] eqn:Hfree; simpl in *.
    + split; [done|]. pose proof (find_idx_lt _ _ _ Hfree) as Hi.
      apply (Hkey i); rewrite ?length_insert; try done; rewrite ?list_lookup_total_insert_eq by done; try done.
      intros j Hj. rewrite list_lookup_total_insert_ne by lia. apply Hnone. lia.
    + split_and!; try done. intros m Hm. rewrite find_idx_None in Hfree.
      apply list_elem_of_lookup_1 in Hm as [j Hj]. specialize (Hfree j m Hj). bsimpl. split; [done|].
      destruct (Hnone j) as [Hz|Hz]; [by eapply lookup_lt_Some| |]; rewrite (list_lookup_total_correct _ _ _ Hj) in Hz; done.
Qed.
End Mounts.

(** ** A table *)

(** Backend 0 at the root, 1 at /a and 2 at /a/b. *)
Definition demo_mounts : list (VfsMount Z) :=
  [Build_VfsMount 1 root_path 1 (Some 0); Build_VfsMount 1 [47; 97] 2 (Some 1);
   Build_VfsMount 1 [47; 97; 47; 98] 4 (Some 2)] ++ replicate 5 no_mount_entry.

Lemma demo_mounts_ok : mounts_ok demo_mounts.
Proof.
  split; [reflexivity|]. repeat (apply list.Forall_cons; split; [first [by left|right; split; reflexivity]|]). apply list.Forall_nil_2.
Qed.

Lemma resolve_mount_longest_witness :
  resolve_mount demo_mounts [47; 97; 47; 98; 47; 99] = Some (Some 2, [47; 99]) /\
  exists m, m ∈ demo_mounts /\ covers [47; 97; 47; 98; 47; 99] m /\ m_ops m = Some 2.
Proof.
  split; [reflexivity|].
  destruct (resolve_mount_longest demo_mounts [47; 97; 47; 98; 47; 99] demo_mounts_ok) as (m & Hm & Hc & Hops & _).
  exists m. split_and!; [exact Hm|exact Hc|symmetry; exact Hops].
Defined.

Example demo_not_a_component : resolve_mount demo_mounts [47; 97; 99] = Some (Some 0, [47; 97; 99]).
Proof. reflexivity. Qed.

Lemma vfs_mount_resolves_witness :
  snd (mount_at [47; 99] 7 demo_mounts) = VFS_OK /\
  resolve_mount (fst (mount_at [47; 99] 7 demo_mounts)) [47; 99] = Some (Some 7, root_path).
Proof.
  split; [reflexivity|].
  assert (Z.of_nat (length [47; 99]) <= 23) as Hl by (simpl; lia).
  exact (proj2 (vfs_mount_resolves demo_mounts [47; 99] 7 demo_mounts_ok eq_refl Hl)).
Defined.
