(* ===== verification/Frames.v ===== *)
(** * What a call leaves alone, and tables of handles

    [frame f m]: the call [m] does not change the part [f] of its state.  The lemmas
    follow the way calls are put together, so that [frame_solve] finds most proofs.
    The second part is about the tables of handles every file system keeps: a slot is
    live from the open that takes it to the close that ends it. *)
From S2P Require Import Prelude.

Create HintDb frame.

Section Frame.
Context {S Y : Type} (f : S -> Y).

Definition frame {A} (m : ST S A) : Prop := forall s, f (fst (m s)) = f s.

Lemma frame_ret {A} (a : A) : frame (mret a).
Proof. done. Qed.

Lemma frame_bind {A B} (m : ST S A) (k : A -> ST S B) : frame m -> (forall a, frame (k a)) -> frame (m ≫= k).
Proof.
  intros Hm Hk s. unfold mbind, ST_bind. specialize (Hm s). destruct (m s) as [s' a]. simpl in Hm. by rewrite (Hk a s').
Qed.

Lemma frame_get {B} (k : S -> ST S B) : (forall s, frame (k s)) -> frame (get ≫= k).
Proof. intros Hk s. apply Hk. Qed.

Lemma frame_modify (g : S -> S) : (forall s, f (g s) = f s) -> frame (modify g).
Proof. intros Hg s. apply Hg. Qed.

Lemma frame_fun {A} (m : ST S A) : (forall s, f (fst (m s)) = f s) -> frame m.
Proof. done. Qed.
End Frame.

#[export] Hint Resolve frame_ret : frame.

Ltac frame_step :=
  lazymatch goal with
  | |- forall _, _ => intro
  | |- frame _ (let '(_, _) := ?p in _) => destruct p
  | |- frame _ (let x := _ in _) => cbv zeta
  | |- frame _ (get ≫= _) => apply frame_get; intro
  | |- frame _ (mret _) => apply frame_ret
  | |- frame _ (match ?x with _ => _ end) => destruct x
  | |- frame _ (_ ≫= _) => apply frame_bind
  | |- _ => solve [auto with frame]
  end.
Ltac frame_solve := repeat frame_step.

(** A map over a table that an update of one slot does not see. *)
Lemma map_alter_same {A B} (g : A -> B) (u : A -> A) (l : list A) i :
  (forall x, g (u x) = g x) -> map g (alter u i l) = map g l.
Proof.
  intros Hu. apply list_eq. intros j. rewrite !list_lookup_fmap. destruct (decide (i = j)) as [<-|Hne].
  - rewrite list_lookup_alter_eq. destruct (l !! i); simpl; [by rewrite Hu|done].
  - by rewrite list_lookup_alter_ne.
Qed.

(** ** Tables of handles *)

(** Of each slot: whether it is used, and its reference count. *)
Definition slot_live (l : list (Z * Z)) (h : Z) : Prop :=
  0 <= h /\ exists u, l !! Z.to_nat h = Some u /\ fst u <> 0.

(** A table of [n] slots, none with more than one reference. *)
Definition single (n : Z) (l : list (Z * Z)) : Prop := Z.of_nat (length l) = n /\ Forall (fun u => snd u <= 1) l.

Lemma slot_live_insert l i u h : (i < length l)%nat ->
  slot_live (<[i := u]> l) h <-> (h = Z.of_nat i /\ fst u <> 0) \/ (h <> Z.of_nat i /\ slot_live l h).
Proof.
  intros Hi. unfold slot_live. destruct (decide (h = Z.of_nat i)) as [->|Hne].
  - rewrite Nat2Z.id, list_lookup_insert_eq by done. split.
    + intros (_ & u' & [= <-] & ?). by left.
    + intros [[_ ?]|[[] _]]; [|done]. split; [lia|]. by exists u.
  - split.
    + intros (Hh & u' & Hu' & ?). rewrite list_lookup_insert_ne in Hu' by lia. right. split; [done|]. split; [done|]. by exists u'.
    + intros [[? _]|[_ (Hh & u' & Hu' & ?)]]; [done|]. split; [done|]. exists u'. by rewrite list_lookup_insert_ne by lia.
Qed.

Lemma single_insert n l i u : single n l -> snd u <= 1 -> single n (<[i := u]> l).
Proof. intros [Hn Hl] Hu. split; [by rewrite length_insert|by apply Forall_insert]. Qed.

(** ** Opening and closing *)

Section Handles.
Context {S : Type} (slots : S -> list (Z * Z)) (n : Z).

(** The call either fails, with the table as it was, or takes a slot that was free. *)
Definition opening (m : ST S Z) : Prop := forall s,
  let '(s', h) := m s in
  (h < 0 /\ slots s' = slots s) \/
  (0 <= h < Z.of_nat (length (slots s)) /\ ~ slot_live (slots s) h /\
   slots s' = <[Z.to_nat h := (1, 1)]> (slots s)).

(** Closing a handle in use frees its slot, if no other reference is left. *)
Definition closing (m : Z -> ST S Z) : Prop := forall h s, single n (slots s) -> slot_live (slots s) h ->
  exists r, r <= 1 /\ slots (fst (m h s)) = <[Z.to_nat h := (0, r)]> (slots s).

Lemma opening_bind {A} (m : ST S A) k : frame slots m -> (forall a, opening (k a)) -> opening (m ≫= k).
Proof.
  intros Hm Hk s. unfold mbind, ST_bind. specialize (Hm s). destruct (m s) as [s1 a]. simpl in Hm.
  specialize (Hk a s1). by rewrite Hm in Hk.
Qed.

Lemma opening_get k : (forall s, opening (k s)) -> opening (get ≫= k).
Proof. intros Hk s. apply Hk. Qed.

Lemma opening_error e : e < 0 -> opening (mret e).
Proof. intros He s. by left. Qed.

Lemma opening_ret {A} (a : A) k : opening (k a) -> opening (mret a ≫= k).
Proof. done. Qed.

Lemma opening_assoc {A B} (m : ST S A) (k : A -> ST S B) k' :
  opening (m ≫= fun a => k a ≫= k') -> opening ((m ≫= k) ≫= k').
Proof. intros Ho s. specialize (Ho s). unfold mbind, ST_bind in *. by destruct (m s). Qed.

(** The stores that take the free slot [i]. *)
Lemma opening_slot s s' i : (i < length (slots s))%nat -> ~ slot_live (slots s) (Z.of_nat i) ->
  slots s' = <[i := (1, 1)]> (slots s) ->
  let h := Z.of_nat i in
  (h < 0 /\ slots s' = slots s) \/
  (0 <= h < Z.of_nat (length (slots s)) /\ ~ slot_live (slots s) h /\ slots s' = <[Z.to_nat h := (1, 1)]> (slots s)).
Proof. intros Hi Hl Hs. right. rewrite Nat2Z.id. split_and!; done || lia. Qed.

(** What a client of the table sees. *)
Lemma opening_live m s : single n (slots s) -> opening m ->
  let '(s', h) := m s in
  single n (slots s') /\
  if h <? 0 then slots s' = slots s
  else ~ slot_live (slots s) h /\ forall h', slot_live (slots s') h' <-> slot_live (slots s) h' \/ h' = h.
Proof.
  intros Hone Hm. specialize (Hm s). destruct (m s) as [s' h]. destruct Hm as [[Hh ->]|(Hh & Hfree & ->)].
  - destruct (Z.ltb_spec h 0); [done|lia].
  - destruct (Z.ltb_spec h 0); [lia|]. split; [by apply single_insert|]. split; [done|]. intros h'.
    rewrite slot_live_insert, Z2Nat.id by lia. simpl.
    destruct (decide (h' = h)) as [->|]; split; try tauto; intros; left; split; done.
Qed.

Lemma closing_live m h s : single n (slots s) -> slot_live (slots s) h -> closing m ->
  single n (slots (fst (m h s))) /\
  forall h', slot_live (slots (fst (m h s))) h' <-> slot_live (slots s) h' /\ h' <> h.
Proof.
  intros Hone Hl Hm. destruct (Hm h s Hone Hl) as (r & Hr & ->). split; [by apply single_insert|].
  intros h'. destruct Hl as (Hh & u & Hu & _). pose proof (lookup_lt_Some _ _ _ Hu).
  rewrite slot_live_insert, Z2Nat.id by lia. simpl. tauto.
Qed.
End Handles.

Ltac opening_step :=
  lazymatch goal with
  | |- forall _, _ => intro
  | |- opening _ (let '(_, _) := ?p in _) => destruct p
  | |- opening _ (let x := _ in _) => cbv zeta
  | |- opening _ (get ≫= _) => apply opening_get; intro
  | |- opening _ (mret _ ≫= _) => apply opening_ret
  | |- opening _ ((_ ≫= _) ≫= _) => apply opening_assoc
  | |- opening _ (mret _) => apply opening_error
  | |- opening _ ((match ?x with _ => _ end) ≫= _) => destruct x eqn:?
  | |- opening _ (match ?x with _ => _ end) => destruct x eqn:?
  | |- opening _ (_ ≫= _) => apply opening_bind; [solve [frame_solve]|]
  | |- _ < 0 => first [reflexivity | bsimpl; lia]
  | |- _ => solve [auto with frame]
  end.
Ltac opening_solve := repeat opening_step.

(** A free slot found by the search is not live. *)
Lemma found_free {A} (g : A -> Z * Z) (used : A -> Z) l i : (forall x, fst (g x) = used x) ->
  find_idx (fun x => used x =? 0) l = Some i -> (i < length (map g l))%nat /\ ~ slot_live (map g l) (Z.of_nat i).
Proof.
  intros Hg Hi. split; [rewrite length_map; by eapply find_idx_lt|].
  apply find_idx_Some in Hi as [(x & Hx & Hu) _]. intros (_ & u & Hlu & Hne).
  rewrite Nat2Z.id, list_lookup_fmap, Hx in Hlu. injection Hlu as <-. rewrite Hg in Hne. by apply Z.eqb_eq in Hu.
Qed.

Lemma map_insert_slot {A B} (g : A -> B) i x (l : list A) : map g (<[i := x]> l) = <[i := g x]> (map g l).
Proof. apply list_fmap_insert. Qed.
