(* ===== verification/Ext2Frames.v ===== *)
(** * The handle tables of the file systems across the calls

    Only opening and closing change which handles of the ext2 driver are in use: every
    other call leaves the table's use marks and counts alone, whatever the disk holds.  The
    same facts follow for the RAM disk, the tiny file system and the pipes. *)
From S2P Require Import Prelude BlockDev PageCache Bytes VfsDefs Ext2 Ext2Dir Ext2Ops Pipe Ramdisk Disk Tfs Frames.

Section Frames.
Context {D : Type} `{BlockDev D} (stack junk : list Z).

Definition slots (s : Ext2 (D := D)) : list (Z * Z) := map (fun h => (h_used h, h_ref_count h)) (ext2_handles s).

#[local] Abbreviation idle := (frame slots).

Lemma idle_read_block n : idle (read_block stack n).
Proof. intros s. unfold read_block. by destruct (read_sectors _ _ _ _). Qed.
Lemma idle_write_block n b : idle (write_block (D := D) n b).
Proof. done. Qed.
Hint Resolve idle_read_block idle_write_block : frame.

Lemma idle_read_group_desc g : idle (read_group_desc stack g).
Proof. unfold read_group_desc. frame_solve. Qed.
Hint Resolve idle_read_group_desc : frame.

Lemma idle_read_inode n : idle (read_inode stack junk n).
Proof. unfold read_inode. frame_solve. Qed.
Lemma idle_write_inode n i : idle (write_inode stack junk n i).
Proof. unfold write_inode. frame_solve. Qed.

Lemma idle_alloc_groups which base limit per_group group n :
  idle (alloc_groups stack which base limit per_group group n).
Proof. revert group. induction n as [|n IH]; intros group; simpl; frame_solve. Qed.
Hint Resolve idle_read_inode idle_write_inode idle_alloc_groups : frame.

Lemma idle_alloc_inode : idle (alloc_inode stack).
Proof. unfold alloc_inode. frame_solve. Qed.
Lemma idle_alloc_block : idle (alloc_block stack).
Proof. unfold alloc_block. frame_solve. Qed.
Lemma idle_free_inode n : idle (free_inode stack n).
Proof. unfold free_inode. frame_solve. Qed.
Lemma idle_free_block n : idle (free_block stack n).
Proof. unfold free_block. frame_solve. Qed.
Hint Resolve idle_alloc_inode idle_alloc_block idle_free_inode idle_free_block : frame.

Lemma idle_get_indirect i k c : idle (get_indirect stack i k c).
Proof. unfold get_indirect. frame_solve. Qed.
Hint Resolve idle_get_indirect : frame.
Lemma idle_get_block i k c : idle (inode_get_block stack i k c).
Proof. unfold inode_get_block. frame_solve. Qed.

Lemma idle_free_if_used b : idle (free_if_used stack b).
Proof. unfold free_if_used. frame_solve. Qed.
Hint Resolve idle_free_if_used : frame.
Lemma idle_free_all l : idle (free_all stack l).
Proof. induction l; simpl; frame_solve. Qed.
Hint Resolve idle_free_all : frame.
Lemma idle_clear_blocks i : idle (inode_clear_blocks stack i).
Proof. unfold inode_clear_blocks. frame_solve. Qed.
Hint Resolve idle_get_block idle_clear_blocks : frame.

(** ** Directories and paths *)

Lemma idle_lookup_blocks name i b n : idle (lookup_blocks stack junk name i b n).
Proof. revert i b. induction n as [|n IH]; intros; simpl; frame_solve. Qed.
Lemma idle_add_blocks d name k t c i b n : idle (add_blocks stack junk d name k t c i b n).
Proof. revert i b. induction n as [|n IH]; intros; simpl; frame_solve. Qed.
Lemma idle_remove_blocks name i b n : idle (remove_blocks stack junk name i b n).
Proof. revert i b. induction n as [|n IH]; intros; simpl; frame_solve. Qed.
Lemma idle_empty_blocks i b n : idle (empty_blocks stack junk i b n).
Proof. revert i b. induction n as [|n IH]; intros; simpl; frame_solve. Qed.
Hint Resolve idle_lookup_blocks idle_add_blocks idle_remove_blocks idle_empty_blocks : frame.

Lemma idle_dir_lookup d name : idle (dir_lookup stack junk d name).
Proof. unfold dir_lookup. frame_solve. Qed.
Lemma idle_dir_add_entry d name k t : idle (dir_add_entry stack junk d name k t).
Proof. unfold dir_add_entry. frame_solve. Qed.
Lemma idle_dir_remove_entry d name : idle (dir_remove_entry stack junk d name).
Proof. unfold dir_remove_entry. frame_solve. Qed.
Lemma idle_is_empty k : idle (ext2_is_dir_effectively_empty stack junk k).
Proof. unfold ext2_is_dir_effectively_empty. frame_solve. Qed.
Hint Resolve idle_dir_lookup idle_dir_add_entry idle_dir_remove_entry idle_is_empty : frame.

Lemma idle_resolve_from w n c p : idle (resolve_from stack junk w n c p).
Proof. revert c p. induction n as [|n IH]; intros; simpl; frame_solve. Qed.
Hint Resolve idle_resolve_from : frame.
Lemma idle_resolve_path_opt w p : idle (resolve_path_opt stack junk w p).
Proof. unfold resolve_path_opt. frame_solve. Qed.
Lemma idle_resolve_path p : idle (resolve_path stack junk p).
Proof. apply idle_resolve_path_opt. Qed.
Hint Resolve idle_resolve_path_opt idle_resolve_path : frame.

(** ** The calls *)

Lemma idle_set_handle h f : (forall x, h_used (f x) = h_used x /\ h_ref_count (f x) = h_ref_count x) -> idle (set_handle (D := D) h f).
Proof.
  intros Hf s. unfold set_handle, modify. simpl. apply map_alter_same. intros x. by destruct (Hf x) as [-> ->].
Qed.
Hint Extern 1 (frame _ (set_handle _ _)) => (apply idle_set_handle; intros; split; repeat case_match; reflexivity) : frame.

Lemma idle_free_from i k n : idle (free_from stack i k n).
Proof. revert i k. induction n as [|n IH]; intros; simpl; frame_solve. Qed.
Hint Resolve idle_free_from : frame.
Lemma idle_truncate_inode k n : idle (ext2_truncate_inode stack junk k n).
Proof. unfold ext2_truncate_inode. frame_solve. Qed.
Hint Resolve idle_truncate_inode : frame.

Lemma idle_read_loop i pos size n total : idle (read_loop stack junk i pos size n total).
Proof. revert i total. induction n as [|n IH]; intros; simpl; frame_solve. Qed.
Lemma idle_write_loop i src pos size n total : idle (write_loop stack junk i src pos size n total).
Proof. revert i total. induction n as [|n IH]; intros; simpl; frame_solve. Qed.
Hint Resolve idle_read_loop idle_write_loop : frame.

Lemma idle_create_file k leaf : idle (create_file stack junk k leaf).
Proof. unfold create_file. frame_solve. Qed.
Lemma idle_read h b n : idle (ext2_read stack junk h b n).
Proof. unfold ext2_read. frame_solve. Qed.
Lemma idle_write h b n : idle (ext2_write stack junk h b n).
Proof. unfold ext2_write. frame_solve. Qed.
Lemma idle_delete p : idle (ext2_delete stack junk p).
Proof. unfold ext2_delete. frame_solve. Qed.
Lemma idle_lseek h o w : idle (ext2_lseek stack junk h o w).
Proof. unfold ext2_lseek. frame_solve. Qed.
Lemma idle_existing p : idle (existing stack junk p).
Proof. unfold existing. frame_solve. Qed.
Hint Resolve idle_create_file idle_existing : frame.
Lemma idle_stat p b : idle (ext2_stat stack junk p b).
Proof. unfold ext2_stat. frame_solve. Qed.
Lemma idle_update_inode k i : idle (update_inode stack junk k i).
Proof. unfold update_inode. frame_solve. Qed.
Hint Resolve idle_update_inode : frame.
Lemma idle_chmod p m : idle (ext2_chmod stack junk p m).
Proof. unfold ext2_chmod. frame_solve. Qed.
Lemma idle_chown p u g : idle (ext2_chown stack junk p u g).
Proof. unfold ext2_chown. frame_solve. Qed.
Lemma idle_truncate_path p n : idle (ext2_truncate_path stack junk p n).
Proof. unfold ext2_truncate_path. frame_solve. Qed.
Lemma idle_ftruncate h n : idle (ext2_ftruncate stack junk h n).
Proof. unfold ext2_ftruncate. frame_solve. Qed.
Lemma idle_rename p q : idle (ext2_rename stack junk p q).
Proof. unfold ext2_rename. frame_solve. Qed.
Lemma idle_make_dir k p leaf m i : idle (make_dir stack junk k p leaf m i).
Proof. unfold make_dir. frame_solve. Qed.
Hint Resolve idle_make_dir : frame.
Lemma idle_mkdir p m : idle (ext2_mkdir stack junk p m).
Proof. unfold ext2_mkdir. frame_solve. Qed.
Lemma idle_rmdir p : idle (ext2_rmdir stack junk p).
Proof. unfold ext2_rmdir. frame_solve. Qed.
Lemma idle_link p q : idle (ext2_link stack junk p q).
Proof. unfold ext2_link. frame_solve. Qed.
Lemma idle_symlink_inode k t : idle (symlink_inode stack junk k t).
Proof. unfold symlink_inode. frame_solve. Qed.
Hint Resolve idle_symlink_inode : frame.
Lemma idle_symlink t p : idle (ext2_symlink stack junk t p).
Proof. unfold ext2_symlink. frame_solve. Qed.
Lemma idle_readlink p n : idle (ext2_readlink stack junk p n).
Proof. unfold ext2_readlink. frame_solve. Qed.

(** ** Opening and closing *)

(** Allocation followed by the stores into the new handle. *)
Lemma opening_handle f : (forall x, h_used (f x) = h_used x /\ h_ref_count (f x) = h_ref_count x) ->
  opening slots (handle ← ext2_handle_alloc; if handle <? 0 then mret VFS_ERR_NO_SPACE else _ ← set_handle (D := D) handle f; mret handle).
Proof.
  intros Hf s. unfold mbind, ST_bind, ext2_handle_alloc. destruct (find_idx _ _) as [i|] eqn:Hi; [|by left].
  destruct (found_free (fun h => (h_used h, h_ref_count h)) h_used _ _ (fun _ => eq_refl) Hi) as [Hlt Hfree].
  destruct (Z.ltb_spec (Z.of_nat i) 0); [lia|].
  destruct (set_handle _ f _) as [s' []] eqn:E. apply opening_slot; [done..|].
  pose proof (idle_set_handle (Z.of_nat i) f Hf (s <| ext2_handles ::= <[i := Build_Ext2Handle 1 1 0 0 0]> |>)) as Hs.
  rewrite E in Hs. simpl in Hs. rewrite Hs. exact (map_insert_slot (fun h => (h_used h, h_ref_count h)) i _ (ext2_handles s)).
Qed.

Lemma opening_open_inode k flags : opening slots (open_inode stack junk k flags).
Proof.
  unfold open_inode. opening_solve; apply opening_handle; done.
Qed.

Lemma ext2_opening path flags : opening slots (ext2_open stack junk path flags).
Proof.
  pose proof opening_open_inode. unfold ext2_open, create_file. opening_solve.
Qed.

Lemma ext2_closing : closing slots EXT2_MAX_HANDLES ext2_close.
Proof.
  intros h s [Hn Hone] (Hh & u & Hu & Hne). pose proof (lookup_lt_Some _ _ _ Hu) as Hlt. unfold slots in *.
  rewrite length_map in Hn. rewrite list_lookup_fmap in Hu. destruct (ext2_handles s !! Z.to_nat h) as [x|] eqn:Hx; [|done].
  injection Hu as <-. simpl in Hne. assert ((ext2_handles s).[h] = x) as Hcell by (by apply list_lookup_total_correct).
  rewrite length_map in Hlt. unfold ext2_close, ext2_handle_close, handle_ok. rewrite Hcell.
  destruct (Z.ltb_spec h 0), (Z.leb_spec EXT2_MAX_HANDLES h), (Z.eqb_spec (h_used x) 0); try lia. simpl.
  assert (h_ref_count x <= 1) as Hr.
  { apply (Forall_lookup_1 _ _ (Z.to_nat h) (h_used x, h_ref_count x)) in Hone; [done|]. by rewrite list_lookup_fmap, Hx. }
  destruct (Z.ltb_spec 1 (h_ref_count x)); [lia|]. simpl. exists 0. split; [lia|].
  rewrite alter_cell by done. exact (map_insert_slot (fun h => (h_used h, h_ref_count h)) _ _ _).
Qed.
End Frames.

(** ** RAM disk *)

Module RamdiskFrames.

Definition slots (s : Ramdisk) : list (Z * Z) := map (fun h => (rh_used h, 1)) (ramdisk_handles s).

Abbreviation idle := (frame slots).

Lemma ramdisk_idle_set_file i f : idle (set_file i f).
Proof. done. Qed.
Lemma ramdisk_idle_set_rhandle h f : (forall x, rh_used (f x) = rh_used x) -> idle (set_rhandle h f).
Proof. intros Hf s. unfold set_rhandle, modify. simpl. apply map_alter_same. intros x. by rewrite Hf. Qed.
#[export] Hint Resolve ramdisk_idle_set_file : frame.
#[export] Hint Extern 1 (frame _ (set_rhandle _ _)) => (apply ramdisk_idle_set_rhandle; intros; repeat case_match; reflexivity) : frame.

Lemma ramdisk_idle_touch i : idle (touch i).
Proof. done. Qed.
#[export] Hint Resolve ramdisk_idle_touch : frame.
Lemma ramdisk_idle_open_entry name flags : idle (open_entry name flags).
Proof. unfold open_entry. frame_solve. done. Qed.
#[export] Hint Resolve ramdisk_idle_open_entry : frame.
Lemma ramdisk_idle_read h b n : idle (ramdisk_read h b n).
Proof. unfold ramdisk_read. frame_solve. Qed.
Lemma ramdisk_idle_write h b n : idle (ramdisk_write h b n).
Proof. unfold ramdisk_write. frame_solve. Qed.
Lemma ramdisk_idle_with_entry {A} p (e : Z -> A) k : (forall i, idle (k i)) -> idle (with_entry p e k).
Proof. intros Hk. unfold with_entry. frame_solve. Qed.
Lemma ramdisk_idle_delete p : idle (ramdisk_delete p).
Proof. apply ramdisk_idle_with_entry. frame_solve. Qed.
Lemma ramdisk_idle_lseek h o w : idle (ramdisk_lseek h o w).
Proof. unfold ramdisk_lseek. frame_solve. Qed.
Lemma ramdisk_idle_stat p b : idle (ramdisk_stat p b).
Proof. unfold ramdisk_stat. destruct b; [done|]. apply ramdisk_idle_with_entry. frame_solve. Qed.
Lemma ramdisk_idle_rename p q : idle (ramdisk_rename p q).
Proof. unfold ramdisk_rename. frame_solve. Qed.
Lemma ramdisk_idle_truncate p n : idle (ramdisk_truncate p n).
Proof.
  apply ramdisk_idle_with_entry. frame_solve. intros s. unfold modify, slots. simpl. rewrite map_map.
  apply map_ext. intros h. unfold clamp_handle. by destruct (_ && _).
Qed.
Lemma ramdisk_idle_ftruncate h n : idle (ramdisk_ftruncate h n).
Proof. unfold ramdisk_ftruncate. frame_solve. Qed.

Lemma ramdisk_opens path flags : opening slots (ramdisk_open path flags).
Proof.
  unfold ramdisk_open. destruct (ramdisk_extract_name path) as [name|]; [|by apply opening_error].
  apply opening_bind; [apply ramdisk_idle_open_entry|]. intros e. destruct (e <? 0) eqn:He; [apply opening_error; by bsimpl|].
  intros s. unfold mbind, ST_bind, get, ramdisk_alloc_handle. destruct (find_idx _ _) as [i|] eqn:Hi; simpl; [|by left].
  destruct (found_free (fun h => (rh_used h, 1)) rh_used _ _ (fun _ => eq_refl) Hi) as [Hlt Hfree].
  destruct (Z.ltb_spec (Z.of_nat i) 0); [lia|]. simpl. apply opening_slot; [done..|].
  unfold slots. simpl. rewrite Nat2Z.id, alter_cell by (rewrite <- (length_map (fun h => (rh_used h, 1))); done).
  exact (map_insert_slot (fun h => (rh_used h, 1)) i _ (ramdisk_handles s)).
Qed.

(** A live slot is a handle the calls accept. *)
Lemma ramdisk_live_handle s h : single RAMDISK_MAX_HANDLES (slots s) -> slot_live (slots s) h ->
  rhandle_ok s h = true /\ (Z.to_nat h < length (ramdisk_handles s))%nat.
Proof.
  intros [Hn _] (Hh & u & Hu & Hne). unfold slots in *. rewrite length_map in Hn. rewrite list_lookup_fmap in Hu.
  destruct (ramdisk_handles s !! Z.to_nat h) as [x|] eqn:Hx; [|done]. injection Hu as <-. simpl in Hne.
  pose proof (lookup_lt_Some _ _ _ Hx). unfold rhandle_ok. rewrite (list_lookup_total_correct _ _ _ Hx).
  destruct (Z.ltb_spec h 0), (Z.leb_spec RAMDISK_MAX_HANDLES h), (Z.eqb_spec (rh_used x) 0); done || lia.
Qed.

Lemma ramdisk_closes : closing slots RAMDISK_MAX_HANDLES ramdisk_close.
Proof.
  intros h s Hone Hl. destruct (ramdisk_live_handle s h Hone Hl) as [Hok Hlt]. exists 1. split; [lia|].
  unfold ramdisk_close, mbind, ST_bind, get. rewrite Hok. unfold set_rhandle, modify, slots. simpl.
  rewrite alter_cell by done. exact (map_insert_slot (fun h => (rh_used h, 1)) _ _ (ramdisk_handles s)).
Qed.
End RamdiskFrames.

(** ** Tiny file system *)

Module TfsFrames.
Section Tfs.
Context {D : Type} `{BlockDev D} `{AtaFlag D} (stack : list Z).

Definition slots (s : Tfs D) : list (Z * Z) := map (fun h => (th_used h, th_ref_count h)) (tfs_handles s).

#[local] Abbreviation idle := (frame slots).

Lemma tfs_idle_on_disk {A} (m : ST (CachedDisk D) A) : idle (on_disk m).
Proof. intros s. unfold on_disk. by destruct (m (tfs_disk s)). Qed.
Lemma tfs_idle_set_root f : idle (set_root (D := D) f).
Proof. done. Qed.
Hint Resolve tfs_idle_on_disk tfs_idle_set_root : frame.
Lemma tfs_idle_set_thandle h f : (forall x, th_used (f x) = th_used x /\ th_ref_count (f x) = th_ref_count x) ->
  idle (set_thandle (D := D) h f).
Proof. intros Hf s. unfold set_thandle, modify. simpl. apply map_alter_same. intros x. by destruct (Hf x) as [-> ->]. Qed.
Hint Extern 1 (frame _ (set_thandle _ _)) => (apply tfs_idle_set_thandle; intros; split; repeat case_match; reflexivity) : frame.

Lemma tfs_idle_read_dir : idle (read_dir (D := D)).
Proof. unfold read_dir. frame_solve. done. Qed.
Lemma tfs_idle_write_dir : idle (write_dir (D := D)).
Proof. unfold write_dir. frame_solve. Qed.
Hint Resolve tfs_idle_read_dir tfs_idle_write_dir : frame.

Lemma tfs_idle_with_name {A} p (e : Z -> A) k : (forall name, idle (k name)) -> idle (with_name p e k).
Proof. intros Hk. unfold with_name. frame_solve. Qed.
Lemma tfs_idle_with_file {A} p (e : Z -> A) k : (forall i, idle (k i)) -> idle (with_file p e k).
Proof. intros Hk. apply tfs_idle_with_name. frame_solve. Qed.
Lemma tfs_idle_open_entry name flags : idle (tfs_open_entry (D := D) name flags).
Proof. unfold tfs_open_entry. frame_solve. Qed.
Hint Resolve tfs_idle_open_entry : frame.

Lemma tfs_idle_read_loop lba pos size n t b : idle (tfs_read_loop (D := D) lba pos size n t b).
Proof. revert t b. induction n as [|n IH]; intros; simpl; frame_solve. Qed.
Lemma tfs_idle_write_loop lba src pos size n t b : idle (tfs_write_loop (D := D) lba src pos size n t b).
Proof. revert t b. induction n as [|n IH]; intros; simpl; frame_solve. Qed.
Hint Resolve tfs_idle_read_loop tfs_idle_write_loop : frame.

Lemma tfs_idle_read h b n : idle (tfs_read (D := D) stack h b n).
Proof. unfold tfs_read. frame_solve. Qed.
Lemma tfs_idle_write h b n : idle (tfs_write (D := D) stack h b n).
Proof. unfold tfs_write. frame_solve. Qed.
Lemma tfs_idle_delete p : idle (tfs_delete (D := D) p).
Proof. apply tfs_idle_with_file. frame_solve. Qed.
Lemma tfs_idle_lseek h o w : idle (tfs_lseek (D := D) h o w).
Proof. unfold tfs_lseek. frame_solve. Qed.
Lemma tfs_idle_stat p b : idle (tfs_stat (D := D) p b).
Proof. unfold tfs_stat. destruct b; [done|]. apply tfs_idle_with_file. frame_solve. Qed.
Lemma tfs_idle_rename p q : idle (tfs_rename (D := D) p q).
Proof. unfold tfs_rename. frame_solve. Qed.
Lemma tfs_idle_truncate p n : idle (tfs_truncate (D := D) p n).
Proof. apply tfs_idle_with_file. frame_solve. Qed.
Lemma tfs_idle_ftruncate h n : idle (tfs_ftruncate (D := D) h n).
Proof. unfold tfs_ftruncate. frame_solve. Qed.

(** Allocation followed by the stores into the new handle. *)
Lemma tfs_opening_handle f : (forall x, th_used (f x) = th_used x /\ th_ref_count (f x) = th_ref_count x) ->
  opening slots (handle ← tfs_alloc_handle; if handle <? 0 then mret VFS_ERR_NO_SPACE else _ ← set_thandle (D := D) handle f; mret handle).
Proof.
  intros Hf s. unfold mbind, ST_bind, tfs_alloc_handle. destruct (find_idx _ _) as [i|] eqn:Hi; [|by left].
  destruct (found_free (fun h => (th_used h, th_ref_count h)) th_used _ _ (fun _ => eq_refl) Hi) as [Hlt Hfree].
  destruct (Z.ltb_spec (Z.of_nat i) 0); [lia|].
  destruct (set_thandle _ f _) as [s' []] eqn:E. apply opening_slot; [done..|].
  pose proof (tfs_idle_set_thandle (Z.of_nat i) f Hf (s <| tfs_handles ::= <[i := Build_TfsHandle 1 1 (-1) 0 0]> |>)) as Hs.
  rewrite E in Hs. simpl in Hs. rewrite Hs. exact (map_insert_slot (fun h => (th_used h, th_ref_count h)) i _ (tfs_handles s)).
Qed.

Lemma tfs_opens path flags : opening slots (tfs_open (D := D) path flags).
Proof.
  unfold tfs_open, with_name. opening_solve; by apply tfs_opening_handle.
Qed.

Lemma tfs_closes : closing slots TFS_MAX_HANDLES (tfs_close (D := D)).
Proof.
  intros h s [Hn Hone] (Hh & u & Hu & Hne). pose proof (lookup_lt_Some _ _ _ Hu) as Hlt. unfold slots in *.
  rewrite length_map in Hn, Hlt. rewrite list_lookup_fmap in Hu. destruct (tfs_handles s !! Z.to_nat h) as [x|] eqn:Hx; [|done].
  injection Hu as <-. simpl in Hne. assert ((tfs_handles s).[h] = x) as Hcell by (by apply list_lookup_total_correct).
  assert (th_ref_count x <= 1) as Hr.
  { apply (Forall_lookup_1 _ _ (Z.to_nat h) (th_used x, th_ref_count x)) in Hone; [done|]. by rewrite list_lookup_fmap, Hx. }
  unfold tfs_close, mbind, ST_bind, get, thandle_ok. rewrite Hcell.
  destruct (Z.ltb_spec h 0), (Z.leb_spec TFS_MAX_HANDLES h), (Z.eqb_spec (th_used x) 0); try lia. simpl.
  destruct (Z.ltb_spec 1 (th_ref_count x)); [lia|]. simpl. exists 0. split; [lia|].
  rewrite alter_cell by done. exact (map_insert_slot (fun h => (th_used h, th_ref_count h)) _ _ (tfs_handles s)).
Qed.
End Tfs.
End TfsFrames.

(** ** Pipes *)

Module PipeFrames.

Definition slots (s : Pipes) : list (Z * Z) := map (fun h => (ph_used h, 1)) (vfs_pipe_handles s).

Lemma pipe_idle_read h b n : frame slots (pipe_read_backend h b n).
Proof. unfold pipe_read_backend. intros s. repeat case_match; done. Qed.
Lemma pipe_idle_write h b n : frame slots (pipe_write_backend h b n).
Proof. unfold pipe_write_backend. intros s. repeat case_match; done. Qed.

Lemma pipe_closes : closing slots (VFS_PIPE_MAX * 2) pipe_close_backend.
Proof.
  intros h s [Hn _] (Hh & u & Hu & Hne). unfold slots in *. rewrite length_map in Hn. rewrite list_lookup_fmap in Hu.
  destruct (vfs_pipe_handles s !! Z.to_nat h) as [x|] eqn:Hx; [|done]. injection Hu as <-. simpl in Hne.
  pose proof (lookup_lt_Some _ _ _ Hx). exists 1. split; [lia|]. unfold pipe_close_backend, pipe_handle_ok. rewrite (list_lookup_total_correct _ _ _ Hx).
  destruct (Z.ltb_spec h 0), (Z.leb_spec (VFS_PIPE_MAX * 2) h), (Z.eqb_spec (ph_used x) 0); try lia. simpl.
  exact (map_insert_slot (fun h => (ph_used h, 1)) _ _ (vfs_pipe_handles s)).
Qed.
End PipeFrames.
