(* ===== verification/VfsSystem.v ===== *)
(** * The virtual file system with its backends (kernel/vfs.c)

    The four tables of calls, the state behind them, looking a backend up by name,
    [vfs_init] and [vfs_pipe].  The tiny file system and ext2 share one disk: ext2
    reaches it below the sector cache. *)
From S2P Require Import Prelude BlockDev PageCache Bytes Partition VfsDefs Disk Ext2 Ext2Dir.
From S2P Require Import Ext2Ops Ramdisk Pipe Tfs Vfs Frames Ext2Frames VfsFds.

(** The tables [tfs_backend_ops], [ramdisk_backend_ops], [ext2_backend_ops] and
    [pipe_backend_ops]. *)
Inductive backend_name := TfsOps | RamdiskOps | Ext2FsOps | PipeOps.
#[export] Instance backend_name_eq : EqDecision backend_name.
Proof. solve_decision. Defined.

Record Files (D : Type) := {
  fs_tfs : Tfs D; fs_ramdisk : Ramdisk; fs_ext2_state : Ext2MountState; fs_ext2_handles : list Ext2Handle;
  fs_pipes : Pipes
}.
Arguments fs_tfs {D} _.
Arguments fs_ramdisk {D} _.
Arguments fs_ext2_state {D} _.
Arguments fs_ext2_handles {D} _.
Arguments fs_pipes {D} _.
#[export] Instance Files_fields D : Fields (Files D) := fun r =>
  {| fs_tfs := fs_tfs r; fs_ramdisk := fs_ramdisk r; fs_ext2_state := fs_ext2_state r;
     fs_ext2_handles := fs_ext2_handles r; fs_pipes := fs_pipes r |}.

Section System.
Context {D : Type} `{BlockDev D} `{AtaFlag D} (stack junk : list Z).

Definition on_tfs {A} (m : ST (Tfs D) A) : ST (Files D) A := fun x =>
  let '(t, a) := m (fs_tfs x) in (x <| fs_tfs := t |>, a).
Definition on_ramdisk {A} (m : ST Ramdisk A) : ST (Files D) A := fun x =>
  let '(r, a) := m (fs_ramdisk x) in (x <| fs_ramdisk := r |>, a).
Definition on_pipes {A} (m : ST Pipes A) : ST (Files D) A := fun x =>
  let '(p, a) := m (fs_pipes x) in (x <| fs_pipes := p |>, a).

(** The device under the sector cache. *)
Definition raw_disk (x : Files D) : D := cache_disk (cd_cache (tfs_disk (fs_tfs x))).
Definition set_raw_disk (d : D) (t : Tfs D) : Tfs D :=
  let c := cd_cache (tfs_disk t) in
  {| root_directory := root_directory t; tfs_handles := tfs_handles t;
     tfs_disk := {| cd_cache := {| cache_lines := cache_lines c; clock_hand := clock_hand c;
                                   cache_initialized := cache_initialized c; cache_stats := cache_stats c;
                                   cache_disk := d |};
                    cd_reads := cd_reads (tfs_disk t); cd_writes := cd_writes (tfs_disk t) |} |}.
Definition on_ext2 {A} (m : ST (Ext2 (D := D)) A) : ST (Files D) A := fun x =>
  let '(e, a) := m (Build_Ext2 (fs_ext2_state x) (fs_ext2_handles x) (raw_disk x)) in
  (x <| fs_ext2_state := ext2_state e |> <| fs_ext2_handles := ext2_handles e |>
     <| fs_tfs ::= set_raw_disk (ext2_dev e) |>, a).

(** ** The tables of calls *)

Definition tfs_backend_ops : VfsBackendOps (Files D) := {|
  o_open := Some (fun p flags => on_tfs (tfs_open p flags));
  o_read := Some (fun h b n => on_tfs (tfs_read stack h b n));
  o_write := Some (fun h b n => on_tfs (tfs_write stack h b n));
  o_close := Some (fun h => on_tfs (tfs_close h));
  o_delete := Some (fun p => on_tfs (tfs_delete p));
  o_lseek := Some (fun h o w => on_tfs (tfs_lseek h o w));
  o_stat := Some (fun p b => on_tfs (tfs_stat p b));
  o_rename := Some (fun p q => on_tfs (tfs_rename p q));
  o_mkdir := Some (fun p m => on_tfs (tfs_mkdir p m));
  o_rmdir := Some (fun p => on_tfs (tfs_rmdir p));
  o_truncate := Some (fun p n => on_tfs (tfs_truncate p n));
  o_ftruncate := Some (fun h n => on_tfs (tfs_ftruncate h n));
  o_chmod := Some (fun p m => on_tfs (tfs_chmod p m));
  o_chown := Some (fun p u g => on_tfs (tfs_chown p u g));
  o_link := Some (fun p q => on_tfs (tfs_link p q));
  o_symlink := Some (fun p q => on_tfs (tfs_symlink p q));
  o_readlink := Some (fun p n => on_tfs (tfs_readlink p n)) |}.

Definition ramdisk_backend_ops : VfsBackendOps (Files D) := {|
  o_open := Some (fun p flags => on_ramdisk (ramdisk_open p flags));
  o_read := Some (fun h b n => on_ramdisk (ramdisk_read h b n));
  o_write := Some (fun h b n => on_ramdisk (ramdisk_write h b n));
  o_close := Some (fun h => on_ramdisk (ramdisk_close h));
  o_delete := Some (fun p => on_ramdisk (ramdisk_delete p));
  o_lseek := Some (fun h o w => on_ramdisk (ramdisk_lseek h o w));
  o_stat := Some (fun p b => on_ramdisk (ramdisk_stat p b));
  o_rename := Some (fun p q => on_ramdisk (ramdisk_rename p q));
  o_mkdir := Some (fun p m => on_ramdisk (ramdisk_mkdir p m));
  o_rmdir := Some (fun p => on_ramdisk (ramdisk_rmdir p));
  o_truncate := Some (fun p n => on_ramdisk (ramdisk_truncate p n));
  o_ftruncate := Some (fun h n => on_ramdisk (ramdisk_ftruncate h n));
  o_chmod := Some (fun p m => on_ramdisk (ramdisk_chmod p m));
  o_chown := Some (fun p u g => on_ramdisk (ramdisk_chown p u g));
  o_link := Some (fun p q => on_ramdisk (ramdisk_link p q));
  o_symlink := Some (fun p q => on_ramdisk (ramdisk_symlink p q));
  o_readlink := Some (fun p n => on_ramdisk (ramdisk_readlink p n)) |}.

Definition ext2_backend_ops : VfsBackendOps (Files D) := {|
  o_open := Some (fun p flags => on_ext2 (ext2_open stack junk p flags));
  o_read := Some (fun h b n => on_ext2 (ext2_read stack junk h b n));
  o_write := Some (fun h b n => on_ext2 (ext2_write stack junk h b n));
  o_close := Some (fun h => on_ext2 (ext2_close h));
  o_delete := Some (fun p => on_ext2 (ext2_delete stack junk p));
  o_lseek := Some (fun h o w => on_ext2 (ext2_lseek stack junk h o w));
  o_stat := Some (fun p b => on_ext2 (ext2_stat stack junk p b));
  o_rename := Some (fun p q => on_ext2 (ext2_rename stack junk p q));
  o_mkdir := Some (fun p m => on_ext2 (ext2_mkdir stack junk p m));
  o_rmdir := Some (fun p => on_ext2 (ext2_rmdir stack junk p));
  o_truncate := Some (fun p n => on_ext2 (ext2_truncate_path stack junk p n));
  o_ftruncate := Some (fun h n => on_ext2 (ext2_ftruncate stack junk h n));
  o_chmod := Some (fun p m => on_ext2 (ext2_chmod stack junk p m));
  o_chown := Some (fun p u g => on_ext2 (ext2_chown stack junk p u g));
  o_link := Some (fun p q => on_ext2 (ext2_link stack junk p q));
  o_symlink := Some (fun t p => on_ext2 (ext2_symlink stack junk t p));
  o_readlink := Some (fun p n => on_ext2 (ext2_readlink stack junk p n)) |}.

Definition pipe_backend_ops : VfsBackendOps (Files D) := {|
  o_open := None;
  o_read := Some (fun h b n => on_pipes (pipe_read_backend h b n));
  o_write := Some (fun h b n => on_pipes (pipe_write_backend h b n));
  o_close := Some (fun h => on_pipes (pipe_close_backend h));
  o_delete := Some (fun p => on_pipes (pipe_delete_backend p));
  o_lseek := Some (fun h o w => on_pipes (pipe_lseek_backend h o w));
  o_stat := Some (fun p _ => on_pipes (pipe_stat_backend p));
  o_rename := Some (fun p q => on_pipes (pipe_unsupported_rename p q));
  o_mkdir := Some (fun p m => on_pipes (pipe_unsupported_mkdir p m));
  o_rmdir := Some (fun p => on_pipes (pipe_unsupported_rmdir p));
  o_truncate := Some (fun p n => on_pipes (pipe_unsupported_truncate p n));
  o_ftruncate := Some (fun h n => on_pipes (pipe_unsupported_ftruncate h n));
  o_chmod := Some (fun p m => on_pipes (pipe_unsupported_chmod p m));
  o_chown := Some (fun p u g => on_pipes (pipe_unsupported_chown p u g));
  o_link := Some (fun p q => on_pipes (pipe_unsupported_link p q));
  o_symlink := Some (fun t p => on_pipes (pipe_unsupported_symlink t p));
  o_readlink := Some (fun p n => on_pipes (pipe_unsupported_readlink p n)) |}.

#[local] Instance Files_Backends : Backends (Files D) backend_name := {|
  backend_ops b := match b with
                   | TfsOps => tfs_backend_ops
                   | RamdiskOps => ramdisk_backend_ops
                   | Ext2FsOps => ext2_backend_ops
                   | PipeOps => pipe_backend_ops
                   end |}.

(** ** Mounting by name *)

Abbreviation System := (Vfs (Files D) backend_name).

Definition tfs_word : list Z := [116; 102; 115].
Definition ramdisk_word : list Z := [114; 97; 109; 100; 105; 115; 107].

(** [None] when the scan of the partitions reads outside its sector. *)
Definition lookup_backend (name : option (list Z)) (parts : list PartitionEntry) : ST System (option (option backend_name)) :=
  match name with
  | None => mret (Some None)
  | Some name =>
      if str_case_eq name tfs_word then mret (Some (Some TfsOps))
      else if str_case_eq name ramdisk_word then mret (Some (Some RamdiskOps))
      else if str_eq (take 4 name) ext2_spec then
        found ← on_backend (on_ext2 (ext2_backend_from_spec stack name parts));
        mret ((fun ok : bool => if ok then Some Ext2FsOps else None) <$> found)
      else mret (Some None)
  end.

Definition vfs_mount_backend (mount_path backend_name : option (list Z)) (parts : list PartitionEntry)
  : ST System (option Z) :=
  ops ← lookup_backend backend_name parts;
  match ops with
  | None => mret None
  | Some None => mret (Some VFS_ERR_NOT_FOUND)
  | Some (Some b) => rc ← vfs_mount mount_path (Some b); mret (Some rc)
  end.

(** ** Initialisation *)

Definition reset_tfs (t : Tfs D) : Tfs D :=
  t <| tfs_handles ::= map (fun h => h <| th_used := 0 |> <| th_ref_count := 0 |>) |>.

Definition reset_ramdisk (r : Ramdisk) : Ramdisk :=
  {| ramdisk_files := map (fun f => Build_RamdiskFile 0 [] 0 0 0 (rf_data f)) (ramdisk_files r);
     ramdisk_handles := map (fun _ => Build_RamdiskHandle 0 (-1) 0 0) (ramdisk_handles r);
     ramdisk_next_inode := 1; ramdisk_mtime_tick := 1 |}.

Definition reset_pipes (p : Pipes) : Pipes :=
  {| vfs_pipes := map (fun p => Build_VfsPipe 0 (p_data p) 0 0 0 0 0) (vfs_pipes p);
     vfs_pipe_handles := map (fun _ => Build_VfsPipeHandle 0 (-1) 0) (vfs_pipe_handles p) |}.

Definition reset_files (x : Files D) : Files D :=
  x <| fs_tfs ::= reset_tfs |> <| fs_ramdisk ::= reset_ramdisk |> <| fs_pipes ::= reset_pipes |>.

Definition vfs_init : ST System unit :=
  _ ← modify (fun s =>
    {| mounts := replicate (Z.to_nat VFS_MAX_MOUNTS) no_mount_entry;
       fd_table := replicate (Z.to_nat VFS_MAX_GLOBAL_FDS) no_fd;
       task_fd_map := replicate (Z.to_nat (MAX_TASKS * TASK_MAX_FDS)) (-1);
       os_current_task := os_current_task s;
       backend := reset_files (backend s) |});
  _ ← vfs_mount (Some root_path) (Some TfsOps);
  mret tt.

(** ** Pipes *)

Definition vpipes {A} (m : ST Pipes A) : ST System A := on_backend (on_pipes m).
Definition close_if (h : Z) : ST System unit :=
  if 0 <=? h then _ ← vpipes (pipe_close_backend h); mret tt else mret tt.
Definition set_used (gfd used : Z) : ST System unit :=
  if 0 <=? gfd then set_fd gfd (fun f => f <| f_used := used |>) else mret tt.

(** The descriptors a pipe needs: two global ones, reserved by their use mark, and two
    of the task, the first reserved by the value -2. *)
Definition reserve_fds (task_id : Z) : ST System (Z * Z * Z * Z) :=
  s ← get;
  let read_gfd := alloc_global_fd s in
  _ ← set_used read_gfd 1;
  s ← get;
  let write_gfd := alloc_global_fd s in
  _ ← set_used write_gfd 1;
  s ← get;
  let read_lfd := alloc_task_fd s task_id in
  _ ← (if 0 <=? read_lfd then set_entry task_id read_lfd (-2) else mret tt);
  s ← get;
  let write_lfd := alloc_task_fd s task_id in
  mret (read_gfd, write_gfd, read_lfd, write_lfd).

(** The result code and the two descriptors stored through the pointers. *)
Definition vfs_pipe (out_null : bool) : ST System (Z * option (Z * Z)) :=
  s ← get;
  let task_id := current_task_id s in
  if out_null then mret (VFS_ERR_INVALID_ARG, None)
  else
    pipe_idx ← vpipes vfs_pipe_alloc_slot;
    if pipe_idx <? 0 then mret (VFS_ERR_NO_SPACE, None)
    else
      read_handle ← vpipes (vfs_pipe_handle_alloc pipe_idx 0);
      write_handle ← vpipes (vfs_pipe_handle_alloc pipe_idx 1);
      if (read_handle <? 0) || (write_handle <? 0) then
        _ ← close_if read_handle;
        _ ← close_if write_handle;
        _ ← vpipes (set_pipe pipe_idx (fun p => p <| p_used := 0 |>));
        mret (VFS_ERR_NO_SPACE, None)
      else
        '(read_gfd, write_gfd, read_lfd, write_lfd) ← reserve_fds task_id;
        if (read_gfd <? 0) || (write_gfd <? 0) || (read_lfd <? 0) || (write_lfd <? 0) || (read_lfd =? write_lfd) then
          _ ← set_used read_gfd 0;
          _ ← set_used write_gfd 0;
          s ← get;
          _ ← (if (0 <=? read_lfd) && (fd_entry s task_id read_lfd =? -2)
               then set_entry task_id read_lfd (-1) else mret tt);
          _ ← vpipes (pipe_close_backend read_handle);
          _ ← vpipes (pipe_close_backend write_handle);
          mret (VFS_ERR_NO_SPACE, None)
        else
          _ ← set_fd read_gfd (fun _ => Build_VfsFd 1 (Some PipeOps) read_handle VFS_O_RDONLY 1);
          _ ← set_fd write_gfd (fun _ => Build_VfsFd 1 (Some PipeOps) write_handle VFS_O_WRONLY 1);
          _ ← set_entry task_id read_lfd read_gfd;
          _ ← set_entry task_id write_lfd write_gfd;
          mret (VFS_OK, Some (read_lfd, write_lfd)).
End System.
