(* ===== verification/VfsBackends.v ===== *)
(** * The backends keep the descriptor layer's interface

    Each of the four tables of calls satisfies [lawful_ops]: in every state, whatever
    the disk holds, opening takes a free handle, closing frees it, and nothing else
    changes which handles are in use. *)
From S2P Require Import Prelude BlockDev PageCache Bytes Partition VfsDefs Disk Ext2 Ext2Dir Ext2Ops.
From S2P Require Import Ramdisk Pipe Tfs Vfs Frames Ext2Frames VfsFds VfsSystem.

Section Laws.
Context {D : Type} `{BlockDev D} `{AtaFlag D} (stack junk : list Z).

Definition ext2_slots (l : list Ext2Handle) : list (Z * Z) := map (fun h => (h_used h, h_ref_count h)) l.

Definition table (b : backend_name) (x : Files D) : list (Z * Z) :=
  match b with
  | TfsOps => TfsFrames.slots (fs_tfs x)
  | RamdiskOps => RamdiskFrames.slots (fs_ramdisk x)
  | Ext2FsOps => ext2_slots (fs_ext2_handles x)
  | PipeOps => PipeFrames.slots (fs_pipes x)
  end.

Definition table_size (b : backend_name) : Z :=
  match b with
  | TfsOps => TFS_MAX_HANDLES
  | RamdiskOps => RAMDISK_MAX_HANDLES
  | Ext2FsOps => EXT2_MAX_HANDLES
  | PipeOps => VFS_PIPE_MAX * 2
  end.

Definition files_inv (x : Files D) : Prop := forall b, single (table_size b) (table b x).
Definition files_live (x : Files D) (b : backend_name) (h : Z) : Prop := slot_live (table b x) h.

(** ** From one component to the whole *)

Definition everywhere {A} (m : ST (Files D) A) : Prop := forall b, frame (table b) m.
Definition elsewhere {A} (b0 : backend_name) (m : ST (Files D) A) : Prop := forall b, b <> b0 -> frame (table b) m.

Lemma everywhere_quiet {A} (m : ST (Files D) A) : everywhere m -> quiet files_inv files_live m.
Proof.
  intros Hm x Hx. split; [intros b|intros b h; unfold files_live]; by rewrite (Hm b x).
Qed.

Lemma elsewhere_opening b m x : opening (table b) m -> elsewhere b m -> files_inv x ->
  let '(x', h) := m x in
  if h <? 0 then keeps files_inv files_live x x'
  else files_inv x' /\ ~ files_live x b h /\
       forall b' h', files_live x' b' h' <-> files_live x b' h' \/ (b' = b /\ h' = h).
Proof.
  intros Ho He Hx. pose proof (opening_live _ _ _ x (Hx b) Ho) as Hl.
  assert (forall b', b' <> b -> table b' (fst (m x)) = table b' x) as Hsame by (intros b' Hb; by apply He).
  destruct (m x) as [x' h]. simpl in Hsame. destruct Hl as [Hone Hl]. unfold files_live.
  assert (files_inv x') as Hinv.
  { intros b'. destruct (decide (b' = b)) as [->|]; [done|]. by rewrite Hsame. }
  destruct (h <? 0).
  - split; [done|]. intros b' h'. unfold files_live. destruct (decide (b' = b)) as [->|]; [by rewrite Hl|by rewrite Hsame].
  - destruct Hl as [Hfree Hl]. split_and!; [done..|]. intros b' h'. destruct (decide (b' = b)) as [->|Hne].
    + rewrite Hl. naive_solver.
    + rewrite Hsame by done. split; [by left|]. by intros [|[? _]].
Qed.

Lemma elsewhere_closing b m h x : closing (table b) (table_size b) m -> elsewhere b (m h) -> files_inv x -> files_live x b h ->
  let '(x', _) := m h x in
  files_inv x' /\ forall b' h', files_live x' b' h' <-> files_live x b' h' /\ ~ (b' = b /\ h' = h).
Proof.
  intros Hc He Hx Hl. destruct (closing_live _ _ _ h x (Hx b) Hl Hc) as [Hone Hlive].
  assert (forall b', b' <> b -> table b' (fst (m h x)) = table b' x) as Hsame by (intros b' Hb; by apply He).
  destruct (m h x) as [x' rc]. simpl in *. unfold files_live. split.
  - intros b'. destruct (decide (b' = b)) as [->|]; [done|]. by rewrite Hsame.
  - intros b' h'. destruct (decide (b' = b)) as [->|Hne]; [|rewrite Hsame by done]; [rewrite Hlive|]; split.
    + intros [? Hh]. split; [done|]. by intros [_ ?].
    + intros [? Hh]. split; [done|]. intros ->. by apply Hh.
    + intros ?. split; [done|]. by intros [? _].
    + by intros [? _].
Qed.

Section Lift.
Context {A : Type}.

Lemma tfs_everywhere (m : ST (Tfs D) A) : frame TfsFrames.slots m -> everywhere (on_tfs m).
Proof. intros Hm [] x; unfold on_tfs; specialize (Hm (fs_tfs x)); by destruct (m _). Qed.
Lemma tfs_elsewhere (m : ST (Tfs D) A) : elsewhere TfsOps (on_tfs m).
Proof. intros [] Hb x; unfold on_tfs; destruct (m _); done. Qed.
Lemma ramdisk_everywhere (m : ST Ramdisk A) : frame RamdiskFrames.slots m -> everywhere (on_ramdisk m).
Proof. intros Hm [] x; unfold on_ramdisk; specialize (Hm (fs_ramdisk x)); by destruct (m _). Qed.
Lemma ramdisk_elsewhere (m : ST Ramdisk A) : elsewhere RamdiskOps (on_ramdisk m).
Proof. intros [] Hb x; unfold on_ramdisk; destruct (m _); done. Qed.
Lemma pipes_everywhere (m : ST Pipes A) : frame PipeFrames.slots m -> everywhere (on_pipes m).
Proof. intros Hm [] x; unfold on_pipes; specialize (Hm (fs_pipes x)); by destruct (m _). Qed.
Lemma pipes_elsewhere (m : ST Pipes A) : elsewhere PipeOps (on_pipes m).
Proof. intros [] Hb x; unfold on_pipes; destruct (m _); done. Qed.
Lemma ext2_everywhere (m : ST (Ext2 (D := D)) A) : frame Ext2Frames.slots m -> everywhere (on_ext2 m).
Proof.
  intros Hm [] x; unfold on_ext2; specialize (Hm (Build_Ext2 (fs_ext2_state x) (fs_ext2_handles x) (raw_disk x)));
    by destruct (m _).
Qed.
Lemma ext2_elsewhere (m : ST (Ext2 (D := D)) A) : elsewhere Ext2FsOps (on_ext2 m).
Proof. intros [] Hb x; unfold on_ext2; destruct (m _); done. Qed.
End Lift.

Lemma tfs_opening m : opening TfsFrames.slots m -> opening (table TfsOps) (on_tfs m).
Proof. intros Hm x. specialize (Hm (fs_tfs x)). unfold on_tfs. by destruct (m _). Qed.
Lemma ramdisk_opening m : opening RamdiskFrames.slots m -> opening (table RamdiskOps) (on_ramdisk m).
Proof. intros Hm x. specialize (Hm (fs_ramdisk x)). unfold on_ramdisk. by destruct (m _). Qed.
Lemma ext2_opening_on m : opening Ext2Frames.slots m -> opening (table Ext2FsOps) (on_ext2 m).
Proof.
  intros Hm x. specialize (Hm (Build_Ext2 (fs_ext2_state x) (fs_ext2_handles x) (raw_disk x))). unfold on_ext2. by destruct (m _).
Qed.

Lemma tfs_closing m n : closing TfsFrames.slots n m -> closing (table TfsOps) n (fun h => on_tfs (m h)).
Proof.
  intros Hm h x Hone Hl. destruct (Hm h (fs_tfs x) Hone Hl) as (r & Hr & Hs). exists r. split; [done|].
  unfold on_tfs. by destruct (m h _).
Qed.
Lemma ramdisk_closing m n : closing RamdiskFrames.slots n m -> closing (table RamdiskOps) n (fun h => on_ramdisk (m h)).
Proof.
  intros Hm h x Hone Hl. destruct (Hm h (fs_ramdisk x) Hone Hl) as (r & Hr & Hs). exists r. split; [done|].
  unfold on_ramdisk. by destruct (m h _).
Qed.
Lemma pipes_closing m n : closing PipeFrames.slots n m -> closing (table PipeOps) n (fun h => on_pipes (m h)).
Proof.
  intros Hm h x Hone Hl. destruct (Hm h (fs_pipes x) Hone Hl) as (r & Hr & Hs). exists r. split; [done|].
  unfold on_pipes. by destruct (m h _).
Qed.
Lemma ext2_closing_on m n : closing Ext2Frames.slots n m -> closing (table Ext2FsOps) n (fun h => on_ext2 (m h)).
Proof.
  intros Hm h x Hone Hl.
  destruct (Hm h (Build_Ext2 (fs_ext2_state x) (fs_ext2_handles x) (raw_disk x)) Hone Hl) as (r & Hr & Hs).
  exists r. split; [done|]. unfold on_ext2. by destruct (m h _).
Qed.

(** ** The four tables *)

#[local] Instance backends : Backends (Files D) backend_name := Files_Backends stack junk.

#[local] Abbreviation lawful b := (lawful_ops files_inv files_live b (backend_ops b)).

Lemma tfs_lawful : lawful TfsOps.
Proof.
  split; try (intros f; intros; simplify_eq/=; apply everywhere_quiet, tfs_everywhere).
  - intros f p flags x [= <-] Hx. apply elsewhere_opening; [apply tfs_opening, TfsFrames.tfs_opens|apply tfs_elsewhere|done].
  - eexists. split; [done|]. intros h x Hx Hl.
    apply (elsewhere_closing TfsOps (fun h => on_tfs (tfs_close h))); [apply tfs_closing, TfsFrames.tfs_closes|apply tfs_elsewhere|done..].
  - apply TfsFrames.tfs_idle_read.
  - apply TfsFrames.tfs_idle_write.
  - apply TfsFrames.tfs_idle_delete.
  - apply TfsFrames.tfs_idle_lseek.
  - apply TfsFrames.tfs_idle_stat.
  - apply TfsFrames.tfs_idle_rename.
  - apply frame_ret.
  - apply frame_ret.
  - apply TfsFrames.tfs_idle_truncate.
  - apply TfsFrames.tfs_idle_ftruncate.
  - apply frame_ret.
  - apply frame_ret.
  - apply frame_ret.
  - apply frame_ret.
  - apply frame_ret.
Qed.

Lemma ramdisk_lawful : lawful RamdiskOps.
Proof.
  split; try (intros f; intros; simplify_eq/=; apply everywhere_quiet, ramdisk_everywhere).
  - intros f p flags x [= <-] Hx. apply elsewhere_opening; [apply ramdisk_opening, RamdiskFrames.ramdisk_opens|apply ramdisk_elsewhere|done].
  - eexists. split; [done|]. intros h x Hx Hl.
    apply (elsewhere_closing RamdiskOps (fun h => on_ramdisk (ramdisk_close h))); [apply ramdisk_closing, RamdiskFrames.ramdisk_closes|apply ramdisk_elsewhere|done..].
  - apply RamdiskFrames.ramdisk_idle_read.
  - apply RamdiskFrames.ramdisk_idle_write.
  - apply RamdiskFrames.ramdisk_idle_delete.
  - apply RamdiskFrames.ramdisk_idle_lseek.
  - apply RamdiskFrames.ramdisk_idle_stat.
  - apply RamdiskFrames.ramdisk_idle_rename.
  - apply frame_ret.
  - apply frame_ret.
  - apply RamdiskFrames.ramdisk_idle_truncate.
  - apply RamdiskFrames.ramdisk_idle_ftruncate.
  - apply frame_ret.
  - apply frame_ret.
  - apply frame_ret.
  - apply frame_ret.
  - apply frame_ret.
Qed.

Lemma ext2_lawful : lawful Ext2FsOps.
Proof.
  split; try (intros f; intros; simplify_eq/=; apply everywhere_quiet, ext2_everywhere).
  - intros f p flags x [= <-] Hx. apply elsewhere_opening; [apply ext2_opening_on, ext2_opening|apply ext2_elsewhere|done].
  - eexists. split; [done|]. intros h x Hx Hl.
    apply (elsewhere_closing Ext2FsOps (fun h => on_ext2 (ext2_close h))); [apply ext2_closing_on, ext2_closing|apply ext2_elsewhere|done..].
  - apply idle_read.
  - apply idle_write.
  - apply idle_delete.
  - apply idle_lseek.
  - apply idle_stat.
  - apply idle_rename.
  - apply idle_mkdir.
  - apply idle_rmdir.
  - apply idle_truncate_path.
  - apply idle_ftruncate.
  - apply idle_chmod.
  - apply idle_chown.
  - apply idle_link.
  - apply idle_symlink.
  - apply idle_readlink.
Qed.

Lemma pipe_lawful : lawful PipeOps.
Proof.
  split; try (intros f; intros; simplify_eq/=; apply everywhere_quiet, pipes_everywhere; first [apply frame_ret|idtac]); try done.
  - eexists. split; [done|]. intros h x Hx Hl.
    apply (elsewhere_closing PipeOps (fun h => on_pipes (pipe_close_backend h))); [apply pipes_closing, PipeFrames.pipe_closes|apply pipes_elsewhere|done..].
  - apply PipeFrames.pipe_idle_read.
  - apply PipeFrames.pipe_idle_write.
Qed.

Lemma files_lawful b : lawful b.
Proof. destruct b; [apply tfs_lawful|apply ramdisk_lawful|apply ext2_lawful|apply pipe_lawful]. Qed.

Definition Files_Lawful : LawfulBackends (Files D) backend_name :=
  {| bk_inv := files_inv; bk_live := files_live; bk_lawful := files_lawful |}.

(** After [vfs_init] nothing is open. *)
Lemma reset_closed x : Z.of_nat (length (tfs_handles (fs_tfs x))) = TFS_MAX_HANDLES ->
  Z.of_nat (length (ramdisk_handles (fs_ramdisk x))) = RAMDISK_MAX_HANDLES ->
  Z.of_nat (length (vfs_pipe_handles (fs_pipes x))) = VFS_PIPE_MAX * 2 ->
  fs_ext2_handles x = replicate (Z.to_nat EXT2_MAX_HANDLES) no_handle ->
  files_inv (reset_files x) /\ forall b h, ~ files_live (reset_files x) b h.
Proof.
  intros Ht Hr Hp He.
  assert (forall b, Z.of_nat (length (table b (reset_files x))) = table_size b /\
    Forall (fun u => fst u = 0 /\ snd u <= 1) (table b (reset_files x))) as Htab.
  { intros []; simpl; unfold TfsFrames.slots, RamdiskFrames.slots, PipeFrames.slots, ext2_slots; simpl.
    - rewrite !length_map. split; [done|]. rewrite map_map. apply Forall_forall. intros u. rewrite in_map_iff.
      by intros (h & <- & _).
    - rewrite !length_map. split; [done|]. rewrite map_map. apply Forall_forall. intros u. rewrite in_map_iff.
      by intros (h & <- & _).
    - rewrite He. split; [done|]. apply Forall_forall. intros u. rewrite in_map_iff.
      intros (h & <- & Hin). apply list_elem_of_In, elem_of_replicate in Hin as [-> _]. done.
    - rewrite !length_map. split; [done|]. rewrite map_map. apply Forall_forall. intros u. rewrite in_map_iff.
      by intros (h & <- & _). }
  split.
  - intros b. destruct (Htab b) as [Hl Hu]. split; [done|]. eapply Forall_impl; [|exact Hu]. naive_solver.
  - intros b h (_ & u & Hu & Hne). destruct (Htab b) as [_ Hall]. by apply (Forall_lookup_1 _ _ _ _ Hall) in Hu as [? _].
Qed.

(** The sizes of the static tables, and the ext2 handles as the loader leaves them. *)
Definition static_sizes (x : Files D) : Prop :=
  Z.of_nat (length (tfs_handles (fs_tfs x))) = TFS_MAX_HANDLES /\
  Z.of_nat (length (ramdisk_handles (fs_ramdisk x))) = RAMDISK_MAX_HANDLES /\
  Z.of_nat (length (vfs_pipe_handles (fs_pipes x))) = VFS_PIPE_MAX * 2 /\
  fs_ext2_handles x = replicate (Z.to_nat EXT2_MAX_HANDLES) no_handle.

#[local] Instance lawful_files : LawfulBackends (Files D) backend_name := Files_Lawful.

Lemma vfs_init_ok (s : Vfs (Files D) backend_name) : static_sizes (backend s) -> fds_ok (fst (vfs_init s)).
Proof.
  intros (Ht & Hr & Hp & He). destruct (reset_closed _ Ht Hr Hp He) as [Hinv Hnone].
  assert (fst (vfs_init s) = fst (vfs_init s)) as Hinit by done. unfold vfs_init at 1 in Hinit.
  apply empty_ok; rewrite <- Hinit; done.
Qed.
End Laws.

(** ** A system on a disk in memory *)

Definition zero_words : list Z := replicate 256 0.
Definition zero_junk : list Z := replicate (Z.to_nat (4 * 1024)) 0.

Definition blank_files : Files MemDisk := {|
  fs_tfs := {| root_directory := replicate 600 0; tfs_handles := replicate (Z.to_nat TFS_MAX_HANDLES) (Build_TfsHandle 0 0 0 0 0);
               tfs_disk := {| cd_cache := cache_boot {| md_data := ∅; md_bad := ∅ |}; cd_reads := 0; cd_writes := 0 |} |};
  fs_ramdisk := {| ramdisk_files := replicate 64 (Build_RamdiskFile 0 [] 0 0 0 []);
                   ramdisk_handles := replicate (Z.to_nat RAMDISK_MAX_HANDLES) (Build_RamdiskHandle 0 0 0 0);
                   ramdisk_next_inode := 1; ramdisk_mtime_tick := 1 |};
  fs_ext2_state := no_mount; fs_ext2_handles := replicate (Z.to_nat EXT2_MAX_HANDLES) no_handle;
  fs_pipes := boot_pipes |}.

#[export] Instance demo_backends : Backends (Files MemDisk) backend_name := Files_Backends zero_words zero_junk.
#[export] Instance demo_lawful : LawfulBackends (Files MemDisk) backend_name := Files_Lawful zero_words zero_junk.

(** The state [vfs_init] makes of it. *)
Definition before_boot : Vfs (Files MemDisk) backend_name :=
  {| mounts := []; fd_table := []; task_fd_map := []; os_current_task := 1; backend := blank_files |}.
Definition booted : Vfs (Files MemDisk) backend_name := fst (vfs_init before_boot).

Lemma blank_sizes : static_sizes (backend before_boot).
Proof. split_and!; reflexivity. Qed.

Lemma booted_ok : fds_ok booted.
Proof. apply vfs_init_ok, blank_sizes. Qed.
