(* ===== verification/VfsPipes.v ===== *)
(** * [vfs_pipe]

    The call reserves two entries of the task's table, the first by storing -2.  A
    reserved entry is still negative, so the search for the second entry finds it
    again: the two are always the same and the call always gives up. *)
From S2P Require Import Prelude BlockDev PageCache Bytes Partition VfsDefs Disk Ext2 Ext2Dir Ext2Ops.
From S2P Require Import Ramdisk Pipe Tfs Vfs Frames Ext2Frames VfsFds VfsSystem VfsBackends.

Section PipeCall.
Context {D : Type} `{BlockDev D} `{AtaFlag D} (stack junk : list Z).
#[local] Instance backends : Backends (Files D) backend_name := Files_Backends stack junk.
#[local] Instance lawful : LawfulBackends (Files D) backend_name := Files_Lawful stack junk.
Implicit Types s : Vfs (Files D) backend_name.

(** ** The reservations *)

Definition mark (g u : Z) (l : list (VfsFd backend_name)) : list (VfsFd backend_name) :=
  if 0 <=? g then alter (fun f => f <| f_used := u |>) (Z.to_nat g) l else l.

Lemma set_used_wp g u s Q : Q (s <| fd_table := mark g u (fd_table s) |>) tt -> wp (set_used (D := D) g u) Q s.
Proof. unfold set_used, mark. by destruct (0 <=? g), s. Qed.

(** Marks on unused slots are undone by clearing them. *)
Lemma mark_undo g l : (0 <= g -> f_used l.[g] = 0) -> mark g 0 (mark g 1 l) = l.
Proof.
  intros Hu. unfold mark. destruct (Z.leb_spec 0 g) as [Hg|]; [|done]. apply list_eq. intros j.
  destruct (decide (Z.to_nat g = j)) as [<-|]; [|by rewrite !list_lookup_alter_ne].
  rewrite !list_lookup_alter_eq. destruct (l !! Z.to_nat g) as [f|] eqn:Hf; [|done]. simpl. f_equal.
  specialize (Hu Hg). rewrite (list_lookup_total_correct _ _ _ Hf) in Hu. destruct f. cbn in *. by rewrite Hu.
Qed.

Lemma mark_comm g g' u u' l : g <> g' \/ g < 0 -> mark g u (mark g' u' l) = mark g' u' (mark g u l).
Proof.
  intros Hne. unfold mark. destruct (Z.leb_spec 0 g), (Z.leb_spec 0 g'); try done.
  assert (Z.to_nat g <> Z.to_nat g') by lia. apply list_eq. intros j. rewrite !list_lookup_alter.
  destruct (decide (Z.to_nat g = j)), (decide (Z.to_nat g' = j)); subst; repeat case_decide; done || lia.
Qed.

Lemma alloc_global_unused s : 0 <= alloc_global_fd s -> f_used (fd_table s).[alloc_global_fd s] = 0.
Proof.
  unfold alloc_global_fd. destruct (find_idx _ _) as [i|] eqn:E; simpl; [|lia]. intros _.
  apply find_idx_Some in E as [(f & Hf & Hu) _]. rewrite Nat2Z.id, (list_lookup_total_correct _ _ _ Hf). by apply Z.eqb_eq.
Qed.

Lemma marked_used g l : 0 <= g -> (Z.to_nat g < length l)%nat -> f_used (mark g 1 l).[g] = 1.
Proof.
  intros Hg Hlt. unfold mark. destruct (Z.leb_spec 0 g); [|lia]. by rewrite alter_cell, list_lookup_total_insert_eq.
Qed.

Lemma marked_other g g' u l : g <> g' -> 0 <= g' -> (mark g u l).[g'] = l.[g'].
Proof.
  intros Hne Hg'. unfold mark. destruct (Z.leb_spec 0 g); [|done]. apply list_lookup_total_alter_ne. lia.
Qed.

(** A reserved entry is found again. *)
Lemma alloc_task_reserved s t : fds_ok s -> 0 <= t < MAX_TASKS -> 0 <= alloc_task_fd s t ->
  alloc_task_fd (VfsFds.with_entry s t (alloc_task_fd s t) (-2)) t = alloc_task_fd s t.
Proof.
  intros Hs Ht Hp. unfold alloc_task_fd at 1 3. f_equal. apply find_idx_ext. intros k.
  destruct (seqZ 0 TASK_MAX_FDS !! k) as [j|] eqn:Hj; [|done]. apply list_elem_of_lookup_2, elem_of_seqZ in Hj.
  cbn [fmap option_fmap option_map]. f_equal.
  assert (0 <= alloc_task_fd s t < TASK_MAX_FDS /\ fd_entry s t (alloc_task_fd s t) < 0) as [Hr Hneg].
  { destruct (alloc_task_spec s t Ht) as [|(? & ? & _)]; [lia|done]. }
  rewrite fd_entry_with_entry by (done || apply Hs || lia).
  destruct (decide (t = t /\ j = alloc_task_fd s t)) as [[_ ->]|]; [|done].
  by rewrite (proj2 (Z.ltb_lt _ _) Hneg).
Qed.

(** The reservations never give two entries of the task; taking them back restores the
    tables. *)
Lemma reserve_fds_ok s t : fds_ok s -> 0 <= t < MAX_TASKS ->
  wp (reserve_fds t) (fun s' '(rg, wg, rl, wl) =>
    (rg <? 0) || (wg <? 0) || (rl <? 0) || (wl <? 0) || (rl =? wl) = true /\
    backend s' = backend s /\ os_current_task s' = os_current_task s /\ mounts s' = mounts s /\
    mark wg 0 (mark rg 0 (fd_table s')) = fd_table s /\
    if 0 <=? rl then fd_entry s' t rl = -2 /\ <[Z.to_nat (slot t rl) := -1]> (task_fd_map s') = task_fd_map s
    else task_fd_map s' = task_fd_map s) s.
Proof.
  intros Hs Ht. unfold reserve_fds. apply wp_get. cbv zeta. set (rg := alloc_global_fd s).
  apply wp_bind, set_used_wp. set (s1 := s <| fd_table := _ |>). apply wp_get. set (wg := alloc_global_fd s1).
  apply wp_bind, set_used_wp. set (s2 := s1 <| fd_table := _ |>). apply wp_get.
  change (alloc_task_fd s2 t) with (alloc_task_fd s t). set (rl := alloc_task_fd s t).
  assert (mark wg 0 (mark rg 0 (mark wg 1 (mark rg 1 (fd_table s)))) = fd_table s) as Hmarks.
  { assert (wg <> rg \/ wg < 0) as Hne.
    { destruct (decide (wg < 0)); [by right|left]. intros Heq.
      pose proof (alloc_global_unused s1 ltac:(unfold wg in *; lia)) as Hu. fold wg in Hu. rewrite Heq in Hu.
      subst s1. cbn in Hu. rewrite marked_used in Hu; [done|lia|].
      assert (0 <= rg) as Hrg by lia. unfold rg, alloc_global_fd in Hrg |- *. destruct (find_idx _ _) as [i|] eqn:E; [|done].
      simpl. rewrite Nat2Z.id. by eapply find_idx_lt. }
    assert (mark rg 0 (mark wg 1 (mark rg 1 (fd_table s))) = mark wg 1 (mark rg 0 (mark rg 1 (fd_table s)))) as ->.
    { destruct Hne as [Hne|Hne]; [apply mark_comm; by left|]. unfold mark at 2 4. destruct (Z.leb_spec 0 wg); [lia|done]. }
    rewrite (mark_undo rg).
    - apply mark_undo. intros Hwg. destruct Hne as [Hne|]; [|lia].
      pose proof (alloc_global_unused s1 Hwg) as Hu. fold wg in Hu. subst s1. cbn in Hu. by rewrite marked_other in Hu.
    - intros Hrg. by apply alloc_global_unused. }
  destruct (Z.leb_spec 0 rl) as [Hrl|Hrl].
  - apply wp_bind, wp_modify. change (s2 <| task_fd_map ::= _ |>) with (VfsFds.with_entry s2 t rl (-2)).
    apply wp_get. apply wp_ret.
    change (alloc_task_fd (VfsFds.with_entry s2 t rl (-2)) t) with (alloc_task_fd (VfsFds.with_entry s t rl (-2)) t).
    assert (alloc_task_fd (VfsFds.with_entry s t rl (-2)) t = rl) as -> by (by apply alloc_task_reserved).
    rewrite Z.eqb_refl, !orb_true_r. destruct (Z.leb_spec 0 rl); [|lia].
    destruct (alloc_task_spec s t Ht) as [|(Hr & Hfree & _)]; [lia|]. fold rl in Hr, Hfree. split_and!; try done.
    + change (fd_entry (VfsFds.with_entry s t rl (-2)) t rl = -2). rewrite fd_entry_with_entry by (done || apply Hs).
      by destruct (decide (t = t /\ rl = rl)) as [_|[]].
    + unfold VfsFds.with_entry. cbn. rewrite list_insert_insert_eq. apply list_insert_id.
      rewrite (slot_lookup s exact t _ Hs Ht Hr). f_equal.
      by apply (entry_free exact).
  - apply wp_bind, wp_ret, wp_get, wp_ret. destruct (Z.ltb_spec rl 0); [|lia]. rewrite !orb_true_r. simpl.
    destruct (Z.leb_spec 0 rl); [lia|]. done.
Qed.

Lemma reserve_fds_backend s x t :
  reserve_fds t (s <| backend := x |>) = let '(s', r) := reserve_fds t s in (s' <| backend := x |>, r).
Proof.
  unfold reserve_fds, set_used, set_fd, set_entry, mbind, ST_bind, get, modify, mret, ST_ret.
  change (alloc_global_fd (s <| backend := x |>)) with (alloc_global_fd s).
  destruct (0 <=? alloc_global_fd s); cbv zeta beta iota.
  - set (s1 := s <| fd_table ::= _ |>). change (s <| backend := x |> <| fd_table ::= _ |>) with (s1 <| backend := x |>).
    change (alloc_global_fd (s1 <| backend := x |>)) with (alloc_global_fd s1).
    destruct (0 <=? alloc_global_fd s1); cbv zeta beta iota.
    + set (s2 := s1 <| fd_table ::= _ |>). change (s1 <| backend := x |> <| fd_table ::= _ |>) with (s2 <| backend := x |>).
      change (alloc_task_fd (s2 <| backend := x |>) t) with (alloc_task_fd s2 t). by destruct (0 <=? alloc_task_fd s2 t).
    + change (alloc_task_fd (s1 <| backend := x |>) t) with (alloc_task_fd s1 t). by destruct (0 <=? alloc_task_fd s1 t).
  - change (alloc_global_fd (s <| backend := x |>)) with (alloc_global_fd s).
    destruct (0 <=? alloc_global_fd s); cbv zeta beta iota.
    + set (s2 := s <| fd_table ::= _ |>). change (s <| backend := x |> <| fd_table ::= _ |>) with (s2 <| backend := x |>).
      change (alloc_task_fd (s2 <| backend := x |>) t) with (alloc_task_fd s2 t). by destruct (0 <=? alloc_task_fd s2 t).
    + change (alloc_task_fd (s <| backend := x |>) t) with (alloc_task_fd s t). by destruct (0 <=? alloc_task_fd s t).
Qed.

(** ** The pipe calls behind the descriptors *)

Lemma pipe_alloc_slot_idle : frame PipeFrames.slots vfs_pipe_alloc_slot.
Proof. intros s. unfold vfs_pipe_alloc_slot. by destruct (find_idx _ _). Qed.

Lemma pipe_handle_opening i w : opening PipeFrames.slots (vfs_pipe_handle_alloc i w).
Proof.
  intros s. unfold vfs_pipe_handle_alloc. destruct (find_idx _ _) as [k|] eqn:Hk; [|by left].
  destruct (found_free (fun h => (ph_used h, 1)) ph_used _ _ (fun _ => eq_refl) Hk) as [Hlt Hfree].
  apply opening_slot; [done..|]. exact (map_insert_slot (fun h => (ph_used h, 1)) k _ (vfs_pipe_handles s)).
Qed.

#[local] Abbreviation kept := (keeps (files_inv (D := D)) files_live).
#[local] Abbreviation live := (files_live (D := D)).

(** The state differs from [s] in the backends only. *)
Definition behind s s' : Prop := s' = s <| backend := backend s' |>.

Lemma vpipes_idle {A} (m : ST Pipes A) s : frame PipeFrames.slots m -> files_inv (backend s) ->
  wp (vpipes m) (fun s' _ => behind s s' /\ kept (backend s) (backend s')) s.
Proof.
  intros Hm Hx. unfold wp, vpipes, on_backend. pose proof (everywhere_quiet _ (pipes_everywhere _ Hm) _ Hx) as Hk.
  destruct (on_pipes m (backend s)). split; [reflexivity|exact Hk].
Qed.

Lemma vpipes_open i w s : files_inv (backend s) ->
  wp (vpipes (vfs_pipe_handle_alloc i w)) (fun s' h => behind s s' /\
    if h <? 0 then kept (backend s) (backend s')
    else files_inv (backend s') /\ ~ live (backend s) PipeOps h /\
      forall b' h', live (backend s') b' h' <-> live (backend s) b' h' \/ (b' = PipeOps /\ h' = h)) s.
Proof.
  intros Hx. unfold wp, vpipes, on_backend.
  assert (opening (table PipeOps) (on_pipes (D := D) (vfs_pipe_handle_alloc i w))) as Ho.
  { intros x. pose proof (pipe_handle_opening i w (fs_pipes x)) as Ho. unfold on_pipes. by destruct (vfs_pipe_handle_alloc _ _ _). }
  pose proof (elsewhere_opening PipeOps _ _ Ho (pipes_elsewhere _) Hx) as Hk.
  destruct (on_pipes _ (backend s)). split; [reflexivity|exact Hk].
Qed.

Lemma vpipes_close h s : files_inv (backend s) -> live (backend s) PipeOps h ->
  wp (vpipes (pipe_close_backend h)) (fun s' _ => behind s s' /\ files_inv (backend s') /\
    forall b' h', live (backend s') b' h' <-> live (backend s) b' h' /\ ~ (b' = PipeOps /\ h' = h)) s.
Proof.
  intros Hx Hl. unfold wp, vpipes, on_backend.
  pose proof (elsewhere_closing PipeOps (fun h => on_pipes (pipe_close_backend h)) h (backend s)
    (pipes_closing _ _ PipeFrames.pipe_closes) (pipes_elsewhere _) Hx Hl) as Hk.
  cbv beta in Hk.
  destruct (on_pipes _ (backend s)). split; [reflexivity|exact Hk].
Qed.

Lemma behind_trans s1 s2 s3 : behind s1 s2 -> behind s2 s3 -> behind s1 s3.
Proof. unfold behind. intros -> ->. done. Qed.

Lemma behind_restored s s' : fds_ok s -> behind s s' -> kept (backend s) (backend s') -> fds_ok s' /\ same_tables s s'.
Proof. intros Hs -> Hk. split; [by apply keeps_inv|done]. Qed.

Lemma files_kept_trans (x y z : Files D) : kept x y -> kept y z -> kept x z.
Proof. intros [_ H1] [Hz H2]. split; [done|]. intros b h. by rewrite H2. Qed.

(** The end of the call once it has its two handles: everything is given back. *)
Definition give_back (read_gfd write_gfd read_lfd task_id read_handle write_handle : Z)
  : ST (Vfs (Files D) backend_name) (Z * option (Z * Z)) :=
  _ ← set_used read_gfd 0;
  _ ← set_used write_gfd 0;
  s ← get;
  _ ← (if (0 <=? read_lfd) && (fd_entry s task_id read_lfd =? -2)
       then set_entry task_id read_lfd (-1) else mret tt);
  _ ← vpipes (pipe_close_backend read_handle);
  _ ← vpipes (pipe_close_backend write_handle);
  mret (VFS_ERR_NO_SPACE, None).

Lemma give_back_ok s s' x rg wg rl t rh wh :
  backend s' = x -> os_current_task s' = os_current_task s -> mounts s' = mounts s ->
  mark wg 0 (mark rg 0 (fd_table s')) = fd_table s ->
  (if 0 <=? rl then fd_entry s' t rl = -2 /\ <[Z.to_nat (slot t rl) := -1]> (task_fd_map s') = task_fd_map s
   else task_fd_map s' = task_fd_map s) ->
  files_inv x -> live x PipeOps rh -> live x PipeOps wh -> rh <> wh ->
  wp (give_back rg wg rl t rh wh) (fun s2 r => r = (VFS_ERR_NO_SPACE, None) /\ behind s s2 /\ files_inv (backend s2) /\
    forall b h, live (backend s2) b h <-> live x b h /\ ~ (b = PipeOps /\ (h = rh \/ h = wh))) s'.
Proof.
  intros Hx Hcur Hms Hmark Hentry Hinv Hr Hw Hne. unfold give_back.
  apply wp_bind, set_used_wp, wp_bind, set_used_wp, wp_get. cbv zeta.
  set (s1 := _ <| fd_table := mark wg 0 _ |>).
  apply wp_seq with (R := fun s1' _ => s1' = s <| backend := x |>).
  - change (fd_entry s1 t rl) with (fd_entry s' t rl).
    assert (fd_table s1 = fd_table s) as Hfd by exact Hmark.
    destruct (Z.leb_spec 0 rl); simpl.
    + destruct Hentry as [-> Hmap]. simpl. apply wp_modify.
      destruct s, s'. subst s1. cbn in *. by subst.
    + apply wp_ret. destruct s, s'. subst s1. cbn in *. by subst.
  - intros s2 _ ->. wp_call vpipes_close; [done|done|]. intros s3 _ (Hb3 & Hi3 & Hl3). cbn [backend] in Hl3.
    wp_call vpipes_close; [done|apply Hl3; naive_solver|]. intros s4 _ (Hb4 & Hi4 & Hl4). apply wp_ret.
    split_and!; [done| |done|].
    + apply behind_trans with (s <| backend := x |>); [done|]. by apply behind_trans with s3.
    + intros b h. rewrite Hl4, Hl3. cbn [backend]. naive_solver.
Qed.

Lemma close_if_ok s h : files_inv (backend s) -> (0 <= h -> live (backend s) PipeOps h) ->
  wp (close_if h) (fun s' _ => behind s s' /\ files_inv (backend s') /\
    forall b' h', live (backend s') b' h' <-> live (backend s) b' h' /\ ~ (b' = PipeOps /\ h' = h)) s.
Proof.
  intros Hx Hl. unfold close_if. destruct (Z.leb_spec 0 h).
  - wp_call vpipes_close; [done|by apply Hl|]. done.
  - apply wp_ret. split_and!; [by destruct s|done|]. intros b' h'. split; [|by intros [? _]].
    intros Hl'. split; [done|]. intros [_ ->]. destruct Hl'. lia.
Qed.

Lemma live_nonneg x b h : live x b h -> 0 <= h.
Proof. by intros [? _]. Qed.

(** The two handles are new and distinct. *)
Lemma two_handles s s1 s2 s3 rh wh : kept (backend s) (backend s1) ->
  (if rh <? 0 then kept (backend s1) (backend s2)
   else files_inv (backend s2) /\ ~ live (backend s1) PipeOps rh /\
     forall b' h', live (backend s2) b' h' <-> live (backend s1) b' h' \/ (b' = PipeOps /\ h' = rh)) ->
  (if wh <? 0 then kept (backend s2) (backend s3)
   else files_inv (backend s3) /\ ~ live (backend s2) PipeOps wh /\
     forall b' h', live (backend s3) b' h' <-> live (backend s2) b' h' \/ (b' = PipeOps /\ h' = wh)) ->
  (forall b h, live (backend s3) b h <-> live (backend s) b h \/ (b = PipeOps /\ ((0 <= rh /\ h = rh) \/ (0 <= wh /\ h = wh)))) /\
  (0 <= rh -> ~ live (backend s) PipeOps rh) /\
  (0 <= wh -> ~ live (backend s) PipeOps wh /\ (0 <= rh -> rh <> wh)).
Proof.
  intros [_ Hk] Hr Hw. destruct (Z.ltb_spec rh 0), (Z.ltb_spec wh 0).
  - destruct Hr as [_ Hr], Hw as [_ Hw]. split_and!; try lia. intros b h. rewrite Hw, Hr, Hk.
    split; [by left|]. intros [|[_ [[? _]|[? _]]]]; [done|lia..].
  - destruct Hr as [_ Hr], Hw as (_ & Hf & Hw). split_and!; try lia.
    + intros b h. rewrite Hw, Hr, Hk. split; [naive_solver|]. intros [|[? [[? _]|[? ?]]]]; [naive_solver|lia|naive_solver].
    + intros _. rewrite Hr, Hk in Hf. split; [done|lia].
  - destruct Hr as (_ & Hf & Hr), Hw as [_ Hw]. split_and!; try lia.
    + intros b h. rewrite Hw, Hr, Hk. split; [naive_solver|]. intros [|[? [[? ?]|[? _]]]]; [naive_solver|naive_solver|lia].
    + intros _. by rewrite Hk in Hf.
  - destruct Hr as (_ & Hf & Hr), Hw as (_ & Hg & Hw). split_and!.
    + intros b h. rewrite Hw, Hr, Hk. naive_solver.
    + intros _. by rewrite Hk in Hf.
    + intros _. rewrite Hr, Hk in Hg. naive_solver.
Qed.

(** The call changes nothing but the bytes of unused pipes. *)
Lemma vfs_pipe_gives_up s out_null : fds_ok s ->
  wp (vfs_pipe out_null) (fun s' r => r = (if out_null then VFS_ERR_INVALID_ARG else VFS_ERR_NO_SPACE, None) /\
    behind s s' /\ kept (backend s) (backend s')) s.
Proof.
  intros Hs. unfold vfs_pipe. apply wp_get. cbv zeta. pose proof (fo_bk _ _ Hs : files_inv (backend s)) as Hx.
  destruct out_null; [by apply wp_ret; split_and!; [|destruct s|]|].
  wp_call (vpipes_idle vfs_pipe_alloc_slot); [apply pipe_alloc_slot_idle|done|]. intros s1 i (Hb1 & Hk1).
  destruct (i <? 0).
  { by apply wp_ret. }
  wp_call vpipes_open; [apply Hk1|]. intros s2 rh (Hb2 & Hr).
  assert (files_inv (backend s2)) as Hi2 by (destruct (rh <? 0); apply Hr).
  wp_call vpipes_open; [done|]. intros s3 wh (Hb3 & Hw).
  assert (files_inv (backend s3)) as Hi3 by (destruct (wh <? 0); apply Hw).
  assert (behind s s3) as Hb by (eapply behind_trans; [|done]; by eapply behind_trans).
  pose proof (two_handles s s1 s2 s3 rh wh Hk1 Hr Hw) as (HL & Hfr & Hfw). clear Hr Hw Hb2 Hb3 Hb1.
  destruct ((rh <? 0) || (wh <? 0)) eqn:Hbad.
  - wp_call close_if_ok; [done|intros; apply HL; naive_solver|]. intros s4 _ (Hb4 & Hi4 & Hl4).
    wp_call close_if_ok; [done|intros; apply Hl4; split; [apply HL; naive_solver|naive_solver]|]. intros s5 _ (Hb5 & Hi5 & Hl5).
    wp_call (vpipes_idle (set_pipe i (fun p => p <| p_used := 0 |>))); [done|done|]. intros s6 _ (Hb6 & Hk6).
    apply wp_ret. assert (behind s s6) as Hb' by (repeat (eapply behind_trans; [eassumption|]); by destruct s6).
    assert (kept (backend s) (backend s6)) as Hk.
    { eapply files_kept_trans; [|exact Hk6]. split; [done|]. intros b h. rewrite Hl5, Hl4, HL.
      pose proof (live_nonneg (backend s) b h). naive_solver. }
    done.
  - bsimpl. pose proof (reserve_fds_ok s (current_task_id s) Hs (current_range s)) as Hres.
    apply wp_bind. unfold wp at 1. rewrite Hb, reserve_fds_backend. unfold wp in Hres.
    destruct (reserve_fds (current_task_id s) s) as [s4 [[[rg wg] rl] wl]]. cbn [fst snd] in Hres |- *.
    destruct Hres as (-> & Hbk & Hcur & Hms & Hmark & Hentry).
    eapply wp_mono; [eapply (give_back_ok s); try done|].
    + apply HL. naive_solver.
    + apply HL. naive_solver.
    + naive_solver.
    + intros s5 r (-> & Hb5 & Hi5 & Hl5). split_and!; [done..|]. split; [done|].
      intros b h. rewrite Hl5, HL. pose proof (live_nonneg (backend s) b h). naive_solver.
Qed.

(** [vfs_pipe] never makes a pipe.  From every consistent state it reports an
    error, stores no descriptors, and leaves the mounts, the descriptor tables and the
    set of open backend handles as they were. *)
Theorem vfs_pipe_never_succeeds s out_null : fds_ok s ->
  wp (vfs_pipe out_null) (fun s' '(rc, out) =>
    rc = (if out_null then VFS_ERR_INVALID_ARG else VFS_ERR_NO_SPACE) /\ out = None /\
    fds_ok s' /\ same_tables s s' /\ forall b h, live (backend s') b h <-> live (backend s) b h) s.
Proof.
  intros Hs. eapply wp_mono; [by apply vfs_pipe_gives_up|]. intros s' [rc out] ([= -> ->] & Hb & Hk).
  destruct (behind_restored s s' Hs Hb Hk). split_and!; try done. apply Hk.
Qed.
End PipeCall.

Lemma outcome_of {S} (m : ST S (Z * option (Z * Z))) rc0 (Q : S -> Prop) s :
  wp m (fun s' '(rc, out) => rc = rc0 /\ out = None /\ Q s') s -> snd (m s) = (rc0, None).
Proof. unfold wp. destruct (m s) as [s' [rc out]]. by intros (-> & -> & _). Qed.

Lemma vfs_pipe_never_succeeds_witness : snd (vfs_pipe false booted) = (VFS_ERR_NO_SPACE, None).
Proof.
  exact (outcome_of _ _ _ _ (vfs_pipe_never_succeeds zero_words zero_junk booted false booted_ok)).
Defined.
