(* ===== verification/VfsRuns.v ===== *)
(** * Runs of the descriptor layer

    Every call of the virtual file system keeps the tables of VfsFds consistent; the
    theorems at the end say what that means for runs, for [vfs_close], [vfs_dup2] and
    [vfs_open]. *)
From S2P Require Import Prelude Bytes VfsDefs Ext2Dir Vfs VfsFds.

Section Calls.
Context {X B : Type} `{LawfulBackends X B} `{EqDecision B}.
Implicit Types s : Vfs X B.

(** ** What an entry names *)

Definition fd_range (i : Z) : bool := (0 <=? i) && (i <? TASK_MAX_FDS).

(** The backend and the handle behind a descriptor of a task. *)
Definition fd_file s (t i : Z) : option (B * Z) :=
  if bad_task t || negb (fd_range i) || (fd_entry s t i <? 0) then None
  else
    let f := (fd_table s).[fd_entry s t i] in
    b ← f_ops f; Some (b, f_backend_handle f).

Lemma fd_file_Some s t i b h : fds_ok s -> fd_file s t i = Some (b, h) <->
  0 <= t < MAX_TASKS /\ 0 <= i < TASK_MAX_FDS /\ 0 <= fd_entry s t i /\
  f_ops (fd_table s).[fd_entry s t i] = Some b /\ f_backend_handle (fd_table s).[fd_entry s t i] = h.
Proof.
  intros Hs. unfold fd_file, bad_task, fd_range.
  destruct (Z.ltb_spec t 0), (Z.leb_spec MAX_TASKS t), (Z.leb_spec 0 i), (Z.ltb_spec i TASK_MAX_FDS),
    (Z.ltb_spec (fd_entry s t i) 0); simpl; try (split; [done|intros (?&?&?&?); lia]).
  destruct (f_ops _) as [b'|]; simpl; split; try done; [intros [= <- <-]; done|intros (_&_&_&[= <-]&<-); done|].
  by intros (_&_&_&?&_).
Qed.

Lemma fd_file_None s t i : fds_ok s -> 0 <= t < MAX_TASKS -> 0 <= i < TASK_MAX_FDS ->
  fd_file s t i = None <-> fd_entry s t i = -1.
Proof.
  intros Hs Ht Hi. destruct (fd_file s t i) as [[b h]|] eqn:E.
  - apply fd_file_Some in E; [|done]. split; [done|]. lia.
  - split; [intros _|done]. destruct (Z.ltb_spec (fd_entry s t i) 0); [by eapply (entry_free exact)|].
    destruct (fo_used _ _ Hs _ (entry_in_use exact _ _ _ Hs Ht Hi ltac:(lia))) as (b & Hb & _).
    assert (fd_file s t i = Some (b, f_backend_handle (fd_table s).[fd_entry s t i])) by (by apply fd_file_Some).
    congruence.
Qed.

(** An open handle is one that some entry names. *)
Lemma live_named s b h : fds_ok s ->
  bk_live (backend s) b h <-> exists t i, fd_file s t i = Some (b, h).
Proof.
  intros Hs. split.
  - intros (g & Hg & Hb & Hh)%(fo_live _ _ Hs). destruct (fo_count _ _ Hs g Hg) as [Hc Hp]. unfold exact in Hc.
    destruct (refs_named (task_fd_map s) g) as [k Hk]; [lia|].
    pose proof (lookup_lt_Some _ _ _ Hk) as Hlt. rewrite (fo_map _ _ Hs) in Hlt.
    assert (slot (Z.of_nat k / TASK_MAX_FDS) (Z.of_nat k mod TASK_MAX_FDS) = Z.of_nat k) as Hslot
      by (unfold slot; symmetry; apply Z.div_mod; done).
    pose proof (Z.mod_pos_bound (Z.of_nat k) TASK_MAX_FDS ltac:(done)).
    exists (Z.of_nat k / TASK_MAX_FDS), (Z.of_nat k mod TASK_MAX_FDS). apply fd_file_Some; [done|].
    unfold fd_entry. rewrite Hslot, Nat2Z.id, (list_lookup_total_correct _ _ _ Hk).
    split_and!; try done; try (apply Z.div_pos; lia); try (unfold MAX_TASKS, TASK_MAX_FDS in *; lia).
    + apply Z.div_lt_upper_bound; unfold MAX_TASKS, TASK_MAX_FDS in *; lia.
    + apply Hg.
  - intros (t & i & (Ht & Hi & Hp & Hb & Hh)%fd_file_Some); [|done].
    destruct (fo_used _ _ Hs _ (entry_in_use exact _ _ _ Hs Ht Hi Hp)) as (b' & Hb' & Hl). congruence.
Qed.

(** ** Closing *)

Definition same_task s s' : Prop := os_current_task s' = os_current_task s /\ mounts s' = mounts s.

(** The call that gives up the reference of one entry, at the level of entries. *)
Lemma drop_entry_files s t i : fds_ok s -> 0 <= t < MAX_TASKS -> 0 <= i < TASK_MAX_FDS -> 0 <= fd_entry s t i ->
  wp (_ ← set_entry t i (-1); close_global_fd (fd_entry s t i))
    (fun s' rc => fds_ok s' /\ same_task s s' /\ task_fd_map s' = task_fd_map (with_entry s t i (-1)) /\
      forall t' i', fd_file s' t' i' = if decide (t' = t /\ i' = i) then None else fd_file s t' i') s.
Proof.
  intros Hs Ht Hi Hp. eapply wp_mono; [by apply drop_entry_ok|]. cbv beta zeta.
  intros s' rc (Hok & Hmap & Hcur & Hms & Hsame & Hlast). split_and!; [done..|].
  intros t' i'. unfold fd_file. destruct (bad_task t' || negb (fd_range i')) eqn:Hbad; simpl; [by destruct (decide (t' = t /\ i' = i))|].
  unfold bad_task, fd_range in Hbad. bsimpl.
  assert (fd_entry s' t' i' = if decide (t' = t /\ i' = i) then -1 else fd_entry s t' i') as He.
  { rewrite <- fd_entry_with_entry by (apply Hs || lia). unfold fd_entry. by rewrite Hmap. }
  rewrite He. destruct (decide (t' = t /\ i' = i)) as [|Hne]; [done|]. destruct (Z.ltb_spec (fd_entry s t' i') 0); [done|].
  destruct (decide (fd_entry s t' i' = fd_entry s t i)) as [Hg|Hg].
  - rewrite Hg in *. case_decide as Hz.
    + exfalso. assert (task_fd_map s' !! Z.to_nat (slot t' i') = Some (fd_entry s t i)) as Hk.
      { rewrite <- He. apply (slot_lookup _ exact); done || lia. }
      apply refs_pos in Hk. lia.
    + destruct Hlast as (_ & _ & _ & -> & ->). done.
  - destruct (Hsame (fd_entry s t' i')) as (-> & -> & _); done.
Qed.

Lemma bad_fd_range fd : (fd <? 0) || (TASK_MAX_FDS <=? fd) = negb (fd_range fd).
Proof. unfold fd_range. destruct (Z.ltb_spec fd 0), (Z.leb_spec 0 fd), (Z.leb_spec TASK_MAX_FDS fd), (Z.ltb_spec fd TASK_MAX_FDS); done || lia. Qed.

Lemma fd_range_iff fd : fd_range fd = true <-> 0 <= fd < TASK_MAX_FDS.
Proof. unfold fd_range. rewrite andb_true_iff, Z.leb_le, Z.ltb_lt. done. Qed.

Lemma vfs_close_files s fd : fds_ok s ->
  let t := current_task_id s in
  wp (vfs_close fd) (fun s' rc => fds_ok s' /\ same_task s s' /\
    match fd_file s t fd with
    | None => s' = s /\ rc = VFS_ERR_INVALID_FD
    | Some _ => task_fd_map s' = task_fd_map (with_entry s t fd (-1)) /\
        forall t' i', fd_file s' t' i' = if decide (t' = t /\ i' = fd) then None else fd_file s t' i'
    end) s.
Proof.
  intros Hs t. unfold vfs_close. apply wp_get. rewrite bad_fd_range. pose proof (current_range s) as Ht. fold t in Ht.
  destruct (fd_range fd) eqn:Hr; simpl.
  - apply fd_range_iff in Hr. cbv zeta. fold t. destruct (Z.ltb_spec (fd_entry s t fd) 0) as [Hn|Hp].
    + apply wp_ret. rewrite (proj2 (fd_file_None s t fd Hs Ht Hr)) by (by eapply (entry_free exact)). done.
    + eapply wp_mono; [by apply drop_entry_files|]. cbv beta. intros s' rc (?&?&?&?).
      destruct (fd_file s t fd) as [p|] eqn:E; [done|]. apply fd_file_None in E; [lia|done..].
  - apply wp_ret. assert (fd_file s t fd = None) as ->; [|done].
    unfold fd_file. rewrite Hr. simpl. by rewrite orb_true_r.
Qed.

(** ** Opening *)

Lemma fd_file_same s s' t i : fd_table s' = fd_table s -> task_fd_map s' = task_fd_map s -> fd_file s' t i = fd_file s t i.
Proof. intros Hf Hm. unfold fd_file, fd_entry. by rewrite Hf, Hm. Qed.

Lemma unused_refs s g : fds_ok s -> 0 <= g -> f_used (fd_table s).[g] = 0 -> refs (task_fd_map s) g = 0.
Proof.
  intros Hs Hg Hu. destruct (decide (0 < refs (task_fd_map s) g)) as [Hp|]; [|pose proof (refs_nonneg (task_fd_map s) g); lia].
  destruct (refs_named _ _ Hp) as [k Hk]. destruct (fo_entry _ _ Hs k g Hk) as [|[_ Hne]]; [lia|done].
Qed.

(** The state after the two stores of [install_fd]. *)
Definition installed s (x' : X) (g t i : Z) (f : VfsFd B) : Vfs X B :=
  with_entry (s <| backend := x' |> <| fd_table ::= <[Z.to_nat g := f]> |>) t i g.

Lemma installed_inv s x' b h g t i flags : fds_ok s -> bk_inv x' -> ~ bk_live (backend s) b h ->
  (forall b' h', bk_live x' b' h' <-> bk_live (backend s) b' h' \/ (b' = b /\ h' = h)) ->
  0 <= g < VFS_MAX_GLOBAL_FDS -> f_used (fd_table s).[g] = 0 ->
  0 <= t < MAX_TASKS -> 0 <= i < TASK_MAX_FDS -> fd_entry s t i < 0 ->
  fds_ok (installed s x' g t i (Build_VfsFd 1 (Some b) h flags 1)).
Proof.
  intros Hs Hx' Hnew Hlive Hg Hu Ht Hi Hfree. set (f := Build_VfsFd 1 (Some b) h flags 1).
  set (s' := installed s x' g t i f). pose proof (fo_fds _ _ Hs) as Hlen.
  pose proof (slot_lookup s exact t i Hs Ht Hi) as Hk. pose proof (entry_free exact s t i Hs Ht Hi Hfree) as Hm1.
  assert (forall x, 0 <= x -> (fd_table s').[x] = if g =? x then f else (fd_table s).[x]) as Hcell.
  { intros x Hx. subst s'. cbn. destruct (Z.eqb_spec g x) as [<-|]; [apply cell_insert|apply cell_insert_ne]; lia. }
  assert (forall x, in_use s' x <-> in_use s x \/ x = g) as Huse.
  { intros x. unfold in_use. split.
    - intros [Hx Hux]. rewrite Hcell in Hux by lia. destruct (Z.eqb_spec g x); [by right|by left].
    - intros [[Hx Hux]| ->]; (split; [done|]); rewrite Hcell by lia; [by destruct (Z.eqb_spec g x)|by rewrite Z.eqb_refl]. }
  assert (forall x, in_use s x -> x <> g) as Hne by (intros x [_ Hx] ->; done).
  assert (forall x, in_use s x -> (fd_table s').[x] = (fd_table s).[x]) as Hsame.
  { intros x Hx. rewrite Hcell by apply Hx. destruct (Z.eqb_spec g x) as [<-|]; [by destruct (Hne _ Hx)|done]. }
  assert ((fd_table s').[g] = f) as Hgf by (by rewrite Hcell, Z.eqb_refl by lia).
  assert (forall x, refs (task_fd_map s') x = refs (task_fd_map s) x - Z.b2z (-1 =? x) + Z.b2z (g =? x)) as Hrefs.
  { intros x. subst s'. cbn. by rewrite (refs_insert _ _ _ _ _ Hk), Hm1. }
  assert (forall x, in_use s x -> ~ (f_ops (fd_table s).[x] = Some b /\ f_backend_handle (fd_table s).[x] = h)) as Hfresh.
  { intros x Hx [Hb Hh]. destruct (fo_used _ _ Hs x Hx) as (b' & Hb' & Hl). apply Hnew. congruence. }
  split.
  - subst s'. cbn. by rewrite length_insert.
  - subst s'. cbn. rewrite length_insert. apply Hs.
  - done.
  - intros x [Hx| ->]%Huse; [rewrite Hsame by done|rewrite Hgf].
    + destruct (fo_used _ _ Hs x Hx) as (b' & Hb' & Hl). exists b'. split; [done|]. apply Hlive. by left.
    + exists b. split; [done|]. apply Hlive. by right.
  - intros x [Hx| ->]%Huse; rewrite Hrefs; [rewrite Hsame by done|rewrite Hgf].
    + destruct (fo_count _ _ Hs x Hx) as [-> ?]. pose proof (Hne x Hx). destruct Hx as [Hx _].
      destruct (Z.eqb_spec (-1) x), (Z.eqb_spec g x); simpl; lia.
    + rewrite (unused_refs s g Hs ltac:(lia) Hu), Z.eqb_refl. destruct (Z.eqb_spec (-1) g); [lia|]. done.
  - intros k x Hkx. subst s'. cbn in Hkx. apply list_lookup_insert_Some in Hkx as [(_ & <- & _)|[_ Hkx]].
    + right. apply Huse. by right.
    + destruct (fo_entry _ _ Hs k x Hkx); [by left|right]. apply Huse. by left.
  - intros x y [Hx| ->]%Huse [Hy| ->]%Huse; rewrite ?Hgf, ?Hsame by done; [by apply (fo_inj _ _ Hs)|..|done].
    + intros Hb Hh. by destruct (Hfresh x Hx).
    + intros Hb Hh. by destruct (Hfresh y Hy).
  - intros b' h' [Hl|[-> ->]]%Hlive.
    + destruct (fo_live _ _ Hs b' h' Hl) as (x & Hx & Hxo & Hxh). exists x. rewrite Huse, Hsame by done. split_and!; auto.
    + exists g. rewrite Huse, Hgf. split_and!; auto.
Qed.

Lemma installed_files s x' b h g t i flags : fds_ok s -> 0 <= g < VFS_MAX_GLOBAL_FDS -> f_used (fd_table s).[g] = 0 ->
  0 <= t < MAX_TASKS -> 0 <= i < TASK_MAX_FDS ->
  forall t' i', fd_file (installed s x' g t i (Build_VfsFd 1 (Some b) h flags 1)) t' i' =
    if decide (t' = t /\ i' = i) then Some (b, h) else fd_file s t' i'.
Proof.
  intros Hs Hg Hu Ht Hi t' i'. pose proof (fo_fds _ _ Hs) as Hlen. unfold fd_file.
  destruct (bad_task t' || negb (fd_range i')) eqn:Hbad; cbn [orb].
  - destruct (decide (t' = t /\ i' = i)) as [[-> ->]|]; [|done]. exfalso.
    rewrite (proj2 (fd_range_iff i) Hi) in Hbad. unfold bad_task in Hbad.
    destruct (Z.ltb_spec t 0), (Z.leb_spec MAX_TASKS t); done || lia.
  - unfold bad_task, fd_range in Hbad. bsimpl. unfold installed.
    rewrite fd_entry_with_entry by (apply Hs || lia). destruct (decide (t' = t /\ i' = i)).
    + destruct (Z.ltb_spec g 0); [lia|]. cbn. by rewrite cell_insert by lia.
    + change (fd_entry (update_field fd_table _ _) t' i') with (fd_entry s t' i').
      destruct (Z.ltb_spec (fd_entry s t' i') 0); [done|]. cbn.
      pose proof (entry_in_use exact s t' i' Hs ltac:(lia) ltac:(lia) ltac:(done)) as [Hr Hne].
      rewrite cell_insert_ne; [done|lia..|]. congruence.
Qed.

(** A new handle is installed, or closed again when the tables are full. *)
Lemma install_fd_ok s x' b h flags : fds_ok s -> bk_inv x' -> ~ bk_live (backend s) b h ->
  (forall b' h', bk_live x' b' h' <-> bk_live (backend s) b' h' \/ (b' = b /\ h' = h)) ->
  let t := current_task_id s in
  wp (install_fd b h flags) (fun s' fd => fds_ok s' /\ same_task s s' /\
    if fd <? 0 then fd = VFS_ERR_NO_SPACE /\ fd_table s' = fd_table s /\ task_fd_map s' = task_fd_map s
    else fd = alloc_task_fd s t /\ fd_file s t fd = None /\
      f_flags (fd_table s').[fd_entry s' t fd] = flags /\
      forall t' i', fd_file s' t' i' = if decide (t' = t /\ i' = fd) then Some (b, h) else fd_file s t' i')
    (s <| backend := x' |>).
Proof.
  intros Hs Hx' Hnew Hlive t. unfold install_fd. apply wp_get. cbv zeta. pose proof (current_range s) as Ht.
  change (alloc_global_fd (s <| backend := x' |>)) with (alloc_global_fd s).
  change (alloc_task_fd (s <| backend := x' |>)) with (alloc_task_fd s).
  change (current_task_id (s <| backend := x' |>)) with (current_task_id s). fold t. fold t in Ht.
  destruct ((alloc_global_fd s <? 0) || (alloc_task_fd s t <? 0)) eqn:Hfull.
  - destruct (lo_close _ _ _ _ (bk_lawful b)) as (close & -> & Hclose).
    specialize (Hclose h x' Hx' ltac:(apply Hlive; by right)).
    apply wp_bind. unfold wp at 1, on_backend. simpl. destruct (close h x') as [x'' rc]. destruct Hclose as [Hx'' Hl''].
    apply wp_ret. split_and!; try done. apply (keeps_inv exact s x'' Hs). split; [done|].
    intros b' h'. rewrite Hl'', Hlive. split; [intros [[|[-> ->]] Hn]; [done|by destruct Hn]|].
    intros Hl. split; [by left|]. intros [-> ->]. done.
  - bsimpl. destruct (alloc_global_spec s Hs) as [|[Hg Hu]]; [lia|].
    destruct (alloc_task_spec s t Ht) as [|(Hi & Hfree & _)]; [lia|].
    set (g := alloc_global_fd s) in *. set (i := alloc_task_fd s t) in *.
    set (f := Build_VfsFd 1 (Some b) h flags 1).
    apply wp_bind, wp_modify, wp_bind, wp_modify, wp_ret.
    set (s' := _ <| task_fd_map ::= _ |>).
    assert (s' = installed s x' g t i f) as ->.
    { assert (alter (fun _ => f) (Z.to_nat g) (fd_table s) = <[Z.to_nat g := f]> (fd_table s)) as Ha.
      { apply alter_cell. rewrite (fo_fds _ _ Hs). lia. }
      subst s'. unfold installed, with_entry, update_field, Vfs_fields. simpl. by rewrite Ha. }
    destruct (Z.ltb_spec i 0); [lia|]. split_and!; try done.
    + by apply installed_inv.
    + apply fd_file_None; [done..|]. by apply (entry_free exact).
    + unfold installed. rewrite fd_entry_with_entry by (apply Hs || lia).
      destruct (decide (t = t /\ i = i)) as [_|[]]; [|done]. cbn. rewrite cell_insert; [done|]. rewrite (fo_fds _ _ Hs). lia.
    + by apply installed_files.
Qed.

Lemma vfs_open_files s path flags : fds_ok s ->
  let t := current_task_id s in
  wp (vfs_open path flags) (fun s' fd => fds_ok s' /\ same_task s s' /\
    if fd <? 0 then fd_table s' = fd_table s /\ task_fd_map s' = task_fd_map s
    else fd = alloc_task_fd s t /\ fd_file s t fd = None /\ f_flags (fd_table s').[fd_entry s' t fd] = flags /\
      exists p b rel h, path = Some p /\ resolve_mount (mounts s) p = Some (Some b, rel) /\
        ~ bk_live (backend s) b h /\
        forall t' i', fd_file s' t' i' = if decide (t' = t /\ i' = fd) then Some (b, h) else fd_file s t' i') s.
Proof.
  intros Hs t. unfold vfs_open. apply wp_get. destruct path as [[|c p]|]; [by apply wp_ret| |by apply wp_ret].
  set (path := c :: p). destruct (resolve_mount (mounts s) path) as [[[b|] rel]|] eqn:Hres; [|by apply wp_ret..].
  destruct (o_open (backend_ops b)) as [open|] eqn:Ho; [|by apply wp_ret].
  pose proof (lo_open _ _ _ _ (bk_lawful b) open rel flags (backend s) Ho (fo_bk _ _ Hs)) as Hopen.
  apply wp_bind. unfold wp at 1, on_backend. destruct (open rel flags (backend s)) as [x' h]. cbn [fst snd].
  destruct (h <? 0) eqn:Hh.
  - apply wp_ret. rewrite Hh. split_and!; try done. by apply (keeps_inv exact).
  - destruct Hopen as (Hx' & Hnew & Hlive). eapply wp_mono; [by apply install_fd_ok|].
    cbv beta zeta. fold t. intros s' fd (Hok & Hst & Hfd). split_and!; [done..|].
    destruct (fd <? 0); [by destruct Hfd as (_ & ? & ?)|]. destruct Hfd as (-> & Hnone & Hfl & Hfiles).
    split_and!; try done. by exists path, b, rel, h.
Qed.

(** ** Sharing *)

(** A free entry made to share the descriptor of another. *)
Lemma share_entry_ok s t i t0 i0 : fds_ok s -> 0 <= t < MAX_TASKS -> 0 <= i < TASK_MAX_FDS ->
  0 <= t0 < MAX_TASKS -> 0 <= i0 < TASK_MAX_FDS -> fd_entry s t i < 0 -> 0 <= fd_entry s t0 i0 ->
  let g := fd_entry s t0 i0 in
  wp (_ ← set_entry t i g; add_ref g) (fun s' _ => fds_ok s' /\ same_task s s' /\
    (forall t' i', 0 <= t' < MAX_TASKS -> 0 <= i' < TASK_MAX_FDS ->
       fd_entry s' t' i' = if decide (t' = t /\ i' = i) then g else fd_entry s t' i') /\
    forall t' i', fd_file s' t' i' = if decide (t' = t /\ i' = i) then fd_file s t0 i0 else fd_file s t' i') s.
Proof.
  intros Hs Ht Hi Ht0 Hi0 Hfree Hp g. pose proof (entry_in_use exact s t0 i0 Hs Ht0 Hi0 Hp) as Hg. fold g in Hg.
  apply wp_bind, wp_modify. change (s <| task_fd_map ::= _ |>) with (with_entry s t i g).
  eapply wp_mono; [apply add_ref_ok; [by apply fill_entry_inv|exact Hg]|].
  intros s' _ (Hok & Hmap & Hcur & Hms & Hsame).
  assert (forall t' i', 0 <= t' < MAX_TASKS -> 0 <= i' < TASK_MAX_FDS ->
    fd_entry s' t' i' = if decide (t' = t /\ i' = i) then g else fd_entry s t' i') as He.
  { intros t' i' Ht' Hi'. unfold fd_entry at 1. rewrite Hmap. apply fd_entry_with_entry; done || apply Hs. }
  split_and!; [done..|]. intros t' i'. unfold fd_file at 1 3.
  destruct (bad_task t' || negb (fd_range i')) eqn:Hbad; cbn [orb].
  - destruct (decide (t' = t /\ i' = i)) as [[-> ->]|]; [|done]. exfalso.
    rewrite (proj2 (fd_range_iff i) Hi) in Hbad. unfold bad_task in Hbad.
    destruct (Z.ltb_spec t 0), (Z.leb_spec MAX_TASKS t); done || lia.
  - unfold bad_task, fd_range in Hbad. bsimpl. rewrite He by lia. destruct (decide (t' = t /\ i' = i)) as [[-> ->]|].
    + unfold fd_file. fold g. assert (bad_task t0 || negb (fd_range i0) || (g <? 0) = false) as ->.
      { rewrite (proj2 (fd_range_iff i0) Hi0). unfold bad_task. rewrite !orb_false_iff, !Z.ltb_ge, Z.leb_gt. split_and!; done || lia. }
      destruct (Z.ltb_spec g 0); [lia|]. destruct (Hsame g) as (-> & -> & _); [lia..|]. done.
    + destruct (Z.ltb_spec (fd_entry s t' i') 0); [done|]. destruct (Hsame (fd_entry s t' i')) as (-> & -> & _); [lia..|]. done.
Qed.

(** Followed by a result. *)
Lemma share_entry_ret {A} s t i g (r : A) Q :
  wp (_ ← set_entry t i g; add_ref g) (fun s' _ => Q s' r) s ->
  wp (_ ← set_entry t i g; _ ← add_ref g; mret r) Q s.
Proof. done. Qed.

Lemma fd_usable s fd : fds_ok s ->
  fd_unusable s (task_fd_to_global s fd) = false <->
  0 <= fd < TASK_MAX_FDS /\ 0 <= fd_entry s (current_task_id s) fd.
Proof.
  intros Hs. pose proof (current_range s) as Ht. unfold fd_unusable, task_fd_to_global. rewrite bad_fd_range.
  destruct (fd_range fd) eqn:Hr; simpl.
  - apply fd_range_iff in Hr. rewrite orb_false_iff, in_use_bad, bool_decide_eq_false. split.
    + intros [[Hu _] _]. split; [done|lia].
    + intros [_ Hp]. pose proof (entry_in_use exact _ _ _ Hs Ht Hr Hp) as Hg. split; [done|].
      destruct (fo_used _ _ Hs _ Hg) as (b & -> & _). done.
  - split; [done|]. intros [Hr' _]. apply fd_range_iff in Hr'. congruence.
Qed.

Lemma fd_usable_file s fd : fds_ok s ->
  fd_unusable s (task_fd_to_global s fd) = true <-> fd_file s (current_task_id s) fd = None.
Proof.
  intros Hs. pose proof (current_range s) as Ht. rewrite <- not_false_iff_true, fd_usable by done.
  destruct (decide (0 <= fd < TASK_MAX_FDS)) as [Hr|Hr].
  - rewrite fd_file_None by done. split.
    + intros Hn. apply (entry_free exact s _ _ Hs Ht Hr). lia.
    + intros ->. lia.
  - split; [intros _|by intros _ [? _]]. unfold fd_file.
    destruct (fd_range fd) eqn:E; [by apply fd_range_iff in E|]. simpl. by rewrite orb_true_r.
Qed.

Lemma task_fd_global s fd : 0 <= fd < TASK_MAX_FDS -> task_fd_to_global s fd = fd_entry s (current_task_id s) fd.
Proof. intros Hr. unfold task_fd_to_global. by rewrite bad_fd_range, (proj2 (fd_range_iff fd) Hr). Qed.

Lemma vfs_dup_files s fd : fds_ok s ->
  let t := current_task_id s in
  wp (vfs_dup fd) (fun s' r => fds_ok s' /\ same_task s s' /\
    if r <? 0 then s' = s
    else fd_file s t fd <> None /\ fd_file s t r = None /\ fd_entry s' t r = fd_entry s t fd /\
      (forall i, 0 <= i < r -> fd_file s t i <> None) /\
      forall t' i', fd_file s' t' i' = if decide (t' = t /\ i' = r) then fd_file s t fd else fd_file s t' i') s.
Proof.
  intros Hs t. unfold vfs_dup. apply wp_get. cbv zeta. pose proof (current_range s) as Ht. fold t in Ht.
  destruct (fd_unusable _ _) eqn:Hu; [by apply wp_ret|]. pose proof Hu as [Hr Hp]%fd_usable; [|done].
  rewrite task_fd_global by done. fold t. fold t in Hp. destruct (Z.ltb_spec (alloc_task_fd s t) 0) as [Hn|Hn]; [by apply wp_ret|].
  destruct (alloc_task_spec s t Ht) as [|(Hi & Hfree & Hlow)]; [lia|]. set (i := alloc_task_fd s t) in *.
  apply share_entry_ret. eapply wp_mono; [by apply (share_entry_ok s t i t fd)|].
  cbv beta zeta. intros s2 _ (Hok & Hst & He & Hf).
  split_and!; [done..|]. destruct (Z.ltb_spec i 0); [lia|]. split_and!.
  - intros Hnone. apply fd_usable_file in Hnone; [|done]. unfold t in Hnone. congruence.
  - apply fd_file_None; [done..|]. by apply (entry_free exact).
  - rewrite He by done. by destruct (decide (t = t /\ i = i)) as [_|[]].
  - intros j Hj Hnone. apply fd_file_None in Hnone; [|done|done|lia]. specialize (Hlow j Hj). lia.
  - done.
Qed.

Lemma vfs_dup2_files s fd newfd : fds_ok s ->
  let t := current_task_id s in
  wp (vfs_dup2 fd newfd) (fun s' r => fds_ok s' /\ same_task s s' /\
    if r <? 0 then s' = s /\ (fd_file s t fd = None \/ ~ 0 <= newfd < TASK_MAX_FDS)
    else r = newfd /\ fd_file s t fd <> None /\ fd_entry s' t newfd = fd_entry s t fd /\
      forall t' i', fd_file s' t' i' = if decide (t' = t /\ i' = newfd) then fd_file s t fd else fd_file s t' i') s.
Proof.
  intros Hs t. unfold vfs_dup2. apply wp_get. cbv zeta. pose proof (current_range s) as Ht. fold t in Ht.
  destruct (fd_unusable _ _) eqn:Hu.
  { apply fd_usable_file in Hu; [|done]. apply wp_ret. split_and!; try done. split; [done|by left]. }
  pose proof Hu as [Hr Hp]%fd_usable; [|done].
  assert (fd_file s t fd <> None) as Hsome.
  { intros Hnone. apply fd_usable_file in Hnone; [|done]. unfold t in Hnone. congruence. }
  rewrite task_fd_global by done. fold t. fold t in Hp. rewrite bad_fd_range.
  destruct (fd_range newfd) eqn:Hn; simpl.
  2:{ apply wp_ret. split_and!; try done. split; [done|right]. intros ?%fd_range_iff; congruence. }
  apply fd_range_iff in Hn. destruct (Z.eqb_spec fd newfd) as [<-|Hne].
  { apply wp_ret. destruct (Z.ltb_spec fd 0); [lia|]. split_and!; try done. intros t' i'. by destruct (decide _) as [[-> ->]|]. }
  apply wp_seq with (R := fun s1 _ => fds_ok s1 /\ same_task s s1 /\ fd_entry s1 t newfd < 0 /\
    fd_entry s1 t fd = fd_entry s t fd /\
    forall t' i', fd_file s1 t' i' = if decide (t' = t /\ i' = newfd) then None else fd_file s t' i').
  - destruct (Z.leb_spec 0 (fd_entry s t newfd)) as [Hold|Hold].
    + eapply wp_mono; [by apply vfs_close_files|]. cbv beta zeta. fold t. intros s1 rc (Hok & Hst & Hf).
      destruct (fd_file s t newfd) eqn:E; [|apply fd_file_None in E; [lia|done..]]. destruct Hf as [Hmap Hf].
      split_and!; try done; unfold fd_entry; rewrite Hmap.
      * change (fd_entry (with_entry s t newfd (-1)) t newfd < 0). rewrite fd_entry_with_entry by done || apply Hs.
        by destruct (decide (t = t /\ newfd = newfd)) as [_|[]].
      * change (fd_entry (with_entry s t newfd (-1)) t fd = fd_entry s t fd). rewrite fd_entry_with_entry by done || apply Hs.
        destruct (decide (t = t /\ fd = newfd)) as [[_ ?]|_]; done.
    + apply wp_ret. split_and!; try done. intros t' i'. destruct (decide _) as [[-> ->]|]; [|done].
      apply fd_file_None; [done..|]. by apply (entry_free exact).
  - intros s1 _ (Hok & Hst & Hfree & He & Hf). rewrite <- He. apply share_entry_ret.
    eapply wp_mono; [apply (share_entry_ok s1 t newfd t fd); done || lia|].
    cbv beta zeta. intros s2 _ (Hok2 & Hst2 & He2 & Hf2). destruct Hst as [Hc Hm], Hst2 as [Hc2 Hm2].
    destruct (Z.ltb_spec newfd 0); [lia|]. unfold same_task. split_and!; try congruence; try done.
    + rewrite He2, He by done. by destruct (decide (t = t /\ newfd = newfd)) as [_|[]].
    + intros t' i'. rewrite Hf2. destruct (decide (t' = t /\ i' = newfd)) as [|Hx].
      * rewrite Hf. destruct (decide (t = t /\ fd = newfd)) as [[_ ?]|_]; done.
      * rewrite Hf. by destruct (decide (t' = t /\ i' = newfd)).
Qed.

(** ** The table of a task *)

Lemma close_entries_ok t n : 0 <= t < MAX_TASKS -> forall i s, fds_ok s -> Z.of_nat (i + n) = TASK_MAX_FDS ->
  wp (close_entries t i n) (fun s' _ => fds_ok s' /\ same_task s s' /\
    forall t' j, fd_file s' t' j = if decide (t' = t /\ Z.of_nat i <= j) then None else fd_file s t' j) s.
Proof.
  intros Ht. induction n as [|n IH]; intros i s Hs Hn; simpl.
  - apply wp_ret. split_and!; try done. intros t' j. destruct (decide (t' = t /\ _)) as [[-> Hj]|]; [|done].
    unfold fd_file. destruct (fd_range j) eqn:Hr; [apply fd_range_iff in Hr; lia|]. simpl. by rewrite orb_true_r.
  - apply wp_get. cbv zeta. assert (0 <= Z.of_nat i < TASK_MAX_FDS) as Hi by lia.
    apply wp_seq with (R := fun s1 _ => fds_ok s1 /\ same_task s s1 /\
      forall t' j, fd_file s1 t' j = if decide (t' = t /\ j = Z.of_nat i) then None else fd_file s t' j).
    + destruct (Z.leb_spec 0 (fd_entry s t (Z.of_nat i))) as [Hp|Hp].
      * eapply wp_mono; [by apply drop_entry_files|]. cbv beta. intros s1 rc (?&?&?&?). done.
      * apply wp_ret. split_and!; try done. intros t' j. destruct (decide _) as [[-> ->]|]; [|done].
        apply fd_file_None; [done..|]. by apply (entry_free exact).
    + intros s1 _ (Hok & [Hc Hm] & Hf). eapply wp_mono; [apply IH; [done|lia]|]. cbv beta.
      intros s2 _ (Hok2 & [Hc2 Hm2] & Hf2). unfold same_task. split_and!; try congruence; try done. intros t' j. rewrite Hf2.
      destruct (decide (t' = t /\ Z.of_nat i <= j)) as [[-> Hj]|Hx].
      * destruct (decide (t = t /\ Z.of_nat (S i) <= j)); [done|]. rewrite Hf.
        destruct (decide (t = t /\ j = Z.of_nat i)); [done|lia].
      * destruct (decide (t' = t /\ Z.of_nat (S i) <= j)); [lia|]. rewrite Hf.
        destruct (decide (t' = t /\ j = Z.of_nat i)); [lia|done].
Qed.

Lemma vfs_close_all_files s t : fds_ok s ->
  wp (vfs_close_all t) (fun s' _ => fds_ok s' /\ same_task s s' /\
    forall t' j, fd_file s' t' j = if decide (t' = t) then None else fd_file s t' j) s.
Proof.
  intros Hs. unfold vfs_close_all. destruct (bad_task t) eqn:Hbad.
  - apply wp_ret. split_and!; try done. intros t' j. destruct (decide _) as [->|]; [|done]. unfold fd_file. by rewrite Hbad.
  - unfold bad_task in Hbad. bsimpl. eapply wp_mono; [apply close_entries_ok; [done|done|reflexivity]|].
    cbv beta. intros s' _ (Hok & Hst & Hf). split_and!; [done..|]. intros t' j. rewrite Hf.
    destruct (decide (t' = t)) as [->|]; [|by destruct (decide (t' = t /\ Z.of_nat 0 <= j)) as [[? _]|]].
    destruct (decide (t = t /\ Z.of_nat 0 <= j)) as [|Hj]; [done|]. unfold fd_file.
    destruct (fd_range j) eqn:Hr; [apply fd_range_iff in Hr; lia|]. simpl. by rewrite orb_true_r.
Qed.

Lemma empty_entry_store s t i : fds_ok s -> 0 <= t < MAX_TASKS -> 0 <= i < TASK_MAX_FDS ->
  fd_entry s t i = -1 -> with_entry s t i (-1) = s.
Proof.
  intros Hs Ht Hi He. pose proof (slot_lookup s exact t i Hs Ht Hi) as Hk. rewrite He in Hk.
  assert (<[Z.to_nat (slot t i) := -1]> (task_fd_map s) = task_fd_map s) as Hid by (by apply list_insert_id).
  unfold with_entry, update_field, Vfs_fields. simpl. rewrite Hid. by destruct s.
Qed.

Lemma clear_entries_empty t n s : fds_ok s -> 0 <= t < MAX_TASKS ->
  (forall i, 0 <= i < TASK_MAX_FDS -> fd_entry s t i = -1) ->
  forall i, Z.of_nat (i + n) = TASK_MAX_FDS -> fst (clear_entries t i n s) = s.
Proof.
  intros Hs Ht Hempty. induction n as [|n IH]; intros i Hn; [done|]. simpl. unfold mbind, ST_bind, set_entry, modify.
  change (s <| task_fd_map ::= _ |>) with (with_entry s t (Z.of_nat i) (-1)).
  rewrite empty_entry_store by (done || lia || (apply Hempty; lia)). apply IH. lia.
Qed.

Lemma clone_entries_ok src dst n : 0 <= src < MAX_TASKS -> 0 <= dst < MAX_TASKS ->
  forall i s, fds_ok s -> Z.of_nat (i + n) = TASK_MAX_FDS ->
  (forall j, Z.of_nat i <= j < TASK_MAX_FDS -> fd_entry s dst j = -1) ->
  wp (clone_entries src dst i n) (fun s' _ => fds_ok s' /\ same_task s s' /\
    forall t' j, fd_file s' t' j = if decide (t' = dst /\ Z.of_nat i <= j) then fd_file s src j else fd_file s t' j) s.
Proof.
  intros Hsrc Hdst. induction n as [|n IH]; intros i s Hs Hn Hempty; simpl.
  - apply wp_ret. split_and!; try done. intros t' j. destruct (decide (t' = dst /\ _)) as [[-> Hj]|]; [|done].
    unfold fd_file. destruct (fd_range j) eqn:Hr; [apply fd_range_iff in Hr; lia|]. simpl. by rewrite !orb_true_r.
  - apply wp_get. cbv zeta. assert (0 <= Z.of_nat i < TASK_MAX_FDS) as Hi by lia.
    apply wp_seq with (R := fun s1 _ => fds_ok s1 /\ same_task s s1 /\
      (forall j, Z.of_nat (S i) <= j < TASK_MAX_FDS -> fd_entry s1 dst j = -1) /\
      forall t' j, fd_file s1 t' j = if decide (t' = dst /\ j = Z.of_nat i) then fd_file s src j else fd_file s t' j).
    + destruct (gfd_bad s (fd_entry s src (Z.of_nat i))) eqn:Hbad.
      * apply wp_ret. split_and!; try done; [intros j Hj; apply Hempty; lia|].
        assert (fd_entry s src (Z.of_nat i) = -1) as Hm1.
        { destruct (decide (0 <= fd_entry s src (Z.of_nat i))); [|apply (entry_free exact); done || lia].
          pose proof (entry_in_use exact s src (Z.of_nat i) Hs Hsrc Hi ltac:(done)) as Hu%in_use_bad. congruence. }
        intros t' j. destruct (decide _) as [[-> ->]|]; [|done].
        rewrite (proj2 (fd_file_None s src _ Hs Hsrc Hi) Hm1). apply fd_file_None; [done..|]. apply Hempty. lia.
      * apply in_use_bad in Hbad. eapply wp_mono.
        { apply (share_entry_ok s dst (Z.of_nat i) src (Z.of_nat i)); try done; [rewrite Hempty by lia; lia|apply Hbad]. }
        cbv beta zeta. intros s1 _ (Hok & Hst & He & Hf). split_and!; [done..| |].
        -- intros j Hj. rewrite He by (done || lia). destruct (decide (dst = dst /\ j = Z.of_nat i)); [lia|]. apply Hempty. lia.
        -- intros t' j. rewrite Hf. destruct (decide _) as [[_ ->]|]; done.
    + intros s1 _ (Hok & [Hc Hm] & He & Hf). eapply wp_mono; [apply IH; [done|lia|done]|]. cbv beta.
      intros s2 _ (Hok2 & [Hc2 Hm2] & Hf2). unfold same_task. split_and!; try congruence; try done. intros t' j. rewrite Hf2.
      destruct (decide (t' = dst /\ Z.of_nat i <= j)) as [[-> Hj]|Hx].
      * destruct (decide (dst = dst /\ Z.of_nat (S i) <= j)); rewrite !Hf.
        -- by destruct (decide (src = dst /\ j = Z.of_nat i)).
        -- destruct (decide (dst = dst /\ j = Z.of_nat i)); [done|lia].
      * destruct (decide (t' = dst /\ Z.of_nat (S i) <= j)); [lia|]. rewrite Hf.
        destruct (decide (t' = dst /\ j = Z.of_nat i)); [lia|done].
Qed.

Definition task_empty s (t : Z) : Prop := forall i, 0 <= i < TASK_MAX_FDS -> fd_entry s t i = -1.

Lemma vfs_clone_files s src dst : fds_ok s -> task_empty s dst ->
  wp (vfs_clone_task_fds src dst) (fun s' rc => fds_ok s' /\ same_task s s' /\
    if bad_task src || bad_task dst then s' = s /\ rc = VFS_ERR_INVALID_ARG
    else rc = VFS_OK /\ forall t' j, fd_file s' t' j = if decide (t' = dst) then fd_file s src j else fd_file s t' j) s.
Proof.
  intros Hs Hempty. unfold vfs_clone_task_fds. destruct (bad_task src || bad_task dst) eqn:Hbad; [by apply wp_ret|].
  unfold bad_task in Hbad. bsimpl. apply wp_bind. unfold wp at 1. rewrite clear_entries_empty by done.
  wp_call clone_entries_ok; [done..| |].
  { intros j Hj. apply Hempty. lia. }
  intros s' _ (Hok & Hst & Hf). apply wp_ret. split_and!; try done. intros t' j. rewrite Hf.
  destruct (decide (t' = dst)) as [->|]; [|by destruct (decide (t' = dst /\ _)) as [[? _]|]].
  destruct (decide (dst = dst /\ Z.of_nat 0 <= j)) as [|Hj]; [done|]. unfold fd_file.
  destruct (fd_range j) eqn:Hr; [apply fd_range_iff in Hr; lia|]. simpl. by rewrite !orb_true_r.
Qed.
End Calls.
