(* ===== verification/VfsDescriptors.v ===== *)
(** * Descriptors in use: what the theorems say

    [fd_file s t i] is the backend and the handle descriptor [i] of task [t] stands
    for.  In every run [op_allowed] admits the handles open in the backends are exactly those some
    descriptor stands for, so nothing leaks and nothing is closed early. *)
From S2P Require Import Prelude BlockDev PageCache Bytes Partition VfsDefs Disk Ext2 Ext2Dir Ext2Ops Ramdisk Tfs Vfs Frames Ext2Frames VfsFds VfsRuns VfsSystem VfsBackends VfsPipes.

Section Calls.
Context {X B : Type} `{LawfulBackends X B} `{EqDecision B}.
Implicit Types s : Vfs X B.

(** C32: [vfs_close] gives up exactly one descriptor.  A valid descriptor is taken from
    the task's table and every other descriptor, of every task, stands for what it
    stood for; the backend's handle is closed exactly when no other descriptor stands
    for it.  An invalid one is reported and nothing changes. *)
Theorem vfs_close_correct s fd : fds_ok s ->
  let t := current_task_id s in
  wp (vfs_close fd) (fun s' rc => fds_ok s' /\
    match fd_file s t fd with
    | None => s' = s /\ rc = VFS_ERR_INVALID_FD
    | Some (b, h) =>
        (forall t' i', fd_file s' t' i' = if decide (t' = t /\ i' = fd) then None else fd_file s t' i') /\
        (bk_live (backend s') b h <-> exists t' i', ~ (t' = t /\ i' = fd) /\ fd_file s t' i' = Some (b, h))
    end) s.
Proof.
  intros Hs t. eapply wp_mono; [by apply vfs_close_files|]. cbv beta zeta. fold t. intros s' rc (Hok & _ & Hf).
  split; [done|]. destruct (fd_file s t fd) as [[b h]|]; [|done]. destruct Hf as [_ Hf]. split; [done|].
  rewrite (live_named s' b h Hok). split; intros (t' & i' & Hx); exists t', i'; rewrite Hf in *;
    destruct (decide (t' = t /\ i' = fd)); naive_solver.
Qed.

(** C31: [vfs_open] either gives the task its lowest free descriptor, standing for a
    handle the backend of the path's mount has just opened, or reports an error, and
    then no descriptor changes and no handle is left open. *)
Theorem vfs_open_correct s path flags : fds_ok s ->
  let t := current_task_id s in
  wp (vfs_open path flags) (fun s' fd => fds_ok s' /\
    if fd <? 0 then
      (forall t' i', fd_file s' t' i' = fd_file s t' i') /\
      (forall b h, bk_live (backend s') b h <-> bk_live (backend s) b h)
    else
      fd_file s t fd = None /\ (forall i, 0 <= i < fd -> fd_file s t i <> None) /\
      exists p b rel h, path = Some p /\ resolve_mount (mounts s) p = Some (Some b, rel) /\
        ~ bk_live (backend s) b h /\ bk_live (backend s') b h /\
        forall t' i', fd_file s' t' i' = if decide (t' = t /\ i' = fd) then Some (b, h) else fd_file s t' i') s.
Proof.
  intros Hs t. eapply wp_mono; [by apply vfs_open_files|]. cbv beta zeta. fold t. intros s' fd (Hok & _ & Hf).
  split; [done|]. destruct (fd <? 0) eqn:Hfd.
  - destruct Hf as [Hfd' Hm].
    assert (forall t' i', fd_file s' t' i' = fd_file s t' i') as Hsame by (intros; by apply fd_file_same). split; [done|].
    intros b h. rewrite !live_named by done. by setoid_rewrite Hsame.
  - destruct Hf as (Hal & Hnone & _ & p & b & rel & h & Hp & Hres & Hnew & Hfiles). bsimpl. split; [done|].
    pose proof (current_range s) as Ht. destruct (alloc_task_spec s t Ht) as [|(Hr & _ & Hlow)]; [lia|]. split.
    + intros i Hi Hn. rewrite Hal in Hi. apply fd_file_None in Hn; [|done|done|lia]. specialize (Hlow i Hi). lia.
    + exists p, b, rel, h. split_and!; try done. apply live_named; [done|]. exists t, fd. rewrite Hfiles.
      by destruct (decide (t = t /\ fd = fd)) as [_|[]].
Qed.

(** after [vfs_dup2] the new descriptor shares the old one's descriptor, and with it
    the position in the file; what it stood for before is closed unless another
    descriptor stands for it too, and every other descriptor is as it was. *)
Theorem vfs_dup2_correct s fd newfd : fds_ok s ->
  let t := current_task_id s in
  wp (vfs_dup2 fd newfd) (fun s' r => fds_ok s' /\
    if r <? 0 then s' = s /\ (fd_file s t fd = None \/ ~ 0 <= newfd < TASK_MAX_FDS)
    else r = newfd /\ fd_entry s' t newfd = fd_entry s t fd /\
      (forall t' i', fd_file s' t' i' = if decide (t' = t /\ i' = newfd) then fd_file s t fd else fd_file s t' i') /\
      forall b h, bk_live (backend s') b h <->
        fd_file s t fd = Some (b, h) \/ exists t' i', ~ (t' = t /\ i' = newfd) /\ fd_file s t' i' = Some (b, h)) s.
Proof.
  intros Hs t. eapply wp_mono; [by apply vfs_dup2_files|]. cbv beta zeta. fold t. intros s' r (Hok & _ & Hf).
  split; [done|]. destruct (r <? 0); [done|]. destruct Hf as (-> & Hsome & He & Hfiles). split_and!; try done.
  intros b h. rewrite live_named by done. split.
  - intros (t' & i' & Hx). rewrite Hfiles in Hx. destruct (decide (t' = t /\ i' = newfd)); [by left|right]. by exists t', i'.
  - intros [Hx|(t' & i' & Hne & Hx)].
    + exists t, newfd. rewrite Hfiles. by destruct (decide (t = t /\ newfd = newfd)) as [_|[]].
    + exists t', i'. rewrite Hfiles. by destruct (decide (t' = t /\ i' = newfd)).
Qed.

(** a task created with a copy of another's descriptors and then ended, as a fork
    and an exit do, leaves every descriptor and every open handle as they were. *)
Theorem vfs_clone_close_all s src dst : fds_ok s -> 0 <= src < MAX_TASKS -> 0 <= dst < MAX_TASKS -> task_empty s dst ->
  wp (_ ← vfs_clone_task_fds src dst; vfs_close_all dst) (fun s' _ => fds_ok s' /\
    (forall t' i', fd_file s' t' i' = fd_file s t' i') /\
    forall b h, bk_live (backend s') b h <-> bk_live (backend s) b h) s.
Proof.
  intros Hs Hsrc Hdst Hempty.
  assert (bad_task src || bad_task dst = false) as Hgood.
  { unfold bad_task. rewrite !orb_false_iff, !Z.ltb_ge, !Z.leb_gt. lia. }
  wp_call vfs_clone_files; [done..|]. intros s1 rc (Hok1 & _ & Hf1). rewrite Hgood in Hf1. destruct Hf1 as [_ Hf1].
  eapply wp_mono; [by apply vfs_close_all_files|]. cbv beta. intros s2 _ (Hok2 & _ & Hf2).
  assert (forall t' i', fd_file s2 t' i' = fd_file s t' i') as Hsame.
  { intros t' i'. rewrite Hf2. destruct (decide (t' = dst)) as [->|Hne].
    - destruct (decide (0 <= i' < TASK_MAX_FDS)) as [Hi|Hi].
      + symmetry. apply fd_file_None; [done..|]. by apply Hempty.
      + unfold fd_file. destruct (fd_range i') eqn:E; [by apply fd_range_iff in E|]. simpl. by rewrite orb_true_r.
    - rewrite Hf1. by destruct (decide (t' = dst)). }
  split_and!; [done..|]. intros b h. rewrite !live_named by done. by setoid_rewrite Hsame.
Qed.
End Calls.

(** ** Runs *)

Inductive fd_op :=
| OpOpen (path : option (list Z)) (flags : Z) | OpRead (fd : Z) (buf_null : bool) (size : Z)
| OpWrite (fd : Z) (buf : option (list Z)) (size : Z) | OpClose (fd : Z) | OpLseek (fd offset whence : Z)
| OpFtruncate (fd size : Z) | OpDup (fd : Z) | OpDup2 (fd newfd : Z) | OpFcntl (fd cmd arg : Z)
| OpCloseAll (task_id : Z) | OpClone (src dst : Z) | OpPipe (out_null : bool)
| OpDelete (path : option (list Z)) | OpStat (path : option (list Z)) (stat_null : bool)
| OpRename (old_path new_path : option (list Z)) | OpMkdir (path : option (list Z)) (mode : Z)
| OpRmdir (path : option (list Z)) | OpTruncate (path : option (list Z)) (size : Z)
| OpChmod (path : option (list Z)) (mode : Z) | OpChown (path : option (list Z)) (uid gid : Z)
| OpLink (old_path new_path : option (list Z)) | OpSymlink (target link_path : option (list Z))
| OpReadlink (path : option (list Z)) (buf_null : bool) (max_len : Z)
| OpMount (path : option (list Z)) (ops : option backend_name)
| OpMountBackend (path name : option (list Z)) (parts : list PartitionEntry) | OpUmount (path : option (list Z))
| OpSwitch (task_id : Z).

Section Runs.
Context {D : Type} `{BlockDev D} `{Tfs.AtaFlag D} (stack junk : list Z).
#[local] Instance files_backends : Backends (Files D) backend_name := Files_Backends stack junk.
#[local] Instance files_lawful_inst : LawfulBackends (Files D) backend_name := Files_Lawful stack junk.
#[local] Abbreviation System := (Vfs (Files D) backend_name).
Implicit Types s : System.

Definition quietly {A} (m : ST System A) : ST System unit := _ ← m; mret tt.

Definition vfs_do (o : fd_op) : ST System unit :=
  match o with
  | OpOpen p f => quietly (vfs_open p f)
  | OpRead fd b n => quietly (vfs_read fd b n)
  | OpWrite fd b n => quietly (vfs_write fd b n)
  | OpClose fd => quietly (vfs_close fd)
  | OpLseek fd o w => quietly (vfs_lseek fd o w)
  | OpFtruncate fd n => quietly (vfs_ftruncate fd n)
  | OpDup fd => quietly (vfs_dup fd)
  | OpDup2 fd n => quietly (vfs_dup2 fd n)
  | OpFcntl fd c a => quietly (vfs_fcntl fd c a)
  | OpCloseAll t => vfs_close_all t
  | OpClone src dst => quietly (vfs_clone_task_fds src dst)
  | OpPipe b => quietly (vfs_pipe b)
  | OpDelete p => quietly (vfs_delete p)
  | OpStat p b => quietly (vfs_stat p b)
  | OpRename p q => quietly (vfs_rename p q)
  | OpMkdir p m => quietly (vfs_mkdir p m)
  | OpRmdir p => quietly (vfs_rmdir p)
  | OpTruncate p n => quietly (vfs_truncate p n)
  | OpChmod p m => quietly (vfs_chmod p m)
  | OpChown p u g => quietly (vfs_chown p u g)
  | OpLink p q => quietly (vfs_link p q)
  | OpSymlink t p => quietly (vfs_symlink t p)
  | OpReadlink p b n => quietly (vfs_readlink p b n)
  | OpMount p b => quietly (vfs_mount p b)
  | OpMountBackend p n parts => quietly (vfs_mount_backend stack p n parts)
  | OpUmount p => quietly (vfs_umount p)
  | OpSwitch t => modify (fun s => s <| os_current_task := t |>)
  end.

(** Descriptors are copied only to a task that has none, as a new task has: those of
    another would be overwritten and never closed.  An ext2 volume is mounted only when
    no descriptor stands for an ext2 file: the call clears the table of handles
    (ext2fs.c:1680), also under open descriptors. *)
Definition op_allowed (o : fd_op) s : Prop :=
  match o with
  | OpClone _ dst => task_empty s dst
  | OpMountBackend _ (Some name) _ =>
      take 4 name = ext2_spec -> forall t i h, fd_file s t i <> Some (Ext2FsOps, h)
  | _ => True
  end.

Inductive vfs_step s : System -> Prop :=
| step_op o : op_allowed o s -> vfs_step s (fst (vfs_do o s)).

Definition stays_ok {A} (m : ST System A) s : Prop := wp m (fun s' _ => fds_ok s') s.

Lemma quietly_ok {A} (m : ST System A) s : stays_ok m s -> stays_ok (quietly m) s.
Proof. intros Hm. by apply wp_bind. Qed.

Lemma stays_mono {A} (m : ST System A) Q s : wp m Q s -> (forall s' a, Q s' a -> fds_ok s') -> stays_ok m s.
Proof. apply wp_mono. Qed.

Lemma with_fd_ok {A F} fd (call : VfsBackendOps (Files D) -> option F) (err : Z -> A) k s :
  (forall b c h, call (backend_ops b) = Some c -> quiet bk_inv bk_live (k c h)) -> fds_ok s -> stays_ok (with_fd fd call err k) s.
Proof. intros Hk Hs. eapply stays_mono; [by apply with_fd_quiet|]. by intros ? ? [? _]. Qed.

Lemma with_path_ok {A F} p (call : VfsBackendOps (Files D) -> option F) (err : Z -> A) k s :
  (forall b c rel, call (backend_ops b) = Some c -> quiet bk_inv bk_live (k c rel)) -> fds_ok s -> stays_ok (with_path p call err k) s.
Proof. intros Hk Hs. eapply stays_mono; [by apply with_path_quiet|]. by intros ? ? [? _]. Qed.

Lemma tables_kept s s' : fds_ok s -> fd_table s' = fd_table s -> task_fd_map s' = task_fd_map s -> backend s' = backend s -> fds_ok s'.
Proof.
  intros [] Hf Hm Hb. assert (forall g, in_use s' g <-> in_use s g) as Hu by (intros g; unfold in_use; by rewrite Hf).
  split; rewrite ?Hf, ?Hm, ?Hb; try done; setoid_rewrite Hu; done.
Qed.

Lemma vfs_fcntl_ok s fd cmd arg : fds_ok s -> stays_ok (vfs_fcntl fd cmd arg) s.
Proof.
  intros Hs. unfold stays_ok, vfs_fcntl. apply wp_get. cbv zeta. destruct (gfd_bad _ _) eqn:Hbad; [by apply wp_ret|].
  destruct (cmd =? VFS_F_GETFL); [by apply wp_ret|]. destruct (cmd =? VFS_F_SETFL); [|by apply wp_ret].
  apply in_use_bad in Hbad. apply wp_bind, wp_modify, wp_ret. rewrite (set_fd_alter exact s _ _ Hs Hbad).
  destruct (fo_count _ _ Hs _ Hbad) as [Hc Hp]. by eapply (set_fd_inv exact exact).
Qed.

Lemma vfs_rename_ok s p q : fds_ok s -> stays_ok (vfs_rename p q) s.
Proof.
  intros Hs. unfold stays_ok, vfs_rename, or_null. destruct p as [p|], q as [q|]; try by apply wp_ret.
  apply wp_get. destruct (resolve_mount (mounts s) p) as [[[b|] rp]|], (resolve_mount (mounts s) q) as [[bq rq]|]; try by apply wp_ret.
  destruct (negb _); [by apply wp_ret|]. destruct (o_rename (backend_ops b)) as [rename|] eqn:Hr; [|by apply wp_ret].
  eapply stays_mono; [apply on_backend_quiet; [by eapply (lo_rename _ _ _ _ (bk_lawful b))|done]|]. by intros ? ? [? _].
Qed.

Lemma vfs_mount_ok s p b : fds_ok s -> stays_ok (vfs_mount p b) s.
Proof.
  intros Hs. unfold stays_ok, wp, vfs_mount. destruct p as [p|], b as [b|]; try done.
  destruct (negb _); [done|]. destruct (mount_at _ _ _). by eapply tables_kept.
Qed.

(** Mounting leaves the ext2 handle table as it is or clears it. *)
Definition clears {A} (m : ST (Ext2 (D := D)) A) : Prop := forall e,
  Ext2Frames.slots (fst (m e)) = Ext2Frames.slots e \/
  Ext2Frames.slots (fst (m e)) = replicate (Z.to_nat EXT2_MAX_HANDLES) (0, 0).

Lemma clears_frame {A} (m : ST (Ext2 (D := D)) A) : frame Ext2Frames.slots m -> clears m.
Proof. intros Hm e. left. apply Hm. Qed.

Lemma clears_bind {A C} (m : ST (Ext2 (D := D)) A) (k : A -> ST (Ext2 (D := D)) C) :
  clears m -> (forall a, clears (k a)) -> clears (m ≫= k).
Proof.
  intros Hm Hk e. unfold mbind, ST_bind. specialize (Hm e). destruct (m e) as [e' a]. simpl in Hm.
  destruct (Hk a e') as [->| ->]; [done|by right].
Qed.

Lemma frame_init_state lba : frame Ext2Frames.slots (ext2_init_state_from_partition (D := D) stack lba).
Proof.
  unfold ext2_init_state_from_partition. apply frame_bind; [by apply frame_modify|intros _].
  apply frame_bind.
  { intros s. unfold read_superblock. by destruct (read_sectors _ _ _ _) as [d [raw|]]. }
  intros []; [|apply frame_ret]. apply frame_get. intros s. cbv zeta.
  apply frame_bind; [by apply frame_modify|intros _]. destruct (negb _); [apply frame_ret|].
  apply frame_bind; [by apply frame_modify|intros _].
  apply frame_bind; [apply idle_read_group_desc|intros [gd|]];
    (apply frame_bind; [by apply frame_modify|intros _; apply frame_ret]).
Qed.

Lemma clears_mount lba : clears (ext2_mount_from_lba stack lba).
Proof.
  unfold ext2_mount_from_lba. apply clears_bind; [apply clears_frame, frame_init_state|].
  intros ok. destruct (negb ok); [by apply clears_frame|]. apply clears_bind; [|intros; by apply clears_frame].
  intros e. by right.
Qed.

Lemma clears_mount_first parts : clears (mount_first stack parts).
Proof.
  induction parts as [|p parts IH]; simpl; [by apply clears_frame|].
  apply clears_bind; [apply clears_mount|]. intros []; [by apply clears_frame|done].
Qed.

Lemma clears_spec spec parts : clears (ext2_backend_from_spec stack spec parts).
Proof.
  unfold ext2_backend_from_spec. destruct (str_eq _ _).
  - apply clears_bind.
    { apply clears_frame. intros e. unfold scan_partitions. destruct (partition_scan_gpt _ _ _ _) as [[d1 out] [c|]]; [|done].
      destruct (c <=? 0); [|done]. by destruct (partition_scan_mbr _ _ _ _) as [[d2 o2] c2]. }
    intros [found|]; [|by apply clears_frame].
    apply clears_bind; [apply clears_mount_first|intros; by apply clears_frame].
  - destruct (_ && _); [|by apply clears_frame]. destruct (parse_u32_dec _); [|by apply clears_frame].
    apply clears_bind; [apply clears_mount|intros; by apply clears_frame].
Qed.

(** Clearing a table in which nothing is open keeps every handle as it was. *)
Lemma clears_keeps {A} (m : ST (Ext2 (D := D)) A) x : clears m -> files_inv x ->
  (forall h, ~ files_live x Ext2FsOps h) -> keeps files_inv files_live x (fst (on_ext2 m x)).
Proof.
  intros Hm Hx Hnone. set (x' := fst (on_ext2 m x)).
  assert (forall b, b <> Ext2FsOps -> table b x' = table b x) as Helse by (intros b Hb; by apply ext2_elsewhere).
  assert (table Ext2FsOps x' = table Ext2FsOps x \/
          table Ext2FsOps x' = replicate (Z.to_nat EXT2_MAX_HANDLES) (0, 0)) as Hext.
  { subst x'. unfold on_ext2. specialize (Hm (Build_Ext2 (fs_ext2_state x) (fs_ext2_handles x) (raw_disk x))).
    by destruct (m _). }
  assert (forall b, single (table_size b) (table b x') /\ forall h, files_live x' b h <-> files_live x b h) as Hall.
  { intros b. unfold files_live. destruct (decide (b = Ext2FsOps)) as [->|Hb]; [|by rewrite Helse].
    destruct Hext as [->|Hr]; [done|]. rewrite Hr. split.
    - split; [done|]. by apply Forall_replicate.
    - intros h. split; [|by intros []%Hnone]. intros (_ & u & [-> _]%lookup_replicate_1 & Hu). done. }
  split; [intros b; apply Hall|intros b h; apply Hall].
Qed.

Lemma vfs_mount_backend_ok s p n parts : fds_ok s ->
  (forall name, n = Some name -> take 4 name = ext2_spec -> forall t i h, fd_file s t i <> Some (Ext2FsOps, h)) ->
  stays_ok (vfs_mount_backend stack p n parts) s.
Proof.
  intros Hs Hn. unfold stays_ok, vfs_mount_backend.
  assert (wp (lookup_backend stack n parts) (fun s' _ => fds_ok s') s) as Hlook.
  { destruct n as [name|]; [|by apply wp_ret]. unfold lookup_backend. repeat (case_match; [by apply wp_ret|]).
    destruct (str_eq (take 4 name) ext2_spec) eqn:He; [|by apply wp_ret]. apply bool_decide_eq_true in He.
    apply wp_bind. unfold wp, on_backend.
    pose proof (clears_keeps _ (backend s) (clears_spec name parts) (fo_bk _ _ Hs)) as Hk.
    destruct (on_ext2 _ (backend s)) as [x' found]. apply wp_ret, keeps_inv; [done|]. apply Hk.
    intros h Hlive. apply (live_named s Ext2FsOps h Hs) in Hlive as (t & i & Hf). by eapply Hn. }
  apply wp_bind. eapply wp_mono; [exact Hlook|]. intros s' [[b|]|] Hs'; [|by apply wp_ret..].
  apply wp_bind. eapply wp_mono; [by apply (vfs_mount_ok s' p (Some b))|]. intros s2 rc Hs2. by apply wp_ret.
Qed.

Lemma vfs_umount_ok s p : fds_ok s -> stays_ok (vfs_umount p) s.
Proof.
  intros Hs. unfold stays_ok, wp, vfs_umount. destruct p as [p|]; [|done]. destruct (negb _); [done|].
  destruct (str_eq _ _); [done|]. destruct (find_mount _ _); [|done]. by eapply tables_kept.
Qed.

(** The calls on paths that go straight to a backend. *)
Lemma path_ops_ok o s : fds_ok s ->
  match o with
  | OpDelete _ | OpStat _ _ | OpMkdir _ _ | OpRmdir _ | OpTruncate _ _ | OpChmod _ _ | OpChown _ _ _
  | OpLink _ _ | OpSymlink _ _ | OpReadlink _ _ _ => stays_ok (vfs_do o) s
  | _ => True
  end.
Proof.
  intros Hs. destruct o as [| | | | | | | | | | | |p|p b| |p m|p|p n|p m|p u g|p q|q p|p b n| | | |]; try done; apply quietly_ok.
  - destruct p as [[|c p]|]; [done| |done]. apply with_path_ok; [|done]. intros b f rel Hf. apply (lo_delete _ _ _ _ (bk_lawful b)), Hf.
  - unfold vfs_stat, or_null. destruct b, p; try done. apply with_path_ok; [|done]. intros b f rel Hf. apply (lo_stat _ _ _ _ (bk_lawful b)), Hf.
  - destruct p; [|done]. apply with_path_ok; [|done]. intros b f rel Hf. apply (lo_mkdir _ _ _ _ (bk_lawful b)), Hf.
  - destruct p; [|done]. apply with_path_ok; [|done]. intros b f rel Hf. apply (lo_rmdir _ _ _ _ (bk_lawful b)), Hf.
  - destruct p; [|done]. apply with_path_ok; [|done]. intros b f rel Hf. apply (lo_truncate _ _ _ _ (bk_lawful b)), Hf.
  - destruct p; [|done]. apply with_path_ok; [|done]. intros b f rel Hf. apply (lo_chmod _ _ _ _ (bk_lawful b)), Hf.
  - destruct p; [|done]. apply with_path_ok; [|done]. intros b f rel Hf. apply (lo_chown _ _ _ _ (bk_lawful b)), Hf.
  - destruct p, q; try done. apply with_path_ok; [|done]. intros b f rel Hf. apply (lo_link _ _ _ _ (bk_lawful b)), Hf.
  - destruct p, q; try done. apply with_path_ok; [|done]. intros b f rel Hf. apply (lo_symlink _ _ _ _ (bk_lawful b)), Hf.
  - unfold vfs_readlink, or_null. destruct b, p; try done. apply with_path_ok; [|done]. intros b f rel Hf. apply (lo_readlink _ _ _ _ (bk_lawful b)), Hf.
Qed.

Lemma vfs_do_ok o s : fds_ok s -> op_allowed o s -> stays_ok (vfs_do o) s.
Proof.
  intros Hs Ho. pose proof (path_ops_ok o s Hs) as Hpath. destruct o; try exact Hpath; clear Hpath; try apply quietly_ok.
  - eapply stays_mono; [by apply vfs_open_files|]. by intros ? ? [? _].
  - apply with_fd_ok; [|done]. intros b f h Hf. apply (lo_read _ _ _ _ (bk_lawful b)), Hf.
  - apply with_fd_ok; [|done]. intros b f h Hf. apply (lo_write _ _ _ _ (bk_lawful b)), Hf.
  - eapply stays_mono; [by apply vfs_close_files|]. by intros ? ? [? _].
  - apply with_fd_ok; [|done]. intros b f h Hf. apply (lo_lseek _ _ _ _ (bk_lawful b)), Hf.
  - apply with_fd_ok; [|done]. intros b f h Hf. apply (lo_ftruncate _ _ _ _ (bk_lawful b)), Hf.
  - eapply stays_mono; [by apply vfs_dup_files|]. by intros ? ? [? _].
  - eapply stays_mono; [by apply vfs_dup2_files|]. by intros ? ? [? _].
  - by apply vfs_fcntl_ok.
  - eapply stays_mono; [by apply vfs_close_all_files|]. by intros ? ? [? _].
  - eapply stays_mono; [by apply vfs_clone_files|]. by intros ? ? [? _].
  - eapply stays_mono; [by apply (vfs_pipe_gives_up stack junk)|]. intros s' r (_ & Hb & Hk). by apply (behind_restored stack junk s).
  - by apply vfs_rename_ok.
  - by apply vfs_mount_ok.
  - apply vfs_mount_backend_ok; [done|]. intros n ->. exact Ho.
  - by apply vfs_umount_ok.
  - unfold stays_ok, wp. by eapply tables_kept.
Qed.

(** C2: after [vfs_init], every run of opens, closes, reads, writes, seeks, duplications,
    forks into tasks without descriptors, exits, pipes, unmounts, task switches, calls on
    paths and mounts - of an ext2 volume while no ext2 file is open - in any order and
    over any disk contents, keeps the descriptors consistent: each reference
    count is the number of descriptors that share the entry, and a handle is open in a
    backend exactly when some task's descriptor stands for it. *)
Theorem vfs_runs_consistent s0 s : static_sizes (backend s0) -> rtc vfs_step (fst (vfs_init s0)) s ->
  (forall g, in_use s g -> f_ref_count (fd_table s).[g] = refs (task_fd_map s) g /\ 0 < refs (task_fd_map s) g) /\
  (forall t i, 0 <= t < MAX_TASKS -> 0 <= i < TASK_MAX_FDS -> fd_entry s t i = -1 \/ in_use s (fd_entry s t i)) /\
  (forall b h, files_live (backend s) b h <-> exists t i, fd_file s t i = Some (b, h)).
Proof.
  intros Hsz Hrun. assert (fds_ok s) as Hs.
  { revert Hrun. generalize (vfs_init_ok stack junk s0 Hsz). generalize (fst (vfs_init s0)). intros s1 Hs1 Hrun.
    induction Hrun as [|s1 s2 s3 [o Ho] _ IH]; [done|]. apply IH. by apply vfs_do_ok. }
  split_and!.
  - intros g Hg. destruct (fo_count _ _ Hs g Hg) as [Hc Hp]. unfold exact in Hc. lia.
  - intros t i Ht Hi. apply (fo_entry _ _ Hs (Z.to_nat (slot t i))). by apply (slot_lookup _ exact).
  - intros b h. exact (live_named s b h Hs).
Qed.
End Runs.

(** ** A run *)

Definition run_list (ops : list fd_op) (s : Vfs (Files MemDisk) backend_name) : Vfs (Files MemDisk) backend_name :=
  foldl (fun s o => fst (vfs_do zero_words zero_junk o s)) s ops.

Definition plain_op (o : fd_op) : Prop :=
  match o with OpClone _ _ | OpMountBackend _ _ _ => False | _ => True end.

Lemma run_list_steps ops s : Forall plain_op ops -> rtc (vfs_step zero_words zero_junk) s (run_list ops s).
Proof.
  revert s. induction ops as [|o ops IH]; intros s Hops; [apply rtc_refl|]. inversion Hops as [|? ? Ho Hops']. subst.
  eapply rtc_l; [|by apply IH]. apply step_op. by destruct o.
Qed.

Lemma run_list_ok ops s : Forall plain_op ops -> fds_ok s -> fds_ok (run_list ops s).
Proof.
  intros Hops. revert s. induction Hops as [|o ops Ho _ IH]; intros s Hs; [done|]. apply IH.
  apply (vfs_do_ok zero_words zero_junk o s Hs). by destruct o.
Qed.

(** A RAM disk at /r; descriptor 0 is its file a, and descriptor 5 shares it. *)
Definition r_path : list Z := [47; 114].
Definition a_path : list Z := [47; 114; 47; 97].
Definition demo_fd_ops : list fd_op :=
  [OpMount (Some r_path) (Some RamdiskOps); OpOpen (Some a_path) (Z.lor VFS_O_RDWR VFS_O_CREAT); OpDup2 0 5;
   OpWrite 0 (Some [1; 2; 3]) 3; OpPipe false].
Definition demo_system : Vfs (Files MemDisk) backend_name := run_list demo_fd_ops booted.

Lemma demo_plain : Forall plain_op demo_fd_ops.
Proof. by repeat constructor. Qed.

Lemma demo_system_ok : fds_ok demo_system.
Proof. apply run_list_ok; [apply demo_plain|apply booted_ok]. Qed.

Lemma vfs_runs_consistent_witness :
  rtc (vfs_step zero_words zero_junk) booted demo_system /\
  (files_live (backend demo_system) RamdiskOps 0 <-> exists t i, fd_file demo_system t i = Some (RamdiskOps, 0)).
Proof.
  split; [apply run_list_steps, demo_plain|].
  exact (proj2 (proj2 (vfs_runs_consistent zero_words zero_junk before_boot demo_system blank_sizes
    (run_list_steps demo_fd_ops booted demo_plain))) RamdiskOps 0).
Defined.

Example demo_files :
  (fd_file demo_system 1 0, fd_file demo_system 1 5, fd_file demo_system 1 1) =
  (Some (RamdiskOps, 0), Some (RamdiskOps, 0), None).
Proof. vm_compute. reflexivity. Qed.

Lemma vfs_close_correct_witness :
  wp (vfs_close 0) (fun s' rc => fds_ok s' /\
    match fd_file demo_system (current_task_id demo_system) 0 with
    | None => s' = demo_system /\ rc = VFS_ERR_INVALID_FD
    | Some (b, h) =>
        (forall t' i', fd_file s' t' i' = if decide (t' = current_task_id demo_system /\ i' = 0) then None else fd_file demo_system t' i') /\
        (bk_live (backend s') b h <->
         exists t' i', ~ (t' = current_task_id demo_system /\ i' = 0) /\ fd_file demo_system t' i' = Some (b, h))
    end) demo_system.
Proof. exact (vfs_close_correct demo_system 0 demo_system_ok). Defined.

(** Closing descriptor 0 leaves the file open under descriptor 5; closing both ends it. *)
Example demo_close :
  let s1 := run_list [OpClose 0] demo_system in let s2 := run_list [OpClose 5] s1 in
  (rhandle_ok (fs_ramdisk (backend s1)) 0, rhandle_ok (fs_ramdisk (backend s2)) 0) = (true, false).
Proof. vm_compute. reflexivity. Qed.

Lemma vfs_open_correct_witness :
  fds_ok demo_system /\ wp (vfs_open (Some a_path) VFS_O_RDONLY) (fun s' _ => fds_ok s') demo_system.
Proof.
  split; [exact demo_system_ok|].
  pose proof (vfs_open_correct demo_system (Some a_path) VFS_O_RDONLY demo_system_ok) as Hc. cbv zeta in Hc.
  eapply wp_mono; [exact Hc|]. intros s' a H. exact (proj1 H).
Defined.

Lemma vfs_dup2_correct_witness :
  fds_ok demo_system /\ wp (vfs_dup2 5 7) (fun s' _ => fds_ok s') demo_system.
Proof.
  split; [exact demo_system_ok|].
  pose proof (vfs_dup2_correct demo_system 5 7 demo_system_ok) as Hc. cbv zeta in Hc.
  eapply wp_mono; [exact Hc|]. intros s' a H. exact (proj1 H).
Defined.

Lemma demo_task_empty : task_empty demo_system 3.
Proof.
  intros i Hi. apply Z.eqb_eq.
  apply (range_check (fun i => fd_entry demo_system 3 i =? -1) 0 256); [vm_compute; reflexivity|exact Hi].
Qed.

Lemma vfs_clone_close_all_witness :
  wp (_ ← vfs_clone_task_fds 1 3; vfs_close_all 3)
    (fun s' _ => forall t' i', fd_file s' t' i' = fd_file demo_system t' i') demo_system.
Proof.
  assert (0 <= 1 < MAX_TASKS) as Hsrc by (unfold MAX_TASKS; lia).
  assert (0 <= 3 < MAX_TASKS) as Hdst by (unfold MAX_TASKS; lia).
  eapply wp_mono; [exact (vfs_clone_close_all demo_system 1 3 demo_system_ok Hsrc Hdst demo_task_empty)|].
  intros s' a H. exact (proj1 (proj2 H)).
Defined.
