(* ===== verification/Fault.v ===== *)
(** * Calls that may fault

    The state monad of calls that may end in a fault: an access to memory that is not
    mapped, or outside a buffer, after which the kernel does not continue. *)
From S2P Require Import Prelude.

Inductive outcome (S A : Type) := Done (s : S) (a : A) | Fault (s : S).
Arguments Done {S A}.
Arguments Fault {S A}.

Definition FST (S A : Type) : Type := S -> outcome S A.

#[export] Instance FST_ret S : MRet (FST S) := fun A a s => Done s a.
#[export] Instance FST_bind S : MBind (FST S) := fun A B k m s =>
  match m s with Done s' a => k a s' | Fault s' => Fault s' end.

Definition fget {S} : FST S S := fun s => Done s s.
Definition fmod {S} (f : S -> S) : FST S unit := fun s => Done (f s) tt.
(** The end of a run that is not defined. *)
Definition fault {S A} : FST S A := fun s => Fault s.

(** [for (i = lo; i < lo + n; i++) body], where the body may return early. *)
Fixpoint loop {S A} (body : Z -> FST S (option A)) (lo : Z) (n : nat) : FST S (option A) :=
  match n with
  | O => mret None
  | Datatypes.S n' =>
      r ← body lo;
      match r with Some a => mret (Some a) | None => loop body (lo + 1) n' end
  end.

(** The same loop without a return. *)
Fixpoint each {S} (body : Z -> FST S unit) (lo : Z) (n : nat) : FST S unit :=
  match n with
  | O => mret tt
  | Datatypes.S n' => body lo ≫= fun _ => each body (lo + 1) n'
  end.

(** [wpf E m Q s]: from [s] the call [m] ends in a state and with a result that
    satisfy [Q], or faults in a state that satisfies [E]. *)
Definition wpf {S A} (E : S -> Prop) (m : FST S A) (Q : S -> A -> Prop) (s : S) : Prop :=
  match m s with Done s' a => Q s' a | Fault s' => E s' end.

Section Wpf.
Context {S : Type} (E : S -> Prop).

Lemma wpf_ret {A} (a : A) (Q : S -> A -> Prop) s : Q s a -> wpf E (mret a) Q s.
Proof. done. Qed.

Lemma wpf_bind {A B} (m : FST S A) (k : A -> FST S B) Q s :
  wpf E m (fun s' a => wpf E (k a) Q s') s -> wpf E (m ≫= k) Q s.
Proof. unfold wpf, mbind, FST_bind. by destruct (m s). Qed.

Lemma wpf_mono {A} (m : FST S A) (Q Q' : S -> A -> Prop) s :
  wpf E m Q s -> (forall s' a, Q s' a -> Q' s' a) -> wpf E m Q' s.
Proof. unfold wpf. destruct (m s); eauto. Qed.

Lemma wpf_fault {A} (E' : S -> Prop) (m : FST S A) Q s :
  wpf E m Q s -> (forall s', E s' -> E' s') -> wpf E' m Q s.
Proof. unfold wpf. destruct (m s); eauto. Qed.

Lemma wpf_seq {A B} (m : FST S A) (k : A -> FST S B) Q R s :
  wpf E m R s -> (forall s' a, R s' a -> wpf E (k a) Q s') -> wpf E (m ≫= k) Q s.
Proof. intros Hm Hk. apply wpf_bind. by eapply wpf_mono. Qed.

(** A call known to end with [a] in [s']. *)
Lemma wpf_step {A B} (m : FST S A) (k : A -> FST S B) Q s s' a :
  m s = Done s' a -> wpf E (k a) Q s' -> wpf E (m ≫= k) Q s.
Proof. intros Hm Hk. apply wpf_bind. unfold wpf at 1. by rewrite Hm. Qed.

Lemma wpf_loop {A} (body : Z -> FST S (option A)) (I : Z -> S -> Prop) (Q : S -> option A -> Prop) n :
  forall lo s, I lo s ->
  (forall i t, lo <= i < lo + Z.of_nat n -> I i t ->
     wpf E (body i) (fun t' r => match r with Some _ => Q t' r | None => I (i + 1) t' end) t) ->
  (forall t, I (lo + Z.of_nat n) t -> Q t None) ->
  wpf E (loop body lo n) Q s.
Proof.
  induction n as [|n IH]; intros lo s HI Hb HQ.
  - apply HQ. by rewrite Z.add_0_r.
  - cbn [loop]. eapply wpf_seq; [apply Hb; [lia|done]|]. intros t [a|] Ht; [done|].
    apply IH; [done| |].
    + intros i t' Hi. apply Hb. lia.
    + intros t'. replace (lo + 1 + Z.of_nat n) with (lo + Z.of_nat (Datatypes.S n)) by lia. apply HQ.
Qed.

Lemma wpf_each (body : Z -> FST S unit) (I : Z -> S -> Prop) n :
  forall lo s, I lo s ->
  (forall i t, lo <= i < lo + Z.of_nat n -> I i t -> wpf E (body i) (fun t' _ => I (i + 1) t') t) ->
  wpf E (each body lo n) (fun t _ => I (lo + Z.of_nat n) t) s.
Proof.
  induction n as [|n IH]; intros lo s HI Hb.
  - unfold wpf. simpl. by rewrite Z.add_0_r.
  - cbn [each]. eapply wpf_seq; [apply Hb; [lia|done]|]. intros t [] Ht.
    replace (lo + Z.of_nat (Datatypes.S n)) with (lo + 1 + Z.of_nat n) by lia.
    apply IH; [done|]. intros i t' Hi. apply Hb. lia.
Qed.

Lemma wpf_each_fault (body : Z -> FST S unit) Q lo n s s' :
  n <> O -> body lo s = Fault s' -> E s' -> wpf E (each body lo n) Q s.
Proof. intros Hn Hb HE. destruct n; [done|]. unfold wpf. simpl. unfold mbind, FST_bind. by rewrite Hb. Qed.
End Wpf.

(** [fcall lem] runs the first call of a sequence by its specification. *)
Ltac fcall lem := eapply wpf_seq; [eapply lem|cbv beta].
