(* ===== verification/Memory.v ===== *)
(** * Physical memory and address translation

    The bytes of physical memory, the two registers paging depends on, and the walk
    of the page tables the processor does on every access.  An access to an address
    that is not mapped is a page fault. *)
From S2P Require Import Prelude Fault Bytes Pmm.

(** ** Bytes and words *)

Definition load8 (m : gmap Z Z) (a : Z) : Z := u8 (m !!! a).
Definition store8 (m : gmap Z Z) (a v : Z) : gmap Z Z := <[a := u8 v]> m.

(** A little-endian word. *)
Definition load32 (m : gmap Z Z) (a : Z) : Z :=
  le_val [load8 m a; load8 m (a + 1); load8 m (a + 2); load8 m (a + 3)].
Definition store32 (m : gmap Z Z) (a v : Z) : gmap Z Z :=
  match le_bytes 4 v with
  | [b0; b1; b2; b3] => store8 (store8 (store8 (store8 m a b0) (a + 1) b1) (a + 2) b2) (a + 3) b3
  | _ => m
  end.

Lemma load8_range m a : 0 <= load8 m a < 256.
Proof. apply u8_range. Qed.

Lemma load8_store8 m a v b : load8 (store8 m a v) b = if a =? b then u8 v else load8 m b.
Proof.
  unfold load8, store8. destruct (Z.eqb_spec a b) as [->|Hne].
  - rewrite lookup_total_insert_eq. apply u8_small, u8_range.
  - by rewrite lookup_total_insert_ne.
Qed.

Lemma load32_range m a : 0 <= load32 m a < 2 ^ 32.
Proof.
  apply (le_val_range [_; _; _; _]). repeat constructor; apply load8_range.
Qed.

Lemma load32_ext m m' a : (forall b, a <= b < a + 4 -> load8 m' b = load8 m b) ->
  load32 m' a = load32 m a.
Proof. intros Hb. unfold load32. rewrite !Hb by lia. done. Qed.

(** The byte at [b] once [v] is stored at [a]. *)
Lemma load8_store32_other m a v b : ~ (a <= b < a + 4) -> load8 (store32 m a v) b = load8 m b.
Proof.
  intros Hb. unfold store32. simpl. rewrite !load8_store8.
  repeat match goal with |- context [?x =? b] => destruct (Z.eqb_spec x b); [lia|] end. done.
Qed.

Lemma load32_store32 m a v : load32 (store32 m a v) a = u32 v.
Proof.
  unfold load32. transitivity (le_val (le_bytes 4 v)).
  - unfold store32. cbn -[Z.div Z.modulo]. rewrite !load8_store8.
    repeat match goal with |- context [?x =? ?y] => destruct (Z.eqb_spec x y); try lia end.
    rewrite !u8_small by (apply Z.mod_pos_bound; lia). done.
  - rewrite le_val_bytes. done.
Qed.

Lemma load32_store32_other m a v b : b + 4 <= a \/ a + 4 <= b ->
  load32 (store32 m a v) b = load32 m b.
Proof. intros Hb. apply load32_ext. intros c Hc. apply load8_store32_other. lia. Qed.

#[global] Opaque load32 store32 load8 store8.

(** ** Page-table entries

    An entry is a page address together with flags in its low twelve bits. *)

Definition PAGE_PRESENT : Z := 0x1.
Definition PAGE_RW : Z := 0x2.
Definition PAGE_USER : Z := 0x4.
Definition PAGE_MASK : Z := 0xFFFFF000.

(** The address of a page. *)
Definition is_page (p : Z) : Prop := p mod 4096 = 0 /\ 0 <= p < 2 ^ 32.

Lemma land_PAGE_MASK x : 0 <= x < 2 ^ 32 -> Z.land x PAGE_MASK = x / 4096 * 4096.
Proof.
  intros Hx. apply Z.bits_inj'. intros n Hn.
  change PAGE_MASK with (Z.shiftl (Z.ones 20) 12).
  change 4096 with (2 ^ 12). rewrite <- Z.shiftr_div_pow2, <- Z.shiftl_mul_pow2 by lia.
  rewrite Z.land_spec, !Z.shiftl_spec by lia.
  destruct (Z.ltb_spec n 12).
  { rewrite (Z.testbit_neg_r (Z.ones 20)), (Z.testbit_neg_r (Z.shiftr x 12)) by lia. apply andb_false_r. }
  rewrite Z.shiftr_spec by lia. replace (n - 12 + 12) with n by lia.
  rewrite Z.testbit_ones_nonneg by lia. destruct (Z.ltb_spec (n - 12) 20); [apply andb_true_r|].
  rewrite andb_false_r. symmetry. destruct (Z.eq_dec x 0) as [->|]; [apply Z.bits_0|].
  apply Z.bits_above_log2; [lia|]. assert (Z.log2 x < 32) by (apply Z.log2_lt_pow2; lia). lia.
Qed.

Lemma land_low x m : 0 <= m < 4096 -> Z.land x m = Z.land (x mod 4096) m.
Proof.
  intros Hm. change 4096 with (2 ^ 12). rewrite <- Z.land_ones by lia.
  rewrite <- Z.land_assoc. f_equal. rewrite Z.land_comm, Z.land_ones by lia.
  symmetry. apply Z.mod_small. lia.
Qed.

Lemma page_mask p : is_page p -> Z.land p PAGE_MASK = p.
Proof. intros [Hm Hp]. rewrite land_PAGE_MASK by done. pose proof (Z_div_mod_eq_full p 4096). lia. Qed.

(** The entry the code builds from a page and flags. *)
Lemma entry_eq p f : is_page p -> 0 <= f < 4096 -> Z.lor p f = p + f.
Proof.
  intros [Hm Hp] Hf. assert (p = Z.shiftl (p / 4096) 12) as ->.
  { rewrite Z.shiftl_mul_pow2 by lia. pose proof (Z_div_mod_eq_full p 4096). lia. }
  rewrite Z.lor_comm, lor_shift by (try lia; apply Z.div_pos; lia).
  rewrite Z.shiftl_mul_pow2 by lia. lia.
Qed.

Lemma entry_range p f : is_page p -> 0 <= f < 4096 -> 0 <= Z.lor p f < 2 ^ 32.
Proof.
  intros Hp Hf. rewrite entry_eq by done. destruct Hp as [Hm Hp].
  pose proof (Z_div_mod_eq_full p 4096). split; [lia|].
  assert (p / 4096 < 1048576) by (apply Z.div_lt_upper_bound; lia). lia.
Qed.

Lemma word_land_ones a : 0 <= a < 2 ^ 32 -> Z.land a (Z.ones 32) = a.
Proof. intros Ha. rewrite Z.land_ones by lia. by apply Z.mod_small. Qed.

Lemma word_lor a b : 0 <= a < 2 ^ 32 -> 0 <= b < 2 ^ 32 -> 0 <= Z.lor a b < 2 ^ 32.
Proof.
  intros Ha Hb. rewrite <- (word_land_ones a), <- (word_land_ones b) by done.
  rewrite <- Z.land_lor_distr_l, Z.land_ones by lia. apply Z.mod_pos_bound. lia.
Qed.

Lemma word_land a b : 0 <= a < 2 ^ 32 -> 0 <= Z.land a b < 2 ^ 32.
Proof.
  intros Ha. rewrite <- (word_land_ones a), <- Z.land_assoc, (Z.land_comm _ b), Z.land_assoc by done.
  rewrite Z.land_ones by lia. apply Z.mod_pos_bound. lia.
Qed.

Lemma entry_page p f : is_page p -> 0 <= f < 4096 -> Z.land (Z.lor p f) PAGE_MASK = p.
Proof.
  intros Hp Hf. rewrite Z.land_lor_distr_l, page_mask by done.
  rewrite (land_PAGE_MASK f) by lia. rewrite (Z.div_small f) by lia. apply Z.lor_0_r.
Qed.

Lemma entry_flags p f m : is_page p -> 0 <= m < 4096 -> Z.land (Z.lor p f) m = Z.land f m.
Proof. intros [Hp _] Hm. rewrite Z.land_lor_distr_l, (land_low p), Hp, Z.land_0_l by done. done. Qed.

Lemma is_page_mask x : 0 <= x < 2 ^ 32 -> is_page (Z.land x PAGE_MASK).
Proof.
  intros Hx. rewrite land_PAGE_MASK by done. split; [apply Z.mod_mul; lia|].
  pose proof (Z_div_mod_eq_full x 4096). pose proof (Z.mod_pos_bound x 4096). lia.
Qed.

(** The 1024 entries of the table at [p]. *)
Definition ent (m : gmap Z Z) (p i : Z) : Z := load32 m (p + 4 * i).

Lemma ent_range m p i : 0 <= ent m p i < 2 ^ 32.
Proof. apply load32_range. Qed.

(** Different pages do not overlap. *)
Lemma page_apart p q : is_page p -> is_page q -> p <> q -> p + 4096 <= q \/ q + 4096 <= p.
Proof.
  intros [Hp _] [Hq _] Hne. pose proof (Z_div_mod_eq_full p 4096). pose proof (Z_div_mod_eq_full q 4096).
  assert (p / 4096 <> q / 4096) by (intros He; rewrite He in *; lia). lia.
Qed.

Lemma ent_store m p i v q j : is_page p -> is_page q -> 0 <= i < 1024 -> 0 <= j < 1024 ->
  ent (store32 m (p + 4 * i) v) q j = if (p =? q) && (i =? j) then u32 v else ent m q j.
Proof.
  intros Hp Hq Hi Hj. unfold ent. destruct (Z.eqb_spec p q) as [<-|Hne]; simpl.
  - destruct (Z.eqb_spec i j) as [<-|]; [apply load32_store32|]. apply load32_store32_other. lia.
  - pose proof (page_apart p q Hp Hq Hne). apply load32_store32_other. lia.
Qed.

(** ** The machine *)

Record Machine := { phys : gmap Z Z; pmm : PmmState; cr3 : Z; paging : bool }.
#[export] Instance Machine_fields : Fields Machine := fun s =>
  {| phys := phys s; pmm := pmm s; cr3 := cr3 s; paging := paging s |}.

(** The walk of the two-level tables for a supervisor access; the write-protect bit
    of CR0 is clear, so the kernel may write every page that is present. *)
Definition translate (s : Machine) (va : Z) : option Z :=
  if negb (paging s) then Some va
  else
    let pde := load32 (phys s) (Z.land (cr3 s) PAGE_MASK + 4 * Z.shiftr va 22) in
    if Z.land pde PAGE_PRESENT =? 0 then None
    else
      let pte := load32 (phys s) (Z.land pde PAGE_MASK + 4 * Z.land (Z.shiftr va 12) 0x3FF) in
      if Z.land pte PAGE_PRESENT =? 0 then None
      else Some (Z.lor (Z.land pte PAGE_MASK) (Z.land va 0xFFF)).

(** Loads and stores of the kernel. *)
Definition access {A} (va : Z) (k : Z -> FST Machine A) : FST Machine A := fun s =>
  match translate s va with Some pa => k pa s | None => Fault s end.

Definition rd32 (va : Z) : FST Machine Z := access va (fun pa s => Done s (load32 (phys s) pa)).
Definition wr32 (va v : Z) : FST Machine unit :=
  access va (fun pa s => Done (s <| phys := store32 (phys s) pa v |>) tt).
Definition rd8 (va : Z) : FST Machine Z := access va (fun pa s => Done s (load8 (phys s) pa)).
Definition wr8 (va v : Z) : FST Machine unit :=
  access va (fun pa s => Done (s <| phys := store8 (phys s) pa v |>) tt).

(** The calls of the page allocator; the bitmap indexed out of range counts as a
    fault. *)
Definition alloc_page : FST Machine Z := fun s =>
  match pmm_alloc_page (pmm s) with Some (p, a) => Done (s <| pmm := p |>) a | None => Fault s end.
Definition free_page (a : Z) : FST Machine unit := fun s =>
  match pmm_free_page a (pmm s) with Some p => Done (s <| pmm := p |>) tt | None => Fault s end.
