(* ===== verification/Paging.v ===== *)
(** * Page tables (kernel/paging.c)

    Two-level page tables, built and changed through the kernel's own mapping of the
    memory they lie in.  The addresses the linker chooses are in [KernelImage]. *)
From S2P Require Import Prelude Fault Bytes Pmm Memory.

Definition USER_VADDR_MIN : Z := 0x40000000.
Definition USER_VADDR_MAX : Z := 0xBFFFFFFF.
Definition KERNEL_TEMP_MAP_VA : Z := 0x3FF00000.
Definition KERNEL_TEMP_MAP_VA2 : Z := 0x3FEFF000.

(** The three static tables, each a page of the kernel's BSS. *)
Class KernelImage := {
  page_directory : Z;
  first_page_table : Z;
  second_page_table : Z;
  kernel_end : Z
}.

Section Paging.
Context `{KernelImage}.

Definition pd_index (virt_addr : Z) : Z := Z.shiftr virt_addr 22.
Definition pt_index (virt_addr : Z) : Z := Z.land (Z.shiftr virt_addr 12) 0x3FF.

(** The test [(entry & PAGE_PRESENT) == 0 || (entry & PAGE_USER) == 0]. *)
Definition not_user (entry : Z) : bool :=
  (Z.land entry PAGE_PRESENT =? 0) || (Z.land entry PAGE_USER =? 0).

(** [for (i = 0; i < 1024; i++) table[i] = v]. *)
Definition fill_table (table v : Z) : FST Machine unit := each (fun i => wr32 (table + 4 * i) v) 0 1024.

Definition page_is_user_accessible (pd virt_addr : Z) : FST Machine bool :=
  if pd =? 0 then mret false
  else
    pde ← rd32 (pd + 4 * pd_index virt_addr);
    if not_user pde then mret false
    else pte ← rd32 (Z.land pde PAGE_MASK + 4 * pt_index virt_addr); mret (negb (not_user pte)).

Definition map_page_flags (phys_addr virt_addr flags : Z) : FST Machine unit :=
  let pde_at := page_directory + 4 * pd_index virt_addr in
  pde ← rd32 pde_at;
  page_table ←
    (if Z.land pde 0x1 =? 0 then
       new_table_phys ← alloc_page;
       fill_table new_table_phys 0 ≫= fun _ =>
       wr32 pde_at (Z.lor (Z.lor (Z.land new_table_phys PAGE_MASK) PAGE_PRESENT) PAGE_RW) ≫= fun _ =>
       mret new_table_phys
     else mret (Z.land pde PAGE_MASK));
  wr32 (page_table + 4 * pt_index virt_addr) (Z.lor (Z.land phys_addr PAGE_MASK) (Z.land flags 0xFFF)).

Definition map_page (phys_addr virt_addr : Z) : FST Machine unit :=
  map_page_flags phys_addr virt_addr (Z.lor PAGE_PRESENT PAGE_RW).

Definition unmap_kernel_page (virt_addr : Z) : FST Machine unit :=
  pde ← rd32 (page_directory + 4 * pd_index virt_addr);
  if Z.land pde PAGE_PRESENT =? 0 then mret tt
  else wr32 (Z.land pde PAGE_MASK + 4 * pt_index virt_addr) 0.

Definition create_user_page_directory : FST Machine Z :=
  new_pd ← alloc_page;
  if new_pd =? 0 then mret 0
  else
    each (fun i =>
      entry ← rd32 (page_directory + 4 * i);
      wr32 (new_pd + 4 * i)
        (if negb (Z.land entry PAGE_PRESENT =? 0) then Z.land entry (Z.lnot PAGE_USER) else 0x00000002))
      0 1024 ≫= fun _ =>
    mret new_pd.

Definition USER_ENTRY : Z := Z.lor (Z.lor PAGE_PRESENT PAGE_RW) PAGE_USER.

(** The table for an address, which is allocated when there is none; [None] is the
    return of 0 for want of memory. *)
Definition user_table (pd virt_addr : Z) : FST Machine (option Z) :=
  let pde_at := pd + 4 * pd_index virt_addr in
  pde ← rd32 pde_at;
  if Z.land pde PAGE_PRESENT =? 0 then
    new_table_phys ← alloc_page;
    if new_table_phys =? 0 then mret None
    else
      let page_table := Z.land new_table_phys PAGE_MASK in
      fill_table page_table 0 ≫= fun _ =>
      wr32 pde_at (Z.lor (Z.land new_table_phys PAGE_MASK) USER_ENTRY) ≫= fun _ =>
      mret (Some page_table)
  else mret (Some (Z.land pde PAGE_MASK)).

Definition map_user_page (pd_phys phys_addr virt_addr : Z) : FST Machine Z :=
  let pd := Z.land pd_phys PAGE_MASK in
  if pd =? 0 then mret 0
  else
    page_table ← user_table pd virt_addr;
    match page_table with
    | None => mret 0
    | Some page_table =>
        wr32 (page_table + 4 * pt_index virt_addr) (Z.lor (Z.land phys_addr PAGE_MASK) USER_ENTRY) ≫= fun _ =>
        mret 1
    end.

(** The part [unmap_user_page] and [set_user_page_writable] share: the entry of a
    mapped user page and its address, or [None] where the call returns 0. *)
Definition user_pte (pd_phys virt_addr : Z) : FST Machine (option (Z * Z)) :=
  let pd := Z.land pd_phys PAGE_MASK in
  if pd =? 0 then mret None
  else
    pde ← rd32 (pd + 4 * pd_index virt_addr);
    if not_user pde then mret None
    else
      let pte_at := Z.land pde PAGE_MASK + 4 * pt_index virt_addr in
      pte ← rd32 pte_at;
      mret (if not_user pte then None else Some (pte_at, pte)).

Definition unmap_user_page (pd_phys virt_addr : Z) : FST Machine Z :=
  e ← user_pte pd_phys virt_addr;
  match e with
  | None => mret 0
  | Some (pte_at, pte) =>
      free_page (Z.land pte PAGE_MASK) ≫= fun _ => wr32 pte_at 0 ≫= fun _ => mret 1
  end.

Definition set_user_page_writable (pd_phys virt_addr writable : Z) : FST Machine Z :=
  e ← user_pte pd_phys virt_addr;
  match e with
  | None => mret 0
  | Some (pte_at, pte) =>
      wr32 pte_at (if negb (writable =? 0) then Z.lor pte PAGE_RW else Z.land pte (Z.lnot PAGE_RW)) ≫= fun _ =>
      mret 1
  end.

Definition is_user_range (ptr size : Z) : bool :=
  if (ptr =? 0) || (size =? 0) then false
  else
    let end_ := ptr +u size -u 1 in
    if end_ <? ptr then false
    else negb ((ptr <? USER_VADDR_MIN) || (USER_VADDR_MAX <? end_)).

(** The [for] loop over the pages of the range; [n] bounds its iterations. *)
Fixpoint accessible_loop (n : nat) (pd addr end_ : Z) : FST Machine Z :=
  match n with
  | O => fun s => Fault s
  | S n' =>
      ok ← page_is_user_accessible pd addr;
      if negb ok then mret 0
      else if (end_ <=? addr) || (addr +u 4096 <? addr) then mret 1
      else accessible_loop n' pd (addr +u 4096) end_
  end.

Definition is_user_range_accessible (pd_phys ptr size : Z) : FST Machine Z :=
  let pd := Z.land pd_phys PAGE_MASK in
  if negb (is_user_range ptr size) || (pd =? 0) then mret 0
  else
    let end_ := ptr +u size -u 1 in
    accessible_loop (3 + Z.to_nat (size / 4096)) pd (Z.land ptr PAGE_MASK) end_.

Definition resolve_user_phys (pd_phys virt_addr : Z) : FST Machine Z :=
  let pd := Z.land pd_phys PAGE_MASK in
  if pd =? 0 then mret 0
  else
    pde ← rd32 (pd + 4 * pd_index virt_addr);
    if Z.land pde PAGE_PRESENT =? 0 then mret 0
    else
      pte ← rd32 (Z.land pde PAGE_MASK + 4 * pt_index virt_addr);
      if Z.land pte PAGE_PRESENT =? 0 then mret 0
      else mret (Z.lor (Z.land pte PAGE_MASK) (Z.land virt_addr 0xFFF)).

(** ** Releasing an address space *)

Definition destroy_table (pt : Z) : FST Machine unit :=
  each (fun pti =>
    pte ← rd32 (pt + 4 * pti);
    if not_user pte then mret tt
    else free_page (Z.land pte PAGE_MASK) ≫= fun _ => wr32 (pt + 4 * pti) 0) 0 1024.

Definition destroy_entry (pd pdi : Z) : FST Machine unit :=
  pde ← rd32 (pd + 4 * pdi);
  if not_user pde then mret tt
  else
    let pt := Z.land pde PAGE_MASK in
    destroy_table pt ≫= fun _ => free_page pt ≫= fun _ => wr32 (pd + 4 * pdi) 0.

(** The directory entries of the user range. *)
Definition USER_PDE_MIN : Z := Z.shiftr USER_VADDR_MIN 22.
Definition USER_PDES : nat := Z.to_nat (Z.shiftr USER_VADDR_MAX 22 - USER_PDE_MIN + 1).

Definition destroy_user_address_space (pd_phys : Z) : FST Machine unit :=
  let pd := Z.land pd_phys PAGE_MASK in
  if (pd =? 0) || (pd =? page_directory) then mret tt
  else each (destroy_entry pd) USER_PDE_MIN USER_PDES ≫= fun _ => free_page pd.

(** ** Copying an address space *)

Definition copy_frame (src_phys dst_phys : Z) : FST Machine unit :=
  map_page src_phys KERNEL_TEMP_MAP_VA ≫= fun _ =>
  map_page dst_phys KERNEL_TEMP_MAP_VA2 ≫= fun _ =>
  each (fun b => v ← rd8 (KERNEL_TEMP_MAP_VA + b); wr8 (KERNEL_TEMP_MAP_VA2 + b) v) 0 4096 ≫= fun _ =>
  unmap_kernel_page KERNEL_TEMP_MAP_VA ≫= fun _ =>
  unmap_kernel_page KERNEL_TEMP_MAP_VA2.

(** [Some tt] is the early return after a failed allocation. *)
Definition clone_pte (src_pt dst_pt pti : Z) : FST Machine (option unit) :=
  src_pte ← rd32 (src_pt + 4 * pti);
  if not_user src_pte then mret None
  else
    dst_phys ← alloc_page;
    if dst_phys =? 0 then mret (Some tt)
    else
      copy_frame (Z.land src_pte PAGE_MASK) dst_phys ≫= fun _ =>
      wr32 (dst_pt + 4 * pti) (Z.lor (Z.land dst_phys PAGE_MASK) USER_ENTRY) ≫= fun _ =>
      mret None.

Definition clone_pde (src_pd dst_pd pdi : Z) : FST Machine (option unit) :=
  src_pde ← rd32 (src_pd + 4 * pdi);
  if not_user src_pde then mret None
  else
    dst_pt_phys ← alloc_page;
    if dst_pt_phys =? 0 then mret (Some tt)
    else
      let dst_pt := Z.land dst_pt_phys PAGE_MASK in
      fill_table dst_pt 0 ≫= fun _ =>
      wr32 (dst_pd + 4 * pdi) (Z.lor (Z.land dst_pt_phys PAGE_MASK) USER_ENTRY) ≫= fun _ =>
      loop (clone_pte (Z.land src_pde PAGE_MASK) dst_pt) 0 1024.

Definition clone_user_address_space (src_pd_phys : Z) : FST Machine Z :=
  let src_pd := Z.land src_pd_phys PAGE_MASK in
  if src_pd =? 0 then mret 0
  else
    dst_pd_phys ← create_user_page_directory;
    if dst_pd_phys =? 0 then mret 0
    else
      failed ← loop (clone_pde src_pd (Z.land dst_pd_phys PAGE_MASK)) USER_PDE_MIN USER_PDES;
      match failed with
      | Some _ => destroy_user_address_space dst_pd_phys ≫= fun _ => mret 0
      | None => mret dst_pd_phys
      end.

(** ** The kernel's own mappings *)

Definition loadPageDirectory (pd : Z) : FST Machine unit := fun s => Done (s <| cr3 := pd |>) tt.
Definition enablePaging : FST Machine unit := fun s => Done (s <| paging := true |>) tt.

Definition map_vbe_buffer (physical_addr : Z) : FST Machine unit :=
  each (fun i => let addr := physical_addr +u (i * 4096) in map_page addr addr) 0 512.

Definition init_paging (vbe_framebuffer : Z) : FST Machine unit :=
  fill_table page_directory 0x00000002 ≫= fun _ =>
  each (fun i => wr32 (first_page_table + 4 * i) (Z.lor (i * 4096) 3)) 0 1024 ≫= fun _ =>
  wr32 (page_directory + 4 * 0) (Z.lor first_page_table 3) ≫= fun _ =>
  each (fun i => wr32 (second_page_table + 4 * i) (Z.lor (0x400000 + i * 4096) 3)) 0 1024 ≫= fun _ =>
  wr32 (page_directory + 4 * 1) (Z.lor second_page_table 3) ≫= fun _ =>
  loadPageDirectory page_directory ≫= fun _ =>
  enablePaging ≫= fun _ =>
  if negb (vbe_framebuffer =? 0) then map_vbe_buffer vbe_framebuffer else mret tt.

Definition map_mmio_region (phys size : Z) : FST Machine unit :=
  let pages := (size +u 4095) / 4096 in
  let pages := if 1024 <? pages then 1024 else pages in
  each (fun i => let addr := Z.land phys 0xFFFFF000 +u (i * 4096) in map_page addr addr) 0 (Z.to_nat pages).

End Paging.
