(* ===== verification/Spaces.v ===== *)
(** * Address spaces: the invariant

    Which page plays which part in the page tables, and what the words of the tables
    say about it.  [roles] names the directories, the tables and the frames of all
    user address spaces; [space_inv] ties it to memory and to the page allocator. *)
From S2P Require Import Prelude Fault Bytes Pmm Memory Paging.

(** The static tables are pages of the kernel image, which ends below the 8 MiB that
    are mapped one to one. *)
Class KernelLayout `{KernelImage} := {
  layout_pd : is_page page_directory /\ 0 < page_directory < kernel_end;
  layout_first : is_page first_page_table /\ 0 < first_page_table < kernel_end;
  layout_second : is_page second_page_table /\ 0 < second_page_table < kernel_end;
  layout_distinct : page_directory <> first_page_table /\ page_directory <> second_page_table /\
                    first_page_table <> second_page_table;
  layout_end : is_page kernel_end /\ 0x100000 <= kernel_end < 0x800000
}.

(** The top of the memory mapped one to one. *)
Definition LOW : Z := 0x800000.

(** The part a page plays: a directory; the table for entry [i] of a directory; the
    frame behind page number [v] of a directory, writable or not. *)
Inductive role := RDir | RTab (d i : Z) | RFrame (d v : Z) (w : bool).
#[export] Instance role_eq : EqDecision role.
Proof. solve_decision. Defined.

Abbreviation roles := (gmap Z role).

(** What an entry says. *)
Definition absent (e : Z) : Prop := Z.land e 1 = 0.
Definition kernel_entry (e p : Z) : Prop := Z.land e PAGE_MASK = p /\ Z.land e 1 = 1.
Definition user_entry (e p : Z) (w : bool) : Prop :=
  Z.land e PAGE_MASK = p /\ Z.land e 7 = if w then 7 else 5.

(** The directory entries of the user range. *)
Definition user_pde (i : Z) : Prop := 256 <= i < 768.
Definition WINDOW : Z := 255.

Section Inv.
Context `{KL : KernelLayout}.
Implicit Types (R : roles) (s : Machine) (m : gmap Z Z).

(** The directory [d] maps the lower 8 MiB one to one and the rest of the memory the
    page allocator manages not at all. *)
Definition maps_low m (d : Z) : Prop :=
  kernel_entry (ent m d 0) first_page_table /\ kernel_entry (ent m d 1) second_page_table /\
  forall i, 2 <= i < 8 -> absent (ent m d i).

Lemma maps_low_ext m m' d d' : (forall i, 0 <= i < 8 -> ent m' d' i = ent m d i) ->
  maps_low m d -> maps_low m' d'.
Proof.
  intros He (H0 & H1 & Hr). unfold maps_low. rewrite !He by lia. split_and!; [done..|].
  intros i Hi. rewrite He by lia. auto.
Qed.

Definition identity m : Prop :=
  forall i, 0 <= i < 1024 -> kernel_entry (ent m first_page_table i) (i * 4096) /\
                       kernel_entry (ent m second_page_table i) (0x400000 + i * 4096).

Definition low_ok s : Prop :=
  paging s = true /\ is_page (cr3 s) /\ maps_low (phys s) (cr3 s) /\ identity (phys s).

(** A page handed out by the allocator. *)
Definition taken s (p : Z) : Prop :=
  is_page p /\ kernel_end <= p < MEMORY_MAX /\ page_used (pmm s) (p / PAGE_SIZE) = true.

(** The page of the temporary mappings of the kernel. *)
Definition window m : Z := Z.land (ent m page_directory WINDOW) PAGE_MASK.

Definition window_of m (d : Z) : Prop :=
  absent (ent m d WINDOW) \/ (kernel_entry (ent m d WINDOW) (window m) /\
                              kernel_entry (ent m page_directory WINDOW) (window m)).

(** The entries of a user directory outside the user range: not for user mode, and the
    window as the kernel has it, once there is one. *)
Definition kernel_half m (d : Z) : Prop :=
  window_of m d /\ forall i, 0 <= i < 1024 -> ~ user_pde i -> not_user (ent m d i) = true.

Lemma kernel_half_ext m m' d : (forall i, 0 <= i < 1024 -> ~ user_pde i -> ent m' d i = ent m d i) ->
  ent m' page_directory WINDOW = ent m page_directory WINDOW -> kernel_half m d -> kernel_half m' d.
Proof.
  intros He Hk [Hw Hn]. split.
  - unfold window_of, window in *. rewrite Hk, He; [done|unfold WINDOW; lia|unfold user_pde, WINDOW; lia].
  - intros i Hi Hu. rewrite He; auto.
Qed.

(** What the tables say of the page [p] that plays the part [r]. *)
Definition role_ok R m (p : Z) (r : role) : Prop :=
  match r with
  | RDir =>
      p < LOW /\ maps_low m p /\ kernel_half m p /\
      forall i, user_pde i -> absent (ent m p i) \/
        exists t, user_entry (ent m p i) t true /\ R !! t = Some (RTab p i)
  | RTab d i =>
      p < LOW /\ user_pde i /\ R !! d = Some RDir /\ user_entry (ent m d i) p true /\
      forall j, 0 <= j < 1024 -> absent (ent m p j) \/
        exists f w, user_entry (ent m p j) f w /\ R !! f = Some (RFrame d (1024 * i + j) w)
  | RFrame d v w =>
      exists t, R !! t = Some (RTab d (v / 1024)) /\ user_entry (ent m t (v mod 1024)) p w
  end.

Record space_inv R s : Prop := {
  si_paging : paging s = true;
  si_cr3 : cr3 s = page_directory \/ R !! cr3 s = Some RDir;
  si_pmm : pmm_wf (pmm s);
  si_kernel : forall q, 0 <= q < kernel_end / PAGE_SIZE -> page_used (pmm s) q = true;
  si_kpd : maps_low (phys s) page_directory;
  si_kpd_user : forall i, user_pde i -> absent (ent (phys s) page_directory i);
  si_identity : identity (phys s);
  si_window : (absent (ent (phys s) page_directory WINDOW) /\ window (phys s) = 0) \/
    (kernel_entry (ent (phys s) page_directory WINDOW) (window (phys s)) /\
     (window (phys s) = 0 \/
      taken s (window (phys s)) /\ window (phys s) < LOW /\ R !! window (phys s) = None));
  si_taken : forall p r, R !! p = Some r -> taken s p;
  si_roles : forall p r, R !! p = Some r -> role_ok R (phys s) p r
}.

(** ** Entries *)

Lemma absent_user e p w : user_entry e p w -> ~ absent e.
Proof.
  intros [_ He] Ha. unfold absent in Ha.
  assert (Z.land e 1 = Z.land (Z.land e 7) 1) as Hr by (by rewrite <- Z.land_assoc).
  rewrite Ha, He in Hr. by destruct w.
Qed.

Lemma land_via_7 e b : Z.land 7 b = b -> Z.land e b = Z.land (Z.land e 7) b.
Proof. intros Hm. by rewrite <- Z.land_assoc, Hm. Qed.

(** The tests the code does on an entry. *)
Lemma absent_test e : (Z.land e PAGE_PRESENT =? 0) = bool_decide (absent e).
Proof. unfold absent. change PAGE_PRESENT with 1. by destruct (Z.eqb_spec (Z.land e 1) 0); case_bool_decide. Qed.

Lemma not_user_absent e : absent e -> not_user e = true.
Proof. unfold absent, not_user. intros He. change PAGE_PRESENT with 1. by rewrite He. Qed.

Lemma not_user_entry e p w : user_entry e p w -> not_user e = false.
Proof.
  intros [_ He]. unfold not_user. rewrite (land_via_7 e PAGE_PRESENT), (land_via_7 e PAGE_USER), He by done.
  by destruct w.
Qed.

Lemma kernel_not_absent e p : kernel_entry e p -> ~ absent e.
Proof. unfold kernel_entry, absent. lia. Qed.

Lemma user_entry_fun e p w p' w' : user_entry e p w -> user_entry e p' w' -> p = p' /\ w = w'.
Proof. intros [H1 H2] [H3 H4]. split; [congruence|]. rewrite H2 in H4. by destruct w, w'. Qed.

Lemma user_entry_built (p : Z) (w : bool) (f : Z) : is_page p -> f = (if w then 7 else 5) -> user_entry (u32 (Z.lor p f)) p w.
Proof.
  intros Hp ->. assert (0 <= (if w then 7 else 5) < 4096) by (destruct w; lia).
  rewrite u32_small by (by apply entry_range). split; [by apply entry_page|].
  rewrite entry_flags by (done || lia). by destruct w.
Qed.

Lemma kernel_entry_built (p f : Z) : is_page p -> 0 <= f < 4096 -> Z.land f 1 = 1 -> kernel_entry (u32 (Z.lor p f)) p.
Proof.
  intros Hp Hf Hb. rewrite u32_small by (by apply entry_range). split; [by apply entry_page|].
  by rewrite entry_flags.
Qed.

(** The permission bit set and cleared. *)
Lemma user_entry_rw e p w : 0 <= e < 2 ^ 32 -> user_entry e p w ->
  user_entry (Z.lor e PAGE_RW) p true /\ 0 <= Z.lor e PAGE_RW < 2 ^ 32.
Proof.
  intros Hr [Hp Hf]. split; [split|by apply word_lor].
  - by rewrite Z.land_lor_distr_l, Hp, Z.lor_0_r.
  - rewrite Z.land_lor_distr_l, Hf. by destruct w.
Qed.

Lemma user_entry_ro e p w : 0 <= e < 2 ^ 32 -> user_entry e p w ->
  user_entry (Z.land e (Z.lnot PAGE_RW)) p false /\ 0 <= Z.land e (Z.lnot PAGE_RW) < 2 ^ 32.
Proof.
  intros Hr [Hp Hf]. split; [split|by apply word_land].
  - by rewrite <- Z.land_assoc.
  - rewrite <- Z.land_assoc. change (Z.land (Z.lnot PAGE_RW) 7) with 5.
    rewrite (land_via_7 e 5), Hf by done. by destruct w.
Qed.

(** ** Memory mapped one to one *)

Lemma translate_step s va :
  paging s = true -> is_page (cr3 s) -> 0 <= va < 2 ^ 32 ->
  translate s va =
  (let pde := ent (phys s) (cr3 s) (va / 4194304) in
   if Z.land pde PAGE_PRESENT =? 0 then None
   else let pte := ent (phys s) (Z.land pde PAGE_MASK) (va / 4096 mod 1024) in
     if Z.land pte PAGE_PRESENT =? 0 then None
     else Some (Z.land pte PAGE_MASK + va mod 4096)).
Proof.
  intros Hp Hc Hva. unfold translate. rewrite Hp. simpl negb. cbv iota zeta.
  rewrite page_mask by done. rewrite !Z.shiftr_div_pow2 by lia.
  change 0x3FF with (Z.ones 10). rewrite Z.land_ones by lia.
  change 0xFFF with (Z.ones 12). rewrite Z.land_ones by lia.
  change (2 ^ 22) with 4194304. change (2 ^ 12) with 4096. change (2 ^ 10) with 1024.
  fold (ent (phys s) (cr3 s) (va / 4194304)).
  set (pde := ent (phys s) (cr3 s) _).
  fold (ent (phys s) (Z.land pde PAGE_MASK) (va / 4096 mod 1024)).
  set (pte := ent (phys s) (Z.land pde PAGE_MASK) _).
  destruct (Z.land pde PAGE_PRESENT =? 0), (Z.land pte PAGE_PRESENT =? 0); try done.
  f_equal. apply entry_eq; [apply is_page_mask, ent_range|apply Z.mod_pos_bound; lia].
Qed.

Lemma translate_low s a : low_ok s -> 0 <= a < LOW -> translate s a = Some a.
Proof.
  intros (Hp & Hc & (Hlo & Hhi & _) & Hid) Ha. unfold LOW in Ha. rewrite translate_step by (done || lia).
  assert (0 <= a / 4096 mod 1024 < 1024) as Hj by (apply Z.mod_pos_bound; lia).
  destruct (Hid _ Hj) as [[Hf Hf1] [Hs Hs1]].
  pose proof (Z_div_mod_eq_full a 4096). pose proof (Z_div_mod_eq_full (a / 4096) 1024).
  assert (a / 4194304 = a / 4096 / 1024) as He by (rewrite Z.div_div; done || lia).
  cbv zeta. change PAGE_PRESENT with 1. destruct (Z.ltb_spec a 0x400000).
  - assert (a / 4194304 = 0) as E by (apply Z.div_small; lia). rewrite E.
    destruct Hlo as [-> ->]. simpl. rewrite Hf, Hf1. simpl. f_equal. lia.
  - assert (a / 4194304 = 1) as E by (symmetry; apply (Z.div_unique a 4194304 1 (a - 4194304)); lia).
    rewrite E. destruct Hhi as [-> ->]. simpl. rewrite Hs, Hs1. simpl. f_equal. lia.
Qed.

Lemma translate_high s a : low_ok s -> LOW <= a < MEMORY_MAX -> translate s a = None.
Proof.
  intros (Hp & Hc & (_ & _ & Hr) & _) Ha. unfold LOW, MEMORY_MAX in Ha. rewrite translate_step by (done || lia).
  assert (2 <= a / 4194304 < 8).
  { split; [apply Z.div_le_lower_bound; lia|apply Z.div_lt_upper_bound; lia]. }
  cbv zeta. change PAGE_PRESENT with 1. by rewrite Hr.
Qed.

Definition set_phys m s : Machine := s <| phys := m |>.

Lemma rd32_low s a : low_ok s -> 0 <= a < LOW -> rd32 a s = Done s (load32 (phys s) a).
Proof. intros Hl Ha. unfold rd32, access. by rewrite translate_low. Qed.

Lemma wr32_low s a v : low_ok s -> 0 <= a < LOW ->
  wr32 a v s = Done (set_phys (store32 (phys s) a v) s) tt.
Proof. intros Hl Ha. unfold wr32, access. by rewrite translate_low. Qed.

(** ** Pages the tables lie in *)

Definition structural R (p : Z) : Prop :=
  p = page_directory \/ p = first_page_table \/ p = second_page_table \/
  R !! p = Some RDir \/ exists d i, R !! p = Some (RTab d i).

Lemma page_below p q : is_page p -> is_page q -> p < q -> p + 4096 <= q.
Proof. intros Hp Hq Hlt. destruct (page_apart p q Hp Hq); lia. Qed.

Lemma LOW_page : is_page LOW.
Proof. split; [done|]. unfold LOW. lia. Qed.

Lemma structural_page R s p : space_inv R s -> structural R p -> is_page p /\ 0 < p /\ p + 4096 <= LOW.
Proof.
  intros HI Hp. pose proof LOW_page as HL. destruct layout_end as [He He'].
  assert (is_page p /\ 0 < p < LOW) as (Hpg & Hp0 & Hlt).
  { unfold LOW. destruct Hp as [->|[->|[->|Hp]]].
    - destruct layout_pd. split; [done|lia].
    - destruct layout_first. split; [done|lia].
    - destruct layout_second. split; [done|lia].
    - destruct Hp as [Hr|(d & i & Hr)]; pose proof (si_taken _ _ HI _ _ Hr) as (? & ? & _);
        apply (si_roles _ _ HI) in Hr as [Hlt _]; unfold LOW in *; split; try done; lia. }
  split_and!; [done..|]. by apply page_below.
Qed.

Lemma inv_low R s : space_inv R s -> low_ok s.
Proof.
  intros HI. split_and!; [apply HI| | |apply HI].
  - destruct (si_cr3 _ _ HI) as [->|Hc]; [apply layout_pd|]. by apply (si_taken _ _ HI) in Hc as [? _].
  - destruct (si_cr3 _ _ HI) as [->|Hc]; [apply HI|]. apply (si_roles _ _ HI _ _ Hc).
Qed.

(** Reading and writing an entry of a table in low memory. *)
Lemma rd32_ent s p i : low_ok s -> 0 <= p -> p + 4096 <= LOW -> 0 <= i < 1024 ->
  rd32 (p + 4 * i) s = Done s (ent (phys s) p i).
Proof. intros. apply rd32_low; [done|lia]. Qed.

Lemma wr32_ent s p i v : low_ok s -> 0 <= p -> p + 4096 <= LOW -> 0 <= i < 1024 ->
  wr32 (p + 4 * i) v s = Done (set_phys (store32 (phys s) (p + 4 * i) v) s) tt.
Proof. intros. apply wr32_low; [done|lia]. Qed.

Lemma rd32_struct R s p i : space_inv R s -> structural R p -> 0 <= i < 1024 ->
  rd32 (p + 4 * i) s = Done s (ent (phys s) p i).
Proof. intros HI Hp Hi. destruct (structural_page R s p HI Hp) as (_ & ? & ?). apply rd32_ent; [by eapply inv_low|lia..]. Qed.

Lemma wr32_struct R s p i v : space_inv R s -> structural R p -> 0 <= i < 1024 ->
  wr32 (p + 4 * i) v s = Done (set_phys (store32 (phys s) (p + 4 * i) v) s) tt.
Proof. intros HI Hp Hi. destruct (structural_page R s p HI Hp) as (_ & ? & ?). apply wr32_ent; [by eapply inv_low|lia..]. Qed.

(** The invariant depends on the words of these pages only. *)
Definition same_tables R m m' : Prop :=
  forall p i, structural R p -> 0 <= i < 1024 -> ent m' p i = ent m p i.

Lemma structural_dir R d : R !! d = Some RDir -> structural R d.
Proof. unfold structural. auto. Qed.
Lemma structural_tab R t d i : R !! t = Some (RTab d i) -> structural R t.
Proof. unfold structural. intros. do 4 right. eauto. Qed.
Lemma structural_kpd R : structural R page_directory.
Proof. by left. Qed.

Lemma role_ok_ext R m m' p r : same_tables R m m' -> R !! p = Some r -> role_ok R m p r -> role_ok R m' p r.
Proof.
  intros Hm Hr. pose proof (structural_kpd R) as Hk. destruct r as [|d i|d v w]; simpl.
  - pose proof (structural_dir R p Hr) as Hp. intros (Hlow & Hlo & Hw & Hs). split; [done|].
    split; [by apply (maps_low_ext m m' p p); [intros; apply Hm; [done|lia]|]|].
    split; [by apply (kernel_half_ext m); [intros; apply Hm|apply Hm; [done|unfold WINDOW; lia]|]|].
    intros i Hi. rewrite Hm by (done || (unfold user_pde in *; lia)). auto.
  - pose proof (structural_tab R p d i Hr) as Hp. intros (Hlow & Hi & Hd & He & Hs).
    pose proof (structural_dir R d Hd) as Hd'. split_and!; [done..| |].
    + rewrite Hm by (done || (unfold user_pde in *; lia)). done.
    + intros j Hj. rewrite Hm by done. auto.
  - intros (t & Ht & He). exists t. split; [done|]. pose proof (structural_tab R t d _ Ht) as Ht'.
    rewrite Hm by (done || (apply Z.mod_pos_bound; lia)). done.
Qed.

Lemma inv_memory R s m' : space_inv R s -> same_tables R (phys s) m' -> space_inv R (set_phys m' s).
Proof.
  intros HI Hm. assert (structural R page_directory) as Hk by (by left).
  constructor; simpl; try apply HI.
  - eapply maps_low_ext; [|apply HI]. intros; apply Hm; [done|lia].
  - intros i Hi. rewrite Hm by (done || (unfold user_pde in Hi; lia)). by apply (si_kpd_user _ _ HI).
  - intros i Hi. rewrite !Hm by (unfold structural; auto 6). by apply (si_identity _ _ HI).
  - unfold window, WINDOW. rewrite !Hm by (done || lia). apply (si_window _ _ HI).
  - intros p r Hp. eapply role_ok_ext; [done..|]. by apply (si_roles _ _ HI).
Qed.

(** ** Changing one entry *)

(** A directory entry names one table, so a frame has one entry. *)
Lemma table_unique R s t t' d i : space_inv R s ->
  R !! t = Some (RTab d i) -> R !! t' = Some (RTab d i) -> t = t'.
Proof.
  intros HI (_ & _ & _ & He & _)%(si_roles _ _ HI) (_ & _ & _ & He' & _)%(si_roles _ _ HI).
  by destruct (user_entry_fun _ _ _ _ _ He He').
Qed.

Lemma vpn_parts i j : 0 <= j < 1024 -> (1024 * i + j) / 1024 = i /\ (1024 * i + j) mod 1024 = j.
Proof.
  intros Hj. split.
  - symmetry. apply (Z.div_unique _ _ _ j); lia.
  - symmetry. apply (Z.mod_unique _ _ i); lia.
Qed.

Lemma frame_entry R s t d i j f w : space_inv R s -> R !! t = Some (RTab d i) -> 0 <= j < 1024 ->
  R !! f = Some (RFrame d (1024 * i + j) w) -> user_entry (ent (phys s) t j) f w.
Proof.
  intros HI Ht Hj Hf. pose proof (si_roles _ _ HI _ _ Hf) as (t' & Ht' & He).
  destruct (vpn_parts i j Hj) as [E1 E2]. rewrite E1 in Ht'. rewrite E2 in He.
  by rewrite (table_unique R s t t' d i).
Qed.

(** Entry [j] of the table [t] becomes [e], and with it what page number
    [1024 * i + j] of [d] stands for. *)
Section FrameSlot.
Context R R' s t d i j e (HI : space_inv R s) (Ht : R !! t = Some (RTab d i)) (Hj : 0 <= j < 1024) (Hu : 0 <= e < 2 ^ 32).
Context (Hnew : forall q r, R' !! q = Some r ->
  (R !! q = Some r /\ forall w, r <> RFrame d (1024 * i + j) w) \/
  (exists w, r = RFrame d (1024 * i + j) w /\ user_entry e q w)).
Context (Hold : forall q r, R !! q = Some r -> R' !! q = Some r \/ exists w, r = RFrame d (1024 * i + j) w).
Context (Hslot : absent e \/ exists f w, user_entry e f w /\ R' !! f = Some (RFrame d (1024 * i + j) w)).

#[local] Abbreviation m' := (store32 (phys s) (t + 4 * j) e).

Lemma frame_slot_dir q : R !! q = Some RDir -> R' !! q = Some RDir.
Proof. intros Hq. by destruct (Hold _ _ Hq) as [?|[? ?]]. Qed.
Lemma frame_slot_tab q d' i' : R !! q = Some (RTab d' i') -> R' !! q = Some (RTab d' i').
Proof. intros Hq. by destruct (Hold _ _ Hq) as [?|[? ?]]. Qed.

Lemma frame_slot_ent q k : structural R q -> 0 <= k < 1024 ->
  ent m' q k = if (t =? q) && (j =? k) then e else ent (phys s) q k.
Proof.
  intros Hq Hk. rewrite ent_store, u32_small; [done|done| | |done|done].
  - by apply (structural_page R s t HI (structural_tab R t d i Ht)).
  - by apply (structural_page R s q HI Hq).
Qed.

Lemma frame_slot_same q k : structural R q -> 0 <= k < 1024 -> q <> t -> ent m' q k = ent (phys s) q k.
Proof. intros Hq Hk Hne. rewrite frame_slot_ent by done. by destruct (Z.eqb_spec t q). Qed.

Lemma tab_not_kpd : page_directory <> t.
Proof.
  intros <-. pose proof (si_taken _ _ HI _ _ Ht) as (_ & Hk & _). destruct layout_pd. lia.
Qed.

Lemma frame_slot_roles q r : R' !! q = Some r -> role_ok R' m' q r.
Proof.
  intros Hq. destruct (Hnew _ _ Hq) as [[Hr Hne]|(w & -> & He)].
  2: { exists t. destruct (vpn_parts i j Hj) as [-> ->]. split; [by apply frame_slot_tab|].
       rewrite frame_slot_ent by (done || by eapply structural_tab). by rewrite !Z.eqb_refl. }
  pose proof (si_roles _ _ HI _ _ Hr) as Hok. destruct r as [|d' i'|d' v w]; simpl in *.
  - assert (q <> t) by congruence. pose proof (structural_dir _ _ Hr) as Hs.
    pose proof (structural_kpd R) as Hk. pose proof tab_not_kpd.
    destruct Hok as (Hl & Hlo & Hw & Hsl). split_and!; [done| | |].
    { eapply maps_low_ext; [|exact Hlo]. intros. apply frame_slot_same; done || lia. }
    { eapply kernel_half_ext; [intros| |exact Hw]; apply frame_slot_same; done || (unfold WINDOW; lia). }
    intros k Hk'. rewrite frame_slot_same by (done || (unfold user_pde in *; lia)).
    destruct (Hsl k Hk') as [?|(t' & ? & ?)]; [by left|right]. exists t'. split; [done|by apply frame_slot_tab].
  - destruct Hok as (Hl & Hi & Hd & He & Hsl). split_and!; [done|done|by apply frame_slot_dir| |].
    + rewrite frame_slot_same; [done|by apply structural_dir|unfold user_pde in *; lia|congruence].
    + intros k Hk. rewrite frame_slot_ent by (done || by eapply structural_tab).
      destruct (Z.eqb_spec t q) as [<-|Htq]; simpl.
      * assert (d' = d /\ i' = i) as [-> ->] by (rewrite Ht in Hr; by simplify_eq).
        destruct (Z.eqb_spec j k) as [<-|Hjk]; [done|].
        destruct (Hsl k Hk) as [?|(f & w & Hf & HR)]; [by left|right]. exists f, w. split; [done|].
        destruct (Hold _ _ HR) as [?|[? [= ?]]]; [done|lia].
      * destruct (Hsl k Hk) as [?|(f & w & Hf & HR)]; [by left|right]. exists f, w. split; [done|].
        destruct (Hold _ _ HR) as [?|[? [= ? Hv ?]]]; [done|]. exfalso. subst d'.
        destruct (vpn_parts i' k Hk) as [E1 _], (vpn_parts i j Hj) as [E2 _].
        rewrite Hv in E1. assert (i' = i) as Ei by congruence. rewrite Ei in Hr. apply Htq. exact (table_unique R s t q d i HI Ht Hr).
  - destruct Hok as (t' & Ht' & He). exists t'. split; [by apply frame_slot_tab|].
    rewrite frame_slot_ent; [|by eapply structural_tab|apply Z.mod_pos_bound; lia].
    destruct (Z.eqb_spec t t') as [<-|]; [simpl|done]. destruct (Z.eqb_spec j (v mod 1024)); [|done].
    exfalso. rewrite Ht in Ht'. injection Ht' as <- Hi. apply (Hne w). f_equal.
    pose proof (Z_div_mod_eq_full v 1024). lia.
Qed.
End FrameSlot.

(** Entry [i] of the directory [d] becomes [e], and with it the table for that part of
    the address space. *)
Section TableSlot.
Context R R' s d i e (HI : space_inv R s) (Hd : R !! d = Some RDir) (Hi : user_pde i) (Hu : 0 <= e < 2 ^ 32).
Context (Hnew : forall q r, R' !! q = Some r ->
  (R !! q = Some r /\ r <> RTab d i) \/
  (r = RTab d i /\ user_entry e q true /\ is_page q /\ q < LOW /\ q <> d /\
   forall j, 0 <= j < 1024 -> absent (ent (phys s) q j))).
Context (Hold : forall q r, R !! q = Some r -> R' !! q = Some r \/ r = RTab d i).
Context (Hslot : absent e \/ exists t, user_entry e t true /\ R' !! t = Some (RTab d i)).
Context (Hno : forall q v w, R !! q = Some (RFrame d v w) -> v / 1024 <> i).

#[local] Abbreviation m' := (store32 (phys s) (d + 4 * i) e).

Lemma table_slot_ent q k : is_page q -> 0 <= k < 1024 ->
  ent m' q k = if (d =? q) && (i =? k) then e else ent (phys s) q k.
Proof.
  intros Hq Hk. unfold user_pde in Hi. rewrite ent_store, u32_small; [done|done| |done|lia|done].
  apply (structural_page R s d HI (structural_dir R d Hd)).
Qed.

Lemma table_slot_dir q : R !! q = Some RDir -> R' !! q = Some RDir.
Proof. intros Hq. by destruct (Hold _ _ Hq). Qed.

Lemma dir_not_kpd : page_directory <> d.
Proof. intros <-. pose proof (si_taken _ _ HI _ _ Hd) as (_ & Hk & _). destruct layout_pd. lia. Qed.

Lemma table_slot_roles q r : R' !! q = Some r -> role_ok R' m' q r.
Proof.
  intros Hq. pose proof dir_not_kpd. destruct (Hnew _ _ Hq) as [[Hr Hne]|(-> & He & Hpg & Hl & Hqd & Ha)].
  2: { split_and!; [done|done|by apply table_slot_dir| |].
       - rewrite table_slot_ent, !Z.eqb_refl; [done| |unfold user_pde in Hi; lia].
         by apply (structural_page R s d HI (structural_dir R d Hd)).
       - intros j Hj. rewrite table_slot_ent by done. destruct (Z.eqb_spec d q); [done|]. left. by apply Ha. }
  pose proof (si_roles _ _ HI _ _ Hr) as Hok. pose proof (si_taken _ _ HI _ _ Hr) as (Hpq & _ & _).
  destruct r as [|d' i'|d' v w]; simpl in *.
  - destruct Hok as (Hl & Hlo & Hw & Hsl).
    assert (forall p k, is_page p -> 0 <= k < 1024 -> ~ user_pde k -> ent m' p k = ent (phys s) p k) as Hsame.
    { intros p k Hp Hk Hnu. rewrite table_slot_ent by done.
      destruct (Z.eqb_spec i k) as [<-|]; [done|]. by rewrite andb_false_r. }
    split_and!; [done| | |].
    { eapply maps_low_ext; [|exact Hlo]. intros. apply Hsame; done || (unfold user_pde; lia). }
    { eapply kernel_half_ext; [intros; by apply Hsame| |exact Hw].
      apply Hsame; [apply layout_pd|unfold WINDOW; lia|unfold user_pde, WINDOW; lia]. }
    intros k Hk. rewrite table_slot_ent by (done || (unfold user_pde in Hk; lia)).
    destruct (Z.eqb_spec d q) as [<-|Hdq]; simpl.
    + destruct (Z.eqb_spec i k) as [<-|]; [done|]. destruct (Hsl k Hk) as [?|(t & ? & HR)]; [by left|right].
      exists t. split; [done|]. destruct (Hold _ _ HR) as [?|[= ?]]; [done|lia].
    + destruct (Hsl k Hk) as [?|(t & ? & HR)]; [by left|right].
      exists t. split; [done|]. destruct (Hold _ _ HR) as [?|[= ? ?]]; [done|congruence].
  - destruct Hok as (Hl & Hi' & Hd' & He & Hsl). split_and!; [done|done|by apply table_slot_dir| |].
    + rewrite table_slot_ent by (apply (si_taken _ _ HI _ _ Hd') || (unfold user_pde in Hi'; lia)).
      destruct (Z.eqb_spec d d') as [<-|], (Z.eqb_spec i i') as [<-|]; done.
    + intros k Hk. rewrite table_slot_ent by done. destruct (Z.eqb_spec d q) as [<-|]; [congruence|simpl].
      destruct (Hsl k Hk) as [?|(f & w & Hf & HR)]; [by left|right]. exists f, w. split; [done|].
      by destruct (Hold _ _ HR).
  - destruct Hok as (t & Ht & He). exists t. destruct (Hold _ _ Ht) as [Ht'|[= -> Hv]].
    2: { exfalso. by apply (Hno q v w). }
    split; [done|]. rewrite table_slot_ent; [|apply (si_taken _ _ HI _ _ Ht)|apply Z.mod_pos_bound; lia].
    destruct (Z.eqb_spec d t) as [<-|]; [congruence|done].
Qed.
End TableSlot.

(** ** Putting the invariant back together *)

Lemma role_ok_mono R R' m p r : R ⊆ R' -> role_ok R m p r -> role_ok R' m p r.
Proof.
  intros HR. destruct r as [|d i|d v w]; simpl.
  - intros (Hl & Hlo & Hw & Hsl). split_and!; [done..|]. intros i Hi.
    destruct (Hsl i Hi) as [?|(t & ? & ?)]; [by left|right]. eauto using lookup_weaken.
  - intros (Hl & Hi & Hd & He & Hsl). split_and!; [done|done|by eapply lookup_weaken|done|].
    intros j Hj. destruct (Hsl j Hj) as [?|(f & w & ? & ?)]; [by left|right]. eauto 6 using lookup_weaken.
  - intros (t & ? & ?). eauto using lookup_weaken.
Qed.

Definition with_pmm p s : Machine := s <| pmm := p |>.

(** The parts of the invariant that do not speak of the roles: memory may change
    outside the static tables, and pages may be freed that no role needs. *)
Lemma inv_intro R R' s m' p' : space_inv R s -> pmm_wf p' ->
  (forall q, 0 <= q < kernel_end / PAGE_SIZE -> page_used p' q = true) ->
  (forall i, 0 <= i < 1024 -> ent m' page_directory i = ent (phys s) page_directory i /\
     ent m' first_page_table i = ent (phys s) first_page_table i /\
     ent m' second_page_table i = ent (phys s) second_page_table i) ->
  (cr3 s = page_directory \/ R' !! cr3 s = Some RDir) ->
  (taken s (window (phys s)) -> R !! window (phys s) = None ->
     page_used p' (window (phys s) / PAGE_SIZE) = true /\ R' !! window (phys s) = None) ->
  (forall q r, R' !! q = Some r -> is_page q /\ kernel_end <= q < MEMORY_MAX /\ page_used p' (q / PAGE_SIZE) = true) ->
  (forall q r, R' !! q = Some r -> role_ok R' m' q r) ->
  space_inv R' (set_phys m' (with_pmm p' s)).
Proof.
  intros HI Hwf Hk Hm Hc Hw Ht Hr. constructor; simpl; try done; [apply HI| | | |].
  - eapply maps_low_ext; [|apply HI]. intros i Hi. apply Hm. lia.
  - intros i Hi. destruct (Hm i) as [-> _]; [unfold user_pde in Hi; lia|]. by apply (si_kpd_user _ _ HI).
  - intros i Hi. destruct (Hm i Hi) as (_ & -> & ->). by apply (si_identity _ _ HI).
  - unfold window, WINDOW. destruct (Hm 255) as [-> _]; [lia|].
    destruct (si_window _ _ HI) as [[He Hz]|[He Hcase]];
      [left; unfold window, WINDOW in *; done|right].
    unfold window, WINDOW in He, Hcase, Hw. split; [done|].
    destruct Hcase as [?|(Hta & Hl & Hn)]; [by left|right]. destruct (Hw Hta Hn) as [? ?].
    destruct Hta as (? & ? & ?). split_and!; try done; lia.
Qed.

End Inv.
