(* ===== verification/SpaceOps.v ===== *)
(** * Address spaces: single operations

    What each call of kernel/paging.c does to the roles, the contents of frames and
    the pages in use.  A call faults only when the allocator has run out of the low
    memory the kernel can reach its tables in. *)
From S2P Require Import Prelude Fault Bytes Pmm Memory Paging Spaces.

Section Ops.
Context `{KL : KernelLayout}.
Implicit Types (R : roles) (s : Machine) (m : gmap Z Z).

(** Every page of the low memory is in use. *)
Definition low_full s : Prop := forall q, 0 <= q < LOW / PAGE_SIZE -> page_used (pmm s) q = true.

(** Every page that may be allocated is in use. *)
Definition all_used s : Prop := forall q, 0 <= q < 8192 -> page_used (pmm s) q = true.

(** The bytes outside the page [p] are the same. *)
Definition outside (p : Z) m m' : Prop := forall b, ~ (p <= b < p + 4096) -> load8 m' b = load8 m b.

Lemma outside_refl p m : outside p m m.
Proof. done. Qed.
Lemma outside_trans p m m' m'' : outside p m m' -> outside p m' m'' -> outside p m m''.
Proof. intros H1 H2 b Hb. by rewrite H2, H1. Qed.

Lemma outside_store32 p i m v : 0 <= i < 1024 -> outside p m (store32 m (p + 4 * i) v).
Proof. intros Hi b Hb. apply load8_store32_other. lia. Qed.

Lemma outside_ent p m m' q i : outside p m m' -> is_page p -> is_page q -> q <> p -> 0 <= i < 1024 ->
  ent m' q i = ent m q i.
Proof.
  intros Ho Hp Hq Hne Hi. pose proof (page_apart q p Hq Hp Hne).
  apply load32_ext. intros b Hb. apply Ho. lia.
Qed.

(** A page fresh from the allocator. *)
Definition fresh R s (p : Z) : Prop := taken s p /\ R !! p = None /\ p <> window (phys s).

Lemma fresh_not_structural R s p q : fresh R s p -> structural R q -> q <> p.
Proof.
  intros ((_ & Hp & _) & Hn & _) Hq ->. destruct Hq as [Hq|[Hq|[Hq|[Hq|(d & i & Hq)]]]]; try congruence.
  - destruct layout_pd. lia.
  - destruct layout_first. lia.
  - destruct layout_second. lia.
Qed.

Lemma fresh_same R s p m' : space_inv R s -> fresh R s p -> outside p (phys s) m' -> same_tables R (phys s) m'.
Proof.
  intros HI Hf Ho q i Hq Hi. eapply outside_ent; [done|apply Hf| | |done].
  - by apply (structural_page R s q HI Hq).
  - by apply (fresh_not_structural R s p q).
Qed.

Lemma window_same R s m' : same_tables R (phys s) m' -> window m' = window (phys s).
Proof. intros Hm. unfold window, WINDOW. rewrite Hm; [done|apply structural_kpd|lia]. Qed.

(** ** Allocation *)

Definition adds s s' (p : Z) : Prop :=
  forall q, 0 <= q -> page_used (pmm s') q = if p / PAGE_SIZE =? q then true else page_used (pmm s) q.
Definition frees s s' (p : Z) : Prop :=
  forall q, 0 <= q -> page_used (pmm s') q = if p / PAGE_SIZE =? q then false else page_used (pmm s) q.
Definition same_used s s' : Prop := forall q, 0 <= q -> page_used (pmm s') q = page_used (pmm s) q.

Lemma page_number p : is_page p -> p = p / PAGE_SIZE * PAGE_SIZE.
Proof. intros [Hp _]. unfold PAGE_SIZE. pose proof (Z_div_mod_eq_full p 4096). lia. Qed.

Lemma page_number_inj p q : is_page p -> is_page q -> p / PAGE_SIZE = q / PAGE_SIZE -> p = q.
Proof. intros Hp Hq He. rewrite (page_number p), (page_number q), He by done. done. Qed.

Lemma page_number_nonneg p : is_page p -> 0 <= p / PAGE_SIZE.
Proof. intros [_ [Hp _]]. apply Z.div_pos; [done|]. unfold PAGE_SIZE. lia. Qed.

Lemma taken_adds s s' p q : adds s s' p -> taken s q -> taken s' q.
Proof.
  intros Ha (Hq & Hr & Hu). split_and!; [done|lia..|]. rewrite Ha by (by apply page_number_nonneg).
  rewrite Hu. by destruct (_ =? _).
Qed.

(** The invariant survives pages being put to use. *)
Lemma inv_more R s p' : space_inv R s -> pmm_wf p' ->
  (forall q, 0 <= q -> page_used (pmm s) q = true -> page_used p' q = true) -> space_inv R (with_pmm p' s).
Proof.
  intros HI Hwf Hu.
  assert (with_pmm p' s = set_phys (phys s) (with_pmm p' s)) as -> by (by destruct s).
  apply (inv_intro R R); try done; try apply HI.
  - intros q Hq. apply Hu; [lia|]. by apply (si_kernel _ _ HI).
  - intros (Hpg & _ & Hw) Hn. split; [|done]. apply Hu; [by apply page_number_nonneg|done].
  - intros q r Hq. apply (si_taken _ _ HI) in Hq as (Hpg & Hr & Hw). split_and!; [done|lia..|].
    apply Hu; [by apply page_number_nonneg|done].
Qed.

Lemma alloc_page_spec R s : space_inv R s -> exists p' a,
  alloc_page s = Done (with_pmm p' s) a /\ space_inv R (with_pmm p' s) /\
  ((a = 0 /\ all_used s /\ same_used s (with_pmm p' s)) \/
   (fresh R (with_pmm p' s) a /\ page_used (pmm s) (a / PAGE_SIZE) = false /\
    adds s (with_pmm p' s) a /\ (LOW <= a -> low_full (with_pmm p' s)))).
Proof.
  intros HI. unfold alloc_page.
  destruct (pmm_alloc_page_ok (pmm s) (si_pmm _ _ HI))
    as [(p' & n & -> & Hv & Hu & Hlow & Hwf & Hm)|(p' & -> & Hbm & Hfull)];
    unfold valid_page in *; rewrite PAGE_COUNT_eq in *; simpl.
  - exists p', (n * PAGE_SIZE).
    assert (n * PAGE_SIZE / PAGE_SIZE = n) as Hdiv by (apply Z.div_mul; done).
    assert (is_page (n * PAGE_SIZE)) as Hpg.
    { split; [apply Z.mod_mul; lia|unfold PAGE_SIZE; lia]. }
    assert (kernel_end <= n * PAGE_SIZE) as Hke.
    { destruct layout_end as [Hpe _]. rewrite (page_number _ Hpe).
      destruct (Z.ltb_spec n (kernel_end / PAGE_SIZE)); [|unfold PAGE_SIZE in *; lia].
      rewrite (si_kernel _ _ HI) in Hu by lia. done. }
    assert (space_inv R (with_pmm p' s)) as HI'.
    { apply inv_more; [done..|]. intros q Hq Hqu. rewrite Hm, Hqu by done. by destruct (n =? q). }
    split_and!; [done|done|right]. rewrite Hdiv. split_and!; [split_and!|done| |].
    + split_and!; [done|done|unfold PAGE_SIZE, MEMORY_MAX; lia|]. simpl. by rewrite Hdiv, Hm, Z.eqb_refl by lia.
    + destruct (R !! (n * PAGE_SIZE)) eqn:E; [|done]. apply (si_taken _ _ HI) in E as (_ & _ & E).
      rewrite Hdiv in E. congruence.
    + intros He. destruct (si_window _ _ HI) as [[_ Ha]|[_ [Hw|(Hw & _)]]].
      * simpl in He. unfold PAGE_SIZE in *. destruct layout_end. lia.
      * simpl in He. unfold PAGE_SIZE in *. destruct layout_end. lia.
      * destruct Hw as (_ & _ & Hw). simpl in He. rewrite <- He, Hdiv in Hw. congruence.
    + intros q Hq. rewrite Hdiv. by apply Hm.
    + intros HL q Hq. simpl. rewrite Hm by lia. destruct (Z.eqb_spec n q); [done|].
      apply Hlow. unfold LOW, PAGE_SIZE in *. change (8388608 / 4096) with 2048 in *. lia.
  - exists p', 0. split_and!; [done| |left; split_and!; [done| |]].
    + apply inv_more; [done| |]. { unfold pmm_wf. rewrite Hbm. apply HI. }
      intros q _. unfold page_used. by rewrite Hbm.
    + intros q Hq. by apply Hfull.
    + intros q Hq. unfold page_used. simpl. by rewrite Hbm.
Qed.
(** ** Filling a fresh page *)

Lemma set_phys_twice m m' s : set_phys m (set_phys m' s) = set_phys m s.
Proof. done. Qed.

Lemma fresh_set_phys R s m' p : same_tables R (phys s) m' -> fresh R s p -> fresh R (set_phys m' s) p.
Proof. intros Hm (Ht & Hn & Hw). split_and!; [done|done|]. simpl. by rewrite (window_same R s m'). Qed.

Lemma fresh_inv R s p m' : space_inv R s -> fresh R s p -> outside p (phys s) m' -> space_inv R (set_phys m' s).
Proof. intros. apply inv_memory; [done|]. by eapply fresh_same. Qed.

(** A loop that writes the entries of a page no table lies in, one after another. *)
Lemma fill_page R s p (body : Z -> FST Machine unit) (g : Z -> Z) :
  is_page p -> p < MEMORY_MAX -> (forall m', outside p (phys s) m' -> space_inv R (set_phys m' s)) ->
  (LOW <= p -> low_full s) ->
  (forall i m', 0 <= i < 1024 -> outside p (phys s) m' ->
     body i (set_phys m' s) = wr32 (p + 4 * i) (g i) (set_phys m' s)) ->
  wpf low_full (each body 0 1024) (fun s' _ => exists m', s' = set_phys m' s /\ p < LOW /\
    outside p (phys s) m' /\ forall j, 0 <= j < 1024 -> ent m' p j = u32 (g j)) s.
Proof.
  intros Hpg Hr Hinv HL Hb. pose proof Hpg as [_ Hp0].
  assert (set_phys (phys s) s = s) as Hs by (by destruct s).
  destruct (Z.ltb_spec p LOW) as [Hlt|Hge].
  - eapply wpf_mono.
    + apply (wpf_each _ _ (fun i t => exists m', t = set_phys m' s /\ outside p (phys s) m' /\
        forall j, 0 <= j < i -> ent m' p j = u32 (g j))).
      * exists (phys s). split_and!; [done|apply outside_refl|lia].
      * intros i t Hi (m' & -> & Ho & Hg). simpl in Hi.
        pose proof (page_below p LOW Hpg LOW_page Hlt).
        unfold wpf. rewrite Hb, wr32_ent by (try done; try lia; apply (inv_low R); by apply Hinv).
        rewrite set_phys_twice. eexists. split_and!; [done| |].
        -- eapply outside_trans; [done|]. by apply outside_store32.
        -- intros j Hj. simpl. rewrite ent_store by (done || lia). rewrite Z.eqb_refl. simpl.
           destruct (Z.eqb_spec i j) as [<-|]; [done|]. apply Hg. lia.
    + intros s' _ (m' & -> & Ho & Hg). exists m'. split_and!; [done..|]. intros j Hj. apply Hg. simpl. lia.
  - eapply wpf_each_fault; [done| |by apply HL].
    rewrite <- Hs at 1. rewrite Hb, Hs by (done || lia). unfold wr32, access.
    rewrite translate_high; [done| |lia]. apply (inv_low R). rewrite <- Hs. by apply Hinv.
Qed.

Lemma fill_gen R s p (body : Z -> FST Machine unit) (g : Z -> Z) :
  space_inv R s -> fresh R s p -> (LOW <= p -> low_full s) ->
  (forall i m', 0 <= i < 1024 -> outside p (phys s) m' ->
     body i (set_phys m' s) = wr32 (p + 4 * i) (g i) (set_phys m' s)) ->
  wpf low_full (each body 0 1024) (fun s' _ => exists m', s' = set_phys m' s /\ p < LOW /\
    outside p (phys s) m' /\ forall j, 0 <= j < 1024 -> ent m' p j = u32 (g j)) s.
Proof.
  intros HI Hf HL Hb. pose proof Hf as ((Hpg & Hr & _) & _).
  apply (fill_page R); [done|lia| |done|done]. intros m'. by apply fresh_inv.
Qed.

Lemma fill_table_spec R s p v : space_inv R s -> fresh R s p -> (LOW <= p -> low_full s) ->
  wpf low_full (fill_table p v) (fun s' _ => exists m', s' = set_phys m' s /\ p < LOW /\
    outside p (phys s) m' /\ forall j, 0 <= j < 1024 -> ent m' p j = u32 v) s.
Proof. intros HI Hf HL. by apply (fill_gen R s p _ (fun _ => v)). Qed.

(** ** Commits: one entry and one role change together *)

Lemma structural_insert R R' p : (forall q, R !! q = Some RDir -> R' !! q = Some RDir) ->
  (forall q d i, R !! q = Some (RTab d i) -> R' !! q = Some (RTab d i)) -> structural R p -> structural R' p.
Proof.
  intros Hd Ht [?|[?|[?|[?|(d & i & ?)]]]]; [by left|by right; left|by do 2 right; left| |].
  - by apply structural_dir, Hd.
  - by eapply structural_tab, Ht.
Qed.

(** Stores into a directory or a table leave the static tables alone. *)
Lemma static_same R s p i v : space_inv R s -> R !! p <> None -> structural R p -> 0 <= i < 1024 ->
  forall j, 0 <= j < 1024 ->
    ent (store32 (phys s) (p + 4 * i) v) page_directory j = ent (phys s) page_directory j /\
    ent (store32 (phys s) (p + 4 * i) v) first_page_table j = ent (phys s) first_page_table j /\
    ent (store32 (phys s) (p + 4 * i) v) second_page_table j = ent (phys s) second_page_table j.
Proof.
  intros HI Hp Hs Hi j Hj. destruct (R !! p) as [r|] eqn:E; [|done].
  apply (si_taken _ _ HI) in E as (Hpg & Hr & _).
  destruct layout_pd, layout_first, layout_second.
  rewrite !ent_store by done.
  destruct (Z.eqb_spec p page_directory), (Z.eqb_spec p first_page_table), (Z.eqb_spec p second_page_table);
    (lia || done).
Qed.

(** A commit that takes the page [p], fresh or in a role, and frees nothing. *)
Lemma inv_commit R R' s q i e : space_inv R s -> structural R q -> R !! q <> None -> 0 <= i < 1024 ->
  (forall p r, R' !! p = Some r -> R !! p <> None \/ fresh R s p) ->
  (forall p, R !! p = Some RDir -> R' !! p = Some RDir) ->
  (forall p r, R' !! p = Some r -> role_ok R' (store32 (phys s) (q + 4 * i) e) p r) ->
  space_inv R' (set_phys (store32 (phys s) (q + 4 * i) e) s).
Proof.
  intros HI Hq Hq' Hi Hdom Hdir Hr.
  assert (forall m', set_phys m' s = set_phys m' (with_pmm (pmm s) s)) as -> by (by destruct s).
  apply (inv_intro R R'); try done; try apply HI.
  - by apply (static_same R).
  - destruct (si_cr3 _ _ HI) as [?|Hc]; [by left|right]. by apply Hdir.
  - intros Hw Hn. split; [apply Hw|]. destruct (R' !! window (phys s)) eqn:E; [|done].
    destruct (Hdom _ _ E) as [?|(_ & _ & ?)]; done.
  - intros p r Hp. destruct (Hdom _ _ Hp) as [Hn|Hf].
    + destruct (R !! p) as [r'|] eqn:E; [|done]. by apply (si_taken _ _ HI) in E.
    + apply Hf.
Qed.

Lemma map_frame R s t d i j p w e : space_inv R s -> R !! t = Some (RTab d i) -> 0 <= j < 1024 ->
  absent (ent (phys s) t j) -> fresh R s p -> 0 <= e < 2 ^ 32 -> user_entry e p w ->
  space_inv (<[p := RFrame d (1024 * i + j) w]> R) (set_phys (store32 (phys s) (t + 4 * j) e) s).
Proof.
  intros HI Ht Hj Ha Hf Hu He. pose proof Hf as (_ & Hn & _).
  assert (forall q r, <[p := RFrame d (1024 * i + j) w]> R !! q = Some r ->
    q = p /\ r = RFrame d (1024 * i + j) w \/ q <> p /\ R !! q = Some r) as Hins.
  { intros q r [[<- <-]|[? ?]]%lookup_insert_Some; auto. }
  assert (forall q r, R !! q = Some r -> <[p := RFrame d (1024 * i + j) w]> R !! q = Some r) as Hold.
  { intros q r Hq. rewrite lookup_insert_ne by congruence. done. }
  apply (inv_commit R); try done.
  - by eapply structural_tab.
  - congruence.
  - intros q r [[-> ->]|[? Hq]]%Hins; [by right|left; congruence].
  - by intros q ?%Hold.
  - apply (frame_slot_roles R _ s t d i j e); try done.
    + intros q r [[-> ->]|[? Hq]]%Hins; [right; eauto|left]. split; [done|]. intros w' ->.
      by apply (absent_user _ _ _ (frame_entry R s t d i j q w' HI Ht Hj Hq)).
    + intros q r Hq. left. by apply Hold.
    + right. exists p, w. split; [done|]. by rewrite lookup_insert_eq.
Qed.

(** A changed permission. *)
Lemma set_frame R s t d i j f w w' e : space_inv R s -> R !! t = Some (RTab d i) -> 0 <= j < 1024 ->
  R !! f = Some (RFrame d (1024 * i + j) w) -> 0 <= e < 2 ^ 32 -> user_entry e f w' ->
  space_inv (<[f := RFrame d (1024 * i + j) w']> R) (set_phys (store32 (phys s) (t + 4 * j) e) s).
Proof.
  intros HI Ht Hj Hf Hu He. pose proof (frame_entry R s t d i j f w HI Ht Hj Hf) as Hent.
  assert (forall q w'', R !! q = Some (RFrame d (1024 * i + j) w'') -> q = f) as Honly.
  { intros q w'' Hq. pose proof (frame_entry R s t d i j q w'' HI Ht Hj Hq) as Hent'.
    by destruct (user_entry_fun _ _ _ _ _ Hent Hent'). }
  apply (inv_commit R); try done.
  - by eapply structural_tab.
  - congruence.
  - intros q r [[<- <-]|[? Hq]]%lookup_insert_Some; left; congruence.
  - intros q Hq. rewrite lookup_insert_ne by congruence. done.
  - apply (frame_slot_roles R _ s t d i j e); try done.
    + intros q r [[<- <-]|[? Hq]]%lookup_insert_Some; [right; eauto|left]. split; [done|].
      intros w'' ->. by apply Honly in Hq.
    + intros q r Hq. destruct (decide (q = f)) as [->|]; [right; rewrite Hf in Hq; injection Hq as <-; eauto|].
      left. by rewrite lookup_insert_ne.
    + right. exists f, w'. split; [done|]. by rewrite lookup_insert_eq.
Qed.

(** A new table with no entry in use. *)
Lemma make_table R s t d i e : space_inv R s -> R !! d = Some RDir -> user_pde i ->
  absent (ent (phys s) d i) -> fresh R s t -> t < LOW ->
  (forall j, 0 <= j < 1024 -> absent (ent (phys s) t j)) -> 0 <= e < 2 ^ 32 -> user_entry e t true ->
  space_inv (<[t := RTab d i]> R) (set_phys (store32 (phys s) (d + 4 * i) e) s).
Proof.
  intros HI Hd Hi Ha Hf Hl Hz Hu He. pose proof Hf as (Ht & Hn & _).
  assert (t <> d) as Hne by congruence.
  assert (forall q r, <[t := RTab d i]> R !! q = Some r -> q = t /\ r = RTab d i \/ q <> t /\ R !! q = Some r) as Hins.
  { intros q r [[<- <-]|[? ?]]%lookup_insert_Some; auto. }
  assert (forall q r, R !! q = Some r -> <[t := RTab d i]> R !! q = Some r) as Hold.
  { intros q r Hq. rewrite lookup_insert_ne by congruence. done. }
  assert (forall q, R !! q <> Some (RTab d i)) as Hnone.
  { intros q (_ & _ & _ & Hq & _)%(si_roles _ _ HI). by apply (absent_user _ _ _ Hq). }
  apply (inv_commit R); try done.
  - by apply structural_dir.
  - congruence.
  - unfold user_pde in Hi. lia.
  - intros q r [[-> ->]|[? Hq]]%Hins; [by right|left; congruence].
  - by intros q ?%Hold.
  - apply (table_slot_roles R _ s d i e); try done.
    + intros q r [[-> ->]|[? Hq]]%Hins; [right|left].
      * split_and!; [done|done|apply Ht|done|done|done].
      * split; [done|]. intros ->. by apply (Hnone q).
    + intros q r Hq. left. by apply Hold.
    + right. exists t. split; [done|]. by rewrite lookup_insert_eq.
    + intros q v w (t' & Ht' & _)%(si_roles _ _ HI) Hv. rewrite Hv in Ht'. by apply (Hnone t').
Qed.

(** ** Releases *)

Lemma free_page_spec s p : pmm_wf (pmm s) -> is_page p -> 0x100000 <= p < MEMORY_MAX ->
  exists p', free_page p s = Done (with_pmm p' s) tt /\ pmm_wf p' /\ frees s (with_pmm p' s) p.
Proof.
  intros Hwf [_ Hu] Hr. unfold free_page.
  destruct (pmm_free_page_ok (pmm s) p Hwf) as [(? & _)|[(_ & p' & -> & Hwf' & _ & _ & Hf)|(? & _)]];
    [done|lia| |lia].
  exists p'. split_and!; [done|done|]. intros q Hq. by apply Hf.
Qed.

(** A commit that releases the page [p] of a role. *)
Lemma inv_drop R s p r0 m' p' : space_inv R s -> R !! p = Some r0 -> pmm_wf p' -> frees s (with_pmm p' s) p ->
  (forall i, 0 <= i < 1024 -> ent m' page_directory i = ent (phys s) page_directory i /\
     ent m' first_page_table i = ent (phys s) first_page_table i /\
     ent m' second_page_table i = ent (phys s) second_page_table i) ->
  cr3 s <> p ->
  (forall q r, delete p R !! q = Some r -> role_ok (delete p R) m' q r) ->
  space_inv (delete p R) (set_phys m' (with_pmm p' s)).
Proof.
  intros HI Hp Hwf Hf Hm Hc Hr. unfold frees in Hf. simpl in Hf. pose proof (si_taken _ _ HI _ _ Hp) as (Hpg & Hrange & _).
  assert (forall q, is_page q -> q <> p -> page_used p' (q / PAGE_SIZE) = page_used (pmm s) (q / PAGE_SIZE)) as Hother.
  { intros q Hq Hne. rewrite (Hf (q / PAGE_SIZE)) by (by apply page_number_nonneg).
    destruct (Z.eqb_spec (p / PAGE_SIZE) (q / PAGE_SIZE)) as [E|]; [|done].
    by destruct Hne; apply page_number_inj. }
  apply (inv_intro R); try done.
  - intros q Hq. rewrite (Hf q) by lia. rewrite (si_kernel _ _ HI) by done.
    destruct (Z.eqb_spec (p / PAGE_SIZE) q) as [E|]; [|done]. exfalso.
    destruct layout_end as [Hpe _]. pose proof (page_number _ Hpe). pose proof (page_number _ Hpg).
    unfold PAGE_SIZE in *. lia.
  - destruct (si_cr3 _ _ HI) as [?|Hcr]; [by left|right]. by rewrite lookup_delete_ne.
  - intros Hw Hn. assert (window (phys s) <> p) by congruence. rewrite lookup_delete_ne by done.
    split; [|done]. rewrite Hother by (done || apply Hw). apply Hw.
  - intros q r [Hne Hq]%lookup_delete_Some. apply (si_taken _ _ HI) in Hq as (Hq & ? & ?).
    split_and!; [done|lia..|]. by rewrite Hother.
Qed.

Lemma drop_frame R s t d i j f w p' e : space_inv R s -> R !! t = Some (RTab d i) -> 0 <= j < 1024 ->
  R !! f = Some (RFrame d (1024 * i + j) w) -> pmm_wf p' -> frees s (with_pmm p' s) f -> 0 <= e < 2 ^ 32 -> absent e ->
  space_inv (delete f R) (set_phys (store32 (phys s) (t + 4 * j) e) (with_pmm p' s)).
Proof.
  intros HI Ht Hj Hf Hwf Hfr Hu He. pose proof (frame_entry R s t d i j f w HI Ht Hj Hf) as Hent.
  apply (inv_drop R s f (RFrame d (1024 * i + j) w)); try done.
  - apply (static_same R); [done|congruence|by eapply structural_tab|done].
  - intros Hc. destruct (si_cr3 _ _ HI) as [E|E]; rewrite Hc in E; [|congruence].
    pose proof (si_taken _ _ HI _ _ Hf) as (_ & ? & _). destruct layout_pd. lia.
  - apply (frame_slot_roles R _ s t d i j e); try done.
    + intros q r [Hne Hq]%lookup_delete_Some. left. split; [done|]. intros w' ->.
      pose proof (frame_entry R s t d i j q w' HI Ht Hj Hq) as Hent'.
      by destruct (user_entry_fun _ _ _ _ _ Hent Hent').
    + intros q r Hq. destruct (decide (q = f)) as [->|]; [right; rewrite Hf in Hq; injection Hq as <-; eauto|].
      left. by rewrite lookup_delete_ne.
    + by left.
Qed.

Lemma drop_table R s t d i p' e : space_inv R s -> R !! t = Some (RTab d i) ->
  (forall j, 0 <= j < 1024 -> absent (ent (phys s) t j)) ->
  pmm_wf p' -> frees s (with_pmm p' s) t -> 0 <= e < 2 ^ 32 -> absent e ->
  space_inv (delete t R) (set_phys (store32 (phys s) (d + 4 * i) e) (with_pmm p' s)).
Proof.
  intros HI Ht Hz Hwf Hfr Hu He. pose proof (si_roles _ _ HI _ _ Ht) as (Hl & Hi & Hd & Hent & _).
  apply (inv_drop R s t (RTab d i)); try done.
  - apply (static_same R); [done|congruence|by apply structural_dir|unfold user_pde in Hi; lia].
  - intros Hc. destruct (si_cr3 _ _ HI) as [E|E]; rewrite Hc in E; [|congruence].
    pose proof (si_taken _ _ HI _ _ Ht) as (_ & ? & _). destruct layout_pd. lia.
  - apply (table_slot_roles R _ s d i e); try done.
    + intros q r [Hne Hq]%lookup_delete_Some. left. split; [done|]. intros ->.
      by apply Hne, (table_unique R s t q d i).
    + intros q r Hq. destruct (decide (q = t)) as [->|]; [right; congruence|left]. by rewrite lookup_delete_ne.
    + by left.
    + intros q v w Hq Hv. pose proof (Z.mod_pos_bound v 1024 ltac:(lia)).
      apply (absent_user (ent (phys s) t (v mod 1024)) q w); [|by apply Hz].
      apply (frame_entry R s t d i (v mod 1024) q w HI Ht); [done|].
      replace (1024 * i + v mod 1024) with v; [done|]. pose proof (Z_div_mod_eq_full v 1024). lia.
Qed.

(** A directory without tables. *)
Lemma drop_dir R s d p' : space_inv R s -> R !! d = Some RDir -> cr3 s <> d ->
  (forall i, user_pde i -> absent (ent (phys s) d i)) -> pmm_wf p' -> frees s (with_pmm p' s) d ->
  space_inv (delete d R) (with_pmm p' s).
Proof.
  intros HI Hd Hc Hz Hwf Hfr.
  assert (with_pmm p' s = set_phys (phys s) (with_pmm p' s)) as -> by (by destruct s).
  assert (forall q i, R !! q <> Some (RTab d i)) as Hnone.
  { intros q i (_ & Hi & _ & Hq & _)%(si_roles _ _ HI). by apply (absent_user _ _ _ Hq), Hz. }
  apply (inv_drop R s d RDir); try done.
  intros q r [Hne Hq]%lookup_delete_Some. pose proof (si_roles _ _ HI _ _ Hq) as Hok.
  destruct r as [|d' i|d' v w]; simpl in *.
  - destruct Hok as (Hl & Hlo & Hw & Hs). split_and!; [done..|]. intros i Hi.
    destruct (Hs i Hi) as [?|(t & ? & ?)]; [by left|right]. exists t. split; [done|].
    rewrite lookup_delete_ne; [done|]. congruence.
  - destruct Hok as (Hl & Hi & Hd' & He & Hs). split_and!; [done|done| |done|].
    + rewrite lookup_delete_ne; [done|]. intros <-. by apply (Hnone q i).
    + intros j Hj. destruct (Hs j Hj) as [?|(f & w & ? & ?)]; [by left|right]. exists f, w. split; [done|].
      rewrite lookup_delete_ne; [done|]. congruence.
  - destruct Hok as (t & Ht & He). exists t. split; [|done]. rewrite lookup_delete_ne; [done|]. congruence.
Qed.

(** A new directory, its entries in place. *)
Lemma make_dir R s d : space_inv R s -> fresh R s d -> d < LOW -> maps_low (phys s) d -> kernel_half (phys s) d ->
  (forall i, user_pde i -> absent (ent (phys s) d i)) -> space_inv (<[d := RDir]> R) s.
Proof.
  intros HI Hf Hl Hlo Hw Hz. pose proof Hf as (Ht & Hn & Hnw).
  assert (R ⊆ <[d := RDir]> R) as Hsub by (by apply insert_subseteq).
  assert (s = set_phys (phys s) (with_pmm (pmm s) s)) as -> by (by destruct s).
  apply (inv_intro R); try done; try apply HI.
  - destruct (si_cr3 _ _ HI) as [?|?]; [by left|right]. by eapply lookup_weaken.
  - intros Hta Hwn. split; [apply Hta|]. by rewrite lookup_insert_ne.
  - intros q r [[<- <-]|[? Hq]]%lookup_insert_Some; [apply Ht|]. by apply (si_taken _ _ HI) in Hq.
  - intros q r [[<- <-]|[? Hq]]%lookup_insert_Some.
    + split_and!; [done..|]. intros i Hi. left. by apply Hz.
    + eapply role_ok_mono; [done|]. by apply (si_roles _ _ HI).
Qed.

End Ops.
