(* ===== verification/SpaceCalls.v ===== *)
(** * Address spaces: the calls

    The specification of each call in terms of [abs], the directories and frames of
    all address spaces, and of the pages the allocator has handed out. *)
From S2P Require Import Prelude Fault Bytes Pmm Memory Paging Spaces SpaceOps.

(** The address spaces without the tables that implement them. *)
Definition is_tab (r : role) : bool := match r with RTab _ _ => true | _ => false end.
Definition abs (R : roles) : roles := filter (fun p => is_tab p.2 = false) R.

Lemma abs_lookup R p r : abs R !! p = Some r <-> R !! p = Some r /\ is_tab r = false.
Proof. unfold abs. by rewrite map_lookup_filter_Some. Qed.

Lemma abs_insert R p r : is_tab r = false -> abs (<[p := r]> R) = <[p := r]> (abs R).
Proof. intros Hr. unfold abs. by rewrite map_filter_insert_True. Qed.

Lemma abs_insert_tab R p d i : R !! p = None -> abs (<[p := RTab d i]> R) = abs R.
Proof.
  intros Hp. unfold abs. rewrite map_filter_insert_False by done. by rewrite delete_id.
Qed.

Lemma abs_delete R p : abs (delete p R) = delete p (abs R).
Proof. unfold abs. by rewrite map_filter_delete. Qed.

Lemma abs_delete_tab R p d i : R !! p = Some (RTab d i) -> abs (delete p R) = abs R.
Proof.
  intros Hp. rewrite abs_delete. apply delete_id. destruct (abs R !! p) as [r|] eqn:E; [|done].
  apply abs_lookup in E as [E Ht]. rewrite Hp in E. by injection E as <-.
Qed.

Section Calls.
Context `{KL : KernelLayout}.
Implicit Types (R : roles) (s : Machine) (m : gmap Z Z) (U : gset Z).

(** Every page in use belongs to the kernel image, to an address space, to the window
    of temporary mappings, or to [U], the pages the kernel uses for other things. *)
Definition accounted U R s : Prop :=
  forall q, 0 <= q -> page_used (pmm s) q = true <->
    q < kernel_end / PAGE_SIZE \/ R !! (q * PAGE_SIZE) <> None \/
    (0 < q /\ q * PAGE_SIZE = window (phys s)) \/ q * PAGE_SIZE ∈ U.

Record spaces U R s : Prop := {
  sp_inv : space_inv R s;
  sp_accounted : accounted U R s;
  sp_fresh : forall p, p ∈ U -> fresh R s p
}.

(** The pages that hold data, not tables; a call that does not write to them keeps
    their contents. *)
Definition data_page U R (p : Z) : Prop := p ∈ U \/ exists d v w, R !! p = Some (RFrame d v w).
Definition kept U R s s' : Prop :=
  forall p b, data_page U R p -> p <= b < p + 4096 -> load8 (phys s') b = load8 (phys s) b.

Lemma data_kept_refl U R s : kept U R s s.
Proof. done. Qed.

Lemma data_kept_trans U U' R R' s s' s'' : kept U R s s' -> kept U' R' s' s'' ->
  (forall p, data_page U R p -> data_page U' R' p) -> kept U R s s''.
Proof. intros H1 H2 Hd p b Hp Hb. rewrite (H2 p b), (H1 p b); auto. Qed.

Lemma data_page_facts U R s p : spaces U R s -> data_page U R p -> is_page p /\ (forall q, structural R q -> q <> p).
Proof.
  intros HS [Hp|(d & v & w & Hp)].
  - pose proof (sp_fresh _ _ _ HS p Hp) as Hf. split; [apply Hf|]. intros q. by apply (fresh_not_structural R s).
  - pose proof (si_taken _ _ (sp_inv _ _ _ HS) _ _ Hp) as (Hpg & Hr & _). split; [done|]. intros q Hq ->.
    destruct layout_pd, layout_first, layout_second.
    destruct Hq as [?|[?|[?|[Hq|(d' & i & Hq)]]]]; (lia || congruence).
Qed.

Lemma store_kept U R s q i v : spaces U R s -> structural R q -> 0 <= i < 1024 ->
  kept U R s (set_phys (store32 (phys s) (q + 4 * i) v) s).
Proof.
  intros HS Hq Hi p b Hp Hb. destruct (data_page_facts U R s p HS Hp) as [Hpg Hne].
  apply load8_store32_other. destruct (structural_page R s q (sp_inv _ _ _ HS) Hq) as (Hqg & _).
  pose proof (page_apart q p Hqg Hpg (Hne q Hq)). lia.
Qed.

Lemma outside_kept U R s t m' : spaces U R s -> is_page t -> ~ data_page U R t -> outside t (phys s) m' ->
  kept U R s (set_phys m' s).
Proof.
  intros HS Ht Hd Ho p b Hp Hb. apply Ho. destruct (data_page_facts U R s p HS Hp) as [Hpg _].
  assert (p <> t) as Hne by congruence. pose proof (page_apart p t Hpg Ht Hne). lia.
Qed.

(** ** Allocation and release *)

Lemma spaces_same U R s s' : spaces U R s -> space_inv R s' -> same_used s s' ->
  window (phys s') = window (phys s) -> spaces U R s'.
Proof.
  intros HS HI Hu Hw. constructor; [done| |].
  - intros q Hq. rewrite Hu, Hw by done. by apply (sp_accounted _ _ _ HS).
  - intros p Hp. destruct (sp_fresh _ _ _ HS p Hp) as ((Hpg & Hr & Hu') & Hn & Hnw).
    split_and!; [|done|by rewrite Hw]. split_and!; [done|lia..|].
    rewrite Hu; [done|by apply page_number_nonneg].
Qed.

Lemma spaces_adds U R s s' p : spaces U R s -> space_inv R s' -> adds s s' p -> fresh R s' p ->
  window (phys s') = window (phys s) -> spaces (U ∪ {[p]}) R s'.
Proof.
  intros HS HI Ha Hf Hw. pose proof Hf as ((Hpg & _) & _). pose proof (page_number p Hpg) as Hpn. constructor; [done| |].
  - intros q Hq. rewrite Ha, Hw by done. pose proof (sp_accounted _ _ _ HS q Hq) as Hacc.
    destruct (Z.eqb_spec (p / PAGE_SIZE) q) as [E|Hne].
    + split; [|done]. intros _. do 3 right. apply elem_of_union_r, elem_of_singleton. by rewrite Hpn, E at 1.
    + rewrite Hacc. assert (q * PAGE_SIZE <> p) as Hqp.
      { intros Hqp. apply Hne. rewrite <- Hqp. by apply Z.div_mul. }
      assert (q * PAGE_SIZE ∈ U ∪ {[p]} <-> q * PAGE_SIZE ∈ U) as -> by set_solver. done.
  - intros q [Hq| ->%elem_of_singleton]%elem_of_union; [|done].
    destruct (sp_fresh _ _ _ HS q Hq) as (Ht & Hn & Hnw). split_and!; [by eapply taken_adds|done|by rewrite Hw].
Qed.

(** An allocation: 0 when every page is in use, or a page the caller now owns. *)
Lemma spaces_alloc U R s : spaces U R s -> exists p' a,
  alloc_page s = Done (with_pmm p' s) a /\
  ((a = 0 /\ all_used s /\ spaces U R (with_pmm p' s)) \/
   (a <> 0 /\ a ∉ U /\ fresh R (with_pmm p' s) a /\ spaces (U ∪ {[a]}) R (with_pmm p' s) /\
    ~ data_page U R a /\ (LOW <= a -> low_full (with_pmm p' s)))).
Proof.
  intros HS. pose proof (sp_inv _ _ _ HS) as HI.
  destruct (alloc_page_spec R s HI) as (p' & a & Ha & HI' & Hc). exists p', a. split; [done|].
  destruct Hc as [(-> & Hfull & Hu)|(Hf & Hnew & Hadd & HL)].
  - left. split_and!; [done|done|]. by apply (spaces_same U R s).
  - right. pose proof Hf as ((Hpg & Hr & _) & Hn & _). destruct layout_end.
    assert (a ∉ U) as HaU.
    { intros HaU. destruct (sp_fresh _ _ _ HS a HaU) as ((_ & _ & Hu) & _). congruence. }
    split_and!; [lia|done|done| |intros [?|(d & v & w & ?)]; congruence|done].
    by apply (spaces_adds U R s).
Qed.
(** A page of the kernel's own becomes part of an address space. *)
Lemma spaces_give U R s s' p r : spaces (U ∪ {[p]}) R s -> p ∉ U -> space_inv (<[p := r]> R) s' ->
  pmm s' = pmm s -> window (phys s') = window (phys s) -> spaces U (<[p := r]> R) s'.
Proof.
  intros HS HpU HI Hp Hw. constructor; [done| |].
  - intros q Hq. rewrite Hp, Hw, (sp_accounted _ _ _ HS q Hq).
    destruct (decide (q * PAGE_SIZE = p)) as [<-|Hne].
    + rewrite lookup_insert_eq. split; intros _; [by right; left|do 3 right; set_solver].
    + rewrite lookup_insert_ne by done.
      assert (q * PAGE_SIZE ∈ U ∪ {[p]} <-> q * PAGE_SIZE ∈ U) as -> by set_solver. done.
  - intros q Hq. destruct (sp_fresh _ _ _ HS q) as (Ht & Hn & Hnw); [set_solver|].
    split_and!; [unfold taken; by rewrite Hp|rewrite lookup_insert_ne; [done|by intros <-]|by rewrite Hw].
Qed.

Lemma spaces_drop U R s s' p r : spaces U R s -> R !! p = Some r -> space_inv (delete p R) s' ->
  frees s s' p -> window (phys s') = window (phys s) -> spaces U (delete p R) s'.
Proof.
  intros HS Hp HI Hf Hw. pose proof (si_taken _ _ (sp_inv _ _ _ HS) _ _ Hp) as (Hpg & Hr & _). constructor; [done| |].
  - intros q Hq. rewrite Hw, (Hf q Hq). pose proof (sp_accounted _ _ _ HS q Hq) as Hacc.
    destruct (Z.eqb_spec (p / PAGE_SIZE) q) as [<-|Hne].
    + rewrite <- page_number by done. rewrite lookup_delete_eq. split; [done|].
      intros [Hk|[?|[[_ E]|HU]]]; [exfalso|done|exfalso|exfalso].
      * destruct layout_end as [Hpe _]. pose proof (page_number _ Hpe). pose proof (page_number _ Hpg).
        unfold PAGE_SIZE in *. lia.
      * destruct (si_window _ _ (sp_inv _ _ _ HS)) as [[_ Hz]|[_ [Hz|(_ & _ & Hz)]]];
          [destruct layout_end; lia|destruct layout_end; lia|congruence].
      * apply (sp_fresh _ _ _ HS) in HU as (_ & ? & _). congruence.
    + rewrite lookup_delete_ne; [done|]. intros ->. apply Hne. by apply Z.div_mul.
  - intros q Hq. destruct (sp_fresh _ _ _ HS q Hq) as ((Hpq & Hrq & Hu) & Hn & Hnw). assert (q <> p) by congruence.
    split_and!; [|by rewrite lookup_delete_ne|by rewrite Hw]. split_and!; [done|lia..|].
    rewrite Hf by (by apply page_number_nonneg). destruct (Z.eqb_spec (p / PAGE_SIZE) (q / PAGE_SIZE)) as [E|]; [|done].
    by apply page_number_inj in E.
Qed.

Lemma spaces_set U R s s' p r r' : spaces U R s -> R !! p = Some r -> space_inv (<[p := r']> R) s' ->
  pmm s' = pmm s -> window (phys s') = window (phys s) -> spaces U (<[p := r']> R) s'.
Proof.
  intros HS Hp HI Hpm Hw. constructor; [done| |].
  - intros q Hq. rewrite Hpm, Hw, (sp_accounted _ _ _ HS q Hq).
    destruct (decide (q * PAGE_SIZE = p)) as [<-|Hne]; [|by rewrite lookup_insert_ne].
    rewrite lookup_insert_eq, Hp. split; intros _; right; left; done.
  - intros q Hq. destruct (sp_fresh _ _ _ HS q Hq) as (Ht & Hn & Hnw).
    split_and!; [unfold taken; by rewrite Hpm|rewrite lookup_insert_ne; [done|congruence]|by rewrite Hw].
Qed.

(** Stores that leave the entry of the window alone. *)
Lemma window_store R s q i v : space_inv R s -> structural R q -> 0 <= i < 1024 ->
  q <> page_directory \/ i <> WINDOW -> window (store32 (phys s) (q + 4 * i) v) = window (phys s).
Proof.
  intros HI Hq Hi Hne. unfold window, WINDOW in *. f_equal.
  rewrite ent_store; [|by apply (structural_page R s q HI Hq)|apply layout_pd|done|lia].
  destruct (Z.eqb_spec q page_directory), (Z.eqb_spec i 255); done || lia.
Qed.

Lemma role_not_kpd R s p r : space_inv R s -> R !! p = Some r -> p <> page_directory.
Proof. intros HI Hp ->. apply (si_taken _ _ HI) in Hp as (_ & ? & _). destruct layout_pd. lia. Qed.

(** ** Tables on demand *)

Lemma user_table_spec U R s d va : spaces U R s -> R !! d = Some RDir -> user_pde (pd_index va) ->
  wpf low_full (user_table d va) (fun s' o => kept U R s s' /\
    match o with
    | None => spaces U R s' /\ all_used s
    | Some t => exists R', spaces U R' s' /\ abs R' = abs R /\ R ⊆ R' /\ R' !! t = Some (RTab d (pd_index va))
    end) s.
Proof.
  intros HS Hd Hi. pose proof (sp_inv _ _ _ HS) as HI. set (i := pd_index va) in *.
  assert (0 <= i < 1024) as Hi' by (unfold user_pde in Hi; lia).
  unfold user_table. fold i. cbv zeta.
  eapply wpf_step; [apply (rd32_struct R); [done|by apply structural_dir|done]|].
  rewrite absent_test. destruct (proj2 (proj2 (proj2 (si_roles _ _ HI _ _ Hd))) i Hi) as [Ha|(t & He & Ht)].
  2: { rewrite bool_decide_eq_false_2 by (by eapply absent_user). apply wpf_ret. split; [done|].
       destruct He as [-> _]. exists R. done. }
  rewrite bool_decide_eq_true_2 by done.
  destruct (spaces_alloc U R s HS) as (p' & a & Ea & [(-> & Hfull & HS1)|(Ha0 & HaU & Hf & HS1 & Hdata & HL)]);
    (eapply wpf_step; [exact Ea|]).
  { simpl. apply wpf_ret. split; [done|]. by split. }
  destruct (Z.eqb_spec a 0); [done|]. set (s1 := with_pmm p' s) in *. pose proof Hf as ((Hpg & Hr & _) & Hn & _).
  rewrite page_mask by done. pose proof (sp_inv _ _ _ HS1) as HI1.
  eapply wpf_seq; [by apply (fill_table_spec R)|]. intros s2 _ (m' & -> & Hl & Ho & Hz).
  assert (spaces (U ∪ {[a]}) R (set_phys m' s1)) as HS2.
  { apply (spaces_same _ _ s1); [done|by eapply fresh_inv|done|]. by apply (window_same R s1), (fresh_same R s1 a). }
  pose proof (sp_inv _ _ _ HS2) as HI2.
  eapply wpf_step; [apply (wr32_struct R); [done|by apply structural_dir|done]|]. rewrite set_phys_twice.
  apply wpf_ret. simpl phys.
  assert (is_page a /\ 0 <= 7 < 4096) as [_ H7] by (split; [done|lia]).
  assert (0 <= Z.lor a USER_ENTRY < 2 ^ 32) as Hu by (by apply entry_range).
  assert (user_entry (Z.lor a USER_ENTRY) a true) as Hue.
  { rewrite <- (u32_small (Z.lor a USER_ENTRY)) by done. by apply (user_entry_built a true). }
  split.
  - intros p b Hp Hb. transitivity (load8 m' b).
    + assert (data_page (U ∪ {[a]}) R p) as Hp' by (destruct Hp; [left; set_solver|by right]).
      refine (store_kept _ _ _ d i _ HS2 _ _ p b Hp' Hb); [by apply structural_dir|done].
    + destruct (data_page_facts U R s p HS Hp) as [Hpp _]. apply Ho.
      assert (p <> a) as Hne by (intros ->; done). pose proof (page_apart p a Hpp Hpg Hne). lia.
  - exists (<[a := RTab d i]> R). split_and!.
    + apply (spaces_give U R (set_phys m' s1)); [done|done| |done|].
      * apply (make_table R (set_phys m' s1)); try done.
        -- simpl. rewrite (outside_ent a (phys s1) m' d i Ho); [done|done| |congruence|done].
           apply (si_taken _ _ HI _ _ Hd).
        -- by apply (sp_fresh _ _ _ HS2); set_solver.
        -- intros j Hj. simpl. rewrite Hz by done. done.
      * apply (window_store R (set_phys m' s1)); [done|by apply structural_dir|done|].
        left. by eapply role_not_kpd.
    + by apply abs_insert_tab.
    + by apply insert_subseteq.
    + by rewrite lookup_insert_eq.
Qed.
(** ** User addresses *)

Definition user_va (va : Z) : Prop := USER_VADDR_MIN <= va <= USER_VADDR_MAX.
Definition vpn (va : Z) : Z := va / 4096.

Lemma index_parts va : pd_index va = vpn va / 1024 /\ pt_index va = vpn va mod 1024.
Proof.
  unfold pd_index, pt_index, vpn. rewrite !Z.shiftr_div_pow2 by lia.
  change 0x3FF with (Z.ones 10). rewrite Z.land_ones by lia. split; [|done].
  change (2 ^ 22) with (4096 * 1024). by rewrite Z.div_div.
Qed.

Lemma pt_index_range va : 0 <= pt_index va < 1024.
Proof. destruct (index_parts va) as [_ ->]. apply Z.mod_pos_bound. lia. Qed.

Lemma vpn_index va : vpn va = 1024 * pd_index va + pt_index va.
Proof. destruct (index_parts va) as [-> ->]. apply Z_div_mod_eq_full. Qed.

Lemma user_pd_index va : user_va va -> user_pde (pd_index va).
Proof.
  unfold user_va, USER_VADDR_MIN, USER_VADDR_MAX, user_pde. intros Hva.
  unfold pd_index. rewrite Z.shiftr_div_pow2 by lia. change (2 ^ 22) with 4194304.
  split; [apply Z.div_le_lower_bound; lia|apply Z.div_lt_upper_bound; lia].
Qed.

Lemma dir_nonzero R s d : space_inv R s -> R !! d = Some RDir -> is_page d /\ (d =? 0) = false.
Proof.
  intros HI Hd. apply (si_taken _ _ HI) in Hd as (Hpg & Hr & _). split; [done|]. destruct layout_end.
  apply Z.eqb_neq. lia.
Qed.

(** What an address of [d] stands for, and the entry that says so. *)
Definition frame_of (A : roles) (d v f : Z) (w : bool) : Prop := A !! f = Some (RFrame d v w).

Lemma abs_frame R d v f w : frame_of (abs R) d v f w <-> R !! f = Some (RFrame d v w).
Proof. unfold frame_of. rewrite abs_lookup. naive_solver. Qed.

Lemma abs_frame_1 R d v f w : frame_of (abs R) d v f w -> R !! f = Some (RFrame d v w).
Proof. apply abs_frame. Qed.

Lemma abs_dir R d : abs R !! d = Some RDir <-> R !! d = Some RDir.
Proof. rewrite abs_lookup. naive_solver. Qed.

(** Looking an address up: the directory entry and, if there is a table, its entry. *)
Inductive lookup_va R s (d va : Z) : Prop :=
| no_table : absent (ent (phys s) d (pd_index va)) -> (forall f w, R !! f <> Some (RFrame d (vpn va) w)) ->
    lookup_va R s d va
| no_frame t : R !! t = Some (RTab d (pd_index va)) -> user_entry (ent (phys s) d (pd_index va)) t true ->
    absent (ent (phys s) t (pt_index va)) -> (forall f w, R !! f <> Some (RFrame d (vpn va) w)) ->
    lookup_va R s d va
| some_frame t f w : R !! t = Some (RTab d (pd_index va)) -> user_entry (ent (phys s) d (pd_index va)) t true ->
    R !! f = Some (RFrame d (vpn va) w) -> user_entry (ent (phys s) t (pt_index va)) f w ->
    lookup_va R s d va.

Lemma lookup_va_ok R s d va : space_inv R s -> R !! d = Some RDir -> user_va va -> lookup_va R s d va.
Proof.
  intros HI Hd Hva. pose proof (pt_index_range va) as Hj.
  destruct (proj2 (proj2 (proj2 (si_roles _ _ HI _ _ Hd))) _ (user_pd_index va Hva)) as [Ha|(t & He & Ht)].
  - apply no_table; [done|]. intros f w (t & Ht & _)%(si_roles _ _ HI).
    rewrite <- (proj1 (index_parts va)) in Ht. apply (si_roles _ _ HI) in Ht as (_ & _ & _ & He & _).
    by apply (absent_user _ _ _ He).
  - destruct (proj2 (proj2 (proj2 (proj2 (si_roles _ _ HI _ _ Ht)))) _ Hj) as [Ha|(f & w & He' & Hf)].
    + eapply no_frame; [done..|]. intros f w Hf. rewrite vpn_index in Hf.
      by apply (absent_user _ _ _ (frame_entry R s t d _ _ f w HI Ht Hj Hf)).
    + rewrite <- vpn_index in Hf. by eapply some_frame.
Qed.

Lemma frame_unique R s d v f w f' w' : space_inv R s ->
  R !! f = Some (RFrame d v w) -> R !! f' = Some (RFrame d v w') -> f = f' /\ w = w'.
Proof.
  intros HI (t & Ht & He)%(si_roles _ _ HI) (t' & Ht' & He')%(si_roles _ _ HI).
  rewrite (table_unique R s t t' d (v / 1024)) in He by done. by eapply user_entry_fun.
Qed.

(** ** Mapping *)

Lemma map_user_page_spec U R s d p va : spaces (U ∪ {[p]}) R s -> p ∉ U -> R !! d = Some RDir -> user_va va ->
  (forall f w, ~ frame_of (abs R) d (vpn va) f w) ->
  wpf low_full (map_user_page d p va) (fun s' r => kept (U ∪ {[p]}) R s s' /\
    ((r = 0 /\ spaces (U ∪ {[p]}) R s' /\ all_used s) \/
     (r = 1 /\ exists R', spaces U R' s' /\ abs R' = <[p := RFrame d (vpn va) true]> (abs R)))) s.
Proof.
  intros HS HpU Hd Hva Hno. pose proof (sp_inv _ _ _ HS) as HI. pose proof (pt_index_range va) as Hj.
  destruct (dir_nonzero R s d HI Hd) as [Hdp Hd0]. unfold map_user_page. rewrite page_mask, Hd0 by done.
  eapply wpf_seq; [apply (user_table_spec (U ∪ {[p]}) R); [done|done|by apply user_pd_index]|].
  intros s1 [t|] [Hk Ho]; [|apply wpf_ret; by split; [|left]].
  destruct Ho as (R1 & HS1 & Habs & Hsub & Ht). pose proof (sp_inv _ _ _ HS1) as HI1.
  pose proof (sp_fresh _ _ _ HS1 p) as Hf. assert (fresh R1 s1 p) as Hfp by (apply Hf; set_solver).
  eapply wpf_step; [apply (wr32_struct R1); [done|by eapply structural_tab|done]|].
  apply wpf_ret. pose proof Hfp as ((Hpg & _) & Hnone & _). rewrite page_mask by done. split.
  - eapply data_kept_trans; [done|eapply store_kept; [exact HS1|by eapply structural_tab|done]|].
    intros q [Hq|(d' & v & w & Hq)]; [by left|right]. exists d', v, w. by eapply lookup_weaken.
  - right. split; [done|]. exists (<[p := RFrame d (vpn va) true]> R1). split; [|by rewrite abs_insert, Habs].
    assert (0 <= Z.lor p USER_ENTRY < 2 ^ 32) as Hu by (by apply entry_range).
    apply (spaces_give U R1 s1); [done|done| |done|].
    + rewrite vpn_index. apply map_frame; try done.
      * destruct (proj2 (proj2 (proj2 (proj2 (si_roles _ _ HI1 _ _ Ht)))) _ Hj) as [?|(f & w & _ & Hf')]; [done|].
        rewrite <- vpn_index in Hf'. apply abs_frame in Hf'. rewrite Habs in Hf'. by apply Hno in Hf'.
      * rewrite <- (u32_small (Z.lor p USER_ENTRY)) by done. by apply (user_entry_built p true).
    + apply (window_store R1); [done|by eapply structural_tab|done|]. left. by eapply role_not_kpd.
Qed.

(** ** Looking up *)

Lemma rd_dir R s d va : space_inv R s -> R !! d = Some RDir -> user_va va ->
  rd32 (d + 4 * pd_index va) s = Done s (ent (phys s) d (pd_index va)).
Proof.
  intros HI Hd Hva%user_pd_index. apply (rd32_struct R); [done|by apply structural_dir|].
  unfold user_pde in Hva. lia.
Qed.

Lemma rd_tab R s t d i va : space_inv R s -> R !! t = Some (RTab d i) ->
  rd32 (t + 4 * pt_index va) s = Done s (ent (phys s) t (pt_index va)).
Proof.
  intros HI Ht. apply (rd32_struct R); [done|by eapply structural_tab|apply pt_index_range].
Qed.

Definition mapped (A : roles) (d v : Z) : Prop := exists f w, frame_of A d v f w.

Lemma not_mapped R d v : (forall f w, R !! f <> Some (RFrame d v w)) -> ~ mapped (abs R) d v.
Proof. intros Hn (f & w & Hf%abs_frame_1). by apply (Hn f w). Qed.

Lemma resolve_user_phys_spec R s d va : space_inv R s -> R !! d = Some RDir -> user_va va ->
  exists r, resolve_user_phys d va s = Done s r /\
    ((exists f w, frame_of (abs R) d (vpn va) f w /\ r = f + va mod 4096) \/ (~ mapped (abs R) d (vpn va) /\ r = 0)).
Proof.
  intros HI Hd Hva. destruct (dir_nonzero R s d HI Hd) as [Hdp Hd0]. pose proof (pt_index_range va) as Hj.
  unfold resolve_user_phys. rewrite page_mask, Hd0 by done.
  unfold mbind, FST_bind. rewrite (rd_dir R) by done.
  rewrite absent_test. destruct (lookup_va_ok R s d va HI Hd Hva) as [Ha Hn|t Ht He Ha Hn|t f w Ht He Hf He'].
  - rewrite bool_decide_eq_true_2 by done. exists 0. split; [done|right]. split; [by apply not_mapped|done].
  - rewrite bool_decide_eq_false_2 by (by eapply absent_user). destruct He as [-> _].
    rewrite (rd_tab R s _ _ _ va HI Ht).
    rewrite absent_test, bool_decide_eq_true_2 by done. exists 0. split; [done|right]. split; [by apply not_mapped|done].
  - rewrite bool_decide_eq_false_2 by (by eapply absent_user). destruct He as [-> _].
    rewrite (rd_tab R s _ _ _ va HI Ht).
    rewrite absent_test, bool_decide_eq_false_2 by (by eapply absent_user). destruct He' as [-> _].
    eexists. split; [done|left]. exists f, w. split; [by apply abs_frame|].
    change 0xFFF with (Z.ones 12). rewrite Z.land_ones by lia.
    apply entry_eq; [by apply (si_taken _ _ HI _ _ Hf)|apply Z.mod_pos_bound; lia].
Qed.

(** Outside the user range there is no entry for user mode. *)
Lemma not_user_range R s d va : space_inv R s -> R !! d = Some RDir -> 0 <= va < 2 ^ 32 -> ~ user_va va ->
  (exists e, rd32 (d + 4 * pd_index va) s = Done s e /\ not_user e = true) /\ ~ mapped (abs R) d (vpn va).
Proof.
  intros HI Hd Hva Hu.
  assert (0 <= pd_index va < 1024 /\ ~ user_pde (pd_index va)) as [Hi Hni].
  { unfold user_va, USER_VADDR_MIN, USER_VADDR_MAX, user_pde in *. unfold pd_index.
    rewrite Z.shiftr_div_pow2 by lia. change (2 ^ 22) with 4194304.
    pose proof (Z_div_mod_eq_full va 4194304). pose proof (Z.mod_pos_bound va 4194304 ltac:(lia)). lia. }
  destruct (si_roles _ _ HI _ _ Hd) as (_ & _ & [_ Hk] & _). split.
  - exists (ent (phys s) d (pd_index va)). split; [by apply (rd32_struct R); [|apply structural_dir|]|by apply Hk].
  - intros (f & w & (t & Ht & _)%abs_frame_1%(si_roles _ _ HI)).
    rewrite <- (proj1 (index_parts va)) in Ht. by apply (si_roles _ _ HI) in Ht as (_ & ? & _).
Qed.

(** The entry that [unmap_user_page] and [set_user_page_writable] change. *)
Lemma user_pte_user R s d va : space_inv R s -> R !! d = Some RDir -> user_va va ->
  (user_pte d va s = Done s None /\ ~ mapped (abs R) d (vpn va)) \/
  (exists t f w, user_pte d va s = Done s (Some (t + 4 * pt_index va, ent (phys s) t (pt_index va))) /\
     R !! t = Some (RTab d (pd_index va)) /\ R !! f = Some (RFrame d (vpn va) w) /\
     user_entry (ent (phys s) t (pt_index va)) f w).
Proof.
  intros HI Hd Hva. destruct (dir_nonzero R s d HI Hd) as [Hdp Hd0]. pose proof (pt_index_range va) as Hj.
  unfold user_pte. rewrite page_mask, Hd0 by done.
  unfold mbind, FST_bind. rewrite (rd_dir R) by done.
  destruct (lookup_va_ok R s d va HI Hd Hva) as [Ha Hn|t Ht He Ha Hn|t f w Ht He Hf He'].
  - left. rewrite not_user_absent by done. split; [done|by apply not_mapped].
  - left. rewrite (not_user_entry _ _ _ He). destruct He as [-> _].
    rewrite (rd_tab R s _ _ _ va HI Ht).
    rewrite not_user_absent by done. split; [done|by apply not_mapped].
  - right. exists t, f, w. rewrite (not_user_entry _ _ _ He). destruct He as [-> _].
    rewrite (rd_tab R s _ _ _ va HI Ht).
    by rewrite (not_user_entry _ _ _ He').
Qed.

Lemma user_pte_spec R s d va : space_inv R s -> R !! d = Some RDir -> 0 <= va < 2 ^ 32 ->
  (user_pte d va s = Done s None /\ ~ mapped (abs R) d (vpn va)) \/
  (exists t f w, user_pte d va s = Done s (Some (t + 4 * pt_index va, ent (phys s) t (pt_index va))) /\
     R !! t = Some (RTab d (pd_index va)) /\ R !! f = Some (RFrame d (vpn va) w) /\
     user_entry (ent (phys s) t (pt_index va)) f w).
Proof.
  intros HI Hd Hva. destruct (decide (USER_VADDR_MIN <= va <= USER_VADDR_MAX)) as [Hu|Hu]; [by apply user_pte_user|left].
  destruct (not_user_range R s d va HI Hd Hva Hu) as [(e & Ee & He) Hm]. split; [|done].
  destruct (dir_nonzero R s d HI Hd) as [Hdp Hd0]. unfold user_pte, mbind, FST_bind.
  by rewrite page_mask, Hd0, Ee, He by done.
Qed.

Lemma page_is_user_accessible_spec R s d va : space_inv R s -> R !! d = Some RDir -> user_va va ->
  exists b, page_is_user_accessible d va s = Done s b /\ (b = true <-> mapped (abs R) d (vpn va)).
Proof.
  intros HI Hd Hva. destruct (dir_nonzero R s d HI Hd) as [Hdp Hd0]. pose proof (pt_index_range va) as Hj.
  unfold page_is_user_accessible. rewrite Hd0.
  unfold mbind, FST_bind. rewrite (rd_dir R) by done.
  destruct (lookup_va_ok R s d va HI Hd Hva) as [Ha Hn|t Ht He Ha Hn|t f w Ht He Hf He'].
  - rewrite not_user_absent by done. exists false. split; [done|]. split; [done|]. by intros ?%not_mapped.
  - rewrite (not_user_entry _ _ _ He). destruct He as [-> _].
    rewrite (rd_tab R s _ _ _ va HI Ht).
    rewrite not_user_absent by done. exists false. split; [done|]. split; [done|]. by intros ?%not_mapped.
  - rewrite (not_user_entry _ _ _ He). destruct He as [-> _].
    rewrite (rd_tab R s _ _ _ va HI Ht).
    rewrite (not_user_entry _ _ _ He'). exists true. split; [done|]. split; [|done]. intros _.
    exists f, w. by apply abs_frame.
Qed.

(** ** Unmapping and permissions *)

Lemma unmap_user_page_spec U R s d va : spaces U R s -> R !! d = Some RDir -> 0 <= va < 2 ^ 32 ->
  exists s' r, unmap_user_page d va s = Done s' r /\ kept U R s s' /\
    ((r = 0 /\ s' = s /\ ~ mapped (abs R) d (vpn va)) \/
     (r = 1 /\ exists f w, frame_of (abs R) d (vpn va) f w /\ spaces U (delete f R) s')).
Proof.
  intros HS Hd Hva. pose proof (sp_inv _ _ _ HS) as HI. pose proof (pt_index_range va) as Hj.
  unfold unmap_user_page. unfold mbind, FST_bind.
  destruct (user_pte_spec R s d va HI Hd Hva) as [[-> Hn]|(t & f & w & -> & Ht & Hf & He)].
  { exists s, 0. split_and!; [done|done|by left]. }
  destruct He as [Hfp Hfl]. rewrite Hfp. pose proof (si_taken _ _ HI _ _ Hf) as (Hpg & Hr & _). destruct layout_end.
  destruct (free_page_spec s f (si_pmm _ _ HI) Hpg) as (p' & -> & Hwf & Hfr); [lia|].
  pose proof (structural_page R s t HI (structural_tab R t _ _ Ht)) as (_ & Ht0 & Htl).
  rewrite (wr32_ent (with_pmm p' s)); [|exact (inv_low R s HI)|lia|done|done].
  eexists _, 1. split; [done|]. split.
  - intros p b Hp Hb. exact (store_kept U R s t (pt_index va) 0 HS (structural_tab R t _ _ Ht) Hj p b Hp Hb).
  - right. split; [done|]. exists f, w. split; [by apply abs_frame|].
    rewrite vpn_index in Hf. eapply (spaces_drop U R s); [done|exact Hf| |done|].
    + eapply (drop_frame R s t d); try done.
    + simpl. apply (window_store R); [done|by eapply structural_tab|done|]. left. by eapply role_not_kpd.
Qed.

Lemma set_user_page_writable_spec U R s d va writable : spaces U R s -> R !! d = Some RDir -> 0 <= va < 2 ^ 32 ->
  exists s' r, set_user_page_writable d va writable s = Done s' r /\ kept U R s s' /\
    ((r = 0 /\ s' = s /\ ~ mapped (abs R) d (vpn va)) \/
     (r = 1 /\ exists f w, frame_of (abs R) d (vpn va) f w /\
        spaces U (<[f := RFrame d (vpn va) (negb (writable =? 0))]> R) s')).
Proof.
  intros HS Hd Hva. pose proof (sp_inv _ _ _ HS) as HI. pose proof (pt_index_range va) as Hj.
  unfold set_user_page_writable. unfold mbind, FST_bind.
  destruct (user_pte_spec R s d va HI Hd Hva) as [[-> Hn]|(t & f & w & -> & Ht & Hf & He)].
  { exists s, 0. split_and!; [done|done|by left]. }
  rewrite (wr32_struct R) by (done || by eapply structural_tab).
  eexists _, 1. split; [done|]. split; [apply store_kept; [done|by eapply structural_tab|done]|].
  right. split; [done|]. exists f, w. split; [by apply abs_frame|].
  assert (forall e, 0 <= e < 2 ^ 32 -> user_entry e f (negb (writable =? 0)) ->
    spaces U (<[f := RFrame d (vpn va) (negb (writable =? 0))]> R)
      (set_phys (store32 (phys s) (t + 4 * pt_index va) e) s)) as Hset.
  { intros e Hu He'. eapply (spaces_set U R s); [done|exact Hf| |done|].
    - rewrite vpn_index in *. by eapply set_frame.
    - simpl. apply (window_store R); [done|by eapply structural_tab|done|]. left. by eapply role_not_kpd. }
  pose proof (ent_range (phys s) t (pt_index va)) as Hu. destruct (writable =? 0); simpl in *; apply Hset.
  - by apply (user_entry_ro _ f w). - by apply (user_entry_ro _ f w).
  - by apply (user_entry_rw _ f w). - by apply (user_entry_rw _ f w).
Qed.

(** ** Checking a range *)

Lemma is_user_range_iff ptr size : 0 <= ptr < 2 ^ 32 -> 0 <= size < 2 ^ 32 ->
  is_user_range ptr size = true <-> 0 < size /\ USER_VADDR_MIN <= ptr /\ ptr + size - 1 <= USER_VADDR_MAX.
Proof.
  intros Hp Hs. unfold is_user_range, USER_VADDR_MIN, USER_VADDR_MAX.
  destruct (Z.eqb_spec ptr 0); simpl; [split; [done|lia]|].
  destruct (Z.eqb_spec size 0); simpl; [split; [done|lia]|].
  assert (ptr +u size -u 1 = (ptr + size - 1) mod 2 ^ 32) as ->.
  { unfold u32. rewrite Zminus_mod_idemp_l. done. }
  destruct (Z.ltb_spec (ptr + size - 1) (2 ^ 32)).
  - rewrite Z.mod_small by lia. destruct (Z.ltb_spec (ptr + size - 1) ptr); [lia|].
    destruct (Z.ltb_spec ptr 0x40000000), (Z.ltb_spec 0xBFFFFFFF (ptr + size - 1)); simpl; split; (done || lia).
  - rewrite <- (Z.mod_unique (ptr + size - 1) (2 ^ 32) 1 (ptr + size - 1 - 2 ^ 32)) by lia.
    destruct (Z.ltb_spec (ptr + size - 1 - 2 ^ 32) ptr); [split; [done|lia]|lia].
Qed.

Lemma user_range_end ptr size : 0 <= ptr < 2 ^ 32 -> 0 <= size < 2 ^ 32 -> is_user_range ptr size = true ->
  ptr +u size -u 1 = ptr + size - 1.
Proof.
  intros Hp Hs (H0 & Hlo & Hhi)%is_user_range_iff; [|done..]. unfold USER_VADDR_MIN, USER_VADDR_MAX in *.
  rewrite (u32_small (ptr + size)) by lia. apply u32_small. lia.
Qed.

(** Outside the user range nothing is accessible. *)
Lemma page_accessible_any R s d va : space_inv R s -> R !! d = Some RDir -> 0 <= va < 2 ^ 32 ->
  exists b, page_is_user_accessible d va s = Done s b /\ (b = true <-> mapped (abs R) d (vpn va)).
Proof.
  intros HI Hd Hva. destruct (decide (USER_VADDR_MIN <= va <= USER_VADDR_MAX)) as [Hu|Hu];
    [by apply page_is_user_accessible_spec|].
  destruct (not_user_range R s d va HI Hd Hva Hu) as [(e & Ee & He) Hm]. exists false. split; [|done].
  destruct (dir_nonzero R s d HI Hd) as [Hdp Hd0]. unfold page_is_user_accessible, mbind, FST_bind.
  by rewrite Hd0, Ee, He.
Qed.

(** The loop visits the pages from the one of [addr] to the first that starts at
    [end_] or later. *)
Lemma accessible_loop_spec R s d n addr end_ : space_inv R s -> R !! d = Some RDir -> is_page addr ->
  addr < end_ + 4096 -> end_ <= USER_VADDR_MAX -> (end_ - addr) / 4096 + 1 < Z.of_nat n ->
  exists r, accessible_loop n d addr end_ s = Done s r /\
    ((r = 1 /\ forall v, addr / 4096 <= v <= (end_ + 4095) / 4096 -> mapped (abs R) d v) \/
     (r = 0 /\ exists v, addr / 4096 <= v <= (end_ + 4095) / 4096 /\ ~ mapped (abs R) d v)).
Proof.
  intros HI Hd. revert addr. induction n as [|n IH]; intros addr [Hm Hr] Hae He Hn.
  { assert (-1 <= (end_ - addr) / 4096) by (apply Z.div_le_lower_bound; lia). lia. }
  unfold USER_VADDR_MAX in *. pose proof (Z_div_mod_eq_full addr 4096) as Ha.
  assert (addr / 4096 <= (end_ + 4095) / 4096) as Hfirst by (apply Z.div_le_mono; lia).
  cbn [accessible_loop]. unfold mbind, FST_bind.
  destruct (page_accessible_any R s d addr HI Hd Hr) as (b & -> & Hb). destruct b; simpl.
  2: { exists 0. split; [done|right]. split; [done|]. exists (addr / 4096). split; [lia|]. intros Hmap.
       by apply Hb in Hmap. }
  assert (addr +u 4096 = addr + 4096) as E by (apply u32_small; lia). rewrite E.
  destruct (Z.ltb_spec (addr + 4096) addr); [lia|]. rewrite orb_false_r.
  destruct (Z.leb_spec end_ addr).
  { exists 1. split; [done|left]. split; [done|]. intros v Hv.
    assert ((end_ + 4095) / 4096 < addr / 4096 + 1) by (apply Z.div_lt_upper_bound; lia).
    assert (v = addr / 4096) as -> by lia. by apply Hb. }
  assert ((addr + 4096) / 4096 = addr / 4096 + 1) as E1.
  { replace (addr + 4096) with (addr + 1 * 4096) by lia. by rewrite Z.div_add. }
  destruct (IH (addr + 4096)) as (r & -> & Hcase); [|lia|lia| |].
  { split; [|lia]. replace (addr + 4096) with (addr + 1 * 4096) by lia. by rewrite Z.mod_add. }
  { replace (end_ - addr) with (end_ - (addr + 4096) + 1 * 4096) in Hn by lia. rewrite Z.div_add in Hn by lia. lia. }
  rewrite E1 in Hcase. exists r. split; [done|]. destruct Hcase as [[-> Hall]|[-> (v & Hv & Hnot)]]; [left|right].
  - split; [done|]. intros v Hv. destruct (decide (v = addr / 4096)) as [->|]; [by apply Hb|apply Hall; lia].
  - split; [done|]. exists v. split; [lia|done].
Qed.

(** The answer for a range: 1 exactly when it lies in the user range and all pages up
    to the first that starts at its last byte or later are mapped. *)
Lemma is_user_range_accessible_spec R s d ptr size : space_inv R s -> R !! d = Some RDir ->
  0 <= ptr < 2 ^ 32 -> 0 <= size < 2 ^ 32 ->
  exists r, is_user_range_accessible d ptr size s = Done s r /\
    ((r = 1 /\ is_user_range ptr size = true /\
      forall v, ptr / 4096 <= v <= (ptr + size - 1 + 4095) / 4096 -> mapped (abs R) d v) \/
     (r = 0 /\ (is_user_range ptr size = false \/
        exists v, ptr / 4096 <= v <= (ptr + size - 1 + 4095) / 4096 /\ ~ mapped (abs R) d v))).
Proof.
  intros HI Hd Hp Hs. destruct (dir_nonzero R s d HI Hd) as [Hdp Hd0].
  unfold is_user_range_accessible. rewrite page_mask, Hd0 by done.
  destruct (is_user_range ptr size) eqn:E; cbn [negb orb]; [|exists 0; split; [done|right; auto]].
  rewrite user_range_end by done. pose proof (proj1 (is_user_range_iff ptr size Hp Hs) E) as (H0 & Hlo & Hhi).
  rewrite land_PAGE_MASK by done. pose proof (Z_div_mod_eq_full ptr 4096) as Hdm.
  pose proof (Z.mod_pos_bound ptr 4096 ltac:(lia)) as Hmod.
  destruct (accessible_loop_spec R s d (3 + Z.to_nat (size / 4096)) (ptr / 4096 * 4096) (ptr + size - 1))
    as (r & -> & Hcase); [done|done| |lia|lia| |].
  { split; [by apply Z.mod_mul|lia]. }
  { assert (0 <= size / 4096) by (apply Z.div_pos; lia). rewrite Nat2Z.inj_add, Z2Nat.id by done.
    assert ((ptr + size - 1 - ptr / 4096 * 4096) / 4096 < size / 4096 + 2); [|lia].
    pose proof (Z_div_mod_eq_full size 4096). pose proof (Z.mod_pos_bound size 4096 ltac:(lia)).
    apply Z.div_lt_upper_bound; lia. }
  rewrite Z.div_mul in Hcase by lia. exists r. split; [done|].
  destruct Hcase as [[-> ?]|[-> ?]]; [by left|right; auto].
Qed.

End Calls.
