(* ===== verification/SpaceClone.v ===== *)
(** * Address spaces: creation and release

    [create_user_page_directory] and [destroy_user_address_space]: a new directory is
    an empty address space, and a release gives back every page of one. *)
From S2P Require Import Prelude Fault Bytes Pmm Memory Paging Spaces SpaceOps SpaceCalls.

Section Calls.
Context `{KL : KernelLayout}.
Implicit Types (R : roles) (s : Machine) (m : gmap Z Z) (U : gset Z).

(** ** Creation *)

(** The copy of a kernel entry in a user directory. *)
Definition copied (e : Z) : Z := if negb (Z.land e PAGE_PRESENT =? 0) then Z.land e (Z.lnot PAGE_USER) else 0x00000002.

Lemma copied_land e b : Z.land 4 b = 0 -> negb (Z.land e PAGE_PRESENT =? 0) = true -> 0 <= b < 2 ^ 32 ->
  Z.land (copied e) b = Z.land e b.
Proof.
  intros Hb Hp Hr. unfold copied. rewrite Hp, <- Z.land_assoc. f_equal.
  apply Z.bits_inj'. intros n Hn. rewrite Z.land_spec, Z.lnot_spec by done.
  change PAGE_USER with 4. assert (Z.testbit (Z.land 4 b) n = false) as Ht by (by rewrite Hb, Z.bits_0).
  rewrite Z.land_spec in Ht. by destruct (Z.testbit 4 n), (Z.testbit b n).
Qed.

Lemma copied_kernel e p : kernel_entry e p -> kernel_entry (copied e) p.
Proof.
  intros [Hp H1]. assert (negb (Z.land e PAGE_PRESENT =? 0) = true) as Hn by (by change PAGE_PRESENT with 1; rewrite H1).
  split; by rewrite copied_land.
Qed.

Lemma copied_absent e : absent e -> absent (copied e).
Proof. unfold absent, copied. intros He. change PAGE_PRESENT with 1. by rewrite He. Qed.

Lemma copied_not_user e : not_user (copied e) = true.
Proof.
  unfold not_user. destruct (negb (Z.land e PAGE_PRESENT =? 0)) eqn:E.
  - unfold copied. rewrite E, <- (Z.land_assoc e (Z.lnot PAGE_USER) PAGE_USER).
    change (Z.land (Z.lnot PAGE_USER) PAGE_USER) with 0. rewrite Z.land_0_r. apply orb_true_r.
  - unfold copied. by rewrite E.
Qed.

Lemma copied_range e : 0 <= e < 2 ^ 32 -> u32 (copied e) = copied e.
Proof. intros He. apply u32_small. unfold copied. destruct (negb _); [by apply word_land|lia]. Qed.

Lemma create_spec U R s : spaces U R s ->
  wpf low_full create_user_page_directory (fun s' d => kept U R s s' /\ cr3 s' = cr3 s /\
    ((d = 0 /\ spaces U R s' /\ all_used s) \/
     (d <> 0 /\ is_page d /\ R !! d = None /\ spaces U (<[d := RDir]> R) s'))) s.
Proof.
  intros HS. pose proof (sp_inv _ _ _ HS) as HI. unfold create_user_page_directory.
  destruct (spaces_alloc U R s HS) as (p' & a & Ea & [(-> & Hfull & HS1)|(Ha0 & HaU & Hf & HS1 & Hdata & HL)]);
    (eapply wpf_step; [exact Ea|]).
  { apply wpf_ret. split_and!; [done|done|]. by left. }
  destruct (Z.eqb_spec a 0); [done|]. set (s1 := with_pmm p' s) in *. pose proof Hf as ((Hpg & Hr & _) & Hn & _).
  pose proof (sp_inv _ _ _ HS1) as HI1.
  eapply wpf_seq.
  { apply (fill_gen R s1 a _ (fun i => copied (ent (phys s1) page_directory i))); [done..|].
    intros i m' Hi Ho. unfold mbind at 1, FST_bind at 1.
    rewrite (rd32_struct R (set_phys m' s1) _ i (fresh_inv R s1 a m' HI1 Hf Ho) (structural_kpd R) Hi).
    simpl phys. rewrite (fresh_same R s1 a m' HI1 Hf Ho page_directory i (structural_kpd R) Hi). done. }
  intros s2 _ (m' & -> & Hl & Ho & Hent). apply wpf_ret.
  pose proof (fresh_same R s1 a m' HI1 Hf Ho) as Hsame.
  assert (spaces (U ∪ {[a]}) R (set_phys m' s1)) as HS2.
  { apply (spaces_same _ _ s1); [done|by eapply fresh_inv|done|by apply (window_same R s1)]. }
  assert (forall i, 0 <= i < 1024 -> ent m' a i = copied (ent m' page_directory i)) as Hc.
  { intros i Hi. rewrite Hent, copied_range by (done || apply ent_range).
    by rewrite (Hsame page_directory i (structural_kpd R) Hi). }
  pose proof (sp_inv _ _ _ HS2) as HI2. split_and!; [|done|].
  - intros p b Hp Hb. exact (outside_kept U R s a m' HS Hpg Hdata Ho p b Hp Hb).
  - right. split_and!; [done|done|done|]. apply (spaces_give U R (set_phys m' s1)); try done.
    apply make_dir; [done|apply (sp_fresh _ _ _ HS2); set_solver|done| | |]; simpl.
    + destruct (si_kpd _ _ HI2) as (H0 & H1 & H2). simpl in *. unfold maps_low. rewrite !Hc by lia.
      split_and!; [by apply copied_kernel..|]. intros i Hi. rewrite Hc by lia. apply copied_absent. auto.
    + split; [|intros i Hi _; rewrite Hc by done; apply copied_not_user]. unfold window_of.
      rewrite Hc by (unfold WINDOW; lia). destruct (si_window _ _ HI2) as [[He _]|[He _]]; simpl in He.
      * left. by apply copied_absent.
      * right. split; [by apply copied_kernel|done].
    + intros i Hi. rewrite Hc by (unfold user_pde in Hi; lia). apply copied_absent. by apply (si_kpd_user _ _ HI2).
Qed.

(** ** Release *)

(** The parts released before entry [j] of table [i] of [d]. *)
Definition gone (d i j : Z) (r : role) : bool :=
  match r with
  | RDir => false
  | RTab d' k => (d' =? d) && (k <? i)
  | RFrame d' v _ => (d' =? d) && (v <? 1024 * i + j)
  end.

Definition survives R (d i j : Z) R' : Prop :=
  forall p r, R' !! p = Some r <-> R !! p = Some r /\ gone d i j r = false.

Lemma gone_next d i j r : gone d i (j + 1) r = gone d i j r || (match r with RFrame d' v _ => (d' =? d) && (v =? 1024 * i + j) | _ => false end).
Proof.
  destruct r as [|d' k|d' v w]; simpl; [done|by rewrite orb_false_r|].
  destruct (d' =? d); simpl; [|done].
  destruct (Z.ltb_spec v (1024 * i + (j + 1))), (Z.ltb_spec v (1024 * i + j)), (Z.eqb_spec v (1024 * i + j)); (done || lia).
Qed.

Lemma survives_frame R R' s d i j f w : survives R d i j R' -> space_inv R' s ->
  R' !! f = Some (RFrame d (1024 * i + j) w) -> survives R d i (j + 1) (delete f R').
Proof.
  intros Hs HI Hf p r. rewrite lookup_delete_Some, (Hs p r), gone_next. split.
  - intros (Hne & Hp & Hg). split; [done|]. rewrite Hg. simpl. destruct r as [|?|d' v w']; try done.
    destruct (Z.eqb_spec d' d) as [->|], (Z.eqb_spec v (1024 * i + j)) as [->|]; try done. exfalso. apply Hne.
    assert (R' !! p = Some (RFrame d (1024 * i + j) w')) as Hp' by (by apply Hs).
    by destruct (frame_unique R' s _ _ _ _ _ _ HI Hf Hp').
  - intros [Hp [Hg Hlast]%orb_false_iff]. split; [|done]. intros ->.
    apply Hs in Hf as [Hf _]. rewrite Hp in Hf. injection Hf as ->. by rewrite !Z.eqb_refl in Hlast.
Qed.

Lemma survives_none R R' d i j : survives R d i j R' -> (forall f w, R' !! f <> Some (RFrame d (1024 * i + j) w)) ->
  survives R d i (j + 1) R'.
Proof.
  intros Hs Hn p r. rewrite (Hs p r), gone_next. split; [|intros [? [? _]%orb_false_iff]; done].
  intros [Hp Hg]. split; [done|]. rewrite Hg. simpl. destruct r as [|?|d' v w]; try done.
  destruct (Z.eqb_spec d' d) as [->|], (Z.eqb_spec v (1024 * i + j)) as [->|]; try done.
  exfalso. apply (Hn p w). by apply Hs.
Qed.

Lemma store_kept_from U R0 s0 s q i v : spaces U R0 s0 -> structural R0 q -> 0 <= i < 1024 ->
  kept U R0 s0 s -> kept U R0 s0 (set_phys (store32 (phys s) (q + 4 * i) v) s).
Proof.
  intros HS Hq Hi Hk p b Hp Hb. rewrite <- (Hk p b Hp Hb).
  destruct (data_page_facts U R0 s0 p HS Hp) as [Hpg Hne].
  apply load8_store32_other. destruct (structural_page R0 s0 q (sp_inv _ _ _ HS) Hq) as (Hqg & _).
  pose proof (page_apart q p Hqg Hpg (Hne q Hq)). lia.
Qed.

Section Destroy.
Context U R0 s0 (d : Z) (HS0 : spaces U R0 s0) (Hd0 : R0 !! d = Some RDir).

(** The state before entry [j] of table [i]. *)
Definition progress (i j : Z) R s : Prop :=
  spaces U R s /\ survives R0 d i j R /\ kept U R0 s0 s /\ cr3 s = cr3 s0.

Lemma survives_lookup R i j p r : survives R0 d i j R -> R !! p = Some r -> R0 !! p = Some r.
Proof. intros Hs Hp. by apply Hs in Hp as [? _]. Qed.

Lemma destroy_table_step R s t i j : progress i j R s -> R !! t = Some (RTab d i) -> 0 <= j < 1024 ->
  (forall k, 0 <= k < j -> absent (ent (phys s) t k)) ->
  exists R' s', (pte ← rd32 (t + 4 * j);
     if not_user pte then mret tt
     else free_page (Z.land pte PAGE_MASK) ≫= fun _ => wr32 (t + 4 * j) 0) s = Done s' tt /\
    progress i (j + 1) R' s' /\ R' !! t = Some (RTab d i) /\
    (forall k, 0 <= k < j + 1 -> absent (ent (phys s') t k)) /\
    (forall k, 0 <= k < 1024 -> ent (phys s') d k = ent (phys s) d k).
Proof.
  intros (HS & Hsv & Hk & Hc) Ht Hj Hz. pose proof (sp_inv _ _ _ HS) as HI.
  pose proof (structural_tab R t d i Ht) as Hst. unfold mbind at 1, FST_bind at 1.
  rewrite (rd32_struct R s t j HI Hst Hj).
  destruct (proj2 (proj2 (proj2 (proj2 (si_roles _ _ HI _ _ Ht)))) j Hj) as [Ha|(f & w & He & Hf)].
  { rewrite not_user_absent by done. exists R, s. split_and!; [done| |done| |done].
    - split_and!; [done| |done|done]. apply survives_none; [done|]. intros f w Hf.
      by apply (absent_user _ _ _ (frame_entry R s t d i j f w HI Ht Hj Hf)).
    - intros k Hk'. destruct (decide (k = j)) as [->|]; [done|]. apply Hz. lia. }
  rewrite (not_user_entry _ _ _ He). destruct He as [Hfp _]. rewrite Hfp.
  pose proof (si_taken _ _ HI _ _ Hf) as (Hpg & Hr & _). destruct layout_end.
  destruct (free_page_spec s f (si_pmm _ _ HI) Hpg) as (p' & Ef & Hwf & Hfr); [lia|].
  unfold mbind, FST_bind. rewrite Ef. pose proof (structural_page R s t HI Hst) as (Htp & Ht0 & Htl).
  rewrite (wr32_ent (with_pmm p' s)); [|exact (inv_low R s HI)|lia|done|done].
  assert (R !! d = Some RDir) as Hd by (by apply (si_roles _ _ HI) in Ht as (_ & _ & ? & _)).
  exists (delete f R). eexists. split_and!; [done| | | |].
  - split_and!; [|by eapply survives_frame| |done].
    + apply (spaces_drop U R s _ f (RFrame d (1024 * i + j) w)); [done|done| |done|].
      * by apply (drop_frame R s t d i j f w).
      * simpl. apply (window_store R); [done|done|done|]. left. by eapply role_not_kpd.
    + apply (store_kept_from U R0 s0 (with_pmm p' s)); [done| |done|done].
      eapply structural_tab, survives_lookup; done.
  - rewrite lookup_delete_ne; [done|]. congruence.
  - intros k Hk'. simpl. rewrite ent_store by (done || lia). rewrite Z.eqb_refl. simpl.
    destruct (Z.eqb_spec j k) as [<-|]; [done|]. apply Hz. lia.
  - intros k Hk'. simpl. rewrite ent_store by (done || lia || apply (si_taken _ _ HI _ _ Hd)).
    destruct (Z.eqb_spec t d); [congruence|done].
Qed.

Lemma destroy_table_spec R s t i : progress i 0 R s -> R !! t = Some (RTab d i) ->
  wpf (fun _ => False) (destroy_table t) (fun s' _ => exists R', progress i 1024 R' s' /\ R' !! t = Some (RTab d i) /\
    (forall k, 0 <= k < 1024 -> absent (ent (phys s') t k)) /\
    (forall k, 0 <= k < 1024 -> ent (phys s') d k = ent (phys s) d k)) s.
Proof.
  intros HP Ht. eapply wpf_mono; [apply (wpf_each _ _ (fun j s1 => exists R', progress i j R' s1 /\
    R' !! t = Some (RTab d i) /\ (forall k, 0 <= k < j -> absent (ent (phys s1) t k)) /\
    (forall k, 0 <= k < 1024 -> ent (phys s1) d k = ent (phys s) d k)))|].
  - exists R. split_and!; [done|done| |done]. intros k Hk. lia.
  - intros j s1 Hj (R1 & HP1 & Ht1 & Hz1 & Hd1).
    destruct (destroy_table_step R1 s1 t i j) as (R' & s' & E & HP' & Ht' & Hz' & Hd'); [done..|lia|done|].
    unfold wpf. rewrite E. exists R'. split_and!; [done..|]. intros k Hk. by rewrite Hd', Hd1.
  - intros s' _ (R' & HP' & Ht' & Hz). by exists R'.
Qed.

Lemma gone_table i r :
  gone d (i + 1) 0 r = gone d i 1024 r || (match r with RTab d' k => (d' =? d) && (k =? i) | _ => false end).
Proof.
  destruct r as [|d' k|d' v w]; simpl; [done| |].
  - destruct (d' =? d); simpl; [|done]. destruct (Z.ltb_spec k (i + 1)), (Z.ltb_spec k i), (Z.eqb_spec k i); (done || lia).
  - rewrite orb_false_r. do 2 f_equal. lia.
Qed.

Lemma survives_table R s t i : survives R0 d i 1024 R -> space_inv R s -> R !! t = Some (RTab d i) ->
  survives R0 d (i + 1) 0 (delete t R).
Proof.
  intros Hs HI Ht p r. rewrite lookup_delete_Some, (Hs p r), gone_table. split.
  - intros (Hne & Hp & Hg). split; [done|]. rewrite Hg. simpl. destruct r as [|d' k|?]; try done.
    destruct (Z.eqb_spec d' d) as [->|], (Z.eqb_spec k i) as [->|]; try done. exfalso. apply Hne.
    apply (table_unique R s t p d i); [done|done|]. by apply Hs.
  - intros [Hp [Hg Hlast]%orb_false_iff]. split; [|done]. intros ->.
    apply Hs in Ht as [Ht _]. rewrite Hp in Ht. injection Ht as ->. by rewrite !Z.eqb_refl in Hlast.
Qed.

(** A part of the address space without a table. *)
Lemma survives_no_table R s i : survives R0 d i 0 R -> space_inv R s -> absent (ent (phys s) d i) ->
  survives R0 d (i + 1) 0 R.
Proof.
  intros Hs HI Ha.
  assert (forall t, R !! t <> Some (RTab d i)) as Hnt.
  { intros t (_ & _ & _ & He & _)%(si_roles _ _ HI). by apply (absent_user _ _ _ He). }
  intros p r. rewrite (Hs p r), gone_table. split.
  - intros [Hp Hg]. assert (R !! p = Some r) as Hp' by (by apply Hs). split; [done|]. apply orb_false_iff.
    destruct r as [|d' k|d' v w]; simpl in *; [done| |].
    + split; [done|]. destruct (Z.eqb_spec d' d) as [->|], (Z.eqb_spec k i) as [->|]; try done. by apply Hnt in Hp'.
    + split; [|done]. destruct (Z.eqb_spec d' d) as [->|]; simpl in *; [|done]. apply Z.ltb_ge in Hg. apply Z.ltb_ge.
      destruct (decide (1024 * i + 1024 <= v)); [done|]. exfalso.
      apply (si_roles _ _ HI) in Hp' as (t & Ht & _).
      assert (v / 1024 = i) as E by (symmetry; apply (Z.div_unique _ _ _ (v - 1024 * i)); lia).
      rewrite E in Ht. by apply Hnt in Ht.
  - intros [Hp [Hg _]%orb_false_iff]. split; [done|].
    destruct r as [|d' k|d' v w]; simpl in *; [done|done|]. destruct (d' =? d); simpl in *; [|done].
    apply Z.ltb_ge in Hg. apply Z.ltb_ge. lia.
Qed.

Lemma destroy_entry_spec R s i : progress i 0 R s -> user_pde i ->
  (forall k, 256 <= k < i -> absent (ent (phys s) d k)) ->
  wpf (fun _ => False) (destroy_entry d i) (fun s' _ => exists R', progress (i + 1) 0 R' s' /\
    forall k, 256 <= k < i + 1 -> absent (ent (phys s') d k)) s.
Proof.
  intros HP Hi Hz. pose proof HP as (HS & Hsv & Hk & Hc). pose proof (sp_inv _ _ _ HS) as HI.
  assert (0 <= i < 1024) as Hi' by (unfold user_pde in Hi; lia).
  assert (R !! d = Some RDir) as Hd by (by apply Hsv). unfold destroy_entry.
  eapply wpf_step; [apply (rd32_struct R); [done|by apply structural_dir|done]|].
  destruct (proj2 (proj2 (proj2 (si_roles _ _ HI _ _ Hd))) i Hi) as [Ha|(t & He & Ht)].
  { rewrite not_user_absent by done. apply wpf_ret. exists R. split.
    - split_and!; [done|by eapply survives_no_table|done|done].
    - intros k Hk'. destruct (decide (k = i)) as [->|]; [done|]. apply Hz. lia. }
  rewrite (not_user_entry _ _ _ He). destruct He as [Htp _]. rewrite Htp.
  eapply wpf_seq; [by apply (destroy_table_spec R)|].
  intros s1 _ (R1 & (HS1 & Hsv1 & Hk1 & Hc1) & Ht1 & Hz1 & Hsame). pose proof (sp_inv _ _ _ HS1) as HI1.
  assert (R1 !! d = Some RDir) as Hd1 by (by apply Hsv1).
  pose proof (si_taken _ _ HI1 _ _ Ht1) as (Hpg & Hr & _). destruct layout_end.
  destruct (free_page_spec s1 t (si_pmm _ _ HI1) Hpg) as (p' & Ef & Hwf & Hfr); [lia|].
  eapply wpf_step; [exact Ef|]. unfold wpf.
  pose proof (structural_page R1 s1 d HI1 (structural_dir _ _ Hd1)) as (Hdp & Hd0' & Hdl).
  rewrite (wr32_ent (with_pmm p' s1)); [|exact (inv_low R1 s1 HI1)|lia|done|done].
  exists (delete t R1). split; [split_and!|].
  - apply (spaces_drop U R1 s1 _ t (RTab d i)); [done|done| |done|].
    + by apply (drop_table R1 s1 t d i).
    + simpl. apply (window_store R1); [done|by apply structural_dir|done|]. left. by eapply role_not_kpd.
  - by eapply survives_table.
  - apply (store_kept_from U R0 s0 (with_pmm p' s1)); [done|by apply structural_dir|done|done].
  - done.
  - intros k Hk'. simpl. rewrite ent_store by (done || lia). rewrite Z.eqb_refl. simpl.
    destruct (Z.eqb_spec i k) as [<-|]; [done|]. rewrite Hsame by lia. apply Hz. lia.
Qed.
End Destroy.

(** The parts of the address space [d]. *)
Definition of_dir (d p : Z) (r : role) : bool :=
  (p =? d) || match r with RDir => false | RTab d' _ => d' =? d | RFrame d' _ _ => d' =? d end.
Definition drop_space (d : Z) (A : roles) : roles := filter (fun p => of_dir d p.1 p.2 = false) A.

Lemma drop_space_lookup d A p r : drop_space d A !! p = Some r <-> A !! p = Some r /\ of_dir d p r = false.
Proof. unfold drop_space. by rewrite map_lookup_filter_Some. Qed.

Lemma abs_drop_space d R : abs (drop_space d R) = drop_space d (abs R).
Proof.
  apply map_eq. intros p. apply option_eq. intros r.
  rewrite abs_lookup, !drop_space_lookup, abs_lookup. naive_solver.
Qed.

(** A release gives back every page of the address space and nothing else. *)
Lemma destroy_spec U R s d : spaces U R s -> R !! d = Some RDir -> cr3 s <> d ->
  wpf (fun _ => False) (destroy_user_address_space d) (fun s' _ =>
    spaces U (drop_space d R) s' /\ kept U R s s' /\ cr3 s' = cr3 s) s.
Proof.
  intros HS Hd Hc. pose proof (sp_inv _ _ _ HS) as HI. destruct (dir_nonzero R s d HI Hd) as [Hdp Hd0].
  unfold destroy_user_address_space. rewrite page_mask, Hd0 by done.
  destruct (Z.eqb_spec d page_directory) as [E|]; [by destruct (role_not_kpd R s d RDir)|]. cbn [orb].
  eapply wpf_seq.
  { apply (wpf_each _ _ (fun i s1 => exists R1, progress U R s d i 0 R1 s1 /\
      forall k, 256 <= k < i -> absent (ent (phys s1) d k))).
    - exists R. split; [split_and!|]; try done.
      + intros p r. split; [|by intros [? _]]. intros Hp. split; [done|].
        pose proof (si_roles _ _ HI _ _ Hp) as Hok. unfold USER_PDE_MIN, USER_VADDR_MIN. change (Z.shiftr 0x40000000 22) with 256.
        destruct r as [|d' k|d' v w]; simpl in *; [done| |]; destruct (d' =? d); simpl; try done; apply Z.ltb_ge.
        * destruct Hok as (_ & Hk & _). unfold user_pde in Hk. lia.
        * destruct Hok as (t & (_ & Hk & _)%(si_roles _ _ HI) & _). unfold user_pde in Hk.
          pose proof (Z_div_mod_eq_full v 1024). pose proof (Z.mod_pos_bound v 1024). lia.
      + intros k Hk. exfalso. unfold USER_PDE_MIN, USER_VADDR_MIN in Hk. change (Z.shiftr 0x40000000 22) with 256 in Hk. lia.
    - intros i s1 Hi (R1 & HP & Hz). apply (destroy_entry_spec U R s d HS Hd R1); [done| |done].
      change (256 <= i < 256 + 512) in Hi. unfold user_pde. lia. }
  intros s1 _ (R1 & (HS1 & Hsv & Hk & Hc1) & Hz). change (USER_PDE_MIN + Z.of_nat USER_PDES) with 768 in *.
  pose proof (sp_inv _ _ _ HS1) as HI1. assert (R1 !! d = Some RDir) as Hd1 by (by apply Hsv).
  pose proof (si_taken _ _ HI1 _ _ Hd1) as (_ & Hr & _). destruct layout_end.
  destruct (free_page_spec s1 d (si_pmm _ _ HI1) Hdp) as (p' & Ef & Hwf & Hfr); [lia|].
  unfold wpf. rewrite Ef. assert (drop_space d R = delete d R1) as ->.
  { apply map_eq. intros p. apply option_eq. intros r. rewrite drop_space_lookup, lookup_delete_Some, (Hsv p r).
    unfold of_dir. rewrite orb_false_iff, Z.eqb_neq. split.
    - intros (Hp & Hpd & Hr'). split_and!; [done|done|]. by destruct r as [|d' k|d' v w]; simpl; [|rewrite Hr'..].
    - intros (Hpd & Hp & Hg). split_and!; [done|done|]. pose proof (si_roles _ _ HI _ _ Hp) as Hok.
      destruct r as [|d' k|d' v w]; simpl in *; [done| |]; destruct (d' =? d); simpl in *; try done; apply Z.ltb_ge in Hg; exfalso.
      + destruct Hok as (_ & Hk' & _). unfold user_pde in Hk'. lia.
      + destruct Hok as (t & (_ & Hk' & _)%(si_roles _ _ HI) & _). unfold user_pde in Hk'.
        pose proof (Z_div_mod_eq_full v 1024). pose proof (Z.mod_pos_bound v 1024). lia. }
  split_and!; [|done|done]. apply (spaces_drop U R1 s1 _ d RDir); [done|done| |done|done].
  apply drop_dir; [done|done|by rewrite Hc1| |done|done]. intros i Hi. apply Hz. unfold user_pde in Hi. lia.
Qed.

End Calls.
