(* ===== verification/SpaceCopy.v ===== *)
(** * Address spaces: copying

    The kernel copies a frame through two temporary mappings in the window, the page
    table behind the directory entry 255.  [clone_user_address_space] copies every
    frame of an address space. *)
From S2P Require Import Prelude Fault Bytes Pmm Memory Paging Spaces SpaceOps SpaceCalls SpaceClone.

Section Window.
Context `{KL : KernelLayout}.
Implicit Types (R : roles) (s : Machine) (m : gmap Z Z) (U : gset Z).

(** ** The window *)

Definition window_open s : Prop := kernel_entry (ent (phys s) page_directory WINDOW) (window (phys s)).

Lemma window_page U R s : spaces U R s -> window_open s ->
  is_page (window (phys s)) /\ 0 <= window (phys s) /\ window (phys s) + 4096 <= LOW /\
  (forall q, structural R q -> q <> window (phys s)) /\ (forall p, data_page U R p -> p <> window (phys s)).
Proof.
  intros HS Ho. pose proof (sp_inv _ _ _ HS) as HI.
  destruct (si_window _ _ HI) as [[Ha _]|[_ Hc]]; [by destruct (kernel_not_absent _ _ Ho)|].
  destruct Hc as [Hz|(Ht & Hl & Hn)].
  - rewrite Hz. split_and!; [split; [done|lia]|lia|by unfold LOW| |].
    + intros q Hq. pose proof (structural_page R s q HI Hq). lia.
    + intros p Hp ->. destruct Hp as [Hp|(d & v & w & Hp)].
      * destruct (sp_fresh _ _ _ HS _ Hp) as ((_ & ? & _) & _). destruct layout_end. lia.
      * pose proof (si_taken _ _ HI _ _ Hp) as (_ & ? & _). destruct layout_end. lia.
  - pose proof Ht as (Hpg & Hr & _). destruct layout_end.
    split_and!; [done|lia|apply page_below; [done|apply LOW_page|done]| |].
    + intros q Hq Hqw. destruct layout_pd, layout_first, layout_second.
      destruct Hq as [?|[?|[?|[Hq|(d & i & Hq)]]]]; (lia || congruence).
    + intros p Hp Hpw. destruct Hp as [Hp|(d & v & w & Hp)]; [|congruence].
      by destruct (sp_fresh _ _ _ HS _ Hp) as (_ & _ & ?).
Qed.

(** Stores into the window's table. *)
Lemma window_write U R s k v : spaces U R s -> window_open s -> 0 <= k < 1024 ->
  wr32 (window (phys s) + 4 * k) v s = Done (set_phys (store32 (phys s) (window (phys s) + 4 * k) v) s) tt /\
  spaces U R (set_phys (store32 (phys s) (window (phys s) + 4 * k) v) s) /\
  kept U R s (set_phys (store32 (phys s) (window (phys s) + 4 * k) v) s) /\
  same_tables R (phys s) (store32 (phys s) (window (phys s) + 4 * k) v).
Proof.
  intros HS Ho Hk. destruct (window_page U R s HS Ho) as (Hpg & H0 & Hl & Hst & Hd).
  pose proof (sp_inv _ _ _ HS) as HI.
  assert (same_tables R (phys s) (store32 (phys s) (window (phys s) + 4 * k) v)) as Hsame.
  { intros q i Hq Hi. apply (outside_ent (window (phys s))); [by apply outside_store32|done| |by apply Hst|done].
    by apply (structural_page R s q HI). }
  split_and!; [|apply (spaces_same U R s)| |done]; try done.
  - apply wr32_ent; [by apply (inv_low R)|lia..|done].
  - by apply inv_memory.
  - by apply (window_same R s).
  - intros p b Hp Hb. apply (outside_store32 _ k _ v Hk). destruct (data_page_facts U R s p HS Hp) as [Hpp _].
    pose proof (page_apart p _ Hpp Hpg (Hd p Hp)). lia.
Qed.

Definition window_va (va : Z) : Prop := pd_index va = WINDOW.

(** The entry of the window for an address. *)
Definition window_entry s (va : Z) : Z := ent (phys s) (window (phys s)) (pt_index va).

(** What a temporary mapping leaves as it was. *)
Record mapped_window U R s s' (p va : Z) : Prop := {
  mw_spaces : spaces U R s';
  mw_kept : kept U R s s';
  mw_cr3 : cr3 s' = cr3 s;
  mw_open : window_open s';
  mw_entry : window_entry s' va = Z.lor p 3;
  mw_other : window_open s -> forall va', pt_index va' <> pt_index va -> window_entry s' va' = window_entry s va'
}.

Lemma map_entry p : is_page p -> Z.lor (Z.land p PAGE_MASK) (Z.land (Z.lor PAGE_PRESENT PAGE_RW) 0xFFF) = Z.lor p 3.
Proof. intros Hp. by rewrite page_mask. Qed.

(** The end of [map_page]: the entry is set in the window's table. *)
Lemma map_window_set U R s p va : spaces U R s -> window_open s -> is_page p ->
  wpf low_full (wr32 (window (phys s) + 4 * pt_index va)
    (Z.lor (Z.land p PAGE_MASK) (Z.land (Z.lor PAGE_PRESENT PAGE_RW) 0xFFF)))
    (fun s' _ => mapped_window U R s s' p va) s.
Proof.
  intros HS Ho Hp. pose proof (pt_index_range va) as Hk. rewrite map_entry by done.
  destruct (window_page U R s HS Ho) as (Hpg & _).
  destruct (window_write U R s (pt_index va) (Z.lor p 3) HS Ho Hk) as (E & HS' & Hkept & Hsame).
  pose proof (window_same R s _ Hsame) as Hw. unfold wpf. rewrite E. constructor; try done.
  - unfold window_open. simpl. rewrite Hw. rewrite (Hsame page_directory WINDOW (structural_kpd R)) by (unfold WINDOW; lia). done.
  - unfold window_entry. simpl. rewrite Hw, ent_store, !Z.eqb_refl by done. simpl. by apply u32_small, entry_range.
  - intros _ va' Hne. unfold window_entry. simpl. rewrite Hw, ent_store by (done || apply pt_index_range).
    rewrite Z.eqb_refl. simpl. by destruct (Z.eqb_spec (pt_index va) (pt_index va')).
Qed.

(** ** Opening the window *)

(** The directory entry of the window is set to a page [w]: page 0 when there was no
    memory, or a page of the kernel's own. *)
Lemma open_window U U' R s w : spaces U' R s -> absent (ent (phys s) page_directory WINDOW) ->
  is_page w -> w < LOW ->
  (w = 0 /\ U' = U \/ w ∉ U /\ U' = U ∪ {[w]}) ->
  let s' := set_phys (store32 (phys s) (page_directory + 4 * WINDOW) (Z.lor (Z.lor (Z.land w PAGE_MASK) PAGE_PRESENT) PAGE_RW)) s in
  spaces U R s' /\ window_open s' /\ window (phys s') = w /\ kept U' R s s'.
Proof.
  intros HS Ha Hw Hl HU s'. pose proof (sp_inv _ _ _ HS) as HI. pose proof (structural_kpd R) as Hk.
  assert (0 <= WINDOW < 1024) as Hi by (unfold WINDOW; lia).
  assert (Z.lor (Z.lor (Z.land w PAGE_MASK) PAGE_PRESENT) PAGE_RW = Z.lor w 3) as Ee.
  { rewrite page_mask, <- Z.lor_assoc by done. done. }
  assert (kernel_entry (u32 (Z.lor w 3)) w) as Hke by (by apply kernel_entry_built).
  assert (ent (phys s') page_directory WINDOW = u32 (Z.lor w 3)) as Hent.
  { unfold s'. rewrite Ee. simpl. rewrite ent_store, !Z.eqb_refl by (done || apply layout_pd). done. }
  assert (window (phys s') = w) as Hwin by (unfold window; rewrite Hent; apply Hke).
  assert (forall q i, is_page q -> 0 <= i < 1024 -> q <> page_directory \/ i <> WINDOW ->
    ent (phys s') q i = ent (phys s) q i) as Hother.
  { intros q i Hq Hi' Hne. unfold s'. simpl. rewrite ent_store by (done || apply layout_pd).
    destruct (Z.eqb_spec page_directory q), (Z.eqb_spec WINDOW i); done || lia. }
  assert (forall q, structural R q -> is_page q) as Hpage by (intros q Hq; by apply (structural_page R s q HI)).
  assert (w = 0 \/ (taken s w /\ R !! w = None)) as Hwt.
  { destruct HU as [[? _]|[_ ->]]; [by left|right]. destruct (sp_fresh _ _ _ HS w) as (? & ? & _); [set_solver|done]. }
  assert (forall p r, R !! p = Some r -> role_ok R (phys s') p r) as Hroles.
  { intros p r Hp. pose proof (si_roles _ _ HI _ _ Hp) as Hok. pose proof (role_not_kpd R s p r HI Hp) as Hnk.
    pose proof (si_taken _ _ HI _ _ Hp) as (Hpp & _). destruct r as [|d i|d v w']; simpl in *.
    - destruct Hok as (? & Hlo & [Hwo Hno] & Hs). split_and!; [done| | |].
      + eapply maps_low_ext; [|exact Hlo]. intros. apply Hother; (done || lia || by left).
      + split; [left|].
        * rewrite Hother by (done || by left). destruct Hwo as [?|[_ Hb]]; [done|].
          by destruct (kernel_not_absent _ _ Hb).
        * intros i Hi' Hu. rewrite Hother by (done || by left). by apply Hno.
      + intros i Hi'. rewrite Hother by (done || (unfold user_pde in Hi'; lia) || by left). by apply Hs.
    - destruct Hok as (? & Hi' & Hd & He & Hs). split_and!; [done..| |].
      + rewrite Hother; [done|by apply (si_taken _ _ HI _ _ Hd)|unfold user_pde in Hi'; lia|].
        left. by eapply role_not_kpd.
      + intros j Hj. rewrite Hother by (done || by left). by apply Hs.
    - destruct Hok as (t & Ht & He). exists t. split; [done|]. rewrite Hother; [done| | |].
      + by apply (si_taken _ _ HI _ _ Ht).
      + apply Z.mod_pos_bound. lia.
      + left. by eapply role_not_kpd. }
  assert (space_inv R s') as HI'.
  { destruct layout_pd, layout_first, layout_second. constructor; simpl; try apply HI; try done.
    - eapply maps_low_ext; [|apply HI]. intros. apply Hother; (done || lia || (right; unfold WINDOW; lia)).
    - intros i Hi'. rewrite Hother; [by apply (si_kpd_user _ _ HI)|done|unfold user_pde in Hi'; lia|].
      right. unfold user_pde, WINDOW in *. lia.
    - intros i Hi'. destruct layout_distinct as (? & ? & _).
      rewrite !Hother by (done || (left; congruence)). by apply (si_identity _ _ HI).
    - right. simpl in Hwin, Hent. rewrite Hwin, Hent. split; [done|]. destruct Hwt as [?|[? ?]]; auto. }
  split_and!; [|by unfold window_open; rewrite Hwin, Hent|done|by apply store_kept].
  assert (window (phys s) = 0) as Hw0 by (destruct (si_window _ _ HI) as [[_ ?]|[Hb _]]; [done|by destruct (kernel_not_absent _ _ Hb)]).
  constructor; [done| |].
  - intros q Hq. rewrite Hwin. simpl. rewrite (sp_accounted _ _ _ HS q Hq), Hw0.
    assert (~ (0 < q /\ q * PAGE_SIZE = 0)) by (unfold PAGE_SIZE; lia).
    destruct HU as [[-> ->]|[HwU ->]]; [tauto|].
    assert (q * PAGE_SIZE ∈ U ∪ {[w]} <-> q * PAGE_SIZE ∈ U \/ q * PAGE_SIZE = w) as -> by set_solver.
    destruct (sp_fresh _ _ _ HS w) as ((_ & ? & _) & _); [set_solver|].
    assert (q * PAGE_SIZE = w -> 0 < q) by (destruct layout_end; unfold PAGE_SIZE in *; lia). tauto.
  - intros q Hq. destruct (sp_fresh _ _ _ HS q) as (Ht & Hn & _); [destruct HU as [[_ ->]|[_ ->]]; set_solver|].
    split_and!; [done|done|]. rewrite Hwin. intros ->. destruct HU as [[-> _]|[? _]]; [|done].
    destruct Ht as (_ & ? & _). destruct layout_end. lia.
Qed.

(** Page 0 belongs to nothing the invariant speaks of. *)
Lemma page_zero_spaces U R s m' : spaces U R s -> outside 0 (phys s) m' -> same_tables R (phys s) m' /\
  spaces U R (set_phys m' s) /\ kept U R s (set_phys m' s).
Proof.
  intros HS Ho. pose proof (sp_inv _ _ _ HS) as HI.
  assert (same_tables R (phys s) m') as Hsame.
  { intros q i Hq Hi. destruct (structural_page R s q HI Hq) as (? & ? & _).
    apply (outside_ent 0); [done|split; [done|lia]|done|lia|done]. }
  split_and!; [done| |].
  - apply (spaces_same U R s); [done|by apply inv_memory|done|by apply (window_same R s)].
  - intros p b Hp Hb. apply Ho. destruct Hp as [Hp|(d & v & w & Hp)].
    + destruct (sp_fresh _ _ _ HS p Hp) as ((_ & ? & _) & _). destruct layout_end. lia.
    + destruct (si_taken _ _ HI _ _ Hp) as (_ & ? & _). destruct layout_end. lia.
Qed.

(** A new page for the window is cleared, whatever the allocator answered. *)
Lemma window_alloc U R s : spaces U R s -> absent (ent (phys s) page_directory WINDOW) ->
  wpf low_full (new_table_phys ← alloc_page; fill_table new_table_phys 0 ≫= fun _ => mret new_table_phys)
    (fun s' w => exists U', spaces U' R s' /\ absent (ent (phys s') page_directory WINDOW) /\
       is_page w /\ w < LOW /\ (w = 0 /\ U' = U \/ w ∉ U /\ U' = U ∪ {[w]}) /\ kept U R s s' /\ cr3 s' = cr3 s) s.
Proof.
  intros HS Ha. pose proof (structural_kpd R) as Hk. assert (0 <= WINDOW < 1024) as Hi by (unfold WINDOW; lia).
  destruct (spaces_alloc U R s HS) as (p' & a & Ea & [(-> & Hfull & HS1)|(Ha0 & HaU & Hf & HS1 & Hdata & HL)]);
    (eapply wpf_step; [exact Ea|]); set (s1 := with_pmm p' s) in *.
  - assert (is_page 0) as H0 by (split; [done|lia]).
    eapply wpf_seq.
    + unfold fill_table. apply (fill_page R s1 0 _ (fun _ => 0)); [done|by unfold MEMORY_MAX| |by unfold LOW|done].
      intros m' Ho. destruct (page_zero_spaces U R s1 m' HS1 Ho) as (_ & HS' & _). apply HS'.
    + intros s2 _ (m' & -> & Hl & Ho & _). destruct (page_zero_spaces U R s1 m' HS1 Ho) as (Hsame & HS2 & Hk2).
      apply wpf_ret. exists U. split_and!; [done| |done|done|by left|done|done].
      simpl. by rewrite (Hsame page_directory WINDOW Hk Hi).
  - pose proof Hf as ((Hpg & Hr & _) & Hn & _). pose proof (sp_inv _ _ _ HS1) as HI1.
    eapply wpf_seq; [by apply (fill_table_spec R)|]. intros s2 _ (m' & -> & Hl & Ho & _).
    pose proof (fresh_same R s1 a m' HI1 Hf Ho) as Hsame. apply wpf_ret. exists (U ∪ {[a]}).
    split_and!; [|by simpl; rewrite (Hsame page_directory WINDOW Hk Hi)|done|done|by right| |done].
    + apply (spaces_same _ _ s1); [done|by eapply fresh_inv|done|by apply (window_same R s1)].
    + intros p b Hp Hb. exact (outside_kept U R s a m' HS Hpg Hdata Ho p b Hp Hb).
Qed.

Lemma map_window_spec U R s p va : spaces U R s -> window_va va -> is_page p ->
  wpf low_full (map_page p va) (fun s' _ => mapped_window U R s s' p va) s.
Proof.
  intros HS Hva Hp. pose proof (sp_inv _ _ _ HS) as HI. pose proof (structural_kpd R) as Hk.
  unfold map_page, map_page_flags. rewrite Hva. cbv zeta.
  assert (0 <= WINDOW < 1024) as Hi by (unfold WINDOW; lia).
  eapply wpf_step; [by apply (rd32_struct R)|]. change 0x1 with PAGE_PRESENT. rewrite absent_test.
  destruct (si_window _ _ HI) as [[Ha _]|[Ho _]].
  2: { rewrite bool_decide_eq_false_2 by (by eapply kernel_not_absent). by apply (map_window_set U R s). }
  rewrite bool_decide_eq_true_2 by done.
  apply wpf_bind. pose proof (window_alloc U R s HS Ha) as Hwa.
  unfold wpf, mbind, FST_bind in Hwa |- *.
  destruct (alloc_page s) as [s1 a|s1]; [|done]. destruct (fill_table a 0 s1) as [s2 []|s2]; [|done].
  destruct Hwa as (U' & HS2 & Ha2 & Hpg & Hl & HU & Hk2 & Hc2).
  rewrite (wr32_struct R s2 page_directory WINDOW _ (sp_inv _ _ _ HS2) Hk Hi).
  destruct (open_window U U' R s2 a HS2 Ha2 Hpg Hl HU) as (HS3 & Ho3 & Hw3 & Hk3).
  set (s3 := set_phys _ s2) in *. cbn [mret FST_ret].
  pose proof (map_window_set U R s3 p va HS3 Ho3 Hp) as Hset. rewrite Hw3 in Hset.
  eapply wpf_mono; [exact Hset|]. intros s' [] [HS' Hk' Hc' Ho' He' Hother'].
  constructor; try done.
  - intros q b Hq Hb. rewrite (Hk' q b Hq Hb), (Hk3 q b), (Hk2 q b Hq Hb); [done| |done].
    destruct Hq as [Hq|?]; [left|by right]. destruct HU as [[_ ->]|[_ ->]]; set_solver.
  - by rewrite Hc'.
  - intros Ho. by destruct (kernel_not_absent _ _ Ho).
Qed.

(** ** Access through the window *)

Lemma window_parts va b : is_page va -> window_va va -> 0 <= b < 4096 ->
  (va + b) / 4194304 = WINDOW /\ (va + b) / 4096 mod 1024 = pt_index va /\ (va + b) mod 4096 = b /\ 0 <= va + b < 2 ^ 32.
Proof.
  intros [Hm Hr] Hv Hb. unfold window_va in Hv. destruct (index_parts va) as [E1 E2]. unfold vpn in *.
  pose proof (Z_div_mod_eq_full va 4096) as Hd. rewrite Hm in Hd.
  assert ((va + b) / 4096 = va / 4096) as E by (symmetry; apply (Z.div_unique _ _ _ b); lia).
  refine (conj _ (conj _ (conj _ _))).
  - rewrite <- Hv, E1, <- E. by rewrite Z.div_div.
  - by rewrite E, E2.
  - symmetry. apply (Z.mod_unique _ _ (va / 4096)); lia.
  - rewrite E1 in Hv. pose proof (Z_div_mod_eq_full (va / 4096) 1024). pose proof (Z.mod_pos_bound (va / 4096) 1024 ltac:(lia)).
    unfold WINDOW in Hv. lia.
Qed.

(** The current directory has the window. *)
Definition window_ready s : Prop := kernel_entry (ent (phys s) (cr3 s) WINDOW) (window (phys s)).

Lemma window_ready_dec U R s : spaces U R s -> window_open s -> window_ready s \/ absent (ent (phys s) (cr3 s) WINDOW).
Proof.
  intros HS Ho. pose proof (sp_inv _ _ _ HS) as HI. destruct (si_cr3 _ _ HI) as [Hc|Hc].
  - left. unfold window_ready. by rewrite Hc.
  - destruct (si_roles _ _ HI _ _ Hc) as (_ & _ & [[?|[? _]] _] & _); [by right|by left].
Qed.

Lemma low_ok_parts s : low_ok s -> paging s = true /\ is_page (cr3 s).
Proof. by intros (? & ? & _). Qed.

Lemma translate_window s va b p : low_ok s -> window_ready s -> is_page va -> window_va va -> is_page p ->
  window_entry s va = Z.lor p 3 -> 0 <= b < 4096 -> translate s (va + b) = Some (p + b).
Proof.
  intros [Hpag Hc]%low_ok_parts [Hw H1] Hva Hwv Hp He Hb. destruct (window_parts va b Hva Hwv Hb) as (E1 & E2 & E3 & Hr).
  rewrite translate_step by done. rewrite E1, E2, E3. cbv zeta. change PAGE_PRESENT with 1. rewrite H1. simpl.
  rewrite Hw. fold (window_entry s va). rewrite He, entry_flags, entry_page by (done || lia). done.
Qed.

Lemma translate_no_window s va b : low_ok s -> absent (ent (phys s) (cr3 s) WINDOW) -> is_page va -> window_va va ->
  0 <= b < 4096 -> translate s (va + b) = None.
Proof.
  intros [Hpag Hc]%low_ok_parts Ha Hva Hwv Hb. destruct (window_parts va b Hva Hwv Hb) as (E1 & E2 & E3 & Hr).
  rewrite translate_step by done. rewrite E1. cbv zeta. change PAGE_PRESENT with 1. by rewrite Ha.
Qed.

Lemma temp_vas : is_page KERNEL_TEMP_MAP_VA /\ window_va KERNEL_TEMP_MAP_VA /\
  is_page KERNEL_TEMP_MAP_VA2 /\ window_va KERNEL_TEMP_MAP_VA2 /\
  pt_index KERNEL_TEMP_MAP_VA2 <> pt_index KERNEL_TEMP_MAP_VA.
Proof. split_and!; by vm_compute. Qed.

(** A fault for want of low memory, or of the window in the current directory. *)
Definition copy_fault s : Prop := low_full s \/ absent (ent (phys s) (cr3 s) WINDOW).

(** The loop that copies the bytes. *)
Lemma copy_bytes_spec U R s src dst : spaces U R s -> window_open s -> is_page src -> dst ∈ U -> src <> dst ->
  window_entry s KERNEL_TEMP_MAP_VA = Z.lor src 3 -> window_entry s KERNEL_TEMP_MAP_VA2 = Z.lor dst 3 ->
  wpf copy_fault (each (fun b => v ← rd8 (KERNEL_TEMP_MAP_VA + b); wr8 (KERNEL_TEMP_MAP_VA2 + b) v) 0 4096)
    (fun s' _ => exists m', s' = set_phys m' s /\ outside dst (phys s) m' /\
       forall b, 0 <= b < 4096 -> load8 m' (dst + b) = load8 (phys s) (src + b)) s.
Proof.
  intros HS Ho Hsp Hdu Hne He1 He2. destruct temp_vas as (Hv1 & Hw1 & Hv2 & Hw2 & _).
  pose proof (sp_inv _ _ _ HS) as HI. pose proof (sp_fresh _ _ _ HS dst Hdu) as Hf.
  pose proof Hf as ((Hdp & _) & _). destruct (window_page U R s HS Ho) as (Hwp & _ & _ & _ & Hwd).
  destruct (window_ready_dec U R s HS Ho) as [Hr|Ha].
  2: { eapply wpf_each_fault; [done| |by right]. unfold mbind, FST_bind, rd8, access.
       rewrite (translate_no_window s) by (try done; by apply (inv_low R)). done. }
  eapply wpf_mono; [apply (wpf_each _ _ (fun i t => exists m', t = set_phys m' s /\ outside dst (phys s) m' /\
      forall b, 0 <= b < i -> load8 m' (dst + b) = load8 (phys s) (src + b)))|].
  - exists (phys s). split_and!; [by destruct s|done|]. intros b Hb. lia.
  - intros i t Hi (m' & -> & Hout & Hb). simpl in Hi.
    pose proof (fresh_same R s dst m' HI Hf Hout) as Hsame.
    assert (low_ok (set_phys m' s)) as Hlow by (apply (inv_low R); by eapply fresh_inv).
    assert (window m' = window (phys s)) as Hwin by (by apply (window_same R s)).
    assert (structural R (cr3 s)) as Hcs by (destruct (si_cr3 _ _ HI) as [->|?]; [by left|by apply structural_dir]).
    assert (window_ready (set_phys m' s)) as Hready.
    { unfold window_ready in *. simpl. rewrite Hwin, (Hsame (cr3 s) WINDOW Hcs); [done|unfold WINDOW; lia]. }
    assert (forall va, window_entry (set_phys m' s) va = window_entry s va) as Hwe.
    { intros va. unfold window_entry. simpl. rewrite Hwin. apply (outside_ent dst); try done; [|apply pt_index_range].
      intros E. apply (Hwd dst); [by left|done]. }
    unfold wpf, mbind, FST_bind, rd8, wr8, access.
    rewrite (translate_window _ _ i src), (translate_window _ _ i dst) by (done || (by rewrite Hwe)).
    simpl. eexists. split_and!; [done| |].
    + intros b Hb'. rewrite load8_store8. destruct (Z.eqb_spec (dst + i) b); [lia|]. by apply Hout.
    + intros b Hb'. rewrite load8_store8. destruct (Z.eqb_spec (dst + i) (dst + b)) as [E|].
      * assert (b = i) as -> by lia. rewrite u8_small by apply load8_range. apply Hout.
        pose proof (page_apart src dst Hsp Hdp Hne). lia.
      * apply Hb. lia.
  - intros s' _ (m' & ? & ? & Hb). exists m'. done.
Qed.

Lemma unmap_window_spec U R s va : spaces U R s -> window_open s -> window_va va ->
  exists s', unmap_kernel_page va s = Done s' tt /\ spaces U R s' /\ window_open s' /\ kept U R s s' /\ cr3 s' = cr3 s.
Proof.
  intros HS Ho Hva. pose proof (sp_inv _ _ _ HS) as HI. pose proof (structural_kpd R) as Hk.
  assert (0 <= WINDOW < 1024) as Hi by (unfold WINDOW; lia).
  unfold unmap_kernel_page, mbind, FST_bind. rewrite Hva, (rd32_struct R s page_directory WINDOW HI Hk Hi).
  rewrite absent_test, bool_decide_eq_false_2 by (by eapply kernel_not_absent).
  destruct (window_write U R s (pt_index va) 0 HS Ho (pt_index_range va)) as (E & HS' & Hkept & Hsame).
  fold (window (phys s)). rewrite E. eexists. split_and!; [done|done| |done|done].
  unfold window_open. simpl. by rewrite (window_same R s _ Hsame), (Hsame page_directory WINDOW Hk Hi).
Qed.

Lemma copy_frame_spec U R s src dst : spaces U R s -> data_page U R src -> dst ∈ U -> src <> dst ->
  wpf copy_fault (copy_frame src dst) (fun s' _ => spaces U R s' /\ cr3 s' = cr3 s /\
    (forall p b, data_page U R p -> p <> dst -> p <= b < p + 4096 -> load8 (phys s') b = load8 (phys s) b) /\
    (forall b, 0 <= b < 4096 -> load8 (phys s') (dst + b) = load8 (phys s) (src + b))) s.
Proof.
  intros HS Hsrc Hdst Hne. destruct temp_vas as (Hv1 & Hw1 & Hv2 & Hw2 & Hidx). unfold copy_frame.
  destruct (data_page_facts U R s src HS Hsrc) as [Hsp _]. pose proof (sp_fresh _ _ _ HS dst Hdst) as ((Hdp & _) & _).
  eapply wpf_seq; [eapply wpf_fault; [by apply (map_window_spec U R)|by left]|]. intros s1 _ [HS1 Hk1 Hc1 Ho1 He1 _].
  eapply wpf_seq; [eapply wpf_fault; [by apply (map_window_spec U R)|by left]|]. intros s2 _ [HS2 Hk2 Hc2 Ho2 He2 Hoth2].
  eapply wpf_seq; [apply (copy_bytes_spec U R s2 src dst); try done|].
  { rewrite Hoth2; [done|done|]. intros E. by apply Hidx. }
  intros s3 _ (m' & -> & Hout & Hb). pose proof (sp_inv _ _ _ HS2) as HI2. pose proof (sp_fresh _ _ _ HS2 dst Hdst) as Hf2.
  pose proof (fresh_same R s2 dst m' HI2 Hf2 Hout) as Hsame.
  assert (spaces U R (set_phys m' s2)) as HS3.
  { apply (spaces_same U R s2); [done|by eapply fresh_inv|done|by apply (window_same R s2)]. }
  assert (window_open (set_phys m' s2)) as Ho3.
  { unfold window_open. simpl. rewrite (window_same R s2 m' Hsame).
    rewrite (Hsame page_directory WINDOW (structural_kpd R)) by (unfold WINDOW; lia). done. }
  destruct (unmap_window_spec U R _ KERNEL_TEMP_MAP_VA HS3 Ho3 Hw1) as (s4 & E4 & HS4 & Ho4 & Hk4 & Hc4).
  eapply wpf_step; [exact E4|].
  destruct (unmap_window_spec U R _ KERNEL_TEMP_MAP_VA2 HS4 Ho4 Hw2) as (s5 & E5 & HS5 & Ho5 & Hk5 & Hc5).
  unfold wpf. rewrite E5. simpl in Hc4. split_and!; [done|congruence| |].
  - intros p b Hp Hpd Hb'. rewrite (Hk5 p b), (Hk4 p b) by done. simpl. rewrite Hout, (Hk2 p b), (Hk1 p b); try done.
    destruct (data_page_facts U R s p HS Hp) as [Hpp _]. pose proof (page_apart p dst Hpp Hdp Hpd). lia.
  - intros b Hb'. assert (data_page U R dst) as Hd by (by left).
    rewrite (Hk5 dst (dst + b)), (Hk4 dst (dst + b)) by (done || lia). simpl. rewrite Hb by done.
    by rewrite (Hk2 src (src + b)), (Hk1 src (src + b)) by (done || lia).
Qed.

End Window.

(** ** Copying an address space *)

Section Clone.
Context `{KL : KernelLayout}.
Context U R0 s0 (d c : Z) (HS0 : spaces U R0 s0) (Hd0 : R0 !! d = Some RDir) (Hc0 : R0 !! c = None).

(** The roles while page numbers below [n] have been copied and the new directory has
    tables below [k]. *)
Record partial (n k : Z) (R : roles) (t : Machine) : Prop := {
  pc_spaces : spaces U R t;
  pc_sub : R0 ⊆ R;
  pc_dir : R !! c = Some RDir;
  pc_new : forall p r, R !! p = Some r -> R0 !! p = Some r \/ (p = c /\ r = RDir) \/
    (exists i, r = RTab c i /\ i < k) \/
    (exists v, r = RFrame c v true /\ v < n /\ mapped (abs R0) d v);
  pc_all : forall v, mapped (abs R0) d v -> v < n -> exists p, R !! p = Some (RFrame c v true);
  pc_copy : forall v f w p b, R0 !! f = Some (RFrame d v w) -> R !! p = Some (RFrame c v true) -> 0 <= b < 4096 ->
    load8 (phys t) (p + b) = load8 (phys s0) (f + b);
  pc_kept : kept U R0 s0 t;
  pc_cr3 : cr3 t = cr3 s0
}.

Lemma partial_frame n k R t f v w : partial n k R t -> R !! f = Some (RFrame d v w) -> R0 !! f = Some (RFrame d v w).
Proof.
  intros HP Hf. destruct (pc_new _ _ _ _ HP _ _ Hf) as [?|[[_ ?]|[(i & ? & _)|(v' & [= -> _ _] & _)]]]; try done.
  congruence.
Qed.

Lemma clone_pte_spec i j R t ts tc : partial (1024 * i + j) (i + 1) R t -> R0 !! ts = Some (RTab d i) ->
  R !! tc = Some (RTab c i) -> 0 <= j < 1024 ->
  wpf copy_fault (clone_pte ts tc j) (fun t' r => exists R',
    match r with
    | Some _ => partial (1024 * i + j) (i + 1) R' t'
    | None => partial (1024 * i + (j + 1)) (i + 1) R' t' /\ R' !! tc = Some (RTab c i)
    end) t.
Proof.
  intros HP Hts Htc Hj. pose proof HP as [HS Hsub Hdir Hnew Hall Hcopy Hkept Hcr].
  pose proof (sp_inv _ _ _ HS) as HI. assert (R !! ts = Some (RTab d i)) as Hts' by (by eapply lookup_weaken).
  assert (d <> c) as Hdc by congruence. unfold clone_pte.
  eapply wpf_step; [apply (rd32_struct R); [done|by eapply structural_tab|done]|].
  destruct (proj2 (proj2 (proj2 (proj2 (si_roles _ _ HI _ _ Hts')))) j Hj) as [Ha|(f & w & He & Hf)].
  { rewrite not_user_absent by done. apply wpf_ret. exists R. split; [|done].
    assert (~ mapped (abs R0) d (1024 * i + j)) as Hnm.
    { intros (f & w & Hf%abs_frame_1). apply (absent_user (ent (phys t) ts j) f w); [|done].
      apply (frame_entry R t ts d i j f w HI Hts' Hj). by eapply lookup_weaken. }
    constructor; try done.
    - intros p r Hp. destruct (Hnew p r Hp) as [?|[?|[?|(v & ? & ? & ?)]]]; [by left|by right; left|by do 2 right; left|].
      do 3 right. exists v. split_and!; [done|lia|done].
    - intros v Hv Hlt. apply Hall; [done|]. assert (v <> 1024 * i + j) by (by intros ->). lia. }
  rewrite (not_user_entry _ _ _ He). destruct He as [Hfp _]. rewrite Hfp.
  pose proof (partial_frame _ _ _ _ _ _ _ HP Hf) as Hf0.
  destruct (spaces_alloc U R t HS) as (p' & a & Ea & [(-> & Hfull & HS1)|(Ha0 & HaU & Hfr & HS1 & Hdata & HL)]);
    (eapply wpf_step; [exact Ea|]).
  { simpl. apply wpf_ret. exists R. by constructor. }
  destruct (Z.eqb_spec a 0); [done|]. set (t1 := with_pmm p' t) in *. pose proof Hfr as ((Hpg & Hr & _) & Hn & _).
  assert (data_page (U ∪ {[a]}) R f) as Hdf by (right; eauto).
  eapply wpf_seq; [apply (copy_frame_spec (U ∪ {[a]}) R t1 f a); [done|done|set_solver|congruence]|].
  intros t2 _ (HS2 & Hc2 & Hk2 & Hb2). pose proof (sp_inv _ _ _ HS2) as HI2.
  eapply wpf_step; [apply (wr32_struct R); [done|by eapply structural_tab|done]|]. apply wpf_ret.
  rewrite page_mask by done. set (e := Z.lor a USER_ENTRY).
  assert (0 <= e < 2 ^ 32) as Hu by (by apply entry_range).
  assert (user_entry e a true) as Hue by (rewrite <- (u32_small e) by done; by apply (user_entry_built a true)).
  assert (forall p b, data_page (U ∪ {[a]}) R p -> p <= b < p + 4096 ->
    load8 (store32 (phys t2) (tc + 4 * j) e) b = load8 (phys t2) b) as Hst.
  { exact (store_kept (U ∪ {[a]}) R t2 tc j e HS2 (structural_tab R tc c i Htc) Hj). }
  assert (forall p b, data_page U R p -> p <= b < p + 4096 ->
    load8 (store32 (phys t2) (tc + 4 * j) e) b = load8 (phys t) b) as Hold.
  { intros p b Hp Hb. assert (data_page (U ∪ {[a]}) R p) as Hp' by (destruct Hp; [left; set_solver|by right]).
    rewrite (Hst p b) by done. apply (Hk2 p); [done|congruence|done]. }
  exists (<[a := RFrame c (1024 * i + j) true]> R). split; [constructor|by rewrite lookup_insert_ne by congruence].
  - apply (spaces_give U R t2); [done|done| |done|].
    + apply map_frame; try done; [|apply (sp_fresh _ _ _ HS2); set_solver].
      destruct (proj2 (proj2 (proj2 (proj2 (si_roles _ _ HI2 _ _ Htc)))) j Hj) as [?|(g & w' & _ & Hg)]; [done|exfalso].
      destruct (Hnew _ _ Hg) as [Hg0|[[_ ?]|[(? & ? & _)|(v & [= Hv _] & Hlt & _)]]]; try done; [|lia].
      apply (si_roles _ _ (sp_inv _ _ _ HS0)) in Hg0 as (t' & (_ & _ & ? & _)%(si_roles _ _ (sp_inv _ _ _ HS0)) & _). congruence.
    + apply (window_store R t2); [done|by eapply structural_tab|done|]. left. by eapply role_not_kpd.
  - etrans; [done|]. by apply insert_subseteq.
  - rewrite lookup_insert_ne; [done|congruence].
  - intros p r [[<- <-]|[? Hp]]%lookup_insert_Some.
    + do 3 right. exists (1024 * i + j). split_and!; [done|lia|]. exists f, w. by apply abs_frame.
    + destruct (Hnew p r Hp) as [?|[?|[?|(v & ? & ? & ?)]]]; [by left|by right; left|by do 2 right; left|].
      do 3 right. exists v. split_and!; [done|lia|done].
  - intros v Hv Hlt. destruct (decide (v = 1024 * i + j)) as [->|]; [exists a; by rewrite lookup_insert_eq|].
    destruct (Hall v Hv) as [p Hp]; [lia|]. exists p. rewrite lookup_insert_ne; [done|congruence].
  - simpl. intros v g w' p b Hg [[<- [= <-]]|[Hne Hp]]%lookup_insert_Some Hb.
    + destruct (frame_unique R0 s0 _ _ _ _ _ _ (sp_inv _ _ _ HS0) Hf0 Hg) as [<- _].
      rewrite (Hst a) by (try (left; set_solver); lia). rewrite Hb2 by done. simpl.
      apply (Hkept f); [right; eauto|lia].
    + rewrite (Hold p) by (try (right; eauto); lia). by eapply Hcopy.
  - intros p b Hp Hb. rewrite <- (Hkept p b Hp Hb). simpl. apply (Hold p); [|done].
    destruct Hp as [?|(d' & v & w' & Hp)]; [by left|right]. exists d', v, w'. by eapply lookup_weaken.
  - simpl. by rewrite Hc2.
Qed.
(** No page of the source lies in a part without a table. *)
Lemma partial_skip i R t : partial (1024 * i) i R t -> absent (ent (phys t) d i) -> partial (1024 * (i + 1)) (i + 1) R t.
Proof.
  intros [HS Hsub Hdir Hnew Hall Hcopy Hkept Hcr] Ha. pose proof (sp_inv _ _ _ HS) as HI. constructor; try done.
  - intros p r Hp. destruct (Hnew p r Hp) as [?|[?|[(k & ? & ?)|(v & ? & ? & ?)]]]; [by left|by right; left| |].
    + right; right; left. exists k. split; [done|lia].
    + do 3 right. exists v. split_and!; [done|lia|done].
  - intros v Hv Hlt. destruct (decide (v < 1024 * i)); [by apply Hall|exfalso].
    destruct Hv as (f & w & Hf%abs_frame_1). apply (lookup_weaken _ _ _ _ Hf) in Hsub.
    apply (si_roles _ _ HI) in Hsub as (t' & Ht' & _).
    assert (v / 1024 = i) as E by (symmetry; apply (Z.div_unique _ _ _ (v - 1024 * i)); lia).
    rewrite E in Ht'. apply (si_roles _ _ HI) in Ht' as (_ & _ & _ & He & _). by apply (absent_user _ _ _ He).
Qed.

(** A new table for part [i] of the copy. *)
Lemma partial_table i R t tc t2 : partial (1024 * i) i R t -> tc ∉ U -> user_pde i ->
  spaces (U ∪ {[tc]}) R t2 -> tc < LOW -> kept U R t t2 -> cr3 t2 = cr3 t ->
  (forall k, 0 <= k < 1024 -> absent (ent (phys t2) tc k)) ->
  let t' := set_phys (store32 (phys t2) (c + 4 * i) (Z.lor tc USER_ENTRY)) t2 in
  partial (1024 * i + 0) (i + 1) (<[tc := RTab c i]> R) t'.
Proof.
  intros [HS Hsub Hdir Hnew Hall Hcopy Hkept Hcr] HtU Hi HS2 Hl Hk2 Hc2 Hz t'. pose proof (sp_inv _ _ _ HS2) as HI2.
  pose proof (sp_fresh _ _ _ HS2 tc) as Hf. assert (fresh R t2 tc) as Hfr by (apply Hf; set_solver).
  pose proof Hfr as ((Hpg & _) & Hn & _).
  assert (0 <= i < 1024) as Hi' by (unfold user_pde in Hi; lia).
  assert (0 <= Z.lor tc USER_ENTRY < 2 ^ 32) as Hu by (by apply entry_range).
  assert (user_entry (Z.lor tc USER_ENTRY) tc true) as Hue.
  { rewrite <- (u32_small (Z.lor tc USER_ENTRY)) by done. by apply (user_entry_built tc true). }
  assert (kept U R t t') as Hkt'.
  { intros p b Hp Hb. assert (data_page (U ∪ {[tc]}) R p) as Hp' by (destruct Hp; [left; set_solver|by right]).
    rewrite <- (Hk2 p b Hp Hb).
    exact (store_kept (U ∪ {[tc]}) R t2 c i _ HS2 (structural_dir R c Hdir) Hi' p b Hp' Hb). }
  constructor.
  - apply (spaces_give U R t2); [done|done| |done|].
    + apply (make_table R t2); try done.
      destruct (proj2 (proj2 (proj2 (si_roles _ _ HI2 _ _ Hdir))) i Hi) as [?|(x & _ & Hx)]; [done|exfalso].
      destruct (Hnew _ _ Hx) as [Hx0|[[_ ?]|[(k & [= <-] & ?)|(v & ? & _)]]]; try done; [|lia].
      apply (si_roles _ _ (sp_inv _ _ _ HS0)) in Hx0 as (_ & _ & ? & _). congruence.
    + apply (window_store R t2); [done|by apply structural_dir|done|]. left. by eapply role_not_kpd.
  - etrans; [done|]. by apply insert_subseteq.
  - rewrite lookup_insert_ne; [done|congruence].
  - intros p r [[<- <-]|[? Hp]]%lookup_insert_Some.
    + right; right; left. exists i. split; [done|lia].
    + destruct (Hnew p r Hp) as [?|[?|[(k & ? & ?)|(v & ? & ? & ?)]]]; [by left|by right; left| |].
      * right; right; left. exists k. split; [done|lia].
      * do 3 right. exists v. split_and!; [done|lia|done].
  - intros v Hv Hlt. destruct (Hall v Hv) as [p Hp]; [lia|]. exists p. rewrite lookup_insert_ne; [done|congruence].
  - intros v f w p b Hf0 [[_ ?]|[_ Hp]]%lookup_insert_Some Hb; [done|].
    rewrite (Hkt' p) by (try (right; eauto); lia). by eapply Hcopy.
  - eapply data_kept_trans; [done|exact Hkt'|].
    intros p [?|(d' & v & w & Hp)]; [by left|right]. exists d', v, w. by eapply lookup_weaken.
  - simpl. by rewrite Hc2.
Qed.

Lemma clone_pde_spec i R t : partial (1024 * i) i R t -> user_pde i ->
  wpf copy_fault (clone_pde d c i) (fun t' r => exists R',
    match r with
    | Some _ => exists n k, partial n k R' t'
    | None => partial (1024 * (i + 1)) (i + 1) R' t'
    end) t.
Proof.
  intros HP Hi. pose proof HP as [HS Hsub Hdir Hnew Hall Hcopy Hkept Hcr]. pose proof (sp_inv _ _ _ HS) as HI.
  assert (0 <= i < 1024) as Hi' by (unfold user_pde in Hi; lia).
  assert (R !! d = Some RDir) as Hd by (by eapply lookup_weaken). unfold clone_pde.
  eapply wpf_step; [apply (rd32_struct R); [done|by apply structural_dir|done]|].
  destruct (proj2 (proj2 (proj2 (si_roles _ _ HI _ _ Hd))) i Hi) as [Ha|(ts & He & Hts)].
  { rewrite not_user_absent by done. apply wpf_ret. exists R. by apply partial_skip. }
  rewrite (not_user_entry _ _ _ He). destruct He as [Htsp _]. rewrite Htsp.
  assert (R0 !! ts = Some (RTab d i)) as Hts0.
  { destruct (Hnew _ _ Hts) as [?|[[_ ?]|[(k & [= -> _] & _)|(v & ? & _)]]]; try done. congruence. }
  destruct (spaces_alloc U R t HS) as (p' & a & Ea & [(-> & Hfull & HS1)|(Ha0 & HaU & Hfr & HS1 & Hdata & HL)]);
    (eapply wpf_step; [exact Ea|]).
  { simpl. apply wpf_ret. exists R, (1024 * i), i. by constructor. }
  destruct (Z.eqb_spec a 0); [done|]. set (t1 := with_pmm p' t) in *. pose proof Hfr as ((Hpg & Hr & _) & Hn & _).
  rewrite page_mask by done. pose proof (sp_inv _ _ _ HS1) as HI1.
  eapply wpf_seq; [eapply wpf_fault; [by apply (fill_table_spec R)|by left]|]. intros t2 _ (m' & -> & Hl & Ho & Hz).
  assert (spaces (U ∪ {[a]}) R (set_phys m' t1)) as HS2.
  { apply (spaces_same _ _ t1); [done|by eapply fresh_inv|done|]. by apply (window_same R t1), (fresh_same R t1 a). }
  eapply wpf_step; [apply (wr32_struct R); [apply HS2|by apply structural_dir|done]|].
  set (t2 := set_phys m' t1) in *.
  assert (partial (1024 * i + 0) (i + 1) (<[a := RTab c i]> R)
    (set_phys (store32 (phys t2) (c + 4 * i) (Z.lor a USER_ENTRY)) t2)) as HP3.
  { apply (partial_table i R t a t2); try done.
    - intros p b Hp Hb. exact (outside_kept U R t a m' HS Hpg Hdata Ho p b Hp Hb).
    - intros k Hk. simpl. by rewrite Hz. }
  set (t3 := set_phys _ t2) in *. set (R3 := <[a := RTab c i]> R) in *.
  eapply wpf_loop with (I := fun j t' => exists R', partial (1024 * i + j) (i + 1) R' t' /\ R' !! a = Some (RTab c i)).
  - exists R3. split; [done|by apply lookup_insert_eq].
  - intros j t' Hj (R' & HP' & Ha'). eapply wpf_mono; [by apply (clone_pte_spec i j R' t' ts a)|].
    intros t'' [[]|] (R'' & HP''); [by exists R'', (1024 * i + j), (i + 1)|by exists R''].
  - intros t' (R' & HP' & _). exists R'. change (0 + Z.of_nat 1024) with 1024 in HP'.
    by replace (1024 * (i + 1)) with (1024 * i + 1024) by lia.
Qed.

(** What an address space and its copy have to do with each other. *)
Definition is_copy (A A' : roles) : Prop :=
  A !! c = None /\ A ⊆ A' /\ A' !! c = Some RDir /\
  (forall p r, A' !! p = Some r -> A !! p = Some r \/ (p = c /\ r = RDir) \/
     (exists v, r = RFrame c v true /\ mapped A d v)) /\
  (forall v, mapped A d v -> exists p, A' !! p = Some (RFrame c v true)).

Lemma partial_is_copy n k R t : partial n k R t -> (forall v, mapped (abs R0) d v -> v < n) -> is_copy (abs R0) (abs R).
Proof.
  intros [HS Hsub Hdir Hnew Hall Hcopy Hkept Hcr] Hn. split_and!.
  - destruct (abs R0 !! c) eqn:E; [|done]. apply abs_lookup in E as [E _]. congruence.
  - apply map_subseteq_spec. intros p r [Hp Hr]%abs_lookup. apply abs_lookup. split; [by eapply lookup_weaken|done].
  - by apply abs_lookup.
  - intros p r [Hp Hr]%abs_lookup. destruct (Hnew p r Hp) as [?|[?|[(i & -> & _)|(v & ? & _ & ?)]]]; [|by right; left|done|].
    + left. by apply abs_lookup.
    + right; right. by exists v.
  - intros v Hv. destruct (Hall v Hv (Hn v Hv)) as [p Hp]. exists p. by apply abs_lookup.
Qed.

(** Undoing an unfinished copy. *)
Lemma partial_drop n k R t : partial n k R t -> drop_space c R = R0.
Proof.
  intros [HS Hsub Hdir Hnew Hall Hcopy Hkept Hcr]. pose proof (sp_inv _ _ _ HS0) as HI0.
  apply map_eq. intros p. apply option_eq. intros r. rewrite drop_space_lookup. unfold of_dir. split.
  - intros [Hp Hr]. apply orb_false_iff in Hr as [Hpc%Z.eqb_neq Hr].
    destruct (Hnew p r Hp) as [?|[[? _]|[(i & -> & _)|(v & -> & _)]]]; try done; by rewrite Z.eqb_refl in Hr.
  - intros Hp. split; [by eapply lookup_weaken|]. destruct (Z.eqb_spec p c) as [->|]; [congruence|]. simpl.
    destruct r as [|d' i|d' v w]; [done| |]; destruct (Z.eqb_spec d' c) as [->|]; try done; exfalso.
    + apply (si_roles _ _ HI0) in Hp as (_ & _ & ? & _). congruence.
    + apply (si_roles _ _ HI0) in Hp as (t' & (_ & _ & ? & _)%(si_roles _ _ HI0) & _). congruence.
Qed.
End Clone.

Section CloneCall.
Context `{KL : KernelLayout}.
Implicit Types (R : roles) (s : Machine) (U : gset Z).

(** The frames of the copy hold what the frames of the original hold. *)
Definition same_contents (A A' : roles) (d c : Z) s s' : Prop :=
  forall v f w p b, frame_of A d v f w -> A' !! p = Some (RFrame c v true) -> 0 <= b < 4096 ->
    load8 (phys s') (p + b) = load8 (phys s) (f + b).

Lemma mapped_below R s d v : space_inv R s -> mapped (abs R) d v -> v < 1024 * 768.
Proof.
  intros HI (f & w & (t & (_ & Hi & _)%(si_roles _ _ HI) & _)%abs_frame_1%(si_roles _ _ HI)).
  unfold user_pde in Hi. pose proof (Z_div_mod_eq_full v 1024). pose proof (Z.mod_pos_bound v 1024 ltac:(lia)). lia.
Qed.

Lemma mapped_above R s d v : space_inv R s -> mapped (abs R) d v -> 1024 * 256 <= v.
Proof.
  intros HI (f & w & (t & (_ & Hi & _)%(si_roles _ _ HI) & _)%abs_frame_1%(si_roles _ _ HI)).
  unfold user_pde in Hi. pose proof (Z_div_mod_eq_full v 1024). pose proof (Z.mod_pos_bound v 1024 ltac:(lia)). lia.
Qed.

Lemma partial_start U R s s1 d c : spaces U R s -> R !! c = None -> spaces U (<[c := RDir]> R) s1 -> kept U R s s1 ->
  cr3 s1 = cr3 s -> partial U R s d c (1024 * 256) 256 (<[c := RDir]> R) s1.
Proof.
  intros HS Hc HS1 Hk Hcr. pose proof (sp_inv _ _ _ HS) as HI. constructor; try done.
  - by apply insert_subseteq.
  - by rewrite lookup_insert_eq.
  - intros p r [[<- <-]|[? Hp]]%lookup_insert_Some; [by right; left|by left].
  - intros v Hv Hlt. pose proof (mapped_above R s d v HI Hv). lia.
  - intros v f w p b Hf [[_ ?]|[Hne Hp]]%lookup_insert_Some Hb; [done|]. exfalso.
    apply (si_roles _ _ HI) in Hp as (t & (_ & _ & ? & _)%(si_roles _ _ HI) & _). congruence.
Qed.

Lemma clone_spec U R s d : spaces U R s -> R !! d = Some RDir ->
  wpf copy_fault (clone_user_address_space d) (fun s' c => cr3 s' = cr3 s /\ kept U R s s' /\
    ((c = 0 /\ spaces U R s') \/
     (c <> 0 /\ exists R', spaces U R' s' /\ is_copy d c (abs R) (abs R') /\
        same_contents (abs R) (abs R') d c s s'))) s.
Proof.
  intros HS Hd. pose proof (sp_inv _ _ _ HS) as HI. destruct (dir_nonzero R s d HI Hd) as [Hdp Hd0].
  unfold clone_user_address_space. rewrite page_mask, Hd0 by done.
  eapply wpf_seq; [eapply wpf_fault; [by apply (create_spec U R)|by left]|].
  intros s1 c (Hk1 & Hc1 & [(-> & HS1 & _)|(Hc0 & Hcp & Hcn & HS1)]).
  { apply wpf_ret. split_and!; [done|done|by left]. }
  destruct (Z.eqb_spec c 0); [done|]. rewrite page_mask by done.
  pose proof (partial_start U R s s1 d c HS Hcn HS1 Hk1 Hc1) as HP1.
  eapply wpf_seq.
  { eapply wpf_loop with (I := fun i t => exists R', partial U R s d c (1024 * i) i R' t)
      (Q := fun t r => exists R' n k, partial U R s d c n k R' t /\ (r = None -> n = 1024 * 768)).
    - by exists (<[c := RDir]> R).
    - intros i t Hi (R' & HP'). eapply wpf_mono; [apply (clone_pde_spec U R s d c HS Hd Hcn i R' t HP')|].
      + change (256 <= i < 256 + 512) in Hi. unfold user_pde. lia.
      + intros t' [[]|] (R'' & HP''); [|by exists R''].
        destruct HP'' as (n' & k' & HP''). by exists R'', n', k'.
    - intros t (R' & HP'). exists R', (1024 * 768), 768. by split. }
  intros s2 r (R' & n' & k' & HP & Hn). pose proof HP as [HS2 _ Hdir _ _ Hcopy Hk2 Hc2]. destruct r as [[]|].
  - assert (cr3 s2 <> c) as Hne.
    { rewrite Hc2. intros E. destruct (si_cr3 _ _ HI) as [Hc|Hc]; rewrite E in Hc; [|congruence].
      pose proof (role_not_kpd R' s2 c RDir (sp_inv _ _ _ HS2) Hdir). done. }
    eapply wpf_seq; [eapply wpf_fault; [by apply (destroy_spec U R')|done]|].
    intros s3 _ (HS3 & Hk3 & Hc3). apply wpf_ret. rewrite (partial_drop U R s d c HS Hcn n' k' R' s2 HP) in HS3.
    split_and!; [congruence| |by left].
    eapply data_kept_trans; [done|exact Hk3|]. intros p [?|(d' & v & w & Hp)]; [by left|right].
    exists d', v, w. by eapply lookup_weaken, (pc_sub _ _ _ _ _ _ _ _ _ HP).
  - apply wpf_ret. split_and!; [done|done|right]. split; [done|]. exists R'. split_and!; [done| |].
    + apply (partial_is_copy U R s d c Hcn n' k' R' s2 HP). intros v Hv. rewrite (Hn eq_refl). by eapply mapped_below.
    + intros v f w p b Hf%abs_frame_1 [Hp _]%abs_lookup Hb. by eapply Hcopy.
Qed.
End CloneCall.
