(* ===== verification/UserMemory.v ===== *)
(** * Ranges of user memory (kernel/syscall.c)

    The three loops behind mmap, munmap, mprotect and brk, page by page over a range,
    and what they do to an address space. *)
From S2P Require Import Prelude Fault Bytes Pmm Memory Paging Spaces SpaceOps SpaceCalls.

Definition PAGE_SIZE_BYTES : Z := 4096.
Definition PAGE_MASK_BYTES : Z := 0xFFFFF000.

Definition align_up_page (value : Z) : Z := Z.land (value +u (PAGE_SIZE_BYTES - 1)) PAGE_MASK_BYTES.
Definition page_floor (value : Z) : Z := Z.land value PAGE_MASK_BYTES.

Section Ranges.
Context `{KernelImage}.

(** The loops visit one page after another and end after the page [end_]; [body] tells
    whether to go on.  [n] bounds the iterations. *)
Fixpoint page_loop (body : Z -> FST Machine bool) (n : nat) (va end_ : Z) : FST Machine Z :=
  match n with
  | O => fun s => Fault s
  | S n' =>
      ok ← body va;
      if negb ok then mret 0
      else if end_ <=? va then mret 1
      else page_loop body n' (va +u PAGE_SIZE_BYTES) end_
  end.

Definition page_range (body : Z -> FST Machine bool) (start length : Z) : FST Machine Z :=
  if length =? 0 then mret 1
  else
    let first := page_floor start in
    let end_ := page_floor (start +u length -u 1) in
    page_loop body (S (Z.to_nat ((end_ - first) / PAGE_SIZE_BYTES))) first end_.

(** One page of [map_user_pages_for_range]: already mapped, or mapped now. *)
Definition map_one (pd va : Z) : FST Machine bool :=
  r ← resolve_user_phys pd va;
  if negb (r =? 0) then mret true
  else
    phys ← alloc_page;
    if phys =? 0 then mret false
    else
      ok ← map_user_page pd phys va;
      if ok =? 0 then free_page (Z.land phys PAGE_MASK_BYTES) ≫= fun _ => mret false
      else mret true.

Definition map_user_pages_for_range (pd start length : Z) : FST Machine Z :=
  page_range (map_one pd) start length.

Definition unmap_one (pd va : Z) : FST Machine bool :=
  r ← unmap_user_page pd va; mret (negb (r =? 0)).
Definition unmap_user_pages_for_range (pd start length : Z) : FST Machine Z :=
  page_range (unmap_one pd) start length.

Definition protect_one (pd writable va : Z) : FST Machine bool :=
  r ← set_user_page_writable pd va writable; mret (negb (r =? 0)).
Definition set_user_writable_for_range (pd start length writable : Z) : FST Machine Z :=
  page_range (protect_one pd writable) start length.

End Ranges.

(** ** The loop over a range *)

Section Spec.
Context `{KL : KernelLayout}.
Implicit Types (R A : roles) (s : Machine) (U : gset Z).

(** The loop keeps [I v], the state before page number [v], until [body] stops it. *)
Lemma page_loop_spec (E : Machine -> Prop) (body : Z -> FST Machine bool) (I : Z -> Machine -> Prop) (Q : Machine -> Z -> Prop) (n : nat) :
  forall (va end_ : Z) s, is_page va -> is_page end_ -> va <= end_ -> (end_ - va) / 4096 < Z.of_nat n ->
  I (va / 4096) s ->
  (forall x t, is_page x -> va <= x <= end_ -> I (x / 4096) t ->
     wpf E (body x) (fun t' ok => if ok then I (x / 4096 + 1) t' else Q t' 0) t) ->
  (forall t, I (end_ / 4096 + 1) t -> Q t 1) ->
  wpf E (page_loop body n va end_) Q s.
Proof.
  induction n as [|n IH]; intros va end_ s Hva Hend Hle Hn HI Hb HQ.
  { assert (0 <= (end_ - va) / 4096) by (apply Z.div_pos; lia). lia. }
  cbn [page_loop]. eapply wpf_seq; [apply Hb; [done|lia|done]|]. intros t [] Ht; cbn [negb]; [|by apply wpf_ret].
  destruct (Z.leb_spec end_ va).
  { assert (va = end_) as -> by lia. apply wpf_ret. by apply HQ. }
  pose proof (page_below va end_ Hva Hend) as Hnext. destruct Hva as [Hm Hr], Hend as [Hem Her].
  unfold PAGE_SIZE_BYTES. rewrite u32_small by lia.
  assert ((va + 4096) / 4096 = va / 4096 + 1) as E1.
  { replace (va + 4096) with (va + 1 * 4096) by lia. by rewrite Z.div_add. }
  apply IH; [|done|lia| |by rewrite E1| |done].
  - split; [|lia]. replace (va + 4096) with (va + 1 * 4096) by lia. by rewrite Z.mod_add.
  - replace (end_ - va) with (end_ - (va + 4096) + 1 * 4096) in Hn by lia. rewrite Z.div_add in Hn by lia. lia.
  - intros x t' Hx Hxr. apply Hb; [done|lia].
Qed.

(** The page numbers of a range. *)
Definition first_page (start : Z) : Z := start / 4096.
Definition last_page (start length : Z) : Z := (start + length - 1) / 4096.

Lemma page_range_spec (E : Machine -> Prop) (body : Z -> FST Machine bool) (I : Z -> Machine -> Prop) (Q : Machine -> Z -> Prop) (start length : Z) s :
  0 <= start -> 0 < length -> start + length <= 2 ^ 32 ->
  I (first_page start) s ->
  (forall x t, is_page x -> first_page start <= x / 4096 <= last_page start length -> I (x / 4096) t ->
     wpf E (body x) (fun t' ok => if ok then I (x / 4096 + 1) t' else Q t' 0) t) ->
  (forall t, I (last_page start length + 1) t -> Q t 1) ->
  wpf E (page_range body start length) Q s.
Proof.
  intros Hs Hl Hr HI Hb HQ. unfold page_range, page_floor, first_page, last_page in *.
  destruct (Z.eqb_spec length 0); [lia|].
  assert (start +u length -u 1 = start + length - 1) as ->.
  { unfold u32. rewrite Zminus_mod_idemp_l. apply Z.mod_small. lia. }
  change PAGE_MASK_BYTES with PAGE_MASK. rewrite !land_PAGE_MASK by lia.
  set (a := start / 4096) in *. set (z := (start + length - 1) / 4096) in *.
  assert (a <= z) by (apply Z.div_le_mono; lia).
  assert (forall v, 0 <= v <= z -> is_page (v * 4096)) as Hpg.
  { intros v Hv. split; [by apply Z.mod_mul|]. pose proof (Z_div_mod_eq_full (start + length - 1) 4096).
    pose proof (Z.mod_pos_bound (start + length - 1) 4096 ltac:(lia)). lia. }
  assert (0 <= a) by (apply Z.div_pos; lia).
  apply (page_loop_spec E body I Q); try done.
  - apply Hpg. lia.
  - apply Hpg. lia.
  - lia.
  - unfold PAGE_SIZE_BYTES. assert (0 <= (z * 4096 - a * 4096) / 4096) by (apply Z.div_pos; lia). lia.
  - by rewrite Z.div_mul.
  - intros x t Hx Hxr. apply Hb; [done|]. split.
    + apply Z.div_le_lower_bound; lia.
    + apply Z.div_le_upper_bound; lia.
  - intros t. rewrite Z.div_mul by done. apply HQ.
Qed.

(** ** Giving a page back that was never used *)

Lemma spaces_free U R s p : spaces (U ∪ {[p]}) R s -> p ∉ U ->
  exists s', free_page p s = Done s' tt /\ spaces U R s' /\ phys s' = phys s.
Proof.
  intros HS HpU. pose proof (sp_inv _ _ _ HS) as HI.
  destruct (sp_fresh _ _ _ HS p) as ((Hpg & Hr & Hu) & Hn & Hnw); [set_solver|]. destruct layout_end as [Hpe He].
  destruct (free_page_spec s p (si_pmm _ _ HI) Hpg) as (p' & E & Hwf & Hf); [lia|].
  exists (with_pmm p' s). split_and!; [done| |done]. unfold frees in Hf. simpl in Hf.
  assert (forall q, is_page q -> q <> p -> page_used p' (q / PAGE_SIZE) = page_used (pmm s) (q / PAGE_SIZE)) as Hother.
  { intros q Hq Hne. rewrite (Hf (q / PAGE_SIZE)) by (by apply page_number_nonneg).
    destruct (Z.eqb_spec (p / PAGE_SIZE) (q / PAGE_SIZE)) as [E'|]; [|done]. by apply page_number_inj in E'. }
  constructor.
  - assert (with_pmm p' s = set_phys (phys s) (with_pmm p' s)) as -> by (by destruct s).
    apply (inv_intro R R); try done; try apply HI.
    + intros q Hq. rewrite (Hf q) by lia. rewrite (si_kernel _ _ HI) by done.
      destruct (Z.eqb_spec (p / PAGE_SIZE) q) as [E'|]; [|done]. exfalso.
      pose proof (page_number _ Hpe). pose proof (page_number _ Hpg). unfold PAGE_SIZE in *. lia.
    + intros Hw Hwn. split; [|done]. rewrite Hother; [apply Hw|apply Hw|congruence].
    + intros q r Hq. pose proof (si_taken _ _ HI _ _ Hq) as (Hq1 & ? & ?). split_and!; [done|lia..|].
      rewrite Hother; [done|done|congruence].
  - intros q Hq. simpl. rewrite (Hf q Hq). pose proof (sp_accounted _ _ _ HS q Hq) as Hacc.
    destruct (Z.eqb_spec (p / PAGE_SIZE) q) as [<-|Hne].
    + rewrite <- page_number by done. split; [done|]. intros [Hk|[?|[[_ ?]|?]]]; try done. exfalso.
      pose proof (page_number _ Hpe). pose proof (page_number _ Hpg). unfold PAGE_SIZE in *. lia.
    + assert (q * PAGE_SIZE <> p) as Hqp.
      { intros Hqp. apply Hne. rewrite <- Hqp. by apply Z.div_mul. }
      assert (q * PAGE_SIZE ∈ U ∪ {[p]} <-> q * PAGE_SIZE ∈ U) as Hm by set_solver. by rewrite <- Hm.
  - intros q Hq. destruct (sp_fresh _ _ _ HS q) as ((Hq1 & ? & ?) & ? & ?); [set_solver|].
    split_and!; [|done|done]. split_and!; [done|lia..|]. simpl. rewrite Hother; [done|done|by intros ->].
Qed.

(** ** Mapping a range *)

Definition user_range (start length : Z) : Prop :=
  USER_VADDR_MIN <= start /\ 0 < length /\ start + length - 1 <= USER_VADDR_MAX.

Lemma user_range_page start length x : user_range start length -> is_page x ->
  first_page start <= x / 4096 <= last_page start length -> user_va x /\ vpn x = x / 4096.
Proof.
  unfold user_range, user_va, vpn, first_page, last_page, USER_VADDR_MIN, USER_VADDR_MAX.
  intros (Hlo & Hl & Hhi) [Hm Hr] [Ha Hz]. split; [|done].
  pose proof (Z_div_mod_eq_full x 4096). pose proof (Z_div_mod_eq_full start 4096).
  pose proof (Z_div_mod_eq_full (start + length - 1) 4096).
  assert (0x40000 <= start / 4096) by (apply Z.div_le_lower_bound; lia).
  assert ((start + length - 1) / 4096 <= 0xBFFFF) by (apply Z.lt_succ_r, Z.div_lt_upper_bound; lia).
  lia.
Qed.

(** Nothing is lost, and what is new are writable frames behind unmapped pages of [d]
    in the range. *)
Definition grows (d lo hi : Z) (A A' : roles) : Prop :=
  A ⊆ A' /\ forall p r, A' !! p = Some r -> A !! p = Some r \/
    exists v, lo <= v < hi /\ r = RFrame d v true /\ ~ mapped A d v.

Lemma grows_refl d lo hi A : grows d lo hi A A.
Proof. split; [done|]. by left. Qed.

Lemma mapped_mono d v A A' : A ⊆ A' -> mapped A d v -> mapped A' d v.
Proof. intros Hs (f & w & Hf). exists f, w. by eapply lookup_weaken. Qed.

Lemma map_one_spec U R s d va : spaces U R s -> R !! d = Some RDir -> user_va va -> is_page va ->
  wpf low_full (map_one d va) (fun s' ok => exists R', spaces U R' s' /\ kept U R s s' /\
    ((ok = true /\ (abs R' = abs R /\ mapped (abs R) d (vpn va) \/
        exists p, ~ mapped (abs R) d (vpn va) /\ abs R !! p = None /\ abs R' = <[p := RFrame d (vpn va) true]> (abs R))) \/
     (ok = false /\ abs R' = abs R))) s.
Proof.
  intros HS Hd Hva Hpg. pose proof (sp_inv _ _ _ HS) as HI. unfold map_one.
  destruct (resolve_user_phys_spec R s d va HI Hd Hva) as (r & E & Hr). eapply wpf_step; [exact E|].
  destruct Hr as [(f & w & Hf & ->)|[Hno ->]].
  { destruct Hpg as [Hm _]. rewrite Hm, Z.add_0_r.
    assert (f <> 0) by (apply abs_frame_1, (si_taken _ _ HI) in Hf as (_ & ? & _); destruct layout_end; lia).
    destruct (Z.eqb_spec f 0); [done|]. cbn [negb]. apply wpf_ret. exists R. split_and!; [done|done|left].
    split; [done|left]. split; [done|]. by exists f, w. }
  cbn [negb Z.eqb]. destruct (spaces_alloc U R s HS) as (p' & a & Ea & [(-> & Hfull & HS1)|(Ha0 & HaU & Hfr & HS1 & Hdata & HL)]);
    (eapply wpf_step; [exact Ea|]).
  { apply wpf_ret. exists R. split_and!; [done|done|by right]. }
  destruct (Z.eqb_spec a 0); [done|]. set (s1 := with_pmm p' s) in *.
  eapply wpf_seq; [apply (map_user_page_spec U R); [done|done|done|done|]|].
  { intros f w Hf. apply Hno. by exists f, w. }
  assert (forall s', kept (U ∪ {[a]}) R s1 s' -> kept U R s s') as Hkept.
  { intros s' Hk p b Hp Hb. apply (Hk p); [destruct Hp; [left; set_solver|by right]|done]. }
  intros s2 r (Hk2 & [(-> & HS2 & _)|(-> & R' & HS2 & HA)]).
  - cbn [Z.eqb]. pose proof Hfr as ((Hap & _) & _). change PAGE_MASK_BYTES with PAGE_MASK. rewrite page_mask by done.
    destruct (spaces_free U R s2 a HS2 HaU) as (s3 & E3 & HS3 & Hp3). eapply wpf_step; [exact E3|]. apply wpf_ret.
    exists R. split_and!; [done| |by right]. intros p b Hp Hb. rewrite Hp3. by apply (Hkept s2 Hk2 p).
  - cbn [Z.eqb]. apply wpf_ret. exists R'. split_and!; [done|by apply Hkept|left]. split; [done|right].
    exists a. split_and!; [done| |done]. destruct (abs R !! a) eqn:Ea'; [|done].
    apply abs_lookup in Ea' as [Ea' _]. destruct Hfr as (_ & ? & _). congruence.
Qed.

Lemma map_range_spec U R s d start length : spaces U R s -> R !! d = Some RDir -> user_range start length ->
  wpf low_full (map_user_pages_for_range d start length) (fun s' r => exists R', spaces U R' s' /\ kept U R s s' /\
    grows d (first_page start) (last_page start length + 1) (abs R) (abs R') /\
    (r = 0 \/ (r = 1 /\ forall v, first_page start <= v <= last_page start length -> mapped (abs R') d v))) s.
Proof.
  intros HS Hd Hu. pose proof Hu as (Hlo & Hl & Hhi). unfold USER_VADDR_MIN, USER_VADDR_MAX in *.
  unfold map_user_pages_for_range.
  apply (page_range_spec low_full _ (fun v t => exists R1, spaces U R1 t /\ kept U R s t /\
    grows d (first_page start) (last_page start length + 1) (abs R) (abs R1) /\
    (forall x, first_page start <= x < v -> mapped (abs R1) d x))); [lia|lia|lia| | |].
  - exists R. split_and!; [done|done|apply grows_refl|lia].
  - intros x t Hx Hxr (R1 & HS1 & Hk1 & [Hsub Hnew] & Hall).
    destruct (user_range_page start length x Hu Hx Hxr) as [Hva Hv].
    assert (R1 !! d = Some RDir) as Hd1 by (apply abs_dir; eapply lookup_weaken; [by apply abs_dir|done]).
    eapply wpf_mono; [by apply (map_one_spec U R1)|]. rewrite Hv.
    assert (forall s', kept U R1 t s' -> kept U R s s') as Hkept.
    { intros s' Hk. eapply data_kept_trans; [done|exact Hk|]. intros p [?|(d' & v' & w & Hp)]; [by left|right].
      exists d', v', w. apply abs_frame. eapply lookup_weaken; [by apply abs_frame|done]. }
    intros t' ok (R2 & HS2 & Hk2 & [(-> & Hcase)|(-> & HA)]).
    + exists R2. destruct Hcase as [[HA Hm]|(p & Hno & Hp & HA)].
      * rewrite HA. split_and!; [done|by apply Hkept|done|].
        intros y Hy. destruct (decide (y = x / 4096)) as [->|]; [done|]. apply Hall. lia.
      * assert (abs R1 ⊆ abs R2) as Hsub2 by (rewrite HA; by apply insert_subseteq).
        split_and!; [done|by apply Hkept| |].
        -- split; [by etrans|]. intros q r. rewrite HA. intros [[<- <-]|[_ Hq]]%lookup_insert_Some; [right|by apply Hnew].
           exists (x / 4096). split_and!; [lia|lia|done|]. intros Hm. apply Hno. by eapply mapped_mono.
        -- intros y Hy. destruct (decide (y = x / 4096)) as [->|]; [|eapply mapped_mono; [done|apply Hall; lia]].
           exists p, true. unfold frame_of. rewrite HA. by rewrite lookup_insert_eq.
    + exists R2. rewrite HA. split_and!; [done|by apply Hkept|done|by left].
  - intros t (R1 & HS1 & Hk1 & Hg & Hall). exists R1. split_and!; [done|done|done|right].
    split; [done|]. intros v Hv. apply Hall. lia.
Qed.

(** ** Unmapping and protecting a range *)

(** Whether a role is a frame of [d] for a page number of the range. *)
Definition in_range (d lo hi : Z) (r : role) : bool :=
  match r with RFrame d' v _ => (d' =? d) && (lo <=? v) && (v <? hi) | _ => false end.

Definition drop_range (d lo hi : Z) (A : roles) : roles := filter (fun p => in_range d lo hi p.2 = false) A.
Definition set_range (d lo hi : Z) (w : bool) (A : roles) : roles :=
  (fun r => if in_range d lo hi r then match r with RFrame d' v _ => RFrame d' v w | _ => r end else r) <$> A.

Lemma in_range_next d lo v r : lo <= v -> in_range d lo (v + 1) r =
  in_range d lo v r || match r with RFrame d' x _ => (d' =? d) && (x =? v) | _ => false end.
Proof.
  intros Hv. destruct r as [|?|d' x w]; [done|done|]. simpl. destruct (d' =? d); simpl; [|done].
  destruct (Z.leb_spec lo x), (Z.ltb_spec x (v + 1)), (Z.ltb_spec x v), (Z.eqb_spec x v); simpl; (done || lia).
Qed.

(** Frames of one page number, in a consistent state. *)
Definition one_frame (A : roles) (d v f : Z) : Prop := forall p w, A !! p = Some (RFrame d v w) -> p = f.

Lemma one_frame_ok R s d v f w : space_inv R s -> frame_of (abs R) d v f w -> one_frame (abs R) d v f.
Proof.
  intros HI Hf%abs_frame_1 p w' Hp%abs_frame_1. by destruct (frame_unique R s d v _ _ _ _ HI Hf Hp).
Qed.

Lemma drop_range_step d lo v A f w : lo <= v -> frame_of (drop_range d lo v A) d v f w ->
  one_frame (drop_range d lo v A) d v f -> delete f (drop_range d lo v A) = drop_range d lo (v + 1) A.
Proof.
  intros Hv Hf H1. apply map_eq. intros p. apply option_eq. intros r. unfold drop_range in *.
  rewrite lookup_delete_Some, !map_lookup_filter_Some, in_range_next by done. simpl. split.
  - intros (Hne & Hp & Hr). split; [done|]. rewrite Hr. destruct r as [|?|d' x w']; try done. simpl.
    destruct (Z.eqb_spec d' d) as [->|], (Z.eqb_spec x v) as [->|]; try done. exfalso. apply Hne. symmetry.
    apply (H1 p w'). by apply map_lookup_filter_Some.
  - intros [Hp [Hr Hl]%orb_false_iff]. split_and!; [|done|done]. intros ->.
    unfold frame_of in Hf. apply map_lookup_filter_Some in Hf as [Hf _]. rewrite Hp in Hf. injection Hf as ->.
    by rewrite !Z.eqb_refl in Hl.
Qed.

Lemma set_range_lookup d lo hi w A p r : set_range d lo hi w A !! p = Some r <->
  exists r', A !! p = Some r' /\
    r = if in_range d lo hi r' then match r' with RFrame d' v _ => RFrame d' v w | _ => r' end else r'.
Proof. unfold set_range. rewrite lookup_fmap, fmap_Some. done. Qed.

Lemma in_range_set d lo hi d' v w w' : in_range d lo hi (RFrame d' v w) = in_range d lo hi (RFrame d' v w').
Proof. done. Qed.

Lemma set_range_step d lo v w A f w0 : lo <= v -> frame_of (set_range d lo v w A) d v f w0 ->
  one_frame (set_range d lo v w A) d v f ->
  <[f := RFrame d v w]> (set_range d lo v w A) = set_range d lo (v + 1) w A.
Proof.
  intros Hv Hf H1. apply map_eq. intros p. unfold frame_of in Hf.
  destruct (decide (p = f)) as [->|Hne].
  - rewrite lookup_insert_eq. symmetry. apply set_range_lookup.
    apply set_range_lookup in Hf as (r' & Hr' & E). exists r'. split; [done|].
    destruct r' as [|?|d' x w']; [by simpl in E..|]. rewrite in_range_next by done.
    destruct (in_range d lo v (RFrame d' x w')) eqn:Ei; simplify_eq; [done|].
    by rewrite !Z.eqb_refl.
  - rewrite lookup_insert_ne by done. unfold set_range. rewrite !lookup_fmap. destruct (A !! p) as [r'|] eqn:Ep; [|done].
    simpl. f_equal. rewrite in_range_next by done. destruct (in_range d lo v r') eqn:Ei; [done|].
    destruct r' as [|?|d' x w']; try done. simpl. destruct (Z.eqb_spec d' d) as [->|], (Z.eqb_spec x v) as [->|]; try done.
    exfalso. apply Hne. apply (H1 p w'). apply set_range_lookup. exists (RFrame d v w'). split; [done|]. by rewrite Ei.
Qed.

Lemma in_range_empty d lo r : in_range d lo lo r = false.
Proof.
  destruct r as [|?|d' x w]; [done|done|]. simpl. destruct (d' =? d); simpl; [|done].
  destruct (Z.leb_spec lo x), (Z.ltb_spec x lo); (done || lia).
Qed.

Lemma drop_range_empty d lo A : drop_range d lo lo A = A.
Proof.
  apply map_eq. intros p. apply option_eq. intros r. unfold drop_range. rewrite map_lookup_filter_Some. simpl.
  rewrite in_range_empty. naive_solver.
Qed.

Lemma set_range_empty d lo w A : set_range d lo lo w A = A.
Proof.
  apply map_eq. intros p. unfold set_range. rewrite lookup_fmap. destruct (A !! p) as [r|]; [|done].
  simpl. by rewrite in_range_empty.
Qed.

Lemma set_range_dir d lo hi w A : set_range d lo hi w A !! d = Some RDir <-> A !! d = Some RDir.
Proof.
  rewrite set_range_lookup. split.
  - intros (r' & Hr & E). by destruct r' as [|?|d' v w']; [|done|destruct (in_range _ _ _ _)].
  - intros Ha. by exists RDir.
Qed.

Lemma page_of_range start length x : 0 <= start -> start + length <= 2 ^ 32 -> is_page x -> 0 <= x < 2 ^ 32 /\ vpn x = x / 4096.
Proof. intros _ _ [_ Hr]. done. Qed.

(** An unmapping stops at the first page that is not mapped. *)
Lemma unmap_range_spec U R s d start length : spaces U R s -> R !! d = Some RDir ->
  0 <= start -> 0 < length -> start + length <= 2 ^ 32 ->
  wpf (fun _ => False) (unmap_user_pages_for_range d start length) (fun s' r => exists R' stop, spaces U R' s' /\ kept U R' s s' /\
    abs R' = drop_range d (first_page start) stop (abs R) /\
    (forall v, first_page start <= v < stop -> mapped (abs R) d v) /\
    ((r = 1 /\ stop = last_page start length + 1) \/
     (r = 0 /\ first_page start <= stop <= last_page start length /\ ~ mapped (abs R) d stop))) s.
Proof.
  intros HS Hd Hs Hl Hr. unfold unmap_user_pages_for_range.
  apply (page_range_spec (fun _ => False) _ (fun v t => first_page start <= v /\ exists R1, spaces U R1 t /\ kept U R1 s t /\
    abs R1 = drop_range d (first_page start) v (abs R) /\
    (forall x, first_page start <= x < v -> mapped (abs R) d x))); [done|done|done| | |].
  - split; [lia|]. exists R. split_and!; [done|done|by rewrite drop_range_empty|lia].
  - intros x t Hx Hxr (Hle & R1 & HS1 & Hk1 & HA & Hm).
    assert (R1 !! d = Some RDir) as Hd1.
    { apply abs_dir. rewrite HA. unfold drop_range. apply map_lookup_filter_Some. split; [by apply abs_dir|done]. }
    unfold unmap_one, wpf, mbind, FST_bind.
    destruct (unmap_user_page_spec U R1 t d x HS1 Hd1 (proj2 Hx)) as (t' & r & -> & Hk2 & Hcase).
    change (vpn x) with (x / 4096) in Hcase. simpl. destruct Hcase as [(-> & -> & Hno)|(-> & f & w & Hf & HS2)]; simpl.
    + exists R1, (x / 4096). split_and!; [done|done|done|done|right]. split; [done|]. split; [lia|].
      intros (f & w & Hf). apply Hno. exists f, w. unfold frame_of in *. rewrite HA. apply map_lookup_filter_Some.
      split; [done|]. simpl. destruct (Z.ltb_spec (x / 4096) (x / 4096)); [lia|]. by rewrite andb_false_r.
    + split; [lia|]. exists (delete f R1). split_and!; [done| | |].
      * intros p b Hp Hb. assert (data_page U R1 p) as Hp1.
        { destruct Hp as [?|(d' & v' & w' & Hp)]; [by left|right]. apply lookup_delete_Some in Hp as [_ Hp]. eauto. }
        by rewrite (Hk2 p b), (Hk1 p b).
      * rewrite abs_delete, HA. apply (drop_range_step _ _ _ _ f w); [done|by rewrite <- HA|].
        rewrite <- HA. eapply one_frame_ok; [apply HS1|exact Hf].
      * intros y Hy. destruct (decide (y = x / 4096)) as [->|]; [|apply Hm; lia].
        exists f, w. unfold frame_of in *. rewrite HA in Hf. by apply map_lookup_filter_Some in Hf as [? _].
  - intros t (_ & R1 & HS1 & Hk1 & HA & Hm). exists R1, (last_page start length + 1). split_and!; [done|done|done| |by left].
    intros v Hv. apply Hm. lia.
Qed.

(** A change of permission, likewise. *)
Lemma protect_range_spec U R s d start length writable : spaces U R s -> R !! d = Some RDir ->
  0 <= start -> 0 < length -> start + length <= 2 ^ 32 ->
  wpf (fun _ => False) (set_user_writable_for_range d start length writable) (fun s' r => exists R' stop, spaces U R' s' /\ kept U R s s' /\
    abs R' = set_range d (first_page start) stop (negb (writable =? 0)) (abs R) /\
    (forall v, first_page start <= v < stop -> mapped (abs R) d v) /\
    ((r = 1 /\ stop = last_page start length + 1) \/
     (r = 0 /\ first_page start <= stop <= last_page start length /\ ~ mapped (abs R) d stop))) s.
Proof.
  intros HS Hd Hs Hl Hr. set (w := negb (writable =? 0)). unfold set_user_writable_for_range.
  apply (page_range_spec (fun _ => False) _ (fun v t => first_page start <= v /\ exists R1, spaces U R1 t /\ kept U R s t /\
    abs R1 = set_range d (first_page start) v w (abs R) /\
    (forall x, first_page start <= x < v -> mapped (abs R) d x))); [done|done|done| | |].
  - split; [lia|]. exists R. split_and!; [done|done|by rewrite set_range_empty|lia].
  - intros x t Hx Hxr (Hle & R1 & HS1 & Hk1 & HA & Hm).
    assert (R1 !! d = Some RDir) as Hd1.
    { apply abs_dir. rewrite HA. by apply set_range_dir, abs_dir. }
    assert (forall v, mapped (abs R1) d v <-> mapped (abs R) d v) as Hmap.
    { intros v. rewrite HA. split.
      - intros (f & w' & (r' & Hr' & E)%set_range_lookup). exists f.
        destruct r' as [|?|d' v' w'']; [done|done|]. exists w''. unfold frame_of.
        destruct (in_range _ _ _ _); by simplify_eq.
      - intros (f & w' & Hf). exists f. eexists. apply set_range_lookup. exists (RFrame d v w'). split; [exact Hf|].
        instantiate (1 := if in_range d (first_page start) (x / 4096) (RFrame d v w') then w else w').
        by destruct (in_range _ _ _ _). }
    unfold protect_one, wpf, mbind, FST_bind.
    destruct (set_user_page_writable_spec U R1 t d x writable HS1 Hd1 (proj2 Hx)) as (t' & r & -> & Hk2 & Hcase).
    change (vpn x) with (x / 4096) in Hcase. simpl. destruct Hcase as [(-> & -> & Hno)|(-> & f & w0 & Hf & HS2)]; simpl.
    + exists R1, (x / 4096). split_and!; [done|done|done|done|right]. split; [done|]. split; [lia|]. by rewrite <- Hmap.
    + split; [lia|]. exists (<[f := RFrame d (x / 4096) w]> R1). split_and!; [done| | |].
      * intros p b Hp Hb. assert (data_page U R1 p) as Hp1.
        { destruct Hp as [?|(d' & v' & w' & Hp)]; [by left|right].
          assert (set_range d (first_page start) (x / 4096) w (abs R) !! p =
            Some (if in_range d (first_page start) (x / 4096) (RFrame d' v' w') then RFrame d' v' w else RFrame d' v' w')) as Hq.
          { apply set_range_lookup. exists (RFrame d' v' w'). split; [by apply abs_lookup|]. done. }
          rewrite <- HA in Hq. apply abs_lookup in Hq as [Hq _]. destruct (in_range _ _ _ _); eauto. }
        by rewrite (Hk2 p b), (Hk1 p b).
      * rewrite abs_insert, HA by done. apply (set_range_step _ _ _ _ _ f w0); [done|by rewrite <- HA|].
        rewrite <- HA. eapply one_frame_ok; [apply HS1|exact Hf].
      * intros y Hy. destruct (decide (y = x / 4096)) as [->|]; [|apply Hm; lia]. apply Hmap. by exists f, w0.
  - intros t (_ & R1 & HS1 & Hk1 & HA & Hm). exists R1, (last_page start length + 1). split_and!; [done|done|done| |by left].
    intros v Hv. apply Hm. lia.
Qed.

End Spec.
