(* ===== verification/AddressSpaces.v ===== *)
(** * Address spaces: what the theorems say

    From the moment paging is switched on, whatever the order in which address spaces
    are made, copied, changed, switched and released, the page tables say what an
    abstract map of frames says, no page belongs to two of them, and none is lost. *)
From S2P Require Import Prelude Fault Bytes Pmm Memory Paging Spaces SpaceOps SpaceCalls SpaceClone SpaceCopy UserMemory.

Section Boot.
Context `{KL : KernelLayout}.
Implicit Types (R A : roles) (s : Machine) (m : gmap Z Z) (U : gset Z).

(** ** Switching paging on *)

(** The state of the page allocator as [init_paging] finds it: the kernel image and
    the pages [U] handed out before are in use. *)
Definition before_paging U s : Prop :=
  paging s = false /\ pmm_wf (pmm s) /\
  (forall q, 0 <= q -> page_used (pmm s) q = true <-> q < kernel_end / PAGE_SIZE \/ q * PAGE_SIZE ∈ U) /\
  (forall p, p ∈ U -> is_page p /\ kernel_end <= p < MEMORY_MAX).

Lemma wr32_raw s a v : paging s = false -> wr32 a v s = Done (set_phys (store32 (phys s) a v) s) tt.
Proof. intros Hp. unfold wr32, access, translate. by rewrite Hp. Qed.

Lemma each_raw s p (g : Z -> Z) : paging s = false -> is_page p ->
  wpf (fun _ => False) (each (fun i => wr32 (p + 4 * i) (g i)) 0 1024)
    (fun s' _ => exists m', s' = set_phys m' s /\ outside p (phys s) m' /\
       forall j, 0 <= j < 1024 -> ent m' p j = u32 (g j)) s.
Proof.
  intros Hp Hpg. eapply wpf_mono; [apply (wpf_each _ _ (fun i t => exists m', t = set_phys m' s /\
    outside p (phys s) m' /\ forall j, 0 <= j < i -> ent m' p j = u32 (g j)))|].
  - exists (phys s). split_and!; [by destruct s|done|lia].
  - intros i t Hi (m' & -> & Ho & Hg). unfold wpf. rewrite wr32_raw by done. rewrite set_phys_twice.
    eexists. split_and!; [done| |].
    + eapply outside_trans; [done|]. by apply outside_store32.
    + intros j Hj. simpl. rewrite ent_store by (done || lia). rewrite Z.eqb_refl. simpl.
      destruct (Z.eqb_spec i j) as [<-|]; [done|]. apply Hg. lia.
  - intros s' _ (m' & ? & ? & Hg). exists m'. done.
Qed.

(** *** The mappings of devices

    The framebuffer and the registers of devices lie above the user range; their page
    tables come from the allocator, or are page 0 when it has none left. *)
Definition high_ok U s : Prop :=
  cr3 s = page_directory /\
  forall i, 768 <= i < 1024 -> absent (ent (phys s) page_directory i) \/
    exists t, kernel_entry (ent (phys s) page_directory i) t /\ is_page t /\ t < LOW /\ (t = 0 \/ t ∈ U).

Definition booting U s : Prop := spaces U ∅ s /\ high_ok U s.

Lemma high_write U s t k v : booting U s -> is_page t -> t < LOW -> (t = 0 \/ t ∈ U) -> 0 <= k < 1024 ->
  exists s', wr32 (t + 4 * k) v s = Done s' tt /\ booting U s'.
Proof.
  intros [HS [Hc Hh]] Ht Hl HU Hk. pose proof (sp_inv _ _ _ HS) as HI. pose proof Ht as [_ Ht0].
  set (m' := store32 (phys s) (t + 4 * k) v). exists (set_phys m' s). split.
  { apply wr32_ent; [by apply (inv_low ∅)|lia|by apply page_below; [|apply LOW_page|]|done]. }
  assert (outside t (phys s) m') as Ho by (by apply outside_store32).
  assert (same_tables ∅ (phys s) m' /\ spaces U ∅ (set_phys m' s)) as [Hsame HS'].
  { destruct HU as [-> |HU].
    - destruct (page_zero_spaces U ∅ s m' HS Ho) as (? & ? & _). by split.
    - pose proof (sp_fresh _ _ _ HS t HU) as Hf. pose proof (fresh_same ∅ s t m' HI Hf Ho) as Hsame. split; [done|].
      apply (spaces_same U ∅ s); [done|by eapply fresh_inv|done|by apply (window_same ∅ s)]. }
  split; [done|]. split; [done|]. intros i Hi. cbn [phys set_phys]. simpl.
  rewrite (Hsame page_directory i (structural_kpd ∅)) by lia. by apply Hh.
Qed.

(** A directory entry above the user range is set to a new table. *)
Lemma high_entry U s w i : spaces U ∅ s -> 768 <= i < 1024 -> is_page w ->
  let s' := set_phys (store32 (phys s) (page_directory + 4 * i) (Z.lor w 3)) s in
  spaces U ∅ s' /\ forall j, 0 <= j < 1024 ->
    ent (phys s') page_directory j = if i =? j then u32 (Z.lor w 3) else ent (phys s) page_directory j.
Proof.
  intros HS Hi Hw s'. pose proof (sp_inv _ _ _ HS) as HI. destruct layout_pd, layout_first, layout_second.
  destruct layout_distinct as (? & ? & _).
  assert (forall j, 0 <= j < 1024 -> ent (phys s') page_directory j = if i =? j then u32 (Z.lor w 3) else ent (phys s) page_directory j) as He.
  { intros j Hj. unfold s'. simpl. rewrite ent_store, Z.eqb_refl by (done || lia). cbn [andb]. by destruct (i =? j). }
  assert (forall q j, is_page q -> q <> page_directory -> 0 <= j < 1024 -> ent (phys s') q j = ent (phys s) q j) as Hother.
  { intros q j Hq Hne Hj. unfold s'. simpl. rewrite ent_store by (done || lia). by destruct (Z.eqb_spec page_directory q). }
  split; [|done]. assert (window (phys s') = window (phys s)) as Hwin.
  { unfold window. rewrite He by (unfold WINDOW; lia). by destruct (Z.eqb_spec i WINDOW); [unfold WINDOW in *; lia|]. }
  apply (spaces_same U ∅ s); [done| |done|done]. constructor; try apply HI.
  - eapply maps_low_ext; [|apply HI]. intros j Hj. rewrite He by lia. by destruct (Z.eqb_spec i j); [lia|].
  - intros j Hj. unfold user_pde in Hj. rewrite He by lia. destruct (Z.eqb_spec i j); [lia|]. by apply (si_kpd_user _ _ HI).
  - intros j Hj. rewrite !Hother by (done || congruence). by apply (si_identity _ _ HI).
  - rewrite Hwin, He by (unfold WINDOW; lia). destruct (Z.eqb_spec i WINDOW); [unfold WINDOW in *; lia|]. apply HI.
  - intros p r Hp. by rewrite lookup_empty in Hp.
Qed.

(** A page that is handed out and cleared for a table. *)
Lemma high_alloc U s : booting U s ->
  wpf low_full (new_table_phys ← alloc_page; fill_table new_table_phys 0 ≫= fun _ => mret new_table_phys)
    (fun s' w => exists U', U ⊆ U' /\ booting U' s' /\ is_page w /\ w < LOW /\ (w = 0 \/ w ∈ U')) s.
Proof.
  intros [HS [Hc Hh]]. pose proof (structural_kpd ∅) as Hk.
  assert (forall U' t, same_tables ∅ (phys s) (phys t) -> cr3 t = cr3 s -> U ⊆ U' -> high_ok U' t) as Hhigh.
  { intros U' t Hsame Ht HU. split; [congruence|]. intros i Hi. rewrite (Hsame page_directory i Hk) by lia.
    destruct (Hh i Hi) as [?|(x & ? & ? & ? & Hx)]; [by left|right]. exists x. split_and!; [done..|]. destruct Hx; [by left|right; set_solver]. }
  destruct (spaces_alloc U ∅ s HS) as (p' & a & Ea & [(-> & Hfull & HS1)|(Ha0 & HaU & Hf & HS1 & Hdata & HL)]);
    (eapply wpf_step; [exact Ea|]); set (s1 := with_pmm p' s) in *.
  - assert (is_page 0) as H0 by (split; [done|lia]).
    eapply wpf_seq.
    + unfold fill_table. apply (fill_page ∅ s1 0 _ (fun _ => 0)); [done|by unfold MEMORY_MAX| |by unfold LOW|done].
      intros m' Ho. destruct (page_zero_spaces U ∅ s1 m' HS1 Ho) as (_ & HS' & _). apply HS'.
    + intros s2 _ (m' & -> & Hl & Ho & _). destruct (page_zero_spaces U ∅ s1 m' HS1 Ho) as (Hsame & HS2 & _).
      apply wpf_ret. exists U. split_and!; [done|split; [done|by apply Hhigh]|done|done|by left].
  - pose proof Hf as ((Hpg & Hr & _) & Hn & _). pose proof (sp_inv _ _ _ HS1) as HI1.
    eapply wpf_seq; [by apply (fill_table_spec ∅)|]. intros s2 _ (m' & -> & Hl & Ho & _).
    pose proof (fresh_same ∅ s1 a m' HI1 Hf Ho) as Hsame. apply wpf_ret. exists (U ∪ {[a]}).
    split_and!; [set_solver| |done|done|right; set_solver]. split; [|apply Hhigh; [done|done|set_solver]].
    apply (spaces_same _ _ s1); [done|by eapply fresh_inv|done|by apply (window_same ∅ s1)].
Qed.

(** Addresses above the user range. *)
Definition high_page (va : Z) : Prop := is_page va /\ 0xC0000000 <= va.

Lemma map_high_spec U s va : booting U s -> high_page va ->
  wpf low_full (map_page va va) (fun s' _ => exists U', U ⊆ U' /\ booting U' s') s.
Proof.
  intros HB [Hva Hhi]. pose proof HB as [HS [Hc Hh]]. pose proof (sp_inv _ _ _ HS) as HI. pose proof (structural_kpd ∅) as Hk.
  pose proof (pt_index_range va) as Hj. pose proof Hva as [_ Hr].
  assert (768 <= pd_index va < 1024) as Hi.
  { unfold pd_index. rewrite Z.shiftr_div_pow2 by lia. split; [apply Z.div_le_lower_bound; lia|apply Z.div_lt_upper_bound; lia]. }
  unfold map_page, map_page_flags. cbv zeta. eapply wpf_step; [apply (rd32_struct ∅); [done|done|lia]|].
  change 0x1 with PAGE_PRESENT. rewrite absent_test. destruct (Hh _ Hi) as [Ha|(t & Ht & Htp & Htl & HtU)].
  - rewrite bool_decide_eq_true_2 by done. apply wpf_bind. pose proof (high_alloc U s HB) as Hal.
    unfold wpf, mbind, FST_bind in Hal |- *.
    destruct (alloc_page s) as [s1 a|s1]; [|done]. destruct (fill_table a 0 s1) as [s2 []|s2]; [|done].
    destruct Hal as (U' & HU & [HS2 [Hc2 Hh2]] & Hap & Hal & HaU).
    rewrite (wr32_struct ∅ s2 page_directory _ _ (sp_inv _ _ _ HS2) Hk) by lia. rewrite page_mask, <- Z.lor_assoc by done.
    change (Z.lor PAGE_PRESENT PAGE_RW) with 3. destruct (high_entry U' s2 a (pd_index va) HS2 Hi Hap) as [HS3 He3].
    set (s3 := set_phys _ s2) in *. assert (booting U' s3) as HB3.
    { split; [done|]. split; [done|]. intros i Hi'. rewrite He3 by lia. destruct (Z.eqb_spec (pd_index va) i) as [<-|]; [right|by apply Hh2].
      exists a. split_and!; [by apply kernel_entry_built|done..]. }
    cbn [mret FST_ret]. destruct (high_write U' s3 a (pt_index va) (Z.lor (Z.land va PAGE_MASK) (Z.land 3 0xFFF)) HB3 Hap Hal HaU Hj) as (s4 & E & HB4).
    rewrite E. by exists U'.
  - rewrite bool_decide_eq_false_2 by (by eapply kernel_not_absent). eapply wpf_step; [done|]. destruct Ht as [-> _].
    destruct (high_write U s t (pt_index va) (Z.lor (Z.land va PAGE_MASK) (Z.land (Z.lor PAGE_PRESENT PAGE_RW) 0xFFF)) HB Htp Htl HtU Hj) as (s4 & E & HB4).
    unfold wpf. rewrite E. by exists U.
Qed.

(** The loop over the pages of a device. *)
Lemma map_device_spec U s base n : booting U s -> high_page base -> base + 4096 * Z.of_nat n <= 2 ^ 32 ->
  wpf low_full (each (fun i => let addr := base +u (i * 4096) in map_page addr addr) 0 n) (fun s' _ => exists U', U ⊆ U' /\ booting U' s') s.
Proof.
  intros HB [[Hm Hr] Hhi] Hend.
  apply (wpf_each _ _ (fun _ t => exists U', U ⊆ U' /\ booting U' t)); [by exists U|].
  intros i t Hi (U' & HU & HB'). cbv zeta. rewrite u32_small by lia. eapply wpf_mono; [apply (map_high_spec U' t); [done|]|].
  - split; [split; [by rewrite Z.mod_add|lia]|lia].
  - intros t' _ (U2 & ? & ?). exists U2. split; [by etrans|done].
Qed.

(** The framebuffer of [init_paging] and the regions drivers ask for, above the user range. *)
Definition framebuffer_ok (fb : Z) : Prop := fb = 0 \/ high_page fb /\ fb + 512 * 4096 <= 2 ^ 32.
Definition mmio_ok (r : Z * Z) : Prop :=
  let '(phys, size) := r in
  high_page (Z.land phys 0xFFFFF000) /\ 0 <= size < 2 ^ 32 - 4095 /\ Z.land phys 0xFFFFF000 + size + 4095 <= 2 ^ 32.

(** Starting: paging, and then the regions of the drivers. *)
Fixpoint map_regions (l : list (Z * Z)) : FST Machine unit :=
  match l with [] => mret tt | r :: l' => map_mmio_region (fst r) (snd r) ≫= fun _ => map_regions l' end.
Definition boot (fb : Z) (regions : list (Z * Z)) : FST Machine unit := init_paging fb ≫= fun _ => map_regions regions.

Lemma map_mmio_spec U s r : booting U s -> mmio_ok r ->
  wpf low_full (map_mmio_region r.1 r.2) (fun s' _ => exists U', U ⊆ U' /\ booting U' s') s.
Proof.
  destruct r as [p size]. intros HB (Hp & Hs & Hend). unfold map_mmio_region. cbv zeta. cbn [fst snd]. rewrite (u32_small (size + 4095)) by lia.
  pose proof (Z_div_mod_eq_full (size + 4095) 4096). pose proof (Z.mod_pos_bound (size + 4095) 4096 ltac:(lia)).
  assert (0 <= (size + 4095) / 4096) by (apply Z.div_pos; lia).
  apply map_device_spec; [done|done|]. destruct Hp as [[Hm _] _]. case_if; bsimpl; lia.
Qed.

(** *** Switching paging on *)

Lemma init_paging_spec U fb s : before_paging U s -> framebuffer_ok fb ->
  wpf (fun t => fb <> 0 /\ low_full t) (init_paging fb) (fun s' _ => exists U', U ⊆ U' /\ booting U' s') s.
Proof.
  intros (Hoff & Hwf & Hacc & HU) Hfb. destruct layout_pd as [Hpd Hpd'], layout_first as [Hf Hf'], layout_second as [Hs Hs'].
  destruct layout_distinct as (Hne1 & Hne2 & Hne3). unfold init_paging, fill_table.
  eapply wpf_seq; [eapply wpf_fault; [by apply (each_raw s page_directory (fun _ => 2))|done]|]. intros s1 _ (m1 & -> & Ho1 & He1).
  eapply wpf_seq; [eapply wpf_fault; [by apply (each_raw _ first_page_table (fun i => Z.lor (i * 4096) 3))|done]|].
  intros s2 _ (m2 & -> & Ho2 & He2). rewrite set_phys_twice. simpl in Ho2.
  eapply wpf_step; [by apply wr32_raw|]. rewrite set_phys_twice. simpl phys.
  set (m3 := store32 m2 (page_directory + 4 * 0) (Z.lor first_page_table 3)).
  eapply wpf_seq; [eapply wpf_fault; [by apply (each_raw _ second_page_table (fun i => Z.lor (0x400000 + i * 4096) 3))|done]|].
  intros s4 _ (m4 & -> & Ho4 & He4). rewrite set_phys_twice. simpl in Ho4.
  eapply wpf_step; [by apply wr32_raw|]. rewrite set_phys_twice. simpl phys.
  set (m5 := store32 m4 (page_directory + 4 * 1) (Z.lor second_page_table 3)).
  eapply wpf_step; [done|]. eapply wpf_step; [done|]. set (sP := _ <| paging := true |>).
  assert (forall i, 0 <= i < 1024 -> ent m5 page_directory i =
    if i =? 0 then u32 (Z.lor first_page_table 3) else if i =? 1 then u32 (Z.lor second_page_table 3) else 2) as Hk.
  { intros i Hi. unfold m5. rewrite ent_store, Z.eqb_refl by (done || lia). cbn [andb].
    destruct (Z.eqb_spec 1 i) as [<-|]; [done|]. rewrite (outside_ent second_page_table m3) by (try done; congruence).
    unfold m3. rewrite ent_store, Z.eqb_refl by (done || lia). cbn [andb].
    destruct (Z.eqb_spec 0 i) as [<-|]; [done|]. rewrite (outside_ent first_page_table m1) by (try done; congruence).
    rewrite He1 by done. destruct (Z.eqb_spec i 0), (Z.eqb_spec i 1); (done || lia). }
  assert (forall i, 0 <= i < 1024 -> ent m5 first_page_table i = u32 (Z.lor (i * 4096) 3)) as Hft.
  { intros i Hi. unfold m5. rewrite ent_store by (done || lia). destruct (Z.eqb_spec page_directory first_page_table); [done|].
    cbn [andb]. rewrite (outside_ent second_page_table m3) by (try done; congruence). unfold m3. rewrite ent_store by (done || lia).
    destruct (Z.eqb_spec page_directory first_page_table); [done|]. cbn [andb]. by apply He2. }
  assert (forall i, 0 <= i < 1024 -> ent m5 second_page_table i = u32 (Z.lor (0x400000 + i * 4096) 3)) as Hst.
  { intros i Hi. unfold m5. rewrite ent_store by (done || lia). destruct (Z.eqb_spec page_directory second_page_table); [done|].
    cbn [andb]. by apply He4. }
  assert (forall k, 0 <= k < 2048 -> kernel_entry (u32 (Z.lor (k * 4096) 3)) (k * 4096)) as Hent.
  { intros k Hk'. apply kernel_entry_built; [split; [by apply Z.mod_mul|lia]|lia|done]. }
  enough (booting U sP) as HB.
  { destruct (Z.eqb_spec fb 0) as [->|Hne]; cbn [negb]; [apply wpf_ret; by exists U|].
    destruct Hfb as [?|[Hp Hend]]; [done|]. eapply wpf_fault; [by apply (map_device_spec U sP fb 512)|done]. }
  assert (high_ok U sP) as Hhigh.
  { split; [done|]. intros i Hi. left. simpl. rewrite Hk by lia. destruct (Z.eqb_spec i 0), (Z.eqb_spec i 1); (done || lia). }
  split; [constructor|done].
  - constructor; simpl; [done|by left|done| | | | | | |].
    + intros q Hq. apply Hacc; [lia|]. left. lia.
    + split_and!; [rewrite Hk by lia; by apply kernel_entry_built..|]. intros i Hi. rewrite Hk by lia.
      destruct (Z.eqb_spec i 0), (Z.eqb_spec i 1); (done || lia).
    + intros i Hi. unfold user_pde in Hi. rewrite Hk by lia. destruct (Z.eqb_spec i 0), (Z.eqb_spec i 1); (done || lia).
    + intros i Hi. rewrite Hft, Hst by done. split; [apply Hent; lia|].
      replace (0x400000 + i * 4096) with ((1024 + i) * 4096) by lia. apply Hent. lia.
    + left. unfold window, WINDOW. rewrite Hk by lia. done.
    + intros p r Hp. by rewrite lookup_empty in Hp.
    + intros p r Hp. by rewrite lookup_empty in Hp.
  - intros q Hq. simpl. rewrite (Hacc q Hq), lookup_empty. unfold window, WINDOW. rewrite Hk by lia.
    change (Z.land (if 255 =? 0 then _ else _) PAGE_MASK) with 0. unfold PAGE_SIZE.
    split; [intros [?|?]; auto|intros [?|[?|[[? ?]|?]]]; [by left|done|lia|by right]].
  - intros p Hp. destruct (HU p Hp) as [Hpg Hr]. split_and!; [|by rewrite lookup_empty|].
    + split_and!; [done|lia..|]. apply Hacc; [by apply page_number_nonneg|]. right. by rewrite <- page_number.
    + unfold window, WINDOW. simpl. rewrite Hk by lia. change (Z.land (if 255 =? 0 then _ else _) PAGE_MASK) with 0.
      destruct layout_end. lia.
Qed.

Lemma map_regions_spec U l : Forall mmio_ok l -> forall s, booting U s ->
  wpf low_full (map_regions l) (fun s' _ => exists U', U ⊆ U' /\ booting U' s') s.
Proof.
  intros Hl. revert U. induction Hl as [|r l Hr _ IH]; intros U s HB; cbn [map_regions]; [apply wpf_ret; by exists U|].
  eapply wpf_seq; [by apply (map_mmio_spec U s r)|]. intros s2 [] (U2 & HU2 & HB2).
  eapply wpf_mono; [by apply (IH U2)|]. intros s3 [] (U3 & HU3 & HB3). exists U3. split; [by etrans|done].
Qed.

Lemma boot_spec U fb regions s : before_paging U s -> framebuffer_ok fb -> Forall mmio_ok regions ->
  wpf (fun t => (fb, regions) <> (0, []) /\ low_full t) (boot fb regions) (fun s' _ => exists U', U ⊆ U' /\ booting U' s') s.
Proof.
  intros Hb Hfb Hr. unfold boot. eapply wpf_seq; [eapply wpf_fault; [by apply (init_paging_spec U)|]|].
  { intros t [Hne Hl]. split; [congruence|done]. }
  intros s1 [] (U1 & HU1 & HB1). destruct (decide (regions = [])) as [->|Hne]; [apply wpf_ret; by exists U1|].
  eapply wpf_fault with (E := low_full); [|intros t Ht; split; [congruence|done]].
  eapply wpf_mono; [by apply (map_regions_spec U1)|]. intros s2 [] (U2 & HU2 & HB2). exists U2. split; [by etrans|done].
Qed.
End Boot.

(** ** What a process sees *)

(** The walk of the tables for an access from user mode: both entries must be present
    and open to user mode, and a store needs both to be writable. *)
Definition user_walk (m : gmap Z Z) (d va : Z) : option (Z * bool) :=
  let pde := load32 m (Z.land d PAGE_MASK + 4 * Z.shiftr va 22) in
  if not_user pde then None
  else
    let pte := load32 m (Z.land pde PAGE_MASK + 4 * Z.land (Z.shiftr va 12) 0x3FF) in
    if not_user pte then None
    else Some (Z.lor (Z.land pte PAGE_MASK) (Z.land va 0xFFF), negb (Z.land (Z.land pde pte) PAGE_RW =? 0)).

(** The byte at an address of the address space [d], and whether a store may change it. *)
Definition user_view (s : Machine) (d va : Z) : option (Z * bool) :=
  '(pa, w) ← user_walk (phys s) d va; Some (load8 (phys s) pa, w).

(** A load and a store of the running process; the result -1 and 0 is a page fault. *)
Definition user_load (va : Z) : FST Machine Z := fun s =>
  Done s (match user_walk (phys s) (cr3 s) va with Some (pa, _) => load8 (phys s) pa | None => -1 end).
Definition user_store (va v : Z) : FST Machine Z := fun s =>
  match user_walk (phys s) (cr3 s) va with
  | Some (pa, true) => Done (s <| phys := store8 (phys s) pa v |>) 1
  | _ => Done s 0
  end.

Section View.
Context `{KL : KernelLayout}.
Implicit Types (R A : roles) (s : Machine) (m : gmap Z Z) (U : gset Z).

Lemma user_walk_spec R s d va : space_inv R s -> R !! d = Some RDir -> 0 <= va < 2 ^ 32 ->
  (exists f w, R !! f = Some (RFrame d (vpn va) w) /\ user_walk (phys s) d va = Some (f + va mod 4096, w)) \/
  (~ mapped (abs R) d (vpn va) /\ user_walk (phys s) d va = None).
Proof.
  intros HI Hd Hva. destruct (dir_nonzero R s d HI Hd) as [Hdp _]. pose proof (pt_index_range va) as Hj.
  unfold user_walk. rewrite page_mask by done. fold (pd_index va) (pt_index va).
  destruct (decide (user_va va)) as [Hu|Hu].
  - fold (ent (phys s) d (pd_index va)).
    destruct (lookup_va_ok R s d va HI Hd Hu) as [Ha Hn|t Ht He Ha Hn|t f w Ht He Hf He'].
    + right. rewrite not_user_absent by done. split; [by apply not_mapped|done].
    + right. rewrite (not_user_entry _ t true) by done. destruct He as [-> _]. cbv zeta.
      fold (ent (phys s) t (pt_index va)). rewrite not_user_absent by done. split; [by apply not_mapped|done].
    + left. exists f, w. split; [done|]. rewrite (not_user_entry _ t true) by done. pose proof He as [-> H7]. cbv zeta.
      fold (ent (phys s) t (pt_index va)). rewrite (not_user_entry _ f w) by done. pose proof He' as [-> H7'].
      f_equal. f_equal.
      * change 0xFFF with (Z.ones 12). rewrite Z.land_ones by lia. change (2 ^ 12) with 4096.
        apply entry_eq; [by apply (si_taken _ _ HI _ _ Hf)|apply Z.mod_pos_bound; lia].
      * rewrite (Z.land_comm (ent _ d _)), <- Z.land_assoc, (land_via_7 (ent (phys s) d _) PAGE_RW) by done.
        rewrite H7. change (Z.land 7 PAGE_RW) with 2. rewrite land_via_7 by done. rewrite H7'. by destruct w.
  - right. destruct (not_user_range R s d va HI Hd Hva Hu) as [(e & Ee & He) Hm]. split; [done|].
    enough (load32 (phys s) (d + 4 * pd_index va) = e) as -> by (by rewrite He).
    pose proof (si_taken _ _ HI _ _ Hd) as (_ & Hr & _). destruct layout_end.
    pose proof (si_roles _ _ HI _ _ Hd) as (Hlow & _). unfold LOW in *.
    assert (0 <= pd_index va < 1024).
    { unfold pd_index. rewrite Z.shiftr_div_pow2 by lia. split; [apply Z.div_pos; lia|apply Z.div_lt_upper_bound; lia]. }
    rewrite rd32_low in Ee; [by injection Ee|by eapply inv_low|unfold LOW].
    pose proof (page_below d LOW Hdp LOW_page). unfold LOW in *. lia.
Qed.

Lemma user_view_spec R s d va : space_inv R s -> R !! d = Some RDir -> 0 <= va < 2 ^ 32 ->
  (exists f w, R !! f = Some (RFrame d (vpn va) w) /\
     user_view s d va = Some (load8 (phys s) (f + va mod 4096), w)) \/
  (~ mapped (abs R) d (vpn va) /\ user_view s d va = None).
Proof.
  intros HI Hd Hva. unfold user_view.
  destruct (user_walk_spec R s d va HI Hd Hva) as [(f & w & Hf & ->)|[Hn ->]]; [left|right]; [|done].
  exists f, w. by split.
Qed.

(** A page of the range is mapped exactly when the process sees it. *)
Lemma view_mapped R s d va : space_inv R s -> R !! d = Some RDir -> 0 <= va < 2 ^ 32 ->
  mapped (abs R) d (vpn va) <-> user_view s d va <> None.
Proof.
  intros HI Hd Hva. destruct (user_view_spec R s d va HI Hd Hva) as [(f & w & Hf & ->)|[Hn ->]]; [|done].
  split; [done|]. intros _. exists f, w. by apply abs_frame.
Qed.

(** How a view follows from the frames before and after. *)
Lemma view_transfer R R' s s' d d' va (g : bool -> bool) : space_inv R s -> space_inv R' s' ->
  R !! d = Some RDir -> R' !! d' = Some RDir -> 0 <= va < 2 ^ 32 ->
  (forall f w, R !! f = Some (RFrame d (vpn va) w) -> exists f', R' !! f' = Some (RFrame d' (vpn va) (g w)) /\
     forall b, 0 <= b < 4096 -> load8 (phys s') (f' + b) = load8 (phys s) (f + b)) ->
  (mapped (abs R') d' (vpn va) -> mapped (abs R) d (vpn va)) ->
  user_view s' d' va = (fun p => (p.1, g p.2)) <$> user_view s d va.
Proof.
  intros HI HI' Hd Hd' Hva Hf Hm. pose proof (Z.mod_pos_bound va 4096 ltac:(lia)) as Hmod.
  destruct (user_view_spec R s d va HI Hd Hva) as [(f & w & Hfr & ->)|[Hn ->]];
    destruct (user_view_spec R' s' d' va HI' Hd' Hva) as [(f1 & w1 & Hfr1 & ->)|[Hn1 ->]]; simpl.
  - destruct (Hf f w Hfr) as (f' & Hf' & Hc). destruct (frame_unique R' s' d' (vpn va) f1 w1 f' (g w) HI' Hfr1 Hf') as [-> ->].
    by rewrite Hc.
  - destruct (Hf f w Hfr) as (f' & Hf' & _). destruct Hn1. exists f', (g w). by apply abs_frame.
  - destruct Hn. apply Hm. exists f1, w1. by apply abs_frame.
  - done.
Qed.
End View.

(** ** The calls *)

(** Every call but a switch leaves the current directory alone. *)
Definition keeps_cr3 {B} (f : FST Machine B) : Prop := forall s, match f s with Done s' _ | Fault s' => cr3 s' = cr3 s end.

Section Cr3.
Context `{KernelImage}.

Lemma keeps_ret {B} (b : B) : keeps_cr3 (mret b).
Proof. done. Qed.

Lemma keeps_bind {B C} (f : FST Machine B) (k : B -> FST Machine C) : keeps_cr3 f -> (forall b, keeps_cr3 (k b)) ->
  keeps_cr3 (f ≫= k).
Proof.
  intros Hf Hk s. unfold mbind, FST_bind. specialize (Hf s). destruct (f s) as [s1 b|s1]; [|done].
  specialize (Hk b s1). by destruct (k b s1); rewrite Hk.
Qed.

Lemma keeps_access {B} va (k : Z -> FST Machine B) : (forall pa, keeps_cr3 (k pa)) -> keeps_cr3 (access va k).
Proof. intros Hk s. unfold access. destruct (translate s va); [apply Hk|done]. Qed.

Lemma keeps_rd32 va : keeps_cr3 (rd32 va).
Proof. by apply keeps_access. Qed.
Lemma keeps_wr32 va v : keeps_cr3 (wr32 va v).
Proof. by apply keeps_access. Qed.
Lemma keeps_alloc : keeps_cr3 alloc_page.
Proof. intros s. unfold alloc_page. by destruct (pmm_alloc_page (pmm s)) as [[]|]. Qed.
Lemma keeps_free a : keeps_cr3 (free_page a).
Proof. intros s. unfold free_page. by destruct (pmm_free_page a (pmm s)). Qed.

Lemma keeps_each (body : Z -> FST Machine unit) n : (forall i, keeps_cr3 (body i)) -> forall lo, keeps_cr3 (each body lo n).
Proof.
  intros Hb. induction n as [|n IH]; intros lo; cbn [each]; [done|]. apply keeps_bind; auto.
Qed.

Lemma keeps_page_loop (body : Z -> FST Machine bool) n : (forall va, keeps_cr3 (body va)) -> forall va e, keeps_cr3 (page_loop body n va e).
Proof.
  intros Hb. induction n as [|n IH]; intros va e; cbn [page_loop]; [done|].
  apply keeps_bind; [done|]. intros b. destruct (negb b); [done|]. destruct (e <=? va); [done|]. apply IH.
Qed.

Lemma keeps_page_range (body : Z -> FST Machine bool) st len : (forall va, keeps_cr3 (body va)) -> keeps_cr3 (page_range body st len).
Proof. intros Hb. unfold page_range. destruct (len =? 0); [done|]. by apply keeps_page_loop. Qed.

Local Ltac cr3_calls := repeat (intros; lazymatch goal with
  | |- keeps_cr3 (mbind _ _) => apply keeps_bind
  | |- keeps_cr3 (mret _) => apply keeps_ret
  | |- keeps_cr3 (rd32 _) => apply keeps_rd32
  | |- keeps_cr3 (wr32 _ _) => apply keeps_wr32
  | |- keeps_cr3 alloc_page => apply keeps_alloc
  | |- keeps_cr3 (free_page _) => apply keeps_free
  | |- keeps_cr3 (each _ _ _) => apply keeps_each
  | |- keeps_cr3 (match ?x with _ => _ end) => destruct x
  end).

Lemma keeps_user_pte pd va : keeps_cr3 (user_pte pd va).
Proof. unfold user_pte. cbv zeta. cr3_calls. Qed.

Lemma keeps_map_user_page pd p va : keeps_cr3 (map_user_page pd p va).
Proof. unfold map_user_page, user_table, fill_table. cr3_calls. Qed.

Lemma keeps_map_range pd st len : keeps_cr3 (map_user_pages_for_range pd st len).
Proof.
  apply keeps_page_range. intros va. unfold map_one, resolve_user_phys, map_user_page, user_table, fill_table. cbv zeta. cr3_calls.
Qed.

Lemma keeps_unmap_range pd st len : keeps_cr3 (unmap_user_pages_for_range pd st len).
Proof. apply keeps_page_range. intros va. unfold unmap_one, unmap_user_page. cr3_calls; [apply keeps_user_pte|cr3_calls..]. Qed.

Lemma keeps_protect_range pd st len w : keeps_cr3 (set_user_writable_for_range pd st len w).
Proof. apply keeps_page_range. intros va. unfold protect_one, set_user_page_writable. cr3_calls; [apply keeps_user_pte|cr3_calls..]. Qed.
End Cr3.

Inductive space_call :=
| CCreate | CClone (d : Z) | CDestroy (d : Z) | CSwitch (d : Z)
| CMap (d start length : Z) | CUnmap (d start length : Z) | CProtect (d start length writable : Z)
| CResolve (d va : Z) | CCheck (d ptr size : Z) | CLoad (va : Z) | CStore (va v : Z).

Definition run_call `{KernelImage} (c : space_call) : FST Machine Z :=
  match c with
  | CCreate => create_user_page_directory
  | CClone d => clone_user_address_space d
  | CDestroy d => destroy_user_address_space d ≫= fun _ => mret 0
  | CSwitch d => loadPageDirectory d ≫= fun _ => mret 0
  | CMap d start length => map_user_pages_for_range d start length
  | CUnmap d start length => unmap_user_pages_for_range d start length
  | CProtect d start length writable => set_user_writable_for_range d start length writable
  | CResolve d va => resolve_user_phys d va
  | CCheck d ptr size => is_user_range_accessible d ptr size
  | CLoad va => user_load va
  | CStore va v => user_store va v
  end.

(** ** What the calls do to what processes see *)

Definition valid_va (va : Z) : Prop := 0 <= va < 2 ^ 32.

Definition unchanged (D : gset Z) (s s' : Machine) : Prop :=
  forall d va, d ∈ D -> valid_va va -> user_view s' d va = user_view s d va.

Definition in_pages (lo hi va : Z) : bool := (lo <=? vpn va) && (vpn va <? hi).

(** The directories after a call with result [r]. *)
Definition dirs_after (c : space_call) (D : gset Z) (r : Z) : gset Z :=
  match c with
  | CCreate | CClone _ => if r =? 0 then D else D ∪ {[r]}
  | CDestroy d => D ∖ {[d]}
  | _ => D
  end.

(** What the kernel guarantees when it makes a call. *)
Definition allowed `{KernelImage} (D : gset Z) (cur : Z) (c : space_call) : Prop :=
  match c with
  | CCreate => True
  | CClone d => d ∈ D
  | CDestroy d => d ∈ D /\ cur <> d
  | CSwitch d => d ∈ D \/ d = page_directory
  | CMap d start length => d ∈ D /\ user_range start length
  | CUnmap d start length | CProtect d start length _ =>
      d ∈ D /\ 0 <= start /\ 0 < length /\ start + length <= 2 ^ 32
  | CResolve d va => d ∈ D /\ user_va va
  | CCheck d ptr size => d ∈ D /\ 0 <= ptr < 2 ^ 32 /\ 0 <= size < 2 ^ 32
  | CLoad va | CStore va _ => cur ∈ D /\ valid_va va
  end.

(** The calls that allocate a table fault once no page below 8 MiB is left; a clone
    faults as well when the current directory lacks the window. *)
Definition may_fault (c : space_call) (s : Machine) : Prop :=
  match c with
  | CClone _ => copy_fault s
  | CCreate | CMap _ _ _ => low_full s
  | _ => False
  end.

(** An unmapping or a change of permission works through the pages of a range up to
    the first that is not mapped. *)
Definition up_to_stop (f : Z * bool -> option (Z * bool)) (d start length : Z) s r s' : Prop :=
  exists stop,
    (forall va, valid_va va -> user_view s' d va =
       if in_pages (first_page start) stop va then user_view s d va ≫= f else user_view s d va) /\
    (forall va, valid_va va -> in_pages (first_page start) stop va = true -> user_view s d va <> None) /\
    ((r = 1 /\ stop = last_page start length + 1) \/
     (r = 0 /\ first_page start <= stop <= last_page start length /\
      forall va, valid_va va -> vpn va = stop -> user_view s d va = None)).

Definition call_result (c : space_call) (D : gset Z) (s : Machine) (r : Z) (s' : Machine) : Prop :=
  match c with
  | CCreate => unchanged D s s' /\ (r = 0 \/ r ∉ D /\ forall va, valid_va va -> user_view s' r va = None)
  | CClone d => unchanged D s s' /\ (r = 0 \/ r ∉ D /\ forall va, valid_va va ->
      user_view s' r va = (fun p => (p.1, true)) <$> user_view s d va)
  | CDestroy d => unchanged (D ∖ {[d]}) s s'
  | CSwitch d => unchanged D s s' /\ cr3 s' = d
  | CMap d start length => unchanged (D ∖ {[d]}) s s' /\
      (forall va, valid_va va -> in_pages (first_page start) (last_page start length + 1) va = false \/
         user_view s d va <> None -> user_view s' d va = user_view s d va) /\
      (forall va, valid_va va -> user_view s d va = None ->
         user_view s' d va = None \/ exists b, user_view s' d va = Some (b, true)) /\
      (r = 0 \/ r = 1 /\ forall va, valid_va va ->
         in_pages (first_page start) (last_page start length + 1) va = true -> user_view s' d va <> None)
  | CUnmap d start length => unchanged (D ∖ {[d]}) s s' /\ up_to_stop (fun _ => None) d start length s r s'
  | CProtect d start length writable => unchanged (D ∖ {[d]}) s s' /\
      up_to_stop (fun p => Some (p.1, negb (writable =? 0))) d start length s r s'
  | CResolve d va => unchanged D s s' /\
      ((user_view s d va = None /\ r = 0) \/ (exists w, user_view s d va = Some (load8 (phys s) r, w) /\ r <> 0))
  | CCheck d ptr size => unchanged D s s' /\ (r = 0 \/ r = 1) /\
      (r = 1 <-> is_user_range ptr size = true /\ forall va, valid_va va ->
         in_pages (ptr / 4096) ((ptr + size - 1 + 4095) / 4096 + 1) va = true -> user_view s d va <> None)
  | CLoad va => unchanged D s s' /\ r = match user_view s (cr3 s) va with Some (b, _) => b | None => -1 end
  | CStore va v =>
      match user_view s (cr3 s) va with
      | Some (_, true) => r = 1 /\ user_view s' (cr3 s) va = Some (u8 v, true) /\
          forall d va', d ∈ D -> valid_va va' -> (d, va') <> (cr3 s, va) -> user_view s' d va' = user_view s d va'
      | _ => r = 0 /\ unchanged D s s'
      end
  end.

Definition same_cr3 (c : space_call) (s s' : Machine) : Prop :=
  match c with CSwitch d => cr3 s' = d | _ => cr3 s' = cr3 s end.

Section Steps.
Context `{KL : KernelLayout}.
Implicit Types (R A : roles) (s : Machine) (U D : gset Z).

(** [D] are the directories of the address spaces. *)
Definition holds U D R s : Prop := spaces U R s /\ forall d, d ∈ D <-> R !! d = Some RDir.
Definition agrees U D s : Prop := exists R, holds U D R s.

Lemma holds_inv U D R s : holds U D R s -> space_inv R s.
Proof. intros [HS _]. apply HS. Qed.

(** The frames of the directories in [D], before and after a call. *)
Definition same_frames D R R' : Prop :=
  forall d v f w, d ∈ D -> R !! f = Some (RFrame d v w) <-> R' !! f = Some (RFrame d v w).
Definition same_data R R' s s' : Prop :=
  forall p d v w w' b, R !! p = Some (RFrame d v w) -> R' !! p = Some (RFrame d v w') -> 0 <= b < 4096 ->
    load8 (phys s') (p + b) = load8 (phys s) (p + b).

Lemma kept_data U R R' s s' : kept U R s s' \/ kept U R' s s' -> same_data R R' s s'.
Proof. intros [Hk|Hk] p d v w w' b Hp Hp' Hb; (apply (Hk p); [right; eauto|lia]). Qed.

Lemma frames_view R R' s s' d va : space_inv R s -> space_inv R' s' -> R !! d = Some RDir -> R' !! d = Some RDir ->
  valid_va va -> same_data R R' s s' ->
  (forall f w, R !! f = Some (RFrame d (vpn va) w) <-> R' !! f = Some (RFrame d (vpn va) w)) ->
  user_view s' d va = user_view s d va.
Proof.
  intros HI HI' Hd Hd' Hva Hdata Hf. rewrite (view_transfer R R' s s' d d va id); try done.
  - by destruct (user_view s d va) as [[]|].
  - intros f w Hfr. exists f. split; [by apply Hf|]. intros b Hb. by eapply Hdata; [|apply Hf|].
  - intros (f & w & Hfr%abs_frame_1). exists f, w. apply abs_frame. by apply Hf.
Qed.

Lemma unchanged_intro D R R' s s' : space_inv R s -> space_inv R' s' ->
  (forall d, d ∈ D -> R !! d = Some RDir /\ R' !! d = Some RDir) ->
  same_frames D R R' -> same_data R R' s s' -> unchanged D s s'.
Proof.
  intros HI HI' Hd Hf Hdata d va HdD Hva. destruct (Hd d HdD). apply (frames_view R R'); try done.
  intros f w. by apply Hf.
Qed.

(** The page with number [v] is seen at its first address. *)
Lemma page_seen R s d v : space_inv R s -> R !! d = Some RDir -> 0 <= v < 2 ^ 20 ->
  valid_va (v * 4096) /\ vpn (v * 4096) = v /\ (mapped (abs R) d v <-> user_view s d (v * 4096) <> None).
Proof.
  intros HI Hd Hv. assert (valid_va (v * 4096)) as Hva by (unfold valid_va; lia).
  assert (vpn (v * 4096) = v) as Hvp by (by apply Z.div_mul). split_and!; [done|done|].
  rewrite <- Hvp at 1. by apply view_mapped.
Qed.

Lemma in_pages_iff lo hi va : in_pages lo hi va = true <-> lo <= vpn va < hi.
Proof. unfold in_pages. rewrite andb_true_iff, Z.leb_le, Z.ltb_lt. done. Qed.

Lemma no_frames R s d : space_inv R s -> R !! d = None -> forall f v w, R !! f <> Some (RFrame d v w).
Proof.
  intros HI Hn f v w (t & (_ & _ & Hd & _)%(si_roles _ _ HI) & _)%(si_roles _ _ HI). congruence.
Qed.

Lemma no_view R s d va : space_inv R s -> R !! d = Some RDir -> valid_va va ->
  (forall f w, R !! f <> Some (RFrame d (vpn va) w)) -> user_view s d va = None.
Proof.
  intros HI Hd Hva Hn. destruct (user_view_spec R s d va HI Hd Hva) as [(f & w & Hf & _)|[_ ->]]; [by destruct (Hn f w)|done].
Qed.

Lemma same_frames_refl D R : same_frames D R R.
Proof. done. Qed.

(** *** Making address spaces *)

Lemma create_call U D s : agrees U D s -> wpf low_full create_user_page_directory (fun s' r =>
  agrees U (dirs_after CCreate D r) s' /\ same_cr3 CCreate s s' /\ call_result CCreate D s r s') s.
Proof.
  intros (R & HS & HD). pose proof (sp_inv _ _ _ HS) as HI. eapply wpf_mono; [by apply (create_spec U R)|].
  intros s' d (Hk & Hc & [(-> & HS' & _)|(Hd0 & Hp & Hn & HS')]); pose proof (sp_inv _ _ _ HS') as HI'; simpl.
  - split_and!; [by exists R|done| |by left]. apply (unchanged_intro D R R); try done; [|by eapply kept_data; left].
    intros e He. by split; apply HD.
  - destruct (Z.eqb_spec d 0); [done|]. assert (d ∉ D) as HdD by (rewrite HD; congruence).
    split_and!; [|done| |right; split; [done|]].
    + exists (<[d := RDir]> R). split; [done|]. intros e. rewrite elem_of_union, elem_of_singleton, HD, lookup_insert_Some.
      destruct (decide (e = d)) as [->|]; naive_solver.
    + apply (unchanged_intro D R (<[d := RDir]> R)); try done; [| |by eapply kept_data; left].
      * intros e He%HD. split; [done|]. rewrite lookup_insert_ne; [done|congruence].
      * intros e v f w _. rewrite lookup_insert_Some. destruct (decide (d = f)) as [->|]; naive_solver.
    + intros va Hva. apply (no_view (<[d := RDir]> R)); [done|by rewrite lookup_insert_eq|done|].
      intros f w [[_ ?]|[_ Hf]]%lookup_insert_Some; [done|]. by eapply no_frames in Hf.
Qed.

Lemma clone_call U D s d : agrees U D s -> d ∈ D -> wpf copy_fault (clone_user_address_space d) (fun s' r =>
  agrees U (dirs_after (CClone d) D r) s' /\ same_cr3 (CClone d) s s' /\ call_result (CClone d) D s r s') s.
Proof.
  intros (R & HS & HD) Hd%HD. pose proof (sp_inv _ _ _ HS) as HI. eapply wpf_mono; [by apply (clone_spec U R)|].
  intros s' c (Hc & Hk & [(-> & HS')|(Hc0 & R' & HS' & (Hn & Hsub & Hdir & Hnew & Hall) & Hsame)]);
    pose proof (sp_inv _ _ _ HS') as HI'; simpl.
  - split_and!; [by exists R|done| |by left]. apply (unchanged_intro D R R); try done; [|by eapply kept_data; left].
    intros e He. by split; apply HD.
  - destruct (Z.eqb_spec c 0); [done|]. apply (proj1 (abs_dir R' c)) in Hdir.
    assert (forall p r, is_tab r = false -> R !! p = Some r -> R' !! p = Some r) as Hup.
    { intros p r Hr Hp. apply (abs_lookup R' p r). eapply lookup_weaken; [by apply abs_lookup|done]. }
    assert (R !! c <> Some RDir) as Hcn by (intros E%abs_dir; congruence).
    assert (forall p r, is_tab r = false -> R' !! p = Some r -> R !! p = Some r \/ (p = c /\ r = RDir) \/
      exists v, r = RFrame c v true /\ mapped (abs R) d v) as Hdn.
    { intros p r Hr Hp. destruct (Hnew p r) as [[Hq _]%abs_lookup|?]; [by apply abs_lookup|by left|by right]. }
    assert (c ∉ D) as HcD by (by rewrite HD).
    split_and!; [|done| |right; split; [done|]].
    + exists R'. split; [done|]. intros e. rewrite elem_of_union, elem_of_singleton, HD. split.
      * intros [He| ->]; [by apply Hup|done].
      * intros [?|[[-> _]|(v & ? & _)]]%Hdn; [by left|by right|done|done].
    + apply (unchanged_intro D R R'); try done; [| |by eapply kept_data; left].
      * intros e He%HD. split; [done|by apply Hup].
      * intros e v f w He. split; [by apply Hup|].
        intros [?|[[_ ?]|(v' & ? & _)]]%Hdn; [done|done|by simplify_eq|done].
    + intros va Hva. apply (view_transfer R R' s s' d c va (fun _ => true)); try done.
      * intros f w Hf. destruct (Hall (vpn va)) as [p Hp]; [exists f, w; by apply abs_frame|].
        exists p. split; [by apply abs_frame_1|]. intros b Hb. apply (Hsame (vpn va) f w p b); [by apply abs_frame|done|done].
      * intros (f & w & Hf%abs_frame_1). destruct (Hdn f (RFrame c (vpn va) w) eq_refl Hf) as [Hf'|[[_ ?]|(v & ? & Hm)]]; [|done|by simplify_eq].
        exfalso. apply (si_roles _ _ HI) in Hf' as (t & (_ & _ & ? & _)%(si_roles _ _ HI) & _). congruence.
Qed.

Lemma destroy_call U D s d : agrees U D s -> d ∈ D -> cr3 s <> d ->
  wpf (fun _ => False) (run_call (CDestroy d)) (fun s' r =>
    agrees U (dirs_after (CDestroy d) D r) s' /\ same_cr3 (CDestroy d) s s' /\ call_result (CDestroy d) D s r s') s.
Proof.
  intros (R & HS & HD) Hd%HD Hne. pose proof (sp_inv _ _ _ HS) as HI. simpl.
  eapply wpf_seq; [by apply (destroy_spec U R)|]. intros s' _ (HS' & Hk & Hc). apply wpf_ret.
  split_and!; [|done|].
  - exists (drop_space d R). split; [done|]. intros e. rewrite elem_of_difference, elem_of_singleton, HD, drop_space_lookup.
    unfold of_dir. rewrite orb_false_r, Z.eqb_neq. done.
  - apply (unchanged_intro _ R (drop_space d R)); [done|apply HS'| | |by eapply kept_data; left].
    + intros e [He%HD Hn%not_elem_of_singleton]%elem_of_difference. split; [done|]. apply drop_space_lookup. split; [done|].
      unfold of_dir. by rewrite orb_false_r, Z.eqb_neq.
    + intros e v f w [He Hn%not_elem_of_singleton]%elem_of_difference. rewrite drop_space_lookup. unfold of_dir.
      rewrite orb_false_iff, !Z.eqb_neq. split; [|by intros [? _]]. intros Hf. split_and!; [done| |done]. intros ->. congruence.
Qed.

(** *** Changing one address space *)

(** Only frames of [d] differ. *)
Definition only_in (d : Z) R R' : Prop :=
  forall p r, is_tab r = false -> (forall v w, r <> RFrame d v w) -> R !! p = Some r <-> R' !! p = Some r.

Lemma only_in_holds U D R R' d s' : (forall e, e ∈ D <-> R !! e = Some RDir) -> only_in d R R' -> spaces U R' s' -> holds U D R' s'.
Proof. intros HD Ho HS. split; [done|]. intros e. rewrite HD. by apply Ho. Qed.

Lemma only_in_unchanged D R R' d s s' : space_inv R s -> space_inv R' s' -> (forall e, e ∈ D <-> R !! e = Some RDir) ->
  only_in d R R' -> same_data R R' s s' -> unchanged (D ∖ {[d]}) s s'.
Proof.
  intros HI HI' HD Ho Hdata. apply (unchanged_intro _ R R'); try done.
  - intros e [He%HD _]%elem_of_difference. split; [done|]. by apply Ho.
  - intros e v f w [_ Hn%not_elem_of_singleton]%elem_of_difference. apply Ho; [done|]. intros v' w' [= ? _ _]. done.
Qed.

Lemma only_in_abs d R R' : (forall p r, (forall v w, r <> RFrame d v w) -> abs R !! p = Some r <-> abs R' !! p = Some r) -> only_in d R R'.
Proof.
  intros Ha p r Ht Hr. specialize (Ha p r Hr). rewrite !abs_lookup in Ha. naive_solver.
Qed.

Lemma map_call U D s d start length : agrees U D s -> d ∈ D -> user_range start length ->
  wpf low_full (map_user_pages_for_range d start length) (fun s' r =>
    agrees U D s' /\ cr3 s' = cr3 s /\ call_result (CMap d start length) D s r s') s.
Proof.
  intros (R & HS & HD) Hd%HD Hr. pose proof (sp_inv _ _ _ HS) as HI. pose proof (keeps_map_range d start length s) as Hc.
  pose proof (map_range_spec U R s d start length HS Hd Hr) as Hw. unfold wpf in *.
  destruct (map_user_pages_for_range d start length s) as [s' r|]; [|done].
  destruct Hw as (R' & HS' & Hk & [Hsub Hnew] & Hres). pose proof (sp_inv _ _ _ HS') as HI'.
  assert (only_in d R R') as Ho.
  { apply only_in_abs. intros p q Hq. split; [intros Hp; by eapply lookup_weaken|].
    intros [?|(v & _ & -> & _)]%Hnew; [done|by destruct (Hq v true)]. }
  assert (R' !! d = Some RDir) as Hd' by (by apply Ho). assert (same_data R R' s s') as Hdata by (by eapply kept_data; left).
  assert (forall v f w, R' !! f = Some (RFrame d v w) -> R !! f = Some (RFrame d v w) \/
    (first_page start <= v < last_page start length + 1 /\ w = true /\ ~ mapped (abs R) d v)) as Hdn.
  { intros v f w Hf%abs_frame. destruct (Hnew _ _ Hf) as [?%abs_frame_1|(v' & Hv & [= -> ->] & ?)]; [by left|by right]. }
  assert (forall v f w, R !! f = Some (RFrame d v w) -> R' !! f = Some (RFrame d v w)) as Hup.
  { intros v f w Hf%abs_frame. apply abs_frame_1. by eapply lookup_weaken. }
  cbn [call_result]. split_and!; [by exists R'; apply (only_in_holds U D R R' d)|done|by apply (only_in_unchanged D R R' d)| | |].
  - intros va Hva Hcase. apply (frames_view R R'); try done. intros f w. split; [apply Hup|].
    intros [?|(Hv & -> & Hno)]%Hdn; [done|]. destruct Hcase as [Hf|Hs].
    + apply not_true_iff_false in Hf. by rewrite in_pages_iff in Hf.
    + destruct Hno. by apply (view_mapped R s).
  - intros va Hva Hnone. destruct (user_view_spec R' s' d va HI' Hd' Hva) as [(f & w & Hf & ->)|[_ ->]]; [right|by left].
    destruct (Hdn _ _ _ Hf) as [Hf'|(_ & -> & _)]; [|by eexists].
    destruct (proj1 (view_mapped R s d va HI Hd Hva)); [|done]. exists f, w. by apply abs_frame.
  - destruct Hres as [->|[-> Hall]]; [by left|right]. split; [done|]. intros va Hva Hin%in_pages_iff.
    apply (view_mapped R'); [done..|]. apply Hall. lia.
Qed.

(** The part unmapping and protecting share; [g] says what becomes of a page. *)
Lemma stop_result R R' s s' d start length r stop (g : Z * bool -> option (Z * bool)) :
  space_inv R s -> space_inv R' s' -> R !! d = Some RDir -> R' !! d = Some RDir -> same_data R R' s s' ->
  0 <= start -> 0 < length -> start + length <= 2 ^ 32 ->
  (forall va, valid_va va -> in_pages (first_page start) stop va = false -> forall f w,
     R !! f = Some (RFrame d (vpn va) w) <-> R' !! f = Some (RFrame d (vpn va) w)) ->
  (forall va, valid_va va -> in_pages (first_page start) stop va = true -> user_view s' d va = user_view s d va ≫= g) ->
  (forall v, first_page start <= v < stop -> mapped (abs R) d v) ->
  ((r = 1 /\ stop = last_page start length + 1) \/
   (r = 0 /\ first_page start <= stop <= last_page start length /\ ~ mapped (abs R) d stop)) ->
  up_to_stop g d start length s r s'.
Proof.
  intros HI HI' Hd Hd' Hdata H0 Hl Hr Hout Hin Hm Hres. exists stop. split_and!.
  - intros va Hva. destruct (in_pages _ _ _) eqn:E; [by apply Hin|]. apply (frames_view R R'); try done. by apply Hout.
  - intros va Hva Hp%in_pages_iff. by apply (view_mapped R); auto.
  - destruct Hres as [?|(-> & Hs & Hno)]; [by left|right]. split_and!; [done|lia|lia|].
    intros va Hva <-. destruct (user_view_spec R s d va HI Hd Hva) as [(f & w & Hf & _)|[_ ?]]; [|done].
    destruct Hno. exists f, w. by apply abs_frame.
Qed.

Lemma unmap_call U D s d start length : agrees U D s -> d ∈ D -> 0 <= start -> 0 < length -> start + length <= 2 ^ 32 ->
  wpf (fun _ => False) (unmap_user_pages_for_range d start length) (fun s' r =>
    agrees U D s' /\ cr3 s' = cr3 s /\ call_result (CUnmap d start length) D s r s') s.
Proof.
  intros (R & HS & HD) Hd%HD H0 Hl Hr. pose proof (sp_inv _ _ _ HS) as HI. pose proof (keeps_unmap_range d start length s) as Hc.
  pose proof (unmap_range_spec U R s d start length HS Hd H0 Hl Hr) as Hw. unfold wpf in *.
  destruct (unmap_user_pages_for_range d start length s) as [s' r|]; [|done].
  destruct Hw as (R' & stop & HS' & Hk & HA & Hm & Hres). pose proof (sp_inv _ _ _ HS') as HI'.
  assert (forall p q, abs R' !! p = Some q <-> abs R !! p = Some q /\ in_range d (first_page start) stop q = false) as Hl'.
  { intros p q. rewrite HA. unfold drop_range. by rewrite map_lookup_filter_Some. }
  assert (only_in d R R') as Ho.
  { apply only_in_abs. intros p q Hq. rewrite Hl'. split; [|by intros [? _]]. intros Hp. split; [done|].
    destruct q as [|d' i|d' v w]; try done. simpl. destruct (Z.eqb_spec d' d) as [->|]; [by destruct (Hq v w)|done]. }
  assert (R' !! d = Some RDir) as Hd' by (by apply Ho).
  assert (same_data R R' s s') as Hdata by (by eapply kept_data; right).
  cbn [call_result]. split_and!; [by exists R'; apply (only_in_holds U D R R' d)|done|by apply (only_in_unchanged D R R' d)|].
  apply (stop_result R R' s s' d start length r stop); try done.
  - intros va Hva Hin f w. rewrite <- !abs_frame. unfold frame_of. rewrite Hl'. split; [|by intros [? _]].
    intros Hf. split; [done|]. unfold in_range. by rewrite Z.eqb_refl.
  - intros va Hva Hin. rewrite (no_view R' s' d va HI' Hd' Hva); [by destruct (user_view s d va)|].
    intros f w Hf%abs_frame. apply Hl' in Hf as [_ Hf]. unfold in_range in Hf. rewrite Z.eqb_refl in Hf.
    unfold in_pages in Hin. cbn [andb] in Hf. congruence.
Qed.

Lemma protect_call U D s d start length writable : agrees U D s -> d ∈ D -> 0 <= start -> 0 < length -> start + length <= 2 ^ 32 ->
  wpf (fun _ => False) (set_user_writable_for_range d start length writable) (fun s' r =>
    agrees U D s' /\ cr3 s' = cr3 s /\ call_result (CProtect d start length writable) D s r s') s.
Proof.
  intros (R & HS & HD) Hd%HD H0 Hl Hr. pose proof (sp_inv _ _ _ HS) as HI.
  pose proof (keeps_protect_range d start length writable s) as Hc.
  pose proof (protect_range_spec U R s d start length writable HS Hd H0 Hl Hr) as Hw. unfold wpf in *.
  destruct (set_user_writable_for_range d start length writable s) as [s' r|]; [|done].
  destruct Hw as (R' & stop & HS' & Hk & HA & Hm & Hres). pose proof (sp_inv _ _ _ HS') as HI'.
  set (w0 := negb (writable =? 0)) in *.
  assert (forall p q, abs R' !! p = Some q <-> exists r', abs R !! p = Some r' /\
    q = if in_range d (first_page start) stop r' then match r' with RFrame d' v _ => RFrame d' v w0 | _ => r' end else r') as Hl'.
  { intros p q. rewrite HA. unfold set_range. rewrite lookup_fmap_Some. naive_solver. }
  assert (only_in d R R') as Ho.
  { apply only_in_abs. intros p q Hq. rewrite Hl'. split.
    - intros Hp. exists q. split; [done|]. destruct q as [|d' i|d' v w]; try done. simpl.
      destruct (Z.eqb_spec d' d) as [->|]; [by destruct (Hq v w)|done].
    - intros (q' & Hp & ->). destruct q' as [|d' i|d' v w]; try done. simpl in *.
      destruct (Z.eqb_spec d' d) as [->|]; [|done]. simpl in *. destruct (_ && _); [by destruct (Hq v w0)|done]. }
  assert (R' !! d = Some RDir) as Hd' by (by apply Ho). assert (same_data R R' s s') as Hdata by (by eapply kept_data; left).
  assert (forall v f w, R !! f = Some (RFrame d v w) ->
    R' !! f = Some (RFrame d v (if (first_page start <=? v) && (v <? stop) then w0 else w))) as Hup.
  { intros v f w Hf. apply abs_frame, Hl'. exists (RFrame d v w). split; [by apply abs_frame|]. unfold in_range.
    rewrite Z.eqb_refl. cbn [andb]. by destruct (_ && _). }
  assert (forall v f w, R' !! f = Some (RFrame d v w) -> exists w', R !! f = Some (RFrame d v w')) as Hdn.
  { intros v f w Hf%abs_frame. apply Hl' in Hf as ([|d' i|d' v' w'] & Hf & E); [done| |].
    - apply abs_lookup in Hf as [_ ?]. done.
    - destruct (in_range _ _ _ _); simplify_eq; eexists; by apply abs_frame. }
  cbn [call_result]. split_and!; [by exists R'; apply (only_in_holds U D R R' d)|done|by apply (only_in_unchanged D R R' d)|].
  apply (stop_result R R' s s' d start length r stop); try done.
  - intros va Hva Hin f w. unfold in_pages in Hin. split; [intros Hf%Hup; by rewrite Hin in Hf|].
    intros Hf. destruct (Hdn _ _ _ Hf) as [w' Hf']. pose proof (Hup _ _ _ Hf') as Hf2. rewrite Hin in Hf2. congruence.
  - intros va Hva Hin. rewrite (view_transfer R R' s s' d d va (fun _ => w0)); try done.
    + intros f w Hf. exists f. specialize (Hup _ _ _ Hf). unfold in_pages in Hin. rewrite Hin in Hup. split; [done|].
      intros b Hb. by eapply Hdata.
    + intros (f & w & Hf%abs_frame_1). destruct (Hdn _ _ _ Hf) as [w' Hf']. exists f, w'. by apply abs_frame.
Qed.

(** *** Questions, loads and stores *)

Lemma unchanged_refl D s : unchanged D s s.
Proof. done. Qed.

Lemma resolve_call U D s d va : agrees U D s -> d ∈ D -> user_va va ->
  exists r, resolve_user_phys d va s = Done s r /\ call_result (CResolve d va) D s r s.
Proof.
  intros (R & HS & HD) Hd%HD Hva. pose proof (sp_inv _ _ _ HS) as HI.
  assert (valid_va va) as Hv by (unfold user_va, USER_VADDR_MIN, USER_VADDR_MAX, valid_va in *; lia).
  destruct (resolve_user_phys_spec R s d va HI Hd Hva) as (r & E & Hr). exists r. split; [done|]. cbn [call_result].
  split; [done|]. destruct (user_view_spec R s d va HI Hd Hv) as [(f & w & Hf & ->)|[Hn ->]].
  - right. exists w. destruct Hr as [(f' & w' & Hf'%abs_frame_1 & ->)|[Hno _]].
    + destruct (frame_unique R s d _ _ _ _ _ HI Hf Hf') as [-> _]. split; [done|].
      pose proof (si_taken _ _ HI _ _ Hf) as (_ & ? & _). destruct layout_end.
      pose proof (Z.mod_pos_bound va 4096 ltac:(lia)). lia.
    + destruct Hno. exists f, w. by apply abs_frame.
  - left. destruct Hr as [(f' & w' & Hf' & _)|[_ ->]]; [|done]. destruct Hn. by exists f', w'.
Qed.

Lemma check_call U D s d ptr size : agrees U D s -> d ∈ D -> 0 <= ptr < 2 ^ 32 -> 0 <= size < 2 ^ 32 ->
  exists r, is_user_range_accessible d ptr size s = Done s r /\ call_result (CCheck d ptr size) D s r s.
Proof.
  intros (R & HS & HD) Hd%HD Hp Hs. pose proof (sp_inv _ _ _ HS) as HI.
  destruct (is_user_range_accessible_spec R s d ptr size HI Hd Hp Hs) as (r & E & Hr). exists r. split; [done|].
  cbn [call_result]. split; [done|]. destruct Hr as [(-> & Hu & Hall)|[-> Hcase]].
  - split; [by right|]. split; [|done]. intros _. split; [done|]. intros va Hva Hin%in_pages_iff.
    apply (view_mapped R); [done..|]. apply Hall. lia.
  - split; [by left|]. split; [done|]. intros [Hu Hall]. destruct Hcase as [Hf|(v & Hv & Hno)]; [congruence|].
    exfalso. apply Hno. pose proof (proj1 (is_user_range_iff ptr size Hp Hs) Hu) as (H0 & Hlo & Hhi).
    unfold USER_VADDR_MIN, USER_VADDR_MAX in *. assert (0 <= v < 2 ^ 20) as Hv20.
    { split; [transitivity (ptr / 4096); [apply Z.div_pos; lia|lia]|].
      eapply Z.le_lt_trans; [apply Hv|]. apply Z.div_lt_upper_bound; lia. }
    destruct (page_seen R s d v HI Hd Hv20) as (Hva & Hvp & ->). apply Hall; [done|]. apply in_pages_iff. lia.
Qed.

(** A store into a frame does not touch the tables. *)
Lemma store_frame_inv U R s f d v w a b : spaces U R s -> R !! f = Some (RFrame d v w) -> f <= a < f + 4096 ->
  spaces U R (set_phys (store8 (phys s) a b) s).
Proof.
  intros HS Hf Ha. pose proof (sp_inv _ _ _ HS) as HI.
  destruct (data_page_facts U R s f HS) as [Hfp Hne]; [by right; eauto|].
  assert (same_tables R (phys s) (store8 (phys s) a b)) as Hst.
  { intros q i Hq Hi. apply load32_ext. intros c Hc. rewrite load8_store8.
    destruct (structural_page R s q HI Hq) as (Hqp & _).
    pose proof (page_apart q f Hqp Hfp (Hne q Hq)). destruct (Z.eqb_spec a c); [lia|done]. }
  apply (spaces_same U R s); [done|by apply inv_memory|done|by apply (window_same R s)].
Qed.

Lemma frames_apart R s d d' va va' f f' w w' : space_inv R s -> R !! f = Some (RFrame d (vpn va) w) ->
  R !! f' = Some (RFrame d' (vpn va') w') -> f + va mod 4096 = f' + va' mod 4096 -> (d', va') = (d, va).
Proof.
  intros HI Hf Hf' E. pose proof (Z.mod_pos_bound va 4096 ltac:(lia)). pose proof (Z.mod_pos_bound va' 4096 ltac:(lia)).
  pose proof (si_taken _ _ HI _ _ Hf) as (Hp & _). pose proof (si_taken _ _ HI _ _ Hf') as (Hp' & _).
  assert (f = f') as ->.
  { destruct (decide (f = f')) as [|Hn]; [done|]. pose proof (page_apart f f' Hp Hp' Hn). lia. }
  rewrite Hf in Hf'. injection Hf' as -> Hv _. f_equal. unfold vpn in Hv.
  pose proof (Z_div_mod_eq_full va 4096). pose proof (Z_div_mod_eq_full va' 4096). lia.
Qed.

Lemma load_call D s va : call_result (CLoad va) D s
  (match user_walk (phys s) (cr3 s) va with Some (pa, _) => load8 (phys s) pa | None => -1 end) s.
Proof. split; [done|]. unfold user_view. by destruct (user_walk _ _ _) as [[]|]. Qed.

Lemma store_call U D s va v : agrees U D s -> cr3 s ∈ D -> valid_va va ->
  exists s' r, user_store va v s = Done s' r /\ agrees U D s' /\ cr3 s' = cr3 s /\ call_result (CStore va v) D s r s'.
Proof.
  intros (R & HS & HD) Hc%HD Hva. pose proof (sp_inv _ _ _ HS) as HI. unfold user_store. cbn [call_result].
  destruct (user_walk_spec R s (cr3 s) va HI Hc Hva) as [(f & w & Hf & Ew)|[_ Ew]].
  2: { exists s, 0. unfold user_view. rewrite Ew. split_and!; (done || by exists R). }
  assert (user_view s (cr3 s) va = Some (load8 (phys s) (f + va mod 4096), w)) as -> by (unfold user_view; by rewrite Ew).
  rewrite Ew. destruct w; [|exists s, 0; split_and!; (done || by exists R)].
  pose proof (Z.mod_pos_bound va 4096 ltac:(lia)) as Hm. assert (f <= f + va mod 4096 < f + 4096) as Hin by lia.
  pose proof (store_frame_inv U R s f _ _ _ _ v HS Hf Hin) as HS'. fold (set_phys (store8 (phys s) (f + va mod 4096) v) s).
  set (s' := set_phys _ s) in *. pose proof (sp_inv _ _ _ HS') as HI'.
  exists s', 1. split; [done|]. split; [by exists R|]. split; [done|]. cbn. split; [done|]. split.
  - destruct (user_view_spec R s' (cr3 s) va HI' Hc Hva) as [(f' & w' & Hf' & ->)|[Hn _]].
    + destruct (frame_unique R s _ _ _ _ _ _ HI Hf Hf') as [<- <-]. unfold s'. simpl. by rewrite load8_store8, Z.eqb_refl.
    + destruct Hn. exists f, true. by apply abs_frame.
  - intros d va' Hd%HD Hva' Hne. destruct (user_view_spec R s d va' HI Hd Hva') as [(f' & w' & Hf' & ->)|[Hn ->]].
    + destruct (user_view_spec R s' d va' HI' Hd Hva') as [(f1 & w1 & Hf1 & ->)|[Hn _]].
      * destruct (frame_unique R s _ _ _ _ _ _ HI Hf' Hf1) as [<- <-]. unfold s'. simpl. rewrite load8_store8.
        destruct (Z.eqb_spec (f + va mod 4096) (f' + va' mod 4096)) as [E|]; [|done].
        by destruct Hne; eapply frames_apart.
      * destruct Hn. exists f', w'. by apply abs_frame.
    + destruct (user_view_spec R s' d va' HI' Hd Hva') as [(f1 & w1 & Hf1 & _)|[_ ->]]; [|done].
      destruct Hn. exists f1, w1. by apply abs_frame.
Qed.
End Steps.

(** ** Runs *)

Section Runs.
Context `{KL : KernelLayout}.
Implicit Types (R : roles) (s : Machine) (U D : gset Z).

(** A run of calls: [P] holds before every call, no call faults but for the reasons
    [may_fault] gives, and each has the result and the effect [call_result] says. *)
Fixpoint runs (P : gset Z -> Machine -> Prop) (cs : list space_call) D s : Prop :=
  P D s /\
  match cs with
  | [] => True
  | c :: cs' => allowed D (cr3 s) c ->
      match run_call c s with
      | Fault t => may_fault c t
      | Done s' r => same_cr3 c s s' /\ call_result c D s r s' /\ runs P cs' (dirs_after c D r) s'
      end
  end.

Lemma switch_spaces U R s d : spaces U R s -> d = page_directory \/ R !! d = Some RDir -> spaces U R (s <| cr3 := d |>).
Proof.
  intros HS Hd. pose proof (sp_inv _ _ _ HS) as [? ? ? ? ? ? ? ? ? ?].
  apply (spaces_same U R s); [done|by constructor|done|done].
Qed.

Lemma call_ok U D s c : agrees U D s -> allowed D (cr3 s) c ->
  wpf (may_fault c) (run_call c) (fun s' r => agrees U (dirs_after c D r) s' /\ same_cr3 c s s' /\ call_result c D s r s') s.
Proof.
  intros HA Hc. destruct c as [|d|d|d|d st len|d st len|d st len w|d va|d ptr size|va|va v]; simpl in Hc.
  - by apply create_call.
  - by apply clone_call.
  - destruct Hc. by apply destroy_call.
  - destruct HA as (R & HS & HD). unfold wpf. simpl. split_and!; [|done|done|done]. exists R. split; [|done].
    apply switch_spaces; [done|]. destruct Hc as [?%HD|?]; auto.
  - destruct Hc as [Hd Hr]. exact (map_call U D s d st len HA Hd Hr).
  - destruct Hc as (Hd & H0 & Hl & Hr). exact (unmap_call U D s d st len HA Hd H0 Hl Hr).
  - destruct Hc as (Hd & H0 & Hl & Hr). exact (protect_call U D s d st len w HA Hd H0 Hl Hr).
  - destruct Hc as [Hd Hva]. destruct (resolve_call U D s d va HA Hd Hva) as (r & E & Hr).
    unfold wpf. cbn [run_call]. by rewrite E.
  - destruct Hc as (Hd & Hp & Hs). destruct (check_call U D s d ptr size HA Hd Hp Hs) as (r & E & Hr).
    unfold wpf. cbn [run_call]. by rewrite E.
  - unfold wpf. cbn [run_call]. unfold user_load. split_and!; [done|done|apply load_call].
  - destruct Hc as [Hcur Hva]. destruct (store_call U D s va v HA Hcur Hva) as (s' & r & E & HA' & Hcr & Hr).
    unfold wpf. cbn [run_call]. by rewrite E.
Qed.

Lemma runs_ok (P : gset Z -> Machine -> Prop) U cs : (forall D s, agrees U D s -> P D s) ->
  forall D s, agrees U D s -> runs P cs D s.
Proof.
  intros HP. induction cs as [|c cs IH]; intros D s HA; simpl; [auto|]. split; [auto|]. intros Hc.
  pose proof (call_ok U D s c HA Hc) as Hw. unfold wpf in Hw. destruct (run_call c s) as [s' r|]; [|done].
  destruct Hw as (HA' & ? & ?). auto.
Qed.

Lemma agrees_boot U s : spaces U ∅ s -> agrees U ∅ s.
Proof. intros HS. exists ∅. split; [done|]. intros d. rewrite lookup_empty. split; [set_solver|done]. Qed.

Lemma all_released U s q : agrees U ∅ s -> 0 <= q -> page_used (pmm s) q = true ->
  q < kernel_end / PAGE_SIZE \/ q * PAGE_SIZE ∈ U \/ q * PAGE_SIZE = window (phys s).
Proof.
  intros (R & HS & HD) Hq Hu. pose proof (sp_inv _ _ _ HS) as HI.
  apply (sp_accounted _ _ _ HS) in Hu as [?|[Hr|[[? ?]|?]]]; [by left| |by right; right|by right; left|done].
  exfalso. assert (forall d, R !! d <> Some RDir) as Hno by (intros d Hd%HD; set_solver).
  destruct (R !! (q * PAGE_SIZE)) as [r|] eqn:E; [|done]. destruct r as [|d i|d v w]; [by destruct (Hno (q * PAGE_SIZE))| |];
    apply (si_roles _ _ HI) in E; simpl in E.
  - destruct E as (_ & _ & Hd & _). by apply Hno in Hd.
  - destruct E as (t & (_ & _ & Hd & _)%(si_roles _ _ HI) & _). by apply Hno in Hd.
Qed.

(** C1: The kernel starts with [init_paging], which maps the framebuffer when there is
    one, and with the mappings its drivers ask of [map_mmio_region], all of them above
    the user range; only a framebuffer or such a region can make that page-fault, and
    only for want of memory below 8 MiB. From then on, in every sequence of calls
    that make, clone, release, switch to, map, unmap and protect address spaces, look
    addresses up, check ranges, and of loads and stores of the running process, made as
    [allowed] says (on address spaces that exist, ranges in the user range, never the
    release of the current space), the page tables implement separate address spaces: a
    store changes one byte of the process that makes it and nothing any process sees
    elsewhere, a clone starts as a copy, a new space is empty, an unmapping removes the
    pages up to the first gap, a check accepts exactly the ranges whose pages are seen,
    and no call page-faults except for want of memory below 8 MiB or, in a clone, of the
    copy window. *)
Theorem spaces_isolated U s fb regions cs : before_paging U s -> framebuffer_ok fb -> Forall mmio_ok regions ->
  wpf (fun t => (fb, regions) <> (0, []) /\ low_full t) (boot fb regions) (fun s1 _ => runs (fun _ _ => True) cs ∅ s1) s.
Proof.
  intros Hb Hfb Hr. eapply wpf_mono; [by apply (boot_spec U)|]. intros s1 _ (U1 & _ & HS & _).
  by apply (runs_ok _ U1); [|apply agrees_boot].
Qed.

(** C18: No page is lost: after the same start (which may take pages for the tables of
    the framebuffer and of the drivers' regions, and takes none away), in every run of
    the address space calls, whenever every address space made so far has been released,
    the pages in use are those that were in use at the end of the start, and at most the
    table of the copy window. *)
Theorem spaces_released U s fb regions cs : before_paging U s -> framebuffer_ok fb -> Forall mmio_ok regions ->
  wpf (fun t => (fb, regions) <> (0, []) /\ low_full t) (boot fb regions) (fun s1 _ =>
    (forall q, 0 <= q -> page_used (pmm s) q = true -> page_used (pmm s1) q = true) /\
    runs (fun D t => D = ∅ -> forall q, 0 <= q -> page_used (pmm t) q = true ->
      page_used (pmm s1) q = true \/ q * PAGE_SIZE = window (phys t)) cs ∅ s1) s.
Proof.
  intros Hb Hfb Hr. eapply wpf_mono; [by apply (boot_spec U)|]. intros s1 _ (U1 & HU1 & HS & _). split.
  - intros q Hq Hu. apply (sp_accounted _ _ _ HS q Hq). destruct Hb as (_ & _ & Hacc & _).
    apply (Hacc q Hq) in Hu as [?|Hu]; [by left|]. do 3 right. by apply HU1.
  - apply (runs_ok _ U1); [|by apply agrees_boot]. intros D t HA -> q Hq Hu.
    rewrite (sp_accounted _ _ _ HS q Hq). destruct (all_released U1 t q HA Hq Hu) as [?|[?|?]]; auto.
Qed.
End Runs.

(** ** A machine *)

(** An image of three pages at 1 MiB, and the machine after [init_pmm]. *)
Definition demo_image : KernelImage :=
  {| page_directory := 0x100000; first_page_table := 0x101000; second_page_table := 0x102000; kernel_end := 0x103000 |}.
#[local] Existing Instance demo_image.

Lemma demo_image_layout : KernelLayout.
Proof. constructor; unfold is_page; cbn; repeat split; try (reflexivity || lia). Qed.
#[local] Existing Instance demo_image_layout.

Definition demo_pmm : PmmState :=
  default {| memory_bitmap := []; pmm_alloc_calls := 0; pmm_free_calls := 0 |}
    (init_pmm 0x103000 {| memory_bitmap := []; pmm_alloc_calls := 0; pmm_free_calls := 0 |}).
Definition demo_machine : Machine := {| phys := ∅; pmm := demo_pmm; cr3 := 0; paging := false |}.

Lemma demo_ready : before_paging ∅ demo_machine.
Proof.
  split_and!; [done| | |set_solver].
  - by vm_compute.
  - intros q Hq. simpl. unfold demo_pmm.
    destruct (init_pmm_ok {| memory_bitmap := []; pmm_alloc_calls := 0; pmm_free_calls := 0 |} 0x103000) as (p & -> & Hwf & Hp);
      [unfold MEMORY_MAX; lia|]. simpl. change (0x103000 / PAGE_SIZE) with 0x103.
    destruct (decide (valid_page q)) as [Hv|Hv].
    + rewrite Hp by done. rewrite Z.ltb_lt. unfold PAGE_SIZE. split; [left; lia|]. intros [?|?]; [lia|set_solver].
    + unfold valid_page in Hv. rewrite PAGE_COUNT_eq in Hv. split; [|intros [?|?]; [lia|set_solver]]. intros Hu. exfalso.
      unfold page_used, bm_bit in Hu. rewrite lookup_ge_None_2 in Hu; [done|]. rewrite Hwf.
      assert (1024 <= q / 8) by (apply Z.div_le_lower_bound; lia). pose proof BITMAP_SIZE_eq. lia.
Qed.

(** Two processes, one the copy of the other, writing at the same address. *)
Definition demo_calls : list space_call :=
  [CCreate; CSwitch 0x103000; CMap 0x103000 0x40000000 8192; CStore 0x40000123 7; CLoad 0x40000123;
   CSwitch 0x100000; CClone 0x103000; CSwitch 0x107000; CStore 0x40000123 9; CSwitch 0x103000; CLoad 0x40000123;
   CProtect 0x103000 0x40000000 4096 0; CStore 0x40000123 1; CUnmap 0x103000 0x40001000 4096; CLoad 0x40001000;
   CSwitch 0x100000; CDestroy 0x103000; CDestroy 0x107000].

Fixpoint results (cs : list space_call) (s : Machine) : list (option Z) :=
  match cs with
  | [] => []
  | c :: cs' => match run_call c s with Fault _ => [None] | Done s' r => Some r :: results cs' s' end
  end.

(** The framebuffer of the emulator, and the registers of a disk controller. *)
Lemma demo_framebuffer : framebuffer_ok 0xFD000000.
Proof. right. split; [split; [by vm_compute|lia]|lia]. Qed.
Lemma demo_regions : Forall mmio_ok [(0xFEBF1000, 0x2000)].
Proof. apply Forall_singleton. vm_compute. repeat split; congruence. Qed.

Lemma spaces_isolated_witness : before_paging ∅ demo_machine /\
  wpf (fun t => (0xFD000000, [(0xFEBF1000, 0x2000)]) <> (0, []) /\ low_full t) (boot 0xFD000000 [(0xFEBF1000, 0x2000)])
    (fun s1 _ => runs (fun _ _ => True) demo_calls ∅ s1) demo_machine.
Proof.
  split; [exact demo_ready|].
  exact (spaces_isolated ∅ demo_machine 0xFD000000 [(0xFEBF1000, 0x2000)] demo_calls demo_ready demo_framebuffer demo_regions).
Defined.

Lemma spaces_released_witness : before_paging ∅ demo_machine /\
  wpf (fun t => (0xFD000000, [(0xFEBF1000, 0x2000)]) <> (0, []) /\ low_full t) (boot 0xFD000000 [(0xFEBF1000, 0x2000)]) (fun s1 _ =>
    (forall q, 0 <= q -> page_used (pmm demo_machine) q = true -> page_used (pmm s1) q = true) /\
    runs (fun D t => D = ∅ -> forall q, 0 <= q -> page_used (pmm t) q = true ->
      page_used (pmm s1) q = true \/ q * PAGE_SIZE = window (phys t)) demo_calls ∅ s1) demo_machine.
Proof.
  split; [exact demo_ready|].
  exact (spaces_released ∅ demo_machine 0xFD000000 [(0xFEBF1000, 0x2000)] demo_calls demo_ready demo_framebuffer demo_regions).
Defined.

(** The results: the second directory is the copy; each process reads what it wrote,
    and the store to the protected page and the load of the unmapped one page-fault. *)
Example demo_results :
  match init_paging 0 demo_machine with Done s1 _ => results demo_calls s1 | Fault _ => [] end =
  [Some 0x103000; Some 0; Some 1; Some 1; Some 7; Some 0; Some 0x107000; Some 0; Some 1; Some 0; Some 7;
   Some 1; Some 0; Some 1; Some (-1); Some 0; Some 0; Some 0].
Proof. by vm_compute. Qed.
