(* ===== verification/Posix.v ===== *)
(** * Users, groups and permissions (kernel/posix.c)

    The identity of each task, the owner and mode of each path, the rights of each
    descriptor, the user and group names, and the process groups of the terminals.
    A path or name is the list of its characters without the terminator, and a null
    pointer is [None].  The two calls of the file system are an interface. *)
From S2P Require Import Prelude Bytes VfsDefs Task.

Definition POSIX_PATH_META_MAX : nat := 128.
Definition POSIX_PATH_MAX : Z := 64.
Definition POSIX_DB_USERS_MAX : nat := 8.
Definition POSIX_DB_GROUPS_MAX : nat := 8.
Definition POSIX_TTY_MAX : Z := 4.
Definition POSIX_NAME_MAX : Z := 16.

Definition POSIX_ACC_EXEC : Z := 1.
Definition POSIX_ACC_WRITE : Z := 2.
Definition POSIX_ACC_READ : Z := 4.

(** The mode bits, in octal in the source. *)
Definition POSIX_MODE_XUSR : Z := 64.
Definition POSIX_MODE_WUSR : Z := 128.
Definition POSIX_MODE_RUSR : Z := 256.
Definition POSIX_MODE_XGRP : Z := 8.
Definition POSIX_MODE_WGRP : Z := 16.
Definition POSIX_MODE_RGRP : Z := 32.
Definition POSIX_MODE_XOTH : Z := 1.
Definition POSIX_MODE_WOTH : Z := 2.
Definition POSIX_MODE_ROTH : Z := 4.
Definition POSIX_MODE_SETUID : Z := 2048.
Definition POSIX_MODE_SETGID : Z := 1024.

Record PosixPathMeta := { pm_used : Z; pm_path : list Z; pm_uid : Z; pm_gid : Z; pm_mode : Z }.
#[export] Instance PosixPathMeta_fields : Fields PosixPathMeta := fun r =>
  {| pm_used := pm_used r; pm_path := pm_path r; pm_uid := pm_uid r; pm_gid := pm_gid r; pm_mode := pm_mode r |}.
#[export] Instance PosixPathMeta_inh : Inhabited PosixPathMeta := populate (Build_PosixPathMeta 0 [] 0 0 0).

Record PosixIdentity := { uid : Z; gid : Z; euid : Z; egid : Z; sid : Z; pgid : Z; tty : Z }.
#[export] Instance PosixIdentity_fields : Fields PosixIdentity := fun r =>
  {| uid := uid r; gid := gid r; euid := euid r; egid := egid r; sid := sid r; pgid := pgid r; tty := tty r |}.
#[export] Instance PosixIdentity_inh : Inhabited PosixIdentity := populate (Build_PosixIdentity 0 0 0 0 0 0 0).

Record PosixUser := { us_used : Z; us_uid : Z; us_gid : Z; us_name : list Z }.
Record PosixGroup := { gr_used : Z; gr_gid : Z; gr_name : list Z }.

(** The calls of the file system. *)
Class PathAttributes (V : Type) := {
  attr_chmod : option (list Z) -> Z -> ST V Z;
  attr_chown : option (list Z) -> Z -> Z -> ST V Z
}.

(** The static tables, the tasks and the file system.  [g_fd_rights] is the
    two-dimensional array, row after row. *)
Record Posix (V : Type) := {
  g_path_meta : list PosixPathMeta; g_id : list PosixIdentity; g_fd_rights : list Z;
  g_tty_fg_pgrp : list Z; g_tty_sid : list Z; g_users : list PosixUser; g_groups : list PosixGroup;
  px_tasks : list TCB; px_vfs : V
}.
Arguments Build_Posix {V} _ _ _ _ _ _ _ _ _.
Arguments g_path_meta {V} _.
Arguments g_id {V} _.
Arguments g_fd_rights {V} _.
Arguments g_tty_fg_pgrp {V} _.
Arguments g_tty_sid {V} _.
Arguments g_users {V} _.
Arguments g_groups {V} _.
Arguments px_tasks {V} _.
Arguments px_vfs {V} _.
#[export] Instance Posix_fields V : Fields (Posix V) := fun r =>
  {| g_path_meta := g_path_meta r; g_id := g_id r; g_fd_rights := g_fd_rights r; g_tty_fg_pgrp := g_tty_fg_pgrp r;
     g_tty_sid := g_tty_sid r; g_users := g_users r; g_groups := g_groups r; px_tasks := px_tasks r; px_vfs := px_vfs r |}.

(** ** Strings *)

Fixpoint str_eq_local (a b : list Z) : bool :=
  match a, b with
  | x :: a', y :: b' => (x =? y) && str_eq_local a' b'
  | [], [] => true
  | _, _ => false
  end.

(** What fits into a buffer of [cap] bytes. *)
Definition name_copy (cap : Z) (src : list Z) : list Z := take (Z.to_nat (cap - 1)) src.
Definition path_copy (src : list Z) : list Z := take (Z.to_nat (POSIX_PATH_MAX - 1)) src.

Definition path_has_suffix (path suffix : list Z) : bool :=
  let p := length path in
  let s := length suffix in
  if (p <? s)%nat then false
  else forallb (fun i => path !!! (p - s + i)%nat =? suffix !!! i) (seq 0 s).

Definition dot_bin : list Z := [46; 98; 105; 110].
Definition dot_elf : list Z := [46; 101; 108; 102].
Definition name_root : list Z := [114; 111; 111; 116].
Definition name_lab : list Z := [108; 97; 98].
Definition name_guest : list Z := [103; 117; 101; 115; 116].
Definition name_user1 : list Z := [117; 115; 101; 114; 49].
Definition name_user2 : list Z := [117; 115; 101; 114; 50].
Definition name_unknown : list Z := [117; 110; 107; 110; 111; 119; 110].

Definition task_valid (task_id : Z) : bool := (0 <=? task_id) && (task_id <? MAX_TASKS).
Definition fd_valid (fd : Z) : bool := (0 <=? fd) && (fd <? Z.of_nat TASK_MAX_FDS).
Definition tty_valid (tty_id : Z) : bool := (0 <=? tty_id) && (tty_id <? POSIX_TTY_MAX).

(** The cell of [g_fd_rights[task_id][fd]]. *)
Definition fd_cell (task_id fd : Z) : nat := Z.to_nat (task_id * Z.of_nat TASK_MAX_FDS + fd).

Definition if_set (b : bool) (x : Z) : Z := if b then x else 0.

(** 0755 and 0664. *)
Definition default_mode (path : list Z) : Z :=
  if path_has_suffix path dot_bin || path_has_suffix path dot_elf then 493 else 436.

Definition permission_bits_for_identity (m : PosixPathMeta) (who : PosixIdentity) : Z :=
  let mode := pm_mode m in
  if euid who =? 0 then Z.lor (Z.lor POSIX_ACC_READ POSIX_ACC_WRITE) POSIX_ACC_EXEC
  else if euid who =? pm_uid m then
    Z.lor (Z.lor (if_set (has_flag mode POSIX_MODE_RUSR) POSIX_ACC_READ)
                 (if_set (has_flag mode POSIX_MODE_WUSR) POSIX_ACC_WRITE))
          (if_set (has_flag mode POSIX_MODE_XUSR) POSIX_ACC_EXEC)
  else if egid who =? pm_gid m then
    Z.lor (Z.lor (if_set (has_flag mode POSIX_MODE_RGRP) POSIX_ACC_READ)
                 (if_set (has_flag mode POSIX_MODE_WGRP) POSIX_ACC_WRITE))
          (if_set (has_flag mode POSIX_MODE_XGRP) POSIX_ACC_EXEC)
  else
    Z.lor (Z.lor (if_set (has_flag mode POSIX_MODE_ROTH) POSIX_ACC_READ)
                 (if_set (has_flag mode POSIX_MODE_WOTH) POSIX_ACC_WRITE))
          (if_set (has_flag mode POSIX_MODE_XOTH) POSIX_ACC_EXEC).

(** ** Initialisation *)

Definition db_add_user (u g : Z) (name : list Z) (us : list PosixUser) : list PosixUser :=
  match find_idx (fun e => us_used e =? 0) us with
  | Some i => <[i := {| us_used := 1; us_uid := u; us_gid := g; us_name := name_copy POSIX_NAME_MAX name |}]> us
  | None => us
  end.

Definition db_add_group (g : Z) (name : list Z) (gs : list PosixGroup) : list PosixGroup :=
  match find_idx (fun e => gr_used e =? 0) gs with
  | Some i => <[i := {| gr_used := 1; gr_gid := g; gr_name := name_copy POSIX_NAME_MAX name |}]> gs
  | None => gs
  end.

(** The identity of a task without a parent. *)
Definition root_identity (t : Z) : PosixIdentity :=
  {| uid := 0; gid := 0; euid := 0; egid := 0; sid := t; pgid := t; tty := 0 |}.

Section Calls.
Context {V : Type} `{PathAttributes V}.
Notation call := (ST (Posix V)).

Definition posix_init : call unit := modify (fun s => s
  <| g_path_meta := replicate POSIX_PATH_META_MAX {| pm_used := 0; pm_path := []; pm_uid := 0; pm_gid := 0; pm_mode := 436 |} |>
  <| g_id := root_identity <$> seqZ 0 MAX_TASKS |>
  <| g_fd_rights := replicate (Z.to_nat MAX_TASKS * TASK_MAX_FDS) 0 |>
  <| g_tty_fg_pgrp := replicate (Z.to_nat POSIX_TTY_MAX) 0 |>
  <| g_tty_sid := replicate (Z.to_nat POSIX_TTY_MAX) 0 |>
  <| g_users := db_add_user 1001 100 name_user2 (db_add_user 1000 100 name_user1 (db_add_user 0 0 name_root
       (replicate POSIX_DB_USERS_MAX {| us_used := 0; us_uid := 0; us_gid := 0; us_name := [] |}))) |>
  <| g_groups := db_add_group 200 name_guest (db_add_group 100 name_lab (db_add_group 0 name_root
       (replicate POSIX_DB_GROUPS_MAX {| gr_used := 0; gr_gid := 0; gr_name := [] |}))) |>).

(** The 256 rights of a task set to what [f] says. *)
Definition set_task_rights (task_id : Z) (f : Z -> Posix V -> Z) (s : Posix V) : Posix V :=
  for_each (fun fd s => s <| g_fd_rights ::= <[fd_cell task_id (Z.of_nat fd) := f (Z.of_nat fd) s]> |>) 0 TASK_MAX_FDS s.

Definition posix_task_init (task_id parent_task_id : Z) : call unit :=
  if negb (task_valid task_id) then mret tt
  else
    modify (fun s => s <| g_id ::= <[Z.to_nat task_id :=
      if task_valid parent_task_id then (g_id s).[parent_task_id] else root_identity task_id]> |>) ≫= fun _ =>
    modify (set_task_rights task_id (fun _ _ => 0)).

Definition posix_task_on_fork (parent_task_id child_task_id : Z) : call unit :=
  if negb (task_valid parent_task_id) || negb (task_valid child_task_id) then mret tt
  else modify (fun s => s <| g_id ::= <[Z.to_nat child_task_id := (g_id s).[parent_task_id]]> |>).

(** ** Identities *)

Definition posix_get_uid (task_id : Z) (s : Posix V) : Z := if task_valid task_id then uid (g_id s).[task_id] else 0.
Definition posix_get_euid (task_id : Z) (s : Posix V) : Z := if task_valid task_id then euid (g_id s).[task_id] else 0.
Definition posix_get_gid (task_id : Z) (s : Posix V) : Z := if task_valid task_id then gid (g_id s).[task_id] else 0.
Definition posix_get_egid (task_id : Z) (s : Posix V) : Z := if task_valid task_id then egid (g_id s).[task_id] else 0.

Definition set_id (task_id : Z) (f : PosixIdentity -> PosixIdentity) : call unit :=
  modify (fun s => s <| g_id ::= alter f (Z.to_nat task_id) |>).

Definition posix_set_uid (task_id u : Z) : call Z :=
  if negb (task_valid task_id) then mret VFS_ERR_INVALID_ARG
  else
    s ← get; let who := (g_id s).[task_id] in
    if euid who =? 0 then
      set_id task_id (fun i => i <| uid := u |> <| euid := u |>) ≫= fun _ => mret VFS_OK
    else if (u =? uid who) || (u =? euid who) then
      set_id task_id (fun i => i <| euid := u |>) ≫= fun _ => mret VFS_OK
    else mret VFS_ERR_PERM.

Definition posix_set_gid (task_id g : Z) : call Z :=
  if negb (task_valid task_id) then mret VFS_ERR_INVALID_ARG
  else
    s ← get; let who := (g_id s).[task_id] in
    if euid who =? 0 then
      set_id task_id (fun i => i <| gid := g |> <| egid := g |>) ≫= fun _ => mret VFS_OK
    else if (g =? gid who) || (g =? egid who) then
      set_id task_id (fun i => i <| egid := g |>) ≫= fun _ => mret VFS_OK
    else mret VFS_ERR_PERM.

(** ** Paths *)

(** The index of the entry of a path. *)
Definition meta_find (path : option (list Z)) (tbl : list PosixPathMeta) : option nat :=
  match path with
  | None | Some [] => None
  | Some p => find_idx (fun m => negb (pm_used m =? 0) && str_eq_local (pm_path m) p) tbl
  end.

Definition meta_get_or_create (path : list Z) : call (option nat) :=
  s ← get;
  match meta_find (Some path) (g_path_meta s) with
  | Some i => mret (Some i)
  | None =>
      match find_idx (fun m => pm_used m =? 0) (g_path_meta s) with
      | Some i =>
          modify (fun s => s <| g_path_meta ::= <[i :=
            {| pm_used := 1; pm_path := path_copy path; pm_uid := 0; pm_gid := 0; pm_mode := default_mode path |}]> |>) ≫= fun _ =>
          mret (Some i)
      | None => mret None
      end
  end.

Definition posix_check_path_permission (task_id : Z) (path : option (list Z)) (access_mask : Z) : call Z :=
  match path with
  | None | Some [] => mret VFS_ERR_INVALID_ARG
  | Some p =>
      if negb (task_valid task_id) then mret VFS_ERR_INVALID_ARG
      else
        m ← meta_get_or_create p;
        match m with
        | None => mret VFS_ERR_NO_SPACE
        | Some i =>
            s ← get;
            let bits := permission_bits_for_identity (g_path_meta s !!! i) (g_id s).[task_id] in
            if negb (Z.land (u32 access_mask) bits =? u32 access_mask) then mret VFS_ERR_PERM else mret VFS_OK
        end
  end.

(** A call of the file system. *)
Definition on_vfs {A} (m : ST V A) : call A := fun s => let '(v, a) := m (px_vfs s) in (s <| px_vfs := v |>, a).

Definition posix_path_chmod (task_id : Z) (path : option (list Z)) (mode : Z) : call Z :=
  match path with
  | None => mret VFS_ERR_INVALID_ARG
  | Some p =>
      if negb (task_valid task_id) then mret VFS_ERR_INVALID_ARG
      else
        m ← meta_get_or_create p;
        match m with
        | None => mret VFS_ERR_NO_SPACE
        | Some i =>
            s ← get; let who := (g_id s).[task_id] in
            if negb (euid who =? 0) && negb (euid who =? pm_uid (g_path_meta s !!! i)) then mret VFS_ERR_PERM
            else
              modify (fun s => s <| g_path_meta ::= alter (fun m => m <| pm_mode := u32 (Z.land mode 4095) |>) i |>) ≫= fun _ =>
              on_vfs (attr_chmod (Some p) mode)
        end
  end.

Definition posix_path_chown (task_id : Z) (path : option (list Z)) (u g : Z) : call Z :=
  match path with
  | None => mret VFS_ERR_INVALID_ARG
  | Some p =>
      if negb (task_valid task_id) then mret VFS_ERR_INVALID_ARG
      else
        s ← get;
        if negb (euid (g_id s).[task_id] =? 0) then mret VFS_ERR_PERM
        else
          m ← meta_get_or_create p;
          match m with
          | None => mret VFS_ERR_NO_SPACE
          | Some i =>
              modify (fun s => s <| g_path_meta ::= alter (fun m => m <| pm_uid := u32 u |> <| pm_gid := u32 g |>) i |>) ≫= fun _ =>
              on_vfs (attr_chown (Some p) u g)
          end
  end.

(** The result with what the call stores through its pointers. *)
Definition posix_get_mode (path : option (list Z)) : call (Z * option Z) :=
  match path with
  | None => mret (VFS_ERR_INVALID_ARG, None)
  | Some p =>
      m ← meta_get_or_create p;
      match m with
      | None => mret (VFS_ERR_NO_SPACE, None)
      | Some i => s ← get; mret (VFS_OK, Some (pm_mode (g_path_meta s !!! i)))
      end
  end.

Definition posix_get_owner (path : option (list Z)) : call (Z * option (Z * Z)) :=
  match path with
  | None => mret (VFS_ERR_INVALID_ARG, None)
  | Some p =>
      m ← meta_get_or_create p;
      match m with
      | None => mret (VFS_ERR_NO_SPACE, None)
      | Some i => s ← get; mret (VFS_OK, Some (pm_uid (g_path_meta s !!! i), pm_gid (g_path_meta s !!! i)))
      end
  end.

Definition posix_apply_exec_credentials (task_id : Z) (path : option (list Z)) : call Z :=
  match path with
  | None | Some [] => mret VFS_ERR_INVALID_ARG
  | Some _ =>
      if negb (task_valid task_id) then mret VFS_ERR_INVALID_ARG
      else
        '(_, mode) ← posix_get_mode path;
        match mode with
        | None => mret VFS_ERR_NOT_FOUND
        | Some mode =>
            '(_, owner) ← posix_get_owner path;
            match owner with
            | None => mret VFS_ERR_NOT_FOUND
            | Some (owner_uid, owner_gid) =>
                (if has_flag mode POSIX_MODE_SETUID then set_id task_id (fun i => i <| euid := owner_uid |>) else mret tt) ≫= fun _ =>
                (if has_flag mode POSIX_MODE_SETGID then set_id task_id (fun i => i <| egid := owner_gid |>) else mret tt) ≫= fun _ =>
                mret VFS_OK
            end
        end
  end.

(** ** Descriptors *)

(** The rights for the flags of an open. *)
Definition rights_of_flags (flags : Z) : Z :=
  if has_flag flags VFS_O_WRONLY then POSIX_ACC_WRITE
  else if Z.land flags VFS_O_RDWR =? VFS_O_RDWR then Z.lor POSIX_ACC_READ POSIX_ACC_WRITE
  else POSIX_ACC_READ.

Definition posix_track_fd_open (task_id fd : Z) (path : option (list Z)) (flags : Z) : call unit :=
  if negb (task_valid task_id) || negb (fd_valid fd) || bool_decide (path = None) then mret tt
  else
    '(_, mode) ← posix_get_mode path;
    let exec := match mode with
                | Some mode => has_flag mode (Z.lor (Z.lor POSIX_MODE_XUSR POSIX_MODE_XGRP) POSIX_MODE_XOTH)
                | None => false
                end in
    let rights := Z.lor (rights_of_flags flags) (if_set exec POSIX_ACC_EXEC) in
    modify (fun s => s <| g_fd_rights ::= <[fd_cell task_id fd := u8 rights]> |>).

Definition posix_track_fd_close (task_id fd : Z) : call unit :=
  if negb (task_valid task_id) || negb (fd_valid fd) then mret tt
  else modify (fun s => s <| g_fd_rights ::= <[fd_cell task_id fd := 0]> |>).

Definition posix_clone_fd_rights (src_task_id dst_task_id : Z) : call unit :=
  if negb (task_valid src_task_id) || negb (task_valid dst_task_id) then mret tt
  else modify (set_task_rights dst_task_id (fun i s => g_fd_rights s !!! fd_cell src_task_id i)).

Definition posix_check_fd_permission (task_id fd access_mask : Z) (s : Posix V) : Z :=
  if negb (task_valid task_id) || negb (fd_valid fd) then VFS_ERR_INVALID_ARG
  else if euid (g_id s).[task_id] =? 0 then VFS_OK
  else if negb (Z.land (u8 access_mask) (g_fd_rights s !!! fd_cell task_id fd) =? u8 access_mask) then VFS_ERR_PERM
  else VFS_OK.

Definition posix_clear_task_fds (task_id : Z) : call unit :=
  if negb (task_valid task_id) then mret tt else modify (set_task_rights task_id (fun _ _ => 0)).

(** ** Names *)

(** The result and the name left in the buffer. *)
Definition posix_lookup_user_name (u out_cap : Z) (s : Posix V) : Z * list Z :=
  if out_cap <=? 0 then (VFS_ERR_INVALID_ARG, [])
  else match find_idx (fun e => negb (us_used e =? 0) && (us_uid e =? u)) (g_users s) with
       | Some i => match g_users s !! i with
                   | Some e => (VFS_OK, name_copy out_cap (us_name e))
                   | None => (VFS_ERR_NOT_FOUND, [])
                   end
       | None => (VFS_ERR_NOT_FOUND, name_copy out_cap name_unknown)
       end.

Definition posix_lookup_group_name (g out_cap : Z) (s : Posix V) : Z * list Z :=
  if out_cap <=? 0 then (VFS_ERR_INVALID_ARG, [])
  else match find_idx (fun e => negb (gr_used e =? 0) && (gr_gid e =? g)) (g_groups s) with
       | Some i => match g_groups s !! i with
                   | Some e => (VFS_OK, name_copy out_cap (gr_name e))
                   | None => (VFS_ERR_NOT_FOUND, [])
                   end
       | None => (VFS_ERR_NOT_FOUND, name_copy out_cap name_unknown)
       end.

(** ** Process groups and terminals *)

Definition alive (t : TCB) : bool := negb (state t =? TASK_STATE_TERMINATED).

Definition posix_tty_tcsetpgrp (task_id tty_id pg : Z) : call Z :=
  if negb (task_valid task_id) || negb (tty_valid tty_id) then mret VFS_ERR_INVALID_ARG
  else
    s ← get; let who := (g_id s).[task_id] in
    if negb (euid who =? 0) && negb ((g_tty_sid s).[tty_id] =? sid who) then mret VFS_ERR_PERM
    else if existsb (fun t => alive (px_tasks s).[t] && (pgid (g_id s).[t] =? pg) && (sid (g_id s).[t] =? sid who)) (seqZ 0 MAX_TASKS) then
      modify (fun s => s <| g_tty_fg_pgrp ::= <[Z.to_nat tty_id := pg]> |> <| g_tty_sid ::= <[Z.to_nat tty_id := sid who]> |>) ≫= fun _ =>
      mret VFS_OK
    else mret VFS_ERR_NOT_FOUND.

Definition posix_tty_tcgetpgrp (tty_id : Z) (s : Posix V) : Z :=
  if negb (tty_valid tty_id) then VFS_ERR_INVALID_ARG else (g_tty_fg_pgrp s).[tty_id].

Definition posix_task_get_pgid (task_id : Z) (s : Posix V) : Z :=
  if negb (task_valid task_id) then -1 else pgid (g_id s).[task_id].

Definition posix_task_set_pgid (task_id pg : Z) : call Z :=
  if negb (task_valid task_id) || (pg <? 0) then mret VFS_ERR_INVALID_ARG
  else set_id task_id (fun i => i <| pgid := pg |>) ≫= fun _ => mret VFS_OK.

Definition signal_valid (signal : Z) : bool := (0 <? signal) && (signal <? Z.of_nat TASK_SIGNAL_MAX).

(** [signal_pending |= 1u << signal]. *)
Definition pend (signal : Z) (t : TCB) : TCB := t <| signal_pending ::= fun p => Z.lor p (u32 (Z.shiftl 1 signal)) |>.

(** The loop over the tasks: the signal goes to those alive that [p] picks; the
    result counts them. *)
Definition signal_tasks (p : PosixIdentity -> bool) (signal : Z) (s : Posix V) : Posix V * Z :=
  for_each (fun t '(s, delivered) =>
    if alive (px_tasks s !!! t) && p (g_id s !!! t)
    then (s <| px_tasks ::= alter (pend signal) t |>, delivered + 1)
    else (s, delivered)) 0 (Z.to_nat MAX_TASKS) (s, 0).

Definition posix_task_signal_pgid (sender_task_id pg signal : Z) : call Z :=
  if negb (task_valid sender_task_id) || (pg <? 0) || negb (signal_valid signal) then mret VFS_ERR_INVALID_ARG
  else
    s ← get; let sender := (g_id s).[sender_task_id] in
    delivered ← signal_tasks (fun i => (pgid i =? pg) && ((euid sender =? 0) || (sid i =? sid sender))) signal;
    mret (if 0 <? delivered then VFS_OK else VFS_ERR_NOT_FOUND).

Definition posix_tty_signal_foreground (tty_id signal : Z) : call unit :=
  if negb (tty_valid tty_id) || negb (signal_valid signal) then mret tt
  else
    s ← get; let fg := (g_tty_fg_pgrp s).[tty_id] in
    signal_tasks (fun i => pgid i =? fg) signal ≫= fun _ => mret tt.
End Calls.
