(* ===== verification/PosixSpec.v ===== *)
(** * What the permission calls promise

    The table of paths is a finite map from paths to attributes, in which a path that
    was never named has the default ones, a permission check is the usual rule on the
    nine mode bits, and a group of unprivileged tasks cannot gain the identity of
    anyone else or change what others own.  At the end, descriptor rights, signals to a
    process group, and a run over the file system. *)
From S2P Require Import Prelude Bytes VfsDefs Vfs Task Posix.

(** ** Strings *)

Lemma str_eq_local_true a b : str_eq_local a b = true <-> a = b.
Proof.
  revert b. induction a as [|x a IH]; intros [|y b]; simpl; try done.
  rewrite andb_true_iff, Z.eqb_eq, IH. naive_solver.
Qed.

Lemma str_eq_local_refl a : str_eq_local a a = true.
Proof. by apply str_eq_local_true. Qed.

(** A path that fits the table. *)
Definition short_path (p : list Z) : Prop := p <> [] /\ (length p <= 63)%nat.

Lemma path_copy_short p : short_path p -> path_copy p = p.
Proof. intros [_ Hl]. apply take_ge. change (Z.to_nat (POSIX_PATH_MAX - 1)) with 63%nat. lia. Qed.

(** ** The table as a map *)

Record Attr := { a_uid : Z; a_gid : Z; a_mode : Z }.
Definition attr_of (e : PosixPathMeta) : Attr := {| a_uid := pm_uid e; a_gid := pm_gid e; a_mode := pm_mode e |}.
Definition default_attr (p : list Z) : Attr := {| a_uid := 0; a_gid := 0; a_mode := default_mode p |}.

Abbreviation paths := (gmap (list Z) Attr).

Definition in_use (e : PosixPathMeta) : Prop := pm_used e <> 0.
#[export] Instance in_use_dec e : Decision (in_use e).
Proof. unfold in_use. apply _. Defined.

Record table_db (tbl : list PosixPathMeta) (m : paths) : Prop := {
  td_len : length tbl = POSIX_PATH_META_MAX;
  td_one : forall i j e e', tbl !! i = Some e -> tbl !! j = Some e' -> in_use e -> in_use e' ->
    pm_path e = pm_path e' -> i = j;
  td_map : forall p a, m !! p = Some a <-> exists i e, tbl !! i = Some e /\ in_use e /\ pm_path e = p /\ attr_of e = a;
  td_size : size m = length (filter in_use tbl)
}.

(** The attributes of a path: the default ones until it is first named. *)
Definition db_attr (m : paths) (p : list Z) : Attr := default (default_attr p) (m !! p).

(** Naming a path enters it, as long as there is room for it. *)
Definition db_enter (p : list Z) (m : paths) : paths * option Attr :=
  match m !! p with
  | Some a => (m, Some a)
  | None => if decide (size m < POSIX_PATH_META_MAX)%nat then (<[p := default_attr p]> m, Some (default_attr p)) else (m, None)
  end.

Lemma filter_update (tbl : list PosixPathMeta) i e x : tbl !! i = Some e ->
  length (filter in_use (<[i := x]> tbl)) = (length (filter in_use tbl) - (if decide (in_use e) then 1 else 0) + (if decide (in_use x) then 1 else 0))%nat.
Proof.
  intros Hi. pose proof (lookup_lt_Some _ _ _ Hi) as Hlt. rewrite insert_take_drop by done.
  rewrite <- (take_drop_middle tbl i e Hi) at 3. rewrite !list.filter_app, !length_app, !filter_cons.
  repeat case_decide; simpl; lia.
Qed.

Lemma filter_full (tbl : list PosixPathMeta) : (forall i e, tbl !! i = Some e -> in_use e) <-> length (filter in_use tbl) = length tbl.
Proof.
  induction tbl as [|e tbl IH]; [by split|]. rewrite filter_cons. split.
  - intros Hall. rewrite decide_True by (by apply (Hall O)). simpl. f_equal. apply IH. intros i e' Hi. by apply (Hall (S i)).
  - pose proof (list.length_filter in_use tbl). case_decide; simpl; [|lia]. intros [= E] [|i] e' Hi; [by injection Hi as <-|].
    by apply (proj2 IH E i).
Qed.

Section Table.
Context (tbl : list PosixPathMeta) (m : paths) (HT : table_db tbl m).

Lemma meta_find_ok p : p <> [] ->
  match meta_find (Some p) tbl with
  | Some i => exists e, tbl !! i = Some e /\ in_use e /\ pm_path e = p /\ m !! p = Some (attr_of e)
  | None => m !! p = None
  end.
Proof.
  intros Hp. destruct p as [|c p]; [done|]. cbn [meta_find]. set (q := c :: p) in *.
  destruct (find_idx _ tbl) as [i|] eqn:E.
  - apply find_idx_Some in E as [(e & He & Hu) _]. apply andb_true_iff in Hu as [Hu Hq%str_eq_local_true].
    apply negb_true_iff, Z.eqb_neq in Hu. exists e. split_and!; [done|done|done|]. apply (td_map _ _ HT). by exists i, e.
  - rewrite find_idx_None in E. destruct (m !! q) as [a|] eqn:Ea; [|done].
    apply (td_map _ _ HT) in Ea as (i & e & He & Hu & Hq & _). specialize (E i e He).
    apply andb_false_iff in E as [E|E]; [by apply negb_false_iff, Z.eqb_eq in E|].
    exfalso. by rewrite Hq, str_eq_local_refl in E.
Qed.

(** A change of the attributes of an entry. *)
Lemma update_ok i e (f : PosixPathMeta -> PosixPathMeta) : tbl !! i = Some e -> in_use e ->
  pm_used (f e) = pm_used e -> pm_path (f e) = pm_path e ->
  table_db (alter f i tbl) (<[pm_path e := attr_of (f e)]> m).
Proof.
  intros Hi Hu Hfu Hfp. assert (alter f i tbl = <[i := f e]> tbl) as ->.
  { rewrite alter_cell by (by eapply lookup_lt_Some). by rewrite (list_lookup_total_correct _ _ _ Hi). }
  assert (in_use (f e)) as Hu' by (unfold in_use; by rewrite Hfu).
  assert (m !! pm_path e = Some (attr_of e)) as Hme by (apply (td_map _ _ HT); by exists i, e).
  constructor.
  - rewrite length_insert. apply HT.
  - intros j k x y Hj Hk Hx Hy Hxy. apply list_lookup_insert_Some in Hj as [(<- & <- & _)|[Hij Hj]];
      apply list_lookup_insert_Some in Hk as [(<- & <- & _)|[Hik Hk]]; [done| | |by apply (td_one _ _ HT j k x y)].
    + apply (td_one _ _ HT i k e y); try done. congruence.
    + apply (td_one _ _ HT j i x e); try done. congruence.
  - intros p a. destruct (decide (pm_path e = p)) as [<-|Hne].
    + rewrite lookup_insert_eq. split.
      * intros [= <-]. exists i, (f e). split_and!; [|done|done|done]. apply list_lookup_insert_eq. by eapply lookup_lt_Some.
      * intros (j & x & Hj & Hx & Hp & <-). apply list_lookup_insert_Some in Hj as [(<- & <- & _)|[Hij Hj]]; [done|].
        destruct Hij. apply (td_one _ _ HT i j e x); try done.
    + rewrite lookup_insert_ne by done. rewrite (td_map _ _ HT). split.
      * intros (j & x & Hj & Hx & Hp & Ha). exists j, x. split_and!; [|done|done|done].
        rewrite list_lookup_insert_ne; [done|]. intros ->. congruence.
      * intros (j & x & Hj & Hx & Hp & Ha). apply list_lookup_insert_Some in Hj as [(<- & <- & _)|[Hij Hj]]; [congruence|].
        by exists j, x.
  - rewrite (filter_update tbl i e) by done. rewrite map_size_insert_Some by (by eexists).
    rewrite !decide_True by done. rewrite (td_size _ _ HT).
    assert (0 < length (filter in_use tbl))%nat; [|lia].
    assert (e ∈ filter in_use tbl) as Hin by (apply list_elem_of_filter; split; [done|by eapply list_elem_of_lookup_2]).
    destruct (filter in_use tbl); [by apply not_elem_of_nil in Hin|simpl; lia].
Qed.

(** A new entry in a free slot. *)
Lemma enter_ok i e x : tbl !! i = Some e -> ~ in_use e -> in_use x -> m !! pm_path x = None ->
  table_db (<[i := x]> tbl) (<[pm_path x := attr_of x]> m).
Proof.
  intros Hi Hu Hx Hn. assert (forall j y, tbl !! j = Some y -> in_use y -> pm_path y <> pm_path x) as Hnew.
  { intros j y Hj Hy Hp. assert (m !! pm_path x = Some (attr_of y)); [|congruence]. apply (td_map _ _ HT). by exists j, y. }
  constructor.
  - rewrite length_insert. apply HT.
  - intros j k y z Hj Hk Hy Hz Hyz. apply list_lookup_insert_Some in Hj as [(<- & <- & _)|[Hij Hj]];
      apply list_lookup_insert_Some in Hk as [(<- & <- & _)|[Hik Hk]]; [done| | |by apply (td_one _ _ HT j k y z)].
    + by destruct (Hnew k z Hk Hz).
    + by destruct (Hnew j y Hj Hy).
  - intros p a. destruct (decide (pm_path x = p)) as [<-|Hne].
    + rewrite lookup_insert_eq. split.
      * intros [= <-]. exists i, x. split_and!; [|done|done|done]. apply list_lookup_insert_eq. by eapply lookup_lt_Some.
      * intros (j & y & Hj & Hy & Hp & <-). apply list_lookup_insert_Some in Hj as [(<- & <- & _)|[Hij Hj]]; [done|].
        by destruct (Hnew j y Hj Hy).
    + rewrite lookup_insert_ne by done. rewrite (td_map _ _ HT). split.
      * intros (j & y & Hj & Hy & Hp & Ha). exists j, y. split_and!; [|done|done|done].
        rewrite list_lookup_insert_ne; [done|]. intros ->. assert (e = y) as -> by congruence. done.
      * intros (j & y & Hj & Hy & Hp & Ha). apply list_lookup_insert_Some in Hj as [(<- & <- & _)|[Hij Hj]]; [congruence|].
        by exists j, y.
  - rewrite (filter_update tbl i e) by done. rewrite map_size_insert_None by done.
    rewrite decide_False, decide_True by done. rewrite (td_size _ _ HT). lia.
Qed.
End Table.

(** ** The rule for permissions *)

(** Root may do everything; for everyone else three bits of the mode decide. *)
Definition unix_rights (a : Attr) (who : PosixIdentity) : Z :=
  if euid who =? 0 then 7
  else Z.land (Z.shiftr (a_mode a) (if euid who =? a_uid a then 6 else if egid who =? a_gid a then 3 else 0)) 7.

Lemma has_flag_bit x k : 0 <= k -> has_flag x (2 ^ k) = Z.testbit x k.
Proof. intros Hk. unfold has_flag. rewrite <- land_one_bit by done. by rewrite Z.shiftl_1_l. Qed.

Lemma small_bits c n : 0 <= c < 8 -> 3 <= n -> Z.testbit c n = false.
Proof. intros Hc Hn. rewrite <- (Z.mod_small c (2 ^ 3)) by lia. apply Z.mod_pow2_bits_high. lia. Qed.

Lemma three_bits x k : 0 <= k ->
  Z.lor (Z.lor (if_set (Z.testbit x (k + 2)) 4) (if_set (Z.testbit x (k + 1)) 2)) (if_set (Z.testbit x k) 1) =
  Z.land (Z.shiftr x k) 7.
Proof.
  intros Hk. apply Z.bits_inj'. intros n Hn. rewrite Z.land_spec, Z.shiftr_spec by done.
  destruct (decide (n < 3)) as [Hlt|Hge].
  - assert (n = 0 \/ n = 1 \/ n = 2) as Hcase by lia.
    replace (n + k) with (k + n) by lia.
    destruct Hcase as [->|[-> | ->]]; rewrite ?Z.add_0_r;
      by destruct (Z.testbit x k), (Z.testbit x (k + 1)), (Z.testbit x (k + 2)).
  - rewrite (small_bits 7), andb_false_r by lia.
    destruct (Z.testbit x k), (Z.testbit x (k + 1)), (Z.testbit x (k + 2)); cbn [if_set]; (apply small_bits; [by split; vm_compute|lia]).
Qed.

Lemma permission_bits_unix e who : permission_bits_for_identity e who = unix_rights (attr_of e) who.
Proof.
  unfold permission_bits_for_identity, unix_rights. simpl. destruct (euid who =? 0); [done|].
  destruct (euid who =? pm_uid e); [|destruct (egid who =? pm_gid e)].
  - rewrite <- three_bits, <- !has_flag_bit by lia. done.
  - rewrite <- three_bits, <- !has_flag_bit by lia. done.
  - rewrite <- three_bits, <- !has_flag_bit by lia. done.
Qed.

(** ** The calls on the map *)

Inductive posix_call :=
| PCheck (t : Z) (p : list Z) (mask : Z) | PChmod (t : Z) (p : list Z) (mode : Z) | PChown (t : Z) (p : list Z) (u g : Z)
| PMode (p : list Z) | POwner (p : list Z) | PExec (t : Z) (p : list Z)
| PSetUid (t u : Z) | PSetGid (t g : Z) | PFork (parent child : Z).

(** The path of a call, if it has one, fits the table. *)
Definition fits (c : posix_call) : Prop :=
  match c with
  | PCheck _ p _ | PChmod _ p _ | PChown _ p _ _ | PMode p | POwner p | PExec _ p => short_path p
  | _ => True
  end.

Section Spec.
Context {V : Type} `{PathAttributes V}.

Definition posix_step (c : posix_call) : ST (Posix V) (list Z) :=
  match c with
  | PCheck t p mask => r ← posix_check_path_permission t (Some p) mask; mret [r]
  | PChmod t p mode => r ← posix_path_chmod t (Some p) mode; mret [r]
  | PChown t p u g => r ← posix_path_chown t (Some p) u g; mret [r]
  | PMode p => '(r, mode) ← posix_get_mode (Some p); mret (r :: from_option (fun x => [x]) [] mode)
  | POwner p => '(r, owner) ← posix_get_owner (Some p); mret (r :: from_option (fun x => [x.1; x.2]) [] owner)
  | PExec t p => r ← posix_apply_exec_credentials t (Some p); mret [r]
  | PSetUid t u => r ← posix_set_uid t u; mret [r]
  | PSetGid t g => r ← posix_set_gid t g; mret [r]
  | PFork parent child => posix_task_on_fork parent child ≫= fun _ => mret []
  end.

(** The same calls on the map of attributes. *)
Record World := { w_db : paths; w_id : list PosixIdentity; w_vfs : V }.

Definition with_attr (p : list Z) (full : list Z) (k : Attr -> ST World (list Z)) : ST World (list Z) := fun w =>
  match db_enter p (w_db w) with
  | (m, Some a) => k a {| w_db := m; w_id := w_id w; w_vfs := w_vfs w |}
  | (m, None) => (w, full)
  end.

Definition w_set_attr (p : list Z) (a : Attr) (w : World) : World :=
  {| w_db := <[p := a]> (w_db w); w_id := w_id w; w_vfs := w_vfs w |}.
Definition w_call (p : list Z) (m : ST V Z) : ST World (list Z) := fun w =>
  let '(v, r) := m (w_vfs w) in ({| w_db := w_db w; w_id := w_id w; w_vfs := v |}, [r]).
Definition w_alter (t : Z) (f : PosixIdentity -> PosixIdentity) (w : World) : World :=
  {| w_db := w_db w; w_id := alter f (Z.to_nat t) (w_id w); w_vfs := w_vfs w |}.

(** The identity after a change of user or group, if the task may make it. *)
Definition set_uid_rule (u : Z) (i : PosixIdentity) : option PosixIdentity :=
  if euid i =? 0 then Some (i <| uid := u |> <| euid := u |>)
  else if (u =? uid i) || (u =? euid i) then Some (i <| euid := u |>) else None.
Definition set_gid_rule (g : Z) (i : PosixIdentity) : option PosixIdentity :=
  if euid i =? 0 then Some (i <| gid := g |> <| egid := g |>)
  else if (g =? gid i) || (g =? egid i) then Some (i <| egid := g |>) else None.
Definition exec_rule (a : Attr) (i : PosixIdentity) : PosixIdentity :=
  i <| euid := if has_flag (a_mode a) POSIX_MODE_SETUID then a_uid a else euid i |>
    <| egid := if has_flag (a_mode a) POSIX_MODE_SETGID then a_gid a else egid i |>.

Definition w_set (t : Z) (rule : PosixIdentity -> option PosixIdentity) (w : World) : World * list Z :=
  match rule (w_id w).[t] with
  | Some i => (w_alter t (fun _ => i) w, [VFS_OK])
  | None => (w, [VFS_ERR_PERM])
  end.

Definition spec_step (c : posix_call) (w : World) : World * list Z :=
  match c with
  | PCheck t p mask =>
      if negb (task_valid t) then (w, [VFS_ERR_INVALID_ARG])
      else with_attr p [VFS_ERR_NO_SPACE] (fun a w =>
        (w, [if Z.land (u32 mask) (unix_rights a (w_id w).[t]) =? u32 mask then VFS_OK else VFS_ERR_PERM])) w
  | PChmod t p mode =>
      if negb (task_valid t) then (w, [VFS_ERR_INVALID_ARG])
      else with_attr p [VFS_ERR_NO_SPACE] (fun a w =>
        let who := (w_id w).[t] in
        if (euid who =? 0) || (euid who =? a_uid a)
        then w_call p (attr_chmod (Some p) mode)
               (w_set_attr p {| a_uid := a_uid a; a_gid := a_gid a; a_mode := u32 (Z.land mode 4095) |} w)
        else (w, [VFS_ERR_PERM])) w
  | PChown t p u g =>
      if negb (task_valid t) then (w, [VFS_ERR_INVALID_ARG])
      else if euid (w_id w).[t] =? 0
      then with_attr p [VFS_ERR_NO_SPACE] (fun a w =>
             w_call p (attr_chown (Some p) u g)
               (w_set_attr p {| a_uid := u32 u; a_gid := u32 g; a_mode := a_mode a |} w)) w
      else (w, [VFS_ERR_PERM])
  | PMode p => with_attr p [VFS_ERR_NO_SPACE] (fun a w => (w, [VFS_OK; a_mode a])) w
  | POwner p => with_attr p [VFS_ERR_NO_SPACE] (fun a w => (w, [VFS_OK; a_uid a; a_gid a])) w
  | PExec t p =>
      if negb (task_valid t) then (w, [VFS_ERR_INVALID_ARG])
      else with_attr p [VFS_ERR_NOT_FOUND] (fun a w => (w_alter t (exec_rule a) w, [VFS_OK])) w
  | PSetUid t u => if negb (task_valid t) then (w, [VFS_ERR_INVALID_ARG]) else w_set t (set_uid_rule u) w
  | PSetGid t g => if negb (task_valid t) then (w, [VFS_ERR_INVALID_ARG]) else w_set t (set_gid_rule g) w
  | PFork parent child =>
      (if task_valid parent && task_valid child
       then {| w_db := w_db w; w_id := <[Z.to_nat child := (w_id w).[parent]]> (w_id w); w_vfs := w_vfs w |} else w, [])
  end.

Record posix_rel (s : Posix V) (w : World) : Prop := {
  pr_table : table_db (g_path_meta s) (w_db w);
  pr_id : g_id s = w_id w;
  pr_tasks : length (g_id s) = Z.to_nat MAX_TASKS;
  pr_vfs : px_vfs s = w_vfs w
}.

Definition simulated {R} (s' : Posix V * R) (w' : World * R) : Prop := posix_rel s'.1 w'.1 /\ s'.2 = w'.2.
End Spec.
Arguments World V : clear implicits.

(** ** The calls do what the map says *)

Section Refine.
Context {V : Type} `{PathAttributes V}.
Implicit Types (s : Posix V) (w : World V).

(** Naming a path, on both sides. *)
Lemma get_or_create_spec p s m : table_db (g_path_meta s) m -> short_path p ->
  exists tbl' r, meta_get_or_create p s = (s <| g_path_meta := tbl' |>, r) /\ table_db tbl' (fst (db_enter p m)) /\
    match r, snd (db_enter p m) with
    | Some i, Some a => exists e, tbl' !! i = Some e /\ in_use e /\ pm_path e = p /\ attr_of e = a
    | None, None => True
    | _, _ => False
    end.
Proof.
  intros HT Hp. unfold meta_get_or_create, mbind, ST_bind, get. cbv beta iota.
  pose proof (meta_find_ok _ m HT p (proj1 Hp)) as Hf. unfold db_enter.
  destruct (meta_find (Some p) (g_path_meta s)) as [i|] eqn:E.
  { destruct Hf as (e & He & Hu & Hpe & ->). exists (g_path_meta s), (Some i). split_and!; [by destruct s|done|by exists e]. }
  rewrite Hf. destruct (find_idx _ (g_path_meta s)) as [i|] eqn:Ei.
  - apply find_idx_Some in Ei as [(e & He & Hu%Z.eqb_eq) _].
    assert (size m < POSIX_PATH_META_MAX)%nat as Hlt.
    { rewrite <- (td_len _ _ HT), (td_size _ _ HT). pose proof (list.length_filter in_use (g_path_meta s)).
      destruct (decide (length (filter in_use (g_path_meta s)) = length (g_path_meta s))) as [Hfull|]; [|lia].
      rewrite <- filter_full in Hfull. by specialize (Hfull i e He). }
    rewrite decide_True by done. set (x := {| pm_used := 1; pm_path := path_copy p; pm_uid := 0; pm_gid := 0; pm_mode := default_mode p |}).
    exists (<[i := x]> (g_path_meta s)), (Some i). split; [done|]. assert (pm_path x = p) as Hx by (by apply path_copy_short).
    split.
    + simpl. rewrite <- Hx at 1. change (default_attr p) with (attr_of x). apply (enter_ok _ _ HT i e x); [done| |done|].
      * intros Hin. by apply Hin.
      * by rewrite Hx.
    + simpl. exists x. split_and!; [|done|done|done]. apply list_lookup_insert_eq. by eapply lookup_lt_Some.
  - rewrite find_idx_None in Ei. assert (length (filter in_use (g_path_meta s)) = length (g_path_meta s)) as Hfull.
    { apply filter_full. intros i e He Hu. specialize (Ei i e He). by rewrite Hu in Ei. }
    rewrite <- (td_size _ _ HT), (td_len _ _ HT) in Hfull. rewrite decide_False by lia.
    exists (g_path_meta s), None. split_and!; [by destruct s|done|done].
Qed.

Lemma rel_with_table s w tbl' m' : posix_rel s w -> table_db tbl' m' ->
  posix_rel (s <| g_path_meta := tbl' |>) {| w_db := m'; w_id := w_id w; w_vfs := w_vfs w |}.
Proof. intros [_ ? ? ?] HT. by constructor. Qed.

(** The common shape of the calls on a path. *)
Lemma with_attr_sim p s w (k : option nat -> ST (Posix V) (list Z)) full (k' : Attr -> ST (World V) (list Z)) :
  posix_rel s w -> short_path p ->
  (forall t, posix_rel t w -> k None t = (t, full)) ->
  (forall i e t w', posix_rel t w' -> g_path_meta t !! i = Some e -> in_use e -> pm_path e = p ->
     w_db w' !! p = Some (attr_of e) -> simulated (k (Some i) t) (k' (attr_of e) w')) ->
  simulated ((meta_get_or_create p ≫= k) s) (with_attr p full k' w).
Proof.
  intros HR Hp Hnone Hsome. destruct (get_or_create_spec p s (w_db w) (pr_table _ _ HR) Hp) as (tbl' & r & E & HT & Hr).
  unfold mbind, ST_bind. rewrite E. unfold with_attr. destruct (db_enter p (w_db w)) as [m' [a|]] eqn:Ed; simpl in *.
  - destruct r as [i|]; [|done]. destruct Hr as (e & He & Hu & Hpe & <-).
    apply Hsome; [by apply rel_with_table|done|done|done|]. apply (td_map _ _ HT). by exists i, e.
  - destruct r; [done|]. assert (m' = w_db w) as ->.
    { unfold db_enter in Ed. destruct (w_db w !! p); [done|]. case_decide; by simplify_eq. }
    pose proof (rel_with_table s w tbl' _ HR HT) as HR'. destruct w as [db ids v]. rewrite Hnone by done. split; [done|done].
Qed.

(** The same with what becomes of the result. *)
Lemma path_sim {A} p s w (k : option nat -> ST (Posix V) A) (g : A -> ST (Posix V) (list Z)) full k' :
  posix_rel s w -> short_path p ->
  (forall t, posix_rel t w -> (k None ≫= g) t = (t, full)) ->
  (forall i e t w', posix_rel t w' -> g_path_meta t !! i = Some e -> in_use e -> pm_path e = p ->
     w_db w' !! p = Some (attr_of e) -> simulated ((k (Some i) ≫= g) t) (k' (attr_of e) w')) ->
  simulated (((meta_get_or_create p ≫= k) ≫= g) s) (with_attr p full k' w).
Proof.
  intros HR Hp Hn Hs. pose proof (with_attr_sim p s w (fun m => k m ≫= g) full k' HR Hp Hn Hs) as Hsim.
  unfold mbind, ST_bind in *. by destruct (meta_get_or_create p s).
Qed.

Lemma set_attr_rel i e p (f : PosixPathMeta -> PosixPathMeta) s w : posix_rel s w -> g_path_meta s !! i = Some e -> in_use e ->
  pm_path e = p -> pm_used (f e) = pm_used e -> pm_path (f e) = pm_path e ->
  posix_rel (s <| g_path_meta ::= alter f i |>) (w_set_attr p (attr_of (f e)) w).
Proof.
  intros [HT ? ? ?] He Hu <- Hfu Hfp. constructor; [|done..]. by apply update_ok.
Qed.

Lemma vfs_sim p s w (m : ST V Z) : posix_rel s w -> simulated ((r ← on_vfs m; mret [r]) s) (w_call p m w).
Proof.
  intros [? ? ? Hv]. unfold simulated, w_call, on_vfs, mbind, ST_bind. rewrite Hv. destruct (m (w_vfs w)) as [v r].
  split; [by constructor|done].
Qed.

Lemma set_id_rel t f s w : posix_rel s w -> posix_rel (fst (set_id t f s)) (w_alter t f w).
Proof.
  intros [? Hid Hl ?]. constructor; simpl; [done|by f_equal| |done].
  rewrite <- Hl. apply length_alter.
Qed.

Lemma alter_const t f w : task_valid t = true -> length (w_id w) = Z.to_nat MAX_TASKS ->
  w_alter t f w = w_alter t (fun _ => f (w_id w).[t]) w.
Proof.
  intros Ht Hl. unfold w_alter. f_equal. unfold task_valid, MAX_TASKS in *.
  apply andb_true_iff in Ht as [H1%Z.leb_le H2%Z.ltb_lt]. by rewrite !alter_cell by lia.
Qed.

Lemma refused s w (r : list Z) : posix_rel s w -> simulated (s, r) (w, r).
Proof. by split. Qed.

Lemma entry_total (tbl : list PosixPathMeta) i e : tbl !! i = Some e -> tbl !!! i = e.
Proof. apply list_lookup_total_correct. Qed.

Lemma set_sim t (rule : PosixIdentity -> option PosixIdentity) (m : ST (Posix V) Z) s w : posix_rel s w -> task_valid t = true ->
  (match rule (g_id s).[t] with
   | Some i => exists f, m s = (fst (set_id t f s), VFS_OK) /\ f (g_id s).[t] = i
   | None => m s = (s, VFS_ERR_PERM)
   end) -> simulated ((r ← m; mret [r]) s) (w_set t rule w).
Proof.
  intros HR Ht Hm. unfold w_set, mbind, ST_bind. rewrite <- (pr_id _ _ HR). destruct (rule _) as [i|].
  - destruct Hm as (f & -> & <-). split; [|done]. simpl. rewrite (pr_id _ _ HR), <- alter_const.
    + by apply (set_id_rel t f).
    + done.
    + rewrite <- (pr_id _ _ HR). apply HR.
  - rewrite Hm. by apply refused.
Qed.

(** The two reads of [posix_apply_exec_credentials]. *)
Lemma get_mode_eq p s m : table_db (g_path_meta s) m -> short_path p ->
  exists tbl', table_db tbl' (fst (db_enter p m)) /\
    posix_get_mode (Some p) s = (s <| g_path_meta := tbl' |>,
      match snd (db_enter p m) with Some a => (VFS_OK, Some (a_mode a)) | None => (VFS_ERR_NO_SPACE, None) end).
Proof.
  intros HT Hp. destruct (get_or_create_spec p s m HT Hp) as (tbl' & r & E & HT' & Hr). exists tbl'. split; [done|].
  unfold posix_get_mode, mbind, ST_bind. rewrite E. destruct r as [i|], (snd (db_enter p m)) as [a|]; try done.
  destruct Hr as (e & He & _ & _ & <-). simpl. by rewrite (entry_total _ _ _ He).
Qed.

Lemma get_owner_eq p s m : table_db (g_path_meta s) m -> short_path p ->
  exists tbl', table_db tbl' (fst (db_enter p m)) /\
    posix_get_owner (Some p) s = (s <| g_path_meta := tbl' |>,
      match snd (db_enter p m) with Some a => (VFS_OK, Some (a_uid a, a_gid a)) | None => (VFS_ERR_NO_SPACE, None) end).
Proof.
  intros HT Hp. destruct (get_or_create_spec p s m HT Hp) as (tbl' & r & E & HT' & Hr). exists tbl'. split; [done|].
  unfold posix_get_owner, mbind, ST_bind. rewrite E. destruct r as [i|], (snd (db_enter p m)) as [a|]; try done.
  destruct Hr as (e & He & _ & _ & <-). simpl. by rewrite (entry_total _ _ _ He).
Qed.

Lemma db_enter_again p m m' a : db_enter p m = (m', Some a) -> m' !! p = Some a /\ db_enter p m' = (m', Some a).
Proof.
  unfold db_enter. destruct (m !! p) as [b|] eqn:E.
  - intros [= <- <-]. by rewrite E.
  - case_decide; [|done]. intros [= <- <-]. by rewrite lookup_insert_eq.
Qed.

Lemma apply_exec_ids t a s :
  ((if has_flag (a_mode a) POSIX_MODE_SETUID then set_id t (fun i => i <| euid := a_uid a |>) else mret tt) ≫= fun _ =>
   (if has_flag (a_mode a) POSIX_MODE_SETGID then set_id t (fun i => i <| egid := a_gid a |>) else mret tt) ≫= fun _ =>
   mret VFS_OK) s = (fst (set_id t (exec_rule a) s), VFS_OK).
Proof.
  unfold mbind, ST_bind, mret, ST_ret, set_id, modify, exec_rule, update_field. destruct s as [tbl ids ? ? ? ? ? ? ?].
  destruct (has_flag (a_mode a) POSIX_MODE_SETUID), (has_flag (a_mode a) POSIX_MODE_SETGID); cbn;
    lazymatch goal with |- (Build_Posix ?b ?x ?c ?d ?e ?f ?g ?h ?v, ?r) = (Build_Posix _ ?y _ _ _ _ _ _ _, _) =>
      apply (f_equal (fun l => (Build_Posix b l c d e f g h v, r)) (x := x) (y := y)) end.
  - rewrite list_alter_alter_eq. apply list_alter_ext; [|done]. by intros [].
  - apply list_alter_ext; [|done]. by intros [].
  - apply list_alter_ext; [|done]. by intros [].
  - symmetry. apply list_alter_id. by intros [].
Qed.

Lemma exec_sim t p s w : posix_rel s w -> short_path p -> task_valid t = true ->
  simulated ((r ← posix_apply_exec_credentials t (Some p); mret [r]) s)
    (with_attr p [VFS_ERR_NOT_FOUND] (fun a w => (w_alter t (exec_rule a) w, [VFS_OK])) w).
Proof.
  intros HR Hp Ht. unfold posix_apply_exec_credentials. destruct p as [|x q]; [by destruct Hp|]. set (p := x :: q) in *.
  rewrite Ht. cbn [negb]. destruct (get_mode_eq p s (w_db w) (pr_table _ _ HR) Hp) as (tbl1 & HT1 & E1).
  unfold with_attr. destruct (db_enter p (w_db w)) as [m' [a|]] eqn:Ed; cbn [fst snd] in *.
  - destruct (db_enter_again _ _ _ _ Ed) as [Ha Hagain].
    set (s1 := s <| g_path_meta := tbl1 |>) in *. destruct (get_owner_eq p s1 m' HT1 Hp) as (tbl2 & HT2 & E2).
    rewrite Hagain in HT2, E2. cbn [fst snd] in *. unfold mbind, ST_bind. rewrite E1, E2.
    pose proof (rel_with_table s w tbl2 m' HR HT2) as HR2. set (w' := {| w_db := m'; w_id := w_id w; w_vfs := w_vfs w |}) in *.
    pose proof (set_id_rel t (exec_rule a) _ _ HR2) as HR3.
    change (s1 <| g_path_meta := tbl2 |>) with (s <| g_path_meta := tbl2 |>).
    pose proof (apply_exec_ids t a (s <| g_path_meta := tbl2 |>)) as He. unfold mbind, ST_bind in He. rewrite He. by split.
  - assert (m' = w_db w) as ->.
    { unfold db_enter in Ed. destruct (w_db w !! p); [done|]. case_decide; by simplify_eq. }
    unfold mbind, ST_bind. rewrite E1. pose proof (rel_with_table s w tbl1 _ HR HT1) as HR'. destruct w as [db ids v]. by split.
Qed.

Lemma posix_sim c s w : fits c -> posix_rel s w -> simulated (posix_step c s) (spec_step c w).
Proof.
  intros Hc HR. destruct c as [t p mask|t p mode|t p u g|p|p|t p|t u|t g|parent child]; cbn [fits posix_step spec_step] in *.
  - unfold posix_check_path_permission. destruct p as [|x q]; [by destruct Hc|]. set (p := x :: q) in *.
    destruct (task_valid t); simpl; [|by apply refused].
    apply path_sim; [done|done|done|].
    intros i e s' w' HR' He Hu Hpe _. unfold mbind, ST_bind, get. rewrite (entry_total _ _ _ He), permission_bits_unix, (pr_id _ _ HR').
    simpl. destruct (_ =? u32 mask); by split.
  - unfold posix_path_chmod. destruct (task_valid t); simpl; [|by apply refused].
    apply path_sim; [done|done|done|].
    intros i e s' w' HR' He Hu Hpe _. unfold mbind at 1, ST_bind at 1, mbind at 1, ST_bind at 1, get.
    rewrite (entry_total _ _ _ He), (pr_id _ _ HR'). cbv zeta. rewrite <- negb_orb.
    change (a_uid (attr_of e)) with (pm_uid e). destruct (_ || _); simpl; [|by split].
    apply (vfs_sim p). by refine (set_attr_rel i e p (fun m : PosixPathMeta => m <| pm_mode := u32 (Z.land mode 4095) |>) s' w' HR' He Hu Hpe _ _).
  - unfold posix_path_chown. destruct (task_valid t); simpl; [|by apply refused].
    unfold mbind at 1, ST_bind at 1, mbind at 1, ST_bind at 1, get. rewrite (pr_id _ _ HR).
    destruct (_ =? 0); simpl; [|by apply refused].
    apply path_sim; [done|done|done|].
    intros i e s' w' HR' He Hu Hpe _. 
    apply (vfs_sim p). by refine (set_attr_rel i e p (fun m : PosixPathMeta => m <| pm_uid := u32 u |> <| pm_gid := u32 g |>) s' w' HR' He Hu Hpe _ _).
  - unfold posix_get_mode. 
    apply path_sim; [done|done|done|].
    intros i e s' w' HR' He Hu Hpe _. unfold mbind, ST_bind, get. rewrite (entry_total _ _ _ He). by split.
  - unfold posix_get_owner. 
    apply path_sim; [done|done|done|].
    intros i e s' w' HR' He Hu Hpe _. unfold mbind, ST_bind, get. rewrite (entry_total _ _ _ He). by split.
  - destruct (task_valid t) eqn:Ht; cbn [negb].
    2: { unfold posix_apply_exec_credentials. rewrite Ht. destruct p; [by destruct Hc|by apply refused]. }
    by apply exec_sim.
  - destruct (task_valid t) eqn:Ht; simpl; [|unfold posix_set_uid; rewrite Ht; by apply refused].
    apply set_sim; [done|done|]. unfold posix_set_uid, set_uid_rule. rewrite Ht. simpl.
    unfold mbind, ST_bind, get. cbv zeta. destruct (euid _ =? 0); [by eexists|]. destruct (_ || _); [by eexists|done].
  - destruct (task_valid t) eqn:Ht; simpl; [|unfold posix_set_gid; rewrite Ht; by apply refused].
    apply set_sim; [done|done|]. unfold posix_set_gid, set_gid_rule. rewrite Ht. simpl.
    unfold mbind, ST_bind, get. cbv zeta. destruct (euid _ =? 0); [by eexists|]. destruct (_ || _); [by eexists|done].
  - unfold posix_task_on_fork. rewrite <- negb_andb. destruct (_ && _); simpl; [|by split].
    destruct HR as [? Hid Hl ?]. split; [|done]. constructor; simpl; [done|by rewrite Hid|by rewrite length_insert|done].
Qed.
End Refine.

(** ** Runs *)

Section PosixRuns.
Context {V : Type} `{PathAttributes V}.
Implicit Types (s : Posix V) (w : World V).

(** The map after [posix_init]. *)
Definition world_init (v : V) : World V := {| w_db := ∅; w_id := root_identity <$> seqZ 0 MAX_TASKS; w_vfs := v |}.

(** An empty table is the empty map. *)
Lemma empty_table e : ~ in_use e -> table_db (replicate POSIX_PATH_META_MAX e) ∅.
Proof.
  intros He. constructor.
  - apply length_replicate.
  - intros i j x y [-> _]%lookup_replicate_1 _ Hx. done.
  - intros p a. rewrite lookup_empty. split; [done|]. by intros (i & x & [-> _]%lookup_replicate_1 & Hx & _).
  - induction POSIX_PATH_META_MAX as [|n IH]; [done|]. cbn [replicate]. by rewrite filter_cons, decide_False.
Qed.

Lemma init_rel s : posix_rel (fst (posix_init s)) (world_init (px_vfs s)).
Proof. constructor; [|done|done|done]. apply empty_table. intros Hu. by apply Hu. Qed.

Lemma runs_sim cs : Forall fits cs -> forall s w, posix_rel s w ->
  simulated (run_ops posix_step cs s) (run_ops spec_step cs w).
Proof.
  induction 1 as [|c cs Hc _ IH]; intros s w HR; simpl; [by split|].
  pose proof (posix_sim c s w Hc HR) as [HR' Hr].
  destruct (posix_step c s) as [s1 r], (spec_step c w) as [w1 r']. simpl in *. subst r'.
  specialize (IH s1 w1 HR') as [HR2 Hr2]. destruct (run_ops posix_step cs s1), (run_ops spec_step cs w1). simpl in *.
  split; [done|]. simpl. by f_equal.
Qed.

(** C17: From [posix_init] on, in every sequence of permission checks, changes of mode
    and owner, queries, executions, changes of identity and forks on paths of 1 to 63
    characters (a longer one is cut when it is entered and never found again,
    posix.c:145), the linear table of 128 entries behaves as a finite map from paths to
    attributes: every result is the one the map gives, with the usual owner, group,
    other rule on nine mode bits, changes only by the owner or root, and the error for
    a full table exactly when 128 paths have been named. *)
Theorem posix_paths_refine s cs : Forall fits cs ->
  snd (run_ops posix_step cs (fst (posix_init s))) = snd (run_ops spec_step cs (world_init (px_vfs s))).
Proof. intros Hc. by apply runs_sim; [|apply init_rel]. Qed.

(** *** No way to the identity of another user *)

(** The calls of the tasks in [T]. *)
Definition acts (T : Z -> Prop) (c : posix_call) : Prop :=
  match c with
  | PCheck t _ _ | PChmod t _ _ | PChown t _ _ _ | PExec t _ | PSetUid t _ | PSetGid t _ => T t
  | PMode _ | POwner _ => True
  | PFork parent child => T parent /\ T child
  end.

(** The tasks in [T] run as users in [K], and what runs as its owner is owned in [K]. *)
Definition confined (K T : Z -> Prop) w : Prop :=
  (forall t, T t -> task_valid t = true -> K (uid (w_id w).[t]) /\ K (euid (w_id w).[t])) /\
  (forall p a, w_db w !! p = Some a -> has_flag (a_mode a) POSIX_MODE_SETUID = true -> K (a_uid a)).

(** What a run leaves alone: other tasks, and the attributes of what others own. *)
Definition untouched (K T : Z -> Prop) w w' : Prop :=
  (forall t, task_valid t = true -> ~ T t -> (w_id w').[t] = (w_id w).[t]) /\
  (forall p, ~ K (a_uid (db_attr (w_db w) p)) -> db_attr (w_db w') p = db_attr (w_db w) p).

Lemma untouched_trans K T w w' w'' : untouched K T w w' -> untouched K T w' w'' -> untouched K T w w''.
Proof.
  intros [H1 H2] [H3 H4]. split.
  - intros t Ht Hn. rewrite H3, H1; done.
  - intros p Hp. rewrite H4, H2; try done. by rewrite H2.
Qed.

Lemma default_not_setuid p : has_flag (a_mode (default_attr p)) POSIX_MODE_SETUID = false.
Proof. simpl. unfold default_mode. by destruct (_ || _). Qed.

Lemma valid_index t t' : task_valid t = true -> task_valid t' = true -> t <> t' -> Z.to_nat t <> Z.to_nat t'.
Proof. unfold task_valid. rewrite !andb_true_iff, !Z.leb_le. lia. Qed.

Section Confined.
Context (K T : Z -> Prop) (HK : ~ K 0).
Notation safe w r := (confined K T (fst r) /\ untouched K T w (fst r) /\ length (w_id (fst r)) = Z.to_nat MAX_TASKS).

Lemma safe_id {B} w (l : B) : confined K T w -> length (w_id w) = Z.to_nat MAX_TASKS -> safe w (w, l).
Proof. intros Hc Hl. split; [done|]. split; [by split|done]. Qed.

(** A change of the identity of a task in [T]. *)
Lemma safe_alter w t i : confined K T w -> length (w_id w) = Z.to_nat MAX_TASKS -> T t -> task_valid t = true ->
  K (uid i) -> K (euid i) -> 
  confined K T (w_alter t (fun _ => i) w) /\ untouched K T w (w_alter t (fun _ => i) w) /\
  length (w_id (w_alter t (fun _ => i) w)) = Z.to_nat MAX_TASKS.
Proof.
  intros [Hid Hdb] Hl HTt Ht Hu He. assert ((Z.to_nat t < length (w_id w))%nat) as Hlt.
  { rewrite Hl. unfold task_valid in Ht. lia. }
  split_and!; [split|split|]; simpl.
  - intros t' HT' Ht'. destruct (decide (t = t')) as [<-|Hne].
    + rewrite list_lookup_total_alter_eq by done. done.
    + rewrite list_lookup_total_alter_ne by (by apply valid_index). auto.
  - done.
  - intros t' Ht' Hn. rewrite list_lookup_total_alter_ne; [done|]. apply valid_index; [done|done|congruence].
  - done.
  - by rewrite length_alter.
Qed.

(** Naming a path changes no attributes. *)
Lemma safe_enter p w m' a : confined K T w -> length (w_id w) = Z.to_nat MAX_TASKS -> db_enter p (w_db w) = (m', Some a) ->
  let w' := {| w_db := m'; w_id := w_id w; w_vfs := w_vfs w |} in
  confined K T w' /\ untouched K T w w' /\ m' !! p = Some a /\ a = db_attr (w_db w) p.
Proof.
  intros [Hid Hdb] Hl. unfold db_enter, db_attr. destruct (w_db w !! p) as [b|] eqn:E.
  - intros [= <- <-]. split_and!; [done|done|done|done].
  - case_decide; [|done]. intros [= <- <-]. split_and!; [split; [done|]|split; [done|]| |done]; simpl.
    + intros q b [[<- <-]|[_ Hq]]%lookup_insert_Some Hs; [by rewrite default_not_setuid in Hs|by eapply Hdb].
    + intros q _. unfold db_attr. destruct (decide (p = q)) as [<-|]; [by rewrite lookup_insert_eq, E|by rewrite lookup_insert_ne].
    + by rewrite lookup_insert_eq.
Qed.

Lemma safe_with_attr p full (k : Attr -> ST (World V) (list Z)) w : confined K T w -> length (w_id w) = Z.to_nat MAX_TASKS ->
  (forall a w', confined K T w' -> length (w_id w') = Z.to_nat MAX_TASKS -> w_id w' = w_id w -> w_db w' !! p = Some a -> safe w' (k a w')) ->
  safe w (with_attr p full k w).
Proof.
  intros Hc Hl Hk. unfold with_attr. destruct (db_enter p (w_db w)) as [m' [a|]] eqn:E; [|by apply safe_id].
  destruct (safe_enter p w m' a Hc Hl E) as (Hc' & Hu & Ha & _). destruct (Hk a _ Hc' Hl eq_refl Ha) as (? & ? & ?).
  split_and!; [done|by eapply untouched_trans|done].
Qed.

(** The attributes of a path that is owned in [K], set by its owner. *)
Lemma safe_set_attr p a b w (m : ST V Z) : confined K T w -> length (w_id w) = Z.to_nat MAX_TASKS -> w_db w !! p = Some a -> K (a_uid a) ->
  a_uid b = a_uid a -> safe w (w_call p m (w_set_attr p b w)).
Proof.
  intros [Hid Hdb] Hl Ha HKa Hb. unfold w_call. simpl. destruct (m (w_vfs w)) as [v r]. simpl.
  split_and!; [split; [done|]|split; [done|]|done]; simpl.
  - intros q c [[<- <-]|[_ Hq]]%lookup_insert_Some Hs; [by rewrite Hb|by eapply Hdb].
  - intros q Hq. unfold db_attr in *. destruct (decide (p = q)) as [<-|]; [by rewrite Ha in Hq|by rewrite lookup_insert_ne].
Qed.

Lemma safe_step c w : acts T c -> confined K T w -> length (w_id w) = Z.to_nat MAX_TASKS -> safe w (spec_step c w).
Proof.
  intros HT Hc Hl. pose proof Hc as [Hid Hdb]. destruct c as [t p mask|t p mode|t p u g|p|p|t p|t u|t g|parent child]; cbn [spec_step acts] in *.
  - destruct (task_valid t) eqn:Ht; cbn [negb]; [|by apply safe_id]. apply safe_with_attr; [done|done|]. intros. by apply safe_id.
  - destruct (task_valid t) eqn:Ht; cbn [negb]; [|by apply safe_id]. apply safe_with_attr; [done|done|]. intros a w' Hc' Hl' Hw Ha.
    cbv zeta. rewrite Hw. destruct (Hid t HT Ht) as [_ He].
    destruct (Z.eqb_spec (euid (w_id w).[t]) 0) as [E|_]; [by rewrite E in He|]. cbn [orb].
    destruct (Z.eqb_spec (euid (w_id w).[t]) (a_uid a)) as [E|_]; [|by apply safe_id].
    apply (safe_set_attr p a); [done|done|done|by rewrite <- E|done].
  - destruct (task_valid t) eqn:Ht; cbn [negb]; [|by apply safe_id]. destruct (Hid t HT Ht) as [_ He].
    destruct (Z.eqb_spec (euid (w_id w).[t]) 0) as [E|_]; [by rewrite E in He|by apply safe_id].
  - apply safe_with_attr; [done|done|]. intros. by apply safe_id.
  - apply safe_with_attr; [done|done|]. intros. by apply safe_id.
  - destruct (task_valid t) eqn:Ht; cbn [negb]; [|by apply safe_id]. apply safe_with_attr; [done|done|]. intros a w' Hc' Hl' Hw Ha.
    cbn [fst]. rewrite alter_const by done. destruct (proj1 Hc' t HT Ht) as [Hu He].
    apply safe_alter; [done|done|done|done|done|]. simpl. destruct (has_flag (a_mode a) POSIX_MODE_SETUID) eqn:Es; [|done].
    by eapply (proj2 Hc').
  - destruct (task_valid t) eqn:Ht; cbn [negb]; [|by apply safe_id]. destruct (Hid t HT Ht) as [Hu He]. unfold w_set, set_uid_rule.
    destruct (Z.eqb_spec (euid (w_id w).[t]) 0) as [E|_]; [by rewrite E in He|].
    destruct (_ || _) eqn:Eu; [|by apply safe_id]. apply safe_alter; [done|done|done|done|done|]. simpl.
    apply orb_true_iff in Eu as [->%Z.eqb_eq| ->%Z.eqb_eq]; done.
  - destruct (task_valid t) eqn:Ht; cbn [negb]; [|by apply safe_id]. destruct (Hid t HT Ht) as [Hu He]. unfold w_set, set_gid_rule.
    destruct (Z.eqb_spec (euid (w_id w).[t]) 0) as [E|_]; [by rewrite E in He|].
    destruct (_ || _) eqn:Eu; [|by apply safe_id]. by apply safe_alter.
  - destruct HT as [Hp Hch]. destruct (task_valid parent) eqn:Ep, (task_valid child) eqn:Ec; try (by apply safe_id). simpl.
    destruct (Hid parent Hp Ep). rewrite list_insert_alter. by apply safe_alter.
Qed.

Lemma safe_run cs : Forall (acts T) cs -> forall w, confined K T w -> length (w_id w) = Z.to_nat MAX_TASKS ->
  safe w (run_ops spec_step cs w).
Proof.
  induction 1 as [|c cs Hc _ IH]; intros w Hw Hl; simpl; [by apply (safe_id w (@nil (list Z)))|].
  destruct (safe_step c w Hc Hw Hl) as (Hw1 & Hu1 & Hl1). destruct (spec_step c w) as [w1 r]. simpl in *.
  destruct (IH w1 Hw1 Hl1) as (Hw2 & Hu2 & Hl2). destruct (run_ops spec_step cs w1). simpl in *.
  split_and!; [done|by eapply untouched_trans|done].
Qed.
End Confined.

(** C4: Tasks that run as unprivileged users stay those users.  Let [K] be a set of
    users without root, and let the tasks of a set [T] have their user ids in it; if no
    set-user-id program belongs to anyone else ([confined]: executing one of root's makes
    the task root, as it should), then in every sequence of calls by these tasks on paths
    of 1 to 63 characters ([fits], see C17) - forks among them, executions, changes of mode, owner and user - they
    keep ids in [K], the identity of every other task stays as it is, and so do the
    owner and mode of every path that is owned outside [K]. *)
Theorem posix_no_escalation (K T : Z -> Prop) s w cs : posix_rel s w -> ~ K 0 -> confined K T w ->
  Forall fits cs -> Forall (acts T) cs ->
  exists w', posix_rel (fst (run_ops posix_step cs s)) w' /\ confined K T w' /\ untouched K T w w'.
Proof.
  intros HR HK Hc Hf Ha. pose proof (runs_sim cs Hf s w HR) as [HR' _].
  destruct (safe_run K T HK cs Ha w Hc) as (Hc' & Hu & _); [rewrite <- (pr_id _ _ HR); apply HR|].
  by exists (fst (run_ops spec_step cs w)).
Qed.
End PosixRuns.

(** The file system of kernel/vfs.c behind the two calls. *)
#[export] Instance vfs_attributes {X B} `{Backends X B} `{EqDecision B} : PathAttributes (Vfs X B) :=
  {| attr_chmod := vfs_chmod; attr_chown := vfs_chown |}.

Section Signals.
Context {V : Type} `{PathAttributes V}.
Implicit Types s : Posix V.

(** ** Descriptors *)

Lemma get_mode_frame path s : let '(s', _) := posix_get_mode path s in
  g_id s' = g_id s /\ g_fd_rights s' = g_fd_rights s.
Proof.
  unfold posix_get_mode, meta_get_or_create. destruct path as [p|]; [|done]. unfold mbind, ST_bind, get.
  destruct (meta_find (Some p) (g_path_meta s)); [done|]. by destruct (find_idx _ _).
Qed.

Lemma fd_cell_lt t fd : task_valid t = true -> fd_valid fd = true -> (fd_cell t fd < Z.to_nat MAX_TASKS * TASK_MAX_FDS)%nat.
Proof.
  unfold task_valid, fd_valid, fd_cell, MAX_TASKS, TASK_MAX_FDS. rewrite !andb_true_iff, !Z.leb_le, !Z.ltb_lt. lia.
Qed.

(** An unprivileged task gets from an open exactly the rights of the flags and, for a
    path anyone may execute, the right to execute. *)
Lemma track_open_rights t fd p flags s : length (g_fd_rights s) = (Z.to_nat MAX_TASKS * TASK_MAX_FDS)%nat ->
  task_valid t = true -> fd_valid fd = true ->
  let s' := fst (posix_track_fd_open t fd (Some p) flags s) in
  g_id s' = g_id s /\ exists x, (x = 0 \/ x = POSIX_ACC_EXEC) /\
    g_fd_rights s' !!! fd_cell t fd = Z.lor (rights_of_flags flags) x.
Proof.
  intros Hl Ht Hfd. unfold posix_track_fd_open. rewrite Ht, Hfd. cbn [negb orb]. rewrite bool_decide_eq_false_2 by done.
  unfold mbind, ST_bind. pose proof (get_mode_frame (Some p) s) as Hf. destruct (posix_get_mode (Some p) s) as [s1 [r mode]].
  destruct Hf as [Hid Hr]. split; [done|]. simpl. rewrite Hr, list_lookup_total_insert_eq by (rewrite Hl; by apply fd_cell_lt).
  set (b := match mode with Some m => _ | None => false end). exists (if_set b POSIX_ACC_EXEC).
  split; [destruct b; [by right|by left]|]. unfold rights_of_flags. by destruct (has_flag flags VFS_O_WRONLY), (Z.land flags VFS_O_RDWR =? VFS_O_RDWR), b.
Qed.

(** A descriptor opened for reading and writing lacks the right to read. *)
Theorem posix_rdwr_not_readable t fd p s : length (g_fd_rights s) = (Z.to_nat MAX_TASKS * TASK_MAX_FDS)%nat ->
  task_valid t = true -> fd_valid fd = true -> euid (g_id s).[t] <> 0 ->
  posix_check_fd_permission t fd POSIX_ACC_READ (fst (posix_track_fd_open t fd (Some p) VFS_O_RDWR s)) = VFS_ERR_PERM.
Proof.
  intros Hl Ht Hfd He. destruct (track_open_rights t fd p VFS_O_RDWR s Hl Ht Hfd) as (Hid & x & Hx & Hr).
  unfold posix_check_fd_permission. rewrite Ht, Hfd, Hid. cbn [negb orb]. destruct (Z.eqb_spec (euid (g_id s).[t]) 0); [done|].
  rewrite Hr. by destruct Hx as [-> | ->].
Qed.

(** ** Signals *)

(** Who [signal_tasks] reaches. *)
Definition reached (p : PosixIdentity -> bool) s (t : nat) : bool := alive (px_tasks s !!! t) && p (g_id s !!! t).

Lemma alive_pend signal t : alive (pend signal t) = alive t.
Proof. done. Qed.

Lemma signal_tasks_spec p signal s : length (px_tasks s) = Z.to_nat MAX_TASKS ->
  let '(s', n) := signal_tasks p signal s in
  length (px_tasks s') = Z.to_nat MAX_TASKS /\
  (forall t, (t < Z.to_nat MAX_TASKS)%nat -> px_tasks s' !!! t = if reached p s t then pend signal (px_tasks s !!! t) else px_tasks s !!! t) /\
  s' = s <| px_tasks := px_tasks s' |> /\ 0 <= n /\ (0 < n <-> exists t, (t < Z.to_nat MAX_TASKS)%nat /\ reached p s t = true).
Proof.
  intros Hl. unfold signal_tasks.
  set (I := fun (k : nat) (r : Posix V * Z) => length (px_tasks r.1) = Z.to_nat MAX_TASKS /\
    (forall t, (t < Z.to_nat MAX_TASKS)%nat -> px_tasks r.1 !!! t =
       if bool_decide (t < k)%nat && reached p s t then pend signal (px_tasks s !!! t) else px_tasks s !!! t) /\
    r.1 = s <| px_tasks := px_tasks r.1 |> /\ 0 <= r.2 /\ (0 < r.2 <-> exists t, (t < k)%nat /\ reached p s t = true)).
  match goal with |- context [for_each ?body 0 ?n ?s0] => pose proof (for_each_inv body I n 0%nat s0) as Hinv end.
  destruct (for_each _ 0 _ _) as [s' n]. cbn [Nat.add] in Hinv. destruct Hinv as (Hl' & Ht & Hs & Hn & Hn').
  - split; [done|]. split; [by intros; simpl|]. split; [by destruct s|]. split; [done|]. split; [done|]. intros (t & Ht & _). lia.
  - intros k [s1 n1] Hk (Hl1 & Ht1 & Hs1 & Hn1 & Hn1'). cbn [fst snd] in *.
    assert (alive (px_tasks s1 !!! k) && p (g_id s1 !!! k) = reached p s k) as ->.
    { rewrite (Ht1 k) by lia. rewrite bool_decide_eq_false_2 by lia. rewrite Hs1. done. }
    assert (forall t, (t < S k)%nat <-> (t < k)%nat \/ t = k) as Hlt by (intros; lia).
    destruct (reached p s k) eqn:Hr.
    + split; [cbn; by rewrite length_alter|]. split; [|split; [by rewrite Hs1 at 1|split; [cbn; lia|]]].
      * intros t Ht. cbn. destruct (decide (t = k)) as [->|Hne].
        -- rewrite list_lookup_total_alter_eq by lia. rewrite (Ht1 k) by lia.
           by rewrite bool_decide_eq_false_2, bool_decide_eq_true_2, Hr by lia.
        -- rewrite list_lookup_total_alter_ne by done. rewrite Ht1 by lia.
           by rewrite (bool_decide_ext (t < k)%nat (t < S k)%nat) by lia.
      * cbn. split; [|lia]. intros _. exists k. split; [lia|done].
    + split; [done|]. split; [|split; [done|split; [done|]]].
      * intros t Ht. rewrite Ht1 by done. destruct (decide (t = k)) as [->|Hne]; [by rewrite Hr, !andb_false_r|].
        by rewrite (bool_decide_ext (t < k)%nat (t < S k)%nat) by lia.
      * rewrite Hn1'. split; intros (t & Ht & Hrt); exists t; (split; [|done]); [lia|].
        apply Hlt in Ht as [?| ->]; [done|congruence].
  - cbn [fst snd] in *. split_and!; [done| |done|done|done]. intros t Hlt. rewrite Ht by done.
    by rewrite bool_decide_eq_true_2.
Qed.

(** C40: A signal to a process group is made pending exactly for the tasks of the group
    that are alive and, unless the sender is root, of the sender's session; no other
    task and nothing else changes, the call reports whether there was one, and a
    signal number or group out of range is refused. *)
Theorem posix_signal_exact sender pg signal s : length (px_tasks s) = Z.to_nat MAX_TASKS ->
  let '(s', r) := posix_task_signal_pgid sender pg signal s in
  let picked t := reached (fun i => (pgid i =? pg) && ((euid (g_id s).[sender] =? 0) || (sid i =? sid (g_id s).[sender]))) s t in
  if task_valid sender && (0 <=? pg) && signal_valid signal then
    s' = s <| px_tasks := px_tasks s' |> /\
    (forall t, (t < Z.to_nat MAX_TASKS)%nat -> px_tasks s' !!! t =
       if picked t then (px_tasks s !!! t) <| signal_pending ::= (fun p => Z.lor p (2 ^ signal)) |> else px_tasks s !!! t) /\
    ((r = VFS_OK /\ exists t, (t < Z.to_nat MAX_TASKS)%nat /\ picked t = true) \/
     (r = VFS_ERR_NOT_FOUND /\ forall t, (t < Z.to_nat MAX_TASKS)%nat -> picked t = false))
  else s' = s /\ r = VFS_ERR_INVALID_ARG.
Proof.
  intros Hl. unfold posix_task_signal_pgid. rewrite (Z.leb_antisym pg 0). unfold mbind, ST_bind, get.
  destruct (task_valid sender); [|done]. destruct (pg <? 0); [done|]. destruct (signal_valid signal) eqn:Es; [|done].
  cbn [negb orb andb]. pose proof (signal_tasks_spec (fun i => (pgid i =? pg) && ((euid (g_id s).[sender] =? 0) || (sid i =? sid (g_id s).[sender]))) signal s Hl) as Hsp.
  destruct (signal_tasks _ signal s) as [s' n]. destruct Hsp as (_ & Ht & Hs & Hn & Hn'). cbn.
  split; [done|]. split.
  - intros t Hlt. rewrite Ht by done. unfold pend. unfold signal_valid, TASK_SIGNAL_MAX in Es.
    assert (0 < signal < 32) as Hsig by (apply andb_true_iff in Es as [?%Z.ltb_lt ?%Z.ltb_lt]; lia). rewrite u32_small; [by rewrite Z.shiftl_1_l|].
    rewrite Z.shiftl_1_l. split; [lia|]. change 4294967296 with (2 ^ 32). apply Z.pow_lt_mono_r; lia.
  - destruct (Z.ltb_spec 0 n) as [Hp|Hp]; [left|right]; (split; [done|]); [by apply Hn'|].
    intros t Hlt. apply not_true_iff_false. intros Hr. assert (0 < n); [|lia]. apply Hn'. by exists t.
Qed.
End Signals.

(** ** A run *)

(** A file system that accepts every change. *)
Definition accepting : PathAttributes unit :=
  {| attr_chmod := fun _ _ => mret VFS_OK; attr_chown := fun _ _ _ => mret VFS_OK |}.
#[local] Existing Instance accepting.

Definition blank_posix : Posix unit :=
  {| g_path_meta := []; g_id := []; g_fd_rights := []; g_tty_fg_pgrp := []; g_tty_sid := []; g_users := []; g_groups := [];
     px_tasks := replicate 8 tcb_zero; px_vfs := tt |}.

(** The paths /a and /b.bin. *)
Definition path_a : list Z := [47; 97].
Definition path_b : list Z := [47; 98; 46; 98; 105; 110].

(** Root gives a program to user 1000 and hands a task to that user, who then makes
    the program set-user-id, may not touch a file of root's nor become root, and forks. *)
Definition setup_calls : list posix_call := [PChown 0 path_b 1000 100; PSetGid 2 100; PSetUid 2 1000; PFork 2 3].
Definition user_calls : list posix_call :=
  [PChmod 2 path_b 2541; PChmod 2 path_a 511; PSetUid 2 0; PChown 2 path_a 1000 100; PExec 2 path_b; PFork 2 3;
   PCheck 3 path_b 7; PCheck 3 path_a 2; PMode path_b; POwner path_a].

Definition user_world : World unit := fst (run_ops spec_step setup_calls (world_init tt)).
Definition user_posix : Posix unit := fst (run_ops posix_step setup_calls (fst (posix_init blank_posix))).

Lemma fits_path_a : short_path path_a. Proof. split; [done|cbn; lia]. Qed.
Lemma fits_path_b : short_path path_b. Proof. split; [done|cbn; lia]. Qed.

Lemma demo_fits cs : cs = setup_calls \/ cs = user_calls -> Forall fits cs.
Proof. intros [-> | ->]; repeat apply Forall_cons_2; (apply Forall_nil_2 || exact I || apply fits_path_a || apply fits_path_b). Qed.

Lemma posix_paths_refine_witness : Forall fits user_calls /\
  snd (run_ops posix_step user_calls (fst (posix_init blank_posix))) = snd (run_ops spec_step user_calls (world_init tt)).
Proof. split; [by apply demo_fits; right|]. exact (posix_paths_refine blank_posix user_calls (demo_fits _ (or_intror eq_refl))). Defined.

Example user_results : snd (run_ops posix_step user_calls user_posix) =
  [[VFS_OK]; [VFS_ERR_PERM]; [VFS_ERR_PERM]; [VFS_ERR_PERM]; [VFS_OK]; []; [VFS_OK]; [VFS_ERR_PERM];
   [VFS_OK; 2541]; [VFS_OK; 0; 0]].
Proof. by vm_compute. Qed.

Lemma user_rel : posix_rel user_posix user_world.
Proof. apply (runs_sim setup_calls (demo_fits _ (or_introl eq_refl)) _ _ (init_rel blank_posix)). Qed.

Definition user_1000 (u : Z) : Prop := u = 1000.
Definition tasks_2_3 (t : Z) : Prop := t = 2 \/ t = 3.

Lemma user_confined : confined user_1000 tasks_2_3 user_world.
Proof.
  split; [intros t [-> | ->] _; by split|]. intros p a Hp Hs.
  assert (w_db user_world = {[path_b := {| a_uid := 1000; a_gid := 100; a_mode := 493 |}]}) as E by (by vm_compute).
  rewrite E in Hp. apply lookup_singleton_Some in Hp as [_ <-]. done.
Qed.

Lemma posix_no_escalation_witness : exists w', posix_rel (fst (run_ops posix_step user_calls user_posix)) w' /\
  confined user_1000 tasks_2_3 w' /\ untouched user_1000 tasks_2_3 user_world w'.
Proof.
  apply (posix_no_escalation user_1000 tasks_2_3 user_posix user_world user_calls).
  - exact user_rel.
  - unfold user_1000. lia.
  - exact user_confined.
  - apply demo_fits. by right.
  - unfold tasks_2_3. repeat apply Forall_cons_2; first [apply Forall_nil_2|exact I|solve [left; done]|solve [right; done]|split; [by left|by right]].
Defined.

Lemma posix_signal_exact_witness : length (px_tasks user_posix) = Z.to_nat MAX_TASKS /\
  (snd (posix_task_signal_pgid 0 0 9 user_posix) = VFS_OK \/ snd (posix_task_signal_pgid 0 0 9 user_posix) = VFS_ERR_NOT_FOUND).
Proof.
  split; [done|]. pose proof (posix_signal_exact 0 0 9 user_posix eq_refl) as Hs.
  destruct (posix_task_signal_pgid 0 0 9 user_posix) as [s' r]. destruct Hs as (_ & _ & [[-> _]|[-> _]]); [by left|by right].
Defined.
