(* ===== verification/Buffers.v ===== *)
(** * Buffers

    Loads and stores in byte buffers and tables, which fault outside of them, and calls
    that keep an invariant and never fault. *)
From S2P Require Import Prelude Fault Bytes.

(** ** Accesses *)

Section Reads.
Context {S : Type}.
Notation call := (FST S).

(** A load of one byte, and of [n] bytes from an offset. *)
Definition rd (p : list Z) (o : Z) : call Z := fun s =>
  if (0 <=? o) && (o <? Z.of_nat (length p)) then Done s p.[o] else Fault s.
Definition rd_bytes (p : list Z) (o n : Z) : call (list Z) := fun s =>
  if (0 <=? o) && (0 <=? n) && (o + n <=? Z.of_nat (length p)) then Done s (slice o n p) else Fault s.

(** [&p[o]]. *)
Definition at_ (p : list Z) (o : Z) : list Z := drop (Z.to_nat o) p.

(** [l[i]]. *)
Definition elem {A} (l : list A) (i : Z) : call A := fun s =>
  if 0 <=? i then match l !! Z.to_nat i with Some x => Done s x | None => Fault s end else Fault s.

(** ** Writing *)

(** [mem_copy(&p[o], b, length b)]. *)
Definition put (o : Z) (b p : list Z) : call (list Z) := fun s =>
  if (0 <=? o) && (o + Z.of_nat (length b) <=? Z.of_nat (length p)) then Done s (splice o b p) else Fault s.
End Reads.

(** Several stores in a row. *)
Fixpoint puts {S} (ws : list (Z * list Z)) (p : list Z) : FST S (list Z) :=
  match ws with
  | [] => mret p
  | (o, b) :: ws' => p' ← put o b p; puts ws' p'
  end.

(** A cleared buffer. *)
Definition zero_bytes (n : Z) : list Z := replicate (Z.to_nat n) 0.

(** ** Calls that keep an invariant *)

(** No fault at all. *)
Definition never {S} (_ : S) : Prop := False.

Section Safe.
Context {S : Type} (J : S -> Prop).

(** [safe m R]: [m] does not fault, keeps [J], and its results satisfy [R]. *)
Definition safe {A} (m : FST S A) (R : A -> Prop) : Prop :=
  forall s, J s -> wpf never m (fun s' a => J s' /\ R a) s.

Lemma safe_ret {A} (a : A) (R : A -> Prop) : R a -> safe (mret a) R.
Proof. intros HR s HJ. by apply wpf_ret. Qed.

Lemma safe_bind {A B} (m : FST S A) (k : A -> FST S B) (R : A -> Prop) (Q : B -> Prop) :
  safe m R -> (forall a, R a -> safe (k a) Q) -> safe (m ≫= k) Q.
Proof.
  intros Hm Hk s HJ. eapply wpf_seq; [by apply Hm|]. intros s' a [HJ' HR]. by apply Hk.
Qed.

Lemma safe_mono {A} (m : FST S A) (R R' : A -> Prop) : safe m R -> (forall a, R a -> R' a) -> safe m R'.
Proof. intros Hm HR s HJ. eapply wpf_mono; [by apply Hm|]. intros s' a [? ?]. split; [done|by apply HR]. Qed.

Lemma safe_fget : safe fget J.
Proof. intros s HJ. by split. Qed.

Lemma safe_fmod (f : S -> S) : (forall s, J s -> J (f s)) -> safe (fmod f) (fun _ => True).
Proof. intros Hf s HJ. split; [by apply Hf|done]. Qed.

Lemma safe_pure {A} (m : FST S A) (a : A) (R : A -> Prop) : (forall s, m s = Done s a) -> R a -> safe m R.
Proof. intros Hm HR s HJ. unfold wpf. by rewrite Hm. Qed.
End Safe.

(** ** Buffers *)

(** A buffer of [n] bytes. *)
Definition buffer (n : Z) (p : list Z) : Prop := Z.of_nat (length p) = n /\ Forall is_byte p.

Lemma buffer_zero n : 0 <= n -> buffer n (zero_bytes n).
Proof.
  intros Hn. split; [unfold zero_bytes; rewrite length_replicate; lia|].
  apply Forall_replicate. unfold is_byte. lia.
Qed.

Lemma buffer_splice n o b p : 0 <= o -> o + Z.of_nat (length b) <= n -> Forall is_byte b -> buffer n p -> buffer n (splice o b p).
Proof.
  intros Ho Hb HB [Hl HP]. split; [|by apply Forall_splice].
  rewrite splice_length; [done|]. unfold fits. lia.
Qed.

Lemma buffer_at n o p : 0 <= o <= n -> buffer n p -> buffer (n - o) (at_ p o).
Proof.
  intros Ho [Hl HP]. split; [|by apply Forall_drop]. unfold at_. rewrite length_drop. lia.
Qed.

Lemma buffer_slice n o k p : 0 <= o -> 0 <= k -> o + k <= n -> buffer n p -> buffer k (slice o k p).
Proof. intros Ho Hk Hn [Hl HP]. split; [|by apply Forall_slice]. rewrite slice_length; lia. Qed.

Lemma byte_buffer b : is_byte b -> buffer 1 [b].
Proof. intros Hb. split; [done|]. by constructor. Qed.

Section Accesses.
Context {S : Type} (J : S -> Prop).

Lemma safe_rd n p o : buffer n p -> 0 <= o < n -> safe J (rd p o) is_byte.
Proof.
  intros [Hl HP] Ho. apply safe_pure with p.[o].
  - intros s. unfold rd. by destruct (Z.leb_spec 0 o), (Z.ltb_spec o (Z.of_nat (length p))); try lia.
  - apply lookup_byte; [done|lia].
Qed.

Lemma safe_rd_bytes n p o k : buffer n p -> 0 <= o -> 0 <= k -> o + k <= n -> safe J (rd_bytes p o k) (buffer k).
Proof.
  intros Hp Ho Hk Hn. apply safe_pure with (slice o k p); [|by apply buffer_slice with n].
  destruct Hp as [Hl HP]. intros s. unfold rd_bytes.
  by destruct (Z.leb_spec 0 o), (Z.leb_spec 0 k), (Z.leb_spec (o + k) (Z.of_nat (length p))); try lia.
Qed.

Lemma safe_put n p o k b : buffer n p -> buffer k b -> 0 <= o -> o + k <= n -> safe J (put o b p) (buffer n).
Proof.
  intros [Hl HP] [Hk HB] Ho Hn. apply safe_pure with (splice o b p).
  - intros s. unfold put. by destruct (Z.leb_spec 0 o), (Z.leb_spec (o + Z.of_nat (length b)) (Z.of_nat (length p))); try lia.
  - apply buffer_splice; [done|lia|done|done].
Qed.

(** Every store of a list of stores fits. *)
Definition store_ok (n : Z) (w : Z * list Z) : Prop := 0 <= fst w /\ fst w + Z.of_nat (length (snd w)) <= n /\ Forall is_byte (snd w).

Lemma store_ok_buffer n o k b : buffer k b -> 0 <= o -> o + k <= n -> store_ok n (o, b).
Proof. intros [Hk HB] Ho Hn. unfold store_ok. simpl. split; [done|]. split; [lia|done]. Qed.

Lemma safe_puts n ws : forall p, buffer n p -> Forall (store_ok n) ws -> safe J (puts ws p) (buffer n).
Proof.
  induction ws as [|[o b] ws IH]; intros p Hp Hws; [by apply safe_ret|].
  apply Forall_cons_1 in Hws as [(Ho & Hb & HB) Hws]. cbn [puts].
  eapply safe_bind; [by apply safe_put with (k := Z.of_nat (length b))|]. intros p' Hp'. by apply IH.
Qed.

Lemma safe_elem {A} (P : A -> Prop) (l : list A) i :
  0 <= i < Z.of_nat (length l) -> Forall P l -> safe J (elem l i) P.
Proof.
  intros Hi HP. assert (is_Some (l !! Z.to_nat i)) as [x Hx] by (apply lookup_lt_is_Some_2; lia).
  apply (safe_pure J _ x); [|by apply (Forall_lookup_1 _ _ _ _ HP Hx)].
  intros s. unfold elem. rewrite Hx. by destruct (Z.leb_spec 0 i); [|lia].
Qed.
End Accesses.
