(* ===== verification/NetState.v ===== *)
(** * Packets and the state of the network stack (kernel/net.c)

    Big-endian fields of packets and the internet checksum: a packet is the list of the
    bytes of its buffer, and an access outside the buffer is a fault.  Then the tables of kernel/net.c, the clock it reads, and the frames it has handed to
    the network card, oldest first. *)
From S2P Require Import Prelude Bytes Fault Buffers.

(** ** Reading *)

Section Reads.
Context {S : Type}.
Notation call := (FST S).

(** A load of a field. *)
Definition read_be16 (p : list Z) (o : Z) : call Z :=
  a ← rd p o; b ← rd p (o + 1); mret (u16 (Z.lor (Z.shiftl a 8) b)).
Definition read_be32 (p : list Z) (o : Z) : call Z :=
  a ← rd p o; b ← rd p (o + 1); c ← rd p (o + 2); d ← rd p (o + 3);
  mret (u32 (Z.lor (Z.lor (Z.lor (Z.shiftl a 24) (Z.shiftl b 16)) (Z.shiftl c 8)) d)).
End Reads.

(** ** Writing *)

(** What [write_be16] and [write_be32] store. *)
Definition be16_bytes (v : Z) : list Z := [u8 (Z.shiftr v 8); u8 (Z.land v 0xFF)].
Definition be32_bytes (v : Z) : list Z :=
  [u8 (Z.land (Z.shiftr v 24) 0xFF); u8 (Z.land (Z.shiftr v 16) 0xFF); u8 (Z.land (Z.shiftr v 8) 0xFF); u8 (Z.land v 0xFF)].

(** ** The internet checksum *)

(** The loop over the pairs of bytes, and the odd byte at the end. *)
Fixpoint sum_words (data : list Z) (sum : Z) : Z :=
  match data with
  | a :: b :: data' => sum_words data' (sum +u u16 (Z.lor (Z.shiftl a 8) b))
  | [a] => sum +u u16 (Z.shiftl a 8)
  | [] => sum
  end.

(** [while ((sum >> 16) != 0)]; [fuel] bounds the iterations. *)
Fixpoint fold_carries (fuel : nat) (sum : Z) : Z :=
  match fuel with
  | O => sum
  | S fuel' => if Z.shiftr sum 16 =? 0 then sum else fold_carries fuel' (Z.land sum 0xFFFF +u Z.shiftr sum 16)
  end.

Definition internet_checksum (data : list Z) : Z := u16 (Z.land (Z.lnot (fold_carries 4 (sum_words data 0))) 0xFFFF).

(** The checksum over the pseudo header and [len] bytes of a packet. *)
Definition pseudo_sum {S} (src_ip dst_ip protocol : Z) (packet : list Z) (len : Z) : FST S Z :=
  bytes ← rd_bytes packet 0 len;
  buf ← puts [(0, be32_bytes src_ip); (4, be32_bytes dst_ip); (8, [0]); (9, [protocol]); (10, be16_bytes len); (12, bytes)] (replicate (Z.to_nat 1600) 0);
  body ← rd_bytes buf 0 (u16 (12 + len));
  mret (internet_checksum body).

(** ** Safe accesses to packets *)

Lemma be16_buffer v : buffer 2 (be16_bytes v).
Proof. split; [done|]. unfold be16_bytes. repeat constructor; unfold is_byte; apply u8_range. Qed.
Lemma be32_buffer v : buffer 4 (be32_bytes v).
Proof. split; [done|]. unfold be32_bytes. repeat constructor; unfold is_byte; apply u8_range. Qed.

Section Fields.
Context {S : Type} (J : S -> Prop).

Lemma safe_read_be16 n p o : buffer n p -> 0 <= o -> o + 2 <= n -> safe J (read_be16 p o) is_u16.
Proof.
  intros Hp Ho Hn. unfold read_be16.
  eapply safe_bind; [apply safe_rd with n; [done|lia]|]. intros a Ha.
  eapply safe_bind; [apply safe_rd with n; [done|lia]|]. intros b Hb.
  apply safe_ret. unfold is_u16. apply u16_range.
Qed.

Lemma safe_read_be32 n p o : buffer n p -> 0 <= o -> o + 4 <= n -> safe J (read_be32 p o) is_u32.
Proof.
  intros Hp Ho Hn. unfold read_be32.
  do 4 (eapply safe_bind; [apply safe_rd with n; [done|lia]|]; intros ? ?).
  apply safe_ret. unfold is_u32. apply u32_range.
Qed.
End Fields.

Lemma internet_checksum_u16 p : is_u16 (internet_checksum p).
Proof. unfold internet_checksum, is_u16. apply u16_range. Qed.

Definition ETH_TYPE_NEURO : Z := 0x88B5.
Definition ETH_TYPE_IPV4 : Z := 0x0800.
Definition ETH_TYPE_ARP : Z := 0x0806.
Definition IP_PROTO_ICMP : Z := 1.
Definition IP_PROTO_UDP : Z := 17.
Definition IP_PROTO_TCP : Z := 6.
Definition ICMP_TYPE_ECHO_REPLY : Z := 0.
Definition ICMP_TYPE_ECHO_REQUEST : Z := 8.
Definition ARP_HTYPE_ETHERNET : Z := 1.
Definition ARP_PTYPE_IPV4 : Z := 0x0800.
Definition ARP_OPER_REQUEST : Z := 1.
Definition ARP_OPER_REPLY : Z := 2.
Definition UDP_MAX_BINDINGS : nat := 16.
Definition UDP_QUEUE_DEPTH : Z := 16.
Definition UDP_MAX_PAYLOAD : Z := 1200.
Definition TCP_MAX_CONNS : nat := 32.
Definition TCP_QUEUE_DEPTH : Z := 16.
Definition TCP_MAX_PAYLOAD : Z := 1200.
Definition TCP_RETX_TICKS : Z := 20.
Definition TCP_RETX_MAX : Z := 5.
Definition IPV4_ETH_MTU : Z := 1500.
Definition IPV4_MAX_HEADER : Z := 60.
Definition IPV4_REASS_MAX_PAYLOAD : Z := 4096.
Definition IPV4_REASS_SLOT_MAX : nat := 4.
Definition IPV4_REASS_TIMEOUT_TICKS : Z := 300.
Definition ROUTE_TABLE_MAX : nat := 8.
Definition TCP_FLAG_FIN : Z := 0x01.
Definition TCP_FLAG_SYN : Z := 0x02.
Definition TCP_FLAG_RST : Z := 0x04.
Definition TCP_FLAG_PSH : Z := 0x08.
Definition TCP_FLAG_ACK : Z := 0x10.
Definition TCP_STATE_CLOSED : Z := 0.
Definition TCP_STATE_LISTEN : Z := 1.
Definition TCP_STATE_SYN_SENT : Z := 2.
Definition TCP_STATE_SYN_RCVD : Z := 3.
Definition TCP_STATE_ESTABLISHED : Z := 4.
Definition TCP_STATE_CLOSE_WAIT : Z := 5.
Definition TCP_STATE_CLOSING : Z := 6.

Record UdpPacket := { up_src_ip : Z; up_src_port : Z; up_len : Z; up_data : list Z }.
#[export] Instance UdpPacket_fields : Fields UdpPacket := fun r =>
  {| up_src_ip := up_src_ip r; up_src_port := up_src_port r; up_len := up_len r; up_data := up_data r |}.
#[export] Instance UdpPacket_inh : Inhabited UdpPacket := populate (Build_UdpPacket 0 0 0 (replicate 1200 0)).

Record UdpBinding := { ub_used : Z; ub_port : Z; ub_head : Z; ub_tail : Z; ub_count : Z; ub_dropped : Z; ub_queue : list UdpPacket }.
#[export] Instance UdpBinding_fields : Fields UdpBinding := fun r =>
  {| ub_used := ub_used r; ub_port := ub_port r; ub_head := ub_head r; ub_tail := ub_tail r; ub_count := ub_count r;
     ub_dropped := ub_dropped r; ub_queue := ub_queue r |}.
#[export] Instance UdpBinding_inh : Inhabited UdpBinding := populate (Build_UdpBinding 0 0 0 0 0 0 []).

Record TcpSegment := { ts_len : Z; ts_data : list Z }.
#[export] Instance TcpSegment_inh : Inhabited TcpSegment := populate (Build_TcpSegment 0 (replicate 1200 0)).

Record RouteEntry := { re_used : Z; re_network : Z; re_mask : Z; re_gateway : Z; re_prefix_len : Z; re_metric : Z }.
#[export] Instance RouteEntry_fields : Fields RouteEntry := fun r =>
  {| re_used := re_used r; re_network := re_network r; re_mask := re_mask r; re_gateway := re_gateway r;
     re_prefix_len := re_prefix_len r; re_metric := re_metric r |}.
#[export] Instance RouteEntry_inh : Inhabited RouteEntry := populate (Build_RouteEntry 0 0 0 0 0 0).

Record Ipv4ReassSlot := {
  rs_used : Z; rs_src_ip : Z; rs_dst_ip : Z; rs_ident : Z; rs_proto : Z; rs_header_len : Z; rs_have_first : Z;
  rs_total_known : Z; rs_total_payload_len : Z; rs_last_tick : Z; rs_header : list Z; rs_payload : list Z; rs_present : list Z
}.
#[export] Instance Ipv4ReassSlot_fields : Fields Ipv4ReassSlot := fun r =>
  {| rs_used := rs_used r; rs_src_ip := rs_src_ip r; rs_dst_ip := rs_dst_ip r; rs_ident := rs_ident r; rs_proto := rs_proto r;
     rs_header_len := rs_header_len r; rs_have_first := rs_have_first r; rs_total_known := rs_total_known r;
     rs_total_payload_len := rs_total_payload_len r; rs_last_tick := rs_last_tick r; rs_header := rs_header r;
     rs_payload := rs_payload r; rs_present := rs_present r |}.
#[export] Instance Ipv4ReassSlot_inh : Inhabited Ipv4ReassSlot := populate (Build_Ipv4ReassSlot 0 0 0 0 0 0 0 0 0 0 [] [] []).

Record TcpConn := {
  c_used : Z; c_listening : Z; c_parent_listen : Z; c_accepted : Z; c_state : Z; c_local_port : Z; c_remote_port : Z;
  c_remote_ip : Z; c_snd_una : Z; c_snd_nxt : Z; c_rcv_nxt : Z; c_rx_head : Z; c_rx_tail : Z; c_rx_count : Z;
  c_last_tx_tick : Z; c_last_tx_seq : Z; c_last_tx_ack : Z; c_last_tx_len : Z; c_last_tx_flags : Z; c_last_tx_retries : Z;
  c_waiting_ack : Z; c_last_tx_data : list Z; c_rx_queue : list TcpSegment
}.
#[export] Instance TcpConn_fields : Fields TcpConn := fun r =>
  {| c_used := c_used r; c_listening := c_listening r; c_parent_listen := c_parent_listen r; c_accepted := c_accepted r;
     c_state := c_state r; c_local_port := c_local_port r; c_remote_port := c_remote_port r; c_remote_ip := c_remote_ip r;
     c_snd_una := c_snd_una r; c_snd_nxt := c_snd_nxt r; c_rcv_nxt := c_rcv_nxt r; c_rx_head := c_rx_head r;
     c_rx_tail := c_rx_tail r; c_rx_count := c_rx_count r; c_last_tx_tick := c_last_tx_tick r; c_last_tx_seq := c_last_tx_seq r;
     c_last_tx_ack := c_last_tx_ack r; c_last_tx_len := c_last_tx_len r; c_last_tx_flags := c_last_tx_flags r;
     c_last_tx_retries := c_last_tx_retries r; c_waiting_ack := c_waiting_ack r; c_last_tx_data := c_last_tx_data r;
     c_rx_queue := c_rx_queue r |}.
#[export] Instance TcpConn_inh : Inhabited TcpConn := populate (Build_TcpConn 0 0 0 0 0 0 0 0 0 0 0 0 0 0 0 0 0 0 0 0 0 [] []).

Record UdpReorderHold := { rh_valid : Z; rh_src_ip : Z; rh_src_port : Z; rh_dst_port : Z; rh_len : Z; rh_data : list Z }.
#[export] Instance UdpReorderHold_fields : Fields UdpReorderHold := fun r =>
  {| rh_valid := rh_valid r; rh_src_ip := rh_src_ip r; rh_src_port := rh_src_port r; rh_dst_port := rh_dst_port r;
     rh_len := rh_len r; rh_data := rh_data r |}.

Record NetRxStats := {
  total_frames : Z; total_bytes : Z; ipv4_frames : Z; arp_frames : Z; neuro_frames : Z; unknown_frames : Z; dropped_frames : Z;
  malformed_frames : Z; quarantined_frames : Z; injected_loss_frames : Z; injected_reorder_frames : Z; tcp_retransmits : Z;
  tcp_retransmit_failures : Z; tcp_half_open_cleanups : Z; tcp_reset_events : Z; irq_count : Z; irq_rx_events : Z;
  tx_probe_ok : Z; tx_probe_fail : Z; poll_budget : Z; irq_poll_budget : Z; coalesced_batches : Z
}.
#[export] Instance NetRxStats_fields : Fields NetRxStats := fun r =>
  {| total_frames := total_frames r; total_bytes := total_bytes r; ipv4_frames := ipv4_frames r; arp_frames := arp_frames r;
     neuro_frames := neuro_frames r; unknown_frames := unknown_frames r; dropped_frames := dropped_frames r;
     malformed_frames := malformed_frames r; quarantined_frames := quarantined_frames r;
     injected_loss_frames := injected_loss_frames r; injected_reorder_frames := injected_reorder_frames r;
     tcp_retransmits := tcp_retransmits r; tcp_retransmit_failures := tcp_retransmit_failures r;
     tcp_half_open_cleanups := tcp_half_open_cleanups r; tcp_reset_events := tcp_reset_events r; irq_count := irq_count r;
     irq_rx_events := irq_rx_events r; tx_probe_ok := tx_probe_ok r; tx_probe_fail := tx_probe_fail r; poll_budget := poll_budget r;
     irq_poll_budget := irq_poll_budget r; coalesced_batches := coalesced_batches r |}.

Record Net := {
  net_ready : Z; rtl_iobase : Z; rtl_mac : list Z; net_ip : Z; net_mask : Z; net_gw : Z;
  net_fault_loss_percent : Z; net_fault_reorder_percent : Z; net_fault_prng_state : Z; udp_reorder_hold : UdpReorderHold;
  rtl_rx_offset : Z; rtl_tx_slot : Z; rtl_tx_buffer : list (list Z); net_rx_poll_budget_cfg : Z; net_irq_poll_budget_cfg : Z;
  net_rx_stats : NetRxStats; route_table : list RouteEntry; route_count : Z; ipv4_reass : list Ipv4ReassSlot;
  ipv4_tx_ident : Z; arp_cache_ip : Z; arp_cache_mac : list Z; arp_cache_valid : Z; udp_bindings : list UdpBinding;
  tcp_conns : list TcpConn; tcp_iss_seed : Z; tick : Z; sent : list (list Z)
}.
#[export] Instance Net_fields : Fields Net := fun r =>
  {| net_ready := net_ready r; rtl_iobase := rtl_iobase r; rtl_mac := rtl_mac r; net_ip := net_ip r; net_mask := net_mask r;
     net_gw := net_gw r; net_fault_loss_percent := net_fault_loss_percent r;
     net_fault_reorder_percent := net_fault_reorder_percent r; net_fault_prng_state := net_fault_prng_state r;
     udp_reorder_hold := udp_reorder_hold r;
     rtl_rx_offset := rtl_rx_offset r; rtl_tx_slot := rtl_tx_slot r; rtl_tx_buffer := rtl_tx_buffer r; net_rx_poll_budget_cfg := net_rx_poll_budget_cfg r;
     net_irq_poll_budget_cfg := net_irq_poll_budget_cfg r; net_rx_stats := net_rx_stats r; route_table := route_table r;
     route_count := route_count r; ipv4_reass := ipv4_reass r; ipv4_tx_ident := ipv4_tx_ident r; arp_cache_ip := arp_cache_ip r;
     arp_cache_mac := arp_cache_mac r; arp_cache_valid := arp_cache_valid r; udp_bindings := udp_bindings r;
     tcp_conns := tcp_conns r; tcp_iss_seed := tcp_iss_seed r; tick := tick r; sent := sent r |}.

(** The calls of the stack; a null pointer is [None]. *)
Abbreviation call := (FST Net).

(** A counter of the statistics goes up. *)
Definition count_up (f : NetRxStats -> NetRxStats) : call unit := fmod (fun s => s <| net_rx_stats ::= f |>).
Definition up (x : Z) : Z := x +u 1.

Definition net_count_malformed : call unit :=
  count_up (fun t => t <| malformed_frames ::= up |> <| quarantined_frames ::= up |> <| dropped_frames ::= up |>).

Definition net_count_ethertype (ethertype : Z) : call unit :=
  count_up (fun t =>
    let t := t <| total_frames ::= up |> in
    if ethertype =? ETH_TYPE_IPV4 then t <| ipv4_frames ::= up |>
    else if ethertype =? ETH_TYPE_ARP then t <| arp_frames ::= up |>
    else if ethertype =? ETH_TYPE_NEURO then t <| neuro_frames ::= up |>
    else t <| unknown_frames ::= up |>).

(** The static storage as the program starts. *)
Definition zero_stats : NetRxStats :=
  {| total_frames := 0; total_bytes := 0; ipv4_frames := 0; arp_frames := 0; neuro_frames := 0; unknown_frames := 0;
     dropped_frames := 0; malformed_frames := 0; quarantined_frames := 0; injected_loss_frames := 0;
     injected_reorder_frames := 0; tcp_retransmits := 0; tcp_retransmit_failures := 0; tcp_half_open_cleanups := 0;
     tcp_reset_events := 0; irq_count := 0; irq_rx_events := 0; tx_probe_ok := 0; tx_probe_fail := 0; poll_budget := 0;
     irq_poll_budget := 0; coalesced_batches := 0 |}.
Definition zero_packet : UdpPacket := Build_UdpPacket 0 0 0 (zero_bytes UDP_MAX_PAYLOAD).
Definition zero_binding : UdpBinding := Build_UdpBinding 0 0 0 0 0 0 (replicate (Z.to_nat UDP_QUEUE_DEPTH) zero_packet).
Definition zero_slot : Ipv4ReassSlot :=
  Build_Ipv4ReassSlot 0 0 0 0 0 0 0 0 0 0 (zero_bytes IPV4_MAX_HEADER) (zero_bytes IPV4_REASS_MAX_PAYLOAD)
    (zero_bytes ((IPV4_REASS_MAX_PAYLOAD / 8 + 7) / 8)).
Definition zero_conn : TcpConn :=
  Build_TcpConn 0 0 0 0 0 0 0 0 0 0 0 0 0 0 0 0 0 0 0 0 0 (zero_bytes TCP_MAX_PAYLOAD)
    (replicate (Z.to_nat TCP_QUEUE_DEPTH) (Build_TcpSegment 0 (zero_bytes TCP_MAX_PAYLOAD))).
Definition zero_hold : UdpReorderHold := Build_UdpReorderHold 0 0 0 0 0 (zero_bytes UDP_MAX_PAYLOAD).
Definition zero_route : RouteEntry := Build_RouteEntry 0 0 0 0 0 0.

Definition net_static : Net :=
  {| net_ready := 0; rtl_iobase := 0; rtl_mac := zero_bytes 6; net_ip := 0x0A00020F; net_mask := 0xFFFFFF00; net_gw := 0x0A000201;
     net_fault_loss_percent := 0; net_fault_reorder_percent := 0; net_fault_prng_state := 0xC0FFEE11; udp_reorder_hold := zero_hold;
     rtl_rx_offset := 0; rtl_tx_slot := 0; rtl_tx_buffer := replicate 4 (zero_bytes 1600); net_rx_poll_budget_cfg := 32; net_irq_poll_budget_cfg := 96;
     net_rx_stats := zero_stats; route_table := replicate ROUTE_TABLE_MAX zero_route; route_count := 0;
     ipv4_reass := replicate IPV4_REASS_SLOT_MAX zero_slot; ipv4_tx_ident := 1; arp_cache_ip := 0; arp_cache_mac := zero_bytes 6;
     arp_cache_valid := 0; udp_bindings := replicate UDP_MAX_BINDINGS zero_binding; tcp_conns := replicate TCP_MAX_CONNS zero_conn;
     tcp_iss_seed := 0x10203040; tick := 0; sent := [] |}.
