(* ===== verification/NetSend.v ===== *)
(** * Sending (kernel/net.c)

    The routes, the one-entry ARP cache, the frames the stack builds, and the UDP ports. *)
From S2P Require Import Prelude Bytes Fault Buffers NetState.

(** ** Routes *)

(** [fuel] bounds the iterations. *)
Fixpoint prefix_len_loop (fuel : nat) (mask bits : Z) : Z :=
  match fuel with
  | O => bits
  | S fuel' => if negb (Z.land mask 0x80000000 =? 0) then prefix_len_loop fuel' (u32 (Z.shiftl mask 1)) (bits + 1) else bits
  end.
Definition prefix_len_from_mask (mask : Z) : Z := prefix_len_loop 33 mask 0.

Definition route_table_clear : call unit := fmod (fun s => s <| route_count := 0 |> <| route_table := replicate ROUTE_TABLE_MAX zero_route |>).

Definition same_route (network mask : Z) (r : RouteEntry) : bool :=
  negb (re_used r =? 0) && (re_network r =? network) && (re_mask r =? mask).

Definition route_table_set (network mask gateway metric : Z) : call Z :=
  let network := if negb (mask =? 0) then Z.land network mask else 0 in
  s ← fget;
  idx ← (match find_idx (same_route network mask) (route_table s) with
         | Some i => mret (Some i)
         | None =>
             match find_idx (fun r => re_used r =? 0) (route_table s) with
             | Some i => fmod (fun s => s <| route_table ::= alter (fun r => r <| re_used := 1 |>) i |> <| route_count ::= Z.succ |>) ≫= fun _ => mret (Some i)
             | None => mret None
             end
         end);
  match idx with
  | None => mret 0
  | Some i =>
      fmod (fun s => s <| route_table ::= alter (fun r =>
        r <| re_network := network |> <| re_mask := mask |> <| re_gateway := gateway |>
          <| re_prefix_len := u8 (prefix_len_from_mask mask) |> <| re_metric := metric |>) i |>) ≫= fun _ =>
      mret 1
  end.

Definition route_table_refresh_defaults : call unit :=
  route_table_clear ≫= fun _ =>
  s ← fget;
  route_table_set (Z.land (net_ip s) (net_mask s)) (net_mask s) 0 10 ≫= fun _ =>
  if negb (net_gw s =? 0) then route_table_set 0 0 (net_gw s) 100 ≫= fun _ => mret tt else mret tt.

(** The best entry so far: its gateway, prefix length and metric. *)
Definition route_step (dst_ip : Z) (best : option (Z * Z * Z)) (r : RouteEntry) : option (Z * Z * Z) :=
  if re_used r =? 0 then best
  else if negb (Z.land dst_ip (re_mask r) =? re_network r) then best
  else
    let better := match best with
                  | None => (-1 <? re_prefix_len r) || ((re_prefix_len r =? -1) && (re_metric r <? 0xFF))
                  | Some (_, best_prefix, best_metric) =>
                      (best_prefix <? re_prefix_len r) || ((re_prefix_len r =? best_prefix) && (re_metric r <? best_metric))
                  end in
    if better then Some (re_gateway r, re_prefix_len r, re_metric r) else best.

(** The next hop, or [None] for the result 0. *)
Definition route_lookup (dst_ip : Z) (s : Net) : option Z :=
  match fold_left (route_step dst_ip) (route_table s) None with
  | None => None
  | Some (gw, _, _) => Some (if negb (gw =? 0) then gw else dst_ip)
  end.

Definition net_route_next_hop (dst_ip : Z) (s : Net) : Z :=
  if (dst_ip =? 0) || (dst_ip =? 0xFFFFFFFF) then dst_ip
  else match route_lookup dst_ip s with Some next_hop => next_hop | None => dst_ip end.

(** ** Frames *)

Definition BROADCAST : list Z := replicate 6 0xFF.
Definition empty_frame : list Z := replicate (Z.to_nat 1514) 0.

Definition rtl8139_send_frame (frame : list Z) (len : Z) : call Z :=
  s ← fget;
  if (net_ready s =? 0) || (rtl_iobase s =? 0) then mret 0
  else if (len =? 0) || (1514 <? len) then mret 0
  else
    let slot := Z.to_nat (rtl_tx_slot s) in
    fmod (fun s => s <| rtl_tx_slot := Z.land (rtl_tx_slot s + 1) 3 |>) ≫= fun _ =>
    bytes ← rd_bytes frame 0 len;
    buf ← put 0 bytes (rtl_tx_buffer s !!! slot);
    fmod (fun s => s <| rtl_tx_buffer ::= <[slot := buf]> |> <| sent ::= (fun l => l ++ [slice 0 len buf]) |>) ≫= fun _ =>
    mret 1.

(** A frame is padded to 60 bytes. *)
Definition padded (frame_len : Z) : Z := if frame_len <? 60 then 60 else frame_len.

(** ** The ARP cache *)

Definition arp_cache_update (ip : Z) (mac : list Z) : call unit :=
  fmod (fun s => s <| arp_cache_ip := ip |> <| arp_cache_mac := mac |> <| arp_cache_valid := 1 |>).

(** The cached address, or [None] for the result 0. *)
Definition arp_cache_lookup (ip : Z) (s : Net) : option (list Z) :=
  if (arp_cache_valid s =? 0) || negb (arp_cache_ip s =? ip) then None else Some (arp_cache_mac s).

Definition net_send_arp_packet (op : Z) (dst_mac : list Z) (sender_ip target_ip : Z) (target_mac : option (list Z)) : call Z :=
  s ← fget;
  if net_ready s =? 0 then mret 0
  else
    frame ← puts [(0, dst_mac); (6, rtl_mac s); (12, be16_bytes ETH_TYPE_ARP); (14, be16_bytes ARP_HTYPE_ETHERNET);
                  (16, be16_bytes ARP_PTYPE_IPV4); (18, [6]); (19, [4]); (20, be16_bytes op); (22, rtl_mac s);
                  (28, be32_bytes sender_ip); (32, default (replicate 6 0) target_mac); (38, be32_bytes target_ip)]
                 (replicate 42 0);
    rtl8139_send_frame frame 42.

Definition net_send_arp_request (target_ip : Z) : call Z :=
  s ← fget; net_send_arp_packet ARP_OPER_REQUEST BROADCAST (net_ip s) target_ip None.

Definition net_send_arp_reply (requester_mac : list Z) (requester_ip : Z) : call Z :=
  s ← fget; net_send_arp_packet ARP_OPER_REPLY requester_mac (net_ip s) requester_ip (Some requester_mac).

(** The cached address of a host, or a request for it and the broadcast address. *)
Definition hw_address (ip : Z) : call (list Z) :=
  s ← fget;
  match arp_cache_lookup ip s with
  | Some mac => mret mac
  | None => net_send_arp_request ip ≫= fun _ => mret BROADCAST
  end.

(** ** IPv4 *)

(** The header of 20 bytes at offset 14, with the checksum still 0. *)
Definition ipv4_fields (s : Net) (dst_ip total_len ident flags_off ttl protocol : Z) : list (Z * list Z) :=
  [(14, [0x45]); (15, [0x00]); (16, be16_bytes total_len); (18, be16_bytes ident); (20, be16_bytes flags_off);
   (22, [ttl]); (23, [protocol]); (24, be16_bytes 0); (26, be32_bytes (net_ip s)); (30, be32_bytes dst_ip)].

(** The checksum of the header, stored in it. *)
Definition ipv4_checksum (header_len : Z) (frame : list Z) : call (list Z) :=
  h ← rd_bytes frame 14 header_len; put 24 (be16_bytes (internet_checksum h)) frame.

(** One IPv4 frame around a payload. *)
Definition ipv4_frame (dst_mac : list Z) (dst_ip ident flags_off ttl protocol : Z) (payload : list Z) : call Z :=
  s ← fget;
  let total_len := u16 (20 + Z.of_nat (length payload)) in
  let frame_len := u16 (14 + total_len) in
  frame ← puts ([(0, dst_mac); (6, rtl_mac s); (12, be16_bytes ETH_TYPE_IPV4)]
                ++ ipv4_fields s dst_ip total_len ident flags_off ttl protocol) empty_frame;
  frame ← ipv4_checksum 20 frame;
  frame ← put 34 payload frame;
  rtl8139_send_frame frame (padded frame_len).

(** The bytes a fragment may hold. *)
Definition MTU_PAYLOAD : Z := Z.land (IPV4_ETH_MTU - 20) (Z.lnot 7).

(** [while (offset < payload_len)]; [fuel] bounds the iterations. *)
Fixpoint fragment_loop (fuel : nat) (dst_mac : list Z) (dst_ip protocol : Z) (payload : list Z) (payload_len ttl ident offset : Z) : call Z :=
  match fuel with
  | O => fault
  | S fuel' =>
      if negb (offset <? payload_len) then mret 1
      else
        let remain := u16 (payload_len - offset) in
        let frag_payload := if MTU_PAYLOAD <? remain then MTU_PAYLOAD else remain in
        let frag_payload := if negb (frag_payload =? remain) then Z.land frag_payload (u16 (Z.lnot 7)) else frag_payload in
        if frag_payload =? 0 then mret 0
        else
          let flags_off := Z.land (offset / 8) 0x1FFF in
          let flags_off := if u16 (offset + frag_payload) <? payload_len then Z.lor flags_off 0x2000 else flags_off in
          bytes ← rd_bytes payload offset frag_payload;
          ok ← ipv4_frame dst_mac dst_ip ident flags_off ttl protocol bytes;
          if ok =? 0 then mret 0
          else fragment_loop fuel' dst_mac dst_ip protocol payload payload_len ttl ident (u16 (offset + frag_payload))
  end.

(** [payload] points to at least [payload_len] bytes. *)
Definition net_send_ipv4_raw (dst_ip protocol : Z) (payload : option (list Z)) (payload_len ttl ident : Z) : call Z :=
  s ← fget;
  match payload with
  | None => mret 0
  | Some payload =>
      if net_ready s =? 0 then mret 0
      else
        let next_hop := net_route_next_hop dst_ip s in
        dst_mac ← (if negb (dst_ip =? 0xFFFFFFFF) then hw_address next_hop else mret BROADCAST);
        if u16 (20 + payload_len) <=? IPV4_ETH_MTU then
          bytes ← rd_bytes payload 0 payload_len;
          ipv4_frame dst_mac dst_ip ident 0 ttl protocol bytes
        else fragment_loop (S (Z.to_nat (payload_len / 8))) dst_mac dst_ip protocol payload payload_len ttl ident 0
  end.

(** [ip_packet] points to the rest of the frame's buffer. *)
Definition net_forward_ipv4_packet (ip_packet : list Z) (total_len : Z) : call Z :=
  s ← fget;
  if (net_ready s =? 0) || (total_len <? 20) || (IPV4_ETH_MTU <? total_len) then mret 0
  else
    b0 ← rd ip_packet 0;
    let ihl := u8 (Z.land b0 0x0F * 4) in
    if (ihl <? 20) || (total_len <? ihl) then mret 0
    else
      ttl ← rd ip_packet 8;
      if ttl <=? 1 then mret 0
      else
        dst_ip ← read_be32 ip_packet 16;
        match route_lookup dst_ip s with
        | None => mret 0
        | Some next_hop =>
            dst_mac ← hw_address next_hop;
            bytes ← rd_bytes ip_packet 0 total_len;
            frame ← puts [(0, dst_mac); (6, rtl_mac s); (12, be16_bytes ETH_TYPE_IPV4); (14, bytes); (22, [u8 (ttl - 1)]);
                          (24, be16_bytes 0)] empty_frame;
            frame ← ipv4_checksum ihl frame;
            rtl8139_send_frame frame (padded (u16 (14 + total_len)))
        end.

(** [ipv4_tx_ident++]. *)
Definition next_ident : call Z := s ← fget; fmod (fun s => s <| ipv4_tx_ident := u16 (ipv4_tx_ident s + 1) |>) ≫= fun _ => mret (ipv4_tx_ident s).

Definition net_send_icmp_echo_reply (dst_ip : Z) (icmp_request : list Z) (icmp_len : Z) : call Z :=
  s ← fget;
  if net_ready s =? 0 then mret 0
  else if (icmp_len <? 8) || (IPV4_REASS_MAX_PAYLOAD <? icmp_len) then mret 0
  else
    bytes ← rd_bytes icmp_request 0 icmp_len;
    icmp ← puts [(0, bytes); (0, [ICMP_TYPE_ECHO_REPLY]); (1, [0x00]); (2, be16_bytes 0)] (zero_bytes IPV4_REASS_MAX_PAYLOAD);
    body ← rd_bytes icmp 0 icmp_len;
    icmp ← put 2 (be16_bytes (internet_checksum body)) icmp;
    ident ← next_ident;
    net_send_ipv4_raw dst_ip IP_PROTO_ICMP (Some icmp) icmp_len 64 ident.

(** ** TCP segments *)

Definition tcp_send_segment (dst_ip src_port dst_port seq ack flags : Z) (payload : option (list Z)) (payload_len : Z) : call Z :=
  s ← fget;
  if (net_ready s =? 0) || (1300 <? payload_len) then mret 0
  else
    let arp_target_ip := net_route_next_hop dst_ip s in
    dst_mac ← (if negb (dst_ip =? 0xFFFFFFFF) then hw_address arp_target_ip else mret BROADCAST);
    let tcp_len := u16 (20 + payload_len) in
    let ip_len := u16 (20 + tcp_len) in
    frame ← puts ([(0, dst_mac); (6, rtl_mac s); (12, be16_bytes ETH_TYPE_IPV4)]
                  ++ ipv4_fields s dst_ip ip_len (u16 (Z.land (tcp_iss_seed s) 0xFFFF)) 0 64 IP_PROTO_TCP) empty_frame;
    frame ← ipv4_checksum 20 frame;
    frame ← puts [(34, be16_bytes src_port); (36, be16_bytes dst_port); (38, be32_bytes seq); (42, be32_bytes ack);
                  (46, [u8 (Z.shiftl 5 4)]); (47, [flags]); (48, be16_bytes 4096); (50, be16_bytes 0); (52, be16_bytes 0)] frame;
    frame ← (match payload with
             | Some p => if 0 <? payload_len then bytes ← rd_bytes p 0 payload_len; put 54 bytes frame else mret frame
             | None => mret frame
             end);
    csum ← pseudo_sum (net_ip s) dst_ip IP_PROTO_TCP (at_ frame 34) tcp_len;
    frame ← put 50 (be16_bytes csum) frame;
    rtl8139_send_frame frame (padded (u16 (14 + ip_len))).

(** ** Bindings *)

Definition udp_bound (port : Z) (b : UdpBinding) : bool := negb (ub_used b =? 0) && (ub_port b =? port).
(** The index of the binding, or [None] for the result -1. *)
Definition udp_find_binding (port : Z) (s : Net) : option nat := find_idx (udp_bound port) (udp_bindings s).
Definition set_binding (i : nat) (f : UdpBinding -> UdpBinding) : call unit := fmod (fun s => s <| udp_bindings ::= alter f i |>).

Definition udp_alloc_binding (port : Z) : call (option nat) :=
  s ← fget;
  match udp_find_binding port s with
  | Some existing => mret (Some existing)
  | None =>
      match find_idx (fun b => ub_used b =? 0) (udp_bindings s) with
      | Some i =>
          set_binding i (fun b => b <| ub_used := 1 |> <| ub_port := port |> <| ub_head := 0 |> <| ub_tail := 0 |> <| ub_count := 0 |>
                                    <| ub_dropped := 0 |>) ≫= fun _ => mret (Some i)
      | None => mret None
      end
  end.

(** ** The receive queues *)

Definition udp_enqueue_packet (dst_port src_ip src_port : Z) (payload : list Z) (payload_len : Z) : call Z :=
  s ← fget;
  match udp_find_binding dst_port s with
  | None => mret 0
  | Some idx =>
      b ← elem (udp_bindings s) (Z.of_nat idx);
      if (UDP_MAX_PAYLOAD <? payload_len) || (UDP_QUEUE_DEPTH <=? ub_count b) then
        set_binding idx (fun b => b <| ub_dropped ::= up |>) ≫= fun _ => mret 0
      else
        slot ← elem (ub_queue b) (ub_tail b);
        bytes ← rd_bytes payload 0 payload_len;
        data ← put 0 bytes (up_data slot);
        let pkt := slot <| up_src_ip := src_ip |> <| up_src_port := src_port |> <| up_len := payload_len |> <| up_data := data |> in
        set_binding idx (fun _ =>
          b <| ub_queue ::= <[Z.to_nat (ub_tail b) := pkt]> |> <| ub_tail := (ub_tail b + 1) mod UDP_QUEUE_DEPTH |>
            <| ub_count := u16 (ub_count b + 1) |>) ≫= fun _ =>
        mret 1
  end.

(** ** Injected faults *)

Definition net_fault_prng_next : call Z :=
  fmod (fun s => s <| net_fault_prng_state := net_fault_prng_state s *u 1664525 +u 1013904223 |>) ≫= fun _ =>
  s ← fget; mret (net_fault_prng_state s).

Definition net_fault_should_apply (percent : Z) : call bool :=
  if percent =? 0 then mret false
  else if 100 <=? percent then mret true
  else x ← net_fault_prng_next; mret (x mod 100 <? percent).

Definition set_hold (f : UdpReorderHold -> UdpReorderHold) : call unit := fmod (fun s => s <| udp_reorder_hold ::= f |>).

Definition udp_enqueue_with_faults (dst_port src_ip src_port : Z) (payload : list Z) (payload_len : Z) : call Z :=
  s ← fget;
  lost ← net_fault_should_apply (net_fault_loss_percent s);
  if lost : bool then count_up (fun t => t <| injected_loss_frames ::= up |>) ≫= fun _ => mret 1
  else
    s ← fget;
    if negb (rh_valid (udp_reorder_hold s) =? 0) then
      ok ← udp_enqueue_packet dst_port src_ip src_port payload payload_len;
      if ok =? 0 then mret 0
      else
        s ← fget;
        let h := udp_reorder_hold s in
        ok ← udp_enqueue_packet (rh_dst_port h) (rh_src_ip h) (rh_src_port h) (rh_data h) (rh_len h);
        if ok =? 0 then mret 0
        else
          set_hold (fun h => h <| rh_valid := 0 |>) ≫= fun _ =>
          count_up (fun t => t <| injected_reorder_frames ::= up |>) ≫= fun _ => mret 1
    else
      held ← net_fault_should_apply (net_fault_reorder_percent s);
      if (held : bool) && (payload_len <=? UDP_MAX_PAYLOAD) then
        bytes ← rd_bytes payload 0 payload_len;
        s ← fget;
        data ← put 0 bytes (rh_data (udp_reorder_hold s));
        set_hold (fun h => h <| rh_valid := 1 |> <| rh_src_ip := src_ip |> <| rh_src_port := src_port |> <| rh_dst_port := dst_port |>
                             <| rh_len := payload_len |> <| rh_data := data |>) ≫= fun _ => mret 1
      else udp_enqueue_packet dst_port src_ip src_port payload payload_len.

Definition net_set_fault_injection (loss_percent reorder_percent : Z) : call unit :=
  let loss_percent := if 100 <? loss_percent then 100 else loss_percent in
  let reorder_percent := if 100 <? reorder_percent then 100 else reorder_percent in
  fmod (fun s => s <| net_fault_loss_percent := loss_percent |> <| net_fault_reorder_percent := reorder_percent |>) ≫= fun _ =>
  if (loss_percent =? 0) && (reorder_percent =? 0) then set_hold (fun h => h <| rh_valid := 0 |>) else mret tt.

Definition net_get_fault_injection (s : Net) : Z * Z := (net_fault_loss_percent s, net_fault_reorder_percent s).

(** ** Datagrams received *)

Definition malformed : call Z := net_count_malformed ≫= fun _ => mret 0.

Definition net_handle_udp_datagram (src_ip dst_ip : Z) (udp_packet : list Z) (udp_len : Z) : call Z :=
  if udp_len <? 8 then malformed
  else
    src_port ← read_be16 udp_packet 0;
    dst_port ← read_be16 udp_packet 2;
    header_len ← read_be16 udp_packet 4;
    checksum ← read_be16 udp_packet 6;
    if (header_len <? 8) || (udp_len <? header_len) then malformed
    else
      let payload_len := u16 (header_len - 8) in
      valid ← (if negb (checksum =? 0) then
                 if 1600 <? u16 (12 + header_len) then mret false
                 else v ← pseudo_sum src_ip dst_ip IP_PROTO_UDP udp_packet header_len; mret (v =? 0)
               else mret true);
      if negb valid then malformed
      else udp_enqueue_with_faults dst_port src_ip src_port (at_ udp_packet 8) payload_len.

(** ** The calls *)

Definition net_send_udp (dst_ip src_port dst_port : Z) (payload : list Z) (payload_len : Z) : call Z :=
  s ← fget;
  if net_ready s =? 0 then mret 0
  else if IPV4_REASS_MAX_PAYLOAD <? payload_len then mret 0
  else
    let udp_len := u16 (8 + payload_len) in
    bytes ← rd_bytes payload 0 payload_len;
    udp_packet ← puts [(0, be16_bytes src_port); (2, be16_bytes dst_port); (4, be16_bytes udp_len); (6, be16_bytes 0); (8, bytes)]
                      (zero_bytes (IPV4_REASS_MAX_PAYLOAD + 8));
    (if (dst_ip =? net_ip s) || (dst_ip =? 0x7F000001) || (dst_ip =? 0xFFFFFFFF)
     then udp_enqueue_with_faults dst_port (net_ip s) src_port payload payload_len ≫= fun _ => mret tt
     else mret tt) ≫= fun _ =>
    ident ← next_ident;
    net_send_ipv4_raw dst_ip IP_PROTO_UDP (Some udp_packet) udp_len 64 ident.

Definition net_udp_bind (port : Z) : call Z :=
  if port =? 0 then mret 0 else r ← udp_alloc_binding port; mret (Z.b2z (bool_decide (is_Some r))).

Definition net_udp_unbind (port : Z) : call Z :=
  s ← fget;
  match udp_find_binding port s with
  | None => mret 0
  | Some idx =>
      set_binding idx (fun b => b <| ub_used := 0 |> <| ub_port := 0 |> <| ub_head := 0 |> <| ub_tail := 0 |> <| ub_count := 0 |>
                                  <| ub_dropped := 0 |>) ≫= fun _ => mret 1
  end.

Definition net_udp_has_data (port : Z) (s : Net) : bool :=
  match udp_find_binding port s with Some idx => 0 <? ub_count (udp_bindings s !!! idx) | None => false end.

Definition net_udp_send (dst_ip src_port dst_port : Z) (payload : option (list Z)) (payload_len : Z) : call Z :=
  match payload with None => mret 0 | Some payload => net_send_udp dst_ip src_port dst_port payload payload_len end.

(** The bytes copied out, with the sender's address and port, or [None] for the result 0
    of a call that takes no packet.  [buf] is false for a null buffer. *)
Definition net_udp_recv (port : Z) (buf : bool) (max_len : Z) : call (option (Z * Z * list Z)) :=
  s ← fget;
  match udp_find_binding port s with
  | None => mret None
  | Some idx =>
      if negb buf || (max_len =? 0) then mret None
      else
        b ← elem (udp_bindings s) (Z.of_nat idx);
        if ub_count b =? 0 then mret None
        else
          pkt ← elem (ub_queue b) (ub_head b);
          let copy_len := if max_len <? up_len pkt then max_len else up_len pkt in
          bytes ← rd_bytes (up_data pkt) 0 copy_len;
          set_binding idx (fun _ => b <| ub_head := (ub_head b + 1) mod UDP_QUEUE_DEPTH |> <| ub_count := u16 (ub_count b - 1) |>) ≫= fun _ =>
          mret (Some (up_src_ip pkt, up_src_port pkt, bytes))
  end.
