(* ===== verification/NetTcp.v ===== *)
(** * TCP (kernel/net.c)

    The connection table, the segments received, the calls of the sockets, and the
    retransmission of unacknowledged segments. *)
From S2P Require Import Prelude Fault Bytes Buffers NetState NetSend.

(** ** Connections *)

Definition set_conn (i : nat) (f : TcpConn -> TcpConn) : call unit := fmod (fun s => s <| tcp_conns ::= alter f i |>).
(** [&tcp_conns[i]]; every use of the pointer reads the table again. *)
Definition get_conn (i : nat) : call TcpConn := s ← fget; elem (tcp_conns s) (Z.of_nat i).

(** The fields [tcp_alloc_conn] resets; the buffers keep their bytes. *)
Definition fresh_conn (c : TcpConn) : TcpConn :=
  {| c_used := 1; c_listening := 0; c_parent_listen := -1; c_accepted := 0; c_state := TCP_STATE_CLOSED; c_local_port := 0;
     c_remote_port := 0; c_remote_ip := 0; c_snd_una := 0; c_snd_nxt := 0; c_rcv_nxt := 0; c_rx_head := 0; c_rx_tail := 0;
     c_rx_count := 0; c_last_tx_tick := 0; c_last_tx_seq := 0; c_last_tx_ack := 0; c_last_tx_len := 0; c_last_tx_flags := 0;
     c_last_tx_retries := 0; c_waiting_ack := 0; c_last_tx_data := c_last_tx_data c; c_rx_queue := c_rx_queue c |}.

Definition tcp_alloc_conn : call (option nat) :=
  s ← fget;
  match find_idx (fun c => c_used c =? 0) (tcp_conns s) with
  | Some i => set_conn i fresh_conn ≫= fun _ => mret (Some i)
  | None => mret None
  end.

Definition flag (flags f : Z) : bool := negb (Z.land flags f =? 0).

Definition tcp_track_outbound (i : nat) (seq ack flags : Z) (payload : option (list Z)) (payload_len : Z) : call unit :=
  s ← fget;
  let waiting := flag flags TCP_FLAG_SYN || flag flags TCP_FLAG_FIN || (0 <? payload_len) in
  set_conn i (fun c => c <| c_last_tx_tick := tick s |> <| c_last_tx_seq := seq |> <| c_last_tx_ack := ack |>
                         <| c_last_tx_flags := flags |> <| c_last_tx_len := payload_len |> <| c_last_tx_retries := 0 |>
                         <| c_waiting_ack := Z.b2z waiting |>) ≫= fun _ =>
  match payload with
  | Some p =>
      if 0 <? payload_len then
        c ← get_conn i;
        bytes ← rd_bytes p 0 payload_len;
        data ← put 0 bytes (c_last_tx_data c);
        set_conn i (fun c => c <| c_last_tx_data := data |>)
      else mret tt
  | None => mret tt
  end.

Definition tcp_send_and_track (i : nat) (flags : Z) (payload : option (list Z)) (payload_len : Z) : call Z :=
  c ← get_conn i;
  ok ← tcp_send_segment (c_remote_ip c) (c_local_port c) (c_remote_port c) (c_snd_nxt c) (c_rcv_nxt c) flags payload payload_len;
  if ok =? 0 then mret 0
  else
    tcp_track_outbound i (c_snd_nxt c) (c_rcv_nxt c) flags payload payload_len ≫= fun _ =>
    (if flag flags TCP_FLAG_SYN || flag flags TCP_FLAG_FIN then set_conn i (fun c => c <| c_snd_nxt ::= up |>) else mret tt) ≫= fun _ =>
    set_conn i (fun c => c <| c_snd_nxt := c_snd_nxt c +u payload_len |>) ≫= fun _ =>
    mret 1.

Definition half_open (st : Z) : bool := (st =? TCP_STATE_SYN_SENT) || (st =? TCP_STATE_SYN_RCVD).

Definition tcp_retransmit_last (i : nat) : call Z :=
  c ← get_conn i;
  if (c_used c =? 0) || negb (c_listening c =? 0) || (c_waiting_ack c =? 0) then mret 0
  else
    let max_retries := if half_open (c_state c) then TCP_RETX_MAX + 2 else TCP_RETX_MAX in
    if max_retries <=? c_last_tx_retries c then
      count_up (fun t => t <| tcp_retransmit_failures ::= up |>) ≫= fun _ =>
      (if half_open (c_state c) || (c_state c =? TCP_STATE_CLOSING) then count_up (fun t => t <| tcp_half_open_cleanups ::= up |>)
       else mret tt) ≫= fun _ =>
      set_conn i (fun c => c <| c_used := 0 |> <| c_state := TCP_STATE_CLOSED |>) ≫= fun _ =>
      mret 0
    else
      ok ← tcp_send_segment (c_remote_ip c) (c_local_port c) (c_remote_port c) (c_last_tx_seq c) (c_last_tx_ack c) (c_last_tx_flags c)
                            (if 0 <? c_last_tx_len c then Some (c_last_tx_data c) else None) (c_last_tx_len c);
      if ok =? 0 then mret 0
      else
        s ← fget;
        set_conn i (fun c' => c' <| c_last_tx_tick := tick s |> <| c_last_tx_retries := u8 (c_last_tx_retries c + 1) |>) ≫= fun _ =>
        count_up (fun t => t <| tcp_retransmits ::= up |>) ≫= fun _ =>
        mret 1.

Definition tcp_find_listener (port : Z) (s : Net) : option nat :=
  find_idx (fun c => negb (c_used c =? 0) && negb (c_listening c =? 0) && (c_local_port c =? port)) (tcp_conns s).

Definition tcp_conn_of (remote_ip remote_port local_port : Z) (c : TcpConn) : bool :=
  negb ((c_used c =? 0) || negb (c_listening c =? 0))
  && ((c_remote_ip c =? remote_ip) && (c_remote_port c =? remote_port) && (c_local_port c =? local_port)
      && negb (c_state c =? TCP_STATE_CLOSED)).
Definition tcp_find_conn (remote_ip remote_port local_port : Z) (s : Net) : option nat :=
  find_idx (tcp_conn_of remote_ip remote_port local_port) (tcp_conns s).

(** ** Segments received *)

Definition tcp_queue_rx (i : nat) (payload : list Z) (len : Z) : call Z :=
  if len =? 0 then mret 1
  else
    c ← get_conn i;
    if (TCP_MAX_PAYLOAD <? len) || (TCP_QUEUE_DEPTH <=? c_rx_count c) then mret 0
    else
      seg ← elem (c_rx_queue c) (c_rx_tail c);
      bytes ← rd_bytes payload 0 len;
      data ← put 0 bytes (ts_data seg);
      set_conn i (fun _ => c <| c_rx_queue ::= <[Z.to_nat (c_rx_tail c) := Build_TcpSegment len data]> |>
                             <| c_rx_tail := (c_rx_tail c + 1) mod TCP_QUEUE_DEPTH |> <| c_rx_count := u16 (c_rx_count c + 1) |>) ≫= fun _ =>
      mret 1.

Definition tcp_checksum_valid (src_ip dst_ip : Z) (tcp : list Z) (tcp_len : Z) : call bool :=
  if tcp_len <? 20 then mret false
  else if 1600 <? u16 (12 + tcp_len) then mret false
  else v ← pseudo_sum src_ip dst_ip IP_PROTO_TCP tcp tcp_len; mret (v =? 0).

(** An acknowledgement of everything received, whose result is not used. *)
Definition send_ack (i : nat) : call unit :=
  c ← get_conn i;
  tcp_send_segment (c_remote_ip c) (c_local_port c) (c_remote_port c) (c_snd_nxt c) (c_rcv_nxt c) TCP_FLAG_ACK None 0 ≫= fun _ => mret tt.

(** A connection request to a port that listens. *)
Definition tcp_accept_syn (listener : nat) (src_ip src_port dst_port seq : Z) : call Z :=
  child ← tcp_alloc_conn;
  match child with
  | None => mret 0
  | Some i =>
      s ← fget;
      set_conn i (fun c => c <| c_listening := 0 |> <| c_parent_listen := Z.of_nat listener |> <| c_accepted := 0 |>
                             <| c_state := TCP_STATE_SYN_RCVD |> <| c_local_port := dst_port |> <| c_remote_port := src_port |>
                             <| c_remote_ip := src_ip |> <| c_rcv_nxt := seq +u 1 |> <| c_snd_una := tcp_iss_seed s |>
                             <| c_snd_nxt := tcp_iss_seed s +u 1 |>) ≫= fun _ =>
      fmod (fun s => s <| tcp_iss_seed := tcp_iss_seed s +u 0x101 |>) ≫= fun _ =>
      c ← get_conn i;
      ok ← tcp_send_segment (c_remote_ip c) (c_local_port c) (c_remote_port c) (c_snd_una c) (c_rcv_nxt c)
                            (Z.lor TCP_FLAG_SYN TCP_FLAG_ACK) None 0;
      if ok =? 0 then set_conn i (fun c => c <| c_used := 0 |>) ≫= fun _ => mret 0
      else
        s ← fget;
        set_conn i (fun c => c <| c_last_tx_tick := tick s |> <| c_last_tx_seq := c_snd_una c |> <| c_last_tx_ack := c_rcv_nxt c |>
                               <| c_last_tx_flags := Z.lor TCP_FLAG_SYN TCP_FLAG_ACK |> <| c_last_tx_len := 0 |>
                               <| c_last_tx_retries := 0 |> <| c_waiting_ack := 1 |>) ≫= fun _ =>
        mret 1
  end.

(** The last acknowledgement of a connection that closes. *)
Definition close_acked (i : nat) (ack : Z) : call unit :=
  set_conn i (fun c => c <| c_snd_una := ack |> <| c_waiting_ack := 0 |> <| c_state := TCP_STATE_CLOSED |> <| c_used := 0 |>).

(** The state CLOSING; [None] when the segment is examined further. *)
Definition tcp_on_closing (i : nat) (seq ack flags : Z) : call (option Z) :=
  c ← get_conn i;
  if negb (c_state c =? TCP_STATE_CLOSING) then mret None
  else if flag flags TCP_FLAG_ACK && (c_snd_nxt c <=? ack) then close_acked i ack ≫= fun _ => mret (Some 1)
  else if flag flags TCP_FLAG_FIN then
    (if seq =? c_rcv_nxt c then set_conn i (fun c => c <| c_rcv_nxt ::= up |>) else mret tt) ≫= fun _ =>
    send_ack i ≫= fun _ =>
    c ← get_conn i;
    (if flag flags TCP_FLAG_ACK && (c_snd_nxt c <=? ack) then close_acked i ack else mret tt) ≫= fun _ =>
    mret (Some 1)
  else mret None.

(** The end of the handshake, on either side. *)
Definition tcp_on_handshake (i : nat) (seq ack flags : Z) : call (option Z) :=
  c ← get_conn i;
  if (c_state c =? TCP_STATE_SYN_SENT) && (flag flags TCP_FLAG_SYN && flag flags TCP_FLAG_ACK && (ack =? c_snd_nxt c)) then
    set_conn i (fun c => c <| c_rcv_nxt := seq +u 1 |> <| c_snd_una := ack |> <| c_state := TCP_STATE_ESTABLISHED |>
                           <| c_waiting_ack := 0 |>) ≫= fun _ =>
    send_ack i ≫= fun _ => mret (Some 1)
  else if (c_state c =? TCP_STATE_SYN_RCVD) && (flag flags TCP_FLAG_ACK && (ack =? c_snd_nxt c)) then
    set_conn i (fun c => c <| c_snd_una := ack |> <| c_state := TCP_STATE_ESTABLISHED |> <| c_waiting_ack := 0 |>) ≫= fun _ =>
    mret (Some 1)
  else mret None.

(** The data of a segment; true when a fault is injected and the segment is lost. *)
Definition tcp_on_data (i : nat) (seq : Z) (payload : list Z) (len : Z) : call bool :=
  if negb (0 <? len) then mret false
  else
    s ← fget;
    lost ← net_fault_should_apply (net_fault_loss_percent s);
    if lost : bool then count_up (fun t => t <| injected_loss_frames ::= up |>) ≫= fun _ => send_ack i ≫= fun _ => mret true
    else
      c ← get_conn i;
      (if seq =? c_rcv_nxt c then
         ok ← tcp_queue_rx i payload len;
         if negb (ok =? 0) then set_conn i (fun c => c <| c_rcv_nxt := c_rcv_nxt c +u len |>) else mret tt
       else mret tt) ≫= fun _ =>
      send_ack i ≫= fun _ => mret false.

(** The states ESTABLISHED and CLOSE_WAIT. *)
Definition tcp_on_open (i : nat) (seq ack flags : Z) (payload : list Z) (len : Z) : call Z :=
  (if flag flags TCP_FLAG_ACK then
     set_conn i (fun c => if c_snd_una c <? ack then
                            let c' := c <| c_snd_una := ack |> in
                            if c_snd_nxt c <=? ack then c' <| c_waiting_ack := 0 |> else c'
                          else c)
   else mret tt) ≫= fun _ =>
  lost ← tcp_on_data i seq payload len;
  if lost : bool then mret 1
  else if flag flags TCP_FLAG_FIN then
    c ← get_conn i;
    (if seq =? c_rcv_nxt c then set_conn i (fun c => c <| c_rcv_nxt ::= up |>) else mret tt) ≫= fun _ =>
    set_conn i (fun c => c <| c_state := TCP_STATE_CLOSE_WAIT |>) ≫= fun _ =>
    send_ack i ≫= fun _ => mret 1
  else mret 1.

Definition net_handle_tcp_segment (src_ip dst_ip : Z) (tcp : list Z) (tcp_len : Z) : call Z :=
  if tcp_len <? 20 then mret 0
  else
    valid ← tcp_checksum_valid src_ip dst_ip tcp tcp_len;
    if negb (valid : bool) then malformed
    else
      src_port ← read_be16 tcp 0;
      dst_port ← read_be16 tcp 2;
      seq ← read_be32 tcp 4;
      ack ← read_be32 tcp 8;
      b12 ← rd tcp 12;
      flags ← rd tcp 13;
      let hdr_len := u16 (u8 (Z.shiftr b12 4) * 4) in
      if (hdr_len <? 20) || (tcp_len <? hdr_len) then mret 0
      else
        let seg_payload_len := u16 (tcp_len - hdr_len) in
        s ← fget;
        match tcp_find_conn src_ip src_port dst_port s with
        | None =>
            match tcp_find_listener dst_port s with
            | Some listener =>
                if flag flags TCP_FLAG_SYN && negb (flag flags TCP_FLAG_ACK) then tcp_accept_syn listener src_ip src_port dst_port seq
                else mret 0
            | None => mret 0
            end
        | Some i =>
            if flag flags TCP_FLAG_RST then
              count_up (fun t => t <| tcp_reset_events ::= up |>) ≫= fun _ =>
              set_conn i (fun c => c <| c_state := TCP_STATE_CLOSED |> <| c_used := 0 |>) ≫= fun _ => mret 1
            else
              r ← tcp_on_closing i seq ack flags;
              match r with
              | Some r => mret r
              | None =>
                  r ← tcp_on_handshake i seq ack flags;
                  match r with
                  | Some r => mret r
                  | None =>
                      c ← get_conn i;
                      if (c_state c =? TCP_STATE_ESTABLISHED) || (c_state c =? TCP_STATE_CLOSE_WAIT) then
                        tcp_on_open i seq ack flags (at_ tcp hdr_len) seg_payload_len
                      else mret 0
                  end
              end
        end.

(** ** The calls *)

Definition net_tcp_listen (port : Z) : call Z :=
  s ← fget;
  if (port =? 0) || bool_decide (is_Some (tcp_find_listener port s)) then mret (-1)
  else
    idx ← tcp_alloc_conn;
    match idx with
    | None => mret (-1)
    | Some i =>
        set_conn i (fun c => c <| c_listening := 1 |> <| c_state := TCP_STATE_LISTEN |> <| c_local_port := port |> <| c_accepted := 1 |>) ≫= fun _ =>
        mret (Z.of_nat i)
    end.

Definition net_tcp_unlisten (port : Z) : call Z :=
  s ← fget;
  match tcp_find_listener port s with
  | None => mret 0
  | Some i => set_conn i (fun c => c <| c_used := 0 |>) ≫= fun _ => mret 1
  end.

(** A child of the listener that is established and not yet accepted. *)
Definition acceptable (listener : nat) (c : TcpConn) : bool :=
  negb ((c_used c =? 0) || negb (c_listening c =? 0))
  && ((c_parent_listen c =? Z.of_nat listener) && (c_state c =? TCP_STATE_ESTABLISHED) && (c_accepted c =? 0)).

Definition net_tcp_accept_ready (listen_port : Z) (s : Net) : bool :=
  match tcp_find_listener listen_port s with
  | None => false
  | Some listener => existsb (acceptable listener) (tcp_conns s)
  end.

Definition net_tcp_connect (dst_ip dst_port src_port : Z) : call Z :=
  if (dst_ip =? 0) || (dst_port =? 0) || (src_port =? 0) then mret (-1)
  else
    idx ← tcp_alloc_conn;
    match idx with
    | None => mret (-1)
    | Some i =>
        s ← fget;
        set_conn i (fun c => c <| c_listening := 0 |> <| c_parent_listen := -1 |> <| c_accepted := 1 |> <| c_state := TCP_STATE_SYN_SENT |>
                               <| c_local_port := src_port |> <| c_remote_port := dst_port |> <| c_remote_ip := dst_ip |>
                               <| c_snd_una := tcp_iss_seed s |> <| c_snd_nxt := tcp_iss_seed s +u 1 |> <| c_rcv_nxt := 0 |>) ≫= fun _ =>
        fmod (fun s => s <| tcp_iss_seed := tcp_iss_seed s +u 0x101 |>) ≫= fun _ =>
        c ← get_conn i;
        ok ← tcp_send_segment dst_ip src_port dst_port (c_snd_una c) 0 TCP_FLAG_SYN None 0;
        if ok =? 0 then set_conn i (fun c => c <| c_used := 0 |>) ≫= fun _ => mret (-1)
        else
          s ← fget;
          set_conn i (fun c => c <| c_last_tx_tick := tick s |> <| c_last_tx_seq := c_snd_una c |> <| c_last_tx_ack := 0 |>
                                 <| c_last_tx_len := 0 |> <| c_last_tx_flags := TCP_FLAG_SYN |> <| c_last_tx_retries := 0 |>
                                 <| c_waiting_ack := 1 |>) ≫= fun _ =>
          mret (Z.of_nat i)
    end.

(** The connection with its peer, or [None] for the result -1. *)
Definition net_tcp_accept (listen_port : Z) : call (option (Z * Z * Z)) :=
  s ← fget;
  match tcp_find_listener listen_port s with
  | None => mret None
  | Some listener =>
      match find_idx (acceptable listener) (tcp_conns s) with
      | None => mret None
      | Some i =>
          set_conn i (fun c => c <| c_accepted := 1 |>) ≫= fun _ =>
          c ← get_conn i; mret (Some (Z.of_nat i, c_remote_ip c, c_remote_port c))
      end
  end.

Definition valid_id (conn_id : Z) : bool := negb ((conn_id <? 0) || (Z.of_nat TCP_MAX_CONNS <=? conn_id)).
(** A predicate on the connection with that number. *)
Definition conn_is (p : TcpConn -> bool) (conn_id : Z) (s : Net) : bool :=
  valid_id conn_id && (let c := tcp_conns s !!! Z.to_nat conn_id in negb (c_used c =? 0) && (c_listening c =? 0) && p c).
Definition net_tcp_is_established : Z -> Net -> bool := conn_is (fun c => c_state c =? TCP_STATE_ESTABLISHED).
Definition net_tcp_can_recv : Z -> Net -> bool := conn_is (fun c => 0 <? c_rx_count c).
Definition net_tcp_can_send : Z -> Net -> bool := conn_is (fun c => c_state c =? TCP_STATE_ESTABLISHED).

Definition net_tcp_send (conn_id : Z) (payload : option (list Z)) (payload_len : Z) : call Z :=
  match payload with
  | None => mret 0
  | Some _ =>
      if negb (valid_id conn_id) || (payload_len =? 0) then mret 0
      else
        let i := Z.to_nat conn_id in
        c ← get_conn i;
        if (c_used c =? 0) || negb (c_listening c =? 0) || negb (c_state c =? TCP_STATE_ESTABLISHED) then mret 0
        else
          let payload_len := if TCP_MAX_PAYLOAD <? payload_len then TCP_MAX_PAYLOAD else payload_len in
          ok ← tcp_send_and_track i (Z.lor TCP_FLAG_ACK TCP_FLAG_PSH) payload payload_len;
          if ok =? 0 then mret 0 else mret payload_len
  end.

(** The bytes copied out; no byte stands for the result 0. *)
Definition net_tcp_recv (conn_id : Z) (buf : bool) (max_len : Z) : call (list Z) :=
  if negb (valid_id conn_id) || negb buf || (max_len =? 0) then mret []
  else
    let i := Z.to_nat conn_id in
    c ← get_conn i;
    if (c_used c =? 0) || negb (c_listening c =? 0) || (c_rx_count c =? 0) then mret []
    else
      seg ← elem (c_rx_queue c) (c_rx_head c);
      let copy_len := if max_len <? ts_len seg then max_len else ts_len seg in
      bytes ← rd_bytes (ts_data seg) 0 copy_len;
      set_conn i (fun _ => c <| c_rx_head := (c_rx_head c + 1) mod TCP_QUEUE_DEPTH |> <| c_rx_count := u16 (c_rx_count c - 1) |>) ≫= fun _ =>
      mret bytes.

Definition net_tcp_close (conn_id : Z) : call Z :=
  if negb (valid_id conn_id) then mret 0
  else
    let i := Z.to_nat conn_id in
    c ← get_conn i;
    if c_used c =? 0 then mret 0
    else
      let drop_it := set_conn i (fun c => c <| c_used := 0 |> <| c_state := TCP_STATE_CLOSED |>) ≫= fun _ => mret 1 in
      if negb (c_listening c =? 0) then drop_it
      else if (c_state c =? TCP_STATE_ESTABLISHED) || (c_state c =? TCP_STATE_CLOSE_WAIT) then
        ok ← tcp_send_and_track i (Z.lor TCP_FLAG_FIN TCP_FLAG_ACK) None 0;
        if negb (ok =? 0) then set_conn i (fun c => c <| c_state := TCP_STATE_CLOSING |>) ≫= fun _ => mret 1 else drop_it
      else drop_it.

(** The time a connection waits for its next acknowledgement. *)
Definition retx_timeout (c : TcpConn) : Z := u32 (Z.shiftl TCP_RETX_TICKS (if 4 <? c_last_tx_retries c then 4 else c_last_tx_retries c)).

Definition poll_conn (i : nat) : call Z :=
  c ← get_conn i;
  if (c_used c =? 0) || negb (c_listening c =? 0) || (c_waiting_ack c =? 0) then mret 0
  else
    s ← fget;
    if retx_timeout c <=? tick s -u c_last_tx_tick c then
      r ← tcp_retransmit_last i; mret (if negb (r =? 0) then 1 else 0)
    else mret 0.

(** [for (int i = lo; i < lo + n; i++)]; the number of segments sent again. *)
Fixpoint poll_from (lo n : nat) (retransmits : Z) : call Z :=
  match n with
  | O => mret retransmits
  | Datatypes.S n' => r ← poll_conn lo; poll_from (Datatypes.S lo) n' (retransmits + r)
  end.
Definition net_tcp_poll : call Z := poll_from 0 TCP_MAX_CONNS 0.
