(* ===== verification/NetRecv.v ===== *)
(** * Receiving (kernel/net.c)

    Reassembly of IPv4 fragments, the handlers of the frame types, the ring of the
    network card, and the configuration of the stack. *)
From S2P Require Import Prelude Fault Bytes Buffers NetState NetSend NetTcp.

(** ** Reassembly *)

Definition set_slot (i : nat) (f : Ipv4ReassSlot -> Ipv4ReassSlot) : call unit := fmod (fun s => s <| ipv4_reass ::= alter f i |>).
Definition get_slot (i : nat) : call Ipv4ReassSlot := s ← fget; elem (ipv4_reass s) (Z.of_nat i).

Definition gc_slot (now : Z) (r : Ipv4ReassSlot) : Ipv4ReassSlot :=
  if rs_used r =? 0 then r else if IPV4_REASS_TIMEOUT_TICKS <? now -u rs_last_tick r then r <| rs_used := 0 |> else r.
Definition ipv4_reassembly_gc : call unit := fmod (fun s => s <| ipv4_reass ::= map (gc_slot (tick s)) |>).

Definition PRESENT_BYTES : Z := (IPV4_REASS_MAX_PAYLOAD / 8 + 7) / 8.
Definition block_bit (block_idx : Z) : Z := u8 (Z.shiftl 1 (Z.land block_idx 7)).

Definition ipv4_reass_present_get (present : list Z) (block_idx : Z) : bool :=
  let byte_idx := Z.shiftr block_idx 3 in
  if PRESENT_BYTES <=? byte_idx then false else negb (Z.land present.[byte_idx] (block_bit block_idx) =? 0).

Definition ipv4_reass_present_set (present : list Z) (block_idx : Z) : list Z :=
  let byte_idx := Z.shiftr block_idx 3 in
  if PRESENT_BYTES <=? byte_idx then present
  else <[Z.to_nat byte_idx := u8 (Z.lor present.[byte_idx] (block_bit block_idx))]> present.

(** [for (b = first; b < last; b++)]. *)
Definition blocks (first last : Z) : list Z := seqZ first (last - first).
Definition present_set_range (first last : Z) (present : list Z) : list Z := fold_left ipv4_reass_present_set (blocks first last) present.

Definition same_packet (src_ip dst_ip ident proto : Z) (r : Ipv4ReassSlot) : bool :=
  (rs_src_ip r =? src_ip) && (rs_dst_ip r =? dst_ip) && (rs_ident r =? ident) && (rs_proto r =? proto).

(** The slot of the packet, else the first free one, else the oldest. *)
Fixpoint reass_scan (same : Ipv4ReassSlot -> bool) (l : list Ipv4ReassSlot) (i : nat) (free : option nat) (oldest_tick : Z)
    (oldest : option nat) : nat :=
  match l with
  | [] => match free with Some j => j | None => default O oldest end
  | r :: l' =>
      if rs_used r =? 0 then reass_scan same l' (S i) (match free with Some j => Some j | None => Some i end) oldest_tick oldest
      else if same r then i
      else if rs_last_tick r <? oldest_tick then reass_scan same l' (S i) free (rs_last_tick r) (Some i)
      else reass_scan same l' (S i) free oldest_tick oldest
  end.

Definition start_packet (src_ip dst_ip ident proto : Z) (r : Ipv4ReassSlot) : Ipv4ReassSlot :=
  r <| rs_used := 1 |> <| rs_src_ip := src_ip |> <| rs_dst_ip := dst_ip |> <| rs_ident := ident |> <| rs_proto := proto |>
    <| rs_header_len := 0 |> <| rs_have_first := 0 |> <| rs_total_known := 0 |> <| rs_total_payload_len := 0 |>
    <| rs_present := replicate (Z.to_nat PRESENT_BYTES) 0 |>.

(** A fragment stored in its slot. *)
Definition store_fragment (i : nat) (frag_offset : Z) (more_frags : bool) (ip_header : list Z) (header_len : Z)
    (payload : list Z) (payload_len : Z) : call unit :=
  (if frag_offset =? 0 then
     r ← get_slot i;
     bytes ← rd_bytes ip_header 0 header_len;
     header ← put 0 bytes (rs_header r);
     set_slot i (fun r => r <| rs_header_len := header_len |> <| rs_have_first := 1 |> <| rs_header := header |>)
   else mret tt) ≫= fun _ =>
  (if 0 <? payload_len then
     r ← get_slot i;
     bytes ← rd_bytes payload 0 payload_len;
     data ← put frag_offset bytes (rs_payload r);
     let first_block := u16 (frag_offset / 8) in
     let last_block := u16 (u32 (frag_offset + payload_len + 7) / 8) in
     set_slot i (fun r => r <| rs_payload := data |> <| rs_present ::= present_set_range first_block last_block |>)
   else mret tt) ≫= fun _ =>
  if negb more_frags then
    set_slot i (fun r => r <| rs_total_known := 1 |> <| rs_total_payload_len := u16 (frag_offset + payload_len) |>)
  else mret tt.

Definition complete (r : Ipv4ReassSlot) : bool :=
  negb (rs_have_first r =? 0) && negb (rs_total_known r =? 0)
  && forallb (ipv4_reass_present_get (rs_present r)) (blocks 0 (u16 ((rs_total_payload_len r + 7) / 8))).

(** The packet put together, in the caller's buffer. *)
Definition assemble (r : Ipv4ReassSlot) : call (list Z) :=
  header ← rd_bytes (rs_header r) 0 (rs_header_len r);
  out ← puts [(0, header); (2, be16_bytes (u16 (rs_header_len r + rs_total_payload_len r))); (6, be16_bytes 0); (10, be16_bytes 0)]
             (zero_bytes (IPV4_MAX_HEADER + IPV4_REASS_MAX_PAYLOAD));
  h ← rd_bytes out 0 (rs_header_len r);
  out ← put 10 (be16_bytes (internet_checksum h)) out;
  body ← rd_bytes (rs_payload r) 0 (rs_total_payload_len r);
  put (rs_header_len r) body out.

(** The reassembled packet and its length, or [None] for the result 0. *)
Definition ipv4_reassemble_packet (src_ip dst_ip proto ident frag_off_flags : Z) (ip_header : list Z) (header_len : Z)
    (payload : list Z) (payload_len : Z) : call (option (list Z * Z)) :=
  let frag_offset := u16 (u16 (Z.land frag_off_flags 0x1FFF) * 8) in
  let more_frags := flag frag_off_flags 0x2000 in
  if (header_len <? 20) || (IPV4_MAX_HEADER <? header_len) then mret None
  else if IPV4_REASS_MAX_PAYLOAD <? frag_offset +u payload_len then mret None
  else
    ipv4_reassembly_gc ≫= fun _ =>
    s ← fget;
    let i := reass_scan (same_packet src_ip dst_ip ident proto) (ipv4_reass s) 0 None 0xFFFFFFFF None in
    set_slot i (fun r =>
      let r := if (rs_used r =? 0) || negb (same_packet src_ip dst_ip ident proto r) then start_packet src_ip dst_ip ident proto r else r in
      r <| rs_last_tick := tick s |>) ≫= fun _ =>
    store_fragment i frag_offset more_frags ip_header header_len payload payload_len ≫= fun _ =>
    r ← get_slot i;
    if negb (complete r) then mret None
    else
      out ← assemble r;
      set_slot i (fun r => r <| rs_used := 0 |>) ≫= fun _ =>
      mret (Some (out, u16 (rs_header_len r + rs_total_payload_len r))).

(** ** Frames received *)

(** A packet for this host, whole in the buffer [ip]. *)
Definition ipv4_deliver (ip : list Z) (header_len total_len protocol src_ip dst_ip : Z) : call Z :=
  let len := u16 (total_len - header_len) in
  let payload := at_ ip header_len in
  if protocol =? IP_PROTO_ICMP then
    if len <? 8 then mret 0
    else
      b0 ← rd payload 0;
      echo ← (if b0 =? ICMP_TYPE_ECHO_REQUEST then b1 ← rd payload 1; mret (b1 =? 0) else mret false);
      if echo : bool then net_send_icmp_echo_reply src_ip payload len else mret 1
  else if protocol =? IP_PROTO_UDP then
    if len <? 8 then mret 0 else net_handle_udp_datagram src_ip dst_ip payload len
  else if protocol =? IP_PROTO_TCP then
    if len <? 20 then mret 0 else net_handle_tcp_segment src_ip dst_ip payload len
  else mret 1.

(** An address of this host. *)
Definition for_us (dst_ip : Z) (s : Net) : bool := (dst_ip =? net_ip s) || (dst_ip =? 0xFFFFFFFF).

Definition net_handle_ipv4_frame (frame : list Z) (len : Z) : call Z :=
  if len <? 34 then malformed
  else
    ipv4_reassembly_gc ≫= fun _ =>
    version_ihl ← rd frame 14;
    if negb (Z.shiftr version_ihl 4 =? 4) then mret 0
    else
      let header_len := u16 (Z.land version_ihl 0x0F * 4) in
      if (header_len <? 20) || (60 <? header_len) || (len <? u16 (14 + header_len)) then malformed
      else
        total_len ← read_be16 frame 16;
        if (total_len <? header_len) || (len <? u16 (14 + total_len)) then malformed
        else
          header ← rd_bytes frame 14 header_len;
          if negb (internet_checksum header =? 0) then malformed
          else
            protocol ← rd frame 23;
            src_ip ← read_be32 frame 26;
            dst_ip ← read_be32 frame 30;
            ident ← read_be16 frame 18;
            frag_off_flags ← read_be16 frame 20;
            src_mac ← rd_bytes frame 6 6;
            arp_cache_update src_ip src_mac ≫= fun _ =>
            s ← fget;
            if negb (for_us dst_ip s) then net_forward_ipv4_packet (at_ frame 14) total_len
            else if negb (Z.land frag_off_flags 0x3FFF =? 0) then
              r ← ipv4_reassemble_packet src_ip dst_ip protocol ident frag_off_flags (at_ frame 14) (u8 header_len)
                    (at_ frame (14 + header_len)) (u16 (total_len - header_len));
              match r with
              | None => mret 1
              | Some (ip, assembled_len) =>
                  version_ihl ← rd ip 0;
                  let header_len := u16 (Z.land version_ihl 0x0F * 4) in
                  if assembled_len <? header_len then mret 0
                  else
                    protocol ← rd ip 9;
                    src_ip ← read_be32 ip 12;
                    dst_ip ← read_be32 ip 16;
                    s ← fget;
                    if negb (for_us dst_ip s) then mret 1
                    else ipv4_deliver ip header_len assembled_len protocol src_ip dst_ip
              end
            else ipv4_deliver (at_ frame 14) header_len total_len protocol src_ip dst_ip.

Definition net_handle_arp_frame (frame : list Z) (len : Z) : call Z :=
  if len <? 42 then malformed
  else
    htype ← read_be16 frame 14;
    ptype ← read_be16 frame 16;
    oper ← read_be16 frame 20;
    hlen ← rd frame 18;
    plen ← rd frame 19;
    if negb (htype =? ARP_HTYPE_ETHERNET) || negb (ptype =? ARP_PTYPE_IPV4) || negb (hlen =? 6) || negb (plen =? 4) then mret 0
    else
      sender_mac ← rd_bytes frame 22 6;
      sender_ip ← read_be32 frame 28;
      target_ip ← read_be32 frame 38;
      arp_cache_update sender_ip sender_mac ≫= fun _ =>
      s ← fget;
      if (oper =? ARP_OPER_REQUEST) && (target_ip =? net_ip s) then net_send_arp_reply sender_mac sender_ip ≫= fun _ => mret 1
      else mret 1.

(** [frame] is the buffer, of which the first [len] bytes were received. *)
Definition net_handle_eth_frame (frame : list Z) (len : Z) : call Z :=
  if len <? 14 then count_up (fun t => t <| dropped_frames ::= up |>) ≫= fun _ => mret 0
  else
    count_up (fun t => t <| total_bytes := total_bytes t +u len |>) ≫= fun _ =>
    ethertype ← read_be16 frame 12;
    net_count_ethertype ethertype ≫= fun _ =>
    if ethertype =? ETH_TYPE_IPV4 then net_handle_ipv4_frame frame len
    else if ethertype =? ETH_TYPE_ARP then net_handle_arp_frame frame len
    else mret 1.

(** ** The ring of the card *)

(** What the card shows at the [n]-th look: its write offset (register CBR) and the
    bytes of the ring; and what the frame buffer on the stack holds before the copy. *)
Record Card := { cbr : nat -> Z; rtl_rx_buffer : nat -> list Z; stack_frame : nat -> list Z }.

Definition RTL_RX_BUFFER_MASK : Z := 8191.
Definition FRAME_BUFFER : Z := 2048.

Definition copy_ring_bytes (ring : list Z) (offset len : Z) : list Z :=
  map (fun i => ring.[Z.land (u32 (offset + i)) RTL_RX_BUFFER_MASK]) (seqZ 0 len).

(** One iteration; true when a frame was handled. *)
Definition rx_one (card : Card) (guard : nat) : call bool :=
  s ← fget;
  let hw_offset := Z.land (cbr card guard) RTL_RX_BUFFER_MASK in
  if rtl_rx_offset s =? hw_offset then mret false
  else
    let ring := rtl_rx_buffer card guard in
    let hdr := copy_ring_bytes ring (rtl_rx_offset s) 4 in
    let status := Bytes.read_le16 hdr 0 in
    let pkt_len := Bytes.read_le16 hdr 2 in
    if (Z.land status 1 =? 0) || (pkt_len <? 4) || (u16 (FRAME_BUFFER + 4) <? pkt_len) then
      count_up (fun t => t <| dropped_frames ::= up |>) ≫= fun _ => mret false
    else
      let frame_len := pkt_len -u 4 in
      let frame_len := if FRAME_BUFFER <? frame_len then FRAME_BUFFER else frame_len in
      frame ← put 0 (copy_ring_bytes ring (Z.land (u32 (rtl_rx_offset s + 4)) RTL_RX_BUFFER_MASK) frame_len) (stack_frame card guard);
      net_handle_eth_frame frame (u16 frame_len) ≫= fun _ =>
      fmod (fun t => t <| rtl_rx_offset :=
        Z.land (Z.land (u32 (rtl_rx_offset s + pkt_len + 4 + 3)) (u32 (Z.lnot 3))) RTL_RX_BUFFER_MASK |>) ≫= fun _ =>
      mret true.

(** [while (guard < max_packets)]. *)
Fixpoint rx_loop (card : Card) (n guard : nat) (processed : Z) : call Z :=
  match n with
  | O => mret processed
  | S n' => go ← rx_one card guard; if go : bool then rx_loop card n' (S guard) (processed + 1) else mret processed
  end.

Definition net_rx_poll_budget (card : Card) (max_packets : Z) : call Z :=
  s ← fget;
  if (net_ready s =? 0) || (rtl_iobase s =? 0) then mret 0 else rx_loop card (Z.to_nat max_packets) 0 0.

Definition net_rx_poll (card : Card) : call Z :=
  s ← fget;
  processed ← net_rx_poll_budget card (net_rx_poll_budget_cfg s);
  s ← fget;
  (if net_rx_poll_budget_cfg s <=? processed then count_up (fun t => t <| coalesced_batches ::= up |>) else mret tt) ≫= fun _ =>
  mret processed.

Definition RTL_INT_MASK : Z := 0x1F.
(** The receive bits: received, error, overflow. *)
Definition RTL_INT_RX : Z := 0x13.

(** [isr] is the interrupt register of the card. *)
Definition net_irq_handler (card : Card) (isr : Z) : call Z :=
  s ← fget;
  if (net_ready s =? 0) || (rtl_iobase s =? 0) then mret 0
  else if Z.land isr RTL_INT_MASK =? 0 then mret 0
  else
    count_up (fun t => t <| irq_count ::= up |>) ≫= fun _ =>
    if negb (Z.land isr RTL_INT_RX =? 0) then
      count_up (fun t => t <| irq_rx_events ::= up |>) ≫= fun _ =>
      processed ← net_rx_poll_budget card (net_irq_poll_budget_cfg s);
      s ← fget;
      (if net_irq_poll_budget_cfg s <=? processed then count_up (fun t => t <| coalesced_batches ::= up |>) else mret tt) ≫= fun _ =>
      mret processed
    else mret 0.

(** ** Configuration *)

Definition clamp (lo hi x : Z) : Z := let x := if x <? lo then lo else x in if hi <? x then hi else x.
Definition net_set_rx_coalesce (poll_budget irq_budget : Z) : call unit :=
  fmod (fun s => s <| net_rx_poll_budget_cfg := clamp 4 256 poll_budget |> <| net_irq_poll_budget_cfg := clamp 8 512 irq_budget |>).
Definition net_get_rx_coalesce (s : Net) : Z * Z := (net_rx_poll_budget_cfg s, net_irq_poll_budget_cfg s).

Definition net_get_rx_stats : call NetRxStats :=
  fmod (fun s => s <| net_rx_stats ::= (fun t => t <| poll_budget := net_rx_poll_budget_cfg s |>
                                                   <| irq_poll_budget := net_irq_poll_budget_cfg s |>) |>) ≫= fun _ =>
  s ← fget; mret (net_rx_stats s).

Definition net_set_ipv4 (ip mask gw : Z) : call Z :=
  if (ip =? 0) || (mask =? 0) then mret 0
  else
    fmod (fun s => s <| net_ip := ip |> <| net_mask := mask |> <| net_gw := gw |>) ≫= fun _ =>
    route_table_refresh_defaults ≫= fun _ => mret 1.
Definition net_get_ipv4 (s : Net) : Z * Z * Z := (net_ip s, net_mask s, net_gw s).

(** [mac] is [None] for a null pointer. *)
Definition net_set_mac (mac : option (list Z)) : call Z :=
  s ← fget;
  match mac with
  | None => mret 0
  | Some mac => if net_ready s =? 0 then mret 0 else bytes ← rd_bytes mac 0 6; fmod (fun s => s <| rtl_mac := bytes |>) ≫= fun _ => mret 1
  end.
Definition net_get_mac (s : Net) : list Z := rtl_mac s.

(** The statistics and tables [net_init] clears; the message buffers keep their bytes. *)
Definition clear_stats (t : NetRxStats) : NetRxStats :=
  zero_stats <| poll_budget := poll_budget t |> <| irq_poll_budget := irq_poll_budget t |> <| coalesced_batches := coalesced_batches t |>.
Definition clear_binding (b : UdpBinding) : UdpBinding :=
  b <| ub_used := 0 |> <| ub_port := 0 |> <| ub_head := 0 |> <| ub_tail := 0 |> <| ub_count := 0 |> <| ub_dropped := 0 |>.
Definition clear_conn (c : TcpConn) : TcpConn := (fresh_conn c) <| c_used := 0 |>.

(** [bar0] is the base register of the card, [None] when no card is on the bus; [card_mac]
    is the address the card reports once it is out of reset, [None] when the reset fails. *)
Definition net_init (bar0 : option Z) (card_mac : option (list Z)) : call Z :=
  let not_ready := fmod (fun s => s <| net_ready := 0 |>) ≫= fun _ => mret 0 in
  match bar0 with
  | None => not_ready
  | Some bar0 =>
      if Z.land bar0 1 =? 0 then not_ready
      else
        let base := Z.land bar0 0xFFFFFFFC in
        fmod (fun s => s <| rtl_iobase := base |>) ≫= fun _ =>
        if base =? 0 then not_ready
        else
          fmod (fun s => s <| rtl_rx_offset := 0 |> <| net_rx_stats ::= clear_stats |> <| net_fault_loss_percent := 0 |>
                           <| net_fault_reorder_percent := 0 |>) ≫= fun _ =>
          set_hold (fun h => h <| rh_valid := 0 |>) ≫= fun _ =>
          route_table_refresh_defaults ≫= fun _ =>
          fmod (fun s => s <| ipv4_tx_ident := 1 |> <| ipv4_reass ::= map (fun r => r <| rs_used := 0 |>) |>
                           <| udp_bindings ::= map clear_binding |> <| tcp_conns ::= map clear_conn |>) ≫= fun _ =>
          match card_mac with
          | None => not_ready
          | Some mac => fmod (fun s => s <| rtl_mac := mac |> <| net_ready := 1 |>) ≫= fun _ => mret 1
          end
  end.
Definition net_up (bar0 : option Z) (card_mac : option (list Z)) : call Z :=
  s ← fget; if negb (net_ready s =? 0) then mret 1 else net_init bar0 card_mac.
