(* ===== verification/NetWf.v ===== *)
(** * The invariant of the network stack

    The types of the tables of kernel/net.c: every field is within its C type, and
    the lengths and indices stay within their buffers. *)
From S2P Require Import Prelude Fault Bytes Buffers NetState NetSend NetTcp NetRecv.

Definition is_bool (x : Z) : Prop := 0 <= x <= 1.

(** A ring of 16 slots. *)
Definition ring_wf (head tail count : Z) : Prop := 0 <= head < 16 /\ 0 <= count <= 16 /\ tail = (head + count) mod 16.

Record packet_wf (p : UdpPacket) : Prop := {
  pw_ip : is_u32 (up_src_ip p); pw_port : is_u16 (up_src_port p); pw_len : 0 <= up_len p <= UDP_MAX_PAYLOAD;
  pw_data : buffer UDP_MAX_PAYLOAD (up_data p) }.
Record binding_wf (b : UdpBinding) : Prop := {
  bw_used : is_bool (ub_used b); bw_port : is_u16 (ub_port b); bw_ring : ring_wf (ub_head b) (ub_tail b) (ub_count b);
  bw_dropped : is_u32 (ub_dropped b); bw_length : Z.of_nat (length (ub_queue b)) = UDP_QUEUE_DEPTH;
  bw_queue : Forall packet_wf (ub_queue b) }.
Record segment_wf (g : TcpSegment) : Prop := {
  gw_len : 0 <= ts_len g <= TCP_MAX_PAYLOAD; gw_data : buffer TCP_MAX_PAYLOAD (ts_data g) }.
Record conn_wf (c : TcpConn) : Prop := {
  cw_used : is_bool (c_used c); cw_listening : is_bool (c_listening c); cw_accepted : is_bool (c_accepted c);
  cw_parent : -1 <= c_parent_listen c < Z.of_nat TCP_MAX_CONNS; cw_state : 0 <= c_state c <= 6;
  cw_lport : is_u16 (c_local_port c); cw_rport : is_u16 (c_remote_port c); cw_ip : is_u32 (c_remote_ip c);
  cw_una : is_u32 (c_snd_una c); cw_nxt : is_u32 (c_snd_nxt c); cw_rcv : is_u32 (c_rcv_nxt c);
  cw_ring : ring_wf (c_rx_head c) (c_rx_tail c) (c_rx_count c); cw_tick : is_u32 (c_last_tx_tick c);
  cw_seq : is_u32 (c_last_tx_seq c); cw_ack : is_u32 (c_last_tx_ack c); cw_len : 0 <= c_last_tx_len c <= TCP_MAX_PAYLOAD;
  cw_flags : is_byte (c_last_tx_flags c); cw_retries : 0 <= c_last_tx_retries c <= TCP_RETX_MAX + 2;
  cw_waiting : is_bool (c_waiting_ack c); cw_data : buffer TCP_MAX_PAYLOAD (c_last_tx_data c);
  cw_length : Z.of_nat (length (c_rx_queue c)) = TCP_QUEUE_DEPTH; cw_queue : Forall segment_wf (c_rx_queue c) }.
Record route_wf (r : RouteEntry) : Prop := {
  ew_used : is_bool (re_used r); ew_network : is_u32 (re_network r); ew_mask : is_u32 (re_mask r);
  ew_gateway : is_u32 (re_gateway r); ew_prefix : 0 <= re_prefix_len r < 256; ew_metric : is_byte (re_metric r) }.
Record slot_wf (r : Ipv4ReassSlot) : Prop := {
  rw_used : is_bool (rs_used r); rw_src : is_u32 (rs_src_ip r); rw_dst : is_u32 (rs_dst_ip r); rw_ident : is_u16 (rs_ident r);
  rw_proto : is_byte (rs_proto r); rw_hlen : 0 <= rs_header_len r <= IPV4_MAX_HEADER; rw_first : is_bool (rs_have_first r);
  rw_known : is_bool (rs_total_known r); rw_total : 0 <= rs_total_payload_len r <= IPV4_REASS_MAX_PAYLOAD;
  rw_tick : is_u32 (rs_last_tick r); rw_header : buffer IPV4_MAX_HEADER (rs_header r);
  rw_payload : buffer IPV4_REASS_MAX_PAYLOAD (rs_payload r); rw_present : buffer PRESENT_BYTES (rs_present r) }.
Record hold_wf (h : UdpReorderHold) : Prop := {
  hw_valid : is_bool (rh_valid h); hw_ip : is_u32 (rh_src_ip h); hw_sport : is_u16 (rh_src_port h); hw_dport : is_u16 (rh_dst_port h);
  hw_len : 0 <= rh_len h <= UDP_MAX_PAYLOAD; hw_data : buffer UDP_MAX_PAYLOAD (rh_data h) }.
Definition stats_wf (t : NetRxStats) : Prop :=
  Forall is_u32 [total_frames t; total_bytes t; ipv4_frames t; arp_frames t; neuro_frames t; unknown_frames t; dropped_frames t;
    malformed_frames t; quarantined_frames t; injected_loss_frames t; injected_reorder_frames t; tcp_retransmits t;
    tcp_retransmit_failures t; tcp_half_open_cleanups t; tcp_reset_events t; irq_count t; irq_rx_events t; tx_probe_ok t;
    tx_probe_fail t; poll_budget t; irq_poll_budget t; coalesced_batches t].
(** A frame that fits the wire. *)
Definition wire_frame (f : list Z) : Prop := exists n, 0 < n <= 1514 /\ buffer n f.

Record net_wf (s : Net) : Prop := {
  nw_ready : is_bool (net_ready s); nw_iobase : is_u32 (rtl_iobase s); nw_mac : buffer 6 (rtl_mac s);
  nw_ip : is_u32 (net_ip s); nw_mask : is_u32 (net_mask s); nw_gw : is_u32 (net_gw s);
  nw_loss : 0 <= net_fault_loss_percent s <= 100; nw_reorder : 0 <= net_fault_reorder_percent s <= 100;
  nw_prng : is_u32 (net_fault_prng_state s); nw_hold : hold_wf (udp_reorder_hold s);
  nw_rx_offset : 0 <= rtl_rx_offset s < 8192; nw_tx_slot : 0 <= rtl_tx_slot s < 4;
  nw_tx_length : length (rtl_tx_buffer s) = 4%nat; nw_tx : Forall (buffer 1600) (rtl_tx_buffer s);
  nw_poll : 4 <= net_rx_poll_budget_cfg s <= 256; nw_irq : 8 <= net_irq_poll_budget_cfg s <= 512;
  nw_stats : stats_wf (net_rx_stats s); nw_routes_length : length (route_table s) = ROUTE_TABLE_MAX;
  nw_routes : Forall route_wf (route_table s); nw_slots_length : length (ipv4_reass s) = IPV4_REASS_SLOT_MAX;
  nw_slots : Forall slot_wf (ipv4_reass s); nw_ident : is_u16 (ipv4_tx_ident s); nw_arp_ip : is_u32 (arp_cache_ip s);
  nw_arp_mac : buffer 6 (arp_cache_mac s); nw_arp_valid : is_bool (arp_cache_valid s);
  nw_bindings_length : length (udp_bindings s) = UDP_MAX_BINDINGS; nw_bindings : Forall binding_wf (udp_bindings s);
  nw_conns_length : length (tcp_conns s) = TCP_MAX_CONNS; nw_conns : Forall conn_wf (tcp_conns s);
  nw_iss : is_u32 (tcp_iss_seed s); nw_now : is_u32 (tick s); nw_sent : Forall wire_frame (sent s) }.

(** A safe call of the stack. *)
Abbreviation nsafe := (safe net_wf).

(** ** Automation *)

#[export] Hint Resolve be16_buffer be32_buffer byte_buffer internet_checksum_u16 : net.

(** [upd H] proves that an update keeps the record invariant [H] of the old value. *)
Ltac consts := unfold UDP_MAX_PAYLOAD, UDP_QUEUE_DEPTH, TCP_MAX_PAYLOAD, TCP_QUEUE_DEPTH, TCP_RETX_MAX, TCP_MAX_CONNS, UDP_MAX_BINDINGS,
  TCP_STATE_CLOSED, TCP_STATE_LISTEN, TCP_STATE_SYN_SENT, TCP_STATE_SYN_RCVD, TCP_STATE_ESTABLISHED, TCP_STATE_CLOSE_WAIT, TCP_STATE_CLOSING,
  TCP_FLAG_FIN, TCP_FLAG_SYN, TCP_FLAG_RST, TCP_FLAG_PSH, TCP_FLAG_ACK,
  IPV4_MAX_HEADER, IPV4_REASS_MAX_PAYLOAD, PRESENT_BYTES, IP_PROTO_ICMP, IP_PROTO_UDP, IP_PROTO_TCP, IPV4_ETH_MTU in *.
Ltac ranges := consts; unfold is_bool, is_u8, is_u16, is_u32, is_byte, up in *; cint_facts; lia.
Ltac upd H := destruct H; constructor; cbn; try assumption; try ranges.

(** [snext] goes into the next call of a sequence by the lemma that fits it. *)
Ltac snext lem := eapply safe_bind; [eapply lem|cbv beta].
Ltac sget s := eapply safe_bind; [apply safe_fget|cbv beta]; intros s ?.
Ltac open_wf s := match goal with H : net_wf s |- _ => destruct H end.
Ltac smod := apply safe_fmod.
Ltac scase := match goal with |- safe _ (if ?b then _ else _) _ => destruct b eqn:?; bsimpl end.
Ltac sret := apply safe_ret.

(** ** Small calls *)

Lemma count_up_safe f : (forall t, stats_wf t -> stats_wf (f t)) -> nsafe (count_up f) (fun _ => True).
Proof. intros Hf. smod. intros s Hs. upd Hs. by apply Hf. Qed.

Lemma up_u32 x : is_u32 (up x).
Proof. unfold up, is_u32. apply u32_range. Qed.

Ltac stats := let t := fresh in let Ht := fresh in intros t Ht; unfold stats_wf in *; destruct_list_props Ht
with destruct_list_props H :=
  repeat (apply Forall_cons_1 in H; let X := fresh in destruct H as [X H]);
  repeat case_if; repeat (apply Forall_cons_2; [first [assumption | apply up_u32 | apply u32_range | cbn; assumption | cbn; ranges]|]); apply Forall_nil_2.

Lemma net_count_malformed_safe : nsafe net_count_malformed (fun _ => True).
Proof. apply count_up_safe. stats. Qed.

Lemma net_count_ethertype_safe e : nsafe (net_count_ethertype e) (fun _ => True).
Proof. apply count_up_safe. stats. Qed.

Lemma malformed_safe : nsafe malformed (fun _ => True).
Proof. snext net_count_malformed_safe. intros _ _. by sret. Qed.
