(* ===== verification/NetSendSafe.v ===== *)
(** * Sending is safe (kernel/net.c)

    The routes, the ARP cache and the frames keep the invariant of the stack, and no
    store leaves the frame. *)
From S2P Require Import Prelude Fault Bytes Buffers NetState NetSend NetTcp NetRecv NetWf.

Lemma Forall_alter_all {A} (P : A -> Prop) (f : A -> A) i l : (forall x, P x -> P (f x)) -> Forall P l -> Forall P (alter f i l).
Proof. intros Hf Hl. apply Forall_alter; [done|]. auto. Qed.

(** ** Routes *)

Lemma prefix_len_bound n : forall m b, 0 <= b -> 0 <= prefix_len_loop n m b.
Proof. induction n as [|n IH]; intros m b Hb; cbn [prefix_len_loop]; [done|]. case_if; [|done]. apply IH. lia. Qed.

Lemma land_u32 x y : is_u32 y -> is_u32 (Z.land x y).
Proof.
  intros Hy. unfold is_u32 in *. rewrite <- (Z.mod_small y (2 ^ 32)) by lia.
  rewrite <- Z.land_ones, Z.land_assoc, Z.land_ones by lia. apply Z.mod_pos_bound. lia.
Qed.

Lemma land_3 x : 0 <= Z.land x 3 < 4.
Proof. change 3 with (Z.ones 2). rewrite Z.land_ones by lia. apply Z.mod_pos_bound. lia. Qed.

Lemma zero_routes_wf : Forall route_wf (replicate ROUTE_TABLE_MAX zero_route).
Proof. apply Forall_replicate. constructor; cbn; ranges. Qed.

Lemma route_table_clear_safe : nsafe route_table_clear (fun _ => True).
Proof. smod. intros s Hs. upd Hs; [done|apply zero_routes_wf]. Qed.

Lemma route_alter_safe i f : (forall r, route_wf r -> route_wf (f r)) ->
  nsafe (fmod (fun s => s <| route_table ::= alter f i |>)) (fun _ => True).
Proof. intros Hf. smod. intros s Hs. upd Hs; [by rewrite length_alter|by apply Forall_alter_all]. Qed.

Lemma route_table_set_safe network mask gateway metric :
  is_u32 network -> is_u32 mask -> is_u32 gateway -> is_byte metric -> nsafe (route_table_set network mask gateway metric) (fun _ => True).
Proof.
  intros Hn Hm Hg Hk. unfold route_table_set. sget s.
  apply safe_bind with (fun _ => True).
  - destruct (find_idx _ _) as [i|]; [by sret|]. destruct (find_idx _ (route_table s)) as [i|]; [|by sret].
    eapply safe_bind with (fun _ => True); [|intros; by sret].
    smod. intros t Ht. upd Ht; [by rewrite length_alter|]. apply Forall_alter_all; [|done]. intros r Hr. upd Hr.
  - intros [i|] _; [|by sret].
    eapply safe_bind; [apply route_alter_safe|intros; by sret].
    intros r Hr. upd Hr. case_if; [by apply land_u32|ranges].
Qed.

Lemma route_table_refresh_defaults_safe : nsafe route_table_refresh_defaults (fun _ => True).
Proof.
  unfold route_table_refresh_defaults. snext route_table_clear_safe. intros _ _. sget s. destruct H.
  snext route_table_set_safe; try done; try (by apply land_u32); try ranges.
  intros _ _. scase; [|by sret]. snext route_table_set_safe; try done; try ranges. all: intros; by sret.
Qed.

(** The next hop is an address when the destination is. *)
Lemma route_lookup_u32 s dst : net_wf s -> is_u32 dst -> forall h, route_lookup dst s = Some h -> is_u32 h.
Proof.
  intros Hs Hd h. unfold route_lookup.
  assert (forall l b, Forall route_wf l -> match b with Some (g, _, _) => is_u32 g | None => True end ->
    match fold_left (route_step dst) l b with Some (g, _, _) => is_u32 g | None => True end) as Hf.
  { induction l as [|r l IH]; intros b Hl Hb; [done|]. apply Forall_cons_1 in Hl as [Hr Hl]. cbn [fold_left].
    apply IH; [done|]. unfold route_step. repeat case_if; try done. apply Hr. }
  specialize (Hf (route_table s) None (nw_routes _ Hs) I).
  destruct (fold_left _ _ _) as [[[g p] m]|]; [|done]. intros [= <-]. by case_if.
Qed.

Lemma net_route_next_hop_u32 s dst : net_wf s -> is_u32 dst -> is_u32 (net_route_next_hop dst s).
Proof.
  intros Hs Hd. unfold net_route_next_hop. case_if; [done|].
  destruct (route_lookup dst s) as [h|] eqn:Eh; [|done]. by eapply route_lookup_u32.
Qed.

(** ** Frames *)

Lemma broadcast_buffer : buffer 6 BROADCAST.
Proof. split; [done|]. apply Forall_replicate. unfold is_byte. lia. Qed.
Lemma empty_frame_buffer : buffer 1514 empty_frame.
Proof. apply (buffer_zero 1514). lia. Qed.
#[export] Hint Resolve broadcast_buffer empty_frame_buffer : net.

Lemma rtl8139_send_frame_safe n frame len : buffer n frame -> 0 <= len <= n -> nsafe (rtl8139_send_frame frame len) is_bool.
Proof.
  intros Hf Hlen. unfold rtl8139_send_frame. sget s.
  repeat (scase; [sret; ranges|]). destruct H as [].
  eapply safe_bind; [smod; intros t Ht; upd Ht; apply land_3|].
  intros _ _. snext (safe_rd_bytes net_wf n frame 0 len); try done; try lia. intros bytes Hb.
  eapply safe_bind; [eapply (safe_put net_wf 1600 _ 0 len); [|done|lia|lia]|].
  { eapply Forall_lookup_1; [done|]. apply list_lookup_lookup_total_lt. lia. }
  intros buf Hbuf. eapply safe_bind; [smod|intros _ _; sret; ranges].
  intros t Ht. upd Ht; [by rewrite length_insert|by apply Forall_insert|].
  apply Forall_app_2; [done|]. apply Forall_singleton. exists len. split; [lia|].
  apply buffer_slice with 1600; done || lia.
Qed.

Lemma u8_byte x : is_byte (u8 x).
Proof. apply u8_range. Qed.
#[export] Hint Resolve u8_byte : net.
#[export] Hint Extern 2 (is_byte _) => unfold is_byte; lia : net.

(** A sequence of stores whose offsets are literals. *)
Ltac stores :=
  repeat first [apply Forall_nil_2 | apply Forall_cons_2];
  (eapply store_ok_buffer; [solve [eauto with net]|lia|lia]).

(** ** ARP *)

Lemma arp_cache_update_safe ip mac : is_u32 ip -> buffer 6 mac -> nsafe (arp_cache_update ip mac) (fun _ => True).
Proof. intros Hip Hmac. smod. intros s Hs. upd Hs. Qed.

Lemma net_send_arp_packet_safe op dst_mac sender_ip target_ip target_mac :
  buffer 6 dst_mac -> match target_mac with Some m => buffer 6 m | None => True end ->
  nsafe (net_send_arp_packet op dst_mac sender_ip target_ip target_mac) is_bool.
Proof.
  intros Hd Ht. unfold net_send_arp_packet. sget s. scase; [sret; ranges|].
  snext (safe_puts net_wf 42).
  - apply (buffer_zero 42). lia.
  - destruct H. assert (buffer 6 (default (replicate 6 0) target_mac)) as Hm
      by (destruct target_mac; [done|apply (buffer_zero 6); lia]).
    stores.
  - intros frame Hf. by apply rtl8139_send_frame_safe with 42.
Qed.

Lemma net_send_arp_request_safe ip : nsafe (net_send_arp_request ip) is_bool.
Proof. unfold net_send_arp_request. sget s. apply net_send_arp_packet_safe; [apply broadcast_buffer|done]. Qed.

Lemma net_send_arp_reply_safe mac ip : buffer 6 mac -> nsafe (net_send_arp_reply mac ip) is_bool.
Proof. intros Hm. unfold net_send_arp_reply. sget s. by apply net_send_arp_packet_safe. Qed.

Lemma hw_address_safe ip : nsafe (hw_address ip) (buffer 6).
Proof.
  unfold hw_address. sget s. unfold arp_cache_lookup. case_if.
  - snext net_send_arp_request_safe. intros _ _. sret. apply broadcast_buffer.
  - sret. apply H.
Qed.

(** ** IPv4 *)

Lemma ipv4_fields_ok s dst_ip total_len ident flags_off ttl protocol :
  is_byte ttl -> is_byte protocol -> Forall (store_ok 1514) (ipv4_fields s dst_ip total_len ident flags_off ttl protocol).
Proof. intros Ht Hp. stores. Qed.

(** The Ethernet header in front. *)
Lemma eth_fields_ok s dst_mac ws : net_wf s -> buffer 6 dst_mac -> Forall (store_ok 1514) ws ->
  Forall (store_ok 1514) ([(0, dst_mac); (6, rtl_mac s); (12, be16_bytes ETH_TYPE_IPV4)] ++ ws).
Proof. intros Hs Hd Hws. apply Forall_app_2; [|done]. destruct Hs. stores. Qed.

Lemma ipv4_checksum_safe h frame : 0 <= h <= 1500 -> buffer 1514 frame -> nsafe (ipv4_checksum h frame) (buffer 1514).
Proof.
  intros Hh Hf. unfold ipv4_checksum. snext (safe_rd_bytes net_wf 1514); try done; try lia. intros b Hb.
  eapply safe_put; [done|apply be16_buffer|lia|lia].
Qed.

Lemma padded_bound n : 0 <= n <= 1514 -> 0 <= padded n <= 1514.
Proof. intros Hn. unfold padded. case_if; bsimpl; lia. Qed.

Lemma ipv4_frame_safe n dst_mac dst_ip ident flags_off ttl protocol payload :
  buffer 6 dst_mac -> is_byte ttl -> is_byte protocol -> buffer n payload -> n <= 1480 ->
  nsafe (ipv4_frame dst_mac dst_ip ident flags_off ttl protocol payload) is_bool.
Proof.
  intros Hd Ht Hpr Hp Hn. unfold ipv4_frame. sget s. cbv zeta. destruct (Hp) as [Hl _].
  snext (safe_puts net_wf 1514); [apply empty_frame_buffer|by apply eth_fields_ok; [..|apply ipv4_fields_ok]|].
  intros f Hf. snext ipv4_checksum_safe; [lia|done|]. intros f' Hf'.
  snext (safe_put net_wf 1514); [done|done|lia|lia|]. intros f'' Hf''.
  apply rtl8139_send_frame_safe with 1514; [done|]. apply padded_bound. rewrite (u16_small (20 + _)) by lia. rewrite u16_small by lia. lia.
Qed.

Lemma MTU_PAYLOAD_val : MTU_PAYLOAD = 1480.
Proof. done. Qed.


(** A whole fragment, or what is left. *)
Lemma fragment_size remain : 0 <= remain < 65536 ->
  let f := if MTU_PAYLOAD <? remain then MTU_PAYLOAD else remain in
  (if negb (f =? remain) then Z.land f (u16 (Z.lnot 7)) else f) = Z.min remain 1480.
Proof.
  intros Hr. rewrite MTU_PAYLOAD_val. cbv zeta.
  destruct (Z.ltb_spec 1480 remain) as [Hlt|Hle].
  - destruct (Z.eqb_spec 1480 remain); [lia|]. simpl. vm_compute (Z.land 1480 _). lia.
  - rewrite Z.eqb_refl. simpl. lia.
Qed.

Lemma fragment_loop_safe dst_mac dst_ip protocol payload payload_len ttl ident :
  buffer 6 dst_mac -> is_byte ttl -> is_byte protocol -> forall n, buffer n payload -> 0 <= payload_len <= n -> payload_len < 65536 ->
  forall fuel offset, 0 <= offset <= payload_len -> payload_len - offset <= 1480 * (Z.of_nat fuel - 1) ->
  nsafe (fragment_loop fuel dst_mac dst_ip protocol payload payload_len ttl ident offset) is_bool.
Proof.
  intros Hd Ht Hpr n Hp Hn H16 fuel. induction fuel as [|fuel IH]; intros offset Ho Hfuel; [lia|].
  cbn [fragment_loop]. scase; [sret; ranges|].
  rewrite (u16_small (payload_len - offset)) by lia.
  pose proof (fragment_size (payload_len - offset) ltac:(lia)) as Hsz. cbv zeta in Hsz |- *.
  set (fp := if negb _ then _ else _) in *. clearbody fp.
  scase; [sret; ranges|].
  snext (safe_rd_bytes net_wf n); [done|lia|lia|lia|]. intros bytes Hb.
  snext (ipv4_frame_safe fp); try done; try lia. intros ok _. scase; [sret; ranges|].
  rewrite (u16_small (offset + fp)) by lia. apply IH; lia.
Qed.

Lemma net_send_ipv4_raw_safe n dst_ip protocol payload payload_len ttl ident :
  is_byte ttl -> is_byte protocol -> match payload with Some p => buffer n p | None => True end -> 0 <= payload_len <= n ->
  payload_len <= 65000 -> nsafe (net_send_ipv4_raw dst_ip protocol payload payload_len ttl ident) is_bool.
Proof.
  intros Ht Hpr Hp Hn H16. unfold net_send_ipv4_raw. sget s. destruct payload as [payload|]; [|sret; ranges].
  scase; [sret; ranges|]. cbv zeta.
  apply safe_bind with (buffer 6); [case_if; [apply hw_address_safe|sret; apply broadcast_buffer]|]. intros mac Hmac.
  rewrite (u16_small (20 + _)) by lia. scase.
  - snext (safe_rd_bytes net_wf n); [done|lia|lia|lia|]. intros b Hb. apply ipv4_frame_safe with payload_len; try done.
    unfold IPV4_ETH_MTU in *. lia.
  - apply fragment_loop_safe with n; try done; try lia.
    unfold IPV4_ETH_MTU in *. pose proof (Z.div_pos payload_len 8). pose proof (Z_div_mod_eq_full payload_len 8).
    pose proof (Z.mod_pos_bound payload_len 8). lia.
Qed.

Lemma next_ident_safe : nsafe next_ident is_u16.
Proof.
  unfold next_ident. sget s. eapply safe_bind; [smod; intros t Ht; upd Ht|]. intros _ _. sret. apply H.
Qed.

Lemma net_forward_ipv4_packet_safe n ip_packet total_len :
  buffer n ip_packet -> 1500 <= n -> nsafe (net_forward_ipv4_packet ip_packet total_len) is_bool.
Proof.
  intros Hp Hn. unfold net_forward_ipv4_packet. sget s. scase; [sret; ranges|]. unfold IPV4_ETH_MTU in *.
  snext (safe_rd net_wf n); [done|lia|]. intros b0 Hb0. cbv zeta. scase; [sret; ranges|].
  snext (safe_rd net_wf n); [done|lia|]. intros ttl Httl. scase; [sret; ranges|].
  snext (safe_read_be32 net_wf n); [done|lia|lia|]. intros dst Hdst.
  destruct (route_lookup dst s) as [hop|]; [|sret; ranges].
  snext hw_address_safe. intros mac Hmac.
  snext (safe_rd_bytes net_wf n ip_packet 0 total_len); [done|lia|lia|lia|]. intros bytes Hb.
  snext (safe_puts net_wf 1514); [apply empty_frame_buffer|destruct H; stores|]. intros f Hf.
  snext ipv4_checksum_safe; [cint_facts; lia|done|]. intros f' Hf'.
  apply rtl8139_send_frame_safe with 1514; [done|]. apply padded_bound. rewrite u16_small; lia.
Qed.

Lemma net_send_icmp_echo_reply_safe n dst_ip icmp_request icmp_len :
  buffer n icmp_request -> icmp_len <= IPV4_REASS_MAX_PAYLOAD -> icmp_len <= n ->
  nsafe (net_send_icmp_echo_reply dst_ip icmp_request icmp_len) is_bool.
Proof.
  unfold IPV4_REASS_MAX_PAYLOAD. intros Hp Hlen Hn. unfold net_send_icmp_echo_reply, IPV4_REASS_MAX_PAYLOAD. sget s.
  do 2 (scase; [sret; ranges|]).
  snext (safe_rd_bytes net_wf n); [done|lia|lia|lia|]. intros bytes Hb.
  snext (safe_puts net_wf 4096); [apply buffer_zero; lia|unfold ICMP_TYPE_ECHO_REPLY; stores|]. intros icmp Hi.
  snext (safe_rd_bytes net_wf 4096); [done|lia|lia|lia|]. intros body Hbody.
  snext (safe_put net_wf 4096); [done|apply be16_buffer|lia|lia|]. intros icmp' Hi'.
  snext next_ident_safe. intros ident _. eapply net_send_ipv4_raw_safe with (n := 4096); try done; try lia; unfold is_byte, IP_PROTO_ICMP; lia.
Qed.

(** ** TCP segments *)

Lemma pseudo_sum_safe n src_ip dst_ip protocol packet len :
  buffer n packet -> is_byte protocol -> 0 <= len <= n -> len <= 1588 -> nsafe (pseudo_sum src_ip dst_ip protocol packet len) is_u16.
Proof.
  intros Hp Hpr Hlen H16. unfold pseudo_sum.
  snext (safe_rd_bytes net_wf n); [done|lia|lia|lia|]. intros bytes Hb.
  snext (safe_puts net_wf 1600); [apply (buffer_zero 1600); lia|stores|]. intros buf Hbuf.
  rewrite u16_small by lia. snext (safe_rd_bytes net_wf 1600); [done|lia|lia|lia|]. intros body Hbody.
  sret. apply internet_checksum_u16.
Qed.

Lemma tcp_send_segment_safe n dst_ip src_port dst_port seq ack flags payload payload_len :
  is_byte flags -> match payload with Some p => buffer n p | None => True end -> 0 <= payload_len <= 1200 ->
  (payload <> None -> payload_len <= n) ->
  nsafe (tcp_send_segment dst_ip src_port dst_port seq ack flags payload payload_len) is_bool.
Proof.
  intros Hfl Hp Hlen Hn. unfold tcp_send_segment. sget s. scase; [sret; ranges|]. cbv zeta.
  apply safe_bind with (buffer 6); [case_if; [apply hw_address_safe|sret; apply broadcast_buffer]|]. intros mac Hmac.
  rewrite (u16_small (20 + payload_len)) by lia.
  snext (safe_puts net_wf 1514); [apply empty_frame_buffer|apply eth_fields_ok; [done..|apply ipv4_fields_ok; unfold is_byte, IP_PROTO_TCP; lia]|].
  intros f Hf. snext ipv4_checksum_safe; [lia|done|]. intros f' Hf'.
  snext (safe_puts net_wf 1514); [done|stores|]. intros f2 Hf2.
  apply safe_bind with (buffer 1514).
  { destruct payload as [p|]; [|by sret]. scase; [|by sret]. specialize (Hn ltac:(done)).
    snext (safe_rd_bytes net_wf n); [done|lia|lia|lia|]. intros b Hb. eapply safe_put; [done|done|lia|lia]. }
  intros f3 Hf3. snext (pseudo_sum_safe 1480); [by apply (buffer_at 1514 34)|unfold is_byte, IP_PROTO_TCP; lia|lia|lia|].
  intros csum _. snext (safe_put net_wf 1514); [done|apply be16_buffer|lia|lia|]. intros f4 Hf4.
  apply rtl8139_send_frame_safe with 1514; [done|]. apply padded_bound.
  rewrite (u16_small (20 + (20 + _))) by lia. rewrite u16_small by lia. lia.
Qed.

(** ** The bindings *)

(** ** Rings *)

Lemma ring_wf_push h t c : ring_wf h t c -> c < 16 -> ring_wf h ((t + 1) mod 16) (u16 (c + 1)).
Proof.
  intros (Hh & Hc & ->) Hlt. rewrite u16_small by lia. split; [done|]. split; [lia|].
  rewrite Zplus_mod_idemp_l. f_equal. lia.
Qed.
Lemma ring_wf_pop h t c : ring_wf h t c -> 0 < c -> ring_wf ((h + 1) mod 16) t (u16 (c - 1)).
Proof.
  intros (Hh & Hc & ->) Hlt. rewrite u16_small by lia. split; [apply Z.mod_pos_bound; lia|]. split; [lia|].
  rewrite Zplus_mod_idemp_l. f_equal. lia.
Qed.
Lemma ring_zero : ring_wf 0 0 0.
Proof. split; [lia|]. split; [lia|done]. Qed.
Lemma ring_tail h t c : ring_wf h t c -> 0 <= t < 16.
Proof. intros (Hh & Hc & ->). apply Z.mod_pos_bound. lia. Qed.
#[export] Hint Resolve ring_zero : net.

(** ** UDP *)

Lemma set_binding_safe i f : (forall b, binding_wf b -> binding_wf (f b)) -> nsafe (set_binding i f) (fun _ => True).
Proof. intros Hf. smod. intros s Hs. upd Hs; [by rewrite length_alter|by apply Forall_alter_all]. Qed.

Lemma set_hold_safe f : (forall h, hold_wf h -> hold_wf (f h)) -> nsafe (set_hold f) (fun _ => True).
Proof. intros Hf. smod. intros s Hs. upd Hs. by apply Hf. Qed.

(** An update of a table cell that keeps the type of the cell. *)
Ltac cell lem := eapply safe_bind; [eapply lem; let b := fresh "b" in let Hb := fresh "Hb" in intros b Hb; upd Hb|].

Lemma udp_find_lt s port i : net_wf s -> udp_find_binding port s = Some i -> (i < 16)%nat.
Proof. intros Hs Hi. apply find_idx_lt in Hi. by rewrite (nw_bindings_length _ Hs) in Hi. Qed.

Lemma udp_alloc_binding_safe port : is_u16 port -> nsafe (udp_alloc_binding port) (fun _ => True).
Proof.
  intros Hp. unfold udp_alloc_binding. sget s. destruct (udp_find_binding port s); [by sret|].
  destruct (find_idx _ _); [|by sret]. cell set_binding_safe; [apply ring_zero|]. intros. by sret.
Qed.

Lemma udp_enqueue_packet_safe n dst_port src_ip src_port payload payload_len :
  buffer n payload -> is_u32 src_ip -> is_u16 src_port -> 0 <= payload_len -> (payload_len <= UDP_MAX_PAYLOAD -> payload_len <= n) ->
  nsafe (udp_enqueue_packet dst_port src_ip src_port payload payload_len) is_bool.
Proof.
  intros Hp Hip Hport Hl Hn. unfold udp_enqueue_packet. sget s. destruct (udp_find_binding dst_port s) as [i|] eqn:Hi; [|sret; ranges].
  pose proof (udp_find_lt s dst_port i H Hi). destruct H.
  snext (safe_elem net_wf binding_wf); [rewrite nw_bindings_length; unfold UDP_MAX_BINDINGS; lia|done|]. intros b [].
  scase; [cell set_binding_safe; intros _ _; sret; ranges|]. specialize (Hn ltac:(done)).
  pose proof (ring_tail _ _ _ bw_ring). consts.
  snext (safe_elem net_wf packet_wf); [lia|done|]. intros slot Hslot.
  snext (safe_rd_bytes net_wf n); [done|lia|lia|lia|]. intros bytes Hb.
  snext (safe_put net_wf 1200); [apply Hslot|done|lia|lia|]. intros data Hdata.
  eapply safe_bind; [|intros _ _; sret; ranges]. apply set_binding_safe. intros _ _. constructor; cbn; try assumption.
  - by apply ring_wf_push; [|lia].
  - by rewrite length_insert.
  - apply Forall_insert; [done|]. upd Hslot.
Qed.

Lemma net_fault_should_apply_safe p : nsafe (net_fault_should_apply p) (fun _ => True).
Proof.
  unfold net_fault_should_apply. do 2 (scase; [by sret|]). eapply safe_bind with (fun _ => True); [|intros; by sret].
  unfold net_fault_prng_next. eapply safe_bind; [smod; intros t Ht; upd Ht|]. intros _ _. sget s. by sret.
Qed.

Lemma udp_enqueue_with_faults_safe n dst_port src_ip src_port payload payload_len :
  buffer n payload -> is_u32 src_ip -> is_u16 src_port -> is_u16 dst_port -> 0 <= payload_len ->
  (payload_len <= UDP_MAX_PAYLOAD -> payload_len <= n) ->
  nsafe (udp_enqueue_with_faults dst_port src_ip src_port payload payload_len) is_bool.
Proof.
  intros Hp Hip Hport Hdp Hl Hn. unfold udp_enqueue_with_faults. sget s.
  snext net_fault_should_apply_safe. intros lost _. destruct lost.
  { snext count_up_safe; [stats|]. intros _ _. sret. ranges. }
  sget t. scase.
  - snext udp_enqueue_packet_safe; try done. intros ok _. scase; [sret; ranges|]. sget u.
    destruct H1 as []. pose proof nw_hold as [].
    snext udp_enqueue_packet_safe; try done; [ranges..|]. intros ok2 _. scase; [sret; ranges|].
    cell set_hold_safe. intros _ _. snext count_up_safe; [stats|]. intros _ _. sret. ranges.
  - snext net_fault_should_apply_safe. intros held _.
    destruct held; simpl; [|by apply udp_enqueue_packet_safe with n].
    scase; [|by apply udp_enqueue_packet_safe with n]. specialize (Hn ltac:(lia)). consts.
    snext (safe_rd_bytes net_wf n); [done|lia|lia|lia|]. intros bytes Hb. sget u. destruct H1 as []. pose proof nw_hold as [].
    snext (safe_put net_wf 1200); [done|done|lia|lia|]. intros data Hdata.
    cell set_hold_safe. intros _ _. sret. ranges.
Qed.

Lemma net_set_fault_injection_safe a b : is_u32 a -> is_u32 b -> nsafe (net_set_fault_injection a b) (fun _ => True).
Proof.
  intros Ha Hb. unfold net_set_fault_injection. cbv zeta.
  eapply safe_bind; [smod; intros t Ht; upd Ht; repeat case_if; bsimpl; ranges|]. intros _ _.
  scase; [|by sret]. apply set_hold_safe. intros h Hh. upd Hh.
Qed.

Lemma net_handle_udp_datagram_safe n src_ip dst_ip udp_packet udp_len :
  buffer n udp_packet -> 1700 <= n -> is_u32 src_ip -> udp_len <= 65515 ->
  nsafe (net_handle_udp_datagram src_ip dst_ip udp_packet udp_len) is_bool.
Proof.
  intros Hp Hn Hip Hlen. unfold net_handle_udp_datagram.
  assert (nsafe malformed is_bool) as Hm by (snext net_count_malformed_safe; intros _ _; sret; ranges).
  scase; [done|].
  do 4 (snext (safe_read_be16 net_wf n); [done|lia|lia|]; intros ? ?).
  scase; [done|]. cbv zeta.
  match goal with |- context [u16 (?h - 8)] => rewrite (u16_small (h - 8)) by ranges end.
  apply safe_bind with (fun _ => True).
  - scase; [|by sret]. scase; [by sret|]. rewrite u16_small in * by ranges.
    snext (pseudo_sum_safe n); [done|unfold is_byte, IP_PROTO_UDP; lia|lia|lia|]. intros; by sret.
  - intros valid _. scase; [done|]. apply udp_enqueue_with_faults_safe with (n - 8); try done; [apply buffer_at; [lia|done]|lia|].
    consts. lia.
Qed.

Lemma net_send_udp_safe n dst_ip src_port dst_port payload payload_len :
  buffer n payload -> is_u16 src_port -> is_u16 dst_port -> 0 <= payload_len <= n ->
  nsafe (net_send_udp dst_ip src_port dst_port payload payload_len) is_bool.
Proof.
  intros Hp Hs Hd Hl. unfold net_send_udp. sget s. do 2 (scase; [sret; ranges|]). consts. cbv zeta.
  snext (safe_rd_bytes net_wf n); [done|lia|lia|lia|]. intros bytes Hb.
  snext (safe_puts net_wf 4104); [apply (buffer_zero 4104); lia|stores|]. intros pkt Hpkt.
  apply safe_bind with (fun _ => True).
  { scase; [|by sret]. snext (udp_enqueue_with_faults_safe n); try done; try apply H; try lia. all: intros; by sret. }
  intros _ _. snext next_ident_safe. intros ident _.
  rewrite u16_small by lia. apply net_send_ipv4_raw_safe with 4104; try done; unfold is_byte; lia.
Qed.

Lemma net_udp_bind_safe port : is_u16 port -> nsafe (net_udp_bind port) is_bool.
Proof.
  intros Hp. unfold net_udp_bind. scase; [sret; ranges|]. snext udp_alloc_binding_safe; [done|].
  intros r _. sret. destruct (bool_decide _); simpl; ranges.
Qed.

Lemma net_udp_unbind_safe port : nsafe (net_udp_unbind port) is_bool.
Proof.
  unfold net_udp_unbind. sget s. destruct (udp_find_binding port s); [|sret; ranges].
  cell set_binding_safe; [apply ring_zero|]. intros _ _. sret. ranges.
Qed.

(** The bytes a receive call hands out. *)
Definition received (max_len : Z) (r : option (Z * Z * list Z)) : Prop :=
  match r with Some (ip, port, bytes) => is_u32 ip /\ is_u16 port /\ Forall is_byte bytes /\ Z.of_nat (length bytes) <= max_len | None => True end.

Lemma net_udp_recv_safe port buf max_len : 0 <= max_len -> nsafe (net_udp_recv port buf max_len) (received max_len).
Proof.
  intros Hm. unfold net_udp_recv. sget s. destruct (udp_find_binding port s) as [i|] eqn:Hi; [|by sret].
  scase; [by sret|]. pose proof (udp_find_lt s port i H Hi). destruct H.
  snext (safe_elem net_wf binding_wf); [rewrite nw_bindings_length; consts; lia|done|]. intros b [].
  scase; [by sret|]. consts. destruct (bw_ring) as (Hh & Hc & Ht).
  snext (safe_elem net_wf packet_wf); [lia|done|]. intros pkt Hpkt. cbv zeta. destruct (Hpkt). consts.
  set (k := if max_len <? up_len pkt then max_len else up_len pkt).
  assert (0 <= k <= up_len pkt /\ k <= max_len) as [Hk1 Hk2] by (unfold k; case_if; bsimpl; lia). clearbody k.
  snext (safe_rd_bytes net_wf 1200); [done|lia|lia|lia|]. intros bytes [Hbl Hb].
  eapply safe_bind; [apply set_binding_safe|intros _ _; sret; cbn; rewrite Hbl; done].
  intros _ _. constructor; cbn; try assumption. by apply ring_wf_pop; [|lia].
Qed.
