(* ===== verification/NetTcpSafe.v ===== *)
(** * TCP is safe (kernel/net.c)

    The segments received, the calls on the connections and the retransmissions keep
    the invariant of the stack. *)
From S2P Require Import Prelude Fault Bytes Buffers NetState NetSend NetTcp NetRecv NetWf NetSendSafe.

Lemma set_conn_safe i f : (forall c, conn_wf c -> conn_wf (f c)) -> nsafe (set_conn i f) (fun _ => True).
Proof. intros Hf. smod. intros s Hs. upd Hs; [by rewrite length_alter|by apply Forall_alter_all]. Qed.

Lemma get_conn_safe i : (i < 32)%nat -> nsafe (get_conn i) conn_wf.
Proof. intros Hi. unfold get_conn. sget s. destruct H. apply safe_elem; [rewrite nw_conns_length; consts; lia|done]. Qed.

Lemma conn_index s p i : net_wf s -> find_idx p (tcp_conns s) = Some i -> (i < 32)%nat.
Proof. intros Hs Hi. apply find_idx_lt in Hi. by rewrite (nw_conns_length _ Hs) in Hi. Qed.

Lemma tcp_alloc_conn_safe : nsafe tcp_alloc_conn (fun r => forall i, r = Some i -> (i < 32)%nat).
Proof.
  unfold tcp_alloc_conn. sget s. destruct (find_idx _ _) as [i|] eqn:Hi; [|by sret].
  cell set_conn_safe; [apply ring_zero|]. intros _ _. sret. intros j [= <-]. by eapply conn_index.
Qed.

(** A segment of a connection without data. *)
Lemma send_empty_safe dst_ip sp dp seq ack flags : is_byte flags -> nsafe (tcp_send_segment dst_ip sp dp seq ack flags None 0) is_bool.
Proof. intros Hf. by apply tcp_send_segment_safe with 0. Qed.

Lemma send_ack_safe i : (i < 32)%nat -> nsafe (send_ack i) (fun _ => True).
Proof.
  intros Hi. unfold send_ack. snext get_conn_safe; [done|]. intros c Hc.
  snext send_empty_safe; [unfold is_byte, TCP_FLAG_ACK; lia|]. intros; by sret.
Qed.

Lemma b2z_bool b : is_bool (Z.b2z b).
Proof. destruct b; simpl; ranges. Qed.

Lemma tcp_track_outbound_safe n i seq ack flags payload len :
  (i < 32)%nat -> is_u32 seq -> is_u32 ack -> is_byte flags -> match payload with Some p => buffer n p | None => True end ->
  0 <= len <= 1200 -> (payload <> None -> len <= n) -> nsafe (tcp_track_outbound i seq ack flags payload len) (fun _ => True).
Proof.
  intros Hi Hseq Hack Hf Hp Hl Hn. unfold tcp_track_outbound. sget s. destruct H.
  cell set_conn_safe; [apply b2z_bool|]. intros _ _.
  destruct payload as [p|]; [|by sret]. scase; [|by sret]. specialize (Hn ltac:(done)).
  snext get_conn_safe; [done|]. intros c []. snext (safe_rd_bytes net_wf n); [done|lia|lia|lia|]. intros bytes Hb. consts.
  snext (safe_put net_wf 1200); [done|done|lia|lia|]. intros data Hdata. apply set_conn_safe. intros c' Hc'. upd Hc'.
Qed.

Lemma tcp_send_and_track_safe n i flags payload len :
  (i < 32)%nat -> is_byte flags -> match payload with Some p => buffer n p | None => True end ->
  0 <= len <= 1200 -> (payload <> None -> len <= n) -> nsafe (tcp_send_and_track i flags payload len) is_bool.
Proof.
  intros Hi Hf Hp Hl Hn. unfold tcp_send_and_track. snext get_conn_safe; [done|]. intros c [].
  snext (tcp_send_segment_safe n); try done. intros ok _. scase; [sret; ranges|].
  snext (tcp_track_outbound_safe n); try done. intros _ _.
  apply safe_bind with (fun _ => True); [scase; [|by sret]; apply set_conn_safe; intros c' Hc'; upd Hc'|].
  intros _ _. cell set_conn_safe. intros _ _. sret. ranges.
Qed.

Lemma tcp_retransmit_last_safe i : (i < 32)%nat -> nsafe (tcp_retransmit_last i) is_bool.
Proof.
  intros Hi. unfold tcp_retransmit_last. snext get_conn_safe; [done|]. intros c [].
  scase; [sret; ranges|]. cbv zeta. scase.
  - snext count_up_safe; [stats|]. intros _ _.
    apply safe_bind with (fun _ => True); [scase; [apply count_up_safe; stats|by sret]|]. intros _ _.
    cell set_conn_safe. intros _ _. sret. ranges.
  - snext (tcp_send_segment_safe TCP_MAX_PAYLOAD); try done; [by case_if|intros _; apply cw_len|]. intros ok _. scase; [sret; ranges|].
    sget s. open_wf s.
    cell set_conn_safe; [consts; case_if; rewrite u8_small; lia|].
    intros _ _. snext count_up_safe; [stats|]. intros _ _. sret. ranges.
Qed.

(** ** Segments *)

Lemma tcp_queue_rx_safe n i payload len : (i < 32)%nat -> buffer n payload -> 0 <= len <= n -> nsafe (tcp_queue_rx i payload len) is_bool.
Proof.
  intros Hi Hp Hl. unfold tcp_queue_rx. scase; [sret; ranges|]. snext get_conn_safe; [done|]. intros c [].
  scase; [sret; ranges|]. pose proof (ring_tail _ _ _ cw_ring). consts.
  snext (safe_elem net_wf segment_wf); [lia|done|]. intros seg []. snext (safe_rd_bytes net_wf n); [done|lia|lia|lia|]. intros bytes Hb.
  snext (safe_put net_wf 1200); [done|done|lia|lia|]. intros data Hdata.
  eapply safe_bind; [apply set_conn_safe|intros _ _; sret; ranges].
  intros _ _. constructor; cbn; try assumption.
  - by apply ring_wf_push; [|lia].
  - by rewrite length_insert.
  - apply Forall_insert; [done|]. constructor; cbn; [consts; lia|done].
Qed.

Lemma tcp_checksum_valid_safe n src_ip dst_ip tcp tcp_len :
  buffer n tcp -> 1588 <= n -> tcp_len <= 65515 -> nsafe (tcp_checksum_valid src_ip dst_ip tcp tcp_len) (fun ok => ok = true -> 20 <= tcp_len <= 1588).
Proof.
  intros Hp Hn Hl. unfold tcp_checksum_valid. scase; [by sret|]. rewrite u16_small in * by lia. scase; [by sret|].
  snext (pseudo_sum_safe n); [done|unfold is_byte, IP_PROTO_TCP; lia|lia|lia|]. intros. sret. intros _. lia.
Qed.

Lemma tcp_accept_syn_safe l src_ip src_port dst_port seq :
  (l < 32)%nat -> is_u32 src_ip -> is_u16 src_port -> is_u16 dst_port -> nsafe (tcp_accept_syn l src_ip src_port dst_port seq) is_bool.
Proof.
  intros Hli Hip Hsp Hdp. unfold tcp_accept_syn. snext tcp_alloc_conn_safe. intros [i|] Hi; [|sret; ranges].
  specialize (Hi i eq_refl). sget s. destruct H. cell set_conn_safe. intros _ _.
  eapply safe_bind; [smod; intros t Ht; upd Ht|]. intros _ _.
  snext get_conn_safe; [done|]. intros c Hc.
  snext send_empty_safe; [unfold is_byte; vm_compute; split; congruence|]. intros ok _.
  scase; [cell set_conn_safe; intros _ _; sret; ranges|]. sget t. open_wf t.
  cell set_conn_safe; [vm_compute; split; congruence|]. intros _ _. sret. ranges.
Qed.

Lemma close_acked_safe i ack : is_u32 ack -> nsafe (close_acked i ack) (fun _ => True).
Proof. intros Ha. apply set_conn_safe. intros c Hc. upd Hc. Qed.

Lemma bump_rcv_safe i (b : bool) : nsafe (if b then set_conn i (fun c => c <| c_rcv_nxt ::= up |>) else mret tt) (fun _ => True).
Proof. scase; [|by sret]. apply set_conn_safe. intros c Hc. upd Hc. Qed.

(** A result of a call that may go on. *)
Definition opt_bool (r : option Z) : Prop := match r with Some r => is_bool r | None => True end.

Lemma tcp_on_closing_safe i seq ack flags : (i < 32)%nat -> is_u32 ack -> nsafe (tcp_on_closing i seq ack flags) opt_bool.
Proof.
  intros Hi Ha. unfold tcp_on_closing. snext get_conn_safe; [done|]. intros c Hc. scase; [by sret|].
  scase; [snext close_acked_safe; [done|]; intros; sret; cbn; ranges|]. scase; [|by sret].
  snext bump_rcv_safe. intros _ _. snext send_ack_safe; [done|]. intros _ _. snext get_conn_safe; [done|]. intros c' Hc'.
  apply safe_bind with (fun _ => True); [scase; [by apply close_acked_safe|by sret]|]. intros; sret; cbn; ranges.
Qed.

Lemma tcp_on_handshake_safe i seq ack flags : (i < 32)%nat -> is_u32 ack -> nsafe (tcp_on_handshake i seq ack flags) opt_bool.
Proof.
  intros Hi Ha. unfold tcp_on_handshake. snext get_conn_safe; [done|]. intros c Hc. scase.
  { cell set_conn_safe. intros _ _. snext send_ack_safe; [done|]. intros; sret; cbn; ranges. }
  scase; [|by sret]. cell set_conn_safe. intros; sret; cbn; ranges.
Qed.

Lemma tcp_on_data_safe n i seq payload len : (i < 32)%nat -> buffer n payload -> 0 <= len <= n -> nsafe (tcp_on_data i seq payload len) (fun _ => True).
Proof.
  intros Hi Hp Hl. unfold tcp_on_data. scase; [by sret|]. sget s. snext net_fault_should_apply_safe. intros lost _.
  destruct lost.
  { snext count_up_safe; [stats|]. intros _ _. snext send_ack_safe; [done|]. intros; by sret. }
  snext get_conn_safe; [done|]. intros c Hc. apply safe_bind with (fun _ => True).
  - scase; [|by sret]. snext tcp_queue_rx_safe; [done|done|done|]. intros ok _. scase; [|by sret].
    apply set_conn_safe. intros c' Hc'. upd Hc'.
  - intros _ _. snext send_ack_safe; [done|]. intros; by sret.
Qed.

Lemma tcp_on_open_safe n i seq ack flags payload len :
  (i < 32)%nat -> is_u32 ack -> buffer n payload -> 0 <= len <= n -> nsafe (tcp_on_open i seq ack flags payload len) is_bool.
Proof.
  intros Hi Ha Hp Hl. unfold tcp_on_open. apply safe_bind with (fun _ => True).
  { scase; [|by sret]. apply set_conn_safe. intros c Hc. cbv zeta. repeat case_if; [| |done]; upd Hc. }
  intros _ _. snext tcp_on_data_safe; [done..|]. intros lost _. destruct lost; [sret; ranges|]. scase; [|sret; ranges].
  snext get_conn_safe; [done|]. intros c Hc. snext bump_rcv_safe. intros _ _. cell set_conn_safe. intros _ _.
  snext send_ack_safe; [done|]. intros _ _. sret. ranges.
Qed.

Lemma net_handle_tcp_segment_safe n src_ip dst_ip tcp tcp_len :
  buffer n tcp -> 1588 <= n -> is_u32 src_ip -> tcp_len <= 65515 -> nsafe (net_handle_tcp_segment src_ip dst_ip tcp tcp_len) is_bool.
Proof.
  intros Hp Hn Hip Hl. unfold net_handle_tcp_segment. scase; [sret; ranges|].
  snext (tcp_checksum_valid_safe n); [done..|]. intros valid Hv. scase.
  { snext net_count_malformed_safe. intros _ _. sret. ranges. }
  destruct valid; [|done]. specialize (Hv eq_refl).
  do 2 (snext (safe_read_be16 net_wf n); [done|lia|lia|]; intros ? ?).
  do 2 (snext (safe_read_be32 net_wf n); [done|lia|lia|]; intros ? ?).
  do 2 (snext (safe_rd net_wf n); [done|lia|]; intros ? ?). cbv zeta.
  scase; [sret; ranges|]. sget s. set (h := u16 (u8 _ * 4)) in *.
  assert (0 <= h) by (pose proof (u16_range (u8 (Z.shiftr a3 4) * 4)); lia). clearbody h.
  destruct (tcp_find_conn _ _ _ s) as [i|] eqn:Hi.
  - apply (conn_index s) in Hi; [|done]. scase.
    { snext count_up_safe; [stats|]. intros _ _. cell set_conn_safe. intros _ _. sret. ranges. }
    snext tcp_on_closing_safe; [done|done|]. intros [r|] Hr.
    { by sret. }
    snext tcp_on_handshake_safe; [done|done|]. intros [r|] Hr2; [by sret|].
    snext get_conn_safe; [done|]. intros c Hc. scase; [|sret; ranges].
    rewrite u16_small by lia. apply tcp_on_open_safe with (n - h); [done|done|apply buffer_at; [lia|done]|lia].
  - destruct (tcp_find_listener _ s) as [l|] eqn:Hli; [|sret; ranges]. scase; [|sret; ranges].
    apply (conn_index s) in Hli; [|done]. by apply tcp_accept_syn_safe.
Qed.

(** ** The calls *)

Definition conn_or_neg (r : Z) : Prop := -1 <= r < 32.

Lemma net_tcp_listen_safe port : is_u16 port -> nsafe (net_tcp_listen port) conn_or_neg.
Proof.
  intros Hp. unfold net_tcp_listen, conn_or_neg. sget s. scase; [sret; lia|]. snext tcp_alloc_conn_safe. intros [i|] Hi; [|sret; lia].
  specialize (Hi i eq_refl). cell set_conn_safe. intros _ _. sret. lia.
Qed.

Lemma net_tcp_unlisten_safe port : nsafe (net_tcp_unlisten port) is_bool.
Proof.
  unfold net_tcp_unlisten. sget s. destruct (tcp_find_listener port s); [|sret; ranges]. cell set_conn_safe. intros _ _. sret. ranges.
Qed.

Lemma net_tcp_connect_safe dst_ip dst_port src_port :
  is_u32 dst_ip -> is_u16 dst_port -> is_u16 src_port -> nsafe (net_tcp_connect dst_ip dst_port src_port) conn_or_neg.
Proof.
  intros Hip Hdp Hsp. unfold net_tcp_connect, conn_or_neg. scase; [sret; lia|]. snext tcp_alloc_conn_safe. intros [i|] Hi; [|sret; lia].
  specialize (Hi i eq_refl). sget s. open_wf s. cell set_conn_safe. intros _ _.
  eapply safe_bind; [smod; intros t Ht; upd Ht|]. intros _ _. snext get_conn_safe; [done|]. intros c Hc.
  snext send_empty_safe; [unfold is_byte, TCP_FLAG_SYN; lia|]. intros ok _.
  scase; [cell set_conn_safe; intros _ _; sret; lia|]. sget t. open_wf t. cell set_conn_safe. intros _ _. sret. lia.
Qed.

(** An accepted connection with its peer. *)
Definition accepted_conn (r : option (Z * Z * Z)) : Prop :=
  match r with Some (conn, ip, port) => 0 <= conn < 32 /\ is_u32 ip /\ is_u16 port | None => True end.

Lemma net_tcp_accept_safe port : nsafe (net_tcp_accept port) accepted_conn.
Proof.
  unfold net_tcp_accept. sget s. destruct (tcp_find_listener port s) as [l|]; [|by sret].
  destruct (find_idx _ _) as [i|] eqn:Hi; [|by sret]. apply (conn_index s) in Hi; [|done].
  cell set_conn_safe. intros _ _. snext get_conn_safe; [done|]. intros c []. sret. unfold accepted_conn. split; [lia|done].
Qed.

Lemma valid_id_lt conn_id : valid_id conn_id = true -> 0 <= conn_id /\ (Z.to_nat conn_id < 32)%nat.
Proof. unfold valid_id. intros Hv. apply negb_true_iff in Hv. bsimpl. consts. lia. Qed.

Lemma net_tcp_send_safe n conn_id payload payload_len :
  match payload with Some p => buffer n p | None => True end -> 0 <= payload_len <= n ->
  nsafe (net_tcp_send conn_id payload payload_len) (fun r => 0 <= r <= TCP_MAX_PAYLOAD).
Proof.
  intros Hp Hl. unfold net_tcp_send. destruct payload as [p|]; [|sret; consts; lia].
  scase; [sret; consts; lia|]. match goal with H : valid_id _ = true |- _ => apply valid_id_lt in H as [? ?] end.
  snext get_conn_safe; [done|]. intros c Hc. scase; [sret; consts; lia|]. cbv zeta.
  set (k := if TCP_MAX_PAYLOAD <? payload_len then TCP_MAX_PAYLOAD else payload_len).
  assert (0 <= k <= payload_len /\ k <= 1200) as [Hk1 Hk2] by (unfold k; consts; case_if; bsimpl; lia). clearbody k.
  snext (tcp_send_and_track_safe n); [done|vm_compute; split; congruence|done|lia|lia|].
  intros ok _. scase; sret; consts; lia.
Qed.

Lemma net_tcp_recv_safe conn_id buf max_len :
  0 <= max_len -> nsafe (net_tcp_recv conn_id buf max_len) (fun r => Forall is_byte r /\ Z.of_nat (length r) <= max_len).
Proof.
  intros Hm. unfold net_tcp_recv. scase; [by sret|].
  match goal with H : valid_id _ = true |- _ => apply valid_id_lt in H as [? ?] end.
  snext get_conn_safe; [done|]. intros c []. scase; [by sret|]. consts. destruct (cw_ring) as (Hh & Hc & Ht).
  snext (safe_elem net_wf segment_wf); [lia|done|]. intros seg []. cbv zeta. consts.
  set (k := if max_len <? ts_len seg then max_len else ts_len seg).
  assert (0 <= k <= ts_len seg /\ k <= max_len) as [Hk1 Hk2] by (unfold k; case_if; bsimpl; lia). clearbody k.
  snext (safe_rd_bytes net_wf 1200); [done|lia|lia|lia|]. intros bytes [Hbl Hb].
  eapply safe_bind; [apply set_conn_safe|intros _ _; sret; by rewrite Hbl].
  intros _ _. constructor; cbn; try assumption. by apply ring_wf_pop; [|lia].
Qed.

Lemma net_tcp_close_safe conn_id : nsafe (net_tcp_close conn_id) is_bool.
Proof.
  unfold net_tcp_close. scase; [sret; ranges|]. match goal with H : valid_id _ = true |- _ => apply valid_id_lt in H as [? ?] end.
  snext get_conn_safe; [done|]. intros c Hc. scase; [sret; ranges|]. cbv zeta.
  assert (forall j, nsafe (set_conn j (fun c => c <| c_used := 0 |> <| c_state := TCP_STATE_CLOSED |>) ≫= fun _ => mret 1) is_bool)
    as Hdrop by (intros j; cell set_conn_safe; intros _ _; sret; ranges).
  scase; [done|]. scase; [|done].
  snext (tcp_send_and_track_safe 0); [done|vm_compute; split; congruence|done|lia|done|].
  intros ok _. scase; [|done]. cell set_conn_safe. intros _ _. sret. ranges.
Qed.

Lemma poll_conn_safe i : (i < 32)%nat -> nsafe (poll_conn i) is_bool.
Proof.
  intros Hi. unfold poll_conn. snext get_conn_safe; [done|]. intros c Hc. scase; [sret; ranges|]. sget s. scase; [|sret; ranges].
  snext tcp_retransmit_last_safe; [done|]. intros r _. sret. case_if; ranges.
Qed.

Lemma poll_from_safe n : forall lo r, (lo + n <= 32)%nat -> nsafe (poll_from lo n r) (fun r' => r <= r' <= r + Z.of_nat n).
Proof.
  induction n as [|n IH]; intros lo r Hn; cbn [poll_from]; [sret; lia|].
  snext poll_conn_safe; [lia|]. intros x Hx. eapply safe_mono; [apply IH; lia|]. intros r' Hr'. simpl in Hr'. unfold is_bool in Hx. lia.
Qed.

Lemma net_tcp_poll_safe : nsafe net_tcp_poll (fun r => 0 <= r <= 32).
Proof. eapply safe_mono; [apply (poll_from_safe 32); lia|]. intros r Hr. simpl in Hr. lia. Qed.
