(* ===== verification/NetRecvSafe.v ===== *)
(** * Receiving is safe (kernel/net.c)

    Whatever arrives on the wire, the handlers of the frames keep the invariant of the
    stack and stay within the frame buffer and the reassembly slots. *)
From S2P Require Import Prelude Fault Bytes Buffers NetState NetSend NetTcp NetRecv NetWf NetSendSafe NetTcpSafe.

(** ** Reassembly *)

Lemma set_slot_safe i f : (forall r, slot_wf r -> slot_wf (f r)) -> nsafe (set_slot i f) (fun _ => True).
Proof. intros Hf. smod. intros s Hs. upd Hs; [by rewrite length_alter|by apply Forall_alter_all]. Qed.

Lemma get_slot_safe i : (i < 4)%nat -> nsafe (get_slot i) slot_wf.
Proof.
  intros Hi. unfold get_slot. sget s. open_wf s.
  apply safe_elem; [rewrite nw_slots_length; unfold IPV4_REASS_SLOT_MAX; lia|done].
Qed.

Lemma ipv4_reassembly_gc_safe : nsafe ipv4_reassembly_gc (fun _ => True).
Proof.
  smod. intros s Hs. upd Hs; [by rewrite length_map|]. apply Forall_map. apply Forall_impl with slot_wf; [|eassumption]. intros r Hr.
  unfold gc_slot. repeat case_if; try done. upd Hr.
Qed.

Lemma reass_scan_bound same l : forall i free ot old,
  (forall j, free = Some j -> (j < i + length l)%nat) -> (forall j, old = Some j -> (j < i + length l)%nat) -> (0 < i + length l)%nat ->
  (reass_scan same l i free ot old < i + length l)%nat.
Proof.
  induction l as [|r l IH]; intros i free ot old Hf Ho Hl; cbn [reass_scan length] in *.
  - destruct free as [j|]; [by apply Hf|]. destruct old as [j|]; [by apply Ho|]. simpl. lia.
  - rewrite <- Nat.add_succ_comm in *. repeat case_if; try lia.
    + apply IH; [|done|lia]. intros j. destruct free as [k|]; [apply Hf|]. intros [= <-]. lia.
    + apply IH; [done| |lia]. intros j [= <-]. lia.
    + by apply IH.
Qed.

Lemma present_set_buffer p b : buffer PRESENT_BYTES p -> buffer PRESENT_BYTES (ipv4_reass_present_set p b).
Proof.
  intros [Hl Hp]. unfold ipv4_reass_present_set. case_if; [done|]. split; [by rewrite length_insert|].
  apply Forall_insert; [done|]. unfold is_byte. apply u8_range.
Qed.

Lemma present_set_range_buffer a b p : buffer PRESENT_BYTES p -> buffer PRESENT_BYTES (present_set_range a b p).
Proof.
  unfold present_set_range. generalize (blocks a b). intros l. revert p.
  induction l as [|x l IH]; intros p Hp; [done|]. simpl. by apply IH, present_set_buffer.
Qed.

Lemma store_fragment_safe nh np i frag_offset more ip_header header_len payload payload_len :
  (i < 4)%nat -> buffer nh ip_header -> 0 <= header_len <= 60 -> header_len <= nh -> buffer np payload -> 0 <= payload_len <= np ->
  0 <= frag_offset -> frag_offset + payload_len <= 4096 ->
  nsafe (store_fragment i frag_offset more ip_header header_len payload payload_len) (fun _ => True).
Proof.
  intros Hi Hh Hhl Hnh Hp Hpl Ho Ht. unfold store_fragment.
  apply safe_bind with (fun _ => True).
  { scase; [|by sret]. snext get_slot_safe; [done|]. intros r []. consts. snext (safe_rd_bytes net_wf nh); [done|lia|lia|lia|]. intros b Hb.
    snext (safe_put net_wf 60); [done|done|lia|lia|]. intros h Hhb. apply set_slot_safe. intros r' Hr'. upd Hr'. }
  intros _ _. apply safe_bind with (fun _ => True).
  { scase; [|by sret]. snext get_slot_safe; [done|]. intros r []. consts. snext (safe_rd_bytes net_wf np); [done|lia|lia|lia|]. intros b Hb.
    snext (safe_put net_wf 4096); [done|done|lia|lia|]. intros d Hd. apply set_slot_safe. intros r' Hr'. upd Hr'.
    by apply present_set_range_buffer. }
  intros _ _. scase; [|by sret]. apply set_slot_safe. intros r' Hr'. upd Hr'. consts. rewrite u16_small; lia.
Qed.

Lemma assemble_safe r : slot_wf r -> nsafe (assemble r) (buffer 4156).
Proof.
  intros []. unfold assemble. consts. snext (safe_rd_bytes net_wf 60); [done|lia|lia|lia|]. intros h Hh.
  snext (safe_puts net_wf 4156); [apply buffer_zero; lia|stores|]. intros out Hout.
  snext (safe_rd_bytes net_wf 4156); [done|lia|lia|lia|]. intros h2 Hh2.
  snext (safe_put net_wf 4156); [done|apply be16_buffer|lia|lia|]. intros out2 Hout2.
  snext (safe_rd_bytes net_wf 4096); [done|lia|lia|lia|]. intros body Hbody.
  eapply safe_put; [done|done|lia|lia].
Qed.

Definition reassembled (r : option (list Z * Z)) : Prop :=
  match r with Some (ip, len) => buffer 4156 ip /\ 0 <= len <= 4156 | None => True end.

Lemma ipv4_reassemble_packet_safe nh np src_ip dst_ip proto ident flags ip_header header_len payload payload_len :
  is_u32 src_ip -> is_u32 dst_ip -> is_byte proto -> is_u16 ident -> buffer nh ip_header -> 60 <= nh -> buffer np payload ->
  0 <= payload_len < 65536 -> (payload_len <= 4096 -> payload_len <= np) ->
  nsafe (ipv4_reassemble_packet src_ip dst_ip proto ident flags ip_header header_len payload payload_len) reassembled.
Proof.
  intros Hs Hd Hpr Hid Hh Hnh Hp Hpl Hnp. unfold ipv4_reassemble_packet. cbv zeta. consts. scase; [by sret|].
  set (fo := u16 _). assert (0 <= fo < 65536) by apply u16_range. clearbody fo. rewrite (u32_small (fo + _)) by lia. scase; [by sret|].
  specialize (Hnp ltac:(lia)). snext ipv4_reassembly_gc_safe. intros _ _. sget s.
  set (i := reass_scan _ _ _ _ _ _).
  assert (i < 4)%nat as Hi.
  { pose proof (reass_scan_bound (same_packet src_ip dst_ip ident proto) (ipv4_reass s) 0 None 0xFFFFFFFF None) as Hb.
    match goal with Hw : net_wf s |- _ => rewrite (nw_slots_length _ Hw) in Hb end. apply Hb; [done|done|]. unfold IPV4_REASS_SLOT_MAX. lia. }
  clearbody i. eapply safe_bind.
  { apply set_slot_safe. intros r Hr. open_wf s. case_if; [|upd Hr].
    upd Hr; [consts; lia..|]. apply buffer_zero. unfold PRESENT_BYTES, IPV4_REASS_MAX_PAYLOAD. vm_compute. congruence. }
  intros _ _. snext (store_fragment_safe nh np); try done; try lia. intros _ _.
  snext get_slot_safe; [done|]. intros r Hr. scase; [by sret|].
  snext assemble_safe; [done|]. intros out Hout. eapply safe_bind; [apply set_slot_safe; intros r' Hr'; upd Hr'|].
  intros _ _. sret. split; [done|]. destruct Hr. consts. rewrite u16_small; lia.
Qed.

(** ** Frames *)

Lemma malformed_bool : nsafe malformed is_bool.
Proof. snext net_count_malformed_safe. intros _ _. sret. ranges. Qed.

(** A packet that lies in its buffer, or claims more bytes than any handler takes. *)
Lemma ipv4_deliver_safe n ip header_len total_len protocol src_ip dst_ip :
  buffer n ip -> 1800 <= n -> 0 <= header_len <= 60 -> is_u32 src_ip -> header_len <= total_len < 65536 ->
  (total_len <= 5000 -> total_len <= n) -> total_len - header_len <= 65515 ->
  nsafe (ipv4_deliver ip header_len total_len protocol src_ip dst_ip) is_bool.
Proof.
  intros Hp Hn Hh Hs Ht Hd H20. unfold ipv4_deliver. cbv zeta. rewrite (u16_small (total_len - _)) by lia.
  assert (buffer (n - header_len) (at_ ip header_len)) as Hb by (apply buffer_at; [lia|done]).
  scase; [|scase; [|scase; [|sret; ranges]]]; (scase; [sret; ranges|]).
  - snext (safe_rd net_wf (n - header_len)); [done|lia|]. intros b0 _.
    apply safe_bind with (fun _ => True).
    { scase; [|by sret]. snext (safe_rd net_wf (n - header_len)); [done|lia|]. intros; by sret. }
    intros echo _. destruct echo; [|sret; ranges].
    destruct (Z.le_gt_cases (total_len - header_len) 4096).
    + apply net_send_icmp_echo_reply_safe with (n - header_len); [done|consts; lia|]. specialize (Hd ltac:(lia)). lia.
    + unfold net_send_icmp_echo_reply. sget s. scase; [sret; ranges|].
      consts. destruct (Z.ltb_spec 4096 (total_len - header_len)); [|lia]. rewrite orb_true_r. sret. ranges.
  - apply net_handle_udp_datagram_safe with (n - header_len); done || lia.
  - apply net_handle_tcp_segment_safe with (n - header_len); done || lia.
Qed.

Lemma ihl_bound b : is_byte b -> 0 <= Z.land b 15 * 4 <= 60.
Proof. intros Hb. change 15 with (Z.ones 4). rewrite Z.land_ones by lia. pose proof (Z.mod_pos_bound b (2 ^ 4)). lia. Qed.

Lemma net_handle_ipv4_frame_safe frame len :
  buffer 2048 frame -> 0 <= len <= 2048 -> nsafe (net_handle_ipv4_frame frame len) is_bool.
Proof.
  intros Hf Hl. unfold net_handle_ipv4_frame. scase; [apply malformed_bool|].
  snext ipv4_reassembly_gc_safe. intros _ _.
  snext (safe_rd net_wf 2048); [done|lia|]. intros vi Hvi. scase; [sret; ranges|].
  pose proof (ihl_bound vi Hvi). rewrite (u16_small (_ * 4)) by lia. cbv zeta.
  set (h := Z.land vi 15 * 4) in *. clearbody h. scase; [apply malformed_bool|].
  snext (safe_read_be16 net_wf 2048); [done|lia|lia|]. intros tot Htot. unfold is_u16 in Htot. scase; [apply malformed_bool|].
  rewrite (u16_small (14 + h)) in * by lia.
  assert (tot <= 5000 -> tot <= 2034) as Hin by (intros; rewrite u16_small in * by lia; lia).
  snext (safe_rd_bytes net_wf 2048); [done|lia|lia|lia|]. intros hd Hhd. scase; [apply malformed_bool|].
  snext (safe_rd net_wf 2048); [done|lia|]. intros pr Hpr.
  do 2 (snext (safe_read_be32 net_wf 2048); [done|lia|lia|]; intros ? ?).
  do 2 (snext (safe_read_be16 net_wf 2048); [done|lia|lia|]; intros ? ?).
  snext (safe_rd_bytes net_wf 2048); [done|lia|lia|lia|]. intros mac Hmac.
  snext arp_cache_update_safe; [done|done|]. intros _ _. sget s.
  assert (buffer 2034 (at_ frame 14)) as H14 by (by apply (buffer_at 2048 14)).
  scase; [by apply net_forward_ipv4_packet_safe with 2034|].
  scase; [|by apply ipv4_deliver_safe with 2034; try lia].
  rewrite (u16_small (tot - h)) by lia. rewrite (u8_small h) by lia.
  snext (ipv4_reassemble_packet_safe 2034 (2048 - (14 + h))); try done; try lia.
  { apply buffer_at; [lia|done]. }
  intros [[ip alen]|] Hr; [|sret; ranges]. destruct Hr as [Hip Ha].
  snext (safe_rd net_wf 4156); [done|lia|]. intros vi2 Hvi2. pose proof (ihl_bound vi2 Hvi2).
  rewrite (u16_small (_ * 4)) by lia. set (h2 := Z.land vi2 15 * 4) in *. scase; [sret; ranges|].
  snext (safe_rd net_wf 4156); [done|lia|]. intros pr2 _.
  do 2 (snext (safe_read_be32 net_wf 4156); [done|lia|lia|]; intros ? ?). sget t. scase; [sret; ranges|].
  by apply ipv4_deliver_safe with 4156; try lia.
Qed.

Lemma net_handle_arp_frame_safe frame len : buffer 2048 frame -> nsafe (net_handle_arp_frame frame len) is_bool.
Proof.
  intros Hf. unfold net_handle_arp_frame. scase; [apply malformed_bool|].
  do 3 (snext (safe_read_be16 net_wf 2048); [done|lia|lia|]; intros ? ?).
  do 2 (snext (safe_rd net_wf 2048); [done|lia|]; intros ? ?). scase; [sret; ranges|].
  snext (safe_rd_bytes net_wf 2048); [done|lia|lia|lia|]. intros mac Hmac.
  do 2 (snext (safe_read_be32 net_wf 2048); [done|lia|lia|]; intros ? ?).
  snext arp_cache_update_safe; [done|done|]. intros _ _. sget s. scase; [|sret; ranges].
  snext net_send_arp_reply_safe; [done|]. intros. sret. ranges.
Qed.

Lemma net_handle_eth_frame_safe frame len : buffer 2048 frame -> 0 <= len <= 2048 -> nsafe (net_handle_eth_frame frame len) is_bool.
Proof.
  intros Hf Hl. unfold net_handle_eth_frame. scase.
  { snext count_up_safe; [stats|]. intros _ _. sret. ranges. }
  snext count_up_safe; [stats|]. intros _ _. snext (safe_read_be16 net_wf 2048); [done|lia|lia|]. intros e _.
  snext net_count_ethertype_safe. intros _ _. scase; [by apply net_handle_ipv4_frame_safe|].
  scase; [by apply net_handle_arp_frame_safe|sret; ranges].
Qed.

(** ** The ring of the card *)

(** What the card may show: the ring holds its bytes, and the stack frame is of its size. *)
Definition card_ok (card : Card) : Prop :=
  forall n, 8192 <= Z.of_nat (length (rtl_rx_buffer card n)) /\ Forall is_byte (rtl_rx_buffer card n) /\ buffer FRAME_BUFFER (stack_frame card n).

Lemma copy_ring_buffer ring o n : 8192 <= Z.of_nat (length ring) -> Forall is_byte ring -> 0 <= n -> buffer n (copy_ring_bytes ring o n).
Proof.
  intros Hl Hr Hn. unfold copy_ring_bytes. split; [rewrite length_map, length_seqZ; lia|].
  apply Forall_map, Forall_forall. intros i _. simpl. apply lookup_byte; [done|].
  unfold RTL_RX_BUFFER_MASK. change 8191 with (Z.ones 13). rewrite Z.land_ones by lia.
  pose proof (Z.mod_pos_bound (u32 (o + i)) (2 ^ 13)). lia.
Qed.

Lemma read_le16_range p o : 0 <= Bytes.read_le16 p o < 65536.
Proof. apply u16_range. Qed.

Lemma rx_one_safe card guard : card_ok card -> nsafe (rx_one card guard) (fun _ => True).
Proof.
  intros Hc. destruct (Hc guard) as (Hrl & Hrb & Hst). unfold rx_one. sget s. scase; [by sret|]. cbv zeta.
  set (pl := Bytes.read_le16 _ 2). assert (0 <= pl < 65536) by apply read_le16_range. clearbody pl.
  scase; [snext count_up_safe; [stats|]; intros; by sret|].
  unfold FRAME_BUFFER in *. rewrite (u16_small (2048 + 4)) in * by lia. rewrite (u32_small (pl - 4)) by lia.
  destruct (Z.ltb_spec 2048 (pl - 4)); [lia|].
  snext (safe_put net_wf 2048); [done|apply copy_ring_buffer; [done|done|lia]|lia|lia|]. intros frame Hf.
  rewrite (u16_small (pl - 4)) by lia. snext net_handle_eth_frame_safe; [done|lia|]. intros _ _.
  eapply safe_bind; [|intros; by sret]. smod. intros t Ht. upd Ht. unfold RTL_RX_BUFFER_MASK. change 8191 with (Z.ones 13).
  rewrite Z.land_ones by lia. apply Z.mod_pos_bound. lia.
Qed.

Lemma rx_loop_safe card : card_ok card -> forall n guard processed,
  nsafe (rx_loop card n guard processed) (fun r => processed <= r <= processed + Z.of_nat n).
Proof.
  intros Hc. induction n as [|n IH]; intros guard processed; cbn [rx_loop]; [sret; lia|].
  snext rx_one_safe; [done|]. intros go _. destruct go; [|sret; lia].
  eapply safe_mono; [apply IH|]. intros r Hr. simpl in Hr. lia.
Qed.

Lemma net_rx_poll_budget_safe card max : card_ok card -> 0 <= max -> nsafe (net_rx_poll_budget card max) (fun r => 0 <= r <= max).
Proof.
  intros Hc Hm. unfold net_rx_poll_budget. sget s. scase; [sret; lia|].
  eapply safe_mono; [by apply rx_loop_safe|]. intros r Hr. simpl in Hr. lia.
Qed.

Lemma count_batch_safe (b : bool) : nsafe (if b then count_up (fun t => t <| coalesced_batches ::= up |>) else mret tt) (fun _ => True).
Proof. scase; [apply count_up_safe; stats|by sret]. Qed.

Lemma net_rx_poll_safe card : card_ok card -> nsafe (net_rx_poll card) (fun r => 0 <= r <= 256).
Proof.
  intros Hc. unfold net_rx_poll. sget s. open_wf s. snext net_rx_poll_budget_safe; [done|lia|]. intros r Hr. sget t.
  snext count_batch_safe. intros _ _. sret. simpl in Hr. lia.
Qed.

Lemma net_irq_handler_safe card isr : card_ok card -> nsafe (net_irq_handler card isr) (fun r => 0 <= r <= 512).
Proof.
  intros Hc. unfold net_irq_handler. sget s. do 2 (scase; [sret; lia|]). open_wf s. snext count_up_safe; [stats|]. intros _ _. scase; [|sret; lia].
  snext count_up_safe; [stats|]. intros _ _. snext net_rx_poll_budget_safe; [done|lia|]. intros r Hr. sget t.
  snext count_batch_safe. intros _ _. sret. simpl in Hr. lia.
Qed.
