(* ===== verification/NetWire.v ===== *)
(** * What goes over the wire (kernel/net.c)

    Stores that follow each other, fields that are read back, checksums that verify, and
    the frames a send hands to the card. *)
From S2P Require Import Prelude Fault Bytes Buffers NetState NetSend NetTcp NetRecv NetWf NetSendSafe.

(** ** Stores in a row *)

Lemma splice_end (pre b rest : list Z) : (length b <= length rest)%nat ->
  splice (Z.of_nat (length pre)) b (pre ++ rest) = pre ++ b ++ drop (length b) rest.
Proof.
  intros Hb. unfold splice. rewrite Nat2Z.id, take_app_length. f_equal. f_equal.
  rewrite drop_app. rewrite drop_ge by lia. simpl. f_equal. lia.
Qed.

(** The stores of [ws] fill the bytes from [o] on. *)
Fixpoint contiguous (o : Z) (ws : list (Z * list Z)) : Prop :=
  match ws with
  | [] => True
  | (o', b) :: ws' => o' = o /\ contiguous (o + Z.of_nat (length b)) ws'
  end.
Definition stored (ws : list (Z * list Z)) : list Z := concat (map snd ws).

(** A part of a list of parts. *)
Lemma slice_mid (pre b rest : list Z) o n : o = Z.of_nat (length pre) -> n = Z.of_nat (length b) -> slice o n (pre ++ b ++ rest) = b.
Proof. intros -> ->. unfold slice. by rewrite !Nat2Z.id, drop_app_length, take_app_length. Qed.
Lemma splice_mid (pre b old rest : list Z) o : o = Z.of_nat (length pre) -> length old = length b ->
  splice o b (pre ++ old ++ rest) = pre ++ b ++ rest.
Proof. intros -> Hl. rewrite splice_end by (rewrite length_app; lia). by rewrite <- Hl, drop_app_length. Qed.

Section Stores.
Context {S : Type}.

(** A call with a known end, in front of the rest. *)
Lemma bind_done {A B} (m : FST S A) (k : A -> FST S B) s s' a : m s = Done s' a -> (m ≫= k) s = k a s'.
Proof. intros E. unfold mbind, FST_bind. by rewrite E. Qed.
Lemma bind_get {B} (k : S -> FST S B) (s : S) : (fget ≫= k) s = k s s.
Proof. done. Qed.
Lemma bind_mod {B} (f : S -> S) (k : unit -> FST S B) s : (fmod f ≫= k) s = k tt (f s).
Proof. done. Qed.

Lemma put_done (o : Z) b p (s : S) : 0 <= o -> o + Z.of_nat (length b) <= Z.of_nat (length p) -> put o b p s = Done s (splice o b p).
Proof.
  intros Ho Hb. unfold put. by destruct (Z.leb_spec 0 o), (Z.leb_spec (o + Z.of_nat (length b)) (Z.of_nat (length p))); try lia.
Qed.

Lemma puts_contiguous ws : forall pre rest (s : S),
  contiguous (Z.of_nat (length pre)) ws -> (length (stored ws) <= length rest)%nat ->
  puts ws (pre ++ rest) s = Done s (pre ++ stored ws ++ drop (length (stored ws)) rest).
Proof.
  induction ws as [|[o b] ws IH]; intros pre rest s Hc Hl; [by rewrite drop_0|].
  destruct Hc as [-> Hc]. unfold stored in *. cbn [map concat snd] in *. rewrite length_app in Hl. cbn [puts].
  unfold mbind, FST_bind. rewrite put_done by (rewrite ?length_app; lia). rewrite splice_end by lia.
  rewrite app_assoc. rewrite IH.
  - rewrite length_app, drop_drop, <- !app_assoc. done.
  - rewrite length_app, Nat2Z.inj_add. done.
  - rewrite length_drop. lia.
Qed.

(** ** Fields read back *)

Lemma rd_done p o b (s : S) : p !! Z.to_nat o = Some b -> 0 <= o -> rd p o s = Done s b.
Proof.
  intros Hb Ho. unfold rd. pose proof (lookup_lt_Some _ _ _ Hb).
  rewrite (list_lookup_total_correct _ _ _ Hb).
  by destruct (Z.leb_spec 0 o), (Z.ltb_spec o (Z.of_nat (length p))); try lia.
Qed.

Lemma rd_bytes_done p o n (s : S) : 0 <= o -> 0 <= n -> o + n <= Z.of_nat (length p) -> rd_bytes p o n s = Done s (slice o n p).
Proof.
  intros Ho Hn Hl. unfold rd_bytes.
  by destruct (Z.leb_spec 0 o), (Z.leb_spec 0 n), (Z.leb_spec (o + n) (Z.of_nat (length p))); try lia.
Qed.

Lemma elem_done {A} (l : list A) i x (s : S) : l !! Z.to_nat i = Some x -> 0 <= i -> elem l i s = Done s x.
Proof. intros Hx Hi. unfold elem. rewrite Hx. by destruct (Z.leb_spec 0 i); [|lia]. Qed.

Lemma be16_back v : is_u16 v -> u16 (Z.lor (Z.shiftl (u8 (Z.shiftr v 8)) 8) (u8 (Z.land v 0xFF))) = v.
Proof.
  intros Hv. unfold is_u16 in Hv. change 0xFF with (Z.ones 8). rewrite Z.land_ones by lia.
  rewrite Z.lor_comm, lor_shift; [|lia|apply u8_range|pose proof (u8_range (Z.shiftr v 8)); lia].
  rewrite Z.shiftr_div_pow2 by lia. unfold u8. rewrite Zmod_mod, (Z.mod_small (v / 2 ^ 8)).
  - rewrite (Z_div_mod_eq_full v (2 ^ 8)) at 3. rewrite u16_small; [lia|]. pose proof (Z_div_mod_eq_full v (2 ^ 8)). lia.
  - split; [apply Z.div_pos; lia|]. apply Z.div_lt_upper_bound; lia.
Qed.

Lemma read_be16_back p o v (s : S) :
  is_u16 v -> 0 <= o -> p !! Z.to_nat o = Some (u8 (Z.shiftr v 8)) -> p !! Z.to_nat (o + 1) = Some (u8 (Z.land v 0xFF)) ->
  read_be16 p o s = Done s v.
Proof.
  intros Hv Ho Ha Hb. unfold read_be16, mbind, FST_bind. rewrite (rd_done _ _ _ s Ha Ho), (rd_done _ _ _ s Hb) by lia.
  unfold mret, FST_ret. by rewrite be16_back.
Qed.

Lemma read_be16_slice p o v (s : S) : is_u16 v -> 0 <= o -> slice o 2 p = be16_bytes v -> read_be16 p o s = Done s v.
Proof.
  intros Hv Ho Hp.
  assert (forall k, (k < 2)%nat -> p !! (Z.to_nat o + k)%nat = be16_bytes v !! k) as Hk by (intros k Hk; by rewrite <- Hp, slice_lookup by lia).
  apply read_be16_back; [done|done| |].
  - rewrite <- (Nat.add_0_r (Z.to_nat o)). by rewrite Hk by lia.
  - replace (Z.to_nat (o + 1)) with (Z.to_nat o + 1)%nat by lia. by rewrite Hk by lia.
Qed.

Lemma octet_bit v k m : 0 <= k -> Z.testbit (u8 (Z.land (Z.shiftr v k) 0xFF)) m = (0 <=? m) && (m <? 8) && Z.testbit v (m + k).
Proof.
  intros Hk. destruct (Z.leb_spec 0 m); [|by rewrite Z.testbit_neg_r by lia].
  rewrite u8_testbit, Z.land_spec, Z.shiftr_spec by lia. change 0xFF with (Z.ones 8).
  destruct (Z.ltb_spec m 8); [|done]. rewrite Z.ones_spec_low by lia. by rewrite andb_true_r.
Qed.

Lemma be32_back v : is_u32 v ->
  u32 (Z.lor (Z.lor (Z.lor (Z.shiftl (u8 (Z.land (Z.shiftr v 24) 0xFF)) 24) (Z.shiftl (u8 (Z.land (Z.shiftr v 16) 0xFF)) 16))
                    (Z.shiftl (u8 (Z.land (Z.shiftr v 8) 0xFF)) 8)) (u8 (Z.land v 0xFF))) = v.
Proof.
  intros Hv. rewrite <- (u32_small v) at 5 by done. unfold u32.
  apply Z.bits_inj'. intros n Hn. destruct (Z.lt_ge_cases n 32); [|by rewrite !Z.mod_pow2_bits_high by lia].
  rewrite !Z.mod_pow2_bits_low by lia. rewrite <- (Z.shiftr_0_r v) at 4.
  rewrite !Z.lor_spec, !Z.shiftl_spec, !octet_bit by lia. rewrite !Z.sub_add, Z.add_0_r.
  repeat match goal with |- context [?a <=? ?b] => destruct (Z.leb_spec a b); try lia | |- context [?a <? ?b] => destruct (Z.ltb_spec a b); try lia end;
    by destruct (Z.testbit v n).
Qed.

Lemma read_be32_back p o v (s : S) :
  is_u32 v -> 0 <= o -> slice o 4 p = be32_bytes v -> read_be32 p o s = Done s v.
Proof.
  intros Hv Ho Hp.
  assert (forall k b, be32_bytes v !! k = Some b -> rd p (o + Z.of_nat k) s = Done s b) as Hrd.
  { intros k b Hk. pose proof (lookup_lt_Some _ _ _ Hk) as Hlt. cbn in Hlt. rewrite <- Hp, slice_lookup in Hk by lia.
    apply rd_done; [|lia]. rewrite <- Hk. f_equal. lia. }
  unfold read_be32, mbind, FST_bind.
  pose proof (Hrd 0%nat _ eq_refl) as E0. rewrite Z.add_0_r in E0. rewrite E0.
  pose proof (Hrd 1%nat _ eq_refl) as E1. change (Z.of_nat 1) with 1 in E1. rewrite E1.
  pose proof (Hrd 2%nat _ eq_refl) as E2. change (Z.of_nat 2) with 2 in E2. rewrite E2.
  pose proof (Hrd 3%nat _ eq_refl) as E3. change (Z.of_nat 3) with 3 in E3. rewrite E3.
  unfold mret, FST_ret. by rewrite be32_back.
Qed.
End Stores.

(** ** Checksums *)

(** The sum of the 16-bit words of some bytes. *)
Fixpoint words_sum (data : list Z) : Z :=
  match data with
  | a :: b :: data' => 256 * a + b + words_sum data'
  | [a] => 256 * a
  | [] => 0
  end.

Lemma word_value a b : is_byte a -> is_byte b -> u16 (Z.lor (Z.shiftl a 8) b) = 256 * a + b.
Proof. unfold is_byte. intros Ha Hb. rewrite Z.lor_comm, lor_shift by lia. rewrite u16_small by lia. lia. Qed.

Lemma words_sum_range data : Forall is_byte data -> 0 <= words_sum data <= 65535 * Z.of_nat (length data).
Proof.
  induction data as [| |a b data IH] using pair_ind; intros Hd; cbn [words_sum length]; [lia|..].
  - apply Forall_cons_1 in Hd as [Ha _]. unfold is_byte in Ha. lia.
  - apply Forall_cons_1 in Hd as [Ha Hd]. apply Forall_cons_1 in Hd as [Hb Hd]. specialize (IH Hd). unfold is_byte in *. lia.
Qed.

(** The sum does not overflow its 32 bits. *)
Lemma sum_words_eq data : forall acc, Forall is_byte data -> 0 <= acc -> acc + words_sum data < 2 ^ 32 ->
  sum_words data acc = acc + words_sum data.
Proof.
  induction data as [| |a b data IH] using pair_ind; intros acc Hd Ha Hs; cbn [sum_words words_sum] in *; [lia|..].
  - apply Forall_cons_1 in Hd as [Hx _]. unfold is_byte in Hx. rewrite Z.shiftl_mul_pow2, u16_small, u32_small by lia. lia.
  - apply Forall_cons_1 in Hd as [Hx Hd]. apply Forall_cons_1 in Hd as [Hy Hd]. pose proof (words_sum_range data Hd).
    rewrite word_value by done. unfold is_byte in *. rewrite u32_small by lia. rewrite IH; [lia|done|lia|lia].
Qed.

Lemma words_sum_app a b : Nat.even (length a) = true -> words_sum (a ++ b) = words_sum a + words_sum b.
Proof.
  induction a as [| |x y a IH] using pair_ind; intros Ha; [done|done|]. cbn [app words_sum]. rewrite IH by done. lia.
Qed.

(** Folding the carries keeps the value modulo 65535. *)
Lemma fold_step x : 0 <= x -> Z.land x 0xFFFF + Z.shiftr x 16 = x - 65535 * (x / 65536).
Proof.
  intros Hx. change (Z.land x 0xFFFF) with (Z.land x (Z.ones 16)). rewrite Z.land_ones, Z.shiftr_div_pow2 by lia. change (2 ^ 16) with 65536.
  pose proof (Z_div_mod_eq_full x 65536). lia.
Qed.

Lemma fold_carries_ok x : 0 <= x < 2 ^ 32 ->
  exists k, fold_carries 4 x = x - 65535 * k /\ 0 <= fold_carries 4 x < 65536 /\ (0 < x -> 0 < fold_carries 4 x).
Proof.
  intros Hx.
  assert (forall n y, 0 <= y < 2 ^ 32 -> fold_carries (S n) y = if y <? 65536 then y else fold_carries n (y - 65535 * (y / 65536))) as Hn.
  { intros n y Hy. cbn [fold_carries]. rewrite Z.shiftr_div_pow2 by lia. change (2 ^ 16) with 65536.
    pose proof (Z_div_mod_eq_full y 65536). pose proof (Z.mod_pos_bound y 65536). destruct (Z.ltb_spec y 65536).
    - by rewrite (Z.div_small y 65536) by lia.
    - assert (1 <= y / 65536) by (apply Z.div_le_lower_bound; lia). destruct (Z.eqb_spec (y / 65536) 0); [lia|].
      pose proof (fold_step y ltac:(lia)) as Es. rewrite Z.shiftr_div_pow2 in Es by lia. change (2 ^ 16) with 65536 in Es.
      rewrite Es, u32_small; [done|]. assert (y / 65536 < 65536) by (apply Z.div_lt_upper_bound; lia). lia. }
  assert (forall y, 65536 <= y < 2 ^ 32 -> 0 < y - 65535 * (y / 65536) <= 131070) as Hs.
  { intros y Hy. pose proof (Z_div_mod_eq_full y 65536). pose proof (Z.mod_pos_bound y 65536).
    assert (1 <= y / 65536) by (apply Z.div_le_lower_bound; lia). assert (y / 65536 < 65536) by (apply Z.div_lt_upper_bound; lia). lia. }
  rewrite Hn by lia. destruct (Z.ltb_spec x 65536); [exists 0; lia|].
  pose proof (Hs x ltac:(lia)). set (y := x - 65535 * (x / 65536)) in *. rewrite Hn by lia.
  destruct (Z.ltb_spec y 65536); [exists (x / 65536); lia|].
  assert (y / 65536 = 1) as E by (symmetry; apply Z.div_unique with (y - 65536); lia). rewrite E. rewrite Hn by lia.
  destruct (Z.ltb_spec (y - 65535 * 1) 65536); [exists (x / 65536 + 1); lia|lia].
Qed.

Lemma complement x : 0 <= x < 65536 -> u16 (Z.land (Z.lnot x) 0xFFFF) = 65535 - x.
Proof.
  intros Hx. change (Z.land (Z.lnot x) 0xFFFF) with (Z.land (Z.lnot x) (Z.ones 16)). rewrite Z.land_ones by lia. unfold u16. rewrite Zmod_mod.
  unfold Z.lnot. symmetry. apply Z.mod_unique with (-1); lia.
Qed.

(** Bytes with their checksum in place sum to zero. *)
Lemma checksum_verifies pre post : Nat.even (length pre) = true -> Forall is_byte pre -> Forall is_byte post ->
  Z.of_nat (length pre + length post) <= 65000 ->
  internet_checksum (pre ++ be16_bytes (internet_checksum (pre ++ [0; 0] ++ post)) ++ post) = 0.
Proof.
  intros He Hpre Hpost Hl. set (c := internet_checksum (pre ++ [0; 0] ++ post)).
  assert (is_u16 c) as Hc by apply internet_checksum_u16. pose proof (words_sum_range pre Hpre). pose proof (words_sum_range post Hpost).
  unfold internet_checksum in c |- *.
  assert (Forall is_byte (be16_bytes c)) as Hcb by apply be16_buffer.
  assert (words_sum (be16_bytes c) = c) as Hcs.
  { unfold be16_bytes. cbn [words_sum]. rewrite Z.add_0_r. rewrite <- (be16_back c) at 3 by done.
    rewrite word_value; [done|apply u8_range|apply u8_range]. }
  assert (words_sum (pre ++ be16_bytes c ++ post) = words_sum pre + words_sum post + c) as E1
    by (rewrite words_sum_app, words_sum_app, Hcs by done; lia).
  assert (words_sum (pre ++ [0; 0] ++ post) = words_sum pre + words_sum post) as E0
    by (rewrite words_sum_app, words_sum_app by done; cbn [words_sum]; lia).
  unfold is_u16 in Hc.
  rewrite sum_words_eq; [|by repeat apply Forall_app_2|lia|lia]. rewrite E1.
  assert (c = 65535 - fold_carries 4 (words_sum pre + words_sum post)) as Ec.
  { unfold c. rewrite sum_words_eq; [|repeat apply Forall_app_2; try done; repeat constructor; unfold is_byte; lia|lia|lia].
    rewrite E0, Z.add_0_l. apply complement. destruct (fold_carries_ok (words_sum pre + words_sum post)) as (k & _ & ? & _); lia. }
  destruct (fold_carries_ok (words_sum pre + words_sum post)) as (k & Hk & Hr & Hp); [lia|].
  destruct (fold_carries_ok (0 + (words_sum pre + words_sum post + c))) as (k' & Hk' & Hr' & Hp'); [lia|].
  rewrite complement by lia.
  destruct (Z.eq_dec (words_sum pre + words_sum post + c) 0) as [Hz|Hz]; [|specialize (Hp' ltac:(lia)); lia].
  assert (words_sum pre + words_sum post = 0) as Hz0 by lia. rewrite Hz0 in Ec. change (fold_carries 4 0) with 0 in Ec. lia.
Qed.

(** ** Frames handed to the card *)

(** The state without what the transmitter keeps. *)
Definition core (s : Net) : Net := s <| rtl_tx_slot := 0 |> <| rtl_tx_buffer := [] |> <| sent := [] |>.
(** From [s] to [s'] only these frames were sent. *)
Definition sends (s s' : Net) (fs : list (list Z)) : Prop := core s' = core s /\ sent s' = sent s ++ fs.

Lemma sends_trans s1 s2 s3 f g : sends s1 s2 f -> sends s2 s3 g -> sends s1 s3 (f ++ g).
Proof. intros [Ha Hb] [Hc Hd]. split; [congruence|]. by rewrite Hd, Hb, app_assoc. Qed.

(** The card takes frames. *)
Definition transmits (s : Net) : Prop := net_wf s /\ net_ready s <> 0 /\ rtl_iobase s <> 0.

Lemma core_field {A} (f : Net -> A) (s s' : Net) fs : sends s s' fs -> (forall t, f (core t) = f t) -> f s' = f s.
Proof. intros [Hc _] Hf. by rewrite <- (Hf s'), Hc, Hf. Qed.

Lemma rtl8139_send_frame_exact s frame len :
  transmits s -> 0 < len <= 1514 -> len <= Z.of_nat (length frame) -> Forall is_byte frame ->
  exists s', rtl8139_send_frame frame len s = Done s' 1 /\ sends s s' [slice 0 len frame] /\ transmits s'.
Proof.
  intros (Hwf & Hr & Hi) Hlen Hfl Hb.
  assert (exists s', rtl8139_send_frame frame len s = Done s' 1 /\ sends s s' [slice 0 len frame]) as (s' & E & Hsend).
  { unfold rtl8139_send_frame, mbind, FST_bind, fget, fmod.
    destruct (Z.eqb_spec (net_ready s) 0); [done|]. destruct (Z.eqb_spec (rtl_iobase s) 0); [done|].
    destruct (Z.eqb_spec len 0); [lia|]. destruct (Z.ltb_spec 1514 len); [lia|]. cbn [orb].
    rewrite rd_bytes_done by lia. destruct Hwf.
    assert (buffer 1600 (rtl_tx_buffer s !!! Z.to_nat (rtl_tx_slot s))) as [Hbuf _].
    { eapply (Forall_lookup_1 _ _ _ _ nw_tx), list_lookup_lookup_total_lt. lia. }
    assert (Z.of_nat (length (slice 0 len frame)) = len) as Hsl by (rewrite slice_length; lia).
    rewrite put_done by lia. eexists. split; [done|]. split; [done|]. cbn.
    rewrite <- Hsl at 1. rewrite slice_splice_same; [done|]. unfold fits. lia. }
  exists s'. split; [done|]. split; [done|].
  pose proof (rtl8139_send_frame_safe _ frame len (conj eq_refl Hb) ltac:(lia) s Hwf) as Hsafe. unfold wpf in Hsafe. rewrite E in Hsafe.
  split; [apply Hsafe|]. by rewrite (core_field net_ready _ _ _ Hsend), (core_field rtl_iobase _ _ _ Hsend).
Qed.

(** The IPv4 header of 20 bytes. *)
Definition header_bytes (src_ip dst_ip total_len ident flags_off ttl protocol csum : Z) : list Z :=
  [0x45; 0x00] ++ be16_bytes total_len ++ be16_bytes ident ++ be16_bytes flags_off ++ [ttl; protocol] ++ be16_bytes csum
  ++ be32_bytes src_ip ++ be32_bytes dst_ip.
Definition header_sum (src_ip dst_ip total_len ident flags_off ttl protocol : Z) : Z :=
  internet_checksum (header_bytes src_ip dst_ip total_len ident flags_off ttl protocol 0).

(** A frame around a payload, as it leaves the card. *)
Definition frame_bytes (dst_mac src_mac : list Z) (src_ip dst_ip ident flags_off ttl protocol : Z) (payload : list Z) : list Z :=
  let total_len := 20 + Z.of_nat (length payload) in
  dst_mac ++ src_mac ++ be16_bytes ETH_TYPE_IPV4
  ++ header_bytes src_ip dst_ip total_len ident flags_off ttl protocol (header_sum src_ip dst_ip total_len ident flags_off ttl protocol)
  ++ payload ++ replicate (26 - length payload) 0.

Lemma header_bytes_split src_ip dst_ip total_len ident flags_off ttl protocol csum :
  header_bytes src_ip dst_ip total_len ident flags_off ttl protocol csum =
  ([0x45; 0x00] ++ be16_bytes total_len ++ be16_bytes ident ++ be16_bytes flags_off ++ [ttl; protocol]) ++ be16_bytes csum
  ++ be32_bytes src_ip ++ be32_bytes dst_ip.
Proof. done. Qed.

Lemma header_verifies src_ip dst_ip total_len ident flags_off ttl protocol : is_byte ttl -> is_byte protocol ->
  internet_checksum (header_bytes src_ip dst_ip total_len ident flags_off ttl protocol
                       (header_sum src_ip dst_ip total_len ident flags_off ttl protocol)) = 0.
Proof.
  intros Ht Hp. unfold header_sum. rewrite !header_bytes_split. change (be16_bytes 0) with [0; 0].
  assert (forall v, Forall is_byte (be16_bytes v)) as B16 by (intros; apply be16_buffer).
  assert (forall v, Forall is_byte (be32_bytes v)) as B32 by (intros; apply be32_buffer).
  apply checksum_verifies; [done| |by apply Forall_app_2|done].
  repeat apply Forall_app_2; try done; repeat (apply Forall_cons_2; [done || (unfold is_byte; lia)|]); apply Forall_nil_2.
Qed.

#[local] Opaque internet_checksum.

Lemma ipv4_frame_exact s dst_mac dst_ip ident flags_off ttl protocol payload :
  transmits s -> buffer 6 dst_mac -> is_byte ttl -> is_byte protocol -> Forall is_byte payload -> Z.of_nat (length payload) <= 1480 ->
  exists s', ipv4_frame dst_mac dst_ip ident flags_off ttl protocol payload s = Done s' 1 /\
    sends s s' [frame_bytes dst_mac (rtl_mac s) (net_ip s) dst_ip ident flags_off ttl protocol payload] /\ transmits s'.
Proof.
  intros Hs Hd Ht Hp Hpay Hl. unfold ipv4_frame. rewrite bind_get. cbv zeta.
  rewrite (u16_small (20 + Z.of_nat (length payload))) by lia. set (tot := 20 + Z.of_nat (length payload)).
  pose proof (nw_mac _ (proj1 Hs)) as [Hml Hmb]. destruct Hd as [Hdl Hdb].
  set (eth := dst_mac ++ rtl_mac s ++ be16_bytes ETH_TYPE_IPV4).
  assert (length eth = 14%nat) as Hel by (unfold eth; rewrite !length_app; cbn; lia).
  set (h := header_bytes (net_ip s) dst_ip tot ident flags_off ttl protocol).
  assert (forall c, length (h c) = 20%nat) as Hhl by done.
  assert (puts ([(0, dst_mac); (6, rtl_mac s); (12, be16_bytes ETH_TYPE_IPV4)] ++ ipv4_fields s dst_ip tot ident flags_off ttl protocol) empty_frame s
    = Done s (eth ++ h 0 ++ replicate 1480 0)) as E0.
  { set (ws := _ ++ ipv4_fields _ _ _ _ _ _ _). 
    assert (stored ws = eth ++ h 0) as Hst by (unfold eth, stored, ws; cbn; by rewrite <- !app_assoc).
    rewrite <- (app_nil_l empty_frame), puts_contiguous.
    - rewrite Hst, length_app, Hel, Hhl. unfold empty_frame. rewrite drop_replicate, <- app_assoc. done.
    - unfold ws. cbn. rewrite Hdl, Hml. repeat split; lia.
    - rewrite Hst, length_app, Hel, Hhl. unfold empty_frame. rewrite length_replicate. lia. }
  set (hf := [0x45; 0x00] ++ be16_bytes tot ++ be16_bytes ident ++ be16_bytes flags_off ++ [ttl; protocol]).
  assert (forall x, h x = hf ++ be16_bytes x ++ be32_bytes (net_ip s) ++ be32_bytes dst_ip) as Hhf by done.
  rewrite (bind_done _ _ _ _ _ E0). clear E0. set (c := header_sum (net_ip s) dst_ip tot ident flags_off ttl protocol).
  assert (ipv4_checksum 20 (eth ++ h 0 ++ replicate 1480 0) s = Done s (eth ++ h c ++ replicate 1480 0)) as E1.
  { unfold ipv4_checksum. rewrite (bind_done _ _ s s (h 0)).
    2:{ rewrite rd_bytes_done; [|lia|lia|rewrite !length_app, Hel, Hhl; lia]. f_equal. apply slice_mid; [by rewrite Hel|by rewrite Hhl]. }
    rewrite put_done; [|lia|rewrite !length_app, Hel, Hhl; cbn; lia]. f_equal.
    change (internet_checksum (h 0)) with c. rewrite !Hhf, <- !app_assoc, !(app_assoc eth hf).
    apply splice_mid; [by rewrite length_app, Hel|done]. }
  rewrite (bind_done _ _ _ _ _ E1). clear E1.
  assert (put 34 payload (eth ++ h c ++ replicate 1480 0) s = Done s ((eth ++ h c) ++ payload ++ drop (length payload) (replicate 1480 0))) as E2.
  { rewrite put_done; [|lia|rewrite !length_app, Hel, Hhl, length_replicate; lia]. f_equal. rewrite app_assoc.
    replace 34 with (Z.of_nat (length (eth ++ h c))) by (rewrite length_app, Hel, Hhl; done).
    apply splice_end. rewrite length_replicate. lia. }
  rewrite (bind_done _ _ _ _ _ E2). clear E2. rewrite drop_replicate, (u16_small (14 + tot)) by lia.
  set (f := frame_bytes dst_mac (rtl_mac s) (net_ip s) dst_ip ident flags_off ttl protocol payload).
  assert (Z.of_nat (length f) = padded (14 + tot)) as Hfl.
  { unfold f, frame_bytes. change (header_bytes (net_ip s) dst_ip _ _ _ _ _ _) with (h c).
    rewrite !length_app, Hhl, length_replicate. unfold padded, tot. cbn [length be16_bytes]. case_if; bsimpl; lia. }
  assert ((eth ++ h c) ++ payload ++ replicate (1480 - length payload) 0 = f ++ replicate (1480 - length payload - (26 - length payload)) 0) as Ef.
  { unfold f, frame_bytes. change (header_bytes (net_ip s) dst_ip _ _ _ _ _ _) with (h c). unfold eth.
    assert (forall k j, (j <= k)%nat -> replicate k 0 = replicate j 0 ++ replicate (k - j) 0) as Hrep
      by (intros k j Hj; rewrite <- replicate_add; f_equal; lia).
    rewrite (Hrep (1480 - length payload)%nat (26 - length payload)%nat) at 1 by lia. by rewrite <- !app_assoc. }
  rewrite Ef. pose proof (padded_bound (14 + tot) ltac:(lia)).
  destruct (rtl8139_send_frame_exact s (f ++ replicate (1480 - length payload - (26 - length payload)) 0) (padded (14 + tot))) as (s' & E & Hse & Ht').
  - done.
  - unfold padded in *. case_if; bsimpl; lia.
  - rewrite length_app. lia.
  - rewrite <- Ef. repeat apply Forall_app_2; try done; [apply be16_buffer|..]; try apply be16_buffer; try apply be32_buffer;
      try (apply Forall_replicate; unfold is_byte; lia);
      repeat (apply Forall_cons_2; [done || (unfold is_byte; lia)|]); try apply Forall_nil_2.
  - exists s'. split; [done|]. split; [|done]. replace [f] with [slice 0 (padded (14 + tot)) (f ++ replicate (1480 - length payload - (26 - length payload)) 0)]; [done|].
    f_equal. rewrite <- Hfl. by apply (slice_mid [] f).
Qed.

(** ** What sending leaves alone *)

Section Keeps.
Context {S X : Type} (v : S -> X).

(** A call after which the view is what it was. *)
Definition keeps {A} (m : FST S A) : Prop := forall s, wpf (fun _ => True) m (fun s' _ => v s' = v s) s.

Lemma keeps_done {A} (a : A) : keeps (mret a).
Proof. done. Qed.
Lemma keeps_seq {A B} (m : FST S A) (k : A -> FST S B) : keeps m -> (forall a, keeps (k a)) -> keeps (m ≫= k).
Proof.
  intros Hm Hk s. eapply wpf_seq; [apply Hm|]. intros s' a E. eapply wpf_mono; [apply Hk|]. intros s'' b E'. simpl in E'. congruence.
Qed.
Lemma keeps_fget : keeps fget.
Proof. done. Qed.
Lemma keeps_fmod (f : S -> S) : (forall s, v (f s) = v s) -> keeps (fmod f).
Proof. intros Hf s. apply Hf. Qed.
Lemma keeps_rd p o : keeps (rd p o).
Proof. intros s. unfold wpf, rd. by case_if. Qed.
Lemma keeps_rd_bytes p o n : keeps (rd_bytes p o n).
Proof. intros s. unfold wpf, rd_bytes. by case_if. Qed.
Lemma keeps_put o b p : keeps (put o b p).
Proof. intros s. unfold wpf, put. by case_if. Qed.
Lemma keeps_elem {A} (l : list A) i : keeps (elem l i).
Proof. intros s. unfold wpf, elem. case_if; [|done]. by destruct (l !! Z.to_nat i). Qed.
Lemma keeps_puts ws : forall p, keeps (puts ws p).
Proof.
  induction ws as [|[o b] ws IH]; intros p; cbn [puts]; [apply keeps_done|]. apply keeps_seq; [apply keeps_put|]. intros; apply IH.
Qed.
Lemma keeps_fault {A} : keeps (fault (A := A)).
Proof. done. Qed.
End Keeps.

Create HintDb keeps.
#[export] Hint Resolve keeps_done keeps_fget keeps_rd keeps_rd_bytes keeps_put keeps_elem keeps_puts keeps_fault : keeps.

(** [kauto] follows the text of a call. *)
Ltac kstep :=
  match goal with
  | |- keeps _ (mbind _ _) => apply keeps_seq; [|intros]
  | |- keeps _ (if ?b then _ else _) => destruct b
  | |- keeps _ (match ?o with _ => _ end) => destruct o
  | |- keeps _ (fmod _) => apply keeps_fmod; intros; solve [eauto | done]
  | |- keeps _ _ => solve [eauto with keeps]
  end.
Ltac kauto := cbv zeta; repeat kstep.

Section Quiet.
Context {X : Type} (v : Net -> X).
Context (v_tx : forall s n, v (s <| rtl_tx_slot := n |>) = v s)
        (v_sent : forall s f g, v (s <| rtl_tx_buffer ::= f |> <| sent ::= g |>) = v s)
        (v_arp : forall s a m n, v (s <| arp_cache_ip := a |> <| arp_cache_mac := m |> <| arp_cache_valid := n |>) = v s)
        (v_ident : forall s n, v (s <| ipv4_tx_ident := n |>) = v s)
        (v_stats : forall s f, v (s <| net_rx_stats ::= f |>) = v s).

Lemma read_be16_keeps p o : keeps v (read_be16 p o).
Proof. unfold read_be16. kauto. Qed.
Lemma read_be32_keeps p o : keeps v (read_be32 p o).
Proof. unfold read_be32. kauto. Qed.
Hint Resolve read_be16_keeps read_be32_keeps : keeps.

Lemma rtl8139_send_frame_keeps frame len : keeps v (rtl8139_send_frame frame len).
Proof. unfold rtl8139_send_frame. kauto. Qed.
Hint Resolve rtl8139_send_frame_keeps : keeps.

Lemma count_up_keeps f : keeps v (count_up f).
Proof. unfold count_up. kauto. Qed.
Hint Resolve count_up_keeps : keeps.

Lemma malformed_keeps : keeps v malformed.
Proof. unfold malformed, net_count_malformed. kauto. Qed.

Lemma net_count_ethertype_keeps e : keeps v (net_count_ethertype e).
Proof. unfold net_count_ethertype. kauto. Qed.

Lemma arp_cache_update_keeps ip mac : keeps v (arp_cache_update ip mac).
Proof. unfold arp_cache_update. kauto. Qed.

Lemma net_send_arp_packet_keeps op dm sip tip tm : keeps v (net_send_arp_packet op dm sip tip tm).
Proof. unfold net_send_arp_packet. kauto. Qed.
Hint Resolve net_send_arp_packet_keeps arp_cache_update_keeps : keeps.

Lemma net_send_arp_reply_keeps mac ip : keeps v (net_send_arp_reply mac ip).
Proof. unfold net_send_arp_reply. kauto. Qed.
Hint Resolve net_send_arp_reply_keeps : keeps.

Lemma hw_address_keeps ip : keeps v (hw_address ip).
Proof. unfold hw_address, net_send_arp_request. kauto. Qed.
Hint Resolve hw_address_keeps : keeps.

Lemma ipv4_frame_keeps mac ip ident fl ttl pr payload : keeps v (ipv4_frame mac ip ident fl ttl pr payload).
Proof. unfold ipv4_frame, ipv4_checksum. kauto. Qed.
Hint Resolve ipv4_frame_keeps : keeps.

Lemma fragment_loop_keeps mac ip pr payload len ttl ident fuel : forall offset,
  keeps v (fragment_loop fuel mac ip pr payload len ttl ident offset).
Proof. induction fuel as [|fuel IH]; intros offset; cbn [fragment_loop]; [apply keeps_fault|]. kauto; apply IH. Qed.
Hint Resolve fragment_loop_keeps : keeps.

Lemma net_send_ipv4_raw_keeps ip pr payload len ttl ident : keeps v (net_send_ipv4_raw ip pr payload len ttl ident).
Proof. unfold net_send_ipv4_raw. kauto. Qed.

Lemma next_ident_keeps : keeps v next_ident.
Proof. unfold next_ident. kauto. Qed.

Lemma tcp_send_segment_keeps ip sp dp seq ack fl payload len : keeps v (tcp_send_segment ip sp dp seq ack fl payload len).
Proof. unfold tcp_send_segment, ipv4_checksum, pseudo_sum. kauto. Qed.

Lemma net_handle_arp_frame_keeps frame len : keeps v (net_handle_arp_frame frame len).
Proof. unfold net_handle_arp_frame. pose proof malformed_keeps. kauto. Qed.
End Quiet.
