(* ===== verification/Net.v ===== *)
(** * The network stack as a whole (kernel/net.c)

    Every call of the stack, in any order and with whatever the card hands over, keeps
    the types of its tables and stays within its buffers. *)
From S2P Require Import Prelude Fault Bytes Buffers NetState NetSend NetTcp NetRecv NetWf NetSendSafe NetTcpSafe NetRecvSafe.

(** ** Calls *)

Inductive NetCall :=
| CInit (bar0 : option Z) (card_mac : option (list Z))
| CUp (bar0 : option Z) (card_mac : option (list Z))
| CSetIpv4 (ip mask gw : Z)
| CSetMac (mac : option (list Z))
| CSetCoalesce (poll irq : Z)
| CStats
| CSetFaults (loss reorder : Z)
| CTick
| CFrame (frame : list Z) (len : Z)
| CRxPoll (card : Card)
| CIrq (card : Card) (isr : Z)
| CUdpBind (port : Z)
| CUdpUnbind (port : Z)
| CUdpSend (dst_ip src_port dst_port : Z) (payload : option (list Z)) (len : Z)
| CUdpRecv (port : Z) (buf : bool) (max_len : Z)
| CTcpListen (port : Z)
| CTcpUnlisten (port : Z)
| CTcpConnect (dst_ip dst_port src_port : Z)
| CTcpAccept (port : Z)
| CTcpSend (conn : Z) (payload : option (list Z)) (len : Z)
| CTcpRecv (conn : Z) (buf : bool) (max_len : Z)
| CTcpClose (conn : Z)
| CTcpPoll.

(** The result is left aside. *)
Definition run_call {A} (m : call A) : call unit := m ≫= fun _ => mret tt.

Definition net_call (c : NetCall) : call unit :=
  match c with
  | CInit bar0 mac => run_call (net_init bar0 mac)
  | CUp bar0 mac => run_call (net_up bar0 mac)
  | CSetIpv4 ip mask gw => run_call (net_set_ipv4 ip mask gw)
  | CSetMac mac => run_call (net_set_mac mac)
  | CSetCoalesce poll irq => net_set_rx_coalesce poll irq
  | CStats => run_call net_get_rx_stats
  | CSetFaults loss reorder => net_set_fault_injection loss reorder
  | CTick => fmod (fun s => s <| tick := tick s +u 1 |>)
  | CFrame frame len => run_call (net_handle_eth_frame frame len)
  | CRxPoll card => run_call (net_rx_poll card)
  | CIrq card isr => run_call (net_irq_handler card isr)
  | CUdpBind port => run_call (net_udp_bind port)
  | CUdpUnbind port => run_call (net_udp_unbind port)
  | CUdpSend ip sp dp payload len => run_call (net_udp_send ip sp dp payload len)
  | CUdpRecv port buf max => run_call (net_udp_recv port buf max)
  | CTcpListen port => run_call (net_tcp_listen port)
  | CTcpUnlisten port => run_call (net_tcp_unlisten port)
  | CTcpConnect ip dp sp => run_call (net_tcp_connect ip dp sp)
  | CTcpAccept port => run_call (net_tcp_accept port)
  | CTcpSend conn payload len => run_call (net_tcp_send conn payload len)
  | CTcpRecv conn buf max => run_call (net_tcp_recv conn buf max)
  | CTcpClose conn => run_call (net_tcp_close conn)
  | CTcpPoll => run_call net_tcp_poll
  end.

Definition net_calls (cs : list NetCall) : call unit := foldr (fun c k => net_call c ≫= fun _ => k) (mret tt) cs.

(** The arguments are of their C types, and a payload has the bytes its length says. *)
Definition payload_ok (payload : option (list Z)) (len : Z) : Prop :=
  is_u16 len /\ match payload with Some p => exists n, buffer n p /\ len <= n | None => True end.
Definition call_ok (c : NetCall) : Prop :=
  match c with
  | CInit bar0 mac | CUp bar0 mac =>
      match bar0 with Some b => is_u32 b | None => True end /\ match mac with Some m => buffer 6 m | None => True end
  | CSetIpv4 ip mask gw => is_u32 ip /\ is_u32 mask /\ is_u32 gw
  | CSetMac mac => match mac with Some m => exists n, 6 <= n /\ buffer n m | None => True end
  | CSetCoalesce poll irq => is_u32 poll /\ is_u32 irq
  | CSetFaults loss reorder => is_u32 loss /\ is_u32 reorder
  | CFrame frame len => buffer FRAME_BUFFER frame /\ 0 <= len <= FRAME_BUFFER
  | CRxPoll card => card_ok card
  | CIrq card isr => card_ok card
  | CUdpBind port => is_u16 port
  | CUdpSend ip sp dp payload len => is_u16 sp /\ is_u16 dp /\ payload_ok payload len
  | CUdpRecv _ _ max => is_u16 max
  | CTcpListen port => is_u16 port
  | CTcpConnect ip dp sp => is_u32 ip /\ is_u16 dp /\ is_u16 sp
  | CTcpSend _ payload len => payload_ok payload len
  | CTcpRecv _ _ max => is_u16 max
  | CStats | CTick | CUdpUnbind _ | CTcpUnlisten _ | CTcpAccept _ | CTcpClose _ | CTcpPoll => True
  end.

(** ** Configuration *)

Lemma net_set_ipv4_safe ip mask gw : is_u32 ip -> is_u32 mask -> is_u32 gw -> nsafe (net_set_ipv4 ip mask gw) is_bool.
Proof.
  intros Hi Hm Hg. unfold net_set_ipv4. scase; [sret; ranges|].
  eapply safe_bind; [smod; intros t Ht; upd Ht|]. intros _ _. snext route_table_refresh_defaults_safe. intros _ _. sret. ranges.
Qed.

Lemma not_ready_safe : nsafe (fmod (fun s => s <| net_ready := 0 |>) ≫= fun _ => mret 0) is_bool.
Proof. eapply safe_bind; [smod; intros t Ht; upd Ht|]. intros _ _. sret. ranges. Qed.

Lemma Forall_map_all {A} (P : A -> Prop) (f : A -> A) l : (forall x, P x -> P (f x)) -> Forall P l -> Forall P (map f l).
Proof. intros Hf Hl. apply Forall_map. apply Forall_impl with P; [|done]. done. Qed.

Lemma net_init_safe bar0 mac :
  match bar0 with Some b => is_u32 b | None => True end -> match mac with Some m => buffer 6 m | None => True end ->
  nsafe (net_init bar0 mac) is_bool.
Proof.
  intros Hb Hm. unfold net_init. cbv zeta. destruct bar0 as [b|]; [|apply not_ready_safe]. scase; [apply not_ready_safe|].
  eapply safe_bind; [smod; intros t Ht; upd Ht; by apply land_u32|]. intros _ _. scase; [apply not_ready_safe|].
  eapply safe_bind.
  { smod. intros t Ht. upd Ht. revert nw_stats. generalize (net_rx_stats t). stats. }
  intros _ _. cell set_hold_safe. intros _ _. snext route_table_refresh_defaults_safe. intros _ _. eapply safe_bind.
  { smod. intros t Ht. upd Ht; try by rewrite length_map.
    - apply Forall_map_all; [|done]. intros r Hr. upd Hr.
    - apply Forall_map_all; [|done]. intros b' Hb'. upd Hb'. apply ring_zero.
    - apply Forall_map_all; [|done]. intros c Hc. upd Hc. apply ring_zero. }
  intros _ _. destruct mac as [m|]; [|apply not_ready_safe]. eapply safe_bind; [smod; intros t Ht; upd Ht|]. intros _ _. sret. ranges.
Qed.

Lemma net_up_safe bar0 mac :
  match bar0 with Some b => is_u32 b | None => True end -> match mac with Some m => buffer 6 m | None => True end ->
  nsafe (net_up bar0 mac) is_bool.
Proof. intros Hb Hm. unfold net_up. sget s. scase; [sret; ranges|]. by apply net_init_safe. Qed.

Lemma net_set_mac_safe mac :
  match mac with Some m => exists n, 6 <= n /\ buffer n m | None => True end -> nsafe (net_set_mac mac) is_bool.
Proof.
  intros Hm. unfold net_set_mac. sget s. destruct mac as [m|]; [|sret; ranges]. destruct Hm as (n & Hn & Hb). scase; [sret; ranges|].
  snext (safe_rd_bytes net_wf n); [done|lia|lia|lia|]. intros b Hbb. eapply safe_bind; [smod; intros t Ht; upd Ht|]. intros _ _. sret. ranges.
Qed.

Lemma clamp_range lo hi x : lo <= hi -> lo <= clamp lo hi x <= hi.
Proof. intros Hl. unfold clamp. cbv zeta. repeat case_if; bsimpl; lia. Qed.

Lemma net_set_rx_coalesce_safe a b : nsafe (net_set_rx_coalesce a b) (fun _ => True).
Proof. smod. intros t Ht. upd Ht; apply clamp_range; lia. Qed.

Lemma net_get_rx_stats_safe : nsafe net_get_rx_stats (fun _ => True).
Proof.
  unfold net_get_rx_stats. eapply safe_bind; [|intros _ _; sget s; by sret]. smod. intros t Ht. upd Ht.
  revert nw_poll nw_irq nw_stats. generalize (net_rx_stats t), (net_rx_poll_budget_cfg t), (net_irq_poll_budget_cfg t).
  intros st p q Hp Hq Hst. unfold stats_wf in *.
  repeat (apply Forall_cons_1 in Hst; let X := fresh in destruct Hst as [X Hst]).
  repeat (apply Forall_cons_2; [first [assumption | cbn; ranges]|]). apply Forall_nil_2.
Qed.

(** ** Every call *)

Lemma run_call_safe {A} (m : call A) R : nsafe m R -> nsafe (run_call m) (fun _ => True).
Proof. intros Hm. eapply safe_bind; [done|]. intros; by sret. Qed.

Lemma net_udp_send_safe ip sp dp payload len :
  is_u16 sp -> is_u16 dp -> payload_ok payload len -> nsafe (net_udp_send ip sp dp payload len) is_bool.
Proof.
  intros Hs Hd [Hl Hp]. unfold net_udp_send. destruct payload as [p|]; [|sret; ranges]. destruct Hp as (n & Hb & Hn).
  apply net_send_udp_safe with n; try done. unfold is_u16 in Hl. lia.
Qed.

Lemma net_call_safe c : call_ok c -> nsafe (net_call c) (fun _ => True).
Proof.
  destruct c; simpl; intros Hok; try destruct Hok as [H1 H2]; try (eapply run_call_safe).
  - by apply net_init_safe.
  - by apply net_up_safe.
  - destruct H2. by apply net_set_ipv4_safe.
  - by apply net_set_mac_safe.
  - apply net_set_rx_coalesce_safe.
  - apply net_get_rx_stats_safe.
  - by apply net_set_fault_injection_safe.
  - smod. intros t Ht. upd Ht.
  - by apply net_handle_eth_frame_safe.
  - by apply net_rx_poll_safe.
  - by apply net_irq_handler_safe.
  - by apply net_udp_bind_safe.
  - apply net_udp_unbind_safe.
  - destruct H2. by apply net_udp_send_safe.
  - apply net_udp_recv_safe. unfold is_u16 in *. lia.
  - by apply net_tcp_listen_safe.
  - apply net_tcp_unlisten_safe.
  - destruct H2. by apply net_tcp_connect_safe.
  - apply net_tcp_accept_safe.
  - unfold is_u16 in H1. destruct payload as [p|].
    + destruct H2 as (n & Hb & Hn). apply net_tcp_send_safe with n; [done|lia].
    + apply net_tcp_send_safe with len; [done|lia].
  - apply net_tcp_recv_safe. unfold is_u16 in *. lia.
  - apply net_tcp_close_safe.
  - apply net_tcp_poll_safe.
Qed.

Lemma net_calls_safe cs : Forall call_ok cs -> nsafe (net_calls cs) (fun _ => True).
Proof.
  induction 1 as [|c cs Hc _ IH]; [by sret|]. cbn [net_calls foldr]. snext net_call_safe; [done|]. intros _ _. apply IH.
Qed.

Lemma net_static_wf : net_wf net_static.
Proof.
  constructor; cbn -[replicate zero_bytes zero_packet zero_binding zero_slot zero_conn zero_hold Z.to_nat]; try ranges;
    try (by rewrite length_replicate); try apply Forall_replicate; try done.
  all: try (apply (buffer_zero 6); lia).
  - constructor; cbn -[zero_bytes]; try ranges. apply buffer_zero. consts. lia.
  - apply buffer_zero. lia.
  - unfold stats_wf. repeat (apply Forall_cons_2; [cbn; ranges|]). apply Forall_nil_2.
  - constructor; cbn -[zero_bytes]; try ranges; apply buffer_zero; vm_compute; congruence.
  - constructor; cbn -[replicate zero_packet Z.to_nat]; try ranges; [apply ring_zero|by rewrite length_replicate|].
    apply Forall_replicate. constructor; cbn -[zero_bytes]; try ranges. apply buffer_zero. consts. lia.
  - constructor; cbn -[replicate zero_bytes Z.to_nat]; try ranges; [apply ring_zero|apply buffer_zero; consts; lia|by rewrite length_replicate|].
    apply Forall_replicate. constructor; cbn -[zero_bytes]; [consts; lia|apply buffer_zero; consts; lia].
Qed.

(** C6: From power-on, every sequence of calls of the network stack - frames and whole rings of
    frames with arbitrary bytes, sends, receives, connections, timers and configuration - ends
    without an access outside a buffer or table, in a state where every field is within its
    type and every queue within its ring. *)
Theorem net_stack_safe (cs : list NetCall) :
  Forall call_ok cs -> wpf never (net_calls cs) (fun s _ => net_wf s) net_static.
Proof.
  intros Hcs. eapply wpf_mono; [apply net_calls_safe; [done|apply net_static_wf]|]. by intros s _ [Hs _].
Qed.

Theorem net_stack_safe_witness :
  wpf never (net_calls [CInit (Some 0xC001) (Some [2; 0; 0; 0; 0; 1]); CUdpBind 5000; CTcpListen 80; CFrame (zero_bytes 2048) 60; CTcpPoll; CTick])
    (fun s _ => net_wf s) net_static.
Proof.
  apply net_stack_safe. repeat (apply Forall_cons_2; [cbn; try done|]); try apply Forall_nil_2.
  - split; [unfold is_u32; lia|]. split; [done|]. repeat (apply Forall_cons_2; [unfold is_byte; lia|]). apply Forall_nil_2.
  - split; [apply buffer_zero; lia|unfold FRAME_BUFFER; lia].
Defined.
