(* ===== verification/NetDatagram.v ===== *)
(** * Datagrams from one host to another (kernel/net.c)

    What [net_udp_send] puts on the wire of one host, [net_udp_recv] hands out on the
    host it is addressed to. *)
From S2P Require Import Prelude Fault Ring Bytes Buffers NetState NetSend NetTcp NetRecv NetWf NetSendSafe NetTcpSafe NetRecvSafe NetWire Net.

#[local] Opaque internet_checksum.

(** ** The sender *)

(** An ARP request. *)
Definition arp_frame (f : list Z) : Prop := buffer 42 f /\ f !! 12%nat = Some 8 /\ f !! 13%nat = Some 6.

Lemma hw_address_exact s ip : transmits s ->
  exists s' mac fs, hw_address ip s = Done s' mac /\ sends s s' fs /\ transmits s' /\ buffer 6 mac /\ Forall arp_frame fs.
Proof.
  intros Hs. unfold hw_address. rewrite bind_get. destruct (arp_cache_lookup ip s) as [mac|] eqn:Hm.
  - exists s, mac, []. split; [done|]. split; [split; [done|by rewrite app_nil_r]|]. split; [done|]. split; [|done].
    unfold arp_cache_lookup in Hm. case_if; [done|]. injection Hm as <-. apply Hs.
  - unfold net_send_arp_request, net_send_arp_packet. unfold mbind at 1, FST_bind at 1. rewrite !bind_get.
    destruct (Hs) as (Hwf & Hr & Hi). destruct (Z.eqb_spec (net_ready s) 0); [done|].
    set (ws := [(0, BROADCAST); _; _; _; _; _; _; _; _; _; _; _]).
    pose proof (nw_mac _ Hwf) as [Hml Hmb].
    assert (length (stored ws) = 42%nat) as Hl by (unfold ws, stored; cbn; rewrite !length_app; cbn; rewrite !length_app; cbn; lia).
    assert (Forall is_byte (stored ws)) as Hb.
    { unfold stored, ws. cbn [map concat snd default]. repeat apply Forall_app_2; try done;
        try apply broadcast_buffer; try apply be16_buffer; try apply be32_buffer;
        repeat (apply Forall_cons_2; [unfold is_byte; lia|]); apply Forall_nil_2. }
    assert (puts ws (replicate 42 0) s = Done s (stored ws)) as E.
    { change (replicate 42 0) with ([] ++ replicate 42 0). rewrite puts_contiguous.
      - rewrite Hl, drop_replicate. by rewrite app_nil_r.
      - unfold ws. cbn. rewrite Hml. repeat split; lia.
      - rewrite Hl. done. }
    rewrite (bind_done _ _ _ _ _ E).
    destruct (rtl8139_send_frame_exact s (stored ws) 42) as (s' & E' & Hse & Ht'); [done|lia|by rewrite Hl|done|].
    rewrite E'. exists s', BROADCAST, [slice 0 42 (stored ws)]. split; [done|]. split; [done|]. split; [done|]. split; [apply broadcast_buffer|].
    apply Forall_singleton. replace (slice 0 42 (stored ws)) with (stored ws) by (unfold slice; rewrite drop_0, take_ge; [done|by rewrite Hl]).
    split; [by split; [rewrite Hl|]|].
    assert (forall k, (stored ws) !! (12 + k)%nat = (be16_bytes ETH_TYPE_ARP ++ drop 14 (stored ws)) !! k) as Hk.
    { intros k. unfold ws, stored. cbn [map concat snd]. rewrite app_assoc.
      rewrite lookup_app_r by (rewrite length_app; cbn; lia). rewrite length_app.
      replace (12 + k - _)%nat with k by (cbn; lia). f_equal. f_equal. symmetry. rewrite app_assoc.
      apply drop_app_length'. rewrite !length_app. cbn. lia. }
    split; [exact (Hk 0%nat)|exact (Hk 1%nat)].
Qed.

(** The datagram with its header. *)
Definition udp_bytes (src_port dst_port : Z) (payload : list Z) : list Z :=
  be16_bytes src_port ++ be16_bytes dst_port ++ be16_bytes (8 + Z.of_nat (length payload)) ++ be16_bytes 0 ++ payload.

Lemma udp_bytes_length sp dp payload : length (udp_bytes sp dp payload) = (8 + length payload)%nat.
Proof. done. Qed.

Lemma udp_bytes_byte sp dp payload : Forall is_byte payload -> Forall is_byte (udp_bytes sp dp payload).
Proof. intros Hp. unfold udp_bytes. repeat apply Forall_app_2; try done; apply be16_buffer. Qed.

Definition UDP_WIRE_MAX : Z := 1472.

Section Sender.
Context (a : Net) (dst_ip src_port dst_port : Z) (payload : list Z).
Context (Ha : transmits a) (Hremote : dst_ip <> net_ip a) (Hloop : dst_ip <> 0x7F000001) (Hcast : dst_ip <> 0xFFFFFFFF).
Context (Hp : Forall is_byte payload) (Hl : Z.of_nat (length payload) <= UDP_WIRE_MAX).

Lemma net_send_udp_exact :
  exists a' arp mac ident, net_send_udp dst_ip src_port dst_port payload (Z.of_nat (length payload)) a = Done a' 1 /\
    sent a' = sent a ++ arp ++ [frame_bytes mac (rtl_mac a) (net_ip a) dst_ip ident 0 64 IP_PROTO_UDP (udp_bytes src_port dst_port payload)] /\
    Forall arp_frame arp /\ buffer 6 mac /\ is_u16 ident.
Proof.
  unfold UDP_WIRE_MAX in Hl. set (len := Z.of_nat (length payload)) in *. unfold net_send_udp. rewrite bind_get. destruct (Ha) as (Hwf & Hr & Hi).
  destruct (Z.eqb_spec (net_ready a) 0); [done|]. destruct (Z.ltb_spec IPV4_REASS_MAX_PAYLOAD len); [consts; lia|]. cbv zeta.
  rewrite (u16_small (8 + len)) by lia.
  rewrite (bind_done _ _ a a payload) by (rewrite rd_bytes_done by lia; unfold slice; by rewrite drop_0, take_ge by lia).
  set (ws := [(0, be16_bytes src_port); _; _; _; _]).
  assert (stored ws = udp_bytes src_port dst_port payload) as Hst by (unfold ws, stored; cbn [map concat snd]; by rewrite app_nil_r).
  assert (puts ws (zero_bytes (IPV4_REASS_MAX_PAYLOAD + 8)) a =
    Done a (udp_bytes src_port dst_port payload ++ drop (8 + length payload) (zero_bytes (IPV4_REASS_MAX_PAYLOAD + 8)))) as E.
  { rewrite <- (app_nil_l (zero_bytes _)) at 1. rewrite puts_contiguous.
    - by rewrite Hst, udp_bytes_length.
    - unfold ws. cbn. repeat split; lia.
    - rewrite Hst, udp_bytes_length. unfold zero_bytes. rewrite length_replicate. consts. lia. }
  rewrite (bind_done _ _ _ _ _ E). clear E.
  destruct (Z.eqb_spec dst_ip (net_ip a)); [done|]. destruct (Z.eqb_spec dst_ip 0x7F000001); [done|].
  destruct (Z.eqb_spec dst_ip 0xFFFFFFFF); [done|]. cbn [orb].
  rewrite (bind_done _ _ a a tt) by done. unfold next_ident at 1. rewrite (bind_done _ _ a (a <| ipv4_tx_ident := u16 (ipv4_tx_ident a + 1) |>) (ipv4_tx_ident a)) by done.
  set (a1 := a <| ipv4_tx_ident := _ |>).
  assert (transmits a1) as Ha1 by (split; [upd Hwf|done]).
  unfold net_send_ipv4_raw. rewrite bind_get. change (net_ready a1) with (net_ready a). destruct (Z.eqb_spec (net_ready a) 0); [done|]. cbv zeta.
  destruct (Z.eqb_spec dst_ip 0xFFFFFFFF); [done|]. cbn [negb].
  destruct (hw_address_exact a1 (net_route_next_hop dst_ip a1) Ha1) as (a2 & mac & fs & E2 & Hse2 & Ht2 & Hmac & Hfs).
  rewrite (bind_done _ _ _ _ _ E2). rewrite (u16_small (20 + _)) by lia. destruct (Z.leb_spec (20 + (8 + len)) IPV4_ETH_MTU); [|consts; lia].
  rewrite (bind_done _ _ a2 a2 (udp_bytes src_port dst_port payload)).
  2:{ rewrite rd_bytes_done; [|lia|lia|rewrite length_app, udp_bytes_length; lia]. f_equal.
      apply (slice_mid []); [done|rewrite udp_bytes_length; lia]. }
  destruct (ipv4_frame_exact a2 mac dst_ip (ipv4_tx_ident a) 0 64 IP_PROTO_UDP (udp_bytes src_port dst_port payload)) as (a3 & E3 & Hse3 & Ht3);
    [done|done|unfold is_byte; lia|unfold is_byte; consts; lia|by apply udp_bytes_byte|rewrite udp_bytes_length; lia|].
  exists a3, fs, mac, (ipv4_tx_ident a). split; [done|]. split; [|split; [done|split; [done|apply Hwf]]].
  rewrite (proj2 Hse3), (proj2 Hse2), (core_field rtl_mac _ _ _ Hse2), (core_field net_ip _ _ _ Hse2) by done.
  change (sent a1) with (sent a). by rewrite <- app_assoc.
Qed.
End Sender.

(** ** The receiver *)

(** A frame in the receiver's buffer, whose end holds arbitrary bytes. *)
Definition in_buffer (f p : list Z) : Prop := buffer FRAME_BUFFER p /\ exists tail, p = f ++ tail.

(** The datagrams that wait at a binding, oldest first: sender, port and bytes. *)
Definition udp_item (p : UdpPacket) : Z * Z * list Z := (up_src_ip p, up_src_port p, slice 0 (up_len p) (up_data p)).
Definition udp_pending (b : UdpBinding) : list (Z * Z * list Z) := map udp_item (ring_list (ub_queue b) (ub_head b) (ub_count b)).
Definition pending_at (port : Z) (s : Net) : option (list (Z * Z * list Z)) :=
  i ← udp_find_binding port s; Some (udp_pending (udp_bindings s !!! i)).

(** What the receive path reads besides the frame. *)
Definition rx_view (s : Net) : list UdpBinding * Z * UdpReorderHold * Z * Z :=
  (udp_bindings s, net_ip s, udp_reorder_hold s, net_fault_loss_percent s, net_fault_reorder_percent s).

Lemma rx_view_find s s' port : rx_view s' = rx_view s -> udp_find_binding port s' = udp_find_binding port s.
Proof. unfold rx_view. intros [= E _ _ _ _]. unfold udp_find_binding. by rewrite E. Qed.

(** An ARP frame does not touch the bindings. *)
Lemma arp_frame_received b f p : net_wf b -> arp_frame f -> in_buffer f p ->
  exists b' r, net_handle_eth_frame p (Z.of_nat (length f)) b = Done b' r /\ net_wf b' /\ rx_view b' = rx_view b.
Proof.
  intros Hb ([Hl _] & H12 & H13) [Hp [tail ->]].
  pose proof (net_handle_eth_frame_safe (f ++ tail) (Z.of_nat (length f)) Hp ltac:(lia) b Hb) as Hsafe.
  assert (keeps rx_view (net_handle_eth_frame (f ++ tail) (Z.of_nat (length f)))) as Hk.
  { unfold net_handle_eth_frame. destruct (Z.ltb_spec (Z.of_nat (length f)) 14); [lia|].
    apply keeps_seq; [by apply count_up_keeps|]. intros _ s.
    unfold wpf. rewrite (bind_done _ _ s s ETH_TYPE_ARP).
    - change (wpf (fun _ => True) (net_count_ethertype ETH_TYPE_ARP ≫= fun _ => net_handle_arp_frame (f ++ tail) (Z.of_nat (length f)))
        (fun s' _ => rx_view s' = rx_view s) s).
      apply keeps_seq; [by apply net_count_ethertype_keeps|]. intros _. by apply net_handle_arp_frame_keeps.
    - apply read_be16_back; [unfold is_u16, ETH_TYPE_ARP; lia|lia| |].
      + rewrite lookup_app_l by lia. exact H12.
      + rewrite lookup_app_l by lia. exact H13. }
  specialize (Hk b). unfold wpf in *. destruct (net_handle_eth_frame _ _ b) as [b' r|b']; [|done].
  exists b', r. destruct Hsafe as [? _]. done.
Qed.

(** ** The datagram is queued *)

Lemma bindings_ext s f g : f (udp_bindings s) = g (udp_bindings s) -> s <| udp_bindings ::= f |> = s <| udp_bindings ::= g |>.
Proof. intros E. unfold update_field. by rewrite E. Qed.

Section Queued.
Context (b : Net) (src_ip src_port dst_port : Z) (payload rest : list Z) (i : nat).
Context (Hb : net_wf b) (Hi : udp_find_binding dst_port b = Some i).
Context (Hroom : ub_count (udp_bindings b !!! i) < UDP_QUEUE_DEPTH).
Context (Hl : Z.of_nat (length payload) <= UDP_MAX_PAYLOAD).

Lemma udp_enqueue_packet_exact :
  exists b' bi, udp_enqueue_packet dst_port src_ip src_port (payload ++ rest) (Z.of_nat (length payload)) b = Done b' 1 /\
    b' = b <| udp_bindings ::= <[i := bi]> |> /\ ub_used bi = ub_used (udp_bindings b !!! i) /\ ub_port bi = ub_port (udp_bindings b !!! i) /\
    udp_pending bi = udp_pending (udp_bindings b !!! i) ++ [(src_ip, src_port, payload)].
Proof.
  unfold udp_enqueue_packet. rewrite bind_get, Hi. pose proof (udp_find_lt b dst_port i Hb Hi) as Hlt. set (bi := udp_bindings b !!! i) in *.
  assert (binding_wf bi) as Hbi.
  { eapply (Forall_lookup_1 _ _ _ _ (nw_bindings _ Hb)), list_lookup_lookup_total_lt. rewrite (nw_bindings_length _ Hb). unfold UDP_MAX_BINDINGS. lia. }
  rewrite (bind_done _ _ b b bi).
  2:{ apply elem_done; [|lia]. rewrite Nat2Z.id. apply list_lookup_lookup_total_lt. rewrite (nw_bindings_length _ Hb). unfold UDP_MAX_BINDINGS. lia. }
  destruct (Z.ltb_spec UDP_MAX_PAYLOAD (Z.of_nat (length payload))); [lia|]. destruct (Z.leb_spec UDP_QUEUE_DEPTH (ub_count bi)); [lia|]. cbn [orb].
  destruct (Hbi). consts. pose proof (ring_tail _ _ _ bw_ring) as Ht. destruct bw_ring as (Hh & Hc & Htail).
  set (slot := ub_queue bi !!! Z.to_nat (ub_tail bi)).
  assert (packet_wf slot) as Hslot by (eapply (Forall_lookup_1 _ _ _ _ bw_queue), list_lookup_lookup_total_lt; lia).
  rewrite (bind_done _ _ b b slot) by (apply elem_done; [apply list_lookup_lookup_total_lt; lia|lia]).
  rewrite (bind_done _ _ b b payload).
  2:{ rewrite rd_bytes_done by (rewrite ?length_app; lia). f_equal. by apply (slice_mid []). }
  destruct (pw_data _ Hslot) as [Hdl _]. consts.
  rewrite (bind_done _ _ _ _ _ (put_done 0 payload (up_data slot) b ltac:(lia) ltac:(lia))). cbv zeta. unfold set_binding. rewrite bind_mod.
  eexists _, _. split; [done|]. split.
  { apply bindings_ext. rewrite alter_cell by (rewrite (nw_bindings_length _ Hb); unfold UDP_MAX_BINDINGS; lia). done. }
  split; [done|]. split; [done|]. unfold udp_pending. cbn.
  rewrite u16_small by lia. rewrite Htail.
  assert (forall v, map udp_item (ring_list (<[Z.to_nat ((ub_head bi + ub_count bi) mod 16) := v]> (ub_queue bi)) (ub_head bi) (ub_count bi + 1)) =
     map udp_item (ring_list (ub_queue bi) (ub_head bi) (ub_count bi)) ++ [udp_item v]) as ->
    by (intros v; rewrite (ring_push (ub_queue bi) 16) by lia; by rewrite map_app).
  f_equal. f_equal. unfold udp_item. cbn. f_equal. apply slice_splice_same. unfold fits. lia.
Qed.

Lemma udp_enqueue_with_faults_exact :
  net_fault_loss_percent b = 0 -> net_fault_reorder_percent b = 0 -> rh_valid (udp_reorder_hold b) = 0 ->
  exists b' bi, udp_enqueue_with_faults dst_port src_ip src_port (payload ++ rest) (Z.of_nat (length payload)) b = Done b' 1 /\
    b' = b <| udp_bindings ::= <[i := bi]> |> /\ ub_used bi = ub_used (udp_bindings b !!! i) /\ ub_port bi = ub_port (udp_bindings b !!! i) /\
    udp_pending bi = udp_pending (udp_bindings b !!! i) ++ [(src_ip, src_port, payload)].
Proof.
  intros Hloss Hre Hv. unfold udp_enqueue_with_faults. rewrite bind_get, Hloss.
  rewrite (bind_done _ _ b b false) by done. cbv iota. rewrite bind_get, Hv. cbn [Z.eqb negb]. rewrite Hre.
  rewrite (bind_done _ _ b b false) by done. cbn [andb]. apply udp_enqueue_packet_exact.
Qed.
End Queued.

(** ** The frame of a datagram *)

Lemma six_bytes m : buffer 6 m -> exists x0 x1 x2 x3 x4 x5, m = [x0; x1; x2; x3; x4; x5].
Proof. intros [Hl _]. destruct m as [|x0 [|x1 [|x2 [|x3 [|x4 [|x5 [|]]]]]]]; simpl in Hl; try lia. by do 6 eexists. Qed.

Section Frame.
Context (b : Net) (mac smac : list Z) (src_ip src_port dst_port ident : Z) (payload p : list Z) (i : nat).
Context (Hb : net_wf b) (Hi : udp_find_binding dst_port b = Some i) (Hroom : ub_count (udp_bindings b !!! i) < UDP_QUEUE_DEPTH).
Context (Hloss : net_fault_loss_percent b = 0) (Hre : net_fault_reorder_percent b = 0) (Hhold : rh_valid (udp_reorder_hold b) = 0).
Context (Hmac : buffer 6 mac) (Hsmac : buffer 6 smac) (Hsrc : is_u32 src_ip) (Hsp : is_u16 src_port) (Hdp : is_u16 dst_port) (Hid : is_u16 ident).
Context (Hl : Z.of_nat (length payload) <= UDP_MAX_PAYLOAD).
Let f := frame_bytes mac smac src_ip (net_ip b) ident 0 64 IP_PROTO_UDP (udp_bytes src_port dst_port payload).
Context (Hp : in_buffer f p).

Let tot := 20 + Z.of_nat (length (udp_bytes src_port dst_port payload)).
Let h := header_bytes src_ip (net_ip b) tot ident 0 64 IP_PROTO_UDP (header_sum src_ip (net_ip b) tot ident 0 64 IP_PROTO_UDP).

Lemma frame_shape : exists rest, p = (mac ++ smac ++ be16_bytes ETH_TYPE_IPV4) ++ h ++ (udp_bytes src_port dst_port payload) ++ rest.
Proof using Hp. destruct Hp as [_ [tail ->]]. unfold f, frame_bytes. eexists. rewrite <- !app_assoc. reflexivity. Qed.

Lemma frame_length : Z.of_nat (length f) = padded (14 + tot).
Proof using Hmac Hsmac.
  unfold f, frame_bytes. rewrite !length_app, length_replicate. change (length (header_bytes _ _ _ _ _ _ _ _)) with 20%nat.
  destruct Hmac as [? _], Hsmac as [? _]. unfold padded, tot. rewrite udp_bytes_length. cbn [length be16_bytes]. case_if; bsimpl; lia.
Qed.

(** The UDP handler queues the payload. *)
Lemma datagram_queued s rest : net_wf s -> udp_bindings s = udp_bindings b -> net_fault_loss_percent s = 0 -> net_fault_reorder_percent s = 0 ->
  udp_reorder_hold s = udp_reorder_hold b ->
  exists s' bi, net_handle_udp_datagram src_ip (net_ip b) (udp_bytes src_port dst_port payload ++ rest) (8 + Z.of_nat (length payload)) s = Done s' 1 /\
    s' = s <| udp_bindings ::= <[i := bi]> |> /\ ub_used bi = ub_used (udp_bindings b !!! i) /\ ub_port bi = ub_port (udp_bindings b !!! i) /\
    udp_pending bi = udp_pending (udp_bindings b !!! i) ++ [(src_ip, src_port, payload)].
Proof using Hb Hi Hroom Hhold Hl Hsp Hdp.
  intros Hs Eb El Er Eh. consts. unfold net_handle_udp_datagram. destruct (Z.ltb_spec (8 + Z.of_nat (length payload)) 8); [lia|].
  assert (forall o v, is_u16 v -> (o < 4)%nat -> (forall k, (k < 2)%nat -> (udp_bytes src_port dst_port payload) !! (2 * o + k)%nat = (be16_bytes v) !! k) ->
    read_be16 (udp_bytes src_port dst_port payload ++ rest) (2 * Z.of_nat o) s = Done s v) as Hrd.
  { intros o v Hv Ho Hk. apply read_be16_back; [done|lia| |].
    - rewrite lookup_app_l by (rewrite udp_bytes_length; lia). replace (Z.to_nat (2 * Z.of_nat o)) with (2 * o + 0)%nat by lia. by rewrite Hk by lia.
    - rewrite lookup_app_l by (rewrite udp_bytes_length; lia). replace (Z.to_nat (2 * Z.of_nat o + 1)) with (2 * o + 1)%nat by lia. by rewrite Hk by lia. }
  assert (forall k, (k < 2)%nat -> k = 0%nat \/ k = 1%nat) as H2 by lia.
  rewrite (bind_done _ _ _ _ _ (Hrd 0%nat src_port Hsp ltac:(lia) ltac:(intros k Hk; destruct (H2 k Hk) as [->| ->]; done))).
  rewrite (bind_done _ _ _ _ _ (Hrd 1%nat dst_port Hdp ltac:(lia) ltac:(intros k Hk; destruct (H2 k Hk) as [->| ->]; done))).
  rewrite (bind_done _ _ _ _ _ (Hrd 2%nat (8 + Z.of_nat (length payload)) ltac:(unfold is_u16; lia) ltac:(lia) ltac:(intros k Hk; destruct (H2 k Hk) as [->| ->]; done))).
  rewrite (bind_done _ _ _ _ _ (Hrd 3%nat 0 ltac:(unfold is_u16; lia) ltac:(lia) ltac:(intros k Hk; destruct (H2 k Hk) as [->| ->]; done))).
  destruct (Z.ltb_spec (8 + Z.of_nat (length payload)) 8); [lia|]. rewrite Z.ltb_irrefl. cbn [orb]. cbv zeta.
  rewrite (bind_done _ _ s s true) by done. cbn [negb]. rewrite u16_small by lia.
  replace (8 + Z.of_nat (length payload) - 8) with (Z.of_nat (length payload)) by lia.
  change (at_ (udp_bytes src_port dst_port payload ++ rest) 8) with (payload ++ rest). rewrite <- Eb.
  apply udp_enqueue_with_faults_exact; try done; [|by rewrite Eb|by rewrite Eh]. unfold udp_find_binding. by rewrite Eb.
Qed.

Lemma udp_frame_received :
  exists b' bi r, net_handle_eth_frame p (Z.of_nat (length f)) b = Done b' r /\ udp_bindings b' = <[i := bi]> (udp_bindings b) /\
    ub_used bi = ub_used (udp_bindings b !!! i) /\ ub_port bi = ub_port (udp_bindings b !!! i) /\
    udp_pending bi = udp_pending (udp_bindings b !!! i) ++ [(src_ip, src_port, payload)].
Proof.
  rewrite frame_length. destruct frame_shape as [rest Hshape]. pose proof Hl. consts.
  assert (tot = 28 + Z.of_nat (length payload)) as Htot by (unfold tot; rewrite udp_bytes_length; lia).
  pose proof (padded_bound (14 + tot) ltac:(lia)). assert (60 <= padded (14 + tot) /\ 14 + tot <= padded (14 + tot)) as [H60 Hpad]
    by (unfold padded; case_if; bsimpl; lia).
  set (len := padded (14 + tot)) in *. clearbody len.
  set (u := udp_bytes src_port dst_port payload). set (eth := mac ++ smac ++ be16_bytes ETH_TYPE_IPV4).
  assert (length eth = 14%nat) as Hel by (unfold eth; destruct Hmac, Hsmac; rewrite !length_app; cbn; lia).
  destruct (six_bytes mac Hmac) as (m0 & m1 & m2 & m3 & m4 & m5 & Em). destruct (six_bytes smac Hsmac) as (n0 & n1 & n2 & n3 & n4 & n5 & En).
  assert (eth = [m0; m1; m2; m3; m4; m5; n0; n1; n2; n3; n4; n5; 8; 0]) as Eeth by (unfold eth; rewrite Em, En; reflexivity).
  set (q := eth ++ h ++ u ++ rest) in *. change (p = q) in Hshape. rewrite Hshape.
  assert (Z.of_nat (length q) = 2048) as Hql by (rewrite <- Hshape; apply Hp).
  unfold net_handle_eth_frame. destruct (Z.ltb_spec len 14); [lia|]. unfold count_up at 1. rewrite bind_mod.
  rewrite (bind_done _ _ _ _ _ (read_be16_slice q 12 ETH_TYPE_IPV4 _ ltac:(unfold is_u16, ETH_TYPE_IPV4; lia) ltac:(lia) ltac:(unfold q; rewrite Eeth; reflexivity))).
  unfold net_count_ethertype at 1, count_up at 1. rewrite bind_mod. rewrite Z.eqb_refl. cbv zeta.
  match goal with |- context [net_handle_ipv4_frame q len ?x] => set (b1 := x) end.
  assert (net_wf b1) as Hb1.
  { apply (net_count_ethertype_safe ETH_TYPE_IPV4). eapply proj1, (count_up_safe (fun t => t <| total_bytes := total_bytes t +u len |>)); [stats|done]. }
  assert (rx_view b1 = rx_view b) as Hv1 by done. clearbody b1.
  unfold net_handle_ipv4_frame. destruct (Z.ltb_spec len 34); [lia|].
  unfold ipv4_reassembly_gc at 1. rewrite bind_mod.
  pose proof (proj1 (ipv4_reassembly_gc_safe b1 Hb1)) as Hb2. set (b2 := b1 <| ipv4_reass ::= _ |>).
  change (net_wf b2) in Hb2. assert (rx_view b2 = rx_view b) as Hv2 by done. clearbody b2.
  assert (forall o x, q !! Z.to_nat o = Some x -> 0 <= o -> rd q o b2 = Done b2 x) as Rd by (intros; by apply rd_done).
  rewrite (bind_done _ _ _ _ _ (Rd 14 0x45 ltac:(unfold q; rewrite Eeth; reflexivity) ltac:(lia))).
  change (Z.shiftr 0x45 4 =? 4) with true. change (u16 (Z.land 0x45 0x0F * 4)) with 20. cbn [negb]. cbv zeta.
  rewrite (u16_small (14 + 20)) by lia. destruct (Z.ltb_spec len (14 + 20)); [lia|].
  change (20 <? 20) with false. change (60 <? 20) with false. cbn [orb].
  rewrite (bind_done _ _ _ _ _ (read_be16_slice q 16 tot _ ltac:(unfold is_u16; lia) ltac:(lia) ltac:(unfold q; rewrite Eeth; reflexivity))).
  destruct (Z.ltb_spec tot 20); [lia|]. rewrite (u16_small (14 + tot)) by lia. destruct (Z.ltb_spec len (14 + tot)); [lia|]. cbn [orb].
  rewrite (bind_done _ _ b2 b2 h) by (rewrite rd_bytes_done by lia; f_equal; apply (slice_mid eth h); [by rewrite Hel|done]).
  unfold h at 1. rewrite header_verifies by (unfold is_byte, IP_PROTO_UDP; lia). cbn [Z.eqb negb].
  rewrite (bind_done _ _ _ _ _ (Rd 23 IP_PROTO_UDP ltac:(unfold q; rewrite Eeth; reflexivity) ltac:(lia))).
  rewrite (bind_done _ _ _ _ _ (read_be32_back q 26 src_ip _ Hsrc ltac:(lia) ltac:(unfold q; rewrite Eeth; reflexivity))).
  rewrite (bind_done _ _ _ _ _ (read_be32_back q 30 (net_ip b) _ (nw_ip _ Hb) ltac:(lia) ltac:(unfold q; rewrite Eeth; reflexivity))).
  rewrite (bind_done _ _ _ _ _ (read_be16_slice q 18 ident _ Hid ltac:(lia) ltac:(unfold q; rewrite Eeth; reflexivity))).
  rewrite (bind_done _ _ _ _ _ (read_be16_slice q 20 0 _ ltac:(unfold is_u16; lia) ltac:(lia) ltac:(unfold q; rewrite Eeth; reflexivity))).
  rewrite (bind_done _ _ b2 b2 smac).
  2:{ rewrite rd_bytes_done by lia. f_equal. rewrite En. unfold q. rewrite Eeth. reflexivity. }
  unfold arp_cache_update at 1. rewrite bind_mod.
  pose proof (proj1 (arp_cache_update_safe src_ip smac Hsrc Hsmac b2 Hb2)) as Hb3. set (b3 := b2 <| arp_cache_ip := _ |> <| arp_cache_mac := _ |> <| arp_cache_valid := _ |>).
  change (net_wf b3) in Hb3. assert (rx_view b3 = rx_view b) as Hv3 by done. clearbody b3.
  rewrite bind_get. unfold rx_view in Hv3. injection Hv3 as V1 V2 V3 V4 V5.
  unfold for_us. rewrite V2, Z.eqb_refl. cbn [orb negb]. change (Z.land 0 0x3FFF =? 0) with true. cbn [negb].
  unfold ipv4_deliver. cbv zeta. rewrite (u16_small (tot - 20)) by lia. change (IP_PROTO_UDP =? IP_PROTO_ICMP) with false. rewrite Z.eqb_refl. cbv iota.
  destruct (Z.ltb_spec (tot - 20) 8); [lia|].
  assert (at_ (at_ q 14) 20 = u ++ rest) as ->.
  { unfold at_. rewrite drop_drop. unfold q. rewrite app_assoc. apply drop_app_length'. by rewrite length_app, Hel. }
  replace (tot - 20) with (8 + Z.of_nat (length payload)) by lia.
  destruct (datagram_queued b3 rest) as (b' & bi & E & Eb' & Hu & Hport & Hpend); [done|done|congruence|congruence|done|].
  exists b', bi, 1. split; [done|]. split; [|done]. rewrite Eb'. cbn. by rewrite V1.
Qed.
End Frame.

(** ** Taking datagrams out *)

(** Receive calls until one finds no datagram; [n] bounds them. *)
Fixpoint udp_drain (n : nat) (port : Z) : call (list (Z * Z * list Z)) :=
  match n with
  | O => mret []
  | S n' =>
      r ← net_udp_recv port true UDP_MAX_PAYLOAD;
      match r with Some x => rest ← udp_drain n' port; mret (x :: rest) | None => mret [] end
  end.

Lemma binding_at s port i : net_wf s -> udp_find_binding port s = Some i ->
  udp_bindings s !! i = Some (udp_bindings s !!! i) /\ binding_wf (udp_bindings s !!! i).
Proof.
  intros Hs Hi. pose proof (udp_find_lt s port i Hs Hi).
  assert (udp_bindings s !! i = Some (udp_bindings s !!! i)) as E
    by (apply list_lookup_lookup_total_lt; rewrite (nw_bindings_length _ Hs); unfold UDP_MAX_BINDINGS; lia).
  split; [done|]. by eapply (Forall_lookup_1 _ _ _ _ (nw_bindings _ Hs)).
Qed.

(** Replacing a binding by one with the same port. *)
Lemma find_binding_insert s s' port i bi : udp_find_binding port s = Some i -> udp_bindings s' = <[i := bi]> (udp_bindings s) ->
  ub_used bi = ub_used (udp_bindings s !!! i) -> ub_port bi = ub_port (udp_bindings s !!! i) -> udp_find_binding port s' = Some i.
Proof.
  intros Hi E Hu Hp. unfold udp_find_binding in *. rewrite E. rewrite <- Hi. apply find_idx_ext. intros j.
  destruct (decide (i = j)) as [<-|Hne]; [|by rewrite list_lookup_insert_ne].
  pose proof (find_idx_lt _ _ _ Hi). rewrite list_lookup_insert_eq, (list_lookup_lookup_total_lt (udp_bindings s)) by done.
  simpl. unfold udp_bound. by rewrite Hu, Hp.
Qed.

Section Receive.
Context (s : Net) (port : Z) (i : nat) (Hs : net_wf s) (Hi : udp_find_binding port s = Some i).

Lemma net_udp_recv_empty : udp_pending (udp_bindings s !!! i) = [] -> net_udp_recv port true UDP_MAX_PAYLOAD s = Done s None.
Proof.
  intros Hn. unfold net_udp_recv. rewrite bind_get, Hi. change (negb true || (UDP_MAX_PAYLOAD =? 0)) with false. cbv iota.
  destruct (binding_at s port i Hs Hi) as [Ei Hbi]. rewrite (bind_done _ _ s s (udp_bindings s !!! i)) by (apply elem_done; [by rewrite Nat2Z.id|lia]).
  destruct (bw_ring _ Hbi) as (_ & Hc & _). apply (f_equal length) in Hn. unfold udp_pending in Hn. rewrite length_map, ring_list_length in Hn.
  simpl in Hn. destruct (Z.eqb_spec (ub_count (udp_bindings s !!! i)) 0); [done|lia].
Qed.

Lemma net_udp_recv_head x l : udp_pending (udp_bindings s !!! i) = x :: l ->
  exists s', net_udp_recv port true UDP_MAX_PAYLOAD s = Done s' (Some x) /\ net_wf s' /\ udp_find_binding port s' = Some i /\
    udp_pending (udp_bindings s' !!! i) = l.
Proof.
  intros Hn. pose proof (net_udp_recv_safe port true UDP_MAX_PAYLOAD ltac:(consts; lia) s Hs) as Hsafe.
  destruct (binding_at s port i Hs Hi) as [Ei Hbi]. set (b := udp_bindings s !!! i) in *. destruct (Hbi). destruct (bw_ring) as (Hh & Hc & Ht). consts.
  assert (0 < ub_count b) as Hpos.
  { apply (f_equal length) in Hn. unfold udp_pending in Hn. rewrite length_map, ring_list_length in Hn. simpl in Hn. lia. }
  unfold udp_pending in Hn. rewrite (ring_pop (ub_queue b) 16) in Hn by lia. simpl in Hn. injection Hn as Hx Hrest.
  set (pkt := ub_queue b !!! Z.to_nat (ub_head b)) in *.
  assert (packet_wf pkt) as Hpk by (eapply (Forall_lookup_1 _ _ _ _ bw_queue), list_lookup_lookup_total_lt; lia).
  destruct (pw_len _ Hpk) as [Hpl0 Hpl1], (pw_data _ Hpk) as [Hdl _]. consts.
  assert (net_udp_recv port true 1200 s = Done (s <| udp_bindings ::= alter (fun _ => b <| ub_head := (ub_head b + 1) mod 16 |> <| ub_count := u16 (ub_count b - 1) |>) i |>) (Some x)) as E.
  { unfold net_udp_recv. rewrite bind_get, Hi. change (negb true || (1200 =? 0)) with false. cbv iota.
    rewrite (bind_done _ _ s s b) by (apply elem_done; [by rewrite Nat2Z.id|lia]).
    destruct (Z.eqb_spec (ub_count b) 0); [lia|].
    rewrite (bind_done _ _ s s pkt) by (apply elem_done; [apply list_lookup_lookup_total_lt; lia|lia]). cbv zeta.
    destruct (Z.ltb_spec 1200 (up_len pkt)); [lia|]. rewrite (bind_done _ _ s s (slice 0 (up_len pkt) (up_data pkt))) by (apply rd_bytes_done; lia).
    unfold set_binding. rewrite bind_mod. unfold mret, FST_ret. do 2 f_equal. exact Hx. }
  unfold wpf in Hsafe. rewrite E in Hsafe |- *. eexists. split; [done|]. split; [apply Hsafe|].
  set (b' := b <| ub_head := _ |> <| ub_count := _ |>).
  assert (udp_bindings (s <| udp_bindings ::= alter (fun _ => b') i |>) = <[i := b']> (udp_bindings s)) as Eb
    by (change (alter (fun _ => b') i (udp_bindings s) = <[i := b']> (udp_bindings s)); apply alter_cell; by eapply lookup_lt_Some).
  split; [by eapply find_binding_insert|]. rewrite Eb, list_lookup_total_insert_eq by (by eapply lookup_lt_Some).
  unfold udp_pending, b'. cbn. rewrite u16_small by lia. exact Hrest.
Qed.
End Receive.

Lemma udp_drain_all n : forall s port i, net_wf s -> udp_find_binding port s = Some i -> (length (udp_pending (udp_bindings s !!! i)) < n)%nat ->
  exists s', udp_drain n port s = Done s' (udp_pending (udp_bindings s !!! i)).
Proof.
  induction n as [|n IH]; intros s port i Hs Hi Hn; [lia|]. cbn [udp_drain].
  destruct (udp_pending (udp_bindings s !!! i)) as [|x l] eqn:E.
  - exists s. by rewrite (bind_done _ _ _ _ _ (net_udp_recv_empty s port i Hs Hi E)).
  - destruct (net_udp_recv_head s port i Hs Hi x l E) as (s1 & E1 & Hs1 & Hi1 & Hl1). rewrite (bind_done _ _ _ _ _ E1).
    destruct (IH s1 port i Hs1 Hi1) as (s2 & E2); [rewrite Hl1; simpl in Hn; lia|].
    rewrite (bind_done _ _ _ _ _ E2), Hl1. by exists s2.
Qed.

(** ** From one host to the other *)

(** The frames arrive in their buffers, one after the other. *)
Fixpoint receive (frames : list (list Z * list Z)) : call unit :=
  match frames with
  | [] => mret tt
  | (f, p) :: frames' => net_handle_eth_frame p (Z.of_nat (length f)) ≫= fun _ => receive frames'
  end.
Definition arrives (frames : list (list Z * list Z)) : Prop := Forall (fun fp => in_buffer (fst fp) (snd fp)) frames.

Lemma arp_frames_received fps : forall b, net_wf b -> Forall arp_frame (map fst fps) -> arrives fps ->
  exists b', receive fps b = Done b' tt /\ net_wf b' /\ rx_view b' = rx_view b.
Proof.
  induction fps as [|[f p] fps IH]; intros b Hb Ha Hin; [by exists b|]. apply Forall_cons_1 in Ha as [Hf Ha]. apply Forall_cons_1 in Hin as [Hp Hin].
  destruct (arp_frame_received b f p Hb Hf Hp) as (b1 & r & E1 & Hb1 & V1). destruct (IH b1 Hb1 Ha Hin) as (b2 & E2 & Hb2 & V2).
  exists b2. cbn [receive]. rewrite (bind_done _ _ _ _ _ E1), E2. split; [done|]. split; [done|congruence].
Qed.

Lemma receive_app fs gs : forall b b', receive fs b = Done b' tt -> receive (fs ++ gs) b = receive gs b'.
Proof.
  induction fs as [|[f p] fs IH]; intros b b' E; [by injection E as ->|]. cbn [receive app] in *.
  unfold mbind, FST_bind in E |- *. destruct (net_handle_eth_frame p (Z.of_nat (length f)) b) as [b1 r|b1]; [|done]. by apply IH.
Qed.

(** C7: A datagram crosses the wire: what [net_udp_send] sends to the address of another host is,
    once that host has handled the frames, exactly what its receive calls hand out for the port -
    after the datagrams that waited there, with the sender's address and port and all its
    bytes - for at most 1200 bytes (the call takes up to 4096, but the queues of the stack
    take no more than 1200, net.c:1843), when the port is bound with room in its queue and
    no faults are injected. *)
Theorem udp_roundtrip (a b : Net) (src_port dst_port : Z) (payload : list Z) (old : list (Z * Z * list Z)) :
  transmits a -> net_wf b ->
  net_ip b <> net_ip a -> net_ip b <> 0x7F000001 -> net_ip b <> 0xFFFFFFFF ->
  is_u16 src_port -> is_u16 dst_port -> Forall is_byte payload -> Z.of_nat (length payload) <= UDP_MAX_PAYLOAD ->
  pending_at dst_port b = Some old -> Z.of_nat (length old) < UDP_QUEUE_DEPTH ->
  net_fault_loss_percent b = 0 -> net_fault_reorder_percent b = 0 -> rh_valid (udp_reorder_hold b) = 0 ->
  exists a' frames,
    net_udp_send (net_ip b) src_port dst_port (Some payload) (Z.of_nat (length payload)) a = Done a' 1 /\ sent a' = sent a ++ frames /\
    forall fps, map fst fps = frames -> arrives fps ->
      exists b' b'', receive fps b = Done b' tt /\
        udp_drain 17 dst_port b' = Done b'' (old ++ [(net_ip a, src_port, payload)]).
Proof.
  intros Ha Hb H1 H2 H3 Hsp Hdp Hp Hl Hold Hroom Hloss Hre Hhold.
  destruct (net_send_udp_exact a (net_ip b) src_port dst_port payload) as (a' & arp & mac & ident & E & Hsent & Harp & Hmac & Hid); try done.
  { unfold UDP_WIRE_MAX. consts. lia. }
  eexists a', _. split; [done|]. split; [done|]. intros fps Hfps Hin.
  destruct (map_eq_app _ _ _ _ Hfps) as (l1 & l2 & -> & Hl1 & Hl2). apply list.Forall_app in Hin as [Hin1 Hin2].
  destruct l2 as [|[f p] [|]]; try done. apply (f_equal (hd [])) in Hl2 as Hf. cbn [hd map fst] in Hf. apply Forall_cons_1 in Hin2 as [Hin2 _]. cbn [fst snd] in Hin2.
  destruct (arp_frames_received l1 b) as (b1 & E1 & Hb1 & V1); [done|by rewrite Hl1|done|].
  unfold pending_at in Hold. destruct (udp_find_binding dst_port b) as [i|] eqn:Hi; [|done]. injection Hold as Hold.
  pose proof (rx_view_find _ _ dst_port V1) as Hi1. rewrite Hi in Hi1. unfold rx_view in V1. injection V1 as V1 V2 V3 V4 V5.
  assert (Z.of_nat (length old) = ub_count (udp_bindings b !!! i)) as Hlen.
  { destruct (binding_at b dst_port i Hb Hi) as [_ Hbi]. destruct (bw_ring _ Hbi) as (_ & ? & _).
    rewrite <- Hold. unfold udp_pending. rewrite length_map, ring_list_length. lia. }
  destruct (udp_frame_received b1 mac (rtl_mac a) (net_ip a) src_port dst_port ident payload p i) as (b2 & bi & r & E2 & Hbs & Hu & Hport & Hpend);
    try done; try congruence; try apply (proj1 Ha); try lia.
  rewrite V2, <- Hf in E2.
  assert (net_wf b2) as Hb2.
  { pose proof (net_handle_eth_frame_safe p (Z.of_nat (length f)) (proj1 Hin2)) as Hsafe.
    assert (0 <= Z.of_nat (length f) <= 2048) as Hfl.
    { destruct Hin2 as [[Hpl _] [tail Etail]]. rewrite Etail, length_app in Hpl. unfold FRAME_BUFFER in Hpl. lia. }
    specialize (Hsafe Hfl b1 Hb1). unfold wpf in Hsafe. rewrite E2 in Hsafe. apply Hsafe. }
  pose proof (find_binding_insert _ _ dst_port i bi Hi1 Hbs Hu Hport) as Hi2.
  rewrite V1, Hold in Hpend.
  assert (udp_bindings b2 !!! i = bi) as Ebi.
  { rewrite Hbs. apply list_lookup_total_insert_eq. rewrite V1. by eapply find_idx_lt. }
  destruct (udp_drain_all 17 b2 dst_port i Hb2 Hi2) as (b3 & E3).
  { rewrite Ebi, Hpend, length_app. simpl. consts. lia. }
  exists b2, b3. rewrite (receive_app _ _ _ _ E1). cbn [receive]. rewrite (bind_done _ _ _ _ _ E2). split; [done|].
  by rewrite E3, Ebi, Hpend.
Qed.

(** Two hosts, the second with a bound port. *)
Definition host_a : Net := net_static <| net_ready := 1 |> <| rtl_iobase := 0xC000 |> <| rtl_mac := [2; 0; 0; 0; 0; 1] |>.
Definition host_b : Net := net_static <| net_ip := 0x0A000210 |>
  <| udp_bindings ::= alter (fun b => b <| ub_used := 1 |> <| ub_port := 5000 |>) 3%nat |>.

Lemma hosts_ready : transmits host_a /\ net_wf host_b.
Proof.
  split.
  - split; [|done]. pose proof net_static_wf as Hw. upd Hw. split; [done|]. repeat (apply Forall_cons_2; [unfold is_byte; lia|]). apply Forall_nil_2.
  - pose proof net_static_wf as Hw. destruct Hw. constructor; try assumption; try done.
    apply Forall_alter_all; [|done]. intros b Hb. upd Hb.
Qed.

Theorem udp_roundtrip_witness :
  exists a' frames, net_udp_send (net_ip host_b) 4000 5000 (Some [1; 2; 3]) 3 host_a = Done a' 1 /\ sent a' = sent host_a ++ frames /\
    forall fps, map fst fps = frames -> arrives fps ->
      exists b' b'', receive fps host_b = Done b' tt /\ udp_drain 17 5000 b' = Done b'' ([] ++ [(net_ip host_a, 4000, [1; 2; 3])]).
Proof.
  apply (udp_roundtrip host_a host_b 4000 5000 [1; 2; 3] []); try apply hosts_ready; try done.
  repeat (apply Forall_cons_2; [unfold is_byte; lia|]). apply Forall_nil_2.
Defined.
