(* ===== verification/NetStream.v ===== *)
(** * TCP delivers the stream of the peer in order (kernel/net.c)

    One connection of the table and the bytes its peer sends, whatever the wire does to
    the segments. *)
From S2P Require Import Prelude Fault Ring Bytes Buffers NetState NetSend NetTcp NetRecv NetWf NetSendSafe NetTcpSafe NetRecvSafe NetWire Net.

(** ** Calls as one connection sees them *)

Section At.
Context (i : nat).

(** The connection in slot [i]. *)
Definition slot_conn (s : Net) : option TcpConn := tcp_conns s !! i.

(** [at_conn c m Q]: when slot [i] holds [c], the call [m] leaves a connection there that
    satisfies [Q], unless it faults. *)
Definition at_conn (c : TcpConn) {A} (m : call A) (Q : TcpConn -> A -> Prop) : Prop :=
  forall s, slot_conn s = Some c -> wpf (fun _ => True) m (fun s' a => exists c', slot_conn s' = Some c' /\ Q c' a) s.

Lemma at_ret c {A} (a : A) (Q : TcpConn -> A -> Prop) : Q c a -> at_conn c (mret a) Q.
Proof. intros HQ s Hs. by exists c. Qed.
Lemma at_bind c {A B} (m : call A) (k : A -> call B) R Q :
  at_conn c m R -> (forall c' a, R c' a -> at_conn c' (k a) Q) -> at_conn c (m ≫= k) Q.
Proof. intros Hm Hk s Hs. eapply wpf_seq; [by apply Hm|]. intros s' a (c' & Hc' & HR). by eapply Hk. Qed.
Lemma at_mono c {A} (m : call A) (Q Q' : TcpConn -> A -> Prop) : at_conn c m Q -> (forall c' a, Q c' a -> Q' c' a) -> at_conn c m Q'.
Proof. intros Hm HQ s Hs. eapply wpf_mono; [by apply Hm|]. intros s' a (c' & Hc' & HR). exists c'. auto. Qed.
Lemma at_keeps c {A} (m : call A) : keeps slot_conn m -> at_conn c m (fun c' _ => c' = c).
Proof. intros Hm s Hs. eapply wpf_mono; [apply Hm|]. intros s' a E. simpl in E. exists c. split; [congruence|done]. Qed.
Lemma at_get c : at_conn c (get_conn i) (fun c' a => c' = c /\ a = c).
Proof.
  intros s Hs. unfold wpf, get_conn. rewrite bind_get. unfold slot_conn in Hs. rewrite (elem_done _ _ c) by (rewrite ?Nat2Z.id; done || lia).
  by exists c.
Qed.
Lemma at_set c f : at_conn c (set_conn i f) (fun c' _ => c' = f c).
Proof.
  intros s Hs. exists (f c). split; [|done]. unfold slot_conn in *. cbn. by rewrite list_lookup_alter_eq, Hs.
Qed.
Lemma set_other_keeps j f : j <> i -> keeps slot_conn (set_conn j f).
Proof. intros Hj. apply keeps_fmod. intros s. unfold slot_conn. cbn. by rewrite list_lookup_alter_ne. Qed.

(** Sending leaves the table alone. *)
Lemma send_keeps ip sp dp seq ack fl payload len : keeps slot_conn (tcp_send_segment ip sp dp seq ack fl payload len).
Proof. by apply tcp_send_segment_keeps. Qed.
Lemma count_keeps f : keeps slot_conn (count_up f).
Proof. by apply count_up_keeps. Qed.
Lemma get_conn_keeps j : keeps slot_conn (get_conn j).
Proof. unfold get_conn. kauto. Qed.
Lemma fault_should_apply_keeps p : keeps slot_conn (net_fault_should_apply p).
Proof. unfold net_fault_should_apply, net_fault_prng_next. kauto. Qed.
Hint Resolve send_keeps count_keeps get_conn_keeps fault_should_apply_keeps set_other_keeps : keeps.

Lemma send_ack_keeps j : keeps slot_conn (send_ack j).
Proof. unfold send_ack. kauto. Qed.
Hint Resolve send_ack_keeps : keeps.

(** Every call on another connection leaves this one alone. *)
Section Other.
Context (j : nat) (Hj : j <> i).

Lemma track_other seq ack fl payload len : keeps slot_conn (tcp_track_outbound j seq ack fl payload len).
Proof using Hj. unfold tcp_track_outbound. kauto. Qed.
Hint Resolve track_other : keeps.
Lemma send_and_track_other fl payload len : keeps slot_conn (tcp_send_and_track j fl payload len).
Proof using Hj. unfold tcp_send_and_track. kauto. Qed.
Lemma retransmit_other : keeps slot_conn (tcp_retransmit_last j).
Proof using Hj. unfold tcp_retransmit_last. kauto. Qed.
Hint Resolve send_and_track_other retransmit_other : keeps.
Lemma poll_other : keeps slot_conn (poll_conn j).
Proof using Hj. unfold poll_conn. kauto. Qed.
Lemma closing_other seq ack fl : keeps slot_conn (tcp_on_closing j seq ack fl).
Proof using Hj. unfold tcp_on_closing, close_acked. kauto. Qed.
Lemma handshake_other seq ack fl : keeps slot_conn (tcp_on_handshake j seq ack fl).
Proof using Hj. unfold tcp_on_handshake. kauto. Qed.
Lemma data_other seq payload len : keeps slot_conn (tcp_on_data j seq payload len).
Proof using Hj. unfold tcp_on_data, tcp_queue_rx. kauto. Qed.
Hint Resolve closing_other handshake_other data_other : keeps.
Lemma open_other seq ack fl payload len : keeps slot_conn (tcp_on_open j seq ack fl payload len).
Proof using Hj. unfold tcp_on_open. kauto. Qed.
End Other.
End At.

(** ** The stream of a connection *)

(** The bytes that wait in the receive queue of a connection. *)
Definition segment_bytes (g : TcpSegment) : list Z := slice 0 (ts_len g) (ts_data g).
Definition rx_bytes (c : TcpConn) : list Z := concat (map segment_bytes (ring_list (c_rx_queue c) (c_rx_head c) (c_rx_count c))).

(** The fields of a segment. *)
Definition be16_at (p : list Z) (o : Z) : Z := u16 (Z.lor (Z.shiftl p.[o] 8) p.[o + 1]).
Definition be32_at (p : list Z) (o : Z) : Z :=
  u32 (Z.lor (Z.lor (Z.lor (Z.shiftl p.[o] 24) (Z.shiftl p.[o + 1] 16)) (Z.shiftl p.[o + 2] 8)) p.[o + 3]).
Definition hdr_len (p : list Z) : Z := u16 (u8 (Z.shiftr p.[12] 4) * 4).

Lemma slice_next (l : list Z) a n k : 0 <= a -> 0 <= n -> 0 <= k -> slice a n l ++ slice (a + n) k l = slice a (n + k) l.
Proof.
  intros Ha Hn Hk. unfold slice. replace (Z.to_nat (n + k)) with (Z.to_nat n + Z.to_nat k)%nat by lia.
  rewrite Z2Nat.inj_add by lia. rewrite <- drop_drop. by rewrite take_take_drop.
Qed.

Lemma slice_split (a b l : list Z) t n : 0 <= t -> 0 <= n -> a ++ b = slice t n l ->
  a = slice t (Z.of_nat (length a)) l /\ b = slice (t + Z.of_nat (length a)) (n - Z.of_nat (length a)) l.
Proof.
  intros Ht Hn E. assert (Z.of_nat (length a) <= n) as Hl.
  { apply (f_equal length) in E. unfold slice in E. rewrite length_app, length_take in E. lia. }
  unfold slice in *. split.
  - apply (f_equal (take (length a))) in E. rewrite take_app_length, take_take in E. rewrite E at 1. f_equal. lia.
  - apply (f_equal (drop (length a))) in E. rewrite drop_app_length in E. rewrite E, skipn_firstn_comm, drop_drop. f_equal; [lia|]. f_equal. lia.
Qed.

Section Stream.
Context (ip rport lport : Z) (stream : list Z) (first : Z).
Let total := Z.of_nat (length stream).
Context (Htotal : total < 2 ^ 32 - 1).

(** What the peer of the connection sends: the bytes of the stream from some offset [k] on,
    numbered from [first]; its end is marked by a segment without data.  The number of a
    segment with neither data nor the mark does not matter. *)
Definition genuine (tcp : list Z) (tcp_len : Z) : Prop :=
  let h := hdr_len tcp in
  tcp_len = h /\ flag tcp.[13] TCP_FLAG_FIN = false \/
  exists k, 0 <= k /\ k + (tcp_len - h) <= total /\ be32_at tcp 4 = u32 (first + k) /\
    slice h (tcp_len - h) tcp = slice k (tcp_len - h) stream /\
    (flag tcp.[13] TCP_FLAG_FIN = true -> tcp_len = h /\ k = total).

(** A segment that may arrive is genuine when it is for the connection. *)
Definition segment_ok (src_ip : Z) (tcp : list Z) (tcp_len : Z) : Prop :=
  (src_ip = ip -> be16_at tcp 0 = rport -> be16_at tcp 2 = lport -> 20 <= hdr_len tcp <= tcp_len -> genuine tcp tcp_len).

(** The connection has handed out [taken] bytes; the next ones of the stream wait in its
    queue, and while it still takes data it expects the byte after them. *)
Definition expects (m : Z) (c : TcpConn) : Prop :=
  c_rcv_nxt c = u32 (first + m) \/ (m = total /\ c_rcv_nxt c = u32 (first + total + 1)).
Definition live (taken : Z) (c : TcpConn) : Prop :=
  c_listening c = 0 /\ c_remote_ip c = ip /\ c_remote_port c = rport /\ c_local_port c = lport /\
  ring_wf (c_rx_head c) (c_rx_tail c) (c_rx_count c) /\ length (c_rx_queue c) = 16%nat /\
  exists m, 0 <= taken <= m /\ m <= total /\ rx_bytes c = slice taken (m - taken) stream /\
    (((c_state c = TCP_STATE_ESTABLISHED \/ c_state c = TCP_STATE_CLOSE_WAIT) /\ expects m c) \/ c_state c = TCP_STATE_CLOSING).
Definition conn_stream (taken : Z) (c : TcpConn) : Prop := c_used c = 0 \/ live taken c.

(** A change of the sending side only, or the end of the connection. *)
Definition rx_same (c c' : TcpConn) : Prop :=
  c_listening c' = c_listening c /\ c_remote_ip c' = c_remote_ip c /\ c_remote_port c' = c_remote_port c /\
  c_local_port c' = c_local_port c /\ c_rx_head c' = c_rx_head c /\ c_rx_tail c' = c_rx_tail c /\ c_rx_count c' = c_rx_count c /\
  c_rx_queue c' = c_rx_queue c /\ c_rcv_nxt c' = c_rcv_nxt c.

Lemma live_same taken c c' : rx_same c c' -> (c_state c' = c_state c \/ c_state c' = TCP_STATE_CLOSING) -> live taken c -> live taken c'.
Proof.
  intros (E1 & E2 & E3 & E4 & E5 & E6 & E7 & E8 & E9) Hst (H1 & H2 & H3 & H4 & H5 & H6 & m & Hm & Hm2 & Hb & Hs).
  unfold live, expects, rx_bytes in *. rewrite E1, E2, E3, E4, E5, E6, E7, E8, E9.
  do 6 (split; [done|]). exists m. split; [done|]. split; [done|]. split; [done|]. destruct Hst as [->| ->]; tauto.
Qed.

Lemma conn_stream_same taken c c' : rx_same c c' -> c_used c' = c_used c -> (c_state c' = c_state c \/ c_state c' = TCP_STATE_CLOSING) ->
  conn_stream taken c -> conn_stream taken c'.
Proof. intros Hs Hu Hst [H|H]; [left; congruence|right; by eapply live_same]. Qed.

(** ** Numbers of the stream *)

Lemma number_eq k m : 0 <= k <= total -> 0 <= m <= total + 1 -> u32 (first + k) = u32 (first + m) -> k = m.
Proof.
  intros Hk Hm E. unfold u32 in E.
  assert ((k - m) mod 2 ^ 32 = 0) as Hz.
  { replace (k - m) with ((first + k) - (first + m)) by lia. rewrite Zminus_mod, E, Z.sub_diag. done. }
  apply Z.mod_divide in Hz; [|lia]. destruct Hz as [q Hq]. lia.
Qed.

Lemma expects_here k m c : 0 <= k <= total -> 0 <= m <= total -> expects m c -> u32 (first + k) = c_rcv_nxt c -> k = m /\ c_rcv_nxt c = u32 (first + m).
Proof.
  intros Hk Hm [E|[-> E]] En; rewrite E in En.
  - apply number_eq in En; [|done|lia]. split; done.
  - replace (first + total + 1) with (first + (total + 1)) in En by lia. apply number_eq in En; lia.
Qed.

Lemma u32_add a b : u32 (u32 a + b) = u32 (a + b).
Proof. unfold u32. by rewrite Zplus_mod_idemp_l. Qed.

(** ** Segments *)

Section Handler.
Context (i : nat).
Abbreviation at_c := (at_conn i).
Hint Resolve send_keeps count_keeps get_conn_keeps fault_should_apply_keeps set_other_keeps send_ack_keeps : keeps.

Lemma at_fget c : at_c c fget (fun c' s => c' = c /\ slot_conn i s = Some c).
Proof. intros s Hs. by exists c. Qed.
Lemma at_rd c p o : at_c c (rd p o) (fun c' a => c' = c /\ a = p.[o]).
Proof. intros s Hs. unfold wpf, rd. case_if; [|done]. by exists c. Qed.
Lemma at_rd_bytes c p o n : at_c c (rd_bytes p o n) (fun c' a => c' = c /\ a = slice o n p /\ Z.of_nat (length a) = n /\ 0 <= n).
Proof.
  intros s Hs. unfold wpf, rd_bytes. case_if; [|done]. bsimpl. exists c. split; [done|]. split; [done|]. split; [done|]. rewrite slice_length; lia.
Qed.
Lemma at_put c o b p : at_c c (put o b p) (fun c' a => c' = c /\ a = splice o b p /\ fits o b p).
Proof. intros s Hs. unfold wpf, put. case_if; [|done]. bsimpl. exists c. unfold fits. done. Qed.
Lemma at_elem c {A} (l : list A) k : at_c c (elem l k) (fun c' a => c' = c /\ l !! Z.to_nat k = Some a).
Proof. intros s Hs. unfold wpf, elem. case_if; [|done]. destruct (l !! Z.to_nat k) eqn:El; [|done]. by exists c. Qed.
Lemma at_be16 c p o : at_c c (read_be16 p o) (fun c' a => c' = c /\ a = be16_at p o).
Proof.
  unfold read_be16. eapply at_bind; [apply at_rd|]. intros c1 a [-> ->]. eapply at_bind; [apply at_rd|]. intros c1 b [-> ->]. by apply at_ret.
Qed.
Lemma at_be32 c p o : at_c c (read_be32 p o) (fun c' a => c' = c /\ a = be32_at p o).
Proof.
  unfold read_be32. do 4 (eapply at_bind; [apply at_rd|]; intros ? ? [-> ->]). by apply at_ret.
Qed.

Ltac akeep := eapply at_bind; [apply at_keeps; solve [eauto with keeps]|]; intros ? ? ->.

(** The queue takes a segment that fits. *)
Lemma at_queue c payload len : ring_wf (c_rx_head c) (c_rx_tail c) (c_rx_count c) -> length (c_rx_queue c) = 16%nat -> 0 < len ->
  at_c c (tcp_queue_rx i payload len) (fun c' ok =>
    (ok = 0 /\ c' = c) \/
    (ok = 1 /\ exists q, c' = c <| c_rx_queue := q |> <| c_rx_tail := (c_rx_tail c + 1) mod TCP_QUEUE_DEPTH |> <| c_rx_count := u16 (c_rx_count c + 1) |> /\
      ring_wf (c_rx_head c) ((c_rx_tail c + 1) mod TCP_QUEUE_DEPTH) (u16 (c_rx_count c + 1)) /\ length q = 16%nat /\
      concat (map segment_bytes (ring_list q (c_rx_head c) (u16 (c_rx_count c + 1)))) = rx_bytes c ++ slice 0 len payload)).
Proof.
  intros Hr Hq Hlen. unfold tcp_queue_rx. destruct (Z.eqb_spec len 0); [lia|]. eapply at_bind; [apply at_get|]. intros c1 a [-> ->].
  destruct ((TCP_MAX_PAYLOAD <? len) || (TCP_QUEUE_DEPTH <=? c_rx_count c)) eqn:E; [apply at_ret; by left|]. bsimpl. consts.
  eapply at_bind; [apply at_elem|]. intros c1 seg [-> Hseg]. eapply at_bind; [apply at_rd_bytes|]. intros c1 b (-> & -> & Hb & _).
  eapply at_bind; [apply at_put|]. intros c1 d (-> & -> & Hfit). eapply at_bind; [apply at_set|]. intros c1 [] ->. apply at_ret. right. split; [done|].
  destruct (Hr) as (Hh & Hc & Ht). set (g := Build_TcpSegment len (splice 0 (slice 0 len payload) (ts_data seg))).
  exists (<[Z.to_nat (c_rx_tail c) := g]> (c_rx_queue c)). split; [done|].
  split; [by apply ring_wf_push; [|lia]|]. split; [by rewrite length_insert|].
  rewrite u16_small by lia. rewrite Ht, (ring_push (c_rx_queue c) 16) by lia. rewrite map_app, concat_app. f_equal. cbn. rewrite app_nil_r.
  unfold segment_bytes, g. cbn. rewrite <- Hb at 1. by apply slice_splice_same.
Qed.

(** Data in order is queued and acknowledged; all other data is left aside. *)
Lemma at_data taken c seq payload len k : live taken c -> (c_state c = TCP_STATE_ESTABLISHED \/ c_state c = TCP_STATE_CLOSE_WAIT) ->
  (0 < len -> seq = u32 (first + k) /\ 0 <= k /\ k + len <= total /\ slice 0 len payload = slice k len stream) ->
  at_c c (tcp_on_data i seq payload len) (fun c' _ => live taken c' /\ c_state c' = c_state c /\ c_used c' = c_used c /\ (len <= 0 -> c' = c)).
Proof.
  intros Hlive Hst Hg. unfold tcp_on_data. destruct (Z.ltb_spec 0 len) as [Hlen|Hlen]; cbn [negb]; [|by apply at_ret].
  destruct (Hg Hlen) as (-> & Hk & Hkl & Hpay).
  eapply at_bind; [apply at_fget|]. intros c1 s [-> _]. akeep. destruct a as [|].
  { akeep. akeep. apply at_ret. split; [done|]. split; [done|]. split; [done|]. lia. }
  eapply at_bind; [apply at_get|]. intros c1 a [-> ->].
  eapply at_bind with (R := fun c' _ => live taken c' /\ c_state c' = c_state c /\ c_used c' = c_used c).
  2:{ intros c1 _ (H1 & H2 & H3). akeep. apply at_ret. split; [done|]. split; [done|]. split; [done|]. lia. }
  destruct (Z.eqb_spec (u32 (first + k)) (c_rcv_nxt c)) as [E|_]; [|by apply at_ret].
  destruct (Hlive) as (H1 & H2 & H3 & H4 & H5 & H6 & m & Hm & Hm2 & Hb & [[_ Hs]|Hs]); [|consts; lia].
  destruct (expects_here k m c) as [-> Hrcv]; [lia|lia|done|done|].
  eapply at_bind; [by apply at_queue|]. intros c1 ok [[-> ->]|(-> & q & -> & Hr' & Hq' & Hcat)]; [by apply at_ret|]. cbn [Z.eqb negb].
  eapply at_mono; [apply at_set|]. intros c1 [] ->. cbn. split; [|done].
  do 4 (split; [done|]). split; [done|]. split; [done|]. exists (m + len). split; [lia|]. split; [lia|]. split.
  - unfold rx_bytes. cbn. rewrite Hcat, Hb, Hpay. replace (m + len - taken) with (m - taken + len) by lia.
    rewrite <- slice_next by lia. by replace (taken + (m - taken)) with m by lia.
  - left. split; [done|]. left. cbn. rewrite Hrcv, u32_add. f_equal. lia.
Qed.

Lemma at_open taken c seq ack fl payload len k : live taken c -> (c_state c = TCP_STATE_ESTABLISHED \/ c_state c = TCP_STATE_CLOSE_WAIT) ->
  (0 < len -> seq = u32 (first + k) /\ 0 <= k /\ k + len <= total /\ slice 0 len payload = slice k len stream) ->
  (flag fl TCP_FLAG_FIN = true -> seq = u32 (first + total) /\ len <= 0) ->
  at_c c (tcp_on_open i seq ack fl payload len) (fun c' _ => live taken c').
Proof.
  intros Hlive Hst Hg Hfin. unfold tcp_on_open.
  eapply at_bind with (R := fun c' _ => live taken c' /\ c_state c' = c_state c).
  { destruct (flag fl TCP_FLAG_ACK); [|by apply at_ret]. eapply at_mono; [apply at_set|]. intros c1 [] ->. cbv zeta.
    destruct (c_snd_una c <? ack); [|done]. destruct (c_snd_nxt c <=? ack); (split; [|done]); (eapply live_same; [| |done]; [done|by left]). }
  intros c1 _ [Hl1 Hs1]. rewrite <- Hs1 in Hst.
  eapply at_bind; [by eapply (at_data taken c1 _ payload len k)|]. intros c2 lost (Hl2 & Hs2 & _ & Heq).
  destruct lost; [by apply at_ret|]. destruct (flag fl TCP_FLAG_FIN); [|by apply at_ret]. destruct (Hfin eq_refl) as [-> Hlen].
  specialize (Heq Hlen). subst c2. eapply at_bind; [apply at_get|]. intros c3 a [-> ->].
  eapply at_bind with (R := fun c' _ => live taken c' /\ (c_state c' = TCP_STATE_ESTABLISHED \/ c_state c' = TCP_STATE_CLOSE_WAIT)).
  { destruct (Z.eqb_spec (u32 (first + total)) (c_rcv_nxt c1)) as [E|_]; [|by apply at_ret].
    eapply at_mono; [apply at_set|]. intros c4 [] ->. split; [|done].
    destruct Hl1 as (H1 & H2 & H3 & H4 & H5 & H6 & m & Hm & Hm2 & Hb & [[_ Hs]|Hs]); [|consts; lia].
    destruct (expects_here total m c1) as [<- Hrcv]; [lia|lia|done|done|].
    do 6 (split; [done|]). exists total. split; [lia|]. split; [lia|]. split; [done|]. left. split; [done|]. right. split; [done|].
    cbn. unfold up. rewrite Hrcv. apply u32_add. }
  intros c4 _ [Hl4 Hs4]. eapply at_bind; [apply at_set|]. intros c5 [] ->. akeep. apply at_ret.
  destruct Hl4 as (H1 & H2 & H3 & H4 & H5 & H6 & m & Hm & Hm2 & Hb & [[_ Hs]|Hs]); [|consts; lia].
  do 6 (split; [done|]). exists m. split; [lia|]. split; [lia|]. split; [done|]. left. split; [by right|done].
Qed.

(** In the state CLOSING nothing is queued any more. *)
Lemma live_closing taken c c' : live taken c -> c_state c = TCP_STATE_CLOSING -> rx_same c (c' <| c_rcv_nxt := c_rcv_nxt c |>) ->
  c_state c' = TCP_STATE_CLOSING -> live taken c'.
Proof.
  intros Hl Hs Hr Hs'. eapply live_same in Hl; [|exact Hr|by left; rewrite Hs].
  destruct Hl as (H1 & H2 & H3 & H4 & H5 & H6 & m & Hm & Hm2 & Hb & _).
  do 6 (split; [done|]). exists m. split; [done|]. split; [done|]. split; [done|]. by right.
Qed.

Lemma at_closing taken c seq ack fl : live taken c ->
  at_c c (tcp_on_closing i seq ack fl) (fun c' r => conn_stream taken c' /\ (r = None -> c' = c)).
Proof.
  intros Hl. unfold tcp_on_closing. eapply at_bind; [apply at_get|]. intros c1 a [-> ->].
  destruct (Z.eqb_spec (c_state c) TCP_STATE_CLOSING) as [Hs|Hs]; cbn [negb]; [|apply at_ret; by split; [right|]].
  destruct (_ && _).
  { unfold close_acked. eapply at_bind; [apply at_set|]. intros c1 [] ->. apply at_ret. split; [by left|done]. }
  destruct (flag fl TCP_FLAG_FIN); [|apply at_ret; by split; [right|]].
  eapply at_bind with (R := fun c' _ => live taken c').
  { destruct (seq =? c_rcv_nxt c); [|by apply at_ret]. eapply at_mono; [apply at_set|]. intros c1 [] ->. by eapply live_closing. }
  intros c1 _ Hl1. akeep. eapply at_bind; [apply at_get|]. intros c2 a' [-> ->].
  eapply at_bind with (R := fun c' _ => conn_stream taken c').
  { destruct (_ && _); [|apply at_ret; by right]. unfold close_acked. eapply at_mono; [apply at_set|]. intros c2 [] ->. by left. }
  intros c2 _ Hl2. apply at_ret. by split.
Qed.

Lemma at_handshake taken c seq ack fl : live taken c -> at_c c (tcp_on_handshake i seq ack fl) (fun c' r => c' = c /\ r = None).
Proof.
  intros (_ & _ & _ & _ & _ & _ & m & _ & _ & _ & Hs). unfold tcp_on_handshake. eapply at_bind; [apply at_get|]. intros c1 a [-> ->].
  consts. destruct (Z.eqb_spec (c_state c) 2); [lia|]. destruct (Z.eqb_spec (c_state c) 3); [lia|]. cbn [andb]. by apply at_ret.
Qed.

Lemma at_valid c src dst tcp len (P : Prop) : (forall s s', tcp_checksum_valid src dst tcp len s = Done s' true -> P) ->
  at_c c (tcp_checksum_valid src dst tcp len) (fun c' v => c' = c /\ (v = true -> P)).
Proof.
  intros HP s Hs. assert (keeps (slot_conn i) (tcp_checksum_valid src dst tcp len)) as Hk
    by (unfold tcp_checksum_valid, pseudo_sum; kauto).
  specialize (Hk s). specialize (HP s). unfold wpf in *. destruct (tcp_checksum_valid src dst tcp len s) as [s' v|]; [|done].
  exists c. split; [congruence|]. split; [done|]. intros ->. by apply (HP s').
Qed.

(** A new connection takes another slot than one in use. *)
Lemma at_accept_syn c listener src_ip sp dp seq : c_used c <> 0 ->
  at_c c (tcp_accept_syn listener src_ip sp dp seq) (fun c' _ => c' = c).
Proof.
  intros Hu. unfold tcp_accept_syn, tcp_alloc_conn.
  eapply at_bind with (R := fun c' child => c' = c /\ child <> Some i).
  { eapply at_bind; [apply at_fget|]. intros c1 s [-> Hs]. destruct (find_idx _ _) as [j|] eqn:Hj; [|by apply at_ret].
    assert (j <> i) as Hne.
    { intros ->. apply find_idx_Some in Hj as [(c1 & Hc1 & Hz) _]. unfold slot_conn in Hs. rewrite Hs in Hc1. injection Hc1 as <-. lia. }
    akeep. apply at_ret. split; [done|congruence]. }
  intros c1 [j|] [-> Hne]; [|by apply at_ret]. assert (j <> i) as Hji by congruence.
  eapply at_bind; [apply at_fget|]. intros c1 s [-> _]. akeep.
  eapply at_bind; [apply at_keeps; by apply keeps_fmod|]. intros c1 _ ->. akeep. akeep. destruct (_ =? 0).
  { akeep. by apply at_ret. }
  eapply at_bind; [apply at_fget|]. intros c1 s' [-> _]. akeep. by apply at_ret.
Qed.

(** Whatever segment arrives, the connection keeps to the stream. *)
Lemma at_segment taken c src_ip dst_ip tcp tcp_len : conn_stream taken c -> c_used c <> 0 -> 0 <= tcp_len < 65536 ->
  (forall s s', tcp_checksum_valid src_ip dst_ip tcp tcp_len s = Done s' true -> segment_ok src_ip tcp tcp_len) ->
  at_c c (net_handle_tcp_segment src_ip dst_ip tcp tcp_len) (fun c' _ => conn_stream taken c').
Proof.
  intros Hc Hused Hlen Hok. unfold net_handle_tcp_segment. destruct (tcp_len <? 20); [by apply at_ret|].
  eapply at_bind; [by apply at_valid|]. intros c1 valid [-> Hv]. destruct valid; cbn [negb].
  2:{ eapply at_mono; [apply at_keeps; by apply malformed_keeps|]. by intros c' _ ->. }
  pose proof (Hv eq_refl) as Hgen.
  eapply at_bind; [apply at_be16|]. intros c1 sp [-> ->]. eapply at_bind; [apply at_be16|]. intros c1 dp [-> ->].
  eapply at_bind; [apply at_be32|]. intros c1 seq [-> ->]. eapply at_bind; [apply at_be32|]. intros c1 ack [-> ->].
  eapply at_bind; [apply at_rd|]. intros c1 b12 [-> ->]. eapply at_bind; [apply at_rd|]. intros c1 fl [-> ->]. cbv zeta.
  change (u16 (u8 (Z.shiftr tcp.[12] 4) * 4)) with (hdr_len tcp). destruct ((hdr_len tcp <? 20) || (tcp_len <? hdr_len tcp)) eqn:E; [by apply at_ret|].
  bsimpl. rewrite (u16_small (tcp_len - _)) by lia. eapply at_bind; [apply at_fget|]. intros c1 s [-> Hs].
  destruct (tcp_find_conn src_ip (be16_at tcp 0) (be16_at tcp 2) s) as [j|] eqn:Hj.
  2:{ destruct (tcp_find_listener _ s); [|by apply at_ret]. destruct (_ && _); [|by apply at_ret].
      eapply at_mono; [by apply at_accept_syn|]. by intros c1 _ ->. }
  destruct (decide (j = i)) as [->|Hne].
  - apply find_idx_Some in Hj as [(c1 & Hc1 & Hkey) _]. unfold slot_conn in Hs. rewrite Hs in Hc1. injection Hc1 as <-.
    unfold tcp_conn_of in Hkey. bsimpl. destruct Hc as [Hu|Hl]; [lia|].
    pose proof Hl as (_ & Hip & Hrp & Hlp & _).
    pose proof (Hgen ltac:(congruence) ltac:(congruence) ltac:(congruence) ltac:(lia)) as Hg.
    destruct (flag _ TCP_FLAG_RST).
    { akeep. eapply at_bind; [apply at_set|]. intros c2 [] ->. apply at_ret. by left. }
    eapply at_bind; [by apply at_closing|]. intros c2 r [Hl2 Hr]. destruct r as [r|]; [by apply at_ret|]. rewrite (Hr eq_refl). clear Hr Hl2.
    eapply at_bind; [by eapply at_handshake|]. intros c3 r [-> ->]. eapply at_bind; [apply at_get|]. intros c3 a [-> ->].
    destruct ((c_state c =? TCP_STATE_ESTABLISHED) || (c_state c =? TCP_STATE_CLOSE_WAIT)) eqn:Est; [|apply at_ret; by right].
    apply orb_true_iff in Est. rewrite !Z.eqb_eq in Est. eapply at_mono.
    + destruct Hg as [[Hh Hf]|(k & Hk & Hkl & Hseq & Hpay & Hfin)].
      * eapply (at_open taken c _ _ _ _ _ 0); [done|done|lia|congruence].
      * eapply (at_open taken c _ _ _ _ _ k); [done|done|done|].
        intros Hf. destruct (Hfin Hf) as [? ->]. split; [done|lia].
    + intros c' a Hl'. by right.
  - eapply at_mono; [apply at_keeps|by intros c' _ ->].
    pose proof (closing_other i j Hne). pose proof (handshake_other i j Hne). pose proof (open_other i j Hne). kauto.
Qed.

(** ** The other calls *)

Lemma at_poll taken c j : conn_stream taken c -> at_c c (poll_conn j) (fun c' _ => conn_stream taken c').
Proof.
  intros Hc. destruct (decide (j = i)) as [->|Hne].
  2:{ eapply at_mono; [apply at_keeps; by apply poll_other|]. by intros c' _ ->. }
  unfold poll_conn. eapply at_bind; [apply at_get|]. intros c1 a [-> ->]. destruct (_ || _); [by apply at_ret|].
  eapply at_bind; [apply at_fget|]. intros c1 s [-> _]. destruct (_ <=? _); [|by apply at_ret].
  eapply at_bind with (R := fun c' _ => conn_stream taken c'); [|intros c1 r H1; destruct (negb _); by apply at_ret].
  unfold tcp_retransmit_last. eapply at_bind; [apply at_get|]. intros c1 a [-> ->]. destruct (_ || _); [by apply at_ret|].
  cbv zeta. destruct (_ <=? c_last_tx_retries c).
  { akeep. eapply at_bind with (R := fun c' _ => c' = c); [destruct (_ || _); [apply at_keeps; apply count_keeps|by apply at_ret]|].
    intros c1 _ ->. eapply at_bind; [apply at_set|]. intros c1 [] ->. apply at_ret. by left. }
  akeep. destruct (_ =? 0); [by apply at_ret|]. eapply at_bind; [apply at_fget|]. intros c1 s' [-> _].
  eapply at_bind; [apply at_set|]. intros c1 [] ->. akeep. apply at_ret. eapply conn_stream_same; [| | |done]; [done|done|by left].
Qed.

Lemma at_poll_all taken n : forall lo r c, conn_stream taken c -> at_c c (poll_from lo n r) (fun c' _ => conn_stream taken c').
Proof.
  induction n as [|n IH]; intros lo r c Hc; cbn [poll_from]; [by apply at_ret|].
  eapply at_bind; [by apply at_poll|]. intros c' r' Hc'. by apply IH.
Qed.

Lemma at_track c seq ack fl payload len :
  at_c c (tcp_track_outbound i seq ack fl payload len) (fun c' _ => rx_same c c' /\ c_used c' = c_used c /\ c_state c' = c_state c).
Proof.
  unfold tcp_track_outbound. eapply at_bind; [apply at_fget|]. intros c1 s [-> _]. eapply at_bind; [apply at_set|]. intros c1 [] ->.
  destruct payload as [p|]; [|by apply at_ret]. destruct (0 <? len); [|by apply at_ret].
  eapply at_bind; [apply at_get|]. intros c1 a [-> ->]. eapply at_bind; [apply at_rd_bytes|]. intros c1 b (-> & _).
  eapply at_bind; [apply at_put|]. intros c1 d (-> & _). eapply at_mono; [apply at_set|]. by intros c1 [] ->.
Qed.

Lemma at_send_and_track taken c j fl payload len : conn_stream taken c ->
  at_c c (tcp_send_and_track j fl payload len) (fun c' _ => conn_stream taken c').
Proof.
  intros Hc. destruct (decide (j = i)) as [->|Hne].
  2:{ eapply at_mono; [apply at_keeps; by apply send_and_track_other|]. by intros c' _ ->. }
  unfold tcp_send_and_track. eapply at_bind; [apply at_get|]. intros c1 a [-> ->]. akeep. destruct (_ =? 0); [by apply at_ret|].
  eapply at_bind; [apply at_track|]. intros c1 _ (Hr & Hu & Hst).
  eapply at_bind with (R := fun c' _ => rx_same c c' /\ c_used c' = c_used c /\ c_state c' = c_state c).
  { destruct (_ || _); [|by apply at_ret]. eapply at_mono; [apply at_set|]. by intros c2 [] ->. }
  clear c1 Hr Hu Hst. intros c1 _ (Hr & Hu & Hst). eapply at_bind; [apply at_set|]. intros c2 [] ->. apply at_ret.
  eapply conn_stream_same; [| | |exact Hc]; [exact Hr|exact Hu|by left].
Qed.

Lemma at_tcp_send taken c conn payload len : conn_stream taken c -> at_c c (net_tcp_send conn payload len) (fun c' _ => conn_stream taken c').
Proof.
  intros Hc. unfold net_tcp_send. destruct payload; [|by apply at_ret]. destruct (_ || _); [by apply at_ret|]. cbv zeta.
  akeep. destruct (_ || _ || _); [by apply at_ret|]. eapply at_bind; [by apply at_send_and_track|].
  intros c' ok Hc'. destruct (ok =? 0); by apply at_ret.
Qed.

Lemma at_tcp_close taken c conn : conn_stream taken c -> at_c c (net_tcp_close conn) (fun c' _ => conn_stream taken c').
Proof.
  intros Hc. unfold net_tcp_close. destruct (negb _); [by apply at_ret|]. cbv zeta. akeep. destruct (_ =? 0); [by apply at_ret|].
  assert (forall c, conn_stream taken c ->
    at_c c (set_conn (Z.to_nat conn) (fun c => c <| c_used := 0 |> <| c_state := TCP_STATE_CLOSED |>) ≫= fun _ => mret 1) (fun c' _ => conn_stream taken c')) as Hdrop.
  { intros c0 Hc0. destruct (decide (Z.to_nat conn = i)) as [->|Hne]; [|akeep; by apply at_ret].
    eapply at_bind; [apply at_set|]. intros c1 [] ->. apply at_ret. by left. }
  destruct (negb _); [by apply Hdrop|]. destruct (_ || _); [|by apply Hdrop].
  eapply at_bind; [by apply at_send_and_track|]. intros c' ok Hc'. destruct (negb _); [|by apply Hdrop].
  destruct (decide (Z.to_nat conn = i)) as [->|Hne]; [|akeep; by apply at_ret].
  eapply at_bind; [apply at_set|]. intros c1 [] ->. apply at_ret. eapply conn_stream_same; [| | |exact Hc']; [done|done|by right].
Qed.

Lemma at_recv taken c max : conn_stream taken c -> conn_wf c -> TCP_MAX_PAYLOAD <= max -> (i < 32)%nat ->
  at_c c (net_tcp_recv (Z.of_nat i) true max) (fun c' r =>
    r = slice taken (Z.of_nat (length r)) stream /\ conn_stream (taken + Z.of_nat (length r)) c').
Proof.
  intros Hc Hwf Hmax Hi. unfold net_tcp_recv.
  assert (at_c c (mret []) (fun c' r => r = slice taken (Z.of_nat (length r)) stream /\ conn_stream (taken + Z.of_nat (length r)) c')) as Hnone
    by (apply at_ret; split; [done|]; by rewrite Z.add_0_r).
  destruct (_ || _); [done|]. cbv zeta. rewrite Nat2Z.id. eapply at_bind; [apply at_get|]. intros c1 a [-> ->].
  destruct ((c_used c =? 0) || _ || _) eqn:E; [done|]. apply orb_false_iff in E as [E E3]. apply orb_false_iff in E as [E1 E2].
  apply Z.eqb_neq in E1, E3. destruct Hc as [Hu|Hl]; [lia|].
  destruct Hl as (H1 & H2 & H3 & H4 & H5 & H6 & m & Hm & Hm2 & Hb & Hs). destruct (H5) as (Hh & Hcnt & Ht).
  eapply at_bind; [apply at_elem|]. intros c1 seg [-> Hseg].
  assert (ts_len seg <= TCP_MAX_PAYLOAD) as Hsl by (apply (Forall_lookup_1 _ _ _ _ (cw_queue _ Hwf) Hseg)).
  destruct (Z.ltb_spec max (ts_len seg)); [lia|]. eapply at_bind; [apply at_rd_bytes|]. intros c1 b (-> & Hbe & Hbl & Hb0).
  eapply at_bind; [apply at_set|]. intros c1 [] ->. apply at_ret.
  assert (c_rx_queue c !!! Z.to_nat (c_rx_head c) = seg) as Hhead by (by apply list_lookup_total_correct).
  unfold rx_bytes in Hb. rewrite (ring_pop (c_rx_queue c) 16) in Hb by lia. cbn [map concat] in Hb. rewrite Hhead in Hb.
  change (segment_bytes seg) with (slice 0 (ts_len seg) (ts_data seg)) in Hb. rewrite <- Hbe in Hb.
  destruct (slice_split b _ stream taken (m - taken) ltac:(lia) ltac:(lia) Hb) as [Hb1 Hb2]. split; [done|]. right.
  assert (taken + Z.of_nat (length b) <= m) as Hbm.
  { apply (f_equal length) in Hb. unfold slice in Hb. rewrite length_app, length_take in Hb. lia. }
  do 4 (split; [done|]). split; [cbn; apply ring_wf_pop; [done|lia]|]. split; [done|]. exists m. split; [lia|]. split; [done|]. split; [|done].
  unfold rx_bytes. cbn. rewrite u16_small by lia. rewrite <- Z.sub_add_distr in Hb2. exact Hb2.
Qed.
End Handler.
End Stream.

(** ** A run of the connection *)

(** What happens while a program reads from the connection in slot [i]: segments arrive from
    anywhere, programs send on and close connections, time passes, unacknowledged segments
    are sent again, and the program takes data out. *)
Inductive StreamOp :=
| SSegment (src_ip dst_ip : Z) (tcp : list Z) (tcp_len : Z)
| SSend (conn : Z) (payload : option (list Z)) (len : Z)
| SClose (conn : Z)
| SPoll
| STick
| SRecv (max_len : Z).

(** The bytes an operation hands out. *)
Definition stream_op (i : nat) (o : StreamOp) : call (list Z) :=
  match o with
  | SSegment src dst tcp len => net_handle_tcp_segment src dst tcp len ≫= fun _ => mret []
  | SSend conn payload len => net_tcp_send conn payload len ≫= fun _ => mret []
  | SClose conn => net_tcp_close conn ≫= fun _ => mret []
  | SPoll => net_tcp_poll ≫= fun _ => mret []
  | STick => fmod (fun s => s <| tick := tick s +u 1 |>) ≫= fun _ => mret []
  | SRecv max => net_tcp_recv (Z.of_nat i) true max
  end.

(** Whether the connection is still there; its slot may go to another one afterwards. *)
Definition in_use (i : nat) (s : Net) : bool :=
  match tcp_conns s !! i with Some c => negb (c_used c =? 0) | None => false end.

(** The bytes handed out up to the end of the connection. *)
Fixpoint stream_run (i : nat) (ops : list StreamOp) : call (list Z) :=
  match ops with
  | [] => mret []
  | o :: ops' =>
      s ← fget;
      if in_use i s then bytes ← stream_op i o; rest ← stream_run i ops'; mret (bytes ++ rest)
      else mret []
  end.

(** Segments lie in a buffer of at least the size the receiver uses; one that passes its checksum
    is genuine when it is for this connection, all others are arbitrary.  The reads have room
    for a whole segment. *)
Definition stream_op_ok (ip rport lport : Z) (stream : list Z) (first : Z) (o : StreamOp) : Prop :=
  match o with
  | SSegment src dst tcp len =>
      is_u32 src /\ 0 <= len <= 65515 /\ (exists n, 1588 <= n /\ buffer n tcp) /\
      (forall s s', tcp_checksum_valid src dst tcp len s = Done s' true -> segment_ok ip rport lport stream first src tcp len)
  | SSend _ payload len => payload_ok payload len
  | SRecv max => TCP_MAX_PAYLOAD <= max < 65536
  | _ => True
  end.

Section Run.
Context (i : nat) (ip rport lport : Z) (stream : list Z) (first : Z).
Context (Htotal : Z.of_nat (length stream) < 2 ^ 32 - 1) (Hi : (i < 32)%nat).

Lemma stream_op_safe o : stream_op_ok ip rport lport stream first o -> nsafe (stream_op i o) (fun _ => True).
Proof.
  intros Ho. destruct o as [src dst tcp len|conn payload len|conn| | |max]; simpl in *.
  - destruct Ho as (Hs & Hl & (n & Hn & Hb) & _). snext (net_handle_tcp_segment_safe n); [done|done|done|lia|]. intros; by sret.
  - destruct Ho as [Hl Hp]. unfold is_u16 in Hl. destruct payload as [p|].
    + destruct Hp as (n & Hb & Hn). snext (net_tcp_send_safe n); [done|lia|]. intros; by sret.
    + snext (net_tcp_send_safe len conn None); [done|lia|]. intros; by sret.
  - snext net_tcp_close_safe. intros; by sret.
  - snext net_tcp_poll_safe. intros; by sret.
  - eapply safe_bind; [smod; intros t Ht; upd Ht|]. intros; by sret.
  - eapply safe_mono; [apply net_tcp_recv_safe; consts; lia|done].
Qed.

(** One operation hands out the next bytes of the stream. *)
Lemma stream_op_step o taken s c : stream_op_ok ip rport lport stream first o -> net_wf s -> slot_conn i s = Some c -> c_used c <> 0 ->
  conn_stream ip rport lport stream first taken c ->
  wpf never (stream_op i o) (fun s' r => net_wf s' /\ r = slice taken (Z.of_nat (length r)) stream /\
    exists c', slot_conn i s' = Some c' /\ conn_stream ip rport lport stream first (taken + Z.of_nat (length r)) c') s.
Proof.
  intros Ho Hs Hc Hu Hst. pose proof (stream_op_safe o Ho s Hs) as Hsafe.
  assert (conn_wf c) as Hwf by (by eapply (Forall_lookup_1 _ _ _ _ (nw_conns _ Hs))).
  assert (at_conn i c (stream_op i o) (fun c' r => r = slice taken (Z.of_nat (length r)) stream /\
            conn_stream ip rport lport stream first (taken + Z.of_nat (length r)) c')) as Hat.
  { assert (forall A (m : call A), at_conn i c m (fun c' _ => conn_stream ip rport lport stream first taken c') ->
      at_conn i c (m ≫= fun _ => mret []) (fun c' r => r = slice taken (Z.of_nat (length r)) stream /\
            conn_stream ip rport lport stream first (taken + Z.of_nat (length r)) c')) as Hnil.
    { intros A m Hm. eapply at_bind; [exact Hm|]. intros c' a Hc'. apply at_ret. split; [done|]. by rewrite Z.add_0_r. }
    destruct o as [src dst tcp len|conn payload len|conn| | |max]; simpl in *.
    - destruct Ho as (_ & Hl & _ & Hok). apply Hnil. apply at_segment; [done..|lia|done].
    - apply Hnil. by apply at_tcp_send.
    - apply Hnil. by apply at_tcp_close.
    - apply Hnil. by apply at_poll_all.
    - apply Hnil. eapply at_mono; [apply at_keeps; by apply keeps_fmod|]. by intros c' _ ->.
    - apply at_recv; done || lia. }
  specialize (Hat s Hc). unfold wpf in *. destruct (stream_op i o s) as [s' r|]; [|done].
  destruct Hsafe as [Hs' _], Hat as (c' & Hc' & Hr & Hst'). eauto.
Qed.

Lemma stream_run_step ops : forall taken s c, Forall (stream_op_ok ip rport lport stream first) ops -> 0 <= taken -> net_wf s -> slot_conn i s = Some c ->
  conn_stream ip rport lport stream first taken c ->
  wpf never (stream_run i ops) (fun s' r => r = slice taken (Z.of_nat (length r)) stream /\
    exists c', slot_conn i s' = Some c' /\ conn_stream ip rport lport stream first (taken + Z.of_nat (length r)) c') s.
Proof.
  induction ops as [|o ops IH]; intros taken s c Hops Ht Hs Hc Hst; cbn [stream_run].
  - apply wpf_ret. split; [done|]. rewrite Z.add_0_r. eauto.
  - unfold wpf. rewrite bind_get. fold (wpf (A := list Z) (S := Net)). unfold in_use. unfold slot_conn in Hc. rewrite Hc.
    destruct (Z.eqb_spec (c_used c) 0) as [_|Hu]; cbn [negb]; [apply wpf_ret; split; [done|]; rewrite Z.add_0_r; eauto|].
    apply Forall_cons_1 in Hops as [Ho Hops]. eapply wpf_seq; [by eapply stream_op_step|]. intros s1 r (Hs1 & Hr & c1 & Hc1 & Hst1).
    eapply wpf_seq; [apply (IH (taken + Z.of_nat (length r)) s1 c1); try done; lia|]. intros s2 r' (Hr' & c2 & Hc2 & Hst2). apply wpf_ret.
    rewrite length_app, Nat2Z.inj_add, Z.add_assoc. split; [|eauto]. rewrite <- (slice_next stream taken (Z.of_nat (length r)) (Z.of_nat (length r'))) by lia. by rewrite <- Hr, <- Hr'.
Qed.
End Run.

(** C3: TCP is a reliable stream towards programs that read with room for a whole segment
    (1200 bytes; a shorter read drops the rest, net.c:2375), from a peer whose closing segment
    carries no data (when such data is not queued, net.c:939 passes over a byte).  From an
    established connection to its end, whatever the wire does with the peer's segments - loss,
    repetition, reordering, damage, other segments and connections in between - and in whatever
    order programs send, close and read, the bytes [net_tcp_recv] hands out are the first bytes
    of the peer's stream, each once and in order; and as long as the connection is open, the
    bytes up to the number it acknowledges have been handed out or wait in its queue. *)
Theorem tcp_in_order (i : nat) (stream : list Z) (s : Net) (c : TcpConn) (ops : list StreamOp) :
  net_wf s -> tcp_conns s !! i = Some c -> c_listening c = 0 -> c_state c = TCP_STATE_ESTABLISHED -> c_rx_count c = 0 ->
  Z.of_nat (length stream) < 2 ^ 32 - 1 ->
  Forall (stream_op_ok (c_remote_ip c) (c_remote_port c) (c_local_port c) stream (c_rcv_nxt c)) ops ->
  wpf never (stream_run i ops) (fun s' bytes => bytes `prefix_of` stream /\
    exists c', tcp_conns s' !! i = Some c' /\
      (c_used c' <> 0 -> c_state c' <> TCP_STATE_CLOSING -> exists rest, stream = bytes ++ rx_bytes c' ++ rest /\
         let received := Z.of_nat (length bytes + length (rx_bytes c')) in
         c_rcv_nxt c' = c_rcv_nxt c +u received \/ (rest = [] /\ c_rcv_nxt c' = c_rcv_nxt c +u (received + 1)))) s.
Proof.
  intros Hs Hc Hli Hst Hcnt Htot Hops.
  assert (conn_wf c) as Hwf by (by eapply (Forall_lookup_1 _ _ _ _ (nw_conns _ Hs))). destruct (Hwf).
  pose proof (lookup_lt_Some _ _ _ Hc) as Hlt. rewrite (nw_conns_length _ Hs) in Hlt. unfold TCP_MAX_CONNS in Hlt.
  eapply wpf_mono; [eapply (stream_run_step i _ _ _ stream (c_rcv_nxt c) Htot Hlt ops 0); [done|lia|done|done|]|].
  - right. do 5 (split; [done|]). split; [consts; lia|]. exists 0. split; [lia|]. split; [lia|]. split.
    + unfold rx_bytes. by rewrite Hcnt.
    + left. split; [by left|]. left. rewrite Z.add_0_r, u32_small; done.
  - intros s' bytes [Hb (c' & Hc' & Hst')]. rewrite Z.add_0_l in Hst'. split.
    { rewrite Hb. unfold slice. rewrite drop_0. apply prefix_take. }
    exists c'. split; [done|]. intros Hu Hcl. destruct Hst' as [?|(_ & _ & _ & _ & _ & _ & m & Hm & Hm2 & Hrx & [[_ He]|?])]; try done.
    assert (Z.of_nat (length (rx_bytes c')) = m - Z.of_nat (length bytes)) as Hl by (rewrite Hrx, slice_length; lia).
    exists (drop (Z.to_nat m) stream). split.
    + rewrite app_assoc, Hb, Hrx at 1. rewrite slice_next by lia. unfold slice. rewrite drop_0. replace (Z.to_nat (_ + _)) with (Z.to_nat m) by lia. by rewrite take_drop.
    + cbv zeta. destruct He as [He|[-> He]]; [left|right; split; [by rewrite drop_ge by lia|]]; rewrite He; f_equal; lia.
Qed.

(** A connection from port 4000 of 10.0.2.16 to port 80, and segments of its peer. *)
Definition demo_conn : TcpConn := zero_conn <| c_used := 1 |> <| c_state := TCP_STATE_ESTABLISHED |> <| c_local_port := 80 |>
  <| c_remote_port := 4000 |> <| c_remote_ip := 0x0A000210 |> <| c_rcv_nxt := 100 |>.
Definition demo_net : Net := net_static <| tcp_conns ::= <[2%nat := demo_conn]> |>.
Definition demo_segment (seq : Z) (payload : list Z) : list Z :=
  let header csum := be16_bytes 4000 ++ be16_bytes 80 ++ be32_bytes seq ++ be32_bytes 0 ++ [0x50; 0x18] ++ be16_bytes 4096 ++ be16_bytes csum ++ be16_bytes 0 in
  let pseudo := be32_bytes 0x0A000210 ++ be32_bytes 0x0A00020F ++ [0; 6] ++ be16_bytes (20 + Z.of_nat (length payload)) in
  header (internet_checksum (pseudo ++ header 0 ++ payload)) ++ payload ++ zero_bytes 1600.
Definition demo_arrival (seq : Z) (payload : list Z) : StreamOp :=
  SSegment 0x0A000210 0x0A00020F (demo_segment seq payload) (20 + Z.of_nat (length payload)).
(** The second half comes first, and both come twice. *)
Definition demo_ops : list StreamOp :=
  [demo_arrival 103 [4; 5; 6]; demo_arrival 100 [1; 2; 3]; demo_arrival 100 [1; 2; 3]; SPoll; STick; demo_arrival 103 [4; 5; 6]; SRecv 1200; SRecv 1500].

Lemma stream_demo_run : exists s, stream_run 2 demo_ops demo_net = Done s [1; 2; 3; 4; 5; 6].
Proof. eexists. vm_compute. reflexivity. Qed.

Lemma demo_net_wf : net_wf demo_net.
Proof.
  pose proof net_static_wf as Hw. destruct Hw. constructor; try assumption; try done.
  apply Forall_insert; [done|]. constructor; cbn -[replicate zero_bytes Z.to_nat]; try ranges;
    [apply ring_zero|apply buffer_zero; consts; lia|by rewrite length_replicate|].
  apply Forall_replicate. constructor; cbn -[zero_bytes]; [consts; lia|apply buffer_zero; consts; lia].
Qed.

Lemma demo_segment_buffer seq payload : Forall is_byte payload -> Forall is_byte (demo_segment seq payload).
Proof.
  intros Hp. unfold demo_segment. cbv zeta. rewrite <- !app_assoc.
  repeat (apply Forall_app_2; [try apply be16_buffer; try apply be32_buffer; try done;
    repeat (apply Forall_cons_2; [unfold is_byte; lia|]); apply Forall_nil_2|]).
  apply Forall_replicate. unfold is_byte. lia.
Qed.

Lemma demo_arrival_ok k p : (k, p) = (0, [1; 2; 3]) \/ (k, p) = (3, [4; 5; 6]) ->
  stream_op_ok 0x0A000210 4000 80 [1; 2; 3; 4; 5; 6] 100 (demo_arrival (100 + k) p).
Proof.
  intros Hk. assert (Forall is_byte p) as Hp
    by (destruct Hk as [E|E]; injection E as -> ->; repeat (apply Forall_cons_2; [unfold is_byte; lia|]); apply Forall_nil_2).
  assert (Z.of_nat (length p) = 3) as Hl by (destruct Hk as [E|E]; by injection E as -> ->).
  split; [unfold is_u32; lia|]. split; [lia|]. split.
  - eexists. split; [|split; [reflexivity|by apply demo_segment_buffer]].
    unfold demo_segment. cbv zeta. rewrite !length_app. unfold zero_bytes. rewrite length_replicate. lia.
  - intros _ _ _ _ _ _ _. right. exists k. rewrite Hl.
    destruct Hk as [E|E]; injection E as -> ->; (split; [done|]; split; [by vm_compute|]; split; [by vm_compute|]; split; [by vm_compute|]; by vm_compute).
Qed.

Theorem tcp_in_order_witness :
  wpf never (stream_run 2 demo_ops) (fun s' bytes => bytes `prefix_of` [1; 2; 3; 4; 5; 6] /\
    exists c', tcp_conns s' !! 2%nat = Some c' /\
      (c_used c' <> 0 -> c_state c' <> TCP_STATE_CLOSING -> exists rest, [1; 2; 3; 4; 5; 6] = bytes ++ rx_bytes c' ++ rest /\
         let received := Z.of_nat (length bytes + length (rx_bytes c')) in
         c_rcv_nxt c' = c_rcv_nxt demo_conn +u received \/ (rest = [] /\ c_rcv_nxt c' = c_rcv_nxt demo_conn +u (received + 1)))) demo_net.
Proof.
  apply tcp_in_order; [apply demo_net_wf|done|done|done|done|done|].
  change (Forall (stream_op_ok 0x0A000210 4000 80 [1; 2; 3; 4; 5; 6] 100) demo_ops). unfold demo_ops.
  pose proof (demo_arrival_ok 0 [1; 2; 3] ltac:(by left)) as A. pose proof (demo_arrival_ok 3 [4; 5; 6] ltac:(by right)) as B.
  do 6 (apply Forall_cons_2; [first [exact A | exact B | exact I]|]). do 2 (apply Forall_cons_2; [simpl; consts; lia|]). apply Forall_nil_2.
Defined.
