(* ===== verification/NetTimers.v ===== *)
(** * TCP gives up on a silent peer (kernel/net.c)

    The retransmission timer sends an unacknowledged segment again, and in the end frees
    the connection. *)
From S2P Require Import Prelude Fault Bytes Buffers NetState NetSend NetTcp NetRecv NetWf NetSendSafe NetTcpSafe NetWire NetDatagram NetStream Net.

(** ** A card that takes frames takes segments *)

Lemma send_frame_ok n frame len : buffer n frame -> 0 < len <= n -> len <= 1514 -> safe transmits (rtl8139_send_frame frame len) (fun r => r = 1).
Proof.
  intros [Hl Hb] Hlen H15 s Hs. destruct (rtl8139_send_frame_exact s frame len) as (s' & E & _ & Ht); [done|lia|lia|done|].
  unfold wpf. by rewrite E.
Qed.

Lemma hw_address_ok ip : safe transmits (hw_address ip) (buffer 6).
Proof. intros s Hs. destruct (hw_address_exact s ip Hs) as (s' & mac & fs & E & _ & Ht & Hm & _). unfold wpf. by rewrite E. Qed.

Ltac tnext lem := eapply safe_bind; [eapply lem|cbv beta].

Lemma pseudo_sum_ok n src_ip dst_ip protocol packet len :
  buffer n packet -> is_byte protocol -> 0 <= len <= n -> len <= 1588 -> safe transmits (pseudo_sum src_ip dst_ip protocol packet len) (fun _ => True).
Proof.
  intros Hp Hpr Hlen H16. unfold pseudo_sum.
  tnext (safe_rd_bytes transmits n); [done|lia|lia|lia|]. intros bytes Hb.
  tnext (safe_puts transmits 1600); [apply (buffer_zero 1600); lia|stores|]. intros buf Hbuf.
  rewrite u16_small by lia. tnext (safe_rd_bytes transmits 1600); [done|lia|lia|lia|]. intros body Hbody. by apply safe_ret.
Qed.

Lemma tcp_send_segment_ok n dst_ip src_port dst_port seq ack flags payload payload_len :
  is_byte flags -> match payload with Some p => buffer n p | None => True end -> 0 <= payload_len <= 1200 ->
  (payload <> None -> payload_len <= n) ->
  safe transmits (tcp_send_segment dst_ip src_port dst_port seq ack flags payload payload_len) (fun r => r = 1).
Proof.
  intros Hfl Hp Hlen Hn. unfold tcp_send_segment. eapply safe_bind; [apply safe_fget|]. intros s (Hwf & Hr & _).
  destruct (Z.eqb_spec (net_ready s) 0); [done|]. destruct (Z.ltb_spec 1300 payload_len); [lia|]. cbn [orb]. cbv zeta.
  apply safe_bind with (buffer 6); [case_if; [apply hw_address_ok|apply safe_ret, broadcast_buffer]|]. intros mac Hmac.
  rewrite (u16_small (20 + payload_len)) by lia.
  tnext (safe_puts transmits 1514); [apply empty_frame_buffer|apply eth_fields_ok; [done..|apply ipv4_fields_ok; unfold is_byte, IP_PROTO_TCP; lia]|].
  intros f Hf. unfold ipv4_checksum. eapply safe_bind; [tnext (safe_rd_bytes transmits 1514 f 14 20); [done|lia|lia|lia|]; intros h Hh;
    eapply (safe_put transmits 1514); [done|apply be16_buffer|lia|lia]|]. cbv beta. intros f' Hf'.
  tnext (safe_puts transmits 1514); [done|stores|]. intros f2 Hf2.
  apply safe_bind with (buffer 1514).
  { destruct payload as [p|]; [|by apply safe_ret]. case_if; [|by apply safe_ret]. specialize (Hn ltac:(done)).
    tnext (safe_rd_bytes transmits n); [done|lia|lia|lia|]. intros b Hb. eapply safe_put; [done|done|lia|lia]. }
  intros f3 Hf3. tnext (pseudo_sum_ok 1480); [by apply (buffer_at 1514 34)|unfold is_byte, IP_PROTO_TCP; lia|lia|lia|].
  intros csum _. tnext (safe_put transmits 1514); [done|apply be16_buffer|lia|lia|]. intros f4 Hf4.
  rewrite (u16_small (20 + (20 + _))) by lia. rewrite (u16_small (14 + _)) by lia.
  pose proof (padded_bound (14 + (20 + (20 + payload_len))) ltac:(lia)).
  apply send_frame_ok with 1514; [done|unfold padded in *; case_if; bsimpl; lia|lia].
Qed.

(** ** One connection and the timer *)

Section Timer.
Context (i : nat) (Hi : (i < 32)%nat).

(** The clock and the card. *)
Definition base (s : Net) : Z * Z * Z := (tick s, net_ready s, rtl_iobase s).

Lemma wpf_keeps {S X A} (v : S -> X) (m : FST S A) Q s : wpf never m Q s -> keeps v m -> wpf never m (fun s' a => Q s' a /\ v s' = v s) s.
Proof. intros Hm Hk. specialize (Hk s). unfold wpf in *. by destruct (m s). Qed.

Lemma poll_base j : keeps base (poll_conn j).
Proof.
  assert (forall ip sp dp seq ack fl payload len, keeps base (tcp_send_segment ip sp dp seq ack fl payload len)) by (intros; by apply tcp_send_segment_keeps).
  assert (forall f, keeps base (count_up f)) by (intros; by apply count_up_keeps).
  unfold poll_conn, tcp_retransmit_last, get_conn, set_conn. kauto.
Qed.

Lemma base_transmits s s' : net_wf s' -> base s' = base s -> transmits s -> transmits s'.
Proof. unfold base. intros Hw [= _ E2 E3] (_ & H2 & H3). split; [done|]. by rewrite E2, E3. Qed.

(** A connection that waits for an acknowledgement. *)
Definition waiting (c : TcpConn) : Prop := c_used c <> 0 /\ c_listening c = 0 /\ c_waiting_ack c <> 0.

(** After the timer: freed, or sent once more. *)
Definition timed (now : Z) (c c' : TcpConn) : Prop :=
  c_used c' = 0 \/ (waiting c' /\ c_last_tx_retries c' = c_last_tx_retries c + 1 /\ c_last_tx_tick c' = now).

Lemma timeout_bound c : 0 <= c_last_tx_retries c -> retx_timeout c <= 320.
Proof.
  intros Hr. unfold retx_timeout, TCP_RETX_TICKS.
  assert (forall k, 0 <= k <= 4 -> u32 (Z.shiftl 20 k) <= 320) as Hk.
  { intros k Hk. rewrite Z.shiftl_mul_pow2 by lia. assert (0 < 2 ^ k <= 2 ^ 4) by (split; [apply Z.pow_pos_nonneg; lia|apply Z.pow_le_mono_r; lia]).
    rewrite u32_small; lia. }
  apply Hk. case_if; bsimpl; lia.
Qed.

Lemma poll_waiting s c : transmits s -> slot_conn i s = Some c -> waiting c -> 320 <= tick s -u c_last_tx_tick c ->
  wpf never (poll_conn i) (fun s' _ => transmits s' /\ tick s' = tick s /\ exists c', slot_conn i s' = Some c' /\ timed (tick s) c c') s.
Proof.
  intros Hs Hc (Hu & Hl & Hw) Hage. assert (conn_wf c) as Hwf by (by eapply (Forall_lookup_1 _ _ _ _ (nw_conns _ (proj1 Hs)))).
  assert (get_conn i s = Done s c) as Eg by (unfold get_conn; rewrite bind_get; apply elem_done; [by rewrite Nat2Z.id|lia]).
  pose proof (poll_conn_safe i Hi s (proj1 Hs)) as Hsafe. pose proof (wpf_keeps base _ _ _ Hsafe (poll_base i)) as Hall.
  eapply wpf_mono with (Q := fun s' _ => (net_wf s' /\ base s' = base s) /\ exists c', slot_conn i s' = Some c' /\ timed (tick s) c c').
  2:{ intros s' a ((Hw' & Hb) & Hc'). split; [by eapply base_transmits|]. split; [|done]. unfold base in Hb. congruence. }
  assert (wpf never (poll_conn i) (fun s' _ => exists c', slot_conn i s' = Some c' /\ timed (tick s) c c') s) as Heff.
  2:{ unfold wpf in *. destruct (poll_conn i s); [|done]. destruct Hall as [[? _] ?]. done. }
  clear Hsafe Hall. unfold poll_conn. eapply wpf_step; [exact Eg|].
  destruct (Z.eqb_spec (c_used c) 0); [done|]. destruct (Z.eqb_spec (c_waiting_ack c) 0); [done|]. rewrite Hl. cbn [Z.eqb negb orb].
  eapply wpf_step; [done|]. pose proof (timeout_bound c (proj1 (cw_retries _ Hwf))).
  destruct (Z.leb_spec (retx_timeout c) (tick s -u c_last_tx_tick c)); [|lia].
  eapply wpf_seq with (R := fun s' _ => exists c', slot_conn i s' = Some c' /\ timed (tick s) c c'); [|intros s' r HR; by apply wpf_ret].
  unfold tcp_retransmit_last. eapply wpf_step; [exact Eg|]. destruct (Z.eqb_spec (c_used c) 0); [done|].
  destruct (Z.eqb_spec (c_waiting_ack c) 0); [done|]. rewrite Hl. cbn [Z.eqb negb orb]. cbv zeta.
  destruct (Z.leb_spec (if half_open (c_state c) then TCP_RETX_MAX + 2 else TCP_RETX_MAX) (c_last_tx_retries c)) as [Hmax|Hmax].
  - unfold count_up. eapply wpf_step; [done|]. 
    assert (forall s0, slot_conn i s0 = Some c -> wpf never (set_conn i (fun c => c <| c_used := 0 |> <| c_state := TCP_STATE_CLOSED |>) ≫= fun _ => mret 0)
       (fun s' _ => exists c', slot_conn i s' = Some c' /\ timed (tick s) c c') s0) as Hend.
    { intros s0 Hs0. destruct (at_set i c (fun c => c <| c_used := 0 |> <| c_state := TCP_STATE_CLOSED |>) s0 Hs0) as (c' & Hc' & ->).
      exists (c <| c_used := 0 |> <| c_state := TCP_STATE_CLOSED |>). split; [exact Hc'|]. by left. }
    destruct (_ || _); (eapply wpf_step; [done|]); by apply Hend.
  - destruct (Hwf). eapply wpf_seq.
    + apply wpf_keeps with (v := fun t => (slot_conn i t, tick t)); [|by apply tcp_send_segment_keeps].
      apply (tcp_send_segment_ok TCP_MAX_PAYLOAD); [done|by case_if|consts; lia|intros _; consts; lia|exact Hs].
    + cbv beta. intros s1 ok ((_ & ->) & [= Hc1 Ht1]). cbn [Z.eqb]. eapply wpf_step; [done|].
      rewrite Hc in Hc1. eapply wpf_step; [done|]. unfold count_up. eapply wpf_step; [done|]. apply wpf_ret.
      eexists. split; [unfold slot_conn in *; cbn; rewrite list_lookup_alter_eq, Hc1; reflexivity|]. right. cbn.
      split; [done|]. split; [|done]. consts. rewrite u8_small; [done|]. destruct (half_open _); lia.
Qed.

(** The loop over the table. *)
Lemma poll_from_app n : forall lo m r s, poll_from lo (n + m) r s = (poll_from lo n r ≫= fun r' => poll_from (lo + n) m r') s.
Proof.
  induction n as [|n IH]; intros lo m r s; cbn [Nat.add poll_from]; [by rewrite Nat.add_0_r|].
  unfold mbind, FST_bind. destruct (poll_conn lo s) as [s' x|s']; [|done]. rewrite IH. rewrite <- Nat.add_succ_comm. reflexivity.
Qed.

(** The turns of the other connections. *)
Lemma poll_others n c : forall lo r s, (lo + n <= 32)%nat -> (forall j, (lo <= j < lo + n)%nat -> j <> i) -> transmits s -> slot_conn i s = Some c ->
  wpf never (poll_from lo n r) (fun s' _ => transmits s' /\ slot_conn i s' = Some c /\ tick s' = tick s) s.
Proof.
  induction n as [|n IH]; intros lo r s Hn Hne Hs Hc; cbn [poll_from]; [by apply wpf_ret|].
  eapply wpf_seq.
  - apply wpf_keeps with (v := slot_conn i); [|apply poll_other; apply Hne; lia].
    apply wpf_keeps with (v := base); [|apply poll_base]. apply (poll_conn_safe lo ltac:(lia) s (proj1 Hs)).
  - cbv beta. intros s1 x (((Hw1 & _) & Hb1) & Hc1). eapply wpf_mono; [apply IH; [lia|intros; apply Hne; lia|by eapply base_transmits|congruence]|].
    intros s2 y (Ht2 & Hc2 & Hk2). split; [done|]. split; [done|]. unfold base in Hb1. congruence.
Qed.

Lemma poll_all_waiting s c : transmits s -> slot_conn i s = Some c -> waiting c -> 320 <= tick s -u c_last_tx_tick c ->
  wpf never net_tcp_poll (fun s' _ => transmits s' /\ tick s' = tick s /\ exists c', slot_conn i s' = Some c' /\ timed (tick s) c c') s.
Proof.
  intros Hs Hc Hw Hage. unfold net_tcp_poll, TCP_MAX_CONNS. unfold wpf. replace 32%nat with (i + S (31 - i))%nat by lia. rewrite poll_from_app.
  apply wpf_seq with (R := fun s' _ => transmits s' /\ slot_conn i s' = Some c /\ tick s' = tick s);
    [apply poll_others; [lia|lia|done|done]|]. intros s1 r (Ht1 & Hc1 & Hk1). cbn [poll_from Nat.add].
  eapply wpf_seq; [apply poll_waiting with (c := c); [done|done|done|congruence]|]. cbv beta. intros s2 r2 (Ht2 & Hk2 & c' & Hc' & Htm).
  eapply wpf_mono; [eapply poll_others; [lia|lia|done|exact Hc']|]. intros s3 r3 (Ht3 & Hc3 & Hk3).
  split; [done|]. split; [congruence|]. exists c'. split; [done|]. congruence.
Qed.

(** A freed connection stays free. *)
Lemma poll_freed s c : transmits s -> slot_conn i s = Some c -> c_used c = 0 ->
  wpf never net_tcp_poll (fun s' _ => transmits s' /\ slot_conn i s' = Some c) s.
Proof.
  intros Hs Hc Hu. unfold net_tcp_poll, TCP_MAX_CONNS. unfold wpf. replace 32%nat with (i + S (31 - i))%nat by lia. rewrite poll_from_app.
  apply wpf_seq with (R := fun s' _ => transmits s' /\ slot_conn i s' = Some c /\ tick s' = tick s);
    [apply poll_others; [lia|lia|done|done]|]. intros s1 r (Ht1 & Hc1 & _). cbn [poll_from Nat.add].
  eapply wpf_step with (s' := s1) (a := 0).
  { unfold poll_conn. rewrite (bind_done _ _ s1 s1 c) by (unfold get_conn; rewrite bind_get; apply elem_done; [by rewrite Nat2Z.id|lia]).
    rewrite Hu. reflexivity. }
  eapply wpf_mono; [eapply poll_others; [lia|lia|done|done]|]. by intros s3 r3 (Ht3 & Hc3 & _).
Qed.
End Timer.

(** ** Rounds of the timer *)

(** Each round lets some ticks pass and polls the connections. *)
Fixpoint timer_rounds (rounds : list Z) : call unit :=
  match rounds with
  | [] => mret tt
  | d :: rounds' => fmod (fun s => s <| tick := tick s +u d |>) ≫= fun _ => net_tcp_poll ≫= fun _ => timer_rounds rounds'
  end.

Lemma tick_transmits s d : transmits s -> transmits (s <| tick := tick s +u d |>).
Proof. intros (Hw & H2 & H3). split; [upd Hw|done]. Qed.

Lemma rounds_freed i (Hi : (i < 32)%nat) c rounds : forall s, transmits s -> slot_conn i s = Some c -> c_used c = 0 ->
  wpf never (timer_rounds rounds) (fun s' _ => slot_conn i s' = Some c) s.
Proof.
  induction rounds as [|d rounds IH]; intros s Hs Hc Hu; cbn [timer_rounds]; [by apply wpf_ret|].
  eapply wpf_step; [done|]. eapply wpf_seq; [apply (poll_freed i Hi _ c); [by apply tick_transmits|done|done]|].
  cbv beta. intros s1 _ [Ht1 Hc1]. by apply IH.
Qed.

Lemma age_step now last d : is_u32 now -> is_u32 last -> 320 <= d <= 2 ^ 31 -> now -u last < 2 ^ 31 -> 320 <= (now +u d) -u last.
Proof.
  unfold is_u32. intros Hn Hl Hd Ha. unfold u32 in *. rewrite Zminus_mod_idemp_l. replace (now + d - last) with (d + (now - last)) by lia.
  rewrite <- Zplus_mod_idemp_r. pose proof (Z.mod_pos_bound (now - last) (2 ^ 32) ltac:(lia)). rewrite Z.mod_small; lia.
Qed.

Lemma rounds_waiting i (Hi : (i < 32)%nat) rounds : forall s c, transmits s -> slot_conn i s = Some c -> waiting c ->
  Forall (fun d => 320 <= d <= 2 ^ 31) rounds -> tick s -u c_last_tx_tick c < 2 ^ 31 ->
  8 <= c_last_tx_retries c + Z.of_nat (length rounds) ->
  wpf never (timer_rounds rounds) (fun s' _ => exists c', slot_conn i s' = Some c' /\ c_used c' = 0) s.
Proof.
  induction rounds as [|d rounds IH]; intros s c Hs Hc Hw Hds Hage Hn; cbn [timer_rounds].
  - assert (conn_wf c) as Hwf by (by eapply (Forall_lookup_1 _ _ _ _ (nw_conns _ (proj1 Hs)))). destruct Hwf. consts. cbn [length] in Hn. lia.
  - apply Forall_cons_1 in Hds as [Hd Hds]. eapply wpf_step; [done|].
    assert (conn_wf c) as Hwf by (by eapply (Forall_lookup_1 _ _ _ _ (nw_conns _ (proj1 Hs)))).
    eapply wpf_seq; [apply (poll_all_waiting i Hi _ c); [by apply tick_transmits|done|done|]|].
    { apply age_step; [apply (proj1 Hs)|apply Hwf|done|done]. }
    cbv beta. intros s1 _ (Ht1 & Hk1 & c1 & Hc1 & [Hu|(Hw1 & Hr1 & Hl1)]).
    + eapply wpf_mono; [by eapply (rounds_freed i Hi c1)|]. intros s2 x Hc2. by exists c1.
    + apply (IH s1 c1); try done.
      * rewrite Hk1, Hl1. rewrite Z.sub_diag. unfold u32. rewrite Z.mod_0_l; lia.
      * cbn [length] in Hn. lia.
Qed.

(** C8: No connection waits for ever: when the peer stays silent, every connection with an
    unacknowledged segment - a handshake, data or a close - is freed after at most eight
    rounds of the timer that are at least 320 ticks apart, whatever the other connections do. *)
Theorem tcp_unacked_reclaimed (i : nat) (s : Net) (c : TcpConn) (rounds : list Z) :
  transmits s -> tcp_conns s !! i = Some c -> waiting c -> tick s -u c_last_tx_tick c < 2 ^ 31 ->
  (8 <= length rounds)%nat -> Forall (fun d => 320 <= d <= 2 ^ 31) rounds ->
  wpf never (timer_rounds rounds) (fun s' _ => exists c', tcp_conns s' !! i = Some c' /\ c_used c' = 0) s.
Proof.
  intros Hs Hc Hw Hage Hn Hds. pose proof (lookup_lt_Some _ _ _ Hc) as Hi. rewrite (nw_conns_length _ (proj1 Hs)) in Hi. unfold TCP_MAX_CONNS in Hi.
  assert (conn_wf c) as Hwf by (by eapply (Forall_lookup_1 _ _ _ _ (nw_conns _ (proj1 Hs)))). destruct Hwf.
  apply (rounds_waiting i Hi rounds s c); try done. lia.
Qed.

(** A connection whose handshake is never answered. *)
Definition lonely_conn : TcpConn := zero_conn <| c_used := 1 |> <| c_state := TCP_STATE_SYN_SENT |> <| c_local_port := 5000 |>
  <| c_remote_port := 80 |> <| c_remote_ip := 0x0A000210 |> <| c_last_tx_flags := TCP_FLAG_SYN |> <| c_waiting_ack := 1 |>.
Definition lonely_net : Net := host_a <| tcp_conns ::= <[5%nat := lonely_conn]> |>.

Lemma lonely_ready : transmits lonely_net.
Proof.
  destruct (proj1 hosts_ready) as (Hw & H2 & H3). split; [|done]. destruct Hw. constructor; try assumption; try done.
  apply Forall_insert; [done|]. constructor; cbn -[replicate zero_bytes Z.to_nat]; try ranges;
    [apply ring_zero|apply buffer_zero; consts; lia|by rewrite length_replicate|].
  apply Forall_replicate. constructor; cbn -[zero_bytes]; [consts; lia|apply buffer_zero; consts; lia].
Qed.

Theorem tcp_unacked_reclaimed_witness :
  wpf never (timer_rounds (replicate 8 320)) (fun s' _ => exists c', tcp_conns s' !! 5%nat = Some c' /\ c_used c' = 0) lonely_net.
Proof.
  apply (tcp_unacked_reclaimed 5 lonely_net lonely_conn); [apply lonely_ready|done|done|done|simpl; lia|].
  apply Forall_replicate. lia.
Defined.
