(* ===== verification/Loader.v ===== *)
(** * The module loader (kernel/module_loader.c)

    Loaded objects with their exports, dependencies and reference counts, the pool their
    sections live in, the relocations that wait for a symbol, and the calls of dlopen,
    dlclose, dlsym, insmod and rmmod.  A C string is the memory from its first character
    on, with the terminator, and a null pointer is [None]. *)
From Stdlib Require Import Ascii String.
From S2P Require Import Prelude Fault Bytes Buffers VfsDefs Task.

Definition NS_MODULE_MAX : Z := 12.
Definition NS_KERNEL_EXPORTS_MAX : Z := 64.
Definition NS_MODULE_POOL_SIZE : Z := 256 * 1024.
Definition NS_MODULE_LOAD_LIMIT : Z := 64 * 1024.
Definition NS_MODULE_MAX_SECTIONS : Z := 96.
Definition NS_MODULE_ABI_MAGIC : Z := 0x4E534D31.
Definition NS_DLERROR_LEN : Z := 96.
Definition NS_PENDING_RELOC_MAX : Z := 192.
Definition NS_MODULE_KIND_LIBRARY : Z := 1.
Definition NS_MODULE_KIND_KERNEL : Z := 2.
Definition NS_NAME_LEN : Z := 48.
Definition NS_PATH_LEN : Z := 64.
Definition NS_EXPORTS_MAX : Z := 64.
Definition NS_DEPS_MAX : Z := 8.
Definition ELF_ET_REL : Z := 1.
Definition ELF_ET_DYN : Z := 3.
Definition ELF_EM_386 : Z := 3.
Definition SHT_SYMTAB : Z := 2.
Definition SHT_STRTAB : Z := 3.
Definition SHT_RELA : Z := 4.
Definition SHT_NOBITS : Z := 8.
Definition SHT_REL : Z := 9.
Definition SHT_DYNSYM : Z := 11.
Definition SHF_ALLOC : Z := 2.
Definition SHN_UNDEF : Z := 0.
Definition STB_GLOBAL : Z := 1.
Definition STB_WEAK : Z := 2.
Definition R_386_NONE : Z := 0.
Definition R_386_32 : Z := 1.
Definition R_386_PC32 : Z := 2.
Definition R_386_GLOB_DAT : Z := 6.
Definition R_386_JMP_SLOT : Z := 7.
Definition R_386_RELATIVE : Z := 8.
Definition sizeof_Ehdr : Z := 52.
Definition sizeof_Shdr : Z := 40.
Definition sizeof_Sym : Z := 16.
Definition sizeof_Rel : Z := 8.
Definition sizeof_Rela : Z := 12.

(** ** Data *)

Record NsExport := { x_name : list Z; x_addr : Z }.
#[export] Instance NsExport_fields : Fields NsExport := fun r => {| x_name := x_name r; x_addr := x_addr r |}.

Record NsLoadedObject := {
  lo_used : Z; lo_kind : Z; lo_handle : Z; lo_ref_count : Z; lo_export_count : Z; lo_init_called : Z; lo_kernel_refs : Z;
  lo_image_base : Z; lo_init_addr : Z; lo_fini_addr : Z; lo_dep_count : Z; lo_deps : list Z; lo_task_refs : list Z;
  lo_path : list Z; lo_exports : list NsExport
}.
#[export] Instance NsLoadedObject_fields : Fields NsLoadedObject := fun r =>
  {| lo_used := lo_used r; lo_kind := lo_kind r; lo_handle := lo_handle r; lo_ref_count := lo_ref_count r;
     lo_export_count := lo_export_count r; lo_init_called := lo_init_called r; lo_kernel_refs := lo_kernel_refs r;
     lo_image_base := lo_image_base r; lo_init_addr := lo_init_addr r; lo_fini_addr := lo_fini_addr r;
     lo_dep_count := lo_dep_count r; lo_deps := lo_deps r; lo_task_refs := lo_task_refs r; lo_path := lo_path r;
     lo_exports := lo_exports r |}.

Record NsPendingReloc := { pr_used : Z; pr_target_slot : Z; pr_place : Z; pr_addend : Z; pr_rel_type : Z; pr_symbol : list Z }.
#[export] Instance NsPendingReloc_fields : Fields NsPendingReloc := fun r =>
  {| pr_used := pr_used r; pr_target_slot := pr_target_slot r; pr_place := pr_place r; pr_addend := pr_addend r;
     pr_rel_type := pr_rel_type r; pr_symbol := pr_symbol r |}.

(** The static storage of the file, and the task that runs. *)
Record Loader := {
  g_modules : list NsLoadedObject; g_kernel_exports : list NsExport; g_kernel_export_count : Z;
  g_pending_relocs : list NsPendingReloc; g_dlerror : list (list Z); g_module_pool : list Z; g_module_pool_cursor : Z;
  g_load_buf : list Z; ld_current_task : Z
}.
#[export] Instance Loader_fields : Fields Loader := fun r =>
  {| g_modules := g_modules r; g_kernel_exports := g_kernel_exports r; g_kernel_export_count := g_kernel_export_count r;
     g_pending_relocs := g_pending_relocs r; g_dlerror := g_dlerror r; g_module_pool := g_module_pool r;
     g_module_pool_cursor := g_module_pool_cursor r; g_load_buf := g_load_buf r; ld_current_task := ld_current_task r |}.

(** Where the linker puts the pool and the functions modules may call, and what the code
    of a module does when it is entered: from the pool to the pool and the result. *)
Class LoaderEnv := {
  pool_base : Z;
  kernel_function : string -> Z;
  run_entry : Z -> list Z -> list Z * Z
}.

(** What the file system answers: [vfs_stat] gives its result, the flags and the size,
    [vfs_read_file] its result and the bytes it stored. *)
Record ModuleFiles := {
  vfs_stat : list Z -> Z * Z * Z;
  vfs_read_file : list Z -> Z -> Z * list Z
}.

(** The calls of the loader. *)
Abbreviation lcall := (FST Loader).

Definition zero_export : NsExport := {| x_name := zero_bytes NS_NAME_LEN; x_addr := 0 |}.
Definition zero_object : NsLoadedObject :=
  {| lo_used := 0; lo_kind := 0; lo_handle := 0; lo_ref_count := 0; lo_export_count := 0; lo_init_called := 0; lo_kernel_refs := 0;
     lo_image_base := 0; lo_init_addr := 0; lo_fini_addr := 0; lo_dep_count := 0; lo_deps := zero_bytes NS_DEPS_MAX;
     lo_task_refs := zero_bytes MAX_TASKS; lo_path := zero_bytes NS_PATH_LEN;
     lo_exports := replicate (Z.to_nat NS_EXPORTS_MAX) zero_export |}.
Definition zero_pending : NsPendingReloc :=
  {| pr_used := 0; pr_target_slot := 0; pr_place := 0; pr_addend := 0; pr_rel_type := 0; pr_symbol := zero_bytes NS_NAME_LEN |}.

(** ** Strings *)

(** A string of the source. *)
Definition cstr (t : string) : list Z := map (fun c => Z.of_nat (nat_of_ascii c)) (list_ascii_of_string t) ++ [0].

Section Strings.
Context {S : Type}.

Fixpoint str_eq_local (a b : list Z) : FST S bool :=
  match a, b with
  | x :: a', y :: b' =>
      if (x =? 0) || (y =? 0) then mret ((x =? 0) && (y =? 0))
      else if negb (x =? y) then mret false
      else str_eq_local a' b'
  | _, _ => fault
  end.

(** The characters a copy takes: up to the terminator, [room] at most. *)
Fixpoint text_chars (room : nat) (src : list Z) {struct src} : FST S (list Z) :=
  match src with
  | [] => fault
  | c :: src' =>
      if c =? 0 then mret []
      else match room with O => mret [] | Datatypes.S r => rest ← text_chars r src'; mret (c :: rest) end
  end.

Definition text_copy (dst : list Z) (cap : Z) (src : list Z) : FST S (list Z) :=
  if cap <=? 0 then mret dst
  else cs ← text_chars (Z.to_nat (cap - 1)) src; put 0 (cs ++ [0]) dst.

(** The loop of [parse_u32_dec_local]; [None] is its result 0. *)
Fixpoint parse_digits (t : list Z) (v : Z) : FST S (option Z) :=
  match t with
  | [] => fault
  | c :: t' =>
      if c =? 0 then mret (Some v)
      else if (c <? 48) || (57 <? c) then mret None
      else parse_digits t' (v *u 10 +u (c - 48))
  end.
Definition parse_u32_dec_local (t : list Z) : FST S (option Z) :=
  c ← rd t 0; if c =? 0 then mret None else parse_digits t 0.
End Strings.

(** ** Tables *)

Definition current_task_slot (s : Loader) : Z :=
  if (ld_current_task s <? 0) || (MAX_TASKS <=? ld_current_task s) then 0 else ld_current_task s.

Definition set_dlerror_for_task (task_id : Z) (msg : string) : lcall unit :=
  if (task_id <? 0) || (MAX_TASKS <=? task_id) then mret tt
  else
    s ← fget; old ← elem (g_dlerror s) task_id; text ← text_copy old NS_DLERROR_LEN (cstr msg);
    fmod (fun s => s <| g_dlerror ::= <[Z.to_nat task_id := text]> |>).
Definition clear_dlerror_for_task (task_id : Z) : lcall unit :=
  if (task_id <? 0) || (MAX_TASKS <=? task_id) then mret tt
  else
    s ← fget; old ← elem (g_dlerror s) task_id; text ← put 0 [0] old;
    fmod (fun s => s <| g_dlerror ::= <[Z.to_nat task_id := text]> |>).
Definition set_dlerror (msg : string) : lcall unit := s ← fget; set_dlerror_for_task (current_task_slot s) msg.
Definition clear_dlerror : lcall unit := s ← fget; clear_dlerror_for_task (current_task_slot s).

(** [g_modules[slot]], and an update of it. *)
Definition module (slot : Z) : lcall NsLoadedObject := s ← fget; elem (g_modules s) slot.
Definition set_module (slot : Z) (f : NsLoadedObject -> NsLoadedObject) : lcall unit :=
  m ← module slot; fmod (fun s => s <| g_modules ::= <[Z.to_nat slot := f m]> |>).

(** The slot a search of the modules ends at, or -1. *)
Definition find_slot (test : NsLoadedObject -> lcall bool) : lcall Z :=
  r ← loop (fun i => m ← module i; hit ← test m; mret (if hit : bool then Some i else None)) 0 (Z.to_nat NS_MODULE_MAX);
  mret (default (-1) r).

Definition find_module_slot_by_path (path : list Z) (kind : Z) : lcall Z :=
  find_slot (fun m => if lo_used m =? 0 then mret false else if lo_kind m =? kind then str_eq_local (lo_path m) path else mret false).
Definition alloc_module_slot : lcall Z := find_slot (fun m => mret (lo_used m =? 0)).
Definition find_module_slot_by_handle (handle : Z) : lcall Z :=
  find_slot (fun m => mret (negb (lo_used m =? 0) && (lo_handle m =? handle))).

(** The address of the name among the first [count] entries of a table of exports. *)
Definition find_export (tbl : list NsExport) (count : Z) (name : list Z) : lcall (option Z) :=
  loop (fun i => e ← elem tbl i; eq ← str_eq_local (x_name e) name; mret (if eq : bool then Some i else None)) 0 (Z.to_nat count).

(** A name entered in a table that is not full, or its address changed. *)
Definition enter_export (tbl : list NsExport) (count : Z) (name : list Z) (addr : Z) : lcall (list NsExport * Z) :=
  r ← find_export tbl count name;
  match r with
  | Some i => e ← elem tbl i; mret (<[Z.to_nat i := e <| x_addr := addr |>]> tbl, count)
  | None =>
      e ← elem tbl count; text ← text_copy (x_name e) NS_NAME_LEN name;
      mret (<[Z.to_nat count := {| x_name := text; x_addr := addr |}]> tbl, count + 1)
  end.

Definition add_kernel_export (name : list Z) (addr : Z) : lcall unit :=
  c ← rd name 0; s ← fget;
  if (c =? 0) || (addr =? 0) || (NS_KERNEL_EXPORTS_MAX <=? g_kernel_export_count s) then mret tt
  else
    r ← enter_export (g_kernel_exports s) (g_kernel_export_count s) name addr;
    fmod (fun s => s <| g_kernel_exports := fst r |> <| g_kernel_export_count := snd r |>).

Definition module_add_export (slot : Z) (name : list Z) (addr : Z) : lcall Z :=
  c ← rd name 0; m ← module slot;
  if (c =? 0) || (addr =? 0) then mret 0
  else if NS_EXPORTS_MAX <=? lo_export_count m then mret 0
  else
    r ← enter_export (lo_exports m) (lo_export_count m) name addr;
    set_module slot (fun m => m <| lo_exports := fst r |> <| lo_export_count := snd r |>) ≫= fun _ => mret 1.

(** ** Symbols *)

(** The address and the owner of a symbol; [None] is the result 0. *)
Definition resolve_external_symbol (name : list Z) : lcall (option (Z * Z)) :=
  c ← rd name 0;
  if c =? 0 then mret None
  else
    s ← fget;
    k ← find_export (g_kernel_exports s) (g_kernel_export_count s) name;
    match k with
    | Some i => e ← elem (g_kernel_exports s) i; mret (Some (x_addr e, -1))
    | None =>
        loop (fun i =>
          m ← module i;
          if lo_used m =? 0 then mret None
          else
            r ← find_export (lo_exports m) (lo_export_count m) name;
            match r with
            | Some e => x ← elem (lo_exports m) e; mret (Some (x_addr x, i))
            | None => mret None
            end) 0 (Z.to_nat NS_MODULE_MAX)
    end.

Definition module_resolve_symbol_global (name : option (list Z)) : lcall (option Z) :=
  match name with
  | None => mret None
  | Some name => r ← resolve_external_symbol name; mret (fst <$> r)
  end.

Definition add_dependency (slot owner_slot : Z) : lcall Z :=
  if (owner_slot <? 0) || (NS_MODULE_MAX <=? owner_slot) then mret 1
  else
    m ← module slot;
    known ← loop (fun i => d ← elem (lo_deps m) i; mret (if d =? owner_slot then Some tt else None)) 0 (Z.to_nat (lo_dep_count m));
    match known with
    | Some _ => mret 1
    | None =>
        if NS_DEPS_MAX <=? lo_dep_count m then mret 0
        else
          d ← put (lo_dep_count m) [owner_slot] (lo_deps m);
          set_module slot (fun m => m <| lo_deps := d |> <| lo_dep_count := lo_dep_count m + 1 |>) ≫= fun _ =>
          set_module owner_slot (fun m => m <| lo_ref_count := i32 (lo_ref_count m + 1) |>) ≫= fun _ =>
          mret 1
    end.

(** [module_dlsym] without and with the messages. *)
Definition module_dlsym (handle : Z) (symbol : option (list Z)) : lcall Z :=
  slot ← find_module_slot_by_handle handle;
  let bad := set_dlerror "dlsym: bad args" ≫= fun _ => mret 0 in
  if slot <? 0 then bad
  else match symbol with
  | None => bad
  | Some name =>
      c ← rd name 0;
      if c =? 0 then bad
      else
        m ← module slot; r ← find_export (lo_exports m) (lo_export_count m) name;
        match r with
        | Some i => e ← elem (lo_exports m) i; clear_dlerror ≫= fun _ => mret (x_addr e)
        | None => set_dlerror "dlsym: symbol not found" ≫= fun _ => mret 0
        end
  end.

(** ** The pool *)

Definition align_up_u32 (value align : Z) : Z :=
  if (align =? 0) || (align =? 1) then value else Z.land (value +u align -u 1) (u32 (Z.lnot (align -u 1))).

Section Pool.
Context `{LoaderEnv}.

(** The address of fresh memory, or 0. *)
Definition pool_alloc (size align : Z) : lcall Z :=
  s ← fget;
  let off := align_up_u32 (g_module_pool_cursor s) (if align =? 0 then 1 else align) in
  let fin := off +u size in
  if (fin <? off) || (NS_MODULE_POOL_SIZE <? fin) then mret 0
  else fmod (fun s => s <| g_module_pool_cursor := fin |>) ≫= fun _ => mret (u32 (pool_base + off)).

(** Loads and stores at an address; outside the pool they fault. *)
Definition pool_store (addr : Z) (bytes : list Z) : lcall unit :=
  s ← fget; p ← put (addr - pool_base) bytes (g_module_pool s); fmod (fun s => s <| g_module_pool := p |>).
Definition pool_load32 (addr : Z) : lcall Z :=
  s ← fget; b ← rd_bytes (g_module_pool s) (addr - pool_base) 4; mret (le_val b).
Definition pool_store32 (addr v : Z) : lcall unit := pool_store addr (le_bytes 4 (u32 v)).

(** ** Relocations that wait *)

Definition lazy_type_supported (r_type : Z) : bool := (r_type =? R_386_JMP_SLOT) || (r_type =? R_386_GLOB_DAT).

Definition add_pending_reloc (target_slot place rel_type addend : Z) (symbol : list Z) : lcall Z :=
  s ← fget;
  match find_idx (fun p => pr_used p =? 0) (g_pending_relocs s) with
  | Some i =>
      p ← elem (g_pending_relocs s) (Z.of_nat i);
      text ← text_copy (pr_symbol p) NS_NAME_LEN symbol;
      fmod (fun s => s <| g_pending_relocs ::= <[i := {| pr_used := 1; pr_target_slot := target_slot; pr_place := place;
                                                          pr_addend := addend; pr_rel_type := rel_type; pr_symbol := text |}]> |>) ≫= fun _ =>
      mret 1
  | None => mret 0
  end.

(** One entry of the table: whether it still waits. *)
Definition try_resolve_pending (i : Z) : lcall bool :=
  s ← fget; p ← elem (g_pending_relocs s) i;
  if pr_used p =? 0 then mret false
  else
    r ← resolve_external_symbol (pr_symbol p);
    match r with
    | None => mret true
    | Some (sym_addr, owner) =>
        (if (pr_rel_type p =? R_386_JMP_SLOT) || (pr_rel_type p =? R_386_GLOB_DAT) then pool_store32 (pr_place p) sym_addr
         else if pr_rel_type p =? R_386_32 then pool_store32 (pr_place p) (pr_addend p + sym_addr)
         else if pr_rel_type p =? R_386_PC32 then pool_store32 (pr_place p) (pr_addend p + sym_addr - pr_place p)
         else mret tt) ≫= fun _ =>
        (if (0 <=? owner) && (owner <? NS_MODULE_MAX) && (0 <=? pr_target_slot p) && (pr_target_slot p <? NS_MODULE_MAX)
         then add_dependency (pr_target_slot p) owner ≫= fun _ => mret tt else mret tt) ≫= fun _ =>
        fmod (fun s => s <| g_pending_relocs ::= <[Z.to_nat i := p <| pr_used := 0 |>]> |>) ≫= fun _ =>
        mret false
    end.

(** The loop over the table, with the number of those that still wait. *)
Fixpoint resolve_pending_from (i : Z) (n : nat) : lcall Z :=
  match n with
  | O => mret 0
  | Datatypes.S n' => b ← try_resolve_pending i; k ← resolve_pending_from (i + 1) n'; mret ((if b : bool then 1 else 0) + k)
  end.
Definition try_resolve_pending_relocs : lcall Z := resolve_pending_from 0 (Z.to_nat NS_PENDING_RELOC_MAX).
End Pool.

Definition module_has_dependents (slot : Z) : lcall bool :=
  r ← loop (fun i =>
        m ← module i;
        if (lo_used m =? 0) || (i =? slot) then mret None
        else loop (fun d => x ← elem (lo_deps m) d; mret (if x =? slot then Some tt else None)) 0 (Z.to_nat (lo_dep_count m)))
      0 (Z.to_nat NS_MODULE_MAX);
  mret (match r with Some _ => true | None => false end).
