(* ===== verification/LoaderImage.v ===== *)
(** * Loading an image (kernel/module_loader.c)

    The checks on an ELF image, the sections copied into the pool, the relocations, the
    exports, and the calls on loaded modules. *)
From Stdlib Require Import Ascii String.
From S2P Require Import Prelude Fault Bytes Buffers VfsDefs Task Loader.

(** ** The structures of an image *)

Record Elf32_Shdr := {
  sh_type : Z; sh_flags : Z; sh_offset : Z; sh_size : Z; sh_link : Z; sh_info : Z; sh_addralign : Z; sh_entsize : Z
}.
#[export] Instance Elf32_Shdr_inh : Inhabited Elf32_Shdr := populate (Build_Elf32_Shdr 0 0 0 0 0 0 0 0).
Record Elf32_Sym := { st_name : Z; st_value : Z; st_info : Z; st_shndx : Z }.

Section Image.
Context {S : Type} (image : list Z).

(** Fields of 16 and 32 bits at an offset, and the structures there. *)
Definition field16 (o : Z) : FST S Z := b ← rd_bytes image o 2; mret (le_val b).
Definition field32 (o : Z) : FST S Z := b ← rd_bytes image o 4; mret (le_val b).

Definition read_shdr (o : Z) : FST S Elf32_Shdr :=
  ty ← field32 (o + 4); fl ← field32 (o + 8); off ← field32 (o + 16); sz ← field32 (o + 20); ln ← field32 (o + 24); inf ← field32 (o + 28);
  al ← field32 (o + 32); en ← field32 (o + 36);
  mret {| sh_type := ty; sh_flags := fl; sh_offset := off; sh_size := sz; sh_link := ln; sh_info := inf; sh_addralign := al; sh_entsize := en |}.

Definition read_sym (o : Z) : FST S Elf32_Sym :=
  nm ← field32 o; va ← field32 (o + 4); inf ← rd image (o + 12); ndx ← field16 (o + 14);
  mret {| st_name := nm; st_value := va; st_info := inf; st_shndx := ndx |}.

(** [shdr[i]] for the table at [shoff]. *)
Definition read_section (shoff i : Z) : FST S Elf32_Shdr := read_shdr (u32 (shoff + sizeof_Shdr * i)).

(** All sections of the table. *)
Fixpoint read_sections (shoff i : Z) (n : nat) : FST S (list Elf32_Shdr) :=
  match n with
  | O => mret []
  | Datatypes.S n' => h ← read_section shoff i; hs ← read_sections shoff (i + 1) n'; mret (h :: hs)
  end.
End Image.

(** The checks on the header of the image: the place and number of its sections. *)
Definition elf_header (image : list Z) (image_size : Z) : lcall (option (Z * Z)) :=
  if image_size <? sizeof_Ehdr then mret None
  else
    a ← rd image 0; b ← rd image 1; c ← rd image 2; d ← rd image 3; cls ← rd image 4;
    if negb ((a =? 0x7F) && (b =? 69) && (c =? 76) && (d =? 70) && (cls =? 1)) then mret None
    else
      machine ← field16 image 18;
      if negb (machine =? ELF_EM_386) then mret None
      else
        type ← field16 image 16;
        if negb (type =? ELF_ET_REL) && negb (type =? ELF_ET_DYN) then mret None
        else
          shentsize ← field16 image 46; shnum ← field16 image 48;
          if negb (shentsize =? sizeof_Shdr) || (shnum =? 0) || (NS_MODULE_MAX_SECTIONS <? shnum) then mret None
          else
            shoff ← field32 image 32;
            if image_size <? shoff +u shnum *u sizeof_Shdr then mret None
            else mret (Some (shoff, shnum)).

Definition compute_symbol_addr (sym : Elf32_Sym) (sec_addrs : list Z) (shnum : Z) : lcall (option Z) :=
  if (st_shndx sym =? SHN_UNDEF) || (shnum <=? st_shndx sym) then mret None
  else a ← elem sec_addrs (st_shndx sym); if a =? 0 then mret None else mret (Some (a +u st_value sym)).

Section Load.
Context `{LoaderEnv}.

(** ** Sections *)

(** One section: its address, or 0 when it is not loaded; [None] ends the load. *)
Definition load_section (slot : Z) (image : list Z) (image_size : Z) (sec : Elf32_Shdr) : lcall (option Z) :=
  if (image_size <? sh_offset sec +u sh_size sec) && negb (sh_type sec =? SHT_NOBITS) then mret None
  else if (Z.land (sh_flags sec) SHF_ALLOC =? 0) || (sh_size sec =? 0) then mret (Some 0)
  else
    sec_mem ← pool_alloc (sh_size sec) (if sh_addralign sec =? 0 then 4 else sh_addralign sec);
    if sec_mem =? 0 then mret None
    else
      set_module slot (fun m => if (lo_image_base m =? 0) || (sec_mem <? lo_image_base m) then m <| lo_image_base := sec_mem |> else m) ≫= fun _ =>
      (if sh_type sec =? SHT_NOBITS then pool_store sec_mem (zero_bytes (sh_size sec))
       else b ← rd_bytes image (sh_offset sec) (sh_size sec); pool_store sec_mem b) ≫= fun _ =>
      mret (Some sec_mem).

(** The loop over the sections, with their addresses in order. *)
Fixpoint load_sections (slot : Z) (image : list Z) (image_size : Z) (secs : list Elf32_Shdr) : lcall (option (list Z)) :=
  match secs with
  | [] => mret (Some [])
  | sec :: secs' =>
      r ← load_section slot image image_size sec;
      match r with
      | None => mret None
      | Some a => rs ← load_sections slot image image_size secs'; mret (cons a <$> rs)
      end
  end.

(** The first loaded section of a type, or -1: [symtab_idx] and [dynsym_idx]. *)
Definition first_section (type : Z) (secs : list Elf32_Shdr) (sec_addrs : list Z) : Z :=
  idx_or_neg (find_idx (fun p => (sh_type (fst p) =? type) && negb (snd p =? 0)) (zip secs sec_addrs)).

(** ** Relocations *)

(** The value a relocation stores; [None] for a type that is not known, and the inner
    [None] for the one that stores nothing. *)
Definition reloc_value (r_type addend sym_addr place image_base : Z) : option (option Z) :=
  if r_type =? R_386_NONE then Some None
  else if r_type =? R_386_32 then Some (Some (addend + sym_addr))
  else if r_type =? R_386_PC32 then Some (Some (addend + sym_addr - place))
  else if (r_type =? R_386_GLOB_DAT) || (r_type =? R_386_JMP_SLOT) then Some (Some sym_addr)
  else if r_type =? R_386_RELATIVE then Some (Some (image_base + addend))
  else None.

(** The symbol of a relocation: its address, that it is left to wait, or a failure. *)
Inductive Target := TAddr (a : Z) | TWait | TFail.

Definition reloc_target (slot : Z) (image : list Z) (sec_addrs : list Z) (shnum : Z) (str_sec : Elf32_Shdr) (sym : Elf32_Sym)
    (place r_type addend : Z) : lcall Target :=
  if st_shndx sym =? SHN_UNDEF then
    if sh_size str_sec <=? st_name sym then mret TFail
    else
      let name := at_ image (sh_offset str_sec + st_name sym) in
      r ← resolve_external_symbol name;
      match r with
      | None =>
          if lazy_type_supported r_type then
            ok ← add_pending_reloc slot place r_type addend name;
            if ok =? 0 then mret TFail else pool_store32 place 0 ≫= fun _ => mret TWait
          else mret TFail
      | Some (sym_addr, owner_slot) =>
          ok ← add_dependency slot owner_slot; mret (if ok =? 0 then TFail else TAddr sym_addr)
      end
  else
    r ← compute_symbol_addr sym sec_addrs shnum; mret (match r with Some a => TAddr a | None => TFail end).

(** One relocation of the section [rel_sec] at the offset [o] of the image. *)
Definition apply_reloc (slot : Z) (image : list Z) (sec_addrs : list Z) (shnum : Z) (target sym_sec str_sec : Elf32_Shdr)
    (target_addr : Z) (is_rela : bool) (o : Z) : lcall bool :=
  r_offset ← field32 image o; r_info ← field32 image (o + 4);
  explicit ← (if is_rela then field32 image (o + 8) else mret 0);
  let sym_idx := Z.shiftr r_info 8 in
  let r_type := Z.land r_info 0xFF in
  if sh_size sym_sec / sizeof_Sym <=? sym_idx then mret false
  else if sh_size target <? r_offset +u 4 then mret false
  else
    let place := target_addr +u r_offset in
    addend ← (if is_rela then mret explicit else pool_load32 place);
    sym ← read_sym image (sh_offset sym_sec + sizeof_Sym * sym_idx);
    t ← reloc_target slot image sec_addrs shnum str_sec sym place r_type addend;
    match t with
    | TFail => mret false
    | TWait => mret true
    | TAddr sym_addr =>
        m ← module slot;
        match reloc_value r_type addend sym_addr place (lo_image_base m) with
        | None => mret false
        | Some None => mret true
        | Some (Some v) => pool_store32 place v ≫= fun _ => mret true
        end
    end.

(** The relocations of one section, [n] of them from the offset [o] on. *)
Fixpoint apply_relocs (body : Z -> lcall bool) (o size : Z) (n : nat) : lcall bool :=
  match n with
  | O => mret true
  | Datatypes.S n' => ok ← body o; if ok : bool then apply_relocs body (o + size) size n' else mret false
  end.

Definition over (image_size : Z) (sec : Elf32_Shdr) : bool := image_size <? sh_offset sec +u sh_size sec.

(** One section of the relocation loop. *)
Definition relocate_section (slot : Z) (image : list Z) (image_size : Z) (secs : list Elf32_Shdr) (sec_addrs : list Z)
    (rel_sec : Elf32_Shdr) : lcall bool :=
  let shnum := Z.of_nat (length secs) in
  let is_rel := (sh_type rel_sec =? SHT_REL) && (sh_entsize rel_sec =? sizeof_Rel) in
  let is_rela := (sh_type rel_sec =? SHT_RELA) && (sh_entsize rel_sec =? sizeof_Rela) in
  if negb is_rel && negb is_rela then mret true
  else if (shnum <=? sh_info rel_sec) || (shnum <=? sh_link rel_sec) then mret false
  else
    target_addr ← elem sec_addrs (sh_info rel_sec);
    if target_addr =? 0 then mret true
    else
      sym_sec ← elem secs (sh_link rel_sec);
      if (negb (sh_type sym_sec =? SHT_SYMTAB) && negb (sh_type sym_sec =? SHT_DYNSYM))
         || negb (sh_entsize sym_sec =? sizeof_Sym) || (shnum <=? sh_link sym_sec) then mret false
      else
        str_sec ← elem secs (sh_link sym_sec);
        if negb (sh_type str_sec =? SHT_STRTAB) then mret false
        else if over image_size sym_sec || over image_size str_sec || over image_size rel_sec then mret false
        else
          target ← elem secs (sh_info rel_sec);
          apply_relocs (apply_reloc slot image sec_addrs shnum target sym_sec str_sec target_addr is_rela)
            (sh_offset rel_sec) (sh_entsize rel_sec) (Z.to_nat (sh_size rel_sec / sh_entsize rel_sec)).

Fixpoint relocate_sections (slot : Z) (image : list Z) (image_size : Z) (secs : list Elf32_Shdr) (sec_addrs : list Z)
    (todo : list Elf32_Shdr) : lcall bool :=
  match todo with
  | [] => mret true
  | sec :: todo' =>
      ok ← relocate_section slot image image_size secs sec_addrs sec;
      if ok : bool then relocate_sections slot image image_size secs sec_addrs todo' else mret false
  end.

(** ** Exports *)

(** One symbol of the table. *)
Definition export_symbol (slot : Z) (image : list Z) (sec_addrs : list Z) (shnum : Z) (str_sec : Elf32_Shdr) (o : Z) : lcall unit :=
  sym ← read_sym image o;
  if sh_size str_sec <=? st_name sym then mret tt
  else
    let name := at_ image (sh_offset str_sec + st_name sym) in
    let bind := Z.shiftr (st_info sym) 4 in
    r ← compute_symbol_addr sym sec_addrs shnum;
    match r with
    | None => mret tt
    | Some addr =>
        if (bind =? STB_GLOBAL) || (bind =? STB_WEAK) then
          c ← rd name 0; if c =? 0 then mret tt else module_add_export slot name addr ≫= fun _ => mret tt
        else mret tt
    end.

Definition export_symbols (slot : Z) (image : list Z) (secs : list Elf32_Shdr) (sec_addrs : list Z) : lcall bool :=
  let shnum := Z.of_nat (length secs) in
  let symtab := first_section SHT_SYMTAB secs sec_addrs in
  let symtab := if symtab <? 0 then first_section SHT_DYNSYM secs sec_addrs else symtab in
  if symtab <? 0 then mret true
  else
    sym_sec ← elem secs symtab;
    if shnum <=? sh_link sym_sec then mret false
    else
      str_sec ← elem secs (sh_link sym_sec);
      if negb (sh_type str_sec =? SHT_STRTAB) then mret false
      else
        each (fun s => export_symbol slot image sec_addrs shnum str_sec (sh_offset sym_sec + sizeof_Sym * s)) 0
          (Z.to_nat (sh_size sym_sec / sizeof_Sym)) ≫= fun _ =>
        mret true.

(** ** The whole image *)

(** The entry points and the magic number of a kernel module. *)
Definition check_entries (slot : Z) : lcall bool :=
  m ← module slot;
  init ← module_dlsym (lo_handle m) (Some (cstr "ns_module_init"));
  set_module slot (fun m => m <| lo_init_addr := init |>) ≫= fun _ =>
  fini ← module_dlsym (lo_handle m) (Some (cstr "ns_module_fini"));
  set_module slot (fun m => m <| lo_fini_addr := fini |>) ≫= fun _ =>
  if lo_kind m =? NS_MODULE_KIND_KERNEL then
    abi_ptr ← module_dlsym (lo_handle m) (Some (cstr "ns_module_abi"));
    if abi_ptr =? 0 then mret true
    else magic ← pool_load32 abi_ptr; mret (magic =? NS_MODULE_ABI_MAGIC)
  else mret true.

Definition load_object_from_image (slot : Z) (image : list Z) (image_size : Z) : lcall bool :=
  hd ← elf_header image image_size;
  match hd with
  | None => mret false
  | Some (shoff, shnum) =>
      set_module slot (fun m => m <| lo_image_base := 0 |>) ≫= fun _ =>
      secs ← read_sections image shoff 0 (Z.to_nat shnum);
      r ← load_sections slot image image_size secs;
      match r with
      | None => mret false
      | Some sec_addrs =>
          ok ← relocate_sections slot image image_size secs sec_addrs secs;
          if negb ok then mret false
          else
            ok ← export_symbols slot image secs sec_addrs;
            if negb ok then mret false else check_entries slot
      end
  end.
End Load.
