(* ===== verification/LoaderCalls.v ===== *)
(** * The calls of the module loader (kernel/module_loader.c)

    Loading a module or counting one more use of it, giving uses up, and the calls of the
    tasks and of the shell. *)
From Stdlib Require Import Ascii String.
From S2P Require Import Prelude Fault Bytes Buffers VfsDefs Task Loader LoaderImage.

Section Calls.
Context `{LoaderEnv}.

(** A module is loaded, or used once more; the result is its handle or -1. *)
Definition load_new_module (fs : ModuleFiles) (path : option (list Z)) (kind : Z) : lcall Z :=
  match path with
  | None => mret (-1)
  | Some path =>
      c ← rd path 0;
      if c =? 0 then mret (-1)
      else
        slot ← find_module_slot_by_path path kind;
        if 0 <=? slot then
          set_module slot (fun m => m <| lo_ref_count := i32 (lo_ref_count m + 1) |>) ≫= fun _ =>
          m ← module slot; mret (lo_handle m)
        else
          let '(rc, flags, size) := vfs_stat fs path in
          if negb (rc =? VFS_OK) || (flags =? 0) || (size =? 0) || (NS_MODULE_LOAD_LIMIT <? size) then mret (-1)
          else
            let '(n, bytes) := vfs_read_file fs path NS_MODULE_LOAD_LIMIT in
            s ← fget; buf ← put 0 bytes (g_load_buf s);
            fmod (fun s => s <| g_load_buf := buf |>) ≫= fun _ =>
            if (n <=? 0) || negb (n =? size) then mret (-1)
            else
              slot ← alloc_module_slot;
              if slot <? 0 then mret (-1)
              else
                text ← text_copy (lo_path zero_object) NS_PATH_LEN path;
                set_module slot (fun _ => zero_object <| lo_used := 1 |> <| lo_kind := kind |> <| lo_handle := 0x4000 + slot |>
                                            <| lo_ref_count := 1 |> <| lo_path := text |>) ≫= fun _ =>
                ok ← load_object_from_image slot buf n;
                if negb ok then set_module slot (fun _ => zero_object) ≫= fun _ => mret (-1)
                else m ← module slot; mret (lo_handle m)
  end.

(** The code of a module is entered. *)
Definition enter_module (addr : Z) : lcall Z :=
  s ← fget;
  let '(p, rc) := run_entry addr (g_module_pool s) in
  fmod (fun s => s <| g_module_pool := p |>) ≫= fun _ => mret rc.

(** A module without uses is taken out; the depth of the calls is bounded by [fuel]. *)
Fixpoint release_module_slot (fuel : nat) (slot : Z) (run_fini : bool) : lcall bool :=
  match fuel with
  | O => fault
  | Datatypes.S fuel' =>
      if (slot <? 0) || (NS_MODULE_MAX <=? slot) then mret false
      else
        m ← module slot;
        if lo_used m =? 0 then mret false
        else if 0 <? lo_ref_count m then mret true
        else
          busy ← module_has_dependents slot;
          if busy : bool then mret false
          else
            (if run_fini && negb (lo_fini_addr m =? 0) then enter_module (lo_fini_addr m) ≫= fun _ => mret tt else mret tt) ≫= fun _ =>
            each (fun i =>
              m ← module slot;
              if lo_dep_count m <=? i then mret tt
              else
                dep ← elem (lo_deps m) i;
                if (dep <? 0) || (NS_MODULE_MAX <=? dep) then mret tt
                else
                  d ← module dep;
                  if negb (lo_used d =? 0) && (0 <? lo_ref_count d) then
                    set_module dep (fun d => d <| lo_ref_count := lo_ref_count d - 1 |>) ≫= fun _ =>
                    release_module_slot fuel' dep false ≫= fun _ => mret tt
                  else mret tt) 0 (Z.to_nat (lo_dep_count m)) ≫= fun _ =>
            fmod (fun s => s <| g_pending_relocs ::= map (fun p =>
              if negb (pr_used p =? 0) && (pr_target_slot p =? slot) then p <| pr_used := 0 |> else p) |>) ≫= fun _ =>
            set_module slot (fun _ => zero_object) ≫= fun _ => mret true
  end.

(** A release calls itself for the dependencies, and no deeper. *)
Definition RELEASE_DEPTH : nat := 2.

Definition add_kernel_function (name : string) : lcall unit := add_kernel_export (cstr name) (u32 (kernel_function name)).

Definition module_loader_init : lcall unit :=
  fmod (fun s => s <| g_kernel_export_count := 0 |> <| g_module_pool_cursor := 0 |>
                   <| g_modules := replicate (Z.to_nat NS_MODULE_MAX) zero_object |>
                   <| g_pending_relocs := replicate (Z.to_nat NS_PENDING_RELOC_MAX) zero_pending |>
                   <| g_dlerror := replicate (Z.to_nat MAX_TASKS) (zero_bytes NS_DLERROR_LEN) |>) ≫= fun _ =>
  add_kernel_function "gprint" ≫= fun _ => add_kernel_function "set_cmd_output" ≫= fun _ =>
  add_kernel_function "vfs_open" ≫= fun _ => add_kernel_function "vfs_close" ≫= fun _ =>
  add_kernel_function "vfs_read" ≫= fun _ => add_kernel_function "vfs_write" ≫= fun _ =>
  add_kernel_function "vfs_read_file" ≫= fun _ => add_kernel_function "vfs_write_file" ≫= fun _ =>
  add_kernel_function "vfs_stat".

(** ** Libraries *)

Definition add_task_ref (slot task_id d : Z) : lcall unit :=
  m ← module slot; r ← elem (lo_task_refs m) task_id;
  set_module slot (fun m => m <| lo_task_refs ::= <[Z.to_nat task_id := i32 (r + d)]> |>).

Definition drop_ref (slot : Z) : lcall unit :=
  set_module slot (fun m => if 0 <? lo_ref_count m then m <| lo_ref_count := lo_ref_count m - 1 |> else m).

Definition module_dlopen_for_task (fs : ModuleFiles) (task_id : Z) (path : option (list Z)) : lcall Z :=
  if (task_id <? 0) || (MAX_TASKS <=? task_id) then mret (-1)
  else
    clear_dlerror_for_task task_id ≫= fun _ =>
    handle ← load_new_module fs path NS_MODULE_KIND_LIBRARY;
    if handle <? 0 then set_dlerror_for_task task_id "dlopen: load failed" ≫= fun _ => mret (-1)
    else
      slot ← find_module_slot_by_handle handle;
      if slot <? 0 then set_dlerror_for_task task_id "dlopen: bad handle" ≫= fun _ => mret (-1)
      else
        add_task_ref slot task_id 1 ≫= fun _ =>
        n ← try_resolve_pending_relocs;
        (if 0 <? n then set_dlerror_for_task task_id "dlopen: pending lazy symbols" else mret tt) ≫= fun _ =>
        mret handle.

Definition module_dlclose_for_task (task_id handle : Z) : lcall Z :=
  if (task_id <? 0) || (MAX_TASKS <=? task_id) then mret (-1)
  else
    clear_dlerror_for_task task_id ≫= fun _ =>
    slot ← find_module_slot_by_handle handle;
    if slot <? 0 then set_dlerror_for_task task_id "dlclose: bad handle" ≫= fun _ => mret (-1)
    else
      m ← module slot;
      if negb (lo_kind m =? NS_MODULE_KIND_LIBRARY) then set_dlerror_for_task task_id "dlclose: not library" ≫= fun _ => mret (-1)
      else
        r ← elem (lo_task_refs m) task_id;
        if r <=? 0 then set_dlerror_for_task task_id "dlclose: not owned by task" ≫= fun _ => mret (-1)
        else
          add_task_ref slot task_id (-1) ≫= fun _ =>
          drop_ref slot ≫= fun _ =>
          ok ← release_module_slot RELEASE_DEPTH slot false;
          if negb ok then set_dlerror_for_task task_id "dlclose: dependency busy" ≫= fun _ => mret (-1)
          else mret 0.

Definition module_dlopen (fs : ModuleFiles) (path : option (list Z)) : lcall Z :=
  s ← fget; module_dlopen_for_task fs (current_task_slot s) path.
Definition module_dlclose (handle : Z) : lcall Z := s ← fget; module_dlclose_for_task (current_task_slot s) handle.

(** ** Messages *)

Definition module_dlerror_for_task (task_id : Z) : lcall (list Z) :=
  if (task_id <? 0) || (MAX_TASKS <=? task_id) then mret (cstr "dlerror: invalid task")
  else s ← fget; elem (g_dlerror s) task_id.

(** The characters copied out with the terminator; [out] says that the buffer is there. *)
Definition module_copy_dlerror_for_task (task_id : Z) (out : bool) (out_cap : Z) : lcall (Z * list Z) :=
  src ← module_dlerror_for_task task_id;
  if negb out || (out_cap =? 0) then mret (-1, [])
  else cs ← text_chars (Z.to_nat (out_cap - 1)) src; mret (Z.of_nat (length cs), cs ++ [0]).

(** ** Kernel modules *)

Definition add_kernel_ref (slot : Z) : lcall unit := set_module slot (fun m => m <| lo_kernel_refs := i32 (lo_kernel_refs m + 1) |>).
Definition drop_kernel_ref (slot : Z) : lcall unit :=
  set_module slot (fun m => if 0 <? lo_kernel_refs m then m <| lo_kernel_refs := lo_kernel_refs m - 1 |> else m).

Definition insmod_done : lcall Z :=
  n ← try_resolve_pending_relocs;
  (if 0 <? n then set_dlerror "insmod: unresolved lazy symbols" else clear_dlerror) ≫= fun _ => mret 0.

Definition module_insmod (fs : ModuleFiles) (path : option (list Z)) : lcall Z :=
  handle ← load_new_module fs path NS_MODULE_KIND_KERNEL;
  if handle <? 0 then set_dlerror "insmod: load failed" ≫= fun _ => mret (-1)
  else
    slot ← find_module_slot_by_handle handle;
    if slot <? 0 then set_dlerror "insmod: bad handle" ≫= fun _ => mret (-1)
    else
      add_kernel_ref slot ≫= fun _ =>
      m ← module slot;
      if lo_init_called m =? 0 then
        rc ← (if lo_init_addr m =? 0 then mret 0 else enter_module (lo_init_addr m));
        if negb (rc =? 0) then
          drop_kernel_ref slot ≫= fun _ => drop_ref slot ≫= fun _ =>
          release_module_slot RELEASE_DEPTH slot false ≫= fun _ =>
          set_dlerror "insmod: init failed" ≫= fun _ => mret (-1)
        else set_module slot (fun m => m <| lo_init_called := 1 |>) ≫= fun _ => insmod_done
      else insmod_done.

Definition module_rmmod (path_or_handle : option (list Z)) : lcall Z :=
  let bad msg := set_dlerror msg ≫= fun _ => mret (-1) in
  match path_or_handle with
  | None => bad "rmmod: bad args"%string
  | Some text =>
      c ← rd text 0;
      if c =? 0 then bad "rmmod: bad args"%string
      else
        v ← parse_u32_dec_local text;
        by_handle ← (match v with Some v => find_module_slot_by_handle (i32 v) | None => mret (-1) end);
        slot ← (if by_handle <? 0 then find_module_slot_by_path text NS_MODULE_KIND_KERNEL else mret by_handle);
        if slot <? 0 then bad "rmmod: module not found"%string
        else
          m ← module slot;
          if negb (lo_kind m =? NS_MODULE_KIND_KERNEL) then bad "rmmod: module not found"%string
          else if lo_kernel_refs m <=? 0 then bad "rmmod: no kernel ref"%string
          else
            busy ← module_has_dependents slot;
            if busy : bool then bad "rmmod: dependent modules exist"%string
            else
              drop_kernel_ref slot ≫= fun _ => drop_ref slot ≫= fun _ =>
              ok ← release_module_slot RELEASE_DEPTH slot true;
              if negb ok then bad "rmmod: module still busy"%string else clear_dlerror ≫= fun _ => mret 0
  end.

(** The loaded modules, [max_entries] at most. *)
Record NsModuleInfo := { mi_used : Z; mi_kind : Z; mi_handle : Z; mi_ref_count : Z; mi_exported_symbols : Z; mi_path : list Z }.
Fixpoint list_modules (ms : list NsLoadedObject) (room : nat) : lcall (list NsModuleInfo) :=
  match ms, room with
  | m :: ms', Datatypes.S room' =>
      if lo_used m =? 0 then list_modules ms' room
      else
        text ← text_chars (Z.to_nat (NS_PATH_LEN - 1)) (lo_path m);
        rest ← list_modules ms' room';
        mret ({| mi_used := 1; mi_kind := lo_kind m; mi_handle := lo_handle m; mi_ref_count := lo_ref_count m;
                 mi_exported_symbols := lo_export_count m; mi_path := text ++ [0] |} :: rest)
  | _, _ => mret []
  end.
Definition module_list (max_entries : Z) : lcall (list NsModuleInfo) :=
  if max_entries <=? 0 then mret [] else s ← fget; list_modules (g_modules s) (Z.to_nat max_entries).
End Calls.

(** The static storage as the program starts. *)
Definition loader_static : Loader :=
  {| g_modules := replicate (Z.to_nat NS_MODULE_MAX) zero_object;
     g_kernel_exports := replicate (Z.to_nat NS_KERNEL_EXPORTS_MAX) zero_export; g_kernel_export_count := 0;
     g_pending_relocs := replicate (Z.to_nat NS_PENDING_RELOC_MAX) zero_pending;
     g_dlerror := replicate (Z.to_nat MAX_TASKS) (zero_bytes NS_DLERROR_LEN);
     g_module_pool := zero_bytes NS_MODULE_POOL_SIZE; g_module_pool_cursor := 0; g_load_buf := zero_bytes NS_MODULE_LOAD_LIMIT;
     ld_current_task := 0 |}.
