(* ===== verification/LoaderSpec.v ===== *)
(** * Module loader: what the searches find

    The searches of kernel/module_loader.c read the tables and change nothing: each is a
    function of the tables it reads. *)
From S2P Require Import Prelude Fault Bytes Buffers VfsDefs Task Loader LoaderImage LoaderCalls.

(** ** Strings *)

(** The characters before the terminator. *)
Fixpoint chars (t : list Z) : list Z :=
  match t with [] => [] | c :: t' => if c =? 0 then [] else c :: chars t' end.

Definition terminated (t : list Z) : Prop := 0 ∈ t.

Lemma terminated_cons c t : terminated (c :: t) -> c = 0 \/ (c <> 0 /\ terminated t).
Proof. unfold terminated. rewrite elem_of_cons. destruct (decide (c = 0)); [by left|]. intros [?|?]; [congruence|by right]. Qed.

Section Strings.
Context {S : Type}.
Implicit Types s : S.

Lemma str_eq_local_ok a : forall b s, terminated a -> terminated b -> str_eq_local a b s = Done s (bool_decide (chars a = chars b)).
Proof.
  induction a as [|x a IH]; intros b s Ha Hb; [by apply elem_of_nil in Ha|].
  destruct b as [|y b]; [by apply elem_of_nil in Hb|]. cbn [str_eq_local chars].
  destruct (Z.eqb_spec x 0) as [->|Hx]; cbn [orb andb negb].
  - destruct (Z.eqb_spec y 0); cbn [orb andb negb]; [by rewrite bool_decide_true|by rewrite bool_decide_false].
  - destruct (Z.eqb_spec y 0) as [->|Hy]; cbn [orb andb negb]; [by rewrite bool_decide_false|].
    destruct (Z.eqb_spec x y) as [->|Hxy]; cbn [orb andb negb]; [|rewrite bool_decide_false; [done|congruence]].
    apply terminated_cons in Ha as [?|[_ Ha]]; [done|]. apply terminated_cons in Hb as [?|[_ Hb]]; [done|].
    rewrite IH by done. f_equal. apply bool_decide_ext. split; congruence.
Qed.

Lemma text_chars_ok t : forall n s, terminated t -> text_chars n t s = Done s (take n (chars t)).
Proof.
  induction t as [|c t IH]; intros n s Ht; [by apply elem_of_nil in Ht|]. cbn [text_chars chars].
  destruct (Z.eqb_spec c 0) as [->|Hc]; [by destruct n|]. destruct n as [|n]; [done|].
  apply terminated_cons in Ht as [?|[_ Ht]]; [done|]. unfold mbind, FST_bind. by rewrite IH.
Qed.

Lemma chars_nonzero t : Forall (fun c => c <> 0) (chars t).
Proof.
  induction t as [|c t IH]; [constructor|]. simpl. destruct (Z.eqb_spec c 0); [constructor|]. by constructor.
Qed.

Lemma chars_app cs t : Forall (fun c => c <> 0) cs -> chars (cs ++ 0 :: t) = cs.
Proof. induction 1 as [|c cs Hc _ IH]; [done|]. simpl. destruct (Z.eqb_spec c 0); [done|]. by rewrite IH. Qed.

Lemma put_ok o b p s : fits o b p -> put o b p s = Done s (splice o b p).
Proof.
  intros [Ho Hb]. unfold put. by destruct (Z.leb_spec 0 o), (Z.leb_spec (o + Z.of_nat (length b)) (Z.of_nat (length p))); try lia.
Qed.

Lemma rd_bytes_ok p o n s : 0 <= o -> 0 <= n -> o + n <= Z.of_nat (length p) -> rd_bytes p o n s = Done s (slice o n p).
Proof.
  intros. unfold rd_bytes. by destruct (Z.leb_spec 0 o), (Z.leb_spec 0 n), (Z.leb_spec (o + n) (Z.of_nat (length p))); try lia.
Qed.

Lemma elem_ok {A} (l : list A) i x s : 0 <= i -> l !! Z.to_nat i = Some x -> elem l i s = Done s x.
Proof. intros Hi Hx. unfold elem. rewrite Hx. by destruct (Z.leb_spec 0 i); [|lia]. Qed.

Lemma rd_head t s : terminated t -> exists c, rd t 0 s = Done s c /\ ((c =? 0) = bool_decide (chars t = [])).
Proof.
  intros Ht. destruct t as [|c t]; [by apply elem_of_nil in Ht|]. exists c. split.
  - unfold rd. destruct (Z.ltb_spec 0 (Z.of_nat (length (c :: t)))); [done|]. simpl in *. lia.
  - cbn [chars]. destruct (Z.eqb_spec c 0); [by rewrite bool_decide_true|by rewrite bool_decide_false].
Qed.

(** A copied text: the characters that fit, in a buffer of the same length. *)
Lemma text_copy_ok dst cap src s : 0 < cap <= Z.of_nat (length dst) -> terminated src ->
  exists t, text_copy dst cap src s = Done s t /\ length t = length dst /\ terminated t /\ chars t = take (Z.to_nat (cap - 1)) (chars src).
Proof.
  intros Hcap Hsrc. unfold text_copy. destruct (Z.leb_spec cap 0); [lia|]. unfold mbind, FST_bind.
  rewrite text_chars_ok by done. set (cs := take _ (chars src)).
  assert (length cs < Z.to_nat cap)%nat as Hl by (unfold cs; rewrite length_take; lia).
  assert (fits 0 (cs ++ [0]) dst) as Hf by (unfold fits; rewrite length_app; simpl; lia).
  rewrite put_ok by done. exists (splice 0 (cs ++ [0]) dst). split; [done|]. split; [by apply splice_length|].
  replace (splice 0 (cs ++ [0]) dst) with (cs ++ 0 :: drop (length cs + 1) dst).
  2: { unfold splice. simpl. rewrite length_app. by rewrite <- app_assoc. }
  split; [apply elem_of_app; right; constructor|]. apply chars_app. apply Forall_take, chars_nonzero.
Qed.
End Strings.

(** ** Searches *)

Fixpoint first_some {A B} (g : Z -> B -> option A) (lo : Z) (l : list B) : option A :=
  match l with
  | [] => None
  | x :: l' => match g lo x with Some a => Some a | None => first_some g (lo + 1) l' end
  end.

Lemma first_some_Some {A B} (g : Z -> B -> option A) l a : forall lo, first_some g lo l = Some a ->
  exists i x, l !! i = Some x /\ g (lo + Z.of_nat i) x = Some a.
Proof.
  induction l as [|x l IH]; intros lo Hl; [done|]. simpl in Hl. destruct (g lo x) as [b|] eqn:Hg.
  - exists O, x. split; [done|]. rewrite Z.add_0_r. congruence.
  - apply IH in Hl as (i & y & Hi & Hy). exists (S i), y. split; [done|]. rewrite <- Hy. f_equal. lia.
Qed.

Lemma first_some_None {A B} (g : Z -> B -> option A) l : forall lo, first_some g lo l = None ->
  forall i x, l !! i = Some x -> g (lo + Z.of_nat i) x = None.
Proof.
  induction l as [|y l IH]; intros lo Hl i x Hx; [by rewrite lookup_nil in Hx|]. simpl in Hl.
  destruct (g lo y) eqn:Hg; [done|]. destruct i as [|i]; simpl in Hx.
  - rewrite Z.add_0_r. congruence.
  - rewrite <- (IH _ Hl _ _ Hx). f_equal. lia.
Qed.

Lemma loop_first {S A B} (body : Z -> FST S (option A)) (g : Z -> B -> option A) (s : S) l : forall lo,
  (forall i x, l !! i = Some x -> body (lo + Z.of_nat i) s = Done s (g (lo + Z.of_nat i) x)) ->
  loop body lo (length l) s = Done s (first_some g lo l).
Proof.
  induction l as [|x l IH]; intros lo Hb; [done|]. cbn [loop length first_some]. unfold mbind at 1, FST_bind at 1.
  pose proof (Hb O x eq_refl) as H0. cbn in H0. rewrite Z.add_0_r in H0. rewrite H0. destruct (g lo x); [done|].
  apply IH. intros i y Hi. replace (lo + 1 + Z.of_nat i) with (lo + Z.of_nat (Datatypes.S i)) by lia. by apply Hb.
Qed.

(** A table of exports whose first [count] names are proper strings. *)
Definition export_wf (e : NsExport) : Prop := Z.of_nat (length (x_name e)) = NS_NAME_LEN /\ terminated (x_name e).
Definition table_wf (cap : Z) (tbl : list NsExport) (count : Z) : Prop :=
  Z.of_nat (length tbl) = cap /\ 0 <= count <= cap /\ Forall export_wf tbl.

Definition named (name : list Z) (e : NsExport) : bool := bool_decide (chars (x_name e) = chars name).
Definition lookup_export (tbl : list NsExport) (count : Z) (name : list Z) : option Z :=
  first_some (fun i e => if named name e then Some i else None) 0 (take (Z.to_nat count) tbl).

Lemma find_export_ok cap tbl count name s : table_wf cap tbl count -> terminated name ->
  find_export tbl count name s = Done s (lookup_export tbl count name).
Proof.
  intros (Hl & Hc & Hw) Hn. unfold find_export, lookup_export.
  replace (Z.to_nat count) with (length (take (Z.to_nat count) tbl)) at 1 by (rewrite length_take; lia).
  apply loop_first. intros i e He. apply lookup_take_Some in He as [He Hi].
  unfold mbind, FST_bind. rewrite (elem_ok _ (0 + Z.of_nat i) e) by (lia || by rewrite Z.add_0_l, Nat2Z.id).
  rewrite str_eq_local_ok; [done| |done]. apply (Forall_lookup_1 _ _ _ _ Hw) in He. apply He.
Qed.

Lemma lookup_export_Some tbl count name i : lookup_export tbl count name = Some i ->
  exists e, 0 <= i < count /\ tbl !! Z.to_nat i = Some e /\ chars (x_name e) = chars name.
Proof.
  intros Hf. apply first_some_Some in Hf as (j & e & He & Hg). apply lookup_take_Some in He as [He Hj].
  unfold named in Hg. case_bool_decide; [|done]. injection Hg as <-. exists e. rewrite ?Z.add_0_l, Nat2Z.id. split; [lia|done].
Qed.

(** The symbol a name stands for: an address and the owner, -1 for the kernel. *)
Definition module_symbol (name : list Z) (i : Z) (m : NsLoadedObject) : option (Z * Z) :=
  if lo_used m =? 0 then None
  else match lookup_export (lo_exports m) (lo_export_count m) name with
       | Some e => Some (x_addr (default zero_export (lo_exports m !! Z.to_nat e)), i)
       | None => None
       end.
Definition symbol (s : Loader) (name : list Z) : option (Z * Z) :=
  if bool_decide (chars name = []) then None
  else match lookup_export (g_kernel_exports s) (g_kernel_export_count s) name with
       | Some e => Some (x_addr (default zero_export (g_kernel_exports s !! Z.to_nat e)), -1)
       | None => first_some (module_symbol name) 0 (g_modules s)
       end.

(** The tables of exports of a state. *)
Record exports_wf (s : Loader) : Prop := {
  ew_kernel : table_wf NS_KERNEL_EXPORTS_MAX (g_kernel_exports s) (g_kernel_export_count s);
  ew_modules : Z.of_nat (length (g_modules s)) = NS_MODULE_MAX;
  ew_tables : Forall (fun m => table_wf NS_EXPORTS_MAX (lo_exports m) (lo_export_count m)) (g_modules s)
}.

Lemma module_ok i m s : 0 <= i -> g_modules s !! Z.to_nat i = Some m -> module i s = Done s m.
Proof. intros Hi Hm. unfold module, mbind, FST_bind, fget. by apply elem_ok. Qed.

Lemma resolve_external_symbol_ok name s : exports_wf s -> terminated name ->
  resolve_external_symbol name s = Done s (symbol s name).
Proof.
  intros [Hk Hl Ht] Hn. unfold resolve_external_symbol, symbol. destruct (rd_head (S := Loader) name s Hn) as (c & Hc & E).
  unfold mbind at 1, FST_bind at 1. rewrite Hc, E. case_bool_decide; [done|].
  unfold mbind at 1, FST_bind at 1, fget. unfold mbind at 1, FST_bind at 1. erewrite find_export_ok by done.
  destruct (lookup_export _ _ _) as [i|] eqn:Hi.
  - apply lookup_export_Some in Hi as (e & Hi & He & _). unfold mbind, FST_bind. rewrite (elem_ok _ i e) by (lia || done).
    by rewrite He.
  - replace (Z.to_nat NS_MODULE_MAX) with (length (g_modules s)) by lia. apply loop_first. intros j m Hm.
    unfold mbind at 1, FST_bind at 1. rewrite (module_ok (0 + Z.of_nat j) m) by (lia || by rewrite Z.add_0_l, Nat2Z.id). unfold module_symbol.
    destruct (lo_used m =? 0); [done|]. unfold mbind at 1, FST_bind at 1.
    erewrite find_export_ok by (done || by apply (Forall_lookup_1 _ _ _ _ Ht Hm)).
    destruct (lookup_export (lo_exports m) _ _) as [e|] eqn:He; [|done]. apply lookup_export_Some in He as (x & Hx & Hl' & _).
    unfold mbind, FST_bind. rewrite (elem_ok _ e x) by (lia || done). by rewrite Hl'.
Qed.

(** The owner of a symbol of a module is a loaded module that exports something. *)
Lemma symbol_owner s name a o : Z.of_nat (length (g_modules s)) = NS_MODULE_MAX -> symbol s name = Some (a, o) ->
  o = -1 \/ (0 <= o < NS_MODULE_MAX /\ exists m, g_modules s !! Z.to_nat o = Some m /\ lo_used m <> 0 /\ 0 < lo_export_count m).
Proof.
  intros Hl Hs. unfold symbol in Hs. case_bool_decide; [done|]. destruct (lookup_export _ _ _); [left; congruence|].
  apply first_some_Some in Hs as (i & m & Hm & Hg). unfold module_symbol in Hg. destruct (Z.eqb_spec (lo_used m) 0); [done|].
  destruct (lookup_export _ _ _) as [e|] eqn:He; [|done]. injection Hg as _ <-. right.
  apply lookup_export_Some in He as (x & Hx & _). pose proof (lookup_lt_Some _ _ _ Hm). split; [lia|].
  exists m. rewrite ?Z.add_0_l, Nat2Z.id. split; [done|]. split; [done|lia].
Qed.

(** ** Slots *)

Definition slot_where (p : NsLoadedObject -> bool) (s : Loader) : Z := idx_or_neg (find_idx p (g_modules s)).

Lemma find_slot_ok test p s : Z.of_nat (length (g_modules s)) = NS_MODULE_MAX ->
  (forall m, m ∈ g_modules s -> test m s = Done s (p m)) -> find_slot test s = Done s (slot_where p s).
Proof.
  intros Hl Ht. unfold find_slot, slot_where. replace (Z.to_nat NS_MODULE_MAX) with (length (g_modules s)) by lia.
  unfold mbind at 1, FST_bind at 1. rewrite (loop_first _ (fun i m => if p m then Some i else None) s (g_modules s)).
  - unfold mret, FST_ret. f_equal. assert (forall l lo, default (-1) (first_some (fun i m => if p m then Some i else None) lo l) =
      match find_idx p l with Some i => lo + Z.of_nat i | None => -1 end) as E; [|by rewrite E; destruct (find_idx _ _)].
    induction l as [|m l IH]; intros lo; [done|]. simpl. destruct (p m); [simpl; lia|]. rewrite IH.
    destruct (find_idx p l); simpl; lia.
  - intros i m Hm. unfold mbind at 1, FST_bind at 1. rewrite (module_ok (0 + Z.of_nat i) m) by (lia || by rewrite Z.add_0_l, Nat2Z.id).
    unfold mbind at 1, FST_bind at 1. rewrite Ht; [done|]. by eapply list_elem_of_lookup_2.
Qed.

Lemma slot_where_cases p s : slot_where p s = -1 \/
  (0 <= slot_where p s /\ exists m, g_modules s !! Z.to_nat (slot_where p s) = Some m /\ p m = true).
Proof.
  unfold slot_where. destruct (find_idx p (g_modules s)) as [i|] eqn:E; [right|by left]. simpl.
  apply find_idx_Some in E as [Hm _]. rewrite Nat2Z.id. split; [lia|done].
Qed.
