(* ===== verification/LoaderInv.v ===== *)
(** * Module loader: the invariant

    What holds of the tables of kernel/module_loader.c between two calls: each module is
    counted at least once for every use of it, and every word a relocation will store lies
    in the pool.  [during] adds what a call has left as it was. *)
From S2P Require Import Prelude Fault Bytes Buffers VfsDefs Task Loader LoaderImage LoaderCalls LoaderSpec.

(** ** Sums *)

Definition zsum {A} (f : A -> Z) (l : list A) : Z := foldr (fun x a => f x + a) 0 l.

Lemma zsum_insert {A} (f : A -> Z) l i x y : l !! i = Some x -> zsum f (<[i := y]> l) = zsum f l - f x + f y.
Proof.
  revert i. induction l as [|z l IH]; intros [|i] Hi; try done; simpl in *; [injection Hi as ->; lia|]. rewrite (IH i) by done. lia.
Qed.

Lemma zsum_nonneg {A} (f : A -> Z) l : (forall x, x ∈ l -> 0 <= f x) -> 0 <= zsum f l.
Proof.
  induction l as [|x l IH]; intros Hf; simpl; [lia|]. pose proof (Hf x ltac:(constructor)).
  assert (0 <= zsum f l); [|lia]. apply IH. intros y Hy. apply Hf. by constructor.
Qed.

Lemma zsum_in {A} (f : A -> Z) l x : (forall y, y ∈ l -> 0 <= f y) -> x ∈ l -> f x <= zsum f l.
Proof.
  induction l as [|y l IH]; intros Hf Hx; [by apply elem_of_nil in Hx|]. simpl. pose proof (Hf y ltac:(constructor)).
  assert (forall z, z ∈ l -> 0 <= f z) as Hl by (intros; apply Hf; by constructor).
  pose proof (zsum_nonneg f l Hl). apply elem_of_cons in Hx as [->|Hx]; [lia|]. specialize (IH Hl Hx). lia.
Qed.

Lemma zsum_bound {A} (f : A -> Z) l k : (forall x, x ∈ l -> f x <= k) -> zsum f l <= k * Z.of_nat (length l).
Proof.
  induction l as [|x l IH]; intros Hf; simpl; [lia|]. pose proof (Hf x ltac:(constructor)).
  assert (zsum f l <= k * Z.of_nat (length l)); [|lia]. apply IH. intros y Hy. apply Hf. by constructor.
Qed.

Lemma zsum_zero l : Forall (fun x => 0 <= x) l -> zsum id l = 0 -> l = replicate (length l) 0.
Proof.
  induction 1 as [|x l Hx Hl IH]; [done|]. unfold id in *. simpl. intros Hs.
  pose proof (zsum_nonneg (fun x => x) l ltac:(intros y Hy; by apply (proj1 (list.Forall_forall _ _) Hl))).
  unfold zsum in *. assert (x = 0) as -> by lia. rewrite <- IH; [done|lia].
Qed.

(** ** Uses *)

Definition live_deps (m : NsLoadedObject) : list Z := take (Z.to_nat (lo_dep_count m)) (lo_deps m).
Definition depends (i : Z) (m : NsLoadedObject) : Z := if bool_decide (i ∈ live_deps m) then 1 else 0.

(** How often the module [m] at [i] is used: by tasks, by the kernel and by modules. *)
Definition uses (ms : list NsLoadedObject) (i : Z) (m : NsLoadedObject) : Z :=
  zsum id (lo_task_refs m) + lo_kernel_refs m + zsum (depends i) ms.

Record object_wf (m : NsLoadedObject) : Prop := {
  ob_deps : Z.of_nat (length (lo_deps m)) = NS_DEPS_MAX;
  ob_dep_count : 0 <= lo_dep_count m <= NS_DEPS_MAX;
  ob_nodup : NoDup (live_deps m);
  ob_refs : Z.of_nat (length (lo_task_refs m)) = MAX_TASKS;
  ob_refs_pos : Forall (fun r => 0 <= r) (lo_task_refs m);
  ob_kernel : 0 <= lo_kernel_refs m;
  ob_path : Z.of_nat (length (lo_path m)) = NS_PATH_LEN /\ terminated (lo_path m);
  ob_exports : table_wf NS_EXPORTS_MAX (lo_exports m) (lo_export_count m)
}.

(** [off] lists the modules whose count is one short, while a release is on its way. *)
Record counts (off : list Z) (n : Z) (ms : list NsLoadedObject) (i : Z) (m : NsLoadedObject) : Prop := {
  ct_low : uses ms i m <= lo_ref_count m + (if bool_decide (i ∈ off) then 1 else 0);
  ct_high : lo_ref_count m <= n + zsum (depends i) ms;
  ct_pos : 0 <= lo_ref_count m;
  ct_unused : lo_used m = 0 -> lo_ref_count m = 0;
  ct_handle : lo_used m <> 0 -> lo_handle m = 0x4000 + i
}.

Definition all_counts (off : list Z) (n : Z) (ms : list NsLoadedObject) : Prop :=
  forall i m, ms !! i = Some m -> counts off n ms (Z.of_nat i) m.

Lemma depends_range i m : 0 <= depends i m <= 1.
Proof. unfold depends. case_bool_decide; lia. Qed.

Lemma depends_sum i ms : 0 <= zsum (depends i) ms <= Z.of_nat (length ms).
Proof.
  split; [apply zsum_nonneg; intros; apply depends_range|].
  pose proof (zsum_bound (depends i) ms 1 ltac:(intros; apply depends_range)). lia.
Qed.

Lemma uses_nonneg ms i m : object_wf m -> zsum (depends i) ms <= uses ms i m /\ 0 <= zsum id (lo_task_refs m) /\ 0 <= lo_kernel_refs m.
Proof.
  intros Hm. unfold uses. pose proof (ob_kernel m Hm).
  assert (0 <= zsum id (lo_task_refs m)); [|lia]. apply zsum_nonneg. intros x Hx. by apply (proj1 (list.Forall_forall _ _) (ob_refs_pos m Hm)).
Qed.

(** Nobody depends on a module without uses. *)
Lemma no_dependents ms i m : zsum (depends i) ms <= 0 -> m ∈ ms -> i ∉ live_deps m.
Proof.
  intros Hs Hm Hi. pose proof (zsum_in (depends i) ms m ltac:(intros; apply depends_range) Hm) as Hd.
  unfold depends at 1 in Hd. rewrite bool_decide_true in Hd by done. lia.
Qed.

Lemma no_dependents_sum ms i : (forall m, m ∈ ms -> i ∉ live_deps m) -> zsum (depends i) ms = 0.
Proof.
  induction ms as [|m ms IH]; intros Hm; [done|]. simpl. rewrite IH by (intros; apply Hm; by constructor).
  unfold depends. rewrite bool_decide_false by (apply Hm; constructor). done.
Qed.

Lemma live_zero : live_deps zero_object = [].
Proof. done. Qed.

(** A change that leaves the dependencies of the module alone. *)
Lemma counts_set off n n' ms i m m' : ms !! i = Some m -> n <= n' -> live_deps m' = live_deps m ->
  all_counts off n ms -> counts off n' ms (Z.of_nat i) m' -> all_counts off n' (<[i := m']> ms).
Proof.
  intros Hi Hn Hd Ha Hc j mj Hj.
  assert (forall k, zsum (depends k) (<[i := m']> ms) = zsum (depends k) ms) as Es.
  { intros k. rewrite (zsum_insert _ _ _ _ _ Hi). unfold depends. rewrite Hd. lia. }
  assert (counts off n' ms (Z.of_nat j) mj) as [C1 C2 C3 C4 C5].
  { apply list_lookup_insert_Some in Hj as [(-> & -> & _)|[Hne Hj]]; [done|].
    destruct (Ha j mj Hj). constructor; try done. lia. }
  constructor; try done; unfold uses in *; rewrite Es; done.
Qed.

(** One more dependency, counted at its target. *)
Lemma counts_add_dependency n ms i o m mo d : ms !! i = Some m -> all_counts [] n ms ->
  live_deps d = live_deps m ++ [Z.of_nat o] -> Z.of_nat o ∉ live_deps m ->
  lo_ref_count d = lo_ref_count m -> lo_used d = lo_used m -> lo_handle d = lo_handle m ->
  lo_task_refs d = lo_task_refs m -> lo_kernel_refs d = lo_kernel_refs m ->
  <[i := d]> ms !! o = Some mo -> lo_used mo <> 0 ->
  all_counts [] n (<[o := mo <| lo_ref_count := lo_ref_count mo + 1 |>]> (<[i := d]> ms)).
Proof.
  intros Hi Ha Hd Hno E1 E2 E3 E4 E5 Ho Hu j mj Hj.
  assert (forall k, zsum (depends k) (<[o := mo <| lo_ref_count := lo_ref_count mo + 1 |>]> (<[i := d]> ms)) =
    zsum (depends k) ms + (if decide (k = Z.of_nat o) then 1 else 0)) as Es.
  { intros k. rewrite (zsum_insert _ _ _ _ _ Ho), (zsum_insert _ _ _ _ _ Hi).
    replace (depends k (mo <| lo_ref_count := lo_ref_count mo + 1 |>)) with (depends k mo) by done.
    assert (depends k d = depends k m + (if decide (k = Z.of_nat o) then 1 else 0)); [|lia].
    unfold depends. rewrite Hd. case_decide as Hk; repeat case_bool_decide; try lia; exfalso; set_solver. }
  assert (forall x, <[i := d]> ms !! x = Some mj \/ (x = o /\ mj = mo <| lo_ref_count := lo_ref_count mo + 1 |>) -> x = j ->
    exists m0, ms !! x = Some m0 /\ lo_task_refs mj = lo_task_refs m0 /\ lo_kernel_refs mj = lo_kernel_refs m0 /\
      lo_used mj = lo_used m0 /\ lo_handle mj = lo_handle m0 /\
      (lo_ref_count mj = lo_ref_count m0 + (if decide (Z.of_nat x = Z.of_nat o) then 1 else 0) \/ (x = o /\ mj = mo))) as Hold.
  { intros x Hx ->. destruct Hx as [Hx|[-> ->]].
    - apply list_lookup_insert_Some in Hx as Hx'. destruct (decide (j = o)) as [->|Hjo].
      + assert (mj = mo) as -> by congruence. destruct Hx' as [(-> & -> & _)|[_ Hx']]; [exists m|exists mo]; repeat split; auto.
      + destruct Hx' as [(-> & -> & _)|[_ Hx']]; [exists m|exists mj]; repeat split; auto; left; case_decide; lia.
    - apply list_lookup_insert_Some in Ho as Ho'.
      destruct Ho' as [(-> & -> & _)|[_ Ho']]; [exists m|exists mo]; repeat split; auto; left; cbn; case_decide; lia. }
  apply list_lookup_insert_Some in Hj as Hj'.
  destruct (Hold j) as (m0 & Hm0 & T1 & T2 & T3 & T4 & T5); [destruct Hj' as [(<- & <- & _)|[_ ?]]; auto|done|].
  destruct (Ha j m0 Hm0) as [C1 C2 C3 C4 C5].
  assert (lo_ref_count mj = lo_ref_count m0 + (if decide (Z.of_nat j = Z.of_nat o) then 1 else 0)) as T6.
  { destruct T5 as [?|[-> ->]]; [done|]. destruct Hj' as [(_ & E & _)|[? _]]; [|done].
    exfalso. apply (f_equal lo_ref_count) in E. cbn in E. lia. }
  unfold uses in *. constructor; unfold uses; rewrite ?Es, ?T1, ?T2, ?T3, ?T4, ?T6.
  - rewrite bool_decide_false in C1 |- * by apply not_elem_of_nil. lia.
  - lia.
  - case_decide; lia.
  - intros E. case_decide as Hk; [|rewrite C4 by done; lia]. assert (j = o) as -> by lia. exfalso. apply Hu.
    destruct Hj' as [(_ & E' & _)|[? _]]; [|done]. rewrite <- E, <- T3. by rewrite <- E'.
  - done.
Qed.

(** A module taken out: nobody depends on it, and it depends on nobody any more. *)
Lemma counts_clear n ms i m off : 0 <= n -> ms !! i = Some m -> all_counts off n ms -> (forall d, d ∈ off -> d ∈ live_deps m) ->
  (forall x, x ∈ ms -> Z.of_nat i ∉ live_deps x) -> all_counts [] (n + 1) (<[i := zero_object]> ms).
Proof.
  intros Hn Hi Ha Hoff Hno j mj Hj.
  assert (forall k, zsum (depends k) (<[i := zero_object]> ms) = zsum (depends k) ms - depends k m) as Es.
  { intros k. rewrite (zsum_insert _ _ _ _ _ Hi). replace (depends k zero_object) with 0 by done. lia. }
  apply list_lookup_insert_Some in Hj as [(<- & <- & _)|[Hne Hj]].
  - pose proof (no_dependents_sum ms _ Hno).
    assert (depends (Z.of_nat i) m = 0) as Hd.
    { unfold depends. rewrite bool_decide_false; [done|]. apply Hno. by eapply list_elem_of_lookup_2. }
    assert (zsum id (lo_task_refs zero_object) = 0) as Hz by done.
    constructor; try done; unfold uses; rewrite ?Hz, Es, Hd; cbn -[zsum]; try lia. case_bool_decide; lia.
  - destruct (Ha j mj Hj) as [C1 C2 C3 C4 C5]. pose proof (depends_range (Z.of_nat j) m). constructor; try done; unfold uses in *; rewrite Es; [|lia].
    rewrite (bool_decide_false (_ ∈ [])) by apply not_elem_of_nil.
    unfold depends at 2. case_bool_decide as Hk; case_bool_decide; try lia. exfalso. auto.
Qed.

(** ** The invariant *)

(** The pool lies within the address space, and the code of modules keeps it in place. *)
Class LoaderEnvOk `{LoaderEnv} : Prop := {
  pool_range : 0 < pool_base /\ pool_base + NS_MODULE_POOL_SIZE < 2 ^ 32;
  run_entry_length : forall a p, length (fst (run_entry a p)) = length p
}.

Section Inv.
Context `{LoaderEnvOk}.

(** A word of the pool. *)
Definition in_pool (a : Z) : Prop := pool_base <= a /\ a + 4 <= pool_base + NS_MODULE_POOL_SIZE.

Record pending_wf (p : NsPendingReloc) : Prop := {
  pw_place : pr_used p <> 0 -> in_pool (pr_place p);
  pw_symbol : Z.of_nat (length (pr_symbol p)) = NS_NAME_LEN /\ terminated (pr_symbol p)
}.

Definition message_wf (t : list Z) : Prop := Z.of_nat (length t) = NS_DLERROR_LEN /\ terminated t.

Record loader_inv (n : Z) (s : Loader) : Prop := {
  li_bound : 0 <= n;
  li_length : Z.of_nat (length (g_modules s)) = NS_MODULE_MAX;
  li_objects : Forall object_wf (g_modules s);
  li_counts : all_counts [] n (g_modules s);
  li_kernel : table_wf NS_KERNEL_EXPORTS_MAX (g_kernel_exports s) (g_kernel_export_count s);
  li_pending_length : Z.of_nat (length (g_pending_relocs s)) = NS_PENDING_RELOC_MAX;
  li_pending : Forall pending_wf (g_pending_relocs s);
  li_messages_length : Z.of_nat (length (g_dlerror s)) = MAX_TASKS;
  li_messages : Forall message_wf (g_dlerror s);
  li_pool : Z.of_nat (length (g_module_pool s)) = NS_MODULE_POOL_SIZE;
  li_cursor : 0 <= g_module_pool_cursor s <= NS_MODULE_POOL_SIZE;
  li_buf : Z.of_nat (length (g_load_buf s)) = NS_MODULE_LOAD_LIMIT
}.

(** What identifies a loaded module. *)
Definition same_module (m0 m : NsLoadedObject) : Prop :=
  lo_used m = lo_used m0 /\ lo_kind m = lo_kind m0 /\ lo_handle m = lo_handle m0 /\ lo_path m = lo_path m0 /\
  lo_exports m = lo_exports m0 /\ lo_export_count m = lo_export_count m0 /\ lo_image_base m = lo_image_base m0 /\
  lo_init_addr m = lo_init_addr m0 /\ lo_fini_addr m = lo_fini_addr m0.

(** Every module of [s0] is still there in [s], or its slot is free. *)
Definition kept (s0 s : Loader) : Prop :=
  forall i m0, g_modules s0 !! i = Some m0 -> lo_used m0 <> 0 ->
    exists m, g_modules s !! i = Some m /\ (same_module m0 m \/ lo_used m = 0).

(** The bytes of the pool a relocation that waits will store. *)
Definition waits (s : Loader) (o : Z) : Prop :=
  exists p, p ∈ g_pending_relocs s /\ pr_used p <> 0 /\ pr_place p <= pool_base + o < pr_place p + 4.

(** The part of the pool behind the cursor of [s0], and what waits there, may change. *)
Definition may_store (s0 : Loader) (o : Z) : Prop := g_module_pool_cursor s0 <= o \/ waits s0 o.

Record pool_kept (s0 s : Loader) : Prop := {
  pk_cursor : g_module_pool_cursor s0 <= g_module_pool_cursor s;
  pk_bytes : forall o, 0 <= o -> ~ may_store s0 o -> (g_module_pool s).[o] = (g_module_pool s0).[o];
  pk_waits : forall o, waits s o -> may_store s0 o
}.

(** A call on its way from [s0]: [T] are the references of the tasks, [P] is what else is
    known of the modules, and [b] says that no code of a module has run yet. *)
Record during (b : bool) (n : Z) (s0 : Loader) (T : list (list Z)) (P : list NsLoadedObject -> Prop) (s : Loader) : Prop := {
  du_inv : loader_inv n s;
  du_kept : kept s0 s;
  du_pool : b = true -> pool_kept s0 s;
  du_refs : map lo_task_refs (g_modules s) = T;
  du_also : P (g_modules s)
}.

Lemma inv_exports n s : loader_inv n s -> exports_wf s.
Proof.
  intros []. constructor; [done..|]. apply Forall_impl with object_wf; [|done]. intros m []. done.
Qed.

Lemma inv_object n s i m : loader_inv n s -> g_modules s !! i = Some m ->
  object_wf m /\ counts [] n (g_modules s) (Z.of_nat i) m /\ Z.of_nat i < NS_MODULE_MAX.
Proof.
  intros [] Hm. split; [by apply (Forall_lookup_1 _ _ _ _ li_objects0 Hm)|]. split; [by apply li_counts0|].
  apply lookup_lt_Some in Hm. lia.
Qed.

Lemma inv_slot n s i : loader_inv n s -> 0 <= i < NS_MODULE_MAX -> exists m, g_modules s !! Z.to_nat i = Some m.
Proof. intros [] Hi. apply lookup_lt_is_Some_2. lia. Qed.

Lemma inv_mono n n' s : loader_inv n s -> n <= n' -> loader_inv n' s.
Proof. intros [] Hn. constructor; try done; [lia|]. intros i m Hm. destruct (li_counts0 i m Hm). constructor; try done. lia. Qed.

Lemma loader_kept_refl s : kept s s.
Proof. intros i m Hm _. exists m. split; [done|]. left. done. Qed.

Lemma pool_kept_refl s : pool_kept s s.
Proof. constructor; [lia|done|]. intros o Ho. by right. Qed.

(** ** Updates of one module *)

Definition upd_modules (f : list NsLoadedObject -> list NsLoadedObject) (s : Loader) : Loader := s <| g_modules ::= f |>.

Lemma set_module_ok slot f m s : 0 <= slot -> g_modules s !! Z.to_nat slot = Some m ->
  set_module slot f s = Done (upd_modules <[Z.to_nat slot := f m]> s) tt.
Proof. intros Hs Hm. unfold set_module, mbind, FST_bind. by rewrite (module_ok _ m). Qed.

Lemma inv_set n n' s i m m' : loader_inv n s -> g_modules s !! i = Some m -> n <= n' -> object_wf m' -> live_deps m' = live_deps m ->
  counts [] n' (g_modules s) (Z.of_nat i) m' -> loader_inv n' (upd_modules <[i := m']> s).
Proof.
  intros [] Hm Hn Hw Hd Hc. constructor; cbn; try done; [lia|by rewrite length_insert|by apply Forall_insert|].
  by apply counts_set with n m.
Qed.

Lemma kept_set s0 s i m m' : kept s0 s -> g_modules s !! i = Some m -> same_module m m' \/ lo_used m' = 0 ->
  kept s0 (upd_modules <[i := m']> s).
Proof.
  intros Hk Hm Hs j m0 Hj Hu. destruct (Hk j m0 Hj Hu) as (mj & Hmj & Hsame). cbn.
  destruct (decide (i = j)) as [<-|Hne].
  - exists m'. rewrite list_lookup_insert_eq by (by eapply lookup_lt_Some). split; [done|].
    assert (mj = m) as -> by congruence. destruct Hs as [Hs|Hs]; [|by right]. destruct Hsame as [Hsame|Hz].
    + left. unfold same_module in *. destruct Hs as (-> & -> & -> & -> & -> & -> & -> & -> & ->). done.
    + right. destruct Hs as (-> & _). done.
  - exists mj. by rewrite list_lookup_insert_ne.
Qed.

Lemma refs_set s i m m' : g_modules s !! i = Some m -> lo_task_refs m' = lo_task_refs m ->
  map lo_task_refs (g_modules (upd_modules <[i := m']> s)) = map lo_task_refs (g_modules s).
Proof.
  intros Hm He. cbn. change (map ?f ?l) with (f <$> l). rewrite list_fmap_insert, He. apply list_insert_id.
  by rewrite list_lookup_fmap, Hm.
Qed.

Lemma pool_kept_set s0 s f : pool_kept s0 s -> pool_kept s0 (upd_modules f s).
Proof. intros []. by constructor. Qed.

Lemma during_set b n n' s0 T (P : list NsLoadedObject -> Prop) s i m m' : during b n s0 T P s -> g_modules s !! i = Some m -> n <= n' -> object_wf m' ->
  live_deps m' = live_deps m -> counts [] n' (g_modules s) (Z.of_nat i) m' -> same_module m m' -> lo_task_refs m' = lo_task_refs m ->
  P (<[i := m']> (g_modules s)) -> during b n' s0 T P (upd_modules <[i := m']> s).
Proof.
  intros [Hi Hk Hp Hr Ha] Hm Hn Hw Hd Hc Hs Ht HP. constructor.
  - by apply inv_set with n m.
  - apply kept_set with m; [done..|by left].
  - intros Hb. by apply pool_kept_set, Hp.
  - by rewrite (refs_set _ _ _ _ Hm).
  - done.
Qed.

(** ** Calls that leave the modules alone *)

Section Session.
Context (b : bool) (n : Z) (s0 : Loader) (T : list (list Z)) (P : list NsLoadedObject -> Prop).
Notation J := (during b n s0 T P).

Lemma safe_exact {A} (J' : Loader -> Prop) (m : lcall A) (f : Loader -> A) (R : A -> Prop) :
  (forall s, J' s -> m s = Done s (f s) /\ R (f s)) -> safe J' m R.
Proof. intros Hm s Hs. destruct (Hm s Hs) as [E HR]. unfold wpf. by rewrite E. Qed.

(** A new message. *)
Lemma during_message s t text : J s -> message_wf text -> J (s <| g_dlerror ::= <[t := text]> |>).
Proof.
  intros [[] Hk Hp Hr Ha] Ht. constructor; cbn; try done.
  - constructor; cbn; try done; [by rewrite length_insert|by apply Forall_insert].
  - intros Hb. destruct (Hp Hb). by constructor.
Qed.

Lemma message_of s i : J s -> 0 <= i < MAX_TASKS -> exists t, g_dlerror s !! Z.to_nat i = Some t /\ message_wf t.
Proof.
  intros [[] _ _ _ _] Hi. destruct (lookup_lt_is_Some_2 (g_dlerror s) (Z.to_nat i) ltac:(lia)) as [t Ht]. exists t.
  split; [done|]. by apply (Forall_lookup_1 _ _ _ _ li_messages0 Ht).
Qed.

Lemma cstr_terminated t : terminated (cstr t).
Proof. unfold terminated, cstr. apply elem_of_app. right. constructor. Qed.

Lemma set_dlerror_for_task_safe t msg : safe J (set_dlerror_for_task t msg) (fun _ => True).
Proof.
  unfold set_dlerror_for_task. case_if; [by apply safe_ret|]. bsimpl. intros s Hs. unfold mbind, FST_bind, fget, wpf.
  destruct (message_of s t Hs ltac:(lia)) as (old & Ho & Hl & _). rewrite (elem_ok (g_dlerror s) t old s ltac:(lia) Ho).
  destruct (text_copy_ok old NS_DLERROR_LEN (cstr msg) s ltac:(unfold NS_DLERROR_LEN in *; lia) (cstr_terminated msg)) as (x & -> & Hx & Ht & _).
  simpl. split; [|done]. apply during_message; [done|]. split; [by rewrite Hx|done].
Qed.

Lemma clear_dlerror_for_task_safe t : safe J (clear_dlerror_for_task t) (fun _ => True).
Proof.
  unfold clear_dlerror_for_task. case_if; [by apply safe_ret|]. bsimpl. intros s Hs. unfold mbind, FST_bind, fget, wpf.
  destruct (message_of s t Hs ltac:(lia)) as (old & Ho & Hl & _). rewrite (elem_ok (g_dlerror s) t old s ltac:(lia) Ho).
  assert (fits 0 [0] old) as Hf by (unfold fits, NS_DLERROR_LEN in *; simpl; lia). rewrite put_ok by done.
  simpl. split; [|done]. apply during_message; [done|]. split; [by rewrite splice_length|].
  unfold terminated, splice. simpl. constructor.
Qed.

Lemma set_dlerror_safe msg : safe J (set_dlerror msg) (fun _ => True).
Proof. unfold set_dlerror. eapply safe_bind; [apply safe_fget|]. intros s _. apply set_dlerror_for_task_safe. Qed.
Lemma clear_dlerror_safe : safe J clear_dlerror (fun _ => True).
Proof. unfold clear_dlerror. eapply safe_bind; [apply safe_fget|]. intros s _. apply clear_dlerror_for_task_safe. Qed.

(** A store in the pool. *)
Lemma pool_store_safe a bytes :
  pool_base <= a -> a + Z.of_nat (length bytes) <= pool_base + NS_MODULE_POOL_SIZE ->
  (b = true -> forall o, a <= pool_base + o < a + Z.of_nat (length bytes) -> may_store s0 o) ->
  safe J (pool_store a bytes) (fun _ => True).
Proof.
  intros Ha Hl Hm s [[] Hk Hp Hr HP]. unfold pool_store, mbind, FST_bind, fget, wpf.
  assert (fits (a - pool_base) bytes (g_module_pool s)) as Hf by (unfold fits; lia). rewrite put_ok by done. simpl.
  split; [|done]. constructor; cbn; try done.
  - constructor; cbn; try done. by rewrite splice_length.
  - intros Hb. destruct (Hp Hb). constructor; cbn; try done. intros o Ho Hno. rewrite <- (pk_bytes0 o Ho Hno).
    rewrite !list_lookup_total_alt, splice_lookup by done. case_decide; [|done]. exfalso. apply Hno, Hm; [done|lia].
Qed.

Lemma pool_store32_safe a v : in_pool a -> (b = true -> forall o, a <= pool_base + o < a + 4 -> may_store s0 o) ->
  safe J (pool_store32 a v) (fun _ => True).
Proof. intros [Ha Hl] Hm. apply pool_store_safe; rewrite ?le_bytes_length; try lia. done. Qed.

Lemma pool_load32_safe a : in_pool a -> safe J (pool_load32 a) (fun _ => True).
Proof.
  intros [Ha Hl] s Hs. unfold pool_load32, mbind, FST_bind, fget, wpf. pose proof (li_pool n s (du_inv _ _ _ _ _ _ Hs)).
  by rewrite rd_bytes_ok by lia.
Qed.

(** The table of relocations that wait. *)
Lemma during_pending s i p : J s -> pending_wf p ->
  (pr_used p <> 0 -> b = true -> forall o, pr_place p <= pool_base + o < pr_place p + 4 -> may_store s0 o) ->
  J (s <| g_pending_relocs ::= <[i := p]> |>).
Proof.
  intros [[] Hk Hp Hr HP] Hw Hm. constructor; cbn; try done.
  - constructor; cbn; try done; [by rewrite length_insert|by apply Forall_insert].
  - intros Hb. destruct (Hp Hb). constructor; cbn; try done. intros o (q & Hq & Hu & Ho).
    apply list_elem_of_lookup in Hq as [j Hj]. apply list_lookup_insert_Some in Hj as [(-> & -> & _)|[_ Hj]]; [by apply Hm|].
    apply pk_waits0. exists q. split; [by eapply list_elem_of_lookup_2|done].
Qed.

Lemma add_pending_reloc_safe slot place ty addend name : in_pool place -> terminated name ->
  (b = true -> forall o, place <= pool_base + o < place + 4 -> may_store s0 o) ->
  safe J (add_pending_reloc slot place ty addend name) (fun _ => True).
Proof.
  intros Hin Hn Hm s Hs. unfold add_pending_reloc, mbind, FST_bind, fget, wpf.
  destruct (find_idx _ _) as [i|] eqn:E; [|done]. apply find_idx_Some in E as [(p & Hp & _) _].
  rewrite (elem_ok _ _ p) by (lia || by rewrite Nat2Z.id).
  pose proof (Forall_lookup_1 _ _ _ _ (li_pending n s (du_inv _ _ _ _ _ _ Hs)) Hp) as [_ [Hl Ht]].
  destruct (text_copy_ok (pr_symbol p) NS_NAME_LEN name s ltac:(unfold NS_NAME_LEN in *; lia) Hn) as (x & -> & Hx & Hxt & _).
  simpl. split; [|done]. apply during_pending; [done| |done]. constructor; cbn; [done|]. by rewrite Hx.
Qed.
End Session.
End Inv.
