(* ===== verification/LoaderRefs.v ===== *)
(** * Module loader: dependencies, waiting relocations and releases

    What the calls of kernel/module_loader.c that count uses do to the invariant. *)
From S2P Require Import Prelude Fault Bytes Buffers VfsDefs Task Loader LoaderImage LoaderCalls LoaderSpec LoaderInv.

(** Nothing else is known of the modules. *)
Abbreviation anything := (fun _ : list NsLoadedObject => True).

Section Refs.
Context `{LoaderEnvOk}.

(** The counters are 32 bits wide; this many uses keep them away from their end. *)
Definition FEW : Z := 2 ^ 30.

(** ** Dependencies *)

Lemma live_deps_length m : object_wf m -> length (live_deps m) = Z.to_nat (lo_dep_count m).
Proof. intros []. unfold live_deps. rewrite length_take. lia. Qed.

Lemma search_deps_ok m o (s : Loader) : object_wf m ->
  loop (fun i => d ← elem (lo_deps m) i; mret (if d =? o then Some tt else None)) 0 (Z.to_nat (lo_dep_count m)) s =
  Done s (if bool_decide (o ∈ live_deps m) then Some tt else None).
Proof.
  intros Hm. rewrite <- live_deps_length by done.
  rewrite (loop_first _ (fun _ d => if d =? o then Some tt else None) s (live_deps m)).
  - f_equal. destruct (first_some _ 0 (live_deps m)) as [[]|] eqn:E.
    + apply first_some_Some in E as (i & d & Hd & Hg). destruct (Z.eqb_spec d o) as [->|]; [|done].
      rewrite bool_decide_true; [done|]. by eapply list_elem_of_lookup_2.
    + rewrite bool_decide_false; [done|]. intros Ho. apply list_elem_of_lookup in Ho as [i Hi].
      pose proof (first_some_None _ _ _ E i o Hi) as Hg. simpl in Hg. by rewrite Z.eqb_refl in Hg.
  - intros i d Hd. unfold live_deps in Hd. apply lookup_take_Some in Hd as [Hd _].
    unfold mbind, FST_bind. by rewrite (elem_ok (lo_deps m) (0 + Z.of_nat i) d) by (lia || by rewrite Z.add_0_l, Nat2Z.id).
Qed.

Section Session.
Context (b : bool) (n : Z) (s0 : Loader) (T : list (list Z)) (P : list NsLoadedObject -> Prop) (slot : Z).
Context (Hfew : n <= FEW) (Hslot : 0 <= slot < NS_MODULE_MAX).
Notation J := (during b n s0 T P).

(** The owner of a symbol: the kernel, or a module that exports it. *)
Definition owner_ok (s : Loader) (o : Z) : Prop :=
  o = -1 \/ (0 <= o < NS_MODULE_MAX /\ exists m, g_modules s !! Z.to_nat o = Some m /\ lo_used m <> 0 /\ 0 < lo_export_count m).

(** What else is known of the modules survives a new dependency of [slot]. *)
Definition dep_closed : Prop :=
  forall ms m d k o mo, P ms -> ms !! Z.to_nat slot = Some m -> live_deps (m <| lo_deps := d |> <| lo_dep_count := k |>) = live_deps m ++ [Z.of_nat o] ->
    <[Z.to_nat slot := m <| lo_deps := d |> <| lo_dep_count := k |>]> ms !! o = Some mo -> lo_used mo <> 0 -> 0 < lo_export_count mo ->
    P (<[o := mo <| lo_ref_count := lo_ref_count mo + 1 |>]> (<[Z.to_nat slot := m <| lo_deps := d |> <| lo_dep_count := k |>]> ms)).
Context (Hclosed : dep_closed).

Lemma add_dependency_during s o : J s -> owner_ok s o -> wpf never (add_dependency slot o) (fun s' _ => J s') s.
Proof using All.
  intros HJ Ho. unfold add_dependency. destruct ((o <? 0) || (NS_MODULE_MAX <=? o)) eqn:Er; [by apply wpf_ret|]. bsimpl.
  destruct Ho as [->|(Ho & mo & Hmo & Hu & Hx)]; [lia|].
  pose proof (du_inv _ _ _ _ _ _ HJ) as HI. destruct (inv_slot n s slot HI Hslot) as [m Hm].
  destruct (inv_object n s _ m HI Hm) as (Hw & Hc & _).
  eapply wpf_step; [by apply module_ok; [lia|]|]. eapply wpf_step; [by apply search_deps_ok|]. case_bool_decide as Hin; [by apply wpf_ret|].
  destruct (Z.leb_spec NS_DEPS_MAX (lo_dep_count m)) as [Hfull|Hroom]; [by apply wpf_ret|].
  pose proof (ob_deps m Hw) as Hdl. pose proof (ob_dep_count m Hw) as Hdc. unfold NS_DEPS_MAX in *.
  assert (fits (lo_dep_count m) [o] (lo_deps m)) as Hf by (unfold fits; simpl; lia).
  eapply wpf_step; [by apply put_ok|]. set (dd := splice (lo_dep_count m) [o] (lo_deps m)).
  set (d := m <| lo_deps := dd |> <| lo_dep_count := lo_dep_count m + 1 |>).
  assert (live_deps d = live_deps m ++ [o]) as Hlive.
  { unfold live_deps, d, dd, splice. cbn. rewrite (cons_middle o), app_assoc, take_app_le.
    2: { rewrite length_app, length_take. simpl. lia. }
    rewrite take_ge; [done|]. rewrite length_app, length_take. simpl. lia. }
  assert (length dd = length (lo_deps m)) as Hddl by (by apply splice_length).
  eapply wpf_step; [by apply set_module_ok; [lia|exact Hm]|]. fold d.
  assert (object_wf d) as Hwd.
  { destruct Hw. constructor; cbn; try done; [by rewrite Hddl|unfold NS_DEPS_MAX; lia|]. rewrite Hlive. apply list.NoDup_app. split; [done|].
    split; [|apply NoDup_singleton]. intros x Hx1 Hx2. apply list_elem_of_singleton in Hx2. congruence. }
  assert (exists mo', <[Z.to_nat slot := d]> (g_modules s) !! Z.to_nat o = Some mo' /\ lo_used mo' <> 0 /\ 0 < lo_export_count mo' /\
    lo_ref_count mo' <= n + 12 /\ 0 <= lo_ref_count mo' /\ object_wf (mo' <| lo_ref_count := lo_ref_count mo' + 1 |>)) as (mo' & Hmo' & Hu' & Hx' & Hb & Hb' & Hwo).
  { assert (lo_ref_count mo <= n + 12 /\ 0 <= lo_ref_count mo) as [? ?].
    { destruct (inv_object n s _ mo HI Hmo) as (_ & [_ C2 C3 _ _] & _). pose proof (depends_sum (Z.of_nat (Z.to_nat o)) (g_modules s)).
      pose proof (li_length n s HI). unfold NS_MODULE_MAX in *. lia. }
    destruct (decide (slot = o)) as [->|Hne].
    - exists d. rewrite list_lookup_insert_eq by (by eapply lookup_lt_Some). assert (mo = m) as -> by congruence.
      repeat split; try done; apply Hwd.
    - exists mo. rewrite list_lookup_insert_ne by lia. destruct (inv_object n s _ mo HI Hmo) as (Hwo & _). repeat split; try done; apply Hwo. }
  eapply wpf_step; [by apply set_module_ok; [lia|exact Hmo']|]. apply wpf_ret.
  replace (i32 (lo_ref_count mo' + 1)) with (lo_ref_count mo' + 1).
  2: { unfold FEW in *. rewrite i32_small; [done|]. unfold is_i32. lia. }
  assert (o = Z.of_nat (Z.to_nat o)) as Eo by lia. set (o' := Z.to_nat o) in *. rewrite Eo in Hlive, Hin.
  change (upd_modules ?f (upd_modules ?g s)) with (upd_modules (fun l => f (g l)) s).
  destruct HJ as [[] Hk Hp Hr Ha]. constructor; cbn; try done.
  - constructor; cbn; try done; [by rewrite !length_insert| |].
    + apply Forall_insert; [|done]. by apply Forall_insert.
    + by apply counts_add_dependency with m.
  - change (kept s0 (upd_modules <[o' := mo' <| lo_ref_count := lo_ref_count mo' + 1 |>]> (upd_modules <[Z.to_nat slot := d]> s))).
    apply kept_set with mo'; [apply kept_set with m; [done..|by left]|done|by left].
  - intros Hbt. destruct (Hp Hbt). by constructor.
  - rewrite <- Hr. change (map lo_task_refs (g_modules (upd_modules <[o' := mo' <| lo_ref_count := lo_ref_count mo' + 1 |>]> (upd_modules <[Z.to_nat slot := d]> s))) =
      map lo_task_refs (g_modules s)). rewrite (refs_set _ _ mo') by done. by apply (refs_set _ _ m).
  - by apply Hclosed.
Qed.
End Session.

(** ** Relocations that wait *)

Lemma during_also b n s0 T (P Q : list NsLoadedObject -> Prop) s : during b n s0 T P s -> Q (g_modules s) -> during b n s0 T Q s.
Proof. intros [] HQ. by constructor. Qed.

Section Waiting.
Context (b : bool) (n : Z) (s0 : Loader) (T : list (list Z)) (Hfew : n <= FEW).
Notation J := (during b n s0 T anything).

Lemma try_resolve_pending_safe i : 0 <= i < NS_PENDING_RELOC_MAX -> safe J (try_resolve_pending i) (fun _ => True).
Proof using All.
  intros Hi s HJ. pose proof (du_inv _ _ _ _ _ _ HJ) as HI. pose proof (li_pending_length n s HI).
  destruct (lookup_lt_is_Some_2 (g_pending_relocs s) (Z.to_nat i) ltac:(lia)) as [p Hp].
  pose proof (Forall_lookup_1 _ _ _ _ (li_pending n s HI) Hp) as [Hplace [Hsl Hst]].
  unfold try_resolve_pending. eapply wpf_step; [done|]. eapply wpf_step; [by apply (elem_ok _ _ p); [lia|]|].
  destruct (Z.eqb_spec (pr_used p) 0); [by apply wpf_ret|].
  eapply wpf_step; [apply resolve_external_symbol_ok; [by eapply inv_exports|done]|].
  destruct (symbol s (pr_symbol p)) as [[a o]|] eqn:Es; [|by apply wpf_ret].
  apply symbol_owner in Es; [|by apply li_length with n].
  set (Js := during b n s0 T (eq (g_modules s))).
  assert (forall v, safe Js (pool_store32 (pr_place p) v) (fun _ => True)) as Hst32.
  { intros v. apply pool_store32_safe; [by apply Hplace|]. intros Hb x Hx. apply (pk_waits s0 s (du_pool _ _ _ _ _ _ HJ Hb)).
    exists p. split; [by eapply list_elem_of_lookup_2|done]. }
  eapply wpf_seq.
  { assert (safe Js (if (pr_rel_type p =? R_386_JMP_SLOT) || (pr_rel_type p =? R_386_GLOB_DAT) then pool_store32 (pr_place p) a
         else if pr_rel_type p =? R_386_32 then pool_store32 (pr_place p) (pr_addend p + a)
         else if pr_rel_type p =? R_386_PC32 then pool_store32 (pr_place p) (pr_addend p + a - pr_place p)
         else mret tt) (fun _ => True)) as Hs; [repeat case_if; try apply Hst32; by apply safe_ret|].
    apply Hs. by eapply during_also. }
  intros s1 [] [HJ1 _]. eapply wpf_seq with (R := fun s2 _ => J s2).
  - destruct ((0 <=? o) && (o <? NS_MODULE_MAX) && (0 <=? pr_target_slot p) && (pr_target_slot p <? NS_MODULE_MAX)) eqn:E; bsimpl.
    + eapply wpf_seq with (R := fun s2 _ => J s2); [|by intros; apply wpf_ret].
      apply (add_dependency_during b n s0 T anything); [done|lia|by intros ?|by eapply during_also|].
      unfold owner_ok. rewrite <- (du_also _ _ _ _ _ _ HJ1). exact Es.
    + apply wpf_ret. by eapply during_also.
  - intros s2 [] HJ2. eapply wpf_step; [done|]. apply wpf_ret. split; [|done]. apply during_pending; [done| |done]. by constructor.
Qed.

Lemma resolve_pending_from_safe k : forall i, 0 <= i -> i + Z.of_nat k <= NS_PENDING_RELOC_MAX ->
  safe J (resolve_pending_from i k) (fun _ => True).
Proof using All.
  induction k as [|k IH]; intros i Hi Hk; [by apply safe_ret|]. cbn [resolve_pending_from].
  eapply safe_bind; [apply try_resolve_pending_safe; lia|]. intros x _. eapply safe_bind; [apply IH; lia|]. intros; by apply safe_ret.
Qed.

Lemma try_resolve_pending_relocs_safe : safe J try_resolve_pending_relocs (fun _ => True).
Proof using All. apply resolve_pending_from_safe; unfold NS_PENDING_RELOC_MAX; lia. Qed.
End Waiting.

(** ** Dependents *)

Definition busy (ms : list NsLoadedObject) (slot : Z) : bool :=
  match first_some (fun i m => if (lo_used m =? 0) || (i =? slot) then None else if bool_decide (slot ∈ live_deps m) then Some tt else None) 0 ms with
  | Some _ => true | None => false end.

Lemma module_has_dependents_ok slot s : Z.of_nat (length (g_modules s)) = NS_MODULE_MAX -> Forall object_wf (g_modules s) ->
  module_has_dependents slot s = Done s (busy (g_modules s) slot).
Proof.
  intros Hl Hw. unfold module_has_dependents, busy. replace (Z.to_nat NS_MODULE_MAX) with (length (g_modules s)) by lia.
  eapply (eq_trans (y := match Done s _ with Done s' a => _ | Fault s' => _ end)); [|reflexivity].
  unfold mbind at 1, FST_bind at 1. erewrite (loop_first _ _ s (g_modules s)); [reflexivity|]. intros i m Hm. cbv beta.
  unfold mbind at 1, FST_bind at 1. rewrite (module_ok (0 + Z.of_nat i) m) by (lia || by rewrite Z.add_0_l, Nat2Z.id).
  destruct ((lo_used m =? 0) || (0 + Z.of_nat i =? slot)); [done|]. rewrite search_deps_ok; [done|by apply (Forall_lookup_1 _ _ _ _ Hw Hm)].
Qed.

Lemma busy_false ms slot : (forall m, m ∈ ms -> slot ∉ live_deps m) -> busy ms slot = false.
Proof.
  intros Hno. unfold busy. destruct (first_some _ _ _) as [u|] eqn:E; [|done]. apply first_some_Some in E as (i & m & Hm & Hg).
  exfalso. destruct (_ || _); [done|]. rewrite bool_decide_false in Hg; [done|]. apply Hno. by eapply list_elem_of_lookup_2.
Qed.

Lemma busy_true ms slot i m : ms !! i = Some m -> lo_used m <> 0 -> Z.of_nat i <> slot -> slot ∈ live_deps m -> busy ms slot = true.
Proof.
  intros Hm Hu Hne Hin. unfold busy. destruct (first_some _ _ _) as [u|] eqn:E; [done|].
  pose proof (first_some_None _ _ _ E i m Hm) as Hg. cbv beta in Hg. rewrite Z.add_0_l in Hg. destruct (Z.eqb_spec (lo_used m) 0), (Z.eqb_spec (Z.of_nat i) slot); try done.
  simpl in Hg. by rewrite bool_decide_true in Hg.
Qed.

(** ** Releases *)

(** The modules with one use less counted for those in [off]. *)
Definition uncount (off : list Z) (j : nat) (m : NsLoadedObject) : NsLoadedObject :=
  if bool_decide (Z.of_nat j ∈ off) then m <| lo_ref_count := lo_ref_count m - 1 |> else m.
Definition uncounted (off : list Z) (ms : list NsLoadedObject) : list NsLoadedObject := imap (uncount off) ms.

Lemma uncounted_lookup off ms j : uncounted off ms !! j = uncount off j <$> ms !! j.
Proof. apply list_lookup_imap. Qed.

Lemma uncount_fields off j m : live_deps (uncount off j m) = live_deps m /\ lo_used (uncount off j m) = lo_used m /\
  lo_task_refs (uncount off j m) = lo_task_refs m /\ lo_kernel_refs (uncount off j m) = lo_kernel_refs m /\
  lo_handle (uncount off j m) = lo_handle m /\ same_module m (uncount off j m) /\
  lo_ref_count (uncount off j m) = lo_ref_count m - (if bool_decide (Z.of_nat j ∈ off) then 1 else 0).
Proof. unfold uncount. case_bool_decide; repeat split; cbn; lia. Qed.

Lemma uncount_wf off j m : object_wf m -> object_wf (uncount off j m).
Proof. intros []. unfold uncount. case_bool_decide; by constructor. Qed.

Lemma uncounted_wf off ms : Forall object_wf ms -> Forall object_wf (uncounted off ms).
Proof.
  intros Hms. apply Forall_lookup_2. intros j m Hj. rewrite uncounted_lookup in Hj. apply fmap_Some in Hj as (m0 & Hm0 & ->).
  apply uncount_wf. by apply (Forall_lookup_1 _ _ _ _ Hms Hm0).
Qed.

Lemma uncounted_nil ms : uncounted [] ms = ms.
Proof.
  apply list_eq. intros j. rewrite uncounted_lookup. destruct (ms !! j) as [m|]; [|done]. simpl. unfold uncount.
  by rewrite bool_decide_false by apply not_elem_of_nil.
Qed.

Lemma uncounted_snoc off d ms m : ms !! Z.to_nat d = Some m -> 0 <= d -> d ∉ off ->
  <[Z.to_nat d := m <| lo_ref_count := lo_ref_count m - 1 |>]> (uncounted off ms) = uncounted (off ++ [d]) ms.
Proof.
  intros Hm Hd Hno. apply list_eq. intros j. rewrite uncounted_lookup. destruct (decide (Z.to_nat d = j)) as [<-|Hne].
  - rewrite list_lookup_insert_eq; [|unfold uncounted; rewrite length_imap; by eapply lookup_lt_Some]. rewrite Hm. simpl. f_equal. unfold uncount.
    rewrite bool_decide_true; [done|]. apply elem_of_app. right. rewrite Z2Nat.id by lia. constructor.
  - rewrite list_lookup_insert_ne, uncounted_lookup by done. destruct (ms !! j) as [mj|]; [|done]. simpl. f_equal. unfold uncount.
    erewrite bool_decide_ext; [done|]. rewrite elem_of_app, list_elem_of_singleton. split; [by left|]. intros [?|?]; [done|lia].
Qed.

Lemma uncounted_beyond off d ms : d < 0 \/ Z.of_nat (length ms) <= d -> uncounted (off ++ [d]) ms = uncounted off ms.
Proof.
  intros Hd. apply list_eq. intros j. rewrite !uncounted_lookup. destruct (ms !! j) as [m|] eqn:Hj; [|done].
  apply lookup_lt_Some in Hj. simpl. f_equal. unfold uncount.
  erewrite bool_decide_ext; [done|]. rewrite elem_of_app, list_elem_of_singleton. split; [|by left]. intros [?|?]; [done|lia].
Qed.

Lemma uncounted_counts off n ms : NoDup off -> all_counts [] n ms -> (forall j m, ms !! j = Some m -> Z.of_nat j ∈ off -> 0 < lo_ref_count m) ->
  all_counts off n (uncounted off ms).
Proof.
  intros Hnd Ha Hpos j m Hj. rewrite uncounted_lookup in Hj. apply fmap_Some in Hj as (m0 & Hm0 & ->).
  assert (forall k, zsum (depends k) (uncounted off ms) = zsum (depends k) ms) as Es.
  { intros k. unfold uncounted. clear. revert off. assert (forall f, (forall j m, live_deps (f j m) = live_deps m) -> forall l : list NsLoadedObject,
      zsum (depends k) (imap f l) = zsum (depends k) l) as Hg; [|intros off; apply Hg; intros; apply uncount_fields].
    intros f Hf l. revert f Hf. induction l as [|x l IH]; intros f Hf; [done|]. simpl. rewrite IH by (intros; apply Hf).
    f_equal. unfold depends. by rewrite Hf. }
  destruct (uncount_fields off j m0) as (E1 & E2 & E3 & E4 & E5 & _ & E7). destruct (Ha j m0 Hm0) as [C1 C2 C3 C4 C5].
  rewrite (bool_decide_false (_ ∈ [])) in C1 by apply not_elem_of_nil. specialize (Hpos j m0 Hm0).
  constructor; unfold uses in *; rewrite ?E2, ?E3, ?E4, ?E5, ?E7, ?Es; case_bool_decide; try done; try lia.
  all: try (intros Hu; specialize (C4 Hu); specialize (Hpos ltac:(done)); lia). specialize (Hpos ltac:(done)). lia.
Qed.

(** A module whose count is down to zero: nothing uses it. *)
Lemma unused_facts n s i m : loader_inv n s -> g_modules s !! i = Some m -> lo_ref_count m = 0 ->
  (forall x, x ∈ g_modules s -> Z.of_nat i ∉ live_deps x) /\ lo_task_refs m = zero_bytes MAX_TASKS /\ lo_kernel_refs m = 0.
Proof.
  intros HI Hm Hr. destruct (inv_object n s i m HI Hm) as (Hw & [C1 _ _ _ _] & _).
  rewrite bool_decide_false in C1 by apply not_elem_of_nil. destruct (uses_nonneg (g_modules s) (Z.of_nat i) m Hw) as (U1 & U2 & U3).
  pose proof (depends_sum (Z.of_nat i) (g_modules s)) as [U4 _]. unfold uses in *. split; [|split; [|lia]].
  - intros x Hx. apply no_dependents with (g_modules s); [lia|done].
  - rewrite (zsum_zero _ (ob_refs_pos m Hw)) by lia. unfold zero_bytes. f_equal. pose proof (ob_refs m Hw). lia.
Qed.

(** A release that finds the module in use does nothing. *)
Lemma release_used fuel d t md : 0 <= d < NS_MODULE_MAX -> Z.of_nat (length (g_modules t)) = NS_MODULE_MAX -> Forall object_wf (g_modules t) ->
  g_modules t !! Z.to_nat d = Some md -> lo_used md <> 0 -> 0 < lo_ref_count md \/ busy (g_modules t) d = true ->
  exists r, release_module_slot (S fuel) d false t = Done t r.
Proof.
  intros Hd Hl Hw Hmd Hu Hr. cbn [release_module_slot].
  destruct (Z.ltb_spec d 0), (Z.leb_spec NS_MODULE_MAX d); try lia. cbn [orb].
  unfold mbind at 1, FST_bind at 1. rewrite (module_ok d md) by (done || lia).
  destruct (Z.eqb_spec (lo_used md) 0); [done|]. destruct (Z.ltb_spec 0 (lo_ref_count md)); [by eexists|].
  unfold mbind at 1, FST_bind at 1. rewrite module_has_dependents_ok by done. destruct Hr as [?| ->]; [lia|]. by eexists.
Qed.

Definition with_modules (ms : list NsLoadedObject) (s : Loader) : Loader := upd_modules (fun _ => ms) s.

(** The loop of a release over the dependencies of the module. *)
Lemma release_deps_ok n s slot m fuel : loader_inv n s -> 0 <= slot < NS_MODULE_MAX -> g_modules s !! Z.to_nat slot = Some m -> lo_used m <> 0 ->
  lo_ref_count m = 0 -> forall k i, 0 <= i -> i + Z.of_nat k = lo_dep_count m ->
  each (fun i =>
    m ← module slot;
    if lo_dep_count m <=? i then mret tt
    else
      dep ← elem (lo_deps m) i;
      if (dep <? 0) || (NS_MODULE_MAX <=? dep) then mret tt
      else
        d ← module dep;
        if negb (lo_used d =? 0) && (0 <? lo_ref_count d) then
          set_module dep (fun d => d <| lo_ref_count := lo_ref_count d - 1 |>) ≫= fun _ =>
          release_module_slot (S fuel) dep false ≫= fun _ => mret tt
        else mret tt) i k (with_modules (uncounted (take (Z.to_nat i) (live_deps m)) (g_modules s)) s) =
  Done (with_modules (uncounted (live_deps m) (g_modules s)) s) tt.
Proof.
  intros HI Hslot Hm Hu Hr. destruct (inv_object n s _ m HI Hm) as (Hw & _). destruct (unused_facts n s _ m HI Hm Hr) as (Hno & _).
  pose proof (li_length n s HI) as Hlen. pose proof (li_objects n s HI) as Hobj. rewrite Z2Nat.id in Hno by lia.
  induction k as [|k IH]; intros i Hi Hk.
  - cbn [each]. rewrite take_ge; [done|]. rewrite live_deps_length by done. lia.
  - cbn [each]. set (off := take (Z.to_nat i) (live_deps m)). set (t := with_modules (uncounted off (g_modules s)) s).
    assert (forall x, x ∈ off -> x ∈ live_deps m) as Hoff by (intros x Hx; by eapply elem_of_take_inv || eapply subseteq_take; eauto).
    assert (g_modules t !! Z.to_nat slot = Some m) as Hmt.
    { unfold t. cbn. rewrite uncounted_lookup, Hm. simpl. unfold uncount. rewrite bool_decide_false; [done|].
      rewrite Z2Nat.id by lia. intros Hin. apply (Hno m); [by eapply list_elem_of_lookup_2|by apply Hoff]. }
    destruct (lookup_lt_is_Some_2 (live_deps m) (Z.to_nat i)) as [d Hd]; [rewrite live_deps_length by done; lia|].
    assert (lo_deps m !! Z.to_nat i = Some d) as Hd' by (unfold live_deps in Hd; by apply lookup_take_Some in Hd as [? _]).
    assert (d ∉ off) as Hdoff.
    { intros Hin. apply list_elem_of_lookup in Hin as [j Hj]. apply lookup_take_Some in Hj as [Hj Hlt].
      pose proof (NoDup_lookup _ _ _ _ (ob_nodup m Hw) Hj Hd). lia. }
    assert (take (Z.to_nat (i + 1)) (live_deps m) = off ++ [d]) as Etake.
    { replace (Z.to_nat (i + 1)) with (S (Z.to_nat i)) by lia. by apply take_S_r. }
    specialize (IH (i + 1) ltac:(lia) ltac:(lia)). rewrite Etake in IH.
    unfold mbind at 1, FST_bind at 1. unfold mbind at 1, FST_bind at 1. rewrite (module_ok slot m) by (done || lia).
    destruct (Z.leb_spec (lo_dep_count m) i); [lia|].
    unfold mbind at 1, FST_bind at 1. rewrite (elem_ok (lo_deps m) i d) by (done || lia).
    destruct ((d <? 0) || (NS_MODULE_MAX <=? d)) eqn:Erange.
    { rewrite uncounted_beyond in IH; [exact IH|]. apply orb_true_iff in Erange as [E|E]; bsimpl; lia. }
    bsimpl. destruct (inv_slot n s d HI ltac:(lia)) as [md Hmd]. destruct (inv_object n s _ md HI Hmd) as (Hwd & [D1 _ _ D4 _] & _).
    assert (d ∈ live_deps m) as Hdin by (by eapply list_elem_of_lookup_2).
    assert (0 < lo_ref_count md /\ lo_used md <> 0) as [Hpos Hud].
    { rewrite bool_decide_false in D1 by apply not_elem_of_nil. destruct (uses_nonneg (g_modules s) (Z.of_nat (Z.to_nat d)) md Hwd) as (U1 & _).
      pose proof (zsum_in (depends d) (g_modules s) m ltac:(intros; apply depends_range) ltac:(by eapply list_elem_of_lookup_2)) as Hz.
      unfold depends in Hz at 1. rewrite bool_decide_true in Hz by done. rewrite Z2Nat.id in * by lia.
      split; [lia|]. intros E. specialize (D4 E). lia. }
    assert (g_modules t !! Z.to_nat d = Some md) as Hmdt.
    { unfold t. cbn. rewrite uncounted_lookup, Hmd. simpl. unfold uncount. rewrite bool_decide_false; [done|]. by rewrite Z2Nat.id by lia. }
    unfold mbind at 1, FST_bind at 1. rewrite (module_ok d md) by (done || lia).
    destruct (Z.eqb_spec (lo_used md) 0); [done|]. destruct (Z.ltb_spec 0 (lo_ref_count md)); [|lia]. cbn [negb andb].
    unfold mbind at 1, FST_bind at 1. rewrite (set_module_ok d _ md) by (done || lia).
    set (md' := md <| lo_ref_count := lo_ref_count md - 1 |>).
    assert (upd_modules <[Z.to_nat d := md']> t = with_modules (uncounted (off ++ [d]) (g_modules s)) s) as Et.
    { rewrite <- (uncounted_snoc off d _ md) by (done || lia). done. }
    rewrite Et. set (t' := with_modules (uncounted (off ++ [d]) (g_modules s)) s) in *.
    destruct (release_used fuel d t' md') as [r Hrel].
    + lia.
    + unfold t'. cbn. unfold uncounted. by rewrite length_imap.
    + by apply uncounted_wf.
    + rewrite <- Et. cbn. apply list_lookup_insert_eq. by eapply lookup_lt_Some.
    + done.
    + right. apply busy_true with (Z.to_nat slot) (uncount (off ++ [d]) (Z.to_nat slot) m).
      * unfold t'. cbn. by rewrite uncounted_lookup, Hm.
      * by rewrite (proj1 (proj2 (uncount_fields _ _ _))).
      * intros E. rewrite Z2Nat.id in E by lia. subst d. apply (Hno m); [by eapply list_elem_of_lookup_2|done].
      * by rewrite (proj1 (uncount_fields _ _ _)).
    + unfold mbind at 1, FST_bind at 1. rewrite Hrel. exact IH.
Qed.

(** The code of a module runs: the pool is no longer known. *)
Lemma enter_module_safe n s0 T P a : safe (during false n s0 T P) (enter_module a) (fun _ => True).
Proof.
  intros s [[] Hk Hp Hr HP]. unfold enter_module, mbind, FST_bind, fget, wpf.
  pose proof (run_entry_length a (g_module_pool s)) as Hl. destruct (run_entry a (g_module_pool s)) as [p rc]. simpl in *.
  split; [|done]. constructor; cbn; try done. constructor; cbn; try done. by rewrite Hl.
Qed.

(** The relocations of the module are dropped. *)
Definition drop_pending (slot : Z) (p : NsPendingReloc) : NsPendingReloc :=
  if negb (pr_used p =? 0) && (pr_target_slot p =? slot) then p <| pr_used := 0 |> else p.

Lemma drop_pending_fields slot p : pr_place (drop_pending slot p) = pr_place p /\ pr_symbol (drop_pending slot p) = pr_symbol p /\
  (pr_used (drop_pending slot p) <> 0 -> pr_used p <> 0).
Proof. unfold drop_pending. by case_if. Qed.

(** A module is taken out. *)
Lemma during_clear b n s0 T s i m off ms : during b n s0 T anything s -> ms = uncounted off (g_modules s) -> g_modules s !! Z.to_nat i = Some m ->
  0 <= i -> lo_ref_count m = 0 -> (forall d, d ∈ off -> d ∈ live_deps m) -> all_counts off n ms ->
  during b (n + 1) s0 T anything (upd_modules <[Z.to_nat i := zero_object]> (with_modules ms s <| g_pending_relocs ::= map (drop_pending i) |>)).
Proof.
  intros [HI Hk Hp Hr Ha] -> Hm Hi Hz Hoff Hc. destruct (unused_facts n s _ m HI Hm Hz) as (Hno & Ht & _). destruct HI.
  constructor; cbn; try done.
  - constructor; cbn; try done; [lia|by rewrite length_insert; unfold uncounted; rewrite length_imap| | |by rewrite length_map|].
    + apply Forall_insert; [by apply uncounted_wf|]. constructor; cbn; try done; try lia.
      * apply NoDup_nil_2.
      * by apply Forall_replicate.
      * split; [done|]. unfold terminated. constructor.
      * split; [done|]. split; [done|]. apply Forall_replicate. split; [done|]. constructor.
    + apply counts_clear with (uncount off (Z.to_nat i) m) off; [done| |done| |].
      * by rewrite uncounted_lookup, Hm.
      * intros d Hd. rewrite (proj1 (uncount_fields _ _ _)). by apply Hoff.
      * intros x Hx. apply list_elem_of_lookup in Hx as [j Hj]. rewrite uncounted_lookup in Hj. apply fmap_Some in Hj as (x0 & Hx0 & ->).
        rewrite (proj1 (uncount_fields _ _ _)). apply Hno. by eapply list_elem_of_lookup_2.
    + apply Forall_map. apply Forall_impl with pending_wf; [|done]. intros p [P1 P2]. destruct (drop_pending_fields i p) as (E1 & E2 & E3).
      constructor; cbn; rewrite ?E1, ?E2; [|done]. intros Hu. apply P1, E3, Hu.
  - intros j m0 Hj Hu. destruct (Hk j m0 Hj Hu) as (mj & Hmj & Hs). cbn. destruct (decide (Z.to_nat i = j)) as [<-|Hne].
    + exists zero_object. rewrite list_lookup_insert_eq; [by split; [|right]|]. unfold uncounted. rewrite length_imap. by eapply lookup_lt_Some.
    + exists (uncount off j mj). rewrite list_lookup_insert_ne, uncounted_lookup, Hmj by done. split; [done|].
      destruct (uncount_fields off j mj) as (_ & E2 & _ & _ & _ & E6 & _). destruct Hs as [Hs|Hs]; [left|right; by rewrite E2].
      unfold same_module in *. destruct E6 as (-> & -> & -> & -> & -> & -> & -> & -> & ->). done.
  - intros Hb. destruct (Hp Hb). constructor; cbn; try done. intros o (q & Hq & Hu & Ho). apply pk_waits.
    apply list_elem_of_fmap in Hq as (p & -> & Hin). destruct (drop_pending_fields i p) as (E1 & E2 & E3). exists p.
    split; [done|]. rewrite E1 in Ho. split; [by apply E3|done].
  - rewrite <- Hr. apply list_eq. intros j. rewrite !list_lookup_fmap. destruct (decide (Z.to_nat i = j)) as [<-|Hne].
    + rewrite list_lookup_insert_eq, Hm by (unfold uncounted; rewrite length_imap; by eapply lookup_lt_Some). simpl. by rewrite Ht.
    + rewrite list_lookup_insert_ne, uncounted_lookup by done. destruct (g_modules s !! j) as [mj|]; [|done]. simpl.
      by rewrite (proj1 (proj2 (proj2 (uncount_fields _ _ _)))).
Qed.

(** A release leaves a module with uses alone and takes one without uses out; it does not fail. *)
Lemma release_module_slot_ok b n s0 T s slot m fini : during b n s0 T anything s -> 0 <= slot < NS_MODULE_MAX ->
  g_modules s !! Z.to_nat slot = Some m -> lo_used m <> 0 -> (fini = true -> b = false) ->
  wpf never (release_module_slot RELEASE_DEPTH slot fini) (fun s' r => during b (n + 1) s0 T anything s' /\ r = true) s.
Proof.
  intros HJ Hslot Hm Hu Hfini. pose proof (du_inv _ _ _ _ _ _ HJ) as HI. unfold RELEASE_DEPTH. cbn [release_module_slot].
  destruct (Z.ltb_spec slot 0), (Z.leb_spec NS_MODULE_MAX slot); try lia. cbn [orb].
  eapply wpf_step; [by apply module_ok; [lia|]|]. destruct (Z.eqb_spec (lo_used m) 0); [done|].
  destruct (Z.ltb_spec 0 (lo_ref_count m)) as [Hpos|Hz0].
  { apply wpf_ret. split; [|done]. destruct HJ. constructor; try done. by apply inv_mono with n; [|lia]. }
  assert (lo_ref_count m = 0) as Hz by (destruct (inv_object n s _ m HI Hm) as (_ & [_ _ C3 _ _] & _); lia).
  destruct (unused_facts n s _ m HI Hm Hz) as (Hno & _). rewrite Z2Nat.id in Hno by lia.
  eapply wpf_step; [by apply module_has_dependents_ok; [apply li_length with n|apply li_objects with n]|]. rewrite busy_false by done.
  eapply wpf_seq with (R := fun t _ => during b n s0 T (eq (g_modules s)) t).
  { assert (safe (during b n s0 T (eq (g_modules s))) (if fini && negb (lo_fini_addr m =? 0) then enter_module (lo_fini_addr m) ≫= fun _ => mret tt else mret tt)
      (fun _ => True)) as Hs.
    { case_if; [|by apply safe_ret]. bsimpl. rewrite (Hfini ltac:(done)). eapply safe_bind; [apply enter_module_safe|]. intros; by apply safe_ret. }
    eapply wpf_mono; [apply Hs; by eapply during_also|]. by intros t a [? _]. }
  intros t [] Ht. pose proof (du_also _ _ _ _ _ _ Ht) as Et. pose proof (du_inv _ _ _ _ _ _ Ht) as HIt. rewrite Et in Hm.
  destruct (inv_object n t _ m HIt Hm) as (Hw & _).
  eapply wpf_step.
  { pose proof (release_deps_ok n t slot m 0 HIt Hslot Hm Hu Hz (Z.to_nat (lo_dep_count m)) 0 ltac:(lia)) as Hd.
    simpl take in Hd. rewrite uncounted_nil in Hd. replace (with_modules (g_modules t) t) with t in Hd by (by destruct t).
    apply Hd. pose proof (ob_dep_count m Hw). lia. }
  eapply wpf_step; [done|]. eapply wpf_step.
  { apply set_module_ok; [lia|]. cbn. by rewrite uncounted_lookup, Hm. }
  apply wpf_ret. split; [|done]. change (fun p => if negb (pr_used p =? 0) && (pr_target_slot p =? slot) then p <| pr_used := 0 |> else p) with (drop_pending slot).
  apply during_clear with m (live_deps m); try done; [by eapply during_also|].
  apply uncounted_counts; [apply (ob_nodup m Hw)|by apply li_counts|].
  intros j mj Hmj Hin. destruct (inv_object n t _ mj HIt Hmj) as (Hwj & [C1 _ _ _ _] & _).
  rewrite bool_decide_false in C1 by apply not_elem_of_nil. destruct (uses_nonneg (g_modules t) (Z.of_nat j) mj Hwj) as (U1 & _).
  pose proof (zsum_in (depends (Z.of_nat j)) (g_modules t) m ltac:(intros; apply depends_range) ltac:(by eapply list_elem_of_lookup_2)) as Hd.
  unfold depends in Hd at 1. rewrite bool_decide_true in Hd by done. lia.
Qed.
End Refs.
