(* ===== verification/LoaderLoad.v ===== *)
(** * Module loader: loading an image

    Images whose offsets and sizes do not wrap ([image_ok]) are loaded without an access
    outside of the image and of the pool; the loader's checks do the rest. *)
From Stdlib Require Import Ascii String.
From S2P Require Import Prelude Fault Bytes Buffers VfsDefs Task Loader LoaderImage LoaderCalls LoaderSpec LoaderInv LoaderRefs.

(** ** Images *)

Definition f16 (img : list Z) (o : Z) : Z := le_val (slice o 2 img).
Definition f32 (img : list Z) (o : Z) : Z := le_val (slice o 4 img).
Definition len (img : list Z) : Z := Z.of_nat (List.length img).

Definition section_at (img : list Z) (shoff i : Z) : Elf32_Shdr :=
  let o := shoff + sizeof_Shdr * i in
  {| sh_type := f32 img (o + 4); sh_flags := f32 img (o + 8); sh_offset := f32 img (o + 16); sh_size := f32 img (o + 20);
     sh_link := f32 img (o + 24); sh_info := f32 img (o + 28); sh_addralign := f32 img (o + 32); sh_entsize := f32 img (o + 36) |}.
Definition sections_of (img : list Z) (shoff shnum : Z) : list Elf32_Shdr := map (section_at img shoff) (seqZ 0 shnum).
Definition symbol_at (img : list Z) (o : Z) : Elf32_Sym :=
  {| st_name := f32 img o; st_value := f32 img (o + 4); st_info := img.[o + 12]; st_shndx := f16 img (o + 14) |}.

(** The header the loader accepts. *)
Definition accepts (img : list Z) : option (Z * Z) :=
  let shoff := f32 img 32 in
  let shnum := f16 img 48 in
  if len img <? sizeof_Ehdr then None
  else if negb ((img.[0] =? 0x7F) && (img.[1] =? 69) && (img.[2] =? 76) && (img.[3] =? 70) && (img.[4] =? 1)) then None
  else if negb (f16 img 18 =? ELF_EM_386) then None
  else if negb (f16 img 16 =? ELF_ET_REL) && negb (f16 img 16 =? ELF_ET_DYN) then None
  else if negb (f16 img 46 =? sizeof_Shdr) || (shnum =? 0) || (NS_MODULE_MAX_SECTIONS <? shnum) then None
  else if len img <? shoff +u shnum *u sizeof_Shdr then None
  else Some (shoff, shnum).

Definition inside (img : list Z) (sec : Elf32_Shdr) : bool := sh_offset sec + sh_size sec <=? len img.

(** Nothing wraps, and a table of names ends with a terminator. *)
Definition section_ok (img : list Z) (sec : Elf32_Shdr) : bool :=
  (sh_addralign sec <=? 2 ^ 31) &&
  ((sh_type sec =? SHT_NOBITS) || (sh_offset sec + sh_size sec <? 2 ^ 32)) &&
  (negb ((sh_type sec =? SHT_STRTAB) && (0 <? sh_size sec) && inside img sec) || (img.[sh_offset sec + sh_size sec - 1] =? 0)).

Definition relocs_ok (img : list Z) (sec : Elf32_Shdr) : bool :=
  if (((sh_type sec =? SHT_REL) && (sh_entsize sec =? sizeof_Rel)) || ((sh_type sec =? SHT_RELA) && (sh_entsize sec =? sizeof_Rela))) && inside img sec
  then forallb (fun r => f32 img (sh_offset sec + sh_entsize sec * r) + 4 <? 2 ^ 32) (seqZ 0 (sh_size sec / sh_entsize sec))
  else true.

(** The word a symbol with the name of the magic number stands for is in its section. *)
Definition abi_name : list Z := cstr "ns_module_abi".
Definition abi_symbol_ok (img : list Z) (secs : list Elf32_Shdr) (str : Elf32_Shdr) (sym : Elf32_Sym) : bool :=
  if (st_name sym <? sh_size str) && bool_decide (chars (at_ img (sh_offset str + st_name sym)) = chars abi_name) && negb (st_shndx sym =? SHN_UNDEF)
  then match secs !! Z.to_nat (st_shndx sym) with Some t => st_value sym + 4 <=? sh_size t | None => true end
  else true.
Definition abi_ok (img : list Z) (secs : list Elf32_Shdr) (sec : Elf32_Shdr) : bool :=
  if ((sh_type sec =? SHT_SYMTAB) || (sh_type sec =? SHT_DYNSYM)) && inside img sec
  then match secs !! Z.to_nat (sh_link sec) with
       | Some str => forallb (fun k => abi_symbol_ok img secs str (symbol_at img (sh_offset sec + sizeof_Sym * k))) (seqZ 0 (sh_size sec / sizeof_Sym))
       | None => true
       end
  else true.

Definition image_ok (img : list Z) : bool :=
  match accepts img with
  | None => true
  | Some (shoff, shnum) =>
      let secs := sections_of img shoff shnum in
      (shoff + sizeof_Shdr * shnum <? 2 ^ 32) && forallb (section_ok img) secs && forallb (relocs_ok img) secs && forallb (abi_ok img secs) secs
  end.

(** ** Reading an image *)

Section Reading.
Context {S : Type} (img rest : list Z) (Himg : Forall is_byte img).
Implicit Types s : S.

Lemma slice_image o k : 0 <= o -> 0 <= k -> o + k <= len img -> slice o k (img ++ rest) = slice o k img.
Proof.
  unfold len. intros. unfold slice. rewrite drop_app_le by lia. rewrite take_app_le; [done|]. rewrite length_drop. lia.
Qed.

Lemma rd_bytes_image o k s : 0 <= o -> 0 <= k -> o + k <= len img -> rd_bytes (img ++ rest) o k s = Done s (slice o k img).
Proof. unfold len. intros. rewrite rd_bytes_ok by (rewrite ?length_app; lia). by rewrite slice_image. Qed.

Lemma slice_bytes o k : Forall is_byte (slice o k img).
Proof. by apply Forall_slice. Qed.

Lemma field32_image o s : 0 <= o -> o + 4 <= len img -> field32 (img ++ rest) o s = Done s (f32 img o).
Proof. intros. unfold field32, mbind, FST_bind. by rewrite rd_bytes_image by lia. Qed.
Lemma field16_image o s : 0 <= o -> o + 2 <= len img -> field16 (img ++ rest) o s = Done s (f16 img o).
Proof. intros. unfold field16, mbind, FST_bind. by rewrite rd_bytes_image by lia. Qed.

Lemma rd_image o s : 0 <= o -> o + 1 <= len img -> rd (img ++ rest) o s = Done s img.[o].
Proof.
  unfold len. intros. unfold rd. rewrite length_app. destruct (Z.leb_spec 0 o), (Z.ltb_spec o (Z.of_nat (List.length img + List.length rest))); try lia.
  simpl. f_equal. rewrite !list_lookup_total_alt. f_equal. apply lookup_app_l. lia.
Qed.

Lemma f32_range o : 0 <= f32 img o < 2 ^ 32.
Proof.
  pose proof (le_val_range _ (slice_bytes o 4)) as Hr. unfold f32. assert (List.length (slice o 4 img) <= 4)%nat as Hl by (unfold slice; rewrite length_take; lia).
  split; [lia|]. eapply Z.lt_le_trans; [apply Hr|]. change (2 ^ 32) with (256 ^ 4). apply Z.pow_le_mono_r; lia.
Qed.
Lemma f16_range o : 0 <= f16 img o < 2 ^ 16.
Proof.
  pose proof (le_val_range _ (slice_bytes o 2)) as Hr. unfold f16. assert (List.length (slice o 2 img) <= 2)%nat as Hl by (unfold slice; rewrite length_take; lia).
  split; [lia|]. eapply Z.lt_le_trans; [apply Hr|]. change (2 ^ 16) with (256 ^ 2). apply Z.pow_le_mono_r; lia.
Qed.

Lemma read_shdr_image o s : 0 <= o -> o + 40 <= len img ->
  read_shdr (img ++ rest) o s = Done s {| sh_type := f32 img (o + 4); sh_flags := f32 img (o + 8); sh_offset := f32 img (o + 16); sh_size := f32 img (o + 20);
     sh_link := f32 img (o + 24); sh_info := f32 img (o + 28); sh_addralign := f32 img (o + 32); sh_entsize := f32 img (o + 36) |}.
Proof.
  intros. unfold read_shdr, mbind, FST_bind. by rewrite !field32_image by lia.
Qed.

Lemma read_sym_image o s : 0 <= o -> o + 16 <= len img -> read_sym (img ++ rest) o s = Done s (symbol_at img o).
Proof.
  intros. unfold read_sym, mbind, FST_bind. rewrite !field32_image by lia. rewrite rd_image by lia. by rewrite field16_image by lia.
Qed.

Lemma read_sections_image shoff n : forall i s, 0 <= shoff -> 0 <= i -> shoff + sizeof_Shdr * (i + Z.of_nat n) <= len img -> len img < 2 ^ 32 ->
  read_sections (img ++ rest) shoff i n s = Done s (map (section_at img shoff) (seqZ i (Z.of_nat n))).
Proof.
  induction n as [|n IH]; intros i s Hs Hi Hl Hb; [done|]. unfold sizeof_Shdr in *. cbn [read_sections]. unfold read_section, sizeof_Shdr.
  rewrite seqZ_cons by lia. cbn [map]. unfold mbind at 1, FST_bind at 1. rewrite u32_small by lia.
  rewrite read_shdr_image by lia. unfold mbind at 1, FST_bind at 1. rewrite IH by lia.
  replace (Z.succ i) with (i + 1) by lia. replace (Z.pred (Z.of_nat (Datatypes.S n))) with (Z.of_nat n) by lia. done.
Qed.

End Reading.

Lemma elf_header_image img rest (t : Loader) : elf_header (img ++ rest) (len img) t = Done t (accepts img).
Proof.
  unfold elf_header, accepts, sizeof_Ehdr. destruct (Z.ltb_spec (len img) 52) as [|Hl]; [done|].
  unfold mbind, FST_bind. rewrite !rd_image by lia. case_if; [done|]. rewrite field16_image by lia. case_if; [done|]. rewrite field16_image by lia. case_if; [done|].
  rewrite !field16_image by lia. case_if; [done|]. rewrite field32_image by lia. by case_if.
Qed.

(** ** Alignment *)

Lemma land_not x m : 0 <= m -> x - m <= Z.land x (Z.lnot m) <= x \/ x < 0.
Proof.
  intros Hm. destruct (Z.ltb_spec x 0); [by right|left]. rewrite <- Z.ldiff_land.
  assert (Z.ldiff (Z.land x m) m = 0) as E1.
  { apply Z.bits_inj'. intros k Hk. rewrite Z.ldiff_spec, Z.land_spec, Z.bits_0. by destruct (Z.testbit x k), (Z.testbit m k). }
  assert (Z.ldiff (Z.land x m) x = 0) as E2.
  { apply Z.bits_inj'. intros k Hk. rewrite Z.ldiff_spec, Z.land_spec, Z.bits_0. by destruct (Z.testbit x k), (Z.testbit m k). }
  assert (Z.ldiff x (Z.land x m) = Z.ldiff x m) as E3.
  { apply Z.bits_inj'. intros k Hk. rewrite !Z.ldiff_spec, Z.land_spec. by destruct (Z.testbit x k), (Z.testbit m k). }
  apply Z.ldiff_le in E1; [|done]. apply Z.sub_nocarry_ldiff in E2. lia.
Qed.

Lemma land_fits x y : 0 <= x < 2 ^ 32 -> Z.land x (u32 y) = Z.land x y.
Proof.
  intros Hx. unfold u32. rewrite <- Z.land_ones by lia. rewrite (Z.land_comm y), Z.land_assoc, Z.land_ones by lia.
  by rewrite Z.mod_small by lia.
Qed.

Lemma align_up_range v a : 0 <= v <= NS_MODULE_POOL_SIZE -> 0 <= a <= 2 ^ 31 -> v <= align_up_u32 v a < 2 ^ 32.
Proof.
  unfold NS_MODULE_POOL_SIZE. intros Hv Ha. unfold align_up_u32. destruct (Z.eqb_spec a 0), (Z.eqb_spec a 1); simpl; try lia.
  rewrite !(u32_small (_ - 1)), (u32_small (v + a)) by (rewrite ?u32_small; lia). rewrite land_fits by lia.
  destruct (land_not (v + a - 1) (a - 1)) as [?|?]; lia.
Qed.

(** ** Tables of exports *)

(** A name is entered, or its address changed; the other entries stay. *)
Lemma enter_export_ok cap tbl count name a s : table_wf cap tbl count -> count < cap -> terminated name ->
  exists r, enter_export tbl count name a s = Done s r /\ table_wf cap (fst r) (snd r) /\
    forall i e, fst r !! i = Some e -> (i < Z.to_nat (snd r))%nat ->
      (tbl !! i = Some e /\ (i < Z.to_nat count)%nat) \/ (x_addr e = a /\ (chars (x_name e) = chars name \/ chars (x_name e) = take 47 (chars name))).
Proof.
  intros Hw Hc Hn. pose proof Hw as (Hl & Hcount & Hall). unfold enter_export. unfold mbind at 1, FST_bind at 1. erewrite find_export_ok by done.
  destruct (lookup_export tbl count name) as [k|] eqn:E.
  - apply lookup_export_Some in E as (e & Hk & He & Hname). unfold mbind, FST_bind. rewrite (elem_ok tbl k e) by (done || lia).
    eexists. split; [done|]. cbn. split.
    + split; [by rewrite length_insert|]. split; [done|]. apply Forall_insert; [done|]. apply (Forall_lookup_1 _ _ _ _ Hall He).
    + intros i x Hi Hlt. apply list_lookup_insert_Some in Hi as [(<- & <- & _)|[_ Hi]]; [right|by left]. split; [done|by left].
  - destruct (lookup_lt_is_Some_2 tbl (Z.to_nat count) ltac:(lia)) as [e He]. unfold mbind, FST_bind. rewrite (elem_ok tbl count e) by (done || lia).
    pose proof (Forall_lookup_1 _ _ _ _ Hall He) as [Hel Het].
    destruct (text_copy_ok (x_name e) NS_NAME_LEN name s ltac:(unfold NS_NAME_LEN in *; lia) Hn) as (t & -> & Ht1 & Ht2 & Ht3).
    eexists. split; [done|]. cbn. split.
    + split; [by rewrite length_insert|]. split; [lia|]. apply Forall_insert; [done|]. split; cbn; [by rewrite Ht1|done].
    + intros i x Hi Hlt. apply list_lookup_insert_Some in Hi as [(<- & <- & _)|[Hne Hi]]; [right; split; [done|by right]|left].
      split; [done|]. lia.
Qed.

Lemma take_full (l m : list Z) k : take k l = m -> (List.length m < k)%nat -> l = m.
Proof. intros <- Hl. rewrite length_take in Hl. rewrite take_ge; [done|lia]. Qed.

Lemma safe_each {S} (J : S -> Prop) body k : forall lo, (forall i, lo <= i < lo + Z.of_nat k -> safe J (body i) (fun _ => True)) -> safe J (each body lo k) (fun _ => True).
Proof.
  induction k as [|k IH]; intros lo Hb; [by apply safe_ret|]. cbn [each]. eapply safe_bind; [apply Hb; lia|]. intros [] _. apply IH. intros i Hi. apply Hb. lia.
Qed.

(** ** Looking symbols up *)

Lemma find_handle_ok h s : Z.of_nat (List.length (g_modules s)) = NS_MODULE_MAX ->
  find_module_slot_by_handle h s = Done s (slot_where (fun m => negb (lo_used m =? 0) && (lo_handle m =? h)) s).
Proof. intros Hl. by apply find_slot_ok. Qed.

(** What [module_dlsym] finds is an export of the module with that handle. *)
Lemma module_dlsym_ok `{LoaderEnvOk} b n s0 T P s h name : during b n s0 T P s -> terminated name ->
  wpf never (module_dlsym h (Some name)) (fun s' a => during b n s0 T P s' /\ (a = 0 \/ exists i m k e,
    g_modules s !! i = Some m /\ lo_used m <> 0 /\ lo_handle m = h /\ lo_exports m !! k = Some e /\ (k < Z.to_nat (lo_export_count m))%nat /\
    chars (x_name e) = chars name /\ a = x_addr e)) s.
Proof.
  intros HJ Hn. pose proof (du_inv _ _ _ _ _ _ HJ) as HI. unfold module_dlsym.
  assert (forall msg Q, (forall s', during b n s0 T P s' -> Q s' 0) -> wpf never (set_dlerror msg ≫= fun _ => mret 0) Q s) as Hbad.
  { intros msg Q HQ. eapply wpf_seq; [by apply (set_dlerror_safe b n s0 T P)|]. intros s' [] [Hs' _]. apply wpf_ret. by apply HQ. }
  eapply wpf_step; [by apply find_handle_ok, (li_length n)|]. cbv zeta.
  destruct (slot_where_cases (fun m => negb (lo_used m =? 0) && (lo_handle m =? h)) s) as [->|(Hi & m & Hm & Hp)].
  { apply Hbad. auto. }
  set (i := slot_where _ s) in *. destruct (Z.ltb_spec i 0); [lia|]. bsimpl.
  destruct (rd_head (S := Loader) name s Hn) as (c & Hc & _). eapply wpf_step; [exact Hc|]. case_if; [apply Hbad; auto|].
  destruct (inv_object n s _ m HI Hm) as (Hw & _). eapply wpf_step; [by apply module_ok|].
  eapply wpf_step; [eapply find_export_ok; [by apply ob_exports|done]|]. destruct (lookup_export _ _ _) as [k|] eqn:Ek; [|apply Hbad; auto].
  apply lookup_export_Some in Ek as (e & Hk & He & Hname). eapply wpf_step; [by apply elem_ok; [lia|]|].
  eapply wpf_seq; [by apply (clear_dlerror_safe b n s0 T P)|]. intros s' [] [Hs' _]. apply wpf_ret. split; [done|right].
  exists (Z.to_nat i), m, (Z.to_nat k), e. repeat split; try done. lia.
Qed.

(** ** A module that is being loaded *)

Definition abi_exports `{LoaderEnv} (m : NsLoadedObject) : Prop :=
  forall i e, lo_exports m !! i = Some e -> (i < Z.to_nat (lo_export_count m))%nat -> chars (x_name e) = chars abi_name -> in_pool (x_addr e).

Record own `{LoaderEnv} (slot kind : Z) (early : bool) (m : NsLoadedObject) : Prop := {
  own_used : lo_used m = 1; own_kind : lo_kind m = kind; own_handle : lo_handle m = 0x4000 + slot; own_ref : lo_ref_count m = 1;
  own_kernel : lo_kernel_refs m = 0; own_tasks : lo_task_refs m = zero_bytes MAX_TASKS;
  own_early : early = true -> lo_export_count m = 0; own_abi : abi_exports m
}.

(** The module at [slot] belongs to the load, and nobody depends on it yet. *)
Definition fresh `{LoaderEnv} (slot kind : Z) (early : bool) (ms : list NsLoadedObject) : Prop :=
  (exists m, ms !! Z.to_nat slot = Some m /\ own slot kind early m) /\ forall x, x ∈ ms -> slot ∉ live_deps x.

Section Loading.
Context `{LoaderEnvOk} (n : Z) (s0 : Loader) (T : list (list Z)) (slot kind : Z).
Context (Hfew : n <= FEW) (Hslot : 0 <= slot < NS_MODULE_MAX).
Context (Hfree : forall m0, g_modules s0 !! Z.to_nat slot = Some m0 -> lo_used m0 = 0).
Notation J early := (during true n s0 T (fresh slot kind early)).

Lemma fresh_dep_closed : dep_closed (fresh slot kind true) slot.
Proof using All.
  intros ms m d k o mo [(m1 & Hm1 & Ho) Hno] Hm Hl Hmo Hu Hx. assert (m1 = m) as -> by congruence.
  assert (o <> Z.to_nat slot) as Hne.
  { intros ->. rewrite list_lookup_insert_eq in Hmo by (by eapply lookup_lt_Some). injection Hmo as <-. cbn in Hx.
    pose proof (own_early _ _ _ _ Ho eq_refl). lia. }
  split.
  - exists (m <| lo_deps := d |> <| lo_dep_count := k |>).
    rewrite list_lookup_insert_ne by done. rewrite list_lookup_insert_eq by (by eapply lookup_lt_Some). split; [done|].
    destruct Ho. by constructor.
  - intros x Hin. apply list_elem_of_lookup in Hin as [j Hj]. apply list_lookup_insert_Some in Hj as [(<- & <- & _)|[_ Hj]].
    + rewrite list_lookup_insert_ne in Hmo by done. cbn. apply (Hno mo). by eapply list_elem_of_lookup_2.
    + apply list_lookup_insert_Some in Hj as [(<- & <- & _)|[_ Hj]].
      * rewrite Hl. rewrite elem_of_app, list_elem_of_singleton. intros [Hin|E]; [|lia]. apply (Hno m); [by eapply list_elem_of_lookup_2|done].
      * apply Hno. by eapply list_elem_of_lookup_2.
Qed.

(** An update of the module that is being loaded. *)
Lemma own_step e1 e2 f :
  (forall m, own slot kind e1 m -> object_wf m -> own slot kind e2 (f m) /\ object_wf (f m) /\ live_deps (f m) = live_deps m) ->
  (e1 = e2 \/ e2 = false) ->
  forall s, J e1 s -> wpf never (set_module slot f) (fun s' _ => J e2 s') s.
Proof using All.
  intros Hf _ s [HI Hk Hp Hr [(m & Hm & Ho) Hno]]. unfold wpf. rewrite (set_module_ok slot f m) by (done || lia).
  destruct (inv_object n s _ m HI Hm) as (Hw & [C1 C2 C3 C4 C5] & _). destruct (Hf m Ho Hw) as (Ho' & Hw' & Hl').
  assert (lo_task_refs (f m) = lo_task_refs m) as Et by (by rewrite (own_tasks _ _ _ _ Ho), (own_tasks _ _ _ _ Ho')).
  constructor.
  - apply inv_set with n m; try done. destruct Ho, Ho'. constructor; try lia.
    unfold uses in *. rewrite Et, own_kernel1, own_ref1, own_ref0, own_kernel0 in *. exact C1.
  - intros j m0 Hj Hu. destruct (decide (j = Z.to_nat slot)) as [->|Hne]; [by apply Hfree in Hj|].
    destruct (Hk j m0 Hj Hu) as (mj & Hmj & Hs). exists mj. cbn. by rewrite list_lookup_insert_ne.
  - intros Hb. by apply pool_kept_set, Hp.
  - by rewrite (refs_set _ _ _ _ Hm).
  - cbn. split.
    + exists (f m). rewrite list_lookup_insert_eq by (by eapply lookup_lt_Some). done.
    + intros x Hin. apply list_elem_of_lookup in Hin as [j Hj]. apply list_lookup_insert_Some in Hj as [(<- & <- & _)|[_ Hj]].
      * rewrite Hl'. apply Hno. by eapply list_elem_of_lookup_2.
      * apply Hno. by eapply list_elem_of_lookup_2.
Qed.

Lemma own_safe e f :
  (forall m, own slot kind e m -> object_wf m -> own slot kind e (f m) /\ object_wf (f m) /\ live_deps (f m) = live_deps m) ->
  safe (J e) (set_module slot f) (fun _ => True).
Proof using All.
  intros Hf s Hs. eapply wpf_mono; [apply (own_step e e); [done|by left|done]|]. by intros.
Qed.

Lemma module_safe e : safe (J e) (module slot) (fun m => own slot kind e m /\ object_wf m).
Proof using All.
  intros s Hs. destruct (du_also _ _ _ _ _ _ Hs) as [(m & Hm & Ho) _]. unfold wpf. rewrite (module_ok slot m) by (done || lia).
  split; [done|]. split; [done|]. by destruct (inv_object n s _ m (du_inv _ _ _ _ _ _ Hs) Hm).
Qed.

(** ** The pool *)

(** Memory of the pool that was free before the call. *)
Definition fresh_range (a size : Z) : Prop := pool_base + g_module_pool_cursor s0 <= a /\ a + size <= pool_base + NS_MODULE_POOL_SIZE.

Lemma pool_alloc_safe e size al : 0 <= size < 2 ^ 32 -> 0 <= al <= 2 ^ 31 ->
  safe (J e) (pool_alloc size al) (fun a => a = 0 \/ fresh_range a size).
Proof using All.
  intros Hsz Hal s [HI Hk Hp Hr HP]. unfold pool_alloc. eapply wpf_step; [done|]. cbv zeta.
  pose proof (li_cursor n s HI) as Hc.
  assert (g_module_pool_cursor s <= align_up_u32 (g_module_pool_cursor s) (if al =? 0 then 1 else al) < 2 ^ 32) as Ha
    by (apply align_up_range; [done|destruct (Z.eqb_spec al 0); lia]).
  set (off := align_up_u32 _ _) in *. case_if; [apply wpf_ret; split; [by constructor|by left]|]. bsimpl.
  assert (off +u size = off + size) as E.
  { unfold u32 in *. destruct (Z.ltb_spec (off + size) (2 ^ 32)); [apply Z.mod_small; lia|].
    assert ((off + size) mod 2 ^ 32 = off + size - 2 ^ 32) as Em; [|lia].
    symmetry. apply Z.mod_unique with 1; lia. }
  rewrite E in *. eapply wpf_step; [done|]. apply wpf_ret. pose proof pool_range as [? ?]. unfold NS_MODULE_POOL_SIZE in *.
  rewrite (u32_small (pool_base + off)) by lia. destruct (Hp eq_refl) as [P1 P2 P3]. split.
  - constructor; cbn; try done; [|intros _; constructor; cbn; try done; lia]. destruct HI. constructor; cbn; try done. unfold NS_MODULE_POOL_SIZE. lia.
  - right. unfold fresh_range, NS_MODULE_POOL_SIZE. lia.
Qed.

Lemma fresh_store a size : fresh_range a size -> true = true -> forall o, a <= pool_base + o < a + size -> may_store s0 o.
Proof using All. intros [Ha _] _ o Ho. left. lia. Qed.

(** ** The image *)

Section WithImage.
Context (img rest : list Z) (Himg : Forall is_byte img) (Hlen : len img <= NS_MODULE_LOAD_LIMIT).
Context (Hcur : 0 <= g_module_pool_cursor s0).
Notation image := (img ++ rest).

(** The fields of a section are 32-bit values. *)
Definition sec_wf (sec : Elf32_Shdr) : Prop :=
  0 <= sh_offset sec < 2 ^ 32 /\ 0 <= sh_size sec < 2 ^ 32 /\ 0 <= sh_addralign sec /\ 0 <= sh_info sec /\ 0 <= sh_link sec.

Lemma sections_wf shoff shnum : Forall sec_wf (sections_of img shoff shnum).
Proof using All.
  apply Forall_map, list.Forall_forall. intros k _. unfold sec_wf, section_at. cbn.
  pose proof (fun o => f32_range img Himg o) as Hr. repeat split; apply Hr.
Qed.

(** A section whose bytes are all in the image, and where it was put. *)
Definition at_image (sec : Elf32_Shdr) : Prop := sh_offset sec + sh_size sec <= len img.
Definition loaded (sec : Elf32_Shdr) (a : Z) : Prop :=
  (sh_type sec = SHT_NOBITS \/ at_image sec) /\ (a = 0 \/ fresh_range a (sh_size sec)).

Lemma not_over sec : sec_wf sec -> section_ok img sec = true -> sh_type sec <> SHT_NOBITS -> over (len img) sec = false -> at_image sec.
Proof using All.
  intros (Ho & Hs & _) Hok Ht Hov. unfold section_ok in Hok. unfold over in Hov. bsimpl. unfold at_image.
  destruct (Z.eqb_spec (sh_type sec) SHT_NOBITS); [done|]. simpl in *. bsimpl. rewrite u32_small in Hov by lia. lia.
Qed.

Lemma load_section_safe e sec : sec_wf sec -> section_ok img sec = true ->
  safe (J e) (load_section slot image (len img) sec) (fun r => match r with Some a => loaded sec a | None => True end).
Proof using All.
  intros Hw Hok. unfold load_section. destruct ((len img <? sh_offset sec +u sh_size sec) && negb (sh_type sec =? SHT_NOBITS)) eqn:Eov; [by apply safe_ret|].
  assert (sh_type sec = SHT_NOBITS \/ at_image sec) as Hin.
  { destruct (Z.eqb_spec (sh_type sec) SHT_NOBITS) as [|Hne]; [by left|right]. apply not_over; try done. unfold over. by rewrite andb_true_r in Eov. }
  case_if; [apply safe_ret; split; [done|by left]|]. destruct Hw as (Ho & Hs & Ha & _).
  assert (sh_addralign sec <= 2 ^ 31) as Hal by (unfold section_ok in Hok; bsimpl; lia).
  eapply safe_bind; [apply pool_alloc_safe; [done|destruct (Z.eqb_spec (sh_addralign sec) 0); lia]|]. intros a Hfr. cbv beta in Hfr.
  destruct (Z.eqb_spec a 0) as [|Hne]; [by apply safe_ret|]. destruct Hfr as [?|Hfr]; [done|].
  pose proof pool_range as [Hb _]. pose proof Hfr as [Hf1 Hf2].
  eapply safe_bind; [apply own_safe; intros m Ho' Hw'; case_if; [destruct Ho', Hw'; split; [by constructor|split; [by constructor|done]]|done]|].
  intros _ _.
  eapply safe_bind with (R := fun _ => True).
  { case_if; bsimpl.
    - apply pool_store_safe; unfold zero_bytes; rewrite ?length_replicate; try lia. intros Hbt o Hoo. apply (fresh_store _ _ Hfr Hbt). lia.
    - destruct Hin as [?|Hin]; [done|]. unfold at_image in Hin. eapply safe_bind.
      + apply (safe_pure _ _ (slice (sh_offset sec) (sh_size sec) img) (eq (slice (sh_offset sec) (sh_size sec) img))); [|done].
        intros s. apply rd_bytes_image; lia.
      + intros bs <-. apply pool_store_safe; rewrite ?slice_length by (unfold len in *; lia); try lia.
        intros Hbt o Hoo. by apply (fresh_store _ _ Hfr Hbt). }
  intros _ _. apply safe_ret. split; [done|by right].
Qed.

Lemma load_sections_safe e secs : Forall sec_wf secs -> Forall (fun sec => section_ok img sec = true) secs ->
  safe (J e) (load_sections slot image (len img) secs) (fun r => match r with Some rs => Forall2 loaded secs rs | None => True end).
Proof using All.
  induction 1 as [|sec secs Hw _ IH]; intros Hok; [by apply safe_ret|]. apply Forall_cons_1 in Hok as [Hs Hok]. cbn [load_sections].
  eapply safe_bind; [by apply load_section_safe|]. intros [a|] Ha; [|by apply safe_ret].
  eapply safe_bind; [by apply IH|]. intros [rs|] Hrs; apply safe_ret; [|done]. by constructor.
Qed.

(** ** Names *)

Definition names_end (str : Elf32_Shdr) : Prop :=
  at_image str /\ 0 <= sh_offset str /\ (0 < sh_size str -> img.[sh_offset str + sh_size str - 1] = 0).

Lemma section_names str : sec_wf str -> section_ok img str = true -> sh_type str = SHT_STRTAB -> at_image str -> names_end str.
Proof using All.
  intros (Ho & _) Hok Ht Hin. split; [done|]. split; [lia|]. intros Hs. unfold section_ok in Hok. bsimpl.
  rewrite Ht, Z.eqb_refl in *. unfold at_image in Hin. unfold inside in *.
  destruct (Z.ltb_spec 0 (sh_size str)), (Z.leb_spec (sh_offset str + sh_size str) (len img)); lia.
Qed.

(** A name of the table, in the image and in the file. *)
Lemma name_ok str k : names_end str -> 0 <= k < sh_size str ->
  terminated (at_ image (sh_offset str + k)) /\ chars (at_ image (sh_offset str + k)) = chars (at_ img (sh_offset str + k)).
Proof using All.
  intros (Hin & Ho & Hend) Hk. unfold at_image, len in Hin. specialize (Hend ltac:(lia)).
  assert (terminated (at_ img (sh_offset str + k))) as Ht.
  { unfold terminated, at_. apply list_elem_of_lookup. exists (Z.to_nat (sh_size str - 1 - k)). rewrite lookup_drop.
    replace (Z.to_nat (sh_offset str + k) + Z.to_nat (sh_size str - 1 - k))%nat with (Z.to_nat (sh_offset str + sh_size str - 1)) by lia.
    rewrite <- Hend. apply list_lookup_lookup_total_lt. lia. }
  unfold at_ in *. rewrite drop_app_le by lia. split; [apply elem_of_app; by left|].
  revert Ht. generalize (drop (Z.to_nat (sh_offset str + k)) img) as l. induction l as [|c l IH]; intros Ht; [by apply elem_of_nil in Ht|].
  simpl. destruct (Z.eqb_spec c 0); [done|]. f_equal. apply IH. apply terminated_cons in Ht as [?|[_ ?]]; done.
Qed.

(** ** Relocations *)

Lemma compute_symbol_addr_safe e sym addrs shnum : 0 <= st_shndx sym -> shnum = Z.of_nat (List.length addrs) ->
  safe (J e) (compute_symbol_addr sym addrs shnum) (fun r => match r with
    | Some a => st_shndx sym <> SHN_UNDEF /\ exists b, addrs !! Z.to_nat (st_shndx sym) = Some b /\ b <> 0 /\ a = b +u st_value sym
    | None => True end).
Proof using All.
  intros Hx ->. unfold compute_symbol_addr. case_if; [by apply safe_ret|]. bsimpl.
  destruct (lookup_lt_is_Some_2 addrs (Z.to_nat (st_shndx sym)) ltac:(lia)) as [b Hb].
  eapply safe_bind; [apply (safe_pure _ _ b (eq b)); [intros s; by apply elem_ok|done]|]. intros b' <-.
  destruct (Z.eqb_spec b 0); apply safe_ret; [done|]. split; [done|]. by exists b.
Qed.

Lemma reloc_target_safe addrs shnum str sym place ty addend :
  names_end str -> 0 <= st_name sym -> 0 <= st_shndx sym -> shnum = Z.of_nat (List.length addrs) -> fresh_range place 4 ->
  safe (J true) (reloc_target slot image addrs shnum str sym place ty addend) (fun _ => True).
Proof using All.
  intros Hstr Hnm Hndx Hl Hpl. pose proof Hpl as [Hp1 Hp2]. unfold reloc_target.
  destruct (st_shndx sym =? SHN_UNDEF).
  2: { eapply safe_bind; [by apply compute_symbol_addr_safe|]. intros [a|] _; by apply safe_ret. }
  destruct (Z.leb_spec (sh_size str) (st_name sym)) as [|Hn]; [by apply safe_ret|].
  destruct (name_ok str (st_name sym) Hstr ltac:(lia)) as [Hterm _]. set (name := at_ image (sh_offset str + st_name sym)) in *. cbv zeta.
  intros s HJ. eapply wpf_step; [apply resolve_external_symbol_ok; [by eapply inv_exports, du_inv|done]|].
  destruct (symbol s name) as [[a o]|] eqn:Es.
  - apply symbol_owner in Es; [|by eapply li_length, du_inv].
    eapply wpf_seq; [apply (add_dependency_during true n s0 T (fresh slot kind true)); [done|done|apply fresh_dep_closed|done|exact Es]|].
    intros s' ok Hs'. by apply wpf_ret.
  - assert (in_pool place) as Hip by (split; lia).
    destruct (lazy_type_supported ty); [|by apply wpf_ret]. revert s HJ Es. 
    assert (safe (J true) (ok ← add_pending_reloc slot place ty addend name; if ok =? 0 then mret TFail else pool_store32 place 0 ≫= fun _ => mret TWait) (fun _ => True)) as Hs.
    { eapply safe_bind; [apply add_pending_reloc_safe; [done|done|by apply fresh_store]|]. intros ok _. case_if; [by apply safe_ret|].
      eapply safe_bind; [apply pool_store32_safe; [done|by apply fresh_store]|]. intros _ _. by apply safe_ret. }
    intros s HJ _. by apply Hs.
Qed.

(** A pure read in front of the rest. *)
Lemma safe_read {A B} (e : bool) (m : lcall A) (k : A -> lcall B) (v : A) (R : B -> Prop) :
  (forall s, m s = Done s v) -> safe (J e) (k v) R -> safe (J e) (m ≫= k) R.
Proof using All. intros Hm Hk. eapply safe_bind; [by apply (safe_pure _ _ v (eq v))|]. by intros ? <-. Qed.

Lemma apply_reloc_safe addrs shnum target sym_sec str ta (is_rela : bool) o :
  sec_wf target -> sec_wf sym_sec -> at_image sym_sec -> names_end str -> shnum = Z.of_nat (List.length addrs) -> fresh_range ta (sh_size target) -> 0 <= ta ->
  0 <= o -> o + (if is_rela then 12 else 8) <= len img -> f32 img o + 4 < 2 ^ 32 ->
  safe (J true) (apply_reloc slot image addrs shnum target sym_sec str ta is_rela o) (fun _ => True).
Proof using All.
  intros Hwt Hws Hsym Hstr Hl Hta Hta0 Ho Hoe Hr. pose proof (f32_range img Himg) as Hf. pose proof pool_range as [Hb1 Hb2]. unfold apply_reloc.
  eapply safe_read; [intros s; apply field32_image; destruct is_rela; lia|]. eapply safe_read; [intros s; apply field32_image; destruct is_rela; lia|].
  eapply safe_bind with (R := fun _ => True).
  { destruct is_rela; [|by apply safe_ret]. eapply safe_mono; [apply (safe_pure _ _ (f32 img (o + 8)) (fun _ => True)); [intros s; by apply field32_image; lia|done]|done]. }
  intros explicit _. cbv zeta. set (sym_idx := Z.shiftr _ 8). set (r_type := Z.land _ 0xFF).
  assert (0 <= sym_idx) as Hsi by (apply Z.shiftr_nonneg, Hf).
  destruct (Z.leb_spec (sh_size sym_sec / sizeof_Sym) sym_idx) as [|Hidx]; [by apply safe_ret|].
  pose proof (Hf o) as Hfo. rewrite (u32_small (f32 img o + 4)) by lia.
  destruct (Z.ltb_spec (sh_size target) (f32 img o + 4)) as [|Hfit]; [by apply safe_ret|].
  destruct Hta as [Ht1 Ht2]. rewrite (u32_small (ta + f32 img o)) by (unfold NS_MODULE_POOL_SIZE in *; lia). set (place := ta + f32 img o).
  assert (fresh_range place 4) as Hpl by (split; unfold place; lia). assert (in_pool place) as Hip by (destruct Hpl; split; lia).
  eapply safe_bind with (R := fun _ => True).
  { destruct is_rela; [by apply safe_ret|]. by apply pool_load32_safe. }
  intros addend _. unfold sizeof_Sym in *. destruct Hws as (Hso & Hss & _). unfold at_image in Hsym.
  assert (sh_offset sym_sec + 16 * sym_idx + 16 <= len img) as Hin.
  { assert (sym_idx + 1 <= sh_size sym_sec / 16) as Hq by lia. pose proof (Z.mul_div_le (sh_size sym_sec) 16 ltac:(lia)). lia. }
  eapply safe_read; [intros s; apply read_sym_image; lia|]. eapply safe_bind.
  { apply reloc_target_safe; [done|apply Hf| |done|done]. cbn. apply f16_range, Himg. }
  intros [a| |] _; [|by apply safe_ret|by apply safe_ret]. eapply safe_bind; [apply module_safe|]. intros m _.
  destruct (reloc_value _ _ _ _ _) as [[v|]|]; [|by apply safe_ret|by apply safe_ret].
  eapply safe_bind; [apply pool_store32_safe; [done|by apply fresh_store]|]. intros _ _. by apply safe_ret.
Qed.

Lemma apply_relocs_safe body size k : 0 <= size -> forall o,
  (forall r, 0 <= r < Z.of_nat k -> safe (J true) (body (o + size * r)) (fun _ => True)) -> safe (J true) (apply_relocs body o size k) (fun _ => True).
Proof using All.
  intros Hsz. induction k as [|k IH]; intros o Hb; [by apply safe_ret|]. cbn [apply_relocs].
  eapply safe_bind; [replace o with (o + size * 0) by lia; apply Hb; lia|]. intros [|] _; [|by apply safe_ret].
  replace (o + size * 0) with o by lia. apply IH. intros r Hr. replace (o + size + size * r) with (o + size * (r + 1)) by lia. apply Hb. lia.
Qed.

(** ** The sections that were loaded *)

Section Sections.
Context (secs : list Elf32_Shdr) (addrs : list Z).
Context (Hwf : Forall sec_wf secs) (Hok : Forall (fun sec => section_ok img sec = true) secs) (Hrel : Forall (fun sec => relocs_ok img sec = true) secs)
  (Habi : Forall (fun sec => abi_ok img secs sec = true) secs) (Hld : Forall2 loaded secs addrs).

Lemma section_facts i sec : secs !! i = Some sec -> sec_wf sec /\ section_ok img sec = true /\ relocs_ok img sec = true /\ abi_ok img secs sec = true /\
  exists a, addrs !! i = Some a /\ loaded sec a.
Proof using All.
  intros Hi. split; [by apply (Forall_lookup_1 _ _ _ _ Hwf Hi)|]. split; [by apply (Forall_lookup_1 _ _ _ _ Hok Hi)|].
  split; [by apply (Forall_lookup_1 _ _ _ _ Hrel Hi)|]. split; [by apply (Forall_lookup_1 _ _ _ _ Habi Hi)|].
  destruct (Forall2_lookup_l _ _ _ _ _ Hld Hi) as (a & ? & ?). by exists a.
Qed.

Lemma relocate_section_safe rel_sec : rel_sec ∈ secs -> safe (J true) (relocate_section slot image (len img) secs addrs rel_sec) (fun _ => True).
Proof using All.
  intros Hin. apply list_elem_of_lookup in Hin as [ri Hri]. destruct (section_facts ri rel_sec Hri) as (Hw & Hs & Hr & _ & _).
  pose proof (list.Forall2_length _ _ _ Hld) as Hlen2. unfold relocate_section. cbv zeta.
  set (is_rel := (sh_type rel_sec =? SHT_REL) && (sh_entsize rel_sec =? sizeof_Rel)).
  set (is_rela := (sh_type rel_sec =? SHT_RELA) && (sh_entsize rel_sec =? sizeof_Rela)).
  destruct (negb is_rel && negb is_rela) eqn:Ekind; [by apply safe_ret|]. case_if; [by apply safe_ret|]. bsimpl.
  pose proof Hw as (Ho & Hsz & _ & Hinfo & Hlink).
  destruct (lookup_lt_is_Some_2 secs (Z.to_nat (sh_info rel_sec)) ltac:(lia)) as [target Ht].
  destruct (section_facts _ _ Ht) as (Hwt & _ & _ & _ & ta & Hta & [_ Hlt]).
  eapply safe_read; [intros s; by apply elem_ok|]. destruct (Z.eqb_spec ta 0) as [|Hta0]; [by apply safe_ret|]. destruct Hlt as [?|Hfr]; [done|].
  destruct (lookup_lt_is_Some_2 secs (Z.to_nat (sh_link rel_sec)) ltac:(lia)) as [sym_sec Hsym]. destruct (section_facts _ _ Hsym) as (Hws & Hss & _).
  eapply safe_read; [intros s; by apply elem_ok|]. case_if; [by apply safe_ret|]. bsimpl. pose proof Hws as (_ & _ & _ & _ & Hlink').
  destruct (lookup_lt_is_Some_2 secs (Z.to_nat (sh_link sym_sec)) ltac:(lia)) as [str Hstr]. destruct (section_facts _ _ Hstr) as (Hwst & Hsst & _).
  eapply safe_read; [intros s; by apply elem_ok|]. destruct (Z.eqb_spec (sh_type str) SHT_STRTAB) as [Hty|]; [|by apply safe_ret]. cbn [negb].
  case_if; [by apply safe_ret|]. bsimpl. eapply safe_read; [intros s; by apply elem_ok|].
  assert (at_image sym_sec) as Hsi.
  { apply not_over; try done. intros Heq. rewrite Heq in *. unfold SHT_NOBITS, SHT_SYMTAB, SHT_DYNSYM in *. simpl in *. done. }
  assert (at_image str) as Hstri by (apply not_over; try done; rewrite Hty; done).
  assert ((is_rel = true /\ is_rela = false /\ sh_entsize rel_sec = 8) \/ (is_rela = true /\ sh_entsize rel_sec = 12)) as Hent.
  { unfold is_rel, is_rela, sizeof_Rel, sizeof_Rela, SHT_REL, SHT_RELA in *.
    destruct (Z.eqb_spec (sh_type rel_sec) 9), (Z.eqb_spec (sh_type rel_sec) 4), (Z.eqb_spec (sh_entsize rel_sec) 8), (Z.eqb_spec (sh_entsize rel_sec) 12); simpl in *; try done; lia. }
  assert (at_image rel_sec) as Hri'.
  { apply not_over; try done. unfold is_rel, is_rela, SHT_NOBITS, SHT_REL, SHT_RELA in *. intros Heq. rewrite Heq in *. simpl in *. destruct Hent as [(? & _)|(? & _)]; done. }
  unfold at_image in Hri'. apply apply_relocs_safe; [destruct Hent as [(_ & _ & ->)|(_ & ->)]; lia|]. intros r Hr'.
  assert (0 < sh_entsize rel_sec) as He by (destruct Hent as [(_ & _ & ->)|(_ & ->)]; lia).
  assert (0 <= sh_size rel_sec / sh_entsize rel_sec) by (apply Z.div_pos; lia). rewrite Z2Nat.id in Hr' by done.
  assert (sh_entsize rel_sec * r + sh_entsize rel_sec <= sh_size rel_sec) as Hfit.
  { pose proof (Z.mul_div_le (sh_size rel_sec) (sh_entsize rel_sec) He). nia. }
  apply apply_reloc_safe; try done.
  - by apply section_names.
  - lia.
  - destruct Hfr. pose proof pool_range. lia.
  - nia.
  - destruct Hent as [(_ & -> & ?)|(-> & ?)]; lia.
  - unfold relocs_ok in Hr. unfold inside in Hr. fold is_rel is_rela in Hr.
    destruct (Z.leb_spec (sh_offset rel_sec + sh_size rel_sec) (len img)); [|lia].
    assert ((is_rel || is_rela) && true = true) as Ek by (destruct Hent as [(-> & _)|(-> & _)]; [done|by destruct is_rel]). rewrite Ek in Hr.
    pose proof (range_check _ 0 _ Hr r) as Hx. rewrite Z.add_0_l in Hx. specialize (Hx Hr'). by apply Z.ltb_lt.
Qed.

Lemma relocate_sections_safe todo : (forall x, x ∈ todo -> x ∈ secs) -> safe (J true) (relocate_sections slot image (len img) secs addrs todo) (fun _ => True).
Proof using All.
  induction todo as [|sec todo IH]; intros Hin; [by apply safe_ret|]. cbn [relocate_sections].
  eapply safe_bind; [apply relocate_section_safe, Hin; constructor|]. intros [|] _; [|by apply safe_ret].
  apply IH. intros x Hx. apply Hin. by constructor.
Qed.

(** ** Exports *)

Lemma module_add_export_safe name a : terminated name -> (chars name = chars abi_name -> in_pool a) ->
  safe (J false) (module_add_export slot name a) (fun _ => True).
Proof using All.
  intros Hn Ha. unfold module_add_export. destruct (rd_head (S := Loader) name s0 Hn) as (c & _ & _).
  assert (exists c, forall s : Loader, rd name 0 s = Done s c) as [c' Hc].
  { destruct name as [|c' name]; [by apply elem_of_nil in Hn|]. exists c'. intros s. unfold rd. simpl. done. }
  eapply safe_read; [exact Hc|]. eapply safe_bind; [apply module_safe|]. intros m [Hm Hw]. case_if; [by apply safe_ret|]. case_if; [by apply safe_ret|]. bsimpl.
  intros s HJ. destruct (enter_export_ok NS_EXPORTS_MAX (lo_exports m) (lo_export_count m) name a s (ob_exports m Hw) ltac:(lia) Hn) as (r & Hr & Hrw & Hre).
  eapply wpf_step; [exact Hr|]. eapply wpf_seq; [apply own_safe; [|exact HJ]|].
  - intros m' Ho' Hw'. split; [|split; [|done]].
    + destruct Ho'. constructor; try done. intros i e Hi Hlt Hch. cbn in Hi, Hlt. destruct (Hre i e Hi Hlt) as [[Hi' Hlt']|[-> Hch']].
      * by apply (own_abi _ _ _ _ Hm i e).
      * apply Ha. rewrite <- Hch. destruct Hch' as [->|Ht]; [done|]. rewrite Hch in Ht. rewrite Hch. symmetry in Ht. apply take_full in Ht; [done|]. vm_compute. lia.
    + destruct Hw'. by constructor.
  - intros s' u [Hs' _]. by apply wpf_ret.
Qed.

Lemma export_symbol_safe str o : names_end str -> 0 <= o -> o + 16 <= len img -> abi_symbol_ok img secs str (symbol_at img o) = true ->
  safe (J false) (export_symbol slot image addrs (Z.of_nat (List.length secs)) str o) (fun _ => True).
Proof using All.
  intros Hstr Ho Hin Hab. pose proof (f32_range img Himg) as Hf. pose proof (list.Forall2_length _ _ _ Hld) as Hlen2. unfold export_symbol.
  eapply safe_read; [intros s; by apply read_sym_image|]. set (sym := symbol_at img o) in *.
  destruct (Z.leb_spec (sh_size str) (st_name sym)) as [|Hn]; [by apply safe_ret|]. cbv zeta.
  destruct (name_ok str (st_name sym) Hstr ltac:(split; [apply Hf|done])) as [Hterm Hchars].
  eapply safe_bind; [apply compute_symbol_addr_safe; [apply f16_range, Himg|by rewrite Hlen2]|]. intros [a|] Ha; [|by apply safe_ret].
  case_if; [|by apply safe_ret]. set (name := at_ image (sh_offset str + st_name sym)) in *.
  assert (exists c, forall s : Loader, rd name 0 s = Done s c) as [c Hc].
  { clearbody name. destruct name as [|c' name]; [by apply elem_of_nil in Hterm|]. exists c'. intros s. unfold rd. simpl. done. }
  eapply safe_read; [exact Hc|]. case_if; [by apply safe_ret|].
  eapply safe_bind; [|intros; by apply safe_ret]. apply module_add_export_safe; [done|]. intros Hname. rewrite Hchars in Hname.
  destruct Ha as (Hx & bb & Hbb & Hb0 & ->). unfold abi_symbol_ok in Hab.
  rewrite (bool_decide_true (_ = chars abi_name)) in Hab by done. destruct (Z.ltb_spec (st_name sym) (sh_size str)); [|lia].
  destruct (Z.eqb_spec (st_shndx sym) SHN_UNDEF); [done|]. cbn [andb negb] in Hab.
  destruct (Forall2_lookup_r _ _ _ _ _ Hld Hbb) as (sec & Hsec & [_ [?|[Hr1 Hr2]]]); [done|]. rewrite Hsec in Hab. bsimpl.
  pose proof pool_range as [Hp1 Hp2]. pose proof (Hf (o + 4)) as Hv. change (f32 img (o + 4)) with (st_value sym) in Hv.
  rewrite u32_small by (unfold NS_MODULE_POOL_SIZE in *; lia). split; lia.
Qed.

Lemma first_section_facts ty : ty <> SHT_NOBITS -> first_section ty secs addrs = -1 \/
  exists sec, 0 <= first_section ty secs addrs /\ secs !! Z.to_nat (first_section ty secs addrs) = Some sec /\ sh_type sec = ty.
Proof using All.
  intros Hty. unfold first_section. destruct (find_idx _ _) as [i|] eqn:E; [right|by left]. simpl. rewrite Nat2Z.id.
  apply find_idx_Some in E as [([sec a] & Hi & Hp) _]. apply lookup_zip_with_Some in Hi as (x & y & [= -> ->] & Hx & Hy). simpl in Hp. bsimpl.
  exists x. split; [lia|]. done.
Qed.

Lemma loaded_at_image i sec : secs !! i = Some sec -> sh_type sec <> SHT_NOBITS -> at_image sec.
Proof using All. intros Hi Hne. destruct (section_facts i sec Hi) as (_ & _ & _ & _ & a & _ & [[?|?] _]); done. Qed.

Lemma export_symbols_safe : safe (J false) (export_symbols slot image secs addrs) (fun _ => True).
Proof using All.
  unfold export_symbols. cbv zeta.
  set (idx := if first_section SHT_SYMTAB secs addrs <? 0 then first_section SHT_DYNSYM secs addrs else first_section SHT_SYMTAB secs addrs).
  assert (idx = -1 \/ exists sec, 0 <= idx /\ secs !! Z.to_nat idx = Some sec /\ (sh_type sec = SHT_SYMTAB \/ sh_type sec = SHT_DYNSYM)) as Hidx.
  { unfold idx. destruct (first_section_facts SHT_SYMTAB ltac:(done)) as [->|(sec & H1' & H2' & H3')]; simpl.
    - destruct (first_section_facts SHT_DYNSYM ltac:(done)) as [->|(sec & ? & ? & ?)]; [by left|right]. exists sec. auto.
    - destruct (Z.ltb_spec (first_section SHT_SYMTAB secs addrs) 0); [lia|]. right. exists sec. auto. }
  destruct Hidx as [->|(sec & Hi0 & Hsec & Hty)]; [by apply safe_ret|]. destruct (Z.ltb_spec idx 0); [lia|].
  destruct (section_facts _ _ Hsec) as (Hw & _ & _ & Hab & _). pose proof Hw as (Ho & Hsz & _ & _ & Hlink).
  eapply safe_read; [intros s; by apply elem_ok|]. case_if; [by apply safe_ret|]. bsimpl.
  destruct (lookup_lt_is_Some_2 secs (Z.to_nat (sh_link sec)) ltac:(lia)) as [str Hstr]. destruct (section_facts _ _ Hstr) as (Hwst & Hsst & _).
  eapply safe_read; [intros s; by apply elem_ok|]. destruct (Z.eqb_spec (sh_type str) SHT_STRTAB) as [Htys|]; [|by apply safe_ret]. cbn [negb].
  assert (at_image sec) as Hin by (apply (loaded_at_image _ _ Hsec); destruct Hty as [->| ->]; done).
  assert (names_end str) as Hne by (apply section_names; try done; apply (loaded_at_image _ _ Hstr); by rewrite Htys).
  eapply safe_bind; [|intros; by apply safe_ret]. apply safe_each. intros k Hk. unfold sizeof_Sym in *. unfold at_image in Hin.
  assert (0 <= sh_size sec / 16) by (apply Z.div_pos; lia). pose proof (Z.mul_div_le (sh_size sec) 16 ltac:(lia)).
  apply export_symbol_safe; [done|lia|lia|]. unfold abi_ok, inside in Hab. rewrite Hstr in Hab.
  destruct (Z.leb_spec (sh_offset sec + sh_size sec) (len img)); [|lia].
  assert (((sh_type sec =? SHT_SYMTAB) || (sh_type sec =? SHT_DYNSYM)) && true = true) as Et by (destruct Hty as [->| ->]; done). rewrite Et in Hab.
  pose proof (range_check _ 0 _ Hab k) as Hx. rewrite Z.add_0_l in Hx. apply Hx. unfold sizeof_Sym. lia.
Qed.
End Sections.

(** ** The whole image *)

Lemma fresh_late s : J true s -> J false s.
Proof using All.
  intros HJ. eapply during_also; [done|]. destruct (du_also _ _ _ _ _ _ HJ) as [(m & Hm & []) Hno]. split; [|done].
  exists m. split; [done|]. by constructor.
Qed.

(** Symbols of the module itself. *)
Lemma own_dlsym_safe name : terminated name ->
  safe (J false) (module_dlsym (0x4000 + slot) (Some name)) (fun a => chars name = chars abi_name -> a <> 0 -> in_pool a).
Proof using All.
  intros Hn s HJ. eapply wpf_mono; [by apply module_dlsym_ok|]. intros s' a [Hs' Ha]. split; [done|]. intros Hname Ha0.
  destruct Ha as [?|(i & m & k & e & Hm & Hu & Hh & He & Hk & Hch & ->)]; [done|].
  destruct (inv_object n s i m (du_inv _ _ _ _ _ _ HJ) Hm) as (_ & [_ _ _ _ C5] & _). specialize (C5 Hu).
  destruct (du_also _ _ _ _ _ _ HJ) as [(m' & Hm' & Ho) _]. assert (i = Z.to_nat slot) as -> by lia. assert (m' = m) as -> by congruence.
  apply (own_abi _ _ _ _ Ho k e); [done|done|]. by rewrite Hch.
Qed.

Lemma check_entries_safe : safe (J false) (check_entries slot) (fun _ => True).
Proof using All.
  unfold check_entries. eapply safe_bind; [apply module_safe|]. intros m [Hm _]. rewrite (own_handle _ _ _ _ Hm).
  eapply safe_bind; [apply own_dlsym_safe, cstr_terminated|]. intros init _.
  eapply safe_bind; [apply own_safe; intros m' [] []; split; [by constructor|split; [by constructor|done]]|]. intros _ _.
  eapply safe_bind; [apply own_dlsym_safe, cstr_terminated|]. intros fini _.
  eapply safe_bind; [apply own_safe; intros m' [] []; split; [by constructor|split; [by constructor|done]]|]. intros _ _.
  case_if; [|by apply safe_ret]. eapply safe_bind; [apply own_dlsym_safe, cstr_terminated|]. intros a Ha. cbv beta in Ha.
  destruct (Z.eqb_spec a 0); [by apply safe_ret|]. eapply safe_bind; [apply pool_load32_safe; by apply Ha|]. intros; by apply safe_ret.
Qed.

Lemma load_object_from_image_ok s : image_ok img = true -> J true s ->
  wpf never (load_object_from_image slot image (len img)) (fun s' _ => J false s') s.
Proof using All.
  intros Hok HJ. unfold load_object_from_image. eapply wpf_step; [apply elf_header_image|]. unfold image_ok in Hok.
  destruct (accepts img) as [[shoff shnum]|] eqn:Eacc; [|apply wpf_ret; by apply fresh_late].
  assert (shoff +u shnum *u sizeof_Shdr <= len img /\ shoff = f32 img 32 /\ shnum = f16 img 48) as (Hsz & Hsho & Hshn).
  { unfold accepts in Eacc. repeat (case_if; [done|]). bsimpl. injection Eacc as <- <-. split; [done|]. done. }
  bsimpl. set (secs := sections_of img shoff shnum) in *.
  pose proof (f32_range img Himg 32). pose proof (f16_range img Himg 48). rewrite <- Hsho, <- Hshn in *. unfold sizeof_Shdr in *.
  unfold NS_MODULE_LOAD_LIMIT in *. rewrite (u32_small (shnum * 40)), u32_small in Hsz by (rewrite ?u32_small; lia).
  assert (forall e1, safe (J e1) (set_module slot (fun m => m <| lo_image_base := 0 |>)) (fun _ => True)) as Hbase.
  { intros e1. apply own_safe. intros m' [] []. split; [by constructor|split; [by constructor|done]]. }
  eapply wpf_seq; [by apply (Hbase true)|]. intros s1 _ [Hs1 _]. clear Hbase HJ.
  eapply wpf_step; [apply read_sections_image; unfold sizeof_Shdr; lia|]. rewrite Z2Nat.id by lia. fold (sections_of img shoff shnum). fold secs.
  assert (forall P, forallb P secs = true -> Forall (fun sec => P sec = true) secs) as Hall.
  { intros P HP. apply list.Forall_forall. intros x Hx. by apply (proj1 (forallb_forall P secs) HP), list_elem_of_In. }
  assert (Forall sec_wf secs) as Hwf by apply sections_wf.
  eapply wpf_seq; [by apply (load_sections_safe true secs); [|apply Hall|]|]. intros s2 [addrs|] [Hs2 Hld]; [|apply wpf_ret; by apply fresh_late].
  eapply wpf_seq; [by apply (relocate_sections_safe secs addrs); [| | apply Hall | apply Hall | | |]; try apply Hall|].
  intros s3 ok [Hs3 _]. apply fresh_late in Hs3. destruct ok; [|by apply wpf_ret]. cbn [negb].
  eapply wpf_seq; [by apply (export_symbols_safe secs addrs); try apply Hall|].
  intros s4 ok [Hs4 _]. destruct ok; [|by apply wpf_ret]. cbn [negb].
  eapply wpf_mono; [by apply check_entries_safe|]. by intros s5 r [? _].
Qed.
End WithImage.
End Loading.
