(* ===== verification/LoaderRuns.v ===== *)
(** * Module loader: what the theorems say

    In every sequence of calls each handle a task holds stays valid and names the same
    module, the modules it depends on stay loaded, and loading one more module does not
    touch the memory of those that are there. *)
From Stdlib Require Import Ascii String.
From S2P Require Import Prelude Fault Bytes Buffers VfsDefs Task Loader LoaderImage LoaderCalls LoaderSpec LoaderInv LoaderRefs LoaderLoad.

(** What the file system promises: the bytes it stored fit, and a result that is a size is
    their number; the images are those [image_ok] is about. *)
Definition files_ok (fs : ModuleFiles) : Prop :=
  forall path, let '(n, bytes) := vfs_read_file fs path NS_MODULE_LOAD_LIMIT in
    len bytes <= NS_MODULE_LOAD_LIMIT /\ (0 < n -> n = len bytes /\ Forall is_byte bytes /\ image_ok bytes = true).

Definition text_ok (t : option (list Z)) : Prop := match t with Some t => terminated t | None => True end.

Section Runs.
Context `{LoaderEnvOk}.

Definition refs_of (s : Loader) : list (list Z) := map lo_task_refs (g_modules s).

Lemma during_refl n s : loader_inv n s -> during true n s (refs_of s) anything s.
Proof. intros HI. constructor; [done|apply loader_kept_refl|intros; apply pool_kept_refl|done|done]. Qed.

Lemma during_mono b n n' s0 T P s : during b n s0 T P s -> n <= n' -> during b n' s0 T P s.
Proof. intros [] Hn. constructor; try done. by apply inv_mono with n. Qed.

Lemma during_false b n s0 T P s : during b n s0 T P s -> during false n s0 T P s.
Proof. intros []. by constructor. Qed.

(** ** Slots of modules *)

Lemma kept_free s0 s i m' : kept s0 s -> (forall m0, g_modules s0 !! i = Some m0 -> lo_used m0 = 0) -> kept s0 (upd_modules <[i := m']> s).
Proof.
  intros Hk Hfree j m0 Hj Hu. destruct (decide (j = i)) as [->|Hne]; [by apply Hfree in Hj|].
  destruct (Hk j m0 Hj Hu) as (mj & Hmj & Hs). exists mj. cbn. by rewrite list_lookup_insert_ne.
Qed.

(** The new contents of a free slot. *)
Lemma during_new n s0 T s slot kind m0 m' : during true n s0 T anything s -> 0 <= slot -> g_modules s !! Z.to_nat slot = Some m0 -> lo_used m0 = 0 ->
  (forall m, g_modules s0 !! Z.to_nat slot = Some m -> lo_used m = 0) -> own slot kind true m' -> object_wf m' -> live_deps m' = [] ->
  during true (n + 1) s0 T (fresh slot kind true) (upd_modules <[Z.to_nat slot := m']> s).
Proof.
  intros [HI Hk Hp Hr _] Hs0 Hm Hu Hfree Ho Hw Hl.
  assert (lo_ref_count m0 = 0) as Hz by (destruct (inv_object n s _ m0 HI Hm) as (_ & [_ _ _ C4 _] & _); by apply C4).
  destruct (unused_facts n s _ m0 HI Hm Hz) as (Hno & Ht & _). pose proof HI as [].
  assert (all_counts [] (n + 1) (<[Z.to_nat slot := m']> (g_modules s))) as Hc.
  { rewrite <- (list_insert_insert_eq _ _ m' zero_object). apply counts_set with (n + 1) zero_object; [|lia|by rewrite Hl| |].
    - rewrite list_lookup_insert_eq; [done|by eapply lookup_lt_Some].
    - apply counts_clear with m0 []; try done. intros d Hd. by apply elem_of_nil in Hd.
    - pose proof (depends_sum (Z.of_nat (Z.to_nat slot)) (<[Z.to_nat slot := zero_object]> (g_modules s))) as [Hds _]. destruct Ho. constructor; try lia.
      unfold uses. rewrite own_kernel, own_ref, own_tasks. change (zsum id (zero_bytes MAX_TASKS)) with 0.
      rewrite (no_dependents_sum (<[_ := zero_object]> _)); [case_bool_decide; lia|].
      intros x Hx. apply list_elem_of_lookup in Hx as [j Hj]. apply list_lookup_insert_Some in Hj as [(_ & <- & _)|[_ Hj]]; [apply not_elem_of_nil|].
      apply Hno. by eapply list_elem_of_lookup_2. }
  constructor.
  - constructor; cbn; try done; [lia|by rewrite length_insert|by apply Forall_insert].
  - by apply kept_free.
  - intros Hb. by apply pool_kept_set, Hp.
  - rewrite (refs_set _ _ m0); [done|done|]. by rewrite Ht, (own_tasks _ _ _ _ Ho).
  - cbn. split; [exists m'; rewrite list_lookup_insert_eq by (by eapply lookup_lt_Some); done|].
    intros x Hx. apply list_elem_of_lookup in Hx as [j Hj]. apply list_lookup_insert_Some in Hj as [(_ & <- & _)|[_ Hj]].
    + rewrite Hl. apply not_elem_of_nil.
    + rewrite Z2Nat.id in Hno by lia. apply Hno. by eapply list_elem_of_lookup_2.
Qed.

(** A load that failed gives its slot back. *)
Lemma during_drop n s0 T s slot kind : during true n s0 T (fresh slot kind false) s -> 0 <= slot ->
  (forall m, g_modules s0 !! Z.to_nat slot = Some m -> lo_used m = 0) ->
  during true (n + 1) s0 T anything (upd_modules <[Z.to_nat slot := zero_object]> s).
Proof.
  intros [HI Hk Hp Hr [(m & Hm & Ho) Hno]] Hs0 Hfree. pose proof HI as []. constructor.
  - constructor; cbn; try done; [lia|by rewrite length_insert| |].
    + apply Forall_insert; [done|]. constructor; cbn; try done; try lia; [apply NoDup_nil_2|by apply Forall_replicate| |].
      * split; [done|]. unfold terminated. constructor.
      * split; [done|]. split; [done|]. apply Forall_replicate. split; [done|]. constructor.
    + apply counts_clear with m []; try done; [intros d Hd; by apply elem_of_nil in Hd|]. by rewrite Z2Nat.id.
  - by apply kept_free.
  - intros Hb. by apply pool_kept_set, Hp.
  - rewrite (refs_set _ _ m); [done|done|]. by rewrite (own_tasks _ _ _ _ Ho).
  - done.
Qed.

(** A use that is counted but not entered anywhere yet. *)
Definition spare (s : Loader) (i : nat) (kind : Z) : Prop :=
  exists m, g_modules s !! i = Some m /\ lo_used m <> 0 /\ lo_kind m = kind /\ uses (g_modules s) (Z.of_nat i) m + 1 <= lo_ref_count m.

Lemma fresh_spare n s0 T s slot kind : during true n s0 T (fresh slot kind false) s -> 0 <= slot -> spare s (Z.to_nat slot) kind.
Proof.
  intros [_ _ _ _ [(m & Hm & []) Hno]] Hs. exists m. split; [done|]. split; [lia|]. split; [done|]. unfold uses.
  rewrite own_kernel, own_ref, own_tasks, no_dependents_sum; [done|]. by rewrite Z2Nat.id.
Qed.

(** ** Loading *)

Lemma path_slot_ok path kind n s : loader_inv n s -> terminated path ->
  find_module_slot_by_path path kind s = Done s (slot_where (fun m => if lo_used m =? 0 then false else if lo_kind m =? kind then bool_decide (chars (lo_path m) = chars path) else false) s).
Proof.
  intros HI Hp. apply find_slot_ok; [by apply li_length with n|]. intros m Hm. case_if; [done|]. case_if; [|done].
  apply str_eq_local_ok; [|done]. apply list_elem_of_lookup in Hm as [i Hi]. destruct (inv_object n s i m HI Hi) as (Hw & _). apply (ob_path m Hw).
Qed.

Lemma during_buf n s0 T s buf : during true n s0 T anything s -> Z.of_nat (List.length buf) = NS_MODULE_LOAD_LIMIT -> during true n s0 T anything (s <| g_load_buf := buf |>).
Proof.
  intros [[] Hk Hp Hr Ha] Hl. constructor; cbn; try done. intros Hb. destruct (Hp Hb). by constructor.
Qed.

Lemma load_new_module_ok fs path kind n s : loader_inv n s -> n + 3 <= FEW -> files_ok fs -> text_ok path ->
  wpf never (load_new_module fs path kind) (fun s' h => during true (n + 2) s (refs_of s) anything s' /\
    (h = -1 \/ exists i, h = 0x4000 + Z.of_nat i /\ spare s' i kind)) s.
Proof.
  intros HI Hfew Hfs Hpath. pose proof (during_refl n s HI) as HJ. unfold load_new_module.
  assert (during true (n + 2) s (refs_of s) anything s) as HJ2 by (apply during_mono with n; [done|lia]).
  destruct path as [path|]; [|by apply wpf_ret; auto]. simpl in Hpath.
  destruct (rd_head (S := Loader) path s Hpath) as (c & Hc & _). eapply wpf_step; [exact Hc|]. case_if; [by apply wpf_ret; auto|].
  eapply wpf_step; [by apply (path_slot_ok path kind n)|].
  destruct (slot_where_cases (fun m => if lo_used m =? 0 then false else if lo_kind m =? kind then bool_decide (chars (lo_path m) = chars path) else false) s) as [->|(Hi & m & Hm & Hp)].
  2: { set (i := slot_where _ s) in *. destruct (Z.leb_spec 0 i); [|lia].
    assert (lo_used m <> 0 /\ lo_kind m = kind) as [Hu Hk] by (repeat case_if; bsimpl; done). destruct (inv_object n s _ m HI Hm) as (Hw & [C1 C2 C3 C4 C5] & _).
    pose proof (depends_sum (Z.of_nat (Z.to_nat i)) (g_modules s)) as Hds. pose proof (li_length n s HI). unfold FEW, NS_MODULE_MAX in *.
    eapply wpf_step; [by apply set_module_ok|]. cbv beta. rewrite i32_small by (unfold is_i32; lia).
    eapply wpf_step; [apply module_ok; [done|]; cbn; apply list_lookup_insert_eq; by eapply lookup_lt_Some|]. apply wpf_ret.
    assert (uses (g_modules s) (Z.of_nat (Z.to_nat i)) m <= lo_ref_count m) as Hlow by (rewrite bool_decide_false in C1 by apply not_elem_of_nil; lia).
    assert (zsum (depends (Z.of_nat (Z.to_nat i))) (<[Z.to_nat i := m <| lo_ref_count := lo_ref_count m + 1 |>]> (g_modules s)) = zsum (depends (Z.of_nat (Z.to_nat i))) (g_modules s)) as Es.
    { rewrite (zsum_insert _ _ _ _ _ Hm). replace (depends _ (m <| lo_ref_count := lo_ref_count m + 1 |>)) with (depends (Z.of_nat (Z.to_nat i)) m) by done. lia. }
    split.
    - apply during_mono with (n + 1); [|lia]. apply during_set with n m; try done; [lia| |].
      + destruct Hw. by constructor.
      + constructor; [|cbn -[zsum]; lia|cbn; lia|done|done].
        change (uses (g_modules s) (Z.of_nat (Z.to_nat i)) m <= lo_ref_count m + 1 + (if bool_decide (Z.of_nat (Z.to_nat i) ∈ []) then 1 else 0)). case_bool_decide; lia.
    - right. exists (Z.to_nat i). split; [cbn; rewrite (C5 Hu); lia|]. eexists. split; [cbn; apply list_lookup_insert_eq; by eapply lookup_lt_Some|].
      split; [done|]. split; [done|]. unfold uses in *. cbn -[zsum]. rewrite Es. lia. }
  change (0 <=? -1) with false. cbv iota. destruct (vfs_stat fs path) as [[rc flags] size]. case_if; [by apply wpf_ret; auto|].
  specialize (Hfs path). destruct (vfs_read_file fs path NS_MODULE_LOAD_LIMIT) as [r bytes]. destruct Hfs as [Hbl Hb].
  eapply wpf_step; [done|]. pose proof (li_buf n s HI) as Hbuf. assert (fits 0 bytes (g_load_buf s)) as Hf by (unfold fits, len in *; lia).
  eapply wpf_step; [by apply put_ok|]. set (buf := splice 0 bytes (g_load_buf s)). eapply wpf_step; [done|].
  assert (buf = bytes ++ drop (List.length bytes) (g_load_buf s)) as Ebuf by done.
  assert (Z.of_nat (List.length buf) = NS_MODULE_LOAD_LIMIT) as Hbufl by (unfold buf; by rewrite splice_length).
  pose proof (during_buf n s _ s buf HJ Hbufl) as HJb. set (s1 := s <| g_load_buf := buf |>) in *.
  assert (during true (n + 2) s (refs_of s) anything s1) as HJ1 by (apply during_mono with n; [done|lia]).
  case_if; [by apply wpf_ret; auto|]. bsimpl. destruct (Hb ltac:(lia)) as (-> & Hbytes & Himg). pose proof (du_inv _ _ _ _ _ _ HJb) as HI1.
  eapply wpf_step; [apply find_slot_ok with (p := fun m => lo_used m =? 0); [by apply li_length with n|done]|].
  destruct (slot_where_cases (fun m => lo_used m =? 0) s1) as [->|(Hi & m & Hm & Hp)]; [by apply wpf_ret; auto|].
  set (slot := slot_where _ s1) in *. destruct (Z.ltb_spec slot 0); [lia|]. bsimpl. destruct (inv_object n s1 _ m HI1 Hm) as (_ & _ & Hmax).
  destruct (text_copy_ok (lo_path zero_object) NS_PATH_LEN path s1 ltac:(by vm_compute) Hpath) as (text & Htext & Htl & Htt & _).
  eapply wpf_step; [exact Htext|]. eapply wpf_step; [by apply set_module_ok|]. cbv beta.
  set (m1 := zero_object <| lo_used := 1 |> <| lo_kind := kind |> <| lo_handle := 0x4000 + slot |> <| lo_ref_count := 1 |> <| lo_path := text |>).
  assert (forall m0, g_modules s !! Z.to_nat slot = Some m0 -> lo_used m0 = 0) as Hfree by (intros m0 Hm0; change (g_modules s1) with (g_modules s) in Hm; congruence).
  assert (during true (n + 1) s (refs_of s) (fresh slot kind true) (upd_modules <[Z.to_nat slot := m1]> s1)) as HJ3.
  { apply during_new with m; try done.
    - constructor; cbn; try done. intros i e _ Hlt. simpl in Hlt. lia.
    - constructor; cbn; try done; try lia; [apply NoDup_nil_2|by apply Forall_replicate|split; [by rewrite Htl|done]|].
      split; [done|]. split; [done|]. apply Forall_replicate. split; [done|]. constructor. }
  rewrite Ebuf. eapply wpf_seq; [apply (load_object_from_image_ok (n + 1) s (refs_of s) slot kind); try done; try lia; by apply li_cursor with n|].
  intros s4 ok Hs4. destruct (du_also _ _ _ _ _ _ Hs4) as [(m4 & Hm4 & Ho4) _]. destruct ok; cbn [negb].
  - eapply wpf_step; [by apply module_ok|]. apply wpf_ret. split; [apply during_mono with (n + 1); [by eapply during_also|lia]|]. right. exists (Z.to_nat slot).
    split; [rewrite (own_handle _ _ _ _ Ho4); lia|]. by eapply fresh_spare.
  - eapply wpf_step; [by apply set_module_ok|]. apply wpf_ret. split; [|by left]. replace (n + 2) with (n + 1 + 1) by lia. by apply during_drop with kind.
Qed.

(** ** Uses *)

(** A handle names its slot. *)
Lemma handle_slot n s i m : loader_inv n s -> g_modules s !! i = Some m -> lo_used m <> 0 ->
  find_module_slot_by_handle (0x4000 + Z.of_nat i) s = Done s (Z.of_nat i).
Proof.
  intros HI Hm Hu. rewrite find_handle_ok by (by apply li_length with n). f_equal. set (p := fun x => _).
  destruct (inv_object n s i m HI Hm) as (_ & [_ _ _ _ C5] & _).
  assert (p m = true) as Hp by (unfold p; rewrite (C5 Hu), Z.eqb_refl; by destruct (Z.eqb_spec (lo_used m) 0)).
  unfold slot_where. destruct (find_idx_is_Some p _ _ _ Hm Hp) as [j Hj]. rewrite Hj. simpl.
  apply find_idx_Some in Hj as [(mj & Hmj & Hpj) _]. unfold p in Hpj. bsimpl.
  destruct (inv_object n s j mj HI Hmj) as (_ & [_ _ _ _ D5] & _). destruct (Z.eqb_spec (lo_used mj) 0); [done|]. specialize (D5 ltac:(done)). lia.
Qed.

(** The references of a task to one module, changed. *)
Definition bump (T : list (list Z)) (i t : nat) (d : Z) : list (list Z) := alter (alter (fun r => r + d) t) i T.

Lemma zsum_alter l t r d : l !! t = Some r -> zsum id (<[t := r + d]> l) = zsum id l + d.
Proof. intros Hr. rewrite (zsum_insert _ _ _ _ _ Hr). unfold id. lia. Qed.

Lemma refs_bump s i m t r d : g_modules s !! i = Some m -> lo_task_refs m !! t = Some r ->
  map lo_task_refs (<[i := m <| lo_task_refs ::= <[t := r + d]> |>]> (g_modules s)) = bump (refs_of s) i t d.
Proof.
  intros Hm Hr. unfold bump, refs_of. apply list_eq. intros j. rewrite list_lookup_fmap. destruct (decide (i = j)) as [<-|Hne].
  - rewrite list_lookup_insert_eq by (by eapply lookup_lt_Some). rewrite list_lookup_alter_eq, list_lookup_fmap, Hm. simpl. f_equal.
    apply list_eq. intros k. destruct (decide (t = k)) as [<-|Hne].
    + rewrite list_lookup_insert_eq by (by eapply lookup_lt_Some). by rewrite list_lookup_alter_eq, Hr.
    + by rewrite list_lookup_insert_ne, list_lookup_alter_ne.
  - rewrite list_lookup_insert_ne, list_lookup_alter_ne by done. by rewrite list_lookup_fmap.
Qed.

(** An update of counters that keeps the invariant. *)
Lemma during_counts b n s0 T T' s i m m' : during b n s0 T anything s -> g_modules s !! i = Some m -> object_wf m' -> live_deps m' = live_deps m ->
  same_module m m' -> 0 <= lo_ref_count m' <= lo_ref_count m -> (lo_used m <> 0) -> uses (g_modules s) (Z.of_nat i) m' <= lo_ref_count m' ->
  map lo_task_refs (<[i := m']> (g_modules s)) = T' -> during b n s0 T' anything (upd_modules <[i := m']> s).
Proof.
  intros [HI Hk Hp Hr _] Hm Hw Hl Hs Href Hu Hc HT. destruct (inv_object n s i m HI Hm) as (_ & [C1 C2 C3 C4 C5] & _).
  pose proof Hs as (E1 & _ & E3 & _). constructor; [|by apply kept_set with m; [..|left]| |done|done].
  - apply inv_set with n m; try done. constructor; [case_bool_decide; lia|lia|lia|by rewrite E1|by rewrite E1, E3].
  - intros Hb. by apply pool_kept_set, Hp.
Qed.

Lemma task_ref_ok m t : object_wf m -> 0 <= t < MAX_TASKS -> exists r, lo_task_refs m !! Z.to_nat t = Some r /\ 0 <= r <= zsum id (lo_task_refs m).
Proof.
  intros Hw Ht. pose proof (ob_refs m Hw). destruct (lookup_lt_is_Some_2 (lo_task_refs m) (Z.to_nat t) ltac:(lia)) as [r Hr].
  exists r. split; [done|]. pose proof (list.Forall_forall (fun r => 0 <= r) (lo_task_refs m)) as [Hf _]. specialize (Hf (ob_refs_pos m Hw)).
  split; [by apply Hf; eapply list_elem_of_lookup_2|]. apply (zsum_in id); [intros y Hy; by apply Hf|by eapply list_elem_of_lookup_2].
Qed.

Lemma add_task_ref_exact s i m t r d : g_modules s !! i = Some m -> 0 <= t -> lo_task_refs m !! Z.to_nat t = Some r -> is_i32 (r + d) ->
  add_task_ref (Z.of_nat i) t d s = Done (upd_modules <[i := m <| lo_task_refs ::= <[Z.to_nat t := r + d]> |>]> s) tt.
Proof.
  intros Hm Ht Hr Hi. unfold add_task_ref, mbind, FST_bind. rewrite (module_ok _ m) by (lia || by rewrite Nat2Z.id).
  rewrite (elem_ok _ t r) by done. rewrite (set_module_ok _ _ m) by (lia || by rewrite Nat2Z.id). cbv beta. by rewrite Nat2Z.id, i32_small.
Qed.

Lemma object_wf_refs m t r : object_wf m -> 0 <= r -> object_wf (m <| lo_task_refs ::= <[t := r]> |>).
Proof. intros [] Hr. constructor; cbn; try done; [by rewrite length_insert|by apply Forall_insert]. Qed.

(** One more reference of a task, for a use that was counted. *)
Lemma add_task_ref_up b n s0 s i kind t : during b n s0 (refs_of s) anything s -> n <= FEW -> spare s i kind -> 0 <= t < MAX_TASKS ->
  exists s', add_task_ref (Z.of_nat i) t 1 s = Done s' tt /\ during b n s0 (bump (refs_of s) i (Z.to_nat t) 1) anything s' /\
    exists m, g_modules s' !! i = Some m /\ lo_used m <> 0.
Proof.
  intros HJ Hn (m & Hm & Hu & Hk & Hc) Ht. destruct (inv_object n s i m (du_inv _ _ _ _ _ _ HJ) Hm) as (Hw & [_ C2 C3 _ _] & _).
  destruct (task_ref_ok m t Hw Ht) as (r & Hr & Hr0). pose proof (uses_nonneg (g_modules s) (Z.of_nat i) m Hw) as (U1 & U2 & U3).
  pose proof (depends_sum (Z.of_nat i) (g_modules s)) as Hds. pose proof (li_length n s (du_inv _ _ _ _ _ _ HJ)) as Hlen.
  eexists. split; [apply add_task_ref_exact; [done|lia|done|]|].
  { unfold is_i32, uses, FEW, NS_MODULE_MAX in *. lia. }
  split.
  - apply during_counts with (refs_of s) m; try done; [apply object_wf_refs; [done|lia]| |by apply refs_bump].
    unfold uses in *. cbn -[zsum]. rewrite zsum_alter by done. lia.
  - eexists. split; [cbn; apply list_lookup_insert_eq; by eapply lookup_lt_Some|done].
Qed.

(** One reference less leaves a use to spare, which [drop_ref] takes. *)
Lemma drop_ref_ok b n s0 T s i kind : during b n s0 T anything s -> spare s i kind ->
  exists s', drop_ref (Z.of_nat i) s = Done s' tt /\ during b n s0 T anything s' /\ exists m, g_modules s' !! i = Some m /\ lo_used m <> 0.
Proof.
  intros HJ (m & Hm & Hu & Hk & Hc). destruct (inv_object n s i m (du_inv _ _ _ _ _ _ HJ) Hm) as (Hw & _).
  pose proof (uses_nonneg (g_modules s) (Z.of_nat i) m Hw) as (U1 & U2 & U3). pose proof (depends_sum (Z.of_nat i) (g_modules s)) as [Hds _].
  unfold drop_ref. rewrite (set_module_ok _ _ m) by (lia || by rewrite Nat2Z.id). rewrite Nat2Z.id.
  destruct (Z.ltb_spec 0 (lo_ref_count m)); [|unfold uses in *; lia]. eexists. split; [done|]. split.
  - apply during_counts with T m; try done; cbn -[uses zsum]; try lia.
    + destruct Hw. by constructor.
    + change (uses (g_modules s) (Z.of_nat i) (m <| lo_ref_count := lo_ref_count m - 1 |>)) with (uses (g_modules s) (Z.of_nat i) m). lia.
    + rewrite <- (du_refs _ _ _ _ _ _ HJ). by apply (refs_set s i m).
  - eexists. split; [cbn; apply list_lookup_insert_eq; by eapply lookup_lt_Some|done].
Qed.

Lemma add_task_ref_down b n s0 s i m t r : during b n s0 (refs_of s) anything s -> n <= FEW -> g_modules s !! i = Some m -> lo_used m <> 0 ->
  0 <= t < MAX_TASKS -> lo_task_refs m !! Z.to_nat t = Some r -> 0 < r ->
  exists s', add_task_ref (Z.of_nat i) t (-1) s = Done s' tt /\ during b n s0 (bump (refs_of s) i (Z.to_nat t) (-1)) anything s' /\ spare s' i (lo_kind m).
Proof.
  intros HJ Hn Hm Hu Ht Hr Hr0. destruct (inv_object n s i m (du_inv _ _ _ _ _ _ HJ) Hm) as (Hw & [C1 C2 C3 _ _] & _).
  rewrite bool_decide_false in C1 by apply not_elem_of_nil. destruct (task_ref_ok m t Hw Ht) as (r' & Hr' & Hrs). assert (r' = r) as -> by congruence.
  pose proof (depends_sum (Z.of_nat i) (g_modules s)) as Hds. pose proof (li_length n s (du_inv _ _ _ _ _ _ HJ)) as Hlen.
  pose proof (uses_nonneg (g_modules s) (Z.of_nat i) m Hw) as (U1 & U2 & U3).
  assert (uses (g_modules s) (Z.of_nat i) (m <| lo_task_refs ::= <[Z.to_nat t := r + -1]> |>) + 1 = uses (g_modules s) (Z.of_nat i) m) as Eu.
  { unfold uses. cbn -[zsum]. rewrite zsum_alter by done. lia. }
  eexists. split; [apply add_task_ref_exact; [done|lia|done|]|].
  { unfold is_i32, uses, FEW, NS_MODULE_MAX in *. lia. }
  split.
  - apply during_counts with (refs_of s) m; try done; [apply object_wf_refs; [done|lia]|cbn -[uses]; lia|by apply refs_bump].
  - eexists. split; [cbn; apply list_lookup_insert_eq; by eapply lookup_lt_Some|]. split; [done|]. split; [done|].
    cbn -[uses]. unfold uses in *. rewrite (zsum_insert _ _ _ _ _ Hm).
    replace (depends (Z.of_nat i) (m <| lo_task_refs ::= <[Z.to_nat t := r + -1]> |>)) with (depends (Z.of_nat i) m) by done. cbn -[zsum] in *. lia.
Qed.

Lemma kernel_refs_counts b n s0 T s i m k : during b n s0 T anything s -> g_modules s !! i = Some m -> lo_used m <> 0 -> 0 <= k ->
  uses (g_modules s) (Z.of_nat i) m + (k - lo_kernel_refs m) <= lo_ref_count m -> 
  during b n s0 T anything (upd_modules <[i := m <| lo_kernel_refs := k |>]> s).
Proof.
  intros HJ Hm Hu Hk Hc. destruct (inv_object n s i m (du_inv _ _ _ _ _ _ HJ) Hm) as (Hw & [_ _ C3 _ _] & _).
  apply during_counts with T m; try done; [destruct Hw; by constructor|unfold uses in *; cbn -[zsum]; lia|].
  rewrite <- (du_refs _ _ _ _ _ _ HJ). by apply (refs_set s i m).
Qed.

Lemma add_kernel_ref_ok b n s0 T s i kind : during b n s0 T anything s -> n <= FEW -> spare s i kind ->
  exists s', add_kernel_ref (Z.of_nat i) s = Done s' tt /\ during b n s0 T anything s' /\
    exists m, g_modules s' !! i = Some m /\ lo_used m <> 0 /\ 0 < lo_kernel_refs m.
Proof.
  intros HJ Hn (m & Hm & Hu & _ & Hc). destruct (inv_object n s i m (du_inv _ _ _ _ _ _ HJ) Hm) as (Hw & [_ C2 C3 _ _] & _).
  pose proof (uses_nonneg (g_modules s) (Z.of_nat i) m Hw) as (U1 & U2 & U3). pose proof (depends_sum (Z.of_nat i) (g_modules s)) as Hds.
  pose proof (li_length n s (du_inv _ _ _ _ _ _ HJ)) as Hlen. unfold add_kernel_ref.
  rewrite (set_module_ok _ _ m) by (lia || by rewrite Nat2Z.id). rewrite Nat2Z.id, i32_small by (unfold is_i32, uses, FEW, NS_MODULE_MAX in *; lia).
  eexists. split; [done|]. split; [by apply kernel_refs_counts with (k := lo_kernel_refs m + 1); try done; lia|].
  eexists. split; [cbn; apply list_lookup_insert_eq; by eapply lookup_lt_Some|]. split; [done|]. cbn. lia.
Qed.

Lemma drop_kernel_ref_ok b n s0 T s i m : during b n s0 T anything s -> g_modules s !! i = Some m -> lo_used m <> 0 -> 0 < lo_kernel_refs m ->
  exists s', drop_kernel_ref (Z.of_nat i) s = Done s' tt /\ during b n s0 T anything s' /\ spare s' i (lo_kind m).
Proof.
  intros HJ Hm Hu Hk. destruct (inv_object n s i m (du_inv _ _ _ _ _ _ HJ) Hm) as (Hw & [C1 _ _ _ _] & _).
  rewrite bool_decide_false in C1 by apply not_elem_of_nil. unfold drop_kernel_ref. rewrite (set_module_ok _ _ m) by (lia || by rewrite Nat2Z.id).
  rewrite Nat2Z.id. destruct (Z.ltb_spec 0 (lo_kernel_refs m)); [|lia]. eexists. split; [done|].
  split; [by apply kernel_refs_counts with (k := lo_kernel_refs m - 1); try done; lia|].
  eexists. split; [cbn; apply list_lookup_insert_eq; by eapply lookup_lt_Some|]. split; [done|]. split; [done|].
  unfold uses in *. cbn -[zsum]. rewrite (zsum_insert _ _ _ _ _ Hm).
  replace (depends _ (m <| lo_kernel_refs := lo_kernel_refs m - 1 |>)) with (depends (Z.of_nat i) m) by done. cbn -[zsum]. lia.
Qed.

(** ** The calls *)

(** The references of the tasks after an open and after a close. *)
Definition opened (T : list (list Z)) (t h : Z) : list (list Z) := if h <? 0 then T else bump T (Z.to_nat (h - 0x4000)) (Z.to_nat t) 1.
Definition closed (T : list (list Z)) (t h r : Z) : list (list Z) := if r =? 0 then bump T (Z.to_nat (h - 0x4000)) (Z.to_nat t) (-1) else T.

Lemma failed_ok {b n s0 T P} (m : lcall unit) s (r : Z) : safe (during b n s0 T P) m (fun _ => True) -> during b n s0 T P s ->
  wpf never (m ≫= fun _ => mret r) (fun s' r' => during b n s0 T P s' /\ r' = r) s.
Proof. intros Hm Hs. eapply wpf_seq; [by apply Hm|]. intros s' [] [Hs' _]. by apply wpf_ret. Qed.

Lemma module_dlopen_for_task_ok fs t path n s : loader_inv n s -> n + 3 <= FEW -> files_ok fs -> text_ok path ->
  wpf never (module_dlopen_for_task fs t path) (fun s' h => during true (n + 2) s (opened (refs_of s) t h) anything s' /\
    (h = -1 \/ (0 <= t /\ exists i : nat, h = 0x4000 + Z.of_nat i))) s.
Proof.
  intros HI Hn Hfs Hp. unfold module_dlopen_for_task. pose proof (during_refl n s HI) as HJ.
  destruct ((t <? 0) || (MAX_TASKS <=? t)) eqn:Et; [apply wpf_ret; split; [apply during_mono with n; [done|lia]|by left]|]. bsimpl.
  eapply wpf_seq; [by apply (clear_dlerror_for_task_safe true n s (refs_of s) (eq (g_modules s)) t); eapply during_also|].
  intros s1 [] [HJ1 _]. pose proof (du_also _ _ _ _ _ _ HJ1) as Em. pose proof (du_inv _ _ _ _ _ _ HJ1) as HI1.
  assert (forall b m T' P x, during b m s1 T' P x -> during b m s T' P x) as Hback.
  { intros b m T' P x [X1 X2 X3 X4 X5]. destruct HJ1 as [_ _ Y3 _ _]. constructor; try done.
    - intros i m0 Hm0 Hu. apply X2; [by rewrite <- Em|done].
    - intros Hb. specialize (X3 Hb). specialize (Y3 eq_refl). destruct X3 as [X31 X32 X33], Y3 as [Y31 Y32 Y33]. constructor; [lia| |].
      + intros o Ho Hno. rewrite X32, Y32; [done|done|done|done|]. intros [Hc|Hw]; [apply Hno; left; lia|apply Hno, Y33, Hw].
      + intros o Ho. apply X33 in Ho as [Hc|Hw]; [left; lia|by apply Y33]. }
  assert (refs_of s1 = refs_of s) as Er by (by apply (du_refs _ _ _ _ _ _ HJ1)).
  eapply wpf_seq; [by apply (load_new_module_ok fs path NS_MODULE_KIND_LIBRARY n)|]. intros s2 h [HJ2 Hh]. apply Hback in HJ2. rewrite Er in HJ2.
  destruct (Z.ltb_spec h 0) as [Hneg|Hpos].
  { eapply wpf_mono; [eapply failed_ok; [apply set_dlerror_for_task_safe|done]|]. intros s3 r [Hs3 ->]. split; [done|by left]. }
  destruct Hh as [?|(i & -> & Hsp)]; [lia|]. pose proof Hsp as (m & Hm & Hu & _). pose proof (du_inv _ _ _ _ _ _ HJ2) as HI2.
  eapply wpf_step; [by eapply handle_slot|]. destruct (Z.ltb_spec (Z.of_nat i) 0); [lia|].
  assert (refs_of s2 = refs_of s) as Er2 by (by apply (du_refs _ _ _ _ _ _ HJ2)). rewrite <- Er2 in HJ2.
  destruct (add_task_ref_up true (n + 2) s s2 i NS_MODULE_KIND_LIBRARY t HJ2 ltac:(lia) Hsp ltac:(lia)) as (s3 & Hadd & HJ3 & _).
  eapply wpf_step; [exact Hadd|]. eapply wpf_seq; [by apply (try_resolve_pending_relocs_safe true (n + 2) s); [lia|]|]. intros s4 k [HJ4 _].
  eapply wpf_seq with (R := fun x _ => during true (n + 2) s (bump (refs_of s2) i (Z.to_nat t) 1) anything x).
  { case_if; [|by apply wpf_ret]. eapply wpf_mono; [by apply set_dlerror_for_task_safe|]. by intros x u [? _]. }
  intros s5 [] HJ5. apply wpf_ret. split; [|right; split; [lia|by exists i]]. unfold opened. destruct (Z.ltb_spec (0x4000 + Z.of_nat i) 0); [lia|].
  replace (Z.to_nat (0x4000 + Z.of_nat i - 0x4000)) with i by lia. by rewrite <- Er2.
Qed.

Lemma module_dlclose_for_task_ok t h n s : loader_inv n s -> n + 1 <= FEW ->
  wpf never (module_dlclose_for_task t h) (fun s' r => during true (n + 1) s (closed (refs_of s) t h r) anything s' /\
    (r <> 0 \/ (0 <= t /\ exists i : nat, h = 0x4000 + Z.of_nat i))) s.
Proof.
  intros HI Hn. unfold module_dlclose_for_task. pose proof (during_refl n s HI) as HJ.
  destruct ((t <? 0) || (MAX_TASKS <=? t)) eqn:Et; [apply wpf_ret; split; [apply during_mono with n; [done|lia]|by left]|]. bsimpl.
  eapply wpf_seq; [by apply clear_dlerror_for_task_safe|]. intros s1 [] [HJ1 _]. pose proof (du_inv _ _ _ _ _ _ HJ1) as HI1.
  assert (forall msg x, during true n s (refs_of s) anything x ->
    wpf never (set_dlerror_for_task t msg ≫= fun _ => mret (-1)) (fun s' r => during true (n + 1) s (closed (refs_of s) t h r) anything s' /\
      (r <> 0 \/ (0 <= t /\ exists i : nat, h = 0x4000 + Z.of_nat i))) x) as Hbad.
  { intros msg x Hx. eapply wpf_mono; [eapply failed_ok; [apply set_dlerror_for_task_safe|done]|]. intros s' r [Hs' ->].
    split; [apply during_mono with n; [done|lia]|by left]. }
  eapply wpf_step; [by apply find_handle_ok, (li_length n)|].
  destruct (slot_where_cases (fun m => negb (lo_used m =? 0) && (lo_handle m =? h)) s1) as [->|(Hi & m & Hm & Hp)]; [by apply Hbad|].
  set (slot := slot_where _ s1) in *. destruct (Z.ltb_spec slot 0); [lia|]. bsimpl. eapply wpf_step; [by apply module_ok|].
  case_if; [by apply Hbad|]. destruct (inv_object n s1 _ m HI1 Hm) as (Hw & [_ _ _ _ C5] & Hmax). destruct (Z.eqb_spec (lo_used m) 0) as [|Hu]; [done|]. specialize (C5 Hu).
  destruct (task_ref_ok m t Hw ltac:(lia)) as (r & Hr & _). eapply wpf_step; [by apply elem_ok|].
  destruct (Z.leb_spec r 0); [by apply Hbad|]. assert (refs_of s1 = refs_of s) as Er by (by apply (du_refs _ _ _ _ _ _ HJ1)). rewrite <- Er in HJ1.
  destruct (add_task_ref_down true n s s1 (Z.to_nat slot) m t r HJ1 ltac:(lia) Hm Hu ltac:(lia) Hr ltac:(lia)) as (s2 & E2 & HJ2 & Hsp).
  rewrite Z2Nat.id in E2 by lia. eapply wpf_step; [exact E2|].
  destruct (drop_ref_ok true n s _ s2 (Z.to_nat slot) _ HJ2 Hsp) as (s3 & E3 & HJ3 & m3 & Hm3 & Hu3). rewrite Z2Nat.id in E3 by lia. eapply wpf_step; [exact E3|].
  eapply wpf_seq; [by apply release_module_slot_ok with (n := n) (m := m3) (T := bump (refs_of s1) (Z.to_nat slot) (Z.to_nat t) (-1)); [exact HJ3|lia|..]|].
  intros s4 ok [HJ4 ->]. cbn [negb]. apply wpf_ret.
  split; [|right; split; [lia|exists (Z.to_nat slot); lia]]. unfold closed. simpl.
  replace (Z.to_nat (h - 0x4000)) with (Z.to_nat slot) by lia. by rewrite <- Er.
Qed.

Lemma insmod_done_ok n s0 T s : n <= FEW -> during false n s0 T anything s -> wpf never insmod_done (fun s' _ => during false n s0 T anything s') s.
Proof.
  intros Hn HJ. unfold insmod_done. eapply wpf_seq; [by apply (try_resolve_pending_relocs_safe false n s0)|]. intros s1 k [HJ1 _].
  eapply wpf_mono; [eapply failed_ok; [|exact HJ1]; case_if; [apply set_dlerror_safe|apply clear_dlerror_safe]|]. by intros s2 r [? _].
Qed.

Lemma module_insmod_ok fs path n s : loader_inv n s -> n + 4 <= FEW -> files_ok fs -> text_ok path ->
  wpf never (module_insmod fs path) (fun s' _ => during false (n + 3) s (refs_of s) anything s') s.
Proof.
  intros HI Hn Hfs Hp. unfold module_insmod. eapply wpf_seq; [by apply (load_new_module_ok fs path NS_MODULE_KIND_KERNEL n); [|lia|..]|].
  intros s1 h [HJ1 Hh]. apply during_false in HJ1.
  assert (forall msg m T x, m <= n + 3 -> T = refs_of s -> during false m s T anything x ->
    wpf never (set_dlerror msg ≫= fun _ => mret (-1)) (fun s' _ => during false (n + 3) s (refs_of s) anything s') x) as Hbad.
  { intros msg m T x Hm -> Hx. eapply wpf_mono; [eapply failed_ok; [apply set_dlerror_safe|exact Hx]|]. intros s' r [Hs' _]. by apply during_mono with m. }
  destruct (Z.ltb_spec h 0); [apply (Hbad _ (n + 2) (refs_of s)); [lia|done..]|]. destruct Hh as [?|(i & -> & Hsp)]; [lia|].
  pose proof Hsp as (m & Hm & Hu & _). pose proof (du_inv _ _ _ _ _ _ HJ1) as HI1.
  eapply wpf_step; [by eapply handle_slot|]. destruct (Z.ltb_spec (Z.of_nat i) 0); [lia|].
  destruct (add_kernel_ref_ok false (n + 2) s _ s1 i _ HJ1 ltac:(lia) Hsp) as (s2 & E2 & HJ2 & m2 & Hm2 & Hu2 & Hk2). eapply wpf_step; [exact E2|].
  eapply wpf_step; [apply module_ok; [lia|by rewrite Nat2Z.id]|].
  assert (forall x, during false (n + 2) s (refs_of s) anything x -> wpf never insmod_done (fun s' _ => during false (n + 3) s (refs_of s) anything s') x) as Hdone.
  { intros x Hx. eapply wpf_mono; [by apply (insmod_done_ok (n + 2)); [lia|]|]. intros s' r Hs'. apply during_mono with (n + 2); [done|lia]. }
  case_if; [|by apply Hdone].
  eapply wpf_seq with (R := fun x _ => during false (n + 2) s (refs_of s) (eq (g_modules s2)) x).
  { case_if; [apply wpf_ret; by apply (during_also _ _ _ _ _ _ _ HJ2)|]. eapply wpf_mono; [apply (enter_module_safe (n + 2) s (refs_of s) (eq (g_modules s2))); by apply (during_also _ _ _ _ _ _ _ HJ2)|]. by intros x a [? _]. }
  intros s3 rc HJ3. rewrite (du_also _ _ _ _ _ _ HJ3) in Hm2. assert (during false (n + 2) s (refs_of s) anything s3) as HJ3' by (by eapply during_also).
  case_if; bsimpl.
  - destruct (drop_kernel_ref_ok false (n + 2) s _ s3 i m2 HJ3' Hm2 Hu2 Hk2) as (s4 & E4 & HJ4 & Hsp4). eapply wpf_step; [exact E4|].
    destruct (drop_ref_ok false (n + 2) s _ s4 i _ HJ4 Hsp4) as (s5 & E5 & HJ5 & m5 & Hm5 & Hu5). eapply wpf_step; [exact E5|].
    destruct (inv_object (n + 2) s5 i m5 (du_inv _ _ _ _ _ _ HJ5) Hm5) as (_ & _ & Hmax).
    eapply wpf_seq; [apply (release_module_slot_ok false (n + 2) s (refs_of s) s5 (Z.of_nat i) m5 false); [done|lia|by rewrite Nat2Z.id|done|done]|].
    intros s6 ok [HJ6 _]. apply (Hbad _ (n + 2 + 1) (refs_of s)); [lia|done..].
  - eapply wpf_step; [apply set_module_ok; [lia|by rewrite Nat2Z.id]|]. rewrite Nat2Z.id. apply Hdone.
    destruct (inv_object (n + 2) s3 i m2 (du_inv _ _ _ _ _ _ HJ3) Hm2) as (Hw & Hc & _). apply during_set with (n + 2) m2; try done.
    + destruct Hw. by constructor.
    + destruct Hc. by constructor.
Qed.

Lemma module_rmmod_ok arg n s : loader_inv n s -> n + 1 <= FEW -> text_ok arg ->
  wpf never (module_rmmod arg) (fun s' _ => during false (n + 1) s (refs_of s) anything s') s.
Proof.
  intros HI Hn Ha. unfold module_rmmod. cbv zeta. pose proof (during_false _ _ _ _ _ _ (during_refl n s HI)) as HJ.
  assert (forall msg, wpf never (set_dlerror msg ≫= fun _ => mret (-1)) (fun s' _ => during false (n + 1) s (refs_of s) anything s') s) as Hbad.
  { intros msg. eapply wpf_mono; [eapply failed_ok; [apply set_dlerror_safe|exact HJ]|]. intros s' r [Hs' _]. apply during_mono with n; [done|lia]. }
  destruct arg as [text|]; [|apply Hbad]. simpl in Ha. destruct (rd_head (S := Loader) text s Ha) as (c & Hc & _). eapply wpf_step; [exact Hc|]. case_if; [apply Hbad|].
  assert (exists v, parse_u32_dec_local text s = Done s v) as [v Hv].
  { unfold parse_u32_dec_local, mbind, FST_bind. rewrite Hc. case_if; [by eexists|]. revert Ha. clear. generalize 0 as acc.
    induction text as [|c t IH]; intros acc Ha; [by apply elem_of_nil in Ha|]. cbn [parse_digits]. destruct (Z.eqb_spec c 0); [by eexists|].
    case_if; [by eexists|]. apply IH. by apply terminated_cons in Ha as [?|[_ ?]]. }
  eapply wpf_step; [exact Hv|]. pose proof (li_length n s HI) as Hlen.
  assert (forall p, slot_where p s = -1 \/ exists m, 0 <= slot_where p s /\ g_modules s !! Z.to_nat (slot_where p s) = Some m /\ p m = true) as Hslots.
  { intros p. destruct (slot_where_cases p s) as [->|(Hi & m & Hm & Hp)]; [by left|right]. by exists m. }
  set (found x := x = -1 \/ exists m, 0 <= x /\ g_modules s !! Z.to_nat x = Some m /\ lo_used m <> 0).
  assert (exists x, (match v with Some v => find_module_slot_by_handle (i32 v) | None => mret (-1) end : lcall Z) s = Done s x /\ found x) as (x & Hx & Hfx).
  { destruct v as [v|]; [|exists (-1); split; [done|by left]]. rewrite find_handle_ok by done. eexists. split; [done|].
    destruct (Hslots (fun m => negb (lo_used m =? 0) && (lo_handle m =? i32 v))) as [->|(m & ? & ? & Hp)]; [by left|right]. exists m. bsimpl. split; [done|]. split; [done|].
    by destruct (Z.eqb_spec (lo_used m) 0). }
  eapply wpf_step; [exact Hx|].
  assert (exists y, (if x <? 0 then find_module_slot_by_path text NS_MODULE_KIND_KERNEL else mret x : lcall Z) s = Done s y /\ found y) as (y & Hy & Hfy).
  { case_if; [|by exists x]. rewrite (path_slot_ok text NS_MODULE_KIND_KERNEL n) by done. eexists. split; [done|].
    match goal with |- found (slot_where ?p s) => destruct (Hslots p) as [->|(m & ? & ? & Hp)]; [by left|right] end. exists m. split; [done|]. split; [done|].
    by destruct (Z.eqb_spec (lo_used m) 0). }
  eapply wpf_step; [exact Hy|]. destruct (Z.ltb_spec y 0); [apply Hbad|]. destruct Hfy as [?|(m & _ & Hm & Hu)]; [lia|].
  eapply wpf_step; [by apply module_ok|]. case_if; [apply Hbad|]. destruct (Z.leb_spec (lo_kernel_refs m) 0); [apply Hbad|].
  eapply wpf_step; [by apply module_has_dependents_ok; [|apply li_objects with n]|]. case_if; [apply Hbad|].
  destruct (inv_object n s _ m HI Hm) as (_ & _ & Hmax).
  destruct (drop_kernel_ref_ok false n s _ s (Z.to_nat y) m HJ Hm Hu ltac:(lia)) as (s4 & E4 & HJ4 & Hsp4). rewrite Z2Nat.id in E4 by lia. eapply wpf_step; [exact E4|].
  destruct (drop_ref_ok false n s _ s4 (Z.to_nat y) _ HJ4 Hsp4) as (s5 & E5 & HJ5 & m5 & Hm5 & Hu5). rewrite Z2Nat.id in E5 by lia. eapply wpf_step; [exact E5|].
  eapply wpf_seq; [apply (release_module_slot_ok false n s (refs_of s) s5 y m5 true); [done|lia|done|done|done]|].
  intros s6 ok [HJ6 ->]. cbn [negb]. eapply wpf_mono; [eapply failed_ok; [apply clear_dlerror_safe|exact HJ6]|]. by intros s7 r [? _].
Qed.

(** ** The start *)

Lemma add_kernel_export_safe n s0 T P name a : terminated name -> safe (during false n s0 T P) (add_kernel_export name a) (fun _ => True).
Proof.
  intros Hn s HJ. unfold add_kernel_export. destruct (rd_head (S := Loader) name s Hn) as (c & Hc & _). eapply wpf_step; [exact Hc|]. eapply wpf_step; [done|].
  case_if; [by apply wpf_ret|]. bsimpl. pose proof (li_kernel n s (du_inv _ _ _ _ _ _ HJ)) as Hk.
  destruct (enter_export_ok NS_KERNEL_EXPORTS_MAX (g_kernel_exports s) (g_kernel_export_count s) name a s Hk ltac:(lia) Hn) as (r & Hr & Hrw & _).
  eapply wpf_step; [exact Hr|]. unfold wpf. simpl. split; [|done]. destruct HJ as [[] Hkp Hp Hrf Ha]. constructor; cbn; try done.
Qed.

(** The state every call of the loader starts from. *)
Definition loader_start (n : Z) (s : Loader) : Prop := loader_inv n s /\ g_modules s = replicate (Z.to_nat NS_MODULE_MAX) zero_object.

Lemma object_wf_zero : object_wf zero_object.
Proof.
  constructor; cbn; try done; try lia; [apply NoDup_nil_2|by apply Forall_replicate| |].
  - split; [done|]. unfold terminated. constructor.
  - split; [done|]. split; [done|]. apply Forall_replicate. split; [done|]. constructor.
Qed.

Lemma length_table {A} (x : A) k : 0 <= k -> Z.of_nat (List.length (replicate (Z.to_nat k) x)) = k.
Proof. intros. rewrite length_replicate. lia. Qed.

Lemma module_loader_init_ok : wpf never module_loader_init (fun s _ => loader_start 0 s) loader_static.
Proof.
  unfold module_loader_init. eapply wpf_step; [done|]. set (s0 := _ : Loader).
  assert (loader_inv 0 s0) as HI.
  { constructor; [lia|by apply length_table|..|by apply length_table| |by apply length_table| |by apply length_table| |by apply length_table].
    - apply Forall_replicate, object_wf_zero.
    - intros i m Hm. apply lookup_replicate in Hm as [-> _].
      assert (zsum (depends (Z.of_nat i)) (replicate (Z.to_nat NS_MODULE_MAX) zero_object) = 0) as Ed.
      { apply no_dependents_sum. intros x Hx. apply elem_of_replicate in Hx as [-> _]. apply not_elem_of_nil. }
      constructor; unfold uses; rewrite ?Ed; done.
    - split; [by apply length_table|]. split; [done|]. apply Forall_replicate. split; [done|]. constructor.
    - apply Forall_replicate. constructor; [done|]. split; [done|]. constructor.
    - apply Forall_replicate. split; [done|]. constructor.
    - done. }
  assert (forall name, safe (during false 0 s0 (refs_of s0) (eq (replicate (Z.to_nat NS_MODULE_MAX) zero_object))) (add_kernel_function name) (fun _ => True)) as Hadd.
  { intros name. apply add_kernel_export_safe, cstr_terminated. }
  assert (during false 0 s0 (refs_of s0) (eq (replicate (Z.to_nat NS_MODULE_MAX) zero_object)) s0) as HJ.
  { eapply during_also; [by eapply during_false, during_refl|done]. }
  eapply wpf_mono.
  { refine ((_ : safe (during false 0 s0 (refs_of s0) (eq (replicate (Z.to_nat NS_MODULE_MAX) zero_object))) _ (fun _ => True)) s0 HJ).
    do 8 (eapply safe_bind; [apply Hadd|intros _ _]). apply Hadd. }
  intros s' u [Hs' _]. split; [by eapply du_inv|]. by rewrite (du_also _ _ _ _ _ _ Hs').
Qed.

(** ** Sequences of calls *)

Inductive LoaderCall :=
| LDlopen (fs : ModuleFiles) (task : Z) (path : option (list Z))
| LDlclose (task handle : Z)
| LDlsym (handle : Z) (symbol : option (list Z))
| LResolve (symbol : option (list Z))
| LInsmod (fs : ModuleFiles) (path : option (list Z))
| LRmmod (arg : option (list Z))
| LError (task cap : Z)
| LList (max : Z)
| LSwitch (task : Z).

(** A call with its result; a text or an address is left aside. *)
Definition loader_call (c : LoaderCall) : lcall Z :=
  match c with
  | LDlopen fs t path => module_dlopen_for_task fs t path
  | LDlclose t h => module_dlclose_for_task t h
  | LDlsym h symbol => module_dlsym h symbol
  | LResolve symbol => r ← module_resolve_symbol_global symbol; mret (default 0 r)
  | LInsmod fs path => module_insmod fs path
  | LRmmod arg => module_rmmod arg
  | LError t cap => r ← module_copy_dlerror_for_task t true cap; mret (fst r)
  | LList max => l ← module_list max; mret (Z.of_nat (List.length l))
  | LSwitch t => fmod (fun s => s <| ld_current_task := t |>) ≫= fun _ => mret 0
  end.

Fixpoint loader_calls (cs : list LoaderCall) : lcall (list Z) :=
  match cs with [] => mret [] | c :: cs' => r ← loader_call c; rs ← loader_calls cs'; mret (r :: rs) end.

Definition lcall_ok (c : LoaderCall) : Prop :=
  match c with
  | LDlopen fs _ path | LInsmod fs path => files_ok fs /\ text_ok path
  | LDlsym _ text | LResolve text | LRmmod text => text_ok text
  | LDlclose _ _ | LError _ _ | LList _ | LSwitch _ => True
  end.

(** How often the task [t] holds the handle [h]: its opens that returned [h], less its
    closes of [h] that succeeded. *)
Definition holds (t h : Z) (e : LoaderCall * Z) : Z :=
  match e with
  | (LDlopen _ t' _, r) => if (t' =? t) && (r =? h) then 1 else 0
  | (LDlclose t' h', r) => if (t' =? t) && (h' =? h) && (r =? 0) then -1 else 0
  | _ => 0
  end.
Definition held (t h : Z) (trace : list (LoaderCall * Z)) : Z := zsum (holds t h) trace.

Definition task_ref (T : list (list Z)) (i t : nat) : option Z := row ← T !! i; row !! t.

Lemma task_ref_bump T i t d j k : task_ref (bump T i t d) j k = (fun r => r + (if decide (i = j /\ t = k) then d else 0)) <$> task_ref T j k.
Proof.
  unfold task_ref, bump. destruct (decide (i = j)) as [<-|Hne].
  - rewrite list_lookup_alter_eq. destruct (T !! i) as [row|]; [|done]. simpl. destruct (decide (t = k)) as [<-|Hne].
    + rewrite list_lookup_alter_eq. destruct (row !! t); [|done]. simpl. by rewrite decide_True.
    + rewrite list_lookup_alter_ne by done. destruct (row !! k); [|done]. simpl. rewrite decide_False by naive_solver. f_equal. lia.
  - rewrite list_lookup_alter_ne by done. destruct (T !! j) as [row|]; [|done]. simpl. destruct (row !! k); [|done]. simpl.
    rewrite decide_False by naive_solver. f_equal. lia.
Qed.

Lemma other_ref T j k (c : LoaderCall) r : holds (Z.of_nat k) (0x4000 + Z.of_nat j) (c, r) = 0 ->
  task_ref T j k = (fun x => x + holds (Z.of_nat k) (0x4000 + Z.of_nat j) (c, r)) <$> task_ref T j k.
Proof. intros ->. destruct (task_ref T j k); [|done]. simpl. f_equal. lia. Qed.

Lemma message_text n s t : loader_inv n s -> exists text, module_dlerror_for_task t s = Done s text /\ terminated text.
Proof.
  intros HI. unfold module_dlerror_for_task. destruct ((t <? 0) || (MAX_TASKS <=? t)) eqn:E; [exists (cstr "dlerror: invalid task"); split; [done|apply cstr_terminated]|]. bsimpl.
  destruct (message_of true n s (refs_of s) anything s t (during_refl n s HI) ltac:(lia)) as (text & Ht & _ & Hw).
  exists text. split; [|done]. unfold mbind, FST_bind, fget. apply elem_ok; [lia|done].
Qed.

Lemma list_modules_ok ms : forall room s, Forall object_wf ms -> wpf never (list_modules ms room) (fun x _ => x = s) s.
Proof.
  induction ms as [|m ms IH]; intros room s Hw; [by destruct room; apply wpf_ret|]. apply list.Forall_cons in Hw as [Hm Hw].
  destruct room as [|room]; [by apply wpf_ret|]. cbn [list_modules]. case_if; [by apply IH|].
  eapply wpf_step; [by apply text_chars_ok, (ob_path m Hm)|]. eapply wpf_seq; [by apply IH|]. intros x r ->. by apply wpf_ret.
Qed.

(** Every call ends without a fault, keeps the invariant and the modules, and changes the
    references as its result says. *)
Lemma loader_call_ok c n s : loader_inv n s -> n + 4 <= FEW -> lcall_ok c ->
  wpf never (loader_call c) (fun s' r => loader_inv (n + 4) s' /\ kept s s' /\
    forall j k, task_ref (refs_of s') j k = (fun x => x + holds (Z.of_nat k) (0x4000 + Z.of_nat j) (c, r)) <$> task_ref (refs_of s) j k) s.
Proof.
  intros HI Hn Hok. pose proof (during_refl n s HI) as HJ.
  assert (forall b m T x, during b m s T anything x -> m <= n + 4 -> loader_inv (n + 4) x /\ kept s x /\ refs_of x = T) as Hend.
  { intros b m T x [] Hm. split; [by apply inv_mono with m|done]. }
  assert (forall b (m : lcall Z), (forall r j k, holds (Z.of_nat k) (0x4000 + Z.of_nat j) (c, r) = 0) ->
    wpf never m (fun x _ => during b (n + 3) s (refs_of s) anything x) s ->
    wpf never m (fun s' r => loader_inv (n + 4) s' /\ kept s s' /\
      forall j k, task_ref (refs_of s') j k = (fun x => x + holds (Z.of_nat k) (0x4000 + Z.of_nat j) (c, r)) <$> task_ref (refs_of s) j k) s) as Hplain.
  { intros b m Hz Hm. eapply wpf_mono; [exact Hm|]. intros x r Hx. destruct (Hend _ _ _ _ Hx ltac:(lia)) as (H1' & H2' & ->).
    split; [done|]. split; [done|]. intros j k. by apply other_ref. }
  assert (during true (n + 3) s (refs_of s) anything s) as HJ3 by (apply during_mono with n; [done|lia]).
  destruct c as [fs t path|t h|h y|y|fs path|arg|t cap|mx|t]; cbn [loader_call]; simpl in Hok.
  - destruct Hok. eapply wpf_mono; [apply (module_dlopen_for_task_ok fs t path n); [done|lia|done|done]|]. intros s' h [HJ' Hh].
    destruct (Hend _ _ _ _ HJ' ltac:(lia)) as (H1' & H2' & ->). split; [done|]. split; [done|]. intros j k. destruct Hh as [->|(Ht & i & ->)].
    + apply other_ref. unfold holds. destruct (Z.eqb_spec (-1) (0x4000 + Z.of_nat j)); [lia|]. by rewrite andb_false_r.
    + unfold opened. destruct (Z.ltb_spec (0x4000 + Z.of_nat i) 0); [lia|]. replace (Z.to_nat (0x4000 + Z.of_nat i - 0x4000)) with i by lia.
      rewrite task_ref_bump. destruct (task_ref (refs_of s) j k); [|done]. cbn [fmap option_fmap option_map]. do 2 f_equal. unfold holds.
      destruct (Z.eqb_spec t (Z.of_nat k)), (Z.eqb_spec (0x4000 + Z.of_nat i) (0x4000 + Z.of_nat j)); cbn [andb]; case_decide; lia.
  - eapply wpf_mono; [apply (module_dlclose_for_task_ok t h n); [done|lia]|]. intros s' r [HJ' Hr].
    destruct (Hend _ _ _ _ HJ' ltac:(lia)) as (H1' & H2' & ->). split; [done|]. split; [done|]. intros j k. unfold closed.
    destruct (Z.eqb_spec r 0) as [->|Hne].
    + destruct Hr as [?|(Ht & i & ->)]; [done|]. replace (Z.to_nat (0x4000 + Z.of_nat i - 0x4000)) with i by lia.
      rewrite task_ref_bump. destruct (task_ref (refs_of s) j k); [|done]. cbn [fmap option_fmap option_map]. do 2 f_equal. unfold holds.
      destruct (Z.eqb_spec t (Z.of_nat k)), (Z.eqb_spec (0x4000 + Z.of_nat i) (0x4000 + Z.of_nat j)); cbn [andb]; rewrite ?Z.eqb_refl; case_decide; lia.
    + apply other_ref. unfold holds. destruct (Z.eqb_spec r 0); [done|]. by rewrite andb_false_r.
  - apply (Hplain true); [done|]. destruct y as [y|].
    + eapply wpf_mono; [by apply (module_dlsym_ok true (n + 3) s (refs_of s) anything)|]. by intros x a [? _].
    + unfold module_dlsym. eapply wpf_step; [by apply find_handle_ok, (li_length n)|]. cbv zeta.
      eapply wpf_mono; [case_if; eapply failed_ok; try apply set_dlerror_safe; exact HJ3|]. by intros x a [? _].
  - apply (Hplain true); [done|]. unfold module_resolve_symbol_global. destruct y as [y|]; [|done].
    eapply wpf_seq with (R := fun x _ => x = s); [|by intros x r ->; apply wpf_ret].
    eapply wpf_step; [apply resolve_external_symbol_ok; [by apply inv_exports with n|done]|by apply wpf_ret].
  - apply (Hplain false); [done|]. destruct Hok. apply module_insmod_ok; [done|lia|done|done].
  - apply (Hplain false); [done|]. eapply wpf_mono; [apply (module_rmmod_ok arg n); [done|lia|done]|]. intros x r Hx. apply during_mono with (n + 1); [done|lia].
  - apply (Hplain true); [done|]. eapply wpf_seq with (R := fun x _ => x = s); [|by intros x r ->; apply wpf_ret].
    unfold module_copy_dlerror_for_task. destruct (message_text n s t HI) as (text & E & Ht). eapply wpf_step; [exact E|].
    case_if; [by apply wpf_ret|]. eapply wpf_step; [by apply text_chars_ok|by apply wpf_ret].
  - apply (Hplain true); [done|]. eapply wpf_seq with (R := fun x _ => x = s); [|by intros x r ->; apply wpf_ret].
    unfold module_list. case_if; [by apply wpf_ret|]. eapply wpf_step; [done|]. apply list_modules_ok, (li_objects n s HI).
  - apply (Hplain true); [done|]. eapply wpf_step; [done|]. apply wpf_ret. destruct HJ3 as [[] X2 X3 X4 X5]. constructor; try done.
    intros Hb. destruct (X3 Hb). by constructor.
Qed.

Lemma held_cons t h c r cs rs : held t h (zip (c :: cs) (r :: rs)) = holds t h (c, r) + held t h (zip cs rs).
Proof. done. Qed.

Lemma held_snoc t h cs c rs r : List.length rs = List.length cs ->
  held t h (zip (cs ++ [c]) (rs ++ [r])) = held t h (zip cs rs) + holds t h (c, r).
Proof.
  revert rs. induction cs as [|c' cs IH]; intros [|r' rs] Hl; try done; [unfold held; cbn [app zip zip_with zsum foldr]; lia|].
  cbn [app]. rewrite !held_cons, IH; [lia|]. by injection Hl.
Qed.

Lemma loader_calls_ok cs : forall n s, loader_inv n s -> n + 4 * Z.of_nat (List.length cs) <= FEW -> Forall lcall_ok cs ->
  wpf never (loader_calls cs) (fun s' rs => loader_inv (n + 4 * Z.of_nat (List.length cs)) s' /\ List.length rs = List.length cs /\
    forall j k, task_ref (refs_of s') j k = (fun x => x + held (Z.of_nat k) (0x4000 + Z.of_nat j) (zip cs rs)) <$> task_ref (refs_of s) j k) s.
Proof.
  induction cs as [|c cs IH]; intros n s HI Hn Hok.
  - apply wpf_ret. split; [by rewrite Z.add_0_r|]. split; [done|]. intros j k. destruct (task_ref (refs_of s) j k); [|done].
    cbn [fmap option_fmap option_map]. f_equal. unfold held. simpl. lia.
  - apply list.Forall_cons in Hok as [Hc Hok]. cbn [List.length] in *.
    eapply wpf_seq; [apply (loader_call_ok c n s); [done|lia|done]|]. intros s1 r (HI1 & _ & E1).
    eapply wpf_seq; [apply (IH (n + 4)); [done|lia|done]|]. intros s2 rs (HI2 & Hl & E2). apply wpf_ret.
    split; [replace (n + 4 * Z.of_nat (S (List.length cs))) with (n + 4 + 4 * Z.of_nat (List.length cs)) by lia; done|]. split; [simpl; by rewrite Hl|].
    intros j k. rewrite E2, E1, held_cons. destruct (task_ref (refs_of s) j k); [|done]. cbn [fmap option_fmap option_map]. f_equal. lia.
Qed.

(** What holds after the start and a sequence of calls: the references are the handles held. *)
Definition reached (cs : list LoaderCall) (s : Loader) (rs : list Z) : Prop :=
  loader_inv (4 * Z.of_nat (List.length cs)) s /\ List.length rs = List.length cs /\
  forall j k, (j < Z.to_nat NS_MODULE_MAX)%nat -> (k < Z.to_nat MAX_TASKS)%nat ->
    task_ref (refs_of s) j k = Some (held (Z.of_nat k) (0x4000 + Z.of_nat j) (zip cs rs)).

Lemma start_refs s j k : loader_start 0 s -> (j < Z.to_nat NS_MODULE_MAX)%nat -> (k < Z.to_nat MAX_TASKS)%nat ->
  task_ref (refs_of s) j k = Some 0.
Proof.
  intros [_ E] Hj Hk. unfold task_ref, refs_of. rewrite E. change (map ?f ?l) with (f <$> l). rewrite list_lookup_fmap, lookup_replicate_2 by done.
  cbn [fmap option_fmap option_map mbind option_bind]. by apply lookup_replicate_2.
Qed.

Lemma reached_ok cs : Forall lcall_ok cs -> 4 * Z.of_nat (List.length cs) <= FEW ->
  wpf never (module_loader_init ≫= fun _ => loader_calls cs) (reached cs) loader_static.
Proof.
  intros Hok Hn. eapply wpf_seq; [apply module_loader_init_ok|]. intros s [] Hs. pose proof Hs as [HI _].
  eapply wpf_mono; [by apply (loader_calls_ok cs 0 s)|]. intros s' rs (HI' & Hl & E). split; [done|]. split; [done|].
  intros j k Hj Hk. by rewrite E, (start_refs s) by done.
Qed.

(** A module a task holds is there. *)
Lemma held_used n s i k r : loader_inv n s -> task_ref (refs_of s) i k = Some r -> 0 < r ->
  exists m, g_modules s !! i = Some m /\ lo_used m <> 0 /\ lo_handle m = 0x4000 + Z.of_nat i.
Proof.
  intros HI Hr Hpos. unfold task_ref, refs_of in Hr. change (map ?f ?l) with (f <$> l) in Hr. rewrite list_lookup_fmap in Hr.
  destruct (g_modules s !! i) as [m|] eqn:Hm; [|done]. cbn in Hr. exists m. split; [done|].
  destruct (inv_object n s i m HI Hm) as (Hw & [C1 C2 C3 C4 C5] & _). assert (lo_used m <> 0) as Hu; [|by auto]. intros Hz.
  destruct (unused_facts n s i m HI Hm (C4 Hz)) as (_ & Ht & _). rewrite Ht in Hr. apply lookup_replicate in Hr as [-> _]. lia.
Qed.

Lemma live_deps_used n s i m j md : loader_inv n s -> g_modules s !! i = Some m -> Z.of_nat j ∈ live_deps m -> g_modules s !! j = Some md -> lo_used md <> 0.
Proof.
  intros HI Hm Hj Hmd Hz. destruct (inv_object n s j md HI Hmd) as (_ & [_ _ _ C4 _] & _).
  destruct (unused_facts n s j md HI Hmd (C4 Hz)) as (Hno & _). apply (Hno m); [by eapply list_elem_of_lookup_2|done].
Qed.

(** What a task may rely on while it holds the handle of the slot [i]: the module is the
    one it opened, and the modules it depends on are there. *)
Definition stays_loaded (s s' : Loader) (i : nat) : Prop :=
  exists m m', g_modules s !! i = Some m /\ g_modules s' !! i = Some m' /\ lo_used m' <> 0 /\ lo_handle m' = 0x4000 + Z.of_nat i /\
    same_module m m' /\ forall j md, Z.of_nat j ∈ live_deps m' -> g_modules s' !! j = Some md -> lo_used md <> 0.

(** C11: From the start of the module loader on, and whatever was called before — opens,
    closes, insmod and rmmod of any tasks, files that are not modules, initialisers that
    fail — in less than 2^28 calls, and on files whose images are sound ([image_ok]: no
    offset, size or alignment wraps, tables of names end with a terminator, the symbol of
    the magic number lies in its section; the code tests none of it, module_loader.c:617,
    510 and 233, and other images do make it leave its buffers), every call ends without an access outside of the loader's tables, buffers and
    pool.  A task that opened a module more often than it closed it before the call and
    still does after it finds the same module under its handle (path, kind, exports and
    entry points), and all the modules that one depends on are loaded: no close, failed
    load or rmmod of another user takes them away. *)
Theorem modules_stay_loaded cs c : Forall lcall_ok (cs ++ [c]) -> 4 * Z.of_nat (List.length cs) + 4 <= FEW ->
  wpf never (module_loader_init ≫= fun _ => loader_calls cs)
    (fun s rs => wpf never (loader_call c) (fun s' r =>
      forall i t : nat, (i < Z.to_nat NS_MODULE_MAX)%nat -> (t < Z.to_nat MAX_TASKS)%nat ->
        0 < held (Z.of_nat t) (0x4000 + Z.of_nat i) (zip cs rs) ->
        0 < held (Z.of_nat t) (0x4000 + Z.of_nat i) (zip (cs ++ [c]) (rs ++ [r])) ->
        stays_loaded s s' i) s) loader_static.
Proof.
  intros [Hcs Hc]%list.Forall_app Hn. apply (proj1 (list.Forall_singleton lcall_ok c)) in Hc.
  eapply wpf_mono; [apply (reached_ok cs); [done|lia]|]. intros s rs (HI & Hl & Href).
  eapply wpf_mono; [apply (loader_call_ok c (4 * Z.of_nat (List.length cs)) s); [done|lia|done]|]. intros s' r (HI' & Hk & Href') i t Hi Ht Hb Ha.
  rewrite held_snoc in Ha by done. pose proof (Href i t Hi Ht) as E. pose proof (Href' i t) as E'. rewrite E in E'.
  destruct (held_used _ s i t _ HI E Hb) as (m & Hm & Hu & _). destruct (held_used _ s' i t _ HI' E' Ha) as (m' & Hm' & Hu' & Hh').
  exists m, m'. split; [done|]. split; [done|]. split; [done|]. split; [done|]. split.
  - destruct (Hk i m Hm Hu) as (mx & Hmx & Hsame). assert (mx = m') as -> by congruence. by destruct Hsame.
  - intros j md. by apply (live_deps_used (4 * Z.of_nat (List.length cs) + 4) s' i m').
Qed.

(** C23: Loading does not write over what is loaded: whatever was called before (less than
    2^28 calls), and when the images are sound ([image_ok], as in C11: a relocation offset
    that wraps stores in front of its section), an open —
    of a new module, of one that is loaded, or of a file that is refused half-way through
    its relocations — leaves every byte of the pool below the cursor as it is, but for the
    words of relocations that wait for a symbol. *)
Theorem load_isolated cs fs t path : Forall lcall_ok cs -> files_ok fs -> text_ok path -> 4 * Z.of_nat (List.length cs) + 4 <= FEW ->
  wpf never (module_loader_init ≫= fun _ => loader_calls cs)
    (fun s _ => wpf never (module_dlopen_for_task fs t path) (fun s' _ =>
      g_module_pool_cursor s <= g_module_pool_cursor s' <= NS_MODULE_POOL_SIZE /\
      forall o, 0 <= o < g_module_pool_cursor s -> ~ waits s o -> (g_module_pool s').[o] = (g_module_pool s).[o]) s) loader_static.
Proof.
  intros Hcs Hfs Hp Hn. eapply wpf_mono; [apply (reached_ok cs); [done|lia]|]. intros s rs (HI & _).
  eapply wpf_mono; [apply (module_dlopen_for_task_ok fs t path (4 * Z.of_nat (List.length cs)) s); [done|lia|done|done]|]. intros s' h [HJ _].
  destruct (du_pool _ _ _ _ _ _ HJ eq_refl) as [K1 K2 _]. pose proof (li_cursor _ s' (du_inv _ _ _ _ _ _ HJ)). split; [lia|].
  intros o Ho Hw. apply K2; [lia|]. intros [?|?]; [lia|done].
Qed.
End Runs.

(** ** A library *)

(** An image with one section, four bytes of code. *)
Definition demo_section (type flags offset size : Z) : list Z :=
  concat (map (le_bytes 4) [0; type; flags; 0; offset; size; 0; 0; 4; 0]).
Definition demo_image : list Z :=
  [0x7F; 69; 76; 70; 1; 1; 1] ++ zero_bytes 9 ++ le_bytes 2 ELF_ET_DYN ++ le_bytes 2 ELF_EM_386 ++ zero_bytes 12 ++ le_bytes 4 56 ++ zero_bytes 10 ++
  le_bytes 2 sizeof_Shdr ++ le_bytes 2 2 ++ zero_bytes 2 ++ [0x31; 0xC0; 0xC3; 0x90] ++ demo_section 0 0 0 0 ++ demo_section 1 SHF_ALLOC 52 4.

Definition demo_files : ModuleFiles := {| vfs_stat := fun _ => (0, 1, len demo_image); vfs_read_file := fun _ _ => (len demo_image, demo_image) |}.
Definition demo_path : option (list Z) := Some (cstr "/lib/a.so").

(** The pool at one megabyte, and code that does nothing. *)
#[local] Instance demo_env : LoaderEnv := {| pool_base := 0x100000; kernel_function := fun _ => 0x1000; run_entry := fun _ p => (p, 0) |}.

Lemma demo_env_ok : LoaderEnvOk.
Proof. constructor; [by vm_compute|done]. Qed.

Lemma demo_files_ok : files_ok demo_files.
Proof.
  intros path. cbn [vfs_read_file demo_files]. split; [by vm_compute|]. intros _. split; [done|]. split; [|by vm_compute].
  apply Forall_forall. intros b Hb. assert (forallb (fun b => (0 <=? b) && (b <? 256)) demo_image = true) as Hall by (by vm_compute).
  rewrite forallb_forall in Hall. specialize (Hall b Hb). unfold is_byte. lia.
Qed.

Lemma demo_path_ok : text_ok demo_path.
Proof. apply cstr_terminated. Qed.

(** Two tasks open a library and one of them closes it: the other keeps it. *)
Lemma modules_stay_loaded_witness :
  let cs := [LDlopen demo_files 0 demo_path; LDlopen demo_files 1 demo_path] in
  wpf never (module_loader_init ≫= fun _ => loader_calls cs)
    (fun s rs => wpf never (loader_call (LDlclose 0 0x4000)) (fun s' r =>
      forall i t : nat, (i < Z.to_nat NS_MODULE_MAX)%nat -> (t < Z.to_nat MAX_TASKS)%nat ->
        0 < held (Z.of_nat t) (0x4000 + Z.of_nat i) (zip cs rs) ->
        0 < held (Z.of_nat t) (0x4000 + Z.of_nat i) (zip (cs ++ [LDlclose 0 0x4000]) (rs ++ [r])) ->
        stays_loaded s s' i) s) loader_static.
Proof.
  intros cs. apply (modules_stay_loaded (H0 := demo_env_ok) cs (LDlclose 0 0x4000)); [|by vm_compute].
  pose proof (conj demo_files_ok demo_path_ok). by repeat constructor.
Defined.

Lemma load_isolated_witness :
  wpf never (module_loader_init ≫= fun _ => loader_calls [LDlopen demo_files 0 demo_path])
    (fun s _ => wpf never (module_dlopen_for_task demo_files 1 demo_path) (fun s' _ =>
      g_module_pool_cursor s <= g_module_pool_cursor s' <= NS_MODULE_POOL_SIZE /\
      forall o, 0 <= o < g_module_pool_cursor s -> ~ waits s o -> (g_module_pool s').[o] = (g_module_pool s).[o]) s) loader_static.
Proof.
  pose proof (conj demo_files_ok demo_path_ok) as Hok.
  apply (load_isolated (H0 := demo_env_ok) [LDlopen demo_files 0 demo_path]); [by repeat constructor|apply demo_files_ok|apply demo_path_ok|by vm_compute].
Defined.

(** What the handles of that run are. *)
Lemma demo_handles :
  match (module_loader_init ≫= fun _ => loader_calls [LDlopen demo_files 0 demo_path; LDlopen demo_files 1 demo_path; LDlclose 0 0x4000]) loader_static with
  | Done _ rs => rs = [0x4000; 0x4000; 0]
  | Fault _ => False
  end.
Proof. by vm_compute. Qed.
