(* ===== verification/Socket.v ===== *)
(** * Sockets (kernel/net_socket.c)

    The socket and epoll tables of each task, what poll and epoll report, and the loops
    that sleep until a socket is ready. *)
From S2P Require Import Prelude Fault Bytes Buffers VfsDefs Vfs NetState NetSend NetTcp.

Definition NS_SOCKET_FD_BASE : Z := 1024.
Definition NS_SOCKET_MAX_PER_TASK : nat := 64.
Definition NS_O_NONBLOCK : Z := 0x800.
Definition NS_POLLIN : Z := 1.
Definition NS_POLLOUT : Z := 4.
Definition NS_POLLERR : Z := 8.
Definition NS_EPOLL_CTL_ADD : Z := 1.
Definition NS_EPOLL_CTL_MOD : Z := 2.
Definition NS_EPOLL_CTL_DEL : Z := 3.
Definition NS_EPOLL_FD_BASE : Z := 2048.
Definition NS_EPOLL_MAX_PER_TASK : nat := 8.
Definition NS_EPOLL_MAX_WATCH : nat := 64.
Definition NS_SOCK_STREAM : Z := 1.
Definition NS_SOCK_DGRAM : Z := 2.
Definition FOREVER : Z := 0xFFFFFFFF.

(** ** Data *)

Record NsSocketEntry := {
  so_used : Z; so_type : Z; so_protocol : Z; so_flags : Z; so_bound : Z; so_local_port : Z; so_peer_ip : Z; so_peer_port : Z;
  so_listening : Z; so_net_conn_id : Z; so_rcv_timeout_ticks : Z; so_snd_timeout_ticks : Z; so_reuse_addr : Z; so_keepalive : Z;
  so_shut_rd : Z; so_shut_wr : Z
}.
#[export] Instance NsSocketEntry_fields : Fields NsSocketEntry := fun r =>
  {| so_used := so_used r; so_type := so_type r; so_protocol := so_protocol r; so_flags := so_flags r; so_bound := so_bound r;
     so_local_port := so_local_port r; so_peer_ip := so_peer_ip r; so_peer_port := so_peer_port r; so_listening := so_listening r;
     so_net_conn_id := so_net_conn_id r; so_rcv_timeout_ticks := so_rcv_timeout_ticks r;
     so_snd_timeout_ticks := so_snd_timeout_ticks r; so_reuse_addr := so_reuse_addr r; so_keepalive := so_keepalive r;
     so_shut_rd := so_shut_rd r; so_shut_wr := so_shut_wr r |}.

Record NsPollFd := { pl_fd : Z; pl_events : Z; pl_revents : Z }.
Record NsEpollCtlReq := { cr_op : Z; cr_event : NsPollFd }.
Record NsEpollWatch := { wt_used : Z; wt_fd : Z; wt_events : Z }.
Record NsEpollObject := { ep_used : Z; ep_watches : list NsEpollWatch }.

(** The tables, with the network stack and the file system below them and the clock of the
    scheduler.  The task that runs is the one the file system's tables know. *)
Record Sockets {X B : Type} := {
  sk_net : Net; sk_vfs : Vfs X B; scheduler_ticks : Z;
  task_sockets : list (list NsSocketEntry); task_epolls : list (list NsEpollObject)
}.
Arguments Sockets : clear implicits.
#[export] Instance Sockets_fields X B : Fields (Sockets X B) := fun r =>
  {| sk_net := sk_net r; sk_vfs := sk_vfs r; scheduler_ticks := scheduler_ticks r; task_sockets := task_sockets r;
     task_epolls := task_epolls r |}.

(** The static storage as the program starts. *)
Definition zero_socket : NsSocketEntry := Build_NsSocketEntry 0 0 0 0 0 0 0 0 0 0 0 0 0 0 0 0.
Definition zero_watch : NsEpollWatch := {| wt_used := 0; wt_fd := 0; wt_events := 0 |}.
Definition zero_epoll : NsEpollObject := {| ep_used := 0; ep_watches := replicate NS_EPOLL_MAX_WATCH zero_watch |}.

(** An entry as a close leaves it, and as it is given out. *)
Definition closed_entry : NsSocketEntry := Build_NsSocketEntry 0 0 0 0 0 0 0 0 0 (-1) FOREVER FOREVER 0 0 0 0.
Definition fresh_entry (type protocol : Z) : NsSocketEntry :=
  Build_NsSocketEntry 1 type protocol 0 0 0 0 0 0 (-1) FOREVER FOREVER 0 0 0 0.

Definition empty_watch : NsEpollWatch := {| wt_used := 0; wt_fd := -1; wt_events := 0 |}.

Definition bad_task_id (task_id : Z) : bool := (task_id <? 0) || (MAX_TASKS <=? task_id).

Section Socket.
Context {X B : Type}.
Notation scall := (FST (Sockets X B)).
Implicit Types s : Sockets X B.

(** A call of the network stack. *)
Definition on_net {A} (m : call A) : scall A := fun s =>
  match m (sk_net s) with Done n a => Done (s <| sk_net := n |>) a | Fault n => Fault (s <| sk_net := n |>) end.

(** ** The socket table *)

(** [&task_sockets[t][i]]. *)
Definition sref : Type := nat * nat.
Definition socket_at (p : sref) s : option NsSocketEntry := row ← task_sockets s !! fst p; row !! snd p.
Definition get_entry (p : sref) : scall NsSocketEntry := fun s =>
  match socket_at p s with Some e => Done s e | None => Fault s end.
Definition set_socket (p : sref) (f : NsSocketEntry -> NsSocketEntry) : scall unit :=
  fmod (fun s => s <| task_sockets ::= alter (alter f (snd p)) (fst p) |>).

Definition ns_socket_fd_to_slot (fd : Z) : Z :=
  let slot := i32 (fd - NS_SOCKET_FD_BASE) in
  if (slot <? 0) || (Z.of_nat NS_SOCKET_MAX_PER_TASK <=? slot) then -1 else slot.

(** The place of the entry, or [None] for a null pointer.  The look at
    [task_sockets[task_id][slot]] is an access to the table: it faults outside of it. *)
Definition ns_socket_entry_for_fd (task_id fd : Z) : scall (option sref) :=
  if bad_task_id task_id then mret None
  else
    let slot := ns_socket_fd_to_slot fd in
    if slot <? 0 then mret None
    else
      s ← fget;
      row ← elem (task_sockets s) task_id;
      e ← elem row slot;
      mret (if so_used e =? 0 then None else Some (Z.to_nat task_id, Z.to_nat slot)).

Definition free_slot (row : list NsSocketEntry) : option nat := find_idx (fun e => so_used e =? 0) row.

Definition ns_socket_alloc_fd (task_id type protocol : Z) : scall Z :=
  if bad_task_id task_id then mret (-1)
  else
    s ← fget;
    row ← elem (task_sockets s) task_id;
    match free_slot row with
    | None => mret (-1)
    | Some i =>
        set_socket (Z.to_nat task_id, i) (fun _ => fresh_entry type protocol) ≫= fun _ =>
        mret (NS_SOCKET_FD_BASE + Z.of_nat i)
    end.

Definition ns_socket_close_entry (p : sref) : scall unit :=
  e ← get_entry p;
  if so_used e =? 0 then mret tt
  else
    (if (so_type e =? NS_SOCK_DGRAM) && negb (so_bound e =? 0) then on_net (net_udp_unbind (so_local_port e)) else mret 0) ≫= fun _ =>
    (if so_type e =? NS_SOCK_STREAM then
       if negb (so_listening e =? 0) && negb (so_bound e =? 0) then on_net (net_tcp_unlisten (so_local_port e))
       else if 0 <=? so_net_conn_id e then on_net (net_tcp_close (so_net_conn_id e)) else mret 0
     else mret 0) ≫= fun _ =>
    set_socket p (fun _ => closed_entry).

Definition ns_socket_is_nonblocking (e : NsSocketEntry) : bool := negb (Z.land (so_flags e) NS_O_NONBLOCK =? 0).

Definition ns_socket_ready_for_read (e : NsSocketEntry) (n : Net) : bool :=
  if so_used e =? 0 then false
  else if negb (so_shut_rd e =? 0) then false
  else if so_type e =? NS_SOCK_DGRAM then negb (so_bound e =? 0) && net_udp_has_data (so_local_port e) n
  else if so_type e =? NS_SOCK_STREAM then
    if negb (so_listening e =? 0) then net_tcp_accept_ready (so_local_port e) n
    else (0 <=? so_net_conn_id e) && net_tcp_can_recv (so_net_conn_id e) n
  else false.

Definition ns_socket_ready_for_write (e : NsSocketEntry) (n : Net) : bool :=
  if so_used e =? 0 then false
  else if negb (so_shut_wr e =? 0) then false
  else if so_type e =? NS_SOCK_DGRAM then negb (so_peer_ip e =? 0) && negb (so_peer_port e =? 0)
  else if so_type e =? NS_SOCK_STREAM then (0 <=? so_net_conn_id e) && net_tcp_can_send (so_net_conn_id e) n
  else false.

(** ** Waiting *)

(** How a loop that sleeps ends: its condition holds, its time is over, or it is still
    asleep when the run ends. *)
Inductive waited := Ready | Expired | Asleep.

(** The common loop: [attempt] looks at the state and says whether it is done; each sleep
    is what the rest of the system does until the task runs again. *)
Fixpoint sleep_until {C} (attempt : scall (C * bool)) (expired : scall bool) (sleeps : list (scall unit)) : scall (C * waited) :=
  r ← attempt;
  if snd r : bool then mret (fst r, Ready)
  else
    e ← expired;
    if e : bool then mret (fst r, Expired)
    else match sleeps with [] => mret (fst r, Asleep) | sleep :: sleeps' => sleep ≫= fun _ => sleep_until attempt expired sleeps' end.

Definition now_ticks : scall Z := s ← fget; mret (scheduler_ticks s).

(** [!infinite && now_ticks() >= deadline]. *)
Definition past (infinite : bool) (deadline : Z) : scall bool := now ← now_ticks; mret (negb infinite && (deadline <=? now)).

(** [ns_socket_wait_for_readable] and [ns_socket_wait_for_writable]: the same loop for one
    or the other predicate. *)
Definition ns_socket_wait_for (ready : NsSocketEntry -> Net -> bool) (p : sref) (timeout_ticks : Z) (sleeps : list (scall unit)) : scall waited :=
  let infinite := timeout_ticks =? FOREVER in
  now ← now_ticks;
  let deadline := if infinite then 0 else now +u timeout_ticks in
  r ← sleep_until (e ← get_entry p; s ← fget; mret (tt, ready e (sk_net s))) (past infinite deadline) sleeps;
  mret (snd r).
Definition ns_socket_wait_for_readable := ns_socket_wait_for ns_socket_ready_for_read.
Definition ns_socket_wait_for_writable := ns_socket_wait_for ns_socket_ready_for_write.

(** ** The epoll table *)

Definition epoll_at (p : sref) s : option NsEpollObject := row ← task_epolls s !! fst p; row !! snd p.
Definition get_epoll (p : sref) : scall NsEpollObject := fun s =>
  match epoll_at p s with Some e => Done s e | None => Fault s end.
Definition set_epoll (p : sref) (f : NsEpollObject -> NsEpollObject) : scall unit :=
  fmod (fun s => s <| task_epolls ::= alter (alter f (snd p)) (fst p) |>).

Definition ns_epoll_fd_to_slot (fd : Z) : Z :=
  let slot := i32 (fd - NS_EPOLL_FD_BASE) in
  if (slot <? 0) || (Z.of_nat NS_EPOLL_MAX_PER_TASK <=? slot) then -1 else slot.

Definition ns_epoll_object_for_fd (task_id fd : Z) : scall (option sref) :=
  if bad_task_id task_id then mret None
  else
    let slot := ns_epoll_fd_to_slot fd in
    if slot <? 0 then mret None
    else
      s ← fget;
      row ← elem (task_epolls s) task_id;
      e ← elem row slot;
      mret (if ep_used e =? 0 then None else Some (Z.to_nat task_id, Z.to_nat slot)).

Definition clear_watches (used : Z) (obj : NsEpollObject) : NsEpollObject :=
  {| ep_used := used; ep_watches := map (fun _ => empty_watch) (ep_watches obj) |}.

Definition ns_epoll_alloc_fd (task_id : Z) : scall Z :=
  if bad_task_id task_id then mret (-1)
  else
    s ← fget;
    row ← elem (task_epolls s) task_id;
    match find_idx (fun e => ep_used e =? 0) row with
    | None => mret (-1)
    | Some i => set_epoll (Z.to_nat task_id, i) (clear_watches 1) ≫= fun _ => mret (NS_EPOLL_FD_BASE + Z.of_nat i)
    end.

Definition ns_epoll_close_object (p : sref) : scall unit :=
  e ← get_epoll p; if ep_used e =? 0 then mret tt else set_epoll p (clear_watches 0).

(** The watch found for a descriptor and the first free one before it. *)
Fixpoint watch_scan (fd : Z) (ws : list NsEpollWatch) (i : nat) (free : option nat) : option nat * option nat :=
  match ws with
  | [] => (free, None)
  | w :: ws' =>
      let free := if wt_used w =? 0 then match free with None => Some i | Some f => Some f end else free in
      if negb (wt_used w =? 0) && (wt_fd w =? fd) then (free, Some i) else watch_scan fd ws' (S i) free
  end.

Definition set_watch (i : nat) (w : NsEpollWatch) (obj : NsEpollObject) : NsEpollObject :=
  {| ep_used := ep_used obj; ep_watches := <[i := w]> (ep_watches obj) |}.

Definition ns_epoll_ctl_apply (obj : NsEpollObject) (req : NsEpollCtlReq) : NsEpollObject * Z :=
  let ev := cr_event req in
  if pl_fd ev <? 0 then (obj, -22)
  else
    let '(free_slot, found_slot) := watch_scan (pl_fd ev) (ep_watches obj) 0 None in
    if cr_op req =? NS_EPOLL_CTL_ADD then
      match found_slot, free_slot with
      | Some _, _ => (obj, -22)
      | None, None => (obj, -28)
      | None, Some i => (set_watch i {| wt_used := 1; wt_fd := pl_fd ev; wt_events := pl_events ev |} obj, 0)
      end
    else if cr_op req =? NS_EPOLL_CTL_MOD then
      match found_slot with
      | None => (obj, -22)
      | Some i => (set_watch i {| wt_used := 1; wt_fd := pl_fd ev; wt_events := pl_events ev |} obj, 0)
      end
    else if cr_op req =? NS_EPOLL_CTL_DEL then
      match found_slot with
      | None => (obj, -22)
      | Some i => (set_watch i empty_watch obj, 0)
      end
    else (obj, -22).

(** ** Poll *)

(** [vfs_fcntl(fd, VFS_F_GETFL, 0)], which changes nothing. *)
Definition vfs_getfl (fd : Z) s : Z := snd (vfs_fcntl fd VFS_F_GETFL 0 (sk_vfs s)).

Definition wants (events bit : Z) : bool := negb (Z.land events bit =? 0).
Definition revents_of (events : Z) (rd wr : bool) : Z :=
  Z.lor (if rd && wants events NS_POLLIN then NS_POLLIN else 0) (if wr && wants events NS_POLLOUT then NS_POLLOUT else 0).

(** The result and what is stored in [*revents_out]. *)
Definition ns_fd_poll_revents (task_id fd events : Z) : scall (Z * Z) :=
  p ← ns_socket_entry_for_fd task_id fd;
  match p with
  | Some p =>
      e ← get_entry p; s ← fget;
      let revents := revents_of events (ns_socket_ready_for_read e (sk_net s)) (ns_socket_ready_for_write e (sk_net s)) in
      mret (Z.b2z (negb (revents =? 0)), revents)
  | None =>
      s ← fget;
      if 0 <=? vfs_getfl fd s then
        let revents := revents_of events true true in mret (Z.b2z (negb (revents =? 0)), revents)
      else mret (0, NS_POLLERR)
  end.

Fixpoint poll_fds (task_id : Z) (fds : list NsPollFd) : scall (list NsPollFd) :=
  match fds with
  | [] => mret []
  | f :: fds' =>
      r ← ns_fd_poll_revents task_id (pl_fd f) (pl_events f);
      rest ← poll_fds task_id fds';
      mret ({| pl_fd := pl_fd f; pl_events := pl_events f; pl_revents := snd r |} :: rest)
  end.

(** The array with its results, and the number of those that are not 0. *)
Definition ns_poll_socket_array (task_id : Z) (fds : list NsPollFd) : scall (list NsPollFd * Z) :=
  fds' ← poll_fds task_id fds;
  mret (fds', Z.of_nat (length (filter (fun f => pl_revents f <> 0) fds'))).

Definition ns_poll_socket_array_wait (task_id : Z) (fds : list NsPollFd) (timeout_ticks : Z) (sleeps : list (scall unit)) :
    scall (list NsPollFd * option Z) :=
  now ← now_ticks;
  let deadline := if timeout_ticks =? 0 then 0 else now +u timeout_ticks in
  r ← sleep_until (r ← ns_poll_socket_array task_id fds; mret (r, (0 <? snd r) || (timeout_ticks =? 0))) (past false deadline) sleeps;
  let '((fds', ready), w) := r in
  mret (fds', match w with Ready => Some ready | Expired => Some 0 | Asleep => None end).

(** The watches that are ready, [room] at most. *)
Fixpoint collect_watches (task_id : Z) (ws : list NsEpollWatch) (room : nat) : scall (list NsPollFd) :=
  match ws, room with
  | w :: ws', S room' =>
      if wt_used w =? 0 then collect_watches task_id ws' room
      else
        r ← ns_fd_poll_revents task_id (wt_fd w) (wt_events w);
        if snd r =? 0 then collect_watches task_id ws' room
        else
          rest ← collect_watches task_id ws' room';
          mret ({| pl_fd := wt_fd w; pl_events := wt_events w; pl_revents := snd r |} :: rest)
  | _, _ => mret []
  end.

(** The entries stored in the caller's array; their number is the result. *)
Definition ns_epoll_collect_ready (obj : NsEpollObject) (maxevents : Z) : scall (list NsPollFd) :=
  s ← fget; collect_watches (os_current_task (sk_vfs s)) (ep_watches obj) (Z.to_nat maxevents).

Definition ns_epoll_wait_ready (p : sref) (maxevents timeout_ticks : Z) (sleeps : list (scall unit)) : scall (list NsPollFd * option Z) :=
  let infinite := timeout_ticks =? FOREVER in
  now ← now_ticks;
  let deadline := if negb infinite && negb (timeout_ticks =? 0) then now +u timeout_ticks else 0 in
  r ← sleep_until (obj ← get_epoll p; out ← ns_epoll_collect_ready obj maxevents;
                   mret (out, (0 <? Z.of_nat (length out)) || (timeout_ticks =? 0))) (past infinite deadline) sleeps;
  let '(out, w) := r in
  mret (out, match w with Ready => Some (Z.of_nat (length out)) | Expired => Some 0 | Asleep => None end).

(** ** The end of a task, and the start *)

Definition ns_socket_close_all_for_task (task_id : Z) : scall unit :=
  if bad_task_id task_id then mret tt
  else
    each (fun i =>
      let p := (Z.to_nat task_id, Z.to_nat i) in
      e ← get_entry p; if so_used e =? 0 then mret tt else ns_socket_close_entry p) 0 NS_SOCKET_MAX_PER_TASK.

Definition ns_epoll_close_all_for_task (task_id : Z) : scall unit :=
  if bad_task_id task_id then mret tt
  else
    each (fun i =>
      let p := (Z.to_nat task_id, Z.to_nat i) in
      e ← get_epoll p; if ep_used e =? 0 then mret tt else ns_epoll_close_object p) 0 NS_EPOLL_MAX_PER_TASK.

Definition ns_socket_init : scall unit :=
  fmod (fun s => s <| task_sockets ::= map (map (fun e => e <| so_used := 0 |>)) |>
                   <| task_epolls ::= map (map (fun e => {| ep_used := 0; ep_watches := ep_watches e |})) |>).

(** The static tables. *)
Definition sockets_static (n : Net) (v : Vfs X B) (now : Z) : Sockets X B :=
  {| sk_net := n; sk_vfs := v; scheduler_ticks := now;
     task_sockets := replicate (Z.to_nat MAX_TASKS) (replicate NS_SOCKET_MAX_PER_TASK zero_socket);
     task_epolls := replicate (Z.to_nat MAX_TASKS) (replicate NS_EPOLL_MAX_PER_TASK zero_epoll) |}.

(** ** The system calls (kernel/syscall.c) *)

(** A pointer of the caller: one [validate_user_ptr] refuses (in ring 3, and there null is
    among them), null, or what it points to.  [sys_write] tests for null first. *)
Inductive UserPtr (A : Type) := PBad | PNull | PTo (a : A).
#[global] Arguments PBad {A}.
#[global] Arguments PNull {A}.
#[global] Arguments PTo {A}.

Record NsSockAddrIn := { sin_family : Z; sin_port : Z; sin_addr : Z }.
Record NsEpollWaitReq := { wr_events : UserPtr unit; wr_maxevents : Z; wr_timeout_ticks : Z }.

(** How a call ends: with the value of EAX and what it stored for the caller, asleep, or
    in the branch for descriptors that are no sockets. *)
Inductive UserData := DNone | DBytes (b : list Z) | DAddr (a : NsSockAddrIn) | DFds (fds : list NsPollFd).
Inductive SysResult := Returns (eax : Z) (data : UserData) | Sleeps | NoSocket.

Definition NS_OK : Z := 0.
Definition NS_ERR_BAD_POINTER : Z := u32 (-2).
Definition NS_ERR_WOULD_BLOCK : Z := u32 (-3).
Definition NS_ERR_INVALID_ARG : Z := u32 (-22).
Definition NS_AF_INET : Z := 2.
Definition NS_SO_REUSEADDR : Z := 2.
Definition NS_SO_RCVTIMEO : Z := 3.
Definition NS_SO_SNDTIMEO : Z := 4.
Definition NS_SO_KEEPALIVE : Z := 5.
Definition NS_SHUT_RD : Z := 0.
Definition NS_SHUT_WR : Z := 1.
Definition NS_SHUT_RDWR : Z := 2.
Definition NS_EPOLL_OP_CREATE : Z := 1.
Definition NS_EPOLL_OP_CTL : Z := 2.
Definition NS_EPOLL_OP_WAIT : Z := 3.
Definition NS_EPOLL_OP_CLOSE : Z := 4.

Definition ns_bswap16 (v : Z) : Z := u16 (Z.lor (Z.shiftl v 8) (Z.shiftr v 8)).
Definition ns_bswap32 (v : Z) : Z :=
  u32 (Z.lor (Z.lor (Z.shiftl (Z.land v 0xFF) 24) (Z.shiftl (Z.land v 0xFF00) 8))
         (Z.lor (Z.shiftr (Z.land v 0xFF0000) 8) (Z.shiftr (Z.land v 0xFF000000) 24))).

Definition done (eax : Z) : scall SysResult := mret (Returns (u32 eax) DNone).
Definition invalid : scall SysResult := done NS_ERR_INVALID_ARG.
Definition would_block : scall SysResult := done NS_ERR_WOULD_BLOCK.

Definition current : scall Z := s ← fget; mret (os_current_task (sk_vfs s)).
(** [ns_socket_entry_for_fd(os_current_task, fd)] with the register [fd]. *)
Definition own_socket (fd : Z) : scall (option sref) := s ← fget; ns_socket_entry_for_fd (os_current_task (sk_vfs s)) (i32 fd).
Definition own_epoll (fd : Z) : scall (option sref) := s ← fget; ns_epoll_object_for_fd (os_current_task (sk_vfs s)) (i32 fd).

(** The steps that the calls share: look at the socket, return at once when it does not
    block, or wait.  [None] stands for a caller that is still asleep. *)
Definition ready_or_wait (ready : NsSocketEntry -> Net -> bool) (timeout : NsSocketEntry -> Z) (p : sref) (sleeps : list (scall unit)) :
    scall (option bool) :=
  e ← get_entry p; s ← fget;
  if ready e (sk_net s) then mret (Some true)
  else if ns_socket_is_nonblocking e then mret (Some false)
  else
    w ← ns_socket_wait_for ready p (timeout e) sleeps;
    mret (match w with Ready => Some true | Expired => Some false | Asleep => None end).

(** The rest of a call after such a wait. *)
Definition after_wait (r : option bool) (k : scall SysResult) : scall SysResult :=
  match r with None => mret Sleeps | Some false => would_block | Some true => k end.

Definition sys_socket (domain type protocol : Z) : scall SysResult :=
  if negb (i32 domain =? NS_AF_INET) || (negb (i32 type =? NS_SOCK_STREAM) && negb (i32 type =? NS_SOCK_DGRAM)) then invalid
  else
    t ← current;
    fd ← ns_socket_alloc_fd t (i32 type) (i32 protocol);
    if fd <? 0 then done VFS_ERR_NO_SPACE else done fd.

Definition sys_bind (fd : Z) (addr : UserPtr NsSockAddrIn) : scall SysResult :=
  match addr with
  | PBad => done NS_ERR_BAD_POINTER
  | PNull => invalid
  | PTo a =>
      s ← own_socket fd;
      match s with
      | None => invalid
      | Some p =>
          if negb (sin_family a =? NS_AF_INET) then invalid
          else
            let port := ns_bswap16 (sin_port a) in
            if port =? 0 then invalid
            else
              let bind := set_socket p (fun e => e <| so_bound := 1 |> <| so_local_port := port |>) in
              e ← get_entry p;
              if so_type e =? NS_SOCK_DGRAM then
                ok ← on_net (net_udp_bind port);
                if ok =? 0 then done VFS_ERR_NO_SPACE else bind ≫= fun _ => done NS_OK
              else bind ≫= fun _ => done NS_OK
      end
  end.

Definition sys_listen (fd : Z) : scall SysResult :=
  s ← own_socket fd;
  match s with
  | None => invalid
  | Some p =>
      e ← get_entry p;
      if negb (so_type e =? NS_SOCK_STREAM) || (so_bound e =? 0) then invalid
      else
        conn_id ← on_net (net_tcp_listen (so_local_port e));
        if conn_id <? 0 then done VFS_ERR_NO_SPACE
        else set_socket p (fun e => e <| so_listening := 1 |> <| so_net_conn_id := conn_id |>) ≫= fun _ => done NS_OK
  end.

(** The entry of an accepted connection. *)
Definition child_entry (parent : NsSocketEntry) (peer_ip peer_port conn_id : Z) (e : NsSocketEntry) : NsSocketEntry :=
  e <| so_bound := 1 |> <| so_local_port := so_local_port parent |> <| so_peer_ip := peer_ip |> <| so_peer_port := peer_port |>
    <| so_listening := 0 |> <| so_net_conn_id := conn_id |> <| so_flags := so_flags parent |>
    <| so_rcv_timeout_ticks := so_rcv_timeout_ticks parent |> <| so_snd_timeout_ticks := so_snd_timeout_ticks parent |>
    <| so_reuse_addr := so_reuse_addr parent |> <| so_keepalive := so_keepalive parent |> <| so_shut_rd := 0 |> <| so_shut_wr := 0 |>.

(** [peer] is the caller's structure, which may be null. *)
Definition sys_accept (fd : Z) (peer : UserPtr unit) (sleeps : list (scall unit)) : scall SysResult :=
  match peer with
  | PBad => done NS_ERR_BAD_POINTER
  | _ =>
      s ← own_socket fd;
      match s with
      | None => invalid
      | Some p =>
          e ← get_entry p;
          if negb (so_type e =? NS_SOCK_STREAM) || (so_listening e =? 0) then invalid
          else
            r ← ready_or_wait ns_socket_ready_for_read so_rcv_timeout_ticks p sleeps;
            after_wait r (
              e ← get_entry p;
              c ← on_net (net_tcp_accept (so_local_port e));
              match c with
              | None => would_block
              | Some (conn_id, peer_ip, peer_port) =>
                  t ← current;
                  newfd ← ns_socket_alloc_fd t NS_SOCK_STREAM 0;
                  if newfd <? 0 then on_net (net_tcp_close conn_id) ≫= fun _ => done VFS_ERR_NO_SPACE
                  else
                    child ← own_socket newfd;
                    match child with
                    | None => fault
                    | Some q =>
                        e ← get_entry p;
                        set_socket q (child_entry e peer_ip peer_port conn_id) ≫= fun _ =>
                        mret (Returns (u32 newfd)
                                (match peer with
                                 | PTo _ => DAddr {| sin_family := NS_AF_INET; sin_port := ns_bswap16 peer_port; sin_addr := ns_bswap32 peer_ip |}
                                 | _ => DNone
                                 end))
                    end
              end)
      end
  end.

Definition sys_connect (fd : Z) (addr : UserPtr NsSockAddrIn) (sleeps : list (scall unit)) : scall SysResult :=
  match addr with
  | PBad => done NS_ERR_BAD_POINTER
  | PNull => invalid
  | PTo a =>
      s ← own_socket fd;
      match s with
      | None => invalid
      | Some p =>
          if negb (sin_family a =? NS_AF_INET) then invalid
          else
            let port := ns_bswap16 (sin_port a) in
            let ip := ns_bswap32 (sin_addr a) in
            if (port =? 0) || (ip =? 0) then invalid
            else
              e ← get_entry p;
              if so_type e =? NS_SOCK_DGRAM then
                set_socket p (fun e => e <| so_peer_ip := ip |> <| so_peer_port := port |>) ≫= fun _ => done NS_OK
              else
                t ← current;
                (if so_bound e =? 0 then
                   set_socket p (fun e => e <| so_bound := 1 |> <| so_local_port := u16 (40000 + Z.land t 0x7F) |>)
                 else mret tt) ≫= fun _ =>
                e ← get_entry p;
                conn_id ← on_net (net_tcp_connect ip port (so_local_port e));
                if conn_id <? 0 then would_block
                else
                  set_socket p (fun e => e <| so_peer_ip := ip |> <| so_peer_port := port |> <| so_net_conn_id := conn_id |>
                                           <| so_listening := 0 |>) ≫= fun _ =>
                  e ← get_entry p;
                  if ns_socket_is_nonblocking e then would_block
                  else
                    let infinite := so_snd_timeout_ticks e =? FOREVER in
                    now ← now_ticks;
                    let deadline := if infinite then 0 else now +u so_snd_timeout_ticks e in
                    r ← sleep_until (s ← fget; mret (tt, net_tcp_is_established conn_id (sk_net s))) (past infinite deadline) sleeps;
                    match snd r with Ready => done NS_OK | Expired => would_block | Asleep => mret Sleeps end
      end
  end.

(** The port datagrams leave from. *)
Definition source_port (e : NsSocketEntry) : Z := if so_bound e =? 0 then 40000 else so_local_port e.
Definition connected (e : NsSocketEntry) : bool := negb (so_peer_ip e =? 0) && negb (so_peer_port e =? 0).

Definition sys_sendto (fd : Z) (buf : UserPtr (list Z)) (len : Z) (sleeps : list (scall unit)) : scall SysResult :=
  match buf with
  | PBad => done NS_ERR_BAD_POINTER
  | PNull => invalid
  | PTo bytes =>
      s ← own_socket fd;
      match s with
      | None => invalid
      | Some p =>
          if len =? 0 then invalid
          else
            e ← get_entry p;
            if negb (so_shut_wr e =? 0) then invalid
            else if so_type e =? NS_SOCK_DGRAM then
              rc ← (if connected e then on_net (net_udp_send (so_peer_ip e) (source_port e) (so_peer_port e) (Some bytes) (u16 len))
                    else mret NS_ERR_INVALID_ARG);
              if rc =? 0 then would_block else done len
            else if (so_type e =? NS_SOCK_STREAM) && (0 <=? so_net_conn_id e) then
              r ← ready_or_wait ns_socket_ready_for_write so_snd_timeout_ticks p sleeps;
              after_wait r (e ← get_entry p; rc ← on_net (net_tcp_send (so_net_conn_id e) (Some bytes) (u16 len)); done rc)
            else invalid
      end
  end.

(** The bytes a receive call stored, or that it would block. *)
Definition received_bytes (b : list Z) : scall SysResult :=
  match b with [] => would_block | _ => mret (Returns (Z.of_nat (length b)) (DBytes b)) end.

Definition sys_recvfrom (fd : Z) (buf : UserPtr unit) (len : Z) (sleeps : list (scall unit)) : scall SysResult :=
  match buf with
  | PBad => done NS_ERR_BAD_POINTER
  | PNull => invalid
  | PTo _ =>
      s ← own_socket fd;
      match s with
      | None => invalid
      | Some p =>
          if len =? 0 then invalid
          else
            e ← get_entry p;
            if negb (so_shut_rd e =? 0) then invalid
            else if (so_type e =? NS_SOCK_DGRAM) && negb (so_bound e =? 0) then
              r ← ready_or_wait ns_socket_ready_for_read so_rcv_timeout_ticks p sleeps;
              after_wait r (
                e ← get_entry p;
                d ← on_net (net_udp_recv (so_local_port e) true (u16 len));
                match d with
                | None => would_block
                | Some (src_ip, src_port, b) =>
                    (if (0 <? Z.of_nat (length b)) && ((so_peer_ip e =? 0) || (so_peer_port e =? 0)) then
                       set_socket p (fun e => e <| so_peer_ip := src_ip |> <| so_peer_port := src_port |>)
                     else mret tt) ≫= fun _ => received_bytes b
                end)
            else if (so_type e =? NS_SOCK_STREAM) && (0 <=? so_net_conn_id e) then
              r ← ready_or_wait ns_socket_ready_for_read so_rcv_timeout_ticks p sleeps;
              after_wait r (e ← get_entry p; b ← on_net (net_tcp_recv (so_net_conn_id e) true (u16 len)); received_bytes b)
            else invalid
      end
  end.

(** The branch of [SYS_READ] for sockets. *)
Definition sys_read (fd : Z) (buf : UserPtr unit) (size : Z) (sleeps : list (scall unit)) : scall SysResult :=
  match buf with
  | PBad => done NS_ERR_BAD_POINTER
  | _ =>
      let there := match buf with PTo _ => true | _ => false end in
      s ← own_socket fd;
      match s with
      | None => mret NoSocket
      | Some p =>
          e ← get_entry p;
          if negb (so_shut_rd e =? 0) then invalid
          else
            r ← ready_or_wait ns_socket_ready_for_read so_rcv_timeout_ticks p sleeps;
            after_wait r (
              e ← get_entry p;
              if (so_type e =? NS_SOCK_STREAM) && (0 <=? so_net_conn_id e) then
                b ← on_net (net_tcp_recv (so_net_conn_id e) there (u16 size)); received_bytes b
              else if (so_type e =? NS_SOCK_DGRAM) && negb (so_bound e =? 0) then
                d ← on_net (net_udp_recv (so_local_port e) there (u16 size));
                received_bytes (match d with Some (_, _, b) => b | None => [] end)
              else invalid)
      end
  end.

(** The branch of [SYS_WRITE] for sockets. *)
Definition sys_write (fd : Z) (buf : UserPtr (list Z)) (size : Z) (sleeps : list (scall unit)) : scall SysResult :=
  s ← own_socket fd;
  match s with
  | None => mret NoSocket
  | Some p =>
      match buf with
      | PNull => mret NoSocket
      | PBad => if 0 <? size then done NS_ERR_BAD_POINTER else mret NoSocket
      | PTo bytes =>
          if size <=? 0 then mret NoSocket
          else
            e ← get_entry p;
            if negb (so_shut_wr e =? 0) then invalid
            else if (so_type e =? NS_SOCK_STREAM) && (0 <=? so_net_conn_id e) then
              r ← ready_or_wait ns_socket_ready_for_write so_snd_timeout_ticks p sleeps;
              after_wait r (e ← get_entry p; rc ← on_net (net_tcp_send (so_net_conn_id e) (Some bytes) (u16 size)); done rc)
            else if (so_type e =? NS_SOCK_DGRAM) && connected e then
              rc ← on_net (net_udp_send (so_peer_ip e) (source_port e) (so_peer_port e) (Some bytes) (u16 size));
              if rc =? 0 then would_block else done size
            else done VFS_ERR_INVALID_ARG
      end
  end.

(** The branches of [SYS_CLOSE] for sockets and epoll objects. *)
Definition sys_close (fd : Z) : scall SysResult :=
  s ← own_socket fd;
  ep ← own_epoll fd;
  match s, ep with
  | Some p, _ => ns_socket_close_entry p ≫= fun _ => done NS_OK
  | None, Some q => ns_epoll_close_object q ≫= fun _ => done NS_OK
  | None, None => mret NoSocket
  end.

(** The branch of [SYS_FCNTL] for sockets. *)
Definition sys_fcntl (fd cmd arg : Z) : scall SysResult :=
  s ← own_socket fd;
  match s with
  | None => mret NoSocket
  | Some p =>
      if i32 cmd =? VFS_F_GETFL then e ← get_entry p; done (so_flags e)
      else if i32 cmd =? VFS_F_SETFL then set_socket p (fun e => e <| so_flags := i32 arg |>) ≫= fun _ => done NS_OK
      else invalid
  end.

Definition truth (val : Z) : Z := if val =? 0 then 0 else 1.
Definition sys_setsockopt (fd opt val : Z) : scall SysResult :=
  s ← own_socket fd;
  match s with
  | None => invalid
  | Some p =>
      let set f := set_socket p f ≫= fun _ => done NS_OK in
      if i32 opt =? NS_SO_REUSEADDR then set (fun e => e <| so_reuse_addr := truth val |>)
      else if i32 opt =? NS_SO_KEEPALIVE then set (fun e => e <| so_keepalive := truth val |>)
      else if i32 opt =? NS_SO_RCVTIMEO then set (fun e => e <| so_rcv_timeout_ticks := val |>)
      else if i32 opt =? NS_SO_SNDTIMEO then set (fun e => e <| so_snd_timeout_ticks := val |>)
      else invalid
  end.

Definition sys_getsockopt (fd opt : Z) : scall SysResult :=
  s ← own_socket fd;
  match s with
  | None => invalid
  | Some p =>
      e ← get_entry p;
      if i32 opt =? NS_SO_REUSEADDR then done (so_reuse_addr e)
      else if i32 opt =? NS_SO_KEEPALIVE then done (so_keepalive e)
      else if i32 opt =? NS_SO_RCVTIMEO then done (so_rcv_timeout_ticks e)
      else if i32 opt =? NS_SO_SNDTIMEO then done (so_snd_timeout_ticks e)
      else invalid
  end.

Definition sys_shutdown (fd how : Z) : scall SysResult :=
  let how := i32 how in
  s ← own_socket fd;
  match s with
  | None => invalid
  | Some p =>
      if negb (how =? NS_SHUT_RD) && negb (how =? NS_SHUT_WR) && negb (how =? NS_SHUT_RDWR) then invalid
      else
        (if (how =? NS_SHUT_RD) || (how =? NS_SHUT_RDWR) then set_socket p (fun e => e <| so_shut_rd := 1 |>) else mret tt) ≫= fun _ =>
        (if (how =? NS_SHUT_WR) || (how =? NS_SHUT_RDWR) then
           set_socket p (fun e => e <| so_shut_wr := 1 |>) ≫= fun _ =>
           e ← get_entry p;
           if (so_type e =? NS_SOCK_STREAM) && (0 <=? so_net_conn_id e) then on_net (net_tcp_close (so_net_conn_id e)) ≫= fun _ => mret tt
           else mret tt
         else mret tt) ≫= fun _ =>
        done NS_OK
  end.

(** [SYS_SELECT] and [SYS_POLL]; [fds] has [count] entries. *)
Definition sys_poll (fds : UserPtr (list NsPollFd)) (count timeout_ticks : Z) (sleeps : list (scall unit)) : scall SysResult :=
  if count =? 0 then done NS_OK
  else if TASK_MAX_FDS <? count then invalid
  else
    match fds with
    | PNull => invalid
    | PBad => done NS_ERR_BAD_POINTER
    | PTo fds =>
        t ← current;
        r ← ns_poll_socket_array_wait t fds timeout_ticks sleeps;
        mret (match snd r with Some rc => Returns (u32 rc) (DFds (fst r)) | None => Sleeps end)
    end.

(** [ctl] and [wait] are what [arg] points to for the operations that use it. *)
Definition sys_epoll (op epfd : Z) (ctl : UserPtr NsEpollCtlReq) (wait : UserPtr NsEpollWaitReq) (sleeps : list (scall unit)) : scall SysResult :=
  if i32 op =? NS_EPOLL_OP_CREATE then
    t ← current; newfd ← ns_epoll_alloc_fd t; if newfd <? 0 then done VFS_ERR_NO_SPACE else done newfd
  else if i32 op =? NS_EPOLL_OP_CLOSE then
    ep ← own_epoll epfd;
    match ep with None => invalid | Some q => ns_epoll_close_object q ≫= fun _ => done NS_OK end
  else if i32 op =? NS_EPOLL_OP_CTL then
    ep ← own_epoll epfd;
    match ep, ctl with
    | None, _ | _, PNull => invalid
    | _, PBad => done NS_ERR_BAD_POINTER
    | Some q, PTo req =>
        obj ← get_epoll q;
        let '(obj', rc) := ns_epoll_ctl_apply obj req in
        set_epoll q (fun _ => obj') ≫= fun _ => done rc
    end
  else if i32 op =? NS_EPOLL_OP_WAIT then
    ep ← own_epoll epfd;
    match ep, wait with
    | None, _ | _, PNull => invalid
    | _, PBad => done NS_ERR_BAD_POINTER
    | Some q, PTo req =>
        match wr_events req with
        | PNull => invalid
        | ev =>
            if (wr_maxevents req =? 0) || (TASK_MAX_FDS <? wr_maxevents req) then invalid
            else
              match ev with
              | PBad => done NS_ERR_BAD_POINTER
              | _ =>
                  r ← ns_epoll_wait_ready q (wr_maxevents req) (wr_timeout_ticks req) sleeps;
                  mret (match snd r with Some rc => Returns (u32 rc) (DFds (fst r)) | None => Sleeps end)
              end
        end
    end
  else invalid.

(** What [SYS_EXIT] and [SYS_FORK] do to the tables: the task that ends and the slot of the
    child lose their sockets. *)
Definition close_everything (task_id : Z) : scall unit :=
  ns_socket_close_all_for_task task_id ≫= fun _ => ns_epoll_close_all_for_task task_id.
End Socket.
