(* ===== verification/SocketRuns.v ===== *)
(** * Sockets: what the calls do to the tables

    Every socket call keeps the types of the tables and of the stack below, whatever happens
    while it sleeps; it changes the descriptors of the task that makes it as its result says,
    and nothing of the other tasks.  An epoll object is a finite map, and a wait with a
    timeout ends. *)
From S2P Require Import Prelude Fault Bytes Buffers VfsDefs Vfs NetState NetSend NetTcp NetRecv NetWf NetSendSafe NetTcpSafe NetRecvSafe Net Socket.

(** ** The invariant *)

Record socket_wf (e : NsSocketEntry) : Prop := {
  sw_used : is_bool (so_used e); sw_type : so_used e <> 0 -> so_type e = NS_SOCK_STREAM \/ so_type e = NS_SOCK_DGRAM;
  sw_port : is_u16 (so_local_port e); sw_peer_ip : is_u32 (so_peer_ip e); sw_peer_port : is_u16 (so_peer_port e);
  sw_conn : -1 <= so_net_conn_id e < Z.of_nat TCP_MAX_CONNS; sw_rcv : is_u32 (so_rcv_timeout_ticks e); sw_snd : is_u32 (so_snd_timeout_ticks e);
  sw_flags : is_i32 (so_flags e)
}.

(** The watches in use, and the map they stand for. *)
Definition watch_used (w : NsEpollWatch) : bool := negb (wt_used w =? 0).
Definition watched (ws : list NsEpollWatch) : list (Z * Z) := map (fun w => (wt_fd w, wt_events w)) (List.filter watch_used ws).
Record epoll_wf (o : NsEpollObject) : Prop := {
  pf_used : is_bool (ep_used o); pf_length : length (ep_watches o) = NS_EPOLL_MAX_WATCH;
  pf_nodup : NoDup (map fst (watched (ep_watches o)))
}.

(** *** Epoll objects *)

Definition watch_entry (w : NsEpollWatch) : list (Z * Z) := if watch_used w then [(wt_fd w, wt_events w)] else [].
Definition watch_of (fd : Z) (w : NsEpollWatch) : bool := watch_used w && (wt_fd w =? fd).
Definition epoll_map (o : NsEpollObject) : gmap Z Z := list_to_map (watched (ep_watches o)).

Lemma watched_cons w ws : watched (w :: ws) = watch_entry w ++ watched ws.
Proof. unfold watched, watch_entry. simpl. by destruct (watch_used w). Qed.

Lemma watch_scan_found fd ws : forall i free, snd (watch_scan fd ws i free) = Nat.add i <$> find_idx (watch_of fd) ws.
Proof.
  induction ws as [|w ws IH]; intros i free; [done|]. cbn [watch_scan find_idx]. unfold watch_of at 1, watch_used.
  destruct (negb (wt_used w =? 0) && (wt_fd w =? fd)); [simpl; f_equal; lia|]. rewrite IH. destruct (find_idx _ ws); [|done]. simpl. f_equal. lia.
Qed.

Lemma watch_scan_free fd ws : forall i free, find_idx (watch_of fd) ws = None ->
  fst (watch_scan fd ws i free) = match free with Some f => Some f | None => Nat.add i <$> find_idx (fun w => negb (watch_used w)) ws end.
Proof.
  induction ws as [|w ws IH]; intros i free; cbn [watch_scan find_idx]; [by destruct free|].
  destruct (watch_of fd w) eqn:E; [done|]. destruct (find_idx (watch_of fd) ws) eqn:Ef; [done|]. intros _.
  unfold watch_of, watch_used in *. rewrite E, IH by done. rewrite negb_involutive. destruct free, (wt_used w =? 0); try done; cbn; [f_equal; lia|].
  destruct (find_idx (fun w => negb (negb (wt_used w =? 0))) ws); cbn; [f_equal; lia|done].
Qed.

(** One watch replaced by another. *)
Lemma watched_insert ws : forall i w0 w, ws !! i = Some w0 -> watch_entry w0 ++ watched (<[i := w]> ws) ≡ₚ watch_entry w ++ watched ws.
Proof.
  induction ws as [|x ws IH]; intros [|i] w0 w Hi; try done; cbn in Hi.
  - injection Hi as ->. change (<[0%nat := w]> (w0 :: ws)) with (w :: ws). rewrite !watched_cons, !app_assoc. by rewrite (Permutation_app_comm (watch_entry w0)).
  - change (<[S i := w]> (x :: ws)) with (x :: <[i := w]> ws). rewrite !watched_cons, !app_assoc.
    rewrite (Permutation_app_comm (watch_entry w0)), (Permutation_app_comm (watch_entry w)), <- !app_assoc. by rewrite IH.
Qed.

Lemma watched_free ws : find_idx (fun w => negb (watch_used w)) ws = None <-> length (watched ws) = length ws.
Proof.
  induction ws as [|w ws IH]; [done|]. cbn [find_idx]. rewrite watched_cons, length_app. unfold watch_entry.
  assert (length (watched ws) <= length ws)%nat.
  { clear. induction ws as [|w ws IH]; [done|]. rewrite watched_cons, length_app. unfold watch_entry. destruct (watch_used w); simpl; lia. }
  destruct (watch_used w); simpl; [|split; [done|lia]]. rewrite fmap_None, IH. lia.
Qed.

Lemma watched_lookup fd ws : find_idx (watch_of fd) ws = None -> fd ∉ map fst (watched ws).
Proof.
  induction ws as [|w ws IH]; [intros _; apply not_elem_of_nil|]. cbn [find_idx]. rewrite watched_cons, map_app.
  destruct (watch_of fd w) eqn:E; [done|]. destruct (find_idx _ ws) eqn:Ef; [done|]. intros _ [Hin|Hin]%elem_of_app; [|by apply IH].
  unfold watch_entry, watch_of in *. destruct (watch_used w); [|by apply elem_of_nil in Hin]. simpl in *. apply list_elem_of_singleton in Hin as ->. bsimpl. lia.
Qed.

Lemma watched_clear {A} (l : list A) : watched (map (fun _ => empty_watch) l) = [].
Proof. unfold watched. by induction l. Qed.

(** The map of an object, and the calls on it. *)
Lemma epoll_map_size o : epoll_wf o -> size (epoll_map o) = length (watched (ep_watches o)).
Proof.
  intros [_ _ Hn]. unfold epoll_map. rewrite <- length_map_to_list.
  change (map fst ?l) with l.*1 in Hn. by rewrite map_to_list_to_map.
Qed.

Definition ctl_spec (M : gmap Z Z) (req : NsEpollCtlReq) : gmap Z Z * Z :=
  let fd := pl_fd (cr_event req) in
  let there := bool_decide (is_Some (M !! fd)) in
  if fd <? 0 then (M, -22)
  else if cr_op req =? NS_EPOLL_CTL_ADD then
    if there then (M, -22) else if (NS_EPOLL_MAX_WATCH <=? size M)%nat then (M, -28) else (<[fd := pl_events (cr_event req)]> M, 0)
  else if cr_op req =? NS_EPOLL_CTL_MOD then if there then (<[fd := pl_events (cr_event req)]> M, 0) else (M, -22)
  else if cr_op req =? NS_EPOLL_CTL_DEL then if there then (delete fd M, 0) else (M, -22)
  else (M, -22).

Lemma epoll_insert o i w0 w M : epoll_wf o -> ep_watches o !! i = Some w0 ->
  watch_entry w0 ++ map_to_list M ≡ₚ watch_entry w ++ watched (ep_watches o) ->
  epoll_wf (set_watch i w o) /\ epoll_map (set_watch i w o) = M.
Proof.
  intros [Hu Hl Hn] Hi HM. pose proof (watched_insert _ i w0 w Hi) as Hp. rewrite <- HM in Hp. apply Permutation_app_inv_l in Hp.
  assert (NoDup (watched (<[i := w]> (ep_watches o))).*1) as Hn'.
  { rewrite Hp. apply NoDup_fst_map_to_list. }
  split; [constructor; [done|cbn; by rewrite length_insert|done]|]. unfold epoll_map. cbn.
  rewrite (list_to_map_proper _ _ Hn' Hp). apply list_to_map_to_list.
Qed.

Lemma epoll_ctl_ok o req : epoll_wf o ->
  let '(o', rc) := ns_epoll_ctl_apply o req in epoll_wf o' /\ (epoll_map o', rc) = ctl_spec (epoll_map o) req /\ ep_used o' = ep_used o.
Proof.
  intros Ho. unfold ns_epoll_ctl_apply, ctl_spec. cbv zeta. set (fd := pl_fd (cr_event req)). set (ev := pl_events (cr_event req)).
  case_if; [done|]. bsimpl. pose proof (watch_scan_found fd (ep_watches o) 0 None) as Efound. pose proof (watch_scan_free fd (ep_watches o) 0 None) as Efree.
  destruct (watch_scan fd (ep_watches o) 0 None) as [free found]. cbn [fst snd] in *. pose proof Ho as [Hu Hl Hn]. change (map fst ?l) with l.*1 in Hn.
  assert (map_to_list (epoll_map o) ≡ₚ watched (ep_watches o)) as Hlist by (by apply map_to_list_to_map).
  destruct (find_idx (watch_of fd) (ep_watches o)) as [j|] eqn:Ej; cbn in Efound; subst found.
  - apply find_idx_Some in Ej as [(w & Hw & Hof) _]. unfold watch_of in Hof. bsimpl.
    destruct (watch_used w) eqn:Hused; [|done]. assert (wt_fd w = fd) as Hfd by (by destruct (Z.eqb_spec (wt_fd w) fd)).
    assert (watch_entry w = [(fd, wt_events w)]) as Eentry by (unfold watch_entry; by rewrite Hused, Hfd).
    assert (epoll_map o !! fd = Some (wt_events w)) as HM.
    { unfold epoll_map. apply elem_of_list_to_map_1; [done|]. unfold watched. apply list_elem_of_In, in_map_iff. exists w. rewrite Hfd. split; [done|].
      apply filter_In. split; [|done]. apply list_elem_of_In. by eapply list_elem_of_lookup_2. }
    rewrite bool_decide_true by eauto.
    assert (map_to_list (epoll_map o) ≡ₚ (fd, wt_events w) :: map_to_list (delete fd (epoll_map o))) as Hd by (symmetry; by apply map_to_list_delete).
    rewrite Hlist in Hd. case_if; [done|]. case_if; [|case_if; [|done]].
    + destruct (epoll_insert o j w {| wt_used := 1; wt_fd := fd; wt_events := ev |} (<[fd := ev]> (epoll_map o)) Ho Hw) as [Hw' HM']; [|by rewrite HM'].
      rewrite Eentry, Hd. cbn. rewrite <- insert_delete_eq, map_to_list_insert by apply lookup_delete_eq. apply Permutation_swap.
    + destruct (epoll_insert o j w empty_watch (delete fd (epoll_map o)) Ho Hw) as [Hw' HM']; [|by rewrite HM'].
      by rewrite Eentry, Hd.
  - specialize (Efree ltac:(done)). subst free. apply watched_lookup in Ej.
    assert (epoll_map o !! fd = None) as HM by (by apply not_elem_of_list_to_map_1). rewrite bool_decide_false by (rewrite HM; by intros [? ?]).
    case_if; [|repeat case_if; done]. rewrite epoll_map_size by done. pose proof (watched_free (ep_watches o)) as Hfree.
    destruct (find_idx _ (ep_watches o)) as [i|] eqn:Ei; cbn [fmap option_fmap option_map Nat.add].
    + destruct (Nat.leb_spec NS_EPOLL_MAX_WATCH (length (watched (ep_watches o)))) as [Hle|Hlt].
      { exfalso. assert (length (watched (ep_watches o)) <= length (ep_watches o))%nat.
        { unfold watched. rewrite length_map. apply filter_length_le. }
        destruct Hfree as [_ Hfree]. specialize (Hfree ltac:(lia)). done. }
      apply find_idx_Some in Ei as [(w & Hw & Hfr) _]. assert (watch_entry w = []) as Ew by (unfold watch_entry; by destruct (watch_used w)).
      destruct (epoll_insert o i w {| wt_used := 1; wt_fd := fd; wt_events := ev |} (<[fd := ev]> (epoll_map o)) Ho Hw) as [Hw' HM']; [|by rewrite HM'].
      rewrite Ew. cbn. rewrite map_to_list_insert by done. by rewrite Hlist.
    + assert (length (watched (ep_watches o)) = length (ep_watches o)) as -> by (by apply Hfree).
      rewrite Hl. by rewrite Nat.leb_refl.
Qed.

Definition table_of {A} (n : nat) (P : A -> Prop) (rows : list (list A)) : Prop :=
  length rows = Z.to_nat MAX_TASKS /\ Forall (fun row => length row = n /\ Forall P row) rows.

Section Runs.
Context {X B : Type}.
Notation scall := (FST (Sockets X B)).
Implicit Types s : Sockets X B.

Record sk_wf s : Prop := {
  kw_net : net_wf (sk_net s); kw_ticks : is_u32 (scheduler_ticks s); kw_sockets : table_of NS_SOCKET_MAX_PER_TASK socket_wf (task_sockets s);
  kw_epolls : table_of NS_EPOLL_MAX_PER_TASK epoll_wf (task_epolls s)
}.

(** ** Looking up a descriptor *)

(** An access to a table of the right size. *)
Lemma table_elem {A} n (P : A -> Prop) rows x i s : table_of n P rows -> 0 <= x < MAX_TASKS -> 0 <= i < Z.of_nat n ->
  exists row e, elem rows x s = Done s row /\ elem row i s = Done s e /\ rows !! Z.to_nat x = Some row /\ row !! Z.to_nat i = Some e /\ P e.
Proof.
  intros [Hl Hr] Hx Hi. destruct (lookup_lt_is_Some_2 rows (Z.to_nat x) ltac:(lia)) as [row Hrow].
  destruct (Forall_lookup_1 _ _ _ _ Hr Hrow) as [Hn HP]. destruct (lookup_lt_is_Some_2 row (Z.to_nat i) ltac:(lia)) as [e He].
  exists row, e. unfold elem. rewrite Hrow, He, !(proj2 (Z.leb_le 0 _)) by lia. by split_and!; [..|apply (Forall_lookup_1 _ _ _ _ HP He)].
Qed.

Lemma socket_slot_range fd : ns_socket_fd_to_slot fd < Z.of_nat NS_SOCKET_MAX_PER_TASK.
Proof. unfold ns_socket_fd_to_slot. cbv zeta. case_if; [lia|]. bsimpl. lia. Qed.
Lemma epoll_slot_range fd : ns_epoll_fd_to_slot fd < Z.of_nat NS_EPOLL_MAX_PER_TASK.
Proof. unfold ns_epoll_fd_to_slot. cbv zeta. case_if; [lia|]. bsimpl. lia. Qed.
Lemma task_id_range x : bad_task_id x = false -> 0 <= x < MAX_TASKS.
Proof. unfold bad_task_id. intros Hb. bsimpl. lia. Qed.

(** What the lookups find: they stay in the tables, and change nothing. *)
Definition socket_found (x fd : Z) s : option sref :=
  let slot := ns_socket_fd_to_slot fd in
  if bad_task_id x || (slot <? 0) then None
  else match socket_at (Z.to_nat x, Z.to_nat slot) s with
       | Some e => if so_used e =? 0 then None else Some (Z.to_nat x, Z.to_nat slot)
       | None => None
       end.
Definition epoll_found (x fd : Z) s : option sref :=
  let slot := ns_epoll_fd_to_slot fd in
  if bad_task_id x || (slot <? 0) then None
  else match epoll_at (Z.to_nat x, Z.to_nat slot) s with
       | Some e => if ep_used e =? 0 then None else Some (Z.to_nat x, Z.to_nat slot)
       | None => None
       end.

Lemma socket_entry_ok x fd s : sk_wf s -> ns_socket_entry_for_fd x fd s = Done s (socket_found x fd s).
Proof.
  intros Hwf. unfold ns_socket_entry_for_fd, socket_found. cbv zeta. pose proof (socket_slot_range fd).
  destruct (bad_task_id x) eqn:Hx; [done|]. apply task_id_range in Hx. destruct (Z.ltb_spec (ns_socket_fd_to_slot fd) 0); [done|]. cbn [orb].
  destruct (table_elem _ _ _ x (ns_socket_fd_to_slot fd) s (kw_sockets s Hwf) Hx ltac:(lia)) as (row & e & H1 & H2 & H3 & H4 & _).
  unfold mbind, FST_bind, fget, mret, FST_ret. rewrite H1, H2. unfold socket_at. cbn [fst snd]. by rewrite H3; simpl; rewrite H4.
Qed.

Lemma epoll_object_ok x fd s : sk_wf s -> ns_epoll_object_for_fd x fd s = Done s (epoll_found x fd s).
Proof.
  intros Hwf. unfold ns_epoll_object_for_fd, epoll_found. cbv zeta. pose proof (epoll_slot_range fd).
  destruct (bad_task_id x) eqn:Hx; [done|]. apply task_id_range in Hx. destruct (Z.ltb_spec (ns_epoll_fd_to_slot fd) 0); [done|]. cbn [orb].
  destruct (table_elem _ _ _ x (ns_epoll_fd_to_slot fd) s (kw_epolls s Hwf) Hx ltac:(lia)) as (row & e & H1 & H2 & H3 & H4 & _).
  unfold mbind, FST_bind, fget, mret, FST_ret. rewrite H1, H2. unfold epoll_at. cbn [fst snd]. by rewrite H3; simpl; rewrite H4.
Qed.

Lemma socket_found_there x fd s p : socket_found x fd s = Some p ->
  p = (Z.to_nat x, Z.to_nat (ns_socket_fd_to_slot fd)) /\ (snd p < NS_SOCKET_MAX_PER_TASK)%nat /\ exists e, socket_at p s = Some e.
Proof.
  unfold socket_found. cbv zeta. pose proof (socket_slot_range fd). case_if; [done|]. bsimpl. destruct (socket_at _ s) as [e|] eqn:He; [|done].
  case_if; [done|]. intros [= <-]. cbn [snd]. split; [done|]. split; [lia|]. by exists e.
Qed.

Lemma epoll_found_there x fd s p : epoll_found x fd s = Some p ->
  p = (Z.to_nat x, Z.to_nat (ns_epoll_fd_to_slot fd)) /\ (snd p < NS_EPOLL_MAX_PER_TASK)%nat.
Proof.
  unfold epoll_found. cbv zeta. pose proof (epoll_slot_range fd). case_if; [done|]. bsimpl. destruct (epoll_at _ s) as [e|] eqn:He; [|done].
  case_if; [done|]. intros [= <-]. cbn [snd]. split; [done|]. lia.
Qed.

(** What poll reports. *)
Definition poll_result (x fd events : Z) s : Z * Z :=
  match p ← socket_found x fd s; socket_at p s with
  | Some e =>
      let revents := revents_of events (ns_socket_ready_for_read e (sk_net s)) (ns_socket_ready_for_write e (sk_net s)) in
      (Z.b2z (negb (revents =? 0)), revents)
  | None =>
      if 0 <=? vfs_getfl fd s then
        let revents := revents_of events true true in (Z.b2z (negb (revents =? 0)), revents)
      else (0, NS_POLLERR)
  end.
Definition revents_at (x : Z) s (fd events : Z) : Z := snd (poll_result x fd events s).

Lemma poll_revents_ok x fd events s : sk_wf s -> ns_fd_poll_revents x fd events s = Done s (poll_result x fd events s).
Proof.
  intros Hwf. unfold ns_fd_poll_revents, poll_result. unfold mbind at 1, FST_bind at 1. rewrite socket_entry_ok by done.
  destruct (socket_found x fd s) as [p|] eqn:Hp; cbn [mbind option_bind].
  - apply socket_found_there in Hp as (_ & _ & e & He). unfold mbind, FST_bind, get_entry, fget, mret, FST_ret. by rewrite He.
  - unfold mbind, FST_bind, fget, mret, FST_ret. by case_if.
Qed.

Lemma poll_fds_ok x fds s : sk_wf s -> poll_fds x fds s =
  Done s (map (fun f => {| pl_fd := pl_fd f; pl_events := pl_events f; pl_revents := revents_at x s (pl_fd f) (pl_events f) |}) fds).
Proof.
  intros Hwf. induction fds as [|f fds IH]; [done|]. cbn [poll_fds map]. unfold mbind, FST_bind, mret, FST_ret in *. rewrite poll_revents_ok by done.
  by rewrite IH.
Qed.

(** What a look at the watches finds. *)
Fixpoint collected (rev : Z -> Z -> Z) (ws : list NsEpollWatch) (room : nat) : list NsPollFd :=
  match ws, room with
  | w :: ws', S room' =>
      let revents := rev (wt_fd w) (wt_events w) in
      if (wt_used w =? 0) || (revents =? 0) then collected rev ws' room
      else {| pl_fd := wt_fd w; pl_events := wt_events w; pl_revents := revents |} :: collected rev ws' room'
  | _, _ => []
  end.

Lemma collect_watches_ok x ws s : sk_wf s -> forall room, collect_watches x ws room s = Done s (collected (revents_at x s) ws room).
Proof.
  intros Hwf. induction ws as [|w ws IH]; intros [|room]; try done. cbn [collect_watches collected]. destruct (wt_used w =? 0); cbn [orb]; [apply IH|].
  unfold mbind, FST_bind, mret, FST_ret in *. rewrite poll_revents_ok by done. unfold revents_at at 1 2. destruct (snd _ =? 0); [apply IH|]. by rewrite IH.
Qed.

Lemma collect_ready_ok obj maxevents s : sk_wf s ->
  ns_epoll_collect_ready obj maxevents s = Done s (collected (revents_at (os_current_task (sk_vfs s)) s) (ep_watches obj) (Z.to_nat maxevents)).
Proof. intros Hwf. unfold ns_epoll_collect_ready, mbind, FST_bind, fget. by apply collect_watches_ok. Qed.

(** ** The descriptors of a task *)

(** The type of an open socket, 0 for a free entry. *)
Definition kind (e : NsSocketEntry) : Z := if so_used e =? 0 then 0 else so_type e.

(** What a task sees of the tables, and what it does not see. *)
Record View := { v_sockets : list Z; v_epolls : list Z; v_others : list (list NsSocketEntry); v_other_epolls : list (list NsEpollObject) }.

Definition row_of {A} (t : nat) (rows : list (list A)) : list A := match rows !! t with Some row => row | None => [] end.
Definition without {A} (t : nat) (rows : list (list A)) : list (list A) := alter (fun _ => []) t rows.
Definition view (t : nat) s : View :=
  {| v_sockets := map kind (row_of t (task_sockets s)); v_epolls := map ep_used (row_of t (task_epolls s));
     v_others := without t (task_sockets s); v_other_epolls := without t (task_epolls s) |}.

Lemma without_alter {A} t (f : list A -> list A) rows : without t (alter f t rows) = without t rows.
Proof.
  unfold without. apply list_eq. intros j. destruct (decide (t = j)) as [<-|Hne]; [|by rewrite !list_lookup_alter_ne].
  rewrite !list_lookup_alter_eq. by destruct (rows !! t).
Qed.

Lemma row_of_alter {A} t (f : list A -> list A) rows row : rows !! t = Some row -> row_of t (alter f t rows) = f row.
Proof. intros Hr. unfold row_of. by rewrite list_lookup_alter_eq, Hr. Qed.

Lemma map_alter {A C} (f : A -> C) (g : A -> A) i l x : l !! i = Some x -> map f (alter g i l) = <[i := f (g x)]> (map f l).
Proof.
  intros Hx. apply list_eq. intros j. change (map f ?l) with (f <$> l). rewrite list_lookup_fmap. destruct (decide (i = j)) as [<-|Hne].
  - rewrite list_lookup_alter_eq, Hx, list_lookup_insert_eq; [done|]. rewrite length_fmap. by eapply lookup_lt_Some.
  - rewrite list_lookup_alter_ne, list_lookup_insert_ne by done. by rewrite list_lookup_fmap.
Qed.

(** ** Calls on the tables of one task *)

Section Session.
Context (t : nat) (Ht : (t < Z.to_nat MAX_TASKS)%nat) (cur : Z).

(** A call that works on the tables of task [t] on its way, while [cur] runs; [K] is what is
    known of the view of [t]. *)
Record in_call (K : View -> Prop) s : Prop := {
  ic_wf : sk_wf s; ic_task : os_current_task (sk_vfs s) = cur; ic_view : K (view t s)
}.

Lemma in_call_mono (K K' : View -> Prop) s : in_call K s -> (forall v, K v -> K' v) -> in_call K' s.
Proof. intros [] HK. constructor; auto. Qed.

Lemma in_call_sleep s K : in_call K s -> in_call (eq (view t s)) s.
Proof. intros []. by constructor. Qed.

Section Known.
Context (K : View -> Prop).
Notation J := (in_call K).
Abbreviation ssafe := (safe J).

Lemma on_net_safe {A} (m : call A) R : nsafe m R -> ssafe (on_net m) R.
Proof.
  intros Hm s [[] Htask HK]. unfold on_net, wpf. specialize (Hm (sk_net s) ltac:(done)). unfold wpf in Hm.
  destruct (m (sk_net s)) as [n a|n]; [|done]. destruct Hm as [Hn Ha]. split; [|done]. constructor; [by constructor|done|done].
Qed.

(** A place in the tables of the task. *)
Definition own_ref (n : nat) (p : sref) : Prop := fst p = t /\ (snd p < n)%nat.

Lemma row_there {A} n (P : A -> Prop) rows : table_of n P rows -> exists row, rows !! t = Some row /\ length row = n /\ Forall P row.
Proof.
  intros [Hl Hr]. destruct (lookup_lt_is_Some_2 rows t ltac:(lia)) as [row Hrow]. exists row. split; [done|].
  apply (Forall_lookup_1 _ _ _ _ Hr Hrow).
Qed.

Lemma entry_there s p : sk_wf s -> own_ref NS_SOCKET_MAX_PER_TASK p -> exists row e, task_sockets s !! t = Some row /\ row !! snd p = Some e /\
  socket_at p s = Some e /\ socket_wf e.
Proof.
  intros [] [Hp Hi]. destruct (row_there _ _ _ kw_sockets0) as (row & Hrow & Hl & Hw). destruct (lookup_lt_is_Some_2 row (snd p) ltac:(lia)) as [e He].
  exists row, e. split; [done|]. split; [done|]. split; [unfold socket_at; rewrite Hp, Hrow; done|]. by apply (Forall_lookup_1 _ _ _ _ Hw He).
Qed.

Lemma epoll_there s p : sk_wf s -> own_ref NS_EPOLL_MAX_PER_TASK p -> exists row o, task_epolls s !! t = Some row /\ row !! snd p = Some o /\
  epoll_at p s = Some o /\ epoll_wf o.
Proof.
  intros [] [Hp Hi]. destruct (row_there _ _ _ kw_epolls0) as (row & Hrow & Hl & Hw). destruct (lookup_lt_is_Some_2 row (snd p) ltac:(lia)) as [o Ho].
  exists row, o. split; [done|]. split; [done|]. split; [unfold epoll_at; rewrite Hp, Hrow; done|]. by apply (Forall_lookup_1 _ _ _ _ Hw Ho).
Qed.

Lemma get_entry_safe p : own_ref NS_SOCKET_MAX_PER_TASK p -> ssafe (get_entry p) socket_wf.
Proof. intros Hp s HJ. destruct (entry_there s p (ic_wf _ _ HJ) Hp) as (row & e & _ & _ & He & Hw). unfold get_entry, wpf. by rewrite He. Qed.

Lemma get_epoll_safe p : own_ref NS_EPOLL_MAX_PER_TASK p -> ssafe (get_epoll p) epoll_wf.
Proof. intros Hp s HJ. destruct (epoll_there s p (ic_wf _ _ HJ) Hp) as (row & e & _ & _ & He & Hw). unfold get_epoll, wpf. by rewrite He. Qed.

Lemma table_alter {A} n (P : A -> Prop) (f : A -> A) i rows row x : table_of n P rows -> rows !! t = Some row -> row !! i = Some x -> P (f x) ->
  table_of n P (alter (alter f i) t rows).
Proof.
  intros [Hl Hr] Hrow Hx Hf. split; [by rewrite length_alter|]. apply Forall_alter; [done|]. intros row' Hrow' _.
  assert (row' = row) as -> by congruence. destruct (Forall_lookup_1 _ _ _ _ Hr Hrow) as [Hn HP]. split; [by rewrite length_alter|].
  apply Forall_alter; [done|]. intros y Hy _. by assert (y = x) as -> by congruence.
Qed.
End Known.

Definition set_sockets (f : list Z -> list Z) (v : View) : View :=
  {| v_sockets := f (v_sockets v); v_epolls := v_epolls v; v_others := v_others v; v_other_epolls := v_other_epolls v |}.
Definition set_epolls (f : list Z -> list Z) (v : View) : View :=
  {| v_sockets := v_sockets v; v_epolls := f (v_epolls v); v_others := v_others v; v_other_epolls := v_other_epolls v |}.

(** An update of one entry. *)
Lemma set_socket_ok K s p f e : in_call K s -> own_ref NS_SOCKET_MAX_PER_TASK p -> socket_at p s = Some e -> socket_wf (f e) ->
  wpf never (set_socket p f) (fun s' _ => in_call (fun v' => exists v, K v /\ v_sockets v !! snd p = Some (kind e) /\ v' = set_sockets <[snd p := kind (f e)]> v) s') s.
Proof.
  intros [Hwf Htask HK] Hp He Hf. destruct (entry_there s p Hwf Hp) as (row & e' & Hrow & He' & Hat & _). assert (e' = e) as -> by congruence.
  destruct p as [t' i]. destruct Hp as [Hp Hi]. simpl in *. subst t'.
  unfold set_socket, fmod, wpf. destruct Hwf. constructor; cbn; [constructor; cbn; try done; by eapply table_alter|done|].
  exists (view t s). split; [done|]. assert (v_sockets (view t s) = map kind row) as Ek by (cbn; unfold row_of; by rewrite Hrow). split.
  - rewrite Ek. change (map kind row) with (kind <$> row). by rewrite list_lookup_fmap, He'.
  - unfold view, set_sockets. cbn. f_equal; [|by rewrite without_alter]. rewrite (row_of_alter _ _ _ row) by done.
    unfold row_of. rewrite Hrow. cbn. by apply map_alter.
Qed.

Lemma set_epoll_ok K s p f o : in_call K s -> own_ref NS_EPOLL_MAX_PER_TASK p -> epoll_at p s = Some o -> epoll_wf (f o) ->
  wpf never (set_epoll p f) (fun s' _ => in_call (fun v' => exists v, K v /\ v_epolls v !! snd p = Some (ep_used o) /\ v' = set_epolls <[snd p := ep_used (f o)]> v) s') s.
Proof.
  intros [Hwf Htask HK] Hp He Hf. destruct (epoll_there s p Hwf Hp) as (row & e' & Hrow & He' & Hat & _). assert (e' = o) as -> by congruence.
  destruct p as [t' i]. destruct Hp as [Hp Hi]. simpl in *. subst t'.
  unfold set_epoll, fmod, wpf. destruct Hwf. constructor; cbn; [constructor; cbn; try done; by eapply table_alter|done|].
  exists (view t s). split; [done|]. assert (v_epolls (view t s) = map ep_used row) as Ek by (cbn; unfold row_of; by rewrite Hrow). split.
  - rewrite Ek. change (map ep_used row) with (ep_used <$> row). by rewrite list_lookup_fmap, He'.
  - unfold view, set_epolls. cbn. f_equal; [|by rewrite without_alter]. rewrite (row_of_alter _ _ _ row) by done.
    unfold row_of. rewrite Hrow. cbn. by apply map_alter.
Qed.

Lemma set_same {A} (l : list A) i x : l !! i = Some x -> <[i := x]> l = l.
Proof. apply list_insert_id. Qed.

(** An update that leaves a socket open and of its type. *)
Lemma set_socket_safe K p f : own_ref NS_SOCKET_MAX_PER_TASK p -> (forall e, socket_wf e -> socket_wf (f e) /\ kind (f e) = kind e) ->
  safe (in_call K) (set_socket p f) (fun _ => True).
Proof.
  intros Hp Hf s HJ. destruct (entry_there s p (ic_wf _ _ HJ) Hp) as (row & e & _ & _ & He & Hw). destruct (Hf e Hw) as [Hw' Hk].
  eapply wpf_mono; [by apply set_socket_ok|]. intros s' [] HJ'. split; [|done]. eapply in_call_mono; [exact HJ'|].
  intros v' (v & HK & Hv & ->). rewrite Hk. unfold set_sockets. rewrite set_same by done. by destruct v.
Qed.

Lemma set_epoll_safe K p f : own_ref NS_EPOLL_MAX_PER_TASK p -> (forall o, epoll_wf o -> epoll_wf (f o) /\ ep_used (f o) = ep_used o) ->
  safe (in_call K) (set_epoll p f) (fun _ => True).
Proof.
  intros Hp Hf s HJ. destruct (epoll_there s p (ic_wf _ _ HJ) Hp) as (row & e & _ & _ & He & Hw). destruct (Hf e Hw) as [Hw' Hk].
  eapply wpf_mono; [by apply set_epoll_ok|]. intros s' [] HJ'. split; [|done]. eapply in_call_mono; [exact HJ'|].
  intros v' (v & HK & Hv & ->). rewrite Hk. unfold set_epolls. rewrite set_same by done. by destruct v.
Qed.

(** ** Waiting *)

Section Known.
Context (K : View -> Prop) (Hcur : cur = Z.of_nat t).
Notation J := (in_call K).
Abbreviation ssafe := (safe J).

Definition sleeps_ok (sleeps : list (scall unit)) : Prop := Forall (fun m => ssafe m (fun _ => True)) sleeps.

Lemma sleep_until_safe {C} (attempt : scall (C * bool)) expired sleeps (R : C -> Prop) :
  ssafe attempt (fun r => R (fst r)) -> ssafe expired (fun _ => True) -> sleeps_ok sleeps ->
  ssafe (sleep_until attempt expired sleeps) (fun r => R (fst r)).
Proof.
  intros Ha He Hs. induction Hs as [|m sleeps Hm _ IH]; cbn [sleep_until]; snext Ha; intros r Hr; (destruct (snd r); [by sret|]);
    (snext He; intros e _; destruct e; [by sret|]); [by sret|]. snext Hm. intros _ _. apply IH.
Qed.

Lemma scheduler_now_ticks_safe : ssafe now_ticks is_u32.
Proof. intros s HJ. split; [done|]. apply (kw_ticks s (ic_wf _ _ HJ)). Qed.

Lemma past_safe infinite deadline : ssafe (past infinite deadline) (fun _ => True).
Proof. unfold past. snext scheduler_now_ticks_safe. intros now _. by sret. Qed.

Lemma ns_socket_wait_for_safe ready p timeout sleeps : own_ref NS_SOCKET_MAX_PER_TASK p -> sleeps_ok sleeps ->
  ssafe (ns_socket_wait_for ready p timeout sleeps) (fun _ => True).
Proof.
  intros Hp Hs. unfold ns_socket_wait_for. cbv zeta. snext scheduler_now_ticks_safe. intros now _.
  snext (sleep_until_safe (C := unit)) ; [|apply past_safe|done|by intros r _; sret]. instantiate (1 := fun _ => True).
  snext get_entry_safe; [done..|]. intros e _. sget s. by sret.
Qed.

Lemma ready_or_wait_safe ready timeout p sleeps : own_ref NS_SOCKET_MAX_PER_TASK p -> sleeps_ok sleeps ->
  ssafe (ready_or_wait ready timeout p sleeps) (fun _ => True).
Proof.
  intros Hp Hs. unfold ready_or_wait. snext get_entry_safe; [done..|]. intros e _. sget s. scase; [by sret|]. scase; [by sret|].
  snext ns_socket_wait_for_safe; [done..|]. intros w _. by sret.
Qed.

(** ** The calls that open and close nothing *)

Lemma done_safe x : ssafe (done x) (fun _ => True).
Proof. by sret. Qed.
Lemma after_wait_safe r k : ssafe k (fun _ => True) -> ssafe (after_wait r k) (fun _ => True).
Proof. intros Hk. destruct r as [[]|]; [done|apply done_safe|by sret]. Qed.

Lemma current_safe : ssafe current (fun x => x = Z.of_nat t).
Proof. intros s HJ. split; [done|]. by rewrite <- Hcur, <- (ic_task _ _ HJ). Qed.

Lemma own_socket_safe fd : ssafe (own_socket fd) (fun r => forall p, r = Some p -> own_ref NS_SOCKET_MAX_PER_TASK p).
Proof.
  intros s HJ. eapply wpf_step; [done|]. unfold wpf. rewrite (ic_task _ _ HJ), Hcur, socket_entry_ok by apply (ic_wf _ _ HJ).
  split; [done|]. intros p (-> & Hi & _)%socket_found_there. split; [simpl; lia|done].
Qed.

Lemma own_epoll_safe fd : ssafe (own_epoll fd) (fun r => forall p, r = Some p -> own_ref NS_EPOLL_MAX_PER_TASK p).
Proof.
  intros s HJ. eapply wpf_step; [done|]. unfold wpf. rewrite (ic_task _ _ HJ), Hcur, epoll_object_ok by apply (ic_wf _ _ HJ).
  split; [done|]. intros p (-> & Hi)%epoll_found_there. split; [simpl; lia|done].
Qed.

Lemma poll_array_safe x fds : ssafe (ns_poll_socket_array x fds) (fun _ => True).
Proof. intros s HJ. eapply wpf_step; [apply poll_fds_ok, (ic_wf _ _ HJ)|]. by apply wpf_ret. Qed.

Lemma collect_ready_safe obj maxevents : ssafe (ns_epoll_collect_ready obj maxevents) (fun _ => True).
Proof. intros s HJ. unfold wpf. by rewrite collect_ready_ok by apply (ic_wf _ _ HJ). Qed.

(** A call on the socket of a descriptor. *)
Lemma on_socket_safe fd (none : scall SysResult) (k : sref -> scall SysResult) : ssafe none (fun _ => True) ->
  (forall p, own_ref NS_SOCKET_MAX_PER_TASK p -> ssafe (k p) (fun _ => True)) ->
  ssafe (own_socket fd ≫= fun o => match o with None => none | Some p => k p end) (fun _ => True).
Proof. intros Hn Hk. snext own_socket_safe. intros [p|] Hp; [apply Hk; by apply Hp|done]. Qed.

Lemma set_socket_done p f x : own_ref NS_SOCKET_MAX_PER_TASK p -> (forall e, socket_wf e -> socket_wf (f e) /\ kind (f e) = kind e) ->
  ssafe (set_socket p f ≫= fun _ => done x) (fun _ => True).
Proof. intros Hp Hf. snext set_socket_safe; [done..|]. intros _ _. apply done_safe. Qed.

Lemma bswap16_u16 v : is_u16 (ns_bswap16 v).
Proof. apply u16_range. Qed.
Lemma bswap32_u32 v : is_u32 (ns_bswap32 v).
Proof. apply u32_range. Qed.

Lemma sys_bind_safe fd addr : ssafe (sys_bind fd addr) (fun _ => True).
Proof.
  unfold sys_bind. destruct addr as [| |a]; [apply done_safe..|]. apply on_socket_safe; [apply done_safe|]. intros p Hp.
  scase; [apply done_safe|]. cbv zeta. scase; [apply done_safe|]. snext get_entry_safe; [done..|]. intros e He.
  assert (ssafe (set_socket p (fun e => e <| so_bound := 1 |> <| so_local_port := ns_bswap16 (sin_port a) |>) ≫= fun _ => done NS_OK) (fun _ => True)).
  { apply set_socket_done; [done|]. intros e' []. split; [|done]. constructor; cbn; try done. apply bswap16_u16. }
  scase; [|done]. snext on_net_safe; [apply net_udp_bind_safe, bswap16_u16|]. intros ok _. scase; [apply done_safe|done].
Qed.

Lemma sys_listen_safe fd : ssafe (sys_listen fd) (fun _ => True).
Proof.
  unfold sys_listen. apply on_socket_safe; [apply done_safe|]. intros p Hp. snext get_entry_safe; [done..|]. intros e He. scase; [apply done_safe|].
  snext on_net_safe; [apply net_tcp_listen_safe, (sw_port e He)|]. intros c Hc. unfold conn_or_neg in Hc. scase; [apply done_safe|].
  apply set_socket_done; [done|]. intros e' []. split; [|done]. by constructor; cbn.
Qed.

Lemma sys_connect_safe fd addr sleeps : sleeps_ok sleeps -> ssafe (sys_connect fd addr sleeps) (fun _ => True).
Proof.
  intros Hs. unfold sys_connect. destruct addr as [| |a]; [apply done_safe..|]. apply on_socket_safe; [apply done_safe|]. intros p Hp.
  scase; [apply done_safe|]. cbv zeta. pose proof (bswap16_u16 (sin_port a)). pose proof (bswap32_u32 (sin_addr a)).
  scase; [apply done_safe|]. snext get_entry_safe; [done..|]. intros e He. scase.
  { apply set_socket_done; [done|]. intros e' []. split; [|done]. by constructor. }
  snext current_safe. intros x ->. eapply safe_bind.
  { instantiate (1 := fun _ => True). scase; [|by sret]. apply set_socket_safe; [done..|]. intros e' []. split; [|done]. constructor; cbn; try done. apply u16_range. }
  intros _ _. snext get_entry_safe; [done..|]. intros e1 He1. snext on_net_safe; [apply net_tcp_connect_safe; try done; apply (sw_port e1 He1)|].
  intros c Hc. unfold conn_or_neg in Hc. scase; [apply done_safe|]. snext set_socket_safe; [done..| |].
  { intros e' []. split; [|done]. by constructor; cbn. }
  intros _ _. snext get_entry_safe; [done..|]. intros e2 He2. scase; [apply done_safe|]. snext scheduler_now_ticks_safe. intros now _.
  snext (sleep_until_safe (C := unit)); [|apply past_safe|done|]; [instantiate (1 := fun _ => True); sget s; by sret|].
  intros r _. destruct (snd r); [apply done_safe..|by sret].
Qed.

(** A buffer of the caller with [len] bytes at least. *)
Definition user_bytes (buf : UserPtr (list Z)) (len : Z) : Prop :=
  0 <= len /\ match buf with PTo b => exists n, buffer n b /\ len <= n | _ => True end.

Lemma u16_le x : 0 <= x -> 0 <= u16 x <= x.
Proof. intros Hx. unfold u16. pose proof (Z.mod_pos_bound x (2 ^ 16) ltac:(lia)). pose proof (Z.mod_le x (2 ^ 16) Hx ltac:(lia)). lia. Qed.

Lemma source_port_u16 e : socket_wf e -> is_u16 (source_port e).
Proof. intros []. unfold source_port. case_if; [unfold is_u16; lia|done]. Qed.

Lemma udp_out_safe e b len n : socket_wf e -> 0 <= len -> buffer n b -> len <= n ->
  ssafe (on_net (net_udp_send (so_peer_ip e) (source_port e) (so_peer_port e) (Some b) (u16 len))) (fun _ => True).
Proof.
  intros He Hl Hb Hn. pose proof (u16_le len Hl). eapply safe_mono; [apply on_net_safe, net_udp_send_safe|done].
  - by apply source_port_u16.
  - apply (sw_peer_port e He).
  - split; [apply u16_range|]. exists n. split; [done|lia].
Qed.

Lemma tcp_out_safe p b len n sleeps r : own_ref NS_SOCKET_MAX_PER_TASK p -> 0 <= len -> buffer n b -> len <= n -> sleeps_ok sleeps ->
  ssafe (after_wait r (e ← get_entry p; rc ← on_net (net_tcp_send (so_net_conn_id e) (Some b) (u16 len)); done rc)) (fun _ => True).
Proof.
  intros Hp Hl Hb Hn Hs. apply after_wait_safe. snext get_entry_safe; [done..|]. intros e _. pose proof (u16_le len Hl).
  snext on_net_safe; [apply net_tcp_send_safe with n; [done|lia]|]. intros rc _. apply done_safe.
Qed.

Lemma sys_sendto_safe fd buf len sleeps : sleeps_ok sleeps -> user_bytes buf len -> ssafe (sys_sendto fd buf len sleeps) (fun _ => True).
Proof.
  intros Hs [Hl Hb]. unfold sys_sendto. destruct buf as [| |b]; [apply done_safe..|]. destruct Hb as (n & Hb & Hn).
  apply on_socket_safe; [apply done_safe|]. intros p Hp. scase; [apply done_safe|]. snext get_entry_safe; [done..|]. intros e He. scase; [apply done_safe|]. scase.
  - eapply safe_bind; [instantiate (1 := fun _ => True); scase; [by eapply udp_out_safe|by sret]|]. intros rc _. scase; apply done_safe.
  - scase; [|apply done_safe]. snext ready_or_wait_safe; [done..|]. intros r _. by eapply tcp_out_safe.
Qed.

Lemma sys_write_safe fd buf len sleeps : sleeps_ok sleeps -> user_bytes buf len -> ssafe (sys_write fd buf len sleeps) (fun _ => True).
Proof.
  intros Hs [Hl Hb]. unfold sys_write. apply on_socket_safe; [by sret|]. intros p Hp. destruct buf as [| |b]; [scase; [apply done_safe|by sret]|by sret|].
  destruct Hb as (n & Hb & Hn). scase; [by sret|]. snext get_entry_safe; [done..|]. intros e He. scase; [apply done_safe|]. scase.
  - snext ready_or_wait_safe; [done..|]. intros r _. by eapply tcp_out_safe.
  - scase; [|apply done_safe]. snext udp_out_safe; [done..|]. intros rc _. scase; apply done_safe.
Qed.

Lemma received_bytes_safe b : ssafe (received_bytes b) (fun _ => True).
Proof. destruct b; [apply done_safe|by sret]. Qed.

Lemma tcp_in_safe p there len r : own_ref NS_SOCKET_MAX_PER_TASK p ->
  ssafe (after_wait r (e ← get_entry p; b ← on_net (net_tcp_recv (so_net_conn_id e) there (u16 len)); received_bytes b)) (fun _ => True).
Proof.
  intros Hp. apply after_wait_safe. snext get_entry_safe; [done..|]. intros e _.
  snext on_net_safe; [apply net_tcp_recv_safe; pose proof (u16_range len); lia|]. intros b _. apply received_bytes_safe.
Qed.

Lemma sys_recvfrom_safe fd buf len sleeps : sleeps_ok sleeps -> ssafe (sys_recvfrom fd buf len sleeps) (fun _ => True).
Proof.
  intros Hs. unfold sys_recvfrom. destruct buf; [apply done_safe..|]. apply on_socket_safe; [apply done_safe|]. intros p Hp.
  scase; [apply done_safe|]. snext get_entry_safe; [done..|]. intros e He. scase; [apply done_safe|]. scase.
  - snext ready_or_wait_safe; [done..|]. intros r _. apply after_wait_safe. snext get_entry_safe; [done..|]. intros e1 He1.
    snext on_net_safe; [apply net_udp_recv_safe; pose proof (u16_range len); lia|]. intros [[[ip port] b]|] Hd; [|apply done_safe].
    destruct Hd as (Hip & Hport & _). eapply safe_bind; [instantiate (1 := fun _ => True)|intros _ _; apply received_bytes_safe].
    scase; [|by sret]. apply set_socket_safe; [done..|]. intros e' []. split; [|done]. by constructor.
  - scase; [|apply done_safe]. snext ready_or_wait_safe; [done..|]. intros r _. by apply tcp_in_safe.
Qed.

Lemma sys_read_safe fd buf len sleeps : sleeps_ok sleeps -> ssafe (sys_read fd buf len sleeps) (fun _ => True).
Proof.
  intros Hs. unfold sys_read.
  assert (forall there, ssafe (o ← own_socket fd;
    match o with
    | None => mret NoSocket
    | Some p =>
        e ← get_entry p;
        if negb (so_shut_rd e =? 0) then invalid
        else
          r ← ready_or_wait ns_socket_ready_for_read so_rcv_timeout_ticks p sleeps;
          after_wait r (
            e ← get_entry p;
            if (so_type e =? NS_SOCK_STREAM) && (0 <=? so_net_conn_id e) then
              b ← on_net (net_tcp_recv (so_net_conn_id e) there (u16 len)); received_bytes b
            else if (so_type e =? NS_SOCK_DGRAM) && negb (so_bound e =? 0) then
              d ← on_net (net_udp_recv (so_local_port e) there (u16 len));
              received_bytes (match d with Some (_, _, b) => b | None => [] end)
            else invalid)
    end) (fun _ => True)) as Hall; [|destruct buf; [apply done_safe|apply Hall..]].
  intros there. apply on_socket_safe; [by sret|]. intros p Hp. snext get_entry_safe; [done..|]. intros e He. scase; [apply done_safe|].
  snext ready_or_wait_safe; [done..|]. intros r _. apply after_wait_safe. snext get_entry_safe; [done..|]. intros e1 _. pose proof (u16_range len). scase.
  - snext on_net_safe; [apply net_tcp_recv_safe; lia|]. intros b _. apply received_bytes_safe.
  - scase; [|apply done_safe]. snext on_net_safe; [apply net_udp_recv_safe; lia|]. intros d _. apply received_bytes_safe.
Qed.

Lemma sys_fcntl_safe fd cmd arg : ssafe (sys_fcntl fd cmd arg) (fun _ => True).
Proof.
  unfold sys_fcntl. apply on_socket_safe; [by sret|]. intros p Hp. scase; [snext get_entry_safe; [done..|]; intros e _; apply done_safe|].
  scase; [|apply done_safe]. apply set_socket_done; [done|]. intros e []. split; [|done]. constructor; cbn; try done. apply i32_range.
Qed.

Lemma sys_setsockopt_safe fd opt val : is_u32 val -> ssafe (sys_setsockopt fd opt val) (fun _ => True).
Proof.
  intros Hv. unfold sys_setsockopt. apply on_socket_safe; [apply done_safe|]. intros p Hp. cbv zeta.
  do 4 (scase; [apply set_socket_done; [done|]; intros e []; split; [by constructor|done]|]). apply done_safe.
Qed.

Lemma sys_getsockopt_safe fd opt : ssafe (sys_getsockopt fd opt) (fun _ => True).
Proof.
  unfold sys_getsockopt. apply on_socket_safe; [apply done_safe|]. intros p Hp. snext get_entry_safe; [done..|]. intros e _.
  repeat (scase; [apply done_safe|]). apply done_safe.
Qed.

Lemma sys_shutdown_safe fd how : ssafe (sys_shutdown fd how) (fun _ => True).
Proof.
  unfold sys_shutdown. cbv zeta. apply on_socket_safe; [apply done_safe|]. intros p Hp. scase; [apply done_safe|].
  eapply safe_bind; [instantiate (1 := fun _ => True); scase; [|by sret]; apply set_socket_safe; [done..|]; intros e []; split; [by constructor|done]|].
  intros _ _. eapply safe_bind; [instantiate (1 := fun _ => True)|intros _ _; apply done_safe]. scase; [|by sret].
  snext set_socket_safe; [done..| |]; [intros e []; split; [by constructor|done]|]. intros _ _. snext get_entry_safe; [done..|]. intros e _.
  scase; [|by sret]. snext on_net_safe; [apply net_tcp_close_safe|]. intros; by sret.
Qed.

Lemma sys_poll_safe fds count timeout sleeps : sleeps_ok sleeps -> ssafe (sys_poll fds count timeout sleeps) (fun _ => True).
Proof.
  intros Hs. unfold sys_poll. scase; [apply done_safe|]. scase; [apply done_safe|]. destruct fds as [| |fds]; [apply done_safe..|].
  snext current_safe. intros x _. unfold ns_poll_socket_array_wait. cbv zeta.
  eapply safe_bind; [|intros r _; by sret]. instantiate (1 := fun _ => True). snext scheduler_now_ticks_safe. intros now _.
  snext (sleep_until_safe (C := list NsPollFd * Z)); [|apply past_safe|done|]; [instantiate (1 := fun _ => True); snext poll_array_safe; intros r _; by sret|].
  intros [[? ?] w] _. by sret.
Qed.
End Known.

(** ** The calls that open and close *)

(** The slot of a socket or epoll object the task has open under a descriptor. *)
Definition open_in (base : Z) (max : nat) (l : list Z) (fd : Z) : option nat :=
  let slot := i32 (fd - base) in
  if (slot <? 0) || (Z.of_nat max <=? slot) then None
  else match l !! Z.to_nat slot with Some k => if k =? 0 then None else Some (Z.to_nat slot) | None => None end.
Definition open_socket (v : View) : Z -> option nat := open_in NS_SOCKET_FD_BASE NS_SOCKET_MAX_PER_TASK (v_sockets v).
Definition open_epoll (v : View) : Z -> option nat := open_in NS_EPOLL_FD_BASE NS_EPOLL_MAX_PER_TASK (v_epolls v).

Lemma bad_task_t : bad_task_id (Z.of_nat t) = false.
Proof. unfold bad_task_id. destruct (Z.ltb_spec (Z.of_nat t) 0), (Z.leb_spec MAX_TASKS (Z.of_nat t)); try lia; done. Qed.

Lemma kind_zero e : socket_wf e -> (kind e =? 0) = (so_used e =? 0).
Proof.
  intros []. unfold kind. destruct (Z.eqb_spec (so_used e) 0) as [|Hu]; [done|]. destruct (sw_type0 Hu) as [-> | ->]; done.
Qed.

Lemma own_socket_ok s fd : sk_wf s -> os_current_task (sk_vfs s) = Z.of_nat t ->
  own_socket fd s = Done s (pair t <$> open_socket (view t s) (i32 fd)).
Proof.
  intros Hwf Htask. unfold own_socket, mbind, FST_bind, fget. rewrite Htask, socket_entry_ok by done. f_equal.
  unfold socket_found, ns_socket_fd_to_slot. rewrite bad_task_t, Nat2Z.id. unfold open_socket, open_in. cbv zeta. cbn [orb].
  destruct ((i32 (i32 fd - NS_SOCKET_FD_BASE) <? 0) || _) eqn:Eb; [done|]. bsimpl. rewrite (proj2 (Z.ltb_ge _ 0)) by lia.
  destruct (entry_there s (t, Z.to_nat (i32 (i32 fd - NS_SOCKET_FD_BASE))) Hwf) as (row & e & Hrow & He & Hat & Hw); [split; simpl; lia|].
  rewrite Hat. cbn [view v_sockets]. unfold row_of. rewrite Hrow. change (map kind row) with (kind <$> row). cbn [snd] in He.
  rewrite list_lookup_fmap, He. cbn [fmap option_fmap option_map]. rewrite kind_zero by done. by case_if.
Qed.

Lemma own_epoll_ok s fd : sk_wf s -> os_current_task (sk_vfs s) = Z.of_nat t ->
  own_epoll fd s = Done s (pair t <$> open_epoll (view t s) (i32 fd)).
Proof.
  intros Hwf Htask. unfold own_epoll, mbind, FST_bind, fget. rewrite Htask, epoll_object_ok by done. f_equal.
  unfold epoll_found, ns_epoll_fd_to_slot. rewrite bad_task_t, Nat2Z.id. unfold open_epoll, open_in. cbv zeta. cbn [orb].
  destruct ((i32 (i32 fd - NS_EPOLL_FD_BASE) <? 0) || _) eqn:Eb; [done|]. bsimpl. rewrite (proj2 (Z.ltb_ge _ 0)) by lia.
  destruct (epoll_there s (t, Z.to_nat (i32 (i32 fd - NS_EPOLL_FD_BASE))) Hwf) as (row & e & Hrow & He & Hat & Hw); [split; simpl; lia|].
  rewrite Hat. cbn [view v_epolls]. unfold row_of. rewrite Hrow. change (map ep_used row) with (ep_used <$> row). cbn [snd] in He.
  rewrite list_lookup_fmap, He. cbn [fmap option_fmap option_map]. by case_if.
Qed.

Lemma open_in_Some base max l fd i : open_in base max l fd = Some i -> (i < max)%nat /\ i32 (fd - base) = Z.of_nat i /\ exists k, l !! i = Some k /\ k <> 0.
Proof.
  unfold open_in. cbv zeta. case_if; [done|]. bsimpl. destruct (l !! _) as [k|] eqn:Hk; [|done]. destruct (Z.eqb_spec k 0); [done|]. intros [= <-].
  split; [lia|]. split; [lia|]. by exists k.
Qed.

(** What the view is once a slot is taken, and once it is given back. *)
Definition socket_taken (i : nat) (type : Z) (v v' : View) : Prop := v_sockets v !! i = Some 0 /\ v' = set_sockets <[i := type]> v.
Definition epoll_taken (i : nat) (v v' : View) : Prop := v_epolls v !! i = Some 0 /\ v' = set_epolls <[i := 1]> v.
Definition after (K : View -> Prop) (E : View -> View -> Prop) (v' : View) : Prop := exists v, K v /\ E v v'.

Lemma ns_socket_alloc_fd_ok K type protocol s : in_call K s -> type = NS_SOCK_STREAM \/ type = NS_SOCK_DGRAM ->
  wpf never (ns_socket_alloc_fd (Z.of_nat t) type protocol) (fun s' fd =>
    (fd = -1 /\ in_call K s') \/ exists i : nat, (i < NS_SOCKET_MAX_PER_TASK)%nat /\ fd = NS_SOCKET_FD_BASE + Z.of_nat i /\ in_call (after K (socket_taken i type)) s') s.
Proof.
  intros HJ Hty. unfold ns_socket_alloc_fd. rewrite bad_task_t. eapply wpf_step; [done|].
  destruct (row_there _ _ _ (kw_sockets s (ic_wf _ _ HJ))) as (row & Hrow & Hl & Hw).
  assert (elem (task_sockets s) (Z.of_nat t) s = Done s row) as Eel by (unfold elem; rewrite Nat2Z.id, Hrow; by destruct (Z.leb_spec 0 (Z.of_nat t)); [|lia]).
  eapply wpf_step; [exact Eel|]. destruct (free_slot row) as [i|] eqn:Hi; [|apply wpf_ret; by left].
  apply find_idx_Some in Hi as Hi'. destruct Hi' as [(e & He & Hfree) _]. apply find_idx_lt in Hi. rewrite Nat2Z.id.
  assert (own_ref NS_SOCKET_MAX_PER_TASK (t, i)) as Hp by (split; [done|simpl; lia]).
  eapply wpf_seq; [eapply (set_socket_ok K s (t, i) _ e)|].
  - done.
  - done.
  - unfold socket_at. simpl. by rewrite Hrow.
  - constructor; cbn; try done; unfold is_i32; try lia.
  - intros s' [] HJ'. apply wpf_ret. right. exists i. split; [simpl in *; lia|]. split; [done|]. eapply in_call_mono; [exact HJ'|].
    intros v' (v & HK & Hv & ->). simpl in *. unfold kind in Hv. rewrite Hfree in Hv. exists v. split; [done|]. split; [done|]. done.
Qed.

Lemma sys_socket_ok K domain type protocol s : cur = Z.of_nat t -> in_call K s ->
  wpf never (sys_socket domain type protocol) (fun s' r => in_call K s' /\ (forall x d, r = Returns x d -> (2 ^ 31 <= x)) \/
    exists i : nat, (i < NS_SOCKET_MAX_PER_TASK)%nat /\ r = Returns (NS_SOCKET_FD_BASE + Z.of_nat i) DNone /\ in_call (after K (socket_taken i (i32 type))) s') s.
Proof.
  intros Hcur HJ. unfold sys_socket. case_if; [apply wpf_ret; left; split; [done|]; by intros x d [= <- _]|]. bsimpl.
  assert (i32 type = NS_SOCK_STREAM \/ i32 type = NS_SOCK_DGRAM) as Hty.
  { destruct (Z.eqb_spec (i32 type) NS_SOCK_STREAM); [by left|]. destruct (Z.eqb_spec (i32 type) NS_SOCK_DGRAM); [by right|]. simpl in *. naive_solver. }
  eapply wpf_step; [done|]. rewrite (ic_task _ _ HJ), Hcur. eapply wpf_seq; [by apply ns_socket_alloc_fd_ok|]. intros s' fd [[-> HJ']|(i & Hi & -> & HJ')].
  - simpl. apply wpf_ret. left. split; [done|]. by intros x d [= <- _].
  - unfold NS_SOCKET_FD_BASE, NS_SOCKET_MAX_PER_TASK in *. destruct (Z.ltb_spec (1024 + Z.of_nat i) 0); [lia|]. apply wpf_ret. right. exists i. split; [done|].
    split; [|done]. f_equal. apply u32_small. lia.
Qed.

(** The result of a call that opens nothing, or the descriptor of a slot that was free. *)
Definition opens (K : View -> Prop) (base : Z) (max : nat) (taken : nat -> View -> View -> Prop) s (r : SysResult) : Prop :=
  (in_call K s /\ forall x d, r = Returns x d -> 2 ^ 31 <= x) \/
  exists (i : nat) d, (i < max)%nat /\ r = Returns (base + Z.of_nat i) d /\ in_call (after K (taken i)) s.

Lemma opens_error K base max taken s x : in_call K s -> 2 ^ 31 <= u32 x -> wpf never (done x : scall SysResult) (opens K base max taken) s.
Proof. intros HJ Hx. apply wpf_ret. left. split; [done|]. by intros y d [= <- _]. Qed.

Lemma sys_accept_ok K fd peer sleeps s : cur = Z.of_nat t -> in_call K s -> sleeps_ok K sleeps ->
  wpf never (sys_accept fd peer sleeps) (opens K NS_SOCKET_FD_BASE NS_SOCKET_MAX_PER_TASK (fun i => socket_taken i NS_SOCK_STREAM)) s.
Proof.
  intros Hcur HJ Hs. unfold sys_accept.
  assert (forall b, wpf never (
      o ← own_socket fd;
      match o with
      | None => invalid
      | Some p =>
          e ← get_entry p;
          if negb (so_type e =? NS_SOCK_STREAM) || (so_listening e =? 0) then invalid
          else
            r ← ready_or_wait ns_socket_ready_for_read so_rcv_timeout_ticks p sleeps;
            after_wait r (
              e ← get_entry p;
              c ← on_net (net_tcp_accept (so_local_port e));
              match c with
              | None => would_block
              | Some (conn_id, peer_ip, peer_port) =>
                  t ← current;
                  newfd ← ns_socket_alloc_fd t NS_SOCK_STREAM 0;
                  if newfd <? 0 then on_net (net_tcp_close conn_id) ≫= fun _ => done VFS_ERR_NO_SPACE
                  else
                    child ← own_socket newfd;
                    match child with
                    | None => fault
                    | Some q =>
                        e ← get_entry p;
                        set_socket q (child_entry e peer_ip peer_port conn_id) ≫= fun _ => mret (Returns (u32 newfd) (b peer_ip peer_port))
                    end
              end)
      end) (opens K NS_SOCKET_FD_BASE NS_SOCKET_MAX_PER_TASK (fun i => socket_taken i NS_SOCK_STREAM)) s) as Hall.
  2: { destruct peer as [| |[]]; [by apply opens_error|apply (Hall (fun _ _ => DNone))|].
       apply (Hall (fun ip port => DAddr {| sin_family := NS_AF_INET; sin_port := ns_bswap16 port; sin_addr := ns_bswap32 ip |})). }
  intros b. eapply wpf_seq; [by apply own_socket_safe|]. intros s1 [p|] [HJ1 Hp]; [specialize (Hp p eq_refl)|by apply opens_error].
  eapply wpf_seq; [by apply get_entry_safe|]. intros s2 e [HJ2 He]. case_if; [by apply opens_error|].
  eapply wpf_seq; [by apply ready_or_wait_safe|]. intros s3 [[]|] [HJ3 _]; [|by apply opens_error|apply wpf_ret; by left].
  cbn [after_wait]. eapply wpf_seq; [by apply get_entry_safe|]. intros s4 e4 [HJ4 He4].
  eapply wpf_seq; [by apply on_net_safe; [apply net_tcp_accept_safe|]|]. intros s5 [[[c ip] port]|] [HJ5 Hc]; [|by apply opens_error].
  destruct Hc as (Hcr & Hip & Hport). eapply wpf_step; [done|]. rewrite (ic_task _ _ HJ5), Hcur.
  eapply wpf_seq; [by apply ns_socket_alloc_fd_ok; [|by left]|]. intros s6 newfd [[-> HJ6]|(i & Hi & -> & HJ6)].
  { simpl. eapply wpf_seq; [by apply on_net_safe; [apply net_tcp_close_safe|]|]. intros s7 r [HJ7 _]. by apply opens_error. }
  destruct (Z.ltb_spec (NS_SOCKET_FD_BASE + Z.of_nat i) 0); [unfold NS_SOCKET_FD_BASE in *; lia|].
  assert (0 <= NS_SOCKET_FD_BASE + Z.of_nat i < 2048) as Hfd by (unfold NS_SOCKET_FD_BASE, NS_SOCKET_MAX_PER_TASK in *; lia).
  pose proof (ic_view _ _ HJ6) as (v & _ & Hv & Ev).
  eapply wpf_step; [apply own_socket_ok; [apply (ic_wf _ _ HJ6)|by rewrite (ic_task _ _ HJ6)]|].
  assert (open_socket (view t s6) (i32 (NS_SOCKET_FD_BASE + Z.of_nat i)) = Some i) as ->.
  { unfold open_socket, open_in, NS_SOCKET_MAX_PER_TASK in *. cbv zeta. rewrite (i32_small (NS_SOCKET_FD_BASE + _)) by lia. rewrite Z.add_simpl_l, i32_small by lia.
    destruct (Z.ltb_spec (Z.of_nat i) 0); [lia|]. destruct (Z.leb_spec (Z.of_nat 64) (Z.of_nat i)); [lia|]. cbn [orb].
    rewrite Nat2Z.id, Ev. cbn [set_sockets v_sockets]. by rewrite list_lookup_insert_eq by (by eapply lookup_lt_Some). }
  cbn [fmap option_fmap option_map]. eapply wpf_seq; [by apply get_entry_safe|]. intros s7 e7 [HJ7 He7].
  eapply wpf_seq; [apply (set_socket_safe (after K (socket_taken i NS_SOCK_STREAM)) (t, i) (child_entry e7 ip port c)); [by split| |exact HJ7]|].
  { intros e' []. split; [|done]. destruct He7. constructor; cbn; try done. consts. lia. }
  intros s8 [] [HJ8 _]. apply wpf_ret. right. exists i. eexists. split; [done|]. split; [rewrite u32_small by lia; done|done].
Qed.

(** *** Closing *)

Definition close_socket_view (v : View) (fd : Z) : option View := (fun i => set_sockets <[i := 0]> v) <$> open_socket v fd.
Definition close_epoll_view (v : View) (fd : Z) : option View := (fun i => set_epolls <[i := 0]> v) <$> open_epoll v fd.

Lemma ns_socket_close_entry_ok K s i k : in_call K s -> (i < NS_SOCKET_MAX_PER_TASK)%nat -> v_sockets (view t s) !! i = Some k -> k <> 0 ->
  wpf never (ns_socket_close_entry (t, i)) (fun s' _ => in_call (after K (fun v v' => v' = set_sockets <[i := 0]> v)) s') s.
Proof.
  intros HJ Hi Hk Hnz. unfold ns_socket_close_entry. assert (own_ref NS_SOCKET_MAX_PER_TASK (t, i)) as Hp by done.
  destruct (entry_there s (t, i) (ic_wf _ _ HJ) Hp) as (row & e & Hrow & He & Hat & Hw). cbn [snd] in He.
  assert (k = kind e) as ->.
  { cbn [view v_sockets] in Hk. unfold row_of in Hk. rewrite Hrow in Hk. change (map kind row) with (kind <$> row) in Hk.
    rewrite list_lookup_fmap, He in Hk. by injection Hk. }
  pose proof (kind_zero e Hw) as Ekz. destruct (Z.eqb_spec (kind e) 0); [done|].
  eapply wpf_step; [unfold get_entry; by rewrite Hat|]. rewrite <- Ekz.
  eapply wpf_seq with (R := fun x _ => in_call K x).
  { case_if; [|by apply wpf_ret]. eapply wpf_mono; [by apply on_net_safe; [apply net_udp_unbind_safe|]|]. by intros x a [? _]. }
  intros s1 _ HJ1. eapply wpf_seq with (R := fun x _ => in_call K x).
  { case_if; [|by apply wpf_ret]. case_if; [eapply wpf_mono; [by apply on_net_safe; [apply net_tcp_unlisten_safe|]|]; by intros x a [? _]|].
    case_if; [|by apply wpf_ret]. eapply wpf_mono; [by apply on_net_safe; [apply net_tcp_close_safe|]|]. by intros x a [? _]. }
  intros s2 _ HJ2. destruct (entry_there s2 (t, i) (ic_wf _ _ HJ2) Hp) as (row2 & e2 & _ & _ & Hat2 & Hw2).
  eapply wpf_mono; [eapply set_socket_ok; [exact HJ2|done|exact Hat2|]|].
  { constructor; cbn; try done; unfold is_u32, FOREVER, is_i32; lia. }
  intros s3 [] HJ3. eapply in_call_mono; [exact HJ3|]. intros v' (v & HK & _ & ->). exists v. by split.
Qed.

Lemma clear_watches_wf u o : epoll_wf o -> is_bool u -> epoll_wf (clear_watches u o).
Proof.
  intros [] Hu. constructor; cbn [clear_watches ep_used ep_watches]; [done|by rewrite length_map|]. rewrite watched_clear. apply NoDup_nil_2.
Qed.

Lemma ns_epoll_close_object_ok K s i : in_call K s -> (i < NS_EPOLL_MAX_PER_TASK)%nat ->
  wpf never (ns_epoll_close_object (t, i)) (fun s' _ => in_call (after K (fun v v' => v' = set_epolls <[i := 0]> v)) s') s.
Proof.
  intros HJ Hi. unfold ns_epoll_close_object. assert (own_ref NS_EPOLL_MAX_PER_TASK (t, i)) as Hp by done.
  destruct (epoll_there s (t, i) (ic_wf _ _ HJ) Hp) as (row & o & Hrow & Ho & Hat & Hw). cbn [snd] in Ho.
  eapply wpf_step; [unfold get_epoll; by rewrite Hat|]. destruct (Z.eqb_spec (ep_used o) 0) as [Hz|Hnz].
  - apply wpf_ret. destruct HJ as [H1' H2' H3']. constructor; [done|done|]. exists (view t s). split; [done|]. unfold set_epolls.
    rewrite list_insert_id; [by destruct (view t s)|]. cbn [view v_epolls]. unfold row_of. rewrite Hrow. change (map ep_used row) with (ep_used <$> row).
    by rewrite list_lookup_fmap, Ho, <- Hz.
  - eapply wpf_mono; [eapply set_epoll_ok; [exact HJ|done|exact Hat|by apply clear_watches_wf; [|unfold is_bool; lia]]|].
    intros s3 [] HJ3. eapply in_call_mono; [exact HJ3|]. intros v' (v & HK & _ & ->). exists v. by split.
Qed.

Definition closed_view (fd : Z) (v : View) : View := default (default v (close_epoll_view v fd)) (close_socket_view v fd).

Lemma sys_close_ok K fd s : cur = Z.of_nat t -> in_call K s ->
  wpf never (sys_close fd) (fun s' r => in_call (after K (fun v v' => v' = closed_view (i32 fd) v)) s') s.
Proof.
  intros Hcur HJ. pose proof (in_call_sleep _ _ HJ) as HJ0. destruct HJ as [Hwf Htask HK]. unfold sys_close. rewrite Hcur in Htask.
  eapply wpf_step; [by apply own_socket_ok|]. eapply wpf_step; [by apply own_epoll_ok|].
  assert (forall (E : View -> View -> Prop) x, in_call (after (eq (view t s)) E) x -> (forall v', E (view t s) v' -> v' = closed_view (i32 fd) (view t s)) ->
    in_call (after K (fun v v' => v' = closed_view (i32 fd) v)) x) as Hend.
  { intros E x Hx HE. eapply in_call_mono; [exact Hx|]. intros v' (v & <- & Hv). exists (view t s). auto. }
  unfold closed_view, close_socket_view, close_epoll_view in Hend. destruct (open_socket (view t s) (i32 fd)) as [i|] eqn:Ei.
  - apply open_in_Some in Ei as (Hi & _ & k & Hk & Hnz). cbn [fmap option_fmap option_map].
    eapply wpf_seq; [by eapply ns_socket_close_entry_ok|]. intros s1 [] HJ1. apply wpf_ret. by eapply Hend.
  - destruct (open_epoll (view t s) (i32 fd)) as [i|] eqn:Eo; cbn [fmap option_fmap option_map].
    + apply open_in_Some in Eo as (Hi & _). eapply wpf_seq; [by eapply ns_epoll_close_object_ok|]. intros s1 [] HJ1. apply wpf_ret. by eapply Hend.
    + apply wpf_ret. apply (Hend (fun v v' => v' = v)); [|done]. destruct HJ0. constructor; [done|done|]. by exists (view t s).
Qed.

(** *** Epoll objects *)

Lemma ns_epoll_alloc_fd_ok K s : in_call K s ->
  wpf never (ns_epoll_alloc_fd (Z.of_nat t)) (fun s' fd =>
    (fd = -1 /\ in_call K s') \/ exists i : nat, (i < NS_EPOLL_MAX_PER_TASK)%nat /\ fd = NS_EPOLL_FD_BASE + Z.of_nat i /\ in_call (after K (epoll_taken i)) s') s.
Proof.
  intros HJ. unfold ns_epoll_alloc_fd. rewrite bad_task_t. eapply wpf_step; [done|].
  destruct (row_there _ _ _ (kw_epolls s (ic_wf _ _ HJ))) as (row & Hrow & Hl & Hw).
  assert (elem (task_epolls s) (Z.of_nat t) s = Done s row) as Eel by (unfold elem; rewrite Nat2Z.id, Hrow; by destruct (Z.leb_spec 0 (Z.of_nat t)); [|lia]).
  eapply wpf_step; [exact Eel|]. destruct (find_idx _ row) as [i|] eqn:Hi; [|apply wpf_ret; by left].
  apply find_idx_Some in Hi as Hi'. destruct Hi' as [(e & He & Hfree) _]. apply find_idx_lt in Hi. rewrite Nat2Z.id.
  assert (own_ref NS_EPOLL_MAX_PER_TASK (t, i)) as Hp by (split; [done|simpl; lia]).
  eapply wpf_seq; [eapply (set_epoll_ok K s (t, i) _ e)|].
  - done.
  - done.
  - unfold epoll_at. simpl. by rewrite Hrow.
  - apply clear_watches_wf; [|unfold is_bool; lia]. by apply (Forall_lookup_1 _ _ _ _ Hw He).
  - intros s' [] HJ'. apply wpf_ret. right. exists i. split; [simpl in *; lia|]. split; [done|]. eapply in_call_mono; [exact HJ'|].
    intros v' (v & HK & Hv & ->). simpl in *. exists v. split; [done|]. split; [|done]. rewrite Hv. f_equal. lia.
Qed.

(** An epoll call that opens and closes nothing. *)
Lemma ns_epoll_wait_ready_safe K p max timeout sleeps : own_ref NS_EPOLL_MAX_PER_TASK p -> sleeps_ok K sleeps ->
  safe (in_call K) (ns_epoll_wait_ready p max timeout sleeps) (fun _ => True).
Proof.
  intros Hp Hs. unfold ns_epoll_wait_ready. cbv zeta. snext scheduler_now_ticks_safe. intros now _.
  snext (sleep_until_safe K (C := list NsPollFd)); [|apply past_safe|done|by intros [? ?] _; sret]. instantiate (1 := fun _ => True).
  snext get_epoll_safe; [done..|]. intros e _. snext collect_ready_safe. intros out _. by sret.
Qed.

Lemma epoll_ctl_safe K p req : own_ref NS_EPOLL_MAX_PER_TASK p ->
  safe (in_call K) (obj ← get_epoll p; let '(obj', rc) := ns_epoll_ctl_apply obj req in set_epoll p (fun _ => obj') ≫= fun _ => done rc : scall SysResult) (fun _ => True).
Proof.
  intros Hp s HJ. destruct (epoll_there s p (ic_wf _ _ HJ) Hp) as (row & o & _ & _ & Ho & Hw).
  eapply wpf_step; [unfold get_epoll; by rewrite Ho|]. pose proof (epoll_ctl_ok o req Hw) as Hc. destruct (ns_epoll_ctl_apply o req) as [o' rc].
  destruct Hc as (Hw' & _ & Hu). eapply wpf_seq; [by eapply set_epoll_ok|]. intros s' [] HJ'. apply wpf_ret. split; [|done].
  eapply in_call_mono; [exact HJ'|]. intros v' (v & HK & Hv & ->). rewrite Hu. unfold set_epolls. rewrite set_same by done. by destruct v.
Qed.

Lemma sys_epoll_other_safe K op epfd ctl wait sleeps : cur = Z.of_nat t -> sleeps_ok K sleeps -> i32 op <> NS_EPOLL_OP_CREATE -> i32 op <> NS_EPOLL_OP_CLOSE ->
  safe (in_call K) (sys_epoll op epfd ctl wait sleeps) (fun _ => True).
Proof.
  intros Hcur Hs Hc1 Hc2. unfold sys_epoll. destruct (Z.eqb_spec (i32 op) NS_EPOLL_OP_CREATE); [done|]. destruct (Z.eqb_spec (i32 op) NS_EPOLL_OP_CLOSE); [done|].
  scase.
  - snext own_epoll_safe; [done|]. intros [p|] Hp; [|apply done_safe]. destruct ctl as [| |req]; [apply done_safe..|]. apply epoll_ctl_safe. by apply Hp.
  - scase; [|apply done_safe]. snext own_epoll_safe; [done|]. intros [p|] Hp; [|apply done_safe]. destruct wait as [| |req]; [apply done_safe..|].
    assert (safe (in_call K) (r ← ns_epoll_wait_ready p (wr_maxevents req) (wr_timeout_ticks req) sleeps;
      mret (match snd r with Some rc => Returns (u32 rc) (DFds (fst r)) | None => Sleeps end) : scall SysResult) (fun _ => True)) as Hw.
    { snext ns_epoll_wait_ready_safe; [by apply Hp|done|]. intros r _. by sret. }
    destruct (wr_events req) as [| |[]]; [scase; apply done_safe|apply done_safe|]. scase; [apply done_safe|done].
Qed.

Lemma sys_epoll_create_ok K op epfd ctl wait sleeps s : cur = Z.of_nat t -> i32 op = NS_EPOLL_OP_CREATE -> in_call K s ->
  wpf never (sys_epoll op epfd ctl wait sleeps) (opens K NS_EPOLL_FD_BASE NS_EPOLL_MAX_PER_TASK epoll_taken) s.
Proof.
  intros Hcur Hop HJ. unfold sys_epoll. rewrite Hop. cbn [Z.eqb NS_EPOLL_OP_CREATE]. eapply wpf_step; [done|]. rewrite (ic_task _ _ HJ), Hcur.
  eapply wpf_seq; [by apply ns_epoll_alloc_fd_ok|]. intros s' fd [[-> HJ']|(i & Hi & -> & HJ')]; [by apply opens_error|].
  unfold NS_EPOLL_FD_BASE, NS_EPOLL_MAX_PER_TASK in *. destruct (Z.ltb_spec (2048 + Z.of_nat i) 0); [lia|]. apply wpf_ret. right. exists i, DNone.
  split; [done|]. split; [|done]. f_equal. apply u32_small. lia.
Qed.

Lemma sys_epoll_close_ok K op epfd ctl wait sleeps s : cur = Z.of_nat t -> i32 op = NS_EPOLL_OP_CLOSE -> in_call K s ->
  wpf never (sys_epoll op epfd ctl wait sleeps) (fun s' r => in_call (after K (fun v v' => v' = default v (close_epoll_view v (i32 epfd)))) s') s.
Proof.
  intros Hcur Hop HJ. pose proof (in_call_sleep _ _ HJ) as HJ0. destruct HJ as [Hwf Htask HK]. rewrite Hcur in Htask. unfold sys_epoll.
  rewrite Hop. cbn [Z.eqb NS_EPOLL_OP_CREATE NS_EPOLL_OP_CLOSE]. eapply wpf_step; [by apply own_epoll_ok|]. unfold close_epoll_view.
  destruct (open_epoll (view t s) (i32 epfd)) as [i|] eqn:Eo; cbn [fmap option_fmap option_map].
  - apply open_in_Some in Eo as Eo'. destruct Eo' as (Hi & _). eapply wpf_seq; [by eapply ns_epoll_close_object_ok|]. intros s1 [] HJ1. apply wpf_ret.
    eapply in_call_mono; [exact HJ1|]. intros v' (v & <- & ->). exists (view t s). by rewrite Eo.
  - apply wpf_ret. destruct HJ0. constructor; [done|done|]. exists (view t s). by rewrite Eo.
Qed.

(** *** The end of a task *)

Definition cleared (n : nat) (l : list Z) : list Z := replicate n 0 ++ drop n l.

Lemma cleared_next n l k : cleared n l !! n = Some k -> <[n := 0]> (cleared n l) = cleared (S n) l.
Proof.
  unfold cleared. intros Hk. rewrite lookup_app_r, length_replicate, Nat.sub_diag in Hk by (rewrite length_replicate; lia).
  rewrite insert_app_r_alt by (rewrite length_replicate; lia). rewrite length_replicate, Nat.sub_diag.
  rewrite lookup_drop, Nat.add_0_r in Hk. by rewrite (drop_S _ _ _ Hk), replicate_S_end, <- app_assoc.
Qed.

Lemma close_sockets_ok K s : in_call K s ->
  wpf never (ns_socket_close_all_for_task (Z.of_nat t)) (fun s' _ => in_call (after K (fun v v' => v' = set_sockets (cleared NS_SOCKET_MAX_PER_TASK) v)) s') s.
Proof.
  intros HJ. unfold ns_socket_close_all_for_task. rewrite bad_task_t, Nat2Z.id.
  assert (forall n lo x, (lo + n = NS_SOCKET_MAX_PER_TASK)%nat -> in_call (after K (fun v v' => v' = set_sockets (cleared lo) v)) x ->
    wpf never (each (fun i => e ← get_entry (t, Z.to_nat i); if so_used e =? 0 then mret tt else ns_socket_close_entry (t, Z.to_nat i)) (Z.of_nat lo) n)
      (fun s' _ => in_call (after K (fun v v' => v' = set_sockets (cleared NS_SOCKET_MAX_PER_TASK) v)) s') x) as Hall.
  2: { apply (Hall NS_SOCKET_MAX_PER_TASK O); [done|]. destruct HJ. constructor; [done|done|]. exists (view t s). split; [done|].
       unfold set_sockets, cleared. cbn [replicate app]. rewrite drop_0. by destruct (view t s). }
  induction n as [|n IH]; intros lo x Hlo Hx; cbn [each]; [apply wpf_ret; by rewrite Nat.add_0_r in Hlo; subst lo|].
  assert (own_ref NS_SOCKET_MAX_PER_TASK (t, lo)) as Hp by (split; [done|simpl; lia]).
  eapply wpf_seq with (R := fun x' _ => in_call (after K (fun v v' => v' = set_sockets (cleared (S lo)) v)) x').
  2: { intros x' [] Hx'. replace (Z.of_nat lo + 1) with (Z.of_nat (S lo)) by lia. apply IH; [lia|done]. }
  rewrite Nat2Z.id. destruct (entry_there x (t, lo) (ic_wf _ _ Hx) Hp) as (row & e & Hrow & He & Hat & Hw). cbn [snd] in He.
  eapply wpf_step; [unfold get_entry; by rewrite Hat|].
  assert (v_sockets (view t x) !! lo = Some (kind e)) as Hk.
  { cbn [view v_sockets]. unfold row_of. rewrite Hrow. change (map kind row) with (kind <$> row). by rewrite list_lookup_fmap, He. }
  destruct Hx as [Hwf Htask (v & HK & Ev)]. pose proof Hk as Hk'. rewrite Ev in Hk'. cbn [set_sockets v_sockets] in Hk'. pose proof (kind_zero e Hw) as Ekz.
  destruct (Z.eqb_spec (so_used e) 0) as [Hz|Hnz].
  - apply wpf_ret. constructor; [done|done|]. exists v. split; [done|]. rewrite Ev. unfold set_sockets. f_equal.
    rewrite <- (cleared_next _ _ _ Hk'). symmetry. apply set_same. rewrite Hk'. f_equal. lia.
  - eapply wpf_mono; [apply (ns_socket_close_entry_ok (eq (view t x)) x lo (kind e)); [by constructor|lia|done|lia]|].
    intros x' [] Hx'. eapply in_call_mono; [exact Hx'|]. intros v' (v0 & <- & ->). exists v. split; [done|]. rewrite Ev. unfold set_sockets. cbn [v_sockets v_epolls v_others v_other_epolls].
    by rewrite (cleared_next _ _ _ Hk').
Qed.

Lemma close_epolls_ok K s : in_call K s ->
  wpf never (ns_epoll_close_all_for_task (Z.of_nat t)) (fun s' _ => in_call (after K (fun v v' => v' = set_epolls (cleared NS_EPOLL_MAX_PER_TASK) v)) s') s.
Proof.
  intros HJ. unfold ns_epoll_close_all_for_task. rewrite bad_task_t, Nat2Z.id.
  assert (forall n lo x, (lo + n = NS_EPOLL_MAX_PER_TASK)%nat -> in_call (after K (fun v v' => v' = set_epolls (cleared lo) v)) x ->
    wpf never (each (fun i => e ← get_epoll (t, Z.to_nat i); if ep_used e =? 0 then mret tt else ns_epoll_close_object (t, Z.to_nat i)) (Z.of_nat lo) n)
      (fun s' _ => in_call (after K (fun v v' => v' = set_epolls (cleared NS_EPOLL_MAX_PER_TASK) v)) s') x) as Hall.
  2: { apply (Hall NS_EPOLL_MAX_PER_TASK O); [done|]. destruct HJ. constructor; [done|done|]. exists (view t s). split; [done|].
       unfold set_epolls, cleared. cbn [replicate app]. rewrite drop_0. by destruct (view t s). }
  induction n as [|n IH]; intros lo x Hlo Hx; cbn [each]; [apply wpf_ret; by rewrite Nat.add_0_r in Hlo; subst lo|].
  assert (own_ref NS_EPOLL_MAX_PER_TASK (t, lo)) as Hp by (split; [done|simpl; lia]).
  eapply wpf_seq with (R := fun x' _ => in_call (after K (fun v v' => v' = set_epolls (cleared (S lo)) v)) x').
  2: { intros x' [] Hx'. replace (Z.of_nat lo + 1) with (Z.of_nat (S lo)) by lia. apply IH; [lia|done]. }
  rewrite Nat2Z.id. destruct (epoll_there x (t, lo) (ic_wf _ _ Hx) Hp) as (row & e & Hrow & He & Hat & Hw). cbn [snd] in He.
  eapply wpf_step; [unfold get_epoll; by rewrite Hat|].
  assert (v_epolls (view t x) !! lo = Some (ep_used e)) as Hk.
  { cbn [view v_epolls]. unfold row_of. rewrite Hrow. change (map ep_used row) with (ep_used <$> row). by rewrite list_lookup_fmap, He. }
  destruct Hx as [Hwf Htask (v & HK & Ev)]. pose proof Hk as Hk'. rewrite Ev in Hk'. cbn [set_epolls v_epolls] in Hk'.
  destruct (Z.eqb_spec (ep_used e) 0) as [Hz|Hnz].
  - apply wpf_ret. constructor; [done|done|]. exists v. split; [done|]. rewrite Ev. unfold set_epolls. f_equal.
    rewrite <- (cleared_next _ _ _ Hk'). symmetry. apply set_same. by rewrite Hk', Hz.
  - eapply wpf_mono; [apply (ns_epoll_close_object_ok (eq (view t x)) x lo); [by constructor|lia]|].
    intros x' [] Hx'. eapply in_call_mono; [exact Hx'|]. intros v' (v0 & <- & ->). exists v. split; [done|]. rewrite Ev. unfold set_epolls. cbn [v_sockets v_epolls v_others v_other_epolls].
    by rewrite (cleared_next _ _ _ Hk').
Qed.

Definition nothing_open (v : View) : View := set_epolls (cleared NS_EPOLL_MAX_PER_TASK) (set_sockets (cleared NS_SOCKET_MAX_PER_TASK) v).

Lemma close_everything_ok K s : in_call K s ->
  wpf never (close_everything (Z.of_nat t)) (fun s' _ => in_call (after K (fun v v' => v' = nothing_open v)) s') s.
Proof.
  intros HJ. unfold close_everything. eapply wpf_seq; [by apply close_sockets_ok|]. intros s1 [] HJ1.
  eapply wpf_mono; [by apply close_epolls_ok|]. intros s2 [] HJ2. eapply in_call_mono; [exact HJ2|].
  intros v' (v1 & (v & HK & ->) & ->). by exists v.
Qed.

(** ** All calls *)

Inductive SockCall :=
| SSocket (domain type protocol : Z)
| SBind (fd : Z) (addr : UserPtr NsSockAddrIn)
| SListen (fd : Z)
| SAccept (fd : Z) (peer : UserPtr unit)
| SConnect (fd : Z) (addr : UserPtr NsSockAddrIn)
| SSendto (fd : Z) (buf : UserPtr (list Z)) (len : Z)
| SRecvfrom (fd : Z) (buf : UserPtr unit) (len : Z)
| SRead (fd : Z) (buf : UserPtr unit) (size : Z)
| SWrite (fd : Z) (buf : UserPtr (list Z)) (size : Z)
| SClose (fd : Z)
| SFcntl (fd cmd arg : Z)
| SSetsockopt (fd opt val : Z)
| SGetsockopt (fd opt : Z)
| SShutdown (fd how : Z)
| SPoll (fds : UserPtr (list NsPollFd)) (count timeout : Z)
| SEpoll (op epfd : Z) (ctl : UserPtr NsEpollCtlReq) (wait : UserPtr NsEpollWaitReq)
| SExit.

Definition sock_call (c : SockCall) (sleeps : list (scall unit)) : scall SysResult :=
  match c with
  | SSocket domain type protocol => sys_socket domain type protocol
  | SBind fd addr => sys_bind fd addr
  | SListen fd => sys_listen fd
  | SAccept fd peer => sys_accept fd peer sleeps
  | SConnect fd addr => sys_connect fd addr sleeps
  | SSendto fd buf len => sys_sendto fd buf len sleeps
  | SRecvfrom fd buf len => sys_recvfrom fd buf len sleeps
  | SRead fd buf size => sys_read fd buf size sleeps
  | SWrite fd buf size => sys_write fd buf size sleeps
  | SClose fd => sys_close fd
  | SFcntl fd cmd arg => sys_fcntl fd cmd arg
  | SSetsockopt fd opt val => sys_setsockopt fd opt val
  | SGetsockopt fd opt => sys_getsockopt fd opt
  | SShutdown fd how => sys_shutdown fd how
  | SPoll fds count timeout => sys_poll fds count timeout sleeps
  | SEpoll op epfd ctl wait => sys_epoll op epfd ctl wait sleeps
  | SExit => x ← current; close_everything x ≫= fun _ => done NS_OK
  end.

(** The arguments are of their C types. *)
Definition sock_ok (c : SockCall) : Prop :=
  match c with
  | SSendto _ buf len | SWrite _ buf len => user_bytes buf len
  | SSetsockopt _ _ val => is_u32 val
  | _ => True
  end.

(** What a call with the result [r] does to the descriptors of its task. *)
Definition opened (base : Z) (max : nat) (taken : nat -> View -> View -> Prop) (r : SysResult) (v v' : View) : Prop :=
  (v' = v /\ forall x d, r = Returns x d -> 2 ^ 31 <= x) \/
  exists (i : nat) d, (i < max)%nat /\ r = Returns (base + Z.of_nat i) d /\ taken i v v'.
Definition effect (c : SockCall) (r : SysResult) (v v' : View) : Prop :=
  match c with
  | SSocket _ type _ => opened NS_SOCKET_FD_BASE NS_SOCKET_MAX_PER_TASK (fun i => socket_taken i (i32 type)) r v v'
  | SAccept _ _ => opened NS_SOCKET_FD_BASE NS_SOCKET_MAX_PER_TASK (fun i => socket_taken i NS_SOCK_STREAM) r v v'
  | SClose fd => v' = closed_view (i32 fd) v
  | SEpoll op epfd _ _ =>
      if i32 op =? NS_EPOLL_OP_CREATE then opened NS_EPOLL_FD_BASE NS_EPOLL_MAX_PER_TASK epoll_taken r v v'
      else if i32 op =? NS_EPOLL_OP_CLOSE then v' = default v (close_epoll_view v (i32 epfd))
      else v' = v
  | SExit => v' = nothing_open v
  | _ => v' = v
  end.

Lemma opens_opened K base max taken s r : opens K base max taken s r -> in_call (after K (opened base max taken r)) s.
Proof.
  intros [[HJ Hr]|(i & d & Hi & -> & HJ)]; (eapply in_call_mono; [exact HJ|]).
  - intros v HK. exists v. split; [done|]. by left.
  - intros v' (v & HK & Hv). exists v. split; [done|]. right. by exists i, d.
Qed.

Lemma plain_call K (m : scall SysResult) R s : safe (in_call K) m R -> in_call K s -> wpf never m (fun s' r => in_call (after K (fun v v' => v' = v)) s') s.
Proof.
  intros Hm HJ. eapply wpf_mono; [by apply Hm|]. intros s' r [HJ' _]. eapply in_call_mono; [exact HJ'|]. intros v HK. by exists v.
Qed.

Lemma sock_call_ok K c sleeps s : cur = Z.of_nat t -> in_call K s -> sock_ok c -> sleeps_ok K sleeps ->
  wpf never (sock_call c sleeps) (fun s' r => in_call (after K (effect c r)) s') s.
Proof.
  intros Hcur HJ Hok Hs. destruct c; cbn [sock_call sock_ok] in *;
    try (eapply plain_call; [|exact HJ]; first [by apply sys_bind_safe | by apply sys_listen_safe | by apply sys_connect_safe | by apply sys_sendto_safe
      | by apply sys_recvfrom_safe | by apply sys_read_safe | by apply sys_write_safe | by apply sys_fcntl_safe | by apply sys_setsockopt_safe
      | by apply sys_getsockopt_safe | by apply sys_shutdown_safe | by apply sys_poll_safe]).
  - eapply wpf_mono; [by apply sys_socket_ok|]. intros s' r Hr. apply opens_opened. destruct Hr as [Hr|(i & Hi & Hr & HJ')]; [by left|right]. by exists i, DNone.
  - eapply wpf_mono; [by apply sys_accept_ok|]. intros s' r Hr. by apply opens_opened.
  - eapply wpf_mono; [by apply sys_close_ok|]. intros s' r Hr. exact Hr.
  - unfold effect. destruct (Z.eqb_spec (i32 op) NS_EPOLL_OP_CREATE); [eapply wpf_mono; [by apply sys_epoll_create_ok|]; intros s' r Hr; by apply opens_opened|].
    destruct (Z.eqb_spec (i32 op) NS_EPOLL_OP_CLOSE); [by apply sys_epoll_close_ok|]. eapply plain_call; [by apply sys_epoll_other_safe|done].
  - eapply wpf_step; [done|]. rewrite (ic_task _ _ HJ), Hcur. eapply wpf_seq; [by apply close_everything_ok|]. intros s' [] HJ'. by apply wpf_ret.
Qed.
End Session.

(** C12: Each socket call does to the descriptors of its task what its result says, and to
    nothing else: socket, accept and epoll's create take a slot that was free and return its
    descriptor, or change nothing; close gives back the socket or epoll object that is open
    under its argument; exit gives back all; every other call opens and closes nothing.
    Whatever holds of the other tasks' tables ([K] speaks of them too) and is kept while the
    call sleeps holds afterwards, so no call reaches another task's sockets. *)
Theorem socket_call_refines (t : nat) K c sleeps s : (t < Z.to_nat MAX_TASKS)%nat -> in_call t (Z.of_nat t) K s -> sock_ok c ->
  Forall (fun m => safe (in_call t (Z.of_nat t) K) m (fun _ => True)) sleeps ->
  wpf never (sock_call c sleeps) (fun s' r => in_call t (Z.of_nat t) (after K (effect c r)) s') s.
Proof. intros Ht HJ Hok Hs. by apply sock_call_ok. Qed.

(** ** Runs *)

(** What happens in the system: a call of the stack (the card's interrupt, a timer), time,
    a fork that takes over the slot of a dead task, or a socket call; while that one sleeps,
    other steps happen. *)
Inductive Step :=
| WNet (c : NetCall)
| WClock (ticks : Z)
| WFork (child : Z)
| WCall (task : Z) (c : SockCall) (sleeps : list (list Step)).

Definition switch_to (task : Z) : scall unit := fmod (fun s => s <| sk_vfs ::= fun v => v <| os_current_task := task |> |>).

Fixpoint world_step (st : Step) : scall unit :=
  match st with
  | WNet c => on_net (net_call c)
  | WClock n => fmod (fun s => s <| scheduler_ticks := scheduler_ticks s +u n |>)
  | WFork child => close_everything child
  | WCall task c sleeps =>
      let world_steps := fix world_steps (l : list Step) : scall unit :=
        match l with [] => mret tt | x :: l' => world_step x ≫= fun _ => world_steps l' end in
      switch_to task ≫= fun _ =>
      sock_call c (map (fun l => world_steps l ≫= fun _ => switch_to task) sleeps) ≫= fun _ => mret tt
  end.
Fixpoint world_steps (l : list Step) : scall unit :=
  match l with [] => mret tt | x :: l' => world_step x ≫= fun _ => world_steps l' end.

Fixpoint step_ok (st : Step) : Prop :=
  match st with
  | WNet c => call_ok c
  | WClock _ | WFork _ => True
  | WCall task c sleeps =>
      0 <= task < MAX_TASKS /\ sock_ok c /\
      (fix all_ok (ls : list (list Step)) : Prop :=
         match ls with
         | [] => True
         | l :: ls' => (fix steps_ok (l : list Step) : Prop := match l with [] => True | x :: l' => step_ok x /\ steps_ok l' end) l /\ all_ok ls'
         end) sleeps
  end.

Lemma world_steps_eq : (fix world_steps (l : list Step) : scall unit :=
  match l with [] => mret tt | x :: l' => world_step x ≫= fun _ => world_steps l' end) = world_steps.
Proof. done. Qed.

Lemma switch_in_call t s : (t < Z.to_nat MAX_TASKS)%nat -> sk_wf s -> wpf never (switch_to (Z.of_nat t)) (fun s' _ => in_call t (Z.of_nat t) (fun _ => True) s') s.
Proof. intros Ht []. unfold switch_to, fmod, wpf. constructor; [by constructor|done|done]. Qed.

Lemma close_everything_safe child : safe sk_wf (close_everything child : scall unit) (fun _ => True).
Proof.
  intros s Hs. destruct (bad_task_id child) eqn:Hb.
  { unfold close_everything, ns_socket_close_all_for_task, ns_epoll_close_all_for_task. rewrite Hb. by split. }
  unfold bad_task_id in Hb. bsimpl. rewrite <- (Z2Nat.id child) by lia.
  eapply wpf_mono; [apply (close_everything_ok (Z.to_nat child) ltac:(lia) (os_current_task (sk_vfs s)) (fun _ => True))|].
  - by constructor.
  - intros s' [] [Hs' _ _]. done.
Qed.

Lemma world_step_safe : forall st, step_ok st -> safe sk_wf (world_step st) (fun _ => True).
Proof.
  fix IH 1. intros [c|n|child|task c sleeps] Hok.
  - intros s []. cbn [world_step]. unfold on_net, wpf. pose proof (net_call_safe c Hok (sk_net s) kw_net0) as Hc. unfold wpf in Hc.
    destruct (net_call c (sk_net s)); [|done]. destruct Hc as [Hc _]. by split.
  - intros s []. cbn [world_step]. split; [|done]. constructor; cbn; try done. apply u32_range.
  - apply close_everything_safe.
  - cbn [world_step step_ok] in *. rewrite world_steps_eq. destruct Hok as (Htask & Hc & Hsleeps). intros s Hs. rewrite <- (Z2Nat.id task) by lia.
    set (t := Z.to_nat task). assert (t < Z.to_nat MAX_TASKS)%nat as Ht by lia.
    eapply wpf_seq; [by apply switch_in_call|]. intros s1 [] HJ1.
    eapply wpf_seq; [apply (sock_call_ok t Ht (Z.of_nat t) (fun _ => True) c _ s1 eq_refl HJ1 Hc)|].
    2: { intros s2 r [Hs2 _ _]. apply wpf_ret. by split. }
    clear s Hs s1 HJ1. clearbody t. induction sleeps as [|l sleeps IHs]; [constructor|]. destruct Hsleeps as [Hl Hsleeps]. cbn [map]. constructor; [|by apply IHs].
    clear IHs Hsleeps. assert (safe sk_wf (world_steps l) (fun _ => True)) as Hrun.
    { induction l as [|x l IHl]; [intros s Hs; by split|]. destruct Hl as [Hx Hl]. cbn [world_steps]. eapply safe_bind; [by apply IH|]. intros _ _. by apply IHl. }
    intros s [Hs _ _]. eapply wpf_seq; [by apply Hrun|]. intros s1 [] [Hs1 _]. eapply wpf_mono; [by apply switch_in_call|]. intros s2 [] HJ2. by split.
Qed.

Lemma world_steps_safe l : Forall step_ok l -> safe sk_wf (world_steps l) (fun _ => True).
Proof.
  induction 1 as [|x l Hx _ IHl]; [intros s Hs; by split|]. cbn [world_steps]. eapply safe_bind; [by apply world_step_safe|]. intros _ _. apply IHl.
Qed.

Lemma sockets_static_wf (v : Vfs X B) : sk_wf (sockets_static net_static v 0).
Proof.
  constructor; cbn [sockets_static sk_net scheduler_ticks task_sockets task_epolls]; [apply net_static_wf|unfold is_u32; lia|..].
  - split; [apply length_replicate|]. apply Forall_replicate. split; [apply length_replicate|]. apply Forall_replicate.
    constructor; cbn; try done; unfold is_i32; lia.
  - split; [apply length_replicate|]. apply Forall_replicate. split; [apply length_replicate|]. apply Forall_replicate.
    constructor; [unfold is_bool; cbn; lia|apply length_replicate|]. assert (watched (ep_watches zero_epoll) = []) as -> by done. apply NoDup_nil_2.
Qed.

(** C24: From power-on, whatever the tasks do with their sockets and epoll objects, whatever
    arrives on the wire, and whatever happens while calls sleep - other tasks' calls, frames,
    ends of tasks - no call leaves a table or a buffer, every call ends, and the tables of the
    sockets and of the stack below keep their types. *)
Theorem sockets_run_safe (v : Vfs X B) l : Forall step_ok l -> wpf never (world_steps l) (fun s _ => sk_wf s) (sockets_static net_static v 0).
Proof. intros Hl. eapply wpf_mono; [by apply world_steps_safe; [|apply sockets_static_wf]|]. by intros s u [Hs _]. Qed.

(** ** What epoll reports *)

(** The report on each of the watched descriptors that is ready. *)
Definition reports (rev : Z -> Z -> Z) (l : list (Z * Z)) : list NsPollFd :=
  List.filter (fun f => negb (pl_revents f =? 0))
    (map (fun fe => {| pl_fd := fst fe; pl_events := snd fe; pl_revents := rev (fst fe) (snd fe) |}) l).

Lemma collected_ok rev ws : forall room, collected rev ws room = take room (reports rev (watched ws)).
Proof.
  induction ws as [|w ws IH]; intros [|room]; try done. cbn [collected]. rewrite watched_cons. unfold watch_entry, watch_used.
  destruct (wt_used w =? 0); cbn [orb negb app]; [apply IH|]. unfold reports. cbn [map List.filter fst snd pl_revents].
  destruct (rev (wt_fd w) (wt_events w) =? 0); cbn [negb]; [apply IH|]. cbn [take]. by rewrite IH.
Qed.

#[export] Instance reports_Permutation rev : Proper ((≡ₚ) ==> (≡ₚ)) (reports rev).
Proof.
  intros l l' Hl. unfold reports. apply Permutation_map with (f := fun fe => {| pl_fd := fst fe; pl_events := snd fe; pl_revents := rev (fst fe) (snd fe) |}) in Hl.
  induction Hl; cbn [List.filter]; [done|case_if; by rewrite ?IHHl|repeat case_if; try done; apply perm_swap|by etrans].
Qed.

(** The calls of [epoll_ctl] on a new object, and on a finite map. *)
Definition new_epoll : NsEpollObject := clear_watches 1 zero_epoll.
Fixpoint ctl_run (reqs : list NsEpollCtlReq) (o : NsEpollObject) : NsEpollObject * list Z :=
  match reqs with
  | [] => (o, [])
  | r :: reqs' => let '(o1, rc) := ns_epoll_ctl_apply o r in let '(o2, rcs) := ctl_run reqs' o1 in (o2, rc :: rcs)
  end.
Fixpoint ctl_spec_run (reqs : list NsEpollCtlReq) (M : gmap Z Z) : gmap Z Z * list Z :=
  match reqs with
  | [] => (M, [])
  | r :: reqs' => let '(M1, rc) := ctl_spec M r in let '(M2, rcs) := ctl_spec_run reqs' M1 in (M2, rc :: rcs)
  end.

Lemma ctl_run_ok reqs : forall o, epoll_wf o -> let '(o', rcs) := ctl_run reqs o in epoll_wf o' /\ ctl_spec_run reqs (epoll_map o) = (epoll_map o', rcs).
Proof.
  induction reqs as [|r reqs IH]; intros o Ho; [done|]. cbn [ctl_run ctl_spec_run]. pose proof (epoll_ctl_ok o r Ho) as Hc.
  destruct (ns_epoll_ctl_apply o r) as [o1 rc]. destruct Hc as (Ho1 & <- & _). specialize (IH o1 Ho1). destruct (ctl_run reqs o1) as [o2 rcs].
  destruct IH as [Ho2 ->]. done.
Qed.

Lemma new_epoll_wf : epoll_wf new_epoll.
Proof.
  apply clear_watches_wf; [|unfold is_bool; lia]. constructor; [unfold is_bool; cbn; lia|apply length_replicate|].
  assert (watched (ep_watches zero_epoll) = []) as -> by done. apply NoDup_nil_2.
Qed.

(** How a loop that sleeps ends, when its attempts change nothing. *)
Lemma sleep_until_end {C} (attempt : scall (C * bool)) (J : Sockets X B -> Prop) (f : Sockets X B -> C) (b : Sockets X B -> bool) infinite deadline sleeps :
  (forall s, J s -> attempt s = Done s (f s, b s)) -> Forall (fun m => forall s, J s -> wpf never m (fun s' _ => J s') s) sleeps ->
  forall s, J s -> wpf never (sleep_until attempt (past infinite deadline) sleeps) (fun s' r => J s' /\ fst r = f s' /\
    match snd r with Ready => b s' = true | Expired => b s' = false /\ infinite = false /\ deadline <= scheduler_ticks s' | Asleep => b s' = false end) s.
Proof.
  intros Ha. induction 1 as [|m sleeps Hm _ IH]; intros s Hs; cbn [sleep_until]; (eapply wpf_step; [by apply Ha|]); cbn [fst snd];
    (destruct (b s) eqn:Hb; [by apply wpf_ret|]); (eapply wpf_step; [done|]);
    (destruct (negb infinite && (deadline <=? scheduler_ticks s)) eqn:Ep; [apply wpf_ret; bsimpl; by destruct infinite|]); [by apply wpf_ret|].
  eapply wpf_seq; [by apply Hm|]. intros s1 [] Hs1. by apply IH.
Qed.

(** What the rest of the system does while the task sleeps: the tables keep their types, and
    nobody else changes the task's object. *)
Definition keeps_object (p : sref) (m : scall unit) : Prop :=
  forall s, sk_wf s -> wpf never m (fun s' _ => sk_wf s' /\ epoll_at p s' = epoll_at p s) s.

(** C13: An epoll object is a finite map from descriptors to events of 64 entries at most:
    every sequence of additions, changes and removals on a new object has the results it has
    on the map, and leaves that map.  A wait on such an object, whatever the rest of the
    system does while it sleeps (but for changing the object), never leaves the tables, and
    stores, of the map's descriptors for which poll reports an event at its end, all when
    there is room and otherwise as many as there is room for, each once and with its events
    and what poll reports.  Its result is their number; it is 0 only for a wait with timeout
    0 or once the deadline of a finite one is over, and a wait that is still asleep has found
    none ready. *)
Theorem epoll_refines_map reqs (p : sref) maxevents timeout sleeps s :
  let M := fst (ctl_spec_run reqs ∅) in
  sk_wf s -> epoll_at p s = Some (fst (ctl_run reqs new_epoll)) -> Forall (keeps_object p) sleeps ->
  snd (ctl_run reqs new_epoll) = snd (ctl_spec_run reqs ∅) /\
  wpf never (ns_epoll_wait_ready p maxevents timeout sleeps) (fun s' r =>
    exists revents, (forall fd ev, exists b, ns_fd_poll_revents (os_current_task (sk_vfs s')) fd ev s' = Done s' (b, revents fd ev)) /\
    (exists all, all ≡ₚ reports revents (map_to_list M) /\ fst r = take (Z.to_nat maxevents) all) /\
    match snd r with
    | Some n => n = Z.of_nat (length (fst r)) /\
        (n = 0 -> timeout = 0 \/ timeout <> FOREVER /\ scheduler_ticks s +u timeout <= scheduler_ticks s')
    | None => fst r = []
    end) s.
Proof.
  cbv zeta. pose proof (ctl_run_ok reqs new_epoll new_epoll_wf) as Hrun. destruct (ctl_run reqs new_epoll) as [o rcs]. destruct Hrun as [Ho Hspec].
  assert (epoll_map new_epoll = ∅) as Enew by (unfold epoll_map, new_epoll; cbn [clear_watches ep_watches]; by rewrite watched_clear).
  rewrite Enew in Hspec. rewrite Hspec. cbn [fst snd]. intros Hs Hobj Hsl. split; [done|].
  pose proof Ho as [_ _ Hn]. change (map fst ?l) with l.*1 in Hn.
  assert (map_to_list (epoll_map o) ≡ₚ watched (ep_watches o)) as Hlist by (by apply map_to_list_to_map).
  set (J := fun x => sk_wf x /\ epoll_at p x = Some o).
  set (f := fun x => collected (revents_at (os_current_task (sk_vfs x)) x) (ep_watches o) (Z.to_nat maxevents)).
  unfold ns_epoll_wait_ready. cbv zeta. eapply wpf_step; [done|].
  eapply wpf_seq; [apply (sleep_until_end _ J f (fun x => (0 <? Z.of_nat (length (f x))) || (timeout =? 0))); [| |by split]|].
  - intros x [Hx Hox]. unfold mbind, FST_bind, mret, FST_ret, get_epoll. rewrite Hox. by rewrite collect_ready_ok.
  - eapply list.Forall_impl; [exact Hsl|]. intros m Hm x [Hx Hox]. eapply wpf_mono; [by apply Hm|]. intros x' _ [? Hox']. split; [done|]. by rewrite Hox'.
  - intros s' [out w] ([Hs' _] & Hout & Hw). cbn [fst snd] in *. apply wpf_ret. exists (revents_at (os_current_task (sk_vfs s')) s').
    split; [intros fd ev; rewrite poll_revents_ok by done; unfold revents_at; destruct (poll_result _ fd ev s') as [b r]; by exists b|].
    split; [exists (reports (revents_at (os_current_task (sk_vfs s')) s') (watched (ep_watches o))); split; [by rewrite Hlist|]; rewrite Hout; apply collected_ok|].
    rewrite <- Hout in Hw. cbn [fst snd]. destruct w.
    + split; [done|]. intros Hz. left. bsimpl. destruct (Z.ltb_spec 0 (Z.of_nat (length out))), (Z.eqb_spec timeout 0); try done; lia.
    + destruct Hw as (Hb & Hinf & Hd). apply orb_false_iff in Hb as [Hb1%Z.ltb_ge Hb2%Z.eqb_neq]. apply Z.eqb_neq in Hinf.
      rewrite (proj2 (Z.eqb_neq timeout FOREVER) Hinf), (proj2 (Z.eqb_neq timeout 0) Hb2) in Hd. cbn [negb andb] in Hd.
      split; [lia|]. intros _. right. by split.
    + bsimpl. destruct out; [done|]. simpl in *. lia.
Qed.

(** ** Waits end *)

(** A sleep during which time passes; the clock may wrap only when it is at its end. *)
Definition ticking (m : scall unit) : Prop := forall s, sk_wf s ->
  wpf never m (fun s' _ => sk_wf s' /\ (scheduler_ticks s < 2 ^ 32 - 1 -> scheduler_ticks s < scheduler_ticks s')) s.

Lemma sleep_until_ends {C} (attempt : scall (C * bool)) deadline sleeps : (forall s, sk_wf s -> exists r, attempt s = Done s r) -> deadline < 2 ^ 32 -> Forall ticking sleeps ->
  forall s, sk_wf s -> deadline - scheduler_ticks s <= Z.of_nat (length sleeps) ->
  wpf never (sleep_until attempt (past false deadline) sleeps) (fun s' r => sk_wf s' /\
    exists b, attempt s' = Done s' (fst r, b) /\ if b then snd r = Ready else snd r = Expired /\ deadline <= scheduler_ticks s') s.
Proof.
  intros Ha Hmax. induction 1 as [|m sleeps Hm _ IH]; intros s Hs Hd; cbn [sleep_until]; destruct (Ha s Hs) as ([c b] & E); (eapply wpf_step; [exact E|]); cbn [fst snd];
    (destruct b; [apply wpf_ret; split; [done|]; by exists true|]); (eapply wpf_step; [done|]); cbn [negb andb].
  - cbn in Hd. destruct (Z.leb_spec deadline (scheduler_ticks s)); [|lia]. apply wpf_ret. split; [done|]. by exists false.
  - destruct (Z.leb_spec deadline (scheduler_ticks s)); [apply wpf_ret; split; [done|]; by exists false|].
    eapply wpf_seq; [by apply Hm|]. intros s1 [] [Hs1 Ht]. apply IH; [done|]. cbn [length] in Hd. lia.
Qed.

(** C25: A wait with a timeout that is not "for ever" ends: as soon as time has passed by the
    timeout - each sleep takes one tick at least - the call returns, whatever the rest of the
    system did meanwhile.  It reports readiness exactly when the socket is ready at the end,
    and gives up only when the time is over and the socket is not ready. *)
Theorem socket_wait_ends ready (t : nat) i timeout sleeps s :
  sk_wf s -> (t < Z.to_nat MAX_TASKS)%nat -> (i < NS_SOCKET_MAX_PER_TASK)%nat -> 0 <= timeout -> timeout <> FOREVER -> scheduler_ticks s + timeout < 2 ^ 32 ->
  timeout <= Z.of_nat (length sleeps) -> Forall ticking sleeps ->
  wpf never (ns_socket_wait_for ready (t, i) timeout sleeps) (fun s' w => sk_wf s' /\
    exists e, socket_at (t, i) s' = Some e /\
      if ready e (sk_net s') then w = Ready else w = Expired /\ scheduler_ticks s + timeout <= scheduler_ticks s') s.
Proof.
  intros Hs Ht Hi Hpos Hf Hlt Hl Hsl. unfold ns_socket_wait_for. destruct (Z.eqb_spec timeout FOREVER); [done|]. eapply wpf_step; [done|].
  assert (forall x, sk_wf x -> exists e, socket_at (t, i) x = Some e) as Hent.
  { intros x Hx. destruct (entry_there t Ht x (t, i) Hx) as (row & e & _ & _ & He & _); [done|]. by exists e. }
  pose proof (kw_ticks s Hs) as Hnow. unfold is_u32 in Hnow. rewrite u32_small by lia.
  eapply wpf_seq; [apply sleep_until_ends; [|lia|done|done|lia]|].
  - intros x Hx. destruct (Hent x Hx) as [e He]. unfold mbind, FST_bind, get_entry. rewrite He. by eexists.
  - intros s' [[] w] (Hs' & b & Eb & Hw). apply wpf_ret. split; [done|]. destruct (Hent s' Hs') as [e He]. exists e. split; [done|].
    unfold mbind, FST_bind, get_entry in Eb. rewrite He in Eb. injection Eb as <-. exact Hw.
Qed.
End Runs.

(** ** Witnesses *)

(** A system without open files. *)
Definition demo_vfs : Vfs unit unit :=
  {| mounts := []; fd_table := []; task_fd_map := replicate (Z.to_nat (TASK_MAX_FDS * MAX_TASKS)) (-1); os_current_task := 0; backend := tt |}.
Definition demo_sockets : Sockets unit unit := sockets_static net_static demo_vfs 0.

Lemma demo_in_call : in_call 0 0 (eq (view 0 demo_sockets)) demo_sockets.
Proof. constructor; [apply sockets_static_wf|reflexivity|reflexivity]. Qed.

Lemma socket_call_refines_witness : exists K : View -> Prop,
  wpf never (sock_call (SSocket 2 1 0) []) (fun s' r => in_call 0 0 (after K (effect (SSocket 2 1 0) r)) s') demo_sockets.
Proof.
  exists (eq (view 0 demo_sockets)).
  refine (socket_call_refines 0 (eq (view 0 demo_sockets)) (SSocket 2 1 0) [] demo_sockets _ demo_in_call I (Forall_nil_2 _)). apply Nat.ltb_lt. by vm_compute.
Defined.

(** A task waits for a datagram while another opens a socket and frames arrive. *)
Definition demo_steps : list Step :=
  [WNet CTick; WCall 0 (SSocket 2 2 0) []; WCall 0 (SBind 1024 (PTo {| sin_family := 2; sin_port := 0x8813; sin_addr := 0 |})) [];
   WCall 0 (SRecvfrom 1024 (PTo tt) 10) [[WCall 1 (SSocket 2 1 0) []; WClock 1]; [WNet CTick; WClock 1]]; WCall 0 (SClose 1024) []; WFork 1].

Lemma sockets_run_safe_witness : wpf never (world_steps demo_steps) (fun s _ => sk_wf s) (sockets_static net_static demo_vfs 0).
Proof. apply (sockets_run_safe demo_vfs demo_steps). repeat constructor; vm_compute; congruence. Defined.

Definition demo_sleep : FST (Sockets unit unit) unit := fmod (fun s => s <| scheduler_ticks := scheduler_ticks s +u 1 |>).
Lemma demo_sleep_ticking : ticking demo_sleep.
Proof.
  intros s []. unfold demo_sleep, fmod, wpf. split; [constructor; cbn; try done; apply u32_range|]. cbn. intros Hs. unfold is_u32 in *.
  rewrite u32_small by lia. lia.
Qed.

Lemma socket_wait_ends_witness :
  wpf never (ns_socket_wait_for ns_socket_ready_for_read (0, 0)%nat 2 [demo_sleep; demo_sleep]) (fun s' w => sk_wf s' /\
    exists e, socket_at (0, 0)%nat s' = Some e /\
      if ns_socket_ready_for_read e (sk_net s') then w = Ready else w = Expired /\ scheduler_ticks demo_sockets + 2 <= scheduler_ticks s') demo_sockets.
Proof.
  assert ((0 < Z.to_nat MAX_TASKS)%nat) as Ht by (apply Nat.ltb_lt; by vm_compute).
  assert ((0 < NS_SOCKET_MAX_PER_TASK)%nat) as Hi by (apply Nat.ltb_lt; by vm_compute).
  assert (Forall ticking [demo_sleep; demo_sleep]) as Hs by exact (Forall_cons_2 _ _ _ demo_sleep_ticking (Forall_cons_2 _ _ _ demo_sleep_ticking (Forall_nil_2 _))).
  refine (socket_wait_ends ns_socket_ready_for_read 0 0 2 [demo_sleep; demo_sleep] demo_sockets (sockets_static_wf demo_vfs) Ht Hi _ _ _ _ Hs); by vm_compute.
Defined.

(** An object with two watches, and a wait with room for one. *)
Definition demo_reqs : list NsEpollCtlReq :=
  [{| cr_op := 1; cr_event := {| pl_fd := 1024; pl_events := 1; pl_revents := 0 |} |};
   {| cr_op := 1; cr_event := {| pl_fd := 7; pl_events := 4; pl_revents := 0 |} |};
   {| cr_op := 1; cr_event := {| pl_fd := 7; pl_events := 1; pl_revents := 0 |} |}].
Definition demo_waiting : Sockets unit unit :=
  demo_sockets <| task_epolls ::= alter (alter (fun _ => fst (ctl_run demo_reqs new_epoll)) 0%nat) 0%nat |>.

Lemma demo_waiting_wf : sk_wf demo_waiting.
Proof.
  destruct (sockets_static_wf demo_vfs) as [H1 H2 H3 H4]. constructor; [done..|]. unfold demo_waiting. cbn [task_epolls].
  pose proof (ctl_run_ok demo_reqs new_epoll new_epoll_wf) as Hrun. destruct (ctl_run demo_reqs new_epoll) as [o rcs]. destruct Hrun as [Ho _].
  assert ((0 < Z.to_nat MAX_TASKS)%nat) as Ht by (apply Nat.ltb_lt; by vm_compute). destruct (row_there 0 Ht _ _ _ H4) as (row & Hrow & Hl & Hw).
  destruct (lookup_lt_is_Some_2 row 0) as [x Hx]; [rewrite Hl; apply Nat.ltb_lt; by vm_compute|]. by eapply (table_alter 0).
Qed.

Lemma epoll_refines_map_witness :
  snd (ctl_run demo_reqs new_epoll) = [0; 0; -22] /\
  snd (ctl_run demo_reqs new_epoll) = snd (ctl_spec_run demo_reqs ∅) /\
  wpf never (ns_epoll_wait_ready (0, 0)%nat 1 5 [demo_sleep]) (fun s' r =>
    exists revents, (forall fd ev, exists b, ns_fd_poll_revents (os_current_task (sk_vfs s')) fd ev s' = Done s' (b, revents fd ev)) /\
    (exists all, all ≡ₚ reports revents (map_to_list (fst (ctl_spec_run demo_reqs ∅))) /\ fst r = take (Z.to_nat 1) all) /\
    match snd r with
    | Some n => n = Z.of_nat (length (fst r)) /\
        (n = 0 -> 5 = 0 \/ 5 <> FOREVER /\ scheduler_ticks demo_waiting +u 5 <= scheduler_ticks s')
    | None => fst r = []
    end) demo_waiting.
Proof.
  split; [by vm_compute|]. apply (epoll_refines_map demo_reqs (0, 0)%nat 1 5 [demo_sleep] demo_waiting demo_waiting_wf).
  - by vm_compute.
  - apply Forall_singleton. intros s Hs. pose proof (demo_sleep_ticking s Hs) as Ht. unfold wpf in *. split; [apply Ht|done].
Defined.

(** What the calls of that run return, and what poll says of a socket without data. *)
Lemma demo_socket_results :
  match (sys_socket 2 2 0 ≫= fun a => sys_bind 1024 (PTo {| sin_family := 2; sin_port := 0x8813; sin_addr := 0 |}) ≫= fun b =>
         sys_poll (PTo [{| pl_fd := 1024; pl_events := 5; pl_revents := 0 |}]) 1 0 [] ≫= fun c => sys_close 1024 ≫= fun d => mret [a; b; c; d]) demo_sockets with
  | Done _ rs => rs = [Returns 1024 DNone; Returns 0 DNone; Returns 0 (DFds [{| pl_fd := 1024; pl_events := 5; pl_revents := 0 |}]); Returns 0 DNone]
  | Fault _ => False
  end.
Proof. by vm_compute. Qed.
