(* ===== verification/Usermode.v ===== *)
(** * User programs (kernel/usermode.c)

    Building an address space from a flat or ELF image, and replacing the user task by
    the program.  The loader reaches user memory through the few operations of the
    class [UserMem]; [KernelMem] holds those of the code, which map each page at a
    temporary address of the kernel.  An image is the list of the bytes of its buffer,
    and an access outside of the buffer is a fault. *)
From S2P Require Import Prelude Bytes Pmm VfsDefs Vfs Task Posix Fault Memory Paging Buffers Loader LoaderImage.

Definition PT_LOAD : Z := 1.
Definition ET_EXEC : Z := 2.
Definition ET_DYN : Z := 3.
Definition USER_VA_CODE : Z := 0x40000000.
Definition USER_VA_STACK_TOP : Z := 0x40002000.
Definition USER_PAGE_MASK : Z := 0xFFFFF000.
Definition sizeof_Phdr : Z := 32.

(** ** The operations on user memory *)

(** Of an address space: a cleared page mapped at an address, bytes copied to it, a
    word read and written, and whether an address is mapped. *)
Class UserMem (M : Type) := {
  um_map_zeroed : Z -> Z -> FST M Z;
  um_copy : Z -> Z -> list Z -> Z -> FST M Z;
  um_read : Z -> Z -> FST M (option Z);
  um_write : Z -> Z -> Z -> FST M Z;
  um_mapped : Z -> Z -> FST M bool
}.

(** ** The operations of the code *)

Section Kernel.
Context `{KernelImage}.

(** [kmap_temp_page], the accesses, and [kunmap_temp_page]. *)
Definition with_temp_page {A} (phys_page : Z) (body : Z -> FST Machine A) : FST Machine A :=
  map_page phys_page KERNEL_TEMP_MAP_VA ≫= fun _ =>
  r ← body KERNEL_TEMP_MAP_VA;
  unmap_kernel_page KERNEL_TEMP_MAP_VA ≫= fun _ => mret r.

Definition mem_zero_phys_page (phys_page : Z) : FST Machine unit :=
  with_temp_page (Z.land phys_page USER_PAGE_MASK) (fun mapped => each (fun i => wr8 (mapped + i) 0) 0 4096).

(** A page that is allocated, mapped and cleared, as [map_user_range],
    [load_flat_image] and [setup_user_stack] do it. *)
Definition map_zeroed_page (pd va : Z) : FST Machine Z :=
  phys ← alloc_page;
  if phys =? 0 then mret 0
  else
    ok ← map_user_page pd phys va;
    if ok =? 0 then mret 0 else mem_zero_phys_page phys ≫= fun _ => mret 1.

(** [mem_copy(mapped + page_off, src + copied, chunk)]. *)
Definition mem_copy (dst : Z) (src : list Z) (from size : Z) : FST Machine unit :=
  each (fun i => b ← rd src (from + i); wr8 (dst + i) b) 0 (Z.to_nat size).

(** The loop; each iteration but the last ends at a page boundary. *)
Fixpoint copy_loop (n : nat) (pd user_va : Z) (src : list Z) (size copied : Z) : FST Machine Z :=
  if size <=? copied then mret 1
  else
    match n with
    | O => fault
    | S n' =>
        dst_phys ← resolve_user_phys pd (user_va +u copied);
        let dst_page := Z.land dst_phys USER_PAGE_MASK in
        let page_off := Z.land dst_phys 0xFFF in
        if dst_phys =? 0 then mret 0
        else
          let chunk := 4096 - page_off in
          let chunk := if size - copied <? chunk then size - copied else chunk in
          with_temp_page dst_page (fun mapped => mem_copy (mapped + page_off) src copied chunk) ≫= fun _ =>
          copy_loop n' pd user_va src size (copied + chunk)
    end.
Definition copy_to_user_space (pd user_va : Z) (src : list Z) (size : Z) : FST Machine Z :=
  copy_loop (Z.to_nat (size / 4096 + 2)) pd user_va src size 0.

(** The page and the offset of a word, or [None] where the two calls return 0. *)
Definition user_word (pd user_va : Z) : FST Machine (option (Z * Z)) :=
  phys ← resolve_user_phys pd user_va;
  let off := Z.land phys 0xFFF in
  mret (if (phys =? 0) || (4092 <? off) then None else Some (Z.land phys USER_PAGE_MASK, off)).

Definition read_user_u32 (pd user_va : Z) : FST Machine (option Z) :=
  w ← user_word pd user_va;
  match w with
  | None => mret None
  | Some (page, off) => v ← with_temp_page page (fun mapped => rd32 (mapped + off)); mret (Some v)
  end.

Definition write_user_u32 (pd user_va value : Z) : FST Machine Z :=
  w ← user_word pd user_va;
  match w with
  | None => mret 0
  | Some (page, off) => with_temp_page page (fun mapped => wr32 (mapped + off) value) ≫= fun _ => mret 1
  end.

Definition is_user_va (va : Z) : bool := (USER_VADDR_MIN <=? va) && (va <=? USER_VADDR_MAX).

(** The operations of the code.  A relocation may store to any present address, the
    kernel's memory among them.  With [guarded], such a store outside of the user range
    is a fault: a model that keeps objects of the kernel apart from the memory of the
    machine does not say what the kernel does after it. *)
Definition KernelMem (guarded : bool) : UserMem Machine := {|
  um_map_zeroed := map_zeroed_page;
  um_copy := copy_to_user_space;
  um_read := read_user_u32;
  um_write := fun pd va value => if guarded && negb (is_user_va va) then fault else write_user_u32 pd va value;
  um_mapped := fun pd va => r ← resolve_user_phys pd va; mret (negb (r =? 0))
|}.
End Kernel.

(** ** The structures of an image *)

Record Elf32_Ehdr := {
  e_type : Z; e_machine : Z; e_entry : Z; e_phoff : Z; e_shoff : Z; e_phentsize : Z; e_phnum : Z; e_shentsize : Z; e_shnum : Z
}.
Record Elf32_Phdr := { p_type : Z; p_offset : Z; p_vaddr : Z; p_filesz : Z; p_memsz : Z; p_align : Z }.

Section Headers.
Context {S : Type} (image : list Z).

Definition read_ehdr : FST S Elf32_Ehdr :=
  ty ← field16 image 16; ma ← field16 image 18; en ← field32 image 24; ph ← field32 image 28; sh ← field32 image 32;
  pes ← field16 image 42; pn ← field16 image 44; ses ← field16 image 46; sn ← field16 image 48;
  mret {| e_type := ty; e_machine := ma; e_entry := en; e_phoff := ph; e_shoff := sh; e_phentsize := pes; e_phnum := pn;
          e_shentsize := ses; e_shnum := sn |}.

(** [image + eh->e_phoff + i * sizeof(Elf32_Phdr)]. *)
Definition read_phdr (eh : Elf32_Ehdr) (i : Z) : FST S Elf32_Phdr :=
  let o := e_phoff eh + i * sizeof_Phdr in
  ty ← field32 image o; off ← field32 image (o + 4); va ← field32 image (o + 8); fs ← field32 image (o + 16);
  ms ← field32 image (o + 20); al ← field32 image (o + 28);
  mret {| p_type := ty; p_offset := off; p_vaddr := va; p_filesz := fs; p_memsz := ms; p_align := al |}.
End Headers.

(** A segment that takes memory. *)
Definition loadable (ph : Elf32_Phdr) : bool := (p_type ph =? PT_LOAD) && negb (p_memsz ph =? 0).

(** ** The loader *)

Section Loading.
Context {M : Type} `{UserMem M}.
(** The tables of the module loader, for symbols a program imports, and the clock. *)
Context (modules : Loader) (now_ticks : Z).

(** The loop of [map_user_range]. *)
Fixpoint map_range_loop (n : nat) (pd va last : Z) : FST M Z :=
  if va <=? last then
    match n with
    | O => fault
    | S n' =>
        ok ← um_map_zeroed pd va;
        if ok =? 0 then mret 0 else map_range_loop n' pd (va +u 4096) last
    end
  else mret 1.
Definition map_user_range (pd start size : Z) : FST M Z :=
  let first := Z.land start 0xFFFFF000 in
  let last := Z.land (start +u size -u 1) 0xFFFFF000 in
  if size =? 0 then mret 0 else map_range_loop (Z.to_nat ((last - first) / 4096 + 1)) pd first last.

(** *** Relocations *)

(** [module_resolve_symbol_global], which reads the tables of the loader only. *)
Definition resolve_symbol (name : list Z) : FST M (option Z) := fun s =>
  match module_resolve_symbol_global (Some name) modules with Done _ r => Done s r | Fault _ => Fault s end.

(** One relocation at the offset [o] of the image; the result false is a return of 0. *)
Definition apply_user_reloc (image : list Z) (pd load_bias sh_addr : Z) (sym_sec str_sec : Elf32_Shdr) (is_rela : bool) (o : Z)
    : FST M bool :=
  r_offset ← field32 image o; r_info ← field32 image (o + 4);
  explicit ← (if is_rela then field32 image (o + 8) else mret 0);
  let sym_idx := Z.shiftr r_info 8 in
  let rel_type := Z.land r_info 0xFF in
  if sh_addr +u r_offset <? sh_addr then mret false
  else
    let place := sh_addr +u load_bias +u r_offset in
    addend ← (if is_rela then mret (Some explicit) else um_read pd place);
    match addend with
    | None => mret false
    | Some addend =>
        if sh_size sym_sec / sizeof_Sym <=? sym_idx then mret false
        else
          sym ← read_sym image (sh_offset sym_sec + sizeof_Sym * sym_idx);
          sym_value ←
            (if st_shndx sym =? SHN_UNDEF then
               if sh_size str_sec <=? st_name sym then mret None
               else resolve_symbol (at_ image (sh_offset str_sec + st_name sym))
             else mret (Some (st_value sym +u load_bias)));
          match sym_value with
          | None => mret false
          | Some sym_value =>
              match reloc_value rel_type addend sym_value place load_bias with
              | None => mret false
              | Some None => mret true
              | Some (Some v) => ok ← um_write pd place (u32 v); mret (negb (ok =? 0))
              end
          end
    end.

(** Whether a section holds relocations, and whether these have an addend. *)
Definition rel_kind (sec : Elf32_Shdr) : option bool :=
  if (sh_type sec =? SHT_REL) && (sh_entsize sec =? sizeof_Rel) then Some false
  else if (sh_type sec =? SHT_RELA) && (sh_entsize sec =? sizeof_Rela) then Some true
  else None.

(** The sections [rel_sec] refers to, after the checks on them. *)
Definition rel_sections (image : list Z) (size : Z) (eh : Elf32_Ehdr) (rel_sec : Elf32_Shdr) : FST M (option (Elf32_Shdr * Elf32_Shdr)) :=
  if (e_shnum eh <=? sh_info rel_sec) || (e_shnum eh <=? sh_link rel_sec) then mret None
  else if size <? sh_offset rel_sec +u sh_size rel_sec then mret None
  else
    sym_sec ← read_section image (e_shoff eh) (sh_link rel_sec);
    if negb (sh_type sym_sec =? SHT_SYMTAB) || negb (sh_entsize sym_sec =? sizeof_Sym) then mret None
    else if e_shnum eh <=? sh_link sym_sec then mret None
    else
      str_sec ← read_section image (e_shoff eh) (sh_link sym_sec);
      if negb (sh_type str_sec =? SHT_STRTAB) then mret None
      else if (size <? sh_offset sym_sec +u sh_size sym_sec) || (size <? sh_offset str_sec +u sh_size str_sec) then mret None
      else mret (Some (sym_sec, str_sec)).

(** The relocations of section [i]; [Some tt] is a return of 0. *)
Definition apply_rel_section (image : list Z) (size : Z) (eh : Elf32_Ehdr) (pd load_bias i : Z) : FST M (option unit) :=
  rel_sec ← read_section image (e_shoff eh) i;
  if (sh_type rel_sec =? 0) || (sh_size rel_sec =? 0) then mret None
  else
    match rel_kind rel_sec with
    | None => mret None
    | Some is_rela =>
        secs ← rel_sections image size eh rel_sec;
        match secs with
        | None => mret (Some tt)
        | Some (sym_sec, str_sec) =>
            sh_addr ← field32 image (u32 (e_shoff eh + sizeof_Shdr * sh_info rel_sec) + 12);
            loop (fun r =>
              ok ← apply_user_reloc image pd load_bias sh_addr sym_sec str_sec is_rela (sh_offset rel_sec + r * sh_entsize rel_sec);
              mret (if ok : bool then None else Some tt)) 0 (Z.to_nat (sh_size rel_sec / sh_entsize rel_sec))
        end
    end.

Definition apply_elf_relocations (image : list Z) (size : Z) (eh : Elf32_Ehdr) (pd load_bias : Z) : FST M Z :=
  if (e_shoff eh =? 0) || (e_shnum eh =? 0) || negb (e_shentsize eh =? sizeof_Shdr) then mret 1
  else if size <? e_shoff eh +u e_shnum eh *u sizeof_Shdr then mret 0
  else
    failed ← loop (apply_rel_section image size eh pd load_bias) 0 (Z.to_nat (e_shnum eh));
    mret (match failed with Some _ => 0 | None => 1 end).

(** *** Images *)

Definition load_flat_image (image : list Z) (size pd : Z) : FST M (option Z) :=
  if (size =? 0) || (4096 <? size) then mret None
  else
    ok ← um_map_zeroed pd USER_VA_CODE;
    if ok =? 0 then mret None
    else
      ok ← um_copy pd USER_VA_CODE image size;
      mret (if ok =? 0 then None else Some USER_VA_CODE).

(** The lowest address and the highest end of the segments. *)
Fixpoint dyn_range (image : list Z) (eh : Elf32_Ehdr) (i : Z) (n : nat) (low high : Z) : FST M (Z * Z) :=
  match n with
  | O => mret (low, high)
  | S n' =>
      ph ← read_phdr image eh i;
      if loadable ph then
        let seg_end := p_vaddr ph +u p_memsz ph in
        dyn_range image eh (i + 1) n' (if p_vaddr ph <? low then p_vaddr ph else low) (if high <? seg_end then seg_end else high)
      else dyn_range image eh (i + 1) n' low high
  end.

(** Where a position-independent image goes: the difference to its own addresses. *)
Definition dyn_bias (image : list Z) (eh : Elf32_Ehdr) : FST M (option Z) :=
  '(dyn_low, dyn_high) ← dyn_range image eh 0 (Z.to_nat (e_phnum eh)) 0xFFFFFFFF 0;
  if (dyn_low =? 0xFFFFFFFF) || (dyn_high <=? dyn_low) then mret None
  else
    let low_page := Z.land dyn_low USER_PAGE_MASK in
    let span := dyn_high -u low_page in
    let base := USER_VA_CODE + Z.land now_ticks 0x1F * 0x1000 in
    mret (Some ((if is_user_range base span then base else USER_VA_CODE) -u low_page)).

(** Segment [i]; [Some tt] is a return of 0. *)
Definition load_user_segment (image : list Z) (size pd : Z) (eh : Elf32_Ehdr) (load_bias i : Z) : FST M (option unit) :=
  ph ← read_phdr image eh i;
  if negb (loadable ph) then mret None
  else if negb (p_align ph =? 0) && negb (Z.land (p_align ph) (p_align ph - 1) =? 0) then mret (Some tt)
  else if (1 <? p_align ph) && negb (Z.land (p_offset ph) (p_align ph - 1) =? Z.land (p_vaddr ph) (p_align ph - 1)) then mret (Some tt)
  else if p_vaddr ph +u p_memsz ph <? p_vaddr ph then mret (Some tt)
  else if negb (is_user_range (p_vaddr ph +u load_bias) (p_memsz ph)) then mret (Some tt)
  else if size <? p_offset ph +u p_filesz ph then mret (Some tt)
  else if p_memsz ph <? p_filesz ph then mret (Some tt)
  else
    ok ← map_user_range pd (p_vaddr ph +u load_bias) (p_memsz ph);
    if ok =? 0 then mret (Some tt)
    else if 0 <? p_filesz ph then
      ok ← um_copy pd (p_vaddr ph +u load_bias) (at_ image (p_offset ph)) (p_filesz ph);
      mret (if ok =? 0 then Some tt else None)
    else mret None.

(** The magic number of ELF. *)
Definition elf_magic (image : list Z) : FST M bool :=
  a ← rd image 0;
  if negb (a =? 0x7F) then mret false
  else b ← rd image 1; if negb (b =? 69) then mret false
  else c ← rd image 2; if negb (c =? 76) then mret false
  else d ← rd image 3; mret (d =? 70).

Definition load_elf32_image (image : list Z) (size pd : Z) : FST M (option Z) :=
  if size <? sizeof_Ehdr then mret None
  else
    magic ← elf_magic image; cls ← (if magic : bool then rd image 4 else mret 0);
    if negb (cls =? 1) then mret None
    else
      eh ← read_ehdr image;
      if negb (e_machine eh =? 3) then mret None
      else if negb (e_type eh =? ET_EXEC) && negb (e_type eh =? ET_DYN) then mret None
      else if negb (e_phentsize eh =? sizeof_Phdr) then mret None
      else if size <? e_phoff eh +u e_phnum eh *u sizeof_Phdr then mret None
      else
        bias ← (if e_type eh =? ET_DYN then dyn_bias image eh else mret (Some 0));
        match bias with
        | None => mret None
        | Some load_bias =>
            failed ← loop (load_user_segment image size pd eh load_bias) 0 (Z.to_nat (e_phnum eh));
            match failed with
            | Some _ => mret None
            | None =>
                ok ← apply_elf_relocations image size eh pd load_bias;
                if ok =? 0 then mret None
                else
                  let entry := e_entry eh +u load_bias in
                  if negb (is_user_range entry 1) then mret None
                  else mapped ← um_mapped pd entry; mret (if mapped : bool then Some entry else None)
            end
        end.

(** The stack page, with the page below it not mapped. *)
Definition setup_user_stack (pd : Z) : FST M Z :=
  ok ← um_map_zeroed pd (USER_VA_STACK_TOP - 4096);
  if ok =? 0 then mret 0
  else guard ← um_mapped pd (USER_VA_STACK_TOP - 8192); mret (if guard : bool then 0 else 1).

(** The stack and the image in the address space [pd]: the entry point, or [None] where
    [exec_user_image] releases the address space and returns 0. *)
Definition build_user_image (image : list Z) (size pd : Z) : FST M (option Z) :=
  ok ← setup_user_stack pd;
  if ok =? 0 then mret None
  else
    elf ← elf_magic image;
    if elf : bool then load_elf32_image image size pd else load_flat_image image size pd.
End Loading.

(** The part of [exec_user_image] before the user task is replaced: the new address
    space and the entry point. *)
Definition exec_space `{KernelImage} (guarded : bool) (modules : Loader) (now_ticks : Z) (image : list Z) (image_size : Z) : FST Machine (option (Z * Z)) :=
  pd ← create_user_page_directory;
  if pd =? 0 then mret None
  else
    entry ← @build_user_image Machine (KernelMem guarded) modules now_ticks image image_size pd;
    match entry with
    | None => destroy_user_address_space pd ≫= fun _ => mret None
    | Some entry => mret (Some (pd, entry))
    end.

(** ** The world of a program *)

(** The static storage of kernel/usermode.c with the machine, the identities and task
    blocks, the file system and the task count; [g_last_exec_path] is the string in the
    buffer of that name.  The task blocks, identities and tables are records of their
    own beside the machine's memory; the loader therefore runs [guarded] here, and a
    relocation that could overwrite them ends the run in a fault. *)
Record UserWorld (X B : Type) := {
  uw_machine : Machine; uw_posix : Posix (Vfs X B); uw_current_task : Z; uw_task_count : Z; uw_modules : Loader; uw_ticks : Z;
  g_user_page_dir : Z; g_user_entry : Z; g_user_stack_top : Z; g_exec_buffer : list Z; g_last_exec_path : list Z
}.
Arguments Build_UserWorld {X B} _ _ _ _ _ _ _ _ _ _ _.
Arguments uw_machine {X B} _.
Arguments uw_posix {X B} _.
Arguments uw_current_task {X B} _.
Arguments uw_task_count {X B} _.
Arguments uw_modules {X B} _.
Arguments uw_ticks {X B} _.
Arguments g_user_page_dir {X B} _.
Arguments g_user_entry {X B} _.
Arguments g_user_stack_top {X B} _.
Arguments g_exec_buffer {X B} _.
Arguments g_last_exec_path {X B} _.
#[export] Instance UserWorld_fields X B : Fields (UserWorld X B) := fun w =>
  {| uw_machine := uw_machine w; uw_posix := uw_posix w; uw_current_task := uw_current_task w; uw_task_count := uw_task_count w;
     uw_modules := uw_modules w; uw_ticks := uw_ticks w; g_user_page_dir := g_user_page_dir w; g_user_entry := g_user_entry w;
     g_user_stack_top := g_user_stack_top w; g_exec_buffer := g_exec_buffer w; g_last_exec_path := g_last_exec_path w |}.

Section Exec.
Context {X B : Type} `{Backends X B} `{EqDecision B} `{KernelImage}.
(** The address of the function [user_task_entry]. *)
Context (user_task_entry : Z).
#[local] Abbreviation world := (UserWorld X B).

Definition on_machine {A} (m : FST Machine A) : FST world A := fun w =>
  match m (uw_machine w) with
  | Done s a => Done (w <| uw_machine := s |>) a
  | Fault s => Fault (w <| uw_machine := s |>)
  end.
Definition on_posix {A} (m : ST (Posix (Vfs X B)) A) : FST world A := fun w =>
  let '(p, a) := m (uw_posix w) in Done (w <| uw_posix := p |>) a.

(** Words stored one after the other. *)
Fixpoint store_words (ws : list (Z * Z)) : FST Machine unit :=
  match ws with
  | [] => mret tt
  | (a, v) :: ws' => wr32 a v ≫= fun _ => store_words ws'
  end.

(** [create_task] on the tables of the world; it stores its words through the mapping
    of low memory. *)
Definition create_user_task (index func page_dir : Z) : FST world unit := fun w =>
  let t := {| os_tasks := px_tasks (uw_posix w); os_current_task := uw_current_task w; os_task_count := uw_task_count w |} in
  match create_task index func page_dir t (pmm (uw_machine w)) ∅ with
  | None => Fault w
  | Some (t', p, words) =>
      on_machine (store_words (map_to_list words))
        (w <| uw_machine ::= fun s => s <| pmm := p |> |> <| uw_posix ::= fun x => x <| px_tasks := os_tasks t' |> |>
           <| uw_task_count := os_task_count t' |>)
  end.

Definition finalize_user_process (pd entry : Z) : FST world Z :=
  fmod (fun w => w <| g_user_page_dir := pd |> <| g_user_entry := entry |> <| g_user_stack_top := USER_VA_STACK_TOP - 16 |>
    <| uw_posix ::= fun x => x <| px_tasks ::= upd_task 2 (fun t => t <| state := TASK_STATE_TERMINATED |>) |> |>) ≫= fun _ =>
  create_user_task 2 user_task_entry pd ≫= fun _ =>
  w ← fget;
  on_posix (posix_task_init 2 (uw_current_task w)) ≫= fun _ =>
  (match g_last_exec_path w with
   | [] => mret tt
   | p => on_posix (posix_apply_exec_credentials 2 (Some p)) ≫= fun _ => mret tt
   end) ≫= fun _ =>
  mret 1.

Definition exec_user_image (image : list Z) (image_size : Z) : FST world Z :=
  if (image_size =? 0) || (4096 <? image_size) then mret 0
  else
    w ← fget;
    r ← on_machine (exec_space true (uw_modules w) (uw_ticks w) image image_size);
    match r with
    | None => mret 0
    | Some (pd, entry) => finalize_user_process pd entry
    end.

(** [user_program] is the program the linker puts in the kernel image. *)
Definition launch_user_process_task (user_program : list Z) : FST world Z :=
  let code_size := Z.of_nat (length user_program) in
  if (code_size =? 0) || (4096 <? code_size) then mret 0 else exec_user_image user_program code_size.

Definition exec_user_program (path : option (list Z)) : FST world Z :=
  match path with
  | None | Some [] => mret 0
  | Some p =>
      fmod (fun w => w <| g_last_exec_path := take 127 p |>) ≫= fun _ =>
      '(rc, st) ← on_posix (on_vfs (Vfs.vfs_stat path false));
      match st with
      | None => mret 0
      | Some st =>
          if negb (rc =? VFS_OK) || (VfsDefs.st_flags st =? 0) || (VfsDefs.st_size st =? 0) || (4096 <? VfsDefs.st_size st) then mret 0
          else
            '(image_size, bytes) ← on_posix (on_vfs (Vfs.vfs_read_file path 4096));
            fmod (fun w => w <| g_exec_buffer ::= splice 0 bytes |>) ≫= fun _ =>
            if (image_size <=? 0) || negb (image_size =? VfsDefs.st_size st) then mret 0
            else w ← fget; exec_user_image (g_exec_buffer w) image_size
      end
  end.
End Exec.
