(* ===== verification/UserFrames.v ===== *)
(** * User programs: pages

    What the operations of kernel/usermode.c on single pages do: the accesses through
    the temporary mapping, and a page mapped where another one may be. *)
From S2P Require Import Prelude Bytes Pmm Fault Memory Paging Spaces SpaceOps SpaceCalls SpaceClone SpaceCopy AddressSpaces Buffers Usermode.

Section Frames.
Context `{KL : KernelLayout}.
Implicit Types (R : roles) (s : Machine) (m : gmap Z Z) (U : gset Z).

(** ** Changes inside a page of data *)

Lemma data_page_change U R s f m' : spaces U R s -> data_page U R f -> outside f (phys s) m' ->
  same_tables R (phys s) m' /\ spaces U R (set_phys m' s).
Proof.
  intros HS Hf Hout. pose proof (sp_inv _ _ _ HS) as HI. destruct (data_page_facts U R s f HS Hf) as [Hfp Hne].
  assert (same_tables R (phys s) m') as Hst.
  { intros q i Hq Hi. destruct (structural_page R s q HI Hq) as (Hqp & _). by apply (outside_ent f); auto. }
  split; [done|]. apply (spaces_same U R s); [done|by apply inv_memory|done|by apply (window_same R s)].
Qed.

(** The temporary mapping shows the page [f], whatever is written to it. *)
Definition shows (f : Z) t : Prop := forall m' b, outside f (phys t) m' -> 0 <= b < 4096 ->
  translate (set_phys m' t) (KERNEL_TEMP_MAP_VA + b) = Some (f + b).
Definition shows_nothing t : Prop := forall b, 0 <= b < 4096 -> translate t (KERNEL_TEMP_MAP_VA + b) = None.

Lemma window_shows U R t f : spaces U R t -> window_open t -> data_page U R f ->
  window_entry t KERNEL_TEMP_MAP_VA = Z.lor f 3 ->
  shows f t \/ (shows_nothing t /\ copy_fault t).
Proof.
  intros HS Ho Hf He. destruct temp_vas as (Hv1 & Hw1 & _). pose proof (sp_inv _ _ _ HS) as HI.
  destruct (window_ready_dec U R t HS Ho) as [Hr|Ha]; [left|right].
  2: { split; [|by right]. intros b Hb. apply translate_no_window; try done. by apply (inv_low R). }
  intros m' b Hout Hb. destruct (data_page_change U R t f m' HS Hf Hout) as [Hsame HS'].
  destruct (data_page_facts U R t f HS Hf) as [Hfp _].
  destruct (window_page U R t HS Ho) as (Hwp & _ & _ & _ & Hwd).
  assert (window m' = window (phys t)) as Hwin by (by apply (window_same R t)).
  assert (structural R (cr3 t)) as Hcs by (destruct (si_cr3 _ _ HI) as [->|?]; [by left|by apply structural_dir]).
  apply translate_window; try done; [by apply (inv_low R), HS'| |].
  - unfold window_ready in *. simpl. rewrite Hwin, (Hsame (cr3 t) WINDOW Hcs); [done|unfold WINDOW; lia].
  - rewrite <- He. unfold window_entry. simpl. rewrite Hwin. apply (outside_ent f); [done..| |apply pt_index_range].
    intros E. by apply (Hwd f).
Qed.

(** Accesses to a page: [body] works on the temporary mapping and changes only [f]. *)
Lemma with_temp_page_spec {A} U R s f (body : Z -> FST Machine A) (Q : gmap Z Z -> A -> Prop) :
  spaces U R s -> data_page U R f ->
  (forall t, kept U R s t -> shows f t -> wpf never (body KERNEL_TEMP_MAP_VA) (fun t' a =>
     exists m', t' = set_phys m' t /\ outside f (phys t) m' /\ Q m' a) t) ->
  (forall t, shows_nothing t -> body KERNEL_TEMP_MAP_VA t = Fault t) ->
  (forall m m' a, (forall b, f <= b < f + 4096 -> load8 m' b = load8 m b) -> Q m a -> Q m' a) ->
  wpf copy_fault (with_temp_page f body) (fun s' a => spaces U R s' /\ cr3 s' = cr3 s /\
    (forall p b, data_page U R p -> p <> f -> p <= b < p + 4096 -> load8 (phys s') b = load8 (phys s) b) /\
    Q (phys s') a) s.
Proof.
  intros HS Hf Hbody Hnone Hext. destruct temp_vas as (Hv1 & Hw1 & _). unfold with_temp_page.
  destruct (data_page_facts U R s f HS Hf) as [Hfp _].
  eapply wpf_seq; [eapply wpf_fault; [by apply (map_window_spec U R)|by left]|]. intros s1 _ [HS1 Hk1 Hc1 Ho1 He1 _].
  destruct (window_shows U R s1 f HS1 Ho1 Hf He1) as [Hshow|[Hno Hfault]].
  2: { apply wpf_bind. unfold wpf. by rewrite Hnone. }
  eapply wpf_seq; [eapply wpf_fault; [by apply Hbody|done]|]. intros s2 a (m' & -> & Hout & HQ).
  destruct (data_page_change U R s1 f m' HS1 Hf Hout) as [Hsame HS2].
  assert (window_open (set_phys m' s1)) as Ho2.
  { unfold window_open. simpl. rewrite (window_same R s1 m' Hsame).
    rewrite (Hsame page_directory WINDOW (structural_kpd R)) by (unfold WINDOW; lia). done. }
  destruct (unmap_window_spec U R _ KERNEL_TEMP_MAP_VA HS2 Ho2 Hw1) as (s3 & E3 & HS3 & _ & Hk3 & Hc3).
  eapply wpf_step; [exact E3|]. apply wpf_ret. split_and!; [done|by rewrite Hc3| |].
  - intros p b Hp Hpf Hb. rewrite (Hk3 p b) by done. simpl. destruct (data_page_facts U R s p HS Hp) as [Hpp _].
    pose proof (page_apart p f Hpp Hfp Hpf). rewrite Hout, (Hk1 p b) by (done || lia). done.
  - eapply Hext; [|exact HQ]. intros b Hb. by rewrite (Hk3 f b).
Qed.

(** Bytes stored one after another from offset [off]. *)
Definition stored (f off : Z) (n : nat) (g : Z -> Z) m m' : Prop :=
  outside f m m' /\ forall b, 0 <= b < 4096 -> load8 m' (f + b) =
    if (off <=? b) && (b <? off + Z.of_nat n) then u8 (g (b - off)) else load8 m (f + b).

Lemma store_bytes_spec t f off n (g : Z -> Z) (body : Z -> FST Machine unit) :
  0 <= off -> off + Z.of_nat n <= 4096 -> shows f t ->
  (forall i t', 0 <= i < Z.of_nat n -> body i t' = wr8 (KERNEL_TEMP_MAP_VA + (off + i)) (g i) t') ->
  wpf never (each body 0 n) (fun t' _ => exists m', t' = set_phys m' t /\ stored f off n g (phys t) m') t.
Proof.
  intros Ho Hn Hs Hbody. unfold stored. eapply wpf_mono; [apply (wpf_each _ _ (fun i t' => exists m', t' = set_phys m' t /\ outside f (phys t) m' /\
       forall b, 0 <= b < 4096 -> load8 m' (f + b) =
         if (off <=? b) && (b <? off + i) then u8 (g (b - off)) else load8 (phys t) (f + b)))|].
  - exists (phys t). split_and!; [by destruct t|done|]. intros b Hb.
    destruct (Z.leb_spec off b), (Z.ltb_spec b (off + 0)); try done; lia.
  - intros i t' Hi (m' & -> & Hout & Hb). rewrite Z.add_0_l in Hi. unfold wpf. rewrite Hbody by lia. unfold wr8, access.
    rewrite (Hs m' (off + i) Hout) by lia. simpl. eexists. split_and!; [done| |].
    + intros b Hb'. rewrite load8_store8. destruct (Z.eqb_spec (f + (off + i)) b); [lia|]. by apply Hout.
    + intros b Hb'. rewrite load8_store8. rewrite Hb by done.
      destruct (Z.eqb_spec (f + (off + i)) (f + b)) as [E|].
      * assert (b = off + i) as -> by lia.
        destruct (Z.leb_spec off (off + i)), (Z.ltb_spec (off + i) (off + (i + 1))); try lia. cbn [andb].
        do 2 f_equal. lia.
      * destruct (Z.leb_spec off b), (Z.ltb_spec b (off + i)), (Z.ltb_spec b (off + (i + 1))); try done; lia.
  - intros t' _ (m' & ? & ? & Hb). exists m'. done.
Qed.

(** What is known of the memory after an access to the page [f] of data. *)
Definition temp_changed U R s f s' : Prop :=
  spaces U R s' /\ cr3 s' = cr3 s /\
  forall p b, data_page U R p -> p <> f -> p <= b < p + 4096 -> load8 (phys s') b = load8 (phys s) b.

Lemma temp_store_spec U R s f off n g (body : Z -> Z -> FST Machine unit) :
  spaces U R s -> data_page U R f -> 0 <= off -> off + Z.of_nat n <= 4096 -> n <> O ->
  (forall i t', 0 <= i < Z.of_nat n -> body KERNEL_TEMP_MAP_VA i t' = wr8 (KERNEL_TEMP_MAP_VA + (off + i)) (g i) t') ->
  wpf copy_fault (with_temp_page f (fun mapped => each (body mapped) 0 n)) (fun s' _ => temp_changed U R s f s' /\
    forall b, 0 <= b < 4096 -> load8 (phys s') (f + b) =
      if (off <=? b) && (b <? off + Z.of_nat n) then u8 (g (b - off)) else load8 (phys s) (f + b)) s.
Proof.
  intros HS Hf Ho Hn Hn0 Hbody.
  eapply wpf_mono; [apply (with_temp_page_spec U R s f _ (fun m' (_ : unit) => forall b, 0 <= b < 4096 -> load8 m' (f + b) =
      if (off <=? b) && (b <? off + Z.of_nat n) then u8 (g (b - off)) else load8 (phys s) (f + b)))|]; try done.
  - intros t Hk Hs. eapply wpf_mono; [by apply (store_bytes_spec t f off n g)|].
    intros t' [] (m' & -> & Hout & Hb). exists m'. split_and!; [done|done|]. intros b Hb'. rewrite Hb by done.
    by rewrite (Hk f (f + b)) by (done || lia).
  - intros t Hnone. destruct n as [|n]; [done|]. cbn [each]. unfold mbind, FST_bind. rewrite Hbody by lia.
    unfold wr8, access. rewrite Z.add_0_r, Hnone by lia. done.
  - intros m m' [] Hext HQ b Hb. rewrite Hext by lia. by apply HQ.
  - intros s' [] (? & ? & ? & ?). done.
Qed.

Lemma zero_page_spec U R s f : spaces U R s -> data_page U R f ->
  wpf copy_fault (mem_zero_phys_page f) (fun s' _ => temp_changed U R s f s' /\
    forall b, 0 <= b < 4096 -> load8 (phys s') (f + b) = 0) s.
Proof.
  intros HS Hf. unfold mem_zero_phys_page. destruct (data_page_facts U R s f HS Hf) as [Hfp _].
  change USER_PAGE_MASK with PAGE_MASK. rewrite page_mask by done.
  eapply wpf_mono; [apply (temp_store_spec U R s f 0 4096 (fun _ => 0) (fun mapped i => wr8 (mapped + i) 0)); try done; lia|].
  intros s' [] [Hc Hb]. split; [done|]. intros b Hb'. rewrite Hb by done.
  destruct (Z.leb_spec 0 b), (Z.ltb_spec b (0 + Z.of_nat 4096)); try lia. done.
Qed.

Lemma copy_chunk_spec U R s f off src from size : spaces U R s -> data_page U R f ->
  0 <= off -> 0 < size -> off + size <= 4096 -> 0 <= from -> from + size <= Z.of_nat (length src) ->
  wpf copy_fault (with_temp_page f (fun mapped => mem_copy (mapped + off) src from size)) (fun s' _ => temp_changed U R s f s' /\
    forall b, 0 <= b < 4096 -> load8 (phys s') (f + b) =
      if (off <=? b) && (b <? off + size) then u8 src.[from + (b - off)] else load8 (phys s) (f + b)) s.
Proof.
  intros HS Hf Ho Hs0 Hs Hfr Hl. unfold mem_copy.
  eapply wpf_mono; [apply (temp_store_spec U R s f off (Z.to_nat size) (fun i => src.[from + i])
    (fun mapped i => b ← rd src (from + i); wr8 (mapped + off + i) b)); try done; [lia|lia|]|].
  - intros i t' Hi. unfold mbind, FST_bind, rd.
    destruct (Z.leb_spec 0 (from + i)), (Z.ltb_spec (from + i) (Z.of_nat (length src))); try lia. cbn [andb].
    by rewrite <- Z.add_assoc.
  - intros s' [] [Hc Hb]. split; [done|]. intros b Hb'. rewrite Hb by done. rewrite Z2Nat.id by lia. done.
Qed.

(** *** Words *)

Lemma load8_store32_byte m a v i : 0 <= i < 4 -> load8 (store32 m a v) (a + i) = (le_bytes 4 v).[i].
Proof.
  #[local] Transparent store32 load8 store8.
  intros Hi. unfold store32. cbn -[Z.div Z.modulo load8 store8]. rewrite !load8_store8.
  assert (i = 0 \/ i = 1 \/ i = 2 \/ i = 3) as [-> | [-> | [-> | ->]]] by lia;
    repeat match goal with |- context [?x =? ?y] => destruct (Z.eqb_spec x y); try lia end;
    rewrite u8_small by (apply Z.mod_pos_bound; lia); done.
  #[local] Opaque store32 load8 store8.
Qed.

Lemma load32_bytes m a : load32 m a = le_val [load8 m a; load8 m (a + 1); load8 m (a + 2); load8 m (a + 3)].
Proof. #[local] Transparent load32. done. #[local] Opaque load32. Qed.

Lemma read_word_spec U R s f off : spaces U R s -> data_page U R f -> 0 <= off <= 4092 ->
  wpf copy_fault (with_temp_page f (fun mapped => rd32 (mapped + off)))
    (fun s' v => temp_changed U R s f s' /\ (forall b, 0 <= b < 4096 -> load8 (phys s') (f + b) = load8 (phys s) (f + b)) /\
       v = load32 (phys s) (f + off)) s.
Proof.
  intros HS Hf Ho.
  eapply wpf_mono; [apply (with_temp_page_spec U R s f _ (fun m' v => (forall b, 0 <= b < 4096 -> load8 m' (f + b) = load8 (phys s) (f + b)) /\
     v = load32 (phys s) (f + off)))|]; try done.
  - intros t Hk Hs. unfold wpf, rd32, access. pose proof (Hs (phys t) off ltac:(done) ltac:(lia)) as E.
    assert (set_phys (phys t) t = t) as Et by (by destruct t). rewrite Et in E. rewrite E.
    exists (phys t). split_and!; [done|done| |].
    + intros b Hb. apply (Hk f); [done|lia].
    + apply load32_ext. intros b Hb. apply (Hk f); [done|lia].
  - intros t Hnone. unfold rd32, access. rewrite Hnone by lia. done.
  - intros m m' a Hext [HQ ->]. split; [|done]. intros b Hb. rewrite Hext by lia. by apply HQ.
  - intros s' a (? & ? & ? & ? & ?). done.
Qed.

Lemma write_word_spec U R s f off v : spaces U R s -> data_page U R f -> 0 <= off <= 4092 ->
  wpf copy_fault (with_temp_page f (fun mapped => wr32 (mapped + off) v))
    (fun s' _ => temp_changed U R s f s' /\ forall b, 0 <= b < 4096 -> load8 (phys s') (f + b) =
       if (off <=? b) && (b <? off + 4) then (le_bytes 4 v).[b - off] else load8 (phys s) (f + b)) s.
Proof.
  intros HS Hf Ho.
  eapply wpf_mono; [apply (with_temp_page_spec U R s f _ (fun m' (_ : unit) => forall b, 0 <= b < 4096 -> load8 m' (f + b) =
       if (off <=? b) && (b <? off + 4) then (le_bytes 4 v).[b - off] else load8 (phys s) (f + b)))|]; try done.
  - intros t Hk Hs. unfold wpf, wr32, access. pose proof (Hs (phys t) off ltac:(done) ltac:(lia)) as E.
    assert (set_phys (phys t) t = t) as Et by (by destruct t). rewrite Et in E. rewrite E.
    exists (store32 (phys t) (f + off) v). split_and!; [done| |].
    + intros b Hb. apply load8_store32_other. lia.
    + intros b Hb. destruct (Z.leb_spec off b), (Z.ltb_spec b (off + 4)); cbn [andb].
      * replace (f + b) with (f + off + (b - off)) by lia. apply load8_store32_byte. lia.
      * rewrite load8_store32_other by lia. apply (Hk f); [done|lia].
      * rewrite load8_store32_other by lia. apply (Hk f); [done|lia].
      * rewrite load8_store32_other by lia. apply (Hk f); [done|lia].
  - intros t Hnone. unfold wr32, access. rewrite Hnone by lia. done.
  - intros m m' [] Hext HQ b Hb. rewrite Hext by lia. by apply HQ.
  - intros s' [] (? & ? & ? & ?). done.
Qed.

(** ** A page mapped where another one is *)

Lemma remap_frame R s t d i j p f w e : space_inv R s -> R !! t = Some (RTab d i) -> 0 <= j < 1024 ->
  R !! f = Some (RFrame d (1024 * i + j) w) -> fresh R s p -> 0 <= e < 2 ^ 32 -> user_entry e p true ->
  space_inv (<[p := RFrame d (1024 * i + j) true]> (delete f R)) (set_phys (store32 (phys s) (t + 4 * j) e) s).
Proof.
  intros HI Ht Hj Hf Hfr Hu He. pose proof Hfr as (_ & Hn & _).
  assert (forall q w'', R !! q = Some (RFrame d (1024 * i + j) w'') -> q = f) as Honly.
  { intros q w'' Hq. pose proof (frame_entry R s t d i j q w'' HI Ht Hj Hq) as Hent'.
    pose proof (frame_entry R s t d i j f w HI Ht Hj Hf) as Hent. by destruct (user_entry_fun _ _ _ _ _ Hent Hent'). }
  assert (forall q r, R !! q = Some r -> q <> f -> <[p := RFrame d (1024 * i + j) true]> (delete f R) !! q = Some r) as Hkeep.
  { intros q r Hq Hqf. rewrite lookup_insert_ne by congruence. by rewrite lookup_delete_ne. }
  apply (inv_commit R); try done.
  - by eapply structural_tab.
  - congruence.
  - intros q r [[<- <-]|[? Hq]]%lookup_insert_Some; [by right|]. apply lookup_delete_Some in Hq as [? Hq]. left. congruence.
  - intros q Hq. apply Hkeep; [done|congruence].
  - apply (frame_slot_roles R _ s t d i j e); try done.
    + intros q r [[<- <-]|[? Hq]]%lookup_insert_Some; [right; eauto|]. apply lookup_delete_Some in Hq as [Hqf Hq]. left.
      split; [done|]. intros w'' ->. by apply Honly in Hq.
    + intros q r Hq. destruct (decide (q = f)) as [->|]; [right; rewrite Hf in Hq; injection Hq as <-; eauto|left].
      by apply Hkeep.
    + right. exists p, true. split; [done|]. by rewrite lookup_insert_eq.
Qed.

(** The page that was there before belongs to nothing any more, but stays in use. *)
Lemma spaces_swap U R s s' p f r r' : spaces (U ∪ {[p]}) R s -> p ∉ U -> R !! f = Some r ->
  space_inv (<[p := r']> (delete f R)) s' -> pmm s' = pmm s -> window (phys s') = window (phys s) ->
  spaces (U ∪ {[f]}) (<[p := r']> (delete f R)) s'.
Proof.
  intros HS HpU Hf HI Hp Hw. pose proof (sp_inv _ _ _ HS) as HI0.
  assert (p <> f) as Hpf. { intros ->. destruct (sp_fresh _ _ _ HS f) as (_ & Hn & _); [set_solver|congruence]. }
  assert (f <> window (phys s)) as Hfw.
  { intros ->. destruct (si_window _ _ HI0) as [[_ Hz]|[_ [Hz|(_ & _ & Hz)]]]; [| |congruence];
      pose proof (si_taken _ _ HI0 _ _ Hf) as (_ & ? & _); destruct layout_end; lia. }
  constructor; [done| |].
  - intros q Hq. rewrite Hp, Hw, (sp_accounted _ _ _ HS q Hq).
    destruct (decide (q * PAGE_SIZE = p)) as [<-|Hne].
    { rewrite lookup_insert_eq. split; intros _; [by right; left|do 3 right; set_solver]. }
    rewrite lookup_insert_ne by done. destruct (decide (q * PAGE_SIZE = f)) as [<-|Hnf].
    { rewrite Hf. split; intros _; [do 3 right; set_solver|by right; left]. }
    rewrite lookup_delete_ne by done.
    assert (q * PAGE_SIZE ∈ U ∪ {[p]} <-> q * PAGE_SIZE ∈ U ∪ {[f]}) as -> by set_solver. done.
  - intros q Hq. destruct (decide (q = f)) as [->|Hqf].
    + split_and!; [unfold taken; rewrite Hp; by apply (si_taken _ _ HI0 f r)| |by rewrite Hw].
      by rewrite lookup_insert_ne, lookup_delete_eq.
    + destruct (sp_fresh _ _ _ HS q) as (Htk & Hn & Hnw); [set_solver|].
      split_and!; [unfold taken; by rewrite Hp| |by rewrite Hw].
      rewrite lookup_insert_ne by (intros <-; set_solver). by rewrite lookup_delete_ne.
Qed.

Lemma remap_user_page_spec U R s d p va f w : spaces (U ∪ {[p]}) R s -> p ∉ U -> R !! d = Some RDir -> user_va va ->
  R !! f = Some (RFrame d (vpn va) w) ->
  wpf low_full (map_user_page d p va) (fun s' r => kept (U ∪ {[p]}) R s s' /\
    ((r = 0 /\ spaces (U ∪ {[p]}) R s') \/
     (r = 1 /\ exists R', spaces (U ∪ {[f]}) R' s' /\ abs R' = <[p := RFrame d (vpn va) true]> (delete f (abs R))))) s.
Proof.
  intros HS HpU Hd Hva Hf. pose proof (sp_inv _ _ _ HS) as HI. pose proof (pt_index_range va) as Hj.
  destruct (dir_nonzero R s d HI Hd) as [Hdp Hd0]. unfold map_user_page. rewrite page_mask, Hd0 by done.
  eapply wpf_seq; [apply (user_table_spec (U ∪ {[p]}) R); [done|done|by apply user_pd_index]|].
  intros s1 [t|] [Hk Ho]; [|apply wpf_ret; split; [done|left]; split; [done|apply Ho]].
  destruct Ho as (R1 & HS1 & Habs & Hsub & Ht). pose proof (sp_inv _ _ _ HS1) as HI1.
  assert (fresh R1 s1 p) as Hfp by (apply (sp_fresh _ _ _ HS1); set_solver).
  assert (R1 !! f = Some (RFrame d (vpn va) w)) as Hf1 by (by eapply lookup_weaken).
  eapply wpf_step; [apply (wr32_struct R1); [done|by eapply structural_tab|done]|].
  apply wpf_ret. pose proof Hfp as ((Hpg & _) & Hnone & _). rewrite page_mask by done. split.
  - eapply data_kept_trans; [done|eapply store_kept; [exact HS1|by eapply structural_tab|done]|].
    intros q [Hq|(d' & v & w' & Hq)]; [by left|right]. exists d', v, w'. by eapply lookup_weaken.
  - right. split; [done|]. exists (<[p := RFrame d (vpn va) true]> (delete f R1)).
    split; [|by rewrite abs_insert, abs_delete, Habs].
    assert (0 <= Z.lor p USER_ENTRY < 2 ^ 32) as Hu by (by apply entry_range).
    apply (spaces_swap U R1 s1 _ p f (RFrame d (vpn va) w)); [done|done|done| |done|].
    + rewrite vpn_index. apply (remap_frame R1 s1 t d (pd_index va) (pt_index va) p f w); try done.
      * by rewrite <- vpn_index.
      * rewrite <- (u32_small (Z.lor p USER_ENTRY)) by done. by apply (user_entry_built p true).
    + apply (window_store R1); [done|by eapply structural_tab|done|]. left. by eapply role_not_kpd.
Qed.
End Frames.
