(* ===== verification/UserLoad.v ===== *)
(** * User programs: loading

    [UserView] is what a program sees of its memory: a byte at each address that is
    mapped.  [ViewMem] gives the operations of the loader on a view, and a loader that
    runs on the page tables does what the same loader does on the view. *)
From S2P Require Import Prelude Bytes Pmm VfsDefs Fault Memory Paging Spaces SpaceOps SpaceCalls SpaceClone SpaceCopy AddressSpaces Buffers Loader LoaderImage Usermode UserFrames.

(** ** The specification *)

Definition UserView : Type := Z -> option Z.

Definition is_mapped (V : UserView) (va : Z) : bool := match V va with Some _ => true | None => false end.

(** The [n] bytes at [va] are mapped. *)
Definition covered (V : UserView) (va n : Z) : bool :=
  forallb (fun i => is_user_va (va + i) && is_mapped V (va + i)) (seqZ 0 n).

Definition view_zeroed (va : Z) (V : UserView) : UserView := fun a => if vpn a =? vpn va then Some 0 else V a.
(** The bytes [lo] to [hi] of [src] copied to [va]. *)
Definition view_copied (va : Z) (src : list Z) (lo hi : Z) (V : UserView) : UserView := fun a =>
  if (va + lo <=? a) && (a <? va + hi) then Some (u8 src.[a - va]) else V a.
Definition view_byte (V : UserView) (va : Z) : Z := default 0 (V va).
Definition view_word (V : UserView) (va : Z) : Z :=
  le_val [view_byte V va; view_byte V (va + 1); view_byte V (va + 2); view_byte V (va + 3)].
Definition view_stored (va v : Z) (V : UserView) : UserView := fun a =>
  if (va <=? a) && (a <? va + 4) then Some (le_bytes 4 v).[a - va] else V a.

(** Outside of the user range, or of the memory that is mapped, the operations of the
    code have no meaning for the program: they fault here. *)
#[export] Instance ViewMem : UserMem UserView := {|
  um_map_zeroed := fun _ va V => if is_user_va va then Done (view_zeroed va V) 1 else Fault V;
  um_copy := fun _ va src size V =>
    if (0 <=? size) && (size <=? Z.of_nat (length src)) && covered V va size then Done (view_copied va src 0 size V) 1 else Fault V;
  um_read := fun _ va V =>
    if is_user_va va then Done V (if is_mapped V va && (va mod 4096 <=? 4092) then Some (view_word V va) else None) else Fault V;
  um_write := fun _ va v V =>
    if is_user_va va then
      if is_mapped V va && (va mod 4096 <=? 4092) then Done (view_stored va v V) 1 else Done V 0
    else Fault V;
  um_mapped := fun _ va V => if is_user_va va then Done V (is_mapped V va) else Fault V
|}.

(** ** The address space under construction *)

Section Space.
Context `{KL : KernelLayout}.
Implicit Types (R : roles) (s : Machine) (U : gset Z) (V : UserView).
Context (U0 : gset Z) (R0 : roles) (s0 : Machine) (c : Z) (guarded : bool).
#[local] Instance kernel_mem : UserMem Machine := KernelMem guarded.

(** [c] is a directory of its own beside the address spaces of [R0]; the kernel may
    have taken pages, and nothing else has changed. *)
Record user_state U R s : Prop := {
  us_spaces : spaces U R s;
  us_dir : R !! c = Some RDir;
  us_pages : U0 ⊆ U;
  us_rest : drop_space c (abs R) = abs R0;
  us_kept : kept U0 R0 s0 s;
  us_cr3 : cr3 s = cr3 s0
}.

Definition sees V R s : Prop := forall va, user_va va ->
  (exists f, R !! f = Some (RFrame c (vpn va) true) /\ V va = Some (load8 (phys s) (f + va mod 4096))) \/
  ((forall f w, R !! f <> Some (RFrame c (vpn va) w)) /\ V va = None).

Definition building s : Prop := exists U R, user_state U R s.
Definition shown V s : Prop := exists U R, user_state U R s /\ sees V R s.

Lemma shown_building V s : shown V s -> building s.
Proof. intros (U & R & HU & _). by exists U, R. Qed.

Lemma sees_ext V V' R s : (forall va, V' va = V va) -> sees V R s -> sees V' R s.
Proof. intros He HV va Hva. rewrite He. by apply HV. Qed.

(** What is not of [c] is of [R0]. *)
Lemma rest_lookup U R s p r : user_state U R s -> abs R0 !! p = Some r <-> R !! p = Some r /\ is_tab r = false /\ of_dir c p r = false.
Proof. intros HU. rewrite <- (us_rest _ _ _ HU), drop_space_lookup, abs_lookup. naive_solver. Qed.

Lemma rest_data U R s p : user_state U R s -> data_page U0 R0 p ->
  data_page U R p /\ forall v w, R !! p <> Some (RFrame c v w).
Proof.
  intros HU [Hp|(d & v & w & Hp)].
  - apply (us_pages _ _ _ HU) in Hp. split; [by left|]. intros v w Hr.
    apply (sp_fresh _ _ _ (us_spaces _ _ _ HU)) in Hp as (_ & Hn & _). congruence.
  - assert (abs R0 !! p = Some (RFrame d v w)) as Ha by (by apply abs_lookup).
    apply (rest_lookup U R s) in Ha as (Hr & _ & Hd); [|done]. split; [right; eauto|]. intros v' w' Hr'.
    rewrite Hr in Hr'. injection Hr' as -> _ _. unfold of_dir in Hd. by rewrite Z.eqb_refl, orb_true_r in Hd.
Qed.

(** A change of the tables that keeps the data. *)
Lemma user_kept U R s U1 R1 s' : user_state U R s -> kept U1 R1 s s' ->
  (forall p, data_page U0 R0 p -> data_page U1 R1 p) -> kept U0 R0 s0 s'.
Proof.
  intros HU Hk Hsub p b Hp Hb. rewrite (Hk p b), (us_kept _ _ _ HU p b); auto.
Qed.

(** *** Accesses to a page *)

Lemma user_state_temp U R s s' f v w : user_state U R s -> R !! f = Some (RFrame c v w) -> temp_changed U R s f s' ->
  user_state U R s'.
Proof.
  intros HU Hf (HS & Hc & Hk). constructor; try apply HU; [done| |by rewrite Hc; apply HU].
  intros p b Hp Hb. destruct (rest_data U R s p HU Hp) as [Hd Hn].
  rewrite (Hk p b), (us_kept _ _ _ HU p b); [done|done|done|done| |done]. intros ->. by eapply Hn.
Qed.

Lemma sees_temp V V' U R s s' f v : user_state U R s -> sees V R s -> R !! f = Some (RFrame c v true) -> temp_changed U R s f s' ->
  (forall va, user_va va -> vpn va = v -> V' va = Some (load8 (phys s') (f + va mod 4096))) ->
  (forall va, user_va va -> vpn va <> v -> V' va = V va) -> sees V' R s'.
Proof.
  intros HU HV Hf (_ & _ & Hk) Hin Hout va Hva. pose proof (sp_inv _ _ _ (us_spaces _ _ _ HU)) as HI.
  destruct (Z.eq_dec (vpn va) v) as [E|E].
  - left. exists f. rewrite E. split; [done|by apply Hin].
  - rewrite Hout by done. destruct (HV va Hva) as [(g & Hg & ->)|Hno]; [left|by right]. exists g. split; [done|].
    pose proof (Z.mod_pos_bound va 4096 ltac:(lia)). rewrite (Hk g); [done|right; eauto| |lia].
    intros ->. rewrite Hf in Hg. injection Hg. congruence.
Qed.

(** The page behind an address. *)
Lemma frame_parts R s f d v w o : space_inv R s -> R !! f = Some (RFrame d v w) -> 0 <= o < 4096 ->
  Z.land (f + o) USER_PAGE_MASK = f /\ Z.land (f + o) 0xFFF = o /\ (f + o =? 0) = false.
Proof.
  intros HI Hf Ho. pose proof (si_taken _ _ HI _ _ Hf) as (Hp & Hr & _). destruct layout_end as [_ He].
  assert (f + o = Z.lor f o) as E by (by rewrite entry_eq). split_and!.
  - rewrite E. by apply entry_page.
  - change 0xFFF with (Z.ones 12). rewrite Z.land_ones by lia. destruct Hp as [Hm _]. change (2 ^ 12) with 4096.
    rewrite <- Z.add_mod_idemp_l, Hm, Z.mod_small by lia. lia.
  - apply Z.eqb_neq. lia.
Qed.

Lemma resolve_seen V U R s va : user_state U R s -> sees V R s -> user_va va ->
  (exists f, R !! f = Some (RFrame c (vpn va) true) /\ V va = Some (load8 (phys s) (f + va mod 4096)) /\
     resolve_user_phys c va s = Done s (f + va mod 4096)) \/
  (V va = None /\ resolve_user_phys c va s = Done s 0).
Proof.
  intros HU HV Hva. pose proof (sp_inv _ _ _ (us_spaces _ _ _ HU)) as HI.
  destruct (resolve_user_phys_spec R s c va HI (us_dir _ _ _ HU) Hva) as (r & E & Hr).
  destruct (HV va Hva) as [(f & Hf & Hb)|[Hn Hb]].
  - left. exists f. split_and!; [done|done|]. destruct Hr as [(g & w & Hg & ->)|[Hno _]].
    + apply abs_frame_1 in Hg. destruct (frame_unique R s c (vpn va) f true g w HI Hf Hg) as [-> _]. done.
    + exfalso. apply Hno. exists f, true. by apply abs_frame.
  - right. split; [done|]. destruct Hr as [(g & w & Hg & _)|[_ ->]]; [|done]. apply abs_frame_1 in Hg. by apply Hn in Hg.
Qed.

(** *** A page mapped and cleared *)

(** The frame [p] takes the place of what was behind page number [v]. *)
Definition replaced (v p : Z) (A A' : roles) : Prop := A !! p = None /\
  forall q r, A' !! q = Some r <-> (q = p /\ r = RFrame c v true) \/ (A !! q = Some r /\ forall w, r <> RFrame c v w).

Lemma replaced_rest v p (A A' : roles) : replaced v p A A' -> A !! c = Some RDir -> drop_space c A' = drop_space c A /\ A' !! c = Some RDir.
Proof.
  intros [Hp Hr] Hc. split; [|apply Hr; by right]. apply map_eq. intros q. apply option_eq. intros r.
  rewrite !drop_space_lookup, Hr. unfold of_dir. split.
  - intros [[[-> ->]|[? ?]] Hd]; [|done]. by rewrite Z.eqb_refl, orb_true_r in Hd.
  - intros [Hq Hd]. split; [right|done]. split; [done|]. intros w ->. by rewrite Z.eqb_refl, orb_true_r in Hd.
Qed.

Lemma map_page_replaced U R s p va : spaces (U ∪ {[p]}) R s -> p ∉ U -> R !! c = Some RDir -> user_va va ->
  wpf low_full (map_user_page c p va) (fun s' r => kept (U ∪ {[p]}) R s s' /\
    ((r = 0 /\ spaces (U ∪ {[p]}) R s') \/
     (r = 1 /\ exists U' R', U ⊆ U' /\ spaces U' R' s' /\ replaced (vpn va) p (abs R) (abs R')))) s.
Proof.
  intros HS Hp Hc Hva. pose proof (sp_inv _ _ _ HS) as HI.
  assert (abs R !! p = None) as Hn.
  { destruct (abs R !! p) eqn:E; [|done]. apply abs_lookup in E as [E _].
    destruct (sp_fresh _ _ _ HS p) as (_ & ? & _); [set_solver|congruence]. }
  destruct (lookup_va_ok R s c va HI Hc Hva) as [_ Hno|t _ _ _ Hno|t f w _ _ Hf _].
  3: { eapply wpf_mono; [by apply (remap_user_page_spec U R s c p va f w)|].
       intros s' r (Hk & [[-> HS']|(-> & R' & HS' & HA)]); (split; [done|]); [by left|right]. split; [done|].
       exists (U ∪ {[f]}), R'. split_and!; [set_solver|done|]. split; [done|]. intros q r. rewrite HA, lookup_insert_Some, lookup_delete_Some.
       assert (forall w' q', abs R !! q' = Some (RFrame c (vpn va) w') -> q' = f) as Honly.
       { intros w' q' Hq'. apply abs_frame_1 in Hq'. by destruct (frame_unique R s c (vpn va) q' w' f w HI Hq' Hf). }
       assert (abs R !! f = Some (RFrame c (vpn va) w)) as Hf' by (by apply abs_frame).
       split.
       - intros [[<- <-]|(Hqp & Hqf & Hq)]; [by left|right]. split; [done|]. intros w' ->. by apply Honly in Hq.
       - intros [[-> ->]|[Hq Hr]]; [by left|right]. split_and!; [congruence| |done]. intros <-. rewrite Hf' in Hq. injection Hq as <-. by eapply Hr. }
  all: eapply wpf_mono; [apply (map_user_page_spec U R s c p va HS Hp Hc Hva); intros f w Hf; apply abs_frame_1 in Hf; by apply Hno in Hf|];
       intros s' r (Hk & [(-> & HS' & _)|(-> & R' & HS' & HA)]); (split; [done|]); [by left|right]; split; [done|];
       exists U, R'; split_and!; [done|done|]; split; [done|]; intros q r; rewrite HA, lookup_insert_Some; split;
       [intros [[<- <-]|[Hqp Hq]]; [by left|right]; split; [done|]; intros w' ->; apply abs_frame_1 in Hq; by apply Hno in Hq
       |intros [[-> ->]|[Hq Hr]]; [by left|right]; split; [congruence|done]].
Qed.

Lemma wpf_cr3 {B} (E : Machine -> Prop) (m : FST Machine B) (Q : Machine -> B -> Prop) s : keeps_cr3 m -> wpf E m Q s ->
  wpf E m (fun s' b => Q s' b /\ cr3 s' = cr3 s) s.
Proof. intros Hk. specialize (Hk s). unfold wpf. by destruct (m s). Qed.

Lemma map_zeroed_spec V s va : shown V s -> user_va va ->
  wpf copy_fault (map_zeroed_page c va) (fun s' r => (r = 0 /\ building s') \/ (r = 1 /\ shown (view_zeroed va V) s')) s.
Proof.
  intros (U & R & HU & HV) Hva. pose proof (us_spaces _ _ _ HU) as HS. unfold map_zeroed_page.
  destruct (spaces_alloc U R s HS) as (p' & a & Ea & [(-> & _ & HS1)|(Ha0 & HaU & Hfr & HS1 & Hdata & _)]); (eapply wpf_step; [exact Ea|]).
  { apply wpf_ret. left. split; [done|]. exists U, R. constructor; try apply HU; done. }
  destruct (Z.eqb_spec a 0); [done|]. set (s1 := with_pmm p' s) in *.
  assert (user_state (U ∪ {[a]}) R s1) as HU1.
  { constructor; try apply HU; [done|]. etrans; [apply HU|set_solver]. }
  eapply wpf_seq.
  { apply wpf_cr3; [apply keeps_map_user_page|]. eapply wpf_fault; [|by left].
    apply (map_page_replaced U R); [done|done|apply HU|done]. }
  intros s2 r ((Hk & Hr) & Hc2).
  assert (kept U0 R0 s0 s2) as Hk2 by (apply (user_kept _ _ s1 _ _ s2 HU1 Hk); intros q Hq; by apply (rest_data _ _ _ q HU1)).
  destruct Hr as [[-> HS2]|(-> & U' & R' & Hsub & HS2 & Hrep)].
  { apply wpf_ret. left. split; [done|]. exists (U ∪ {[a]}), R. constructor; try apply HU1; [done|done|].
    rewrite Hc2. apply HU1. }
  cbn [Z.eqb]. destruct (replaced_rest _ _ _ _ Hrep) as [Hrest Hdir]; [by apply abs_dir, HU|].
  assert (user_state U' R' s2) as HU2.
  { constructor; [done|by apply abs_dir|etrans; [apply HU|done]| |done|by rewrite Hc2; apply HU1]. rewrite Hrest. apply HU. }
  assert (R' !! a = Some (RFrame c (vpn va) true)) as Ha by (apply abs_frame, (proj2 Hrep); by left).
  eapply wpf_seq; [apply (zero_page_spec U' R' s2 a HS2); right; eauto|]. intros s3 [] [Htc Hz]. apply wpf_ret. right. split; [done|].
  exists U', R'. split; [by eapply user_state_temp|]. intros x Hx. unfold view_zeroed.
  pose proof (Z.mod_pos_bound x 4096 ltac:(lia)) as Hm. destruct (Z.eqb_spec (vpn x) (vpn va)) as [E|E].
  { left. exists a. rewrite E, Hz by done. done. }
  destruct Htc as (_ & _ & Hoth). destruct (HV x Hx) as [(g & Hg & ->)|[Hn ->]].
  - left. exists g. assert (R' !! g = Some (RFrame c (vpn x) true)) as Hg'.
    { apply abs_frame, (proj2 Hrep). right. split; [by apply abs_frame|]. intros w [= ?]. done. }
    split; [done|]. rewrite (Hoth g); [|right; eauto| |lia].
    + rewrite (Hk g); [done|right; eauto|lia].
    + intros ->. rewrite Ha in Hg'. injection Hg'. congruence.
  - right. split; [|done]. intros f w Hf. apply abs_frame, (proj2 Hrep) in Hf as [[_ [= ?]]|[Hf _]]; [done|].
    apply abs_frame_1 in Hf. by apply Hn in Hf.
Qed.
(** *** Bytes copied *)

Lemma page_offset va i : 0 <= i -> va mod 4096 + i < 4096 -> vpn (va + i) = vpn va /\ (va + i) mod 4096 = va mod 4096 + i.
Proof.
  intros Hi Hlt. pose proof (Z.mod_pos_bound va 4096 ltac:(lia)). pose proof (Z_div_mod_eq_full va 4096). unfold vpn. split.
  - symmetry. apply (Z.div_unique _ _ _ (va mod 4096 + i)); lia.
  - symmetry. apply (Z.mod_unique _ _ (va / 4096)); lia.
Qed.

Lemma same_page x va : vpn x = vpn va -> x - va = x mod 4096 - va mod 4096.
Proof. unfold vpn. intros E. pose proof (Z_div_mod_eq_full va 4096). pose proof (Z_div_mod_eq_full x 4096). lia. Qed.

Lemma sees_byte V U R s va f : user_state U R s -> sees V R s -> R !! f = Some (RFrame c (vpn va) true) -> user_va va ->
  V va = Some (load8 (phys s) (f + va mod 4096)).
Proof.
  intros HU HV Hf Hva. destruct (HV va Hva) as [(g & Hg & ->)|[Hn _]]; [|by apply Hn in Hf].
  by destruct (frame_unique R s c (vpn va) f true g true (sp_inv _ _ _ (us_spaces _ _ _ HU)) Hf Hg) as [-> _].
Qed.

(** One chunk. *)
Lemma view_chunk V U R s s' va src copied chunk f : user_state U R s -> sees V R s ->
  user_va (va + copied) -> 0 <= copied -> 0 < chunk -> (va + copied) mod 4096 + chunk <= 4096 ->
  R !! f = Some (RFrame c (vpn (va + copied)) true) -> temp_changed U R s f s' ->
  (forall b, 0 <= b < 4096 -> load8 (phys s') (f + b) =
     if ((va + copied) mod 4096 <=? b) && (b <? (va + copied) mod 4096 + chunk) then u8 src.[copied + (b - (va + copied) mod 4096)]
     else load8 (phys s) (f + b)) ->
  user_state U R s' /\ sees (view_copied va src copied (copied + chunk) V) R s'.
Proof.
  intros HU HV Hva Hc0 Hch Hoff Hf Htc Hb. split; [by eapply user_state_temp|].
  pose proof (Z.mod_pos_bound (va + copied) 4096 ltac:(lia)) as Hm.
  apply (sees_temp V _ U R s s' f (vpn (va + copied))); try done; intros x Hx Hpg; unfold view_copied.
  - pose proof (same_page _ _ Hpg) as Hd. pose proof (Z.mod_pos_bound x 4096 ltac:(lia)). rewrite Hb by done.
    destruct (Z.leb_spec (va + copied) x), (Z.leb_spec ((va + copied) mod 4096) (x mod 4096)); try lia; cbn [andb].
    + destruct (Z.ltb_spec x (va + (copied + chunk))), (Z.ltb_spec (x mod 4096) ((va + copied) mod 4096 + chunk)); try lia.
      * do 3 f_equal. lia.
      * apply (sees_byte V U R s); [done|done| |done]. by rewrite Hpg.
    + apply (sees_byte V U R s); [done|done| |done]. by rewrite Hpg.
  - destruct (Z.leb_spec (va + copied) x), (Z.ltb_spec x (va + (copied + chunk))); try done. cbn [andb]. exfalso. apply Hpg.
    replace x with (va + copied + (x - (va + copied))) by lia. by apply page_offset; lia.
Qed.

Lemma copy_loop_spec va src size n : forall copied V s, 0 <= copied <= size -> size <= Z.of_nat (length src) -> shown V s ->
  (forall i, 0 <= i < size -> user_va (va + i) /\ V (va + i) <> None) ->
  (copied < size -> (va + size - 1) / 4096 - (va + copied) / 4096 < Z.of_nat n) ->
  wpf copy_fault (copy_loop n c va src size copied) (fun s' r => r = 1 /\ shown (view_copied va src copied size V) s') s.
Proof.
  induction n as [|n IH]; intros copied V s Hcp Hl HV Hcov Hn; cbn [copy_loop];
    (destruct (Z.leb_spec size copied) as [Hend|Hlt];
     [apply wpf_ret; split; [done|]; destruct HV as (U & R & HU & HV); exists U, R; split; [done|];
      apply (sees_ext V); [|done]; intros x; unfold view_copied;
      destruct (Z.leb_spec (va + copied) x), (Z.ltb_spec x (va + size)); try done; lia|]).
  { specialize (Hn Hlt). assert ((va + copied) / 4096 <= (va + size - 1) / 4096) by (apply Z.div_le_mono; lia). lia. }
  destruct HV as (U & R & HU & HV). destruct (Hcov copied) as [Hva Hmap]; [lia|]. pose proof (us_spaces _ _ _ HU) as HS.
  unfold user_va, USER_VADDR_MIN, USER_VADDR_MAX in Hva. rewrite u32_small by lia.
  destruct (resolve_seen V U R s (va + copied) HU HV Hva) as [(f & Hf & _ & E)|[Hno _]]; [|done].
  eapply wpf_step; [exact E|]. cbv zeta. pose proof (Z.mod_pos_bound (va + copied) 4096 ltac:(lia)) as Hm.
  destruct (frame_parts R s f c _ _ _ (sp_inv _ _ _ HS) Hf Hm) as (-> & -> & ->).
  set (o := (va + copied) mod 4096) in *. set (chunk := if size - copied <? 4096 - o then size - copied else 4096 - o).
  assert (0 < chunk /\ o + chunk <= 4096 /\ copied + chunk <= size) as (Hc1 & Hc2 & Hc3) by (unfold chunk; case_if; bsimpl; lia).
  assert (copied + chunk < size -> chunk = 4096 - o) as Hfull by (unfold chunk; case_if; bsimpl; lia).
  eapply wpf_seq; [apply (copy_chunk_spec U R s f o src copied chunk HS); [right; eauto|lia..]|].
  intros s1 [] [Htc Hb]. destruct (view_chunk V U R s s1 va src copied chunk f HU HV Hva) as [HU1 HV1]; try done; [lia|].
  eapply wpf_mono; [apply (IH (copied + chunk) (view_copied va src copied (copied + chunk) V)); [lia|done|by exists U, R| |]|].
  - intros i Hi. destruct (Hcov i Hi) as [? Hv]. split; [done|]. unfold view_copied. by case_if.
  - intros Hmore. specialize (Hn Hlt). pose proof (Z_div_mod_eq_full (va + copied) 4096). rewrite Hfull by done.
    assert ((va + (copied + (4096 - o))) / 4096 = (va + copied) / 4096 + 1) as ->; [|lia].
    symmetry. apply (Z.div_unique _ _ _ 0); lia.
  - intros s2 r (-> & U2 & R2 & HU2 & HV2). split; [done|]. exists U2, R2. split; [done|]. eapply sees_ext; [|exact HV2].
    intros x. unfold view_copied. destruct (Z.leb_spec (va + copied) x), (Z.ltb_spec x (va + size)), (Z.leb_spec (va + (copied + chunk)) x),
      (Z.ltb_spec x (va + (copied + chunk))); try done; lia.
Qed.

Lemma is_user_va_iff va : is_user_va va = true <-> user_va va.
Proof. unfold is_user_va, user_va. by rewrite andb_true_iff, !Z.leb_le. Qed.

Lemma is_mapped_iff V va : is_mapped V va = true <-> V va <> None.
Proof. unfold is_mapped. by destruct (V va). Qed.

Lemma covered_iff V va n : covered V va n = true <-> forall i, 0 <= i < n -> user_va (va + i) /\ V (va + i) <> None.
Proof.
  unfold covered. rewrite forallb_forall. split.
  - intros Hall i Hi. specialize (Hall i). rewrite andb_true_iff, is_user_va_iff, is_mapped_iff in Hall. apply Hall.
    apply list_elem_of_In, elem_of_seqZ. lia.
  - intros Hall i Hi%list_elem_of_In%elem_of_seqZ. rewrite andb_true_iff, is_user_va_iff, is_mapped_iff. apply Hall. lia.
Qed.

(** *** Words *)

Lemma user_word_spec V s U R va : user_state U R s -> sees V R s -> user_va va ->
  exists w, user_word c va s = Done s w /\
    (if is_mapped V va && (va mod 4096 <=? 4092)
     then exists f, w = Some (f, va mod 4096) /\ R !! f = Some (RFrame c (vpn va) true)
     else w = None).
Proof.
  intros HU HV Hva. pose proof (sp_inv _ _ _ (us_spaces _ _ _ HU)) as HI. unfold user_word, mbind, FST_bind.
  pose proof (Z.mod_pos_bound va 4096 ltac:(lia)) as Hm.
  destruct (resolve_seen V U R s va HU HV Hva) as [(f & Hf & Hb & E)|[Hn E]]; rewrite E; eexists; (split; [done|]); unfold is_mapped.
  - rewrite Hb. destruct (frame_parts R s f c _ _ _ HI Hf Hm) as (-> & -> & ->). cbn [orb andb].
    destruct (Z.leb_spec (va mod 4096) 4092), (Z.ltb_spec 4092 (va mod 4096)); try lia; [by exists f|done].
  - by rewrite Hn.
Qed.

Lemma read_user_spec V s va : shown V s -> user_va va ->
  wpf copy_fault (read_user_u32 c va) (fun s' r => shown V s' /\
    r = if is_mapped V va && (va mod 4096 <=? 4092) then Some (view_word V va) else None) s.
Proof.
  intros (U & R & HU & HV) Hva. destruct (user_word_spec V s U R va HU HV Hva) as (w & E & Hw). unfold read_user_u32.
  eapply wpf_step; [exact E|]. destruct (is_mapped V va && (va mod 4096 <=? 4092)) eqn:Eb.
  2: { rewrite Hw. apply wpf_ret. split; [by exists U, R|done]. }
  destruct Hw as (f & -> & Hf). apply andb_true_iff in Eb as [_ Ho%Z.leb_le]. pose proof (Z.mod_pos_bound va 4096 ltac:(lia)) as Hm.
  eapply wpf_seq; [apply (read_word_spec U R s f (va mod 4096) (us_spaces _ _ _ HU)); [right; eauto|lia]|].
  intros s' v (Htc & Hsame & ->). apply wpf_ret. split.
  - exists U, R. split; [by eapply user_state_temp|]. apply (sees_temp V V U R s s' f (vpn va)); try done.
    intros x Hx E'. rewrite Hsame by (apply Z.mod_pos_bound; lia). apply (sees_byte V U R s); [done|done| |done]. by rewrite E'.
  - f_equal. assert (forall i, 0 <= i < 4 -> user_va (va + i) -> view_byte V (va + i) = load8 (phys s) (f + va mod 4096 + i)) as Hbyte.
    { intros i Hi Hx. destruct (page_offset va i) as [E1 E2]; [lia..|]. unfold view_byte.
      rewrite (sees_byte V U R s (va + i) f), E2; [simpl; f_equal; lia|done|done|by rewrite E1|done]. }
    assert (forall i, 0 <= i < 4 -> user_va (va + i)) as Hin.
    { intros i Hi. destruct (page_offset va i) as [E1 E2]; [lia..|]. unfold user_va, vpn, USER_VADDR_MIN, USER_VADDR_MAX in *.
      pose proof (Z_div_mod_eq_full va 4096). assert (va / 4096 <= 0xBFFFF); [|lia]. apply Z.lt_succ_r, Z.div_lt_upper_bound; lia. }
    unfold view_word. rewrite load32_bytes, <- !Hbyte by (try apply Hin; lia). rewrite <- (Z.add_0_r (f + va mod 4096)), <- (Hbyte 0) by (try apply Hin; lia).
    by rewrite Z.add_0_r.
Qed.

Lemma write_user_spec V s va v : shown V s -> user_va va ->
  wpf copy_fault (write_user_u32 c va v) (fun s' r =>
    if is_mapped V va && (va mod 4096 <=? 4092) then r = 1 /\ shown (view_stored va v V) s' else r = 0 /\ shown V s') s.
Proof.
  intros (U & R & HU & HV) Hva. destruct (user_word_spec V s U R va HU HV Hva) as (w & E & Hw). unfold write_user_u32.
  eapply wpf_step; [exact E|]. destruct (is_mapped V va && (va mod 4096 <=? 4092)) eqn:Eb.
  2: { rewrite Hw. apply wpf_ret. split; [done|by exists U, R]. }
  destruct Hw as (f & -> & Hf). apply andb_true_iff in Eb as [_ Ho%Z.leb_le]. pose proof (Z.mod_pos_bound va 4096 ltac:(lia)) as Hm.
  eapply wpf_seq; [apply (write_word_spec U R s f (va mod 4096) v (us_spaces _ _ _ HU)); [right; eauto|lia]|].
  intros s' [] [Htc Hb]. apply wpf_ret. split; [done|]. exists U, R. split; [by eapply user_state_temp|].
  apply (sees_temp V _ U R s s' f (vpn va)); try done; intros x Hx Hpg; unfold view_stored.
  - pose proof (same_page _ _ Hpg) as Hd. pose proof (Z.mod_pos_bound x 4096 ltac:(lia)). rewrite Hb by done.
    destruct (Z.leb_spec va x), (Z.leb_spec (va mod 4096) (x mod 4096)); try lia; cbn [andb].
    + destruct (Z.ltb_spec x (va + 4)), (Z.ltb_spec (x mod 4096) (va mod 4096 + 4)); try lia; [by rewrite Hd|].
      apply (sees_byte V U R s); [done|done| |done]. by rewrite Hpg.
    + apply (sees_byte V U R s); [done|done| |done]. by rewrite Hpg.
  - destruct (Z.leb_spec va x), (Z.ltb_spec x (va + 4)); try done. cbn [andb]. exfalso. apply Hpg.
    replace x with (va + (x - va)) by lia. apply page_offset; lia.
Qed.

(** ** Refinement *)

(** The call [q] on the machine does what [p] does on the view, or gives up with one
    of the results [lost]; where [p] faults nothing is said. *)
Definition refines {A} (lost : A -> Prop) (p : FST UserView A) (q : FST Machine A) : Prop := forall V s, shown V s ->
  match p V with
  | Fault _ => True
  | Done V' a => wpf copy_fault q (fun s' b => (lost b /\ building s') \/ (b = a /\ shown V' s')) s
  end.

Lemma refines_ret {A} (lost : A -> Prop) a : refines lost (mret a) (mret a).
Proof. intros V s HV. apply wpf_ret. by right. Qed.

Lemma refines_bind {A B} (lost : A -> Prop) (lost' : B -> Prop) p q (k : A -> FST UserView B) (k' : A -> FST Machine B) :
  refines lost p q -> (forall a, refines lost' (k a) (k' a)) ->
  (forall a s, lost a -> building s -> exists b, k' a s = Done s b /\ lost' b) -> refines lost' (p ≫= k) (q ≫= k').
Proof.
  intros Hp Hk Hlost V s HV. specialize (Hp V s HV). unfold mbind at 1, FST_bind at 1.
  destruct (p V) as [V' a|] eqn:Ep; [|done]. destruct (k a V') as [V'' b|] eqn:Ek; [|done].
  eapply wpf_seq; [exact Hp|]. intros s' a' [[Hl HB]|[-> HV']].
  - destruct (Hlost a' s' Hl HB) as (b' & E & Hb'). unfold wpf. rewrite E. by left.
  - specialize (Hk a V' s' HV'). by rewrite Ek in Hk.
Qed.

Definition nothing {A} (_ : A) : Prop := False.

Lemma refines_seq {A B} (lost : B -> Prop) (p : FST UserView A) q k k' :
  refines nothing p q -> (forall a, refines lost (k a) (k' a)) -> refines lost (p ≫= k) (q ≫= k').
Proof. intros Hp Hk. by apply (refines_bind nothing lost). Qed.

Lemma refines_lost {A} (lost lost' : A -> Prop) p q : (forall a, lost a -> lost' a) -> refines lost p q -> refines lost' p q.
Proof.
  intros Hl Hp V s HV. specialize (Hp V s HV). destruct (p V); [|done]. eapply wpf_mono; [exact Hp|].
  intros s' b [[? ?]|?]; [left; auto|by right].
Qed.

Lemma refines_loop (body : Z -> FST UserView (option unit)) body' n : forall lo,
  (forall i, refines (fun r => r = Some tt) (body i) (body' i)) -> refines (fun r => r = Some tt) (loop body lo n) (loop body' lo n).
Proof.
  induction n as [|n IH]; intros lo Hb; [apply refines_ret|]. cbn [loop].
  apply (refines_bind (fun r => r = Some tt)); [by apply Hb| |].
  - intros [[]|]; [apply refines_ret|by apply IH].
  - intros a s -> _. by exists (Some tt).
Qed.

(** Reads that depend on the state of neither side. *)
Lemma refines_rd image o : refines nothing (rd image o) (rd image o).
Proof. intros V s HV. unfold rd, wpf. destruct ((0 <=? o) && (o <? Z.of_nat (length image))); [by right|done]. Qed.
Lemma refines_rd_bytes image o n : refines nothing (rd_bytes image o n) (rd_bytes image o n).
Proof. intros V s HV. unfold rd_bytes, wpf. destruct ((0 <=? o) && (0 <=? n) && (o + n <=? Z.of_nat (length image))); [by right|done]. Qed.
Lemma refines_resolve modules name : refines nothing (resolve_symbol modules name) (resolve_symbol modules name).
Proof. intros V s HV. unfold resolve_symbol, wpf. destruct (module_resolve_symbol_global (Some name) modules); [by right|done]. Qed.
Lemma refines_fault {A} (lost : A -> Prop) (q : FST Machine A) : refines lost fault q.
Proof. by intros V s HV. Qed.

(** The operations of the code do what those on the view do. *)
Lemma refines_map_zeroed pd va : refines (fun r => r = 0) (um_map_zeroed pd va) (um_map_zeroed c va).
Proof.
  intros V s HV. cbn [um_map_zeroed ViewMem kernel_mem KernelMem]. destruct (is_user_va va) eqn:E; [|done]. apply is_user_va_iff in E.
  eapply wpf_mono; [by apply map_zeroed_spec|]. intros s' r [[-> ?]|[-> ?]]; [by left|by right].
Qed.

Lemma refines_copy pd va src size : refines (fun r => r = 0) (um_copy pd va src size) (um_copy c va src size).
Proof.
  intros V s HV. cbn [um_copy ViewMem kernel_mem KernelMem]. destruct (_ && _ && _) eqn:E; [|done].
  apply andb_true_iff in E as [[H0%Z.leb_le Hl%Z.leb_le]%andb_true_iff Hc]. rewrite covered_iff in Hc.
  eapply wpf_mono; [apply (copy_loop_spec va src size); try done|].
  - intros Hs. rewrite Z2Nat.id by (assert (0 <= size / 4096) by (apply Z.div_pos; lia); lia). rewrite Z.add_0_r.
    pose proof (Z_div_mod_eq_full va 4096). pose proof (Z_div_mod_eq_full size 4096).
    pose proof (Z.mod_pos_bound va 4096 ltac:(lia)). pose proof (Z.mod_pos_bound size 4096 ltac:(lia)).
    assert ((va + size - 1) / 4096 < va / 4096 + size / 4096 + 2); [|lia]. apply Z.div_lt_upper_bound; lia.
  - intros s' r [-> ?]. by right.
Qed.

Lemma refines_read pd va : refines nothing (um_read pd va) (um_read c va).
Proof.
  intros V s HV. cbn [um_read ViewMem kernel_mem KernelMem]. destruct (is_user_va va) eqn:E; [|done]. apply is_user_va_iff in E.
  eapply wpf_mono; [by apply read_user_spec|]. intros s' r [? ->]. by right.
Qed.

Lemma refines_write pd va v : refines nothing (um_write pd va v) (um_write c va v).
Proof.
  intros V s HV. cbn [um_write ViewMem kernel_mem KernelMem]. destruct (is_user_va va) eqn:E; [|done]. rewrite andb_false_r. apply is_user_va_iff in E.
  pose proof (write_user_spec V s va v HV E) as Hw. destruct (is_mapped V va && (va mod 4096 <=? 4092));
    (eapply wpf_mono; [exact Hw|]; intros s' r [-> ?]; by right).
Qed.

Lemma refines_mapped pd va : refines nothing (um_mapped pd va) (um_mapped c va).
Proof.
  intros V s HV. cbn [um_mapped ViewMem kernel_mem KernelMem]. destruct (is_user_va va) eqn:E; [|done]. apply is_user_va_iff in E.
  destruct HV as (U & R & HU & HV). unfold is_mapped. pose proof (Z.mod_pos_bound va 4096 ltac:(lia)).
  destruct (resolve_seen V U R s va HU HV E) as [(f & Hf & -> & Er)|[-> Er]]; (eapply wpf_step; [exact Er|]); apply wpf_ret; right.
  - destruct (frame_parts R s f c _ _ _ (sp_inv _ _ _ (us_spaces _ _ _ HU)) Hf H0) as (_ & _ & ->). split; [done|by exists U, R].
  - split; [done|by exists U, R].
Qed.
End Space.
