(* ===== verification/UserRuns.v ===== *)
(** * User programs: the theorems

    The loader of kernel/usermode.c on the page tables builds what the same loader
    builds on a view of user memory, an address space that is not finished is given
    back, and the segments of an image are where its headers say. *)
From S2P Require Import Prelude Bytes Pmm VfsDefs Vfs Task Posix Fault Memory Paging Spaces SpaceOps SpaceCalls SpaceClone SpaceCopy AddressSpaces Buffers Loader LoaderImage Usermode UserFrames UserLoad.

Create HintDb refine.

Section Loading.
Context `{KL : KernelLayout}.
Context (U0 : gset Z) (R0 : roles) (s0 : Machine) (c : Z) (guarded : bool).
Context (modules : Loader) (now_ticks : Z).
#[local] Instance kernel_mem : UserMem Machine := KernelMem guarded.
#[local] Abbreviation ref := (refines U0 R0 s0 c).
#[local] Abbreviation givesup := (fun r => r = Some tt).

#[local] Hint Resolve refines_ret refines_rd refines_rd_bytes refines_resolve refines_read refines_write refines_mapped refines_fault : refine.

(** One step of a proof that follows the code: a test, or a call that gives up nothing. *)
Ltac ref_step :=
  lazymatch goal with
  | |- refines _ _ _ _ _ (if ?b then _ else _) _ => destruct b
  | |- refines _ _ _ _ _ (match ?x with _ => _ end) _ => destruct x
  | |- refines _ _ _ _ _ (mbind _ _) _ => apply refines_seq; [solve [ref_auto]|intros ?]
  end
with ref_auto := repeat first [solve [eauto with refine] | ref_step].

Lemma ref_field16 image o : ref nothing (field16 image o) (field16 image o).
Proof. unfold field16. ref_auto. Qed.
Lemma ref_field32 image o : ref nothing (field32 image o) (field32 image o).
Proof. unfold field32. ref_auto. Qed.
#[local] Hint Resolve ref_field16 ref_field32 : refine.

Lemma ref_section image shoff i : ref nothing (read_section image shoff i) (read_section image shoff i).
Proof. unfold read_section, read_shdr. ref_auto. Qed.
Lemma ref_sym image o : ref nothing (read_sym image o) (read_sym image o).
Proof. unfold read_sym. ref_auto. Qed.
Lemma ref_ehdr image : ref nothing (read_ehdr image) (read_ehdr image).
Proof. unfold read_ehdr. ref_auto. Qed.
Lemma ref_phdr image eh i : ref nothing (read_phdr image eh i) (read_phdr image eh i).
Proof. unfold read_phdr. ref_auto. Qed.
Lemma ref_magic image : ref nothing (elf_magic image) (elf_magic image).
Proof. unfold elf_magic. ref_auto. Qed.
#[local] Hint Resolve ref_section ref_sym ref_ehdr ref_phdr ref_magic : refine.

(** *** Relocations *)

Lemma ref_rel_sections image size eh rel : ref nothing (rel_sections image size eh rel) (rel_sections image size eh rel).
Proof. unfold rel_sections. ref_auto. Qed.

Lemma ref_reloc image pd bias sh_addr sym_sec str_sec is_rela o :
  ref nothing (apply_user_reloc modules image pd bias sh_addr sym_sec str_sec is_rela o)
    (apply_user_reloc modules image c bias sh_addr sym_sec str_sec is_rela o).
Proof. unfold apply_user_reloc. ref_auto. Qed.
#[local] Hint Resolve ref_rel_sections ref_reloc : refine.

Lemma ref_nothing {A} (lost : A -> Prop) p q : ref nothing p q -> ref lost p q.
Proof. by apply refines_lost. Qed.

Lemma ref_rel_section image size eh pd bias i :
  ref givesup (apply_rel_section modules image size eh pd bias i) (apply_rel_section modules image size eh c bias i).
Proof. unfold apply_rel_section. ref_auto. apply refines_loop. intros r. ref_auto. Qed.

Lemma ref_relocations image size eh pd bias :
  ref (fun r => r = 0) (apply_elf_relocations modules image size eh pd bias) (apply_elf_relocations modules image size eh c bias).
Proof.
  unfold apply_elf_relocations. ref_auto. apply (refines_bind _ _ _ _ givesup); [apply refines_loop; intros; apply ref_rel_section| |].
  - intros a. ref_auto.
  - intros a s -> _. by exists 0.
Qed.

(** *** Segments *)

Lemma ref_map_range_loop n pd last : forall va,
  ref (fun r => r = 0) (map_range_loop n pd va last) (map_range_loop n c va last).
Proof.
  induction n as [|n IH]; intros va; cbn [map_range_loop]; ref_step; eauto with refine.
  apply (refines_bind _ _ _ _ (fun r => r = 0)); [apply refines_map_zeroed| |].
  - intros a. ref_auto.
  - intros a s -> _. by exists 0.
Qed.

Lemma ref_map_range pd start size : ref (fun r => r = 0) (map_user_range pd start size) (map_user_range c start size).
Proof. unfold map_user_range. ref_auto. apply ref_map_range_loop. Qed.

Lemma ref_segment image size pd eh bias i :
  ref givesup (load_user_segment image size pd eh bias i) (load_user_segment image size c eh bias i).
Proof.
  unfold load_user_segment. apply refines_seq; [apply ref_phdr|]. intros ph. repeat (ref_step; [eauto with refine|]).
  apply (refines_bind _ _ _ _ (fun r => r = 0)); [apply ref_map_range| |].
  - intros a. do 2 (ref_step; eauto with refine). apply (refines_bind _ _ _ _ (fun r => r = 0)); [apply refines_copy| |].
    + intros b. eauto with refine.
    + intros b s -> _. by exists (Some tt).
  - intros a s -> _. by exists (Some tt).
Qed.
#[local] Abbreviation fails := (fun r => r = None).

Lemma ref_dyn_range image eh n : forall i low high, ref nothing (dyn_range image eh i n low high) (dyn_range image eh i n low high).
Proof. induction n as [|n IH]; intros i low high; cbn [dyn_range]; ref_auto. Qed.
#[local] Hint Resolve ref_dyn_range : refine.

Lemma ref_dyn_bias image eh : ref nothing (dyn_bias now_ticks image eh) (dyn_bias now_ticks image eh).
Proof. unfold dyn_bias. ref_auto. Qed.
#[local] Hint Resolve ref_dyn_bias : refine.

Lemma ref_elf image size pd : ref fails (load_elf32_image modules now_ticks image size pd) (load_elf32_image modules now_ticks image size c).
Proof.
  unfold load_elf32_image. repeat first [solve [eauto with refine] | ref_step].
  apply (refines_bind _ _ _ _ givesup); [apply refines_loop; intros; apply ref_segment| |].
  - intros [u|]; [apply refines_ret|]. apply (refines_bind _ _ _ _ (fun r => r = 0)); [apply ref_relocations| |].
    + intros r. ref_auto.
    + intros b s -> _. by exists None.
  - intros b s -> _. by exists None.
Qed.

Lemma ref_flat image size pd : ref fails (load_flat_image image size pd) (load_flat_image image size c).
Proof.
  unfold load_flat_image. ref_step; [apply refines_ret|]. apply (refines_bind _ _ _ _ (fun r => r = 0)); [apply refines_map_zeroed| |].
  - intros a. ref_step; [apply refines_ret|]. apply (refines_bind _ _ _ _ (fun r => r = 0)); [apply refines_copy| |].
    + intros b. eauto with refine.
    + intros b s -> _. by exists None.
  - intros a s -> _. by exists None.
Qed.

Lemma ref_stack pd : ref (fun r => r = 0) (setup_user_stack pd) (setup_user_stack c).
Proof.
  unfold setup_user_stack. apply (refines_bind _ _ _ _ (fun r => r = 0)); [apply refines_map_zeroed| |].
  - intros a. ref_auto.
  - intros a s -> _. by exists 0.
Qed.

Lemma ref_build image size pd : ref fails (build_user_image modules now_ticks image size pd) (build_user_image modules now_ticks image size c).
Proof.
  unfold build_user_image. apply (refines_bind _ _ _ _ (fun r => r = 0)); [apply ref_stack| |].
  - intros a. repeat first [solve [eauto with refine] | ref_step]; [apply ref_elf|apply ref_flat].
  - intros a s -> _. by exists None.
Qed.
End Loading.

(** ** Building an address space *)

Section Build.
Context `{KL : KernelLayout}.
Implicit Types (R : roles) (s : Machine) (U D : gset Z) (V : UserView).

Definition no_view : UserView := fun _ => None.

(** The address space of a new directory shows nothing. *)
Lemma created_shown U R s s' c : spaces U R s -> R !! c = None -> spaces U (<[c := RDir]> R) s' -> kept U R s s' -> cr3 s' = cr3 s ->
  shown U R s c no_view s'.
Proof.
  intros HS Hn HS' Hk Hc. pose proof (sp_inv _ _ _ HS) as HI.
  assert (forall d p r, R !! p = Some r -> of_dir c p r = true -> d = c -> False) as Hnone.
  { intros d p r Hp Ho _. unfold of_dir in Ho. apply orb_true_iff in Ho as [->%Z.eqb_eq|Ho]; [congruence|].
    destruct r as [|d' i|d' v w]; [done| |]; apply Z.eqb_eq in Ho as ->.
    - destruct (si_roles _ _ HI _ _ Hp) as (_ & _ & ? & _). congruence.
    - by apply (no_frames R s c HI Hn) in Hp. }
  exists U, (<[c := RDir]> R). split.
  - constructor; try done; [by rewrite lookup_insert_eq|]. apply map_eq. intros p. apply option_eq. intros r.
    rewrite drop_space_lookup, !abs_lookup, lookup_insert_Some. split.
    + intros [[[[<- <-]|[_ Hp]] Ht] Ho]; [|done]. unfold of_dir in Ho. by rewrite Z.eqb_refl in Ho.
    + intros [Hp Ht]. split; [split; [right; split; [congruence|done]|done]|].
      destruct (of_dir c p r) eqn:Ho; [|done]. by destruct (Hnone c p r Hp Ho).
  - intros va Hva. right. split; [|done]. intros f w [[_ ?]|[_ Hf]]%lookup_insert_Some; [done|].
    by apply (no_frames R s c HI Hn) in Hf.
Qed.

(** What the machine is after the address space [c] was made, and after it was given
    back. *)
Lemma built_agrees U D R s c U' R' s' : holds U D R s -> R !! c = None -> user_state U R s c U' R' s' ->
  c ∉ D /\ holds U' (D ∪ {[c]}) R' s' /\ unchanged D s s'.
Proof.
  intros [HS HD] Hn HU. pose proof (sp_inv _ _ _ HS) as HI. pose proof (sp_inv _ _ _ (us_spaces _ _ _ _ _ _ _ HU)) as HI'.
  assert (c ∉ D) as Hc by (rewrite HD; congruence). split; [done|].
  assert (forall e, e ∈ D -> R' !! e = Some RDir) as Hold.
  { intros e He%HD. assert (abs R !! e = Some RDir) as Ha by (by apply abs_dir). by apply (rest_lookup U R s c U' R' s') in Ha as [? _]. }
  split.
  - split; [apply HU|]. intros e. rewrite elem_of_union, elem_of_singleton. split.
    + intros [He|Hec]; [by apply Hold|subst e; apply HU].
    + intros He. destruct (decide (e = c)) as [->|Hne]; [by right|left]. apply HD, abs_dir, (rest_lookup U R s c U' R' s' e RDir HU).
      split_and!; [done|done|]. unfold of_dir. rewrite orb_false_r. by apply Z.eqb_neq.
  - apply (unchanged_intro D R R'); try done.
    + intros e He. split; [by apply HD|by apply Hold].
    + intros e v f w He. assert (e <> c) as Hne by congruence.
      rewrite <- (abs_frame R), <- (abs_frame R'). unfold frame_of. rewrite (rest_lookup U R s c U' R' s' f _ HU), abs_lookup.
      unfold of_dir. split.
      * intros (Hf & Ht & _). done.
      * intros [Hf Ht]. split_and!; [done|done|]. apply orb_false_iff. split; [|by apply Z.eqb_neq].
        apply Z.eqb_neq. intros ->. rewrite (us_dir _ _ _ _ _ _ _ HU) in Hf. done.
    + eapply kept_data. left. apply HU.
Qed.
(** An address space that is given back leaves what was there before it. *)
Lemma given_back U D R s c U' R' s' : holds U D R s -> R !! c = None -> user_state U R s c U' R' s' ->
  wpf never (destroy_user_address_space c) (fun s'' _ => agrees U' D s'' /\ unchanged D s s'' /\ kept U R s s'' /\ cr3 s'' = cr3 s) s'.
Proof.
  intros [HS HD] Hn HU. pose proof (sp_inv _ _ _ HS) as HI. pose proof (sp_inv _ _ _ (us_spaces _ _ _ _ _ _ _ HU)) as HI'.
  assert (cr3 s' <> c) as Hc.
  { rewrite (us_cr3 _ _ _ _ _ _ _ HU). destruct (si_cr3 _ _ HI) as [Hcr|Hd]; [rewrite Hcr|congruence].
    intros E. by apply (role_not_kpd R' s' c RDir HI' (us_dir _ _ _ _ _ _ _ HU)). }
  eapply wpf_mono; [apply (destroy_spec U' R' s' c (us_spaces _ _ _ _ _ _ _ HU) (us_dir _ _ _ _ _ _ _ HU) Hc)|].
  intros s'' _ (HS'' & Hk & Hc''). assert (abs (drop_space c R') = abs R) as HA by (rewrite abs_drop_space; apply HU).
  assert (kept U R s s'') as Hkept by (apply (user_kept U R s c U' R' s' U' R' s'' HU Hk); intros q Hq; by apply (rest_data U R s c U' R' s' q HU)).
  split_and!; [|  |done|by rewrite Hc''; apply HU].
  - exists (drop_space c R'). split; [done|]. intros e. by rewrite HD, <- (abs_dir R), <- HA, abs_dir.
  - apply (unchanged_intro D R (drop_space c R')); try done; [apply HS''| | |by eapply kept_data; left].
    + intros e He%HD. split; [done|]. by rewrite <- abs_dir, HA, abs_dir.
    + intros e v f w _. by rewrite <- (abs_frame R), <- (abs_frame (drop_space c R')), HA.
Qed.

Lemma shown_view U R s c V s' va : shown U R s c V s' -> user_va va -> user_view s' c va = (fun b => (b, true)) <$> V va.
Proof.
  intros (U' & R' & HU & HV) Hva. pose proof (sp_inv _ _ _ (us_spaces _ _ _ _ _ _ _ HU)) as HI.
  assert (0 <= va < 2 ^ 32) as Hr by (unfold user_va, USER_VADDR_MIN, USER_VADDR_MAX in Hva; lia).
  destruct (user_view_spec R' s' c va HI (us_dir _ _ _ _ _ _ _ HU) Hr) as [(f & w & Hf & ->)|[Hno ->]], (HV va Hva) as [(g & Hg & ->)|[Hn ->]].
  - by destruct (frame_unique R' s' c (vpn va) f w g true HI Hf Hg) as [-> ->].
  - by apply Hn in Hf.
  - exfalso. apply Hno. exists g, true. by apply abs_frame.
  - done.
Qed.

(** The pages [U] of the kernel and the address spaces [D] are as they were. *)
Definition left_alone U D s s' : Prop := unchanged D s s' /\ cr3 s' = cr3 s /\
  forall p b, p ∈ U -> p <= b < p + 4096 -> load8 (phys s') b = load8 (phys s) b.

(** What the call leaves when the image builds the view [V] with the entry [e], and it
    returns the directory and the entry, or nothing. *)
Definition built U D V (e : option Z) s s' (res : option (Z * Z)) : Prop := exists U', U ⊆ U' /\ left_alone U D s s' /\
  match res with
  | None => agrees U' D s'
  | Some (d, entry) => e = Some entry /\ d ∉ D /\ agrees U' (D ∪ {[d]}) s' /\
      forall va, user_va va -> user_view s' d va = (fun b => (b, true)) <$> V va
  end.

Lemma exec_space_built U D s guarded modules now_ticks image size V e : agrees U D s ->
  build_user_image modules now_ticks image size 0 no_view = Done V e ->
  wpf copy_fault (exec_space guarded modules now_ticks image size) (built U D V e s) s.
Proof.
  intros (R & HS & HD) Hspec. pose proof (sp_inv _ _ _ HS) as HI. unfold exec_space.
  eapply wpf_seq; [eapply wpf_fault; [by apply (create_spec U R)|by left]|].
  intros s1 c (Hk & Hc & [(-> & HS1 & _)|(Hc0 & _ & Hn & HS1)]).
  { apply wpf_ret. exists U. split; [done|]. split; [|by exists R]. split_and!; [|done|intros p b Hp; apply Hk; by left].
    apply (unchanged_intro D R R); try done; [apply HS1|intros d Hd%HD; done|by eapply kept_data; left]. }
  destruct (Z.eqb_spec c 0); [done|]. pose proof (created_shown U R s s1 c HS Hn HS1 Hk Hc) as Hsh.
  pose proof (ref_build U R s c guarded modules now_ticks image size 0 no_view s1 Hsh) as Hb. rewrite Hspec in Hb.
  eapply wpf_seq; [exact Hb|]. intros s2 r [[-> (U' & R' & HU)]|[-> Hsh2]].
  - eapply wpf_seq; [eapply wpf_fault; [by apply (given_back U D R s c U' R' s2)|by intros ?]|].
    intros s3 [] (HA & Hun & Hk3 & Hc3). apply wpf_ret. exists U'. split; [apply HU|]. split; [|done].
    split_and!; [done|done|]. intros p b Hp. apply Hk3. by left.
  - pose proof Hsh2 as (U' & R' & HU & _). destruct (built_agrees U D R s c U' R' s2 (conj HS HD) Hn HU) as (HcD & HA & Hun).
    assert (left_alone U D s s2) as Hleft.
    { split_and!; [done|apply HU|]. intros p b Hp. apply (us_kept _ _ _ _ _ _ _ HU). by left. }
    destruct e as [entry|].
    + apply wpf_ret. exists U'. split; [apply HU|]. split; [done|]. split_and!; [done|done|by exists R'|].
      intros va Hva. by apply (shown_view U R s).
    + eapply wpf_seq; [eapply wpf_fault; [by apply (given_back U D R s c U' R' s2)|by intros ?]|].
      intros s3 [] (HA3 & Hun3 & Hk3 & Hc3). apply wpf_ret. exists U'. split; [apply HU|]. split; [|done].
      split_and!; [done|done|]. intros p b Hp. apply Hk3. by left.
Qed.
End Build.

(** ** Where an image goes *)

Section Segments.
Context (image : list Z) (size : Z).
Context (Hbytes : Forall is_byte image) (Hsize : size <= Z.of_nat (length image)).
Implicit Types (V : UserView).

(** The headers as the reads find them. *)
Definition value_at {A} (m : FST unit A) : option A := match m tt with Done _ a => Some a | Fault _ => None end.
Definition ehdr_at : option Elf32_Ehdr := value_at (read_ehdr image).
Definition phdr_at (eh : Elf32_Ehdr) (i : Z) : option Elf32_Phdr := value_at (read_phdr image eh i).
Definition shdr_at (eh : Elf32_Ehdr) (i : Z) : option Elf32_Shdr := value_at (read_section image (e_shoff eh) i).

(** A read does the same in every state. *)
Definition plain {S A} (m : FST S A) (m' : FST unit A) : Prop :=
  forall s, match m' tt with Done _ a => m s = Done s a | Fault _ => True end.

Lemma plain_bind {S A B} (m : FST S A) m' (k : A -> FST S B) k' : plain m m' -> (forall a, plain (k a) (k' a)) -> plain (m ≫= k) (m' ≫= k').
Proof.
  intros Hm Hk s. unfold mbind, FST_bind. specialize (Hm s). destruct (m' tt) as [[] a|]; [|done]. rewrite Hm. apply Hk.
Qed.

Lemma plain_field n o S : plain (S := S) (b ← rd_bytes image o n; mret (le_val b)) (b ← rd_bytes image o n; mret (le_val b)).
Proof. intros s. unfold mbind, FST_bind, rd_bytes. by destruct ((0 <=? o) && (0 <=? n) && (o + n <=? Z.of_nat (length image))). Qed.

Ltac plain_auto := repeat first [apply plain_bind; [apply plain_field|intros ?] | by intros ?].

Lemma phdr_read {S} eh i ph (s : S) : phdr_at eh i = Some ph -> read_phdr image eh i s = Done s ph.
Proof.
  unfold phdr_at, value_at. assert (plain (read_phdr (S := S) image eh i) (read_phdr image eh i)) as Hp by (unfold read_phdr, field32; plain_auto).
  specialize (Hp s). destruct (read_phdr image eh i tt); [|done]. intros [= <-]. done.
Qed.

Lemma shdr_read {S} eh i sec (s : S) : shdr_at eh i = Some sec -> read_section image (e_shoff eh) i s = Done s sec.
Proof.
  unfold shdr_at, value_at. assert (plain (read_section (S := S) image (e_shoff eh) i) (read_section image (e_shoff eh) i)) as Hp
    by (unfold read_section, read_shdr, field32; plain_auto).
  specialize (Hp s). destruct (read_section image (e_shoff eh) i tt); [|done]. intros [= <-]. done.
Qed.

Lemma ehdr_read {S} eh (s : S) : ehdr_at = Some eh -> read_ehdr image s = Done s eh.
Proof.
  unfold ehdr_at, value_at. assert (plain (read_ehdr (S := S) image) (read_ehdr image)) as Hp by (unfold read_ehdr, field16, field32; plain_auto).
  specialize (Hp s). destruct (read_ehdr image tt); [|done]. intros [= <-]. done.
Qed.

Lemma field_some o n : 0 <= o -> 0 <= n -> o + n <= Z.of_nat (length image) ->
  exists v, 0 <= v < 256 ^ n /\ forall S (s : S), (b ← rd_bytes image o n; mret (le_val b)) s = Done s v.
Proof.
  intros Ho Hn Hl. exists (le_val (slice o n image)). split.
  - assert (Z.of_nat (length (slice o n image)) = n) as E by (apply slice_length; lia). rewrite <- E at 3. apply le_val_range.
    by apply Forall_slice.
  - intros S s. unfold mbind, FST_bind, rd_bytes.
    destruct (Z.leb_spec 0 o), (Z.leb_spec 0 n), (Z.leb_spec (o + n) (Z.of_nat (length image))); try lia. done.
Qed.

(** The fields of a program header in the image are words. *)
Lemma phdr_some eh i : 0 <= e_phoff eh + i * sizeof_Phdr -> e_phoff eh + i * sizeof_Phdr + 32 <= Z.of_nat (length image) ->
  exists ph, phdr_at eh i = Some ph /\ 0 <= p_offset ph < 2 ^ 32 /\ 0 <= p_vaddr ph < 2 ^ 32 /\ 0 <= p_filesz ph < 2 ^ 32 /\ 0 <= p_memsz ph < 2 ^ 32.
Proof.
  intros Ho Hl. unfold phdr_at, value_at, read_phdr, field32. set (o := e_phoff eh + i * sizeof_Phdr) in *.
  destruct (field_some o 4) as (v0 & _ & E0), (field_some (o + 4) 4) as (v1 & R1 & E1), (field_some (o + 8) 4) as (v2 & R2 & E2),
    (field_some (o + 16) 4) as (v3 & R3 & E3), (field_some (o + 20) 4) as (v4 & R4 & E4), (field_some (o + 28) 4) as (v5 & _ & E5); try lia.
  change (256 ^ 4) with (2 ^ 32) in *.
  unfold mbind at 1, FST_bind at 1. rewrite E0. unfold mbind at 1, FST_bind at 1. rewrite E1. unfold mbind at 1, FST_bind at 1. rewrite E2.
  unfold mbind at 1, FST_bind at 1. rewrite E3. unfold mbind at 1, FST_bind at 1. rewrite E4. unfold mbind at 1, FST_bind at 1. rewrite E5.
  eexists. split; [done|]. simpl. done.
Qed.

(** A section header in the image can be read. *)
Lemma shdr_some eh i : 0 <= e_shoff eh + sizeof_Shdr * i -> e_shoff eh + sizeof_Shdr * i < 2 ^ 32 ->
  e_shoff eh + sizeof_Shdr * i + 40 <= Z.of_nat (length image) -> exists sec, shdr_at eh i = Some sec.
Proof.
  intros Ho Hw Hl. unfold shdr_at, value_at, read_section, read_shdr. rewrite u32_small by lia.
  set (o := e_shoff eh + sizeof_Shdr * i) in *. clearbody o.
  assert (forall d, 0 <= d <= 36 -> exists v, forall (s : unit), field32 image (o + d) s = Done s v) as Hf.
  { intros d Hd. destruct (field_some (o + d) 4) as (v & _ & E); [lia..|]. exists v. intros t. apply E. }
  destruct (Hf 4 ltac:(lia)) as [v0 E0], (Hf 8 ltac:(lia)) as [v1 E1], (Hf 16 ltac:(lia)) as [v2 E2], (Hf 20 ltac:(lia)) as [v3 E3].
  destruct (Hf 24 ltac:(lia)) as [v4 E4], (Hf 28 ltac:(lia)) as [v5 E5], (Hf 32 ltac:(lia)) as [v6 E6], (Hf 36 ltac:(lia)) as [v7 E7].
  unfold mbind, FST_bind. rewrite E0, E1, E2, E3, E4, E5, E6, E7. by eexists.
Qed.

(** *** Segments on a view *)

Definition seg_start (bias : Z) (ph : Elf32_Phdr) : Z := p_vaddr ph +u bias.
(** The pages of a segment. *)
Definition seg_page (bias : Z) (ph : Elf32_Phdr) (a : Z) : bool :=
  (seg_start bias ph / 4096 <=? vpn a) && (vpn a <=? (seg_start bias ph + p_memsz ph - 1) / 4096).
(** What a segment puts on its pages: the bytes of the file, and zeros. *)
Definition seg_byte (bias : Z) (ph : Elf32_Phdr) (a : Z) : Z :=
  let i := a - seg_start bias ph in if (0 <=? i) && (i <? p_filesz ph) then u8 image.[p_offset ph + i] else 0.
Definition seg_view (bias : Z) (ph : Elf32_Phdr) V : UserView := fun a => if seg_page bias ph a then Some (seg_byte bias ph a) else V a.

Lemma map_range_view pd last n : forall first V, is_page first -> is_page last -> user_va first -> user_va last -> first <= last ->
  (last - first) / 4096 < Z.of_nat n ->
  exists V', map_range_loop n pd first last V = Done V' 1 /\
    forall a, V' a = if (first / 4096 <=? vpn a) && (vpn a <=? last / 4096) then Some 0 else V a.
Proof.
  induction n as [|n IH]; intros first V Hf Hl Hfu Hlu Hle Hn.
  { assert (0 <= (last - first) / 4096) by (apply Z.div_pos; lia). lia. }
  cbn [map_range_loop]. destruct (Z.leb_spec first last); [|lia]. unfold mbind, FST_bind. cbn [um_map_zeroed ViewMem].
  rewrite (proj2 (is_user_va_iff first) Hfu). cbn [Z.eqb].
  unfold user_va, USER_VADDR_MIN, USER_VADDR_MAX in *. rewrite u32_small by lia.
  assert (vpn first = first / 4096) as Ev by done.
  destruct (Z.eq_dec first last) as [->|Hne].
  { exists (view_zeroed last V). split.
    - destruct n; cbn [map_range_loop]; destruct (Z.leb_spec (last + 4096) last); done || lia.
    - intros a. unfold view_zeroed. rewrite Ev. destruct (Z.eqb_spec (vpn a) (last / 4096)), (Z.leb_spec (last / 4096) (vpn a)),
        (Z.leb_spec (vpn a) (last / 4096)); done || lia. }
  pose proof (page_below first last Hf Hl ltac:(lia)) as Hnext. destruct Hf as [Hfm Hfr]. pose proof Hl as [Hlm _].
  assert ((first + 4096) / 4096 = first / 4096 + 1) as E1 by (replace (first + 4096) with (first + 1 * 4096) by lia; by rewrite Z.div_add).
  assert (is_page (first + 4096)) as Hp1.
  { split; [|lia]. replace (first + 4096) with (first + 1 * 4096) by lia. by rewrite Z.mod_add. }
  destruct (IH (first + 4096) (view_zeroed first V)) as (V' & EV & HV'); [done|done|lia|lia|lia| |].
  { replace (last - first) with (last - (first + 4096) + 1 * 4096) in Hn by lia. rewrite Z.div_add in Hn by lia. lia. }
  exists V'. split; [done|]. intros a. rewrite HV', E1. unfold view_zeroed. rewrite Ev.
  assert (first / 4096 <= last / 4096) by (apply Z.div_le_mono; lia).
  destruct (Z.leb_spec (first / 4096 + 1) (vpn a)), (Z.leb_spec (vpn a) (last / 4096)), (Z.leb_spec (first / 4096) (vpn a)),
    (Z.eqb_spec (vpn a) (first / 4096)); done || lia.
Qed.

Lemma map_user_range_view pd start len V : 0 <= start < 2 ^ 32 -> 0 <= len < 2 ^ 32 -> is_user_range start len = true ->
  exists V', map_user_range pd start len V = Done V' 1 /\
    forall a, V' a = if (start / 4096 <=? vpn a) && (vpn a <=? (start + len - 1) / 4096) then Some 0 else V a.
Proof.
  intros Hs Hlen Hr. pose proof (user_range_end start len Hs Hlen Hr) as Hend.
  apply (is_user_range_iff start len Hs Hlen) in Hr as (Hlen0 & Hlo & Hhi). unfold map_user_range. rewrite Hend.
  change 0xFFFFF000 with PAGE_MASK. unfold USER_VADDR_MIN, USER_VADDR_MAX in *. rewrite !land_PAGE_MASK by lia. destruct (Z.eqb_spec len 0); [lia|].
  pose proof (Z_div_mod_eq_full start 4096). pose proof (Z.mod_pos_bound start 4096 ltac:(lia)).
  pose proof (Z_div_mod_eq_full (start + len - 1) 4096). pose proof (Z.mod_pos_bound (start + len - 1) 4096 ltac:(lia)).
  assert (0x40000 <= start / 4096) by (apply Z.div_le_lower_bound; lia).
  assert ((start + len - 1) / 4096 <= 0xBFFFF) by (apply Z.lt_succ_r, Z.div_lt_upper_bound; lia).
  assert (start / 4096 <= (start + len - 1) / 4096) by (apply Z.div_le_mono; lia).
  destruct (map_range_view pd ((start + len - 1) / 4096 * 4096)
    (Z.to_nat (((start + len - 1) / 4096 * 4096 - start / 4096 * 4096) / 4096 + 1)) (start / 4096 * 4096) V) as (V' & E & HV').
  - split; [by apply Z.mod_mul|lia].
  - split; [by apply Z.mod_mul|lia].
  - unfold user_va, USER_VADDR_MIN, USER_VADDR_MAX. lia.
  - unfold user_va, USER_VADDR_MIN, USER_VADDR_MAX. lia.
  - lia.
  - rewrite Z2Nat.id; [lia|]. assert (0 <= ((start + len - 1) / 4096 * 4096 - start / 4096 * 4096) / 4096) by (apply Z.div_pos; lia). lia.
  - exists V'. split; [done|]. intros a. by rewrite HV', !Z.div_mul.
Qed.

(** A header whose sum does not wrap. *)
Definition fields_ok (ph : Elf32_Phdr) : Prop :=
  0 <= p_offset ph /\ 0 <= p_filesz ph /\ 0 <= p_memsz ph < 2 ^ 32 /\ p_offset ph + p_filesz ph < 2 ^ 32.

Definition on_segment (bias : Z) (ph : Elf32_Phdr) V : UserView := if loadable ph then seg_view bias ph V else V.

(** Segment data copied to its cleared pages. *)
Lemma seg_copied bias ph V V1 : fields_ok ph -> is_user_range (seg_start bias ph) (p_memsz ph) = true ->
  p_filesz ph <= p_memsz ph -> p_offset ph + p_filesz ph <= Z.of_nat (length image) ->
  (forall a, V1 a = if seg_page bias ph a then Some 0 else V a) ->
  covered V1 (seg_start bias ph) (p_filesz ph) = true /\
  forall a, view_copied (seg_start bias ph) (at_ image (p_offset ph)) 0 (p_filesz ph) V1 a = seg_view bias ph V a.
Proof.
  intros (Ho & Hf0 & Hm & _) Hr Hfm Hl HV1. pose proof (u32_range (p_vaddr ph + bias)) as Hst. fold (seg_start bias ph) in Hst.
  apply (is_user_range_iff (seg_start bias ph) (p_memsz ph) ltac:(lia) Hm) in Hr as (Hm0 & Hlo & Hhi).
  assert (forall a, seg_start bias ph <= a < seg_start bias ph + p_filesz ph -> seg_page bias ph a = true) as Hpage.
  { intros a Ha. unfold seg_page, vpn. apply andb_true_iff. rewrite !Z.leb_le. split; apply Z.div_le_mono; lia. }
  split.
  - apply covered_iff. intros i Hi. rewrite HV1, Hpage by lia. split; [|done]. unfold user_va. lia.
  - intros a. unfold view_copied, seg_view, seg_byte. rewrite HV1, Z.add_0_r.
    destruct (Z.leb_spec (seg_start bias ph) a), (Z.ltb_spec a (seg_start bias ph + p_filesz ph)); cbn [andb].
    + rewrite Hpage by lia. destruct (Z.leb_spec 0 (a - seg_start bias ph)), (Z.ltb_spec (a - seg_start bias ph) (p_filesz ph)); try lia.
      cbn [andb]. unfold at_. rewrite lookup_total_drop. do 3 f_equal. lia.
    + destruct (seg_page bias ph a); [|done]. destruct (Z.ltb_spec (a - seg_start bias ph) (p_filesz ph)); [lia|]. by rewrite andb_false_r.
    + destruct (seg_page bias ph a); [|done]. destruct (Z.leb_spec 0 (a - seg_start bias ph)); [lia|done].
    + destruct (seg_page bias ph a); [|done]. destruct (Z.leb_spec 0 (a - seg_start bias ph)); [lia|done].
Qed.

Lemma segment_view pd eh bias i ph V : phdr_at eh i = Some ph -> fields_ok ph ->
  exists V' r, load_user_segment image size pd eh bias i V = Done V' r /\
    (r = Some tt \/ r = None /\ forall a, V' a = on_segment bias ph V a).
Proof.
  intros Hph Hok. unfold load_user_segment. unfold mbind at 1, FST_bind at 1. rewrite (phdr_read eh i ph) by done. unfold on_segment.
  destruct (loadable ph) eqn:El; cbn [negb]; [|by eexists _, _; split; [done|right]].
  destruct (_ && _); [by eexists _, _; split; [done|left]|]. destruct (_ && _); [by eexists _, _; split; [done|left]|].
  destruct (_ <? p_vaddr ph); [by eexists _, _; split; [done|left]|]. fold (seg_start bias ph).
  destruct (is_user_range (seg_start bias ph) (p_memsz ph)) eqn:Er; cbn [negb]; [|by eexists _, _; split; [done|left]].
  pose proof Hok as (Ho & Hf0 & Hm & Hsum). rewrite u32_small by lia.
  destruct (Z.ltb_spec size (p_offset ph + p_filesz ph)); [by eexists _, _; split; [done|left]|].
  destruct (Z.ltb_spec (p_memsz ph) (p_filesz ph)); [by eexists _, _; split; [done|left]|].
  destruct (map_user_range_view pd (seg_start bias ph) (p_memsz ph) V) as (V1 & E1 & HV1); [apply u32_range|done|done|].
  destruct (seg_copied bias ph V V1 Hok Er) as [Hcov Hview]; [lia..|exact HV1|].
  unfold mbind at 1, FST_bind at 1. rewrite E1. cbn [Z.eqb].
  destruct (Z.ltb_spec 0 (p_filesz ph)).
  - unfold mbind at 1, FST_bind at 1. cbn [um_copy ViewMem]. rewrite Hcov.
    assert (Z.of_nat (length (at_ image (p_offset ph))) = Z.of_nat (length image) - p_offset ph) as Elen by (unfold at_; rewrite length_drop; lia).
    destruct (Z.leb_spec 0 (p_filesz ph)), (Z.leb_spec (p_filesz ph) (Z.of_nat (length (at_ image (p_offset ph))))); try lia.
    cbn [andb]. eexists _, _. split; [done|]. right. split; [done|]. exact Hview.
  - eexists _, _. split; [done|]. right. split; [done|]. intros a. rewrite <- Hview. unfold view_copied.
    destruct (Z.leb_spec (seg_start bias ph + 0) a), (Z.ltb_spec a (seg_start bias ph + p_filesz ph)); try done. lia.
Qed.

(** The segments one after the other. *)
Fixpoint segs_view (bias : Z) (phs : list Elf32_Phdr) V : UserView :=
  match phs with [] => V | ph :: phs' => segs_view bias phs' (on_segment bias ph V) end.

Lemma segs_view_ext bias phs : forall V V', (forall a, V a = V' a) -> forall a, segs_view bias phs V a = segs_view bias phs V' a.
Proof.
  induction phs as [|ph phs IH]; intros V V' HV a; simpl; [done|]. apply IH. intros x. unfold on_segment, seg_view.
  destruct (loadable ph); [|done]. by destruct (seg_page bias ph x).
Qed.

Lemma segs_view_other bias phs : forall V a, Forall (fun q => loadable q = true -> seg_page bias q a = false) phs ->
  segs_view bias phs V a = V a.
Proof.
  induction phs as [|ph phs IH]; intros V a Hq; simpl; [done|]. apply Forall_cons_1 in Hq as [Hp Hq]. rewrite IH by done.
  unfold on_segment, seg_view. destruct (loadable ph); [|done]. by rewrite Hp.
Qed.

Lemma segs_view_at bias phs k ph V a : phs !! k = Some ph -> loadable ph = true -> seg_page bias ph a = true ->
  (forall j q, (k < j)%nat -> phs !! j = Some q -> loadable q = true -> seg_page bias q a = false) ->
  segs_view bias phs V a = Some (seg_byte bias ph a).
Proof.
  revert k V. induction phs as [|p phs IH]; intros k V Hk Hl Hp Hlater; [done|]. destruct k as [|k]; simpl in *.
  - injection Hk as ->. rewrite segs_view_other.
    + unfold on_segment, seg_view. by rewrite Hl, Hp.
    + apply Forall_lookup_2. intros j q Hq. apply (Hlater (S j)); [lia|done].
  - apply (IH k); try done. intros j q Hj Hq. apply (Hlater (S j)); [lia|done].
Qed.

Lemma segments_view pd eh bias phs : forall i V,
  (forall (k : nat) ph, phs !! k = Some ph -> phdr_at eh (i + Z.of_nat k) = Some ph /\ fields_ok ph) ->
  exists V' r, loop (load_user_segment image size pd eh bias) i (length phs) V = Done V' r /\
    (r = Some tt \/ r = None /\ forall a, V' a = segs_view bias phs V a).
Proof.
  induction phs as [|ph phs IH]; intros i V Hphs; cbn [loop length]; [by eexists _, _; split; [done|right]|].
  destruct (Hphs O ph eq_refl) as [Hph Hok]. rewrite Z.add_0_r in Hph.
  destruct (segment_view pd eh bias i ph V Hph Hok) as (V1 & r & E & Hr). unfold mbind at 1, FST_bind at 1. rewrite E.
  destruct Hr as [->|[-> HV1]]; [by eexists _, _; split; [done|left]|].
  destruct (IH (i + 1) V1) as (V2 & r2 & E2 & Hr2).
  { intros k q Hq. replace (i + 1 + Z.of_nat k) with (i + Z.of_nat (S k)) by lia. by apply Hphs. }
  exists V2, r2. split; [done|]. destruct Hr2 as [?|[? HV2]]; [by left|right]. split; [done|]. intros a. rewrite HV2. simpl.
  by apply segs_view_ext.
Qed.

(** *** An image that loads *)

(** A section the loader takes no relocations from. *)
Definition no_relocations (sec : Elf32_Shdr) : Prop := sh_type sec = 0 \/ sh_size sec = 0 \/ rel_kind sec = None.

(** The bytes of the program headers do not wrap around, no segment does in the file,
    and there are no relocations: the loader sees no table of sections, or a table that
    does not wrap around and none of whose sections holds relocations. *)
Record plain_image (eh : Elf32_Ehdr) : Prop := {
  pi_header : ehdr_at = Some eh;
  pi_table : 0 <= e_phoff eh /\ 0 <= e_phnum eh /\ e_phoff eh + e_phnum eh * sizeof_Phdr < 2 ^ 32;
  pi_segments : forall i ph, 0 <= i < e_phnum eh -> phdr_at eh i = Some ph -> p_offset ph + p_filesz ph < 2 ^ 32;
  pi_sections : e_shoff eh = 0 \/ e_shnum eh = 0 \/ e_shentsize eh <> sizeof_Shdr \/
    (0 <= e_shoff eh /\ 0 <= e_shnum eh /\ e_shoff eh + e_shnum eh * sizeof_Shdr < 2 ^ 32 /\
     forall i sec, 0 <= i < e_shnum eh -> shdr_at eh i = Some sec -> no_relocations sec)
}.

(** Nothing is relocated. *)
Lemma relocations_none modules pd eh bias V : plain_image eh -> exists r, apply_elf_relocations modules image size eh pd bias V = Done V r.
Proof.
  intros HP. unfold apply_elf_relocations. destruct (_ || _ || _) eqn:E; [by eexists|]. bsimpl.
  destruct (pi_sections _ HP) as [?|[?|[?|(Ho & Hn & Hw & Hall)]]]; try lia. unfold sizeof_Shdr in Hw.
  rewrite (u32_small (e_shnum eh * sizeof_Shdr)), u32_small by (unfold sizeof_Shdr; lia).
  destruct (Z.ltb_spec size (e_shoff eh + e_shnum eh * sizeof_Shdr)) as [|Htab]; [by eexists|]. unfold sizeof_Shdr in Htab.
  assert (forall n i, 0 <= i -> i + Z.of_nat n <= e_shnum eh -> loop (apply_rel_section modules image size eh pd bias) i n V = Done V None) as Hloop.
  { induction n as [|n IH]; intros i Hi Hin; cbn [loop]; [done|].
    destruct (shdr_some eh i) as [sec Hsec]; [unfold sizeof_Shdr; lia..|]. unfold mbind at 1, FST_bind at 1.
    enough (apply_rel_section modules image size eh pd bias i V = Done V None) as -> by (apply IH; lia).
    unfold apply_rel_section. unfold mbind at 1, FST_bind at 1. rewrite (shdr_read eh i sec) by done.
    destruct (Hall i sec ltac:(lia) Hsec) as [Hr|[Hr|Hr]]; rewrite Hr; rewrite ?Z.eqb_refl, ?orb_true_r; cbn [orb]; [done|done|by destruct (_ || _)]. }
  unfold mbind, FST_bind. rewrite Hloop by lia. by eexists.
Qed.

(** The program headers of an image that holds them all. *)
Lemma all_phdrs eh : plain_image eh -> e_phoff eh + e_phnum eh * sizeof_Phdr <= Z.of_nat (length image) ->
  exists phs, Z.of_nat (length phs) = e_phnum eh /\
    forall (k : nat) ph, phs !! k = Some ph -> phdr_at eh (0 + Z.of_nat k) = Some ph /\ fields_ok ph.
Proof.
  intros HP Hl. pose proof (pi_table _ HP) as (Ho & Hn & _).
  assert (forall i, 0 <= i < e_phnum eh -> exists ph, phdr_at eh i = Some ph /\ fields_ok ph) as Hall.
  { intros i Hi. unfold sizeof_Phdr in *. destruct (phdr_some eh i) as (ph & E & H1 & _ & H3 & H4); [unfold sizeof_Phdr; lia..|].
    exists ph. split; [done|]. split_and!; [lia|lia|lia|lia|]. by apply (pi_segments _ HP i). }
  exists (omap (phdr_at eh) (seqZ 0 (e_phnum eh))).
  assert (forall n i, 0 <= i -> i + Z.of_nat n <= e_phnum eh -> length (omap (phdr_at eh) (seqZ i (Z.of_nat n))) = n /\
    forall k ph, omap (phdr_at eh) (seqZ i (Z.of_nat n)) !! k = Some ph -> phdr_at eh (i + Z.of_nat k) = Some ph /\ fields_ok ph) as Hind.
  { induction n as [|n IH]; intros i Hi Hin; [done|]. rewrite seqZ_cons by lia. destruct (Hall i) as (ph & E & Hok); [lia|].
    cbn [omap list_omap]. rewrite E. replace (Z.pred (Z.of_nat (S n))) with (Z.of_nat n) by lia. rewrite <- Z.add_1_r.
    destruct (IH (i + 1)) as [IHl IHk]; [lia|lia|]. split; [simpl; by f_equal|]. intros [|k] q; cbn [lookup list_lookup].
    - intros [= <-]. by rewrite Z.add_0_r.
    - intros Hq. replace (i + Z.of_nat (S k)) with (i + 1 + Z.of_nat k) by lia. by apply IHk. }
  destruct (Hind (Z.to_nat (e_phnum eh)) 0) as [H1 H2]; [lia|lia|]. rewrite Z2Nat.id in H1, H2 by lia. split; [lia|done].
Qed.

Lemma dyn_range_view eh phs : forall i low high V,
  (forall (k : nat) ph, phs !! k = Some ph -> phdr_at eh (i + Z.of_nat k) = Some ph /\ fields_ok ph) ->
  exists r, dyn_range (M := UserView) image eh i (length phs) low high V = Done V r.
Proof.
  induction phs as [|ph phs IH]; intros i low high V Hphs; cbn [dyn_range length]; [by eexists|].
  unfold mbind at 1, FST_bind at 1. rewrite (phdr_read eh i ph) by (rewrite <- (Z.add_0_r i); by apply (Hphs O)).
  assert (forall (k : nat) q, phs !! k = Some q -> phdr_at eh (i + 1 + Z.of_nat k) = Some q /\ fields_ok q) as Hphs'.
  { intros k q Hq. replace (i + 1 + Z.of_nat k) with (i + Z.of_nat (S k)) by lia. by apply Hphs. }
  destruct (loadable ph); by apply IH.
Qed.

(** What a program sees of an image: its entry point is mapped, and on the pages of each
    segment that no later one shares there are the bytes of the file, and zeros. *)
Definition image_loaded (eh : Elf32_Ehdr) (entry : Z) (view : Z -> option (Z * bool)) : Prop := exists bias,
  (e_type eh = ET_EXEC -> bias = 0) /\ entry = e_entry eh +u bias /\ user_va entry /\ view entry <> None /\
  forall i ph a, 0 <= i < e_phnum eh -> phdr_at eh i = Some ph -> loadable ph = true -> user_va a -> seg_page bias ph a = true ->
    (forall j q, i < j < e_phnum eh -> phdr_at eh j = Some q -> loadable q = true -> seg_page bias q a = false) ->
    view a = Some (seg_byte bias ph a, true).

Definition writable (V : UserView) : Z -> option (Z * bool) := fun a => (fun b => (b, true)) <$> V a.

Lemma segs_loaded eh phs bias entry V V' : Z.of_nat (length phs) = e_phnum eh ->
  (forall (k : nat) ph, phs !! k = Some ph -> phdr_at eh (0 + Z.of_nat k) = Some ph /\ fields_ok ph) ->
  (forall a, V' a = segs_view bias phs V a) -> (e_type eh = ET_EXEC -> bias = 0) -> entry = e_entry eh +u bias -> user_va entry ->
  V' entry <> None -> image_loaded eh entry (writable V').
Proof.
  intros Hlen Hphs HV' Hty He Hu Hm. exists bias. split_and!; [done|done|done| |].
  { unfold writable. by destruct (V' entry). }
  assert (forall i ph, 0 <= i < e_phnum eh -> phdr_at eh i = Some ph -> phs !! Z.to_nat i = Some ph) as Hat.
  { intros i ph Hi Hph. destruct (lookup_lt_is_Some_2 phs (Z.to_nat i)) as [q Hq]; [lia|]. rewrite Hq. destruct (Hphs _ _ Hq) as [E _].
    rewrite Z2Nat.id, Z.add_0_l in E by lia. congruence. }
  intros i ph a Hi Hph Hl Ha Hpg Hlater. unfold writable. rewrite HV', (segs_view_at bias phs (Z.to_nat i) ph V a); try done; [by apply Hat|].
  intros j q Hj Hq. apply (Hlater (Z.of_nat j)); [apply lookup_lt_Some in Hq; lia|]. by destruct (Hphs _ _ Hq).
Qed.

Lemma rd_in {S} o (s : S) : 0 <= o < Z.of_nat (length image) -> rd image o s = Done s image.[o].
Proof. intros Ho. unfold rd. by destruct (Z.leb_spec 0 o), (Z.ltb_spec o (Z.of_nat (length image))); try lia. Qed.

Lemma magic_view {S} (s : S) : take 4 image = [0x7F; 69; 76; 70] -> elf_magic image s = Done s true.
Proof.
  intros Ht. assert (4 <= length image)%nat as Hl by (apply (f_equal length) in Ht; rewrite length_take in Ht; cbn [length] in Ht; lia).
  assert (forall k x, [0x7F; 69; 76; 70] !! k = Some x -> image.[Z.of_nat k] = x) as Hat.
  { intros k x Hk. pose proof (lookup_lt_Some _ _ _ Hk) as Hlt. rewrite <- Ht in Hk. rewrite lookup_take_lt in Hk by (simpl in Hlt; lia).
    rewrite Nat2Z.id. by apply list_lookup_total_correct. }
  unfold elf_magic, mbind, FST_bind.
  rewrite rd_in by lia. rewrite (Hat 0%nat 0x7F eq_refl : image.[0] = _). cbn [Z.eqb negb Pos.eqb].
  rewrite rd_in by lia. rewrite (Hat 1%nat 69 eq_refl : image.[1] = _). cbn [Z.eqb negb Pos.eqb].
  rewrite rd_in by lia. rewrite (Hat 2%nat 76 eq_refl : image.[2] = _). cbn [Z.eqb negb Pos.eqb].
  rewrite rd_in by lia. by rewrite (Hat 3%nat 70 eq_refl : image.[3] = _).
Qed.

Lemma load_elf_view modules now_ticks pd eh V : take 4 image = [0x7F; 69; 76; 70] -> plain_image eh ->
  exists V' r, load_elf32_image modules now_ticks image size pd V = Done V' r /\
    forall entry, r = Some entry -> image_loaded eh entry (writable V').
Proof.
  intros Hmagic HP. pose proof (pi_table _ HP) as (Ho & Hn & Hw). unfold load_elf32_image.
  destruct (Z.ltb_spec size sizeof_Ehdr) as [|Hsz]; [by eexists _, _|]. unfold sizeof_Ehdr in Hsz.
  unfold mbind at 1, FST_bind at 1. rewrite magic_view by done. unfold mbind at 1, FST_bind at 1. rewrite rd_in by lia.
  destruct (negb _); [by eexists _, _|]. unfold mbind at 1, FST_bind at 1. rewrite (ehdr_read eh) by apply HP.
  destruct (negb _); [by eexists _, _|]. destruct (_ && _); [by eexists _, _|]. destruct (negb _); [by eexists _, _|].
  unfold sizeof_Phdr in Hw. rewrite (u32_small (e_phnum eh * sizeof_Phdr)), u32_small by (unfold sizeof_Phdr; lia).
  destruct (Z.ltb_spec size (e_phoff eh + e_phnum eh * sizeof_Phdr)) as [|Htab]; [by eexists _, _|].
  destruct (all_phdrs eh HP) as (phs & Hlen & Hphs); [lia|]. assert (Z.to_nat (e_phnum eh) = length phs) as Elen by lia.
  assert (exists r, (if e_type eh =? ET_DYN then dyn_bias now_ticks image eh else mret (Some 0)) V = Done V r /\
    (e_type eh = ET_EXEC -> r = Some 0)) as (r & Er & Hr).
  { destruct (Z.eqb_spec (e_type eh) ET_DYN) as [->|]; [|by eexists]. unfold dyn_bias. unfold mbind at 1, FST_bind at 1.
    destruct (dyn_range_view eh phs 0 0xFFFFFFFF 0 V Hphs) as ([low high] & E). rewrite Elen, E. by destruct (_ || _); eexists. }
  unfold mbind at 1, FST_bind at 1. rewrite Er. destruct r as [bias|]; [|by eexists _, _].
  unfold mbind at 1, FST_bind at 1. rewrite Elen. destruct (segments_view pd eh bias phs 0 V Hphs) as (V1 & r1 & E1 & Hr1). rewrite E1.
  destruct Hr1 as [->|[-> HV1]]; [by eexists _, _|]. destruct (relocations_none modules pd eh bias V1 HP) as [rr Er1].
  unfold mbind at 1, FST_bind at 1. rewrite Er1. destruct (rr =? 0); [by eexists _, _|]. destruct (is_user_range (e_entry eh +u bias) 1) eqn:Eu; [|by eexists _, _]. cbn [negb].
  apply is_user_range_iff in Eu as (_ & Hlo & Hhi); [|apply u32_range|lia].
  assert (user_va (e_entry eh +u bias)) as Hu by (unfold user_va; lia).
  unfold mbind, FST_bind. cbn [um_mapped ViewMem]. rewrite (proj2 (is_user_va_iff _) Hu). eexists _, _. split; [done|].
  intros entry. destruct (is_mapped V1 (e_entry eh +u bias)) eqn:Em; [intros [= <-]|done]. apply is_mapped_iff in Em.
  apply (segs_loaded eh phs bias _ V); try done. intros Hty. by injection (Hr Hty).
Qed.

Lemma build_elf_view modules now_ticks pd eh : take 4 image = [0x7F; 69; 76; 70] -> plain_image eh ->
  exists V r, build_user_image modules now_ticks image size pd no_view = Done V r /\
    forall entry, r = Some entry -> image_loaded eh entry (writable V).
Proof.
  intros Hmagic HP. unfold build_user_image. unfold mbind at 1, FST_bind at 1.
  assert (setup_user_stack pd no_view = Done (view_zeroed (USER_VA_STACK_TOP - 4096) no_view) 1) as -> by done. cbn [Z.eqb].
  unfold mbind at 1, FST_bind at 1. rewrite magic_view by done. by apply load_elf_view.
Qed.
End Segments.

(** ** The theorems *)

Section Theorems.
Context `{KL : KernelLayout}.
Implicit Types (s : Machine) (U D : gset Z) (V : UserView).


End Theorems.

(** ** The user task *)

Section World.
Context {X B : Type} `{Backends X B} `{EqDecision B} `{KernelImage}.
#[local] Abbreviation tables := (Posix (Vfs X B)).
Implicit Types (p : tables) (w : UserWorld X B).

(** Between two states of the tables only the effective ids of task 2 differ, and what
    the path attributes and the file system hold. *)
Definition same_real (i i' : PosixIdentity) : Prop :=
  uid i' = uid i /\ gid i' = gid i /\ sid i' = sid i /\ pgid i' = pgid i /\ tty i' = tty i.
Definition effective_only p p' : Prop := px_tasks p' = px_tasks p /\ g_fd_rights p' = g_fd_rights p /\
  (forall i, i <> 2%nat -> g_id p' !! i = g_id p !! i) /\
  (forall x', g_id p' !! 2%nat = Some x' -> exists x, g_id p !! 2%nat = Some x /\ same_real x x').
Definition tables_keep {A} (m : ST tables A) : Prop := forall p, effective_only p (m p).1.

Lemma effective_refl p : effective_only p p.
Proof. split_and!; [done..|]. intros x' Hx. by exists x'. Qed.

Lemma effective_trans p p' p'' : effective_only p p' -> effective_only p' p'' -> effective_only p p''.
Proof.
  intros (T1 & F1 & G1 & I1) (T2 & F2 & G2 & I2). split_and!; [congruence|congruence| |].
  - intros i Hi. by rewrite G2, G1.
  - intros x'' Hx. destruct (I2 _ Hx) as (x' & Hx' & ? & ? & ? & ? & ?). destruct (I1 _ Hx') as (x & ? & ? & ? & ? & ? & ?).
    exists x. split; [done|]. unfold same_real. split_and!; congruence.
Qed.

Lemma keep_bind {A C} (m : ST tables A) (k : A -> ST tables C) : tables_keep m -> (forall a, tables_keep (k a)) -> tables_keep (m ≫= k).
Proof.
  intros Hm Hk p. unfold mbind, ST_bind. specialize (Hm p). destruct (m p) as [p1 a]. eapply effective_trans; [exact Hm|apply Hk].
Qed.
Lemma keep_ret {A} (a : A) : tables_keep (mret a).
Proof. intros p. apply effective_refl. Qed.
Lemma keep_get : tables_keep get.
Proof. intros p. apply effective_refl. Qed.
Lemma keep_meta f : tables_keep (modify (fun s => s <| g_path_meta ::= f |>)).
Proof. intros p. split_and!; [done..|]. intros x' Hx. by exists x'. Qed.

Lemma keep_set_id f : (forall i, same_real i (f i)) -> tables_keep (set_id 2 f).
Proof.
  intros Hf p. split_and!; [done|done| |]; simpl; change (Z.to_nat 2) with 2%nat.
  - intros i Hi. by rewrite list_lookup_alter_ne.
  - intros x'. rewrite list_lookup_alter_eq. destruct (g_id p !! 2%nat) as [x|]; [|done]. intros [= <-]. by exists x.
Qed.

Lemma keep_meta_get path : tables_keep (meta_get_or_create path).
Proof.
  apply keep_bind; [apply keep_get|]. intros s. destruct (meta_find _ _); [apply keep_ret|]. destruct (find_idx _ _); [|apply keep_ret].
  apply keep_bind; [apply keep_meta|]. intros []. apply keep_ret.
Qed.

Lemma keep_credentials path : tables_keep (posix_apply_exec_credentials 2 path).
Proof.
  destruct path as [[|x path]|]; [apply keep_ret| |apply keep_ret]. unfold posix_apply_exec_credentials, posix_get_mode, posix_get_owner.
  cbn [negb task_valid]. destruct (negb _); [apply keep_ret|].
  apply keep_bind; [apply keep_bind; [apply keep_meta_get|]|].
  { intros [i|]; [|apply keep_ret]. apply keep_bind; [apply keep_get|]. intros s. apply keep_ret. }
  intros [rc [mode|]]; [|apply keep_ret].
  apply keep_bind; [apply keep_bind; [apply keep_meta_get|]|].
  { intros [i|]; [|apply keep_ret]. apply keep_bind; [apply keep_get|]. intros s. apply keep_ret. }
  intros [rc' [[u g]|]]; [|apply keep_ret].
  apply keep_bind; [destruct (has_flag _ _); [by apply keep_set_id|apply keep_ret]|]. intros [].
  apply keep_bind; [destruct (has_flag _ _); [by apply keep_set_id|apply keep_ret]|]. intros []. apply keep_ret.
Qed.

(** A call of the file system touches none of these tables. *)
Lemma vfs_same {A} (m : ST (Vfs X B) A) p : let p' := (on_vfs m p).1 in
  px_tasks p' = px_tasks p /\ g_id p' = g_id p /\ g_fd_rights p' = g_fd_rights p.
Proof. unfold on_vfs. by destruct (m (px_vfs p)). Qed.

(** The tables of tasks as they were. *)
Definition tasks_same w w' : Prop :=
  px_tasks (uw_posix w') = px_tasks (uw_posix w) /\ g_id (uw_posix w') = g_id (uw_posix w) /\
  g_fd_rights (uw_posix w') = g_fd_rights (uw_posix w) /\ uw_current_task w' = uw_current_task w /\
  uw_task_count w' = uw_task_count w /\ g_user_page_dir w' = g_user_page_dir w /\ g_user_entry w' = g_user_entry w.

Lemma tasks_same_trans w w' w'' : tasks_same w w' -> tasks_same w' w'' -> tasks_same w w''.
Proof. intros (? & ? & ? & ? & ? & ? & ?) (? & ? & ? & ? & ? & ? & ?). unfold tasks_same. split_and!; congruence. Qed.

(** The identity a new task starts with. *)
Definition exec_identity w : PosixIdentity :=
  if task_valid (uw_current_task w) then (g_id (uw_posix w)).[uw_current_task w] else root_identity 2.

(** Slot 2 is the program: its block is new, or marked as ended where there was no
    memory for its stack, and it has the real ids of the caller. *)
Definition user_task_set (user_task_entry : Z) w w' : Prop :=
  (forall i, i <> 2%nat -> px_tasks (uw_posix w') !! i = px_tasks (uw_posix w) !! i /\ g_id (uw_posix w') !! i = g_id (uw_posix w) !! i) /\
  ((exists stack, px_tasks (uw_posix w') !! 2%nat =
      (fun _ => tcb_created 2 user_task_entry (g_user_page_dir w') stack) <$> px_tasks (uw_posix w) !! 2%nat) \/
   px_tasks (uw_posix w') !! 2%nat = (fun t => t <| state := TASK_STATE_TERMINATED |>) <$> px_tasks (uw_posix w) !! 2%nat) /\
  (forall x, g_id (uw_posix w') !! 2%nat = Some x -> same_real (exec_identity w) x) /\
  uw_current_task w' = uw_current_task w /\ g_user_stack_top w' = USER_VA_STACK_TOP - 16.

Context (user_task_entry : Z).

Lemma rights_tables f p : px_tasks (set_task_rights 2 f p) = px_tasks p /\ g_id (set_task_rights 2 f p) = g_id p.
Proof.
  unfold set_task_rights. apply (for_each_inv _ (fun _ s => px_tasks s = px_tasks p /\ g_id s = g_id p)); [done|].
  intros i s _ [Ht Hg]. done.
Qed.

Lemma task_init_tables p cur : let p' := (posix_task_init 2 cur p).1 in px_tasks p' = px_tasks p /\
  g_id p' = <[2%nat := if task_valid cur then (g_id p).[cur] else root_identity 2]> (g_id p).
Proof.
  unfold posix_task_init. change (negb (task_valid 2)) with false. unfold mbind, ST_bind, modify. cbn [fst].
  match goal with |- context [set_task_rights 2 ?f ?q] => destruct (rights_tables f q) as [-> ->] end. done.
Qed.

Lemma create_task_tables pd t pm mem t' pm' mem' : create_task 2 user_task_entry pd t pm mem = Some (t', pm', mem') ->
  os_tasks t' = os_tasks t \/ exists stack, os_tasks t' = upd_task 2 (fun _ => tcb_created 2 user_task_entry pd stack) (os_tasks t).
Proof.
  unfold create_task. destruct (_ || _ || _); [intros [= <- _ _]; by left|].
  destruct (pmm_alloc_page pm) as [[p1 a]|]; [cbn|done]. destruct (a =? 0); [intros [= <- _ _]; by left|].
  destruct (pmm_alloc_page p1) as [[p2 ?]|]; [cbn|done]. destruct (pmm_alloc_page p2) as [[p3 ?]|]; [cbn|done].
  destruct (pmm_alloc_page p3) as [[p4 ?]|]; [cbn|done]. intros [= <- _ _]. right. eexists. by destruct (_ <=? 2).
Qed.

(** A call on the machine changes nothing else. *)
Lemma on_machine_done {A} (m : FST Machine A) w w' a : on_machine m w = Done w' a ->
  exists s, m (uw_machine w) = Done s a /\ w' = w <| uw_machine := s |>.
Proof. unfold on_machine. destruct (m (uw_machine w)) as [s b|]; [|done]. intros [= <- <-]. by exists s. Qed.

Lemma create_user_tables pd w w' u : create_user_task 2 user_task_entry pd w = Done w' u ->
  exists tasks n s, w' = w <| uw_machine := s |> <| uw_posix := (uw_posix w) <| px_tasks := tasks |> |> <| uw_task_count := n |> /\
    (tasks = px_tasks (uw_posix w) \/ exists stack, tasks = upd_task 2 (fun _ => tcb_created 2 user_task_entry pd stack) (px_tasks (uw_posix w))).
Proof.
  unfold create_user_task. destruct (create_task _ _ _ _ _ _) as [[[t' p] words]|] eqn:E; [|done].
  intros (s & _ & ->)%on_machine_done. apply create_task_tables in E. exists (os_tasks t'), (os_task_count t'), s. by split.
Qed.

Lemma finalize_tasks pd entry w w' r : finalize_user_process user_task_entry pd entry w = Done w' r ->
  r = 1 /\ user_task_set user_task_entry w w' /\ g_user_page_dir w' = pd /\ g_user_entry w' = entry.
Proof.
  unfold finalize_user_process. unfold mbind at 1, FST_bind at 1. cbn [fmod].
  set (w1 := _ <| uw_posix ::= _ |>). unfold mbind at 1, FST_bind at 1.
  destruct (create_user_task 2 user_task_entry pd w1) as [w2 []|] eqn:E; [|done].
  apply create_user_tables in E as (tasks & n & s & -> & Ht). set (w2 := _ <| uw_task_count := n |>).
  unfold mbind at 1, FST_bind at 1. cbn [fget]. unfold mbind at 1, FST_bind at 1, on_posix at 1.
  pose proof (task_init_tables (uw_posix w2) (uw_current_task w2)) as [Hpt Hpg].
  destruct (posix_task_init 2 (uw_current_task w2) (uw_posix w2)) as [p3 []]. cbn [fst] in Hpt, Hpg.
  set (w3 := w2 <| uw_posix := p3 |>).
  assert (forall w4, w4 = w3 \/ (exists p4, effective_only p3 p4 /\ w4 = w3 <| uw_posix := p4 |>) ->
    user_task_set user_task_entry w w4 /\ g_user_page_dir w4 = pd /\ g_user_entry w4 = entry) as Hend.
  { intros w4 Hw4. assert (exists p4, effective_only p3 p4 /\ w4 = w3 <| uw_posix := p4 |>) as (p4 & (T & _ & G & I) & ->).
    { destruct Hw4 as [->|?]; [exists p3; split; [apply effective_refl|done]|done]. }
    split; [|done]. unfold user_task_set. cbn. rewrite T, Hpt.
    assert (forall i, i <> 2%nat -> px_tasks (uw_posix w2) !! i = px_tasks (uw_posix w) !! i) as Hother.
    { intros i Hi. cbn. destruct Ht as [->|[stack ->]]; cbn; unfold upd_task; by rewrite ?list_lookup_alter_ne. }
    split_and!; [| | |done|done].
    - intros i Hi. split; [by apply Hother|]. rewrite G, Hpg by done. by rewrite list_lookup_insert_ne.
    - cbn. destruct Ht as [->|[stack ->]]; [right|left; exists stack]; cbn; unfold upd_task; change (Z.to_nat 2) with 2%nat;
        rewrite !list_lookup_alter_eq; by destruct (px_tasks (uw_posix w) !! 2%nat).
    - intros x Hx. destruct (I x Hx) as (x0 & Hx0 & Hs). rewrite Hpg in Hx0. apply list_lookup_insert_Some in Hx0 as [(_ & <- & _)|[? _]]; [exact Hs|done]. }
  change (g_last_exec_path w2) with (g_last_exec_path w). destruct (g_last_exec_path w) as [|x path] eqn:El.
  - unfold mbind, FST_bind. cbn [mret FST_ret]. intros [= <- <-]. split; [done|]. apply Hend. by left.
  - unfold mbind, FST_bind, on_posix. pose proof (keep_credentials (Some (x :: path)) (uw_posix w3)) as Hk.
    destruct (posix_apply_exec_credentials 2 (Some (x :: path)) (uw_posix w3)) as [p4 rc]. cbn [mret FST_ret].
    intros [= <- <-]. split; [done|]. apply Hend. right. by exists p4.
Qed.

(** Before the image is loaded, nothing but the path, the file system and the buffer of
    the image has changed. *)
Definition read_only w (out : outcome (UserWorld X B) Z) : Prop := exists w1, tasks_same w w1 /\ uw_machine w1 = uw_machine w /\
  (out = Done w1 0 \/ exists size, 0 < size <= 4096 /\ out = exec_user_image user_task_entry (g_exec_buffer w1) size w1).

Lemma exec_program_reads path w : read_only w (exec_user_program user_task_entry path w).
Proof.
  unfold exec_user_program. assert (forall w1, tasks_same w w1 -> uw_machine w1 = uw_machine w -> read_only w (Done w1 0)) as Hret.
  { intros w1 H1 H2. exists w1. split; [done|]. split; [done|by left]. }
  destruct path as [[|x path]|]; [by apply Hret| |by apply Hret].
  unfold mbind at 1, FST_bind at 1. cbn [fmod]. set (w1 := w <| g_last_exec_path := _ |>).
  unfold mbind at 1, FST_bind at 1, on_posix at 1. pose proof (vfs_same (Vfs.vfs_stat (Some (x :: path)) false) (uw_posix w1)) as (T1 & I1 & F1).
  destruct (on_vfs _ (uw_posix w1)) as [p2 [rc st]]. cbn [fst] in T1, I1, F1. set (w2 := w1 <| uw_posix := p2 |>).
  assert (tasks_same w w2) as H2 by done. destruct st as [st|]; [|by apply Hret].
  destruct (negb (rc =? VFS_OK) || (VfsDefs.st_flags st =? 0) || (VfsDefs.st_size st =? 0) || (4096 <? VfsDefs.st_size st)) eqn:Est; [by apply Hret|].
  unfold mbind at 1, FST_bind at 1, on_posix at 1. pose proof (vfs_same (Vfs.vfs_read_file (Some (x :: path)) 4096) (uw_posix w2)) as (T3 & I3 & F3).
  destruct (on_vfs _ (uw_posix w2)) as [p3 [n bytes]]. cbn [fst] in T3, I3, F3.
  unfold mbind at 1, FST_bind at 1. cbn [fmod]. set (w3 := _ <| g_exec_buffer ::= _ |>).
  assert (tasks_same w w3) as H3 by (by apply (tasks_same_trans w w2)).
  destruct ((n <=? 0) || negb (n =? VfsDefs.st_size st)) eqn:En; [by apply Hret|]. exists w3. split; [done|]. split; [done|]. right. exists n.
  split; [bsimpl; lia|done].
Qed.
End World.

(** ** Exec on a machine with address spaces *)

Section Exec.
Context {X B : Type} `{Backends X B} `{EqDecision B} `{KL : KernelLayout} (user_task_entry : Z).
Implicit Types (w : UserWorld X B) (s : Machine) (U D : gset Z).

(** Every page below the last three under 8 MiB is in use. *)
Definition stack_full w : Prop := forall q, 0 <= q < LOW / PAGE_SIZE - 3 -> page_used (pmm (uw_machine w)) q = true.

(** The words at the top of a kernel stack: none of the first entries of a page, so the
    mapping of low memory stays, whatever the page is. *)
Definition top_word (a : Z) : Prop := exists p k, a = p + 4 * k /\ is_page p /\ kernel_end <= p /\ p + 4096 <= LOW /\ 1019 <= k < 1024.

Lemma top_store s a v : low_ok s -> top_word a -> exists s', wr32 a v s = Done s' tt /\ low_ok s'.
Proof.
  intros Hl (p & k & -> & Hp & Hk & Hlow & Hr). destruct layout_end, layout_first, layout_second. eexists.
  split; [apply wr32_ent; [done|lia..]|]. destruct Hl as (Hpag & Hc & Hm & Hid).
  assert (forall q i, is_page q -> 0 <= i < 1024 -> q < kernel_end \/ i < 8 -> ent (store32 (phys s) (p + 4 * k) v) q i = ent (phys s) q i) as He.
  { intros q i Hq Hi Hne. rewrite ent_store by (done || lia). destruct (Z.eqb_spec p q), (Z.eqb_spec k i); done || lia. }
  split_and!; [done|done| |].
  - eapply maps_low_ext; [|exact Hm]. intros i Hi. simpl. apply He; [done|lia|by right; lia].
  - intros i Hi. simpl. rewrite !He by (done || (left; lia)). by apply Hid.
Qed.

Lemma store_words_top ws : Forall (fun av => top_word (fst av)) ws -> forall s, low_ok s -> exists s', store_words ws s = Done s' tt.
Proof.
  induction 1 as [|[a v] ws Ha _ IH]; intros s Hs; cbn [store_words]; [by eexists|].
  destruct (top_store s a v Hs Ha) as (s1 & E & Hs1). unfold mbind, FST_bind. rewrite E. by apply IH.
Qed.

Lemma store_words_pmm ws : forall s, match store_words ws s with Done s' _ | Fault s' => pmm s' = pmm s end.
Proof.
  induction ws as [|[a v] ws IH]; intros s; cbn [store_words]; [done|]. unfold mbind, FST_bind, wr32, access.
  destruct (translate s a) as [pa|]; [|done]. exact (IH (set_phys (store32 (phys s) pa v) s)).
Qed.

(** An allocation gives the lowest free page, or none, and takes nothing away. *)
Lemma alloc_lowest p : pmm_wf p -> exists p' a, pmm_alloc_page p = Some (p', a) /\ pmm_wf p' /\
  (forall q, 0 <= q -> page_used p q = true -> page_used p' q = true) /\
  (a <> 0 -> exists n, a = n * PAGE_SIZE /\ 0 <= n < 8192 /\ page_used p n = false /\ forall q, 0 <= q < n -> page_used p q = true).
Proof.
  intros Hwf. destruct (pmm_alloc_page_ok p Hwf) as [(p' & n & E & Hv & Hu & Hlow & Hwf' & Hm)|(p' & E & Hbm & _)].
  - exists p', (n * PAGE_SIZE). split_and!; [done|done| |].
    + intros q Hq Hqu. rewrite Hm by done. by destruct (n =? q).
    + intros _. exists n. unfold valid_page in Hv. rewrite PAGE_COUNT_eq in Hv. done.
  - exists p', 0. split_and!; [done|unfold pmm_wf; by rewrite Hbm| |done]. intros q _. unfold page_used. by rewrite Hbm.
Qed.

Lemma frame_words top func a v : 20 <= top < 2 ^ 32 -> fst (push_frame top func ∅) !! a = Some v ->
  exists k, a = top - 4 * k /\ 1 <= k <= 5.
Proof.
  intros Ht. unfold push_frame. cbn [fst]. rewrite (u32_small (top - 4)), (u32_small (top - 4 - 4)), (u32_small (top - 4 - 4 - 4)), (u32_small (top - 4 - 4 - 4 - 4)),
    (u32_small (top - 4 - 4 - 4 - 4 - 4)) by lia. rewrite !lookup_insert_Some, lookup_empty.
  intros [[<- _]|[_ [[<- _]|[_ [[<- _]|[_ [[<- _]|[_ [[<- _]|[_ ?]]]]]]]]]]; [exists 5|exists 4|exists 3|exists 2|exists 1|done]; lia.
Qed.

(** A new task: a fault only where its stack is not in low memory. *)
Lemma create_user_ok U D pd w : agrees U D (uw_machine w) ->
  wpf stack_full (create_user_task 2 user_task_entry pd) (fun _ _ => True) w.
Proof.
  intros (R & HS & _). pose proof (sp_inv _ _ _ HS) as HI. pose proof (si_pmm _ _ HI) as Hwf. unfold create_user_task, create_task, wpf.
  cbn [Z.leb orb]. change (2 <=? 0) with false. change (MAX_TASKS <=? 2) with false. cbn [orb].
  assert (forall w', match on_machine (store_words (map_to_list (∅ : gmap Z Z))) w' with Done _ _ => True | Fault w'' => stack_full w'' end) as Hnone
    by (intros w'; by rewrite map_to_list_empty).
  destruct (user_task_entry =? 0); [apply Hnone|].
  destruct (alloc_lowest (pmm (uw_machine w)) Hwf) as (p1 & a & E1 & W1 & M1 & Ha). rewrite E1. cbn [mbind option_bind].
  destruct (Z.eqb_spec a 0) as [->|Hne]; [apply Hnone|]. destruct (Ha Hne) as (n & -> & Hn & Hfree & Hlow). clear Hnone.
  destruct (alloc_lowest p1 W1) as (p2 & a2 & E2 & W2 & M2 & _). rewrite E2. cbn [mbind option_bind].
  destruct (alloc_lowest p2 W2) as (p3 & a3 & E3 & W3 & M3 & _). rewrite E3. cbn [mbind option_bind].
  destruct (alloc_lowest p3 W3) as (p4 & a4 & E4 & W4 & M4 & _). rewrite E4. cbn [mbind option_bind].
  destruct (push_frame (n * PAGE_SIZE +u 16384) user_task_entry ∅) as [words stack] eqn:Ew. cbv zeta. unfold on_machine. cbn [uw_machine].
  set (w1 := _ <| uw_task_count := _ |>). change (uw_machine w1) with ((uw_machine w) <| pmm := p4 |>).
  unfold PAGE_SIZE in *. destruct (Z.le_gt_cases (n * 4096 + 16384) LOW) as [Hle|Hgt].
  - destruct (store_words_top (map_to_list words)) with (s := (uw_machine w) <| pmm := p4 |>) as [s' ->]; [| |done].
    + apply Forall_forall. intros [x v] Hx%list_elem_of_In%elem_of_map_to_list. cbn [fst].
      rewrite u32_small in Ew by (unfold LOW in *; lia). pose proof (frame_words (n * 4096 + 16384) user_task_entry x v) as Hf. rewrite Ew in Hf.
      destruct Hf as (k & -> & Hk); [unfold LOW in *; lia|done|]. exists (n * 4096 + 12288), (1024 - k).
      assert (kernel_end <= n * 4096).
      { destruct layout_end as [Hpe _]. rewrite (page_number _ Hpe). unfold PAGE_SIZE. destruct (Z.ltb_spec n (kernel_end / PAGE_SIZE)); [|unfold PAGE_SIZE in *; lia].
        rewrite (si_kernel _ _ HI) in Hfree by lia. done. }
      split_and!; [lia| |lia|lia|lia|lia]. split; [|unfold LOW in *; lia]. replace (n * 4096 + 12288) with ((n + 3) * 4096) by lia. by apply Z.mod_mul.
    + exact (inv_low R _ HI).
  - pose proof (store_words_pmm (map_to_list words) ((uw_machine w) <| pmm := p4 |>)) as Hp.
    destruct (store_words _ _) as [s' u|s']; [done|]. intros q Hq. cbn [uw_machine]. simpl. rewrite Hp. cbn [pmm].
    apply M4, M3, M2, M1; try lia. apply Hlow. unfold LOW, PAGE_SIZE in *. change (8388608 / 4096) with 2048 in Hq. lia.
Qed.

(** How a call can page-fault: for want of memory below 8 MiB, or of the copy window. *)
Definition exec_fault w : Prop := copy_fault (uw_machine w) \/ stack_full w.

Lemma finalize_ok U D pd entry w : agrees U D (uw_machine w) ->
  wpf exec_fault (finalize_user_process user_task_entry pd entry) (fun w' r => r = 1 /\ user_task_set user_task_entry w w' /\
    g_user_page_dir w' = pd /\ g_user_entry w' = entry) w.
Proof.
  intros HA. assert (wpf exec_fault (finalize_user_process user_task_entry pd entry) (fun _ _ => True) w) as Hf.
  { unfold finalize_user_process. eapply wpf_step; [done|]. eapply wpf_seq; [eapply wpf_fault; [by apply (create_user_ok U D)|by right]|].
    intros w1 [] _. eapply wpf_step; [done|]. eapply wpf_seq with (R := fun _ _ => True).
    - unfold wpf, on_posix. by destruct (posix_task_init _ _ _).
    - intros w2 [] _. eapply wpf_seq with (R := fun _ _ => True); [|done]. destruct (g_last_exec_path w1); [done|].
      unfold wpf, mbind, FST_bind, on_posix. by destruct (posix_apply_exec_credentials _ _ _). }
  unfold wpf in *. destruct (finalize_user_process user_task_entry pd entry w) as [w' r|] eqn:E; [|done]. by apply finalize_tasks in E.
Qed.

(** What an exec of an image does that gives the view [V] with the entry [e]. *)
Definition exec_done U D (e : option Z) w w' (r : Z) : Prop :=
  (r = 0 /\ tasks_same w w' /\ exists U', U ⊆ U' /\ left_alone U D (uw_machine w) (uw_machine w') /\ agrees U' D (uw_machine w')) \/
  (r = 1 /\ user_task_set user_task_entry w w' /\ e = Some (g_user_entry w') /\ g_user_page_dir w' ∉ D).

Lemma exec_image_ok U D image size V e w : agrees U D (uw_machine w) -> 0 < size <= 4096 ->
  build_user_image (uw_modules w) (uw_ticks w) image size 0 no_view = Done V e ->
  wpf exec_fault (exec_user_image user_task_entry image size) (exec_done U D e w) w.
Proof.
  intros HA Hs Hv. unfold exec_user_image. destruct (Z.eqb_spec size 0), (Z.ltb_spec 4096 size); try lia. cbn [orb]. eapply wpf_step; [done|].
  pose proof (exec_space_built U D (uw_machine w) true (uw_modules w) (uw_ticks w) image size V e HA Hv) as Hb.
  apply wpf_bind. unfold wpf at 1, on_machine. unfold wpf in Hb. destruct (exec_space true _ _ _ _ (uw_machine w)) as [s1 res|s1]; [|by left].
  destruct Hb as (U' & HU & Hl & Hres). destruct res as [[pd entry]|].
  - destruct Hres as (He & Hd & HA1 & _). eapply wpf_mono; [by apply (finalize_ok U' (D ∪ {[pd]}))|].
    intros w' r (-> & Hset & <- & <-). right. split; [done|]. split; [exact Hset|]. by split.
  - apply wpf_ret. left. split; [done|]. split; [done|]. by exists U'.
Qed.

End Exec.

(** ** A program *)

(** The machine once paging is on. *)
Lemma booted `{KL : KernelLayout} (U : gset Z) (s : Machine) : before_paging U s ->
  match init_paging 0 s with Done s1 _ => exists U', agrees U' ∅ s1 | Fault _ => False end.
Proof.
  intros Hs. pose proof (init_paging_spec U 0 s Hs ltac:(by left)) as Hi. unfold wpf in Hi. destruct (init_paging 0 s) as [s1 ?|]; [|by destruct Hi].
  destruct Hi as (U' & _ & HS & _). exists U'. by apply agrees_boot.
Qed.

#[local] Existing Instance demo_image.
#[local] Existing Instance demo_image_layout.

(** The tables of the module loader without any module. *)
Definition no_modules : Loader :=
  {| g_modules := []; g_kernel_exports := []; g_kernel_export_count := 0; g_pending_relocs := []; g_dlerror := [];
     g_module_pool := []; g_module_pool_cursor := 0; g_load_buf := []; ld_current_task := 0 |}.

(** An executable of one segment: four bytes of code at 0x40004000 and four zeros. *)
Definition demo_elf : list Z :=
  [0x7F; 69; 76; 70; 1; 1; 1; 0; 0; 0; 0; 0; 0; 0; 0; 0] ++ le_bytes 2 2 ++ le_bytes 2 3 ++ le_bytes 4 1 ++ le_bytes 4 0x40004000 ++
  le_bytes 4 52 ++ le_bytes 4 0 ++ le_bytes 4 0 ++ le_bytes 2 52 ++ le_bytes 2 32 ++ le_bytes 2 1 ++ le_bytes 2 40 ++ le_bytes 2 0 ++ le_bytes 2 0 ++
  le_bytes 4 1 ++ le_bytes 4 84 ++ le_bytes 4 0x40004000 ++ le_bytes 4 0 ++ le_bytes 4 4 ++ le_bytes 4 8 ++ le_bytes 4 5 ++ le_bytes 4 1 ++
  [0xEB; 0xFE; 0x90; 0x90].

Definition demo_ehdr : Elf32_Ehdr :=
  {| e_type := 2; e_machine := 3; e_entry := 0x40004000; e_phoff := 52; e_shoff := 0; e_phentsize := 32; e_phnum := 1; e_shentsize := 40; e_shnum := 0 |}.

Lemma demo_elf_plain : plain_image demo_elf demo_ehdr.
Proof.
  constructor; [by vm_compute|by vm_compute| |by left]. intros i ph Hi. simpl in Hi. assert (i = 0) as -> by lia.
  assert (phdr_at demo_elf demo_ehdr 0 = Some {| p_type := 1; p_offset := 84; p_vaddr := 0x40004000; p_filesz := 4; p_memsz := 8; p_align := 1 |})
    as -> by (by vm_compute). by intros [= <-].
Qed.



(** The call on that machine, and what the program sees at some addresses. *)
Definition demo_exec (image : list Z) : option (Z * list (option (Z * bool))) :=
  match init_paging 0 demo_machine with
  | Done s _ =>
      match exec_space false no_modules 0 image (Z.of_nat (length image)) s with
      | Done s' (Some (d, entry)) =>
          Some (entry, map (user_view s' d) [0x40000000; 0x40001FF0; 0x40003FFF; 0x40004000; 0x40004001; 0x40004004; 0x40004FFF])
      | _ => None
      end
  | Fault _ => None
  end.

Example demo_exec_elf : demo_exec demo_elf =
  Some (0x40004000, [None; Some (0, true); None; Some (0xEB, true); Some (0xFE, true); Some (0, true); Some (0, true)]).
Proof. by vm_compute. Qed.

(** A flat image lies on the page that is meant to guard the stack. *)
Example demo_exec_flat : demo_exec [0xEB; 0xFE; 0x90; 0x90] =
  Some (0x40000000, [Some (0xEB, true); Some (0, true); None; None; None; None; None]).
Proof. by vm_compute. Qed.

(** An executable with one relocation, whose target section claims the address of an
    entry of the kernel's page directory: loading it stores a word of the image there. *)
Definition hostile_elf : list Z :=
  take 32 demo_elf ++ le_bytes 4 112 ++ le_bytes 4 0 ++ le_bytes 2 52 ++ le_bytes 2 32 ++ le_bytes 2 1 ++ le_bytes 2 40 ++ le_bytes 2 3 ++ le_bytes 2 0 ++
  drop 52 demo_elf ++
  (* the relocation, and the symbol *)
  le_bytes 4 0 ++ le_bytes 4 R_386_GLOB_DAT ++ le_bytes 4 0 ++ le_bytes 4 0x12345678 ++ le_bytes 4 0 ++ [0; 0] ++ le_bytes 2 1 ++
  (* the sections: relocations, symbols, strings *)
  concat (map (le_bytes 4) [0; SHT_REL; 0; 0; 88; 8; 1; 1; 0; 8; 0; SHT_SYMTAB; 0; 0x100FF0; 96; 16; 2; 0; 0; 16; 0; SHT_STRTAB; 0; 0; 0; 0; 0; 0; 0; 0]).

Example exec_writes_kernel_memory :
  match init_paging 0 demo_machine with
  | Done s _ =>
      match exec_space false no_modules 0 hostile_elf (Z.of_nat (length hostile_elf)) s with
      | Done s' (Some _) => Some (load32 (phys s) 0x100FF0, load32 (phys s') 0x100FF0)
      | _ => None
      end
  | Fault _ => None
  end = Some (2, 0x12345678).
Proof. by vm_compute. Qed.

(** The loader on the view, which does not own that address, faults there. *)
Example hostile_not_covered : match build_user_image no_modules 0 hostile_elf 232 0 no_view with Fault _ => true | Done _ _ => false end = true.
Proof. by vm_compute. Qed.

(** A run of [exec_user_program] by the kernel task on a file system of one file. *)
#[local] Instance one_file : Backends bool unit := {| backend_ops := fun _ =>
  {| o_open := Some (fun _ _ => mret 0); o_close := Some (fun _ => mret 0);
     o_read := Some (fun _ _ _ done => if done : bool then (true, (0, [])) else (true, (Z.of_nat (length demo_elf), demo_elf)));
     o_stat := Some (fun _ _ => mret (VFS_OK, Some {| VfsDefs.st_size := Z.of_nat (length demo_elf); VfsDefs.st_flags := 1 |}));
     o_write := None; o_delete := None; o_lseek := None; o_rename := None; o_mkdir := None; o_rmdir := None; o_truncate := None;
     o_ftruncate := None; o_chmod := None; o_chown := None; o_link := None; o_symlink := None; o_readlink := None |} |}.

Definition demo_world (s : Machine) : UserWorld bool unit :=
  {| uw_machine := s; uw_current_task := 0; uw_task_count := 1; uw_modules := no_modules; uw_ticks := 0; g_user_page_dir := 0; g_user_entry := 0;
     g_user_stack_top := 0; g_exec_buffer := zero_bytes 4096; g_last_exec_path := [];
     uw_posix := {| g_path_meta := []; g_id := replicate 8 (root_identity 0); g_fd_rights := replicate 512 0; g_tty_fg_pgrp := []; g_tty_sid := [];
       g_users := []; g_groups := []; px_tasks := os_tasks_init;
       px_vfs := {| mounts := [{| m_used := 1; m_path := [47]; m_len := 1; m_ops := Some tt |}];
         Vfs.fd_table := replicate 8 {| f_used := 0; f_ops := None; f_backend_handle := 0; f_flags := 0; f_ref_count := 0 |};
         task_fd_map := replicate (TASK_MAX_FDS * 8) (-1); Vfs.os_current_task := 0; backend := false |} |} |}.

Definition demo_world_exec : option (Z * Z * Z * Z) :=
  match init_paging 0 demo_machine with
  | Done s _ =>
      match exec_user_program 0x101234 (Some [47; 97]) (demo_world s) with
      | Done w r => Some (r, g_user_entry w, state (px_tasks (uw_posix w)).[2], eip (px_tasks (uw_posix w)).[2])
      | Fault _ => None
      end
  | Fault _ => None
  end.

Example demo_world_exec_result : demo_world_exec = Some (1, 0x40004000, TASK_STATE_READY, 0x101234).
Proof. by vm_compute. Qed.

